(* ===== verification/_CoqProject ===== *)
-Q . S2P
Prelude.v
Scan.v
Request.v
RequestLine.v
RequestLineFacts.v
RequestLineProps.v
ParseUri.v
ComplexUri.v
ComplexUriFacts.v
ComplexUriSpec.v
ProcessUri.v
RequestRoundTrip.v
HeaderLine.v
HeaderLineProps.v
HeaderBlock.v
StatusLine.v
Chunked.v
ChunkedProps.v
ChunkedBody.v
ParseTime.v
ParseTimeProps.v
RoundRobin.v
RoundRobinWeights.v
RoundRobinFacts.v
RoundRobinWorld.v
RoundRobinProps.v
UriUtil.v
UriUtilProps.v
Locations.v
LocationsFacts.v
LocationsProps.v
HttpRequest.v
Variables.v
VariablesFacts.v
Script.v
ScriptFacts.v
ScriptCompile.v
ScriptCompileFacts.v
ScriptProps.v
Phases.v
PhasesProps.v
Subrequests.v
SubrequestsFacts.v
SubrequestsSteps.v
SubrequestsProps.v
Zones.v
FileCache.v
FileCacheTree.v
FileCacheSteps.v
FileCacheProps.v
HeaderFilter.v
HeaderFilterProps.v
RequestBody.v
RequestBodyErrors.v
RequestBodyFacts.v
RequestBodyReading.v
RequestBodyProps.v
UpstreamHeaders.v
UpstreamHeadersFacts.v
UpstreamHeadersProps.v
UpstreamCaching.v
UpstreamState.v
Upstream.v
UpstreamPeers.v
UpstreamFacts.v
UpstreamSteps.v
UpstreamConnect.v
UpstreamProps.v
UpstreamBytes.v
HostName.v
HostNameProps.v
RequestHeaders.v
RequestHeadersProps.v
ReadRequest.v
ReadRequestShift.v
ReadRequestSpec.v
ReadRequestFollows.v
ReadRequestProps.v
WriteFilter.v
CoreContent.v
