(* ===== verification/Prelude.v ===== *)
(** * The HTTP core of octopoda: a verification library

    octopoda is an HTTP cache built from two code bases.  The C part,
    [src/src/http/ngx_*.c], is the HTTP core of nginx: it reads requests,
    parses and normalises them, reads bodies, and talks to upstream servers.
    This library models the functions of it that decide something about bytes
    or shared counters, each translated from its source, and proves what they
    promise.  The C++ part (a cache and its header library from Apache Traffic
    Server) is not modelled.

    ** How the parts interact in the program

    [ngx_http_parse_request_line] reads the first line into a request;
    [ngx_http_process_request_uri] normalises the URI it found with
    [ngx_http_parse_complex_uri] when a flag asks for it;
    [ngx_http_parse_header_line] is called in a loop that pushes one element
    per header; [ngx_http_parse_chunked] decodes a chunked body under the body
    filters; an upstream is chosen by the round-robin balancer, and its answer
    starts with a line for [ngx_http_parse_status_line].  All the line parsers
    are resumable: they keep their state in the request and are called again
    when the buffer has more bytes.  The handlers of a connection call them: they
    read into the buffer of the connection and, for a line that does not fit, into
    large ones, moving the pointers of the parser; the headers find a handler each
    and select the server; and what is left in a buffer begins the next request.

    A request that is read goes through the phases ([ngx_http_handler]): the
    handlers of the modules are called in the order the configuration gave them,
    the location is found in the tree, and a rewrite or a redirect starts over.
    Strings of the configuration are compiled to codes over the variables of a
    request and run by the script engine.  A handler may start subrequests; the
    postpone filter puts their output into its place in the answer.  Answers of
    upstreams are kept in files; a node in shared memory tells the worker
    processes, the cache manager and the cache loader about each of them.

    ** Files

    - [Prelude]: bytes as [Z], memory as a list with [rd] and [slice], machine
      integers ([wrap], [swrap]), return codes, record update, shared lemmas,
      the tactics [b2p], [open_ptr], [split_ifs] and the hint database [http].
    - [Scan]: the [for] over a buffer that every line parser is, once.  The
      class [StreamParser] is what such a parser offers and
      [StreamParserLaws] what it promises (a step keeps its invariant, the
      result depends only on the bytes read, stopping and resuming is the same
      as going on); [scan_parser] builds an instance from one step and
      [feed_one_shot] is the theorem its clients get.
    - [Request]: [ngx_http_request_s], the fields the parsers use, and the
      table [usual] of [ngx_http_parse.c].
    - [RequestLine], [RequestLineFacts], [RequestLineProps]:
      [ngx_http_parse_request_line], a [case_*] per state, with the method
      words of both builds.
    - [ParseUri]: [ngx_http_parse_uri].  [ComplexUri], [ComplexUriFacts],
      [ComplexUriSpec]: [ngx_http_parse_complex_uri] and the specification by
      segments it refines.  [ProcessUri]: [ngx_http_process_request_uri] of
      [ngx_http_request.c].  [RequestRoundTrip]: printing and parsing.
    - [HeaderLine], [HeaderLineProps], [HeaderBlock]:
      [ngx_http_parse_header_line] and the loop of
      [ngx_http_process_request_headers].
    - [StatusLine]: [ngx_http_parse_status_line].
    - [Chunked], [ChunkedProps], [ChunkedBody]: [ngx_http_parse_chunked] and
      the filters of [ngx_http_request_body.c].
    - [ParseTime], [ParseTimeProps]: [ngx_http_parse_time].
    - [RoundRobin]: [ngx_http_upstream_round_robin.c]; its groups of peers are
      in a heap because requests share them.  [RoundRobinWeights] is the
      arithmetic of a selection, [RoundRobinFacts] what one selection does,
      [RoundRobinGroup] and [RoundRobinWorld] the invariants of a group, a heap
      and a request, [RoundRobinReach] the worlds that requests reach in any
      order, [RoundRobinProps] the promises.
    - [UriUtil], [UriUtilProps], [Cookies]: [ngx_http_parse_unsafe_uri],
      [ngx_http_arg], [ngx_http_split_args] and
      [ngx_http_parse_multi_header_lines].
    - [Locations]: the [location] blocks of [ngx_http.c], from their queue to
      the search tree, and the search of [ngx_http_core_module.c];
      [LocationsFacts] is the order of names and the search of one level,
      [LocationsForest] the search of the whole tree, [LocationsProps] the
      construction and the theorem for a configuration.
    - [HttpRequest]: the fields of a request that the parts below share.
    - [Variables], [VariablesFacts], [VariablesProps]: the names, indices and
      values of variables, and the handlers of [ngx_http_variables.c] for
      headers, cookies, arguments, maps and regular expressions.
    - [Script]: the engine of [ngx_http_script.c] with all its codes;
      [ScriptCompile]: the compiler of strings with variables.  [ScriptFacts]
      is what the codes of a string do, [ScriptCompileFacts] that compiling
      gives these codes, [ScriptProps] the promises about strings and programs.
      The class [Script.Env] is what the engine calls; its client theorems
      take the laws of it as the class [EnvOk].
    - [Phases], [PhasesProps]: the array of phase handlers of [ngx_http.c], and
      the checkers, the loop and the redirects of [ngx_http_core_module.c].
    - [Subrequests]: [ngx_http_postpone_filter_module.c],
      [ngx_http_subrequest], and the part of [ngx_http_request.c] that ends a
      request and runs posted requests.  [SubrequestsFacts] is the invariant of
      the tree of requests, [SubrequestsSteps] the step relation of requests
      that write, start subrequests and end in any order, with the invariant
      kept by every step, [SubrequestsProps] the promises.
    - [Zones]: programs of processes that share memory: critical sections,
      words used or looked at without the mutex, calls; the threads of a pool interleave at
      every one of these, and a program logic ([wp], [sound]) reasons about one
      operation at a time.  [FileCache]: [ngx_http_file_cache.c] as such
      programs.  [FileCacheTree] is the search tree of keys, [FileCacheFacts]
      the invariant of the zone with what the processes hold of it,
      [FileCacheSteps] a triple for every operation, [FileCacheRuns] when a
      process may start which operation, and computed runs, [FileCacheProps]
      the promises.
    - [HeaderFilter], [HeaderFilterProps]: [ngx_http_header_filter], which counts
      the length of a response header and then writes it.
    - [RequestBody]: [ngx_http_request_body.c]: reading a body into buffers that
      point into [r->header_in] and [rb->buf], or into a temporary file, and
      discarding one.  [RequestBodyErrors] is what holds whatever fails,
      [RequestBodyFacts] the invariant of the chains of buffers with the two
      filters as decoders, [RequestBodyReading] the invariant of the reading loop,
      [RequestBodyProps] the promise about a whole body.
    - [UpstreamHeaders]: the part of [ngx_http_upstream.c] that handles the
      headers of a response: the table of headers, the handlers that read a header
      and those that pass it on, [ngx_http_upstream_process_headers].
      [UpstreamHeadersFacts] is what each handler does, [UpstreamHeadersProps]
      the promises about a response, [UpstreamCaching] those about its validity.
    - [UpstreamState]: the fields of [ngx_http_upstream_t], of its request and of
      the two connections, the monad of the functions over them, and the class
      [World] of what they ask of sockets, timers, modules and the nginx core.
      [Upstream]: the rest of [ngx_http_upstream.c] from the creation of an upstream to
      [ngx_http_upstream_finalize_request] as programs of that monad: cache,
      resolver, balancer, connecting, TLS, sending, reading header and body (with
      and without buffering, or in memory), upgraded connections, retries; and
      the handlers of the events ([dispatch], [run]).  [UpstreamPeers] bounds the
      attempts by the peers not yet tried, [UpstreamFacts] has the weakest
      preconditions and the books that every function keeps, [UpstreamSteps] a
      triple for each function of an attempt, [UpstreamConnect] those of the
      retries and of the events, [UpstreamProps] the promises about a request
      and computed runs, [UpstreamBytes] those about an upgraded connection.

    - [HostName], [HostNameProps]: [ngx_http_validate_host] and the choice of a
      virtual server, of [ngx_http_request.c].  [RequestHeaders],
      [RequestHeadersProps]: the table of request headers with its handlers,
      [ngx_http_process_request_header] and [ngx_http_process_request].
    - [ReadRequest]: the two handlers that read a request line and headers, large
      header buffers, pipelined and kept connections, as a machine ([dispatch],
      [run]) of which every step is an event.  [ReadRequestSpec] reads a request
      off the front of a string ([whole_request]).  [ReadRequestShift],
      [ReadHeaderShift] and [ReadDoneShift]: the line parsers and what follows them
      do the same wherever the bytes are in memory.  [ReadRequestBuffers]: busy and
      free buffers, and the part of the stream that is in memory.
      [ReadRequestFollows]: every turn keeps the machine where the specification
      is.  [ReadRequestProps] is the step from event to event, [ReadRequestSafe] the
      promise about the memory a connection writes, [ReadRequestExact] about where
      it is and why it ends.
    - [WriteFilter], [WriteFilterProps]: [ngx_http_write_filter], which keeps output,
      gives it to the socket and slows it down.
    - [CoreContent], [CoreContentProps]: what [ngx_http_core_module.c] offers to
      handlers and filters: types and tags, the file of a URI, the user of a request,
      whether a client takes gzip, the address of a client behind proxies.

    A file has a module of its name; some have a second one, named above, which needs
    little more: [Cookies] is in [UriUtilProps], [RoundRobinGroup] in
    [RoundRobinFacts], [RoundRobinReach] in [RoundRobinWorld], [LocationsForest] in
    [LocationsFacts], [VariablesProps] in [VariablesFacts], [FileCacheFacts] in
    [FileCacheTree], [FileCacheRuns] in [FileCacheSteps], [ReadHeaderShift] and
    [ReadDoneShift] in [ReadRequestShift], [ReadRequestBuffers] in
    [ReadRequestFollows], [ReadRequestSafe] and [ReadRequestExact] in [ReadRequestProps]; [WriteFilterProps]
    and [CoreContentProps] are in the file of the definitions.

    A definition has the name of the C function, or [case_*] for a state of a
    [switch]; a pointer into a buffer is an offset; [None] is a null pointer;
    a [goto] is a label of an inductive type.

    ** What the theorems show

    - Refinement: [complex_uri_refines] (the normaliser computes the segment
      specification), [location_lookup] (the tree answers as the blocks say),
      [chunked_filter_refines] (the body filter is the machine
      of the coding, byte by byte), [subrequests_in_order] (what is sent is the
      document in order, whatever the interleaving of the requests),
      [connection_exact] (a connection reads the requests of its stream, however the
      bytes come, and any other end of it has its reason).
    - Requests: [validate_host_exact], [request_headers_typed], [request_framed],
      [reading_safe] (no write behind a buffer when servers agree on the buffers).
    - Bodies and headers: [body_read_exactly] (a body in any pieces, and not a byte
      after it), [read_body_answers] (codes and references on every path),
      [header_fits], [response_roundtrip].
    - Output: [write_filter_in_order] (nothing is lost or repeated on the way to the
      socket), [rate_kept] (the limit holds at any time), [write_filter_answers].
    - The core for handlers: [gzip_accepted], [forwarded_client],
      [basic_user_roundtrip], [map_uri_to_path_fits].
    - Processes: [file_cache_safe], [file_cache_counts], [file_cache_lookup]
      hold in every interleaving of requests, manager and loader.
    - Upstreams: [upstream_accounts], [upstream_leaks_nothing] (connections and
      peers are given back, a request is ended once), [upstream_returns] (retries
      and loops end), [tunnel_in_order]; the headers of a response:
      [headers_well_typed], [headers_passed_on], [redirect_leaves],
      [caching_decided].
    - Termination and progress: [phases_terminate], [engine_terminates],
      [subrequests_finish], [file_cache_expire_ends].
    - Strings and variables: [complex_value_expands], [script_fits],
      [variable_index_stable], [headers_joined], [header_variable_found].
    - Phases: [phases_layout], [access_decides].
    - Round trips: [request_line_roundtrip], [header_block_roundtrip],
      [chunked_roundtrip], [cache_header_roundtrip], [parse_time_correct]: what is printed is parsed back,
      with the pointers, flags, keys, hashes and seconds it has to have.
    - Resumption: [request_line_segments], [header_line_segments],
      [status_line_segments]: the way a line is cut into segments does not
      matter, from one theorem on [StreamParser].
    - Safety and bounds: [complex_uri_safe], [complex_uri_local],
      [uri_buffer_fits], [plain_uri_unchanged], [request_line_sound],
      [header_line_sound], [status_line_sound], [chunked_length_bound],
      [parse_time_in_bounds].
    - The balancer: [fair_shares] (exact proportion over every period),
      [weights_bounded] (no overflow in any reachable world),
      [retries_distinct], [requests_in_bounds], [select_best], [init_groups].
    - Lookups: [unsafe_uri_exact], [arg_lookup], [cookie_lookup],
      [method_recognised], [recognise_little_endian].
    - Behaviour that is a surprise, each proved on a concrete input:
      [byte_after_space_unchecked], [max_body_size_bypassed],
      [chunk_size_wraps], [stale_name_copy], [bytes_after_chunk_skipped],
      [day_zero_accepted], [bare_name_hides_next], [leading_dot_dot_accepted],
      [redirect_depends_on_tree], [long_name_truncated], [stale_is_args],
      [captures_replaced], [flushes_without_pcre], [unkept_output_lost],
      [main_ending_on_a_subrequest_hangs], [size_lost], [size_doubled],
      [key_twice], [expire_spins], [upgraded_then_closed],
      [stale_redirect_ends_twice], [accel_first], [accel_last], [max_age_wraps],
      [charset_length_wraps], [dot_in_port], [second_coding_ignored],
      [busy_array_overrun], [dots_overrun], [chain_left_loose],
      [second_gzip_taken], [byte_before_header].

    ** Fuel and bounds

    The scanning loops recurse on the bytes not yet read.  The normaliser puts
    a decoded byte through its [switch] again, so it has two turns per byte
    ([ComplexUri.fuel]); [complex_uri_safe] shows the fuel is never used up.
    [chunked_filter] has a turn per byte and one more, which
    [chunked_filter_refines] shows to be enough.  The balancer's recursion
    follows [next] once, so its fuel is 2, and [requests_in_bounds] shows that
    a call returns.  The argument and cookie loops have a turn per byte, and
    each turn passes one; the lookup theorems hold at that fuel.  The tree of
    locations is built with a turn per element, which [location_lookup] shows
    to be enough.  The loop over the phases takes one from its fuel per turn and
    per redirect; [phases_terminate] shows that 32 turns per phase handler are
    enough.  A run of codes has one turn per code
    ([engine_terminates]).  The loop over posted requests has as much fuel as
    it needs, which [subrequests_finish] shows to exist.  The expiring loop of
    the file cache has a turn per node and one more
    ([file_cache_expire_ends]); the loops of the manager and of the loader go
    on as long as other processes or the directory give them work, and their
    safety is shown for any fuel.  Reading a body has a turn per byte and per
    segment that the socket has ([RequestBody.read_fuel]), which [read_body_answers]
    shows to be enough; [chunked_loop] has a turn per byte and one more, which
    [loop_ok] shows to be enough for a body.  A request to an
    upstream has two bounds: the attempts of one call of
    [ngx_http_upstream_connect], of which one more than there are peers is enough,
    and the turns of a loop over a socket, of which one more than there are answers
    of the world with bytes in them is enough ([bounded], [upstream_returns]).
    The handlers that read a request take two turns per byte that has arrived, and
    two more, which [connection_exact] shows to be enough.
    The search for "gzip" and the way back through a header of addresses have a turn
    per byte and one more, and each turn passes one; [gzip_accepted] and
    [forwarded_client] hold at that fuel.
    Integers of the source are [Z] with [wrap] or
    [swrap] where they can wrap; the weights of the balancer are plain [Z],
    which [weights_bounded] justifies, and so is the size of the file cache.

    ** What is not modelled

    Functions that are not under [src/] (the nginx core: hashes, string
    functions, allocation, time, resolver, TLS) are section variables, with
    their documented behaviour as named hypotheses where a theorem needs it.
    A socket is a list of the segments it has.
    Of a connection, accepting it, TLS handshakes, lingering close and the memory it
    gives back while it waits are left out, and the length of a body among the
    bytes after the headers is a parameter of [ReadRequest] ([body_length]).
    Not modelled: the loop of events, SPDY, the copy filter, the pages of special
    responses, [ngx_http_send_response], the checks for symbolic links,
    the directives and variables of upstreams and of the file cache, configuration
    parsing, and the C++ code.  Of the upstream module the event pipe, the
    protocol modules and sockets are the world; the branches for kqueue and for
    the half-closed events of epoll are left out.  [upstream_accounts] and its
    companions are for requests that are not upgraded and configurations that do
    not serve stale answers on errors: the two examples of [UpstreamProps] show
    what the code does otherwise.  The phases see the special responses and the
    finalisation of a request as a function, and so the subrequests: there,
    [ngx_http_finalize_request] is modelled for the codes a filter answers,
    without [post_action], timers and the closing of the connection.  The
    accessors of the many variables that are one field of a request are
    numbers, called through a parameter.
 *)

From Stdlib Require Export ZArith Lia.
From Stdlib Require Import Strings.Byte.
From Stdlib Require Strings.String.
Export String.StringSyntax.
Delimit Scope string_scope with string.
From stdpp Require Export base decidable numbers list option.
#[global] Open Scope Z_scope.

(** ** Characters

    A [u_char] is a [Z] in [0, 256).  A one-character literal in [c_scope] is
    its code, so ["A"%c] is the numeral 65, as ['A'] is in C. *)

Definition char_of_byte (b : Byte.byte) : option Z := Some (Z.of_N (Byte.to_N b)).
Definition byte_of_char (z : Z) : option Byte.byte := Byte.of_N (Z.to_N z).

Declare Scope c_scope.
Delimit Scope c_scope with c.
String Notation Z char_of_byte byte_of_char : c_scope.

Abbreviation LF := 10 (only parsing).
Abbreviation CR := 13 (only parsing).
Abbreviation TAB := 9 (only parsing).
Abbreviation NUL := 0 (only parsing).

(** A string literal of the source as the list of its bytes. *)
Definition bytes_of (s : String.string) : list Z :=
  map (fun b => Z.of_N (Byte.to_N b)) (String.list_byte_of_string s).
Arguments bytes_of s%_string.

(** [c | 0x20], the source's ASCII lower-casing of a letter. *)
Definition lc (ch : Z) : Z := Z.lor ch 32.

Definition is_digit (ch : Z) : bool := ("0"%c <=? ch) && (ch <=? "9"%c).
Definition is_upper (ch : Z) : bool := ("A"%c <=? ch) && (ch <=? "Z"%c).
Definition is_lower (ch : Z) : bool := ("a"%c <=? ch) && (ch <=? "z"%c).

(** [ngx_tolower] *)
Definition tolower (c : Z) : Z := if is_upper c then lc c else c.

(** What a [u_char] holds. *)
Definition u_char (ch : Z) : Prop := 0 <= ch < 256.

(** A decidable fact about every byte is checked on the 256 of them. *)
Lemma for_all_bytes (P : Z -> Prop) {dec : forall z, Decision (P z)} :
  forallb (fun n => bool_decide (P (Z.of_nat n))) (seq 0 256) = true ->
  forall ch, u_char ch -> P ch.
Proof.
  intros H ch Hch. rewrite forallb_forall in H.
  rewrite <- (Z2Nat.id ch) by (unfold u_char in Hch; lia).
  eapply bool_decide_eq_true_1, H, in_seq. unfold u_char in Hch. lia.
Qed.

(** ** Machine integers *)

Definition wrap (w z : Z) : Z := z mod 2 ^ w.
(** Two's complement reading of a [w]-bit word. *)
Definition swrap (w z : Z) : Z := (z + 2 ^ (w - 1)) mod 2 ^ w - 2 ^ (w - 1).

Lemma wrap_range w z : 0 <= w -> 0 <= wrap w z < 2 ^ w.
Proof. intros Hw. apply Z.mod_pos_bound. lia. Qed.

Lemma wrap_small w z : 0 <= z < 2 ^ w -> wrap w z = z.
Proof. apply Z.mod_small. Qed.

Lemma swrap_small w z : 0 < w -> - 2 ^ (w - 1) <= z < 2 ^ (w - 1) -> swrap w z = z.
Proof.
  intros Hw Hz. unfold swrap. rewrite Z.mod_small; [lia|].
  replace (2 ^ w) with (2 * 2 ^ (w - 1)); [lia|].
  rewrite <- Z.pow_succ_r by lia. f_equal; lia.
Qed.

Lemma swrap_range w z : 0 < w -> - 2 ^ (w - 1) <= swrap w z < 2 ^ (w - 1).
Proof.
  intros Hw. unfold swrap.
  pose proof (Z.mod_pos_bound (z + 2 ^ (w - 1)) (2 ^ w) ltac:(lia)).
  replace (2 ^ w) with (2 * 2 ^ (w - 1)) in *; [lia|].
  rewrite <- Z.pow_succ_r by lia. f_equal; lia.
Qed.

(** [(b << n) | a] when [a] fits below bit [n]. *)
Lemma lor_shiftl_add a b n : 0 <= n -> 0 <= a < 2 ^ n -> Z.lor (Z.shiftl b n) a = b * 2 ^ n + a.
Proof.
  intros Hn Ha. rewrite <- Z.shiftl_mul_pow2 by done.
  assert (Hz : Z.land (Z.shiftl b n) a = 0).
  { apply Z.bits_inj'. intros i Hi. rewrite Z.land_spec, Z.bits_0.
    destruct (decide (i < n)).
    - by rewrite Z.shiftl_spec_low.
    - rewrite <- (Z.mod_small a (2 ^ n)) by done.
      rewrite Z.mod_pow2_bits_high by lia. apply andb_false_r. }
  by rewrite Z.add_nocarry_lxor, <- Z.lxor_lor by done.
Qed.

(** ** Return codes

    The codes of the nginx core ([NGX_OK], [NGX_AGAIN], ...) are zero or
    negative and are constructors here; every other [ngx_int_t] a function
    returns is a [Code]. *)

Inductive ngx_rc :=
| NGX_OK | NGX_ERROR | NGX_AGAIN | NGX_BUSY | NGX_DONE | NGX_DECLINED
| Code (z : Z).

#[export] Instance ngx_rc_eq_dec : EqDecision ngx_rc.
Proof. solve_decision. Defined.

Definition NGX_HTTP_PARSE_HEADER_DONE : ngx_rc := Code 1.
Definition NGX_HTTP_PARSE_INVALID_METHOD : ngx_rc := Code 10.
Definition NGX_HTTP_PARSE_INVALID_REQUEST : ngx_rc := Code 11.
Definition NGX_HTTP_PARSE_INVALID_09_METHOD : ngx_rc := Code 12.
Definition NGX_HTTP_PARSE_INVALID_HEADER : ngx_rc := Code 13.

(** ** Record update: [r <| f := v |>] *)

Class Setter {R T} (f : R -> T) := set_field : T -> R -> R.
#[export] Hint Mode Setter - - ! : typeclass_instances.
Notation "r <| f := v |>" := (set_field (f := f) v r)
  (at level 1, f at level 10, v at level 200, format "r  <| f  :=  v |>").

(** [derive_setter eta f] builds the setter of the field [f] from [eta r], the
    record written out as its constructor applied to its fields. *)
Ltac derive_setter eta f :=
  match type of f with
  | ?R -> ?T =>
      exact (fun (v : T) (r : R) =>
        ltac:(let e := eval unfold eta in (eta r) in
              let e := eval pattern (f r) in e in
              match e with ?g _ => let e := eval cbv beta in (g v) in exact e end))
  end.

(** ** Bytes in memory

    A buffer's memory is the list of its bytes; a pointer into it is a [Z]
    offset.  [rd] reads one byte, [slice m a b] is the bytes of [[a, b)]. *)

Definition rd (m : list Z) (p : Z) : Z := nth (Z.to_nat p) m 0.
Definition slice (m : list Z) (a b : Z) : list Z :=
  take (Z.to_nat (b - a)) (drop (Z.to_nat a) m).

Lemma rd_app_l m ys p : 0 <= p < Z.of_nat (length m) -> rd (m ++ ys) p = rd m p.
Proof. intros H. unfold rd. apply app_nth1. lia. Qed.

Lemma rd_mid xs ch ys : rd (xs ++ ch :: ys) (Z.of_nat (length xs)) = ch.
Proof. unfold rd. rewrite Nat2Z.id. rewrite app_nth2 by lia. by rewrite Nat.sub_diag. Qed.

Lemma slice_mid xs m ys :
  slice (xs ++ m ++ ys) (Z.of_nat (length xs)) (Z.of_nat (length xs + length m)) = m.
Proof.
  unfold slice. rewrite Nat2Z.id.
  replace (Z.to_nat _) with (length m) by lia.
  rewrite drop_app_length, take_app_length. done.
Qed.

Lemma rd_snoc_eq pre ch p : p = Z.of_nat (length pre) -> rd (pre ++ [ch]) p = ch.
Proof. intros ->. apply (rd_mid pre ch []). Qed.

Lemma rd_snoc_lt pre ch i : 0 <= i < Z.of_nat (length pre) -> rd (pre ++ [ch]) i = rd pre i.
Proof. apply rd_app_l. Qed.

Lemma length_snoc_Z {A} (pre : list A) x p :
  p = Z.of_nat (length pre) -> p + 1 = Z.of_nat (length (pre ++ [x])).
Proof. rewrite length_app. simpl. lia. Qed.

Lemma nth_drop_Z (m : list Z) a i : 0 <= a -> 0 <= i ->
  nth (Z.to_nat i) (drop (Z.to_nat a) m) 0 = nth (Z.to_nat (a + i)) m 0.
Proof.
  intros Ha Hi. rewrite Z2Nat.inj_add by done.
  generalize (Z.to_nat a) (Z.to_nat i). intros n. revert m.
  induction n as [|n IH]; intros [|x m] k; simpl; [done|done|by destruct k|apply IH].
Qed.

Lemma rd_drop m a i : 0 <= a -> 0 <= i -> rd (drop (Z.to_nat a) m) i = rd m (a + i).
Proof.
  intros Ha Hi. unfold rd. rewrite nth_drop_Z by done. done.
Qed.

Lemma slice_app_inv m a b xs ys : 0 <= a -> slice m a b = xs ++ ys ->
  slice m a (a + Z.of_nat (length xs)) = xs /\ slice m (a + Z.of_nat (length xs)) b = ys.
Proof.
  intros Ha H. unfold slice in *.
  assert (Hl : length (xs ++ ys) = length (take (Z.to_nat (b - a)) (drop (Z.to_nat a) m)))
    by by rewrite H.
  rewrite length_take, length_app in Hl. rewrite Z2Nat.inj_add, Nat2Z.id by lia.
  replace (Z.to_nat (a + _ - a)) with (length xs) by lia. split.
  - rewrite <- (Nat.min_l (length xs) (Z.to_nat (b - a))) by lia.
    rewrite <- firstn_firstn.
    by rewrite H, take_app_length.
  - rewrite <- drop_drop. replace (Z.to_nat (b - _)) with (Z.to_nat (b - a) - length xs)%nat by lia.
    by rewrite <- skipn_firstn_comm, H, drop_app_length.
Qed.

Lemma slice_cons_inv m a b c ys : 0 <= a -> slice m a b = c :: ys ->
  rd m a = c /\ slice m (a + 1) b = ys /\ a < b.
Proof.
  intros Ha H. pose proof (slice_app_inv m a b [c] ys Ha H) as [H1 H2]. split_and!; [|exact H2|].
  - unfold slice in H1. rewrite <- (Z.add_0_r a) at 1. rewrite <- rd_drop by lia. unfold rd.
    replace (Z.to_nat (a + _ - a)) with 1%nat in H1 by (simpl; lia).
    destruct (drop (Z.to_nat a) m); simpl in H1; by simplify_eq.
  - unfold slice in H. destruct (decide (a < b)); [done|].
    by replace (Z.to_nat (b - a)) with O in H by lia.
Qed.

Lemma length_slice m a b : 0 <= a <= b -> b <= Z.of_nat (length m) ->
  Z.of_nat (length (slice m a b)) = b - a.
Proof. intros Ha Hb. unfold slice. rewrite length_take, length_drop. lia. Qed.

Lemma slice_snoc m a i : 0 <= a <= i -> i < Z.of_nat (length m) ->
  slice m a (i + 1) = slice m a i ++ [rd m i].
Proof.
  intros Ha Hi. unfold slice, rd. replace (Z.to_nat (i + 1 - a)) with (S (Z.to_nat (i - a))) by lia.
  destruct (drop (Z.to_nat a) m !! Z.to_nat (i - a)) as [c|] eqn:E.
  - rewrite (take_S_r _ _ c) by done. rewrite lookup_drop in E.
    replace (Z.to_nat a + Z.to_nat (i - a))%nat with (Z.to_nat i) in E by lia.
    by rewrite nth_lookup, E.
  - apply lookup_ge_None in E. rewrite length_drop in E. lia.
Qed.

Lemma slice_cons m a b : 0 <= a < b -> b <= Z.of_nat (length m) ->
  slice m a b = rd m a :: slice m (a + 1) b.
Proof.
  intros Ha Hb. destruct (slice m a b) as [|c l] eqn:E.
  - pose proof (length_slice m a b ltac:(lia) Hb) as H. rewrite E in H. simpl in H. lia.
  - by apply slice_cons_inv in E as (-> & -> & _); [|lia].
Qed.

Lemma slice_nil m a : slice m a a = [].
Proof. unfold slice. by rewrite Z.sub_diag. Qed.

Lemma slice_app_l m ys a b : 0 <= a -> b <= Z.of_nat (length m) -> slice (m ++ ys) a b = slice m a b.
Proof.
  intros Ha Hb. unfold slice. destruct (decide (a <= b)).
  - rewrite drop_app_le by lia. apply take_app_le. rewrite length_drop. lia.
  - by replace (Z.to_nat (b - a)) with O by lia.
Qed.

Lemma rd_slice m a b i : 0 <= a -> 0 <= i < b - a -> rd (slice m a b) i = rd m (a + i).
Proof.
  intros Ha Hi. rewrite <- rd_drop by lia. unfold slice, rd.
  generalize (drop (Z.to_nat a) m). intros l.
  rewrite <- (take_drop (Z.to_nat (b - a)) l) at 2.
  destruct (decide (Z.to_nat i < length (take (Z.to_nat (b - a)) l))%nat).
  - by rewrite app_nth1.
  - rewrite nth_overflow by lia. rewrite length_take in *. rewrite nth_overflow; [done|].
    rewrite length_app, length_take, length_drop. lia.
Qed.

(** Every byte of [[a, b)] satisfies [P]. *)
Definition all_in (m : list Z) (a b : Z) (P : Z -> Prop) : Prop := forall i, a <= i < b -> P (rd m i).

Lemma all_in_old m x a b P : 0 <= a -> b <= Z.of_nat (length m) -> all_in m a b P -> all_in (m ++ x) a b P.
Proof. intros Ha Hb H i Hi. rewrite rd_app_l by lia. by apply H. Qed.

Lemma all_in_snoc m x a b (P : Z -> Prop) : 0 <= a -> b = Z.of_nat (length m) ->
  all_in m a b P -> P x -> all_in (m ++ [x]) a (b + 1) P.
Proof.
  intros Ha -> H Hx i Hi. destruct (decide (i = Z.of_nat (length m))) as [->|].
  - by rewrite rd_mid.
  - rewrite rd_app_l by lia. apply H. lia.
Qed.

Lemma all_in_nil m a (P : Z -> Prop) : all_in m a a P.
Proof. intros i Hi. lia. Qed.

Lemma all_in_le m a b b' P : b' <= b -> all_in m a b P -> all_in m a b' P.
Proof. intros Hb H i Hi. apply H. lia. Qed.

(** A pointer field that is set, with what is known of it. *)
Definition ptr (o : option Z) (P : Z -> Prop) : Prop := from_option P False o.

Lemma ptr_some o (P : Z -> Prop) : ptr o P <-> exists z, o = Some z /\ P z.
Proof.
  destruct o as [z|]; unfold ptr; simpl; split; [eauto | | done | ].
  - by intros (? & [= ->] & ?).
  - by intros (? & ? & ?).
Qed.

Lemma ptr_impl o (P Q : Z -> Prop) : ptr o P -> (forall z, P z -> Q z) -> ptr o Q.
Proof. destruct o; unfold ptr; simpl; auto. Qed.

(** ** Automation *)

(** The facts on bytes, slices and machine integers that close side goals. *)
Create HintDb http.
#[export] Hint Resolve wrap_range swrap_range slice_nil all_in_nil all_in_old all_in_le : http.
#[export] Hint Resolve rd_snoc_eq rd_snoc_lt length_snoc_Z ptr_impl : http.


(** Boolean tests of the source turned into propositions [lia] reads. *)
Ltac b2p :=
  repeat match goal with
  | H : _ && _ = true |- _ => apply andb_true_iff in H as [? ?]
  | H : _ || _ = false |- _ => apply orb_false_iff in H as [? ?]
  | H : negb _ = true |- _ => apply negb_true_iff in H
  | H : negb _ = false |- _ => apply negb_false_iff in H
  | H : (_ =? _) = true |- _ => apply Z.eqb_eq in H
  | H : (_ =? _) = false |- _ => apply Z.eqb_neq in H
  | H : (_ <=? _) = true |- _ => apply Z.leb_le in H
  | H : (_ <=? _) = false |- _ => apply Z.leb_gt in H
  | H : (_ <? _) = true |- _ => apply Z.ltb_lt in H
  | H : (_ <? _) = false |- _ => apply Z.ltb_ge in H
  end.

(** Open what is known of pointer fields. *)
Ltac open_ptr := repeat match goal with
  | H : Some _ = Some _ |- _ => injection H as H; subst
  | H : ptr ?o _ |- _ =>
      let z := fresh "z" in let E := fresh "E" in apply ptr_some in H as (z & E & H)
  | H : _ /\ _ |- _ => destruct H
  | H : ?o = Some _ |- context [ptr ?o _] => rewrite H; cbn [ptr from_option]
  | H : ?o = Some _, H' : ?o = Some _ |- _ => rewrite H in H'; injection H' as H'; subst
  | |- context [ptr (Some _) _] => cbn [ptr from_option]
  end.

(** Destruct the tests of the goal one at a time. *)
Ltac split_ifs :=
  repeat match goal with
  | |- context [if ?b then _ else _] => let E := fresh "E" in destruct b eqn:E
  end.
