(* ===== verification/Scan.v ===== *)
(** * Byte scanners

    Every parser of [ngx_http_parse.c] has the same shape: locals are loaded
    from the request, [for (p = b->pos; p < b->last; p++)] runs a [switch] on
    the state for each byte, a [goto] or [return] leaves the loop at the byte
    it is on, and falling out of the loop saves the locals and returns
    [NGX_AGAIN].  This file holds that loop ([scan]), the buffer it runs over,
    and the contract such a parser offers its caller ([StreamParser]): it can
    be fed its input in any pieces. *)

From S2P Require Import Prelude.

(** ** The loop *)

Inductive outcome (S L : Type) :=
| Next (s : S)              (** [break]: go on with the next byte *)
| Stop (l : L) (s : S).     (** [goto l] or [return l] *)
Arguments Next {S L} s.
Arguments Stop {S L} l s.

Section Scan.
Context {S L : Type}.
Implicit Types (s : S) (l : L) (p : Z) (bs : list Z).
Variable step : Z -> Z -> S -> outcome S L.

Fixpoint scan p bs s : Z * S * option L :=
  match bs with
  | [] => (p, s, None)
  | ch :: bs' =>
      match step p ch s with
      | Next s' => scan (p + 1) bs' s'
      | Stop l s' => (p, s', Some l)
      end
  end.

Lemma scan_app p xs ys s :
  scan p (xs ++ ys) s =
    match scan p xs s with
    | (p', s', None) => scan p' ys s'
    | r => r
    end.
Proof.
  revert p s; induction xs as [|ch xs IH]; intros p s; simpl; [done|].
  destruct (step p ch s); [apply IH | done].
Qed.

Lemma scan_none_pos p bs s p' s' :
  scan p bs s = (p', s', None) -> p' = p + Z.of_nat (length bs).
Proof.
  revert p s; induction bs as [|ch bs IH]; intros p s; simpl.
  - intros [= <- _]. lia.
  - destruct (step p ch s); [|done]. intros H%IH. lia.
Qed.

Lemma scan_some_pos p bs s p' s' l :
  scan p bs s = (p', s', Some l) -> p <= p' < p + Z.of_nat (length bs).
Proof.
  revert p s; induction bs as [|ch bs IH]; intros p s; simpl; [done|].
  destruct (step p ch s); [|intros [= <- _ _]; lia].
  intros H%IH. lia.
Qed.

(** Rule induction: [I] relates the bytes read so far to the locals. *)
Lemma scan_invariant (I : list Z -> Z -> S -> Prop) (Q : list Z -> Z -> Z -> L -> S -> Prop) :
  (forall pre p ch s, I pre p s ->
     match step p ch s with
     | Next s' => I (pre ++ [ch]) (p + 1) s'
     | Stop l s' => Q pre p ch l s'
     end) ->
  forall bs pre p s, I pre p s ->
  match scan p bs s with
  | (p', s', None) => I (pre ++ bs) p' s'
  | (p', s', Some l) =>
      exists mid ch post, bs = mid ++ ch :: post
        /\ p' = p + Z.of_nat (length mid) /\ Q (pre ++ mid) p' ch l s'
  end.
Proof.
  intros Hstep bs; induction bs as [|ch bs IH]; intros pre p s HI; simpl.
  - by rewrite app_nil_r.
  - specialize (Hstep pre p ch s HI). destruct (step p ch s) as [s'|l s'].
    + specialize (IH _ _ _ Hstep).
      destruct (scan (p + 1) bs s') as [[p' s''] [l|]].
      * destruct IH as (mid & c & post & -> & -> & HQ).
        exists (ch :: mid), c, post. simpl. rewrite <- app_assoc in HQ. simpl in HQ.
        split; [done|]. split; [lia|]. done.
      * by rewrite <- app_assoc in IH.
    + exists [], ch, bs. rewrite app_nil_r. split; [done|]. split; [simpl; lia|done].
Qed.
End Scan.

(** Two step functions that agree on the bytes scanned give the same scan. *)
Lemma scan_ext {S L} (f g : Z -> Z -> S -> outcome S L) (I : Z -> S -> Prop) bs : forall p s,
  (forall p' ch s', I p' s' -> p <= p' < p + Z.of_nat (length bs) ->
     f p' ch s' = g p' ch s' /\ forall s'', f p' ch s' = Next s'' -> I (p' + 1) s'') ->
  I p s -> scan f p bs s = scan g p bs s.
Proof.
  induction bs as [|ch bs IH]; intros p s Hfg HI; simpl; [done|].
  destruct (Hfg p ch s HI ltac:(simpl; lia)) as [Heq Hn]. rewrite <- Heq.
  destruct (f p ch s) as [s'|l s'] eqn:E; [|done].
  apply IH; [|by apply Hn].
  intros p' c s'' HI' Hp'. apply Hfg; [done|]. simpl. lia.
Qed.

(** ** Buffers

    [b_mem] is the memory from [b->start] to [b->last], so [b->last] is its
    length; [b_pos] is [b->pos].  [received b ys] is the buffer after
    [recv] appended [ys] at [b->last]. *)

Record ngx_buf := Buf { b_mem : list Z; b_pos : Z }.

Definition b_last (b : ngx_buf) : Z := Z.of_nat (length (b_mem b)).
Definition unread (b : ngx_buf) : list Z := drop (Z.to_nat (b_pos b)) (b_mem b).
Definition received (b : ngx_buf) (ys : list Z) : ngx_buf := Buf (b_mem b ++ ys) (b_pos b).
Definition buf_wf (b : ngx_buf) : Prop := 0 <= b_pos b <= b_last b.

Lemma unread_received b ys : buf_wf b -> unread (received b ys) = unread b ++ ys.
Proof.
  intros [H1 H2]. unfold unread, received, b_last in *; simpl.
  apply drop_app_le. lia.
Qed.

Lemma length_unread b : buf_wf b -> Z.of_nat (length (unread b)) = b_last b - b_pos b.
Proof. intros [H1 H2]. unfold unread, b_last in *. rewrite length_drop. lia. Qed.

Lemma unread_at_end m ys : unread (Buf (m ++ ys) (Z.of_nat (length m))) = ys.
Proof. unfold unread; simpl. by rewrite Nat2Z.id, drop_app_length. Qed.

(** ** The contract of a stream parser

    [St] is what the parser keeps between calls.  [sp_ok] is the invariant a
    caller maintains.  [sp_same rc] says which results a caller cannot tell
    apart when the code is [rc]: after a fatal code nothing but the code
    itself matters. *)

Class StreamParser (St : Type) := {
  sp_parse : St -> ngx_buf -> ngx_rc * St * ngx_buf;
  sp_ok : St -> ngx_buf -> Prop;
  sp_same : ngx_rc -> relation (St * ngx_buf);
  sp_same_equiv :: forall rc, Equivalence (sp_same rc);
}.

Definition same_result `{StreamParser St} (x y : ngx_rc * St * ngx_buf) : Prop :=
  x.1.1 = y.1.1 /\ sp_same x.1.1 (x.1.2, x.2) (y.1.2, y.2).

#[export] Instance same_result_equiv `{StreamParser St} : Equivalence same_result.
Proof.
  split.
  - intros x. by split.
  - intros x y [H1 H2]. split; [done|]. rewrite <- H1. by symmetry.
  - intros x y z [H1 H2] [H3 H4]. split; [congruence|]. rewrite <- H1 in H4. by etrans.
Qed.

(** Equality unless the connection is lost anyway. *)
Definition same_unless {A} (fatal : bool) : relation A := fun x y => fatal = false -> x = y.

#[export] Instance same_unless_equiv A fatal : Equivalence (same_unless (A := A) fatal).
Proof. unfold same_unless. split; [done|intros x y H ?; symmetry; auto|intros x y z H1 H2 ?; etrans; auto]. Qed.

Class StreamParserLaws (St : Type) `{StreamParser St} := {
  (** [NGX_AGAIN]: the buffer is consumed, and the invariant holds again. *)
  sp_again : forall s b s' b', sp_ok s b -> sp_parse s b = (NGX_AGAIN, s', b') ->
    b' = Buf (b_mem b) (b_last b) /\ sp_ok s' b';
  (** Going on after [NGX_AGAIN] is parsing the longer input at once. *)
  sp_resume : forall s b s' b' ys, sp_ok s b -> sp_parse s b = (NGX_AGAIN, s', b') ->
    same_result (sp_parse s (received b ys)) (sp_parse s' (received b' ys));
  (** A verdict does not depend on bytes after it. *)
  sp_final : forall s b rc s' b' ys, sp_ok s b -> sp_parse s b = (rc, s', b') ->
    rc <> NGX_AGAIN -> sp_parse s (received b ys) = (rc, s', received b' ys);
  (** Receiving keeps the invariant. *)
  sp_ok_received : forall s b ys, sp_ok s b -> sp_ok s (received b ys);
}.

(** ** Scanners meet the contract

    A parser that is [scan] with an epilogue ([leave], told the state and the
    position the call was entered with) is a stream parser, provided a step
    does not look at bytes after its own and the epilogue's answer depends on
    the entry only in ways [sp_same] ignores. *)

Section ScanParser.
Context {St L : Type} (step : list Z -> Z -> Z -> St -> outcome St L).
Context (leave : St -> Z -> Z -> L -> St -> ngx_rc * St * Z).

Definition scan_parse (s : St) (b : ngx_buf) : ngx_rc * St * ngx_buf :=
  match scan (step (b_mem b)) (b_pos b) (unread b) s with
  | (p, s', None) => (NGX_AGAIN, s', Buf (b_mem b) p)
  | (p, s', Some l) =>
      let '(rc, s'', q) := leave s (b_pos b) p l s' in (rc, s'', Buf (b_mem b) q)
  end.

(** [inv pre p s]: the locals at [p], [pre] being the bytes before it. *)
Context (inv : list Z -> Z -> St -> Prop).
Hypothesis inv_next : forall mem pre p ch s s',
  inv pre p s -> step mem p ch s = Next s' -> inv (pre ++ [ch]) (p + 1) s'.
Hypothesis step_local : forall m ys pre p ch s,
  inv pre p s -> 0 <= p < Z.of_nat (length m) -> step (m ++ ys) p ch s = step m p ch s.

Definition reached (p : Z) (l : L) (s' : St) : Prop :=
  exists mem pre ch s, inv pre p s /\ step mem p ch s = Stop l s'.

Hypothesis leave_rc : forall s0 q p l s', reached p l s' -> (leave s0 q p l s').1.1 <> NGX_AGAIN.

Definition scan_ok (s : St) (b : ngx_buf) : Prop :=
  buf_wf b /\ inv (take (Z.to_nat (b_pos b)) (b_mem b)) (b_pos b) s.

Lemma scan_local s b ys : scan_ok s b ->
  scan (step (b_mem b ++ ys)) (b_pos b) (unread b) s = scan (step (b_mem b)) (b_pos b) (unread b) s.
Proof using inv_next step_local.
  intros [Hwf Hi]. unfold buf_wf in Hwf.
  apply (scan_ext _ _ (fun p s => exists pre, inv pre p s)); [|eauto].
  intros p ch s' [pre Hi'] Hp. rewrite length_unread in Hp by done. split.
  - eapply step_local; [done|]. unfold b_last in *. lia.
  - intros s'' E. eauto.
Qed.

Lemma scan_inv m s b p s' : scan_ok s b ->
  scan (step m) (b_pos b) (unread b) s = (p, s', None) ->
  p = b_last b /\ inv (b_mem b) (b_last b) s'.
Proof using inv_next.
  intros [Hwf Hi] E. pose proof (scan_none_pos _ _ _ _ _ _ E) as Hp.
  rewrite length_unread in Hp by done. assert (p = b_last b) as -> by lia. split; [done|].
  pose proof (scan_invariant (step m) inv (fun _ _ _ _ _ => True)) as H.
  specialize (H ltac:(intros pre p ch s0 Hi0; destruct (step m p ch s0) eqn:Es; eauto)
                (unread b) _ _ _ Hi).
  rewrite E in H. unfold unread in H. by rewrite take_drop in H.
Qed.

Lemma scan_reached m pre bs p s p' s' l :
  inv pre p s -> scan (step m) p bs s = (p', s', Some l) -> reached p' l s'.
Proof using inv_next.
  intros Hi E. pose proof (scan_invariant (step m) inv (fun _ p _ l s' => reached p l s')) as H.
  assert (Hs : forall pre p ch s, inv pre p s -> match step m p ch s with
    | Next s' => inv (pre ++ [ch]) (p + 1) s' | Stop l s' => reached p l s' end).
  { intros pre0 p0 ch s0 Hi0. destruct (step m p0 ch s0) eqn:?; [eauto|]. repeat eexists; eauto. }
  specialize (H Hs bs pre p s Hi). rewrite E in H.
  by destruct H as (_ & _ & _ & _ & _ & H).
Qed.

Lemma scan_parse_again s b s' b' : scan_ok s b -> scan_parse s b = (NGX_AGAIN, s', b') ->
  scan (step (b_mem b)) (b_pos b) (unread b) s = (b_last b, s', None)
  /\ b' = Buf (b_mem b) (b_last b) /\ scan_ok s' b'.
Proof using inv_next leave_rc.
  intros Hok E. unfold scan_parse in E.
  destruct (scan _ _ _ _) as [[p s1] [l|]] eqn:Es.
  - pose proof (leave_rc s (b_pos b) p l s1 (scan_reached _ _ _ _ _ _ _ _ (proj2 Hok) Es)) as H.
    destruct (leave _ _ _ _ _) as [[rc s2] q]. by injection E as -> _ _.
  - injection E as -> <-. destruct (scan_inv _ _ _ _ _ Hok Es) as [-> Hi].
    split; [done|]. split; [done|]. split.
    + unfold buf_wf, b_last; simpl. lia.
    + unfold b_last; cbn [b_mem b_pos]. by rewrite Nat2Z.id, firstn_all.
Qed.

Lemma scan_ok_received s b ys : scan_ok s b -> scan_ok s (received b ys).
Proof.
  intros [Hwf Hi]. unfold scan_ok, buf_wf, b_last, received in *; cbn [b_mem b_pos].
  rewrite length_app. split; [lia|]. rewrite take_app_le; [done|lia].
Qed.

Context (same : ngx_rc -> relation (St * ngx_buf)).
Context {same_equiv : forall rc, Equivalence (same rc)}.
Hypothesis leave_same : forall s1 q1 s2 q2 m p l s', reached p l s' ->
  (leave s1 q1 p l s').1.1 = (leave s2 q2 p l s').1.1 /\
  same (leave s1 q1 p l s').1.1
    ((leave s1 q1 p l s').1.2, Buf m (leave s1 q1 p l s').2)
    ((leave s2 q2 p l s').1.2, Buf m (leave s2 q2 p l s').2).

Variable f : St -> ngx_buf -> ngx_rc * St * ngx_buf.
Hypothesis f_scan : forall s b, f s b = scan_parse s b.

Definition scan_parser : StreamParser St :=
  {| sp_parse := f; sp_ok := scan_ok; sp_same := same |}.

Lemma scan_parser_laws : StreamParserLaws St (H := scan_parser).
Proof using inv_next step_local leave_rc leave_same f_scan.
  split; cbn [sp_parse sp_ok sp_same scan_parser].
  - intros s b s' b' Hok E. rewrite f_scan in E.
    destruct (scan_parse_again _ _ _ _ Hok E) as (_ & -> & ?). done.
  - intros s b s' b' ys Hok E. rewrite f_scan in E. rewrite !f_scan. pose proof Hok as [Hwf _].
    destruct (scan_parse_again _ _ _ _ Hok E) as (Es & -> & [_ Hok']).
    unfold scan_parse. rewrite unread_received by done. cbn [received b_mem b_pos].
    rewrite scan_app, scan_local, Es by done.
    unfold received, b_last; cbn [b_mem b_pos]. rewrite unread_at_end.
    destruct (scan _ _ ys s') as [[p s1] [l|]] eqn:Es'; [|by split].
    destruct (leave_same s (b_pos b) s' (Z.of_nat (length (b_mem b))) (b_mem b ++ ys) p l s1)
      as [H1 H2]; [by eapply scan_reached, Es'|].
    destruct (leave s _ _ _ _) as [[rc1 t1] q1], (leave s' _ _ _ _) as [[rc2 t2] q2].
    by split.
  - intros s b rc s' b' ys Hok E Hrc. rewrite f_scan in *. pose proof Hok as [Hwf _].
    unfold scan_parse in *. rewrite unread_received by done. cbn [received b_mem b_pos].
    rewrite scan_app, scan_local by done.
    destruct (scan _ _ _ _) as [[p s1] [l|]].
    + destruct (leave _ _ _ _ _) as [[rc1 t1] q1]. by injection E as <- <- <-.
    + by injection E as <- _ _.
  - intros s b ys. apply scan_ok_received.
Qed.
End ScanParser.

(** ** Feeding a parser from a socket

    The caller's loop: parse; while the answer is [NGX_AGAIN], take the next
    segment off the socket and parse again. *)

Fixpoint feed `{StreamParser St} (s : St) (b : ngx_buf) (segs : list (list Z))
  : ngx_rc * St * ngx_buf :=
  match segs with
  | [] => sp_parse s b
  | ys :: segs' =>
      match sp_parse s b with
      | (NGX_AGAIN, s', b') => feed s' (received b' ys) segs'
      | r => r
      end
  end.

(** Bytes that were still on the socket when the parser gave its verdict. *)
Fixpoint unfed `{StreamParser St} (s : St) (b : ngx_buf) (segs : list (list Z)) : list Z :=
  match segs with
  | [] => []
  | ys :: segs' =>
      match sp_parse s b with
      | (NGX_AGAIN, s', b') => unfed s' (received b' ys) segs'
      | _ => ys ++ concat segs'
      end
  end.

Lemma received_received b xs ys : received (received b xs) ys = received b (xs ++ ys).
Proof. unfold received; simpl. by rewrite app_assoc. Qed.

Lemma received_nil b : received b [] = b.
Proof. unfold received. rewrite app_nil_r. by destruct b. Qed.

Definition with_tail {St} (r : ngx_rc * St * ngx_buf) (ys : list Z) : ngx_rc * St * ngx_buf :=
  (r.1.1, r.1.2, received r.2 ys).

Section Feed.
Context {St : Type} `{StreamParserLaws St}.

Lemma sp_again_received s b s' b' ys zs :
  sp_ok s b -> sp_parse s b = (NGX_AGAIN, s', b') ->
  same_result (sp_parse s (received b (ys ++ zs)))
              (sp_parse s' (received (received b' ys) zs)).
Proof. intros Hok E. rewrite received_received. by apply sp_resume. Qed.

(** However the input is cut, the verdict is that of the whole input. *)
Lemma feed_one_shot s b segs :
  sp_ok s b ->
  same_result (sp_parse s (received b (concat segs)))
              (with_tail (feed s b segs) (unfed s b segs)).
Proof.
  revert s b; induction segs as [|ys segs IH]; intros s b Hok; simpl.
  - rewrite received_nil. unfold with_tail. rewrite received_nil.
    destruct (sp_parse s b) as [[rc s'] b']. reflexivity.
  - destruct (sp_parse s b) as [[rc s'] b'] eqn:E.
    destruct (decide (rc = NGX_AGAIN)) as [->|Hrc].
    + destruct (sp_again _ _ _ _ Hok E) as [-> Hok'].
      etransitivity; [by apply sp_again_received|].
      apply IH. by apply sp_ok_received.
    + erewrite sp_final by eauto. by destruct rc.
Qed.
End Feed.
