(* ===== verification/Request.v ===== *)
(** * The request and the character tables

    The fields of [ngx_http_request_t] that parsing a request line or a URI
    writes, with the constants of [ngx_http_request.h], and the bit table
    [usual] of [ngx_http_parse.c].  A [u_char *] into the input buffer is an
    offset, [None] is NULL.  [r->state] is not a field: each parser has its
    own enumeration, and its model threads the enumerator beside the record
    (every enumeration starts with [sw_start = 0], which is what a finished
    parser leaves behind for the next one). *)

From S2P Require Import Prelude Scan.

(** ** Methods *)

Definition NGX_HTTP_UNKNOWN : Z := 0x0001.
Definition NGX_HTTP_GET : Z := 0x0002.
Definition NGX_HTTP_HEAD : Z := 0x0004.
Definition NGX_HTTP_POST : Z := 0x0008.
Definition NGX_HTTP_PUT : Z := 0x0010.
Definition NGX_HTTP_DELETE : Z := 0x0020.
Definition NGX_HTTP_MKCOL : Z := 0x0040.
Definition NGX_HTTP_COPY : Z := 0x0080.
Definition NGX_HTTP_MOVE : Z := 0x0100.
Definition NGX_HTTP_OPTIONS : Z := 0x0200.
Definition NGX_HTTP_PROPFIND : Z := 0x0400.
Definition NGX_HTTP_PROPPATCH : Z := 0x0800.
Definition NGX_HTTP_LOCK : Z := 0x1000.
Definition NGX_HTTP_UNLOCK : Z := 0x2000.
Definition NGX_HTTP_PATCH : Z := 0x4000.
Definition NGX_HTTP_TRACE : Z := 0x8000.

(** ** The request *)

Record ngx_http_request := Request {
  method : Z;
  http_version : Z;
  uri_start : option Z;
  uri_end : option Z;
  uri_ext : option Z;
  args_start : option Z;
  request_start : option Z;
  request_end : option Z;
  method_end : option Z;
  schema_start : option Z;
  schema_end : option Z;
  host_start : option Z;
  host_end : option Z;
  port_end : option Z;
  http_protocol_data : option Z;   (** [http_protocol.data] *)
  http_minor : Z;   (** [unsigned http_minor:16] *)
  http_major : Z;   (** [unsigned http_major:16] *)
  complex_uri : bool;
  quoted_uri : bool;
  plus_in_uri : bool;
  space_in_uri : bool;
}.

#[export] Instance set_method : Setter method := fun v r =>
  Request
    v (http_version r) (uri_start r) (uri_end r) (uri_ext r) (args_start r)
    (request_start r) (request_end r) (method_end r) (schema_start r) (schema_end r)
    (host_start r) (host_end r) (port_end r) (http_protocol_data r) (http_minor r)
    (http_major r) (complex_uri r) (quoted_uri r) (plus_in_uri r) (space_in_uri r).
#[export] Instance set_http_version : Setter http_version := fun v r =>
  Request
    (method r) v (uri_start r) (uri_end r) (uri_ext r) (args_start r) (request_start
    r) (request_end r) (method_end r) (schema_start r) (schema_end r) (host_start r)
    (host_end r) (port_end r) (http_protocol_data r) (http_minor r) (http_major r)
    (complex_uri r) (quoted_uri r) (plus_in_uri r) (space_in_uri r).
#[export] Instance set_uri_start : Setter uri_start := fun v r =>
  Request
    (method r) (http_version r) v (uri_end r) (uri_ext r) (args_start r)
    (request_start r) (request_end r) (method_end r) (schema_start r) (schema_end r)
    (host_start r) (host_end r) (port_end r) (http_protocol_data r) (http_minor r)
    (http_major r) (complex_uri r) (quoted_uri r) (plus_in_uri r) (space_in_uri r).
#[export] Instance set_uri_end : Setter uri_end := fun v r =>
  Request
    (method r) (http_version r) (uri_start r) v (uri_ext r) (args_start r)
    (request_start r) (request_end r) (method_end r) (schema_start r) (schema_end r)
    (host_start r) (host_end r) (port_end r) (http_protocol_data r) (http_minor r)
    (http_major r) (complex_uri r) (quoted_uri r) (plus_in_uri r) (space_in_uri r).
#[export] Instance set_uri_ext : Setter uri_ext := fun v r =>
  Request
    (method r) (http_version r) (uri_start r) (uri_end r) v (args_start r)
    (request_start r) (request_end r) (method_end r) (schema_start r) (schema_end r)
    (host_start r) (host_end r) (port_end r) (http_protocol_data r) (http_minor r)
    (http_major r) (complex_uri r) (quoted_uri r) (plus_in_uri r) (space_in_uri r).
#[export] Instance set_args_start : Setter args_start := fun v r =>
  Request
    (method r) (http_version r) (uri_start r) (uri_end r) (uri_ext r) v
    (request_start r) (request_end r) (method_end r) (schema_start r) (schema_end r)
    (host_start r) (host_end r) (port_end r) (http_protocol_data r) (http_minor r)
    (http_major r) (complex_uri r) (quoted_uri r) (plus_in_uri r) (space_in_uri r).
#[export] Instance set_request_start : Setter request_start := fun v r =>
  Request
    (method r) (http_version r) (uri_start r) (uri_end r) (uri_ext r) (args_start r)
    v (request_end r) (method_end r) (schema_start r) (schema_end r) (host_start r)
    (host_end r) (port_end r) (http_protocol_data r) (http_minor r) (http_major r)
    (complex_uri r) (quoted_uri r) (plus_in_uri r) (space_in_uri r).
#[export] Instance set_request_end : Setter request_end := fun v r =>
  Request
    (method r) (http_version r) (uri_start r) (uri_end r) (uri_ext r) (args_start r)
    (request_start r) v (method_end r) (schema_start r) (schema_end r) (host_start
    r) (host_end r) (port_end r) (http_protocol_data r) (http_minor r) (http_major
    r) (complex_uri r) (quoted_uri r) (plus_in_uri r) (space_in_uri r).
#[export] Instance set_method_end : Setter method_end := fun v r =>
  Request
    (method r) (http_version r) (uri_start r) (uri_end r) (uri_ext r) (args_start r)
    (request_start r) (request_end r) v (schema_start r) (schema_end r) (host_start
    r) (host_end r) (port_end r) (http_protocol_data r) (http_minor r) (http_major
    r) (complex_uri r) (quoted_uri r) (plus_in_uri r) (space_in_uri r).
#[export] Instance set_schema_start : Setter schema_start := fun v r =>
  Request
    (method r) (http_version r) (uri_start r) (uri_end r) (uri_ext r) (args_start r)
    (request_start r) (request_end r) (method_end r) v (schema_end r) (host_start r)
    (host_end r) (port_end r) (http_protocol_data r) (http_minor r) (http_major r)
    (complex_uri r) (quoted_uri r) (plus_in_uri r) (space_in_uri r).
#[export] Instance set_schema_end : Setter schema_end := fun v r =>
  Request
    (method r) (http_version r) (uri_start r) (uri_end r) (uri_ext r) (args_start r)
    (request_start r) (request_end r) (method_end r) (schema_start r) v (host_start
    r) (host_end r) (port_end r) (http_protocol_data r) (http_minor r) (http_major
    r) (complex_uri r) (quoted_uri r) (plus_in_uri r) (space_in_uri r).
#[export] Instance set_host_start : Setter host_start := fun v r =>
  Request
    (method r) (http_version r) (uri_start r) (uri_end r) (uri_ext r) (args_start r)
    (request_start r) (request_end r) (method_end r) (schema_start r) (schema_end r)
    v (host_end r) (port_end r) (http_protocol_data r) (http_minor r) (http_major r)
    (complex_uri r) (quoted_uri r) (plus_in_uri r) (space_in_uri r).
#[export] Instance set_host_end : Setter host_end := fun v r =>
  Request
    (method r) (http_version r) (uri_start r) (uri_end r) (uri_ext r) (args_start r)
    (request_start r) (request_end r) (method_end r) (schema_start r) (schema_end r)
    (host_start r) v (port_end r) (http_protocol_data r) (http_minor r) (http_major
    r) (complex_uri r) (quoted_uri r) (plus_in_uri r) (space_in_uri r).
#[export] Instance set_port_end : Setter port_end := fun v r =>
  Request
    (method r) (http_version r) (uri_start r) (uri_end r) (uri_ext r) (args_start r)
    (request_start r) (request_end r) (method_end r) (schema_start r) (schema_end r)
    (host_start r) (host_end r) v (http_protocol_data r) (http_minor r) (http_major
    r) (complex_uri r) (quoted_uri r) (plus_in_uri r) (space_in_uri r).
#[export] Instance set_http_protocol_data : Setter http_protocol_data := fun v r =>
  Request
    (method r) (http_version r) (uri_start r) (uri_end r) (uri_ext r) (args_start r)
    (request_start r) (request_end r) (method_end r) (schema_start r) (schema_end r)
    (host_start r) (host_end r) (port_end r) v (http_minor r) (http_major r)
    (complex_uri r) (quoted_uri r) (plus_in_uri r) (space_in_uri r).
#[export] Instance set_http_minor : Setter http_minor := fun v r =>
  Request
    (method r) (http_version r) (uri_start r) (uri_end r) (uri_ext r) (args_start r)
    (request_start r) (request_end r) (method_end r) (schema_start r) (schema_end r)
    (host_start r) (host_end r) (port_end r) (http_protocol_data r) v (http_major r)
    (complex_uri r) (quoted_uri r) (plus_in_uri r) (space_in_uri r).
#[export] Instance set_http_major : Setter http_major := fun v r =>
  Request
    (method r) (http_version r) (uri_start r) (uri_end r) (uri_ext r) (args_start r)
    (request_start r) (request_end r) (method_end r) (schema_start r) (schema_end r)
    (host_start r) (host_end r) (port_end r) (http_protocol_data r) (http_minor r) v
    (complex_uri r) (quoted_uri r) (plus_in_uri r) (space_in_uri r).
#[export] Instance set_complex_uri : Setter complex_uri := fun v r =>
  Request
    (method r) (http_version r) (uri_start r) (uri_end r) (uri_ext r) (args_start r)
    (request_start r) (request_end r) (method_end r) (schema_start r) (schema_end r)
    (host_start r) (host_end r) (port_end r) (http_protocol_data r) (http_minor r)
    (http_major r) v (quoted_uri r) (plus_in_uri r) (space_in_uri r).
#[export] Instance set_quoted_uri : Setter quoted_uri := fun v r =>
  Request
    (method r) (http_version r) (uri_start r) (uri_end r) (uri_ext r) (args_start r)
    (request_start r) (request_end r) (method_end r) (schema_start r) (schema_end r)
    (host_start r) (host_end r) (port_end r) (http_protocol_data r) (http_minor r)
    (http_major r) (complex_uri r) v (plus_in_uri r) (space_in_uri r).
#[export] Instance set_plus_in_uri : Setter plus_in_uri := fun v r =>
  Request
    (method r) (http_version r) (uri_start r) (uri_end r) (uri_ext r) (args_start r)
    (request_start r) (request_end r) (method_end r) (schema_start r) (schema_end r)
    (host_start r) (host_end r) (port_end r) (http_protocol_data r) (http_minor r)
    (http_major r) (complex_uri r) (quoted_uri r) v (space_in_uri r).
#[export] Instance set_space_in_uri : Setter space_in_uri := fun v r =>
  Request
    (method r) (http_version r) (uri_start r) (uri_end r) (uri_ext r) (args_start r)
    (request_start r) (request_end r) (method_end r) (schema_start r) (schema_end r)
    (host_start r) (host_end r) (port_end r) (http_protocol_data r) (http_minor r)
    (http_major r) (complex_uri r) (quoted_uri r) (plus_in_uri r) v.

(** Read a field of an updated request. *)
Ltac simpl_req :=
  cbn [set_field set_method set_http_version set_uri_start set_uri_end set_uri_ext
       set_args_start set_request_start set_request_end set_method_end set_schema_start
       set_schema_end set_host_start set_host_end set_port_end set_http_protocol_data
       set_http_minor set_http_major set_complex_uri set_quoted_uri set_plus_in_uri
       set_space_in_uri method http_version uri_start uri_end uri_ext args_start
       request_start request_end method_end schema_start schema_end host_start host_end
       port_end http_protocol_data http_minor http_major complex_uri quoted_uri
       plus_in_uri space_in_uri] in *.

(** A request as [ngx_http_create_request] leaves it: zeroed memory, and
    [r->method = NGX_HTTP_UNKNOWN; r->http_version = NGX_HTTP_VERSION_10]. *)
Definition fresh_request : ngx_http_request :=
  {| method := NGX_HTTP_UNKNOWN; http_version := 1000;
     uri_start := None; uri_end := None; uri_ext := None; args_start := None;
     request_start := None; request_end := None; method_end := None;
     schema_start := None; schema_end := None; host_start := None; host_end := None;
     port_end := None; http_protocol_data := None; http_minor := 0; http_major := 0;
     complex_uri := false; quoted_uri := false; plus_in_uri := false; space_in_uri := false |}.

(** ** The table of usual URI characters *)

Definition usual : list Z :=
  [ 0xffffdbfe; 0x7fff37d6; 0xffffffff; 0xffffffff;
    0xffffffff; 0xffffffff; 0xffffffff; 0xffffffff ].

(** [usual[ch >> 5] & (1 << (ch & 0x1f))] *)
Definition is_usual (ch : Z) : bool :=
  negb (Z.land (nth (Z.to_nat (Z.shiftr ch 5)) usual 0) (Z.shiftl 1 (Z.land ch 0x1f)) =? 0).

(** The characters the table singles out. *)
Definition special (ch : Z) : bool :=
  (ch =? NUL) || (ch =? LF) || (ch =? CR) || (ch =? " "%c) || (ch =? "#"%c)
  || (ch =? "%"%c) || (ch =? "+"%c) || (ch =? "."%c) || (ch =? "/"%c) || (ch =? "?"%c).

Lemma is_usual_special ch : u_char ch -> is_usual ch = negb (special ch).
Proof.
  apply (for_all_bytes (fun c => is_usual c = negb (special c))). by vm_compute.
Qed.

Lemma usual_neq c d : is_usual c = true -> is_usual d = false -> c <> d.
Proof. congruence. Qed.
