(* ===== verification/RequestLine.v ===== *)
(** * [ngx_http_parse_request_line]

    The 27-state machine of [ngx_http_parse.c] that reads
    "METHOD SP URI [SP HTTP/x.y] CRLF".  One definition per group of [case]
    labels; [step] is the [switch], [ngx_http_parse_request_line] the loop
    with its two epilogues.  Fall-through between labels is a call. *)

From S2P Require Import Prelude Scan Request.

Module RequestLine.

Inductive sw :=
| sw_start | sw_method | sw_spaces_before_uri | sw_schema | sw_schema_slash
| sw_schema_slash_slash | sw_host_start | sw_host | sw_host_end | sw_host_ip_literal
| sw_port | sw_host_http_09 | sw_after_slash_in_uri | sw_check_uri
| sw_check_uri_http_09 | sw_uri | sw_http_09 | sw_http_H | sw_http_HT | sw_http_HTT
| sw_http_HTTP | sw_first_major_digit | sw_major_digit | sw_first_minor_digit
| sw_minor_digit | sw_spaces_after_digit | sw_almost_done.

#[export] Instance sw_eq_dec : EqDecision sw.
Proof. solve_decision. Defined.

(** Ways out of the loop: [goto done] and [return rc]. *)
Inductive label := done | ret (rc : ngx_rc).

Definition locals : Type := sw * ngx_http_request.
Abbreviation result := (outcome locals label).

Definition go (st : sw) (r : ngx_http_request) : result := Next (st, r).
Definition invalid_method (st : sw) (r : ngx_http_request) : result :=
  Stop (ret NGX_HTTP_PARSE_INVALID_METHOD) (st, r).
Definition invalid_request (st : sw) (r : ngx_http_request) : result :=
  Stop (ret NGX_HTTP_PARSE_INVALID_REQUEST) (st, r).

(** ** Comparing the method word

    [m] is the memory from [r->request_start] on.  The header picks one of two
    sets of macros at build time; [word_ops] is such a set. *)

Record word_ops := {
  str3_cmp : list Z -> Z -> Z -> Z -> Z -> bool;
  str3Ocmp : list Z -> Z -> Z -> Z -> Z -> bool;
  str4cmp : list Z -> Z -> Z -> Z -> Z -> bool;
  str5cmp : list Z -> Z -> Z -> Z -> Z -> Z -> bool;
  str6cmp : list Z -> Z -> Z -> Z -> Z -> Z -> Z -> bool;
  str7_cmp : list Z -> Z -> Z -> Z -> Z -> Z -> Z -> Z -> Z -> bool;
  str8cmp : list Z -> Z -> Z -> Z -> Z -> Z -> Z -> Z -> Z -> bool;
  str9cmp : list Z -> Z -> Z -> Z -> Z -> Z -> Z -> Z -> Z -> Z -> bool;
}.

(** The byte-by-byte macros. *)
Definition ngx_str3_cmp (m : list Z) (c0 c1 c2 c3 : Z) : bool :=
  (rd m 0 =? c0) && (rd m 1 =? c1) && (rd m 2 =? c2).
Definition ngx_str3Ocmp (m : list Z) (c0 c1 c2 c3 : Z) : bool :=
  (rd m 0 =? c0) && (rd m 2 =? c2) && (rd m 3 =? c3).
Definition ngx_str4cmp (m : list Z) (c0 c1 c2 c3 : Z) : bool :=
  (rd m 0 =? c0) && (rd m 1 =? c1) && (rd m 2 =? c2) && (rd m 3 =? c3).
Definition ngx_str5cmp (m : list Z) (c0 c1 c2 c3 c4 : Z) : bool :=
  ngx_str4cmp m c0 c1 c2 c3 && (rd m 4 =? c4).
Definition ngx_str6cmp (m : list Z) (c0 c1 c2 c3 c4 c5 : Z) : bool :=
  ngx_str4cmp m c0 c1 c2 c3 && (rd m 4 =? c4) && (rd m 5 =? c5).
Definition ngx_str7_cmp (m : list Z) (c0 c1 c2 c3 c4 c5 c6 c7 : Z) : bool :=
  ngx_str4cmp m c0 c1 c2 c3 && (rd m 4 =? c4) && (rd m 5 =? c5) && (rd m 6 =? c6).
Definition ngx_str8cmp (m : list Z) (c0 c1 c2 c3 c4 c5 c6 c7 : Z) : bool :=
  ngx_str4cmp m c0 c1 c2 c3
  && (rd m 4 =? c4) && (rd m 5 =? c5) && (rd m 6 =? c6) && (rd m 7 =? c7).
Definition ngx_str9cmp (m : list Z) (c0 c1 c2 c3 c4 c5 c6 c7 c8 : Z) : bool :=
  ngx_str8cmp m c0 c1 c2 c3 c4 c5 c6 c7 && (rd m 8 =? c8).

Definition portable : word_ops :=
  {| str3_cmp := ngx_str3_cmp; str3Ocmp := ngx_str3Ocmp; str4cmp := ngx_str4cmp;
     str5cmp := ngx_str5cmp; str6cmp := ngx_str6cmp; str7_cmp := ngx_str7_cmp;
     str8cmp := ngx_str8cmp; str9cmp := ngx_str9cmp |}.

(** The macros of [NGX_HAVE_LITTLE_ENDIAN && NGX_HAVE_NONALIGNED]: words of
    four bytes are loaded and compared at once. *)
Definition load32 (m : list Z) (i : Z) : Z :=
  rd m i + 2 ^ 8 * rd m (i + 1) + 2 ^ 16 * rd m (i + 2) + 2 ^ 24 * rd m (i + 3).
Definition pack32 (c0 c1 c2 c3 : Z) : Z :=
  Z.lor (Z.shiftl c3 24) (Z.lor (Z.shiftl c2 16) (Z.lor (Z.shiftl c1 8) c0)).

Definition le_str4cmp (m : list Z) (c0 c1 c2 c3 : Z) : bool :=
  load32 m 0 =? pack32 c0 c1 c2 c3.
Definition le_str5cmp (m : list Z) (c0 c1 c2 c3 c4 : Z) : bool :=
  (load32 m 0 =? pack32 c0 c1 c2 c3) && (rd m 4 =? c4).
Definition le_str6cmp (m : list Z) (c0 c1 c2 c3 c4 c5 : Z) : bool :=
  (load32 m 0 =? pack32 c0 c1 c2 c3)
  && (Z.land (load32 m 4) 0xffff =? Z.lor (Z.shiftl c5 8) c4).
Definition le_str8cmp (m : list Z) (c0 c1 c2 c3 c4 c5 c6 c7 : Z) : bool :=
  (load32 m 0 =? pack32 c0 c1 c2 c3) && (load32 m 4 =? pack32 c4 c5 c6 c7).
Definition le_str9cmp (m : list Z) (c0 c1 c2 c3 c4 c5 c6 c7 c8 : Z) : bool :=
  (load32 m 0 =? pack32 c0 c1 c2 c3) && (load32 m 4 =? pack32 c4 c5 c6 c7)
  && (rd m 8 =? c8).

Definition little_endian : word_ops :=
  {| str3_cmp := le_str4cmp; str3Ocmp := le_str4cmp; str4cmp := le_str4cmp;
     str5cmp := le_str5cmp; str6cmp := le_str6cmp; str7_cmp := le_str8cmp;
     str8cmp := le_str8cmp; str9cmp := le_str9cmp |}.

(** The nested [switch (p - m)]; [old] is what [r->method] holds when no word
    matches. *)
Definition recognise_with (o : word_ops) (m : list Z) (n old : Z) : Z :=
  if n =? 3 then
    if str3_cmp o m "G"%c "E"%c "T"%c " "%c then NGX_HTTP_GET
    else if str3_cmp o m "P"%c "U"%c "T"%c " "%c then NGX_HTTP_PUT
    else old
  else if n =? 4 then
    if rd m 1 =? "O"%c then
      if str3Ocmp o m "P"%c "O"%c "S"%c "T"%c then NGX_HTTP_POST
      else if str3Ocmp o m "C"%c "O"%c "P"%c "Y"%c then NGX_HTTP_COPY
      else if str3Ocmp o m "M"%c "O"%c "V"%c "E"%c then NGX_HTTP_MOVE
      else if str3Ocmp o m "L"%c "O"%c "C"%c "K"%c then NGX_HTTP_LOCK
      else old
    else
      if str4cmp o m "H"%c "E"%c "A"%c "D"%c then NGX_HTTP_HEAD
      else old
  else if n =? 5 then
    if str5cmp o m "M"%c "K"%c "C"%c "O"%c "L"%c then NGX_HTTP_MKCOL
    else if str5cmp o m "P"%c "A"%c "T"%c "C"%c "H"%c then NGX_HTTP_PATCH
    else if str5cmp o m "T"%c "R"%c "A"%c "C"%c "E"%c then NGX_HTTP_TRACE
    else old
  else if n =? 6 then
    if str6cmp o m "D"%c "E"%c "L"%c "E"%c "T"%c "E"%c then NGX_HTTP_DELETE
    else if str6cmp o m "U"%c "N"%c "L"%c "O"%c "C"%c "K"%c then NGX_HTTP_UNLOCK
    else old
  else if n =? 7 then
    if str7_cmp o m "O"%c "P"%c "T"%c "I"%c "O"%c "N"%c "S"%c " "%c
    then NGX_HTTP_OPTIONS
    else old
  else if n =? 8 then
    if str8cmp o m "P"%c "R"%c "O"%c "P"%c "F"%c "I"%c "N"%c "D"%c
    then NGX_HTTP_PROPFIND
    else old
  else if n =? 9 then
    if str9cmp o m "P"%c "R"%c "O"%c "P"%c "P"%c "A"%c "T"%c "C"%c "H"%c
    then NGX_HTTP_PROPPATCH
    else old
  else old.

Definition recognise : list Z -> Z -> Z -> Z := recognise_with portable.

(** ** The states

    [mem] is the buffer's memory, [p] the offset of the byte [ch]. *)

Definition case_start (p ch : Z) (r : ngx_http_request) : result :=
  let r := r <| request_start := Some p |> in
  if (ch =? CR) || (ch =? LF) then go sw_start r
  else if ((ch <? "A"%c) || ("Z"%c <? ch)) && negb (ch =? "_"%c) then invalid_method sw_start r
  else go sw_method r.

Definition case_method (mem : list Z) (p ch : Z) (r : ngx_http_request) : result :=
  if ch =? " "%c then
    let r := r <| method_end := Some (p - 1) |> in
    let r := match request_start r with
             | Some m =>
                 r <| method := recognise (drop (Z.to_nat m) mem) (p - m) (method r) |>
             | None => r
             end in
    go sw_spaces_before_uri r
  else if ((ch <? "A"%c) || ("Z"%c <? ch)) && negb (ch =? "_"%c) then invalid_method sw_method r
  else go sw_method r.

Definition case_spaces_before_uri (p ch : Z) (r : ngx_http_request) : result :=
  if ch =? "/"%c then go sw_after_slash_in_uri (r <| uri_start := Some p |>)
  else if is_lower (lc ch) then go sw_schema (r <| schema_start := Some p |>)
  else if ch =? " "%c then go sw_spaces_before_uri r
  else invalid_request sw_spaces_before_uri r.

Definition case_schema (p ch : Z) (r : ngx_http_request) : result :=
  if is_lower (lc ch) then go sw_schema r
  else if ch =? ":"%c then go sw_schema_slash (r <| schema_end := Some p |>)
  else invalid_request sw_schema r.

(** States that accept one byte only: [sw_schema_slash], [sw_http_H], ... *)
Definition case_expect (c : Z) (st st' : sw) (ch : Z) (r : ngx_http_request) : result :=
  if ch =? c then go st' r else invalid_request st r.

(** [r->schema_end + 1], pointer arithmetic on a possibly NULL field. *)
Definition after_schema (n : Z) (r : ngx_http_request) : option Z :=
  option_map (fun e => e + n) (schema_end r).

Definition case_host_end (st : sw) (p ch : Z) (r : ngx_http_request) : result :=
  let r := r <| host_end := Some p |> in
  if ch =? ":"%c then go sw_port r
  else if ch =? "/"%c then go sw_after_slash_in_uri (r <| uri_start := Some p |>)
  else if ch =? " "%c then
    go sw_host_http_09 (r <| uri_start := after_schema 1 r |> <| uri_end := after_schema 2 r |>)
  else invalid_request st r.

Definition case_host (st : sw) (p ch : Z) (r : ngx_http_request) : result :=
  if is_lower (lc ch) then go st r
  else if is_digit ch || (ch =? "."%c) || (ch =? "-"%c) then go st r
  else case_host_end st p ch r.

Definition case_host_start (p ch : Z) (r : ngx_http_request) : result :=
  let r := r <| host_start := Some p |> in
  if ch =? "["%c then go sw_host_ip_literal r
  else case_host sw_host p ch r.

Definition unreserved_or_sub_delim (ch : Z) : bool :=
  (ch =? "-"%c) || (ch =? "."%c) || (ch =? "_"%c) || (ch =? "~"%c)
  || (ch =? "!"%c) || (ch =? "$"%c) || (ch =? "&"%c) || (ch =? "'"%c) || (ch =? "("%c)
  || (ch =? ")"%c) || (ch =? "*"%c) || (ch =? "+"%c) || (ch =? ","%c) || (ch =? ";"%c)
  || (ch =? "="%c).

Definition case_host_ip_literal (ch : Z) (r : ngx_http_request) : result :=
  if is_digit ch then go sw_host_ip_literal r
  else if is_lower (lc ch) then go sw_host_ip_literal r
  else if ch =? ":"%c then go sw_host_ip_literal r
  else if ch =? "]"%c then go sw_host_end r
  else if unreserved_or_sub_delim ch then go sw_host_ip_literal r
  else invalid_request sw_host_ip_literal r.

Definition case_port (p ch : Z) (r : ngx_http_request) : result :=
  if is_digit ch then go sw_port r
  else if ch =? "/"%c then
    go sw_after_slash_in_uri (r <| port_end := Some p |> <| uri_start := Some p |>)
  else if ch =? " "%c then
    let r := r <| port_end := Some p |> in
    go sw_host_http_09 (r <| uri_start := after_schema 1 r |> <| uri_end := after_schema 2 r |>)
  else invalid_request sw_port r.

(** The part [sw_host_http_09], [sw_check_uri_http_09] and [sw_http_09] share;
    [other] is their [default]. *)
Definition case_http_09 (st : sw) (other : result) (p ch : Z) (r : ngx_http_request) : result :=
  if ch =? " "%c then go st r
  else if ch =? CR then go sw_almost_done (r <| http_minor := 9 |>)
  else if ch =? LF then Stop done (st, r <| http_minor := 9 |>)
  else if ch =? "H"%c then go sw_http_H (r <| http_protocol_data := Some p |>)
  else other.

Definition case_host_http_09 (p ch : Z) (r : ngx_http_request) : result :=
  case_http_09 sw_host_http_09 (invalid_request sw_host_http_09 r) p ch r.

Definition case_after_slash_in_uri (p ch : Z) (r : ngx_http_request) : result :=
  if is_usual ch then go sw_check_uri r
  else if ch =? " "%c then go sw_check_uri_http_09 (r <| uri_end := Some p |>)
  else if ch =? CR then go sw_almost_done (r <| uri_end := Some p |> <| http_minor := 9 |>)
  else if ch =? LF then
    Stop done (sw_after_slash_in_uri, r <| uri_end := Some p |> <| http_minor := 9 |>)
  else if ch =? "."%c then go sw_uri (r <| complex_uri := true |>)
  else if ch =? "%"%c then go sw_uri (r <| quoted_uri := true |>)
  else if ch =? "/"%c then go sw_uri (r <| complex_uri := true |>)
  else if ch =? "?"%c then go sw_uri (r <| args_start := Some (p + 1) |>)
  else if ch =? "#"%c then go sw_uri (r <| complex_uri := true |>)
  else if ch =? "+"%c then go sw_after_slash_in_uri (r <| plus_in_uri := true |>)
  else if ch =? NUL then invalid_request sw_after_slash_in_uri r
  else go sw_check_uri r.

Definition case_check_uri (p ch : Z) (r : ngx_http_request) : result :=
  if is_usual ch then go sw_check_uri r
  else if ch =? "/"%c then go sw_after_slash_in_uri (r <| uri_ext := None |>)
  else if ch =? "."%c then go sw_check_uri (r <| uri_ext := Some (p + 1) |>)
  else if ch =? " "%c then go sw_check_uri_http_09 (r <| uri_end := Some p |>)
  else if ch =? CR then go sw_almost_done (r <| uri_end := Some p |> <| http_minor := 9 |>)
  else if ch =? LF then
    Stop done (sw_check_uri, r <| uri_end := Some p |> <| http_minor := 9 |>)
  else if ch =? "%"%c then go sw_uri (r <| quoted_uri := true |>)
  else if ch =? "?"%c then go sw_uri (r <| args_start := Some (p + 1) |>)
  else if ch =? "#"%c then go sw_uri (r <| complex_uri := true |>)
  else if ch =? "+"%c then go sw_check_uri (r <| plus_in_uri := true |>)
  else if ch =? NUL then invalid_request sw_check_uri r
  else go sw_check_uri r.

(** The byte after the space is not looked at: the state is entered for the
    byte that follows it. *)
Definition case_check_uri_http_09 (p ch : Z) (r : ngx_http_request) : result :=
  case_http_09 sw_check_uri_http_09 (go sw_check_uri (r <| space_in_uri := true |>)) p ch r.

Definition case_uri (p ch : Z) (r : ngx_http_request) : result :=
  if is_usual ch then go sw_uri r
  else if ch =? " "%c then go sw_http_09 (r <| uri_end := Some p |>)
  else if ch =? CR then go sw_almost_done (r <| uri_end := Some p |> <| http_minor := 9 |>)
  else if ch =? LF then
    Stop done (sw_uri, r <| uri_end := Some p |> <| http_minor := 9 |>)
  else if ch =? "#"%c then go sw_uri (r <| complex_uri := true |>)
  else if ch =? NUL then invalid_request sw_uri r
  else go sw_uri r.

Definition case_uri_http_09 (p ch : Z) (r : ngx_http_request) : result :=
  case_http_09 sw_http_09 (go sw_uri (r <| space_in_uri := true |>)) p ch r.

Definition case_first_major_digit (ch : Z) (r : ngx_http_request) : result :=
  if (ch <? "1"%c) || ("9"%c <? ch) then invalid_request sw_first_major_digit r
  else go sw_major_digit (r <| http_major := wrap 16 (ch - "0"%c) |>).

Definition case_major_digit (ch : Z) (r : ngx_http_request) : result :=
  if ch =? "."%c then go sw_first_minor_digit r
  else if (ch <? "0"%c) || ("9"%c <? ch) then invalid_request sw_major_digit r
  else go sw_major_digit (r <| http_major := wrap 16 (http_major r * 10 + ch - "0"%c) |>).

Definition case_first_minor_digit (ch : Z) (r : ngx_http_request) : result :=
  if (ch <? "0"%c) || ("9"%c <? ch) then invalid_request sw_first_minor_digit r
  else go sw_minor_digit (r <| http_minor := wrap 16 (ch - "0"%c) |>).

Definition case_minor_digit (ch : Z) (r : ngx_http_request) : result :=
  if ch =? CR then go sw_almost_done r
  else if ch =? LF then Stop done (sw_minor_digit, r)
  else if ch =? " "%c then go sw_spaces_after_digit r
  else if (ch <? "0"%c) || ("9"%c <? ch) then invalid_request sw_minor_digit r
  else go sw_minor_digit (r <| http_minor := wrap 16 (http_minor r * 10 + ch - "0"%c) |>).

Definition case_spaces_after_digit (ch : Z) (r : ngx_http_request) : result :=
  if ch =? " "%c then go sw_spaces_after_digit r
  else if ch =? CR then go sw_almost_done r
  else if ch =? LF then Stop done (sw_spaces_after_digit, r)
  else invalid_request sw_spaces_after_digit r.

Definition case_almost_done (p ch : Z) (r : ngx_http_request) : result :=
  let r := r <| request_end := Some (p - 1) |> in
  if ch =? LF then Stop done (sw_almost_done, r)
  else invalid_request sw_almost_done r.

Definition step (mem : list Z) (p ch : Z) (s : locals) : result :=
  let (st, r) := s in
  match st with
  | sw_start => case_start p ch r
  | sw_method => case_method mem p ch r
  | sw_spaces_before_uri => case_spaces_before_uri p ch r
  | sw_schema => case_schema p ch r
  | sw_schema_slash => case_expect "/"%c sw_schema_slash sw_schema_slash_slash ch r
  | sw_schema_slash_slash => case_expect "/"%c sw_schema_slash_slash sw_host_start ch r
  | sw_host_start => case_host_start p ch r
  | sw_host => case_host sw_host p ch r
  | sw_host_end => case_host_end sw_host_end p ch r
  | sw_host_ip_literal => case_host_ip_literal ch r
  | sw_port => case_port p ch r
  | sw_host_http_09 => case_host_http_09 p ch r
  | sw_after_slash_in_uri => case_after_slash_in_uri p ch r
  | sw_check_uri => case_check_uri p ch r
  | sw_check_uri_http_09 => case_check_uri_http_09 p ch r
  | sw_uri => case_uri p ch r
  | sw_http_09 => case_uri_http_09 p ch r
  | sw_http_H => case_expect "T"%c sw_http_H sw_http_HT ch r
  | sw_http_HT => case_expect "T"%c sw_http_HT sw_http_HTT ch r
  | sw_http_HTT => case_expect "P"%c sw_http_HTT sw_http_HTTP ch r
  | sw_http_HTTP => case_expect "/"%c sw_http_HTTP sw_first_major_digit ch r
  | sw_first_major_digit => case_first_major_digit ch r
  | sw_major_digit => case_major_digit ch r
  | sw_first_minor_digit => case_first_minor_digit ch r
  | sw_minor_digit => case_minor_digit ch r
  | sw_spaces_after_digit => case_spaces_after_digit ch r
  | sw_almost_done => case_almost_done p ch r
  end.

(** The body of the [switch], one label at a time. *)
Ltac unfold_cases :=
  unfold step, case_start, case_method, case_spaces_before_uri, case_schema, case_expect,
    case_host_start, case_host, case_host_end, case_host_ip_literal, case_port,
    case_host_http_09, case_after_slash_in_uri, case_check_uri, case_check_uri_http_09,
    case_uri, case_uri_http_09, case_http_09, case_first_major_digit, case_major_digit,
    case_first_minor_digit, case_minor_digit, case_spaces_after_digit, case_almost_done,
    go, invalid_method, invalid_request.

(** [done:], reached with the byte at [p] consumed. *)
Definition finish (p : Z) (r : ngx_http_request) : ngx_rc * ngx_http_request :=
  let r := match request_end r with
           | None => r <| request_end := Some p |>
           | Some _ => r
           end in
  let r := r <| http_version := http_major r * 1000 + http_minor r |> in
  if (http_version r =? 9) && negb (method r =? NGX_HTTP_GET)
  then (NGX_HTTP_PARSE_INVALID_09_METHOD, r)
  else (NGX_OK, r).

Definition ngx_http_parse_request_line (s : locals) (b : ngx_buf) : ngx_rc * locals * ngx_buf :=
  match scan (step (b_mem b)) (b_pos b) (unread b) s with
  | (p, s', None) => (NGX_AGAIN, s', Buf (b_mem b) p)
  | (p, (_, r'), Some done) =>
      let (rc, r'') := finish p r' in (rc, (sw_start, r''), Buf (b_mem b) (p + 1))
  | (_, (_, r'), Some (ret rc)) => (rc, (s.1, r'), b)
  end.

End RequestLine.
