(* ===== verification/RequestLineFacts.v ===== *)
(** * What a parsed request line guarantees

    The pointers left in the request are ordered and inside the buffer, the
    URI has no line break in it, and the parser can be fed in pieces. *)

From S2P Require Import Prelude Scan Request RequestLine.
Import RequestLine.

Module RequestLineFacts.

(** ** The bytes of the URI *)

(** No line break in [[a, e)], and a NUL only where the machine skips a byte:
    right after a space. *)
Definition uri_bytes (m : list Z) (a e : Z) : Prop :=
  forall i, a <= i < e ->
    rd m i <> LF /\ rd m i <> CR /\ (rd m i = NUL -> a < i /\ rd m (i - 1) = " "%c).

Definition no_space (m : list Z) (a e : Z) : Prop := forall i, a <= i < e -> rd m i <> " "%c.

Section Bytes.
Context (pre : list Z) (ch a p : Z) (Hp : p = Z.of_nat (length pre)) (Ha : 0 <= a).

Lemma uri_bytes_old e : e <= p -> uri_bytes pre a e -> uri_bytes (pre ++ [ch]) a e.
Proof.
  intros He H i Hi. rewrite rd_snoc_lt by lia. destruct (H i Hi) as (? & ? & Hn).
  split; [done|]. split; [done|]. intros E. destruct (Hn E) as [? Hs].
  split; [done|]. by rewrite rd_snoc_lt by lia.
Qed.

Lemma uri_bytes_new :
  uri_bytes pre a p -> ch <> LF -> ch <> CR ->
  (ch = NUL -> a < p /\ rd pre (p - 1) = " "%c) ->
  uri_bytes (pre ++ [ch]) a (p + 1).
Proof.
  intros H Hlf Hcr Hnul i Hi. destruct (decide (i = p)) as [->|Hne].
  - rewrite rd_snoc_eq by done. split; [done|]. split; [done|]. intros E.
    destruct (Hnul E) as [? ?]. split; [done|]. by rewrite rd_snoc_lt by lia.
  - apply (uri_bytes_old p); [lia|done|lia].
Qed.

Lemma no_space_old e : e <= p -> no_space pre a e -> no_space (pre ++ [ch]) a e.
Proof. intros He H i Hi. rewrite rd_snoc_lt by lia. by apply H. Qed.

Lemma no_space_new :
  no_space pre a p -> ch <> " "%c -> no_space (pre ++ [ch]) a (p + 1).
Proof.
  intros H Hs i Hi. destruct (decide (i = p)) as [->|Hne].
  - by rewrite rd_snoc_eq.
  - apply (no_space_old p); [lia|done|lia].
Qed.
End Bytes.

Lemma uri_bytes_le m a e e' : e' <= e -> uri_bytes m a e -> uri_bytes m a e'.
Proof. intros He H i Hi. apply H. lia. Qed.

Lemma uri_bytes_one m a c : rd m a = c -> c = "/"%c -> uri_bytes m a (a + 1).
Proof. intros H -> i Hi. replace i with a by lia. rewrite H. by repeat split. Qed.

Lemma no_space_one m a c : rd m a = c -> c = "/"%c -> no_space m a (a + 1).
Proof. intros H -> i Hi. replace i with a by lia. by rewrite H. Qed.

(** ** The state invariant

    [lo] is where the scan began, [pre] the memory before [p]. *)

Section Invariant.
Context (lo : Z).
Implicit Types (pre : list Z) (p : Z) (r : ngx_http_request).

Definition method_done p (rs me : option Z) : Prop :=
  ptr rs (fun rs => ptr me (fun me => lo <= rs <= me /\ me + 1 < p)).

(** [n] bytes after the colon of "http://" have been read. *)
Definition schema_done n pre p (me se : option Z) : Prop :=
  ptr me (fun me => ptr se (fun se =>
    me < se /\ se + n < p /\ (n <= 1 -> p = se + n + 1) /\ (1 <= n -> rd pre (se + 1) = "/"%c))).

(** The URI runs from [us] to [ue]; [sp] is [space_in_uri]. *)
Definition uri_at pre (me us : option Z) (ue : Z) (sp : bool) : Prop :=
  ptr me (fun me => ptr us (fun us =>
    me < us < ue /\ rd pre us = "/"%c /\ uri_bytes pre us ue
    /\ (sp = false -> no_space pre us ue))).

(** The URI ended before [p]. *)
Definition uri_closed pre p (me us ue : option Z) (sp : bool) : Prop :=
  ptr ue (fun ue => ue <= p /\ uri_at pre me us ue sp).

(** After a space that may yet turn out to belong to the URI. *)
Definition pending pre p (us : option Z) : Prop :=
  ptr us (fun us => uri_bytes pre us p) /\ rd pre (p - 1) = " "%c.

Definition inv pre p (s : locals) : Prop :=
  let (st, r) := s in
  let head := method_done p (request_start r) (method_end r) in
  let closed p := uri_closed pre p (method_end r) (uri_start r) (uri_end r) (space_in_uri r) in
  p = Z.of_nat (length pre) /\ 0 <= lo <= p /\ request_end r = None /\
  match st with
  | sw_start => True
  | sw_method => ptr (request_start r) (fun rs => lo <= rs < p)
  | sw_spaces_before_uri | sw_schema => head
  | sw_schema_slash => head /\ schema_done 0 pre p (method_end r) (schema_end r)
  | sw_schema_slash_slash => head /\ schema_done 1 pre p (method_end r) (schema_end r)
  | sw_host_start | sw_host | sw_host_end | sw_host_ip_literal | sw_port =>
      head /\ schema_done 2 pre p (method_end r) (schema_end r)
  | sw_after_slash_in_uri | sw_check_uri | sw_uri =>
      head /\ uri_at pre (method_end r) (uri_start r) p (space_in_uri r)
  | sw_check_uri_http_09 | sw_http_09 =>
      head /\ closed (p - 1) /\ pending pre p (uri_start r)
  | _ => head /\ closed (p - 1)
  end.

(** At [goto done]: [request_end] is the CR, or NULL when the line ended
    with a bare LF. *)
Definition done_at pre p (ch : Z) (l : label) (s : locals) : Prop :=
  let r := s.2 in
  let head := method_done p (request_start r) (method_end r) in
  let closed p := uri_closed pre p (method_end r) (uri_start r) (uri_end r) (space_in_uri r) in
  p = Z.of_nat (length pre) /\
  match l with
  | done => ch = LF /\ head /\
      (request_end r = None /\ closed p \/ request_end r = Some (p - 1) /\ closed (p - 1))
  | ret rc => rc = NGX_HTTP_PARSE_INVALID_METHOD \/ rc = NGX_HTTP_PARSE_INVALID_REQUEST
  end.

Lemma uri_at_old pre ch me us ue sp :
  0 <= lo -> ue <= Z.of_nat (length pre) -> uri_at pre (Some me) us ue sp -> lo <= me ->
  uri_at (pre ++ [ch]) (Some me) us ue sp.
Proof.
  intros Hlo Hue H Hme. unfold uri_at in *. open_ptr. rewrite rd_snoc_lt by lia.
  split; [lia|]. split; [done|]. split.
  - eapply uri_bytes_old; [done|lia|lia|done].
  - intros Hs. eapply no_space_old; [done|lia|lia|auto].
Qed.

Lemma uri_at_new pre ch me us sp p :
  0 <= lo -> p = Z.of_nat (length pre) -> uri_at pre (Some me) us p sp -> lo <= me ->
  ch <> LF -> ch <> CR -> ch <> NUL -> ch <> " "%c ->
  uri_at (pre ++ [ch]) (Some me) us (p + 1) sp.
Proof.
  intros Hlo Hp H Hme Hlf Hcr Hn Hs. unfold uri_at in *. open_ptr. rewrite rd_snoc_lt by lia.
  split; [lia|]. split; [done|]. split.
  - eapply uri_bytes_new; [done|lia|done..].
  - intros Hsp. eapply no_space_new; [done|lia|auto|done].
Qed.

Lemma uri_at_start pre me sp p :
  p = Z.of_nat (length pre) -> me < p ->
  uri_at (pre ++ ["/"%c]) (Some me) (Some p) (p + 1) sp.
Proof.
  intros Hp Hme. unfold uri_at. open_ptr.
  pose proof (rd_snoc_eq pre "/"%c p Hp) as E.
  split; [lia|]. split; [done|]. split; [by eapply uri_bytes_one|].
  intros _. by eapply no_space_one.
Qed.

(** The single "/" borrowed from "http://" when a URL has no path. *)
Lemma uri_at_borrowed pre ch me se sp :
  me < se -> 0 <= se -> se + 1 < Z.of_nat (length pre) -> rd pre (se + 1) = "/"%c ->
  uri_at (pre ++ [ch]) (Some me) (Some (se + 1)) (se + 2) sp.
Proof.
  intros Hme Hse Hp H. unfold uri_at. open_ptr.
  replace (se + 2) with (se + 1 + 1) by lia.
  assert (E : rd (pre ++ [ch]) (se + 1) = "/"%c) by by rewrite rd_snoc_lt by lia.
  split; [lia|]. split; [done|]. split; [by eapply uri_bytes_one|].
  intros _. by eapply no_space_one.
Qed.

Lemma pending_start pre me us sp p :
  0 <= lo -> lo <= me -> p = Z.of_nat (length pre) -> uri_at pre (Some me) us p sp ->
  pending (pre ++ [" "%c]) (p + 1) us.
Proof.
  intros Hlo Hme Hp H. unfold pending, uri_at in *. open_ptr. split.
  - eapply uri_bytes_new; [done|lia|done..].
  - apply rd_snoc_eq. lia.
Qed.

Lemma pending_more pre us p :
  p = Z.of_nat (length pre) -> 0 <= us <= p -> pending pre p (Some us) ->
  pending (pre ++ [" "%c]) (p + 1) (Some us).
Proof.
  intros Hp Hus [H _]. unfold pending in *. open_ptr. split.
  - eapply uri_bytes_new; [done|lia|done..].
  - apply rd_snoc_eq. lia.
Qed.

Lemma pending_resume pre ch me us ue sp p :
  0 <= lo -> lo <= me -> p = Z.of_nat (length pre) ->
  uri_closed pre (p - 1) (Some me) us (Some ue) sp -> pending pre p us ->
  ch <> LF -> ch <> CR -> ch <> " "%c -> uri_at (pre ++ [ch]) (Some me) us (p + 1) true.
Proof.
  intros Hlo Hme Hp Hc Hpd Hlf Hcr Hs. unfold uri_closed, uri_at, pending in *. open_ptr.
  rewrite rd_snoc_lt by lia. split; [lia|]. split; [done|]. split; [|done].
  eapply uri_bytes_new; [done|lia|done..|]. intros _. split; [lia|done].
Qed.

Lemma uri_at_lt pre me us ue sp :
  uri_at pre (Some me) us ue sp -> exists z, us = Some z /\ me < z < ue.
Proof. unfold uri_at. intros H. open_ptr. eauto. Qed.
End Invariant.

Ltac neq := first [ lia | eapply usual_neq; [eassumption|reflexivity] ].

(** Close a goal [inv] unfolds to, by the transition lemmas above. *)
Ltac finish_inv lo :=
  match goal with
  | |- _ /\ _ => split; finish_inv lo
  | |- _ \/ _ => first [left; solve [finish_inv lo] | right; solve [finish_inv lo]]
  | |- uri_at _ _ (Some _) (_ + 2) _ => eapply uri_at_borrowed; [lia..|eauto with lia]
  | |- uri_at _ _ _ _ _ =>
      first
      [ eassumption
      | eapply (uri_at_old lo); [lia|lia|eassumption|lia]
      | eapply (uri_at_new lo); [lia|lia|eassumption|lia|neq..]
      | eapply uri_at_start; lia
      | eapply (pending_resume lo); unfold uri_closed; cbn [ptr from_option]; eauto with lia; lia ]
  | |- pending _ _ _ =>
      first [ eapply (pending_start lo); [| | |eassumption]; lia
            | eapply pending_more; [| |eassumption]; lia ]
  | |- ptr _ _ => progress open_ptr; finish_inv lo
  | |- _ <= 1 -> _ = _ => lia
  | |- 1 <= _ -> rd _ _ = _ =>
      intros _; first [ rewrite rd_snoc_lt by lia; auto with lia | apply rd_snoc_eq; lia ]
  | |- _ => first [done | lia]
  end.

Ltac open_inv :=
  unfold schema_done, uri_closed, method_done, after_schema in *;
  cbn [ptr from_option] in *; open_ptr; subst; simpl_req;
  repeat match goal with
  | H : schema_end _ = Some _ |- _ => progress rewrite H; cbn [option_map ptr from_option]
  | H : method_end _ = Some _, H' : uri_at _ _ _ _ _ |- _ => progress rewrite H in H'
  end;
  try match goal with
  | H : uri_at _ _ _ _ _ |- _ =>
      let Hu := fresh in destruct (uri_at_lt _ _ _ _ _ H) as (? & Hu & ?); try rewrite Hu in *
  end.

(** Every transition of the [switch] keeps the invariant. *)
Lemma inv_step lo mem pre p ch s :
  inv lo pre p s ->
  match step mem p ch s with
  | Next s' => inv lo (pre ++ [ch]) (p + 1) s'
  | Stop l s' => done_at lo pre p ch l s'
  end.
Proof.
  destruct s as [st r]. intros (Hp & Hlo & Hre & Hst).
  pose proof (length_snoc_Z pre ch p Hp) as Hp'.
  destruct st.
  2: destruct (request_start r) eqn:Hrs; [|destruct Hst].
  all: unfold_cases; split_ifs; try solve [split; [done|]; simpl; auto].
  all: b2p; subst; unfold inv, done_at; cbn [fst snd]; simpl_req; rewrite ?Hrs.
  all: open_inv; rewrite ?Hre; finish_inv lo.
Qed.

(** ** What a caller may rely on *)

Lemma uri_bytes_app m ys a e :
  0 <= a -> e <= Z.of_nat (length m) -> uri_bytes m a e -> uri_bytes (m ++ ys) a e.
Proof.
  intros Ha He H i Hi. rewrite rd_app_l by lia. destruct (H i Hi) as (? & ? & Hn).
  split; [done|]. split; [done|]. intros E. destruct (Hn E). split; [done|].
  by rewrite rd_app_l by lia.
Qed.

Lemma no_space_app m ys a e :
  0 <= a -> e <= Z.of_nat (length m) -> no_space m a e -> no_space (m ++ ys) a e.
Proof. intros Ha He H i Hi. rewrite rd_app_l by lia. by apply H. Qed.

(** The line a successful parse delimits, [ [lo, hi) ] of the memory [m]. *)
Definition line_of (m : list Z) (lo hi : Z) (r : ngx_http_request) : Prop :=
  exists rs me us ue re,
    request_start r = Some rs /\ method_end r = Some me /\
    uri_start r = Some us /\ uri_end r = Some ue /\ request_end r = Some re /\
    lo <= rs <= me /\ me < us /\ us < ue <= re /\ re < hi /\
    rd m us = "/"%c /\ uri_bytes m us ue /\
    (space_in_uri r = false -> no_space m us ue).

Lemma finish_line lo pre ch post p r rc r' :
  0 <= lo -> done_at lo pre p ch done (sw_start, r) -> finish p r = (rc, r') ->
  line_of (pre ++ ch :: post) lo (p + 1) r'.
Proof.
  intros Hlo (Hp & _ & Hhead & Hend) Hf. cbn [snd] in *.
  assert (Hr : exists re, request_end r' = Some re /\ re <= p /\
    request_start r' = request_start r /\ method_end r' = method_end r /\
    uri_start r' = uri_start r /\ uri_end r' = uri_end r /\
    space_in_uri r' = space_in_uri r /\
    uri_closed pre re (method_end r) (uri_start r) (uri_end r) (space_in_uri r)).
  { unfold finish in Hf. destruct Hend as [[E Hc]|[E Hc]]; rewrite E in Hf; simpl_req;
      case_match; injection Hf as _ <-; simpl_req; rewrite ?E; eexists; split_and!; eauto; lia. }
  destruct Hr as (re & Hre & Hle & Ers & Eme & Eus & Eue & Esp & Hc).
  unfold uri_closed, method_done in *. open_ptr. unfold uri_at in *. open_ptr.
  do 5 eexists. rewrite Ers, Eme, Eus, Eue, Esp.
  do 5 (split; [eassumption|]). split_and!; try done; try lia.
  - rewrite rd_app_l by lia. done.
  - apply uri_bytes_app; [lia|lia|done].
  - intros Hs. apply no_space_app; [lia|lia|auto].
Qed.

Lemma inv_start lo m p r :
  0 <= lo <= p -> p <= Z.of_nat (length m) -> request_end r = None ->
  inv lo (take (Z.to_nat p) m) p (sw_start, r).
Proof. intros Hlo Hp Hr. repeat split; try done; try lia. rewrite length_take. lia. Qed.

(** The three ways a call ends. *)
Lemma parse_cases lo s b :
  buf_wf b -> inv lo (take (Z.to_nat (b_pos b)) (b_mem b)) (b_pos b) s ->
  match ngx_http_parse_request_line s b with
  | (NGX_AGAIN, s', b') => b' = Buf (b_mem b) (b_last b) /\ inv lo (b_mem b) (b_last b) s'
  | (rc, s', b') =>
      (rc = NGX_OK \/ rc = NGX_HTTP_PARSE_INVALID_09_METHOD) /\ s'.1 = sw_start /\
      b_mem b' = b_mem b /\ b_pos b < b_pos b' <= b_last b /\
      line_of (b_mem b) lo (b_pos b') s'.2
      \/ (rc = NGX_HTTP_PARSE_INVALID_METHOD \/ rc = NGX_HTTP_PARSE_INVALID_REQUEST) /\
         s'.1 = s.1 /\ b' = b
  end.
Proof.
  intros Hwf Hinv. unfold ngx_http_parse_request_line.
  pose proof (scan_invariant (step (b_mem b)) (inv lo) (done_at lo)
    (inv_step lo (b_mem b)) (unread b) _ _ _ Hinv) as H.
  pose proof (scan_none_pos (step (b_mem b)) (b_pos b) (unread b) s) as Hn.
  pose proof (length_unread b Hwf) as Hl.
  destruct (scan _ _ _ _) as [[p [st r]] [l|]]; cbn [snd] in *.
  - destruct H as (mid & ch & post & Eu & -> & Hd).
    assert (Em : b_mem b = (take (Z.to_nat (b_pos b)) (b_mem b) ++ mid) ++ ch :: post).
    { rewrite <- app_assoc, <- Eu. unfold unread. by rewrite take_drop. }
    assert (Hlen : Z.of_nat (length mid) < b_last b - b_pos b).
    { rewrite <- Hl, Eu, length_app. simpl. lia. }
    destruct l as [|rc].
    + destruct (finish _ r) as [rc r'] eqn:Ef.
      assert (Hlo : 0 <= lo) by (destruct s as [? ?]; destruct Hinv as (_ & ? & _); lia).
      pose proof (finish_line lo _ ch post _ r rc r' Hlo Hd Ef) as HL.
      rewrite <- Em in HL.
      assert (Hrc : rc = NGX_OK \/ rc = NGX_HTTP_PARSE_INVALID_09_METHOD)
        by (unfold finish in Ef; repeat case_match; injection Ef as <- _; auto).
      destruct Hwf. destruct Hrc as [-> | ->]; left; split_and!; auto; simpl; lia.
    + destruct Hd as (_ & [-> | ->]); right; auto.
  - specialize (Hn _ _ eq_refl) as ->. unfold unread in H at 1. rewrite take_drop in H.
    replace (b_pos b + _) with (b_last b) in H |- * by lia. done.
Qed.

End RequestLineFacts.
