(* ===== verification/RequestLineProps.v ===== *)
(** * The properties of the request-line parser *)

From S2P Require Import Prelude Scan Request RequestLine RequestLineFacts.
Import RequestLine RequestLineFacts.

Module RequestLineProps.

(** ** The method word *)

(** The words of RFC 2616 and RFC 2518 the server knows. *)
Definition method_table : list (list Z * Z) :=
  [ (bytes_of "GET", NGX_HTTP_GET); (bytes_of "PUT", NGX_HTTP_PUT);
    (bytes_of "POST", NGX_HTTP_POST); (bytes_of "COPY", NGX_HTTP_COPY);
    (bytes_of "MOVE", NGX_HTTP_MOVE); (bytes_of "LOCK", NGX_HTTP_LOCK);
    (bytes_of "HEAD", NGX_HTTP_HEAD); (bytes_of "MKCOL", NGX_HTTP_MKCOL);
    (bytes_of "PATCH", NGX_HTTP_PATCH); (bytes_of "TRACE", NGX_HTTP_TRACE);
    (bytes_of "DELETE", NGX_HTTP_DELETE); (bytes_of "UNLOCK", NGX_HTTP_UNLOCK);
    (bytes_of "OPTIONS", NGX_HTTP_OPTIONS); (bytes_of "PROPFIND", NGX_HTTP_PROPFIND);
    (bytes_of "PROPPATCH", NGX_HTTP_PROPPATCH) ].

Fixpoint word_eqb (w k : list Z) : bool :=
  match w, k with
  | [], [] => true
  | c :: w', d :: k' => (c =? d) && word_eqb w' k'
  | _, _ => false
  end.

Fixpoint assoc (w : list Z) (t : list (list Z * Z)) (d : Z) : Z :=
  match t with
  | [] => d
  | (k, v) :: t' => if word_eqb w k then v else assoc w t' d
  end.

(** The decision tree looks at the bytes of the word only. *)
Lemma recognise_ext m1 m2 n old :
  (forall i, 0 <= i < n -> rd m1 i = rd m2 i) -> recognise m1 n old = recognise m2 n old.
Proof.
  intros H. unfold recognise, recognise_with, portable; cbn [str3_cmp str3Ocmp str4cmp str5cmp str6cmp
    str7_cmp str8cmp str9cmp]; unfold ngx_str9cmp, ngx_str8cmp, ngx_str7_cmp, ngx_str6cmp, ngx_str5cmp,
    ngx_str4cmp, ngx_str3Ocmp, ngx_str3_cmp.
  repeat match goal with
  | |- (if n =? ?k then _ else _) = _ => destruct (Z.eqb_spec n k); [subst n; rewrite !H by lia; done|]
  end. done.
Qed.

Lemma word_eqb_eq w k : word_eqb w k = true <-> w = k.
Proof.
  revert k; induction w as [|c w IH]; intros [|d k]; simpl; try done.
  rewrite andb_true_iff, Z.eqb_eq, IH. split; [by intros [-> ->]|by intros [= -> ->]].
Qed.

Lemma word_eqb_rd w k i : word_eqb w k = true -> rd w i = rd k i.
Proof. intros E%word_eqb_eq. by subst. Qed.

(** Only the words of the right length matter. *)
Lemma assoc_length w t d n :
  length w = n ->
  assoc w t d = assoc w (List.filter (fun kv => Nat.eqb (length kv.1) n) t) d.
Proof.
  intros <-. induction t as [|[k v] t IH]; simpl; [done|].
  destruct (Nat.eqb_spec (length k) (length w)); simpl; rewrite <- IH; [done|].
  destruct (word_eqb w k) eqn:E; [|done]. apply word_eqb_eq in E. by subst.
Qed.

Lemma assoc_none w t d :
  Forall (fun kv => length kv.1 <> length w) t -> assoc w t d = d.
Proof.
  induction 1 as [|[k v] t Hk _ IH]; simpl; [done|].
  destruct (word_eqb w k) eqn:E; [|done]. apply word_eqb_eq in E. by subst.
Qed.

Section Macros.
Implicit Types (w : list Z).

Ltac by_bytes :=
  intros Hl; repeat match goal with w : list Z |- _ => destruct w; simpl in Hl; try lia end;
  cbv [ngx_str9cmp ngx_str8cmp ngx_str7_cmp ngx_str6cmp ngx_str5cmp ngx_str4cmp ngx_str3_cmp
       ngx_str3Ocmp rd]; cbn; intros; subst; cbn; rewrite ?andb_true_r, <- ?andb_assoc; done.

Lemma str3_cmp_word w c0 c1 c2 c3 : length w = 3%nat ->
  ngx_str3_cmp w c0 c1 c2 c3 = word_eqb w [c0; c1; c2].
Proof. by_bytes. Qed.
Lemma str3Ocmp_word w c0 c1 c2 c3 : length w = 4%nat -> rd w 1 = c1 ->
  ngx_str3Ocmp w c0 c1 c2 c3 = word_eqb w [c0; c1; c2; c3].
Proof.
  intros Hl <-. do 4 (destruct w as [|? w]; simpl in Hl; try lia). destruct w; [|done].
  cbv [ngx_str3Ocmp rd]; cbn. rewrite Z.eqb_refl. by rewrite <- andb_assoc, andb_true_r.
Qed.
Lemma str4cmp_word w c0 c1 c2 c3 : length w = 4%nat ->
  ngx_str4cmp w c0 c1 c2 c3 = word_eqb w [c0; c1; c2; c3].
Proof. by_bytes. Qed.
Lemma str5cmp_word w c0 c1 c2 c3 c4 : length w = 5%nat ->
  ngx_str5cmp w c0 c1 c2 c3 c4 = word_eqb w [c0; c1; c2; c3; c4].
Proof. by_bytes. Qed.
Lemma str6cmp_word w c0 c1 c2 c3 c4 c5 : length w = 6%nat ->
  ngx_str6cmp w c0 c1 c2 c3 c4 c5 = word_eqb w [c0; c1; c2; c3; c4; c5].
Proof. by_bytes. Qed.
Lemma str7_cmp_word w c0 c1 c2 c3 c4 c5 c6 c7 : length w = 7%nat ->
  ngx_str7_cmp w c0 c1 c2 c3 c4 c5 c6 c7 = word_eqb w [c0; c1; c2; c3; c4; c5; c6].
Proof. by_bytes. Qed.
Lemma str8cmp_word w c0 c1 c2 c3 c4 c5 c6 c7 : length w = 8%nat ->
  ngx_str8cmp w c0 c1 c2 c3 c4 c5 c6 c7 = word_eqb w [c0; c1; c2; c3; c4; c5; c6; c7].
Proof. by_bytes. Qed.
Lemma str9cmp_word w c0 c1 c2 c3 c4 c5 c6 c7 c8 : length w = 9%nat ->
  ngx_str9cmp w c0 c1 c2 c3 c4 c5 c6 c7 c8 = word_eqb w [c0; c1; c2; c3; c4; c5; c6; c7; c8].
Proof. by_bytes. Qed.
End Macros.

(** The second byte of the word decides between [O]-words and [HEAD]. *)
Ltac by_second E Ew := exfalso; apply (word_eqb_rd _ _ 1) in Ew; rewrite Ew in E; by apply E || discriminate E.

(** The nested switch is the table. *)
Lemma recognise_assoc w old :
  recognise w (Z.of_nat (length w)) old = assoc w method_table old.
Proof.
  unfold recognise, recognise_with, portable.
  cbn [str3_cmp str3Ocmp str4cmp str5cmp str6cmp str7_cmp str8cmp str9cmp].
  repeat match goal with
  | |- (if _ =? ?k then _ else _) = _ =>
      destruct (Z.eqb_spec (Z.of_nat (length w)) k) as [Hl|?];
      [ let n := eval vm_compute in (Z.to_nat k) in
        apply (Nat2Z.inj (length w) n) in Hl; rewrite (assoc_length _ _ _ _ Hl) | ]
  end.
  - by rewrite !str3_cmp_word.
  - destruct (Z.eqb_spec (rd w 1) "O"%c) as [E|E].
    + rewrite !str3Ocmp_word by done. cbn -[word_eqb NGX_HTTP_HEAD rd].
      repeat (destruct (word_eqb w _) eqn:Ew; [done || by_second E Ew|]; clear Ew). done.
    + rewrite str4cmp_word by done. cbn -[word_eqb rd].
      do 4 (destruct (word_eqb w [_; "O"%c; _; _]) eqn:Ew; [by_second E Ew|]; clear Ew). done.
  - by rewrite !str5cmp_word.
  - by rewrite !str6cmp_word.
  - by rewrite str7_cmp_word.
  - by rewrite str8cmp_word.
  - by rewrite str9cmp_word.
  - symmetry. apply assoc_none. repeat constructor; simpl; lia.
Qed.

(** ** The little-endian macros *)

Lemma pack32_sum c0 c1 c2 c3 : u_char c0 -> u_char c1 -> u_char c2 -> u_char c3 ->
  pack32 c0 c1 c2 c3 = c0 + 2 ^ 8 * c1 + 2 ^ 16 * c2 + 2 ^ 24 * c3.
Proof. unfold u_char, pack32. intros. rewrite (lor_shiftl_add c0), (lor_shiftl_add _ c2), (lor_shiftl_add _ c3) by lia. lia. Qed.

Section LittleEndian.
Context (m : list Z) (Hm : forall i, u_char (rd m i)).

Lemma load32_pack i c0 c1 c2 c3 : u_char c0 -> u_char c1 -> u_char c2 -> u_char c3 ->
  (load32 m i =? pack32 c0 c1 c2 c3) =
  (rd m i =? c0) && (rd m (i + 1) =? c1) && (rd m (i + 2) =? c2) && (rd m (i + 3) =? c3).
Proof.
  intros H0 H1 H2 H3. rewrite pack32_sum by done. unfold load32, u_char in *.
  pose proof (Hm i). pose proof (Hm (i + 1)). pose proof (Hm (i + 2)). pose proof (Hm (i + 3)).
  apply eq_true_iff_eq. rewrite !andb_true_iff, !Z.eqb_eq. lia.
Qed.

Lemma load16_pack i c0 c1 : u_char c0 -> u_char c1 ->
  (Z.land (load32 m i) 0xffff =? Z.lor (Z.shiftl c1 8) c0) =
  (rd m i =? c0) && (rd m (i + 1) =? c1).
Proof.
  intros H0 H1. unfold u_char in *. rewrite lor_shiftl_add by lia.
  change 0xffff with (Z.ones 16). rewrite Z.land_ones by lia. unfold load32.
  pose proof (Hm i). pose proof (Hm (i + 1)).
  replace (_ + _ + _ + _) with (rd m i + 2 ^ 8 * rd m (i + 1)
    + (rd m (i + 2) + 2 ^ 8 * rd m (i + 3)) * 2 ^ 16) by lia.
  rewrite Z.mod_add, Z.mod_small by lia.
  apply eq_true_iff_eq. rewrite !andb_true_iff, !Z.eqb_eq. lia.
Qed.

Lemma recognise_le n old : 0 <= n -> rd m n = " "%c ->
  recognise_with little_endian m n old = recognise m n old.
Proof.
  intros Hn Hsp. unfold recognise, recognise_with, little_endian, portable.
  cbn [str3_cmp str3Ocmp str4cmp str5cmp str6cmp str7_cmp str8cmp str9cmp].
  unfold le_str4cmp, le_str5cmp, le_str6cmp, le_str8cmp, le_str9cmp.
  rewrite !load32_pack, !load16_pack by (unfold u_char; lia).
  unfold ngx_str9cmp, ngx_str8cmp, ngx_str7_cmp, ngx_str6cmp, ngx_str5cmp, ngx_str4cmp,
    ngx_str3Ocmp, ngx_str3_cmp. cbv [Z.add Pos.add Pos.succ Pos.add_carry].
  destruct (Z.eqb_spec n 3) as [->|?]; [by rewrite Hsp, !andb_true_r|].
  destruct (Z.eqb_spec n 4) as [->|?].
  { destruct (rd m 1 =? "O"%c); [|done]. by rewrite !andb_true_r. }
  destruct (Z.eqb_spec n 5) as [->|?]; [done|].
  destruct (Z.eqb_spec n 6) as [->|?]; [by rewrite !andb_assoc|].
  destruct (Z.eqb_spec n 7) as [->|?]; [by rewrite Hsp, !andb_true_r, !andb_assoc|].
  destruct (Z.eqb_spec n 8) as [->|?]; [by rewrite !andb_assoc|].
  destruct (Z.eqb_spec n 9) as [->|?]; [by rewrite !andb_assoc|]. done.
Qed.
End LittleEndian.

(** ** Feeding the parser in pieces *)

(** The memory a step reads does not change when more bytes arrive. *)
Lemma step_received lo m ys pre p ch s :
  inv lo pre p s -> 0 <= p < Z.of_nat (length m) ->
  step (m ++ ys) p ch s = step m p ch s.
Proof.
  destruct s as [st r]. intros (Hp & Hlo & _ & Hst) Hpm.
  destruct st; try done. unfold step, case_method.
  destruct (request_start r) as [z|] eqn:Hrs; [|done]. cbn in Hst.
  case_match; [|done]. simpl_req. rewrite Hrs.
  rewrite (recognise_ext (drop (Z.to_nat z) (m ++ ys)) (drop (Z.to_nat z) m)); [done|].
  intros i Hi. rewrite !rd_drop by lia. apply rd_app_l. lia.
Qed.

(** [goto done] and [return rc]: an error leaves [r->state] and [b->pos] as
    they were on entry. *)
Definition leave (s : locals) (q p : Z) (l : label) (s' : locals) : ngx_rc * locals * Z :=
  match l with
  | done => let (rc, r) := finish p s'.2 in (rc, (sw_start, r), p + 1)
  | ret rc => (rc, (s.1, s'.2), q)
  end.

Definition fatal (rc : ngx_rc) : bool :=
  bool_decide (rc <> NGX_OK) && bool_decide (rc <> NGX_HTTP_PARSE_INVALID_09_METHOD).

Lemma finish_rc p r :
  (finish p r).1 = NGX_OK \/ (finish p r).1 = NGX_HTTP_PARSE_INVALID_09_METHOD.
Proof. unfold finish. destruct (_ && _); auto. Qed.

Definition same (rc : ngx_rc) : relation (locals * ngx_buf) := same_unless (fatal rc).

Definition line_inv (pre : list Z) (p : Z) (s : locals) : Prop := exists lo, inv lo pre p s.

Lemma parse_scan s b :
  ngx_http_parse_request_line s b = scan_parse step leave s b.
Proof.
  unfold ngx_http_parse_request_line, scan_parse.
  destruct (scan _ _ _ _) as [[p [st r]] [[|rc]|]]; cbn [leave fst snd]; [|by destruct b|done].
  by destruct (finish p r).
Qed.

(** Every [return] inside the loop is one of the two error codes. *)
Lemma reached_label p l s' : reached step line_inv p l s' ->
  match l with
  | done => True
  | ret rc => rc = NGX_HTTP_PARSE_INVALID_METHOD \/ rc = NGX_HTTP_PARSE_INVALID_REQUEST
  end.
Proof.
  intros (mem & pre & ch & s & [lo Hi] & E). pose proof (inv_step lo mem pre p ch s Hi) as H.
  rewrite E in H. destruct H as (_ & H). by destruct l.
Qed.

#[export] Instance request_line_parser : StreamParser locals :=
  scan_parser line_inv same ngx_http_parse_request_line.

#[export] Instance request_line_parser_laws : StreamParserLaws locals.
Proof.
  apply (scan_parser_laws step leave).
  - intros mem pre p ch s s' [lo Hi] E. exists lo. pose proof (inv_step lo mem pre p ch s Hi) as H.
    by rewrite E in H.
  - intros m ys pre p ch s [lo Hi]. by eapply step_received.
  - intros s0 q p l s' Hr%reached_label. destruct l as [|rc]; cbn [leave].
    + pose proof (finish_rc p s'.2) as Hf. destruct (finish p s'.2); cbn [fst] in *.
      by destruct Hf as [-> | ->].
    + cbn [fst]. by destruct Hr as [-> | ->].
  - intros s1 q1 s2 q2 m p l s' Hr%reached_label. destruct l as [|rc]; cbn [leave].
    + by destruct (finish p s'.2).
    + split; [done|]. cbn [fst snd]. by destruct Hr as [-> | ->].
  - apply parse_scan.
Qed.

(** ** The properties *)

(** The method field is the entry of the method table for the bytes of the
    method word, and is left alone when the word is not in the table. *)
Theorem method_recognised w rest old :
  recognise (w ++ rest) (Z.of_nat (length w)) old = assoc w method_table old.
Proof.
  rewrite <- recognise_assoc. apply recognise_ext. intros i Hi. apply rd_app_l. lia.
Qed.

(** On any memory of bytes whose word is followed by a space, the
    little-endian word comparisons choose the same method as the byte-by-byte
    ones. *)
Theorem recognise_little_endian m n old :
  (forall i, u_char (rd m i)) -> 0 <= n -> rd m n = " "%c ->
  recognise_with little_endian m n old = recognise m n old.
Proof. intros Hm. by apply recognise_le. Qed.

Lemma recognise_little_endian_witness :
  recognise_with little_endian (bytes_of "OPTIONS /") 7 0
  = recognise (bytes_of "OPTIONS /") 7 0
  /\ recognise (bytes_of "OPTIONS /") 7 0 = NGX_HTTP_OPTIONS.
Proof.
  split; [|reflexivity]. apply recognise_little_endian; [|lia|reflexivity].
  intros i. unfold rd. destruct (nth_in_or_default (Z.to_nat i) (bytes_of "OPTIONS /") 0) as [H|H]; [|rewrite H].
  - revert H. generalize (nth (Z.to_nat i) (bytes_of "OPTIONS /") 0). cbn.
    intros z H. unfold u_char. lia.
  - unfold u_char. lia.
Defined.

(** When the parser answers [NGX_OK], the pointers it leaves delimit
    request, method and URI in order inside the bytes it consumed, the URI
    starts with "/" and has no CR or LF in it, a NUL occurs in it only right
    after a space, and no space occurs in it unless [space_in_uri] was set. *)
Theorem request_line_sound r b s' b' :
  buf_wf b -> request_end r = None ->
  ngx_http_parse_request_line (sw_start, r) b = (NGX_OK, s', b') ->
  s'.1 = sw_start /\ b_mem b' = b_mem b /\ b_pos b < b_pos b' <= b_last b /\
  line_of (b_mem b) (b_pos b) (b_pos b') s'.2.
Proof.
  intros Hwf Hr E. unfold buf_wf, b_last in *.
  pose proof (parse_cases (b_pos b) (sw_start, r) b Hwf
    (inv_start (b_pos b) (b_mem b) (b_pos b) r ltac:(lia) ltac:(lia) Hr)) as H.
  rewrite E in H. destruct H as [(_ & H)|([|] & _)]; done.
Qed.

Definition sample_buf : ngx_buf := Buf (bytes_of "GET /a?b HTTP/1.1" ++ [CR; LF]) 0.

Lemma request_line_sound_witness :
  let x := ngx_http_parse_request_line (sw_start, fresh_request) sample_buf in
  x.1.1 = NGX_OK /\ b_pos x.2 = 19 /\ line_of (b_mem sample_buf) 0 (b_pos x.2) x.1.2.2.
Proof.
  intros x. split; [vm_compute; reflexivity|]. split; [vm_compute; reflexivity|].
  destruct (request_line_sound fresh_request sample_buf x.1.2 x.2) as (_ & _ & _ & H);
    [split; vm_compute; discriminate | reflexivity | vm_compute; reflexivity | exact H].
Defined.

(** Feeding a request line from the socket in any segments gives the same
    answer as parsing all its bytes at once, with the same request and buffer
    position unless the answer is that the line is malformed. *)
Theorem request_line_segments r b segs :
  buf_wf b -> request_end r = None ->
  same_result (ngx_http_parse_request_line (sw_start, r) (received b (concat segs)))
              (with_tail (feed (sw_start, r) b segs) (unfed (sw_start, r) b segs)).
Proof.
  intros Hwf Hr. refine (feed_one_shot (St := locals) (sw_start, r) b segs _). split; [done|].
  exists (b_pos b). unfold buf_wf, b_last in Hwf. by apply inv_start; try lia.
Qed.

Lemma request_line_segments_witness :
  same_result
    (ngx_http_parse_request_line (sw_start, fresh_request)
       (received (Buf [] 0) (concat [bytes_of "GE"; bytes_of "T / HTTP/1"; bytes_of ".0" ++ [LF]])))
    (with_tail
       (feed (sw_start, fresh_request) (Buf [] 0)
          [bytes_of "GE"; bytes_of "T / HTTP/1"; bytes_of ".0" ++ [LF]])
       (unfed (sw_start, fresh_request) (Buf [] 0)
          [bytes_of "GE"; bytes_of "T / HTTP/1"; bytes_of ".0" ++ [LF]])).
Proof. apply request_line_segments; [split; vm_compute; discriminate|reflexivity]. Defined.

End RequestLineProps.
