(* ===== verification/ParseUri.v ===== *)
(** * [ngx_http_parse_uri]

    The URI states of the request-line parser run over a URI that is already
    delimited ([r->uri_start], [r->uri_end]): an internal redirect, a SPDY
    request, a subrequest.  It sets the flags that tell
    [ngx_http_process_request_uri] whether the URI must be normalised. *)

From S2P Require Import Prelude Scan Request.

Module ParseUri.

Inductive sw := sw_start | sw_after_slash_in_uri | sw_check_uri | sw_uri.

#[export] Instance sw_eq_dec : EqDecision sw.
Proof. solve_decision. Defined.

Definition locals : Type := sw * ngx_http_request.
Abbreviation result := (outcome locals ngx_rc).
Definition go (st : sw) (r : ngx_http_request) : result := Next (st, r).

Definition case_start (ch : Z) (r : ngx_http_request) : result :=
  if negb (ch =? "/"%c) then Stop NGX_ERROR (sw_start, r) else go sw_after_slash_in_uri r.

Definition case_after_slash_in_uri (p ch : Z) (r : ngx_http_request) : result :=
  if is_usual ch then go sw_check_uri r
  else if ch =? " "%c then go sw_check_uri (r <| space_in_uri := true |>)
  else if ch =? "."%c then go sw_uri (r <| complex_uri := true |>)
  else if ch =? "%"%c then go sw_uri (r <| quoted_uri := true |>)
  else if ch =? "/"%c then go sw_uri (r <| complex_uri := true |>)
  else if ch =? "?"%c then go sw_uri (r <| args_start := Some (p + 1) |>)
  else if ch =? "#"%c then go sw_uri (r <| complex_uri := true |>)
  else if ch =? "+"%c then go sw_after_slash_in_uri (r <| plus_in_uri := true |>)
  else go sw_check_uri r.

Definition case_check_uri (p ch : Z) (r : ngx_http_request) : result :=
  if is_usual ch then go sw_check_uri r
  else if ch =? "/"%c then go sw_after_slash_in_uri (r <| uri_ext := None |>)
  else if ch =? "."%c then go sw_check_uri (r <| uri_ext := Some (p + 1) |>)
  else if ch =? " "%c then go sw_check_uri (r <| space_in_uri := true |>)
  else if ch =? "%"%c then go sw_uri (r <| quoted_uri := true |>)
  else if ch =? "?"%c then go sw_uri (r <| args_start := Some (p + 1) |>)
  else if ch =? "#"%c then go sw_uri (r <| complex_uri := true |>)
  else if ch =? "+"%c then go sw_check_uri (r <| plus_in_uri := true |>)
  else go sw_check_uri r.

Definition case_uri (ch : Z) (r : ngx_http_request) : result :=
  if is_usual ch then go sw_uri r
  else if ch =? " "%c then go sw_uri (r <| space_in_uri := true |>)
  else if ch =? "#"%c then go sw_uri (r <| complex_uri := true |>)
  else go sw_uri r.

Definition step (p ch : Z) (s : locals) : result :=
  let (st, r) := s in
  match st with
  | sw_start => case_start ch r
  | sw_after_slash_in_uri => case_after_slash_in_uri p ch r
  | sw_check_uri => case_check_uri p ch r
  | sw_uri => case_uri ch r
  end.

(** [for (p = r->uri_start; p != r->uri_end; p++)] over the bytes between the
    two pointers; a request with either pointer NULL is never passed in. *)
Definition ngx_http_parse_uri (mem : list Z) (r : ngx_http_request) : ngx_rc * ngx_http_request :=
  match uri_start r, uri_end r with
  | Some us, Some ue =>
      match scan step us (slice mem us ue) (sw_start, r) with
      | (_, (_, r'), None) => (NGX_OK, r')
      | (_, (_, r'), Some rc) => (rc, r')
      end
  | _, _ => (NGX_ERROR, r)
  end.

(** The body of the [switch], for case analysis. *)
Ltac unfold_parse_uri :=
  unfold step, case_start, case_after_slash_in_uri, case_check_uri, case_uri, go.

End ParseUri.
