(* ===== verification/ComplexUri.v ===== *)
(** * [ngx_http_parse_complex_uri]

    Normalisation of a URI: percent-decoding, merging of slashes, removal of
    "/./" and "/../".  The loop reads one byte ahead ([ch = *p++]) and may go
    round once without reading (a decoded byte is dispatched again in the state
    the "%" was met in), so it is a [while] with fuel here; [fuel_enough] in
    ComplexUriFacts.v shows that the fuel given is never used up. *)

From S2P Require Import Prelude Request.

Module ComplexUri.

Inductive sw := sw_usual | sw_slash | sw_dot | sw_dot_dot | sw_quoted | sw_quoted_second.

#[export] Instance sw_eq_dec : EqDecision sw.
Proof. solve_decision. Defined.

(** The locals, and the fields of the request the function writes.  [out] is
    the memory from [r->uri.data] to [u]; [ext] is [r->uri_ext], an offset
    into it. *)
Record locals := Locals {
  state : sw; quoted_state : sw; decoded : Z; ch : Z; p : Z;
  out : list Z; ext : option Z; args : option Z;
  plus : bool; quoted : bool }.

(** What leaves the loop. *)
Inductive exit := to_done | to_args | to_return (rc : ngx_rc) | out_of_fuel.

Inductive next := Loop (s : locals) | Exit (e : exit) (s : locals).

Section Parse.
Context (mem : list Z) (us ue : Z) (merge_slashes : bool).

(** [ch = *p++] with the new state, output and extension. *)
Definition advance (st : sw) (o : list Z) (e : option Z) (pl : bool) (s : locals) : next :=
  Loop (Locals st (quoted_state s) (decoded s) (rd mem (p s)) (p s + 1) o e (args s) pl (quoted s)).

(** [*u++ = ch] *)
Definition put (s : locals) : list Z := out s ++ [ch s].

(** [quoted_state = state; state = sw_quoted; ch = *p++] *)
Definition to_quoted (s : locals) : next :=
  Loop (Locals sw_quoted (state s) (decoded s) (rd mem (p s)) (p s + 1)
          (out s) (ext s) (args s) (plus s) (quoted s)).

Definition goto_args (s : locals) : next :=
  Exit to_args (Locals (state s) (quoted_state s) (decoded s) (ch s) (p s)
                  (out s) (ext s) (Some (p s)) (plus s) (quoted s)).

Definition case_usual (s : locals) : next :=
  let c := ch s in
  if is_usual c then advance sw_usual (put s) (ext s) (plus s) s
  else if c =? "/"%c then advance sw_slash (put s) None (plus s) s
  else if c =? "%"%c then to_quoted s
  else if c =? "?"%c then goto_args s
  else if c =? "#"%c then Exit to_done s
  else if c =? "."%c then
    advance sw_usual (put s) (Some (Z.of_nat (length (out s)) + 1)) (plus s) s
  else if c =? "+"%c then advance sw_usual (put s) (ext s) true s
  else advance sw_usual (put s) (ext s) (plus s) s.

Definition case_slash (s : locals) : next :=
  let c := ch s in
  if is_usual c then advance sw_usual (put s) (ext s) (plus s) s
  else if c =? "/"%c then
    advance sw_slash (if negb merge_slashes then put s else out s) (ext s) (plus s) s
  else if c =? "."%c then advance sw_dot (put s) (ext s) (plus s) s
  else if c =? "%"%c then to_quoted s
  else if c =? "?"%c then goto_args s
  else if c =? "#"%c then Exit to_done s
  else if c =? "+"%c then advance sw_usual (put s) (ext s) true s
  else advance sw_usual (put s) (ext s) (plus s) s.

(** "/." read; on "/", [u--] drops the dot. *)
Definition case_dot (s : locals) : next :=
  let c := ch s in
  if is_usual c then advance sw_usual (put s) (ext s) (plus s) s
  else if c =? "/"%c then advance sw_slash (removelast (out s)) (ext s) (plus s) s
  else if c =? "."%c then advance sw_dot_dot (put s) (ext s) (plus s) s
  else if c =? "%"%c then to_quoted s
  else if c =? "?"%c then goto_args s
  else if c =? "#"%c then Exit to_done s
  else if c =? "+"%c then advance sw_usual (put s) (ext s) true s
  else advance sw_usual (put s) (ext s) (plus s) s.

(** The inner [for ( ;; )]: from index [u - 1] down, the position after the
    last "/"; [None] when it runs below [r->uri.data]. *)
Fixpoint back_to_slash (o : list Z) (u : nat) : option nat :=
  match u with
  | O => None
  | S u' => if rd o (Z.of_nat u') =? "/"%c then Some (S u') else back_to_slash o u'
  end.

(** "/.." read; on "/", [u -= 5] and the walk back over one segment. *)
Definition case_dot_dot (s : locals) : next :=
  let c := ch s in
  if is_usual c then advance sw_usual (put s) (ext s) (plus s) s
  else if c =? "/"%c then
    match back_to_slash (out s) (length (out s) - 4) with
    | Some u => advance sw_slash (take u (out s)) (ext s) (plus s) s
    | None => Exit (to_return NGX_HTTP_PARSE_INVALID_REQUEST) s
    end
  else if c =? "%"%c then to_quoted s
  else if c =? "?"%c then goto_args s
  else if c =? "#"%c then Exit to_done s
  else if c =? "+"%c then advance sw_usual (put s) (ext s) true s
  else advance sw_usual (put s) (ext s) (plus s) s.

Definition is_hex_letter (c : Z) : bool := ("a"%c <=? c) && (c <=? "f"%c).

Definition invalid (s : locals) : next :=
  Exit (to_return NGX_HTTP_PARSE_INVALID_REQUEST) s.

(** [r->quoted_uri = 1], the first hexadecimal digit. *)
Definition case_quoted (s : locals) : next :=
  let digit d :=
    Loop (Locals sw_quoted_second (quoted_state s) (wrap 8 d) (rd mem (p s)) (p s + 1)
            (out s) (ext s) (args s) (plus s) true) in
  if is_digit (ch s) then digit (ch s - "0"%c)
  else if is_hex_letter (lc (ch s)) then digit (lc (ch s) - "a"%c + 10)
  else Exit (to_return NGX_HTTP_PARSE_INVALID_REQUEST)
         (Locals (state s) (quoted_state s) (decoded s) (ch s) (p s)
            (out s) (ext s) (args s) (plus s) true).

(** A decoded byte goes round the loop again in the state of its "%". *)
Definition redispatch (c : Z) (pl : bool) (s : locals) : next :=
  Loop (Locals (quoted_state s) (quoted_state s) (decoded s) c (p s)
          (out s) (ext s) (args s) pl (quoted s)).
(** A decoded byte is taken literally. *)
Definition literal (c : Z) (s : locals) : next :=
  advance sw_usual (out s ++ [c]) (ext s) (plus s) s.

Definition case_quoted_second (s : locals) : next :=
  if is_digit (ch s) then
    let c := wrap 8 (Z.shiftl (decoded s) 4 + ch s - "0"%c) in
    if (c =? "%"%c) || (c =? "#"%c) then literal c s
    else if c =? NUL then invalid s
    else redispatch c (plus s) s
  else if is_hex_letter (lc (ch s)) then
    let c := wrap 8 (Z.shiftl (decoded s) 4 + lc (ch s) - "a"%c + 10) in
    if c =? "?"%c then literal c s
    else if c =? "+"%c then redispatch c true s
    else redispatch c (plus s) s
  else invalid s.

Definition step (s : locals) : next :=
  match state s with
  | sw_usual => case_usual s
  | sw_slash => case_slash s
  | sw_dot => case_dot s
  | sw_dot_dot => case_dot_dot s
  | sw_quoted => case_quoted s
  | sw_quoted_second => case_quoted_second s
  end.

(** [while (p <= r->uri_end)] *)
Fixpoint loop (fuel : nat) (s : locals) : exit * locals :=
  if p s <=? ue then
    match fuel with
    | O => (out_of_fuel, s)
    | S fuel' =>
        match step s with
        | Loop s' => loop fuel' s'
        | Exit e s' => (e, s')
        end
    end
  else (to_done, s).

(** The locals before the loop: [ch = *p++] has been done once. *)
Definition start (pl q : bool) : locals :=
  Locals sw_usual sw_usual 0 (rd mem us) (us + 1) [] None None pl q.

(** The walk over the arguments at [args:], to the "#" that ends them. *)
Fixpoint find_hash (n : nat) (q : Z) : option Z :=
  match n with
  | O => None
  | S n' => if rd mem q =? "#"%c then Some q else find_hash n' (q + 1)
  end.

(** The outcome: [r->uri], [r->exten] and [r->args] as the function leaves
    them ([None] where it does not write them). *)
Record parsed := Parsed {
  c_uri : list Z; c_exten : option (list Z);
  c_args : option (Z * Z); c_args_start : option Z;
  c_plus : bool; c_quoted : bool }.

Definition exten_of (s : locals) : option (list Z) :=
  match ext s with
  | Some e => Some (slice (out s) e (Z.of_nat (length (out s))))
  | None => None
  end.

Definition fuel : nat := 2 * (Z.to_nat (ue - us) + 1).

Definition ngx_http_parse_complex_uri (pl q : bool) : exit + parsed :=
  let (e, s) := loop fuel (start pl q) in
  match e with
  | to_done => inr (Parsed (out s) (exten_of s) None (args s) (plus s) (quoted s))
  | to_args =>
      match find_hash (Z.to_nat (ue - p s)) (p s) with
      | Some h => inr (Parsed (out s) (exten_of s) (Some (p s, h - p s)) None (plus s) (quoted s))
      | None => inr (Parsed (out s) (exten_of s) None (args s) (plus s) (quoted s))
      end
  | _ => inl e
  end.
End Parse.

End ComplexUri.
