(* ===== verification/ComplexUriFacts.v ===== *)
(** * The normalised URI

    [clean]: no "/./", no "/../" and, when slashes are merged, no "//" in the
    output; the output never outgrows the input; the loop ends; no byte
    outside the URI matters. *)

From S2P Require Import Prelude Request ComplexUri.
Import ComplexUri.

Module ComplexUriFacts.

(** ** Segments *)

Definition slash_free (t : list Z) : Prop := Forall (fun c => c <> "/"%c) t.

Definition bad_segment (merge : bool) (t : list Z) : Prop :=
  t = ["."%c] \/ t = ["."%c; "."%c] \/ (merge = true /\ t = []).

(** Between two slashes there is never a bad segment. *)
Definition clean (merge : bool) (o : list Z) : Prop :=
  forall a t b, o = a ++ "/"%c :: t ++ "/"%c :: b -> slash_free t -> ~ bad_segment merge t.

(** [t] is what follows the last slash. *)
Definition last_segment (o t : list Z) : Prop :=
  exists a, o = a ++ "/"%c :: t /\ slash_free t.

Section Segments.
Context (merge : bool).
Implicit Types (o a b t : list Z) (c : Z).

Lemma clean_prefix o x : clean merge (o ++ x) -> clean merge o.
Proof.
  intros H a t b -> Ht. apply (H a t (b ++ x)); [|done].
  rewrite <- app_assoc. simpl. by rewrite <- app_assoc.
Qed.

Lemma clean_one : clean merge ["/"%c].
Proof.
  intros a t b E _. apply (f_equal length) in E. rewrite !length_app in E. simpl in E.
  rewrite length_app in E. simpl in E. lia.
Qed.

Lemma clean_put o c : clean merge o -> c <> "/"%c -> clean merge (o ++ [c]).
Proof.
  intros H Hc a t b E Ht. destruct b as [|d b _] using rev_ind.
  - replace (a ++ "/"%c :: t ++ ["/"%c]) with ((a ++ "/"%c :: t) ++ ["/"%c]) in E
      by by rewrite <- app_assoc.
    apply app_inj_tail in E as [_ E]. done.
  - replace (a ++ "/"%c :: t ++ "/"%c :: b ++ [d])
      with ((a ++ "/"%c :: t ++ "/"%c :: b) ++ [d]) in E
      by (rewrite <- app_assoc; simpl; by rewrite <- app_assoc).
    apply app_inj_tail in E as [E _]. by apply (H a t b).
Qed.

Lemma last_segment_put o t c :
  last_segment o t -> c <> "/"%c -> last_segment (o ++ [c]) (t ++ [c]).
Proof.
  intros (a & -> & Ht) Hc. exists a. split; [by rewrite <- app_assoc|].
  apply Forall_app. split; [done|]. by constructor.
Qed.

Lemma last_segment_slash o : last_segment (o ++ ["/"%c]) [].
Proof. exists o. split; [done|constructor]. Qed.

Lemma last_segment_unique o t t' : last_segment o t -> last_segment o t' -> t = t'.
Proof.
  intros (a & -> & Ht) (a' & E & Ht'). revert a' t' E Ht'.
  induction t as [|c t IH] using rev_ind; intros a' t' E Ht'.
  - destruct t' as [|d t' _] using rev_ind; [done|].
    replace (a' ++ "/"%c :: t' ++ [d]) with ((a' ++ "/"%c :: t') ++ [d]) in E
      by by rewrite <- app_assoc.
    apply app_inj_tail in E as [_ <-]. apply Forall_app in Ht' as [_ Hd].
    by apply Forall_inv in Hd.
  - apply Forall_app in Ht as [Ht Hc]. apply Forall_inv in Hc.
    replace (a ++ "/"%c :: t ++ [c]) with ((a ++ "/"%c :: t) ++ [c]) in E
      by by rewrite <- app_assoc.
    destruct t' as [|d t' _] using rev_ind.
    + apply app_inj_tail in E as [_ ->]. done.
    + replace (a' ++ "/"%c :: t' ++ [d]) with ((a' ++ "/"%c :: t') ++ [d]) in E
        by by rewrite <- app_assoc.
      apply app_inj_tail in E as [E ->]. f_equal.
      apply Forall_app in Ht' as [Ht' _]. by eapply IH.
Qed.

Lemma clean_put_slash o t :
  clean merge o -> last_segment o t -> ~ bad_segment merge t -> clean merge (o ++ ["/"%c]).
Proof.
  intros H Hl Hb a t' b E Ht'. destruct b as [|d b _] using rev_ind.
  - replace (a ++ "/"%c :: t' ++ ["/"%c]) with ((a ++ "/"%c :: t') ++ ["/"%c]) in E
      by by rewrite <- app_assoc.
    apply app_inj_tail in E as [E _].
    rewrite (last_segment_unique o t' t); [done| |done]. by exists a.
  - replace (a ++ "/"%c :: t' ++ "/"%c :: b ++ [d])
      with ((a ++ "/"%c :: t' ++ "/"%c :: b) ++ [d]) in E
      by (rewrite <- app_assoc; simpl; by rewrite <- app_assoc).
    apply app_inj_tail in E as [E _]. by apply (H a t' b).
Qed.
End Segments.

Lemma back_to_slash_spec o n u :
  back_to_slash o n = Some u ->
  (0 < u <= n)%nat /\ rd o (Z.of_nat u - 1) = "/"%c.
Proof.
  induction n as [|n IH]; simpl; [done|].
  destruct (Z.eqb_spec (rd o (Z.of_nat n)) "/"%c) as [E|E].
  - intros [= <-]. split; [lia|]. by replace (Z.of_nat (S n) - 1) with (Z.of_nat n) by lia.
  - intros H%IH. destruct H. split; [lia|done].
Qed.

Lemma take_back o n u :
  back_to_slash o n = Some u -> (n <= length o)%nat -> exists o', take u o = o' ++ ["/"%c].
Proof.
  intros (Hu & Hr)%back_to_slash_spec Hn. destruct u as [|u]; [lia|].
  exists (take u o). rewrite (take_S_r o u "/"%c); [done|].
  replace (Z.of_nat (S u) - 1) with (Z.of_nat u) in Hr by lia. unfold rd in Hr.
  rewrite Nat2Z.id, nth_lookup in Hr. destruct (o !! u) eqn:E; simpl in Hr; [by subst|].
  apply lookup_ge_None in E. lia.
Qed.

(** ** The invariant *)

(** What the state says about the segment being written. *)
Definition segment_of (st : sw) (t : list Z) : Prop :=
  match st with
  | sw_usual => t <> [] /\ t <> ["."%c] /\ t <> ["."%c; "."%c]
  | sw_slash => t = []
  | sw_dot => t = ["."%c]
  | sw_dot_dot => t = ["."%c; "."%c]
  | _ => False
  end.

Definition outer (s : locals) : sw :=
  match state s with sw_quoted | sw_quoted_second => quoted_state s | st => st end.

(** Holds from the second time round the loop on. *)
Record inv (us : Z) (merge : bool) (s : locals) : Prop := Inv {
  inv_clean : clean merge (out s);
  inv_segment : exists t, last_segment (out s) t /\ segment_of (outer s) t;
  inv_root : exists o, out s = "/"%c :: o;
  inv_length : Z.of_nat (length (out s)) <= p s - 1 - us;
  inv_ext : forall e, ext s = Some e -> 0 <= e <= Z.of_nat (length (out s));
  inv_no_ext : outer s <> sw_usual -> ext s = None;
}.

Lemma not_bad merge t : segment_of sw_usual t -> ~ bad_segment merge t.
Proof. intros (? & ? & ?) [?|[?|[_ ?]]]; done. Qed.

Lemma segment_usual_put st t c :
  segment_of st t -> c <> "/"%c -> (c = "."%c -> st <> sw_slash /\ st <> sw_dot) ->
  segment_of sw_usual (t ++ [c]).
Proof.
  intros Ht Hc Hdot. destruct st; simpl in Ht; subst; simpl.
  - destruct Ht as (H1 & H2 & H3). destruct t as [|x [|y [|z t]]]; simpl; split_and!; try done.
    intros [= -> ->]. done.
  - split_and!; try done. intros [= ->]. by destruct (Hdot eq_refl).
  - split_and!; try done. intros [= ->]. by destruct (Hdot eq_refl).
  - split_and!; done.
  - done.
  - done.
Qed.

Section Step.
Context (mem : list Z) (us : Z) (merge : bool).

(** A byte other than "/" is appended. *)
Lemma inv_put (s : locals) c st' e pl :
  inv us merge s -> c <> "/"%c ->
  (forall t, last_segment (out s) t -> segment_of (outer s) t -> segment_of st' (t ++ [c])) ->
  (st' = sw_usual /\ (e = ext s \/ e = Some (Z.of_nat (length (out s)) + 1))
   \/ (st' = sw_dot \/ st' = sw_dot_dot) /\ e = ext s /\ outer s <> sw_usual) ->
  exists s', advance mem st' (out s ++ [c]) e pl s = Loop s' /\ inv us merge s'.
Proof.
  intros [Hc (t & Hl & Ht) (o & Ho) Hlen Hext Hno] Hch Hseg Hst'.
  eexists; split; [done|]. constructor; simpl.
  - by apply clean_put.
  - exists (t ++ [c]). split; [by apply last_segment_put|].
    specialize (Hseg t Hl Ht). by destruct Hst' as [[-> _]|[[-> | ->] _]].
  - rewrite Ho. eauto.
  - rewrite length_app. simpl. lia.
  - rewrite length_app. simpl. intros e' He'.
    destruct Hst' as [[_ [-> | ->]]|(_ & -> & Hu)].
    + specialize (Hext _ He'). lia.
    + injection He' as <-. lia.
    + by rewrite Hno in He'.
  - destruct Hst' as [[-> _]|(_ & -> & Hu)]; [done|auto].
Qed.

Lemma inv_to_quoted s :
  inv us merge s -> state s = outer s -> exists s', to_quoted mem s = Loop s' /\ inv us merge s'.
Proof.
  intros [Hc (t & Hl & Ht) Ho Hlen Hext Hno] Hst. eexists; split; [done|].
  constructor; simpl; try done; [|lia|].
  - exists t. unfold outer; simpl. by rewrite Hst.
  - unfold outer; simpl. by rewrite Hst.
Qed.

(** A step that writes a slash or goes back to one. *)
Lemma inv_slash s o o' e pl :
  inv us merge s -> o = o' ++ ["/"%c] -> clean merge o -> (exists q, o = "/"%c :: q) ->
  Z.of_nat (length o) <= Z.of_nat (length (out s)) + 1 -> e = None ->
  exists s', advance mem sw_slash o e pl s = Loop s' /\ inv us merge s'.
Proof.
  intros [_ _ _ Hlen Hext _] -> Hc Ho Hl ->. eexists; split; [done|]. constructor; simpl; try done.
  - exists []. split; [apply last_segment_slash|done].
  - lia.
Qed.

Lemma inv_digit s d :
  inv us merge s -> state s = sw_quoted -> inv us merge
    (Locals sw_quoted_second (quoted_state s) d (rd mem (p s)) (p s + 1)
          (out s) (ext s) (args s) (plus s) true).
Proof.
  intros [Hc (t & Hl & Ht) Ho Hlen Hext Hno] Hst.
  assert (E : outer s = quoted_state s) by (unfold outer; by rewrite Hst).
  rewrite E in Ht, Hno. constructor; unfold outer; simpl; eauto; lia.
Qed.

(** The end of a decoded byte: back to the state of its "%". *)
Lemma inv_redispatch s c pl :
  inv us merge s -> state s = sw_quoted_second -> inv us merge
    (Locals (quoted_state s) (quoted_state s) (decoded s) c (p s)
          (out s) (ext s) (args s) pl (quoted s)).
Proof.
  intros [Hc (t & Hl & Ht) Ho Hlen Hext Hno] Hst.
  assert (E : outer s = quoted_state s) by (unfold outer; by rewrite Hst).
  rewrite E in Ht, Hno.
  constructor; unfold outer; simpl; try done.
  - exists t. split; [done|]. by destruct (quoted_state s).
  - intros H. apply Hno. by destruct (quoted_state s).
Qed.

Lemma usual_put s e pl c :
  inv us merge s -> c <> "/"%c -> (c = "."%c -> outer s <> sw_slash /\ outer s <> sw_dot) ->
  (e = ext s \/ e = Some (Z.of_nat (length (out s)) + 1)) ->
  exists s', advance mem sw_usual (out s ++ [c]) e pl s = Loop s' /\ inv us merge s'.
Proof.
  intros Hi Hc Hdot He. apply inv_put; [done|done| |by left].
  intros t _ Ht. by eapply segment_usual_put.
Qed.

Lemma dot_put s c st' pl :
  inv us merge s -> c = "."%c -> 
  (outer s = sw_slash /\ st' = sw_dot \/ outer s = sw_dot /\ st' = sw_dot_dot) ->
  exists s', advance mem st' (out s ++ [c]) (ext s) pl s = Loop s' /\ inv us merge s'.
Proof.
  intros Hi -> Hst. apply inv_put; [done|done| |].
  - intros t _. destruct Hst as [[-> ->]|[-> ->]]; simpl; by intros ->.
  - right. destruct Hst as [[-> ->]|[-> ->]]; auto.
Qed.

(** "/" in the state [sw_usual]. *)
Lemma usual_slash s c pl :
  inv us merge s -> outer s = sw_usual -> c = "/"%c ->
  exists s', advance mem sw_slash (out s ++ [c]) None pl s = Loop s' /\ inv us merge s'.
Proof.
  intros Hi Hst ->. destruct (inv_segment _ _ _ Hi) as (t & Hl & Ht). rewrite Hst in Ht.
  eapply inv_slash; [done|done| | | |done].
  - eapply clean_put_slash; [apply Hi|done|by apply not_bad].
  - destruct (inv_root _ _ _ Hi) as [o ->]. by eexists.
  - rewrite length_app. simpl. lia.
Qed.

(** A repeated "/". *)
Lemma slash_slash s c pl :
  inv us merge s -> outer s = sw_slash -> c = "/"%c ->
  exists s', advance mem sw_slash (if negb merge then out s ++ [c] else out s) (ext s) pl s
    = Loop s' /\ inv us merge s'.
Proof.
  intros Hi Hst ->. pose proof (inv_segment _ _ _ Hi) as (t & Hl & Ht). rewrite Hst in Ht.
  simpl in Ht. subst t. pose proof (inv_no_ext _ _ _ Hi) as He. rewrite Hst in He.
  destruct (negb merge) eqn:Em.
  - eapply inv_slash; [done|done| | | |by apply He].
    + eapply clean_put_slash; [apply Hi|done|]. intros [?|[?|[? _]]]; try done. by subst.
    + destruct (inv_root _ _ _ Hi) as [o ->]. by eexists.
    + rewrite length_app. simpl. lia.
  - destruct Hl as (a & Ho & _).
    eapply inv_slash; [done|exact Ho|apply Hi|apply Hi|lia|by apply He].
Qed.

Lemma clean_take o n : clean merge o -> clean merge (take n o).
Proof. intros H. apply (clean_prefix merge (take n o) (drop n o)). by rewrite take_drop. Qed.

(** "/./": the dot is dropped. *)
Lemma dot_slash s pl :
  inv us merge s -> outer s = sw_dot ->
  exists s', advance mem sw_slash (removelast (out s)) (ext s) pl s = Loop s' /\ inv us merge s'.
Proof.
  intros Hi Hst. pose proof (inv_segment _ _ _ Hi) as (t & (a & Ho & _) & Ht).
  rewrite Hst in Ht. simpl in Ht. subst t.
  assert (E : removelast (out s) = a ++ ["/"%c]).
  { rewrite Ho. replace (a ++ ["/"%c; "."%c]) with ((a ++ ["/"%c]) ++ ["."%c])
      by by rewrite <- app_assoc. apply removelast_last. }
  pose proof (inv_clean _ _ _ Hi) as Hc. pose proof (inv_root _ _ _ Hi) as [o Hr].
  assert (Eo : out s = (a ++ ["/"%c]) ++ ["."%c]) by by rewrite Ho, <- app_assoc.
  eapply inv_slash; [done|exact E| | | |].
  - rewrite E. rewrite Eo in Hc. by eapply clean_prefix.
  - rewrite E. destruct a as [|x a]; [by eexists|]. rewrite Ho in Hr. simplify_list_eq.
    by eexists.
  - rewrite E, Eo, !length_app. simpl. lia.
  - apply (inv_no_ext _ _ _ Hi). by rewrite Hst.
Qed.

(** "/../": back over one segment. *)
Lemma dot_dot_slash s pl u :
  inv us merge s -> outer s = sw_dot_dot ->
  back_to_slash (out s) (length (out s) - 4) = Some u ->
  exists s', advance mem sw_slash (take u (out s)) (ext s) pl s = Loop s' /\ inv us merge s'.
Proof.
  intros Hi Hst Hb. destruct (take_back _ _ _ Hb ltac:(lia)) as [o' Ho'].
  apply back_to_slash_spec in Hb as [Hu _].
  destruct (inv_root _ _ _ Hi) as [o Ho].
  eapply inv_slash; [done|exact Ho'|apply clean_take, Hi| | |].
  - rewrite Ho. destruct u; [lia|]. by eexists.
  - rewrite length_take. lia.
  - apply (inv_no_ext _ _ _ Hi). by rewrite Hst.
Qed.

Ltac side :=
  first [ done | by eapply usual_neq | congruence
        | by left | by right | by left; split | by right; split
        | intros Hdot; rewrite Hdot in *; done
        | match goal with H : outer _ = _ |- _ => intros _; rewrite H; split; discriminate end ].

Ltac by_transition :=
  match goal with
  | |- match ?n with Loop _ => _ | Exit _ _ => _ end =>
      cut (exists s', n = Loop s' /\ inv us merge s'); [by intros (? & -> & ?)|]
  end;
  first [ eapply usual_put; [done|side|side|side] | eapply dot_put; [done|side|side]
        | eapply usual_slash; [done|side|side] | eapply dot_slash; [done|side]
        | eapply inv_to_quoted; [done|side] ].

Lemma step_inv s :
  inv us merge s ->
  match step mem merge s with
  | Loop s' => inv us merge s'
  | Exit e s' => e <> out_of_fuel /\ out s' = out s /\ ext s' = ext s
  end.
Proof.
  intros Hi. unfold step.
  assert (Hout : outer s = match state s with
    sw_quoted | sw_quoted_second => quoted_state s | st => st end) by done.
  destruct (state s) eqn:Hst; unfold case_usual, case_slash, case_dot, case_dot_dot, case_quoted,
    case_quoted_second, put, literal, invalid, goto_args.
  all: split_ifs; b2p; try done; try by_transition.
  - pose proof (slash_slash s (ch s) (plus s) Hi Hout ltac:(done)) as H.
    rewrite E1 in H |- *. cbn [negb] in H. by destruct H as (? & -> & ?).
  - pose proof (slash_slash s (ch s) (plus s) Hi Hout ltac:(done)) as H.
    rewrite E1 in H |- *. cbn [negb] in H. by destruct H as (? & -> & ?).
  - destruct (back_to_slash _ _) as [u|] eqn:Hb; [|done].
    edestruct (dot_dot_slash s (plus s)) as (? & -> & ?); done.
  - by apply inv_digit.
  - by apply inv_digit.
  - by apply inv_redispatch.
  - by apply inv_redispatch.
  - by apply inv_redispatch.
Qed.
End Step.

(** ** The loop *)

Section Loop.
Context (mem : list Z) (us ue : Z) (merge : bool).

(** How far [p] moves in one turn, and that a turn without a read leaves
    [sw_quoted_second]. *)
Definition measure (s : locals) : nat :=
  2 * Z.to_nat (ue + 1 - p s) +
  match state s with sw_quoted_second => 1 | _ => 0 end.

Definition plain_state (st : sw) : Prop :=
  match st with sw_quoted | sw_quoted_second => False | _ => True end.

Lemma step_measure s :
  p s <= ue -> plain_state (quoted_state s) ->
  match step mem merge s with
  | Loop s' => (measure s' < measure s)%nat /\ p s' <= p s + 1 /\ plain_state (quoted_state s')
  | Exit e s' => e <> out_of_fuel /\ p s' = p s
  end.
Proof.
  intros Hp Hq. unfold step, measure.
  destruct (state s) eqn:Hst; unfold case_usual, case_slash, case_dot, case_dot_dot, case_quoted,
    case_quoted_second, put, literal, invalid, goto_args, redispatch, advance, to_quoted.
  all: split_ifs; try destruct (back_to_slash _ _); simpl; rewrite ?Hst; split_and?; try done; try lia.
  all: destruct (quoted_state s); simpl in *; lia || done.
Qed.

(** The fuel given is never used up. *)
Lemma loop_fuel n s :
  (measure s <= n)%nat -> plain_state (quoted_state s) ->
  (loop mem ue merge n s).1 <> out_of_fuel.
Proof.
  revert s; induction n as [|n IH]; intros s Hm Hq; simpl;
    destruct (Z.leb_spec (p s) ue) as [Hp|Hp]; try done.
  - exfalso. unfold measure in Hm. lia.
  - pose proof (step_measure s Hp Hq) as H. destruct (step mem merge s) as [s'|e s'].
    + apply IH; [lia|]. apply H.
    + apply H.
Qed.

Lemma start_fuel pl q : us <= ue ->
  (loop mem ue merge (fuel us ue) (start mem us pl q)).1 <> out_of_fuel.
Proof. intros H. apply loop_fuel; [|done]. unfold measure, fuel; simpl. lia. Qed.

(** What holds of the output when the loop is left. *)
Definition output_ok (s : locals) : Prop :=
  clean merge (out s) /\ (exists o, out s = "/"%c :: o) /\
  Z.of_nat (length (out s)) <= ue - us /\
  (forall e, ext s = Some e -> 0 <= e <= Z.of_nat (length (out s))).

Lemma loop_output n s :
  inv us merge s -> plain_state (quoted_state s) -> p s <= ue + 1 ->
  output_ok (loop mem ue merge n s).2.
Proof.
  assert (Hend : forall s', inv us merge s' -> p s' <= ue + 1 -> output_ok s').
  { intros s' [H1 _ H3 H4 H5 _] Hp. split_and!; try done. lia. }
  revert s; induction n as [|n IH]; intros s Hi Hq Hpe; simpl;
    destruct (Z.leb_spec (p s) ue) as [Hp|Hp]; simpl; auto.
  pose proof (step_inv mem us merge s Hi) as H1.
  pose proof (step_measure s Hp Hq) as H2.
  destruct (step mem merge s) as [s'|e s'].
  - destruct H2 as (_ & Hs & Hq'). apply IH; [done|done|lia].
  - destruct H1 as (_ & Eo & Ee). unfold output_ok. cbn [snd]. rewrite Eo, Ee. apply Hend; [done|lia].
Qed.

(** The first turn writes the leading slash. *)
Lemma first_turn n pl q :
  us < ue -> rd mem us = "/"%c ->
  output_ok (loop mem ue merge (S n) (start mem us pl q)).2.
Proof.
  intros Hu Hs. cbn [loop start p]. destruct (Z.leb_spec (us + 1) ue); [|lia].
  unfold step, start; cbn [state]. unfold case_usual; cbn [ch]. rewrite Hs. cbn -[loop rd].
  apply loop_output; [|done|simpl; lia]. constructor; simpl.
  - apply clean_one.
  - exists []. split; [|done]. exists []. split; [done|constructor].
  - by eexists.
  - lia.
  - done.
  - done.
Qed.
End Loop.

End ComplexUriFacts.
