(* ===== verification/ComplexUriSpec.v ===== *)
(** * What normalising a URI means

    A specification of [ngx_http_parse_complex_uri] on segments, and the proof
    that the state machine meets it on a path of plain bytes: a "." segment is
    dropped, a ".." segment drops the segment before it, empty segments are
    dropped when slashes are merged, and the last segment is kept as it is. *)

From S2P Require Import Prelude Request ComplexUri ComplexUriFacts.
Import ComplexUri ComplexUriFacts.

Module ComplexUriSpec.

Abbreviation segment := (list Z).

(** Going up from the directories [dirs] (innermost first).  With merging off
    an empty innermost segment goes together with the one around it. *)
Definition parent (dirs : list segment) : option (list segment) :=
  match dirs with
  | [] => None
  | [] :: [] => None
  | [] :: _ :: ds => Some ds
  | _ :: ds => Some ds
  end.

(** A segment with a "/" after it. *)
Definition enter (merge : bool) (dirs : list segment) (t : segment) : option (list segment) :=
  if bool_decide (t = ["."%c]) then Some dirs
  else if bool_decide (t = ["."%c; "."%c]) then parent dirs
  else if merge && bool_decide (t = []) then Some dirs
  else Some (t :: dirs).

Fixpoint walk (merge : bool) (dirs ts : list segment) : option (list segment) :=
  match ts with
  | [] => Some dirs
  | t :: ts' => match enter merge dirs t with Some ds => walk merge ds ts' | None => None end
  end.

(** "/" and each directory, outermost first, with its "/". *)
Fixpoint render (dirs : list segment) : list Z :=
  match dirs with
  | [] => ["/"%c]
  | t :: ds => render ds ++ t ++ ["/"%c]
  end.

(** The path as the client sends it: every segment of [ts] has a "/" after it. *)
Definition path (ts : list segment) (last : segment) : list Z :=
  "/"%c :: concat (map (fun t => t ++ ["/"%c]) ts) ++ last.

(** Bytes the parser takes literally outside of dots. *)
Definition literal_byte (c : Z) : Prop :=
  u_char c /\ c <> "/"%c /\ c <> "%"%c /\ c <> "?"%c /\ c <> "#"%c.

Lemma literal_slash_free t : Forall literal_byte t -> slash_free t.
Proof. intros H. eapply Forall_impl; [|exact H]. by intros c (_ & ? & _). Qed.

(** ** The state after some bytes of a segment *)

Definition state_of (t : segment) : sw :=
  if bool_decide (t = []) then sw_slash
  else if bool_decide (t = ["."%c]) then sw_dot
  else if bool_decide (t = ["."%c; "."%c]) then sw_dot_dot
  else sw_usual.

Lemma is_usual_cases c : literal_byte c ->
  is_usual c = true \/
  is_usual c = false /\ (c =? "/"%c) = false /\ (c =? "%"%c) = false /\ (c =? "?"%c) = false /\ (c =? "#"%c) = false.
Proof.
  intros (_ & H1 & H2 & H3 & H4). destruct (is_usual c); [by left|right].
  rewrite !(proj2 (Z.eqb_neq _ _)) by done. done.
Qed.

Lemma not_dot c : is_usual c = true -> c <> "."%c.
Proof. intros H ->. discriminate H. Qed.

Lemma state_of_snoc t c :
  state_of (t ++ [c]) =
    match state_of t with
    | sw_slash => if c =? "."%c then sw_dot else sw_usual
    | sw_dot => if c =? "."%c then sw_dot_dot else sw_usual
    | _ => sw_usual
    end.
Proof.
  unfold state_of.
  destruct t as [|x [|y [|z t]]]; cbn [app];
    repeat case_bool_decide; destruct (Z.eqb_spec c "."%c); simplify_eq; done.
Qed.

(** ** Walking back over a segment *)

Lemma render_last dirs : exists a, render dirs = a ++ ["/"%c].
Proof. destruct dirs as [|t ds]; [by exists []|]. exists (render ds ++ t). by rewrite <- app_assoc. Qed.

Lemma back_over a t b k : slash_free t -> (k <= length t)%nat ->
  back_to_slash (a ++ "/"%c :: t ++ b) (S (length a) + k) = Some (S (length a)).
Proof.
  intros Ht; induction k as [|k IH]; intros Hk.
  - rewrite Nat.add_0_r. simpl. by rewrite rd_mid.
  - rewrite Nat.add_succ_r. cbn [back_to_slash].
    destruct (t !! k) as [c|] eqn:E; [|apply lookup_ge_None in E; lia].
    assert (Hc : rd (a ++ "/"%c :: t ++ b) (Z.of_nat (S (length a) + k)) = c).
    { unfold rd. rewrite Nat2Z.id, app_nth2 by lia.
      replace (_ - _)%nat with (S k) by lia. simpl. rewrite app_nth1 by lia.
      rewrite nth_lookup, E. done. }
    rewrite Hc. unfold slash_free in Ht. rewrite Forall_lookup in Ht.
    rewrite (proj2 (Z.eqb_neq _ _)) by by eapply Ht. apply IH. lia.
Qed.

(** The bytes written when ".." has been read after [dirs]. *)
Definition up (dirs : list segment) : list Z := render dirs ++ ["."%c; "."%c].

Lemma back_parent dirs : Forall slash_free dirs ->
  back_to_slash (up dirs) (length (up dirs) - 4) =
    match parent dirs with Some ds => Some (length (render ds)) | None => None end.
Proof.
  assert (Hgen : forall t ds b, slash_free t -> 
    back_to_slash (render ds ++ t ++ b) (length (render ds) + length t) = Some (length (render ds))).
  { intros t ds b Ht. destruct (render_last ds) as [a ->]. rewrite <- app_assoc, length_app. simpl.
    rewrite Nat.add_1_r. by apply back_over. }
  intros Hd. unfold up. rewrite length_app. cbn [length].
  destruct dirs as [|t ds]; [done|]. apply Forall_cons_iff in Hd as [Ht Hd].
  cbn [render]. rewrite !length_app. cbn [length]. destruct t as [|c t].
  - destruct ds as [|t2 ds2]; [done|]. apply Forall_cons_iff in Hd as [Ht2 _]. cbn [parent render].
    rewrite <- !app_assoc, !length_app. cbn [length].
    replace (_ - 4)%nat with (length (render ds2) + length t2)%nat by lia. by apply Hgen.
  - cbn [parent]. replace (_ - 4)%nat with (length (render ds) + length t)%nat by (simpl; lia).
    destruct (exists_last (l := c :: t)) as (t' & d & E); [done|]. rewrite E in *.
    replace (length t) with (length t')
      by (apply (f_equal length) in E; rewrite length_app in E; simpl in E; lia).
    rewrite <- !app_assoc. apply Hgen. by apply Forall_app in Ht as [? _].
Qed.

Lemma take_parent dirs ds : parent dirs = Some ds -> take (length (render ds)) (up dirs) = render ds.
Proof.
  unfold up. destruct dirs as [|[|c t] ds']; [done| |].
  - destruct ds' as [|t2 ds2]; [done|]. intros [= <-]. cbn [render].
    rewrite <- !app_assoc. apply take_app_length.
  - intros [= <-]. cbn [render]. rewrite <- !app_assoc. apply take_app_length.
Qed.

Section Run.
Context (mem : list Z) (us ue : Z) (merge : bool).

(** The parser is about to take the byte at [i], having written [o] and
    being in the state of the segment [t]. *)
Record at_byte (i : Z) (o : list Z) (t : segment) (s : locals) : Prop := At {
  at_p : p s = i + 1;
  at_ch : ch s = rd mem i;
  at_out : out s = o;
  at_state : state s = state_of t;
  at_args : args s = None;
}.

Lemma advance_at i o t st e pl s :
  p s = i + 1 -> st = state_of t -> args s = None ->
  exists s', advance mem st o e pl s = Loop s' /\ at_byte (i + 1) o t s'.
Proof.
  intros Hp -> Ha. eexists; split; [done|]. constructor; simpl; try done.
  - lia.
  - by rewrite Hp.
Qed.

(** One literal byte. *)
Lemma step_literal i o t s :
  at_byte i o t s -> literal_byte (rd mem i) ->
  exists s', step mem merge s = Loop s' /\ at_byte (i + 1) (o ++ [rd mem i]) (t ++ [rd mem i]) s'.
Proof.
  intros [Hp Hc Ho Hst Ha] Hl. pose proof (state_of_snoc t (rd mem i)) as Hn.
  unfold step. rewrite Hst.
  unfold case_usual, case_slash, case_dot, case_dot_dot, put. rewrite Hc, Ho.
  destruct (is_usual_cases _ Hl) as [Hu|(Hu & H1 & H2 & H3 & H4)]; rewrite Hu.
  - assert (Hd : (rd mem i =? "."%c) = false) by by apply Z.eqb_neq, not_dot.
    rewrite Hd in Hn.
    assert (Hn' : state_of (t ++ [rd mem i]) = sw_usual)
      by (rewrite Hn; by destruct (state_of t)).
    destruct (state_of t) eqn:Et; try (eapply advance_at; by eauto).
    all: unfold state_of in Et; repeat case_bool_decide; done.
  - rewrite H1, H2, H3, H4.
    destruct (state_of t) eqn:Et; destruct (rd mem i =? "."%c);
      try destruct (rd mem i =? "+"%c); try (eapply advance_at; by eauto).
    all: unfold state_of in Et; repeat case_bool_decide; done.
Qed.

Lemma loop_step n s s' :
  p s <= ue -> step mem merge s = Loop s' -> loop mem ue merge (S n) s = loop mem ue merge n s'.
Proof. intros Hp Hs. simpl. rewrite (proj2 (Z.leb_le _ _) Hp), Hs. done. Qed.

(** A run of literal bytes. *)
Lemma loop_literals t' : forall n i o t s,
  at_byte i o t s -> Forall literal_byte t' ->
  slice mem i (i + Z.of_nat (length t')) = t' -> 0 <= i -> i + Z.of_nat (length t') <= ue ->
  ue <= Z.of_nat (length mem) ->
  exists s', loop mem ue merge (length t' + n) s = loop mem ue merge n s'
    /\ at_byte (i + Z.of_nat (length t')) (o ++ t') (t ++ t') s'.
Proof.
  induction t' as [|c t' IH]; intros n i o t s Hat Hl Hs Hi He Hm.
  - exists s. rewrite !app_nil_r. simpl. by rewrite Z.add_0_r.
  - cbn [length] in *. pose proof (slice_cons_inv _ _ _ _ _ Hi Hs) as (Hc & Hs' & _).
    apply Forall_cons_iff in Hl as [Hl1 Hl2].
    replace (i + Z.of_nat (S (length t'))) with (i + 1 + Z.of_nat (length t')) in * by lia.
    destruct (step_literal i o t s Hat ltac:(by rewrite Hc)) as (s1 & E1 & Hat1).
    rewrite Hc in Hat1.
    destruct (IH n (i + 1) _ _ s1 Hat1 Hl2 Hs' ltac:(lia) ltac:(lia) Hm) as (s2 & E2 & Hat2).
    exists s2. cbn [Nat.add]. rewrite (loop_step _ s s1); [|rewrite (at_p _ _ _ _ Hat); lia|done].
    rewrite E2. split; [done|].
    rewrite <- !app_assoc in Hat2. done.
Qed.
(** "/" after the segment [t]. *)
Lemma step_slash i dirs t s :
  at_byte i (render dirs ++ t) t s -> rd mem i = "/"%c ->
  Forall slash_free dirs ->
  match enter merge dirs t with
  | Some ds => exists s', step mem merge s = Loop s' /\ at_byte (i + 1) (render ds) [] s'
  | None => exists s', step mem merge s = Exit (to_return NGX_HTTP_PARSE_INVALID_REQUEST) s'
  end.
Proof.
  intros [Hp Hc Ho Hst Ha] Hs Hd. unfold step, enter. rewrite Hst. unfold state_of.
  assert (Hput : put s = (render dirs ++ t) ++ ["/"%c]) by (unfold put; by rewrite Hc, Hs, Ho).
  assert (Hrm : forall x : Z, removelast (render dirs ++ [x]) = render dirs)
    by (intros; apply removelast_last).
  destruct (decide (t = [])) as [->|H1]; [|destruct (decide (t = ["."%c])) as [->|H2];
    [|destruct (decide (t = ["."%c; "."%c])) as [->|H3]]];
    rewrite ?bool_decide_eq_true_2, ?bool_decide_eq_false_2 by done;
    unfold case_usual, case_slash, case_dot, case_dot_dot; rewrite Hc, Hs, ?Hput, ?Ho;
    cbn -[parent render removelast back_to_slash length take Nat.sub]; rewrite ?Hrm.
  - rewrite ?app_nil_r. destruct merge; cbn -[render]; by eapply advance_at.
  - by eapply advance_at.
  - change (render dirs ++ ["."%c; "."%c]) with (up dirs).
    rewrite back_parent by done. destruct (parent dirs) as [ds|] eqn:E; [|by eexists].
    rewrite (take_parent _ _ E). by eapply advance_at.
  - rewrite andb_false_r, <- app_assoc. by eapply advance_at.
Qed.
Lemma enter_slash_free dirs t ds :
  enter merge dirs t = Some ds -> slash_free t -> Forall slash_free dirs -> Forall slash_free ds.
Proof.
  unfold enter. intros H Ht Hd. repeat case_bool_decide; simplify_eq; try done.
  - unfold parent in H. destruct dirs as [|[] [|]]; simplify_eq;
      apply Forall_cons_iff in Hd as [_ Hd]; try done.
    by apply Forall_cons_iff in Hd as [_ Hd].
  - destruct merge; simpl in H; simplify_eq; [done|]. by constructor.
  - rewrite andb_false_r in H. simplify_eq. by constructor.
Qed.

(** The whole path after its first "/". *)
Lemma loop_segments last ts : forall n i dirs s,
  at_byte i (render dirs) [] s -> 0 <= i -> ue <= Z.of_nat (length mem) ->
  slice mem i ue = concat (map (fun t => t ++ ["/"%c]) ts) ++ last ->
  Forall (Forall literal_byte) ts -> Forall literal_byte last -> Forall slash_free dirs ->
  i <= ue -> ue - i < Z.of_nat n ->
  exists s',
    match walk merge dirs ts with
    | Some ds => loop mem ue merge n s = (to_done, s') /\ out s' = render ds ++ last /\ args s' = None
    | None => loop mem ue merge n s = (to_return NGX_HTTP_PARSE_INVALID_REQUEST, s')
    end.
Proof.
  induction ts as [|t ts IH]; intros n i dirs s Hat Hi Hm Hs Hts Hl Hd Hie Hn; cbn [map concat] in Hs.
  - simpl in Hs. pose proof (length_slice mem i ue ltac:(lia) Hm) as Hlen. rewrite Hs in Hlen.
    replace n with (length last + (n - length last))%nat by lia.
    destruct (loop_literals last (n - length last) i _ _ s Hat Hl) as (s' & E & Hat'); [|lia..|].
    { rewrite <- Hs at 2. f_equal. lia. }
    exists s'. simpl. rewrite E. destruct Hat' as [Hp _ Ho _ Ha].
    destruct (n - length last)%nat as [|k]; simpl; rewrite (proj2 (Z.leb_gt _ _)) by lia; done.
  - rewrite <- !app_assoc in Hs. cbn [app] in Hs. apply Forall_cons_iff in Hts as [Ht Hts].
    pose proof (length_slice mem i ue ltac:(lia) Hm) as Hlen. rewrite Hs, length_app in Hlen.
    cbn [length] in Hlen.
    destruct (slice_app_inv _ _ _ _ _ Hi Hs) as [Hs1 Hs2].
    apply slice_cons_inv in Hs2 as (Hc & Hs2 & _); [|lia].
    replace n with (length t + S (n - length t - 1))%nat by lia.
    destruct (loop_literals t (S (n - length t - 1)) i _ _ s Hat Ht Hs1) as (s1 & E1 & Hat1); [lia..|].
    rewrite E1. cbn [walk]. 
    pose proof (step_slash _ dirs t s1 Hat1 Hc Hd) as Hst.
    destruct (enter merge dirs t) as [ds|] eqn:En.
    + destruct Hst as (s2 & E2 & Hat2). rewrite (loop_step _ s1 s2) by (rewrite ?(at_p _ _ _ _ Hat1); done || lia).
      eapply IH; [exact Hat2|lia|done|exact Hs2|done|done| |lia|lia].
      eapply enter_slash_free; [done|by apply literal_slash_free|done].
    + destruct Hst as (s2 & E2). exists s2. cbn [loop]. rewrite (at_p _ _ _ _ Hat1), E2.
      rewrite (proj2 (Z.leb_le _ _)) by lia. done.
Qed.
End Run.

(** ** The specification is met *)

Definition spec (merge : bool) (ts : list segment) (last : segment) : option (list Z) :=
  match walk merge [] ts with Some ds => Some (render ds ++ last) | None => None end.

(** C6: On a path of plain bytes (no "%", "?", "#") the parser returns the path with
    every segment that has a slash after it normalised: "." dropped, ".." resolved
    against the directories before it, empty ones dropped when slashes are merged. The
    last segment, which has no slash after it, is kept as it is, even when it is "." or
    "..", so "/a/.." stays. A ".." with a slash above the root is refused with
    [NGX_HTTP_PARSE_INVALID_REQUEST]. *)
Theorem complex_uri_refines (mem : list Z) (us ue : Z) (merge pl q : bool)
    (ts : list segment) (last : segment) :
  0 <= us -> ue <= Z.of_nat (length mem) ->
  slice mem us ue = path ts last ->
  Forall (Forall literal_byte) ts -> Forall literal_byte last ->
  match ngx_http_parse_complex_uri mem us ue merge pl q with
  | inr x => spec merge ts last = Some (c_uri x) /\ c_args_start x = None /\ c_args x = None
  | inl e => spec merge ts last = None /\ e = to_return NGX_HTTP_PARSE_INVALID_REQUEST
  end.
Proof.
  intros Hu Hm Hs Hts Hl. apply slice_cons_inv in Hs as (Hc & Hs & Hlt); [|done].
  unfold ngx_http_parse_complex_uri, fuel.
  replace (2 * _)%nat with (S (2 * Z.to_nat (ue - us) + 1)) by lia.
  assert (H1 : exists s1, step mem merge (start mem us pl q) = Loop s1 /\ at_byte mem (us + 1) (render []) [] s1).
  { unfold step, start, case_usual; cbn [state ch]. rewrite Hc. cbn -[render].
    eexists; split; [done|]. constructor; simpl; try done. }
  destruct H1 as (s1 & E1 & Hat).
  assert (Hp : p (start mem us pl q) <= ue) by (simpl; lia).
  rewrite (loop_step _ _ _ _ _ _ Hp E1).
  edestruct (loop_segments mem ue merge last ts (2 * Z.to_nat (ue - us) + 1)) as (s' & H);
    try done; try lia.
  unfold spec. destruct (walk merge [] ts) as [ds|].
  - destruct H as (-> & Ho & Ha). simpl. by rewrite Ho.
  - by rewrite H.
Qed.

Definition bytes_path : list Z := bytes_of "/a/./b//../c".

Definition segments : list segment :=
  [bytes_of "a"; bytes_of "."; bytes_of "b"; []; bytes_of ".."].

Lemma complex_uri_refines_witness :
  spec true segments (bytes_of "c") = Some (bytes_of "/a/c") /\
  match ngx_http_parse_complex_uri bytes_path 0 12 true false false with
  | inr x => spec true segments (bytes_of "c") = Some (c_uri x)
             /\ c_args_start x = None /\ c_args x = None
  | inl e => spec true segments (bytes_of "c") = None
             /\ e = to_return NGX_HTTP_PARSE_INVALID_REQUEST
  end.
Proof.
  split; [by vm_compute|].
  apply (complex_uri_refines bytes_path 0 12 true false false segments (bytes_of "c"));
    [lia | by vm_compute | by vm_compute | |].
  all: repeat constructor; unfold u_char; cbn; lia.
Defined.


End ComplexUriSpec.
