(* ===== verification/ProcessUri.v ===== *)
(** * [ngx_http_process_request_uri]

    What a parsed request line becomes: [r->uri], normalised into a buffer of
    its own when the line was flagged complex or quoted, [r->exten], [r->args]
    and [r->unparsed_uri].  The theorems: the buffer is large enough, the
    parser always ends and its output is clean, nothing outside the URI is
    looked at, and the flags never skip a normalisation that would have
    changed something. *)

From S2P Require Import Prelude Scan Request ParseUri ComplexUri ComplexUriFacts.

Module ProcessUri.
Import ComplexUri ComplexUriFacts.

(** The [ngx_str_t] fields written, as their bytes; [args] and [exten] keep
    their value when they are not written. *)
Record uri_fields := Fields {
  f_uri : list Z; f_unparsed_uri : list Z; f_exten : list Z; f_args : list Z;
  f_valid_unparsed_uri : bool; f_plus_in_uri : bool }.

Inductive processed :=
| Processed (f : uri_fields)
| Closed                       (** [ngx_http_close_request(r, 500)] *)
| Bad_request                  (** [ngx_http_finalize_request(r, 400)] *)
| Stuck.                       (** the parser did not end *)

(** [r->uri.len] *)
Definition uri_len (r : ngx_http_request) (us ue : Z) : Z :=
  match args_start r with Some a => a - 1 - us | None => ue - us end.

Section Process.
(** [ngx_pnalloc] of so many bytes succeeds. *)
Variable ngx_pnalloc : Z -> bool.

(** The tail of the function: [r->uri_ext] and [r->args_start] as they are
    then, and [uri], [exten], [args] as the complex parser left them. *)
Definition finish_uri (mem : list Z) (us ue : Z) (uri : list Z)
    (uri_ext args_start : option Z) (exten args : list Z) (space plus : bool) : uri_fields :=
  {| f_uri := uri;
     f_unparsed_uri := slice mem us ue;
     f_exten :=
       match uri_ext with
       | Some e => slice mem e (match args_start with Some a => a - 1 | None => ue end)
       | None => exten
       end;
     f_args :=
       match args_start with
       | Some a => if ue >? a then slice mem a ue else args
       | None => args
       end;
     f_valid_unparsed_uri := negb space;
     f_plus_in_uri := plus |}.

Definition ngx_http_process_request_uri (mem : list Z) (r : ngx_http_request) (us ue : Z)
    (merge_slashes : bool) (exten args : list Z) : processed :=
  let len := uri_len r us ue in
  if complex_uri r || quoted_uri r then
    if negb (ngx_pnalloc (len + 1)) then Closed
    else
      match ngx_http_parse_complex_uri mem us ue merge_slashes (plus_in_uri r) (quoted_uri r) with
      | inl (to_return _) => Bad_request
      | inl _ => Stuck
      | inr x =>
          Processed (finish_uri mem us ue (c_uri x) None (c_args_start x)
            (default exten (c_exten x))
            (match c_args x with Some (a, n) => slice mem a (a + n) | None => args end)
            (space_in_uri r) (c_plus x))
      end
  else
    Processed (finish_uri mem us ue (slice mem us (us + len)) (uri_ext r) (args_start r)
      exten args (space_in_uri r) (plus_in_uri r)).
End Process.

(** ** The output fits its buffer *)

(** While the loop runs it has not gone past a "?" at [h]. *)
Definition before (mem : list Z) (h : Z) (s : locals) : Prop :=
  p s - 1 <= h /\ (p s - 1 = h -> ch s = rd mem h).

Lemma step_before mem merge h s :
  rd mem h = "?"%c -> before mem h s ->
  match step mem merge s with
  | Loop s' => before mem h s'
  | Exit _ s' => p s' = p s
  end.
Proof.
  intros Hh [Hp Hc]. unfold step.
  destruct (decide (p s - 1 = h)) as [E|E].
  - specialize (Hc E). rewrite Hh in Hc. destruct (state s);
      unfold case_usual, case_slash, case_dot, case_dot_dot, case_quoted, case_quoted_second;
      rewrite Hc; done.
  - destruct (state s);
      unfold case_usual, case_slash, case_dot, case_dot_dot, case_quoted, case_quoted_second,
        put, literal, invalid, goto_args, redispatch, advance, to_quoted.
    all: split_ifs; try destruct (back_to_slash _ _); unfold before; simpl; try done; try split; try lia.
    all: intros <-; f_equal; lia.
Qed.

Lemma loop_before mem ue merge us h n s :
  rd mem h = "?"%c -> before mem h s -> inv us merge s ->
  Z.of_nat (length (out (loop mem ue merge n s).2)) <= h - us.
Proof.
  intros Hh. revert s; induction n as [|n IH]; intros s Hb Hi; simpl;
    (destruct (Z.leb_spec (p s) ue); simpl;
      [|pose proof (inv_length _ _ _ Hi); destruct Hb; lia]).
  - pose proof (inv_length _ _ _ Hi); destruct Hb; lia.
  - pose proof (step_before mem merge h s Hh Hb) as H1.
    pose proof (step_inv mem us merge s Hi) as H2.
    destruct (step mem merge s) as [s'|e s']; [by apply IH|].
    destruct H2 as (_ & E & _); cbn [snd]; rewrite E. pose proof (inv_length _ _ _ Hi); destruct Hb; lia.
Qed.

(** The first turn of the loop, in a form both bounds start from. *)
Lemma first_step mem us ue merge pl q n :
  us < ue -> rd mem us = "/"%c ->
  exists s1, loop mem ue merge (S n) (start mem us pl q) = loop mem ue merge n s1
    /\ inv us merge s1 /\ plain_state (quoted_state s1)
    /\ p s1 = us + 2 /\ ch s1 = rd mem (us + 1) /\ ext s1 = None.
Proof.
  intros Hu Hs. cbn [loop start p]. destruct (Z.leb_spec (us + 1) ue); [|lia].
  unfold step, start, case_usual; cbn [state ch]. rewrite Hs. cbn -[loop rd].
  eexists; split; [done|]. split; [|repeat split; simpl; try done; lia].
  constructor; simpl; try done; try lia; [apply clean_one| |by eexists].
  exists []. split; [|done]. exists []. split; [done|constructor].
Qed.

Lemma output_before mem us ue merge pl q n h :
  us < ue -> rd mem us = "/"%c -> us <= h -> rd mem h = "?"%c ->
  Z.of_nat (length (out (loop mem ue merge (S n) (start mem us pl q)).2)) <= h - us.
Proof.
  intros Hu Hs Hh Hq. destruct (first_step mem us ue merge pl q n Hu Hs) as (s1 & E & Hi & _ & Hp & Hc & _).
  rewrite E. apply loop_before; [done| |done]. split.
  - destruct (decide (us = h)); [congruence|lia].
  - intros <-. rewrite Hc, Hp. f_equal. lia.
Qed.

(** ** How the loop is left *)

Definition exit_ok (ue : Z) (e : exit) (s : locals) : Prop :=
  match e with
  | to_done => args s = None
  | to_args => args s = Some (p s) /\ p s <= ue
  | to_return rc => rc = NGX_HTTP_PARSE_INVALID_REQUEST
  | out_of_fuel => True
  end.

Lemma step_exit mem ue merge s :
  args s = None -> p s <= ue ->
  match step mem merge s with
  | Loop s' => args s' = None
  | Exit e s' => exit_ok ue e s'
  end.
Proof.
  intros Ha Hp. unfold step.
  destruct (state s);
    unfold case_usual, case_slash, case_dot, case_dot_dot, case_quoted, case_quoted_second,
      put, literal, invalid, goto_args, redispatch, advance, to_quoted.
  all: split_ifs; try destruct (back_to_slash _ _); simpl; done.
Qed.

Lemma loop_exit mem ue merge n s :
  args s = None ->
  let '(e, s') := loop mem ue merge n s in exit_ok ue e s'.
Proof.
  revert s; induction n as [|n IH]; intros s Ha; simpl; destruct (Z.leb_spec (p s) ue); try done.
  pose proof (step_exit mem ue merge s Ha ltac:(done)) as H1.
  destruct (step mem merge s) as [s'|e s']; [by apply IH|done].
Qed.

Lemma find_hash_some mem n q h :
  find_hash mem n q = Some h -> q <= h < q + Z.of_nat n /\ rd mem h = "#"%c.
Proof.
  revert q; induction n as [|n IH]; intros q; simpl; [done|].
  destruct (Z.eqb_spec (rd mem q) "#"%c); [intros [= <-]; split; [lia|done]|].
  intros [? ?]%IH. split; [lia|done].
Qed.

(** C18: On any URI that starts with "/" the complex parser ends, with
    [NGX_HTTP_PARSE_INVALID_REQUEST] or with a path that starts with "/", has
    no "/./" and no "/../" in it (no "//" either when slashes are merged), and
    whose length and extension stay within the bytes of the request: what
    reaches the file system cannot climb above the root before its last
    segment. *)
Theorem complex_uri_safe (mem : list Z) (us ue : Z) (merge pl q : bool) :
  us < ue -> rd mem us = "/"%c ->
  match ngx_http_parse_complex_uri mem us ue merge pl q with
  | inr x => clean merge (c_uri x) /\ head (c_uri x) = Some "/"%c
      /\ Z.of_nat (length (c_uri x)) <= ue - us
      /\ (forall a, c_args_start x = Some a -> a <= ue)
      /\ (forall a n, c_args x = Some (a, n) -> 0 <= n /\ a + n < ue)
  | inl e => e = to_return NGX_HTTP_PARSE_INVALID_REQUEST
  end.
Proof.
  intros Hu Hs. unfold ngx_http_parse_complex_uri.
  pose proof (start_fuel mem us ue merge pl q ltac:(lia)) as Hf.
  pose proof (loop_exit mem ue merge (fuel us ue) (start mem us pl q) eq_refl) as He.
  assert (Ho : output_ok us ue merge (loop mem ue merge (fuel us ue) (start mem us pl q)).2).
  { unfold fuel. replace (2 * _)%nat with (S (2 * Z.to_nat (ue - us) + 1)) by lia.
    by apply first_turn. }
  destruct (loop _ _ _ _ _) as [[] s']; cbn [fst snd exit_ok] in *; [| |by subst|done].
  - destruct Ho as (Hc & (o & Ho) & Hl & _). cbn [c_uri c_args_start c_args].
    rewrite Ho in *. split_and!; try done. by rewrite He.
  - destruct He as [Ha Hp]. destruct Ho as (Hc & (o & Ho) & Hl & _).
    destruct (find_hash _ _ _) as [h|] eqn:Eh; cbn [c_uri c_args_start c_args];
      rewrite Ho in *; split_and!; try done.
    + intros a n [= <- <-]. apply find_hash_some in Eh. lia.
    + rewrite Ha. by intros a [= <-].
Qed.

Definition sample : list Z := bytes_of "/a/%2e./b/..%2f.hidden?x#y HTTP".

Lemma complex_uri_safe_witness :
  match ngx_http_parse_complex_uri sample 0 27 true false false with
  | inr x => clean true (c_uri x) /\ head (c_uri x) = Some "/"%c
      /\ Z.of_nat (length (c_uri x)) <= 27 - 0
      /\ (forall a, c_args_start x = Some a -> a <= 27)
      /\ (forall a n, c_args x = Some (a, n) -> 0 <= n /\ a + n < 27)
  | inl e => e = to_return NGX_HTTP_PARSE_INVALID_REQUEST
  end.
Proof. apply (complex_uri_safe sample 0 27 true false false); [lia | by vm_compute]. Defined.

Example sample_parsed :
  ngx_http_parse_complex_uri sample 0 27 true false false
  = inr (Parsed (bytes_of "/.hidden") None (Some (23, 1)) None false true).
Proof. by vm_compute. Qed.

(** The buffer [ngx_http_process_request_uri] allocates, [r->uri.len + 1]
    bytes, is never overrun: when the request line recorded arguments after a
    "?", [r->uri.len] counts only the bytes before it, and the normalised path
    is no longer than that. *)
Theorem uri_buffer_fits (mem : list Z) (r : ngx_http_request) (us ue : Z) (merge : bool) x :
  us < ue -> rd mem us = "/"%c ->
  (forall a, args_start r = Some a -> us < a /\ rd mem (a - 1) = "?"%c) ->
  ngx_http_parse_complex_uri mem us ue merge (plus_in_uri r) (quoted_uri r) = inr x ->
  Z.of_nat (length (c_uri x)) <= uri_len r us ue.
Proof.
  intros Hu Hs Ha. unfold ngx_http_parse_complex_uri, uri_len, fuel.
  replace (2 * _)%nat with (S (2 * Z.to_nat (ue - us) + 1)) by lia.
  intros H.
  assert (Hl : forall e s', loop mem ue merge (S (2 * Z.to_nat (ue - us) + 1))
      (start mem us (plus_in_uri r) (quoted_uri r)) = (e, s') ->
    Z.of_nat (length (out s')) <= match args_start r with Some a => a - 1 - us | None => ue - us end).
  { intros e s' E. destruct (args_start r) as [a|].
    - destruct (Ha a eq_refl) as [Ha1 Ha2].
      pose proof (output_before mem us ue merge (plus_in_uri r) (quoted_uri r)
        (2 * Z.to_nat (ue - us) + 1) (a - 1) Hu Hs ltac:(lia) Ha2) as Hb.
      by rewrite E in Hb.
    - pose proof (first_turn mem us ue merge (2 * Z.to_nat (ue - us) + 1)
        (plus_in_uri r) (quoted_uri r) Hu Hs) as Hb.
      rewrite E in Hb. by destruct Hb as (_ & _ & Hb & _). }
  destruct (loop _ _ _ _ _) as [e s'] eqn:E. specialize (Hl _ _ eq_refl).
  destruct e; simplify_eq; [done|]. destruct (find_hash _ _ _); by simplify_eq.
Qed.

Definition sample_request : ngx_http_request := fresh_request <| args_start := Some 23 |>.

Lemma uri_buffer_fits_witness :
  Z.of_nat (length (bytes_of "/.hidden")) <= uri_len sample_request 0 27.
Proof.
  apply (uri_buffer_fits sample sample_request 0 27 true
    (Parsed (bytes_of "/.hidden") None (Some (23, 1)) None false true));
    [lia | by vm_compute | | by vm_compute].
  intros a [= <-]. split; [lia | by vm_compute].
Defined.

(** ** Nothing outside the URI matters *)

Lemma step_pos mem merge s e s' : step mem merge s = Exit e s' -> p s' = p s.
Proof.
  unfold step. destruct (state s);
    unfold case_usual, case_slash, case_dot, case_dot_dot, case_quoted, case_quoted_second,
      put, literal, invalid, goto_args, redispatch, advance, to_quoted.
  all: split_ifs; try destruct (back_to_slash _ _); intros H; by simplify_eq.
Qed.

(** The lookahead byte is the same unless the loop is over. *)
Definition agree (ue : Z) (s s' : locals) : Prop :=
  p s <= ue + 1 /\ exists c, s' = Locals (state s) (quoted_state s) (decoded s) c (p s)
                (out s) (ext s) (args s) (plus s) (quoted s) /\ (p s <= ue -> c = ch s).

Lemma step_agree m m' us ue merge s :
  (forall i, us <= i < ue -> rd m i = rd m' i) -> us <= p s <= ue ->
  match step m merge s, step m' merge s with
  | Loop t, Loop t' => agree ue t t' /\ us <= p t
  | Exit e t, Exit e' t' => e = e' /\ t = t'
  | _, _ => False
  end.
Proof.
  intros Hm Hp. assert (Hn : p s < ue -> rd m (p s) = rd m' (p s)) by (intros; apply Hm; lia).
  unfold step. destruct (state s);
    unfold case_usual, case_slash, case_dot, case_dot_dot, case_quoted, case_quoted_second,
      put, literal, invalid, goto_args, redispatch, advance, to_quoted.
  all: split_ifs; try destruct (back_to_slash _ _); try done.
  all: split; [split; [simpl; lia|]|simpl; lia]; simpl; eexists; split; [done|]; intros; simpl;
    first [done | symmetry; apply Hn; lia].
Qed.

Lemma loop_agree m m' us ue merge n s s' :
  (forall i, us <= i < ue -> rd m i = rd m' i) -> us <= p s -> agree ue s s' ->
  let '(e, t) := loop m ue merge n s in let '(e', t') := loop m' ue merge n s' in
  e = e' /\ (p t = p t' /\ out t = out t' /\ ext t = ext t' /\ args t = args t'
             /\ plus t = plus t' /\ quoted t = quoted t' /\ (us <= p t)).
Proof.
  intros Hm. revert s s'; induction n as [|n IH]; intros s s' Hp (Hle & c & -> & Hc); simpl.
  - destruct (Z.leb_spec (p s) ue); simpl; done.
  - destruct (Z.leb_spec (p s) ue); simpl; [|done]. rewrite Hc by done.
    replace (Locals _ _ _ _ _ _ _ _ _ _) with s by (by destruct s).
    pose proof (step_agree m m' us ue merge s Hm ltac:(lia)) as H1.
        pose proof (step_pos m merge s) as H2.
    destruct (step m merge s) as [t|e t]; destruct (step m' merge s) as [t'|e' t']; try done.
    + apply IH; apply H1.
    + destruct H1 as [-> ->]. rewrite (H2 _ _ eq_refl). done.
Qed.

Lemma find_hash_agree m m' n q :
  (forall i, q <= i < q + Z.of_nat n -> rd m i = rd m' i) -> find_hash m n q = find_hash m' n q.
Proof.
  revert q; induction n as [|n IH]; intros q H; simpl; [done|].
  rewrite (H q) by lia. destruct (_ =? _); [done|]. apply IH. intros i Hi. apply H. lia.
Qed.

(** The parser reads one byte ahead of itself, past [r->uri_end] when the
    URI is used up, but no byte outside [[uri_start, uri_end)] has an influence
    on what it returns. *)
Theorem complex_uri_local (m m' : list Z) (us ue : Z) (merge pl q : bool) :
  us < ue -> (forall i, us <= i < ue -> rd m i = rd m' i) ->
  ngx_http_parse_complex_uri m us ue merge pl q = ngx_http_parse_complex_uri m' us ue merge pl q.
Proof.
  intros Hu Hm. unfold ngx_http_parse_complex_uri.
  pose proof (loop_agree m m' us ue merge (fuel us ue) (start m us pl q) (start m' us pl q) Hm) as H.
  destruct (loop m _ _ _ _) as [e t], (loop m' _ _ _ _) as [e' t'].
  destruct H as (<- & Hp & Ho & He & Ha & Hpl & Hq & Hus).
  - simpl. lia.
  - split; [simpl; lia|]. eexists; split; [done|]. intros _. simpl. symmetry. apply Hm. lia.
  - unfold exten_of. rewrite Ho, He, Ha, Hpl, Hq. destruct e; try done. rewrite <- Hp.
    rewrite (find_hash_agree m m') by (intros; apply Hm; lia).
    done.
Qed.

Lemma complex_uri_local_witness :
  ngx_http_parse_complex_uri (bytes_of "/a%2f.." ++ [LF]) 0 7 true false false
  = ngx_http_parse_complex_uri (bytes_of "/a%2f.." ++ bytes_of "/") 0 7 true false false.
Proof.
  apply complex_uri_local; [lia|]. intros i Hi. 
  assert (H : i = 0 \/ i = 1 \/ i = 2 \/ i = 3 \/ i = 4 \/ i = 5 \/ i = 6) by lia.
  repeat destruct H as [-> | H]; by subst.
Defined.

(** ** A URI without flags is its own normal form *)

(** A flag that is set stays set. *)
Lemma scan_flags bs : forall i s p' st' r',
  scan ParseUri.step i bs s = (p', (st', r'), None) ->
  (complex_uri r' = false -> complex_uri s.2 = false)
  /\ (quoted_uri r' = false -> quoted_uri s.2 = false)
  /\ (plus_in_uri r' = false -> plus_in_uri s.2 = false).
Proof.
  induction bs as [|c bs IH]; intros i s p' st' r'; simpl.
  - by intros [= _ ->].
  - assert (Hs : forall s1, ParseUri.step i c s = Next s1 ->
      (complex_uri s1.2 = false -> complex_uri s.2 = false)
      /\ (quoted_uri s1.2 = false -> quoted_uri s.2 = false)
      /\ (plus_in_uri s1.2 = false -> plus_in_uri s.2 = false)).
    { intros s1. destruct s as [st r]. ParseUri.unfold_parse_uri. destruct st; split_ifs;
        intros [= <-]; cbn [fst snd]; simpl_req; done. }
    destruct (ParseUri.step i c s) as [s1|l s1]; [|done].
    intros (H1 & H2 & H3)%IH. destruct (Hs s1 eq_refl) as (? & ? & ?). auto.
Qed.

(** Once the first "/" is read nothing is refused. *)
Lemma scan_never_stops bs : forall i s p' s' l,
  s.1 <> ParseUri.sw_start -> scan ParseUri.step i bs s <> (p', s', Some l).
Proof.
  induction bs as [|c bs IH]; intros i [st r] p' s' l Hst; cbn [scan]; [done|].
  cbn [fst] in Hst. ParseUri.unfold_parse_uri. destruct st; [done|..]; split_ifs; by apply IH.
Qed.

(** In [sw_uri] only flags change, and a "#" sets one. *)
Lemma scan_args bs : forall i r p' st' r',
  scan ParseUri.step i bs (ParseUri.sw_uri, r) = (p', (st', r'), None) ->
  complex_uri r' = false ->
  Forall (fun c => c <> "#"%c) bs /\ args_start r' = args_start r /\ uri_ext r' = uri_ext r
  /\ plus_in_uri r' = plus_in_uri r.
Proof.
  induction bs as [|c bs IH]; intros i r p' st' r'; cbn [scan ParseUri.step].
  - by intros [= _ _ <-].
  - ParseUri.unfold_parse_uri. split_ifs; intros H Hc; b2p.
    3: by destruct (scan_flags _ _ _ _ _ _ H) as [Hx _]; specialize (Hx Hc); simpl in Hx.
    all: destruct (IH _ _ _ _ _ H Hc) as (? & -> & -> & ->); simpl_req; split_and!; try done;
      constructor; first [done | lia | by eapply usual_neq].
Qed.

Section Plain.
Context (mem : list Z) (us ue : Z) (merge : bool) (pl0 : bool).

(** The two parsers side by side, both at the byte [i]. *)
Record beside (i : Z) (st : ParseUri.sw) (r : ngx_http_request) (s : locals) : Prop := Beside {
  bs_p : p s = i + 1;
  bs_ch : ch s = rd mem i;
  bs_out : out s = slice mem us i;
  bs_args : args s = None /\ args_start r = None;
  bs_plus : plus s = pl0 || plus_in_uri r;
  bs_ext : uri_ext r = option_map (Z.add us) (ext s) /\ (forall e, ext s = Some e -> 0 <= e);
  bs_state : match st with
    | ParseUri.sw_after_slash_in_uri => state s = sw_slash /\ uri_ext r = None \/ state s = sw_usual
    | ParseUri.sw_check_uri => state s = sw_usual
    | _ => False
    end }.

(** What the complex parser returns when the simple one saw no flag. *)
Definition plain_exit (r' : ngx_http_request) (e : exit) (s : locals) : Prop :=
  (uri_ext r' = option_map (Z.add us) (ext s) /\ (forall e, ext s = Some e -> 0 <= e)) /\
  plus s = pl0 || plus_in_uri r' /\
  ((e = to_done /\ args s = None /\ args_start r' = None /\ out s = slice mem us ue)
   \/ (e = to_args /\ args_start r' = Some (p s) /\ args s = Some (p s)
       /\ out s = slice mem us (p s - 1) /\ us < p s <= ue
       /\ Forall (fun c => c <> "#"%c) (slice mem (p s) ue))).

Lemma beside_step i st r s :
  0 <= us <= i -> i < ue -> ue <= Z.of_nat (length mem) -> beside i st r s ->
  match ParseUri.step i (rd mem i) (st, r) with
  | Next (st1, r1) =>
      complex_uri r1 = true \/ quoted_uri r1 = true
      \/ (st1 <> ParseUri.sw_uri /\ exists s1, step mem merge s = Loop s1 /\ beside (i + 1) st1 r1 s1)
      \/ (st1 = ParseUri.sw_uri /\ exists s1, step mem merge s = Exit to_args s1
          /\ p s1 = i + 1 /\ args_start r1 = Some (p s1) /\ args s1 = Some (p s1)
          /\ out s1 = slice mem us i
          /\ (uri_ext r1 = option_map (Z.add us) (ext s1) /\ (forall e, ext s1 = Some e -> 0 <= e))
          /\ plus s1 = pl0 || plus_in_uri r1)
  | Stop _ _ => False
  end.
Proof.
  intros Hu Hi Hm [Hp Hc Ho [Ha1 Ha2] Hpl He Hst].
  assert (Hput : put s = slice mem us (i + 1)) by (unfold put; rewrite Ho, Hc, slice_snoc by lia; done).
  assert (Hlen : Z.of_nat (length (out s)) = i - us) by (rewrite Ho; apply length_slice; lia).
  unfold step. ParseUri.unfold_parse_uri.
  assert (Hgo : forall st1 r1 stc e pl,
    args_start r1 = None ->
    uri_ext r1 = option_map (Z.add us) e /\ (forall e', e = Some e' -> 0 <= e') ->
    pl = pl0 || plus_in_uri r1 ->
    match st1 with
    | ParseUri.sw_after_slash_in_uri => stc = sw_slash /\ uri_ext r1 = None \/ stc = sw_usual
    | ParseUri.sw_check_uri => stc = sw_usual
    | _ => False
    end ->
    exists s1, advance mem stc (slice mem us (i + 1)) e pl s = Loop s1 /\ beside (i + 1) st1 r1 s1).
  { intros st1 r1 stc e pl H1 H2 -> H3. eexists; split; [done|].
    constructor; simpl; try done; [lia|by rewrite Hp]. }
  destruct st; try done; [destruct Hst as [[Hst Hne] | Hst] | ]; rewrite Hst;
    unfold case_usual, case_slash; rewrite Hc, Hput.
  all: split_ifs; b2p; try (by left); try (by right; left); try (exfalso; congruence || lia).
  all: right; right; simpl_req.
  all: try (left; split; [done|]; apply Hgo; simpl_req; first [done | by right | by left | by rewrite orb_true_r | idtac]).
  all: try (right; split; [done|]; eexists; split; [done|]; simpl; rewrite Hp; done).
  simpl. split; [f_equal; lia|]. intros e' [= <-]. lia.
Qed.

Lemma beside_run bs : forall n i st r s p' st' r',
  bs = slice mem i ue -> 0 <= us < i -> i <= ue -> ue <= Z.of_nat (length mem) ->
  beside i st r s -> (length bs < n)%nat ->
  scan ParseUri.step i bs (st, r) = (p', (st', r'), None) ->
  complex_uri r' = false -> quoted_uri r' = false ->
  exists e s', loop mem ue merge n s = (e, s') /\ plain_exit r' e s'.
Proof.
  induction bs as [|c bs IH]; intros n i st r s p' st' r' Hbs Hu Hi Hm Hb Hn Hscan Hc Hq.
  - injection Hscan as <- <- <-.
    pose proof (length_slice mem i ue ltac:(lia) Hm) as Hl. rewrite <- Hbs in Hl. simpl in Hl.
    destruct Hb as [Hp _ Ho [Ha1 Ha2] Hpl He _]. exists to_done, s. destruct n as [|n]; [simpl in Hn; lia|].
    simpl. rewrite (proj2 (Z.leb_gt _ _)) by lia. split; [done|].
    split; [done|]. split; [done|]. left. split_and!; try done. rewrite Ho. f_equal. lia.
  - symmetry in Hbs. apply slice_cons_inv in Hbs as (Hch & Hbs & Hlt); [|lia]. subst c.
    pose proof (beside_step i st r s ltac:(lia) Hlt Hm Hb) as Hs. cbn [scan] in Hscan.
    destruct (ParseUri.step i (rd mem i) (st, r)) as [[st1 r1]|l [st1 r1]]; [|done].
    destruct (scan_flags _ _ _ _ _ _ Hscan) as (Hf1 & Hf2 & _). specialize (Hf1 Hc). specialize (Hf2 Hq).
    cbn [snd] in Hf1, Hf2. destruct n as [|n]; [simpl in Hn; lia|]. cbn [loop].
    rewrite (proj2 (Z.leb_le _ _)) by (rewrite (bs_p _ _ _ _ Hb); lia).
    destruct Hs as [Hs|[Hs|[(Hst & s1 & -> & Hb1)|(-> & s1 & -> & Hp1 & Ha1 & Ha2 & Ho1 & He1 & Hpl1)]]];
      [congruence|congruence| |].
    + eapply (IH n (i + 1)); [by symmetry|lia|lia|done|exact Hb1|simpl in Hn; lia|exact Hscan|done|done].
    + exists to_args, s1. split; [done|].
      destruct (scan_args _ _ _ _ _ _ Hscan Hc) as (Hh & Har & Hex & Hplu).
      rewrite <- Hp1 in Hbs. rewrite <- Hbs in Hh.
      unfold plain_exit. rewrite Har, Hex, Hplu. split; [done|]. split; [done|]. right.
      split_and!; try done; [|lia|lia]. rewrite Ho1. f_equal. lia.
Qed.

Lemma find_hash_none n q : Forall (fun c => c <> "#"%c) (slice mem q (q + Z.of_nat n)) ->
  0 <= q -> q + Z.of_nat n <= Z.of_nat (length mem) -> find_hash mem n q = None.
Proof.
  revert q; induction n as [|n IH]; intros q H Hq Hm; simpl; [done|].
  rewrite slice_cons in H by lia. apply Forall_cons_iff in H as [H1 H].
  rewrite (proj2 (Z.eqb_neq _ _)) by done. apply IH; [|lia|lia].
  by replace (q + 1 + Z.of_nat n) with (q + Z.of_nat (S n)) by lia.
Qed.
End Plain.

Lemma slice_slice m us o e k :
  0 <= us -> 0 <= e -> 0 <= k -> o = slice m us (us + k) -> us + k <= Z.of_nat (length m) ->
  slice o e (Z.of_nat (length o)) = slice m (us + e) (us + k).
Proof.
  intros Hu He Hk -> Hm. rewrite length_slice by lia. replace (us + k - us) with k by lia. unfold slice.
  replace (us + k - us) with k by lia. rewrite skipn_firstn_comm, drop_drop.
  replace (Z.to_nat us + Z.to_nat e)%nat with (Z.to_nat (us + e)) by lia.
  rewrite take_take. f_equal. lia.
Qed.

(** What the complex parser returns on a URI without flags. *)
Lemma plain_parsed mem r r' us ue merge q :
  0 <= us <= ue -> ue <= Z.of_nat (length mem) ->
  uri_start r = Some us -> uri_end r = Some ue -> uri_ext r = None -> args_start r = None ->
  ParseUri.ngx_http_parse_uri mem r = (NGX_OK, r') ->
  complex_uri r' = false -> quoted_uri r' = false ->
  exists e s, loop mem ue merge (fuel us ue) (start mem us (plus_in_uri r') q) = (e, s)
    /\ plain_exit mem us ue (plus_in_uri r') r' e s.
Proof.
  intros Hu Hm Hus Hue He Ha Hp Hc Hq. unfold ParseUri.ngx_http_parse_uri in Hp. rewrite Hus, Hue in Hp.
  unfold fuel. replace (2 * _)%nat with (S (2 * Z.to_nat (ue - us) + 1)) by lia.
  destruct (decide (us = ue)) as [<-|Hne].
  - rewrite slice_nil in Hp. injection Hp as <-. eexists _, _. split.
    { cbn [loop start p]. rewrite (proj2 (Z.leb_gt _ _)) by lia. done. }
    split; [by rewrite He|]. split; [by destruct (plus_in_uri r)|]. left. by rewrite slice_nil.
  - rewrite slice_cons in Hp by lia. cbn [scan] in Hp.
    change (ParseUri.step us (rd mem us) (ParseUri.sw_start, r)) with (ParseUri.case_start (rd mem us) r) in Hp.
    unfold ParseUri.case_start, ParseUri.go in Hp.
    destruct (Z.eqb_spec (rd mem us) "/"%c) as [Hs|Hs]; cbn [negb] in Hp; [|done].
    destruct (scan _ _ _ _) as [[p1 [st1 r1]] [l|]] eqn:Hscan; 
      [by destruct (scan_never_stops _ _ (ParseUri.sw_after_slash_in_uri, r) _ _ _ ltac:(done) Hscan)|].
    injection Hp as ->.
    cbn [loop start p]. destruct (Z.leb_spec (us + 1) ue); [|lia].
    unfold step, start, case_usual; cbn [state ch]. rewrite Hs.
    eapply (beside_run mem us ue merge (plus_in_uri r') (slice mem (us + 1) ue) _ (us + 1));
      [done|lia|lia|done| | |exact Hscan|done|done].
    + constructor; simpl; try done; try lia.
      * unfold put; simpl. rewrite slice_snoc, slice_nil by lia. by rewrite Hs.
      * destruct (scan_flags _ _ _ _ _ _ Hscan) as (_ & _ & H1). cbn [snd] in H1.
        destruct (plus_in_uri r'); [done|]. by rewrite H1.
      * by left; rewrite He.
    + pose proof (length_slice mem (us + 1) ue ltac:(lia) Hm). lia.
Qed.

(** When [ngx_http_parse_uri] sets neither [complex_uri] nor [quoted_uri],
    taking the URI as it is gives the same path, extension, arguments and "+"
    flag as normalising it would: [ngx_http_process_request_uri] may skip the
    normalisation. *)
Theorem plain_uri_unchanged (mem : list Z) (r r' : ngx_http_request) (us ue : Z)
    (merge : bool) (exten args : list Z) :
  0 <= us <= ue -> ue <= Z.of_nat (length mem) ->
  uri_start r = Some us -> uri_end r = Some ue ->
  uri_ext r = None -> args_start r = None ->
  ParseUri.ngx_http_parse_uri mem r = (NGX_OK, r') ->
  complex_uri r' = false -> quoted_uri r' = false ->
  ngx_http_process_request_uri (fun _ => true) mem r' us ue merge exten args
  = ngx_http_process_request_uri (fun _ => true) mem (r' <| complex_uri := true |>) us ue merge exten args.
Proof.
  intros Hu Hm Hus Hue He Ha Hp Hc Hq.
  destruct (plain_parsed _ _ _ _ _ merge (quoted_uri r') Hu Hm Hus Hue He Ha Hp Hc Hq)
    as (e & s & E & (Hext & Hnn) & Hpl & Hx).
  unfold ngx_http_process_request_uri, ngx_http_parse_complex_uri, uri_len. simpl_req.
  rewrite Hc, Hq in *. cbn [orb negb]. rewrite E.
  assert (Hplus : plus s = plus_in_uri r') by (rewrite Hpl; by destruct (plus_in_uri r')).
  destruct Hx as [(-> & Hn & Har & Ho)|(-> & Har & Hn & Ho & Hps & Hh)]; rewrite Har, Hext.
  - unfold finish_uri, exten_of. rewrite Hn, Ho, Hplus. cbn [c_uri c_args c_args_start c_exten c_plus].
    replace (us + (ue - us)) with ue by lia. destruct (ext s) as [o|] eqn:Eo; [|done]. simpl.
    do 2 f_equal. symmetry. replace (slice mem (us + o) ue) with (slice mem (us + o) (us + (ue - us)))
      by (f_equal; lia). apply slice_slice; [lia|by apply Hnn|lia|f_equal; lia|lia].
  - rewrite (find_hash_none mem);
      [|by replace (p s + Z.of_nat (Z.to_nat (ue - p s))) with ue by lia|lia|lia].
    unfold finish_uri, exten_of. rewrite Hn, Ho, Hplus. cbn [c_uri c_args c_args_start c_exten c_plus].
    replace (us + (p s - 1 - us)) with (p s - 1) by lia.
    destruct (ext s) as [o|] eqn:Eo; [|done]. simpl.
    do 2 f_equal. symmetry. replace (slice mem (us + o) (p s - 1))
      with (slice mem (us + o) (us + (p s - 1 - us))) by (f_equal; lia).
    apply slice_slice; [lia|by apply Hnn|lia|f_equal; lia|lia].
Qed.

Definition plain_sample : list Z := bytes_of "/dir/a.b+c/index.html?q=1".
Definition plain_request : ngx_http_request :=
  fresh_request <| uri_start := Some 0 |> <| uri_end := Some 25 |>.

Lemma plain_uri_unchanged_witness :
  let r' := (ParseUri.ngx_http_parse_uri plain_sample plain_request).2 in
  ngx_http_process_request_uri (fun _ => true) plain_sample r' 0 25 true [] []
    = Processed (Fields (bytes_of "/dir/a.b+c/index.html") plain_sample (bytes_of "html")
        (bytes_of "q=1") true true)
  /\ ngx_http_process_request_uri (fun _ => true) plain_sample r' 0 25 true [] []
     = ngx_http_process_request_uri (fun _ => true) plain_sample (r' <| complex_uri := true |>) 0 25
         true [] [].
Proof.
  split; [by vm_compute|].
  apply (plain_uri_unchanged plain_sample plain_request _ 0 25 true [] []); try (by vm_compute).
Defined.

End ProcessUri.
