(* ===== verification/RequestRoundTrip.v ===== *)
(** * Whole request lines

    Printing a request line and parsing it again; the URI states of the
    request-line parser and [ngx_http_parse_uri] against each other; and the
    byte after a space that neither looks at. *)

From S2P Require Import Prelude Scan Request RequestLine RequestLineFacts RequestLineProps.
From S2P Require Import ParseUri ComplexUri ProcessUri.

Module RequestRoundTrip.
Import RequestLine RequestLineProps.

(** ** The URI states of the two parsers *)

Definition uri_state (st : ParseUri.sw) : sw :=
  match st with
  | ParseUri.sw_start => sw_spaces_before_uri
  | ParseUri.sw_after_slash_in_uri => sw_after_slash_in_uri
  | ParseUri.sw_check_uri => sw_check_uri
  | ParseUri.sw_uri => sw_uri
  end.

(** Bytes that neither end the URI nor are refused in it. *)
Definition uri_byte (c : Z) : Prop := c <> " "%c /\ c <> CR /\ c <> LF /\ c <> NUL.

Lemma uri_byte_eqb c : uri_byte c ->
  (c =? " "%c) = false /\ (c =? CR) = false /\ (c =? LF) = false /\ (c =? NUL) = false.
Proof. intros (? & ? & ? & ?). by rewrite !(proj2 (Z.eqb_neq _ _)) by done. Qed.

Lemma uri_step_same mem p c st r : uri_byte c -> st <> ParseUri.sw_start ->
  step mem p c (uri_state st, r) =
    match ParseUri.step p c (st, r) with
    | Next (st', r') => Next (uri_state st', r')
    | Stop rc (st', r') => Stop (ret rc) (uri_state st', r')
    end.
Proof.
  intros (E1 & E2 & E3 & E4)%uri_byte_eqb Hst. destruct st; [done|..];
    cbn [uri_state ParseUri.step step];
    unfold case_after_slash_in_uri, ParseUri.case_after_slash_in_uri, case_check_uri,
      ParseUri.case_check_uri, case_uri, ParseUri.case_uri;
    rewrite E1, E2, E3, E4; cbn [orb]; split_ifs; done.
Qed.

(** The URI parser does not look at [uri_end]. *)
Lemma uri_step_end p c st r e : st <> ParseUri.sw_start ->
  ParseUri.step p c (st, r <| uri_end := e |>) =
    match ParseUri.step p c (st, r) with
    | Next (st', r') => Next (st', r' <| uri_end := e |>)
    | Stop rc (st', r') => Stop rc (st', r' <| uri_end := e |>)
    end /\
  match ParseUri.step p c (st, r) with
  | Next (st', _) => st' <> ParseUri.sw_start
  | Stop _ _ => False
  end.
Proof.
  intros Hst. ParseUri.unfold_parse_uri. by destruct st; [done|..]; split_ifs.
Qed.

Lemma uri_scan_same mem e us : forall p st r, Forall uri_byte us -> st <> ParseUri.sw_start ->
  exists st' r', st' <> ParseUri.sw_start
    /\ scan ParseUri.step p us (st, r <| uri_end := e |>)
       = (p + Z.of_nat (length us), (st', r' <| uri_end := e |>), None)
    /\ scan (step mem) p us (uri_state st, r) = (p + Z.of_nat (length us), (uri_state st', r'), None).
Proof.
  induction us as [|c us IH]; intros p st r Hus Hst.
  - exists st, r. simpl. rewrite Z.add_0_r. done.
  - apply Forall_cons_iff in Hus as [Hc Hus]. cbn [scan].
    rewrite (uri_step_same mem p c st r Hc Hst).
    destruct (uri_step_end p c st r e Hst) as [-> Hn].
    destruct (ParseUri.step p c (st, r)) as [[st1 r1]|? [st1 r1]]; [|done].
    destruct (IH (p + 1) st1 r1 Hus Hn) as (st' & r' & Hst' & E1 & E2).
    exists st', r'. rewrite E1, E2. split; [done|].
    by replace (p + 1 + Z.of_nat (length us)) with (p + Z.of_nat (length (c :: us))) by (simpl; lia).
Qed.

(** ** Printing *)

Definition version (major minor : Z) : list Z :=
  bytes_of " HTTP/" ++ [major + "0"%c] ++ ["."%c] ++ [minor + "0"%c] ++ [CR; LF].

(** "METHOD SP /uri SP HTTP/d.d CRLF" *)
Definition print_line (word uri : list Z) (major minor : Z) : list Z :=
  word ++ " "%c :: "/"%c :: uri ++ version major minor.

Definition method_byte (c : Z) : Prop := is_upper c = true \/ c = "_"%c.

Lemma method_byte_test c : method_byte c ->
  (c =? " "%c) = false /\ (c =? CR) || (c =? LF) = false /\
  ((c <? "A"%c) || ("Z"%c <? c)) && negb (c =? "_"%c) = false.
Proof.
  intros [H| ->]; [|done]. unfold is_upper in H. b2p.
  rewrite !(proj2 (Z.eqb_neq _ _)), !(proj2 (Z.ltb_ge _ _)) by lia. done.
Qed.

(** What the word and the spaces leave behind. *)
Definition with_method (word : list Z) (r : ngx_http_request) : ngx_http_request :=
  r <| request_start := Some 0 |>
    <| method_end := Some (Z.of_nat (length word) - 1) |>
    <| method := assoc word method_table (method r) |>.

Lemma scan_method_bytes mem w : forall p r, Forall method_byte w ->
  scan (step mem) p w (sw_method, r) = (p + Z.of_nat (length w), (sw_method, r), None).
Proof.
  induction w as [|c w IH]; intros p r Hw; cbn [scan].
  - by rewrite Z.add_0_r.
  - apply Forall_cons_iff in Hw as [(E1 & _ & E2)%method_byte_test Hw].
    cbn [step]. unfold case_method, go. rewrite E1, E2, IH by done. f_equal. f_equal. simpl. lia.
Qed.

Lemma scan_method w rest r : w <> [] -> Forall method_byte w ->
  scan (step (w ++ " "%c :: rest)) 0 (w ++ [" "%c]) (sw_start, r)
  = (Z.of_nat (length w) + 1, (sw_spaces_before_uri, with_method w r), None).
Proof.
  intros Hne Hw. rewrite scan_app. set (mem := w ++ _). destruct w as [|c w]; [done|].
  apply Forall_cons_iff in Hw as [(_ & E1 & E2)%method_byte_test Hw].
  cbn [scan step]. unfold case_start, go. rewrite E1, E2, scan_method_bytes by done.
  cbn [scan step]. unfold case_method, go. cbn [Z.eqb Pos.eqb]. simpl_req.
  change (drop (Z.to_nat 0) mem) with mem. unfold mem.
  assert (Hr : recognise ((c :: w) ++ " "%c :: rest) (Z.of_nat (length (c :: w))) (method r)
    = assoc (c :: w) method_table (method r)).
  { rewrite <- recognise_assoc. apply recognise_ext. intros i Hi. apply rd_app_l. lia. }
  replace (0 + 1 + Z.of_nat (length w) - 0) with (Z.of_nat (length (c :: w))) by (simpl; lia).
  rewrite Hr. unfold with_method.
  replace (Z.of_nat (length (c :: w))) with (0 + 1 + Z.of_nat (length w)) by (simpl; lia). done.
Qed.

Lemma first_major d r : 1 <= d <= 9 ->
  case_first_major_digit (d + "0"%c) r = go sw_major_digit (r <| http_major := d |>).
Proof.
  intros Hd. unfold case_first_major_digit. rewrite !(proj2 (Z.ltb_ge _ _)) by lia. cbn [orb].
  rewrite wrap_small by (change (2 ^ 16) with 65536; lia).
  by replace (d + "0"%c - "0"%c) with d by lia.
Qed.

Lemma first_minor d r : 0 <= d <= 9 ->
  case_first_minor_digit (d + "0"%c) r = go sw_minor_digit (r <| http_minor := d |>).
Proof.
  intros Hd. unfold case_first_minor_digit. rewrite !(proj2 (Z.ltb_ge _ _)) by lia. cbn [orb].
  rewrite wrap_small by (change (2 ^ 16) with 65536; lia).
  by replace (d + "0"%c - "0"%c) with d by lia.
Qed.

(** The part after the URI, from any of its states. *)
Lemma scan_version mem p st r major minor : st <> ParseUri.sw_start ->
  1 <= major <= 9 -> 0 <= minor <= 9 ->
  scan (step mem) p (version major minor) (uri_state st, r)
  = (p + 10, (sw_almost_done,
      r <| uri_end := Some p |> <| http_protocol_data := Some (p + 1) |>
        <| http_major := major |> <| http_minor := minor |> <| request_end := Some (p + 9) |>),
     Some done).
Proof.
  intros Hst Hma Hmi.
  assert (Hx : step mem p " "%c (uri_state st, r)
    = go (match st with ParseUri.sw_uri => sw_http_09 | _ => sw_check_uri_http_09 end)
        (r <| uri_end := Some p |>)) by by destruct st.
  unfold version. change (bytes_of " HTTP/") with [" "%c; "H"%c; "T"%c; "T"%c; "P"%c; "/"%c].
  cbn [app scan]. rewrite Hx. cbn [go].
  assert (Hh : forall q r', step mem q "H"%c
      (match st with ParseUri.sw_uri => sw_http_09 | _ => sw_check_uri_http_09 end, r')
    = go sw_http_H (r' <| http_protocol_data := Some q |>)) by (intros; by destruct st).
  rewrite Hh. cbn [go]. cbn -[case_first_major_digit case_first_minor_digit].
  rewrite first_major by done. cbn -[case_first_minor_digit].
  rewrite first_minor by done. cbn.
  replace (p + 1 + 1 + 1 + 1 + 1 + 1 + 1 + 1 + 1 + 1) with (p + 10) by lia.
  replace (p + 10 - 1) with (p + 9) by lia. done.
Qed.

(** The request of a printed line: what [ngx_http_parse_uri] says of the URI
    alone, with the method and the version. *)
Definition parsed_line (word uri : list Z) (major minor : Z) (r : ngx_http_request)
    : ngx_http_request :=
  let us := Z.of_nat (length word) + 1 in
  let ue := us + 1 + Z.of_nat (length uri) in
  let line := print_line word uri major minor in
  let ru := (ParseUri.ngx_http_parse_uri line
               ((with_method word r) <| uri_start := Some us |> <| uri_end := Some ue |>)).2 in
  ru <| http_protocol_data := Some (ue + 1) |> <| http_major := major |> <| http_minor := minor |>
     <| request_end := Some (ue + 9) |> <| http_version := major * 1000 + minor |>.

(** C26: A request line printed from a method word, a URI and a version parses
    to exactly these: the method of the table, the URI's bounds, the version
    [major * 1000 + minor], and every URI flag, extension and argument pointer
    that [ngx_http_parse_uri] computes for that URI on its own. *)
Theorem request_line_roundtrip (word uri : list Z) (major minor : Z) (r : ngx_http_request) :
  word <> [] -> Forall method_byte word -> Forall uri_byte uri ->
  1 <= major <= 9 -> 0 <= minor <= 9 ->
  let line := print_line word uri major minor in
  ngx_http_parse_request_line (sw_start, r) (Buf line 0)
  = (NGX_OK, (sw_start, parsed_line word uri major minor r), Buf line (b_last (Buf line 0))).
Proof.
  intros Hne Hw Huri Hma Hmi line.
  set (us := Z.of_nat (length word) + 1). set (ue := us + 1 + Z.of_nat (length uri)).
  set (r1 := (with_method word r) <| uri_start := Some us |>).
  assert (Hl : line = (word ++ [" "%c]) ++ "/"%c :: uri ++ version major minor)
    by (unfold line, print_line; by rewrite <- app_assoc).
  assert (Hlast : b_last (Buf line 0) = ue + 11).
  { unfold b_last; cbn [b_mem]. rewrite Hl, !length_app. cbn [length]. rewrite length_app.
    change (length (version major minor)) with 11%nat. unfold ue, us. lia. }
  destruct (uri_scan_same line (Some ue) uri (us + 1) ParseUri.sw_after_slash_in_uri r1 Huri ltac:(done))
    as (st' & r' & Hst' & E1 & E2).
  assert (Hs1 : scan (step line) 0 (word ++ [" "%c]) (sw_start, r)
      = (us, (sw_spaces_before_uri, with_method word r), None)).
  { unfold line, print_line. by apply scan_method. }
  assert (Hs : scan (step line) 0 line (sw_start, r) = (ue + 10, (sw_almost_done,
      r' <| uri_end := Some ue |> <| http_protocol_data := Some (ue + 1) |>
        <| http_major := major |> <| http_minor := minor |> <| request_end := Some (ue + 9) |>),
      Some done)).
  { rewrite Hl at 2. rewrite scan_app, Hs1. cbn [scan].
    change (step line us "/"%c (sw_spaces_before_uri, with_method word r))
      with (Next (L := label) (sw_after_slash_in_uri, r1)). cbn [scan].
    rewrite scan_app. cbn [uri_state] in E2. rewrite E2. by apply scan_version. }
  assert (Hu : ParseUri.ngx_http_parse_uri line (r1 <| uri_end := Some ue |>)
    = (NGX_OK, r' <| uri_end := Some ue |>)).
  { unfold ParseUri.ngx_http_parse_uri. change (uri_start _) with (Some us).
    change (uri_end _) with (Some ue). cbv iota beta.
    assert (Hsl : slice line us ue = "/"%c :: uri).
    { rewrite Hl. change ("/"%c :: uri ++ version major minor)
        with (("/"%c :: uri) ++ version major minor).
      replace us with (Z.of_nat (length (word ++ [" "%c])))
        by (rewrite length_app; unfold us; simpl; lia).
      replace ue with (Z.of_nat (length (word ++ [" "%c]) + length ("/"%c :: uri)))
        by (rewrite length_app; unfold ue, us; simpl; lia).
      apply slice_mid. }
    rewrite Hsl. cbn [scan].
    change (ParseUri.step us "/"%c (ParseUri.sw_start, r1 <| uri_end := Some ue |>))
      with (Next (L := ngx_rc) (ParseUri.sw_after_slash_in_uri, r1 <| uri_end := Some ue |>)).
    cbn [scan]. by rewrite E1. }
  assert (Hp : parsed_line word uri major minor r =
    r' <| uri_end := Some ue |> <| http_protocol_data := Some (ue + 1) |>
       <| http_major := major |> <| http_minor := minor |> <| request_end := Some (ue + 9) |>
       <| http_version := major * 1000 + minor |>).
  { unfold parsed_line. fold line us ue.
    change ((with_method word r) <| uri_start := Some us |>) with r1. by rewrite Hu. }
  unfold ngx_http_parse_request_line. change (unread (Buf line 0)) with line. cbn [b_mem b_pos].
  rewrite Hs, Hp, Hlast. unfold finish. simpl_req.
  rewrite (proj2 (Z.eqb_neq (major * 1000 + minor) 9)) by lia. cbn [andb].
  by replace (ue + 10 + 1) with (ue + 11) by lia.
Qed.

Lemma request_line_roundtrip_witness :
  let line := print_line (bytes_of "PUT") (bytes_of "a/b.c?x=%20") 1 1 in
  line = bytes_of "PUT /a/b.c?x=%20 HTTP/1.1" ++ [CR; LF] /\
  ngx_http_parse_request_line (sw_start, fresh_request) (Buf line 0)
  = (NGX_OK, (sw_start, parsed_line (bytes_of "PUT") (bytes_of "a/b.c?x=%20") 1 1 fresh_request),
     Buf line (b_last (Buf line 0))).
Proof.
  split; [by vm_compute|].
  apply (request_line_roundtrip (bytes_of "PUT") (bytes_of "a/b.c?x=%20") 1 1 fresh_request);
    [done| | |lia|lia].
  - repeat constructor.
  - repeat constructor; discriminate.
Defined.

(** ** The byte after a space *)

Definition smuggled : list Z := bytes_of "GET /x /../secret HTTP/1.1" ++ [CR; LF].

(** A space may stand inside the URI, and the byte after it is not looked
    at by any URI state: "/x /../secret" is accepted without [complex_uri],
    so [ngx_http_process_request_uri] takes it unnormalised, "/../" and all;
    a NUL, refused everywhere else in a URI, passes there too. *)
Theorem byte_after_space_unchecked :
  (exists r b, ngx_http_parse_request_line (sw_start, fresh_request) (Buf smuggled 0)
      = (NGX_OK, (sw_start, r), b)
    /\ complex_uri r = false /\ quoted_uri r = false
    /\ uri_start r = Some 4 /\ uri_end r = Some 17
    /\ ProcessUri.ngx_http_process_request_uri (fun _ => true) smuggled r 4 17 true [] []
       = ProcessUri.Processed (ProcessUri.Fields (bytes_of "/x /../secret")
           (bytes_of "/x /../secret") [] [] false false))
  /\ (exists r b, ngx_http_parse_request_line (sw_start, fresh_request)
        (Buf (bytes_of "GET /x " ++ NUL :: bytes_of "y HTTP/1.1" ++ [CR; LF]) 0)
      = (NGX_OK, (sw_start, r), b)).
Proof. split; eexists _, _; [split; [by vm_compute|]|]; by vm_compute. Qed.

End RequestRoundTrip.
