(* ===== verification/HeaderLine.v ===== *)
(** * [ngx_http_parse_header_line]

    One line of a header block, "Name: value CRLF", read in any pieces; the
    lower-cased copy of the name and its hash are built on the way.  Also the
    part of [ngx_http_process_request_headers] that turns parsed lines into
    [ngx_table_elt_t]s.  [ngx_hash] belongs to the nginx core and is a
    parameter. *)

From S2P Require Import Prelude Scan.

Module HeaderLine.

Inductive sw :=
| sw_start | sw_name | sw_space_before_value | sw_value | sw_space_after_value
| sw_ignore_line | sw_almost_done | sw_header_almost_done.

#[export] Instance sw_eq_dec : EqDecision sw.
Proof. solve_decision. Defined.

Definition NGX_HTTP_LC_HEADER_LEN : Z := 32.

(** The fields of the request this parser works on. *)
Record header := Header {
  header_hash : Z;
  lowcase_index : Z;
  lowcase_header : list Z;        (** [u_char[NGX_HTTP_LC_HEADER_LEN]] *)
  header_name_start : option Z;
  header_name_end : option Z;
  header_start : option Z;
  header_end : option Z;
  invalid_header : bool;
}.

Definition fresh_header : header :=
  Header 0 0 (replicate 32 0) None None None None false.

(** The static table [lowcase]: a letter's lower case, digits and "-"
    themselves, 0 for every other byte. *)
Definition lowcase : list Z :=
  replicate 32 0
  ++ replicate 13 0 ++ ["-"%c] ++ replicate 2 0 ++ bytes_of "0123456789" ++ replicate 6 0
  ++ [0] ++ bytes_of "abcdefghijklmnopqrstuvwxyz" ++ replicate 5 0
  ++ [0] ++ bytes_of "abcdefghijklmnopqrstuvwxyz" ++ replicate 5 0
  ++ replicate 128 0.

Inductive label := done | header_done | ret (rc : ngx_rc).

Definition locals : Type := sw * header.
Abbreviation result := (outcome locals label).
Definition go (st : sw) (h : header) : result := Next (st, h).
Definition invalid (st : sw) (h : header) : result := Stop (ret NGX_HTTP_PARSE_INVALID_HEADER) (st, h).

Definition with_name_start (v : Z) (h : header) : header :=
  Header (header_hash h) (lowcase_index h) (lowcase_header h) (Some v) (header_name_end h)
    (header_start h) (header_end h) false.
Definition with_name_end (v : Z) (h : header) : header :=
  Header (header_hash h) (lowcase_index h) (lowcase_header h) (header_name_start h) (Some v)
    (header_start h) (header_end h) (invalid_header h).
Definition with_start (v : Z) (h : header) : header :=
  Header (header_hash h) (lowcase_index h) (lowcase_header h) (header_name_start h)
    (header_name_end h) (Some v) (header_end h) (invalid_header h).
Definition with_end (v : Z) (h : header) : header :=
  Header (header_hash h) (lowcase_index h) (lowcase_header h) (header_name_start h)
    (header_name_end h) (header_start h) (Some v) (invalid_header h).
Definition with_invalid (h : header) : header :=
  Header (header_hash h) (lowcase_index h) (lowcase_header h) (header_name_start h)
    (header_name_end h) (header_start h) (header_end h) true.

Section Parser.
Variable ngx_hash : Z -> Z -> Z.
Variable allow_underscores : bool.
Variable upstream : bool.       (** [r->upstream != NULL] *)

(** [hash = ngx_hash(0, c); r->lowcase_header[0] = c; i = 1] *)
Definition first_char (c : Z) (h : header) : header :=
  Header (ngx_hash 0 c) 1 (<[0%nat := c]> (lowcase_header h)) (header_name_start h)
    (header_name_end h) (header_start h) (header_end h) (invalid_header h).

(** [hash = ngx_hash(hash, c); r->lowcase_header[i++] = c;
    i &= (NGX_HTTP_LC_HEADER_LEN - 1)] *)
Definition name_char (c : Z) (h : header) : header :=
  Header (ngx_hash (header_hash h) c)
    (Z.land (lowcase_index h + 1) (NGX_HTTP_LC_HEADER_LEN - 1))
    (<[Z.to_nat (lowcase_index h) := c]> (lowcase_header h)) (header_name_start h)
    (header_name_end h) (header_start h) (header_end h) (invalid_header h).

Definition case_start (p ch : Z) (h : header) : result :=
  let h := with_name_start p h in
  if ch =? CR then go sw_header_almost_done (with_end p h)
  else if ch =? LF then Stop header_done (sw_start, with_end p h)
  else
    let c := rd lowcase ch in
    if negb (c =? 0) then go sw_name (first_char c h)
    else if ch =? NUL then invalid sw_name h
    else go sw_name (with_invalid h).

Definition case_name (mem : list Z) (p ch : Z) (h : header) : result :=
  let c := rd lowcase ch in
  if negb (c =? 0) then go sw_name (name_char c h)
  else if ch =? "_"%c then
    if allow_underscores then go sw_name (name_char ch h) else go sw_name (with_invalid h)
  else if ch =? ":"%c then go sw_space_before_value (with_name_end p h)
  else if ch =? CR then go sw_almost_done (with_end p (with_start p (with_name_end p h)))
  else if ch =? LF then
    Stop done (sw_name, with_end p (with_start p (with_name_end p h)))
  else if (ch =? "/"%c) && upstream
       && match header_name_start h with
          | Some n => (p - n =? 4) && bool_decide (slice mem n (n + 4) = bytes_of "HTTP")
          | None => false
          end
  then go sw_ignore_line h
  else if ch =? NUL then invalid sw_name h
  else go sw_name (with_invalid h).

Definition case_space_before_value (p ch : Z) (h : header) : result :=
  if ch =? " "%c then go sw_space_before_value h
  else if ch =? CR then go sw_almost_done (with_end p (with_start p h))
  else if ch =? LF then Stop done (sw_space_before_value, with_end p (with_start p h))
  else if ch =? NUL then invalid sw_space_before_value h
  else go sw_value (with_start p h).

Definition case_value (p ch : Z) (h : header) : result :=
  if ch =? " "%c then go sw_space_after_value (with_end p h)
  else if ch =? CR then go sw_almost_done (with_end p h)
  else if ch =? LF then Stop done (sw_value, with_end p h)
  else if ch =? NUL then invalid sw_value h
  else go sw_value h.

Definition case_space_after_value (ch : Z) (h : header) : result :=
  if ch =? " "%c then go sw_space_after_value h
  else if ch =? CR then go sw_almost_done h
  else if ch =? LF then Stop done (sw_space_after_value, h)
  else if ch =? NUL then invalid sw_space_after_value h
  else go sw_value h.

Definition case_ignore_line (ch : Z) (h : header) : result :=
  if ch =? LF then go sw_start h else go sw_ignore_line h.

Definition case_almost_done (ch : Z) (h : header) : result :=
  if ch =? LF then Stop done (sw_almost_done, h)
  else if ch =? CR then go sw_almost_done h
  else invalid sw_almost_done h.

Definition case_header_almost_done (ch : Z) (h : header) : result :=
  if ch =? LF then Stop header_done (sw_header_almost_done, h)
  else invalid sw_header_almost_done h.

Definition step (mem : list Z) (p ch : Z) (s : locals) : result :=
  let (st, h) := s in
  match st with
  | sw_start => case_start p ch h
  | sw_name => case_name mem p ch h
  | sw_space_before_value => case_space_before_value p ch h
  | sw_value => case_value p ch h
  | sw_space_after_value => case_space_after_value ch h
  | sw_ignore_line => case_ignore_line ch h
  | sw_almost_done => case_almost_done ch h
  | sw_header_almost_done => case_header_almost_done ch h
  end.

(** The locals [hash] and [i] are stored on [NGX_AGAIN] and at [done:] only;
    the array and the pointers are written where they are. *)
Definition unsaved (h0 h : header) : header :=
  Header (header_hash h0) (lowcase_index h0) (lowcase_header h) (header_name_start h)
    (header_name_end h) (header_start h) (header_end h) (invalid_header h).

Definition ngx_http_parse_header_line (s : locals) (b : ngx_buf) : ngx_rc * locals * ngx_buf :=
  match scan (step (b_mem b)) (b_pos b) (unread b) s with
  | (p, s', None) => (NGX_AGAIN, s', Buf (b_mem b) p)
  | (p, (_, h), Some done) => (NGX_OK, (sw_start, h), Buf (b_mem b) (p + 1))
  | (p, (_, h), Some header_done) =>
      (NGX_HTTP_PARSE_HEADER_DONE, (sw_start, unsaved s.2 h), Buf (b_mem b) (p + 1))
  | (_, (_, h), Some (ret rc)) => (rc, (s.1, unsaved s.2 h), b)
  end.

(** ** The caller: [ngx_http_process_request_headers] *)

Record ngx_table_elt := Elt { hash : Z; key : list Z; value : list Z; lowcase_key : list Z }.

Variable ngx_strlow : list Z -> list Z.

(** The header pushed on [r->headers_in.headers]. *)
Definition make_elt (mem : list Z) (h : header) : ngx_table_elt :=
  let key := match header_name_start h, header_name_end h with
             | Some a, Some e => slice mem a e | _, _ => [] end in
  let value := match header_start h, header_end h with
               | Some a, Some e => slice mem a e | _, _ => [] end in
  Elt (header_hash h) key value
    (if Z.of_nat (length key) =? lowcase_index h
     then take (length key) (lowcase_header h)
     else ngx_strlow key).

(** The [for ( ;; )] over a buffer that holds the whole block: the headers
    pushed, with the code that ended it.  Every line consumes a byte, so
    [length (unread b)] turns are enough. *)
Fixpoint process_request_headers (fuel : nat) (ignore_invalid_headers : bool) (s : locals)
    (b : ngx_buf) : ngx_rc * list ngx_table_elt :=
  match fuel with
  | O => (NGX_AGAIN, [])
  | S fuel' =>
      match ngx_http_parse_header_line s b with
      | (NGX_OK, s', b') =>
          let (rc, es) := process_request_headers fuel' ignore_invalid_headers s' b' in
          if invalid_header s'.2 && ignore_invalid_headers then (rc, es)
          else (rc, make_elt (b_mem b) s'.2 :: es)
      | (rc, _, _) => (rc, [])
      end
  end.
End Parser.

(** The cases of the [switch]. *)
Ltac unfold_header :=
  unfold step, case_start, case_name, case_space_before_value, case_value,
    case_space_after_value, case_ignore_line, case_almost_done, case_header_almost_done,
    go, invalid.

End HeaderLine.
