(* ===== verification/HeaderLineProps.v ===== *)
(** * The properties of the header-line parser *)

From S2P Require Import Prelude Scan HeaderLine.

Module HeaderLineProps.
Import HeaderLine.

(** ** The invariant *)

(** A byte that may stand inside a header line. *)
Definition line_byte (c : Z) : Prop := c <> CR /\ c <> LF /\ c <> NUL.

(** The lower case of a byte of a name: the table's entry, "_" itself. *)
Definition lower (c : Z) : Z := if c =? "_"%c then c else rd lowcase c.

(** A byte that may stand in a valid name. *)
Definition name_byte (c : Z) : Prop := rd lowcase c <> 0 \/ c = "_"%c.

Section Invariant.
Context (ngx_hash : Z -> Z -> Z).

(** The copy and the hash of a name made of valid bytes. *)
Definition copied (name : list Z) (h : header) : Prop :=
  invalid_header h = false ->
  Forall name_byte name /\
  lowcase_index h = Z.land (Z.of_nat (length name)) 31 /\
  header_hash h = fold_left ngx_hash (map lower name) 0 /\
  ((length name < 32)%nat -> take (length name) (lowcase_header h) = map lower name).

(** The array and the index into it. *)
Definition array_ok (h : header) : Prop :=
  0 <= lowcase_index h < 32 /\ length (lowcase_header h) = 32%nat.

(** The name runs from [ns] to [e]. *)
Definition name_at (pre : list Z) (ns e : Z) (h : header) : Prop :=
  0 <= ns < e /\ all_in pre ns e line_byte /\ copied (slice pre ns e) h.

Definition name_open (pre : list Z) (p : Z) (h : header) : Prop :=
  ptr (header_name_start h) (fun ns => name_at pre ns p h).
Definition name_closed (pre : list Z) (p : Z) (h : header) : Prop :=
  ptr (header_name_start h) (fun ns => ptr (header_name_end h) (fun ne =>
    ne <= p /\ name_at pre ns ne h)).

(** The value runs from [header_start] to [e]. *)
Definition value_at (pre : list Z) (e : Z) (h : header) : Prop :=
  ptr (header_name_end h) (fun ne => ptr (header_start h) (fun hs =>
    ne <= hs <= e /\ all_in pre hs e line_byte)).
Definition value_closed (pre : list Z) (p : Z) (h : header) : Prop :=
  ptr (header_end h) (fun he => he <= p /\ value_at pre he h).

Definition inv (pre : list Z) (p : Z) (s : locals) : Prop :=
  let (st, h) := s in
  p = Z.of_nat (length pre) /\ array_ok h /\
  match st with
  | sw_start | sw_ignore_line | sw_header_almost_done => True
  | sw_name => name_open pre p h
  | sw_space_before_value => name_closed pre p h
  | sw_value => name_closed pre p h /\ value_at pre p h
  | sw_space_after_value => name_closed pre p h /\ value_closed pre p h /\ value_at pre p h
  | sw_almost_done => name_closed pre p h /\ value_closed pre p h
  end.
End Invariant.

(** ** Lemmas on the parts *)

Lemma rd_lowcase c : rd lowcase c <> 0 -> line_byte c /\ c <> "_"%c /\ c <> ":"%c.
Proof.
  intros H. assert (Hc : u_char c).
  { unfold u_char, rd in *. destruct (decide (0 <= c < 256)); [done|].
    destruct (decide (c < 0)); [by replace (Z.to_nat c) with O in H by lia|].
    rewrite nth_overflow in H; [done|]. change (length lowcase) with 256%nat. lia. }
  revert H. revert c Hc.
  apply (for_all_bytes (fun c => rd lowcase c <> 0 -> line_byte c /\ c <> "_"%c /\ c <> ":"%c)).
  by vm_compute.
Qed.

Lemma lower_table c : rd lowcase c <> 0 -> lower c = rd lowcase c.
Proof. intros (_ & H & _)%rd_lowcase. unfold lower. by rewrite (proj2 (Z.eqb_neq _ _)). Qed.

Lemma land31 n : Z.land n (NGX_HTTP_LC_HEADER_LEN - 1) = n mod 32.
Proof. apply (Z.land_ones n 5). lia. Qed.

Lemma land31' n : Z.land n 31 = n mod 32.
Proof. apply (Z.land_ones n 5). lia. Qed.

Lemma slice_grow pre ch ns p : 0 <= ns <= p -> p = Z.of_nat (length pre) ->
  slice (pre ++ [ch]) ns (p + 1) = slice pre ns p ++ [ch].
Proof.
  intros Hn Hp. rewrite slice_snoc, slice_app_l, rd_snoc_eq; try done; rewrite ?length_app; simpl; lia.
Qed.

Section Steps.
Context (ngx_hash : Z -> Z -> Z).
Implicit Types (pre : list Z) (h : header) (p ch : Z).

Lemma array_name_char c h : array_ok h -> array_ok (name_char ngx_hash c h).
Proof.
  intros [Hi Hl]. split; cbn [lowcase_index lowcase_header name_char].
  - rewrite land31. apply Z.mod_pos_bound. lia.
  - by rewrite length_insert.
Qed.

Lemma array_first_char c h : array_ok h -> array_ok (first_char ngx_hash c h).
Proof. intros [Hi Hl]. split; simpl; [lia|]. by rewrite length_insert. Qed.

Lemma copied_name_char name ch c h :
  array_ok h -> copied ngx_hash name h -> lower ch = c -> name_byte ch ->
  copied ngx_hash (name ++ [ch]) (name_char ngx_hash c h).
Proof.
  intros [_ Hl] Hc <- Hb Hv. destruct (Hc Hv) as (Hn & Hi & Hh & Ht).
  cbn [lowcase_index header_hash lowcase_header name_char].
  rewrite length_app, Nat2Z.inj_add, map_app. cbn [length]. rewrite Hi, Hh. split_and!.
  - apply Forall_app. split; [done|by constructor].
  - rewrite land31, !land31'. apply Zplus_mod_idemp_l.
  - by rewrite fold_left_app.
  - intros Hlt. rewrite land31', Z.mod_small, Nat2Z.id by lia.
    rewrite Nat.add_1_r, (take_S_r _ _ (lower ch)) by (apply list_lookup_insert_eq; lia).
    rewrite take_insert_ge by lia. rewrite Ht by lia. done.
Qed.

Lemma copied_invalid name h : copied ngx_hash name (with_invalid h).
Proof. intros H. discriminate H. Qed.

(** One more byte of the name. *)
Lemma name_more pre p ch h h' :
  p = Z.of_nat (length pre) -> name_open ngx_hash pre p h -> line_byte ch ->
  header_name_start h' = header_name_start h ->
  (forall name, copied ngx_hash name h -> copied ngx_hash (name ++ [ch]) h') ->
  name_open ngx_hash (pre ++ [ch]) (p + 1) h'.
Proof.
  intros Hp Hn Hch He Hc. unfold name_open in *. rewrite He. apply (ptr_impl _ _ _ Hn).
  intros ns (Hns & Ha & Hcp). split; [lia|]. split; [by apply all_in_snoc; [lia|..]|].
  rewrite slice_grow by lia. by apply Hc.
Qed.

Lemma name_open_close pre p ch h :
  p = Z.of_nat (length pre) -> name_open ngx_hash pre p h ->
  name_closed ngx_hash pre p (with_name_end p h).
Proof.
  intros Hp Hn. unfold name_closed, name_open in *. simpl. apply (ptr_impl _ _ _ Hn).
  intros ns H. open_ptr. by split.
Qed.

Lemma name_closed_more pre p ch h :
  p = Z.of_nat (length pre) -> name_closed ngx_hash pre p h ->
  name_closed ngx_hash (pre ++ [ch]) (p + 1) h.
Proof.
  intros Hp Hn. unfold name_closed in *. apply (ptr_impl _ _ _ Hn). intros ns H.
  apply (ptr_impl _ _ _ H). intros ne (Hne & H1 & H2 & H3). split; [lia|]. split; [lia|].
  split; [apply all_in_old; [lia|lia|done]|]. by rewrite slice_app_l by lia.
Qed.

Lemma value_at_old pre e ch h :
  0 <= e <= Z.of_nat (length pre) -> ptr (header_name_end h) (fun ne => 0 <= ne) ->
  value_at pre e h -> value_at (pre ++ [ch]) e h.
Proof.
  intros He Hn Hv. unfold value_at in *. open_ptr. split; [lia|]. apply all_in_old; [lia|lia|done].
Qed.

Lemma value_more pre p ch h :
  p = Z.of_nat (length pre) -> ptr (header_name_end h) (fun ne => 0 <= ne) ->
  value_at pre p h -> line_byte ch -> value_at (pre ++ [ch]) (p + 1) h.
Proof.
  intros Hp Hn Hv Hch. unfold value_at in *. open_ptr. split; [lia|].
  by apply all_in_snoc; [lia|..].
Qed.

Lemma value_closed_more pre p ch h :
  p = Z.of_nat (length pre) -> ptr (header_name_end h) (fun ne => 0 <= ne) ->
  value_closed pre p h -> value_closed (pre ++ [ch]) (p + 1) h.
Proof.
  intros Hp Hn Hv. unfold value_closed in *. apply (ptr_impl _ _ _ Hv). intros he [H1 H2].
  split; [lia|]. apply value_at_old; [|done|done]. unfold value_at in H2. open_ptr. lia.
Qed.

Lemma name_closed_nonneg pre p h : name_closed ngx_hash pre p h -> ptr (header_name_end h) (fun ne => 0 <= ne).
Proof. unfold name_closed, name_at. intros H. open_ptr. lia. Qed.

(** The value starts at [p]. *)
Lemma value_at_start pre p h :
  name_closed ngx_hash pre p h -> value_at pre p (with_start p h).
Proof.
  unfold name_closed, value_at. intros H. open_ptr. simpl. rewrite E0. cbn. split; [lia|].
  apply all_in_nil.
Qed.

Lemma value_close pre p h : value_at pre p h -> value_closed pre p (with_end p h).
Proof. intros H. by split. Qed.

(** What is known when the loop is left. *)
Definition done_at pre p (l : label) h : Prop :=
  array_ok h /\
  match l with
  | done => name_closed ngx_hash pre p h /\ value_closed pre p h
  | header_done => True
  | ret rc => rc = NGX_HTTP_PARSE_INVALID_HEADER
  end.

Context (allow_underscores upstream : bool) (mem : list Z).

Abbreviation step := (step ngx_hash allow_underscores upstream mem).

Lemma byte_cases ch : (ch =? CR) = false -> (ch =? LF) = false -> (ch =? NUL) = false -> line_byte ch.
Proof. intros. b2p. done. Qed.

Lemma inv_start_step pre p ch h : inv ngx_hash pre p (sw_start, h) ->
  match case_start ngx_hash p ch h with
  | Next s' => inv ngx_hash (pre ++ [ch]) (p + 1) s'
  | Stop l s' => done_at pre p l s'.2
  end.
Proof.
  intros (Hp & Ha & _). pose proof (length_snoc_Z pre ch p Hp) as Hp1.
  unfold case_start, go, invalid. split_ifs; b2p; try (split_and!; done).
  - pose proof (rd_lowcase ch ltac:(done)) as (Hb & _).
    split; [done|]. split; [by apply array_first_char|].
    split; [lia|]. split.
    { intros i Hi. replace i with p by lia. by rewrite rd_snoc_eq. }
    intros Hv. rewrite (slice_grow pre ch p p), slice_nil by lia. simpl.
    rewrite lower_table by done. split_and!; try done; [by constructor; [left|]|]. intros _.
    destruct Ha as [_ Hl]. by destruct (lowcase_header h).
  - split; [done|]. split; [done|]. split; [lia|]. split; [|apply copied_invalid].
    intros i Hi. replace i with p by lia. by rewrite rd_snoc_eq.
Qed.

Lemma inv_name_step pre p ch h : inv ngx_hash pre p (sw_name, h) ->
  match case_name ngx_hash allow_underscores upstream mem p ch h with
  | Next s' => inv ngx_hash (pre ++ [ch]) (p + 1) s'
  | Stop l s' => done_at pre p l s'.2
  end.
Proof.
  intros (Hp & Ha & Hn). pose proof (length_snoc_Z pre ch p Hp) as Hp1.
  pose proof (name_open_close pre p ch h Hp Hn) as Hc.
  assert (Hnil : value_closed pre p (with_end p (with_start p (with_name_end p h)))).
  { apply value_close, value_at_start, Hc. }
  unfold case_name, go, invalid. split_ifs; b2p; try (split_and!; done).
  - pose proof (rd_lowcase ch ltac:(done)) as (Hb & _).
    split; [done|]. split; [by apply array_name_char|].
    eapply name_more; [done|done|done|done|]. intros name Hcp. apply copied_name_char; [done|done| |by left].
    by apply lower_table.
  - split; [done|]. split; [by apply array_name_char|].
    eapply name_more; [done|done|by subst|done|]. intros name Hcp. apply copied_name_char; [done|done| |by right].
    by subst.
  - split; [done|]. split; [done|].
    eapply name_more; [done|done|by subst|done|]. intros name _. apply copied_invalid.
  - split; [done|]. split; [done|]. by apply name_closed_more.
  - split; [done|]. split; [done|]. split; [by apply name_closed_more|].
    apply value_closed_more; [done|by apply name_closed_nonneg in Hc|done].
  - split; [done|]. split; [done|].
    eapply name_more; [done|done|by repeat split|done|]. intros name _. apply copied_invalid.
Qed.

Lemma header_inv_step pre p ch s : inv ngx_hash pre p s ->
  match step p ch s with
  | Next s' => inv ngx_hash (pre ++ [ch]) (p + 1) s'
  | Stop l s' => done_at pre p l s'.2
  end.
Proof.
  destruct s as [st h]. intros Hi. destruct st; unfold HeaderLine.step;
    [by apply inv_start_step | by apply inv_name_step | ..]; destruct Hi as (Hp & Ha & Hi);
    pose proof (length_snoc_Z pre ch p Hp) as Hp1.
  - pose proof (name_closed_nonneg _ _ _ Hi) as Hnn.
    pose proof (value_at_start pre p h Hi) as Hv. pose proof (value_close _ _ _ Hv) as Hv'.
    unfold case_space_before_value, go, invalid. split_ifs; b2p; try (split_and!; done).
    + split; [done|]. split; [done|]. by apply name_closed_more.
    + split; [done|]. split; [done|]. split; [by apply name_closed_more|].
      by apply value_closed_more.
    + split; [done|]. split; [done|]. split; [by apply name_closed_more|].
      apply value_more; try done.
  - destruct Hi as [Hn Hv]. pose proof (name_closed_nonneg _ _ _ Hn) as Hnn.
    pose proof (value_close _ _ _ Hv) as Hv'.
    unfold case_value, go, invalid. split_ifs; b2p; try (split_and!; done).
    + split; [done|]. split; [done|]. split; [by apply name_closed_more|].
      split; [by apply value_closed_more|]. subst ch.
      by apply (value_more pre p " "%c (with_end p h)).
    + split; [done|]. split; [done|]. split; [by apply name_closed_more|].
      by apply value_closed_more.
    + split; [done|]. split; [done|]. split; [by apply name_closed_more|].
      apply value_more; try done.
  - destruct Hi as (Hn & Hv & Hall). pose proof (name_closed_nonneg _ _ _ Hn) as Hnn.
    unfold case_space_after_value, go, invalid. split_ifs; b2p; try (split_and!; done).
    + split; [done|]. split; [done|]. split; [by apply name_closed_more|].
      split; [by apply value_closed_more|]. subst ch. by apply value_more.
    + split; [done|]. split; [done|]. split; [by apply name_closed_more|].
      by apply value_closed_more.
    + split; [done|]. split; [done|]. split; [by apply name_closed_more|]. by apply value_more.
  - unfold case_ignore_line, go. split_ifs; by split_and!.
  - destruct Hi as [Hn Hv]. pose proof (name_closed_nonneg _ _ _ Hn) as Hnn.
    unfold case_almost_done, go, invalid. split_ifs; try (split_and!; done).
    split; [done|]. split; [done|]. split; [by apply name_closed_more|]. by apply value_closed_more.
  - unfold case_header_almost_done, invalid. split_ifs; by split_and!.
Qed.
End Steps.

(** ** Feeding the parser in pieces *)

Section Feed.
Context (ngx_hash : Z -> Z -> Z) (allow_underscores upstream : bool).

Definition leave (s : locals) (q p : Z) (l : label) (s' : locals) : ngx_rc * locals * Z :=
  match l with
  | done => (NGX_OK, (sw_start, s'.2), p + 1)
  | header_done => (NGX_HTTP_PARSE_HEADER_DONE, (sw_start, unsaved s.2 s'.2), p + 1)
  | ret rc => (rc, (s.1, unsaved s.2 s'.2), q)
  end.

(** At the end of the block the hash and the index are left over from some
    earlier line; after an error nothing is used. *)
Definition forget (h : header) : header := unsaved fresh_header h.
Definition same (rc : ngx_rc) (x y : locals * ngx_buf) : Prop :=
  if bool_decide (rc = NGX_OK) || bool_decide (rc = NGX_AGAIN) then x = y
  else if bool_decide (rc = NGX_HTTP_PARSE_HEADER_DONE)
    then x.1.1 = y.1.1 /\ forget x.1.2 = forget y.1.2 /\ x.2 = y.2
  else True.

#[export] Instance same_equiv rc : Equivalence (same rc).
Proof.
  unfold same. destruct (_ || _); [apply eq_equivalence|]. destruct (bool_decide _); [|by split].
  split; [done|by intros x y (-> & -> & ->)|by intros x y z (-> & -> & ->)].
Qed.

Lemma header_reached p l s' :
  reached (step ngx_hash allow_underscores upstream) (inv ngx_hash) p l s' ->
  match l with ret rc => rc = NGX_HTTP_PARSE_INVALID_HEADER | _ => True end.
Proof.
  intros (mem & pre & ch & s & Hi & E).
  pose proof (header_inv_step ngx_hash allow_underscores upstream mem pre p ch s Hi) as H.
  rewrite E in H. destruct H as [_ H]. by destruct l.
Qed.

Lemma header_step_received m ys pre p ch s : inv ngx_hash pre p s -> 0 <= p < Z.of_nat (length m) ->
  step ngx_hash allow_underscores upstream (m ++ ys) p ch s
  = step ngx_hash allow_underscores upstream m p ch s.
Proof.
  destruct s as [st h]. intros (Hp & _ & Hi) Hpm. destruct st; try done. unfold step, case_name.
  unfold name_open, name_at in Hi. open_ptr. rewrite E.
  destruct (Z.eqb_spec (p - z) 4) as [Hz|Hz]; [|done]. by rewrite slice_app_l by lia.
Qed.

#[export] Instance header_line_parser : StreamParser locals :=
  scan_parser (inv ngx_hash) same (ngx_http_parse_header_line ngx_hash allow_underscores upstream).

#[export] Instance header_line_parser_laws : StreamParserLaws locals.
Proof.
  apply (scan_parser_laws (step ngx_hash allow_underscores upstream) leave).
  - intros mem pre p ch s s' Hi E. pose proof (header_inv_step ngx_hash allow_underscores upstream mem pre p ch s Hi) as H.
    by rewrite E in H.
  - apply header_step_received.
  - intros s0 q p l s' Hr%header_reached. destruct l; cbn; [done|done|by rewrite Hr].
  - intros s1 q1 s2 q2 m p l s' Hr%header_reached. destruct l; cbn; [done|done|by rewrite Hr].
  - intros s b. unfold ngx_http_parse_header_line, scan_parse.
    destruct (scan _ _ _ _) as [[p [st h]] [[]|]]; try done. by destruct b.
Qed.
End Feed.

End HeaderLineProps.
