(* ===== verification/HeaderBlock.v ===== *)
(** * Header lines and header blocks as wholes

    What a parsed header line is, that printed headers parse back, and that
    the lower-cased key handed to the header table is the one of the name. *)

From S2P Require Import Prelude Scan HeaderLine HeaderLineProps.

Module HeaderBlock.
Import HeaderLine HeaderLineProps.

Lemma lower_tolower c : name_byte c -> lower c = tolower c.
Proof.
  intros [H| ->]; [|done]. rewrite lower_table by done.
  assert (Hc : u_char c).
  { unfold u_char, rd in *. destruct (decide (0 <= c < 256)); [done|].
    destruct (decide (c < 0)); [by replace (Z.to_nat c) with O in H by lia|].
    rewrite nth_overflow in H; [done|]. change (length lowcase) with 256%nat. lia. }
  revert c Hc H. apply (for_all_bytes (fun c => rd lowcase c <> 0 -> rd lowcase c = tolower c)).
  by vm_compute.
Qed.

Fixpoint last_byte (v : list Z) : option Z :=
  match v with
  | [] => None
  | [c] => Some c
  | _ :: v' => last_byte v'
  end.

Section Block.
Context (ngx_hash : Z -> Z -> Z) (allow_underscores upstream : bool).
Context (ngx_strlow : list Z -> list Z).
Hypothesis ngx_strlow_spec : forall l, ngx_strlow l = map tolower l.

Abbreviation parse := (ngx_http_parse_header_line ngx_hash allow_underscores upstream).
Abbreviation step := (step ngx_hash allow_underscores upstream).

(** A header as the rest of the server may rely on it. *)
Definition elt_ok (e : ngx_table_elt) : Prop :=
  key e <> [] /\ Forall name_byte (key e) /\ Forall line_byte (value e)
  /\ lowcase_key e = map tolower (key e)
  /\ hash e = fold_left ngx_hash (map tolower (key e)) 0.

Lemma Forall_slice m a b (P : Z -> Prop) :
  0 <= a -> b <= Z.of_nat (length m) -> all_in m a b P -> Forall P (slice m a b).
Proof.
  intros Ha Hb H. apply Forall_lookup. intros i c Hi.
  assert (Hl : (i < length (slice m a b))%nat) by (apply lookup_lt_is_Some; eauto).
  assert (Hb' : a <= b).
  { destruct (decide (a <= b)); [done|]. unfold slice in Hl.
    replace (Z.to_nat (b - a)) with O in Hl by lia. simpl in Hl. lia. }
  assert (Hlen : Z.of_nat (length (slice m a b)) = b - a) by (apply length_slice; lia).
  assert (Hr : rd (slice m a b) (Z.of_nat i) = c) by (unfold rd; by rewrite Nat2Z.id, nth_lookup, Hi).
  rewrite <- Hr, rd_slice by lia. apply H. lia.
Qed.

Lemma map_lower name : Forall name_byte name -> map lower name = map tolower name.
Proof. induction 1; simpl; [done|]. by rewrite lower_tolower, IHForall. Qed.

(** The element made of a line left at [p] by the parser. *)
Lemma make_elt_ok pre p h :
  p <= Z.of_nat (length pre) ->
  array_ok h -> name_closed ngx_hash pre p h -> value_closed pre p h -> invalid_header h = false ->
  elt_ok (make_elt ngx_strlow pre h).
Proof using ngx_strlow_spec.
  intros Hp [Hi Hl] Hn Hv Hinv. unfold make_elt.
  apply ptr_some in Hn as (ns & Ens & Hn). apply ptr_some in Hn as (ne & Ene & Hne & Hns & Hab & Hcp).
  apply ptr_some in Hv as (he & Ehe & Hhe & Hv). unfold value_at in Hv.
  rewrite Ene in Hv. cbn in Hv. apply ptr_some in Hv as (hs & Ehs & Hhs & Hvb).
  rewrite Ens, Ene, Ehs, Ehe. destruct (Hcp Hinv) as (Hnb & Hix & Hh & Ht).
  unfold elt_ok; cbn [key value lowcase_key hash].
  assert (Hlen : Z.of_nat (length (slice pre ns ne)) = ne - ns) by (apply length_slice; lia).
  split_and!; [|done| | |by rewrite <- map_lower].
  - intros He. rewrite He in Hlen. simpl in Hlen. lia.
  - apply Forall_slice; [lia|lia|done].
  - destruct (Z.eqb_spec (Z.of_nat (length (slice pre ns ne))) (lowcase_index h)).
    + rewrite Ht by lia. by apply map_lower.
    + apply ngx_strlow_spec.
Qed.
Lemma name_closed_app pre ys p h : p <= Z.of_nat (length pre) ->
  name_closed ngx_hash pre p h -> name_closed ngx_hash (pre ++ ys) p h.
Proof.
  intros Hp Hn. apply (ptr_impl _ _ _ Hn). intros ns H. apply (ptr_impl _ _ _ H).
  intros ne (H1 & H2 & H3 & H4). split; [lia|]. split; [lia|].
  split; [apply all_in_old; [lia|lia|done]|]. by rewrite slice_app_l by lia.
Qed.

Lemma value_closed_app pre ys p h : p <= Z.of_nat (length pre) ->
  ptr (header_name_end h) (fun ne => 0 <= ne) ->
  value_closed pre p h -> value_closed (pre ++ ys) p h.
Proof.
  intros Hp Hn Hv. apply (ptr_impl _ _ _ Hv). intros he [H1 H2]. split; [lia|].
  unfold value_at in *. open_ptr. split; [lia|]. apply all_in_old; [lia|lia|done].
Qed.

(** How the parser leaves a line it accepts. *)
Lemma parse_ok s b s' b' :
  buf_wf b -> inv ngx_hash (take (Z.to_nat (b_pos b)) (b_mem b)) (b_pos b) s ->
  parse s b = (NGX_OK, s', b') ->
  s'.1 = sw_start /\ b_mem b' = b_mem b /\ b_pos b < b_pos b' <= b_last b
  /\ array_ok s'.2 /\ name_closed ngx_hash (b_mem b) (b_pos b' - 1) s'.2
  /\ value_closed (b_mem b) (b_pos b' - 1) s'.2.
Proof.
  intros Hwf Hi E. unfold ngx_http_parse_header_line in E.
  pose proof (scan_invariant (step (b_mem b)) (inv ngx_hash)
    (fun pre p _ l s' => p = Z.of_nat (length pre) /\ done_at ngx_hash pre p l s'.2)) as H.
  assert (Hs : forall pre p ch s, inv ngx_hash pre p s -> match step (b_mem b) p ch s with
    | Next s' => inv ngx_hash (pre ++ [ch]) (p + 1) s'
    | Stop l s' => p = Z.of_nat (length pre) /\ done_at ngx_hash pre p l s'.2 end).
  { intros pre p ch s0 Hi0. pose proof (header_inv_step ngx_hash allow_underscores upstream (b_mem b) pre p ch s0 Hi0).
    destruct (step _ _ _ _); [done|]. split; [|done]. destruct s0. apply Hi0. }
  specialize (H Hs (unread b) _ _ _ Hi).
  destruct (scan _ _ _ _) as [[p [st h]] [[| |rc]|]] eqn:Es; try done.
  2: { destruct H as (_ & _ & _ & _ & _ & _ & _ & H). rewrite H in E. done. }
  injection E as <- <-. destruct H as (mid & ch & post & Hu & Hpos & Hp & Ha & Hn & Hv).
  apply scan_some_pos in Es. rewrite length_unread in Es by done.
  assert (Hm : b_mem b = (take (Z.to_nat (b_pos b)) (b_mem b) ++ mid) ++ ch :: post).
  { rewrite <- app_assoc, <- Hu. unfold unread. by rewrite take_drop. }
  cbn [fst snd b_mem b_pos]. replace (p + 1 - 1) with p by lia.
  split_and!; try done; try lia; [|]; rewrite Hm.
  - by apply name_closed_app; [lia|].
  - apply value_closed_app; [lia| |done]. by apply name_closed_nonneg in Hn.
Qed.

Lemma header_inv_fresh m p h : 0 <= p <= Z.of_nat (length m) -> array_ok h ->
  inv ngx_hash (take (Z.to_nat p) m) p (sw_start, h).
Proof. intros Hp Ha. split; [rewrite length_take; lia|done]. Qed.

(** When a header line is accepted its bytes are consumed, the index into
    the fixed lower-case array has stayed inside it, and unless the line was
    marked invalid the header pushed has a non-empty name of valid bytes, a
    value without CR, LF or NUL (nothing in it can end the header or start
    another), the lower-cased name as its key and the hash of that key. *)
Theorem header_line_sound (h0 : header) (b : ngx_buf) s' b' :
  buf_wf b -> array_ok h0 ->
  parse (sw_start, h0) b = (NGX_OK, s', b') ->
  s'.1 = sw_start /\ b_mem b' = b_mem b /\ b_pos b < b_pos b' <= b_last b /\ array_ok s'.2
  /\ (invalid_header s'.2 = false -> elt_ok (make_elt ngx_strlow (b_mem b) s'.2)).
Proof using ngx_strlow_spec.
  intros Hwf Ha E. unfold buf_wf, b_last in Hwf.
  destruct (parse_ok _ _ _ _ Hwf (header_inv_fresh _ _ _ Hwf Ha) E) as (H1 & H2 & H3 & H4 & H5 & H6).
  split_and!; try done; try lia. intros Hv. unfold b_last in H3.
  by apply (make_elt_ok _ (b_pos b' - 1)); [lia|..].
Qed.

(** However a header line is cut into segments, feeding them gives the
    same answer as parsing all of it at once. *)
Theorem header_line_segments (h0 : header) (b : ngx_buf) segs :
  buf_wf b -> array_ok h0 ->
  same_result (H := header_line_parser ngx_hash allow_underscores upstream)
    (parse (sw_start, h0) (received b (concat segs)))
    (with_tail (feed (H := header_line_parser ngx_hash allow_underscores upstream) (sw_start, h0) b segs)
       (unfed (H := header_line_parser ngx_hash allow_underscores upstream) (sw_start, h0) b segs)).
Proof.
  intros Hwf Ha. refine (feed_one_shot (H := header_line_parser _ _ _) (sw_start, h0) b segs _).
  split; [done|]. unfold buf_wf, b_last in Hwf. by apply header_inv_fresh.
Qed.
(** ** Printing *)

Definition tail_byte (c : Z) : Prop := rd lowcase c <> 0 \/ c = "_"%c /\ allow_underscores = true.

(** A name the server takes as valid: the first byte is a letter, a digit or
    "-", the others may be "_" too when underscores are allowed. *)
Definition valid_name (n : list Z) : Prop :=
  match n with [] => False | c :: t => rd lowcase c <> 0 /\ Forall tail_byte t end.

(** A value without line bytes, and no space at either end. *)
Definition valid_value (v : list Z) : Prop :=
  Forall line_byte v /\ head v <> Some " "%c /\ last_byte v <> Some " "%c.

Definition print_header (nv : list Z * list Z) : list Z := nv.1 ++ ":"%c :: " "%c :: nv.2 ++ [CR; LF].

Definition elt_of (nv : list Z * list Z) : ngx_table_elt :=
  Elt (fold_left ngx_hash (map tolower nv.1) 0) nv.1 nv.2 (map tolower nv.1).

(** [h'] has the pointers and the flag of [h]. *)
Definition same_pointers (h h' : header) : Prop :=
  header_name_start h' = header_name_start h /\ invalid_header h' = invalid_header h.

Lemma scan_tail mem t : forall p h, Forall tail_byte t ->
  exists h', scan (step mem) p t (sw_name, h) = (p + Z.of_nat (length t), (sw_name, h'), None)
    /\ same_pointers h h'.
Proof.
  induction t as [|c t IH]; intros p h Ht; cbn [scan].
  - exists h. by rewrite Z.add_0_r.
  - apply Forall_cons_iff in Ht as [Hc Ht].
    assert (Hs : exists c', step mem p c (sw_name, h) = go sw_name (name_char ngx_hash c' h)).
    { unfold HeaderLine.step, case_name. destruct Hc as [Hc|[-> Hau]].
      - exists (rd lowcase c). by rewrite (proj2 (Z.eqb_neq _ _) Hc).
      - exists "_"%c. by rewrite Hau. }
    destruct Hs as [c' ->]. cbn [go].
    destruct (IH (p + 1) (name_char ngx_hash c' h) Ht) as (h' & E & H3 & H4).
    exists h'. rewrite E. split; [|by split].
    by replace (p + Z.of_nat (length (c :: t))) with (p + 1 + Z.of_nat (length t)) by (simpl; lia).
Qed.

Lemma scan_name mem n p h : valid_name n ->
  exists h', scan (step mem) p n (sw_start, h) = (p + Z.of_nat (length n), (sw_name, h'), None)
    /\ header_name_start h' = Some p /\ invalid_header h' = false.
Proof.
  destruct n as [|c t]; [done|]. intros [Hc Ht]. pose proof (rd_lowcase c Hc) as ((H1 & H2 & _) & _).
  cbn [scan]. unfold HeaderLine.step at 1, case_start.
  rewrite !(proj2 (Z.eqb_neq _ _)) by done. cbn [negb go].
  destruct (scan_tail mem t (p + 1) (first_char ngx_hash (rd lowcase c) (with_name_start p h)) Ht)
    as (h' & E & H3 & H4).
  exists h'. rewrite E, H3, H4. split; [|done]. f_equal. f_equal. simpl. lia.
Qed.

(** The value, up to and including the byte at which it ends. *)
Definition with_end' (e : option Z) (h : header) : header :=
  Header (header_hash h) (lowcase_index h) (lowcase_header h) (header_name_start h)
    (header_name_end h) (header_start h) e (invalid_header h).

Lemma scan_value mem v : forall p st h, Forall line_byte v -> st = sw_value \/ st = sw_space_after_value ->
  exists st' e, scan (step mem) p v (st, h) = (p + Z.of_nat (length v), (st', with_end' e h), None)
    /\ (st' = sw_value \/ st' = sw_space_after_value)
    /\ (v <> [] -> last_byte v <> Some " "%c -> st' = sw_value).
Proof.
  induction v as [|c v IH]; intros p st h Hv Hst; cbn [scan].
  - exists st, (header_end h). rewrite Z.add_0_r. by destruct h.
  - apply Forall_cons_iff in Hv as [(H1 & H2 & H3) Hv].
    assert (Hs : exists st1 e1, step mem p c (st, h) = Next (st1, with_end' e1 h)
      /\ (st1 = sw_value \/ st1 = sw_space_after_value) /\ (c <> " "%c -> st1 = sw_value)).
    { destruct Hst as [-> | ->]; unfold HeaderLine.step, case_value, case_space_after_value;
        rewrite (proj2 (Z.eqb_neq c CR)), (proj2 (Z.eqb_neq c LF)), (proj2 (Z.eqb_neq c NUL)) by done.
      - destruct (Z.eqb_spec c " "%c).
        + exists sw_space_after_value, (Some p). by split_and!; [|right|].
        + exists sw_value, (header_end h). split_and!; [by destruct h|by left|done].
      - destruct (Z.eqb_spec c " "%c).
        + exists sw_space_after_value, (header_end h). split_and!; [by destruct h|by right|done].
        + exists sw_value, (header_end h). split_and!; [by destruct h|by left|done]. }
    destruct Hs as (st1 & e1 & -> & Hst1 & Hc). cbn [go].
    destruct (IH (p + 1) st1 (with_end' e1 h) Hv Hst1) as (st' & e & E & Hst' & Hl).
    exists st', e. rewrite E.
    replace (p + Z.of_nat (length (c :: v))) with (p + 1 + Z.of_nat (length v)) by (simpl; lia).
    split_and!; [done|done|]. intros _ Hlast. destruct v as [|d v].
    + cbn [scan] in E. injection E as _ <- _. apply Hc. intros ->. by apply Hlast.
    + by apply Hl.
Qed.
(** A printed header parses to its name and value. *)
Lemma scan_header m nv p h : valid_name nv.1 -> valid_value nv.2 ->
  exists h', scan (step m) p (print_header nv) (sw_start, h)
      = (p + Z.of_nat (length (print_header nv)) - 1, (sw_almost_done, h'), Some done)
    /\ invalid_header h' = false /\ header_name_start h' = Some p
    /\ header_name_end h' = Some (p + Z.of_nat (length nv.1))
    /\ header_start h' = Some (p + Z.of_nat (length nv.1) + 2)
    /\ header_end h' = Some (p + Z.of_nat (length nv.1) + 2 + Z.of_nat (length nv.2)).
Proof.
  destruct nv as [n v]; cbn [fst snd]. intros Hn (Hv & Hh & Hl).
  destruct (scan_name m n p h Hn) as (h1 & E1 & Hs1 & Hi1).
  unfold print_header; cbn [fst snd]. rewrite scan_app, E1. cbn [scan].
  change (step m (p + Z.of_nat (length n)) ":"%c (sw_name, h1))
    with (Next (L := label) (sw_space_before_value, with_name_end (p + Z.of_nat (length n)) h1)).
  cbn [scan]. set (q := p + Z.of_nat (length n)).
  change (step m (q + 1) " "%c (sw_space_before_value, with_name_end q h1))
    with (Next (L := label) (sw_space_before_value, with_name_end q h1)). cbn [scan].
  replace (q + 1 + 1) with (q + 2) by lia.
  assert (Hq : p + Z.of_nat (length (n ++ ":"%c :: " "%c :: v ++ [CR; LF])) - 1
    = q + 2 + Z.of_nat (length v) + 1)
    by (unfold q; rewrite length_app; cbn [length]; rewrite length_app; cbn [length]; lia).
  rewrite Hq. fold q.
  destruct v as [|c v].
  - cbn -[Z.add]. rewrite Z.add_0_r. by eexists.
  - apply Forall_cons_iff in Hv as [Hc Hv]. pose proof Hc as (H1 & H2 & H3).
    cbn [app scan]. unfold HeaderLine.step at 1, case_space_before_value.
    rewrite !(proj2 (Z.eqb_neq c _)) by first [done | by intros ->].
    cbn [go]. rewrite scan_app.
    destruct (scan_value m v (q + 2 + 1) sw_value (with_start (q + 2) (with_name_end q h1)) Hv
      ltac:(by left)) as (st' & e & E & Hst' & Hlast). rewrite E.
    assert (st' = sw_value) as ->.
    { destruct v as [|d v]; [cbn [scan] in E; by injection E as _ <- _|]. by apply Hlast. }
    replace (q + 2 + Z.of_nat (length (c :: v))) with (q + 2 + 1 + Z.of_nat (length v))
      by (simpl; lia).
    cbn -[Z.add]. by eexists.
Qed.

Lemma parse_printed nv h (b : ngx_buf) rest :
  valid_name nv.1 -> valid_value nv.2 -> buf_wf b -> array_ok h ->
  unread b = print_header nv ++ rest ->
  exists h', parse (sw_start, h) b
      = (NGX_OK, (sw_start, h'), Buf (b_mem b) (b_pos b + Z.of_nat (length (print_header nv))))
    /\ array_ok h' /\ invalid_header h' = false
    /\ make_elt ngx_strlow (b_mem b) h' = elt_of nv.
Proof using ngx_strlow_spec.
  intros Hn Hv Hwf Ha Hu.
  destruct (scan_header (b_mem b) nv (b_pos b) h Hn Hv) as (h' & E & Hi & Hns & Hne & Hhs & Hhe).
  assert (Hp : parse (sw_start, h) b
      = (NGX_OK, (sw_start, h'), Buf (b_mem b) (b_pos b + Z.of_nat (length (print_header nv))))).
  { unfold ngx_http_parse_header_line. rewrite Hu, scan_app, E. f_equal. f_equal. lia. }
  pose proof Hwf as Hwf'. unfold buf_wf, b_last in Hwf'.
  destruct (parse_ok _ _ _ _ Hwf (header_inv_fresh _ _ _ Hwf' Ha) Hp) as (_ & _ & H3 & H4 & H5 & H6).
  cbn [fst snd b_pos] in *. unfold b_last in H3.
  destruct (make_elt_ok (b_mem b) (b_pos b + Z.of_nat (length (print_header nv)) - 1) h' ltac:(lia) H4 H5 H6 Hi) as (_ & _ & _ & Hlow & Hhash).
  exists h'. split_and!; [done|done|done|].
  assert (Hm : b_mem b = take (Z.to_nat (b_pos b)) (b_mem b) ++ print_header nv ++ rest).
  { rewrite <- Hu. unfold unread. by rewrite take_drop. }
  set (pre := take (Z.to_nat (b_pos b)) (b_mem b)) in Hm.
  assert (Hpre : b_pos b = Z.of_nat (length pre)) by (unfold pre; rewrite length_take; lia).
  assert (Hk : key (make_elt ngx_strlow (b_mem b) h') = nv.1
            /\ value (make_elt ngx_strlow (b_mem b) h') = nv.2).
  { unfold make_elt. cbn [key value]. rewrite Hns, Hne, Hhs, Hhe, Hm, Hpre.
    unfold print_header. destruct nv as [n v]; cbn [fst snd]. split.
    - rewrite <- app_assoc. replace (Z.of_nat (length pre) + Z.of_nat (length n))
        with (Z.of_nat (length pre + length n)) by lia. apply slice_mid.
    - replace (pre ++ (n ++ ":"%c :: " "%c :: v ++ [CR; LF]) ++ rest)
        with ((pre ++ n ++ [":"%c; " "%c]) ++ v ++ [CR; LF] ++ rest)
        by (rewrite <- !app_assoc; cbn [app]; by rewrite <- !app_assoc).
      replace (Z.of_nat (length pre) + Z.of_nat (length n) + 2)
        with (Z.of_nat (length (pre ++ n ++ [":"%c; " "%c]))) by (rewrite !length_app; simpl; lia).
      rewrite <- Nat2Z.inj_add. apply slice_mid. }
  destruct Hk as [Hk1 Hk2]. unfold elt_of.
  destruct (make_elt ngx_strlow (b_mem b) h') as [hh kk vv lk]; cbn [key value lowcase_key hash] in *.
  by subst.
Qed.

(** Printed headers anywhere in a buffer come back, in order. *)
Lemma headers_printed (nvs : list (list Z * list Z)) (rest : list Z) (ignore : bool) pre h :
  Forall (fun nv => valid_name nv.1 /\ valid_value nv.2) nvs -> array_ok h ->
  process_request_headers ngx_hash allow_underscores upstream ngx_strlow
    (S (length nvs)) ignore (sw_start, h)
    (Buf (pre ++ concat (map print_header nvs) ++ [CR; LF] ++ rest) (Z.of_nat (length pre)))
  = (NGX_HTTP_PARSE_HEADER_DONE, map elt_of nvs).
Proof using ngx_strlow_spec.
  intros Hnvs. revert pre h.
  induction Hnvs as [|nv nvs [Hn Hv] _ IH]; intros pre h Ha.
  - cbn [length process_request_headers]. unfold ngx_http_parse_header_line.
    rewrite unread_at_end. done.
  - cbn [length map concat].
    set (b := Buf _ _). remember (S (length nvs)) as n eqn:Hn'. cbn [process_request_headers].
    assert (Hu : unread b = print_header nv ++ concat (map print_header nvs) ++ [CR; LF] ++ rest).
    { unfold b. rewrite unread_at_end. by rewrite <- app_assoc. }
    assert (Hwf : buf_wf b) by (unfold buf_wf, b_last, b; simpl; rewrite length_app; lia).
    destruct (parse_printed nv h b (concat (map print_header nvs) ++ [CR; LF] ++ rest)
      Hn Hv Hwf Ha Hu) as (h' & E & Ha' & Hi & He).
    rewrite E. specialize (IH (pre ++ print_header nv) h' Ha').
    rewrite <- !app_assoc, length_app, Nat2Z.inj_add in IH.
    unfold b in IH |- *. cbn [b_mem b_pos]. rewrite <- app_assoc.
    rewrite IH. cbn [snd]. rewrite Hi. unfold b in He. cbn [b_mem] in He.
    rewrite <- app_assoc in He. by rewrite He.
Qed.

(** C37: A printed header block comes back as exactly its headers, in order,
    each with its lower-cased key and hash, and the block ends with
    [NGX_HTTP_PARSE_HEADER_DONE]. *)
Theorem header_block_roundtrip (nvs : list (list Z * list Z)) (rest : list Z) (ignore : bool) :
  Forall (fun nv => valid_name nv.1 /\ valid_value nv.2) nvs ->
  process_request_headers ngx_hash allow_underscores upstream ngx_strlow
    (S (length nvs)) ignore (sw_start, fresh_header)
    (Buf (concat (map print_header nvs) ++ [CR; LF] ++ rest) 0)
  = (NGX_HTTP_PARSE_HEADER_DONE, map elt_of nvs).
Proof using ngx_strlow_spec.
  intros Hnvs. apply (headers_printed nvs rest ignore [] fresh_header Hnvs). split; [simpl; lia|done].
Qed.
End Block.

(** ** At concrete inputs *)

(** [ngx_hash] of the nginx core, [key * 31 + c] on 64-bit words. *)
Definition hash31 (key c : Z) : Z := wrap 64 (key * 31 + c).

Definition header_buf : ngx_buf := Buf (bytes_of "Host: example.org " ++ [CR; LF]) 0.

Lemma header_line_sound_witness :
  let x := ngx_http_parse_header_line hash31 false false (sw_start, fresh_header) header_buf in
  x.1.1 = NGX_OK /\ elt_ok hash31 (make_elt (map tolower) (b_mem header_buf) x.1.2.2).
Proof.
  split; [by vm_compute|].
  destruct (header_line_sound hash31 false false (map tolower) (fun _ => eq_refl) fresh_header header_buf
    (ngx_http_parse_header_line hash31 false false (sw_start, fresh_header) header_buf).1.2
    (ngx_http_parse_header_line hash31 false false (sw_start, fresh_header) header_buf).2)
    as (_ & _ & _ & _ & H).
  - split; vm_compute; discriminate.
  - split; [split; [discriminate | reflexivity] | reflexivity].
  - vm_compute. reflexivity.
  - apply H. vm_compute. reflexivity.
Defined.

Lemma header_line_segments_witness :
  same_result (H := header_line_parser hash31 false true)
    (ngx_http_parse_header_line hash31 false true (sw_start, fresh_header)
       (received (Buf [] 0) (concat [bytes_of "HTT"; bytes_of "P/1.1 200" ++ [LF]; [CR]; [LF]])))
    (with_tail
       (feed (H := header_line_parser hash31 false true) (sw_start, fresh_header) (Buf [] 0)
          [bytes_of "HTT"; bytes_of "P/1.1 200" ++ [LF]; [CR]; [LF]])
       (unfed (H := header_line_parser hash31 false true) (sw_start, fresh_header) (Buf [] 0)
          [bytes_of "HTT"; bytes_of "P/1.1 200" ++ [LF]; [CR]; [LF]])).
Proof.
  apply header_line_segments; [split; vm_compute; discriminate|].
  split; [split; [discriminate | reflexivity] | reflexivity].
Defined.

Definition sample_headers : list (list Z * list Z) :=
  [(bytes_of "Host", bytes_of "a.b"); (bytes_of "X-Long-Header-Name-Of-More-Than-32-Bytes", [])].

Lemma header_block_roundtrip_witness :
  process_request_headers hash31 false false (map tolower)
    (S (length sample_headers)) true (sw_start, fresh_header)
    (Buf (concat (map print_header sample_headers) ++ [CR; LF] ++ bytes_of "body") 0)
  = (NGX_HTTP_PARSE_HEADER_DONE, map (elt_of hash31) sample_headers).
Proof.
  apply (header_block_roundtrip hash31 false false (map tolower) (fun _ => eq_refl)
    sample_headers (bytes_of "body") true).
  repeat constructor; cbn; repeat (constructor || discriminate || split || (left; discriminate)).
Defined.

(** A name whose first byte is not in the table leaves the hash and the
    index of the line before it in place.  With [ignore_invalid_headers] off,
    a header "@ost" sent after a one-letter header "H" is stored under the
    lower-cased key and the hash of "host". *)
Theorem stale_name_copy :
  process_request_headers hash31 false false (map tolower) 3 false (sw_start, fresh_header)
    (Buf (bytes_of "H: a" ++ [CR; LF] ++ bytes_of "@ost: evil" ++ [CR; LF; CR; LF]) 0)
  = (NGX_HTTP_PARSE_HEADER_DONE,
     [ elt_of hash31 (bytes_of "H", bytes_of "a");
       Elt (hash (elt_of hash31 (bytes_of "host", []))) (bytes_of "@ost") (bytes_of "evil")
         (bytes_of "host") ]).
Proof. by vm_compute. Qed.

End HeaderBlock.
