(* ===== verification/StatusLine.v ===== *)
(** * [ngx_http_parse_status_line]

    The first line of an upstream's response, "HTTP/x.y NNN text CRLF". *)

From S2P Require Import Prelude Scan.

Module StatusLine.

Inductive sw :=
| sw_start | sw_H | sw_HT | sw_HTT | sw_HTTP | sw_first_major_digit | sw_major_digit
| sw_first_minor_digit | sw_minor_digit | sw_status | sw_space_after_status
| sw_status_text | sw_almost_done.

#[export] Instance sw_eq_dec : EqDecision sw.
Proof. solve_decision. Defined.

(** [ngx_http_status_t], and the two fields of the request the parser writes. *)
Record status := Status {
  http_version : Z; code : Z; count : Z; start : option Z; end_ : option Z;
  http_major : Z; http_minor : Z }.

(** As the upstream module resets it before a response. *)
Definition fresh_status : status := Status 0 0 0 None None 0 0.

Definition with_major (v : Z) (s : status) : status :=
  Status (http_version s) (code s) (count s) (start s) (end_ s) (wrap 16 v) (http_minor s).
Definition with_minor (v : Z) (s : status) : status :=
  Status (http_version s) (code s) (count s) (start s) (end_ s) (http_major s) (wrap 16 v).
Definition with_end (v : Z) (s : status) : status :=
  Status (http_version s) (code s) (count s) (start s) (Some v) (http_major s) (http_minor s).

Inductive label := done | ret (rc : ngx_rc).
Definition locals : Type := sw * status.
Abbreviation result := (outcome locals label).
Definition go (st : sw) (s : status) : result := Next (st, s).
Definition error (st : sw) (s : status) : result := Stop (ret NGX_ERROR) (st, s).

(** [sw_start], [sw_H], ...: one byte only. *)
Definition case_expect (c : Z) (st st' : sw) (ch : Z) (s : status) : result :=
  if ch =? c then go st' s else error st s.

Definition case_first_major_digit (ch : Z) (s : status) : result :=
  if (ch <? "1"%c) || ("9"%c <? ch) then error sw_first_major_digit s
  else go sw_major_digit (with_major (ch - "0"%c) s).

Definition case_major_digit (ch : Z) (s : status) : result :=
  if ch =? "."%c then go sw_first_minor_digit s
  else if (ch <? "0"%c) || ("9"%c <? ch) then error sw_major_digit s
  else go sw_major_digit (with_major (http_major s * 10 + ch - "0"%c) s).

Definition case_first_minor_digit (ch : Z) (s : status) : result :=
  if (ch <? "0"%c) || ("9"%c <? ch) then error sw_first_minor_digit s
  else go sw_minor_digit (with_minor (ch - "0"%c) s).

Definition case_minor_digit (ch : Z) (s : status) : result :=
  if ch =? " "%c then go sw_status s
  else if (ch <? "0"%c) || ("9"%c <? ch) then error sw_minor_digit s
  else go sw_minor_digit (with_minor (http_minor s * 10 + ch - "0"%c) s).

(** Spaces may stand before and between the three digits. *)
Definition case_status (p ch : Z) (s : status) : result :=
  if ch =? " "%c then go sw_status s
  else if (ch <? "0"%c) || ("9"%c <? ch) then error sw_status s
  else
    let s := Status (http_version s) (code s * 10 + ch - "0"%c) (count s + 1) (start s) (end_ s)
               (http_major s) (http_minor s) in
    if count s =? 3 then
      go sw_space_after_status
        (Status (http_version s) (code s) (count s) (Some (p - 2)) (end_ s) (http_major s) (http_minor s))
    else go sw_status s.

Definition case_space_after_status (ch : Z) (s : status) : result :=
  if ch =? " "%c then go sw_status_text s
  else if ch =? "."%c then go sw_status_text s
  else if ch =? CR then go sw_almost_done s
  else if ch =? LF then Stop done (sw_space_after_status, s)
  else error sw_space_after_status s.

Definition case_status_text (ch : Z) (s : status) : result :=
  if ch =? CR then go sw_almost_done s
  else if ch =? LF then Stop done (sw_status_text, s)
  else go sw_status_text s.

Definition case_almost_done (p ch : Z) (s : status) : result :=
  let s := with_end (p - 1) s in
  if ch =? LF then Stop done (sw_almost_done, s) else error sw_almost_done s.

Definition step (p ch : Z) (l : locals) : result :=
  let (st, s) := l in
  match st with
  | sw_start => case_expect "H"%c sw_start sw_H ch s
  | sw_H => case_expect "T"%c sw_H sw_HT ch s
  | sw_HT => case_expect "T"%c sw_HT sw_HTT ch s
  | sw_HTT => case_expect "P"%c sw_HTT sw_HTTP ch s
  | sw_HTTP => case_expect "/"%c sw_HTTP sw_first_major_digit ch s
  | sw_first_major_digit => case_first_major_digit ch s
  | sw_major_digit => case_major_digit ch s
  | sw_first_minor_digit => case_first_minor_digit ch s
  | sw_minor_digit => case_minor_digit ch s
  | sw_status => case_status p ch s
  | sw_space_after_status => case_space_after_status ch s
  | sw_status_text => case_status_text ch s
  | sw_almost_done => case_almost_done p ch s
  end.

(** [done:] *)
Definition finish (p : Z) (s : status) : status :=
  let s := match end_ s with None => with_end p s | Some _ => s end in
  Status (http_major s * 1000 + http_minor s) (code s) (count s) (start s) (end_ s)
    (http_major s) (http_minor s).

Definition ngx_http_parse_status_line (l : locals) (b : ngx_buf) : ngx_rc * locals * ngx_buf :=
  match scan step (b_pos b) (unread b) l with
  | (p, l', None) => (NGX_AGAIN, l', Buf (b_mem b) p)
  | (p, (_, s), Some done) => (NGX_OK, (sw_start, finish p s), Buf (b_mem b) (p + 1))
  | (_, (_, s), Some (ret rc)) => (rc, (l.1, s), b)
  end.

(** ** The invariant *)

(** What is known of the code after [count] digits, and of the pointers. *)
Definition status_ok (p : Z) (s : status) : Prop :=
  0 <= count s <= 3 /\ 0 <= code s < 10 ^ count s /\ end_ s = None
  /\ 0 <= http_major s < 65536 /\ 0 <= http_minor s < 65536 /\ 0 <= p.

Definition text_at (p : Z) (s : status) : Prop :=
  count s = 3 /\ ptr (start s) (fun a => a + 2 < p).

Definition inv (pre : list Z) (p : Z) (l : locals) : Prop :=
  let (st, s) := l in
  p = Z.of_nat (length pre) /\ status_ok p s /\
  match st with
  | sw_space_after_status | sw_status_text => text_at p s
  | sw_almost_done => text_at (p - 1) s
  | _ => count s < 3
  end.

Definition done_at (p : Z) (l : label) (s : status) : Prop :=
  match l with
  | done => 0 <= code s <= 999 /\ 0 <= http_major s < 65536 /\ 0 <= http_minor s < 65536
      /\ ptr (start s) (fun a => ptr (end_ (finish p s)) (fun e => a + 2 < e <= p))
  | ret rc => rc = NGX_ERROR
  end.

Lemma wrap16 v : 0 <= wrap 16 v < 65536.
Proof. apply (wrap_range 16). lia. Qed.

Lemma status_ok_next p s : status_ok p s -> status_ok (p + 1) s.
Proof. unfold status_ok. intros. intuition lia. Qed.

Lemma text_at_next p s : text_at p s -> text_at (p + 1) s.
Proof. intros [H1 H2]. split; [done|]. apply (ptr_impl _ _ _ H2). lia. Qed.

(** One more digit of the code. *)
Lemma digit_ok p ch s : status_ok p s -> count s < 3 -> "0"%c <= ch <= "9"%c ->
  status_ok (p + 1) (Status (http_version s) (code s * 10 + ch - "0"%c) (count s + 1) (start s)
    (end_ s) (http_major s) (http_minor s)).
Proof.
  intros (H1 & H2 & H3 & H4 & H5 & H6) Hc Hch. unfold status_ok; cbn [count code end_ http_major http_minor].
  rewrite Z.pow_add_r by lia. change (10 ^ 1) with 10. split_and!; try done; lia.
Qed.

Lemma status_inv_step pre p ch l : inv pre p l ->
  match step p ch l with
  | Next l' => inv (pre ++ [ch]) (p + 1) l'
  | Stop lb l' => done_at p lb l'.2
  end.
Proof.
  destruct l as [st s]. intros (Hp & Hok & Hst). pose proof (length_snoc_Z pre ch p Hp) as Hp1.
  pose proof (status_ok_next p s Hok) as Hok1.
  assert (Hmaj : forall v, status_ok (p + 1) (with_major v s)).
  { intros v. pose proof (wrap16 v). unfold status_ok in *; simpl. intuition lia. }
  assert (Hmin : forall v, status_ok (p + 1) (with_minor v s)).
  { intros v. pose proof (wrap16 v). unfold status_ok in *; simpl. intuition lia. }
  assert (Hcode : count s = 3 -> 0 <= code s <= 999).
  { destruct Hok as (_ & Hc & _). intros E. rewrite E in Hc. change (10 ^ 3) with 1000 in Hc. lia. }
  pose proof Hok as (_ & _ & He & Hma & Hmi & _).
  unfold step, case_expect, case_first_major_digit, case_major_digit, case_first_minor_digit,
    case_minor_digit, case_status, case_space_after_status, case_status_text, case_almost_done, go, error.
  destruct st; split_ifs; b2p; cbn [fst snd];
    try (split_and!; first [done | apply Hmaj | apply Hmin | by apply text_at_next
           | by replace (p + 1 - 1) with p by lia]).
  all: try reflexivity.
  - pose proof (digit_ok p ch s Hok Hst ltac:(lia)) as Hd. split; [done|].
    cbn [count] in *. split; [exact Hd|]. split; [done|]. simpl. lia.
  - pose proof (digit_ok p ch s Hok Hst ltac:(lia)) as Hd. split; [done|].
    split; [exact Hd|]. cbn [count] in *. destruct Hd as (Hd & _). cbn [count] in Hd. lia.
  - destruct Hst as [Hc Hs]. split_and!; try apply Hcode; try lia; try done.
    apply (ptr_impl _ _ _ Hs). intros a Ha. unfold finish. rewrite He. simpl. lia.
  - destruct Hst as [Hc Hs]. split_and!; try apply Hcode; try lia; try done.
    apply (ptr_impl _ _ _ Hs). intros a Ha. unfold finish. rewrite He. simpl. lia.
  - destruct Hst as [Hc Hs]. unfold done_at. simpl. specialize (Hcode Hc). split_and!; try lia.
    apply (ptr_impl _ _ _ Hs). intros a Ha. lia.
Qed.

(** ** Feeding in pieces *)

Definition leave (l0 : locals) (q p : Z) (lb : label) (l' : locals) : ngx_rc * locals * Z :=
  match lb with
  | done => (NGX_OK, (sw_start, finish p l'.2), p + 1)
  | ret rc => (rc, (l0.1, l'.2), q)
  end.

Definition same (rc : ngx_rc) : relation (locals * ngx_buf) :=
  same_unless (bool_decide (rc = NGX_ERROR)).

Lemma status_reached p lb l' : reached (fun _ => step) inv p lb l' -> lb = done \/ lb = ret NGX_ERROR.
Proof.
  intros (mem & pre & ch & l & Hi & E). pose proof (status_inv_step pre p ch l Hi) as H. rewrite E in H.
  destruct lb as [|rc]; [by left|right]. by rewrite H.
Qed.

#[export] Instance status_line_parser : StreamParser locals :=
  scan_parser inv same ngx_http_parse_status_line.

#[export] Instance status_line_parser_laws : StreamParserLaws locals.
Proof.
  apply (scan_parser_laws (fun _ => step) leave).
  - intros mem pre p ch l l' Hi E. pose proof (status_inv_step pre p ch l Hi) as H. by rewrite E in H.
  - done.
  - intros l0 q p lb l' Hr%status_reached. by destruct Hr as [-> | ->].
  - intros l1 q1 l2 q2 m p lb l' Hr%status_reached. by destruct Hr as [-> | ->].
  - intros l b. unfold ngx_http_parse_status_line, scan_parse.
    destruct (scan _ _ _ _) as [[p [st s]] [[]|]]; try done. by destruct b.
Qed.

Lemma status_inv_fresh m p : 0 <= p <= Z.of_nat (length m) -> inv (take (Z.to_nat p) m) p (sw_start, fresh_status).
Proof.
  intros Hp. split; [rewrite length_take; lia|]. split; [|simpl; lia].
  unfold status_ok. simpl. split_and!; try lia; done.
Qed.

(** ** The properties *)

(** An accepted status line, however it arrives, leaves a code of at most
    three digits, a version that fits its 16-bit fields, and [start] and [end]
    inside the bytes consumed. *)
Theorem status_line_sound (b : ngx_buf) l' b' :
  buf_wf b -> ngx_http_parse_status_line (sw_start, fresh_status) b = (NGX_OK, l', b') ->
  l'.1 = sw_start /\ b_mem b' = b_mem b /\ b_pos b < b_pos b' <= b_last b
  /\ 0 <= code l'.2 <= 999
  /\ http_version l'.2 = http_major l'.2 * 1000 + http_minor l'.2
  /\ ptr (start l'.2) (fun a => ptr (end_ l'.2) (fun e => a + 2 < e < b_pos b')).
Proof.
  intros Hwf E. unfold ngx_http_parse_status_line in E. pose proof Hwf as Hwf'.
  unfold buf_wf, b_last in Hwf'.
  pose proof (scan_invariant step inv (fun _ p _ lb l' => done_at p lb l'.2) ltac:(intros; by apply status_inv_step)
    (unread b) _ _ _ (status_inv_fresh _ _ Hwf')) as H.
  destruct (scan _ _ _ _) as [[p [st s]] [[|rc]|]] eqn:Es; try done.
  2: { destruct H as (_ & _ & _ & _ & _ & H). rewrite H in E. done. }
  injection E as <- <-. apply scan_some_pos in Es. rewrite length_unread in Es by done.
  destruct H as (mid & ch & post & _ & _ & Hc & Hma & Hmi & Hp). cbn [fst snd b_mem b_pos] in *.
  assert (Hf : code (finish p s) = code s /\ start (finish p s) = start s
    /\ http_version (finish p s) = http_major (finish p s) * 1000 + http_minor (finish p s))
    by (unfold finish; by destruct (end_ s)).
  destruct Hf as (-> & -> & Hv). split_and!; try done; try lia.
  apply (ptr_impl _ _ _ Hp). intros a Ha. apply (ptr_impl _ _ _ Ha). lia.
Qed.

Definition status_buf : ngx_buf := Buf (bytes_of "HTTP/1.1 404 Not Found" ++ [CR; LF]) 0.

Lemma status_line_sound_witness :
  let x := ngx_http_parse_status_line (sw_start, fresh_status) status_buf in
  x = (NGX_OK, (sw_start, Status 1001 404 3 (Some 9) (Some 22) 1 1), Buf (b_mem status_buf) 24)
  /\ 0 <= code x.1.2.2 <= 999.
Proof.
  split; [by vm_compute|].
  destruct (status_line_sound status_buf
    (ngx_http_parse_status_line (sw_start, fresh_status) status_buf).1.2
    (ngx_http_parse_status_line (sw_start, fresh_status) status_buf).2) as (_ & _ & _ & H & _).
  - split; vm_compute; discriminate.
  - vm_compute. reflexivity.
  - exact H.
Defined.

(** A status line cut into segments in any way parses like the whole. *)
Theorem status_line_segments (b : ngx_buf) segs :
  buf_wf b ->
  same_result (ngx_http_parse_status_line (sw_start, fresh_status) (received b (concat segs)))
    (with_tail (feed (sw_start, fresh_status) b segs) (unfed (sw_start, fresh_status) b segs)).
Proof.
  intros Hwf. refine (feed_one_shot (St := locals) (sw_start, fresh_status) b segs _).
  split; [done|]. unfold buf_wf, b_last in Hwf. by apply status_inv_fresh.
Qed.

Lemma status_line_segments_witness :
  same_result
    (ngx_http_parse_status_line (sw_start, fresh_status)
       (received (Buf [] 0) (concat [bytes_of "HTTP/1."; bytes_of "0 2"; bytes_of "00" ++ [LF]])))
    (with_tail
       (feed (sw_start, fresh_status) (Buf [] 0) [bytes_of "HTTP/1."; bytes_of "0 2"; bytes_of "00" ++ [LF]])
       (unfed (sw_start, fresh_status) (Buf [] 0) [bytes_of "HTTP/1."; bytes_of "0 2"; bytes_of "00" ++ [LF]])).
Proof. apply status_line_segments. split; vm_compute; discriminate. Defined.

(** ** Printed lines *)

Definition digit (d : Z) : Prop := 48 <= d <= 57.
Definition text_byte (c : Z) : Prop := c <> CR /\ c <> LF.

Lemma scan_text p t s : Forall text_byte t ->
  scan step p t (sw_status_text, s) = (p + Z.of_nat (length t), (sw_status_text, s), None).
Proof.
  intros Ht. revert p. induction Ht as [|c t [H1 H2] _ IH]; intros p; cbn [scan]; [by rewrite Z.add_0_r|].
  unfold step at 1, case_status_text. rewrite !(proj2 (Z.eqb_neq c _)) by done. cbn [go]. rewrite IH. f_equal. f_equal. cbn [length]. lia.
Qed.

Lemma scan_digit p d s : digit d -> count s < 2 ->
  step p d (sw_status, s) = go sw_status (Status (http_version s) (code s * 10 + d - 48) (count s + 1) (start s) (end_ s)
     (http_major s) (http_minor s)).
Proof.
  unfold digit. intros Hd Hc. unfold step, case_status. rewrite (proj2 (Z.eqb_neq d _)) by lia.
  replace ((d <? "0"%c) || ("9"%c <? d)) with false by (symmetry; apply orb_false_iff; lia). cbn [count].
  by rewrite (proj2 (Z.eqb_neq _ _)) by lia.
Qed.

Lemma parse_printed_status d1 d2 d3 text rest : digit d1 -> digit d2 -> digit d3 ->
  (text = [] \/ exists t, text = " "%c :: t /\ Forall text_byte t) ->
  let first := bytes_of "HTTP/1.1 " ++ d1 :: d2 :: d3 :: text ++ [CR; LF] in
  exists s, ngx_http_parse_status_line (sw_start, fresh_status) (Buf (first ++ rest) 0)
      = (NGX_OK, (sw_start, s), Buf (first ++ rest) (Z.of_nat (length first)))
    /\ code s = (d1 - 48) * 100 + (d2 - 48) * 10 + (d3 - 48) /\ http_version s = 1001.
Proof.
  intros H1 H2 H3 Ht first. unfold ngx_http_parse_status_line.
  assert (E : exists p e, scan step 0 (first ++ rest) (sw_start, fresh_status)
      = (p, (sw_almost_done, Status 0 ((d1 - 48) * 100 + (d2 - 48) * 10 + (d3 - 48)) 3 (Some 9) (Some e) 1 1), Some done)
    /\ p + 1 = Z.of_nat (length first)).
  { unfold first. rewrite <- app_assoc, scan_app.
    change (scan step 0 (bytes_of "HTTP/1.1 ") (sw_start, fresh_status)) with (9, (sw_status, Status 0 0 0 None None 1 1), @None label).
    cbn [app scan]. rewrite scan_digit by (done || cbn; lia). cbn [go http_version code count start end_ http_major http_minor].
    rewrite scan_digit by (done || cbn; lia). cbn [go http_version code count start end_ http_major http_minor].
    unfold step at 1, case_status. unfold digit in *. rewrite (proj2 (Z.eqb_neq d3 _)) by lia.
    replace ((d3 <? "0"%c) || ("9"%c <? d3)) with false by (symmetry; apply orb_false_iff; lia).
    cbn [go http_version code count start end_ http_major http_minor].
    change (0 + 1 + 1 + 1 =? 3) with true. cbn [go]. change (9 + 1 + 1 + 1) with 12. change (9 + 1 + 1 - 2) with 9.
    replace (((0 * 10 + d1 - 48) * 10 + d2 - 48) * 10 + d3 - "0"%c) with ((d1 - 48) * 100 + (d2 - 48) * 10 + (d3 - 48)) by lia.
    destruct Ht as [->|(t & -> & Ht)].
    - exists 13, 12. split; [reflexivity|]. done.
    - cbn [app scan]. change (step 12 " "%c (sw_space_after_status, ?s)) with (go sw_status_text s). cbn [go].
      rewrite <- app_assoc, scan_app, scan_text by done.
      eexists _, _. split; [reflexivity|]. rewrite !length_app. cbn [length]. rewrite length_app. cbn. lia. }
  destruct E as (p & e & E & Hp). unfold unread. cbn [b_mem b_pos]. change (drop (Z.to_nat 0) ?x) with x.
  rewrite E, Hp. eexists. split; [reflexivity|]. unfold finish. cbn. split; [lia|done].
Qed.

End StatusLine.
