(* ===== verification/Chunked.v ===== *)
(** * [ngx_http_parse_chunked] and the filters that drive it

    The chunked transfer coding: the parser of [ngx_http_parse.c], and from
    [ngx_http_request_body.c] the loop of the chunked body filter over one
    buffer, the discarding filter and the content-length filter.  [off_t] is a
    64-bit two's complement integer, [size] and [length] wrap. *)

From S2P Require Import Prelude Scan.

Module Chunked.

Inductive sw :=
| sw_chunk_start | sw_chunk_size | sw_chunk_extension | sw_chunk_extension_almost_done
| sw_chunk_data | sw_after_data | sw_after_data_almost_done | sw_last_chunk_extension
| sw_last_chunk_extension_almost_done | sw_trailer | sw_trailer_almost_done
| sw_trailer_header | sw_trailer_header_almost_done.

#[export] Instance sw_eq_dec : EqDecision sw.
Proof. solve_decision. Defined.

Definition off_t (z : Z) : Z := swrap 64 z.

(** [ngx_http_chunked_t] *)
Record chunked := Ctx { c_state : sw; c_size : Z; c_length : Z }.

Definition fresh_ctx : chunked := Ctx sw_chunk_start 0 0.

(** [goto data], [goto done], [goto invalid] *)
Inductive label := data | done | invalid.
Definition locals : Type := sw * Z.
Abbreviation result := (outcome locals label).
Definition go (st : sw) (size : Z) : result := Next (st, size).
Definition bad (st : sw) (size : Z) : result := Stop invalid (st, size).

Definition is_hex_letter (c : Z) : bool := ("a"%c <=? c) && (c <=? "f"%c).
Definition is_extension (ch : Z) : bool := (ch =? ";"%c) || (ch =? " "%c) || (ch =? TAB).

Definition case_chunk_start (ch size : Z) : result :=
  if is_digit ch then go sw_chunk_size (ch - "0"%c)
  else if is_hex_letter (lc ch) then go sw_chunk_size (lc ch - "a"%c + 10)
  else bad sw_chunk_start size.

Definition case_chunk_size (ch size : Z) : result :=
  if is_digit ch then go sw_chunk_size (off_t (size * 16 + (ch - "0"%c)))
  else if is_hex_letter (lc ch) then go sw_chunk_size (off_t (size * 16 + (lc ch - "a"%c + 10)))
  else if size =? 0 then
    if ch =? CR then go sw_last_chunk_extension_almost_done size
    else if ch =? LF then go sw_trailer size
    else if is_extension ch then go sw_last_chunk_extension size
    else bad sw_chunk_size size
  else
    if ch =? CR then go sw_chunk_extension_almost_done size
    else if ch =? LF then go sw_chunk_data size
    else if is_extension ch then go sw_chunk_extension size
    else bad sw_chunk_size size.

(** A state that ends at CR or LF and skips every other byte:
    [sw_chunk_extension], [sw_after_data], [sw_last_chunk_extension],
    [sw_trailer_header]. *)
Definition case_skip (st on_cr on_lf : sw) (ch size : Z) : result :=
  if ch =? CR then go on_cr size
  else if ch =? LF then go on_lf size
  else go st size.

(** A state after CR. *)
Definition case_lf (st on_lf : sw) (ch size : Z) : result :=
  if ch =? LF then go on_lf size else bad st size.

Definition case_trailer (ch size : Z) : result :=
  if ch =? CR then go sw_trailer_almost_done size
  else if ch =? LF then Stop done (sw_trailer, size)
  else go sw_trailer_header size.

Definition case_trailer_almost_done (ch size : Z) : result :=
  if ch =? LF then Stop done (sw_trailer_almost_done, size) else bad sw_trailer_almost_done size.

Definition step (ch : Z) (s : locals) : result :=
  let (st, size) := s in
  match st with
  | sw_chunk_start => case_chunk_start ch size
  | sw_chunk_size => case_chunk_size ch size
  | sw_chunk_extension => case_skip sw_chunk_extension sw_chunk_extension_almost_done sw_chunk_data ch size
  | sw_chunk_extension_almost_done => case_lf sw_chunk_extension_almost_done sw_chunk_data ch size
  | sw_chunk_data => Stop data (sw_chunk_data, size)
  | sw_after_data => case_skip sw_after_data sw_after_data_almost_done sw_chunk_start ch size
  | sw_after_data_almost_done => case_lf sw_after_data_almost_done sw_chunk_start ch size
  | sw_last_chunk_extension =>
      case_skip sw_last_chunk_extension sw_last_chunk_extension_almost_done sw_trailer ch size
  | sw_last_chunk_extension_almost_done => case_lf sw_last_chunk_extension_almost_done sw_trailer ch size
  | sw_trailer => case_trailer ch size
  | sw_trailer_almost_done => case_trailer_almost_done ch size
  | sw_trailer_header => case_skip sw_trailer_header sw_trailer_header_almost_done sw_trailer ch size
  | sw_trailer_header_almost_done => case_lf sw_trailer_header_almost_done sw_trailer ch size
  end.

(** The [switch] at [data:]: the least number of bytes still to come. *)
Definition min_length (st : sw) (size : Z) : Z :=
  match st with
  | sw_chunk_start => 3
  | sw_chunk_size => 1 + (if size =? 0 then 1 else size + 4)
  | sw_chunk_extension | sw_chunk_extension_almost_done => 1 + size + 4
  | sw_chunk_data => size + 4
  | sw_after_data | sw_after_data_almost_done => 4
  | sw_last_chunk_extension | sw_last_chunk_extension_almost_done => 2
  | sw_trailer | sw_trailer_almost_done => 1
  | sw_trailer_header | sw_trailer_header_almost_done => 2
  end.

(** [if (state == sw_chunk_data && ctx->size == 0)] *)
Definition enter (st : sw) (size : Z) : sw :=
  if bool_decide (st = sw_chunk_data) && (size =? 0) then sw_after_data else st.

(** From [data:] to the [return]. *)
Definition leave (rc : ngx_rc) (st : sw) (size : Z) : ngx_rc * chunked :=
  let len := off_t (min_length st size) in
  let ctx := Ctx st size len in
  if (size <? 0) || (len <? 0) then (NGX_ERROR, ctx) else (rc, ctx).

Definition ngx_http_parse_chunked (ctx : chunked) (b : ngx_buf) : ngx_rc * chunked * ngx_buf :=
  match scan (fun _ => step) (b_pos b) (unread b) (enter (c_state ctx) (c_size ctx), c_size ctx) with
  | (p, (st, size), None) => (leave NGX_AGAIN st size, Buf (b_mem b) p)
  | (p, (st, size), Some data) => (leave NGX_OK st size, Buf (b_mem b) p)
  | (p, (_, size), Some done) =>
      (NGX_DONE, Ctx sw_chunk_start size (c_length ctx), Buf (b_mem b) (p + 1))
  | (_, (_, size), Some invalid) => (NGX_ERROR, Ctx (c_state ctx) size (c_length ctx), b)
  end.

(** ** The filters of [ngx_http_request_body.c] *)

(** How a filter leaves its loop over a buffer. *)
Inductive filtered :=
| More (rest : Z)        (** [NGX_AGAIN]: [rb->rest] bytes are wanted *)
| Last                   (** [NGX_DONE]: the body is complete *)
| Too_large              (** 413 *)
| Bad_request            (** 400 *)
| Unfinished.            (** the fuel ran out *)

(** [ngx_http_request_body_chunked_filter], the [for ( ;; )] over one buffer:
    the data passed on, the parser's state, [content_length_n], the buffer. *)
Fixpoint chunked_filter (fuel : nat) (client_max_body_size : Z) (ctx : chunked)
    (content_length_n : Z) (b : ngx_buf) : filtered * list Z * chunked * Z * ngx_buf :=
  match fuel with
  | O => (Unfinished, [], ctx, content_length_n, b)
  | S fuel' =>
      match ngx_http_parse_chunked ctx b with
      | (NGX_OK, ctx', b') =>
          if negb (client_max_body_size =? 0)
             && (client_max_body_size <? off_t (content_length_n + c_size ctx'))
          then (Too_large, [], ctx', content_length_n, b')
          else
            let size := b_last b' - b_pos b' in
            let '(n, remaining) := if size >? c_size ctx' then (c_size ctx', 0)
                              else (size, c_size ctx' - size) in
            let '(v, out, ctx'', cl, b'') :=
              chunked_filter fuel' client_max_body_size (Ctx (c_state ctx') remaining (c_length ctx'))
                (off_t (content_length_n + n)) (Buf (b_mem b') (b_pos b' + n)) in
            (v, slice (b_mem b') (b_pos b') (b_pos b' + n) ++ out, ctx'', cl, b'')
      | (NGX_DONE, ctx', b') => (Last, [], ctx', content_length_n, b')
      | (NGX_AGAIN, ctx', b') => (More (c_length ctx'), [], ctx', content_length_n, b')
      | (_, ctx', b') => (Bad_request, [], ctx', content_length_n, b')
      end
  end.

(** [ngx_http_discard_request_body_filter], chunked: the same loop without
    the limit and with nothing kept. *)
Fixpoint discard_chunked (fuel : nat) (ctx : chunked) (b : ngx_buf) : filtered * chunked * ngx_buf :=
  match fuel with
  | O => (Unfinished, ctx, b)
  | S fuel' =>
      match ngx_http_parse_chunked ctx b with
      | (NGX_OK, ctx', b') =>
          let size := b_last b' - b_pos b' in
          if size >? c_size ctx'
          then discard_chunked fuel' (Ctx (c_state ctx') 0 (c_length ctx'))
                 (Buf (b_mem b') (b_pos b' + c_size ctx'))
          else discard_chunked fuel' (Ctx (c_state ctx') (c_size ctx' - size) (c_length ctx'))
                 (Buf (b_mem b') (b_last b'))
      | (NGX_DONE, ctx', b') => (Last, ctx', b')
      | (NGX_AGAIN, ctx', b') => (More (c_length ctx'), ctx', b')
      | (_, ctx', b') => (Bad_request, ctx', b')
      end
  end.

(** Its other branch: a body of [content_length_n] bytes. *)
Definition discard_length (content_length_n : Z) (b : ngx_buf) : Z * ngx_buf :=
  let size := b_last b - b_pos b in
  if size >? content_length_n then (0, Buf (b_mem b) (b_pos b + content_length_n))
  else (content_length_n - size, Buf (b_mem b) (b_last b)).

(** [ngx_http_request_body_length_filter] on a chain of buffers: the data
    passed on with the [last_buf] flags, [rb->rest], the buffers' positions. *)
Definition length_filter_buf (rest : Z) (b : ngx_buf) : list Z * bool * Z * ngx_buf :=
  let size := b_last b - b_pos b in
  if size <? rest then (slice (b_mem b) (b_pos b) (b_last b), false, rest - size, Buf (b_mem b) (b_last b))
  else (slice (b_mem b) (b_pos b) (b_pos b + rest), true, 0, Buf (b_mem b) (b_pos b + rest)).

Fixpoint length_filter (rest : Z) (ins : list ngx_buf) : list (list Z * bool) * Z * list ngx_buf :=
  match ins with
  | [] => ([], rest, [])
  | b :: ins' =>
      let '(d, last_buf, rest', b') := length_filter_buf rest b in
      let '(out, r, bs) := length_filter rest' ins' in ((d, last_buf) :: out, r, b' :: bs)
  end.

End Chunked.
