(* ===== verification/ChunkedProps.v ===== *)
(** * The chunked coding, byte by byte

    [body_step] is the coding as a machine that takes one byte at a time and
    emits the data bytes; the filter's loop over a buffer is shown to be that
    machine, so the cut of the input into buffers does not matter.  Sizes are
    assumed below 2^59 here; what happens above is shown at the end. *)

From S2P Require Import Prelude Scan Chunked.

Module ChunkedProps.
Import Chunked.

(** ** The machine *)

Inductive verdict := In_body (st : sw) (size : Z) | Complete | Malformed.

Definition body_step (ch : Z) (st : sw) (size : Z) : verdict * list Z :=
  let st := enter st size in
  match st with
  | sw_chunk_data => (In_body sw_chunk_data (size - 1), [ch])
  | _ => match step ch (st, size) with
         | Next (st', size') => (In_body st' size', [])
         | Stop done _ => (Complete, [])
         | Stop _ _ => (Malformed, [])
         end
  end.

(** The verdict, the data, and the bytes left over. *)
Fixpoint body_run (bs : list Z) (st : sw) (size : Z) : verdict * list Z * list Z :=
  match bs with
  | [] => (In_body st size, [], [])
  | ch :: bs' =>
      match body_step ch st size with
      | (In_body st' size', d) => let '(v, out, rest) := body_run bs' st' size' in (v, d ++ out, rest)
      | (v, d) => (v, d, bs')
      end
  end.

Definition small (size : Z) : Prop := 0 <= size < 2 ^ 59.

(** No size on the way exceeds the bound. *)
Fixpoint fits (bs : list Z) (st : sw) (size : Z) : Prop :=
  small size /\
  match bs with
  | [] => True
  | ch :: bs' =>
      match body_step ch st size with
      | (In_body st' size', _) => fits bs' st' size'
      | _ => True
      end
  end.

Lemma body_run_app bs1 bs2 st size :
  body_run (bs1 ++ bs2) st size =
    match body_run bs1 st size with
    | (In_body st' size', out1, _) =>
        let '(v, out2, rest) := body_run bs2 st' size' in (v, out1 ++ out2, rest)
    | (v, out, rest) => (v, out, rest ++ bs2)
    end.
Proof.
  revert st size; induction bs1 as [|ch bs1 IH]; intros st size; cbn [app body_run].
  - by destruct (body_run bs2 st size) as [[v out] rest].
  - destruct (body_step ch st size) as [[st' size'| |] d]; [|done|done].
    rewrite IH. destruct (body_run bs1 st' size') as [[[st2 size2| |] out] rest]; try done.
    destruct (body_run bs2 st2 size2) as [[v out2] rest2]. by rewrite app_assoc.
Qed.

Lemma fits_app_inv bs1 bs2 st size : fits (bs1 ++ bs2) st size -> fits bs1 st size /\
  match body_run bs1 st size with
  | (In_body st' size', _, _) => fits bs2 st' size'
  | _ => True
  end.
Proof.
  revert st size; induction bs1 as [|ch bs1 IH]; intros st size; cbn [app body_run fits].
  - intros Hf. split; [|done]. split; [|done]. destruct bs2; apply Hf.
  - intros [Hs Hf]. destruct (body_step ch st size) as [[st' size'| |] d]; [|done|done].
    destruct (IH st' size' Hf) as [H1 H2]. split; [done|]. by destruct (body_run bs1 st' size') as [[[] ?] ?].
Qed.

(** ** The least number of bytes to come *)

Definition need (st : sw) (size : Z) : Z := min_length (enter st size) size.

Lemma enter_eq st size :
  enter st size = match st with
                  | sw_chunk_data => if size =? 0 then sw_after_data else sw_chunk_data
                  | _ => st
                  end.
Proof. by destruct st. Qed.

Lemma enter_id st size : st <> sw_chunk_data \/ size <> 0 -> enter st size = st.
Proof.
  unfold enter. intros [H|H]; [by rewrite bool_decide_eq_false_2|].
  rewrite (proj2 (Z.eqb_neq _ _)) by done. by rewrite andb_false_r.
Qed.

Lemma off_t_small z : - 2 ^ 63 <= z < 2 ^ 63 -> off_t z = z.
Proof. intros H. apply swrap_small; [lia|]. exact H. Qed.

Lemma hex_letter_range ch : is_hex_letter (lc ch) = true -> 10 <= lc ch - "a"%c + 10 <= 15.
Proof. unfold is_hex_letter. intros H. b2p. lia. Qed.

Lemma digit_range ch : is_digit ch = true -> 0 <= ch - "0"%c <= 9.
Proof. unfold is_digit. intros H. b2p. lia. Qed.

Lemma small_times size d : small size -> 0 <= d <= 15 -> off_t (size * 16 + d) = size * 16 + d.
Proof.
  unfold small. intros H Hd. apply off_t_small. change (2 ^ 63) with (16 * 2 ^ 59). lia.
Qed.

(** One byte lowers the need by one at most. *)
Lemma need_step ch st size : small size ->
  match body_step ch st size with
  | (In_body st' size', _) => need st size <= 1 + need st' size'
  | (Complete, _) => need st size <= 1
  | (Malformed, _) => True
  end.
Proof.
  intros Hs. unfold need, body_step.
  assert (He : enter st size <> sw_chunk_data \/ size <> 0).
  { unfold enter. destruct (bool_decide_reflect (st = sw_chunk_data)); destruct (Z.eqb_spec size 0);
      simpl; try (by right); left; congruence. }
  revert He. generalize (enter st size) as st0. intros st0 He.
  assert (Hd : forall d, 0 <= d <= 15 -> small size -> off_t (size * 16 + d) = size * 16 + d)
    by (intros; by apply small_times).
  destruct st0; unfold step, case_chunk_start, case_chunk_size, case_skip, case_lf, case_trailer,
    case_trailer_almost_done, go, bad; split_ifs; b2p; try done;
    repeat match goal with
    | H : is_digit _ = true |- _ => apply digit_range in H
    | H : is_hex_letter _ = true |- _ => apply hex_letter_range in H
    end;
    rewrite ?Hd by (done || lia); rewrite enter_eq; unfold small in Hs; cbn [min_length];
    split_ifs; b2p; cbn [min_length]; lia.
Qed.

Lemma need_min st size : need st size = min_length st size.
Proof. unfold need. rewrite enter_eq. destruct st; try done. by destruct (Z.eqb_spec size 0) as [->|]. Qed.

Lemma need_run bs : forall st size, fits bs st size ->
  match body_run bs st size with
  | (Complete, _, rest) => need st size + Z.of_nat (length rest) <= Z.of_nat (length bs)
  | _ => True
  end.
Proof.
  induction bs as [|ch bs IH]; intros st size [Hs Hf]; cbn [body_run]; [done|].
  pose proof (need_step ch st size Hs) as Hn.
  destruct (body_step ch st size) as [[st' size'| |] d]; [|simpl; lia|done].
  specialize (IH st' size' Hf). destruct (body_run bs st' size') as [[[] out] rest]; try done.
  simpl. lia.
Qed.

(** ** The parser inside the machine *)

(** States the parser can be in. *)
Definition good (st : sw) (size : Z) : Prop :=
  match st with
  | sw_chunk_extension | sw_chunk_extension_almost_done | sw_chunk_data => 0 < size
  | _ => True
  end.

Lemma body_step_parser ch st size : st <> sw_chunk_data ->
  body_step ch st size =
    match step ch (st, size) with
    | Next (st', size') => (In_body st' size', [])
    | Stop done _ => (Complete, [])
    | Stop _ _ => (Malformed, [])
    end.
Proof. intros H. unfold body_step. rewrite enter_id by (by left). by destruct st. Qed.

Lemma body_step_data ch size : 0 < size ->
  body_step ch sw_chunk_data size = (In_body sw_chunk_data (size - 1), [ch]).
Proof. intros H. unfold body_step. rewrite enter_id by (right; lia). done. Qed.

Lemma step_good ch st size st' size' : 0 <= size -> good st size -> st <> sw_chunk_data ->
  step ch (st, size) = Next (st', size') -> good st' size'.
Proof.
  intros Hs Hg Hd. destruct st; unfold step, case_chunk_start, case_chunk_size, case_skip, case_lf,
    case_trailer, case_trailer_almost_done, go, bad; split_ifs; intros [= <- <-]; b2p; simpl in *;
    done || lia.
Qed.

Lemma step_no_data ch st size s' : st <> sw_chunk_data -> step ch (st, size) <> Stop data s'.
Proof.
  intros Hd. by destruct st; unfold step, case_chunk_start, case_chunk_size, case_skip, case_lf,
    case_trailer, case_trailer_almost_done, go, bad; split_ifs.
Qed.

Lemma scan_body bs : forall p st size, good st size -> fits bs st size ->
  match scan (fun _ => step) p bs (st, size) with
  | (p', (st', size'), None) =>
      body_run bs st size = (In_body st' size', [], []) /\ good st' size' /\ small size'
  | (p', (st', size'), Some data) =>
      st' = sw_chunk_data /\ good st' size' /\
      exists pre post, bs = pre ++ post /\ post <> [] /\ p' = p + Z.of_nat (length pre)
        /\ body_run bs st size = body_run post sw_chunk_data size' /\ fits post sw_chunk_data size'
  | (p', _, Some done) =>
      exists used rest, bs = used ++ rest /\ body_run bs st size = (Complete, [], rest)
        /\ p' + 1 = p + Z.of_nat (length used)
  | (_, _, Some invalid) => exists rest, body_run bs st size = (Malformed, [], rest)
  end.
Proof.
  induction bs as [|ch bs IH]; intros p st size Hg Hf; cbn [scan].
  - split; [done|]. split; [done|]. apply Hf.
  - destruct (decide (st = sw_chunk_data)) as [->|Hd].
    + cbn [step]. split; [done|]. split; [done|]. exists [], (ch :: bs). split_and!; try done. simpl; lia.
    + cbn [body_run fits] in *. destruct Hf as [Hs Hf]. rewrite body_step_parser in * by done.
      destruct (step ch (st, size)) as [[st1 size1]|l [st1 size1]] eqn:E.
      * pose proof (step_good ch st size st1 size1 ltac:(apply Hs) Hg Hd E) as Hg1.
        specialize (IH (p + 1) st1 size1 Hg1 Hf). cbn [app].
        destruct (scan (fun _ => step) (p + 1) bs (st1, size1)) as [[p' [st' size']] [[]|]].
        -- destruct IH as (-> & Hg' & pre & post & -> & Hne & -> & Hr & Hf').
           split; [done|]. split; [done|]. exists (ch :: pre), post.
           rewrite Hr. split_and!; try done; [simpl; lia|].
           by destruct (body_run post sw_chunk_data size') as [[? ?] ?].
        -- destruct IH as (used & rest & Hu & Hr & Hp). exists (ch :: used), rest. rewrite Hr, Hu.
           split_and!; [done|done|simpl; lia].
        -- destruct IH as (rest & Hr). exists rest. by rewrite Hr.
        -- destruct IH as (Hr & Hg' & Hs'). by rewrite Hr.
      * destruct l; [by apply step_no_data in E|exists [ch], bs; split_and!; [done|done|simpl; lia]|by eexists].
Qed.

(** A stretch of data. *)
Lemma data_run n : forall bs size, (n <= length bs)%nat -> Z.of_nat n <= size -> fits bs sw_chunk_data size ->
  body_run bs sw_chunk_data size =
    (let '(v, out, rest) := body_run (drop n bs) sw_chunk_data (size - Z.of_nat n) in
     (v, take n bs ++ out, rest))
  /\ fits (drop n bs) sw_chunk_data (size - Z.of_nat n).
Proof.
  induction n as [|n IH]; intros bs size Hn Hs Hf.
  - rewrite drop_0, Z.sub_0_r. simpl. by destruct (body_run bs sw_chunk_data size) as [[? ?] ?].
  - destruct bs as [|ch bs]; [simpl in Hn; lia|]. cbn [body_run fits drop take] in *.
    rewrite body_step_data in * by lia. destruct Hf as [Hsm Hf].
    destruct (IH bs (size - 1) ltac:(simpl in Hn; lia) ltac:(lia) Hf) as [-> Hf'].
    replace (size - 1 - Z.of_nat n) with (size - Z.of_nat (S n)) in * by lia. split; [|done].
    by destruct (body_run (drop n bs) sw_chunk_data (size - Z.of_nat (S n))) as [[? ?] ?].
Qed.
(** ** The filter is the machine *)

Lemma enter_good st size : good (enter st size) size -> enter (enter st size) size = enter st size.
Proof. intros H. apply enter_id. rewrite enter_eq in *. destruct st; try by left. destruct (size =? 0); [by left|right]. simpl in H. lia. Qed.

Lemma good_enter st size : good st size -> enter st size = st.
Proof. intros H. apply enter_id. destruct st; try by left. right. simpl in H. lia. Qed.

Lemma body_step_enter ch st size : good (enter st size) size ->
  body_step ch (enter st size) size = body_step ch st size.
Proof. intros H. unfold body_step. by rewrite enter_good. Qed.

Lemma fits_enter bs st size : good (enter st size) size -> fits bs st size -> fits bs (enter st size) size.
Proof. destruct bs as [|ch bs]; simpl; [done|]. intros Hg [Hs Hf]. by rewrite body_step_enter. Qed.

Lemma body_run_enter ch bs st size : good (enter st size) size ->
  body_run (ch :: bs) (enter st size) size = body_run (ch :: bs) st size.
Proof. intros Hg. cbn [body_run]. by rewrite body_step_enter. Qed.

Lemma leave_small rc st size : small size ->
  leave rc st size = (rc, Ctx st size (min_length st size)).
Proof.
  unfold small, leave. intros Hs.
  assert (Hm : 0 <= min_length st size < 2 ^ 63).
  { change (2 ^ 63) with (16 * 2 ^ 59). change (2 ^ 59) with 576460752303423488 in *.
    destruct st; simpl; try destruct (size =? 0); lia. }
  rewrite off_t_small by lia. rewrite !(proj2 (Z.ltb_ge _ _)) by lia. done.
Qed.

Lemma off_t_add a b : off_t (off_t a + b) = off_t (a + b).
Proof.
  unfold off_t, swrap. f_equal. replace (64 - 1) with 63 by lia.
  replace ((a + 2 ^ 63) mod 2 ^ 64 - 2 ^ 63 + b + 2 ^ 63) with ((a + 2 ^ 63) mod 2 ^ 64 + b) by lia.
  rewrite Zplus_mod_idemp_l. f_equal. lia.
Qed.

Lemma off_t_idem a : off_t (off_t a) = off_t a.
Proof. pose proof (off_t_add a 0) as H. by rewrite !Z.add_0_r in H. Qed.

(** What one call of the parser does to the machine. *)
Lemma parse_turn ctx b : buf_wf b -> good (enter (c_state ctx) (c_size ctx)) (c_size ctx) -> fits (unread b) (c_state ctx) (c_size ctx) ->
  let m := body_run (unread b) (c_state ctx) (c_size ctx) in
  match ngx_http_parse_chunked ctx b with
  | (NGX_OK, ctx', b') => exists size pre post, ctx' = Ctx sw_chunk_data size (min_length sw_chunk_data size)
      /\ unread b = pre ++ post /\ post <> [] /\ b' = Buf (b_mem b) (b_pos b + Z.of_nat (length pre))
      /\ 0 < size /\ m = body_run post sw_chunk_data size /\ fits post sw_chunk_data size
  | (NGX_DONE, ctx', b') => m = (Complete, [], unread b') /\ b_mem b' = b_mem b /\ buf_wf b'
  | (NGX_AGAIN, ctx', b') => exists st size, ctx' = Ctx (enter st size) size (min_length st size)
      /\ good (enter st size) size /\ b' = Buf (b_mem b) (b_last b) /\ m = (In_body st size, [], [])
  | (_, _, b') => b_mem b' = b_mem b /\ exists rest, m = (Malformed, [], rest)
  end.
Proof.
  destruct ctx as [st size len]. cbn [c_state c_size]. intros Hwf Hg Hf. pose proof (length_unread b Hwf) as Hlen.
  pose proof (scan_body (unread b) (b_pos b) _ _ Hg (fits_enter _ _ _ Hg Hf)) as Hs.
  assert (Hr : unread b <> [] -> body_run (unread b) (enter st size) size = body_run (unread b) st size).
  { destruct (unread b); [done|]. intros _. by apply body_run_enter. }
  unfold ngx_http_parse_chunked; cbn [c_state c_size c_length]. remember (unread b) as bs eqn:Hbs.
  destruct (scan (fun _ => step) (b_pos b) bs (enter st size, size)) as [[p' [st' size']] [[]|]] eqn:Es.
  - destruct Hs as (-> & Hg' & pre & post & Hpp & Hne & -> & Hrun & Hf').
    assert (Hs' : small size') by (destruct post; [done | apply Hf']). rewrite leave_small by done.
    exists size', pre, post. rewrite <- Hr, Hrun by (rewrite Hpp; by destruct pre). by split_and!.
  - destruct Hs as (used & rest & Hu & Hrun & Hp). assert (Hne : bs <> []) by by intros ->. rewrite <- Hr, Hrun by done.
    assert (Hrest : unread (Buf (b_mem b) (p' + 1)) = rest).
    { unfold unread in *; cbn [b_mem b_pos]. unfold buf_wf in Hwf. replace (Z.to_nat (p' + 1)) with (Z.to_nat (b_pos b) + length used)%nat by lia.
      by rewrite <- drop_drop, <- Hbs, Hu, drop_app_length. }
    rewrite Hrest. split_and!; [done..|]. rewrite Hu, length_app in Hlen. unfold buf_wf, b_last in *. cbn [b_mem b_pos]. lia.
  - destruct Hs as (rest & Hrun). assert (Hne : bs <> []) by by intros ->. rewrite <- Hr, Hrun by done. split; [done|]. by eexists.
  - destruct Hs as (Hrun & Hg' & Hs'). apply scan_none_pos in Es as Hp. rewrite leave_small by done.
    destruct bs as [|ch bs].
    + injection Es as <- <- <-. exists st, size. split_and!; [|done| |done].
      * f_equal. rewrite <- !need_min. unfold need. by rewrite enter_good.
      * f_equal. simpl in Hlen. lia.
    + rewrite <- Hr, Hrun by done. exists st', size'. rewrite good_enter by done. split_and!; [done|done| |done].
      f_equal. lia.
Qed.

Definition ctx_ok (ctx : chunked) (stream : list Z) : Prop :=
  good (enter (c_state ctx) (c_size ctx)) (c_size ctx) /\ fits stream (c_state ctx) (c_size ctx).
Definition run_of (ctx : chunked) (stream : list Z) : verdict * list Z * list Z := body_run stream (c_state ctx) (c_size ctx).

(** The bytes of a buffer after a parsed size: how many are taken. *)
Lemma data_turn len b pre post size : buf_wf b -> unread b = pre ++ post -> post <> [] -> 0 < size -> fits post sw_chunk_data size ->
  let p := b_pos b + Z.of_nat (length pre) in
  exists n, (if b_last b - p >? size then (size, 0) else (b_last b - p, size - (b_last b - p))) = (n, size - n)
  /\ 0 <= p /\ 0 < n /\ p + n <= b_last b /\
  let b2 := Buf (b_mem b) (p + n) in let m := run_of (Ctx sw_chunk_data (size - n) len) (unread b2) in
  (length (unread b2) < length (unread b))%nat /\ ctx_ok (Ctx sw_chunk_data (size - n) len) (unread b2)
  /\ body_run post sw_chunk_data size = (m.1.1, slice (b_mem b) p (p + n) ++ m.1.2, m.2).
Proof.
  intros Hwf Hu Hne Hs Hf p. pose proof (length_unread b Hwf) as Hlen. rewrite Hu, length_app in Hlen.
  assert (Hpost : (0 < length post)%nat) by (destruct post; [done|simpl; lia]).
  exists (if b_last b - p >? size then size else b_last b - p). set (n := if b_last b - p >? size then size else b_last b - p).
  assert (Hn : 0 < n <= size /\ n <= Z.of_nat (length post)) by (unfold n, p; destruct (Z.gtb_spec (b_last b - (b_pos b + Z.of_nat (length pre))) size); lia).
  split; [unfold n; destruct (_ >? _); f_equal; lia|].
  destruct (data_run (Z.to_nat n) post size ltac:(lia) ltac:(lia) Hf) as [Hrun Hf']. rewrite Z2Nat.id in * by lia.
  unfold buf_wf in Hwf. cbn zeta.
  assert (Hu2 : unread (Buf (b_mem b) (p + n)) = drop (Z.to_nat n) post).
  { unfold unread in *; cbn [b_mem b_pos] in *. replace (Z.to_nat (p + n)) with (Z.to_nat (b_pos b) + (length pre + Z.to_nat n))%nat by lia.
    rewrite <- drop_drop, Hu, <- drop_drop, drop_app_length. done. }
  assert (Hd : slice (b_mem b) p (p + n) = take (Z.to_nat n) post).
  { unfold slice. replace (Z.to_nat (p + n - p)) with (Z.to_nat n) by lia. unfold unread in Hu.
    replace (Z.to_nat p) with (Z.to_nat (b_pos b) + length pre)%nat by lia. by rewrite <- drop_drop, Hu, drop_app_length. }
  rewrite Hu2, Hu, length_app, length_drop. split_and!; try lia.
  - split; [|exact Hf']. cbn [c_state c_size]. rewrite enter_eq. destruct (Z.eqb_spec (size - n) 0); simpl; [done|lia].
  - rewrite Hrun, Hd. unfold run_of. cbn. by destruct (body_run (drop _ post) _ _) as [[v out] left_].
Qed.

(** What the filter hands back, against the machine's run. *)
Definition agrees (b : ngx_buf) (cl : Z) (r : filtered * list Z * chunked * Z * ngx_buf)
    (m : verdict * list Z * list Z) : Prop :=
  let '(v, out, ctx', cl', b') := r in
  let '(mv, d, rest) := m in
  out = d /\ b_mem b' = b_mem b /\ cl' = off_t (cl + Z.of_nat (length out)) /\
  match mv with
  | In_body st size => v = More (min_length st size) /\ c_state ctx' = enter st size
      /\ c_size ctx' = size /\ b_pos b' = b_last b
  | Complete => v = Last /\ unread b' = rest
  | Malformed => v = Bad_request
  end.

(** The turn of the loop in which [ngx_http_parse_chunked] says [NGX_OK]. *)
Lemma filter_data fuel ctx cl b size' post pre p' :
  ngx_http_parse_chunked ctx b = (NGX_OK, Ctx sw_chunk_data size' (min_length sw_chunk_data size'), Buf (b_mem b) p') ->
  buf_wf b -> unread b = pre ++ post -> post <> [] -> p' = b_pos b + Z.of_nat (length pre) ->
  0 < size' -> fits post sw_chunk_data size' ->
  (forall ctx cl b', buf_wf b' -> good (enter (c_state ctx) (c_size ctx)) (c_size ctx) ->
     fits (unread b') (c_state ctx) (c_size ctx) -> (length (unread b') < fuel)%nat ->
     off_t cl = cl ->
     agrees b' cl (chunked_filter fuel 0 ctx cl b') (body_run (unread b') (c_state ctx) (c_size ctx))) ->
  (length (unread b) < S fuel)%nat -> off_t cl = cl ->
  agrees b cl (chunked_filter (S fuel) 0 ctx cl b) (body_run post sw_chunk_data size').
Proof.
  intros Hp Hwf Hu Hne -> Hs Hf IH Hfu Hcl. cbn [chunked_filter]. rewrite Hp.
  cbn [Z.eqb negb andb c_size c_state c_length b_mem b_pos].
  destruct (data_turn (min_length sw_chunk_data size') b pre post size' Hwf Hu Hne Hs Hf)
    as (n & Hsel & H0 & Hn & Hl & Hlen & [Hg Hf'] & Hrun).
  set (p := b_pos b + Z.of_nat (length pre)) in *. change (b_last (Buf (b_mem b) p)) with (b_last b). rewrite Hsel, Hrun.
  specialize (IH _ (off_t (cl + n)) (Buf (b_mem b) (p + n)) ltac:(unfold buf_wf, b_last in *; simpl; lia) Hg Hf' ltac:(lia) (off_t_idem _)).
  unfold agrees, run_of in *. destruct (chunked_filter _ _ _ _ _) as [[[[v out] ctx'] cl'] b'].
  destruct (body_run _ _ _) as [[mv d] rest]. destruct IH as (-> & Hm & -> & Hv). split; [done|]. split; [done|].
  split; [|exact Hv]. unfold b_last in Hl. rewrite off_t_add, length_app, Nat2Z.inj_add, length_slice by lia. f_equal. lia.
Qed.

Lemma filter_run fuel : forall ctx cl b,
  buf_wf b -> good (enter (c_state ctx) (c_size ctx)) (c_size ctx) ->
  fits (unread b) (c_state ctx) (c_size ctx) -> (length (unread b) < fuel)%nat -> off_t cl = cl ->
  agrees b cl (chunked_filter fuel 0 ctx cl b) (body_run (unread b) (c_state ctx) (c_size ctx)).
Proof.
  induction fuel as [|fuel IH]; intros ctx cl b Hwf Hg Hf Hfu Hcl; [lia|].
  pose proof (parse_turn ctx b Hwf Hg Hf) as Ht. cbn zeta in Ht.
  assert (Hcl0 : cl = off_t (cl + Z.of_nat (length (@nil Z)))) by (simpl; by rewrite Z.add_0_r).
  destruct (ngx_http_parse_chunked ctx b) as [[rc ctx'] b'] eqn:Ep. destruct rc.
  1: destruct Ht as (size' & pre & post & -> & Hpp & Hne & -> & Hs & -> & Hf'); by eapply filter_data.
  all: cbn [chunked_filter]; rewrite Ep.
  2: destruct Ht as (st' & size' & -> & Hg' & -> & ->); by split_and!.
  3: destruct Ht as (-> & Hm & Hw); by split_and!.
  all: destruct Ht as (? & rest & ->); by split_and!.
Qed.

End ChunkedProps.
