(* ===== verification/ChunkedBody.v ===== *)
(** * Chunked bodies as wholes

    Encoding and decoding, cutting a body into buffers, the number of bytes
    the parser asks for, and what happens to sizes near 2^63. *)

From S2P Require Import Prelude Scan Chunked ChunkedProps.

Module ChunkedBody.
Import Chunked ChunkedProps.

(** ** The encoder *)

Definition hex_digit (d : Z) : Z := if d <? 10 then d + "0"%c else d - 10 + "a"%c.

Fixpoint hex (fuel : nat) (n : Z) : list Z :=
  match fuel with
  | S fuel' => if n <? 16 then [hex_digit n] else hex fuel' (n / 16) ++ [hex_digit (n mod 16)]
  | O => [hex_digit n]
  end.

(** Fifteen digits are enough for a size below 2^59. *)
Definition print_size (n : Z) : list Z := hex 14 n.

Definition encode_chunk (d : list Z) : list Z :=
  print_size (Z.of_nat (length d)) ++ [CR; LF] ++ d ++ [CR; LF].

Definition encode (ds : list (list Z)) : list Z :=
  concat (map encode_chunk ds) ++ bytes_of "0" ++ [CR; LF; CR; LF].

(** ** Running the machine on printed bytes *)

(** [bs] takes the machine from one state to another, emitting [d], whatever
    follows. *)
Definition runs (bs : list Z) (st : sw) (size : Z) (st' : sw) (size' : Z) (d : list Z) : Prop :=
  body_run bs st size = (In_body st' size', d, []) /\ fits bs st size.

Lemma fits_app bs1 bs2 st size : fits bs1 st size ->
  match body_run bs1 st size with
  | (In_body st' size', _, _) => fits bs2 st' size'
  | _ => True
  end -> fits (bs1 ++ bs2) st size.
Proof.
  revert st size; induction bs1 as [|ch bs1 IH]; intros st size; cbn [app body_run fits]; [done|].
  destruct (body_step ch st size) as [[st' size'| |] d]; [|done|done].
  intros [Hs Hf] H. split; [done|]. apply IH; [done|].
  by destruct (body_run bs1 st' size') as [[[] ?] ?].
Qed.

Lemma runs_app bs1 bs2 st1 n1 st2 n2 st3 n3 d1 d2 :
  runs bs1 st1 n1 st2 n2 d1 -> runs bs2 st2 n2 st3 n3 d2 ->
  runs (bs1 ++ bs2) st1 n1 st3 n3 (d1 ++ d2).
Proof.
  intros [H1 F1] [H2 F2]. split; [by rewrite body_run_app, H1, H2|].
  apply fits_app; [done|]. by rewrite H1.
Qed.

Lemma runs_one ch st n st' n' d : small n -> small n' ->
  body_step ch st n = (In_body st' n', d) -> runs [ch] st n st' n' d.
Proof. intros Hs Hs' E. unfold runs; simpl. rewrite E. rewrite app_nil_r. done. Qed.

Lemma hex_digit_step d : 0 <= d < 16 ->
  is_digit (hex_digit d) = true /\ hex_digit d - "0"%c = d
  \/ is_digit (hex_digit d) = false /\ is_hex_letter (lc (hex_digit d)) = true
     /\ lc (hex_digit d) - "a"%c + 10 = d.
Proof.
  intros Hd. assert (H : d = 0 \/ d = 1 \/ d = 2 \/ d = 3 \/ d = 4 \/ d = 5 \/ d = 6 \/ d = 7
    \/ d = 8 \/ d = 9 \/ d = 10 \/ d = 11 \/ d = 12 \/ d = 13 \/ d = 14 \/ d = 15) by lia.
  repeat destruct H as [-> | H]; try subst; first [by left | by right].
Qed.

Lemma first_digit d n : 0 <= d < 16 -> small n -> runs [hex_digit d] sw_chunk_start n sw_chunk_size d [].
Proof.
  intros Hd Hn. apply runs_one; [done|unfold small; lia|]. rewrite body_step_parser by done.
  unfold step, case_chunk_start. destruct (hex_digit_step d Hd) as [[-> ->]|(-> & -> & ->)]; done.
Qed.

Lemma next_digit d n : 0 <= d < 16 -> small n -> small (n * 16 + d) ->
  runs [hex_digit d] sw_chunk_size n sw_chunk_size (n * 16 + d) [].
Proof.
  intros Hd Hn Hn'. apply runs_one; [done|done|]. rewrite body_step_parser by done.
  unfold step, case_chunk_size. unfold small in Hn'. change (2 ^ 59) with 576460752303423488 in Hn'.
  destruct (hex_digit_step d Hd) as [[-> ->]|(-> & -> & ->)]; rewrite off_t_small; try done;
    change (2 ^ 63) with 9223372036854775808; lia.
Qed.

Lemma hex_runs fuel : forall n n0, 0 <= n < 16 ^ Z.of_nat (S fuel) -> small n -> small n0 ->
  runs (hex fuel n) sw_chunk_start n0 sw_chunk_size n [].
Proof.
  induction fuel as [|fuel IH]; intros n n0 Hn Hs H0; cbn [hex].
  - apply first_digit; [|done]. change (16 ^ Z.of_nat 1) with 16 in Hn. lia.
  - destruct (Z.ltb_spec n 16); [apply first_digit; [lia|done]|].
    rewrite Nat2Z.inj_succ, Z.pow_succ_r in Hn by lia.
    assert (Hq : 0 <= n / 16 < 16 ^ Z.of_nat (S fuel))
      by (split; [apply Z.div_pos; lia|apply Z.div_lt_upper_bound; lia]).
    pose proof (Z.mod_pos_bound n 16 ltac:(lia)) as Hm.
    pose proof (Z.div_mod n 16 ltac:(lia)) as Hdm.
    assert (Hsq : small (n / 16))
      by (unfold small in *; split; [lia|]; apply Z.div_lt_upper_bound; lia).
    replace n with (n / 16 * 16 + n mod 16) at 3 by lia.
    eapply (runs_app _ _ _ _ _ _ _ _ [] []); [by apply IH|].
    apply next_digit; [done|done|]. by replace (n / 16 * 16 + n mod 16) with n by lia.
Qed.

Lemma data_runs d : forall n, Z.of_nat (length d) = n -> small n ->
  runs d sw_chunk_data n sw_chunk_data 0 d.
Proof.
  induction d as [|c d IH]; intros n Hn Hs.
  - simpl in Hn. subst n. done.
  - cbn [length] in Hn. apply (runs_app [c] d _ _ sw_chunk_data (n - 1) _ _ [c] d).
    + apply runs_one; [done|unfold small in *; lia|]. by apply body_step_data; lia.
    + apply IH; [lia|unfold small in *; lia].
Qed.

Lemma crlf_runs st n st1 st2 : small n ->
  body_step CR st n = (In_body st1 n, []) -> body_step LF st1 n = (In_body st2 n, []) ->
  runs [CR; LF] st n st2 n [].
Proof.
  intros Hs H1 H2. apply (runs_app [CR] [LF] _ _ st1 n _ _ [] []); by apply runs_one.
Qed.

Definition chunk_ok (d : list Z) : Prop := d <> [] /\ Z.of_nat (length d) < 2 ^ 59.

Lemma chunk_runs d n0 : chunk_ok d -> small n0 ->
  runs (encode_chunk d) sw_chunk_start n0 sw_chunk_start 0 d.
Proof.
  intros [Hne Hl] H0. set (n := Z.of_nat (length d)).
  assert (Hn : 0 < n) by (unfold n; destruct d; [done|simpl; lia]).
  assert (Hs : small n) by (unfold small; lia).
  unfold encode_chunk. fold n.
  apply (runs_app _ _ _ _ sw_chunk_size n _ _ [] d).
  { apply hex_runs; [|done|done]. change (16 ^ Z.of_nat 15) with (2 * 2 ^ 59). unfold small in Hs. lia. }
  apply (runs_app [CR; LF] _ _ _ sw_chunk_data n _ _ [] d).
  { apply (crlf_runs _ _ sw_chunk_extension_almost_done); [done| |done].
    rewrite body_step_parser by done. unfold step, case_chunk_size.
    rewrite (proj2 (Z.eqb_neq n 0)) by lia. done. }
  rewrite <- (app_nil_r d) at 2.
  apply (runs_app d [CR; LF] _ _ sw_chunk_data 0); [by apply data_runs|].
  by apply (crlf_runs _ _ sw_after_data_almost_done).
Qed.

Lemma encode_runs ds n0 rest : Forall chunk_ok ds -> small n0 ->
  body_run (encode ds ++ rest) sw_chunk_start n0 = (Complete, concat ds, rest)
  /\ fits (encode ds ++ rest) sw_chunk_start n0.
Proof.
  intros Hds. revert n0. unfold encode. induction Hds as [|d ds Hd _ IH]; intros n0 H0.
  - split; [done|]. simpl. split; [done|]. unfold small. by repeat split.
  - cbn [map concat]. rewrite <- !app_assoc. destruct (chunk_runs d n0 Hd H0) as [Hr Hf].
    destruct (IH 0 ltac:(unfold small; lia)) as [Hr' Hf']. rewrite <- !app_assoc in *.
    rewrite body_run_app, Hr, Hr'. split; [done|]. apply fits_app; [done|]. by rewrite Hr.
Qed.

(** ** Buffers one after another *)

(** The body read into one buffer after another, without a size limit; the
    state is kept in [rb->chunked].  Returns the verdict, the data and the
    bytes that belong to the next request. *)
Fixpoint filter_segments (ctx : chunked) (cl : Z) (segs : list (list Z))
    : filtered * list Z * list Z :=
  match segs with
  | [] => (More (min_length (c_state ctx) (c_size ctx)), [], [])
  | ys :: segs' =>
      match chunked_filter (S (length ys)) 0 ctx cl (Buf ys 0) with
      | (More _, out, ctx', cl', _) =>
          let '(v, out', rest) := filter_segments ctx' cl' segs' in (v, out ++ out', rest)
      | (v, out, _, _, b') => (v, out, unread b' ++ concat segs')
      end
  end.

Lemma run_good bs : forall st size, good (enter st size) size -> fits bs st size ->
  match body_run bs st size with
  | (In_body st' size', _, _) => good (enter st' size') size'
  | _ => True
  end.
Proof.
  induction bs as [|ch bs IH]; intros st size Hg Hf; cbn [body_run fits] in *; [done|].
  destruct Hf as [Hs Hf]. destruct (body_step ch st size) as [[st1 size1| |] d] eqn:E; [|done|done].
  assert (Hg1 : good (enter st1 size1) size1).
  { rewrite <- body_step_enter in E by done. destruct (decide (enter st size = sw_chunk_data)) as [Hd|Hd].
    - rewrite Hd in *. simpl in Hg. rewrite body_step_data in E by done. injection E as <- <- <-.
      rewrite enter_eq. destruct (Z.eqb_spec (size - 1) 0); simpl; [done|lia].
    - rewrite body_step_parser in E by done.
      destruct (step ch (enter st size, size)) as [[st2 size2]|[] [st2 size2]] eqn:Es; try done.
      injection E as <- <- <-. apply step_good in Es; [|apply Hs|done|done]. by rewrite good_enter. }
  specialize (IH st1 size1 Hg1 Hf). by destruct (body_run bs st1 size1) as [[[] ?] ?].
Qed.

Lemma fits_split bs1 bs2 : forall st size, fits (bs1 ++ bs2) st size ->
  fits bs1 st size /\
  match body_run bs1 st size with (In_body st' size', _, _) => fits bs2 st' size' | _ => True end.
Proof.
  induction bs1 as [|ch bs1 IH]; intros st size; cbn [app body_run fits].
  - intros H. split; [|done]. split; [|done]. by destruct bs2 as [|? ?], H.
  - destruct (body_step ch st size) as [[st' size'| |] d]; [|done|done]. intros [Hs Hf].
    destruct (IH _ _ Hf) as [H1 H2]. split; [done|].
    by destruct (body_run bs1 st' size') as [[[] ?] ?].
Qed.

(** The verdict of the machine in the filter's words. *)
Definition told (r : filtered * list Z * list Z) (m : verdict * list Z * list Z) : Prop :=
  let '(v, out, over) := r in
  match m with
  | (In_body st size, d, _) => v = More (min_length st size) /\ out = d
  | (Complete, d, rest) => v = Last /\ out = d /\ over = rest
  | (Malformed, d, _) => v = Bad_request /\ out = d
  end.

Lemma start_wf ys : buf_wf (Buf ys 0).
Proof. unfold buf_wf, b_last. cbn [b_mem b_pos]. lia. Qed.

Lemma segments_run segs : forall ctx cl,
  good (enter (c_state ctx) (c_size ctx)) (c_size ctx) -> off_t cl = cl ->
  fits (concat segs) (c_state ctx) (c_size ctx) ->
  told (filter_segments ctx cl segs) (body_run (concat segs) (c_state ctx) (c_size ctx)).
Proof.
  induction segs as [|ys segs IH]; intros ctx cl Hg Hcl Hf; cbn [concat] in *; [done|].
  apply fits_split in Hf as [Hf1 Hf2].
  pose proof (filter_run (S (length ys)) ctx cl (Buf ys 0)) as H.
  change (unread (Buf ys 0)) with ys in H. specialize (H (start_wf ys) Hg Hf1 ltac:(lia) Hcl).
  pose proof (run_good ys _ _ Hg Hf1) as Hg'.
  rewrite body_run_app. cbn [filter_segments]. unfold agrees in H.
  destruct (chunked_filter _ _ _ _ _) as [[[[v out] ctx'] cl'] b'].
  destruct (body_run ys _ _) as [[mv d] rest]. destruct H as (-> & Hm & -> & Hv).
  destruct mv as [st size| |].
  - destruct Hv as (-> & Hst & Hsz & _).
    assert (Hg2 : good (enter (c_state ctx') (c_size ctx')) (c_size ctx'))
      by (rewrite Hst, Hsz, enter_good by done; done).
    assert (Hf3 : fits (concat segs) (c_state ctx') (c_size ctx'))
      by (rewrite Hst, Hsz; by apply fits_enter).
    specialize (IH ctx' (off_t (cl + Z.of_nat (length d))) Hg2 (off_t_idem _) Hf3).
    destruct (filter_segments ctx' _ segs) as [[v2 out2] over2].
    rewrite Hst, Hsz in IH. destruct (concat segs) as [|c bs] eqn:Ec.
    + cbn [body_run told] in *. rewrite <- need_min in *. unfold need in *.
      rewrite enter_good in IH by done. by destruct IH as [-> ->].
    + rewrite body_run_enter in IH by done. unfold told in *.
      destruct (body_run (c :: bs) st size) as [[[] d2] rest2];
        [by destruct IH as [-> ->]|by destruct IH as (-> & -> & ->)|by destruct IH as [-> ->]].
  - destruct Hv as [-> ->]. done.
  - by rewrite Hv.
Qed.

Lemma hex_length fuel : forall n, (length (hex fuel n) <= S fuel)%nat.
Proof.
  induction fuel as [|fuel IH]; intros n; simpl; [done|]. destruct (n <? 16); simpl; [lia|].
  rewrite length_app. specialize (IH (n / 16)). simpl. lia.
Qed.

(** ** The properties *)

(** The loop of [ngx_http_request_body_chunked_filter] over a buffer, without a limit
    and with sizes that do not wrap, always ends and does what the byte-by-byte machine says: the same data, the same
    verdict, the same state to go on from, the same first byte of whatever
    follows the body, and [content_length_n] advanced by the data. *)
Theorem chunked_filter_refines (ctx : chunked) (cl : Z) (b : ngx_buf) :
  buf_wf b -> good (enter (c_state ctx) (c_size ctx)) (c_size ctx) ->
  fits (unread b) (c_state ctx) (c_size ctx) -> off_t cl = cl ->
  agrees b cl (chunked_filter (S (length (unread b))) 0 ctx cl b)
    (body_run (unread b) (c_state ctx) (c_size ctx)).
Proof. intros. apply filter_run; done || lia. Qed.

(** C35: A chunked body, cut into buffers in any way and followed by anything,
    decodes to exactly the data encoded, and the bytes after it are left for
    the next request. *)
Theorem chunked_roundtrip (ds : list (list Z)) (rest : list Z) (segs : list (list Z)) :
  Forall chunk_ok ds -> concat segs = encode ds ++ rest ->
  filter_segments fresh_ctx 0 segs = (Last, concat ds, rest).
Proof.
  intros Hds Hs. destruct (encode_runs ds 0 rest Hds ltac:(unfold small; lia)) as [Hr Hf].
  pose proof (segments_run segs fresh_ctx 0 I eq_refl) as H. cbn [fresh_ctx c_state c_size] in H.
  rewrite Hs, Hr in H. specialize (H Hf).
  destruct (filter_segments fresh_ctx 0 segs) as [[v out] over]. by destruct H as (-> & -> & ->).
Qed.

(** When the parser asks for more input, [ctx->length] is a lower bound of
    the bytes any completion of the body still takes: reading that much never
    reads into the next request. *)
Theorem chunked_length_bound (ctx ctx' : chunked) (b b' : ngx_buf) (bs : list Z) d rest :
  buf_wf b -> good (enter (c_state ctx) (c_size ctx)) (c_size ctx) ->
  fits (unread b ++ bs) (c_state ctx) (c_size ctx) ->
  ngx_http_parse_chunked ctx b = (NGX_AGAIN, ctx', b') ->
  body_run (unread b ++ bs) (c_state ctx) (c_size ctx) = (Complete, d, rest) ->
  c_length ctx' + Z.of_nat (length rest) <= Z.of_nat (length bs).
Proof.
  intros Hwf Hg Hf Hp Hr. apply fits_split in Hf as [Hf1 Hf2].
  pose proof (scan_body (unread b) (b_pos b) _ _ Hg (fits_enter _ _ _ Hg Hf1)) as Hs.
  unfold ngx_http_parse_chunked in Hp.
  destruct (scan _ _ _ _) as [[p' [st' size']] [[]|]] eqn:Es; try done.
  { destruct Hs as (_ & _ & pre & post & _ & Hne & _ & _ & Hf'). rewrite leave_small in Hp; [done|].
    destruct post; [done|]. apply Hf'. }
  destruct Hs as (Hrun & Hg' & Hs'). rewrite leave_small in Hp by done. injection Hp as <- <-.
  cbn [c_length]. rewrite body_run_app in Hr. destruct (unread b) as [|c u] eqn:Eu.
  - cbn [scan] in Es. injection Es as _ <- <-. cbn [body_run] in Hr, Hf2.
    pose proof (need_run bs _ _ Hf2) as Hn.
    destruct (body_run bs (c_state ctx) (c_size ctx)) as [[v out] r]. injection Hr as -> _ ->.
    rewrite <- need_min. unfold need in *. by rewrite enter_good.
  - rewrite body_run_enter in Hrun by done. rewrite Hrun in Hr, Hf2.
    pose proof (need_run bs _ _ Hf2) as Hn.
    destruct (body_run bs st' size') as [[v out] r]. injection Hr as -> _ ->. by rewrite <- need_min.
Qed.
(** ** At concrete inputs *)

Definition sample_body : list Z := bytes_of "5;x=y" ++ [CR; LF] ++ bytes_of "hel".

Lemma chunked_filter_refines_witness :
  let r := chunked_filter (S (length (unread (Buf sample_body 0)))) 0 fresh_ctx 0 (Buf sample_body 0) in
  r.1.1.1 = (More 6, bytes_of "hel")
  /\ agrees (Buf sample_body 0) 0 r (body_run (unread (Buf sample_body 0)) sw_chunk_start 0).
Proof.
  split; [by vm_compute|].
  apply (chunked_filter_refines fresh_ctx 0 (Buf sample_body 0)); [| | |by vm_compute].
  - split; vm_compute; discriminate.
  - exact I.
  - repeat (split; [split; [discriminate|reflexivity]|]). exact I.
Defined.

Lemma chunked_roundtrip_witness :
  encode [bytes_of "hello, world"; bytes_of "x"] ++ bytes_of "GET"
    = bytes_of "c" ++ [CR; LF] ++ bytes_of "hello, world" ++ [CR; LF] ++ bytes_of "1" ++ [CR; LF]
      ++ bytes_of "x" ++ [CR; LF] ++ bytes_of "0" ++ [CR; LF; CR; LF] ++ bytes_of "GET"
  /\ filter_segments fresh_ctx 0
       [bytes_of "c"; [CR; LF] ++ bytes_of "hello, wor";
        bytes_of "ld" ++ [CR; LF] ++ bytes_of "1" ++ [CR; LF] ++ bytes_of "x" ++ [CR]; [LF];
        bytes_of "0" ++ [CR; LF; CR; LF] ++ bytes_of "GET"]
     = (Last, bytes_of "hello, worldx", bytes_of "GET").
Proof.
  split; [by vm_compute|].
  apply (chunked_roundtrip [bytes_of "hello, world"; bytes_of "x"] (bytes_of "GET")); [|by vm_compute].
  repeat constructor; discriminate.
Defined.

Lemma chunked_length_bound_witness :
  exists ctx' b', ngx_http_parse_chunked fresh_ctx (Buf (bytes_of "2" ++ [CR]) 0) = (NGX_AGAIN, ctx', b')
  /\ c_length ctx' + Z.of_nat (length (bytes_of "G")) <= Z.of_nat (length ([LF] ++ bytes_of "ab" ++ [LF] ++ bytes_of "0" ++ [LF; LF] ++ bytes_of "G")).
Proof.
  eexists _, _. split; [vm_compute; reflexivity|].
  apply (chunked_length_bound fresh_ctx _ (Buf (bytes_of "2" ++ [CR]) 0)
    (Buf (b_mem (Buf (bytes_of "2" ++ [CR]) 0)) 2)
    ([LF] ++ bytes_of "ab" ++ [LF] ++ bytes_of "0" ++ [LF; LF] ++ bytes_of "G") (bytes_of "ab") (bytes_of "G")).
  - split; vm_compute; discriminate.
  - exact I.
  - repeat (split; [split; [discriminate|reflexivity]|]). exact I.
  - vm_compute. reflexivity.
  - vm_compute. reflexivity.
Defined.

(** A chunk size of seventeen digits wraps around [off_t]: "10000000000000000"
    is taken as 0, the last chunk, although the client announced 2^64 bytes.
    The test for a negative size sees nothing. *)
Theorem chunk_size_wraps :
  ngx_http_parse_chunked fresh_ctx
    (Buf (bytes_of "10000000000000000" ++ [CR; LF; CR; LF] ++ bytes_of "GET /") 0)
  = (NGX_DONE, Ctx sw_chunk_start 0 0,
     Buf (bytes_of "10000000000000000" ++ [CR; LF; CR; LF] ++ bytes_of "GET /") 21).
Proof. by vm_compute. Qed.

Definition big_chunk : list Z :=
  bytes_of "10" ++ [CR; LF] ++ bytes_of "0123456789abcdef" ++ [CR; LF]
  ++ bytes_of "7ffffffffffffff0" ++ [CR; LF].

(** The limit [client_max_body_size] is compared with
    [content_length_n + size] in [off_t]: after a chunk of sixteen bytes, one
    announced with size 7ffffffffffffff0 makes the sum negative, and its data
    passes a limit of one hundred bytes. *)
Theorem max_body_size_bypassed :
  let '(v, out, _, cl, _) :=
    chunked_filter 9 100 fresh_ctx 0 (Buf (big_chunk ++ replicate 200 "x"%c) 0) in
  v = More (2 ^ 63 - 16 - 200 + 4)
  /\ out = bytes_of "0123456789abcdef" ++ replicate 200 "x"%c /\ cl = 216.
Proof. vm_compute. by split_and!. Qed.

(** Bytes between the data of a chunk and the line feed after it are
    skipped, whatever they are: the size need not be the size of what stands
    before the CRLF. *)
Theorem bytes_after_chunk_skipped (junk : list Z) :
  Forall (fun c => c <> CR /\ c <> LF) junk ->
  body_run (junk ++ [CR; LF]) sw_chunk_data 0 = (In_body sw_chunk_start 0, [], []).
Proof.
  intros Hj. assert (H : forall st, st = sw_chunk_data \/ st = sw_after_data ->
    body_run (junk ++ [CR; LF]) st 0 = (In_body sw_chunk_start 0, [], [])); [|apply H; by left].
  induction Hj as [|c junk [H1 H2] _ IH]; intros st Hst; cbn [app body_run].
  - by destruct Hst as [-> | ->].
  - assert (E : body_step c st 0 = (In_body sw_after_data 0, [])).
    { destruct Hst as [-> | ->]; unfold body_step; cbn [enter Z.eqb]; unfold step, case_skip;
        by rewrite !(proj2 (Z.eqb_neq _ _)). }
    rewrite E, IH by (by right). done.
Qed.

Lemma bytes_after_chunk_skipped_witness :
  body_run (bytes_of "smuggled" ++ [CR; LF]) sw_chunk_data 0 = (In_body sw_chunk_start 0, [], []).
Proof. apply bytes_after_chunk_skipped. repeat constructor; discriminate. Defined.

End ChunkedBody.
