(* ===== verification/ParseTime.v ===== *)
(** * [ngx_http_parse_time]

    HTTP dates in the three formats of RFC 2616, turned into seconds since the
    epoch by Gauss' formula.  Reading a byte at or after [end] is a result of
    its own ([Overread]), so that bounds are a theorem. *)

From S2P Require Import Prelude.

Module ParseTime.

Inductive res (A : Type) := Ok (a : A) | Err | Overread.
Arguments Ok {A} a.
Arguments Err {A}.
Arguments Overread {A}.

#[export] Instance res_ret : MRet res := fun _ a => Ok a.
#[export] Instance res_bind : MBind res := fun _ _ f x =>
  match x with Ok a => f a | Err => Err | Overread => Overread end.

Inductive format := no | rfc822 | rfc850 | isoc.

Definition mday : list Z := [31; 28; 31; 30; 31; 30; 31; 31; 30; 31; 30; 31].

Section Parse.
Variable value : list Z.
Definition end_ : Z := Z.of_nat (length value).

(** [*p] *)
Definition get (p : Z) : res Z :=
  if (0 <=? p) && (p <? end_) then Ok (rd value p) else Overread.

(** [if ( *p < '0' || *p > '9') return NGX_ERROR], the digit's value. *)
Definition digit (p : Z) : res Z :=
  c ← get p ; if (c <? "0"%c) || ("9"%c <? c) then Err else Ok (c - "0"%c).

Definition two_digits (p : Z) : res Z :=
  a ← digit p ; b ← digit (p + 1) ; Ok (a * 10 + b).

Definition four_digits (p : Z) : res Z :=
  a ← digit p ; b ← digit (p + 1) ; c ← digit (p + 2) ; d ← digit (p + 3) ;
  Ok (a * 1000 + b * 100 + c * 10 + d).

(** [if ( *p++ != c) return NGX_ERROR] *)
Definition expect (c p : Z) : res unit :=
  x ← get p ; if x =? c then Ok tt else Err.

(** The first loop: to the first "," or " ". *)
Fixpoint find_separator (n : nat) (p : Z) : format * Z :=
  match n with
  | O => (no, p)
  | S n' =>
      if rd value p =? ","%c then (no, p)
      else if rd value p =? " "%c then (isoc, p)
      else find_separator n' (p + 1)
  end.

(** The second loop: over spaces. *)
Fixpoint skip_spaces (n : nat) (p : Z) : Z :=
  match n with
  | O => p
  | S n' => if rd value p =? " "%c then skip_spaces n' (p + 1) else p
  end.

(** The day before the month, and the format it shows. *)
Definition day_first (p : Z) : res (format * Z * Z) :=
  day ← two_digits p ;
  c ← get (p + 2) ;
  if c =? " "%c then
    if end_ - (p + 2) <? 18 then Err else Ok (rfc822, day, p + 3)
  else if c =? "-"%c then Ok (rfc850, day, p + 3)
  else Err.

Definition month_at (p : Z) : res Z :=
  c ← get p ;
  if c =? "J"%c then
    c1 ← get (p + 1) ;
    if c1 =? "a"%c then Ok 0
    else c2 ← get (p + 2) ; Ok (if c2 =? "n"%c then 5 else 6)
  else if c =? "F"%c then Ok 1
  else if c =? "M"%c then c2 ← get (p + 2) ; Ok (if c2 =? "r"%c then 2 else 4)
  else if c =? "A"%c then c1 ← get (p + 1) ; Ok (if c1 =? "p"%c then 3 else 7)
  else if c =? "S"%c then Ok 8
  else if c =? "O"%c then Ok 9
  else if c =? "N"%c then Ok 10
  else if c =? "D"%c then Ok 11
  else Err.

(** The separator after the month. *)
Definition after_month (fmt : format) (p : Z) : res unit :=
  match fmt with
  | rfc822 => expect " "%c p
  | rfc850 => expect "-"%c p
  | _ => Ok tt
  end.

(** The year after the month ([rfc822], [rfc850]), or the day ([isoc]). *)
Definition year_850 (p : Z) : res Z :=
  y ← two_digits p ; Ok (y + (if y <? 70 then 2000 else 1900)).

Definition day_isoc (p : Z) : res (Z * Z) :=
  c ← get p ;
  let p := if c =? " "%c then p + 1 else p in
  day ← digit p ;
  let p := p + 1 in
  c ← get p ;
  if c =? " "%c then Ok (day, p)
  else d ← digit p ; Ok (day * 10 + d, p + 1).

(** " hh:mm:ss" *)
Definition time_at (p : Z) : res (Z * Z * Z) :=
  _ ← expect " "%c p ;
  hour ← two_digits (p + 1) ;
  _ ← expect ":"%c (p + 3) ;
  min ← two_digits (p + 4) ;
  _ ← expect ":"%c (p + 6) ;
  sec ← two_digits (p + 7) ;
  Ok (hour, min, sec).

(** The range checks. *)
Definition valid (year month day hour min sec : Z) : bool :=
  if (23 <? hour) || (59 <? min) || (59 <? sec) then false
  else if (day =? 29) && (month =? 1) then
    negb (negb (Z.land year 3 =? 0) || ((year mod 100 =? 0) && negb (year mod 400 =? 0)))
  else negb (rd mday month <? day).

(** Gauss' formula, in [uint64_t]; [month] counts from 0. *)
Definition gauss (year month day hour min sec : Z) : Z :=
  let '(year, month) := if month - 1 <=? 0 then (wrap 64 (year - 1), month - 1 + 12)
                        else (year, month - 1) in
  wrap 64 ((365 * year + year / 4 - year / 100 + year / 400 + Z.quot (367 * month) 12 - 30
            + day - 1 - 719527 + 31 + 28) * 86400 + hour * 3600 + min * 60 + sec).

(** The checks and the conversion to [time_t]. *)
Definition finish (year month day hour min sec : Z) : res Z :=
  if valid year month day hour min sec then Ok (swrap 64 (gauss year month day hour min sec)) else Err.

Definition parse_isoc (p : Z) : res Z :=
  month ← month_at p ;
  _ ← after_month isoc (p + 3) ;
  d ← day_isoc (p + 4) ;
  let (day, p) := (d : Z * Z) in
  if end_ - p <? 14 then Err
  else
    t ← time_at p ;
    let '(hour, min, sec) := t in
    _ ← expect " "%c (p + 9) ;
    year ← four_digits (p + 10) ;
    finish year month day hour min sec.

Definition parse_rfc (p : Z) : res Z :=
  fd ← day_first p ;
  let '(fmt, day, p) := (fd : format * Z * Z) in
  month ← month_at p ;
  _ ← after_month fmt (p + 3) ;
  year ← match fmt with rfc822 => four_digits (p + 4) | _ => year_850 (p + 4) end ;
  t ← time_at (p + match fmt with rfc822 => 8 | _ => 6 end) ;
  let '(hour, min, sec) := t in
  finish year month day hour min sec.

Definition ngx_http_parse_time : res Z :=
  let '(fmt, p) := find_separator (length value) 0 in
  let p := p + 1 in
  let p := skip_spaces (Z.to_nat (end_ - p)) p in
  if end_ - p <? 18 then Err
  else match fmt with isoc => parse_isoc p | _ => parse_rfc p end.
End Parse.

End ParseTime.
