(* ===== verification/ParseTimeProps.v ===== *)
(** * The properties of the date parser

    A reference calendar, Gauss' formula against it, and the three formats
    printed and parsed back; every read stays inside the value. *)

From S2P Require Import Prelude ParseTime.

Module ParseTimeProps.
Import ParseTime.

(** ** The calendar *)

Definition leap (y : Z) : bool :=
  (y mod 4 =? 0) && (negb (y mod 100 =? 0) || (y mod 400 =? 0)).

(** Months count from 0. *)
Definition days_in_month (y m : Z) : Z := if (m =? 1) && leap y then 29 else rd mday m.

(** The days of the years before [n]. *)
Fixpoint days_before_year (n : nat) : Z :=
  match n with
  | O => 0
  | S n' => days_before_year n' + (if leap (Z.of_nat n') then 366 else 365)
  end.

Fixpoint days_before_month (y : Z) (m : nat) : Z :=
  match m with
  | O => 0
  | S m' => days_before_month y m' + days_in_month y (Z.of_nat m')
  end.

(** Seconds since 1970-01-01 00:00:00. *)
Definition epoch (y m d hour min sec : Z) : Z :=
  (days_before_year (Z.to_nat y) - days_before_year 1970
   + days_before_month y (Z.to_nat m) + d - 1) * 86400 + hour * 3600 + min * 60 + sec.

(** What the parser takes: [d] is not tested against 1. *)
Definition valid_date (y m d hour min sec : Z) : bool :=
  (hour <=? 23) && (min <=? 59) && (sec <=? 59) && (d <=? days_in_month y m).

(** ** Gauss' formula *)

Lemma leap_step k : 1 <= k ->
  k / 4 - k / 100 + k / 400 =
  (k - 1) / 4 - (k - 1) / 100 + (k - 1) / 400 + (if leap k then 1 else 0).
Proof.
  intros Hk. unfold leap.
  destruct (Z.eqb_spec (k mod 4) 0), (Z.eqb_spec (k mod 100) 0), (Z.eqb_spec (k mod 400) 0);
    cbn [andb orb negb]; Z.to_euclidean_division_equations; lia.
Qed.

Lemma days_before_year_closed n :
  days_before_year (S n) =
  365 * (Z.of_nat n + 1) + Z.of_nat n / 4 - Z.of_nat n / 100 + Z.of_nat n / 400 + 1.
Proof.
  induction n as [|n IH]; [done|]. cbn [days_before_year] in *.
  pose proof (leap_step (Z.of_nat (S n)) ltac:(lia)) as H.
  replace (Z.of_nat (S n) - 1) with (Z.of_nat n) in H by lia.
  destruct (leap (Z.of_nat (S n))); lia.
Qed.

Lemma days_1970 : days_before_year 1970 = 719528.
Proof. by rewrite (days_before_year_closed 1969). Qed.

Lemma days_year y : 1 <= y ->
  days_before_year (Z.to_nat y) = 365 * y + (y - 1) / 4 - (y - 1) / 100 + (y - 1) / 400 + 1.
Proof.
  intros Hy. destruct (Z.to_nat y) as [|n] eqn:E; [lia|]. rewrite days_before_year_closed.
  replace (Z.of_nat n) with (y - 1) by lia. lia.
Qed.

Lemma swrap_wrap w z : 0 < w -> swrap w (wrap w z) = swrap w z.
Proof. intros Hw. unfold swrap, wrap. f_equal. apply Zplus_mod_idemp_l. Qed.

(** One goal per month. *)
Ltac split_month m :=
  let H := fresh in
  assert (H : m = 0 \/ m = 1 \/ m = 2 \/ m = 3 \/ m = 4 \/ m = 5 \/ m = 6 \/ m = 7 \/ m = 8
    \/ m = 9 \/ m = 10 \/ m = 11) by lia;
  repeat destruct H as [-> | H]; [..|rewrite H in *].

Lemma month_table y m : 0 <= m <= 11 ->
  days_before_month y (Z.to_nat m) =
  rd [0; 31; 59; 90; 120; 151; 181; 212; 243; 273; 304; 334] m
  + (if (2 <=? m) && leap y then 1 else 0).
Proof.
  intros Hm. clear -Hm. split_month m; cbv -[leap]; destruct (leap y); reflexivity.
Qed.

(** Closed subterms of the formula as numerals. *)
Ltac fold_closed := repeat match goal with
  | |- context [rd ?l ?k] => let v := eval vm_compute in (rd l k) in change (rd l k) with v
  | |- context [Z.quot ?a ?b] =>
      let a' := eval vm_compute in a in let v := eval vm_compute in (Z.quot a b) in
      match v with Z0 => change (Z.quot a b) with v | Zpos _ => change (Z.quot a b) with v end
  | |- context [?a <=? ?b] =>
      let v := eval vm_compute in (a <=? b) in
      match v with true => change (a <=? b) with true | false => change (a <=? b) with false end;
      cbv iota beta
  end.

Lemma gauss_epoch y m d hour min sec :
  1 <= y <= 9999 -> 0 <= m <= 11 -> 0 <= d <= 99 ->
  0 <= hour <= 99 -> 0 <= min <= 99 -> 0 <= sec <= 99 ->
  swrap 64 (gauss y m d hour min sec) = epoch y m d hour min sec.
Proof.
  intros Hy Hm Hd Hh Hmi Hs. unfold epoch. rewrite days_1970, days_year by lia.
  pose proof (leap_step y ltac:(lia)) as Hl.
  assert (Hb : 0 <= y / 4 <= 9999 /\ 0 <= y / 100 <= 9999 /\ 0 <= y / 400 <= 9999
    /\ 0 <= (y - 1) / 4 <= 9999 /\ 0 <= (y - 1) / 100 <= 9999 /\ 0 <= (y - 1) / 400 <= 9999)
    by (Z.to_euclidean_division_equations; lia).
  rewrite month_table by done.
  set (E := (_ + _ - 1) * 86400 + hour * 3600 + min * 60 + sec).
  assert (HE : gauss y m d hour min sec = wrap 64 E /\ - 2 ^ 63 <= E < 2 ^ 63).
  { unfold E, gauss. clear E. change (2 ^ 63) with 9223372036854775808.
    split_month m; fold_closed; cbn [andb];
      rewrite ?(wrap_small 64 (y - 1)) by (change (2 ^ 64) with 18446744073709551616; lia);
      (split; [f_equal; fold_closed; destruct (leap y); lia | destruct (leap y); lia]). }
  destruct HE as [-> HE]. rewrite swrap_wrap by lia. by apply swrap_small.
Qed.

(** ** Bounds *)

Section Bounds.
Context (value : list Z).
Abbreviation last := (end_ value).

(** Not an overread, and the result, when there is one, satisfies [P]. *)
Definition within {A} (x : res A) (P : A -> Prop) : Prop :=
  match x with Ok a => P a | Err => True | Overread => False end.

Lemma within_bind {A B} (x : res A) (f : A -> res B) P Q :
  within x P -> (forall a, P a -> within (f a) Q) -> within (a ← x; f a) Q.
Proof. destruct x as [a| |]; simpl; auto. Qed.

Lemma within_weaken {A} (x : res A) (P Q : A -> Prop) :
  within x P -> (forall a, P a -> Q a) -> within x Q.
Proof. destruct x; simpl; auto. Qed.

Lemma within_get p : 0 <= p < last -> within (get value p) (fun _ => True).
Proof. intros H. unfold get. by rewrite (proj2 (Z.leb_le _ _)), (proj2 (Z.ltb_lt _ _)) by lia. Qed.

Lemma within_digit p : 0 <= p < last -> within (digit value p) (fun d => 0 <= d <= 9).
Proof.
  intros H. eapply within_bind; [by apply within_get|]. intros c _. destruct (_ || _) eqn:E; [done|].
  b2p. simpl. lia.
Qed.

Lemma within_expect c p : 0 <= p < last -> within (expect value c p) (fun _ => True).
Proof. intros H. eapply within_bind; [by apply within_get|]. intros x _. by destruct (x =? c). Qed.

Lemma within_two p : 0 <= p -> p + 1 < last -> within (two_digits value p) (fun n => 0 <= n <= 99).
Proof.
  intros H1 H2. eapply within_bind; [apply within_digit; lia|]. intros a Ha.
  eapply within_bind; [apply within_digit; lia|]. intros b Hb. simpl in *. lia.
Qed.

Lemma within_four p : 0 <= p -> p + 3 < last -> within (four_digits value p) (fun n => 0 <= n <= 9999).
Proof.
  intros H1 H2. eapply within_bind; [apply within_digit; lia|]. intros a Ha.
  eapply within_bind; [apply within_digit; lia|]. intros b Hb.
  eapply within_bind; [apply within_digit; lia|]. intros c Hc.
  eapply within_bind; [apply within_digit; lia|]. intros d Hd. simpl in *. lia.
Qed.

Lemma within_month p : 0 <= p -> p + 2 < last -> within (month_at value p) (fun m => 0 <= m <= 11).
Proof.
  intros H1 H2. eapply within_bind; [apply within_get; lia|]. intros c _.
  repeat match goal with
  | |- within (if ?b then _ else _) _ => destruct b
  | |- within (mbind _ (get _ _)) _ => eapply within_bind; [apply within_get; lia|]; intros ? _
  | |- within (Ok _) _ => simpl; try destruct (_ =? _); lia
  | |- within Err _ => done
  end.
Qed.

Lemma within_time p : 0 <= p -> p + 8 < last -> within (time_at value p) (fun _ => True).
Proof.
  intros H1 H2. unfold time_at.
  repeat (eapply within_bind;
    [first [apply within_expect; lia | apply within_two; lia]|]; intros ? _). done.
Qed.

Lemma within_finish y m d h mi s : within (finish y m d h mi s) (fun _ => True).
Proof. unfold finish. by destruct (valid y m d h mi s). Qed.

Lemma within_isoc p : 0 <= p -> p + 18 <= last -> within (parse_isoc value p) (fun _ => True).
Proof.
  intros H1 H2. eapply within_bind; [apply within_month; lia|]. intros m _.
  eapply within_bind; [by instantiate (1 := fun _ => True)|]. intros _ _.
  eapply within_bind.
  { instantiate (1 := fun dp => 0 <= dp.2). unfold day_isoc.
    eapply within_bind; [apply within_get; lia|]. intros c _.
    destruct (c =? " "%c); (eapply within_bind; [apply within_digit; lia|]; intros d _;
      eapply within_bind; [apply within_get; lia|]; intros c' _; destruct (c' =? " "%c); [simpl; lia|];
      eapply within_bind; [apply within_digit; lia|]; intros d' _; simpl; lia). }
  intros [d q] Hq. simpl in Hq. destruct (Z.ltb_spec (last - q) 14); [done|].
  eapply within_bind; [apply within_time; lia|]. intros [[h mi] s] _.
  eapply within_bind; [apply within_expect; lia|]. intros _ _.
  eapply within_bind; [apply within_four; lia|]. intros y _. apply within_finish.
Qed.

Lemma within_rfc p : 0 <= p -> p + 18 <= last -> within (parse_rfc value p) (fun _ => True).
Proof.
  intros H1 H2. eapply within_bind.
  { instantiate (1 := fun fdp => fdp.1.1 = rfc822 /\ p + 20 <= last /\ fdp.2 = p + 3
      \/ fdp.1.1 = rfc850 /\ fdp.2 = p + 3). unfold day_first.
    eapply within_bind; [apply within_two; lia|]. intros d _.
    eapply within_bind; [apply within_get; lia|]. intros c _.
    destruct (c =? " "%c); [|destruct (c =? "-"%c); [by right|done]].
    destruct (Z.ltb_spec (last - (p + 2)) 18); [done|]. left. split_and!; [done|lia|done]. }
  intros [[fmt d] q] [(Hf & Hq & Hp)|(Hf & Hp)]; cbn [fst snd] in *; subst fmt q.
  - eapply within_bind; [apply within_month; lia|]. intros m _.
    eapply within_bind; [apply within_expect; lia|]. intros _ _.
    eapply within_bind; [apply within_four; lia|]. intros y _.
    eapply within_bind; [apply within_time; lia|]. intros [[h mi] s] _. apply within_finish.
  - eapply within_bind; [apply within_month; lia|]. intros m _.
    eapply within_bind; [apply within_expect; lia|]. intros _ _.
    eapply within_bind; [eapply within_bind; [apply within_two; lia|]; intros y _; by instantiate (1 := fun _ => True)|].
    intros y _.
    eapply within_bind; [apply within_time; lia|]. intros [[h mi] s] _. apply within_finish.
Qed.

Lemma find_separator_pos n p : p <= (find_separator value n p).2.
Proof.
  revert p; induction n as [|n IH]; intros p; simpl; [lia|].
  destruct (_ =? _); [simpl; lia|]. destruct (_ =? _); [simpl; lia|]. specialize (IH (p + 1)). lia.
Qed.

Lemma skip_spaces_pos n p : p <= skip_spaces value n p.
Proof.
  revert p; induction n as [|n IH]; intros p; simpl; [lia|].
  destruct (_ =? _); [|lia]. specialize (IH (p + 1)). lia.
Qed.

End Bounds.

(** Whatever the value is, the parser never reads a byte at or past its
    end: the three length checks are enough for every format. *)
Theorem parse_time_in_bounds (value : list Z) : ngx_http_parse_time value <> Overread.
Proof.
  unfold ngx_http_parse_time. pose proof (find_separator_pos value (length value) 0) as H1.
  destruct (find_separator value (length value) 0) as [fmt p]. cbn [snd] in H1.
  pose proof (skip_spaces_pos value (Z.to_nat (end_ value - (p + 1))) (p + 1)) as H2.
  destruct (Z.ltb_spec (end_ value - skip_spaces value (Z.to_nat (end_ value - (p + 1))) (p + 1)) 18);
    [done|].
  pose proof (within_isoc value (skip_spaces value (Z.to_nat (end_ value - (p + 1))) (p + 1))
    ltac:(lia) ltac:(lia)) as Hi.
  pose proof (within_rfc value (skip_spaces value (Z.to_nat (end_ value - (p + 1))) (p + 1))
    ltac:(lia) ltac:(lia)) as Hr.
  by destruct fmt; intros E; rewrite E in *.
Qed.

(** ** Printing *)

Definition dd (n : Z) : list Z := [n / 10 + "0"%c; n mod 10 + "0"%c].
Definition yyyy (n : Z) : list Z := dd (n / 100) ++ dd (n mod 100).

Definition month_name (m : Z) : list Z :=
  nth (Z.to_nat m)
    [bytes_of "Jan"; bytes_of "Feb"; bytes_of "Mar"; bytes_of "Apr"; bytes_of "May"; bytes_of "Jun";
     bytes_of "Jul"; bytes_of "Aug"; bytes_of "Sep"; bytes_of "Oct"; bytes_of "Nov"; bytes_of "Dec"] [].

Definition hms (h mi s : Z) : list Z := dd h ++ [":"%c] ++ dd mi ++ [":"%c] ++ dd s.

Definition print_rfc822 (w : list Z) (y m d h mi s : Z) : list Z :=
  w ++ bytes_of ", " ++ dd d ++ bytes_of " " ++ month_name m ++ bytes_of " " ++ yyyy y
  ++ bytes_of " " ++ hms h mi s.

Definition print_rfc850 (w : list Z) (y m d h mi s : Z) : list Z :=
  w ++ bytes_of ", " ++ dd d ++ bytes_of "-" ++ month_name m ++ bytes_of "-" ++ dd (y mod 100)
  ++ bytes_of " " ++ hms h mi s.

(** The day of [asctime] is padded with a space. *)
Definition padded (d : Z) : list Z := if d <? 10 then [" "%c; d + "0"%c] else dd d.

Definition print_asctime (w : list Z) (y m d h mi s : Z) : list Z :=
  w ++ bytes_of " " ++ month_name m ++ bytes_of " " ++ padded d ++ bytes_of " " ++ hms h mi s
  ++ bytes_of " " ++ yyyy y.

Section Tokens.
Context (value : list Z).
Implicit Types (pre post : list Z) (p n : Z).

Lemma get_token pre c post p :
  value = pre ++ c :: post -> p = Z.of_nat (length pre) -> get value p = Ok c.
Proof.
  intros Hv Hp. unfold get, end_. rewrite Hv, Hp, rd_mid, length_app. cbn [length].
  by rewrite (proj2 (Z.leb_le _ _)), (proj2 (Z.ltb_lt _ _)) by lia.
Qed.

Lemma digit_token pre n post p :
  value = pre ++ (n + "0"%c) :: post -> p = Z.of_nat (length pre) -> 0 <= n <= 9 -> digit value p = Ok n.
Proof.
  intros Hv Hp Hn. unfold digit. rewrite (get_token pre _ post p Hv Hp). simpl.
  rewrite !(proj2 (Z.ltb_ge _ _)) by lia. simpl. f_equal. lia.
Qed.

Lemma expect_token pre c post p :
  value = pre ++ c :: post -> p = Z.of_nat (length pre) -> expect value c p = Ok tt.
Proof.
  intros Hv Hp. unfold expect. rewrite (get_token pre _ post p Hv Hp). simpl. by rewrite Z.eqb_refl.
Qed.

Lemma dd_digits n : 0 <= n <= 99 -> 0 <= n / 10 <= 9 /\ 0 <= n mod 10 <= 9 /\ n / 10 * 10 + n mod 10 = n.
Proof. intros H. Z.to_euclidean_division_equations; lia. Qed.

Lemma two_token pre n post p :
  value = pre ++ dd n ++ post -> p = Z.of_nat (length pre) -> 0 <= n <= 99 ->
  two_digits value p = Ok n.
Proof.
  intros Hv Hp Hn. destruct (dd_digits n Hn) as (H1 & H2 & H3). unfold two_digits.
  rewrite (digit_token pre (n / 10) ((n mod 10 + "0"%c) :: post) p) by done. simpl.
  rewrite (digit_token (pre ++ [n / 10 + "0"%c]) (n mod 10) post);
    [|by rewrite <- app_assoc|rewrite length_app; simpl; lia|done]. simpl. by rewrite H3.
Qed.

Lemma yyyy_digits n : 0 <= n <= 9999 ->
  0 <= n / 100 <= 99 /\ 0 <= n mod 100 <= 99 /\ n / 100 * 100 + n mod 100 = n.
Proof. intros H. Z.to_euclidean_division_equations; lia. Qed.

Lemma four_token pre n post p :
  value = pre ++ yyyy n ++ post -> p = Z.of_nat (length pre) -> 0 <= n <= 9999 ->
  four_digits value p = Ok n.
Proof.
  intros Hv Hp Hn. destruct (yyyy_digits n Hn) as (H1 & H2 & H3).
  destruct (dd_digits _ H1) as (H4 & H5 & H6). destruct (dd_digits _ H2) as (H7 & H8 & H9).
  unfold yyyy, dd in Hv. unfold four_digits.
  set (a := n / 100 / 10) in *. set (b := (n / 100) mod 10) in *.
  set (c := n mod 100 / 10) in *. set (d := (n mod 100) mod 10) in *.
  rewrite (digit_token pre a ([b + "0"%c; c + "0"%c; d + "0"%c] ++ post) p) by done. simpl.
  rewrite (digit_token (pre ++ [a + "0"%c]) b ([c + "0"%c; d + "0"%c] ++ post) (p + 1));
    [|by rewrite <- app_assoc|rewrite length_app; simpl; lia|done]. simpl.
  rewrite (digit_token (pre ++ [a + "0"%c; b + "0"%c]) c ([d + "0"%c] ++ post) (p + 2));
    [|by rewrite <- app_assoc|rewrite length_app; simpl; lia|done]. simpl.
  rewrite (digit_token (pre ++ [a + "0"%c; b + "0"%c; c + "0"%c]) d post (p + 3));
    [|by rewrite <- app_assoc|rewrite length_app; simpl; lia|done]. simpl. f_equal. lia.
Qed.

Lemma month_token pre m post p :
  value = pre ++ month_name m ++ post -> p = Z.of_nat (length pre) -> 0 <= m <= 11 ->
  month_at value p = Ok m.
Proof.
  intros Hv Hp Hm.
  assert (H : exists a b c, month_name m = [a; b; c]) by (split_month m; by eexists _, _, _).
  destruct H as (a & b & c & E). rewrite E in Hv. unfold month_at.
  rewrite (get_token pre a ([b; c] ++ post) p) by done.
  rewrite (get_token (pre ++ [a]) b ([c] ++ post) (p + 1));
    [|by rewrite <- app_assoc|rewrite length_app; simpl; lia].
  rewrite (get_token (pre ++ [a; b]) c post (p + 2));
    [|by rewrite <- app_assoc|rewrite length_app; simpl; lia].
  clear Hv. revert E. split_month m; intros [= <- <- <-]; reflexivity.
Qed.

Lemma time_token pre h mi s post p :
  value = pre ++ bytes_of " " ++ hms h mi s ++ post -> p = Z.of_nat (length pre) ->
  0 <= h <= 99 -> 0 <= mi <= 99 -> 0 <= s <= 99 -> time_at value p = Ok (h, mi, s).
Proof.
  intros Hv Hp Hh Hmi Hs. unfold time_at, hms in *. change (bytes_of " ") with [" "%c] in Hv.
  rewrite <- !app_assoc in Hv.
  rewrite (expect_token pre _ (dd h ++ [":"%c] ++ dd mi ++ [":"%c] ++ dd s ++ post) p) by done. simpl.
  rewrite (two_token (pre ++ [" "%c]) h ([":"%c] ++ dd mi ++ [":"%c] ++ dd s ++ post) (p + 1));
    [|by rewrite <- app_assoc|rewrite length_app; simpl; lia|done]. simpl.
  rewrite (expect_token (pre ++ [" "%c] ++ dd h) _ (dd mi ++ [":"%c] ++ dd s ++ post) (p + 3));
    [|by rewrite <- !app_assoc|rewrite !length_app; simpl; lia]. simpl.
  rewrite (two_token (pre ++ [" "%c] ++ dd h ++ [":"%c]) mi ([":"%c] ++ dd s ++ post) (p + 4));
    [|by rewrite <- !app_assoc|rewrite !length_app; simpl; lia|done]. simpl.
  rewrite (expect_token (pre ++ [" "%c] ++ dd h ++ [":"%c] ++ dd mi) _ (dd s ++ post) (p + 6));
    [|by rewrite <- !app_assoc|rewrite !length_app; simpl; lia]. simpl.
  rewrite (two_token (pre ++ [" "%c] ++ dd h ++ [":"%c] ++ dd mi ++ [":"%c]) s post (p + 7));
    [|by rewrite <- !app_assoc|rewrite !length_app; simpl; lia|done]. done.
Qed.
End Tokens.

(** ** Whole dates *)

Definition word_byte (c : Z) : Prop := c <> ","%c /\ c <> " "%c.

Lemma find_separator_word value w c rest : Forall word_byte w -> value = w ++ c :: rest ->
  c = ","%c \/ c = " "%c ->
  find_separator value (length value) 0
  = (if c =? ","%c then no else isoc, Z.of_nat (length w)).
Proof.
  intros Hw Hv Hc.
  assert (H : forall w1 w2 n, w = w1 ++ w2 -> (length w2 < n)%nat ->
    find_separator value n (Z.of_nat (length w1))
    = (if c =? ","%c then no else isoc, Z.of_nat (length w))).
  { intros w1 w2; revert w1; induction w2 as [|x w2 IH]; intros w1 n E Hn;
      (destruct n as [|n]; [simpl in Hn; lia|]); cbn [find_separator].
    - rewrite app_nil_r in E. subst w1. rewrite Hv, rd_mid.
      by destruct Hc as [-> | ->].
    - assert (Hx : word_byte x) by (rewrite E in Hw; by apply Forall_app in Hw as [_ Hw]; apply Forall_inv in Hw).
      assert (Hr : rd value (Z.of_nat (length w1)) = x).
      { rewrite Hv, E, <- app_assoc. apply rd_mid. }
      destruct Hx as [H1 H2]. rewrite Hr, !(proj2 (Z.eqb_neq x _)) by done.
      replace (Z.of_nat (length w1) + 1) with (Z.of_nat (length (w1 ++ [x])))
        by (rewrite length_app; simpl; lia).
      apply IH; [by rewrite <- app_assoc|simpl in Hn; lia]. }
  apply (H [] w); [done|]. rewrite Hv, length_app. simpl. lia.
Qed.

Lemma skip_spaces_stop value pre c rest n :
  value = pre ++ c :: rest -> c <> " "%c -> skip_spaces value n (Z.of_nat (length pre)) = Z.of_nat (length pre).
Proof.
  intros Hv Hc. destruct n as [|n]; simpl; [done|]. rewrite Hv, rd_mid. by rewrite (proj2 (Z.eqb_neq c _)).
Qed.

Lemma skip_spaces_one value pre c rest n :
  value = pre ++ " "%c :: c :: rest -> c <> " "%c ->
  skip_spaces value (S n) (Z.of_nat (length pre)) = Z.of_nat (length pre) + 1.
Proof.
  intros Hv Hc. cbn [skip_spaces]. rewrite Hv at 1. rewrite rd_mid. cbn [Z.eqb Pos.eqb].
  replace (Z.of_nat (length pre) + 1) with (Z.of_nat (length (pre ++ [" "%c])))
    by (rewrite length_app; simpl; lia).
  apply (skip_spaces_stop _ _ c rest); [by rewrite <- app_assoc|done].
Qed.

Lemma land3 y : Z.land y 3 = y mod 4.
Proof. apply (Z.land_ones y 2). lia. Qed.

Lemma valid_eq y m d h mi s : 0 <= m <= 11 -> valid y m d h mi s = valid_date y m d h mi s.
Proof.
  intros Hm. unfold valid, valid_date.
  rewrite !Z.ltb_antisym. destruct (h <=? 23), (mi <=? 59), (s <=? 59); cbn [negb orb andb]; try done.
  unfold days_in_month, leap. rewrite land3.
  destruct (Z.eqb_spec m 1) as [->|Hm1]; [|by rewrite andb_false_r, negb_involutive].
  destruct (Z.eqb_spec d 29) as [->|Hd].
  - by destruct (y mod 4 =? 0), (y mod 100 =? 0), (y mod 400 =? 0).
  - cbn [andb]. rewrite negb_involutive. change (rd mday 1) with 28.
    destruct (_ && _); [|done]. destruct (Z.leb_spec d 28), (Z.leb_spec d 29); done || lia.
Qed.

Definition answer (y m d h mi s : Z) : res Z :=
  if valid_date y m d h mi s then Ok (epoch y m d h mi s) else Err.

Section Dates.
Context (w post : list Z) (y m d h mi s : Z).
Hypothesis Hw : Forall word_byte w.
Hypothesis Hy : 1 <= y <= 9999.
Hypothesis Hm : 0 <= m <= 11.
Hypothesis Hd : 0 <= d <= 99.
Hypothesis Hh : 0 <= h <= 99.
Hypothesis Hmi : 0 <= mi <= 99.
Hypothesis Hs : 0 <= s <= 99.

Lemma finish_answer : finish y m d h mi s = answer y m d h mi s.
Proof using Hy Hm Hd Hh Hmi Hs.
  unfold finish, answer. rewrite valid_eq by done. by rewrite gauss_epoch.
Qed.

Lemma month_length : length (month_name m) = 3%nat.
Proof using Hm. by split_month m. Qed.

Lemma dd_head n : 0 <= n <= 99 -> n / 10 + "0"%c <> " "%c.
Proof using. intros Hn. destruct (dd_digits n Hn) as (? & _). lia. Qed.

Lemma parse_rfc822_date :
  ngx_http_parse_time (print_rfc822 w y m d h mi s ++ post) = answer y m d h mi s.
Proof using Hw Hy Hm Hd Hh Hmi Hs.
  set (value := print_rfc822 w y m d h mi s ++ post).
  set (rest := bytes_of " " ++ month_name m ++ bytes_of " " ++ yyyy y ++ bytes_of " " ++ hms h mi s ++ post).
  assert (Hv : value = w ++ bytes_of ", " ++ dd d ++ rest)
    by (unfold value, print_rfc822, rest; by rewrite <- !app_assoc).
  unfold ngx_http_parse_time.
  rewrite (find_separator_word value w ","%c (" "%c :: dd d ++ rest)) by (done || by left). cbn [Z.eqb Pos.eqb].
  assert (Hlen : end_ value = Z.of_nat (length w) + 22 + Z.of_nat (length post)).
  { unfold end_. rewrite Hv. unfold rest. rewrite !length_app, month_length. unfold hms. simpl. lia. }
  replace (Z.to_nat (end_ value - (Z.of_nat (length w) + 1)))
    with (S (Z.to_nat (end_ value - (Z.of_nat (length w) + 2)))) by lia.
  replace (Z.of_nat (length w) + 1) with (Z.of_nat (length (w ++ [","%c]))) by (rewrite length_app; simpl; lia).
  rewrite (skip_spaces_one value _ (d / 10 + "0"%c) ((d mod 10 + "0"%c) :: rest));
    [|rewrite Hv, <- app_assoc; done|by apply dd_head].
  rewrite length_app. cbn [length].
  set (p := Z.of_nat (length w + 1) + 1). 
  destruct (Z.ltb_spec (end_ value - p) 18) as [Hl|_]; [lia|]. 
  assert (Hp : p = Z.of_nat (length (w ++ bytes_of ", "))) by (unfold p; rewrite length_app; simpl; lia).
  unfold parse_rfc, day_first.
  rewrite (two_token value (w ++ bytes_of ", ") d rest p); [|by rewrite Hv, <- app_assoc|done|done]. simpl.
  rewrite (get_token value (w ++ bytes_of ", " ++ dd d) " "%c
    (month_name m ++ bytes_of " " ++ yyyy y ++ bytes_of " " ++ hms h mi s ++ post) (p + 2));
    [|by rewrite Hv, <- !app_assoc|rewrite Hp, !length_app; simpl; lia]. simpl.
  destruct (Z.ltb_spec (end_ value - (p + 2)) 18) as [Hl|_]; [lia|]. simpl.
  rewrite (month_token value (w ++ bytes_of ", " ++ dd d ++ bytes_of " ") m
    (bytes_of " " ++ yyyy y ++ bytes_of " " ++ hms h mi s ++ post) (p + 3));
    [|by rewrite Hv, <- !app_assoc|rewrite Hp, !length_app; simpl; lia|done]. simpl.
  rewrite (expect_token value (w ++ bytes_of ", " ++ dd d ++ bytes_of " " ++ month_name m) " "%c
    (yyyy y ++ bytes_of " " ++ hms h mi s ++ post) (p + 3 + 3));
    [|by rewrite Hv, <- !app_assoc|rewrite Hp, !length_app, month_length; simpl; lia]. simpl.
  rewrite (four_token value (w ++ bytes_of ", " ++ dd d ++ bytes_of " " ++ month_name m ++ bytes_of " ") y
    (bytes_of " " ++ hms h mi s ++ post) (p + 3 + 4));
    [|by rewrite Hv, <- !app_assoc|rewrite Hp, !length_app, month_length; simpl; lia|lia]. simpl.
  rewrite (time_token value (w ++ bytes_of ", " ++ dd d ++ bytes_of " " ++ month_name m ++ bytes_of " " ++ yyyy y)
    h mi s post (p + 3 + 8));
    [|by rewrite Hv, <- !app_assoc|rewrite Hp, !length_app, month_length; simpl; lia|done|done|done]. simpl.
  apply finish_answer.
Qed.

Lemma parse_rfc850_date : 1970 <= y <= 2069 ->
  ngx_http_parse_time (print_rfc850 w y m d h mi s ++ post) = answer y m d h mi s.
Proof using Hw Hy Hm Hd Hh Hmi Hs.
  intros Hy2. set (value := print_rfc850 w y m d h mi s ++ post).
  set (rest := bytes_of "-" ++ month_name m ++ bytes_of "-" ++ dd (y mod 100) ++ bytes_of " " ++ hms h mi s ++ post).
  assert (Hv : value = w ++ bytes_of ", " ++ dd d ++ rest)
    by (unfold value, print_rfc850, rest; by rewrite <- !app_assoc).
  unfold ngx_http_parse_time.
  rewrite (find_separator_word value w ","%c (" "%c :: dd d ++ rest)) by (done || by left). cbn [Z.eqb Pos.eqb].
  assert (Hlen : end_ value = Z.of_nat (length w) + 20 + Z.of_nat (length post)).
  { unfold end_. rewrite Hv. unfold rest. rewrite !length_app, month_length. unfold hms. simpl. lia. }
  replace (Z.to_nat (end_ value - (Z.of_nat (length w) + 1)))
    with (S (Z.to_nat (end_ value - (Z.of_nat (length w) + 2)))) by lia.
  replace (Z.of_nat (length w) + 1) with (Z.of_nat (length (w ++ [","%c]))) by (rewrite length_app; simpl; lia).
  rewrite (skip_spaces_one value _ (d / 10 + "0"%c) ((d mod 10 + "0"%c) :: rest));
    [|rewrite Hv, <- app_assoc; done|by apply dd_head].
  rewrite length_app. cbn [length].
  set (p := Z.of_nat (length w + 1) + 1).
  destruct (Z.ltb_spec (end_ value - p) 18) as [Hl|_]; [lia|].
  assert (Hp : p = Z.of_nat (length (w ++ bytes_of ", "))) by (unfold p; rewrite length_app; simpl; lia).
  unfold parse_rfc, day_first.
  rewrite (two_token value (w ++ bytes_of ", ") d rest p); [|by rewrite Hv, <- app_assoc|done|done]. simpl.
  rewrite (get_token value (w ++ bytes_of ", " ++ dd d) "-"%c
    (month_name m ++ bytes_of "-" ++ dd (y mod 100) ++ bytes_of " " ++ hms h mi s ++ post) (p + 2));
    [|by rewrite Hv, <- !app_assoc|rewrite Hp, !length_app; simpl; lia]. simpl.
  rewrite (month_token value (w ++ bytes_of ", " ++ dd d ++ bytes_of "-") m
    (bytes_of "-" ++ dd (y mod 100) ++ bytes_of " " ++ hms h mi s ++ post) (p + 3));
    [|by rewrite Hv, <- !app_assoc|rewrite Hp, !length_app; simpl; lia|done]. simpl.
  rewrite (expect_token value (w ++ bytes_of ", " ++ dd d ++ bytes_of "-" ++ month_name m) "-"%c
    (dd (y mod 100) ++ bytes_of " " ++ hms h mi s ++ post) (p + 3 + 3));
    [|by rewrite Hv, <- !app_assoc|rewrite Hp, !length_app, month_length; simpl; lia]. simpl.
  unfold year_850.
  rewrite (two_token value (w ++ bytes_of ", " ++ dd d ++ bytes_of "-" ++ month_name m ++ bytes_of "-") (y mod 100)
    (bytes_of " " ++ hms h mi s ++ post) (p + 3 + 4));
    [|by rewrite Hv, <- !app_assoc|rewrite Hp, !length_app, month_length; simpl; lia
     |pose proof (Z.mod_pos_bound y 100); lia]. simpl.
  rewrite (time_token value (w ++ bytes_of ", " ++ dd d ++ bytes_of "-" ++ month_name m ++ bytes_of "-" ++ dd (y mod 100))
    h mi s post (p + 3 + 6));
    [|by rewrite Hv, <- !app_assoc|rewrite Hp, !length_app, month_length; simpl; lia|done|done|done]. simpl.
  rewrite <- finish_answer. f_equal. destruct (Z.ltb_spec (y mod 100) 70);
    Z.to_euclidean_division_equations; lia.
Qed.

Lemma padded_length : length (padded d) = 2%nat.
Proof using. unfold padded. by destruct (d <? 10). Qed.

Lemma day_isoc_token value pre post' p :
  value = pre ++ padded d ++ bytes_of " " ++ post' -> p = Z.of_nat (length pre) ->
  day_isoc value p = Ok (d, p + 2).
Proof using Hd.
  intros Hv Hp. unfold day_isoc, padded in *. change (bytes_of " ") with [" "%c] in Hv.
  destruct (Z.ltb_spec d 10).
  - rewrite (get_token value pre " "%c ((d + "0"%c) :: [" "%c] ++ post') p) by done. simpl.
    rewrite (digit_token value (pre ++ [" "%c]) d ([" "%c] ++ post') (p + 1));
      [|by rewrite Hv, <- app_assoc|rewrite length_app; simpl; lia|lia]. simpl.
    rewrite (get_token value (pre ++ [" "%c; d + "0"%c]) " "%c post' (p + 1 + 1));
      [|by rewrite Hv, <- app_assoc|rewrite length_app; simpl; lia]. simpl. do 2 f_equal. lia.
  - destruct (dd_digits d Hd) as (H1 & H2 & H3). unfold dd in Hv.
    rewrite (get_token value pre (d / 10 + "0"%c) ([d mod 10 + "0"%c] ++ [" "%c] ++ post') p) by done. simpl.
    rewrite (proj2 (Z.eqb_neq (d / 10 + "0"%c) " "%c)) by lia.
    rewrite (digit_token value pre (d / 10) ([d mod 10 + "0"%c] ++ [" "%c] ++ post') p) by done. simpl.
    rewrite (get_token value (pre ++ [d / 10 + "0"%c]) (d mod 10 + "0"%c) ([" "%c] ++ post') (p + 1));
      [|by rewrite Hv, <- app_assoc|rewrite length_app; simpl; lia]. simpl.
    rewrite (proj2 (Z.eqb_neq (d mod 10 + "0"%c) " "%c)) by lia.
    rewrite (digit_token value (pre ++ [d / 10 + "0"%c]) (d mod 10) ([" "%c] ++ post') (p + 1));
      [|by rewrite Hv, <- app_assoc|rewrite length_app; simpl; lia|done]. simpl. do 2 f_equal; lia.
Qed.

Lemma month_head : exists c t, month_name m = c :: t /\ c <> " "%c.
Proof using Hm. split_month m; by eexists _, _. Qed.

Lemma parse_asctime_date :
  ngx_http_parse_time (print_asctime w y m d h mi s ++ post) = answer y m d h mi s.
Proof using Hw Hy Hm Hd Hh Hmi Hs.
  set (value := print_asctime w y m d h mi s ++ post).
  set (rest := hms h mi s ++ bytes_of " " ++ yyyy y ++ post).
  assert (Hv : value = w ++ bytes_of " " ++ month_name m ++ bytes_of " " ++ padded d ++ bytes_of " " ++ rest)
    by (unfold value, print_asctime, rest; by rewrite <- !app_assoc).
  destruct month_head as (c & t & Hc & Hcs).
  unfold ngx_http_parse_time.
  rewrite (find_separator_word value w " "%c
    (month_name m ++ bytes_of " " ++ padded d ++ bytes_of " " ++ rest)) by (done || by right).
  cbn [Z.eqb Pos.eqb].
  assert (Hlen : end_ value = Z.of_nat (length w) + 21 + Z.of_nat (length post)).
  { unfold end_. rewrite Hv. unfold rest. rewrite !length_app, month_length, padded_length.
    unfold hms. simpl. lia. }
  replace (Z.of_nat (length w) + 1) with (Z.of_nat (length (w ++ bytes_of " "))) by (rewrite length_app; simpl; lia).
  rewrite (skip_spaces_stop value _ c (t ++ bytes_of " " ++ padded d ++ bytes_of " " ++ rest));
    [|rewrite Hv, Hc, <- app_assoc; done|done].
  set (p := Z.of_nat (length (w ++ bytes_of " "))).
  assert (Hp : p = Z.of_nat (length w) + 1) by (unfold p; rewrite length_app; simpl; lia).
  destruct (Z.ltb_spec (end_ value - p) 18) as [Hl|_]; [lia|].
  unfold parse_isoc.
  rewrite (month_token value (w ++ bytes_of " ") m (bytes_of " " ++ padded d ++ bytes_of " " ++ rest) p);
    [|by rewrite Hv, <- !app_assoc|done|done]. simpl.
  rewrite (day_isoc_token value (w ++ bytes_of " " ++ month_name m ++ bytes_of " ") rest (p + 4));
    [|by rewrite Hv, <- !app_assoc|rewrite Hp, !length_app, month_length; simpl; lia]. simpl.
  destruct (Z.ltb_spec (end_ value - (p + 4 + 2)) 14) as [Hl|_]; [lia|].
  rewrite (time_token value (w ++ bytes_of " " ++ month_name m ++ bytes_of " " ++ padded d) h mi s
    (bytes_of " " ++ yyyy y ++ post) (p + 4 + 2));
    [|unfold rest in Hv; by rewrite Hv, <- !app_assoc
     |rewrite Hp, !length_app, month_length, padded_length; simpl; lia|done|done|done]. simpl.
  rewrite (expect_token value
    (w ++ bytes_of " " ++ month_name m ++ bytes_of " " ++ padded d ++ bytes_of " " ++ hms h mi s) " "%c
    (yyyy y ++ post) (p + 4 + 2 + 9));
    [|unfold rest in Hv; by rewrite Hv, <- !app_assoc
     |rewrite Hp, !length_app, month_length, padded_length; simpl; lia]. simpl.
  rewrite (four_token value
    (w ++ bytes_of " " ++ month_name m ++ bytes_of " " ++ padded d ++ bytes_of " " ++ hms h mi s ++ bytes_of " ")
    y post (p + 4 + 2 + 10));
    [|unfold rest in Hv; by rewrite Hv, <- !app_assoc
     |rewrite Hp, !length_app, month_length, padded_length; simpl; lia|lia]. simpl.
  apply finish_answer.
Qed.
End Dates.

(** ** The properties *)

(** A date in one of the three formats; the two-digit year of RFC 850 covers
    1970 to 2069. *)
Definition print (f : format) (w : list Z) (y m d h mi s : Z) : list Z :=
  match f with
  | rfc850 => print_rfc850 w y m d h mi s
  | isoc => print_asctime w y m d h mi s
  | _ => print_rfc822 w y m d h mi s
  end.

(** Whether there is such a day and time. *)
Definition real_date (y m d hour min sec : Z) : bool :=
  (hour <=? 23) && (min <=? 59) && (sec <=? 59) && (1 <=? d) && (d <=? days_in_month y m).

Lemma days_in_month_ge y m : 0 <= m <= 11 -> 28 <= days_in_month y m.
Proof.
  intros Hm. unfold days_in_month. destruct (_ && _); [lia|].
  assert (E : m = 0 \/ m = 1 \/ m = 2 \/ m = 3 \/ m = 4 \/ m = 5 \/ m = 6 \/ m = 7 \/ m = 8 \/ m = 9 \/ m = 10 \/ m = 11) by lia.
  repeat destruct E as [-> |E]; try subst m; vm_compute; discriminate.
Qed.

(** C40: A date printed in any of the three formats is parsed to the seconds since the
    epoch that counting the days of the calendar gives, when its day and time exist.
    One that does not is refused, but for day 0 of a month at a time that exists: it is
    taken for the day before the first. *)
Theorem parse_time_correct (f : format) (w post : list Z) (y m d h mi s : Z) :
  Forall word_byte w -> 1 <= y <= 9999 -> (f = rfc850 -> 1970 <= y <= 2069) -> 0 <= m <= 11 ->
  0 <= d <= 99 -> 0 <= h <= 99 -> 0 <= mi <= 99 -> 0 <= s <= 99 ->
  ngx_http_parse_time (print f w y m d h mi s ++ post)
  = if real_date y m d h mi s then Ok (epoch y m d h mi s)
    else if (d =? 0) && real_date y m 1 h mi s then Ok (epoch y m 1 h mi s - 86400) else Err.
Proof.
  intros Hw Hy Hf Hm Hd Hh Hmi Hs.
  assert (E : (if real_date y m d h mi s then Ok (epoch y m d h mi s)
    else if (d =? 0) && real_date y m 1 h mi s then Ok (epoch y m 1 h mi s - 86400) else Err)
    = if valid_date y m d h mi s then Ok (epoch y m d h mi s) else Err).
  { unfold real_date, valid_date. destruct (Z.eqb_spec d 0) as [-> |Hne].
    - pose proof (days_in_month_ge y m Hm). replace (1 <=? 0) with false by done. replace (1 <=? 1) with true by done.
      destruct (Z.leb_spec 1 (days_in_month y m)), (Z.leb_spec 0 (days_in_month y m)); try lia.
      rewrite !andb_true_r, !andb_false_r, andb_true_l. replace (epoch y m 1 h mi s - 86400) with (epoch y m 0 h mi s) by (unfold epoch; lia). done.
    - destruct (Z.leb_spec 1 d); [|lia]. rewrite andb_true_r. cbn [andb]. done. }
  rewrite E. destruct f; cbn [print].
  - by apply parse_rfc822_date.
  - by apply parse_rfc822_date.
  - by apply parse_rfc850_date; auto.
  - by apply parse_asctime_date.
Qed.

Lemma parse_time_correct_witness :
  print rfc822 (bytes_of "Sun") 1994 10 6 8 49 37 ++ bytes_of " GMT"
    = bytes_of "Sun, 06 Nov 1994 08:49:37 GMT" /\
  ngx_http_parse_time (print rfc822 (bytes_of "Sun") 1994 10 6 8 49 37 ++ bytes_of " GMT")
    = Ok 784111777.
Proof.
  split; [by vm_compute|].
  rewrite (parse_time_correct rfc822 (bytes_of "Sun") (bytes_of " GMT") 1994 10 6 8 49 37); try lia; try done.
  repeat constructor; discriminate.
Defined.

(** Day 0 of a month is accepted and means the day before its first. *)
Theorem day_zero_accepted :
  ngx_http_parse_time (bytes_of "Thu, 00 Jan 1970 00:00:00 GMT") = Ok (-86400).
Proof. by vm_compute. Qed.

End ParseTimeProps.
