(* ===== verification/RoundRobin.v ===== *)
(** * [ngx_http_upstream_round_robin.c]

    The weighted round-robin balancer: the groups of peers built from the
    configuration ([ngx_http_upstream_init_round_robin]) or from a resolved
    name ([ngx_http_upstream_create_round_robin_peer]), the balancing data of
    a request, and the operations the upstream module calls on it.  Groups are
    shared by the requests, so they live in a heap and a pointer to a group is
    its address there.  Weights are plain [Z]: [RoundRobinWeights] proves that
    they stay far from the ends of [ngx_int_t]. *)

From S2P Require Import Prelude.

Module RoundRobin.

(** [8 * sizeof(uintptr_t)] *)
Definition word_bits : nat := 64.
Definition ngx_int (z : Z) : Z := swrap 64 z.

(** A [struct sockaddr] with its [socklen]: one made elsewhere, or the
    [sockaddr_in] made here. *)
Inductive addr := Addr (sa : Z) (socklen : Z) | sockaddr_in (sin_port sin_addr : Z).

(** [ngx_http_upstream_rr_peer_t] *)
Record peer := Peer {
  sockaddr : option addr;   (** [NULL] in a zeroed peer *)
  peer_name : list Z;
  current_weight : Z;   (** [ngx_int_t], as the two below *)
  effective_weight : Z;
  weight : Z;
  fails : Z;
  accessed : Z;
  checked : Z;
  max_fails : Z;
  fail_timeout : Z;
  down : bool;
  ssl_session : option Z;
}.

#[export] Instance set_current_weight : Setter current_weight := fun v r =>
  Peer
    (sockaddr r) (peer_name r) v (effective_weight r) (weight r) (fails r) (accessed
    r) (checked r) (max_fails r) (fail_timeout r) (down r) (ssl_session r).
#[export] Instance set_effective_weight : Setter effective_weight := fun v r =>
  Peer
    (sockaddr r) (peer_name r) (current_weight r) v (weight r) (fails r) (accessed
    r) (checked r) (max_fails r) (fail_timeout r) (down r) (ssl_session r).
#[export] Instance set_fails : Setter fails := fun v r =>
  Peer
    (sockaddr r) (peer_name r) (current_weight r) (effective_weight r) (weight r) v
    (accessed r) (checked r) (max_fails r) (fail_timeout r) (down r) (ssl_session r).
#[export] Instance set_accessed : Setter accessed := fun v r =>
  Peer
    (sockaddr r) (peer_name r) (current_weight r) (effective_weight r) (weight r)
    (fails r) v (checked r) (max_fails r) (fail_timeout r) (down r) (ssl_session r).
#[export] Instance set_checked : Setter checked := fun v r =>
  Peer
    (sockaddr r) (peer_name r) (current_weight r) (effective_weight r) (weight r)
    (fails r) (accessed r) v (max_fails r) (fail_timeout r) (down r) (ssl_session r).
#[export] Instance set_ssl_session : Setter ssl_session := fun v r =>
  Peer
    (sockaddr r) (peer_name r) (current_weight r) (effective_weight r) (weight r)
    (fails r) (accessed r) (checked r) (max_fails r) (fail_timeout r) (down r) v.

(** What [ngx_pcalloc] gives. *)
Definition zero_peer : peer := Peer None [] 0 0 0 0 0 0 0 0 false None.

(** [ngx_http_upstream_rr_peers_t] *)
Record peers := Peers {
  number : nat;
  total_weight : Z;
  single : bool;
  weighted : bool;
  peers_name : list Z;
  next : option nat;   (** the address of the backup group *)
  peer_array : list peer;
}.

#[export] Instance set_single : Setter single := fun v r =>
  Peers
    (number r) (total_weight r) v (weighted r) (peers_name r) (next r) (peer_array
    r).
#[export] Instance set_next : Setter next := fun v r =>
  Peers
    (number r) (total_weight r) (single r) (weighted r) (peers_name r) v (peer_array
    r).
#[export] Instance set_peer_array : Setter peer_array := fun v r =>
  Peers
    (number r) (total_weight r) (single r) (weighted r) (peers_name r) (next r) v.

Definition zero_peers (n : nat) : peers := Peers 0 0 false false [] None (replicate n zero_peer).

Abbreviation heap := (list peers).

(** [ngx_http_upstream_rr_peer_data_t]; [tried] is [&data] or an array, and
    its words are what it points to. *)
Record rr_peer_data := RRP {
  rrp_peers : nat;   (** the address of a group *)
  current : nat;
  tried : list Z;   (** the words of the bitmap *)
}.

#[export] Instance set_rrp_peers : Setter rrp_peers := fun v r =>
  RRP
    v (current r) (tried r).
#[export] Instance set_current : Setter current := fun v r =>
  RRP
    (rrp_peers r) v (tried r).
#[export] Instance set_tried : Setter tried := fun v r =>
  RRP
    (rrp_peers r) (current r) v.

(** [ngx_peer_connection_t], the fields used here. *)
Record peer_connection := PC {
  pc_sockaddr : option addr;
  pc_name : list Z;
  tries : Z;   (** [ngx_uint_t] *)
  cached : bool;
  connection : option Z;
}.

#[export] Instance set_pc_sockaddr : Setter pc_sockaddr := fun v r =>
  PC
    v (pc_name r) (tries r) (cached r) (connection r).
#[export] Instance set_pc_name : Setter pc_name := fun v r =>
  PC
    (pc_sockaddr r) v (tries r) (cached r) (connection r).
#[export] Instance set_tries : Setter tries := fun v r =>
  PC
    (pc_sockaddr r) (pc_name r) v (cached r) (connection r).
#[export] Instance set_cached : Setter cached := fun v r =>
  PC
    (pc_sockaddr r) (pc_name r) (tries r) v (connection r).
#[export] Instance set_connection : Setter connection := fun v r =>
  PC
    (pc_sockaddr r) (pc_name r) (tries r) (cached r) v.

(** Which of the two pairs of session callbacks [set_session] and
    [save_session] hold. *)
Inductive session_ops := round_robin_sessions | empty_sessions.

(** [r->upstream], the fields used here. *)
Record upstream := Upstream {
  peer_data : option rr_peer_data;   (** [peer.data] *)
  u_peer : peer_connection;
  sessions : session_ops;
}.

#[export] Instance set_peer_data : Setter peer_data := fun v r =>
  Upstream
    v (u_peer r) (sessions r).
#[export] Instance set_u_peer : Setter u_peer := fun v r =>
  Upstream
    (peer_data r) v (sessions r).
#[export] Instance set_sessions : Setter sessions := fun v r =>
  Upstream
    (peer_data r) (u_peer r) v.

(** [ngx_http_upstream_server_t]; [naddrs] is the length of [addrs]. *)
Record server := Server {
  addrs : list (addr * list Z);   (** with their names *)
  s_weight : Z;
  s_max_fails : Z;
  s_fail_timeout : Z;
  s_down : bool;
  s_backup : bool;
}.

Definition naddrs (s : server) : nat := length (addrs s).

(** [ngx_http_upstream_srv_conf_t], the fields used here. *)
Record srv_conf := SrvConf {
  servers : option (list server);
  host : list Z;
  port : Z;
  us_data : option nat;   (** [peer.data] *)
}.

#[export] Instance set_us_data : Setter us_data := fun v r =>
  SrvConf
    (servers r) (host r) (port r) v.

(** [ngx_http_upstream_resolved_t] *)
Record resolved := Resolved {
  ur_host : list Z;
  ur_port : Z;
  ur_naddrs : nat;
  ur_addrs : list Z;
  ur_sockaddr : option addr;
}.

(** What is asked of the memory pools. *)
Inductive allocation := ForPeers (n : nat) | ForPeerData | ForTried (n : nat) | ForName (i : nat) | ForSockaddr (i : nat).

Section Ops.
(** The memory pools, the resolver and the text functions of the nginx core,
    and the byte order of the machine. *)
Variable alloc : allocation -> bool.
Variable ngx_inet_resolve_host : list Z -> Z -> option (list (addr * list Z)).
Variable ngx_inet_ntop : Z -> list Z.
Variable sprint_d : Z -> list Z.
Variable htons : Z -> Z.
Variable NGX_PEER_FAILED : Z.

(** ** [ngx_http_upstream_init_round_robin] *)

(** A peer of a configured server. *)
Definition new_peer (s : server) (a : addr * list Z) : peer :=
  Peer (Some (fst a)) (snd a) 0 (ngx_int (s_weight s)) (ngx_int (s_weight s)) 0 0 0
    (s_max_fails s) (s_fail_timeout s) (s_down s) None.

(** A peer with the defaults of an upstream that is not configured. *)
Definition default_peer (a : addr * list Z) : peer :=
  Peer (Some (fst a)) (snd a) 0 1 1 0 0 0 1 10 false None.

(** The counting loops: [n] and [w] over the servers with this [backup]. *)
Definition count (backup : bool) (ss : list server) : nat * Z :=
  foldl (fun '(n, w) s =>
    if Bool.eqb (s_backup s) backup
    then ((n + naddrs s)%nat, wrap 64 (w + Z.of_nat (naddrs s) * s_weight s)) else (n, w)) (O, 0) ss.

(** The filling loops. *)
Definition fill (backup : bool) (ss : list server) : list peer :=
  foldl (fun acc s =>
    if Bool.eqb (s_backup s) backup then acc ++ map (new_peer s) (addrs s) else acc) [] ss.

Definition group (single : bool) (n : nat) (w : Z) (name : list Z) (ps : list peer) : peers :=
  Peers n w single (negb (w =? Z.of_nat n)) name None ps.

(** The branch for an [upstream] block. *)
Definition init_servers (us : srv_conf) (ss : list server) (h : heap) : ngx_rc * srv_conf * heap :=
  let '(n, w) := count false ss in
  if (n =? 0)%nat then (NGX_ERROR, us, h)
  else if negb (alloc (ForPeers n)) then (NGX_ERROR, us, h)
  else
    let primary := group (n =? 1)%nat n w (host us) (fill false ss) in
    let a := length h in
    let us := us <| us_data := Some a |> in
    let '(bn, bw) := count true ss in
    if (bn =? 0)%nat then (NGX_OK, us, h ++ [primary])
    else if negb (alloc (ForPeers bn)) then (NGX_ERROR, us, h ++ [primary])
    else
      let backup := group false bn bw (host us) (fill true ss) in
      (NGX_OK, us, h ++ [primary <| single := false |> <| next := Some (S a) |>; backup]).

(** The branch for an upstream defined implicitly. *)
Definition init_implicit (us : srv_conf) (h : heap) : ngx_rc * srv_conf * heap :=
  if port us =? 0 then (NGX_ERROR, us, h)
  else match ngx_inet_resolve_host (host us) (port us) with
  | None => (NGX_ERROR, us, h)
  | Some u_addrs =>
      let n := length u_addrs in
      if negb (alloc (ForPeers n)) then (NGX_ERROR, us, h)
      else (NGX_OK, us <| us_data := Some (length h) |>,
            h ++ [Peers n (Z.of_nat n) (n =? 1)%nat false (host us) None (map default_peer u_addrs)])
  end.

Definition ngx_http_upstream_init_round_robin (us : srv_conf) (h : heap) : ngx_rc * srv_conf * heap :=
  match servers us with
  | Some ss => init_servers us ss h
  | None => init_implicit us h
  end.

(** ** The balancing data of a request *)

Definition group_at (h : heap) (a : nat) : peers := nth a h (zero_peers 0).
Definition words (n : nat) : nat := ((n + (word_bits - 1)) / word_bits)%nat.

(** [rrp->tried] for [n] peers: the inline word, or an array. *)
Definition init_tried (n : nat) (d : rr_peer_data) : option rr_peer_data :=
  if (n <=? word_bits)%nat then Some (d <| tried := [0] |>)
  else if alloc (ForTried (words n)) then Some (d <| tried := replicate (words n) 0 |>)
  else None.

(** [r->upstream->peer.data], allocated if there is none. *)
Definition get_rrp (u : upstream) : option rr_peer_data :=
  match peer_data u with
  | Some d => Some d
  | None => if alloc ForPeerData then Some (RRP 0 0 []) else None
  end.

(** The end of both functions below. *)
Definition start_peers (ops : session_ops) (n : nat) (h : heap) (u : upstream) (d : rr_peer_data)
  : ngx_rc * upstream :=
  match init_tried n d with
  | None => (NGX_ERROR, u <| peer_data := Some d |>)
  | Some d =>
      (NGX_OK, u <| peer_data := Some d |> <| sessions := ops |>
                 <| u_peer := (u_peer u) <| tries := Z.of_nat (number (group_at h (rrp_peers d))) |> |>)
  end.

Definition ngx_http_upstream_init_round_robin_peer (h : heap) (us : nat) (u : upstream)
  : ngx_rc * upstream :=
  match get_rrp u with
  | None => (NGX_ERROR, u)
  | Some d =>
      let d := d <| rrp_peers := us |> <| current := 0%nat |> in
      let n := number (group_at h us) in
      let n := match next (group_at h us) with
               | Some b => if (n <? number (group_at h b))%nat then number (group_at h b) else n
               | None => n end in
      start_peers round_robin_sessions n h u d
  end.

(** A peer of a resolved name. *)
Definition resolved_peer (ur : resolved) (i : nat) : peer :=
  let a := nth i (ur_addrs ur) 0 in
  default_peer (sockaddr_in (htons (ur_port ur)) a, ngx_inet_ntop a ++ [":"%c] ++ sprint_d (ur_port ur)).

Definition resolved_peers (ur : resolved) : option (list peer) :=
  match ur_sockaddr ur with
  | Some sa => Some (<[0%nat := default_peer (sa, ur_host ur)]> (replicate (ur_naddrs ur) zero_peer))
  | None =>
      if forallb (fun i => alloc (ForName i) && alloc (ForSockaddr i)) (seq 0 (ur_naddrs ur))
      then Some (map (resolved_peer ur) (seq 0 (ur_naddrs ur))) else None
  end.

(** [total_weight] and [weighted] keep the zeroes of [ngx_pcalloc]. *)
Definition ngx_http_upstream_create_round_robin_peer (ur : resolved) (h : heap) (u : upstream)
  : ngx_rc * upstream * heap :=
  match get_rrp u with
  | None => (NGX_ERROR, u, h)
  | Some d =>
      let u := u <| peer_data := Some d |> in
      let n := ur_naddrs ur in
      if negb (alloc (ForPeers n)) then (NGX_ERROR, u, h)
      else match resolved_peers ur with
      | None => (NGX_ERROR, u, h)
      | Some ps =>
          let h' := h ++ [Peers n 0 (n =? 1)%nat false (ur_host ur) None ps] in
          let d := d <| rrp_peers := length h |> <| current := 0%nat |> in
          (start_peers empty_sessions n h' u d, h')
      end
  end.

(** ** [ngx_http_upstream_get_peer] *)

Definition peer_at (ps : list peer) (i : nat) : peer := nth i ps zero_peer.

(** [rrp->tried[n] & m] and [rrp->tried[n] |= m] *)
Definition bit (i : nat) : Z := Z.shiftl 1 (Z.of_nat (i mod word_bits)).
Definition is_tried (t : list Z) (i : nat) : bool := negb (Z.land (nth (i / word_bits) t 0) (bit i) =? 0).
Definition set_tried_bit (t : list Z) (i : nat) : list Z :=
  alter (fun w => Z.lor w (bit i)) (i / word_bits)%nat t.

(** The tests of a peer that end in [continue]. *)
Definition failed_recently (now : Z) (p : peer) : bool :=
  negb (max_fails p =? 0) && (max_fails p <=? fails p) && (now - checked p <=? fail_timeout p).
Definition skip_peer (t : list Z) (now : Z) (ps : list peer) (i : nat) : bool :=
  is_tried t i || down (peer_at ps i) || failed_recently now (peer_at ps i).

(** The weights of a peer that takes part. *)
Definition bump (p : peer) : peer :=
  let p := p <| current_weight := current_weight p + effective_weight p |> in
  if effective_weight p <? weight p then p <| effective_weight := effective_weight p + 1 |> else p.

(** One turn of the loop. *)
Definition visit (t : list Z) (now : Z) (s : list peer * option nat * Z) (i : nat)
  : list peer * option nat * Z :=
  let '(ps, best, total) := s in
  if skip_peer t now ps i then s
  else
    let total := total + effective_weight (peer_at ps i) in
    let ps := alter bump i ps in
    let best := match best with
                | None => Some i
                | Some b => if current_weight (peer_at ps b) <? current_weight (peer_at ps i)
                            then Some i else Some b
                end in
    (ps, best, total).

(** What is done to the best peer. *)
Definition take_best (total now : Z) (p : peer) : peer :=
  let p := p <| current_weight := current_weight p - total |> in
  if fail_timeout p <? now - checked p then p <| checked := now |> else p.

Definition get_peer (t : list Z) (now : Z) (n : nat) (ps : list peer) : option nat * list peer :=
  match foldl (visit t now) (ps, None, 0) (seq 0 n) with
  | (ps, None, _) => (None, ps)
  | (ps, Some b, total) => (Some b, alter (take_best total now) b ps)
  end.

(** [ngx_http_upstream_get_peer] on the group of the request. *)
Definition ngx_http_upstream_get_peer (now : Z) (h : heap) (d : rr_peer_data)
  : option nat * heap * rr_peer_data :=
  let g := group_at h (rrp_peers d) in
  let '(best, ps) := get_peer (tried d) now (number g) (peer_array g) in
  let h := alter (fun g => g <| peer_array := ps |>) (rrp_peers d) h in
  match best with
  | None => (None, h, d)
  | Some b => (Some b, h, d <| current := b |> <| tried := set_tried_bit (tried d) b |>)
  end.

(** ** [ngx_http_upstream_get_round_robin_peer] *)

Definition clear_fails (h : heap) (a : nat) : heap :=
  alter (fun g => g <| peer_array := map (fun p => p <| fails := 0 |>) (take (number g) (peer_array g))
                                     ++ drop (number g) (peer_array g) |>) a h.

(** [peer], or [None] for [goto failed]. *)
Definition choose (now : Z) (h : heap) (d : rr_peer_data) : option nat * heap * rr_peer_data :=
  let g := group_at h (rrp_peers d) in
  if single g then
    if down (peer_at (peer_array g) 0) then (None, h, d) else (Some O, h, d)
  else ngx_http_upstream_get_peer now h d.

(** [for (i = 0; i < n; i++) rrp->tried[i] = 0] *)
Definition clear_tried (n : nat) (t : list Z) : list Z := replicate n 0 ++ drop n t.

(** The recursion follows [next]; out of [fuel] it has no result. *)
Fixpoint ngx_http_upstream_get_round_robin_peer (fuel : nat) (now : Z) (h : heap)
    (d : rr_peer_data) (pc : peer_connection)
  : option (ngx_rc * heap * rr_peer_data * peer_connection) :=
  match fuel with
  | O => None
  | S fuel =>
      let pc := pc <| cached := false |> <| connection := None |> in
      let g := group_at h (rrp_peers d) in
      match choose now h d with
      | (Some i, h, d) =>
          let p := peer_at (peer_array (group_at h (rrp_peers d))) i in
          let pc := pc <| pc_sockaddr := sockaddr p |> <| pc_name := peer_name p |> in
          let pc := match next g with
                    | Some b => if tries pc =? 1
                                then pc <| tries := tries pc + Z.of_nat (number (group_at h b)) |> else pc
                    | None => pc end in
          Some (NGX_OK, h, d, pc)
      | (None, h, d) =>
          let a := rrp_peers d in
          let fail h d pc := Some (NGX_BUSY, clear_fails h a, d, pc <| pc_name := peers_name g |>) in
          match next g with
          | None => fail h d pc
          | Some b =>
              let n := number (group_at h b) in
              let d := d <| rrp_peers := b |> <| tried := clear_tried (words n) (tried d) |> in
              let pc := pc <| tries := Z.of_nat n |> in
              match ngx_http_upstream_get_round_robin_peer fuel now h d pc with
              | Some (NGX_BUSY, h, d, pc) => fail h d pc
              | r => r
              end
          end
      end
  end.

(** ** [ngx_http_upstream_free_round_robin_peer] *)

(** The failed connection on its peer. *)
Definition note_failure (now : Z) (p : peer) : peer :=
  let p := p <| fails := wrap 64 (fails p + 1) |> <| accessed := now |> <| checked := now |> in
  let p := if max_fails p =? 0 then p
           else p <| effective_weight := ngx_int (effective_weight p - wrap 64 (weight p) / max_fails p) |> in
  if effective_weight p <? 0 then p <| effective_weight := 0 |> else p.

Definition note_success (p : peer) : peer :=
  if accessed p <? checked p then p <| fails := 0 |> else p.

Definition free_peer (now state : Z) : peer -> peer :=
  if negb (Z.land state NGX_PEER_FAILED =? 0) then note_failure now else note_success.

Definition ngx_http_upstream_free_round_robin_peer (now state : Z) (h : heap) (d : rr_peer_data)
    (pc : peer_connection) : heap * peer_connection :=
  if single (group_at h (rrp_peers d)) then (h, pc <| tries := 0 |>)
  else
    (alter (fun g => g <| peer_array := alter (free_peer now state) (current d) (peer_array g) |>)
       (rrp_peers d) h,
     if tries pc =? 0 then pc else pc <| tries := tries pc - 1 |>).

(** The peer given back by [ngx_http_upstream_next], whatever [state] the kind
    of failure makes. *)
Definition release (now state : Z) (h : heap) (u : upstream) : heap * upstream :=
  match pc_sockaddr (u_peer u), peer_data u with
  | Some _, Some d =>
      let '(h, pc) := ngx_http_upstream_free_round_robin_peer now state h d (u_peer u) in
      (h, u <| u_peer := pc <| pc_sockaddr := None |> |>)
  | _, _ => (h, u)
  end.

(** ** TLS sessions *)

(** The library calls of the two functions: the result of setting a session,
    and the session of the connection. *)
Variable ngx_ssl_set_session : option Z -> option Z -> ngx_rc.
Variable ngx_ssl_get_session : option Z -> option Z.

Definition ngx_http_upstream_set_round_robin_peer_session (h : heap) (d : rr_peer_data)
    (pc : peer_connection) : ngx_rc :=
  ngx_ssl_set_session (connection pc)
    (ssl_session (peer_at (peer_array (group_at h (rrp_peers d))) (current d))).

(** The heap, and the session given to [ngx_ssl_free_session]. *)
Definition ngx_http_upstream_save_round_robin_peer_session (h : heap) (d : rr_peer_data)
    (pc : peer_connection) : heap * option Z :=
  match ngx_ssl_get_session (connection pc) with
  | None => (h, None)
  | Some s =>
      (alter (fun g => g <| peer_array := alter (fun p => p <| ssl_session := Some s |>) (current d)
                                            (peer_array g) |>) (rrp_peers d) h,
       ssl_session (peer_at (peer_array (group_at h (rrp_peers d))) (current d)))
  end.

Definition ngx_http_upstream_empty_set_session : ngx_rc := NGX_OK.
Definition ngx_http_upstream_empty_save_session (h : heap) : heap * option Z := (h, None).

(** [u->peer.set_session] and [u->peer.save_session] *)
Definition set_session (h : heap) (u : upstream) (d : rr_peer_data) : ngx_rc :=
  match sessions u with
  | round_robin_sessions => ngx_http_upstream_set_round_robin_peer_session h d (u_peer u)
  | empty_sessions => ngx_http_upstream_empty_set_session
  end.

Definition save_session (h : heap) (u : upstream) (d : rr_peer_data) : heap * option Z :=
  match sessions u with
  | round_robin_sessions => ngx_http_upstream_save_round_robin_peer_session h d (u_peer u)
  | empty_sessions => ngx_http_upstream_empty_save_session h
  end.
End Ops.

End RoundRobin.
