(* ===== verification/RoundRobinWeights.v ===== *)
(** * The smooth weighted selection, over functions

    The arithmetic of [ngx_http_upstream_get_peer] apart from its data: sums
    over the peers of a group, one round of the selection on the weights as
    functions of the index, the potential that bounds the current weights
    whatever peers take part in each round, and the share of every peer. *)

From S2P Require Import Prelude.

Module RoundRobinWeights.

(** ** Sums over the first [n] indices *)

Fixpoint sum_to (n : nat) (f : nat -> Z) : Z :=
  match n with O => 0 | S n => sum_to n f + f n end.

(** [f] on the indices of a set. *)
Definition on (T : nat -> bool) (f : nat -> Z) (i : nat) : Z := if T i then f i else 0.
Definition card (n : nat) (T : nat -> bool) : Z := sum_to n (on T (fun _ => 1)).

Lemma sum_ext n f g : (forall i, (i < n)%nat -> f i = g i) -> sum_to n f = sum_to n g.
Proof.
  induction n as [|n IH]; intros H; [done|]. cbn [sum_to].
  rewrite IH by (intros; apply H; lia). by rewrite H by lia.
Qed.

Lemma sum_plus n f g : sum_to n f + sum_to n g = sum_to n (fun i => f i + g i).
Proof. induction n as [|n IH]; cbn [sum_to]; lia. Qed.

Lemma sum_scale n k f : k * sum_to n f = sum_to n (fun i => k * f i).
Proof. induction n as [|n IH]; cbn [sum_to]; lia. Qed.

Lemma sum_le n f g : (forall i, (i < n)%nat -> f i <= g i) -> sum_to n f <= sum_to n g.
Proof.
  induction n as [|n IH]; intros H; [done|]. cbn [sum_to].
  pose proof (IH ltac:(intros; apply H; lia)). pose proof (H n ltac:(lia)). lia.
Qed.

Lemma sum_zero n : sum_to n (fun _ => 0) = 0.
Proof. induction n as [|n IH]; cbn [sum_to]; lia. Qed.

Lemma sum_single n b x : (b < n)%nat -> sum_to n (fun i => if (i =? b)%nat then x else 0) = x.
Proof.
  intros Hb. induction n as [|n IH]; [lia|]. cbn [sum_to]. destruct (Nat.eqb_spec n b) as [->|].
  - rewrite (sum_ext _ _ (fun _ => 0)), sum_zero; [lia|].
    intros i Hi. destruct (Nat.eqb_spec i b); [lia|done].
  - rewrite IH; lia.
Qed.

Lemma sum_pointwise n f b : (b < n)%nat -> (forall i, (i < n)%nat -> 0 <= f i) -> f b <= sum_to n f.
Proof.
  intros Hb Hf. rewrite <- (sum_single n b (f b)) at 1 by done. apply sum_le. intros i Hi.
  destruct (Nat.eqb_spec i b) as [->|]; [done|by apply Hf].
Qed.

Lemma card_range n T : 0 <= card n T <= Z.of_nat n.
Proof.
  unfold card, on. induction n as [|n IH]; cbn [sum_to]; [done|]. destruct (T n); lia.
Qed.

(** Sums compared or decomposed index by index. *)
Ltac by_index :=
  unfold card, on; rewrite ?sum_scale, ?sum_plus;
  first [apply sum_ext | apply sum_le]; let i := fresh "i" in let Hi := fresh "Hi" in intros i Hi.

(** ** One round *)

Section Round.
Context (n : nat) (W : Z) (c e : nat -> Z) (E : nat -> bool) (b : nat).
Hypothesis Hb : (b < n)%nat.
Hypothesis HEb : E b = true.
Hypothesis Hmax : forall i, (i < n)%nat -> E i = true -> c i + e i <= c b + e b.
Hypothesis He : forall i, (i < n)%nat -> 0 <= e i.
Hypothesis HW : sum_to n e <= W.

(** The weights after it: every peer that takes part gains its effective
    weight, the best pays the sum. *)
Definition next_weight (i : nat) : Z :=
  c i + on E e i - (if (i =? b)%nat then sum_to n (on E e) else 0).

Lemma next_weight_sum : sum_to n next_weight = sum_to n c.
Proof.
  assert (sum_to n next_weight + sum_to n (fun i => if (i =? b)%nat then sum_to n (on E e) else 0)
          = sum_to n c + sum_to n (on E e)) as H.
  { rewrite !sum_plus. apply sum_ext. intros i _. unfold next_weight. lia. }
  rewrite sum_single in H by done. lia.
Qed.

(** The sum of the weights of [k] peers is at most [W * k * (n - k)]. *)
Definition spread (f : nat -> Z) : Prop :=
  forall T, sum_to n (on T f) <= W * card n T * (Z.of_nat n - card n T).

Definition outside (T : nat -> bool) (i : nat) : bool := T i && negb (E i).
Definition inside (T : nat -> bool) (i : nat) : bool := T i && E i.
Definition with_best (T : nat -> bool) (i : nat) : bool := T i || (i =? b)%nat.

Lemma spread_with_best T : T b = true -> sum_to n (on T next_weight) <= sum_to n (on T c).
Proof.
  intros HT.
  assert (sum_to n (on T next_weight) + sum_to n (fun i => if (i =? b)%nat then sum_to n (on E e) else 0)
          <= sum_to n (on T c) + sum_to n (on E e)) as H.
  { by_index. unfold next_weight, on. pose proof (He i Hi).
    destruct (T i) eqn:HTi, (E i) eqn:HEi, (Nat.eqb_spec i b) as [->|]; try congruence; lia. }
  rewrite sum_single in H by done. lia.
Qed.

Lemma split_weight T : T b = false ->
  sum_to n (on T next_weight) = sum_to n (on (outside T) c) + sum_to n (on (inside T) (fun i => c i + e i)).
Proof.
  intros HT. by_index. unfold outside, inside, next_weight, on.
  destruct (T i) eqn:HTi, (E i) eqn:HEi, (Nat.eqb_spec i b) as [->|]; cbn; try congruence; lia.
Qed.

Lemma split_with_best T : T b = false ->
  sum_to n (on (with_best T) c) + sum_to n (on (inside T) e)
  = sum_to n (on (outside T) c) + sum_to n (on (inside T) (fun i => c i + e i)) + c b.
Proof.
  intros HT. rewrite <- (sum_single n b (c b)) by done. by_index. unfold outside, inside, with_best.
  destruct (T i) eqn:HTi, (E i) eqn:HEi, (Nat.eqb_spec i b) as [->|]; cbn; try congruence; lia.
Qed.

Lemma card_split T : card n T = card n (outside T) + card n (inside T).
Proof.
  by_index. unfold outside, inside.
  by destruct (T i), (E i).
Qed.

Lemma card_with_best T : T b = false -> card n (with_best T) = card n T + 1.
Proof.
  intros HT. rewrite <- (sum_single n b 1) by done. by_index. unfold with_best.
  destruct (T i) eqn:HTi, (Nat.eqb_spec i b) as [->|]; cbn; try congruence; lia.
Qed.

Lemma inside_gain T : T b = false -> sum_to n (on (inside T) e) + e b <= W.
Proof.
  intros HT. rewrite <- HW. rewrite <- (sum_single n b (e b)) by done. by_index. unfold inside.
  pose proof (He i Hi).
  destruct (T i) eqn:HTi, (E i) eqn:HEi, (Nat.eqb_spec i b) as [->|]; cbn; try congruence; lia.
Qed.

Lemma inside_below_best T :
  sum_to n (on (inside T) (fun i => c i + e i)) <= (c b + e b) * card n (inside T).
Proof.
  by_index. unfold inside. destruct (T i) eqn:HTi, (E i) eqn:HEi; cbn; try lia.
  pose proof (Hmax i Hi HEi). lia.
Qed.

Lemma spread_arith x y B N k j :
  0 <= W -> 0 <= j -> x <= W * (k - j) * (N - (k - j)) -> y <= B * j ->
  x + y + B <= W * (k + 1) * (N - (k + 1)) + W -> x + y <= W * k * (N - k).
Proof.
  intros H0 Hj Hx Hy Hxy.
  assert (j * (x + y + B) <= j * (W * (k + 1) * (N - (k + 1)) + W)) by nia.
  assert ((j + 1) * (x + y) <= (j + 1) * (W * k * (N - k)) - W * (j * j)) by lia.
  assert (0 <= W * (j * j)) by nia. nia.
Qed.

(** A round keeps the spread. *)
Lemma spread_round : spread c -> spread next_weight.
Proof.
  intros HS T. assert (0 <= W).
  { rewrite <- HW, <- (sum_zero n). apply sum_le. auto. }
  destruct (T b) eqn:HT.
  { pose proof (spread_with_best T HT). specialize (HS T). lia. }
  rewrite split_weight by done. rewrite (card_split T).
  eapply spread_arith with (B := c b + e b) (j := card n (inside T)); [done|apply card_range| | |].
  - replace (card n (outside T) + card n (inside T) - card n (inside T)) with (card n (outside T)) by lia.
    apply HS.
  - apply inside_below_best.
  - pose proof (split_with_best T HT). pose proof (inside_gain T HT).
    pose proof (HS (with_best T)) as H2. rewrite card_with_best in H2 by done. rewrite (card_split T) in H2. lia.
Qed.
End Round.

(** What the spread says of one peer when the weights cancel. *)
Lemma spread_bound n W f i : (i < n)%nat -> sum_to n f = 0 -> spread n W f ->
  - (W * (Z.of_nat n - 1)) <= f i <= W * (Z.of_nat n - 1).
Proof.
  intros Hi H0 HS.
  assert (Hone : card n (fun j => (j =? i)%nat) = 1) by (unfold card, on; by apply sum_single).
  assert (Hf : sum_to n (on (fun j => (j =? i)%nat) f) = f i).
  { rewrite <- (sum_single n i (f i)) by done. by_index. by destruct (Nat.eqb_spec i0 i) as [->|]. }
  assert (Hc : sum_to n (on (fun j => negb (j =? i)%nat) f) + sum_to n (on (fun j => (j =? i)%nat) f) = 0).
  { rewrite <- H0. by_index. destruct (i0 =? i)%nat; cbn; lia. }
  assert (Hk : card n (fun j => negb (j =? i)%nat) + card n (fun j => (j =? i)%nat) = Z.of_nat n).
  { transitivity (sum_to n (fun _ => 1)).
    - by_index. by destruct (i0 =? i)%nat.
    - clear. induction n as [|n IH]; cbn [sum_to]; lia. }
  pose proof (HS (fun j => (j =? i)%nat)) as H1. pose proof (HS (fun j => negb (j =? i)%nat)) as H2.
  rewrite Hone in *. replace (card n (fun j => negb (j =? i)%nat)) with (Z.of_nat n - 1) in H2 by lia. lia.
Qed.

Lemma spread_zero n W f : 0 <= W -> (forall i, (i < n)%nat -> f i = 0) -> spread n W f.
Proof.
  intros HW Hf T. rewrite (sum_ext _ _ (fun _ => 0)), sum_zero.
  - pose proof (card_range n T). apply Z.mul_nonneg_nonneg; [apply Z.mul_nonneg_nonneg|]; lia.
  - intros i Hi. unfold on. rewrite Hf by done. by destruct (T i).
Qed.

Lemma spread_ext n W f g : (forall i, (i < n)%nat -> f i = g i) -> spread n W f -> spread n W g.
Proof.
  intros H HS T. rewrite <- (sum_ext n (on T f)); [apply HS|]. intros i Hi. unfold on. by rewrite H.
Qed.

(** ** Everyone takes part *)

(** A round in which all take part keeps every weight above [- W]. *)
Lemma above_round n W c e b i : (b < n)%nat -> (i < n)%nat ->
  (forall j, (j < n)%nat -> c j + e j <= c b + e b) -> (forall j, (j < n)%nat -> 0 <= e j) ->
  sum_to n e = W -> 0 < W -> sum_to n c = 0 ->
  (forall j, (j < n)%nat -> - W < c j) -> - W < next_weight n c e (fun _ => true) b i.
Proof.
  intros Hb Hi Hmax He HW Hpos H0 Hc. unfold next_weight, on. cbn beta iota.
  rewrite (sum_ext n (fun j => e j) e) by done. pose proof (He i Hi). pose proof (Hc i Hi).
  destruct (Nat.eqb_spec i b) as [->|]; [|lia].
  assert (sum_to n c + sum_to n e <= Z.of_nat n * (c b + e b)).
  { rewrite sum_plus. transitivity (sum_to n (fun _ => c b + e b)); [by apply sum_le|].
    clear. induction n as [|n IH]; cbn [sum_to]; lia. }
  nia.
Qed.

(** Weights above [- W] that are multiples of [W] and cancel are zero. *)
Lemma whole_turns n W f k : 0 < W -> sum_to n f = 0 ->
  (forall i, (i < n)%nat -> - W < f i) -> (forall i, (i < n)%nat -> f i = W * k i) ->
  forall i, (i < n)%nat -> k i = 0.
Proof.
  intros HW H0 Hlow Hk i Hi.
  assert (Hpos : forall j, (j < n)%nat -> 0 <= f j).
  { intros j Hj. pose proof (Hlow j Hj). rewrite (Hk j Hj) in *.
    assert (-1 < k j) by (apply (Z.mul_lt_mono_pos_l W); lia). apply Z.mul_nonneg_nonneg; lia. }
  pose proof (sum_pointwise n f i Hi Hpos). pose proof (Hpos i Hi).
  rewrite (Hk i Hi) in *. apply (Z.mul_reg_l _ _ W); lia.
Qed.

End RoundRobinWeights.
