(* ===== verification/RoundRobinFacts.v ===== *)
(** * What one selection does

    The loop of [ngx_http_upstream_get_peer] by the index it has reached, and
    from it the whole effect of a selection on a group. *)

From S2P Require Import Prelude RoundRobin RoundRobinWeights.

Module RoundRobinFacts.
Import RoundRobin RoundRobinWeights.

Abbreviation cw ps := (fun i => current_weight (peer_at ps i)).
Abbreviation eff ps := (fun i => effective_weight (peer_at ps i)).
(** The peers that take part in a selection. *)
Abbreviation takes t now ps := (fun i => negb (skip_peer t now ps i)).

(** ** Lists of peers *)

Lemma peer_at_alter f ps i j : (i < length ps)%nat ->
  peer_at (alter f i ps) j = if (j =? i)%nat then f (peer_at ps j) else peer_at ps j.
Proof.
  intros Hi. unfold peer_at. rewrite !nth_lookup. destruct (Nat.eqb_spec j i) as [->|].
  - rewrite list_lookup_alter_eq. by destruct (lookup_lt_is_Some_2 ps i Hi) as [p ->].
  - by rewrite list_lookup_alter_ne.
Qed.

Lemma peer_at_ext ps ps' : length ps = length ps' ->
  (forall i, (i < length ps)%nat -> peer_at ps i = peer_at ps' i) -> ps = ps'.
Proof. intros Hl H. by apply (nth_ext ps ps' zero_peer zero_peer). Qed.

Lemma cw_bump p : current_weight (bump p) = current_weight p + effective_weight p.
Proof. unfold bump. cbn. by destruct (_ <? _). Qed.

(** What a selection leaves alone in every peer. *)
Definition fixed (p : peer) :=
  (sockaddr p, peer_name p, weight p, fails p, accessed p, max_fails p, fail_timeout p, down p, ssl_session p).

Lemma fixed_bump p : fixed (bump p) = fixed p.
Proof. unfold bump. cbn. by destruct (_ <? _). Qed.

Lemma checked_bump p : checked (bump p) = checked p.
Proof. unfold bump. cbn. by destruct (_ <? _). Qed.

Lemma fixed_take_best total now p : fixed (take_best total now p) = fixed p.
Proof. unfold take_best. cbn. by destruct (_ <? _). Qed.

Lemma cw_take_best total now p : current_weight (take_best total now p) = current_weight p - total.
Proof. unfold take_best. cbn. by destruct (_ <? _). Qed.

Lemma eff_take_best total now p : effective_weight (take_best total now p) = effective_weight p.
Proof. unfold take_best. cbn. by destruct (_ <? _). Qed.

(** ** The loop *)

Section Loop.
Context (t : list Z) (now : Z) (ps0 : list peer).
Let E := takes t now ps0.

Record loop_inv (k : nat) (ps : list peer) (best : option nat) (total : Z) : Prop := {
  li_length : length ps = length ps0;
  li_peer : forall j, peer_at ps j = if ((j <? k)%nat && E j)%bool then bump (peer_at ps0 j) else peer_at ps0 j;
  li_total : total = sum_to k (on E (eff ps0));
  li_best : match best with
            | None => forall j, (j < k)%nat -> E j = false
            | Some b => (b < k)%nat /\ E b = true /\
                forall j, (j < k)%nat -> E j = true ->
                  cw ps j <= cw ps b /\ ((j < b)%nat -> cw ps j < cw ps b)
            end;
}.

Lemma loop_inv_start : loop_inv 0 ps0 None 0.
Proof. split; [done|done|done|lia]. Qed.

Lemma skip_peer_at ps i : peer_at ps i = peer_at ps0 i -> skip_peer t now ps i = skip_peer t now ps0 i.
Proof. unfold skip_peer. by intros ->. Qed.

Lemma peer_below_S (k j : nat) (x y : peer) :
  (if ((j <? S k)%nat && E j)%bool then x else y)
  = if (j =? k)%nat then (if E k then x else y) else (if ((j <? k)%nat && E j)%bool then x else y).
Proof.
  destruct (Nat.eqb_spec j k) as [->|].
  - by rewrite (proj2 (Nat.ltb_lt k (S k))) by lia.
  - by replace (j <? S k)%nat with (j <? k)%nat by (destruct (Nat.ltb_spec j k), (Nat.ltb_spec j (S k)); lia).
Qed.

Lemma loop_inv_step k ps best total ps' best' total' :
  (k < length ps0)%nat -> loop_inv k ps best total -> visit t now (ps, best, total) k = (ps', best', total') ->
  loop_inv (S k) ps' best' total'.
Proof.
  intros Hk [Hl Hp Ht Hbest] Hv. unfold visit in Hv.
  assert (Hpk : peer_at ps k = peer_at ps0 k) by (rewrite Hp, Nat.ltb_irrefl; done).
  rewrite (skip_peer_at ps k) in Hv by done. destruct (skip_peer t now ps0 k) eqn:Hskip; simplify_eq.
  - assert (HE : E k = false) by (unfold E; by rewrite Hskip).
    split; [done| | |].
    + intros j. rewrite Hp, peer_below_S, HE. destruct (Nat.eqb_spec j k) as [->|]; [|done].
      by rewrite Nat.ltb_irrefl.
    + cbn [sum_to]. change (on E (eff ps0) k) with (if E k then eff ps0 k else 0). rewrite HE. lia.
    + destruct best' as [b|].
      * destruct Hbest as (? & ? & Hmax). split_and!; [lia|done|]. intros j Hj HEj.
        apply Hmax; [|done]. destruct (decide (j = k)) as [->|]; [congruence|lia].
      * intros j Hj. destruct (decide (j = k)) as [->|]; [done|]. apply Hbest. lia.
  - assert (HE : E k = true) by (unfold E; by rewrite Hskip).
    assert (Hpa : forall j, peer_at (alter bump k ps) j = if (j =? k)%nat then bump (peer_at ps0 k) else peer_at ps j).
    { intros j. rewrite peer_at_alter by lia. destruct (Nat.eqb_spec j k) as [->|]; [|done]. by rewrite Hpk. }
    split.
    + by rewrite length_alter.
    + intros j. rewrite Hpa, peer_below_S, HE. destruct (Nat.eqb_spec j k) as [->|]; [done|apply Hp].
    + cbn [sum_to]. change (on E (eff ps0) k) with (if E k then eff ps0 k else 0). rewrite HE, Hpk. lia.
    + pose proof (Hpa k) as Hk1. rewrite Nat.eqb_refl in Hk1.
      assert (Hne : forall j, (j < k)%nat -> peer_at (alter bump k ps) j = peer_at ps j).
      { intros j Hj. rewrite Hpa. destruct (Nat.eqb_spec j k); [lia|done]. }
      destruct best as [b|].
      * destruct Hbest as (Hbk & HEb & Hmax). rewrite (Hne b Hbk), Hk1.
        destruct (Z.ltb_spec (current_weight (peer_at ps b)) (current_weight (bump (peer_at ps0 k)))).
        -- split_and!; [lia|done|]. intros j Hj HEj. cbv beta.
           destruct (decide (j = k)) as [->|]; [split; lia|].
           rewrite Hne, Hk1 by lia. destruct (Hmax j ltac:(lia) HEj) as [H1 _]. cbv beta in H1. lia.
        -- split_and!; [lia|done|]. intros j Hj HEj. cbv beta. rewrite (Hne b Hbk).
           destruct (decide (j = k)) as [->|]; [rewrite Hk1; split; lia|].
           rewrite Hne by lia. by apply Hmax; [lia|].
      * split_and!; [lia|done|]. intros j Hj HEj.
        destruct (decide (j = k)) as [->|]; [split; lia|].
        rewrite Hbest in HEj by lia. done.
Qed.

Lemma loop_reaches k : (k <= length ps0)%nat ->
  exists ps best total, foldl (visit t now) (ps0, None, 0) (seq 0 k) = (ps, best, total)
                        /\ loop_inv k ps best total.
Proof.
  induction k as [|k IH]; intros Hk.
  { do 3 eexists. split; [done|apply loop_inv_start]. }
  destruct IH as (ps & best & total & Hf & Hinv); [lia|].
  rewrite seq_S, foldl_app, Hf. cbn [foldl Nat.add].
  destruct (visit t now (ps, best, total) k) as [[ps' best'] total'] eqn:Hv.
  do 3 eexists. split; [done|]. by eapply loop_inv_step.
Qed.
End Loop.

(** ** A selection *)

(** The group after the selection of [b]. *)
Definition selected (t : list Z) (now : Z) (ps : list peer) (b : nat) (ps' : list peer) : Prop :=
  length ps' = length ps /\
  forall j, peer_at ps' j =
    let p := if ((j <? length ps)%nat && negb (skip_peer t now ps j))%bool then bump (peer_at ps j) else peer_at ps j in
    if (j =? b)%nat then take_best (sum_to (length ps) (on (takes t now ps) (eff ps))) now p else p.

Lemma get_peer_cases t now ps : match get_peer t now (length ps) ps with
  | (None, ps') => ps' = ps /\ forall j, (j < length ps)%nat -> skip_peer t now ps j = true
  | (Some b, ps') =>
      (b < length ps)%nat /\ skip_peer t now ps b = false /\
      (forall j, (j < length ps)%nat -> skip_peer t now ps j = false ->
         cw ps j + eff ps j <= cw ps b + eff ps b /\
         ((j < b)%nat -> cw ps j + eff ps j < cw ps b + eff ps b)) /\
      selected t now ps b ps'
  end.
Proof.
  unfold get_peer.
  destruct (loop_reaches t now ps (length ps)) as (ps1 & best & total & -> & [Hl Hp Ht Hbest]); [done|].
  destruct best as [b|].
  - destruct Hbest as (Hb & HEb & Hmax). apply negb_true_iff in HEb.
    assert (Hcw : forall j, (j < length ps)%nat -> skip_peer t now ps j = false ->
              current_weight (peer_at ps1 j) = cw ps j + eff ps j).
    { intros j Hj Hs. rewrite Hp, (proj2 (Nat.ltb_lt _ _)), Hs by done. apply cw_bump. }
    split_and!; [done|done| |].
    + intros j Hj Hs. destruct (Hmax j Hj) as [H1 H2]; [by rewrite Hs|]. cbv beta in H1, H2.
      rewrite !Hcw in H1, H2 by done. done.
    + split; [by rewrite length_alter|]. intros j. rewrite peer_at_alter by lia. rewrite Hp, Ht. done.
  - split; [|intros j Hj; by apply negb_false_iff, Hbest].
    apply peer_at_ext; [done|]. intros i Hi. rewrite Hp, Hbest by lia. by rewrite andb_false_r.
Qed.

(** The current weights of the group after the selection are the round of
    [RoundRobinWeights]. *)
Lemma selected_weight t now ps b ps' j : (j < length ps)%nat -> selected t now ps b ps' ->
  current_weight (peer_at ps' j) = next_weight (length ps) (cw ps) (eff ps) (takes t now ps) b j.
Proof.
  intros Hj [_ H]. rewrite H, (proj2 (Nat.ltb_lt _ _)) by done. unfold next_weight, on. cbn beta iota zeta.
  destruct (j =? b)%nat; rewrite ?cw_take_best; destruct (skip_peer t now ps j); cbn [negb andb];
    rewrite ?cw_bump; lia.
Qed.

Lemma selected_eff t now ps b ps' j : (j < length ps)%nat -> selected t now ps b ps' ->
  effective_weight (peer_at ps' j)
  = if skip_peer t now ps j then eff ps j
    else if eff ps j <? weight (peer_at ps j) then eff ps j + 1 else eff ps j.
Proof.
  intros Hj [_ H]. rewrite H, (proj2 (Nat.ltb_lt _ _)) by done. cbn beta iota zeta.
  destruct (j =? b)%nat; rewrite ?eff_take_best; destruct (skip_peer t now ps j); cbn [negb andb]; try done;
    unfold bump; cbn; by destruct (_ <? _).
Qed.

Lemma selected_fixed t now ps b ps' j : selected t now ps b ps' -> fixed (peer_at ps' j) = fixed (peer_at ps j).
Proof.
  intros [_ H]. rewrite H. cbn zeta.
  destruct (j =? b)%nat; rewrite ?fixed_take_best; destruct (_ && _)%bool; by rewrite ?fixed_bump.
Qed.

(** ** The bitmap *)

Lemma land_lor_bit w i j : (i < word_bits)%nat -> (j < word_bits)%nat ->
  (Z.land (Z.lor w (Z.shiftl 1 (Z.of_nat i))) (Z.shiftl 1 (Z.of_nat j)) =? 0)
  = (negb (i =? j)%nat && (Z.land w (Z.shiftl 1 (Z.of_nat j)) =? 0))%bool.
Proof.
  intros Hi Hj. assert (Hbit : forall w, (Z.land w (Z.shiftl 1 (Z.of_nat j)) =? 0) = negb (Z.testbit w (Z.of_nat j))).
  { clear. intros w. rewrite Z.shiftl_1_l. destruct (Z.testbit w (Z.of_nat j)) eqn:Ht; cbn.
    - apply Z.eqb_neq. intros H0. assert (Hf : Z.testbit (Z.land w (2 ^ Z.of_nat j)) (Z.of_nat j) = false).
      { by rewrite H0, Z.bits_0. }
      rewrite Z.land_spec, Ht, Z.pow2_bits_true in Hf by lia. done.
    - apply Z.eqb_eq, Z.bits_inj'. intros k Hk. rewrite Z.bits_0, Z.land_spec.
      destruct (decide (k = Z.of_nat j)) as [->|]; [by rewrite Ht|].
      rewrite Z.pow2_bits_false by lia. apply andb_false_r. }
  rewrite !Hbit, Z.lor_spec, Z.shiftl_1_l. destruct (Nat.eqb_spec i j) as [->|].
  - rewrite Z.pow2_bits_true by lia. by rewrite orb_true_r.
  - rewrite Z.pow2_bits_false by lia. by rewrite orb_false_r.
Qed.

Lemma words_cover n i : (i < n)%nat -> (i / word_bits < words n)%nat.
Proof.
  intros Hi. unfold words. pose proof (Nat.div_mod_eq i word_bits). unfold word_bits in *.
  apply Nat.Div0.div_lt_upper_bound. pose proof (Nat.div_mod_eq (n + (64 - 1)) 64).
  pose proof (Nat.mod_upper_bound (n + (64 - 1)) 64). lia.
Qed.

(** Setting a bit inside the bitmap sets that bit and no other. *)
Lemma is_tried_set t i j : (i / word_bits < length t)%nat ->
  is_tried (set_tried_bit t i) j = ((i =? j)%nat || is_tried t j)%bool.
Proof.
  intros Hi. unfold is_tried, set_tried_bit, bit.
  assert (Hw : word_bits <> 0%nat) by done.
  pose proof (Nat.div_mod_eq i word_bits). pose proof (Nat.div_mod_eq j word_bits).
  pose proof (Nat.mod_upper_bound i word_bits Hw). pose proof (Nat.mod_upper_bound j word_bits Hw).
  rewrite !nth_lookup. destruct (decide (i / word_bits = j / word_bits)%nat) as [E|E].
  - rewrite E in *. rewrite list_lookup_alter_eq. destruct (lookup_lt_is_Some_2 t (j / word_bits)%nat Hi) as [w ->].
    change (default 0 (Some w)) with w.
    change (default 0 (_ <$> Some w)) with (Z.lor w (Z.shiftl 1 (Z.of_nat (i mod word_bits)))). rewrite land_lor_bit by done.
    destruct (Nat.eqb_spec (i mod word_bits) (j mod word_bits)), (Nat.eqb_spec i j); cbn; subst; try done.
    exfalso. congruence.
  - rewrite list_lookup_alter_ne by done. destruct (Nat.eqb_spec i j); [by subst|done].
Qed.

Lemma length_set_tried_bit t i : length (set_tried_bit t i) = length t.
Proof. apply length_alter. Qed.

Lemma is_tried_zero n t j : (j / word_bits < n)%nat -> is_tried (clear_tried n t) j = false.
Proof.
  intros Hj. unfold is_tried, clear_tried. rewrite app_nth1 by (by rewrite length_replicate).
  rewrite nth_lookup. destruct (replicate n 0 !! (j / word_bits)%nat) as [z|] eqn:E; [|done].
  by apply lookup_replicate in E as [-> _].
Qed.

End RoundRobinFacts.

(** * What holds of every group of peers

    The invariant of a group, kept by each operation that touches it, and the
    same for a heap of groups. *)
Module RoundRobinGroup.
Import RoundRobin RoundRobinWeights RoundRobinFacts.

Definition peer_ok (p : peer) : Prop :=
  0 <= effective_weight p <= weight p /\ weight p < 2 ^ 63 /\ 0 <= max_fails p.

Abbreviation weights ps := (fun i => weight (peer_at ps i)).

(** The sum of the configured weights. *)
Definition total (ps : list peer) : Z := sum_to (length ps) (weights ps).

Record peers_ok (ps : list peer) : Prop := {
  po_peer : forall i, peer_ok (peer_at ps i);
  po_sum : sum_to (length ps) (cw ps) = 0;
  po_spread : spread (length ps) (total ps) (cw ps);
}.

Lemma eff_sum ps : (forall i, peer_ok (peer_at ps i)) -> sum_to (length ps) (eff ps) <= total ps.
Proof. intros H. apply sum_le. intros i _. apply (H i). Qed.

(** A change that leaves the weights alone. *)
Lemma peers_ok_same ps ps' : length ps' = length ps ->
  (forall i, current_weight (peer_at ps' i) = current_weight (peer_at ps i)
             /\ weight (peer_at ps' i) = weight (peer_at ps i) /\ peer_ok (peer_at ps' i)) ->
  peers_ok ps -> peers_ok ps'.
Proof.
  intros Hl H [Hp Hs Hsp].
  assert (Ht : total ps' = total ps).
  { unfold total. rewrite Hl. apply sum_ext. intros i _. apply (H i). }
  split.
  - intros i. apply (H i).
  - rewrite Hl, <- Hs. apply sum_ext. intros i _. apply (H i).
  - rewrite Hl, Ht. eapply spread_ext; [|exact Hsp]. intros i _. symmetry. apply (H i).
Qed.

Lemma peers_ok_alter f ps i : peers_ok ps ->
  (forall p, peer_ok p -> current_weight (f p) = current_weight p /\ weight (f p) = weight p /\ peer_ok (f p)) ->
  peers_ok (alter f i ps).
Proof.
  intros Hok Hf. eapply peers_ok_same; [apply length_alter| |exact Hok]. intros j.
  destruct (decide (i < length ps)%nat).
  - rewrite peer_at_alter by done. destruct (j =? i)%nat; [apply Hf, Hok|]. split_and!; [done..|apply Hok].
  - assert (Hj : peer_at (alter f i ps) j = peer_at ps j).
    { unfold peer_at. rewrite !nth_lookup, list_lookup_alter.
      destruct (decide (i = j)) as [->|]; [|done]. by rewrite (lookup_ge_None_2 ps j) by lia. }
    rewrite Hj. split_and!; [done..|apply Hok].
Qed.

(** A selection keeps the invariant. *)
Lemma peers_ok_selected t now ps b ps' : (b < length ps)%nat -> skip_peer t now ps b = false ->
  (forall j, (j < length ps)%nat -> skip_peer t now ps j = false -> cw ps j + eff ps j <= cw ps b + eff ps b) ->
  selected t now ps b ps' -> peers_ok ps -> peers_ok ps'.
Proof.
  intros Hb Hs Hmax Hsel [Hp H0 Hsp]. pose proof Hsel as [Hl _].
  assert (Hfix : forall j, fixed (peer_at ps' j) = fixed (peer_at ps j)) by (intros; by eapply selected_fixed).
  assert (Ht : total ps' = total ps).
  { unfold total. rewrite Hl. apply sum_ext. intros i _. specialize (Hfix i). by unfold fixed in Hfix; simplify_eq. }
  assert (Hround : spread (length ps) (total ps) (next_weight (length ps) (cw ps) (eff ps) (takes t now ps) b)).
  { apply spread_round; [done|by rewrite Hs| | |by apply eff_sum|done].
    - intros j Hj Ht'. by apply Hmax, negb_true_iff.
    - intros j _. apply (Hp j). }
  split.
  - intros j. destruct (decide (j < length ps)%nat) as [Hj|Hj].
    + pose proof (selected_eff _ _ _ _ _ j Hj Hsel) as He. cbv beta in He. destruct (Hp j) as (? & ? & ?).
      specialize (Hfix j). unfold fixed in Hfix. simplify_eq. unfold peer_ok. split_and!; try lia.
      all: rewrite He; destruct (skip_peer t now ps j); [lia|].
      all: destruct (Z.ltb_spec (effective_weight (peer_at ps j)) (weight (peer_at ps j))); lia.
    + unfold peer_at. rewrite nth_overflow by lia. unfold peer_ok. cbn. lia.
  - rewrite Hl, <- H0. erewrite <- (next_weight_sum (length ps) (cw ps) (eff ps) (takes t now ps) b) by done.
    apply sum_ext. intros j Hj. by eapply selected_weight.
  - rewrite Hl, Ht. eapply spread_ext; [|exact Hround]. intros j Hj. symmetry. by eapply selected_weight.
Qed.

(** ** The other operations on a peer *)

Definition quiet (f : peer -> peer) : Prop :=
  forall p, peer_ok p -> current_weight (f p) = current_weight p /\ weight (f p) = weight p /\ peer_ok (f p).

Lemma quiet_note_failure now : quiet (note_failure now).
Proof.
  intros p ((He1 & He2) & Hw & Hm).
  assert (Hq : max_fails p <> 0 ->
    ngx_int (effective_weight p - wrap 64 (weight p) / max_fails p) = effective_weight p - weight p / max_fails p
    /\ 0 <= weight p / max_fails p).
  { intros Hm0. rewrite wrap_small by lia.
    assert (weight p / max_fails p <= weight p) by (apply Z.div_le_upper_bound; nia).
    assert (0 <= weight p / max_fails p) by (apply Z.div_pos; lia).
    unfold ngx_int. rewrite swrap_small by lia. done. }
  unfold note_failure, peer_ok. cbn. destruct (Z.eqb_spec (max_fails p) 0) as [|Hm0]; cbn.
  - destruct (Z.ltb_spec (effective_weight p) 0); cbn; lia.
  - destruct (Hq Hm0) as [-> ?].
    destruct (Z.ltb_spec (effective_weight p - weight p / max_fails p) 0); cbn; lia.
Qed.

Lemma quiet_note_success : quiet note_success.
Proof. intros p Hp. unfold note_success. by destruct (_ <? _). Qed.

Lemma quiet_free_peer F now state : quiet (free_peer F now state).
Proof. unfold free_peer. destruct (negb _); [apply quiet_note_failure|apply quiet_note_success]. Qed.

Lemma quiet_fails : quiet (fun p => p <| fails := 0 |>).
Proof. by intros p Hp. Qed.

Lemma quiet_session s : quiet (fun p => p <| ssl_session := s |>).
Proof. by intros p Hp. Qed.

#[export] Hint Resolve quiet_note_failure quiet_note_success quiet_free_peer quiet_fails quiet_session : http.

(** ** Groups and heaps *)

Record group_ok (g : peers) : Prop := {
  go_number : number g = length (peer_array g);
  go_peers : peers_ok (peer_array g);
  go_single : single g = true -> number g = 1%nat;
}.

(** What no operation on a group changes. *)
Definition shape (g : peers) := (number g, single g, next g, length (peer_array g)).

Definition link_ok (h : heap) (a : nat) : Prop :=
  forall b, next (group_at h a) = Some b ->
    (a < b < length h)%nat /\ next (group_at h b) = None
    /\ single (group_at h a) = false /\ single (group_at h b) = false.

Definition heap_ok (h : heap) : Prop :=
  forall a, (a < length h)%nat -> group_ok (group_at h a) /\ link_ok h a.

(** The heap after operations on its groups. *)
Definition evolves (h h' : heap) : Prop :=
  length h' = length h /\ forall a, shape (group_at h' a) = shape (group_at h a).

#[export] Instance evolves_preorder : PreOrder evolves.
Proof.
  split.
  - by intros h.
  - intros h1 h2 h3 [Hl H] [Hl' H']. split; [congruence|]. intros a. by rewrite H'.
Qed.

Lemma group_at_alter f h a b : (a < length h)%nat ->
  group_at (alter f a h) b = if (b =? a)%nat then f (group_at h b) else group_at h b.
Proof.
  intros Ha. unfold group_at. rewrite !nth_lookup. destruct (Nat.eqb_spec b a) as [->|].
  - rewrite list_lookup_alter_eq. by destruct (lookup_lt_is_Some_2 h a Ha) as [g ->].
  - by rewrite list_lookup_alter_ne.
Qed.

Lemma evolves_alter f h a : (forall g, shape (f g) = shape g) -> evolves h (alter f a h).
Proof.
  intros Hf. split; [apply length_alter|]. intros b. unfold group_at. rewrite !nth_lookup.
  destruct (decide (a = b)) as [->|]; [|by rewrite list_lookup_alter_ne].
  rewrite list_lookup_alter_eq. destruct (h !! b); [apply Hf|done].
Qed.

Lemma heap_ok_evolves h h' : evolves h h' -> heap_ok h ->
  (forall a, (a < length h)%nat -> group_ok (group_at h' a)) -> heap_ok h'.
Proof.
  intros [Hl Hs] H Hg a Ha. split; [apply Hg; lia|]. intros b Hb.
  pose proof (Hs a) as Ea. pose proof (Hs b) as Eb. unfold shape in Ea, Eb. simplify_eq.
  destruct (H a ltac:(lia)) as [_ Hlink]. destruct (Hlink b) as (? & ? & ? & ?); [congruence|].
  split_and!; [lia|lia|congruence..].
Qed.

Lemma heap_ok_alter f h a : (forall g, shape (f g) = shape g) -> (a < length h)%nat -> heap_ok h ->
  group_ok (f (group_at h a)) -> heap_ok (alter f a h).
Proof.
  intros Hs Ha H Hg. eapply heap_ok_evolves; [by apply evolves_alter|done|]. intros b Hb.
  rewrite group_at_alter by done. destruct (Nat.eqb_spec b a) as [->|]; [done|by apply H].
Qed.

(** An operation on one peer of a group. *)
Lemma heap_ok_peer f h a i : quiet f -> (a < length h)%nat -> heap_ok h ->
  heap_ok (alter (fun g => g <| peer_array := alter f i (peer_array g) |>) a h)
  /\ evolves h (alter (fun g => g <| peer_array := alter f i (peer_array g) |>) a h).
Proof.
  intros Hf Ha H.
  assert (Hs : forall g : peers, shape (g <| peer_array := alter f i (peer_array g) |>) = shape g).
  { intros g. unfold shape. cbn. by rewrite length_alter. }
  split; [|by apply evolves_alter]. apply heap_ok_alter; [done..|]. destruct (H a Ha) as [[Hn Hp Hsg] _].
  split; cbn; [by rewrite length_alter| |done]. by apply peers_ok_alter.
Qed.

Lemma peer_at_map f ps i : f zero_peer = zero_peer -> peer_at (map f ps) i = f (peer_at ps i).
Proof. intros Hf. unfold peer_at. rewrite <- Hf at 1. apply map_nth. Qed.

Lemma heap_ok_clear_fails h a : (a < length h)%nat -> heap_ok h -> heap_ok (clear_fails h a).
Proof.
  intros Ha H. unfold clear_fails. destruct (H a Ha) as [[Hn Hp Hsg] _]. apply heap_ok_alter; [|done..|].
  - intros g. unfold shape. cbn. by rewrite length_app, length_map, <- length_app, take_drop.
  - rewrite Hn, take_ge, drop_ge, app_nil_r by done. split; cbn; [by rewrite length_map| |done].
    eapply peers_ok_same; [apply length_map| |exact Hp]. intros i. rewrite peer_at_map by done.
    apply quiet_fails, Hp.
Qed.

Lemma evolves_clear_fails h a : evolves h (clear_fails h a).
Proof.
  apply evolves_alter. intros g. unfold shape. cbn. by rewrite length_app, length_map, <- length_app, take_drop.
Qed.

End RoundRobinGroup.
