(* ===== verification/RoundRobinWorld.v ===== *)
(** * The requests that share the groups

    Requests start, choose peers, give them back and end in any order over the
    shared heap: a step relation on a world of groups and requests, with the
    invariant that every operation keeps. *)

From S2P Require Import Prelude RoundRobin RoundRobinWeights RoundRobinFacts.

Module RoundRobinWorld.
Import RoundRobin RoundRobinWeights RoundRobinFacts RoundRobinGroup.

(** ** The balancing data of a request *)

Record data_ok (h : heap) (d : rr_peer_data) : Prop := {
  do_peers : (rrp_peers d < length h)%nat;
  do_tried : (words (number (group_at h (rrp_peers d))) <= length (tried d))%nat;
  do_next : forall b, next (group_at h (rrp_peers d)) = Some b ->
    (words (number (group_at h b)) <= length (tried d))%nat;
  do_single : single (group_at h (rrp_peers d)) = true -> current d = O;
}.

Lemma shape_fields g g' : shape g = shape g' ->
  number g = number g' /\ single g = single g' /\ next g = next g' /\ length (peer_array g) = length (peer_array g').
Proof. unfold shape. intros H. by simplify_eq. Qed.

Lemma evolves_at h h' a : evolves h h' ->
  number (group_at h' a) = number (group_at h a) /\ single (group_at h' a) = single (group_at h a)
  /\ next (group_at h' a) = next (group_at h a)
  /\ length (peer_array (group_at h' a)) = length (peer_array (group_at h a)).
Proof. intros [_ H]. by apply shape_fields. Qed.

Lemma data_ok_evolves h h' d : evolves h h' -> data_ok h d -> data_ok h' d.
Proof.
  intros He [H1 H2 H3 H4]. destruct (evolves_at _ _ (rrp_peers d) He) as (En & Es & Ex & _).
  split.
  - by destruct He as [-> _].
  - by rewrite En.
  - intros b Hb. rewrite Ex in Hb. destruct (evolves_at _ _ b He) as (-> & _). by apply H3.
  - by rewrite Es.
Qed.

Lemma data_ok_mark h d i t : data_ok h d -> length t = length (tried d) ->
  single (group_at h (rrp_peers d)) = false -> data_ok h (d <| current := i |> <| tried := t |>).
Proof.
  intros [H1 H2 H3 H4] Ht Hs. split; destruct d; cbn -[words] in *; [done|by rewrite Ht| |congruence].
  intros b Hb. rewrite Ht. by apply H3.
Qed.

(** ** Choosing a peer *)

(** The peer was not tried before in this group and is marked now. *)
Definition marks (d d' : rr_peer_data) : Prop :=
  rrp_peers d' = rrp_peers d /\ is_tried (tried d) (current d') = false
  /\ tried d' = set_tried_bit (tried d) (current d').

Lemma alter_same (h : heap) a : alter (fun g => g <| peer_array := peer_array (group_at h a) |>) a h = h.
Proof.
  apply list_eq. intros b. destruct (decide (a = b)) as [->|]; [|by rewrite list_lookup_alter_ne].
  rewrite list_lookup_alter_eq. unfold group_at. rewrite nth_lookup.
  destruct (h !! b) as [[]|] eqn:E; [|done]. done.
Qed.

Lemma choose_cases now h d : heap_ok h -> data_ok h d ->
  match choose now h d with
  | (Some i, h', d') => heap_ok h' /\ evolves h h' /\ data_ok h' d' /\ current d' = i
      /\ (i < number (group_at h' (rrp_peers d')))%nat
      /\ rrp_peers d' = rrp_peers d
      /\ (single (group_at h (rrp_peers d)) = false -> marks d d')
  | (None, h', d') => h' = h /\ d' = d
  end.
Proof.
  intros Hh Hd. unfold choose. pose proof Hd as [Ha Ht Hn Hs].
  destruct (Hh _ Ha) as [[Hnum Hps Hsg] _]. destruct (single (group_at h (rrp_peers d))) eqn:Hsingle.
  { destruct (down _); [done|]. split_and!; [done|done|done|by apply Hs| |done|discriminate].
    rewrite Hsg by done. lia. }
  unfold ngx_http_upstream_get_peer. rewrite Hnum.
  pose proof (get_peer_cases (tried d) now (peer_array (group_at h (rrp_peers d)))) as Hc.
  destruct (get_peer _ _ _ _) as [[b|] ps'].
  2: { destruct Hc as [-> _]. by rewrite alter_same. }
  destruct Hc as (Hb & Hskip & Hmax & Hsel). pose proof Hsel as [Hl _].
  assert (Hev : evolves h (alter (fun g => g <| peer_array := ps' |>) (rrp_peers d) h)).
  { split; [apply length_alter|]. intros a. rewrite group_at_alter by done.
    destruct (Nat.eqb_spec a (rrp_peers d)) as [->|]; [|done]. unfold shape. cbn. by rewrite Hl. }
  assert (Hok : heap_ok (alter (fun g => g <| peer_array := ps' |>) (rrp_peers d) h)).
  { eapply heap_ok_evolves; [done|done|]. intros a Hla. rewrite group_at_alter by done.
    destruct (Nat.eqb_spec a (rrp_peers d)) as [->|]; [|by apply Hh]. split; cbn; [by rewrite Hl| |congruence].
    eapply peers_ok_selected; [..|exact Hsel|exact Hps]; [done|done|]. intros j Hj Hsj. by apply Hmax. }
  split_and!; [done|done| |done| |done|].
  - eapply data_ok_evolves; [exact Hev|]. apply data_ok_mark; [done|apply length_set_tried_bit|done].
  - rewrite group_at_alter by done. cbn. rewrite Nat.eqb_refl. cbn. lia.
  - intros _. split_and!; [done| |done].
    apply orb_false_iff in Hskip as [Hskip _]. by apply orb_false_iff in Hskip as [Hskip _].
Qed.

(** After the move to the backup group. *)
Lemma data_ok_backup h d b : heap_ok h -> data_ok h d -> next (group_at h (rrp_peers d)) = Some b ->
  data_ok h (d <| rrp_peers := b |> <| tried := clear_tried (words (number (group_at h b))) (tried d) |>).
Proof.
  intros Hh [Ha Ht Hn Hs] Hb. destruct (Hh _ Ha) as [_ Hl]. destruct (Hl b Hb) as (Hlt & Hbn & _ & Hbs).
  pose proof (Hn b Hb). split; cbn.
  - lia.
  - unfold clear_tried. rewrite length_app, length_replicate, length_drop. lia.
  - congruence.
  - congruence.
Qed.

(** ** One call of [ngx_http_upstream_get_round_robin_peer] *)

(** Where an accepted call found its peer: in the group of the request, or
    in the backup group after the tried peers were forgotten. *)
Definition found_in (h : heap) (d d' : rr_peer_data) : Prop :=
  (rrp_peers d' = rrp_peers d /\ (single (group_at h (rrp_peers d)) = false -> marks d d'))
  \/ exists b, next (group_at h (rrp_peers d)) = Some b
       /\ marks (d <| rrp_peers := b |> <| tried := clear_tried (words (number (group_at h b))) (tried d) |>) d'.

Record got (h : heap) (d : rr_peer_data) (pc : peer_connection)
    (rc : ngx_rc) (h' : heap) (d' : rr_peer_data) (pc' : peer_connection) : Prop := {
  got_heap : heap_ok h';
  got_evolves : evolves h h';
  got_data : data_ok h' d';
  got_cases : (rc = NGX_OK /\ (current d' < number (group_at h' (rrp_peers d')))%nat /\ found_in h d d'
               /\ pc_sockaddr pc' = sockaddr (peer_at (peer_array (group_at h' (rrp_peers d'))) (current d')))
              \/ (rc = NGX_BUSY /\ pc_sockaddr pc' = pc_sockaddr pc);
}.

Lemma busy_group h h' a : evolves h h' -> (a < length h)%nat -> heap_ok h' ->
  heap_ok (clear_fails h' a) /\ evolves h (clear_fails h' a).
Proof.
  intros He Ha Hh'. destruct (He) as [Hl _].
  split; [apply heap_ok_clear_fails; [lia|done]|]. etransitivity; [exact He|apply evolves_clear_fails].
Qed.

Lemma get_last fuel now h d pc : heap_ok h -> data_ok h d -> next (group_at h (rrp_peers d)) = None ->
  exists rc h' d' pc', ngx_http_upstream_get_round_robin_peer (S fuel) now h d pc = Some (rc, h', d', pc')
    /\ got h d pc rc h' d' pc'
    /\ (rc = NGX_OK -> rrp_peers d' = rrp_peers d
        /\ (single (group_at h (rrp_peers d)) = false -> marks d d')).
Proof.
  intros Hh Hd Hx. cbn [ngx_http_upstream_get_round_robin_peer]. pose proof (choose_cases now h d Hh Hd) as Hc.
  destruct (choose now h d) as [[[i|] h'] d'].
  - destruct Hc as (Hh' & He & Hd' & Hi & Hlt & Hrr & Hm). rewrite Hx. do 4 eexists. split; [done|].
    subst i. split; [|done]. split; [done|done|done|]. left. split_and!; [done|done|by left|done].
  - destruct Hc as [-> ->]. rewrite Hx. do 4 eexists. split; [done|]. split; [|done].
    destruct (busy_group h h (rrp_peers d)) as [H1 H2]; [done|apply Hd|done|].
    split; [done|done|by eapply data_ok_evolves|]. by right.
Qed.

Lemma get_cases now h d pc : heap_ok h -> data_ok h d ->
  exists rc h' d' pc', ngx_http_upstream_get_round_robin_peer 2 now h d pc = Some (rc, h', d', pc')
    /\ got h d pc rc h' d' pc'.
Proof.
  intros Hh Hd. destruct (next (group_at h (rrp_peers d))) as [b|] eqn:Hx.
  2: { destruct (get_last 1 now h d pc Hh Hd Hx) as (? & ? & ? & ? & ? & ? & _). eauto 6. }
  change 2%nat with (S 1). remember 1%nat as fuel eqn:Hfuel. cbn [ngx_http_upstream_get_round_robin_peer].
  pose proof (choose_cases now h d Hh Hd) as Hc. destruct (choose now h d) as [[[i|] h'] d'].
  - destruct Hc as (Hh' & He & Hd' & Hi & Hlt & Hrr & Hm). rewrite Hx. do 4 eexists. split; [done|].
    subst i. split; [done|done|done|]. left. split_and!; [done|done|by left|by destruct (_ =? _)].
  - destruct Hc as [-> ->]. rewrite Hx. subst fuel.
    pose proof (data_ok_backup h d b Hh Hd Hx) as Hd2.
    destruct (Hh _ (do_peers _ _ Hd)) as [_ Hl]. destruct (Hl b Hx) as (Hlt & Hbn & _ & Hbs).
    edestruct (get_last 0 now h _ (pc <| cached := false |> <| connection := None |>
      <| tries := Z.of_nat (number (group_at h b)) |>) Hh Hd2 Hbn) as (rc & h' & d' & pc' & -> & [G1 G2 G3 G4] & Hm).
    destruct G4 as [(-> & Hcur & _ & Hpc)|(-> & Hpc)].
    + do 4 eexists. split; [done|]. split; [done|done|done|]. left. split_and!; [done|done| |done].
      right. exists b. split; [done|]. destruct (Hm eq_refl) as [_ Hm2]. by apply Hm2.
    + do 4 eexists. split; [done|]. destruct (busy_group h h' (rrp_peers d)) as [H1 H2]; [done|apply Hd|done|].
      split; [done|done| |by right]. eapply data_ok_evolves; [|exact G3]. apply evolves_clear_fails.
Qed.

(** ** New groups *)

Lemma peers_ok_fresh ps :
  (forall i, peer_ok (peer_at ps i) /\ current_weight (peer_at ps i) = 0) -> peers_ok ps.
Proof.
  intros H. split.
  - intros i. apply H.
  - rewrite (sum_ext _ _ (fun _ => 0)), sum_zero; [done|]. intros i _. apply H.
  - apply spread_zero; [|intros i _; apply H]. unfold total. rewrite <- (sum_zero (length ps)).
    apply sum_le. intros i _. destruct (H i) as [[? _] _]. lia.
Qed.

Lemma fresh_forall ps : Forall (fun p => peer_ok p /\ current_weight p = 0) ps -> peers_ok ps.
Proof.
  intros H. apply peers_ok_fresh. intros i. unfold peer_at. rewrite nth_lookup.
  destruct (ps !! i) as [p|] eqn:E; cbn.
  - apply (Forall_lookup_1 _ _ _ _ H E).
  - unfold peer_ok. cbn. lia.
Qed.

Lemma group_at_app h hs a : (a < length h)%nat -> group_at (h ++ hs) a = group_at h a.
Proof. intros Ha. unfold group_at. by rewrite app_nth1. Qed.

Lemma group_at_new h g hs : group_at (h ++ g :: hs) (length h) = g.
Proof. unfold group_at. by rewrite app_nth2, Nat.sub_diag by lia. Qed.

Lemma group_at_new2 h g g' : group_at (h ++ [g; g']) (S (length h)) = g'.
Proof. unfold group_at. rewrite app_nth2 by lia. by replace (S (length h) - length h)%nat with 1%nat by lia. Qed.

Lemma link_ok_app h hs a : (a < length h)%nat -> link_ok h a -> link_ok (h ++ hs) a.
Proof.
  intros Ha H b. rewrite group_at_app by done. intros Hb. destruct (H b Hb) as (? & ? & ? & ?).
  rewrite length_app, group_at_app by lia. split_and!; [lia|lia|done..].
Qed.

Lemma heap_ok_new h g : heap_ok h -> group_ok g -> next g = None -> heap_ok (h ++ [g]).
Proof.
  intros H Hg Hx a Ha. rewrite length_app in Ha. cbn in Ha. destruct (decide (a < length h)%nat).
  - rewrite group_at_app by done. split; [by apply H|]. by apply link_ok_app; [|apply H].
  - replace a with (length h) by lia. rewrite group_at_new. split; [done|]. intros b.
    rewrite group_at_new. congruence.
Qed.

Lemma heap_ok_pair h g g' : heap_ok h -> group_ok g -> group_ok g' ->
  next g = Some (S (length h)) -> next g' = None -> single g = false -> single g' = false -> heap_ok (h ++ [g; g']).
Proof.
  intros H Hg Hg' Hx Hx' Hs Hs' a Ha. rewrite length_app in Ha. cbn in Ha.
  destruct (decide (a < length h)%nat).
  { rewrite group_at_app by done. split; [by apply H|]. by apply link_ok_app; [|apply H]. }
  destruct (decide (a = length h)) as [->|].
  - rewrite group_at_new. split; [done|]. intros b. rewrite group_at_new, Hx. intros [= <-].
    rewrite group_at_new2, length_app. cbn. split_and!; [lia|lia|done..].
  - replace a with (S (length h)) by lia. rewrite group_at_new2. split; [done|]. intros b.
    rewrite group_at_new2. congruence.
Qed.

Lemma data_ok_app h hs d : heap_ok h -> data_ok h d -> data_ok (h ++ hs) d.
Proof.
  intros Hh [H1 H2 H3 H4]. destruct (Hh _ H1) as [_ Hl].
  split; rewrite ?group_at_app by done; [rewrite length_app; lia|done| |done].
  intros b Hb. destruct (Hl b Hb) as (? & _). rewrite group_at_app by lia. by apply H3.
Qed.

(** The counting and the filling loops agree. *)
Definition peers_of (backup : bool) (ss : list server) : list peer :=
  flat_map (fun s => if Bool.eqb (s_backup s) backup then map (new_peer s) (addrs s) else []) ss.

Lemma fill_peers backup ss : fill backup ss = peers_of backup ss.
Proof.
  unfold fill. assert (H : forall acc, foldl (fun acc s => if Bool.eqb (s_backup s) backup
    then acc ++ map (new_peer s) (addrs s) else acc) acc ss = acc ++ peers_of backup ss); [|apply (H [])].
  induction ss as [|s ss IH]; intros acc; [by rewrite app_nil_r|]. cbn [foldl peers_of flat_map]. rewrite IH.
  destruct (Bool.eqb _ _); [by rewrite <- app_assoc|done].
Qed.

Definition server_ok (s : server) : Prop := 0 <= s_weight s < 2 ^ 63 /\ 0 <= s_max_fails s.

Lemma ngx_int_weight s : server_ok s -> ngx_int (s_weight s) = s_weight s.
Proof. intros [H _]. unfold ngx_int. apply swrap_small; lia. Qed.

Definition weight_sum (ps : list peer) : Z := foldr (fun p z => weight p + z) 0 ps.

Lemma weight_sum_app ps ps' : weight_sum (ps ++ ps') = weight_sum ps + weight_sum ps'.
Proof. unfold weight_sum. induction ps as [|p ps IH]; cbn; lia. Qed.

Lemma weight_sum_server s : server_ok s -> weight_sum (map (new_peer s) (addrs s)) = Z.of_nat (naddrs s) * s_weight s.
Proof.
  intros H. unfold naddrs. induction (addrs s) as [|a l IH]; [done|].
  cbn [map weight_sum foldr length]. unfold weight_sum in IH. rewrite IH. cbn [weight new_peer].
  rewrite ngx_int_weight by done. lia.
Qed.

Lemma weight_sum_peers backup ss : Forall server_ok ss -> 0 <= weight_sum (peers_of backup ss).
Proof.
  intros H. induction H as [|s ss Hs H IH]; [done|]. cbn [peers_of flat_map]. rewrite weight_sum_app.
  fold (peers_of backup ss). destruct (Bool.eqb _ _); [|cbn; lia].
  rewrite weight_sum_server by done. destruct Hs. nia.
Qed.

Lemma count_peers backup ss : Forall server_ok ss -> weight_sum (peers_of backup ss) < 2 ^ 64 ->
  count backup ss = (length (peers_of backup ss), weight_sum (peers_of backup ss)).
Proof.
  intros H Hw. unfold count.
  assert (G : forall n w, 0 <= w -> w + weight_sum (peers_of backup ss) < 2 ^ 64 ->
    foldl (fun '(n, w) s => if Bool.eqb (s_backup s) backup
      then ((n + naddrs s)%nat, wrap 64 (w + Z.of_nat (naddrs s) * s_weight s)) else (n, w)) (n, w) ss
    = ((n + length (peers_of backup ss))%nat, w + weight_sum (peers_of backup ss))); [|by apply (G O 0)].
  clear Hw. induction H as [|s ss Hs H IH]; intros n w Hw Hlt.
  { cbn. by rewrite Nat.add_0_r, Z.add_0_r. }
  revert Hlt. cbn [foldl peers_of flat_map]. fold (peers_of backup ss). rewrite weight_sum_app, length_app.
  pose proof (weight_sum_peers backup ss H). destruct (Bool.eqb _ _); [|intros; by rewrite IH; [..|cbn in *; lia]].
  rewrite weight_sum_server by done. rewrite length_map. fold (naddrs s). intros Hlt.
  assert (0 <= Z.of_nat (naddrs s) * s_weight s) by (destruct Hs; nia).
  rewrite wrap_small by lia. rewrite IH by lia. f_equal; lia.
Qed.

Lemma peers_of_fresh backup ss : Forall server_ok ss ->
  Forall (fun p => peer_ok p /\ current_weight p = 0) (peers_of backup ss).
Proof.
  intros H. unfold peers_of. induction H as [|s ss Hs H IH]; cbn [flat_map]; [done|]. apply Forall_app. split; [|done].
  destruct (Bool.eqb _ _); [|done]. apply Forall_map, Forall_forall. intros a _. unfold peer_ok. cbn.
  rewrite ngx_int_weight by done. destruct Hs. lia.
Qed.

End RoundRobinWorld.

(** * Every interleaving of requests

    The worlds reached from a configuration by any sequence of actions, and
    what holds in all of them. *)
Module RoundRobinReach.
Import RoundRobin RoundRobinWeights RoundRobinFacts RoundRobinGroup RoundRobinWorld.

(** The groups, the [us->peer.data] of the configured upstreams, and the
    requests in progress. *)
Record world := World {
  w_heap : list peers;
  w_confs : list nat;
  w_requests : list upstream;
}.

Definition fresh_upstream : upstream := Upstream None (PC None [] 0 false None) round_robin_sessions.

Inductive action :=
| Start (k : nat)                          (** a request to configured upstream [k] *)
| StartResolved (ur : resolved)            (** a request to a resolved name *)
| Get (r : nat) (now : Z)                  (** request [r], which holds no peer, asks for one *)
| Free (r : nat) (now state : Z)           (** request [r] gives its peer back *)
| Save (r : nat).                          (** the TLS session of the peer of [r] is saved *)

Section Run.
Context (alloc : allocation -> bool) (ngx_inet_resolve_host : list Z -> Z -> option (list (addr * list Z))).
Context (ngx_inet_ntop sprint_d : Z -> list Z) (htons : Z -> Z) (NGX_PEER_FAILED : Z).
Context (ngx_ssl_get_session : option Z -> option Z).

Definition on_request (w : world) (r : nat) (f : upstream -> rr_peer_data -> list peers * upstream) : world :=
  match w_requests w !! r with
  | Some u => match peer_data u with
              | Some d => let '(h, u) := f u d in World h (w_confs w) (<[r := u]> (w_requests w))
              | None => w
              end
  | None => w
  end.

Definition act (w : world) (a : action) : world :=
  match a with
  | Start k =>
      match w_confs w !! k with
      | None => w
      | Some us => match ngx_http_upstream_init_round_robin_peer alloc (w_heap w) us fresh_upstream with
                   | (NGX_OK, u) => World (w_heap w) (w_confs w) (w_requests w ++ [u])
                   | _ => w
                   end
      end
  | StartResolved ur =>
      match ngx_http_upstream_create_round_robin_peer alloc ngx_inet_ntop sprint_d htons ur (w_heap w) fresh_upstream with
      | (NGX_OK, u, h) => World h (w_confs w) (w_requests w ++ [u])
      | (_, _, h) => World h (w_confs w) (w_requests w)
      end
  | Get r now => on_request w r (fun u d =>
      match pc_sockaddr (u_peer u), ngx_http_upstream_get_round_robin_peer 2 now (w_heap w) d (u_peer u) with
      | None, Some (_, h, d, pc) => (h, u <| peer_data := Some d |> <| u_peer := pc |>)
      | _, _ => (w_heap w, u)
      end)
  | Free r now state => on_request w r (fun u _ => release NGX_PEER_FAILED now state (w_heap w) u)
  | Save r => on_request w r (fun u d =>
      match pc_sockaddr (u_peer u) with
      | Some _ => (fst (save_session ngx_ssl_get_session (w_heap w) u d), u)
      | None => (w_heap w, u)
      end)
  end.

(** The configuration phase: every [upstream] is initialised, or none is. *)
Fixpoint boot (us : list srv_conf) (w : world) : option world :=
  match us with
  | [] => Some w
  | u :: us =>
      match ngx_http_upstream_init_round_robin alloc ngx_inet_resolve_host u (w_heap w) with
      | (NGX_OK, u, h) => boot us (World h (w_confs w ++ option_list (us_data u)) (w_requests w))
      | _ => None
      end
  end.

Definition servers_ok (u : srv_conf) : Prop := forall ss, servers u = Some ss -> Forall server_ok ss.

Inductive reach : world -> Prop :=
| reach_boot us w : Forall servers_ok us -> boot us (World [] [] []) = Some w -> reach w
| reach_act w a : reach w -> reach (act w a).

(** ** The invariant *)

Definition request_ok (h : list peers) (u : upstream) : Prop :=
  forall d, peer_data u = Some d ->
    data_ok h d /\ (pc_sockaddr (u_peer u) <> None -> (current d < number (group_at h (rrp_peers d)))%nat).

Record world_ok (w : world) : Prop := {
  wo_heap : heap_ok (w_heap w);
  wo_confs : Forall (fun a => (a < length (w_heap w))%nat) (w_confs w);
  wo_requests : Forall (request_ok (w_heap w)) (w_requests w);
}.

Lemma request_ok_evolves h h' u : evolves h h' -> request_ok h u -> request_ok h' u.
Proof.
  intros He H d Hd. destruct (H d Hd) as [Hok Hc]. split; [by eapply data_ok_evolves|].
  destruct (evolves_at _ _ (rrp_peers d) He) as (-> & _). done.
Qed.

Lemma request_ok_app h hs u : heap_ok h -> request_ok h u -> request_ok (h ++ hs) u.
Proof.
  intros Hh H d Hd. destruct (H d Hd) as [Hok Hc]. split; [by apply data_ok_app|].
  rewrite group_at_app by apply Hok. done.
Qed.

(** A step of one request over the shared heap. *)
Lemma world_ok_request w r f :
  (forall u d, peer_data u = Some d -> request_ok (w_heap w) u ->
     heap_ok (fst (f u d)) /\ evolves (w_heap w) (fst (f u d)) /\ request_ok (fst (f u d)) (snd (f u d))) ->
  world_ok w -> world_ok (on_request w r f).
Proof.
  intros Hf Hw. pose proof Hw as [Hh Hc Hr]. unfold on_request.
  destruct (w_requests w !! r) as [u|] eqn:Hu; [|done]. destruct (peer_data u) as [d|] eqn:Hd; [|done].
  destruct (Hf u d Hd) as (H1 & H2 & H3); [by eapply Forall_lookup_1|].
  destruct (f u d) as [h' u']. cbn in *. split; cbn; [done| |].
  - destruct H2 as [-> _]. done.
  - apply Forall_insert; [|done]. eapply Forall_impl; [|exact Hr]. intros. by eapply request_ok_evolves.
Qed.

(** A new request. *)
Lemma words_zero n : (n <= word_bits)%nat -> (words n <= 1)%nat.
Proof.
  intros Hn. unfold words. pose proof (Nat.Div0.div_le_mono (n + (word_bits - 1)) 127 word_bits) as H.
  change (127 / word_bits)%nat with 1%nat in H. apply H. unfold word_bits in *. lia.
Qed.

Lemma init_tried_ok n d d' : init_tried alloc n d = Some d' ->
  rrp_peers d' = rrp_peers d /\ current d' = current d /\ (words n <= length (tried d'))%nat.
Proof.
  unfold init_tried. destruct (Nat.leb_spec n word_bits).
  - intros [= <-]. split_and!; [done|done|]. by apply words_zero.
  - destruct (alloc _); [|done]. intros [= <-]. split_and!; [done|done|]. cbn -[words]. by rewrite length_replicate.
Qed.

Lemma words_mono n m : (n <= m)%nat -> (words n <= words m)%nat.
Proof. intros H. unfold words. apply Nat.Div0.div_le_mono. lia. Qed.

Lemma start_ok h ops n d u0 u : heap_ok h -> (rrp_peers d < length h)%nat -> current d = O ->
  (number (group_at h (rrp_peers d)) <= n)%nat ->
  (forall b, next (group_at h (rrp_peers d)) = Some b -> (number (group_at h b) <= n)%nat) ->
  pc_sockaddr (u_peer u0) = None ->
  start_peers alloc ops n h u0 d = (NGX_OK, u) -> request_ok h u.
Proof.
  intros Hh Ha Hcur Hn Hb Hpc H. unfold start_peers in H. destruct (init_tried alloc n d) as [d'|] eqn:Ht; [|done].
  apply init_tried_ok in Ht as (E1 & E2 & Hw). injection H as <-. intros d'' [= <-]. cbn. split; [|done].
  split; rewrite ?E1; [done| | |congruence].
  - etransitivity; [|exact Hw]. by apply words_mono.
  - intros b Hx. etransitivity; [|exact Hw]. by apply words_mono, Hb.
Qed.

Lemma init_peer_ok h us u : heap_ok h -> (us < length h)%nat ->
  ngx_http_upstream_init_round_robin_peer alloc h us fresh_upstream = (NGX_OK, u) -> request_ok h u.
Proof.
  intros Hh Ha H. unfold ngx_http_upstream_init_round_robin_peer, get_rrp in H. cbn [peer_data fresh_upstream] in H.
  destruct (alloc ForPeerData); [|done]. cbn -[Nat.ltb] in H. eapply start_ok in H; [exact H|done|done|done| | |done]; cbn -[Nat.ltb].
  - destruct (next (group_at h us)) as [b|]; [|done]. destruct (Nat.ltb_spec (number (group_at h us)) (number (group_at h b))); lia.
  - intros b Hb. rewrite Hb. destruct (Nat.ltb_spec (number (group_at h us)) (number (group_at h b))); lia.
Qed.

Lemma resolved_group_ok ur ps : resolved_peers alloc ngx_inet_ntop sprint_d htons ur = Some ps ->
  group_ok (Peers (ur_naddrs ur) 0 (ur_naddrs ur =? 1)%nat false (ur_host ur) None ps).
Proof.
  intros H.
  assert (Hps : length ps = ur_naddrs ur /\ Forall (fun p => peer_ok p /\ current_weight p = 0) ps).
  { unfold resolved_peers in H. destruct (ur_sockaddr ur).
    - injection H as <-. split; [by rewrite length_insert, length_replicate|]. apply Forall_insert.
      + apply Forall_replicate. unfold peer_ok. cbn. lia.
      + unfold peer_ok. cbn. lia.
    - destruct (forallb _ _); [|done]. injection H as <-. split; [by rewrite length_map, length_seq|].
      apply Forall_map, Forall_forall. intros i _. unfold peer_ok. cbn. lia. }
  destruct Hps as [Hl Hps]. split; cbn; [done|by apply fresh_forall|by apply Nat.eqb_eq].
Qed.

Lemma create_request_ok h ur rc u h' : heap_ok h ->
  ngx_http_upstream_create_round_robin_peer alloc ngx_inet_ntop sprint_d htons ur h fresh_upstream = (rc, u, h') ->
  heap_ok h' /\ (exists hs, h' = h ++ hs) /\ (rc = NGX_OK -> request_ok h' u).
Proof.
  intros Hh H. unfold ngx_http_upstream_create_round_robin_peer, get_rrp in H. cbn [peer_data fresh_upstream] in H.
  assert (Hsame : heap_ok h /\ exists hs, h = h ++ hs) by (split; [done|exists []; by rewrite app_nil_r]).
  destruct (alloc ForPeerData); [|by simplify_eq/=; destruct Hsame].
  destruct (alloc (ForPeers (ur_naddrs ur))); [|by simplify_eq/=; destruct Hsame].
  destruct (resolved_peers _ _ _ _ ur) as [ps|] eqn:Hps; [|by simplify_eq/=; destruct Hsame].
  pose proof (heap_ok_new h _ Hh (resolved_group_ok ur ps Hps) eq_refl) as Hh'.
  cbn [negb] in H. destruct (start_peers _ _ _ _ _ _) as [rc' u'] eqn:Hst. injection H as -> -> <-.
  split_and!; [done|by eexists|]. intros ->.
  eapply start_ok in Hst; [exact Hst|done| |done| | |done]; cbn [rrp_peers]; rewrite ?length_app; cbn -[app group_at].
  - lia.
  - by rewrite group_at_new.
  - intros b. by rewrite group_at_new.
Qed.

(** The groups of a configured upstream. *)
Lemma group_fresh_ok single n w name ps : n = length ps -> (single = true -> n = 1%nat) ->
  Forall (fun p => peer_ok p /\ current_weight p = 0) ps -> group_ok (group single n w name ps).
Proof. intros Hn Hs Hps. split; cbn; [done|by apply fresh_forall|done]. Qed.

Lemma fst_count backup ss : fst (count backup ss) = length (peers_of backup ss).
Proof.
  unfold count. assert (G : forall n w, fst (foldl (fun '(n, w) s => if Bool.eqb (s_backup s) backup
      then ((n + naddrs s)%nat, wrap 64 (w + Z.of_nat (naddrs s) * s_weight s)) else (n, w)) (n, w) ss)
    = (n + length (peers_of backup ss))%nat); [|apply (G O 0)].
  induction ss as [|s ss IH]; intros n w; [cbn; lia|]. cbn [foldl peers_of flat_map].
  fold (peers_of backup ss). rewrite length_app. destruct (Bool.eqb _ _); rewrite IH; [|done].
  rewrite length_map. unfold naddrs. lia.
Qed.

Lemma init_servers_ok us ss h u h' : heap_ok h -> Forall server_ok ss ->
  init_servers alloc us ss h = (NGX_OK, u, h') ->
  heap_ok h' /\ (length h <= length h')%nat /\ Forall (fun a => (a < length h')%nat) (option_list (us_data u)).
Proof.
  intros Hh Hss H. unfold init_servers in H.
  pose proof (fst_count false ss) as Hc. pose proof (fst_count true ss) as Hcb.
  destruct (count false ss) as [n w]. destruct (count true ss) as [bn bw]. cbn [fst] in Hc, Hcb.
  destruct (Nat.eqb_spec n 0); [done|]. destruct (alloc (ForPeers n)); [|done]. cbn [negb] in H.
  assert (Hg : forall s, (s = true -> n = 1%nat) -> group_ok (group s n w (host us) (fill false ss))).
  { intros s Hs. apply group_fresh_ok; rewrite ?fill_peers; [done|done|by apply peers_of_fresh]. }
  destruct (Nat.eqb_spec bn 0).
  - injection H as <- <-. rewrite length_app. cbn. split_and!; [|lia|constructor; [lia|done]].
    apply heap_ok_new; [done|apply Hg, Nat.eqb_eq|done].
  - destruct (alloc (ForPeers bn)); [|done]. injection H as <- <-. rewrite length_app. cbn.
    split_and!; [|lia|constructor; [lia|done]].
    apply heap_ok_pair; try done.
    + destruct (Hg false) as [G1 G2 G3]; [done|]. by split.
    + apply group_fresh_ok; rewrite ?fill_peers; [done|done|by apply peers_of_fresh].
Qed.

Lemma init_implicit_ok us h u h' : heap_ok h -> init_implicit alloc ngx_inet_resolve_host us h = (NGX_OK, u, h') ->
  heap_ok h' /\ (length h <= length h')%nat /\ Forall (fun a => (a < length h')%nat) (option_list (us_data u)).
Proof.
  intros Hh H. unfold init_implicit in H. destruct (port us =? 0); [done|].
  destruct (ngx_inet_resolve_host _ _) as [as_|]; [|done]. destruct (alloc _); [|done]. injection H as <- <-.
  rewrite length_app. cbn. split_and!; [|lia|constructor; [lia|done]]. apply heap_ok_new; [done| |done].
  split; cbn; [by rewrite length_map| |by apply Nat.eqb_eq].
  apply fresh_forall, Forall_map, Forall_forall. intros a _. unfold peer_ok. cbn. lia.
Qed.

Lemma boot_ok us : Forall servers_ok us -> forall w w', world_ok w -> w_requests w = [] ->
  boot us w = Some w' -> world_ok w'.
Proof.
  intros Hus. induction Hus as [|u us Hu Hus IH]; intros w w' Hw Hr H; [by simplify_eq/=|].
  cbn [boot] in H.
  destruct (ngx_http_upstream_init_round_robin _ _ u (w_heap w)) as [[rc u'] h'] eqn:Hi.
  destruct rc; try done. destruct Hw as [Hh Hc _].
  assert (G : heap_ok h' /\ (length (w_heap w) <= length h')%nat
              /\ Forall (fun a => (a < length h')%nat) (option_list (us_data u'))).
  { unfold ngx_http_upstream_init_round_robin in Hi. destruct (servers u) as [ss|] eqn:Hss.
    - eapply init_servers_ok; [done|by apply Hu|done].
    - by eapply init_implicit_ok. }
  destruct G as (G1 & G2 & G3). refine (IH _ _ _ _ H); [|done]. split; cbn; [done| |by rewrite Hr].
  apply Forall_app. split; [|done]. eapply Forall_impl; [|exact Hc]. cbn. lia.
Qed.

(** ** Every action keeps it *)

Lemma get_world_ok w r now : world_ok w -> world_ok (act w (Get r now)).
Proof.
  intros Hw. cbn [act]. apply world_ok_request; [|done]. intros u d Hd Hu. destruct (Hu d Hd) as [Hok _].
  destruct (get_cases now (w_heap w) d (u_peer u) (wo_heap _ Hw) Hok)
    as (rc & h' & d' & pc' & -> & [G1 G2 G3 G4]).
  destruct (pc_sockaddr (u_peer u)) eqn:Hs; cbn [fst snd]; [by split_and!; [apply Hw|..]|].
  split_and!; [done|done|]. intros d'' [= <-]. split; [done|]. cbn. intros Hp.
  destruct G4 as [(_ & ? & _)|(_ & E)]; [done|congruence].
Qed.

Lemma held_ok h u d pc : request_ok h u -> peer_data u = Some d -> pc_sockaddr pc = None ->
  request_ok h (u <| u_peer := pc |>).
Proof. intros H Hd Hpc d' Hd'. split; [by apply (H d')|]. cbn. congruence. Qed.

Lemma free_world_ok w r now state : world_ok w -> world_ok (act w (Free r now state)).
Proof.
  intros Hw. cbn [act]. apply world_ok_request; [|done]. intros u d Hd Hu. destruct (Hu d Hd) as [Hok _].
  pose proof (wo_heap _ Hw) as Hh. unfold release, ngx_http_upstream_free_round_robin_peer. rewrite Hd.
  destruct (pc_sockaddr (u_peer u)) eqn:Hs; cbn [fst snd]; [|done].
  destruct (single _); cbn [fst snd]; [by split_and!; [..|eapply held_ok]|].
  destruct (heap_ok_peer (free_peer NGX_PEER_FAILED now state) (w_heap w) (rrp_peers d) (current d))
    as [G1 G2]; [auto with http|apply Hok|done|].
  split_and!; [done|done|]. eapply request_ok_evolves; [exact G2|]. by eapply held_ok.
Qed.

Lemma save_world_ok w r : world_ok w -> world_ok (act w (Save r)).
Proof.
  intros Hw. cbn [act]. apply world_ok_request; [|done]. intros u d Hd Hu. destruct (Hu d Hd) as [Hok _].
  pose proof (wo_heap _ Hw) as Hh. destruct (pc_sockaddr (u_peer u)); cbn [fst snd]; [|done].
  unfold save_session. destruct (sessions u); cbn [fst ngx_http_upstream_empty_save_session]; [|done].
  unfold ngx_http_upstream_save_round_robin_peer_session.
  destruct (ngx_ssl_get_session _) as [s|]; cbn [fst]; [|done].
  destruct (heap_ok_peer (fun p => p <| ssl_session := Some s |>) (w_heap w) (rrp_peers d) (current d))
    as [G1 G2]; [auto with http|apply Hok|done|].
  split_and!; [done|done|]. by eapply request_ok_evolves.
Qed.

Lemma start_world_ok w k : world_ok w -> world_ok (act w (Start k)).
Proof.
  intros Hw. pose proof Hw as [Hh Hc Hr]. cbn [act]. destruct (w_confs w !! k) as [us|] eqn:Hus; [|done].
  destruct (ngx_http_upstream_init_round_robin_peer _ _ _ _) as [rc u] eqn:Hi. destruct rc; try done.
  split; cbn; [done|done|]. apply Forall_app. split; [done|]. constructor; [|done].
  eapply init_peer_ok; [done| |exact Hi]. by eapply (Forall_lookup_1 _ _ _ _ Hc).
Qed.

Lemma start_resolved_world_ok w ur : world_ok w -> world_ok (act w (StartResolved ur)).
Proof.
  intros [Hh Hc Hr]. cbn [act].
  destruct (ngx_http_upstream_create_round_robin_peer _ _ _ _ _ _ _) as [[rc u] h'] eqn:Hi.
  apply create_request_ok in Hi as (G1 & [hs ->] & G3); [|done].
  assert (Hc' : Forall (fun a => (a < length (w_heap w ++ hs))%nat) (w_confs w)).
  { eapply Forall_impl; [|exact Hc]. cbn. intros a Ha. rewrite length_app. lia. }
  assert (Hr' : Forall (request_ok (w_heap w ++ hs)) (w_requests w)).
  { eapply Forall_impl; [|exact Hr]. intros v Hv. by apply request_ok_app. }
  destruct rc; (split; cbn [w_heap w_confs w_requests]; [exact G1|exact Hc'|]); try exact Hr'.
  apply Forall_app. split; [exact Hr'|]. constructor; [by apply G3|done].
Qed.

Lemma reach_ok w : reach w -> world_ok w.
Proof.
  induction 1 as [us w Hus Hb|w a Hw IH].
  - apply (boot_ok us Hus (World [] [] []) w); [|done|exact Hb]. split; cbn; [|done|done]. intros a Ha. cbn in Ha. lia.
  - destruct a; [by apply start_world_ok|by apply start_resolved_world_ok|by apply get_world_ok
                |by apply free_world_ok|by apply save_world_ok].
Qed.
End Run.

End RoundRobinReach.
