(* ===== verification/RoundRobinProps.v ===== *)
(** * What the balancer promises

    Weights bounded and bitmaps large enough in every reachable world, the
    peer a selection takes, shares in proportion to the weights, retries that
    never meet the same peer twice, and the groups a configuration makes. *)

From S2P Require Import Prelude RoundRobin RoundRobinWeights RoundRobinFacts RoundRobinWorld.
From S2P Require Import RoundRobinWorld.

Module RoundRobinProps.
Import RoundRobin RoundRobinWeights RoundRobinFacts RoundRobinGroup RoundRobinWorld RoundRobinReach.

(** ** Concrete environment of the witnesses *)

Definition ex_alloc (a : allocation) : bool := true.
Definition ex_resolve (h : list Z) (p : Z) : option (list (addr * list Z)) := Some [(Addr 9 16, h)].
Definition ex_text (z : Z) : list Z := [z].
Definition ex_server (sa w : Z) (backup : bool) : server := Server [(Addr sa 16, [sa])] w 1 10 false backup.
Definition ex_conf : srv_conf :=
  SrvConf (Some [ex_server 1 5 false; ex_server 2 1 false; ex_server 3 1 false; ex_server 4 1 true]) (bytes_of "up") 0 None.

Abbreviation ex_act := (act ex_alloc ex_text ex_text id 4 id).
Abbreviation ex_reach := (reach ex_alloc ex_resolve ex_text ex_text id 4 id).
Definition ex_boot : world := default (World [] [] []) (boot ex_alloc ex_resolve [ex_conf] (World [] [] [])).

Lemma ex_reached : ex_reach (ex_act (ex_act (ex_act ex_boot (Start 0)) (Get 0 100)) (Free 0 105 4)).
Proof.
  do 3 apply reach_act. apply (reach_boot _ _ _ _ _ _ _ [ex_conf]); [|by vm_compute].
  constructor; [|done]. intros ss [= <-]. unfold server_ok. repeat constructor; cbn; lia.
Qed.

Section Promises.
Context (alloc : allocation -> bool) (ngx_inet_resolve_host : list Z -> Z -> option (list (addr * list Z))).
Context (ngx_inet_ntop sprint_d : Z -> list Z) (htons : Z -> Z) (NGX_PEER_FAILED : Z).
Context (ngx_ssl_get_session : option Z -> option Z).

(** C39: In every world that requests reach in any order, with any peers down,
    failed or tried, the effective weight of a peer stays between zero and
    its weight, the current weights of a group cancel, and none leaves
    [-T(n-1), T(n-1)] for [T] the total weight of the [n] peers, so the
    [ngx_int_t] arithmetic of a selection does not overflow while [T * n]
    fits. *)
Theorem weights_bounded (w : world) (a i : nat) :
  reach alloc ngx_inet_resolve_host ngx_inet_ntop sprint_d htons NGX_PEER_FAILED ngx_ssl_get_session w ->
  (a < length (w_heap w))%nat -> (i < number (group_at (w_heap w) a))%nat ->
  let ps := peer_array (group_at (w_heap w) a) in
  let T := total ps in
  let n := Z.of_nat (number (group_at (w_heap w) a)) in
  0 <= effective_weight (peer_at ps i) <= weight (peer_at ps i)
  /\ sum_to (number (group_at (w_heap w) a)) (fun j => current_weight (peer_at ps j)) = 0
  /\ - (T * (n - 1)) <= current_weight (peer_at ps i) <= T * (n - 1)
  /\ - (T * n) <= current_weight (peer_at ps i) + effective_weight (peer_at ps i) <= T * n.
Proof.
  intros Hw Ha Hi. apply reach_ok in Hw as [Hh _ _]. destruct (Hh a Ha) as [[Hn [Hp H0 Hsp] _] _].
  rewrite Hn in *. cbv zeta.
  pose proof (spread_bound _ _ _ i Hi H0 Hsp) as Hb. destruct (Hp i) as ((? & ?) & _).
  assert (weight (peer_at (peer_array (group_at (w_heap w) a)) i) <= total (peer_array (group_at (w_heap w) a))).
  { apply (sum_pointwise _ (weights (peer_array (group_at (w_heap w) a)))); [done|].
    intros j _. destruct (Hp j) as ((? & ?) & _). lia. }
  cbv beta in Hb. split_and!; try done; lia.
Qed.

(** In every reachable world the group of a request exists, the bitmap of
    tried peers has a word for every peer of that group and of its backup
    group, a peer that is held is in the array, and asking for a peer returns. *)
Theorem requests_in_bounds (w : world) (r : nat) (u : upstream) (d : rr_peer_data) (now : Z) :
  reach alloc ngx_inet_resolve_host ngx_inet_ntop sprint_d htons NGX_PEER_FAILED ngx_ssl_get_session w ->
  w_requests w !! r = Some u -> peer_data u = Some d ->
  let g := group_at (w_heap w) (rrp_peers d) in
  (rrp_peers d < length (w_heap w))%nat
  /\ (forall i, (i < number g)%nat -> (i / word_bits < length (tried d))%nat)
  /\ (forall b i, next g = Some b -> (i < number (group_at (w_heap w) b))%nat -> (i / word_bits < length (tried d))%nat)
  /\ (pc_sockaddr (u_peer u) <> None -> (current d < length (peer_array g))%nat)
  /\ is_Some (ngx_http_upstream_get_round_robin_peer 2 now (w_heap w) d (u_peer u)).
Proof.
  intros Hw Hu Hd. apply reach_ok in Hw as [Hh _ Hr]. cbv zeta.
  destruct (Forall_lookup_1 _ _ _ _ Hr Hu d Hd) as [[H1 H2 H3 H4] H5].
  destruct (Hh _ H1) as [[Hn _ _] _]. split_and!; [done| | |by rewrite <- Hn|].
  - intros i Hi. apply words_cover in Hi. lia.
  - intros b i Hb Hi. apply words_cover in Hi. specialize (H3 b Hb). lia.
  - destruct (get_cases now (w_heap w) d (u_peer u)) as (? & ? & ? & ? & -> & _); [done|by split|done].
Qed.
End Promises.

Lemma weights_bounded_witness :
  let w := ex_act (ex_act (ex_act ex_boot (Start 0)) (Get 0 100)) (Free 0 105 4) in
  let p := peer_at (peer_array (group_at (w_heap w) 0)) 0 in
  current_weight p = -2 /\ effective_weight p = 0 /\
  - (7 * 2) <= current_weight p <= 7 * 2.
Proof.
  cbv zeta. split; [by vm_compute|]. split; [by vm_compute|].
  apply (weights_bounded _ _ _ _ _ _ _ _ 0 0 ex_reached); by vm_compute; lia.
Defined.

Lemma requests_in_bounds_witness :
  let w := ex_act (ex_act (ex_act ex_boot (Start 0)) (Get 0 100)) (Free 0 105 4) in
  let u := nth 0 (w_requests w) fresh_upstream in
  let d := default (RRP 0 0 []) (peer_data u) in
  current d = 0%nat /\ tried d = [1] /\ (rrp_peers d < length (w_heap w))%nat.
Proof.
  cbv zeta. split; [by vm_compute|]. split; [by vm_compute|].
  apply (requests_in_bounds _ _ _ _ _ _ _ _ 0
    (nth 0 (w_requests (ex_act (ex_act (ex_act ex_boot (Start 0)) (Get 0 100)) (Free 0 105 4))) fresh_upstream)
    _ 200 ex_reached); by vm_compute.
Defined.

(** ** The selection *)

(** Whether peer [i] may be used now. *)
Definition able (t : list Z) (now : Z) (ps : list peer) (i : nat) : bool :=
  let p := peer_at ps i in
  negb (is_tried t i) && negb (down p)
  && ((max_fails p =? 0) || (fails p <? max_fails p) || (fail_timeout p <? now - checked p)).

Lemma able_skip t now ps i : able t now ps i = negb (skip_peer t now ps i).
Proof.
  unfold able, skip_peer, failed_recently. rewrite (Z.ltb_antisym (max_fails _)), (Z.ltb_antisym (now - _)).
  by destruct (is_tried _ _), (down _), (max_fails _ =? 0), (max_fails _ <=? _), (now - _ <=? _).
Qed.

(** A selection takes the first of the peers with the highest raised
    weight among those that are not tried, not down and not failed within
    their timeout; it charges it the weight gained by all of them and marks it
    tried, and there is no selection exactly when no peer is able. *)
Theorem select_best (now : Z) (h : list peers) (d : rr_peer_data) :
  (rrp_peers d < length h)%nat ->
  let g := group_at h (rrp_peers d) in
  let ps := peer_array g in
  number g = length ps -> (words (number g) <= length (tried d))%nat ->
  match ngx_http_upstream_get_peer now h d with
  | (None, h', d') => h' = h /\ d' = d /\ forall i, (i < number g)%nat -> able (tried d) now ps i = false
  | (Some b, h', d') =>
      (b < number g)%nat /\ able (tried d) now ps b = true
      /\ (forall i, (i < number g)%nat -> able (tried d) now ps i = true ->
            let raised j := current_weight (peer_at ps j) + effective_weight (peer_at ps j) in
            raised i <= raised b /\ ((i < b)%nat -> raised i < raised b))
      /\ (forall i, (i < number g)%nat ->
            let p := peer_at (peer_array (group_at h' (rrp_peers d))) i in
            current_weight p = current_weight (peer_at ps i)
              + (if able (tried d) now ps i then effective_weight (peer_at ps i) else 0)
              - (if (i =? b)%nat
                 then sum_to (number g) (fun j => if able (tried d) now ps j then effective_weight (peer_at ps j) else 0)
                 else 0)
            /\ fixed p = fixed (peer_at ps i))
      /\ (forall a, a <> rrp_peers d -> group_at h' a = group_at h a)
      /\ rrp_peers d' = rrp_peers d /\ current d' = b
      /\ (forall i, is_tried (tried d') i = (b =? i)%nat || is_tried (tried d) i)
  end.
Proof.
  intros Ha g ps Hn Hw. unfold ngx_http_upstream_get_peer. fold g. fold ps. rewrite Hn in *.
  pose proof (get_peer_cases (tried d) now ps) as Hc. destruct (get_peer _ _ _ _) as [[b|] ps'].
  - destruct Hc as (Hb & Hs & Hmax & Hsel). split_and!.
    + done.
    + by rewrite able_skip, Hs.
    + intros i Hi Hab. rewrite able_skip in Hab. apply negb_true_iff in Hab. by apply Hmax.
    + intros i Hi. rewrite group_at_alter, Nat.eqb_refl by done. cbn [peer_array set_field set_peer_array].
      split; [|by eapply selected_fixed]. rewrite (selected_weight _ _ _ _ _ _ Hi Hsel). unfold next_weight, on.
      rewrite able_skip. erewrite (sum_ext _ (fun j => if able _ _ _ j then _ else _)); [reflexivity|].
      intros j _. by rewrite able_skip.
    + intros a Hne. rewrite group_at_alter by done. by destruct (Nat.eqb_spec a (rrp_peers d)).
    + done.
    + done.
    + intros i. apply is_tried_set. apply words_cover in Hb. lia.
  - destruct Hc as [-> Hall]. split_and!; [apply alter_same|done|]. intros i Hi. by rewrite able_skip, Hall.
Qed.

Lemma select_best_witness :
  let h := w_heap ex_boot in
  let d := RRP 0 0 [1] in
  let '(best, h', d') := ngx_http_upstream_get_peer 100 h d in
  best = Some 1%nat /\ (forall i, is_tried (tried d') i = (1 =? i)%nat || is_tried [1] i).
Proof.
  cbv zeta.
  pose proof (select_best 100 (w_heap ex_boot) (RRP 0 0 [1])) as H.
  destruct (ngx_http_upstream_get_peer 100 (w_heap ex_boot) (RRP 0 0 [1])) as [[best h'] d'] eqn:E.
  assert (best = Some 1%nat) as -> by (vm_compute in E; by simplify_eq). split; [done|].
  apply H; vm_compute; [lia|done|lia].
Defined.

(** ** The attempts of one request *)

(** The peers one request is given by successive calls, each in any heap the
    other requests may have made in between. *)
Inductive attempts (h0 : list peers) : rr_peer_data -> list (nat * nat) -> Prop :=
| no_attempt d : attempts h0 d []
| next_attempt h now d pc h' d' pc' l :
    heap_ok h -> evolves h0 h ->
    ngx_http_upstream_get_round_robin_peer 2 now h d pc = Some (NGX_OK, h', d', pc') ->
    attempts h0 d' l -> attempts h0 d ((rrp_peers d', current d') :: l).

Record fresh_picks (h0 : list peers) (d : rr_peer_data) (l : list (nat * nat)) : Prop := {
  fp_nodup : NoDup l;
  fp_untried : forall i, (rrp_peers d, i) ∈ l -> is_tried (tried d) i = false;
  fp_group : forall a i, (a, i) ∈ l -> (i < number (group_at h0 a))%nat
               /\ (a = rrp_peers d \/ next (group_at h0 (rrp_peers d)) = Some a);
}.

Lemma fresh_picks_mark h0 d d' l : marks d d' -> (current d' < number (group_at h0 (rrp_peers d)))%nat ->
  (words (number (group_at h0 (rrp_peers d))) <= length (tried d))%nat ->
  fresh_picks h0 d' l -> fresh_picks h0 d ((rrp_peers d', current d') :: l).
Proof.
  intros (Hr & Hu & Ht) Hi Hw [F1 F2 F3].
  assert (Hset : forall i, is_tried (tried d') i = ((current d' =? i)%nat || is_tried (tried d) i)%bool).
  { intros i. rewrite Ht. apply is_tried_set. apply words_cover in Hi. lia. }
  rewrite Hr in *. split.
  - constructor; [|done]. intros Hin. apply F2 in Hin. by rewrite Hset, Nat.eqb_refl in Hin.
  - intros i Hin. apply elem_of_cons in Hin as [[= ->]|Hin]; [done|].
    apply F2 in Hin. rewrite Hset in Hin. by apply orb_false_iff in Hin as [_ Hin].
  - intros a i Hin. apply elem_of_cons in Hin as [[= -> ->]|Hin]; [by split; [|left]|by apply F3].
Qed.

Lemma attempts_fresh h0 d l : heap_ok h0 -> data_ok h0 d -> single (group_at h0 (rrp_peers d)) = false ->
  attempts h0 d l -> fresh_picks h0 d l.
Proof.
  intros Hh0 Hd Hs Ha. revert Hd Hs.
  induction Ha as [d|h now d pc h' d' pc' l Hh He Hg Ha IH]; intros Hd Hs.
  { split; [constructor|by intros i []%elem_of_nil|by intros a i []%elem_of_nil]. }
  pose proof (data_ok_evolves _ _ _ He Hd) as Hd1.
  destruct (get_cases now h d pc Hh Hd1) as (rc & h2 & d2 & pc2 & Hg2 & [G1 G2 G3 G4]).
  rewrite Hg in Hg2. simplify_eq. destruct G4 as [(_ & Hcur & Hfound & _)|[? _]]; [|done].
  destruct (evolves_at _ _ (rrp_peers d) He) as (En & Es & Ex & _).
  destruct (evolves_at _ _ (rrp_peers d2) (transitivity He G2)) as (En2 & Es2 & _). rewrite En2 in Hcur.
  destruct Hfound as [[Hr Hm]|(b & Hb & Hm)].
  - apply fresh_picks_mark; [by apply Hm; rewrite Es|by rewrite <- Hr|apply Hd|].
    apply IH; [|by rewrite Hr]. destruct Hd as [D1 D2 D3 D4].
    destruct (Hm ltac:(by rewrite Es)) as (_ & _ & Ht).
    split; rewrite ?Hr, ?Ht, ?length_set_tried_bit; [done|done|done|congruence].
  - rewrite Ex in Hb. destruct (evolves_at _ _ b He) as (Enb & _). rewrite Enb in Hm.
    destruct (Hh0 _ (do_peers _ _ Hd)) as [_ Hl]. destruct (Hl b Hb) as (Hlt & Hbn & _ & Hbs).
    pose proof (data_ok_backup h0 d b Hh0 Hd Hb) as Hd2. pose proof Hm as (Hr & _ & Ht).
    cbn [rrp_peers set_field set_tried set_rrp_peers tried] in Hr, Ht.
    assert (F : fresh_picks h0 d2 l).
    { apply IH; [|by rewrite Hr]. destruct Hd2 as [D1 D2 D3 D4].
      cbn [rrp_peers set_field set_tried set_rrp_peers tried] in D1, D2, D3, D4.
      split; rewrite ?Hr, ?Ht, ?length_set_tried_bit; [done|done|done|congruence]. }
    apply (fresh_picks_mark _ _ _ _ Hm) in F; [|by rewrite <- Hr|apply Hd2].
    destruct F as [F1 F2 F3]. cbn [rrp_peers set_field set_tried set_rrp_peers] in F3.
    assert (Hall : forall a i, (a, i) ∈ (rrp_peers d2, current d2) :: l -> a = b).
    { intros a i Hin. destruct (F3 a i Hin) as [_ [->|Hn]]; [done|]. rewrite Hbn in Hn. done. }
    split; [done| |].
    + intros i Hin. apply Hall in Hin. lia.
    + intros a i Hin. split; [by apply F3|]. right. by rewrite (Hall a i Hin).
Qed.

(** However the requests interleave, one request is never given the same
    peer twice, so a group with its backup gives it at most as many peers as
    they have. *)
Theorem retries_distinct (h0 : list peers) (d : rr_peer_data) (l : list (nat * nat)) :
  heap_ok h0 -> data_ok h0 d -> single (group_at h0 (rrp_peers d)) = false -> attempts h0 d l ->
  NoDup l /\
  (length l <= number (group_at h0 (rrp_peers d))
     + from_option (fun b => number (group_at h0 b)) 0 (next (group_at h0 (rrp_peers d))))%nat.
Proof.
  intros Hh Hd Hs Ha. apply attempts_fresh in Ha as [F1 _ F3]; [|done..]. split; [done|].
  pose (all := map (pair (rrp_peers d)) (seq 0 (number (group_at h0 (rrp_peers d))))
     ++ from_option (fun b => map (pair b) (seq 0 (number (group_at h0 b)))) [] (next (group_at h0 (rrp_peers d)))).
  assert (Hin : forall x, x ∈ l -> x ∈ all).
  { intros [a i] Hx. destruct (F3 a i Hx) as [Hi [->|Hn]]; apply elem_of_app.
    - left. apply list_elem_of_fmap. exists i. split; [done|]. apply elem_of_seq. lia.
    - right. rewrite Hn. cbn. apply list_elem_of_fmap. exists i. split; [done|]. apply elem_of_seq. lia. }
  pose proof (submseteq_length _ _ (NoDup_submseteq _ _ F1 Hin)) as Hle. unfold all in Hle.
  rewrite length_app, length_map, length_seq in Hle.
  destruct (next (group_at h0 (rrp_peers d))); cbn [from_option] in *; [|cbn in Hle; lia].
  by rewrite length_map, length_seq in Hle.
Qed.

Lemma ex_heap_ok : heap_ok (w_heap ex_boot).
Proof.
  eapply wo_heap, (reach_ok ex_alloc ex_resolve ex_text ex_text id 4 id).
  apply (reach_boot _ _ _ _ _ _ _ [ex_conf]); [|by vm_compute].
  constructor; [|done]. intros ss [= <-]. unfold server_ok. repeat constructor; cbn; lia.
Qed.

Lemma ex_data_ok : data_ok (w_heap ex_boot) (RRP 0 0 [0]).
Proof. split; [by vm_compute; lia|by vm_compute; lia| |done]. intros b Hb. vm_compute in Hb. simplify_eq. vm_compute. lia. Qed.

Lemma retries_distinct_witness :
  NoDup [(0, 0); (0, 1); (0, 2); (1, 0)]%nat /\ (4 <= 3 + 1)%nat.
Proof.
  apply (retries_distinct (w_heap ex_boot) (RRP 0 0 [0])); [apply ex_heap_ok|apply ex_data_ok|done|].
  pose (pc := PC None [] 0 false None). pose proof ex_heap_ok as Hh.
  eapply (next_attempt _ (w_heap ex_boot) 100 _ pc _ (RRP 0 0 [1])); [done|done|by vm_compute|].
  eapply (next_attempt _ (w_heap ex_boot) 100 _ pc _ (RRP 0 1 [3])); [done|done|by vm_compute|].
  eapply (next_attempt _ (w_heap ex_boot) 100 _ pc _ (RRP 0 2 [7])); [done|done|by vm_compute|].
  eapply (next_attempt _ (w_heap ex_boot) 100 _ pc _ (RRP 1 0 [1])); [done|done|by vm_compute|].
  apply no_attempt.
Defined.

(** ** Shares *)

Section Shares.
Context (alloc : allocation -> bool).
Hypothesis alloc_ok : forall x, alloc x = true.

(** One new request after another asks for its first peer. *)
Fixpoint serve (us : nat) (nows : list Z) (h : list peers) : option (list nat * list peers) :=
  match nows with
  | [] => Some ([], h)
  | now :: nows =>
      match ngx_http_upstream_init_round_robin_peer alloc h us fresh_upstream with
      | (NGX_OK, Upstream (Some d) pc _) =>
          match ngx_http_upstream_get_round_robin_peer 2 now h d pc with
          | Some (NGX_OK, h, d, _) =>
              match serve us nows h with
              | Some (l, h) => Some (current d :: l, h)
              | None => None
              end
          | _ => None
          end
      | _ => None
      end
  end.

(** A peer that is up, has not failed and has its full weight. *)
Definition healthy (p : peer) : Prop :=
  down p = false /\ (max_fails p = 0 \/ fails p < max_fails p) /\ effective_weight p = weight p /\ 0 <= weight p.

Lemma healthy_taken t now ps i : (forall j, healthy (peer_at ps j)) -> is_tried t i = false -> skip_peer t now ps i = false.
Proof.
  intros H Ht. destruct (H i) as (Hd & Hm & _). unfold skip_peer, failed_recently. rewrite Ht, Hd.
  destruct (Z.eqb_spec (max_fails (peer_at ps i)) 0); [done|].
  by destruct (Z.leb_spec (max_fails (peer_at ps i)) (fails (peer_at ps i))); [lia|].
Qed.

(** The group between two requests. *)
Record level (ps : list peer) (c : nat -> Z) : Prop := {
  lv_healthy : forall i, healthy (peer_at ps i);
  lv_weight : forall i, (i < length ps)%nat -> current_weight (peer_at ps i) = c i;
  lv_sum : sum_to (length ps) c = 0;
  lv_above : forall i, (i < length ps)%nat -> - total ps < c i;
}.

(** The current weights after a request that [b] serves. *)
Definition served (ps : list peer) (c : nat -> Z) (b i : nat) : Z :=
  c i + weight (peer_at ps i) - (if (i =? b)%nat then total ps else 0).

Lemma round_level t now ps c : level ps c -> 0 < total ps -> (forall i, is_tried t i = false) ->
  exists b ps', get_peer t now (length ps) ps = (Some b, ps') /\ (b < length ps)%nat /\ length ps' = length ps
    /\ (forall i, weight (peer_at ps' i) = weight (peer_at ps i)) /\ level ps' (served ps c b).
Proof.
  intros [Hh Hc H0 Hab] HT Ht. pose proof (get_peer_cases t now ps) as Hg.
  assert (Htake : forall i, skip_peer t now ps i = false) by (intros; by apply healthy_taken).
  destruct (get_peer _ _ _ _) as [[b|] ps'].
  2: { destruct Hg as [_ Hall]. destruct (decide (length ps = 0%nat)) as [E|E].
       - unfold total in HT. rewrite E in HT. cbn in HT. lia.
       - specialize (Hall 0%nat ltac:(lia)). by rewrite Htake in Hall. }
  destruct Hg as (Hb & _ & Hmax & Hsel). exists b, ps'. pose proof Hsel as [Hl _].
  assert (Hfix : forall j, fixed (peer_at ps' j) = fixed (peer_at ps j)) by (intros; by eapply selected_fixed).
  assert (Hw : forall j, weight (peer_at ps' j) = weight (peer_at ps j)).
  { intros j. specialize (Hfix j). unfold fixed in Hfix. by simplify_eq. }
  assert (Htot : total ps' = total ps) by (unfold total; rewrite Hl; by apply sum_ext).
  pose (w := weights ps).
  assert (Hn : forall j, (j < length ps)%nat ->
            current_weight (peer_at ps' j) = next_weight (length ps) c w (fun _ => true) b j).
  { intros j Hj. rewrite (selected_weight _ _ _ _ _ _ Hj Hsel). unfold next_weight, on. rewrite Hc, Htake by done.
    destruct (Hh j) as (_ & _ & -> & _). f_equal. destruct (j =? b)%nat; [|done]. apply sum_ext.
    intros k _. rewrite Htake. by destruct (Hh k) as (_ & _ & -> & _). }
  assert (Hsv : forall j, next_weight (length ps) c w (fun _ => true) b j = served ps c b j).
  { intros j. unfold next_weight, served, on, w. f_equal. }
  split_and!; [done|done|done|done|]. split.
  - intros j. destruct (Hh j) as (A & B & C & D). unfold healthy. rewrite Hw.
    assert (E : down (peer_at ps' j) = down (peer_at ps j) /\ max_fails (peer_at ps' j) = max_fails (peer_at ps j)
                /\ fails (peer_at ps' j) = fails (peer_at ps j)).
    { specialize (Hfix j). unfold fixed in Hfix. simplify_eq. by split_and!. }
    destruct E as (-> & -> & ->). split_and!; [done|done| |done].
    destruct (decide (j < length ps)%nat) as [Hj|Hj].
    + pose proof (selected_eff _ _ _ _ _ j Hj Hsel) as He. cbv beta in He. rewrite Htake, C, Z.ltb_irrefl in He. congruence.
    + rewrite <- Hw. unfold peer_at. by rewrite nth_overflow by lia.
  - intros i Hi. rewrite <- Hsv. apply Hn. lia.
  - rewrite Hl, <- H0, <- (next_weight_sum (length ps) c w (fun _ => true) b) by done. apply sum_ext. intros i _. by rewrite Hsv.
  - intros i Hi. rewrite Hl in Hi. rewrite <- Hsv, Htot. apply above_round; try done.
    + intros j Hj. destruct (Hmax j Hj (Htake j)) as [Hm _]. cbv beta in Hm. rewrite !Hc in Hm by done.
      unfold w. destruct (Hh j) as (_ & _ & <- & _), (Hh b) as (_ & _ & <- & _). done.
    + intros j _. apply (Hh j).
Qed.

Lemma is_tried_replicate k i : is_tried (replicate k 0) i = false.
Proof.
  unfold is_tried. rewrite nth_lookup. destruct (replicate k 0 !! (i / word_bits)%nat) as [z|] eqn:E; [|done].
  by apply lookup_replicate in E as [-> _].
Qed.

Lemma start_fresh h us : exists t, (forall i, is_tried t i = false) /\
  ngx_http_upstream_init_round_robin_peer alloc h us fresh_upstream
  = (NGX_OK, Upstream (Some (RRP us 0 t)) (PC None [] (Z.of_nat (number (group_at h us))) false None) round_robin_sessions).
Proof.
  unfold ngx_http_upstream_init_round_robin_peer, get_rrp. cbn [peer_data fresh_upstream]. rewrite alloc_ok.
  unfold start_peers, init_tried. destruct (_ <=? word_bits)%nat.
  - exists [0]. split; [apply (is_tried_replicate 1)|done].
  - rewrite alloc_ok. eexists. split; [apply is_tried_replicate|done].
Qed.

Abbreviation arr h us := (peer_array (group_at h us)).

Record ready (h : list peers) (us : nat) : Prop := {
  rd_us : (us < length h)%nat;
  rd_number : number (group_at h us) = length (arr h us);
  rd_total : 0 < total (arr h us);
}.

(** One request on a level group. *)
Lemma serve_one h us now nows c : ready h us -> single (group_at h us) = false -> level (arr h us) c ->
  exists b h', (b < length (arr h us))%nat
    /\ serve us (now :: nows) h = (match serve us nows h' with Some (l, h2) => Some (b :: l, h2) | None => None end)
    /\ ready h' us /\ single (group_at h' us) = false /\ length (arr h' us) = length (arr h us)
    /\ (forall i, weight (peer_at (arr h' us) i) = weight (peer_at (arr h us) i))
    /\ level (arr h' us) (served (arr h us) c b).
Proof.
  intros [Hus Hn HT] Hs Hl. destruct (start_fresh h us) as (t & Ht & Hinit).
  destruct (round_level t now (arr h us) c Hl HT Ht) as (b & ps' & Hget & Hb & Hlen & Hw & Hl').
  exists b, (alter (fun g => g <| peer_array := ps' |>) us h).
  assert (Hg : group_at (alter (fun g => g <| peer_array := ps' |>) us h) us = (group_at h us) <| peer_array := ps' |>).
  { rewrite group_at_alter by done. by rewrite Nat.eqb_refl. }
  rewrite Hg. split_and!; try done.
  - cbn [serve]. rewrite Hinit. unfold choose.
    cbn [ngx_http_upstream_get_round_robin_peer]. unfold choose, ngx_http_upstream_get_peer.
    cbn [rrp_peers tried]. rewrite Hs, Hn, Hget. destruct (next (group_at h us)); [|done]. done.
  - split; rewrite ?Hg; [by rewrite length_alter|cbn; congruence|cbn].
    unfold total in *. rewrite Hlen. erewrite sum_ext; [exact HT|]. intros i _. apply Hw.
Qed.

Definition times (i : nat) (picks : list nat) : Z := Z.of_nat (count_occ Nat.eq_dec picks i).

Lemma times_cons i b l : times i (b :: l) = (if (i =? b)%nat then 1 else 0) + times i l.
Proof.
  unfold times. cbn. destruct (Nat.eq_dec b i) as [->|].
  - rewrite Nat.eqb_refl. lia.
  - destruct (Nat.eqb_spec i b); [congruence|lia].
Qed.

Lemma level_ext ps c c' : (forall i, c i = c' i) -> level ps c -> level ps c'.
Proof.
  intros H [H1 H2 H3 H4]. split; [done| | |].
  - intros i Hi. rewrite <- H. by apply H2.
  - rewrite <- H3. apply sum_ext. done.
  - intros i Hi. rewrite <- H. by apply H4.
Qed.

Lemma serve_level us nows : forall h c, ready h us -> single (group_at h us) = false -> level (arr h us) c ->
  exists picks h', serve us nows h = Some (picks, h') /\ length picks = length nows
    /\ length (arr h' us) = length (arr h us)
    /\ (forall i, weight (peer_at (arr h' us) i) = weight (peer_at (arr h us) i))
    /\ level (arr h' us) (fun i => c i + Z.of_nat (length nows) * weight (peer_at (arr h us) i)
                                   - total (arr h us) * times i picks).
Proof.
  induction nows as [|now nows IH]; intros h c Hr Hs Hl.
  { exists [], h. split_and!; try done. eapply level_ext; [|exact Hl]. intros i. unfold times. cbn. lia. }
  destruct (serve_one h us now nows c Hr Hs Hl) as (b & h1 & Hb & -> & Hr1 & Hs1 & Hlen1 & Hw1 & Hl1).
  destruct (IH h1 _ Hr1 Hs1 Hl1) as (picks & h' & -> & Hlen & Hlen' & Hw' & Hl').
  exists (b :: picks), h'. split_and!; [done|cbn; lia|congruence|congruence|].
  assert (HT : total (arr h1 us) = total (arr h us)).
  { unfold total. rewrite Hlen1. apply sum_ext. intros i _. apply Hw1. }
  eapply level_ext; [|exact Hl']. intros i. cbv beta. unfold served. rewrite times_cons, Hw1, HT.
  cbn [length]. destruct (i =? b)%nat; lia.
Qed.

Lemma serve_single us nows h : (us < length h)%nat -> single (group_at h us) = true -> down (peer_at (arr h us) 0) = false ->
  serve us nows h = Some (replicate (length nows) 0%nat, h).
Proof.
  intros Hus Hs Hd. induction nows as [|now nows IH]; [done|].
  destruct (start_fresh h us) as (t & Ht & Hinit). cbn [serve]. rewrite Hinit.
  cbn [ngx_http_upstream_get_round_robin_peer]. unfold choose. cbn [rrp_peers]. rewrite Hs, Hd.
  destruct (next (group_at h us)); by rewrite IH.
Qed.

Lemma times_replicate n : times 0 (replicate n 0%nat) = Z.of_nat n.
Proof. induction n as [|n IH]; [done|]. cbn [replicate]. rewrite times_cons, IH. cbn [Nat.eqb]. lia. Qed.

(** C36: When requests arrive one after another at a group of healthy peers,
    no peer is ever a whole turn ahead of its share [w / T], and after any
    multiple [m * T] of requests every peer has been given exactly [m * w] of
    them and the current weights are back to zero. *)
Theorem fair_shares (us : nat) (h : list peers) (nows : list Z) :
  let g := group_at h us in
  let ps := peer_array g in
  ready h us -> (single g = true -> number g = 1%nat) ->
  (forall i, (i < number g)%nat -> healthy (peer_at ps i) /\ current_weight (peer_at ps i) = 0) ->
  exists picks h', serve us nows h = Some (picks, h') /\ length picks = length nows
    /\ (forall i, (i < number g)%nat ->
          total ps * times i picks < total ps + Z.of_nat (length nows) * weight (peer_at ps i))
    /\ (forall m, Z.of_nat (length nows) = m * total ps -> forall i, (i < number g)%nat ->
          times i picks = m * weight (peer_at ps i)
          /\ current_weight (peer_at (peer_array (group_at h' us)) i) = 0).
Proof.
  intros g ps Hr H1 Hps. pose proof Hr as [Hus Hn HT]. fold g in Hn, HT. fold ps in Hn, HT.
  destruct (single g) eqn:Hs.
  - specialize (H1 eq_refl). exists (replicate (length nows) 0%nat), h.
    destruct (Hps 0%nat ltac:(lia)) as [Hh Hc].
    assert (Ht : total ps = weight (peer_at ps 0)) by (unfold total; rewrite <- Hn, H1; cbn; lia).
    split_and!; [apply serve_single; [done|done|apply Hh]|apply length_replicate| |].
    + intros i Hi. replace i with 0%nat by lia. rewrite times_replicate, <- Ht. lia.
    + intros m Hm i Hi. replace i with 0%nat by lia. rewrite times_replicate, <- Ht. done.
  - assert (Hout : forall i, (length ps <= i)%nat -> peer_at ps i = zero_peer).
    { intros i Hi. unfold peer_at. by apply nth_overflow. }
    assert (Hl : level ps (fun _ => 0)).
    { split; [|intros i Hi; apply Hps; lia|apply sum_zero|intros; lia]. intros i.
      destruct (decide (i < length ps)%nat); [apply Hps; lia|]. rewrite Hout by lia. unfold healthy. cbn. lia. }
    destruct (serve_level us nows h _ Hr Hs Hl) as (picks & h' & Hsv & Hlen & Hlen' & Hw' & [_ L2 L3 L4]).
    fold g in Hlen', L2, L3, L4, Hw'. fold ps in Hlen', L2, L3, L4, Hw'.
    exists picks, h'. split_and!; [done|done| |].
    + intros i Hi. specialize (L4 i ltac:(lia)). cbv beta in L4.
      replace (total (arr h' us)) with (total ps) in L4; [lia|]. unfold total. rewrite Hlen'. apply sum_ext. done.
    + intros m Hm i Hi. rewrite Hlen' in *.
      assert (Htot : total (arr h' us) = total ps) by (unfold total; rewrite Hlen'; by apply sum_ext).
      rewrite Htot in L4.
      assert (Hk : m * weight (peer_at ps i) - times i picks = 0).
      { refine (whole_turns _ _ _ (fun i => m * weight (peer_at ps i) - times i picks) HT L3 L4 _ i _); [|lia].
        intros j _. cbv beta. rewrite Hm. lia. }
      split; [lia|]. rewrite L2 by lia. rewrite Hm. nia.
Qed.
End Shares.

Lemma fair_shares_witness :
  let nows := repeat 100 7 in
  exists picks h', serve ex_alloc 0 nows (w_heap ex_boot) = Some (picks, h')
    /\ picks = [0; 0; 1; 0; 2; 0; 0]%nat /\ times 0 picks = 1 * 5.
Proof.
  cbv zeta.
  destruct (fair_shares ex_alloc (fun _ => eq_refl) 0 (w_heap ex_boot) (repeat 100 7)) as (picks & h' & H1 & _ & _ & H2).
  - split; vm_compute; [lia|done|done].
  - done.
  - intros i Hi. vm_compute in Hi. destruct i as [|[|[|i]]]; [..|lia];
      (split; [split_and!; [done|right; by vm_compute|by vm_compute|by vm_compute]|by vm_compute]).
  - exists picks, h'. split; [done|]. split.
    + vm_compute in H1. by simplify_eq.
    + apply (H2 1); [done|]. vm_compute. lia.
Defined.

(** ** The groups a configuration makes *)

Section Init.
Context (alloc : allocation -> bool) (ngx_inet_resolve_host : list Z -> Z -> option (list (addr * list Z))).
Hypothesis alloc_ok : forall x, alloc x = true.

(** A group of peers, with the group after it. *)
Definition group_of (us : srv_conf) (single : bool) (link : option nat) (ps : list peer) : peers :=
  Peers (length ps) (weight_sum ps) single (negb (weight_sum ps =? Z.of_nat (length ps))) (host us) link ps.

(** A configured upstream becomes one group with every address of its
    servers in order, followed by one with those of its backup servers if
    there are any; the counts and total weights are those of the arrays, and a
    configuration without a primary address is refused. *)
Theorem init_groups (us : srv_conf) (ss : list server) (h : list peers) :
  servers us = Some ss -> Forall server_ok ss ->
  weight_sum (peers_of false ss) < 2 ^ 64 -> weight_sum (peers_of true ss) < 2 ^ 64 ->
  let primary := peers_of false ss in
  let backup := peers_of true ss in
  ngx_http_upstream_init_round_robin alloc ngx_inet_resolve_host us h =
    match primary, backup with
    | [], _ => (NGX_ERROR, us, h)
    | _, [] => (NGX_OK, us <| us_data := Some (length h) |>,
                h ++ [group_of us (length primary =? 1)%nat None primary])
    | _, _ => (NGX_OK, us <| us_data := Some (length h) |>,
               h ++ [group_of us false (Some (S (length h))) primary; group_of us false None backup])
    end.
Proof.
  intros Hs Hss Hp Hb primary backup. unfold ngx_http_upstream_init_round_robin. rewrite Hs. unfold init_servers.
  rewrite !count_peers, !fill_peers, !alloc_ok by done. fold primary. fold backup. cbn [negb].
  destruct primary as [|p ps]; [done|]. destruct backup as [|b bs]; done.
Qed.
End Init.

Lemma init_groups_witness :
  let ss := [ex_server 1 5 false; ex_server 4 1 true] in
  ngx_http_upstream_init_round_robin ex_alloc ex_resolve (SrvConf (Some ss) [] 0 None) []
  = (NGX_OK, SrvConf (Some ss) [] 0 (Some 0%nat),
     [group_of (SrvConf (Some ss) [] 0 None) false (Some 1%nat) (peers_of false ss);
      group_of (SrvConf (Some ss) [] 0 None) false None (peers_of true ss)]).
Proof.
  cbv zeta. pose (ss := [ex_server 1 5 false; ex_server 4 1 true]).
  pose proof (init_groups ex_alloc ex_resolve (fun _ => eq_refl) (SrvConf (Some ss) [] 0 None) ss []) as H.
  apply H; [done| |by vm_compute|by vm_compute].
  unfold ss, server_ok. repeat constructor; cbn; lia.
Defined.

End RoundRobinProps.
