(* ===== verification/UriUtil.v ===== *)
(** * Looking into URIs, arguments and cookies

    From [ngx_http_parse.c]: [ngx_http_parse_unsafe_uri], which checks a URI
    that did not come from the request line, [ngx_http_arg] and
    [ngx_http_split_args], which find arguments, and
    [ngx_http_parse_multi_header_lines], which finds a cookie in a list of
    headers.  A string is an offset and a length in one memory. *)

From S2P Require Import Prelude Scan Request.

Module UriUtil.

(** [ngx_str_t] *)
Record ngx_str := Str { data : Z; len : Z }.

Definition text (mem : list Z) (s : ngx_str) : list Z := slice mem (data s) (data s + len s).

Section UriUtil.
Variable mem : list Z.

(** ** [ngx_http_parse_unsafe_uri] *)

Section Unsafe.
(** The macro of the platform: "/", and "\" too on Windows. *)
Variable ngx_path_separator : Z -> bool.

(** [NGX_ERROR], or [NGX_OK] with [uri] and [args]; [args] is written only
    where a "?" is found. *)
Definition unsafe_result : Type := option (ngx_str * option ngx_str).

(** The [for] loop: [n] is [len], the bytes not yet read. *)
Fixpoint unsafe_loop (uri : ngx_str) (n : nat) (p : Z) : unsafe_result :=
  match n with
  | O => Some (uri, None)
  | S n' =>
      let ch := rd mem p in
      let p := p + 1 in
      if is_usual ch then unsafe_loop uri n' p
      else if ch =? "?"%c then
        Some (Str (data uri) (len uri - Z.of_nat n), Some (Str p (Z.of_nat n - 1)))
      else if ch =? NUL then None
      else if ngx_path_separator ch && (2 <? Z.of_nat n)
              && (rd mem p =? "."%c) && (rd mem (p + 1) =? "."%c) && ngx_path_separator (rd mem (p + 2))
      then None
      else unsafe_loop uri n' p
  end.

Definition ngx_http_parse_unsafe_uri (uri : ngx_str) : unsafe_result :=
  let p := data uri in
  if (len uri =? 0) || (rd mem p =? "?"%c) then None
  else if (rd mem p =? "."%c) && (len uri =? 3) && (rd mem (p + 1) =? "."%c) && ngx_path_separator (rd mem (p + 2))
  then None
  else unsafe_loop uri (Z.to_nat (len uri)) p.
End Unsafe.

(** ** [ngx_http_arg] and [ngx_http_split_args] *)

Section Args.
(** [ngx_strlchr (p, last, c)] and [ngx_strlcasestrn (p, last, s, n)]: where
    the byte, or the [n + 1] bytes of [s], are first found. *)
Variable ngx_strlchr : list Z -> Z -> Z -> Z -> option Z.
Variable ngx_strlcasestrn : list Z -> Z -> Z -> list Z -> Z -> option Z.

Fixpoint arg_loop (fuel : nat) (args : ngx_str) (name : list Z) (p : Z) : option ngx_str :=
  let last := data args + len args in
  let nlen := Z.of_nat (length name) in
  match fuel with
  | O => None
  | S fuel =>
      if p <? last then
        match ngx_strlcasestrn mem p (last - 1) name (nlen - 1) with
        | None => None
        | Some p =>
            if ((p =? data args) || (rd mem (p - 1) =? "&"%c)) && (rd mem (p + nlen) =? "="%c) then
              let e := default last (ngx_strlchr mem p last "&"%c) in
              Some (Str (p + nlen + 1) (e - (p + nlen + 1)))
            else arg_loop fuel args name (p + 1)
        end
      else None
  end.

(** The value, or [None] for [NGX_DECLINED].  Every turn moves [p] on. *)
Definition ngx_http_arg (args : ngx_str) (name : list Z) : option ngx_str :=
  if len args =? 0 then None else arg_loop (Z.to_nat (len args)) args name (data args).

(** [uri] and [args]; only the length of [args] is written without a "?". *)
Definition ngx_http_split_args (uri args : ngx_str) : ngx_str * ngx_str :=
  let last := data uri + len uri in
  match ngx_strlchr mem (data uri) last "?"%c with
  | Some p => (Str (data uri) (p - data uri), Str (p + 1) (last - (p + 1)))
  | None => (uri, Str (data args) 0)
  end.
End Args.

(** ** [ngx_http_parse_multi_header_lines] *)

Section Multi.
(** [ngx_strncasecmp (s1, s2, n)] *)
Variable ngx_strncasecmp : list Z -> list Z -> Z -> Z.

(** [while (start < end && *start == ' ') start++], [n] bytes from [end]. *)
Fixpoint skip_spaces (n : nat) (start : Z) : Z :=
  match n with
  | O => start
  | S n' => if rd mem start =? " "%c then skip_spaces n' (start + 1) else start
  end.

(** The first ";" or "," in [[start, end)] is passed. *)
Fixpoint skip_pair (n : nat) (start : Z) : Z :=
  match n with
  | O => start
  | S n' => if (rd mem start =? ";"%c) || (rd mem start =? ","%c) then start + 1 else skip_pair n' (start + 1)
  end.

Fixpoint find_semicolon (n : nat) (last : Z) : Z :=
  match n with
  | O => last
  | S n' => if rd mem last =? ";"%c then last else find_semicolon n' (last + 1)
  end.

(** What a turn of the [while] loop comes to. *)
Inductive turn := Found (v : option ngx_str) | Skip (start : Z).

Definition match_here (name : list Z) (want_value : bool) (start end_ : Z) : turn :=
  let left s := Z.to_nat (end_ - s) in
  let nlen := Z.of_nat (length name) in
  if negb (ngx_strncasecmp (drop (Z.to_nat start) mem) name nlen =? 0) then Skip start
  else
    let start := start + nlen in
    let start := skip_spaces (left start) start in
    if negb want_value then
      if (start =? end_) || (rd mem start =? ","%c) then Found None else Skip start
    else if start =? end_ then Skip start
    else if negb (rd mem start =? "="%c) then Skip (start + 1)
    else
      let start := skip_spaces (left (start + 1)) (start + 1) in
      Found (Some (Str start (find_semicolon (left start) start - start))).

(** One header value; [None] when it has no match. *)
Fixpoint value_loop (fuel : nat) (name : list Z) (want_value : bool) (start end_ : Z) : option (option ngx_str) :=
  if start <? end_ then
    match fuel with
    | O => None
    | S fuel =>
        match match_here name want_value start end_ with
        | Found v => Some v
        | Skip start =>
            let start := skip_pair (Z.to_nat (end_ - start)) start in
            value_loop fuel name want_value (skip_spaces (Z.to_nat (end_ - start)) start) end_
        end
    end
  else None.

(** The index of the header and the value, or [None] for [NGX_DECLINED];
    every turn passes a byte, so the length is fuel enough. *)
Fixpoint ngx_http_parse_multi_header_lines (i : nat) (headers : list ngx_str) (name : list Z)
    (want_value : bool) : option (nat * option ngx_str) :=
  match headers with
  | [] => None
  | h :: headers =>
      if len h <? Z.of_nat (length name) then ngx_http_parse_multi_header_lines (S i) headers name want_value
      else match value_loop (Z.to_nat (len h)) name want_value (data h) (data h + len h) with
           | Some v => Some (i, v)
           | None => ngx_http_parse_multi_header_lines (S i) headers name want_value
           end
  end.
End Multi.
End UriUtil.

End UriUtil.
