(* ===== verification/UriUtilProps.v ===== *)
(** * What the string functions find

    The unsafe URI check decided by positions, arguments found as in a list of
    segments, and cookies. *)

From S2P Require Import Prelude Scan Request UriUtil.

Module UriUtilProps.
Import UriUtil.

(** ** Unsafe URIs *)

Section Unsafe.
Context (ngx_path_separator : Z -> bool).
Hypothesis separator_unusual : forall c, ngx_path_separator c = true -> is_usual c = false.

(** A separator with two dots and a separator after it, where the code looks:
    the last of the four bytes may be the one after the [n] bytes of the URI. *)
Definition climbs (mem : list Z) (n i : Z) : Prop :=
  ngx_path_separator (rd mem i) = true /\ 2 < n - i /\ rd mem (i + 1) = "."%c /\ rd mem (i + 2) = "."%c
  /\ ngx_path_separator (rd mem (i + 3)) = true.

(** The path ends at [e]: at the first "?" or at [last]. *)
Definition path_end (mem : list Z) (a last e : Z) : Prop :=
  a <= e <= last /\ (forall i, a <= i < e -> rd mem i <> "?"%c) /\ (e < last -> rd mem e = "?"%c).

Definition clean (mem : list Z) (last a e : Z) : Prop :=
  forall i, a <= i < e -> rd mem i <> NUL /\ ~ climbs mem last i.

Lemma unsafe_loop_exact mem uri n p : 0 <= p ->
  match unsafe_loop mem ngx_path_separator uri n p with
  | None => exists i, p <= i < p + Z.of_nat n /\ (forall j, p <= j <= i -> rd mem j <> "?"%c)
              /\ (rd mem i = NUL \/ climbs mem (p + Z.of_nat n) i)
  | Some (uri', args) => exists e, path_end mem p (p + Z.of_nat n) e /\ clean mem (p + Z.of_nat n) p e
       /\ (e = p + Z.of_nat n -> uri' = uri /\ args = None)
       /\ (e < p + Z.of_nat n ->
             uri' = Str (data uri) (len uri - (p + Z.of_nat n - e)) /\ args = Some (Str (e + 1) (p + Z.of_nat n - (e + 1))))
  end.
Proof.
  revert p. induction n as [|n IH]; intros p Hp.
  { cbn [unsafe_loop Z.of_nat]. rewrite Z.add_0_r. exists p. unfold path_end, clean.
    split_and!; try done; intros; lia. }
  cbn [unsafe_loop].
  assert (Hnext : rd mem p <> "?"%c -> rd mem p <> NUL -> ~ climbs mem (p + Z.of_nat (S n)) p ->
    match unsafe_loop mem ngx_path_separator uri n (p + 1) with
    | None => exists i, p <= i < p + Z.of_nat (S n) /\ (forall j, p <= j <= i -> rd mem j <> "?"%c)
              /\ (rd mem i = NUL \/ climbs mem (p + Z.of_nat (S n)) i)
    | Some (uri', args) => exists e, path_end mem p (p + Z.of_nat (S n)) e /\ clean mem (p + Z.of_nat (S n)) p e
       /\ (e = p + Z.of_nat (S n) -> uri' = uri /\ args = None)
       /\ (e < p + Z.of_nat (S n) ->
             uri' = Str (data uri) (len uri - (p + Z.of_nat (S n) - e)) /\ args = Some (Str (e + 1) (p + Z.of_nat (S n) - (e + 1))))
    end).
  { intros H1 H2 H3. specialize (IH (p + 1) ltac:(lia)).
    replace (p + 1 + Z.of_nat n) with (p + Z.of_nat (S n)) in IH by lia.
    destruct (unsafe_loop _ _ _ n (p + 1)) as [[uri' args]|].
    - destruct IH as (e & (E1 & E2 & E3) & E4 & E5 & E6). exists e. split_and!; [|..|done|done].
      + split_and!; [lia|lia| |done]. intros i Hi. destruct (decide (i = p)) as [->|]; [done|apply E2; lia].
      + intros i Hi. destruct (decide (i = p)) as [->|]; [done|apply E4; lia].
    - destruct IH as (i & I1 & I2 & I3). exists i. split_and!; [lia|lia| |done].
      intros j Hj. destruct (decide (j = p)) as [->|]; [done|apply I2; lia]. }
  destruct (is_usual (rd mem p)) eqn:Hu.
  { apply Hnext.
    - intros E. by rewrite E in Hu.
    - intros E. by rewrite E in Hu.
    - intros [Hs _]. apply separator_unusual in Hs. congruence. }
  destruct (Z.eqb_spec (rd mem p) "?"%c) as [Eq|Eq].
  { exists p. unfold path_end, clean. split_and!; try done; try (intros; lia).
    intros _. split; do 2 f_equal; lia. }
  destruct (Z.eqb_spec (rd mem p) NUL) as [E0|E0].
  { exists p. split_and!; [lia|lia| |by left]. intros j Hj. by replace j with p by lia. }
  assert (Hc : (ngx_path_separator (rd mem p) && (2 <? Z.of_nat (S n)) && (rd mem (p + 1) =? "."%c)
                && (rd mem (p + 1 + 1) =? "."%c) && ngx_path_separator (rd mem (p + 1 + 2)))%bool = true
               <-> climbs mem (p + Z.of_nat (S n)) p).
  { unfold climbs. rewrite !andb_true_iff, Z.ltb_lt, !Z.eqb_eq.
    replace (p + 1 + 1) with (p + 2) by lia. replace (p + 1 + 2) with (p + 3) by lia.
    replace (p + Z.of_nat (S n) - p) with (Z.of_nat (S n)) by lia. tauto. }
  destruct (_ && _ && _ && _ && _)%bool.
  - exists p. split_and!; [lia|lia| |right; by apply Hc]. intros j Hj. by replace j with p by lia.
  - apply Hnext; [done|done|]. intros H. by apply Hc in H.
Qed.

(** A URI is refused exactly when it is empty, starts with "?", is "../"
    itself, or has before its first "?" a NUL or a "/../"; otherwise it is cut
    at that "?" and the rest is the arguments. *)
Theorem unsafe_uri_exact (mem : list Z) (uri : ngx_str) :
  0 <= data uri -> 0 <= len uri ->
  let a := data uri in
  let last := a + len uri in
  match ngx_http_parse_unsafe_uri mem ngx_path_separator uri with
  | None => len uri = 0 \/ rd mem a = "?"%c
      \/ (len uri = 3 /\ rd mem a = "."%c /\ rd mem (a + 1) = "."%c /\ ngx_path_separator (rd mem (a + 2)) = true)
      \/ exists i, a <= i < last /\ (forall j, a <= j <= i -> rd mem j <> "?"%c) /\ (rd mem i = NUL \/ climbs mem last i)
  | Some (uri', args) =>
      exists e, a < e /\ path_end mem a last e /\ clean mem last a e /\ uri' = Str a (e - a)
        /\ args = (if e <? last then Some (Str (e + 1) (last - (e + 1))) else None)
  end.
Proof.
  intros Ha Hl. cbv zeta. unfold ngx_http_parse_unsafe_uri.
  destruct (Z.eqb_spec (len uri) 0) as [|H0]; [by left|].
  destruct (Z.eqb_spec (rd mem (data uri)) "?"%c) as [|Hq]; [right; by left|]. cbn [orb].
  destruct ((rd mem (data uri) =? "."%c) && (len uri =? 3) && _ && _)%bool eqn:Hd.
  { b2p. right; right; left. split_and!; try done; lia. }
  pose proof (unsafe_loop_exact mem uri (Z.to_nat (len uri)) (data uri) Ha) as H. rewrite Z2Nat.id in H by lia.
  destruct (unsafe_loop _ _ _ _ _) as [[uri' args]|]; [|by do 3 right].
  destruct H as (e & He & Hc & Heq & Hlt). exists e. pose proof He as (H1 & H2 & H3).
  assert (Hae : data uri < e).
  { destruct (decide (e = data uri)) as [->|]; [|lia]. exfalso. apply Hq, H3. lia. }
  split_and!; [done|done|done|..].
  - destruct (decide (e = data uri + len uri)) as [E|E].
    + destruct (Heq E) as [-> _]. subst e. destruct uri as [d l]. cbn. f_equal; lia.
    + destruct Hlt as [-> _]; [lia|]. f_equal; lia.
  - destruct (Z.ltb_spec e (data uri + len uri)).
    + by destruct Hlt as [_ ->].
    + apply Heq. lia.
Qed.
End Unsafe.

Definition is_slash (c : Z) : bool := c =? "/"%c.

Lemma is_slash_unusual c : is_slash c = true -> is_usual c = false.
Proof. unfold is_slash. intros H. apply Z.eqb_eq in H as ->. done. Qed.

Lemma unsafe_uri_exact_witness :
  let mem := bytes_of "/a/b?x=1" in
  ngx_http_parse_unsafe_uri mem is_slash (Str 0 8) = Some (Str 0 4, Some (Str 5 3))
  /\ exists e, 0 < e /\ path_end mem 0 8 e /\ Str 0 4 = Str 0 (e - 0).
Proof.
  cbv zeta. split; [by vm_compute|].
  destruct (unsafe_uri_exact is_slash is_slash_unusual (bytes_of "/a/b?x=1") (Str 0 8)) as (e & H1 & H2 & _ & H3 & _);
    [done|done|]. by exists e.
Defined.

(** A URI that starts with "../" and goes on passes the check: only the
    three-byte URI is compared with it. *)
Theorem leading_dot_dot_accepted :
  let mem := bytes_of "../etc/passwd" in
  ngx_http_parse_unsafe_uri mem is_slash (Str 0 13) = Some (Str 0 13, None)
  /\ ngx_http_parse_unsafe_uri mem is_slash (Str 0 3) = None.
Proof. by vm_compute. Qed.

(** ** Arguments *)

(** What the string functions of the nginx core find. *)
Definition same_text (l name : list Z) : Prop := map tolower l = map tolower name.
Definition occurs (mem : list Z) (name : list Z) (i : Z) : Prop :=
  same_text (slice mem i (i + Z.of_nat (length name))) name.

Definition strlchr_spec (f : list Z -> Z -> Z -> Z -> option Z) : Prop :=
  forall mem p last c, p <= last ->
  match f mem p last c with
  | Some i => p <= i < last /\ rd mem i = c /\ forall j, p <= j < i -> rd mem j <> c
  | None => forall j, p <= j < last -> rd mem j <> c
  end.

Definition strlcasestrn_spec (f : list Z -> Z -> Z -> list Z -> Z -> option Z) : Prop :=
  forall mem p last name,
  match f mem p last name (Z.of_nat (length name) - 1) with
  | Some i => p <= i /\ i + Z.of_nat (length name) <= last /\ occurs mem name i
              /\ forall j, p <= j < i -> ~ occurs mem name j
  | None => forall j, p <= j -> j + Z.of_nat (length name) <= last -> ~ occurs mem name j
  end.

(** The arguments as the segments between the "&"s. *)
Fixpoint join (segs : list (list Z)) : list Z :=
  match segs with
  | [] => []
  | [s] => s
  | s :: segs => s ++ "&"%c :: join segs
  end.

#[export] Instance same_text_dec l name : Decision (same_text l name).
Proof. unfold same_text. apply _. Defined.

(** The value of the first segment that is [name], "=" and a value. *)
Fixpoint find_arg (name : list Z) (segs : list (list Z)) : option (list Z) :=
  match segs with
  | [] => None
  | s :: segs =>
      if bool_decide (same_text (take (length name) s) name) && (rd s (Z.of_nat (length name)) =? "="%c)
      then Some (drop (S (length name)) s) else find_arg name segs
  end.

Section Args.
Context (ngx_strlchr : list Z -> Z -> Z -> Z -> option Z).
Context (ngx_strlcasestrn : list Z -> Z -> Z -> list Z -> Z -> option Z).
Hypothesis strlchr_ok : strlchr_spec ngx_strlchr.
Hypothesis strlcasestrn_ok : strlcasestrn_spec ngx_strlcasestrn.
Context (mem : list Z) (args : ngx_str) (name : list Z).
Abbreviation a := (data args).
Abbreviation last_ := (data args + len args).
Abbreviation nlen := (Z.of_nat (length name)).

(** A place where an argument called [name] starts. *)
Definition arg_at (i : Z) : Prop :=
  i + nlen < last_ /\ occurs mem name i /\ (i = a \/ rd mem (i - 1) = "&"%c) /\ rd mem (i + nlen) = "="%c.

Definition value_at (i : Z) : ngx_str :=
  Str (i + nlen + 1) (default last_ (ngx_strlchr mem i last_ "&"%c) - (i + nlen + 1)).

Lemma arg_loop_first fuel p : a <= p -> last_ - p <= Z.of_nat fuel ->
  match arg_loop mem ngx_strlchr ngx_strlcasestrn fuel args name p with
  | Some v => exists i, p <= i /\ arg_at i /\ (forall j, p <= j < i -> ~ arg_at j) /\ v = value_at i
  | None => forall i, p <= i -> ~ arg_at i
  end.
Proof.
  revert p. induction fuel as [|fuel IH]; intros p Ha Hf; cbn [arg_loop].
  { intros i Hi [H _]. lia. }
  destruct (Z.ltb_spec p last_); [|intros i Hi [H' _]; lia].
  pose proof (strlcasestrn_ok mem p (last_ - 1) name) as Hs.
  destruct (ngx_strlcasestrn _ _ _ _ _) as [q|].
  2: { intros i Hi (H1 & H2 & _). apply (Hs i); [done|lia|done]. }
  destruct Hs as (Hpq & Hq & Hoc & Hfirst).
  destruct (((q =? a) || (rd mem (q - 1) =? "&"%c)) && (rd mem (q + nlen) =? "="%c))%bool eqn:E.
  - exists q. split_and!; [done| | |done].
    + apply andb_true_iff in E as [E1 E2]. apply orb_true_iff in E1. rewrite !Z.eqb_eq in *.
      split_and!; [lia|done|tauto|done].
    + intros j Hj (_ & H2 & _). by apply (Hfirst j).
  - assert (Hno : forall j, p <= j < q + 1 -> ~ arg_at j).
    { intros j Hj (H1 & H2 & H3 & H4). destruct (decide (j = q)) as [->|]; [|apply (Hfirst j); [lia|done]].
      apply andb_false_iff in E as [E|E].
      - apply orb_false_iff in E. rewrite !Z.eqb_neq in E. destruct E, H3; congruence.
      - apply Z.eqb_neq in E. congruence. }
    specialize (IH (q + 1) ltac:(lia) ltac:(lia)).
    destruct (arg_loop _ _ _ _ _ _ _) as [v|].
    + destruct IH as (i & I1 & I2 & I3 & I4). exists i. split_and!; [lia|done| |done].
      intros j Hj. destruct (decide (j < q + 1)); [apply Hno; lia|apply I3; lia].
    + intros i Hi. destruct (decide (i < q + 1)); [apply Hno; lia|apply IH; lia].
Qed.

(** *** Segments *)

Hypothesis name_no_amp : Forall (fun c => u_char c /\ c <> "&"%c) name.

Lemma tolower_amp c : u_char c -> tolower c = "&"%c -> c = "&"%c.
Proof. apply (for_all_bytes (fun c => tolower c = "&"%c -> c = "&"%c)). by vm_compute. Qed.

Lemma occurs_no_amp i k : 0 <= i -> occurs mem name i -> 0 <= k < nlen -> rd mem (i + k) <> "&"%c.
Proof.
  intros Hi Ho Hk E. unfold occurs, same_text in Ho.
  assert (H : nth (Z.to_nat k) (map tolower (slice mem i (i + nlen))) (tolower 0) = nth (Z.to_nat k) (map tolower name) (tolower 0))
    by by rewrite Ho.
  rewrite !map_nth in H. fold (rd (slice mem i (i + nlen)) k) in H. rewrite rd_slice in H by lia. rewrite E in H.
  assert (Hin : In (nth (Z.to_nat k) name 0) name) by (apply nth_In; lia).
  rewrite List.Forall_forall in name_no_amp. destruct (name_no_amp _ Hin) as [H1 H2]. apply H2, tolower_amp; [done|].
  by rewrite <- H.
Qed.

(** The positions of one segment: only its start can be an argument, and the
    segment tells whether it is. *)
Lemma segment_arg s b e : 0 <= a <= b -> (b = a \/ rd mem (b - 1) = "&"%c) -> slice mem b e = s ->
  e = b + Z.of_nat (length s) -> e <= last_ -> (e < last_ -> rd mem e = "&"%c) -> Forall (fun c => c <> "&"%c) s ->
  (arg_at b <-> bool_decide (same_text (take (length name) s) name) && (rd s nlen =? "="%c) = true)
  /\ (forall i, b < i <= e -> ~ arg_at i).
Proof.
  intros Hab Hb Hs He Hel Hamp Hno.
  assert (Hrd : forall k, 0 <= k < e - b -> rd mem (b + k) = rd s k).
  { intros k Hk. rewrite <- Hs. by rewrite rd_slice by lia. }
  assert (Hnamp : forall k, 0 <= k < e - b -> rd mem (b + k) <> "&"%c).
  { intros k Hk. rewrite Hrd by done. rewrite List.Forall_forall in Hno. apply Hno. unfold rd. apply nth_In. lia. }
  assert (Hocc : nlen < e - b -> slice mem b (b + nlen) = take (length name) s).
  { intros Hlt. rewrite <- (take_drop (length name) s) in Hs. apply slice_app_inv in Hs as [Hs _]; [|lia].
    rewrite length_take in Hs. by replace (Z.of_nat (length name `min` length s)) with nlen in Hs by lia. }
  split.
  - rewrite andb_true_iff, bool_decide_eq_true, Z.eqb_eq. split.
    + intros (H1 & H2 & H3 & H4).
      assert (nlen < e - b).
      { destruct (decide (nlen < e - b)); [done|]. exfalso. destruct (decide (nlen = e - b)) as [E|].
        - rewrite E in H4. replace (b + (e - b)) with e in H4 by lia. rewrite Hamp in H4 by lia. done.
        - apply (occurs_no_amp b (e - b)); [lia|done|lia|]. replace (b + (e - b)) with e by lia. apply Hamp. lia. }
      split.
      * unfold occurs in H2. by rewrite Hocc in H2 by done.
      * by rewrite <- Hrd by lia.
    + intros [H1 H2].
      assert (nlen < e - b).
      { destruct (decide (nlen < e - b)); [done|]. unfold rd in H2. rewrite nth_overflow in H2 by lia. done. }
      split_and!; [lia|unfold occurs; by rewrite Hocc|done|by rewrite Hrd by lia].
  - intros i Hi (H1 & H2 & [->|H3] & H4); [lia|]. apply (Hnamp (i - 1 - b)); [lia|].
    by replace (b + (i - 1 - b)) with (i - 1) by lia.
Qed.

Lemma find_arg_first segs b : 0 <= a <= b -> (b = a \/ rd mem (b - 1) = "&"%c) -> b <= last_ -> last_ <= Z.of_nat (length mem) ->
  slice mem b last_ = join segs -> Forall (Forall (fun c => c <> "&"%c)) segs -> segs <> [] ->
  match find_arg name segs with
  | Some v => exists i, b <= i /\ arg_at i /\ (forall j, b <= j < i -> ~ arg_at j) /\ text mem (value_at i) = v
  | None => forall i, b <= i -> ~ arg_at i
  end.
Proof.
  revert b. induction segs as [|s segs IH]; intros b Hab Hb Hbl Hll Hj Hno Hne; [done|].
  apply Forall_cons_iff in Hno as [Hs Hno].
  pose (e := b + Z.of_nat (length s)).
  assert (H : slice mem b e = s /\ e <= last_ /\ (e < last_ -> rd mem e = "&"%c)
              /\ (segs = [] -> e = last_)
              /\ (segs <> [] -> e < last_ /\ slice mem (e + 1) last_ = join segs)).
  { destruct segs as [|s2 segs].
    - cbn [join] in Hj. pose proof (length_slice mem b last_ ltac:(lia) Hll) as Hl. rewrite Hj in Hl.
      assert (e = last_) by (unfold e; lia). split_and!; [congruence|lia|lia|done|done].
    - cbn [join] in Hj. fold (join (s2 :: segs)) in Hj. apply slice_app_inv in Hj as [H1 H2]; [|lia]. fold e in H1, H2.
      apply slice_cons_inv in H2 as (H2 & H3 & H4); [|lia].
      split_and!; [done|lia|done|done|]. intros _. split; [done|exact H3]. }
  destruct H as (H1 & H2 & H3 & H4 & H5).
  destruct (segment_arg s b e Hab Hb H1 eq_refl H2 H3 Hs) as [Hiff Hnone]. cbn [find_arg].
  destruct (bool_decide _ && _)%bool eqn:E.
  - exists b. destruct Hiff as [_ Hat]. specialize (Hat eq_refl). split_and!; [lia|done|intros; lia|].
    unfold value_at, text. cbn [data len]. pose proof (strlchr_ok mem b last_ "&"%c Hbl) as Hc.
    assert (Hend : default last_ (ngx_strlchr mem b last_ "&"%c) = e).
    { assert (Hin : forall k, b <= k < e -> rd mem k <> "&"%c).
      { intros k Hk. replace k with (b + (k - b)) by lia. rewrite <- (rd_slice mem b e) by lia. rewrite H1.
        rewrite List.Forall_forall in Hs. apply Hs. unfold rd. apply nth_In. unfold e in Hk. lia. }
      destruct (ngx_strlchr mem b last_ "&"%c) as [q|]; cbn.
      - destruct Hc as (Hq & Hqa & Hqf). destruct (decide (q < e)); [by destruct (Hin q ltac:(lia) Hqa)|].
        destruct (decide (q = e)); [done|]. exfalso. apply (Hqf e); [lia|]. apply H3. lia.
      - destruct (decide (e = last_)); [done|]. exfalso. apply (Hc e); [unfold e in *; lia|]. apply H3. lia. }
    rewrite Hend. replace (b + nlen + 1 + (e - (b + nlen + 1))) with e by lia.
    destruct Hat as (Hlt & _). apply andb_true_iff in E as [_ E]. apply Z.eqb_eq in E.
    assert (nlen < Z.of_nat (length s)).
    { destruct (decide (nlen < Z.of_nat (length s))); [done|]. unfold rd in E. rewrite nth_overflow in E by lia. done. }
    rewrite <- (take_drop (S (length name)) s) in H1. apply slice_app_inv in H1 as [_ H1]; [|lia].
    rewrite length_take in H1. by replace (b + Z.of_nat (S (length name) `min` length s)) with (b + nlen + 1) in H1 by lia.
  - assert (Hseg : forall i, b <= i <= e -> ~ arg_at i).
    { intros i Hi Hat. destruct (decide (i = b)) as [->|]; [|by apply (Hnone i); [lia|]].
      apply Hiff in Hat. congruence. }
    destruct segs as [|s2 segs].
    + cbn [find_arg]. intros i Hi Hat. destruct (decide (i <= e)); [by apply (Hseg i)|].
      destruct Hat as (Hlt & _). rewrite <- H4 in Hlt by done. lia.
    + destruct H5 as [H5 H6]; [done|]. assert (b <= e) by (unfold e; lia).
      specialize (IH (e + 1)). destruct (find_arg name (s2 :: segs)) as [v|].
      * destruct IH as (i & I1 & I2 & I3 & I4); try done; [lia|right; rewrite <- H3 by done; f_equal; lia|lia|].
        exists i. split_and!; [lia|done| |done]. intros j Hj'. destruct (decide (j <= e)); [apply Hseg; lia|apply I3; lia].
      * intros i Hi. destruct (decide (i <= e)); [apply Hseg; lia|].
        apply IH; try done; [lia|right; rewrite <- H3 by done; f_equal; lia|lia|lia].
Qed.
End Args.

(** Looking up an argument finds the first "&"-separated segment that is
    the name, whatever its case, followed by "=", and gives the rest of that
    segment; there is none exactly when the lookup is declined. *)
Theorem arg_lookup (ngx_strlchr : list Z -> Z -> Z -> Z -> option Z)
    (ngx_strlcasestrn : list Z -> Z -> Z -> list Z -> Z -> option Z)
    (pre post : list Z) (segs : list (list Z)) (name : list Z) :
  strlchr_spec ngx_strlchr -> strlcasestrn_spec ngx_strlcasestrn ->
  Forall (fun c => u_char c /\ c <> "&"%c) name -> Forall (Forall (fun c => c <> "&"%c)) segs ->
  let mem := pre ++ join segs ++ post in
  let args := Str (Z.of_nat (length pre)) (Z.of_nat (length (join segs))) in
  option_map (text mem) (ngx_http_arg mem ngx_strlchr ngx_strlcasestrn args name) = find_arg name segs.
Proof.
  intros H1 H2 Hn Hs mem args. unfold ngx_http_arg.
  assert (Hempty : len args = 0 -> find_arg name segs = None).
  { unfold args. cbn [len]. destruct segs as [|s [|s2 segs]]; cbn [join]; [done| |rewrite length_app; cbn; lia].
    destruct s as [|c s]; [|cbn; lia]. intros _. cbn [find_arg]. unfold rd.
    rewrite nth_overflow by (cbn; lia). by rewrite andb_false_r. }
  destruct (Z.eqb_spec (len args) 0) as [E|E]; [by rewrite Hempty|].
  assert (Hne : segs <> []) by (intros ->; done).
  assert (Hmem : slice mem (data args) (data args + len args) = join segs).
  { unfold mem, args. cbn [data len]. rewrite <- Nat2Z.inj_add. apply slice_mid. }
  pose proof (arg_loop_first ngx_strlchr ngx_strlcasestrn H2 mem args name (Z.to_nat (len args)) (data args)
    ltac:(lia) ltac:(unfold args; cbn [data len]; lia)) as Hloop.
  pose proof (find_arg_first ngx_strlchr H1 mem args name Hn segs (data args)) as Hfind.
  assert (G : 0 <= data args <= data args /\ data args <= data args + len args
              /\ data args + len args <= Z.of_nat (length mem)).
  { unfold mem, args. cbn [data len]. rewrite !length_app. lia. }
  destruct G as (G1 & G2 & G3). specialize (Hfind G1 (or_introl eq_refl) G2 G3 Hmem Hs Hne).
  destruct (arg_loop _ _ _ _ _ _ _) as [v|], (find_arg name segs) as [w|]; cbn; try done.
  - destruct Hloop as (i & I1 & I2 & I3 & ->), Hfind as (j & J1 & J2 & J3 & <-).
    destruct (decide (i < j)); [by destruct (J3 i)|]. destruct (decide (j < i)); [by destruct (I3 j)|].
    by replace i with j by lia.
  - destruct Hloop as (i & I1 & I2 & _). by destruct (Hfind i).
  - destruct Hfind as (i & I1 & I2 & _). by destruct (Hloop i).
Qed.

(** The string functions, for the witness. *)
Fixpoint first_at (P : Z -> bool) (n : nat) (p : Z) : option Z :=
  match n with O => None | S n => if P p then Some p else first_at P n (p + 1) end.

Lemma first_at_spec P n p : match first_at P n p with
  | Some i => p <= i < p + Z.of_nat n /\ P i = true /\ forall j, p <= j < i -> P j = false
  | None => forall j, p <= j < p + Z.of_nat n -> P j = false
  end.
Proof.
  revert p. induction n as [|n IH]; intros p; cbn [first_at]; [intros; lia|].
  destruct (P p) eqn:E; [split_and!; [lia|lia|done|intros; lia]|]. specialize (IH (p + 1)).
  destruct (first_at P n (p + 1)) as [i|].
  - destruct IH as (I1 & I2 & I3). split_and!; [lia|lia|done|]. intros j Hj.
    destruct (decide (j = p)) as [->|]; [done|apply I3; lia].
  - intros j Hj. destruct (decide (j = p)) as [->|]; [done|apply IH; lia].
Qed.

Definition strlchr (mem : list Z) (p last c : Z) : option Z :=
  first_at (fun i => rd mem i =? c) (Z.to_nat (last - p)) p.

Definition strlcasestrn (mem : list Z) (p last : Z) (name : list Z) (n : Z) : option Z :=
  first_at (fun i => bool_decide (occurs mem name i)) (Z.to_nat (last - n - p)) p.

Lemma strlchr_ok : strlchr_spec strlchr.
Proof.
  intros mem p last c Hp. unfold strlchr.
  pose proof (first_at_spec (fun i => rd mem i =? c) (Z.to_nat (last - p)) p) as H. cbv beta in H.
  destruct (first_at _ _ _) as [i|].
  - destruct H as (H1 & H2 & H3). apply Z.eqb_eq in H2. split_and!; [lia|lia|done|].
    intros j Hj. by apply Z.eqb_neq, H3.
  - intros j Hj. apply Z.eqb_neq, H. lia.
Qed.

Lemma strlcasestrn_ok : strlcasestrn_spec strlcasestrn.
Proof.
  intros mem p last name. unfold strlcasestrn.
  pose proof (first_at_spec (fun i => bool_decide (occurs mem name i)) (Z.to_nat (last - (Z.of_nat (length name) - 1) - p)) p) as H.
  cbv beta in H. destruct (first_at _ _ _) as [i|].
  - destruct H as (H1 & H2 & H3). apply bool_decide_eq_true in H2. split_and!; [lia|lia|done|].
    intros j Hj. eapply bool_decide_eq_false, H3. lia.
  - intros j Hj Hl. eapply bool_decide_eq_false, H. lia.
Qed.

Lemma arg_lookup_witness :
  option_map (text (bytes_of "/p?xid=1&ID=23&id=4"))
    (ngx_http_arg (bytes_of "/p?xid=1&ID=23&id=4") strlchr strlcasestrn (Str 3 16) (bytes_of "id"))
  = Some (bytes_of "23").
Proof.
  apply (arg_lookup strlchr strlcasestrn (bytes_of "/p?") [] [bytes_of "xid=1"; bytes_of "ID=23"; bytes_of "id=4"] (bytes_of "id")
    strlchr_ok strlcasestrn_ok).
  - repeat constructor; done.
  - repeat constructor; done.
Defined.

End UriUtilProps.

(** * Finding a cookie

    [ngx_http_parse_multi_header_lines] on headers printed as "k=v" pairs
    joined with "; ", and what it does to a name without a value. *)
Module Cookies.
Import UriUtil UriUtilProps.

Definition is_break (c : Z) : bool := (c =? ";"%c) || (c =? ","%c).

(** What a cookie's name and value are made of. *)
Definition key_byte (c : Z) : Prop := u_char c /\ c <> " "%c /\ c <> "="%c /\ is_break c = false.
Definition value_ok (v : list Z) : Prop :=
  Forall (fun c => is_break c = false) v /\ rd v 0 <> " "%c.

Definition pair_ok (kv : list Z * list Z) : Prop := Forall key_byte kv.1 /\ value_ok kv.2.

Definition print_pair (kv : list Z * list Z) : list Z := kv.1 ++ "="%c :: kv.2.

Fixpoint print_cookies (ps : list (list Z * list Z)) : list Z :=
  match ps with
  | [] => []
  | [kv] => print_pair kv
  | kv :: ps => print_pair kv ++ ";"%c :: " "%c :: print_cookies ps
  end.

(** The value of the first pair with the name, and of the first header. *)
Fixpoint find_cookie (name : list Z) (ps : list (list Z * list Z)) : option (list Z) :=
  match ps with
  | [] => None
  | (k, v) :: ps => if bool_decide (same_text k name) then Some v else find_cookie name ps
  end.

Fixpoint find_header (i : nat) (name : list Z) (pss : list (list (list Z * list Z))) : option (nat * list Z) :=
  match pss with
  | [] => None
  | ps :: pss => match find_cookie name ps with Some v => Some (i, v) | None => find_header (S i) name pss end
  end.

(** [ngx_strncasecmp] is zero when the first bytes are the name. *)
Definition strncasecmp_spec (f : list Z -> list Z -> Z -> Z) : Prop :=
  forall s name, Forall key_byte name ->
    f s name (Z.of_nat (length name)) = 0 <-> same_text (take (length name) s) name.

(** ** The scanning loops *)

Lemma skip_spaces_none mem n p : n = O \/ rd mem p <> " "%c -> skip_spaces mem n p = p.
Proof. destruct n as [|n]; [done|]. intros [|H]; [done|]. cbn [skip_spaces]. by destruct (Z.eqb_spec (rd mem p) " "%c). Qed.

Lemma skip_pair_to mem e n p : p <= e -> e <= p + Z.of_nat n ->
  (forall j, p <= j < e -> is_break (rd mem j) = false) -> (e < p + Z.of_nat n -> is_break (rd mem e) = true) ->
  skip_pair mem n p = if e <? p + Z.of_nat n then e + 1 else e.
Proof.
  revert p. induction n as [|n IH]; intros p Hp He Hno Hat; cbn [skip_pair].
  { destruct (Z.ltb_spec e (p + Z.of_nat 0)); lia. }
  fold (is_break (rd mem p)). destruct (decide (e = p)) as [->|].
  - rewrite Hat by lia. destruct (Z.ltb_spec p (p + Z.of_nat (S n))); lia.
  - rewrite Hno by lia. rewrite IH; [|lia|lia|intros; apply Hno; lia|intros; apply Hat; lia].
    by replace (p + 1 + Z.of_nat n) with (p + Z.of_nat (S n)) by lia.
Qed.

Lemma find_semicolon_to mem e n p : p <= e -> e <= p + Z.of_nat n ->
  (forall j, p <= j < e -> rd mem j <> ";"%c) -> (e < p + Z.of_nat n -> rd mem e = ";"%c) ->
  find_semicolon mem n p = e.
Proof.
  revert p. induction n as [|n IH]; intros p Hp He Hno Hat; cbn [find_semicolon]; [lia|].
  destruct (decide (e = p)) as [->|].
  - by rewrite Hat, Z.eqb_refl by lia.
  - destruct (Z.eqb_spec (rd mem p) ";"%c) as [E|]; [by destruct (Hno p ltac:(lia))|].
    apply IH; [lia|lia|intros; apply Hno; lia|intros; apply Hat; lia].
Qed.

Lemma tolower_equals c : u_char c -> tolower c = "="%c -> c = "="%c.
Proof. apply (for_all_bytes (fun c => tolower c = "="%c -> c = "="%c)). by vm_compute. Qed.

(** Where the bytes at [b] are [l]. *)
Lemma rd_at (mem : list Z) b (l : list Z) j : 0 <= b -> 0 <= j -> drop (Z.to_nat b) mem = l -> rd mem (b + j) = rd l j.
Proof. intros Hb Hj <-. by rewrite rd_drop. Qed.

Lemma drop_at (mem : list Z) b (x l : list Z) : 0 <= b -> drop (Z.to_nat b) mem = x ++ l -> drop (Z.to_nat (b + Z.of_nat (length x))) mem = l.
Proof.
  intros Hb H. rewrite Z2Nat.inj_add, Nat2Z.id by lia. by rewrite <- drop_drop, H, drop_app_length.
Qed.

Lemma Forall_rd (P : Z -> Prop) l j : Forall P l -> 0 <= j < Z.of_nat (length l) -> P (rd l j).
Proof. intros H Hj. rewrite List.Forall_forall in H. apply H. unfold rd. apply nth_In. lia. Qed.

Section Turn.
Context (ngx_strncasecmp : list Z -> list Z -> Z -> Z) (name : list Z).
Hypothesis strncasecmp_ok : strncasecmp_spec ngx_strncasecmp.
Hypothesis name_ok : Forall key_byte name.
Context (mem : list Z).

(** If the name is found where a pair starts, it is the key or the start of it. *)
Lemma name_in_key b k v more : 0 <= b -> drop (Z.to_nat b) mem = k ++ "="%c :: v ++ more ->
  same_text (take (length name) (drop (Z.to_nat b) mem)) name ->
  (length name < length k)%nat \/ same_text k name /\ length name = length k.
Proof.
  intros Hb -> H. destruct (decide (length name < length k)%nat); [by left|]. right.
  destruct (decide (length name = length k)) as [E|].
  - split; [|done]. by rewrite E, take_app_length in H.
  - exfalso. unfold same_text in H.
    assert (Hn : nth (length k) (map tolower (take (length name) (k ++ "="%c :: v ++ more))) (tolower 0)
                 = nth (length k) (map tolower name) (tolower 0)) by by rewrite H.
    rewrite !map_nth, nth_lookup, lookup_take_lt, <- nth_lookup in Hn by lia.
    rewrite app_nth2, Nat.sub_diag in Hn by lia. cbn [nth] in Hn.
    assert (Hin : In (nth (length k) name 0) name) by (apply nth_In; lia).
    rewrite List.Forall_forall in name_ok. destruct (name_ok _ Hin) as (H1 & _ & H2 & _).
    by apply H2, tolower_equals.
Qed.

Lemma same_text_length k : same_text k name -> length k = length name.
Proof. intros H. unfold same_text in H. by rewrite <- (length_map tolower k), H, length_map. Qed.

Lemma pair_turn b k v more end_ :
  0 <= b -> pair_ok (k, v) -> drop (Z.to_nat b) mem = k ++ "="%c :: v ++ more ->
  let e := b + Z.of_nat (length (print_pair (k, v))) in
  e <= end_ -> (e < end_ -> rd mem e = ";"%c) ->
  if bool_decide (same_text k name)
  then match_here mem ngx_strncasecmp name true b end_ = Found (Some (Str (b + Z.of_nat (length k) + 1) (Z.of_nat (length v))))
  else exists s, match_here mem ngx_strncasecmp name true b end_ = Skip s /\ b <= s <= e.
Proof.
  intros Hb [Hk [Hv Hv0]] Hat e He Hend. cbn [fst snd] in *.
  assert (Hlen : e = b + Z.of_nat (length k) + 1 + Z.of_nat (length v)).
  { unfold e, print_pair. rewrite length_app. cbn. lia. }
  assert (Hrk : forall j, 0 <= j < Z.of_nat (length k) -> key_byte (rd mem (b + j))).
  { intros j Hj. rewrite (rd_at mem b _ j Hb ltac:(lia) Hat), rd_app_l by lia. by apply Forall_rd. }
  assert (Heq : rd mem (b + Z.of_nat (length k)) = "="%c).
  { rewrite (rd_at mem b _ (Z.of_nat (length k)) Hb ltac:(lia) Hat). apply rd_mid. }
  assert (Hrv : forall j, 0 <= j < Z.of_nat (length v) -> rd mem (b + Z.of_nat (length k) + 1 + j) = rd v j).
  { change (k ++ "="%c :: v ++ more) with (k ++ ["="%c] ++ v ++ more) in Hat.
    rewrite app_assoc in Hat. apply drop_at in Hat; [|done]. rewrite length_app in Hat. cbn [length] in Hat.
    intros j Hj. replace (b + Z.of_nat (length k) + 1) with (b + Z.of_nat (length k + 1)) by lia.
    rewrite (rd_at mem (b + Z.of_nat (length k + 1)) _ j ltac:(lia) ltac:(lia) Hat). apply rd_app_l. lia. }
  unfold match_here. pose proof (strncasecmp_ok (drop (Z.to_nat b) mem) name name_ok) as Hcmp.
  case_bool_decide as Hs.
  - pose proof (same_text_length k Hs) as Hl.
    rewrite (proj2 Hcmp) by (rewrite Hat, <- Hl, take_app_length; done). cbn [Z.eqb negb].
    rewrite <- Hl, skip_spaces_none by (right; by rewrite Heq).
    destruct (Z.eqb_spec (b + Z.of_nat (length k)) end_); [lia|]. rewrite Heq. cbn [Z.eqb negb].
    rewrite skip_spaces_none.
    + rewrite (find_semicolon_to mem e); [do 3 f_equal; lia|lia|lia| |intros; apply Hend; lia].
      intros j Hj. replace j with (b + Z.of_nat (length k) + 1 + (j - (b + Z.of_nat (length k) + 1))) by lia.
      rewrite Hrv by lia. intros E. pose proof (Forall_rd _ _ (j - (b + Z.of_nat (length k) + 1)) Hv ltac:(lia)) as Hb2.
      cbv beta in Hb2. by rewrite E in Hb2.
    + destruct (decide (length v = 0%nat)) as [E|].
      * destruct (decide (e = end_)); [left; lia|]. right. replace (b + Z.of_nat (length k) + 1) with e by lia.
        by rewrite Hend by lia.
      * right. rewrite <- (Z.add_0_r (b + Z.of_nat (length k) + 1)), Hrv by lia. done.
  - destruct (Z.eqb_spec (ngx_strncasecmp (drop (Z.to_nat b) mem) name (Z.of_nat (length name))) 0) as [E|E]; cbn [negb].
    2: { exists b. split; [done|lia]. }
    apply Hcmp in E. apply (name_in_key b k v more) in E; [|done|done]. destruct E as [E|[E _]]; [|done].
    destruct (Hrk (Z.of_nat (length name))) as (_ & K1 & K2 & _); [lia|].
    rewrite skip_spaces_none by by right.
    destruct (Z.eqb_spec (b + Z.of_nat (length name)) end_); [lia|].
    destruct (Z.eqb_spec (rd mem (b + Z.of_nat (length name))) "="%c); [done|]. cbn [negb].
    exists (b + Z.of_nat (length name) + 1). split; [done|lia].
Qed.

(** The rest of a pair has no break before its end. *)
Lemma pair_no_break b k v more j : 0 <= b -> pair_ok (k, v) -> drop (Z.to_nat b) mem = k ++ "="%c :: v ++ more ->
  b <= j < b + Z.of_nat (length (print_pair (k, v))) -> is_break (rd mem j) = false.
Proof.
  intros Hb [Hk [Hv _]] Hat Hj. cbn [fst snd] in *.
  assert (Hall : Forall (fun c => is_break c = false) (print_pair (k, v))).
  { unfold print_pair. cbn [fst snd]. apply Forall_app. split; [|by constructor].
    eapply Forall_impl; [|exact Hk]. intros c H. apply H. }
  replace j with (b + (j - b)) by lia. rewrite (rd_at mem b _ (j - b) Hb ltac:(lia) Hat).
  change (k ++ "="%c :: v ++ more) with (k ++ ("="%c :: v) ++ more). rewrite app_assoc.
  rewrite rd_app_l by (unfold print_pair in Hj; cbn [fst snd] in Hj; lia).
  apply (Forall_rd _ _ _ Hall). lia.
Qed.

Lemma print_cons kv ps : ps <> [] -> print_cookies (kv :: ps) = print_pair kv ++ ";"%c :: " "%c :: print_cookies ps.
Proof. by destruct ps. Qed.

(** The first byte of a pair is not a space. *)
Lemma first_not_space kv ps more b : 0 <= b -> pair_ok kv -> drop (Z.to_nat b) mem = print_cookies (kv :: ps) ++ more ->
  rd mem b <> " "%c.
Proof.
  intros Hb [Hk _] Hat.
  assert (Hr : rd mem b = rd (kv.1 ++ ["="%c]) 0).
  { rewrite <- (Z.add_0_r b), (rd_at mem b _ 0 Hb ltac:(lia) Hat). destruct kv as [[|c k] v], ps; done. }
  rewrite Hr. destruct kv as [[|c k] v]; [done|]. apply Forall_cons_iff in Hk as [(_ & H & _) _]. exact H.
Qed.

Lemma value_loop_cookies ps fuel b end_ more : 0 <= b -> Forall pair_ok ps -> ps <> [] ->
  drop (Z.to_nat b) mem = print_cookies ps ++ more -> end_ = b + Z.of_nat (length (print_cookies ps)) ->
  end_ - b <= Z.of_nat fuel ->
  match value_loop mem ngx_strncasecmp fuel name true b end_ with
  | Some (Some s) => find_cookie name ps = Some (text mem s)
  | Some None => False
  | None => find_cookie name ps = None
  end.
Proof.
  revert fuel b. induction ps as [|[k v] ps IH]; intros fuel b Hb Hok Hne Hat Hend Hf; [done|].
  apply Forall_cons_iff in Hok as [Hkv Hok].
  set (e := b + Z.of_nat (length (print_pair (k, v)))).
  assert (H : exists rest, drop (Z.to_nat b) mem = k ++ "="%c :: v ++ rest /\ e <= end_ /\ (e < end_ -> rd mem e = ";"%c)
      /\ (ps = [] -> e = end_)
      /\ (ps <> [] -> end_ = e + 2 + Z.of_nat (length (print_cookies ps)) /\ rd mem (e + 1) = " "%c
           /\ drop (Z.to_nat (e + 2)) mem = print_cookies ps ++ more)).
  { destruct (decide (ps = [])) as [->|Hps].
    - cbn [print_cookies] in Hat, Hend. exists more. split_and!; [|lia|unfold e; lia|done|done].
      rewrite Hat. unfold print_pair. cbn [fst snd]. by rewrite <- app_assoc.
    - rewrite print_cons in Hat, Hend by done. rewrite <- app_assoc in Hat.
      rewrite length_app in Hend. cbn [length] in Hend.
      pose proof (drop_at mem b _ _ Hb Hat) as H1. fold e in H1. cbn [app] in H1.
      exists (";"%c :: " "%c :: print_cookies ps ++ more). split_and!.
      + rewrite Hat. unfold print_pair. cbn [fst snd]. by rewrite <- app_assoc.
      + unfold e. lia.
      + intros _. rewrite <- (Z.add_0_r e), (rd_at mem e _ 0 ltac:(unfold e; lia) ltac:(lia) H1). done.
      + done.
      + intros _. split_and!.
        * unfold e. lia.
        * by rewrite (rd_at mem e _ 1 ltac:(unfold e; lia) ltac:(lia) H1).
        * change (";"%c :: " "%c :: print_cookies ps ++ more) with ([";"%c; " "%c] ++ print_cookies ps ++ more) in H1.
          apply drop_at in H1; [|unfold e; lia]. exact H1. }
  destruct H as (rest & Hpair & He & Hsemi & Hlast & Hmore).
  assert (Hbe : b < e) by (unfold e, print_pair; rewrite length_app; cbn; lia).
  destruct fuel as [|fuel]; [lia|]. cbn [value_loop]. destruct (Z.ltb_spec b end_); [|lia].
  pose proof (pair_turn b k v rest end_ Hb Hkv Hpair He Hsemi) as Ht. cbn [find_cookie].
  case_bool_decide as Hs.
  - rewrite Ht. f_equal. unfold text. cbn [data len]. symmetry.
    pose proof Hpair as Hp. change (k ++ "="%c :: v ++ rest) with (k ++ ["="%c] ++ v ++ rest) in Hp.
    rewrite app_assoc in Hp. apply drop_at in Hp; [|done]. rewrite length_app in Hp. cbn [length] in Hp.
    unfold slice. replace (b + Z.of_nat (length k) + 1) with (b + Z.of_nat (length k + 1)) by lia. rewrite Hp.
    replace (Z.to_nat _) with (length v) by lia. apply take_app_length.
  - destruct Ht as (s & -> & Hse). fold e in Hse.
    rewrite (skip_pair_to mem e); [|lia|lia| |].
    2: { intros j Hj. eapply pair_no_break; [done|exact Hkv|exact Hpair|fold e; lia]. }
    2: { intros Hlt. unfold is_break. by rewrite Hsemi by lia. }
    replace (s + Z.of_nat (Z.to_nat (end_ - s))) with end_ by lia.
    destruct (Z.ltb_spec e end_) as [Hlt|Hge].
    + assert (Hps : ps <> []) by (intros ->; rewrite Hlast in Hlt by done; lia).
      destruct (Hmore Hps) as (M1 & M2 & M3).
      replace (Z.to_nat (end_ - (e + 1))) with (S (Z.to_nat (end_ - (e + 2)))) by lia. cbn [skip_spaces].
      rewrite M2. cbn [Z.eqb Pos.eqb]. replace (e + 1 + 1) with (e + 2) by lia.
      rewrite skip_spaces_none.
      * apply IH; [lia|done|done|done|lia|lia].
      * right. destruct ps as [|kv ps]; [done|]. apply Forall_cons_iff in Hok as [Hkv2 _].
        eapply first_not_space; [lia|exact Hkv2|exact M3].
    + assert (e = end_) by lia. rewrite skip_spaces_none by (left; lia).
      assert (ps = []) as -> by (destruct ps; [done|]; destruct (Hmore ltac:(done)); lia). cbn [find_cookie].
      destruct fuel; cbn [value_loop]; by destruct (Z.ltb_spec e end_); [lia|].
Qed.
End Turn.

(** A header value printed from its pairs. *)
Definition printed (mem : list Z) (h : ngx_str) (ps : list (list Z * list Z)) : Prop :=
  0 <= data h /\ len h = Z.of_nat (length (print_cookies ps)) /\ Forall pair_ok ps
  /\ exists more, drop (Z.to_nat (data h)) mem = print_cookies ps ++ more.

(** Looking up a cookie finds, in the first header that has it, the value
    of the first pair with the name, whatever its case, and is declined exactly
    when no header has such a pair. *)
Theorem cookie_lookup (ngx_strncasecmp : list Z -> list Z -> Z -> Z) (mem name : list Z)
    (headers : list ngx_str) (pss : list (list (list Z * list Z))) (i : nat) :
  strncasecmp_spec ngx_strncasecmp -> Forall key_byte name -> Forall2 (printed mem) headers pss ->
  option_map (fun r => (r.1, option_map (text mem) r.2))
    (ngx_http_parse_multi_header_lines mem ngx_strncasecmp i headers name true)
  = option_map (fun r => (r.1, Some r.2)) (find_header i name pss).
Proof.
  intros Hcmp Hname H. revert i. induction H as [|h ps headers pss Hh H IH]; intros i; [done|].
  cbn [ngx_http_parse_multi_header_lines find_header]. destruct Hh as (H1 & H2 & H3 & more & H4).
  destruct (decide (ps = [])) as [->|Hps].
  { cbn in H2. cbn [find_cookie]. rewrite H2. change (Z.of_nat 0) with 0. rewrite Z.add_0_r.
    destruct (0 <? Z.of_nat (length name)); [apply IH|]. change (Z.to_nat 0) with O. cbn [value_loop].
    destruct (Z.ltb_spec (data h) (data h)); [lia|]. apply IH. }
  pose proof (value_loop_cookies ngx_strncasecmp name Hcmp Hname mem ps (Z.to_nat (len h)) (data h) (data h + len h)
    more H1 H3 Hps H4 ltac:(lia) ltac:(lia)) as Hv.
  destruct (Z.ltb_spec (len h) (Z.of_nat (length name))).
  - rewrite IH. assert (Hnone : find_cookie name ps = None); [|by rewrite Hnone].
    assert (Hshort : (length (print_cookies ps) < length name)%nat) by lia. clear -Hshort.
    revert Hshort. induction ps as [|[k v] ps IHp]; [done|]. intros Hs. cbn [find_cookie].
    assert (Hk : (length k <= length (print_cookies ((k, v) :: ps)))%nat
                 /\ (length (print_cookies ps) <= length (print_cookies ((k, v) :: ps)))%nat).
    { destruct ps as [|kv ps]; [cbn [print_cookies]|rewrite print_cons by done];
        unfold print_pair; rewrite !length_app; cbn; lia. }
    case_bool_decide as E; [|apply IHp; lia]. apply same_text_length in E. lia.
  - destruct (value_loop _ _ _ _ _ _ _) as [[s|]|]; [by rewrite Hv|done|by rewrite Hv, IH].
Qed.

Definition strncasecmp (s name : list Z) (n : Z) : Z :=
  if bool_decide (same_text (take (Z.to_nat n) s) name) then 0 else 1.

Lemma strncasecmp_ok : strncasecmp_spec strncasecmp.
Proof.
  intros s name _. unfold strncasecmp. rewrite Nat2Z.id. case_bool_decide as E; [done|]. by split; [|].
Qed.

Lemma cookie_lookup_witness :
  let mem := bytes_of "ab=1; A=22; a=3" in
  option_map (fun r => (r.1, option_map (text mem) r.2))
    (ngx_http_parse_multi_header_lines mem strncasecmp 0 [Str 0 15] (bytes_of "a") true)
  = Some (0%nat, Some (bytes_of "22")).
Proof.
  cbv zeta. apply (cookie_lookup strncasecmp (bytes_of "ab=1; A=22; a=3") (bytes_of "a") [Str 0 15]
    [[(bytes_of "ab", bytes_of "1"); (bytes_of "A", bytes_of "22"); (bytes_of "a", bytes_of "3")]] 0 strncasecmp_ok).
  - repeat constructor; done.
  - constructor; [|constructor]. split_and!; [done|done| |by exists []]. repeat constructor; done.
Defined.

(** A pair that is only the name hides the pair after it: the byte tested
    for "=" is the ";" itself, and the search goes on after the next one. *)
Theorem bare_name_hides_next :
  let mem := bytes_of "id;id=1;id=2" in
  option_map (fun r => (r.1, option_map (text mem) r.2))
    (ngx_http_parse_multi_header_lines mem strncasecmp 0 [Str 0 12] (bytes_of "id") true)
  = Some (0%nat, Some (bytes_of "2")).
Proof. by vm_compute. Qed.

End Cookies.
