(* ===== verification/Locations.v ===== *)
(** * Locations

    From [ngx_http.c], what is made of the [location] blocks of a server:
    the queue ([ngx_http_add_location]), its order
    ([ngx_http_cmp_locations]), its parts ([ngx_http_init_locations]), the
    nesting of prefixes ([ngx_http_join_exact_locations],
    [ngx_http_create_locations_list]) and the search tree
    ([ngx_http_create_locations_tree]); from [ngx_http_core_module.c] the search
    of a request's location in it.

    A location is known by its address in the memory of configurations; a
    queue is the list of its elements.  The queue primitives, the string
    comparisons and the regular expressions are parameters. *)

From S2P Require Import Prelude.

Module Locations.

(** [ngx_http_location_queue_t]; [name] is [&clcf->name]. *)
Inductive lq := LQ {
  exact : option nat;
  inclusive : option nat;
  name : list Z;
  list_ : list lq;
}.

(** [ngx_http_location_tree_node_t]; [Null] is a null pointer, [node_name] the
    whole allocated text, of which the code uses [len] bytes. *)
Inductive tree :=
| Null
| Node (left_ right_ sub : tree) (node_exact node_inclusive : option nat) (auto : bool)
    (len : Z) (node_name : list Z).

(** [ngx_http_core_loc_conf_t], the fields used here. *)
Record clcf := Clcf {
  loc_name : list Z;
  regex : bool;            (** [clcf->regex != NULL] *)
  noname : bool;
  named : bool;
  exact_match : bool;
  noregex : bool;
  auto_redirect : bool;
  locations : option (list lq);
  static_locations : tree;
  regex_locations : list nat;
}.

#[export] Instance set_locations : Setter locations := fun v r =>
  Clcf (loc_name r) (regex r) (noname r) (named r) (exact_match r) (noregex r) (auto_redirect r) v
    (static_locations r) (regex_locations r).
#[export] Instance set_static_locations : Setter static_locations := fun v r =>
  Clcf (loc_name r) (regex r) (noname r) (named r) (exact_match r) (noregex r) (auto_redirect r)
    (locations r) v (regex_locations r).
#[export] Instance set_regex_locations : Setter regex_locations := fun v r =>
  Clcf (loc_name r) (regex r) (noname r) (named r) (exact_match r) (noregex r) (auto_redirect r)
    (locations r) (static_locations r) v.

Abbreviation memory := (list clcf).
Definition no_clcf : clcf := Clcf [] false false false false false false None Null [].
Definition conf (mem : memory) (c : nat) : clcf := nth c mem no_clcf.

Section Locations.
(** The string comparisons, the queue primitives: [middle n] is the place of
    [ngx_queue_middle] in a queue of [n]. *)
Variable ngx_strcmp : list Z -> list Z -> Z.
Variable ngx_strncmp : list Z -> list Z -> Z -> Z.
Variable ngx_filename_cmp : list Z -> list Z -> Z -> Z.
Variable middle : nat -> nat.
Variable ngx_queue_sort : (lq -> lq -> Z) -> list lq -> list lq.
Variable alloc : list Z -> bool.

(** ** Building *)

(** The element [ngx_http_add_location] puts at the tail of the queue. *)
Definition new_lq (mem : memory) (c : nat) : lq :=
  let k := conf mem c in
  if exact_match k || regex k || named k || noname k
  then LQ (Some c) None (loc_name k) [] else LQ None (Some c) (loc_name k) [].

Definition ngx_http_add_location (mem : memory) (q : option (list lq)) (c : nat) : option (list lq) :=
  Some (default [] q ++ [new_lq mem c]).

(** [lq->exact ? lq->exact : lq->inclusive] *)
Definition clcf_of (l : lq) : nat :=
  match exact l, inclusive l with Some c, _ => c | None, Some c => c | None, None => O end.

Definition ngx_http_cmp_locations (mem : memory) (one two : lq) : Z :=
  let first := conf mem (clcf_of one) in
  let second := conf mem (clcf_of two) in
  if noname first && negb (noname second) then 1
  else if negb (noname first) && noname second then -1
  else if noname first || noname second then 0
  else if named first && negb (named second) then 1
  else if negb (named first) && named second then -1
  else if named first && named second then ngx_strcmp (loc_name first) (loc_name second)
  else if regex first && negb (regex second) then 1
  else if negb (regex first) && regex second then -1
  else if regex first || regex second then 0
  else
    let rc := ngx_strcmp (loc_name first) (loc_name second) in
    if (rc =? 0) && negb (exact_match first) && exact_match second then 1 else rc.

(** [None] is [NGX_ERROR], for a duplicate. *)
Fixpoint join_exact (l : lq) (q : list lq) : option (list lq) :=
  match q with
  | [] => Some [l]
  | x :: q =>
      if ngx_strcmp (name l) (name x) =? 0 then
        match exact l, exact x, inclusive l, inclusive x with
        | Some _, Some _, _, _ => None
        | _, _, Some _, Some _ => None
        | _, _, _, _ => join_exact (LQ (exact l) (inclusive x) (name l) (list_ l)) q
        end
      else match join_exact x q with Some q => Some (l :: q) | None => None end
  end.

Definition ngx_http_join_exact_locations (q : list lq) : option (list lq) :=
  match q with [] => Some [] | l :: q => join_exact l q end.

(** The loop over [x]: the elements that have [l]'s name as a prefix. *)
Definition under (l x : lq) : bool :=
  negb ((Z.of_nat (length (name x)) <? Z.of_nat (length (name l)))
        || negb (ngx_strncmp (name l) (name x) (Z.of_nat (length (name l))) =? 0)).

Fixpoint take_under (l : lq) (q : list lq) : list lq * list lq :=
  match q with
  | [] => ([], [])
  | x :: q' => if under l x then let (a, b) := take_under l q' in (x :: a, b) else ([], q)
  end.

(** The queue from [q] on.  Every call is on fewer elements. *)
Fixpoint ngx_http_create_locations_list (fuel : nat) (q : list lq) : list lq :=
  match fuel with
  | O => q
  | S fuel =>
      match q with
      | [] => []
      | [l] => [l]
      | l :: q =>
          match inclusive l with
          | None => l :: ngx_http_create_locations_list fuel q
          | Some _ =>
              match take_under l q with
              | ([], x) => l :: ngx_http_create_locations_list fuel x
              | (tail, x) =>
                  LQ (exact l) (inclusive l) (name l)
                    (ngx_http_create_locations_list fuel (list_ l ++ tail))
                  :: ngx_http_create_locations_list fuel x
              end
          end
      end
  end.

Definition is_auto (mem : memory) (c : option nat) : bool :=
  match c with Some c => auto_redirect (conf mem c) | None => false end.

(** [None] where an allocation fails, and out of [fuel]. *)
Fixpoint ngx_http_create_locations_tree (fuel : nat) (mem : memory) (q : list lq) (prefix : nat) : option tree :=
  match fuel with
  | O => None
  | S fuel =>
      let m := middle (length q) in
      match q !! m with
      | None => None
      | Some l =>
          if negb (alloc (name l)) then None
          else
            let node_name := drop prefix (name l) in
            let len := Z.of_nat (length (name l)) - Z.of_nat prefix in
            let node left_ right_ sub :=
              Node left_ right_ sub (exact l) (inclusive l)
                (is_auto mem (exact l) || is_auto mem (inclusive l)) (wrap 8 len) node_name in
            let subtree :=
              match list_ l with
              | [] => Some Null
              | sub => ngx_http_create_locations_tree fuel mem sub (length (name l))
              end in
            match take m q with
            | [] => option_map (node Null Null) subtree
            | before =>
                match ngx_http_create_locations_tree fuel mem before prefix with
                | None => None
                | Some left_ =>
                    match drop (S m) q with
                    | [] => option_map (node left_ Null) subtree
                    | after =>
                        match ngx_http_create_locations_tree fuel mem after prefix with
                        | None => None
                        | Some right_ => option_map (node left_ right_) subtree
                        end
                    end
                end
            end
      end
  end.

(** The number of elements of a queue with those below them. *)
Fixpoint size (l : lq) : nat := S (foldr (fun l n => size l + n)%nat O (list_ l)).
Definition size_all (q : list lq) : nat := foldr (fun l n => size l + n)%nat O q.

(** From the sorted static locations to their tree. *)
Definition static_tree (mem : memory) (q : list lq) : option tree :=
  match ngx_http_join_exact_locations q with
  | None => None
  | Some q =>
      let q := ngx_http_create_locations_list (length q) q in
      ngx_http_create_locations_tree (size_all q) mem q 0
  end.

(** ** Initialising a configuration *)

(** The first place with the flag. *)
Fixpoint first_with (f : clcf -> bool) (mem : memory) (q : list lq) : nat :=
  match q with
  | [] => O
  | l :: q => if f (conf mem (clcf_of l)) then O else S (first_with f mem q)
  end.

Definition exacts (q : list lq) : list nat := omap exact q.

(** The loop stops at the first [noname]; [regex] and [named] are noticed
    before, in this order of the tests. *)
Definition is_named (k : clcf) : bool := negb (regex k) && named k.
Definition is_noname (k : clcf) : bool := negb (regex k) && negb (named k) && noname k.

(** The configuration of [c] split: static locations left in the queue,
    regular expressions, and the named ones for the server. *)
Definition split_locations (mem : memory) (c : nat) (q : list lq) : memory * list nat :=
  let q := take (first_with is_noname mem q) q in
  let n := first_with is_named mem q in
  let named := exacts (drop n q) in
  let q := take n q in
  let r := first_with regex mem q in
  (alter (fun k => k <| regex_locations := exacts (drop r q) |> <| locations := Some (take r q) |>) c mem, named).

Fixpoint ngx_http_init_locations (fuel : nat) (mem : memory) (c : nat) : option (memory * list nat) :=
  match fuel with
  | O => None
  | S fuel =>
      match locations (conf mem c) with
      | None => Some (mem, [])
      | Some q =>
          let q := ngx_queue_sort (ngx_http_cmp_locations mem) q in
          let visited := take (S (first_with is_noname mem q)) q in
          match foldl (fun m l => match m with
                                  | Some m => option_map fst (ngx_http_init_locations fuel m (clcf_of l))
                                  | None => None
                                  end) (Some mem) visited with
          | None => None
          | Some mem => Some (split_locations mem c q)
          end
      end
  end.

Fixpoint ngx_http_init_static_location_trees (fuel : nat) (mem : memory) (c : nat) : option memory :=
  match fuel with
  | O => None
  | S fuel =>
      match locations (conf mem c) with
      | None | Some [] => Some mem
      | Some q =>
          match foldl (fun m l => match m with
                                  | Some m => ngx_http_init_static_location_trees fuel m (clcf_of l)
                                  | None => None
                                  end) (Some mem) q with
          | None => None
          | Some mem =>
              match static_tree mem q with
              | None => None
              | Some t => Some (alter (fun k => k <| static_locations := t |>) c mem)
              end
          end
      end
  end.

(** ** Searching *)

(** [r->loc_conf] is left alone where it is [None]. *)
Fixpoint find_static (t : tree) (uri : list Z) (rv : ngx_rc) (loc : option nat) : ngx_rc * option nat :=
  match t with
  | Null => (rv, loc)
  | Node left_ right_ sub node_exact node_inclusive auto nlen node_name =>
      let len := Z.of_nat (length uri) in
      let n := if len <=? nlen then len else nlen in
      let rc := ngx_filename_cmp uri node_name n in
      if negb (rc =? 0) then
        if rc <? 0 then find_static left_ uri rv loc else find_static right_ uri rv loc
      else if nlen <? len then
        match node_inclusive with
        | Some c => find_static sub (drop (Z.to_nat n) uri) NGX_AGAIN (Some c)
        | None => find_static right_ uri rv loc
        end
      else if len =? nlen then
        match node_exact with
        | Some c => (NGX_OK, Some c)
        | None => (NGX_AGAIN, node_inclusive)
        end
      else if (len + 1 =? nlen) && auto then
        find_static left_ uri NGX_DONE (match node_exact with Some c => Some c | None => node_inclusive end)
      else find_static left_ uri rv loc
  end.

Definition ngx_http_core_find_static_location (t : tree) (uri : list Z) : ngx_rc * option nat :=
  find_static t uri NGX_DECLINED None.

(** [ngx_http_regex_exec (r, regex, &r->uri)] for the regex of a location. *)
Variable ngx_http_regex_exec : nat -> list Z -> ngx_rc.

(** The request's [loc_conf] is the location [c]; the result has the new one. *)
Fixpoint ngx_http_core_find_location (fuel : nat) (mem : memory) (uri : list Z) (c : nat) : option (ngx_rc * nat) :=
  match fuel with
  | O => None
  | S fuel =>
      let pclcf := conf mem c in
      let (rc, loc) := ngx_http_core_find_static_location (static_locations pclcf) uri in
      let c := default c loc in
      let nested :=
        match rc with
        | NGX_AGAIN => option_map (fun r => (r, noregex (conf mem c))) (ngx_http_core_find_location fuel mem uri c)
        | _ => Some (rc, c, false)
        end in
      match nested with
      | None => None
      | Some (NGX_OK, c, _) => Some (NGX_OK, c)
      | Some (NGX_DONE, c, _) => Some (NGX_DONE, c)
      | Some (rc, c, noregex) =>
          (fix test (rs : list nat) : option (ngx_rc * nat) :=
             match rs with
             | [] => Some (rc, c)
             | r :: rs =>
                 match ngx_http_regex_exec r uri with
                 | NGX_OK =>
                     match ngx_http_core_find_location fuel mem uri r with
                     | None => None
                     | Some (NGX_ERROR, c) => Some (NGX_ERROR, c)
                     | Some (_, c) => Some (NGX_OK, c)
                     end
                 | NGX_DECLINED => test rs
                 | _ => Some (NGX_ERROR, c)
                 end
             end) (if noregex then [] else regex_locations pclcf)
      end
  end.
End Locations.

End Locations.
