(* ===== verification/LocationsFacts.v ===== *)
(** * Names in order, and the search of one level

    The lexicographic order of names, the forest that
    [ngx_http_create_locations_list] makes, and what the search finds among the
    siblings of one level of the tree. *)

From stdpp Require Import sorting.
From S2P Require Import Prelude Locations.

Module LocationsFacts.
Import Locations.

(** ** The order of names *)

Fixpoint lex (a b : list Z) : comparison :=
  match a, b with
  | [], [] => Eq
  | [], _ :: _ => Lt
  | _ :: _, [] => Gt
  | x :: a, y :: b => match x ?= y with Eq => lex a b | c => c end
  end.

Definition lt_name (a b : list Z) : Prop := lex a b = Lt.

Lemma lex_refl a : lex a a = Eq.
Proof. induction a as [|x a IH]; [done|]. cbn. by rewrite Z.compare_refl. Qed.

Lemma lex_eq a b : lex a b = Eq -> a = b.
Proof.
  revert b. induction a as [|x a IH]; intros [|y b]; cbn; try done.
  destruct (Z.compare_spec x y) as [->| |]; try done. intros H. by rewrite (IH b).
Qed.

Lemma lex_opp a b : lex b a = CompOpp (lex a b).
Proof.
  revert b. induction a as [|x a IH]; intros [|y b]; cbn; try done.
  rewrite (Z.compare_antisym x y). destruct (x ?= y); cbn; [apply IH|done|done].
Qed.

#[export] Instance lt_name_transitive : Transitive lt_name.
Proof.
  unfold lt_name. intros a. induction a as [|x a IH]; intros [|y b] [|z c]; cbn; try done.
  destruct (Z.compare_spec x y) as [->|Hxy|]; [|intros _|done].
  - destruct (y ?= z); [apply IH|done|done].
  - destruct (Z.compare_spec y z) as [->|Hyz|]; [..|done].
    + by rewrite (proj2 (Z.compare_lt_iff x z)).
    + intros _. by rewrite (proj2 (Z.compare_lt_iff x z)) by lia.
Qed.

Lemma lt_name_irrefl a : ~ lt_name a a.
Proof. unfold lt_name. by rewrite lex_refl. Qed.

Lemma lt_name_ne a b : lt_name a b -> a <> b.
Proof. intros H ->. by apply lt_name_irrefl in H. Qed.

Lemma lex_app p a b : lex (p ++ a) (p ++ b) = lex a b.
Proof. induction p as [|x p IH]; [done|]. cbn. by rewrite Z.compare_refl. Qed.

(** [a] is a prefix of [b] and shorter. *)
Definition below (a b : list Z) : Prop := exists c k, b = a ++ c :: k.

Lemma below_lt a b : below a b -> lt_name a b.
Proof.
  intros (c & k & ->). unfold lt_name. rewrite <- (app_nil_r a) at 1. by rewrite lex_app.
Qed.

Lemma prefix_below a b : a `prefix_of` b -> a = b \/ below a b.
Proof. intros [[|c k] ->]; [left; by rewrite app_nil_r|right; by exists c, k]. Qed.

Lemma below_prefix a b : below a b -> a `prefix_of` b.
Proof. intros (c & k & ->). by exists (c :: k). Qed.

Lemma below_length a b : below a b -> (length a < length b)%nat.
Proof. intros (c & k & ->). rewrite length_app. cbn. lia. Qed.

(** Two names that differ within both, the first being the lower. *)
Definition diverge (a b : list Z) : Prop := exists p x y a' b', a = p ++ x :: a' /\ b = p ++ y :: b' /\ x < y.

Lemma diverge_lt a b : diverge a b -> lt_name a b.
Proof.
  intros (p & x & y & a' & b' & -> & -> & H). unfold lt_name. rewrite lex_app. cbn.
  by rewrite (proj2 (Z.compare_lt_iff x y)).
Qed.

(** What follows [a] or [b] makes no difference. *)
Lemma diverge_prefix a b a2 b2 : diverge a b -> a `prefix_of` a2 -> b `prefix_of` b2 -> diverge a2 b2.
Proof.
  intros (p & x & y & a' & b' & -> & -> & H) [k ->] [k2 ->].
  exists p, x, y, (a' ++ k), (b' ++ k2). by rewrite <- !app_assoc.
Qed.

(** Comparing over the shorter length. *)
Lemma compare_cases a b : let n := Nat.min (length a) (length b) in
  match lex (take n a) (take n b) with
  | Lt => diverge a b
  | Gt => diverge b a
  | Eq => take n a = take n b
  end.
Proof.
  cbv zeta. revert b. induction a as [|x a IH]; intros [|y b]; try done. cbn [length Nat.min take].
  cbn [lex]. destruct (Z.compare_spec x y) as [->|H|H].
  - specialize (IH b). destruct (lex _ _); [by rewrite IH| |].
    + destruct IH as (p & x & z & a' & b' & -> & -> & H). by exists (y :: p), x, z, a', b'.
    + destruct IH as (p & x & z & a' & b' & -> & -> & H). by exists (y :: p), x, z, a', b'.
  - by exists [], x, y, a, b.
  - by exists [], y, x, b, a.
Qed.

Lemma equal_shorter a b : take (Nat.min (length a) (length b)) a = take (Nat.min (length a) (length b)) b ->
  a = b \/ below a b \/ below b a.
Proof.
  intros H. destruct (Nat.le_ge_cases (length a) (length b)).
  - rewrite Nat.min_l, take_ge in H by lia. destruct (prefix_below a b) as [|]; [|by left|by right; left].
    rewrite H. apply prefix_take.
  - rewrite Nat.min_r, (take_ge b) in H by lia. destruct (prefix_below b a) as [|]; [|by left|by right; right].
    rewrite <- H. apply prefix_take.
Qed.

Lemma lt_cases a b : lt_name a b -> below a b \/ diverge a b.
Proof.
  intros H. pose proof (compare_cases a b) as Hc. cbv zeta in Hc. destruct (lex (take _ a) _).
  - apply equal_shorter in Hc as [->|[Hc|Hc]]; [by apply lt_name_irrefl in H|by left|].
    apply below_lt in Hc. exfalso. by apply (lt_name_irrefl a); transitivity b.
  - by right.
  - apply diverge_lt in Hc. exfalso. by apply (lt_name_irrefl a); transitivity b.
Qed.

(** Two prefixes of one name. *)
Lemma prefixes_compare a b u : a `prefix_of` u -> b `prefix_of` u -> a = b \/ below a b \/ below b a.
Proof.
  intros Ha Hb. destruct (prefix_weak_total a b u Ha Hb) as [H|H]; apply prefix_below in H as [->|H]; auto.
Qed.

(** ** The comparisons of the C library *)

Definition no_nul (a : list Z) : Prop := Forall (fun c => c <> NUL) a.

Record compares (ngx_strcmp : list Z -> list Z -> Z) (ngx_strncmp ngx_filename_cmp : list Z -> list Z -> Z -> Z) : Prop := {
  strcmp_spec : forall a b, no_nul a -> no_nul b -> (ngx_strcmp a b ?= 0) = lex a b;
  strncmp_spec : forall a b n, no_nul a -> no_nul b -> (ngx_strncmp a b (Z.of_nat n) ?= 0) = lex (take n a) (take n b);
  filename_cmp_spec : forall a b n, (ngx_filename_cmp a b (Z.of_nat n) ?= 0) = lex (take n a) (take n b);
}.

(** ** Forests *)

Definition has_conf (l : lq) : Prop := exact l <> None \/ inclusive l <> None.

Record level_ok (B : list Z) (q : list lq) : Prop := {
  lo_sorted : StronglySorted (fun a b => lt_name (name a) (name b)) q;
  lo_base : Forall (fun l => B `prefix_of` name l) q;
  lo_apart : forall a b, a ∈ q -> b ∈ q -> inclusive a <> None -> ~ below (name a) (name b);
  lo_conf : Forall has_conf q;
}.

(** Every level is in order, and what is below an element is in its list. *)
Inductive forest_ok (B : list Z) (q : list lq) : Prop :=
| forest_ok_intro :
    level_ok B q ->
    Forall (fun l => forest_ok (name l) (list_ l) /\ (list_ l <> [] -> inclusive l <> None)
                     /\ Forall (fun x => below (name l) (name x)) (list_ l)) q ->
    forest_ok B q.

Lemma level_ok_sub B q1 q2 : level_ok B (q1 ++ q2) -> level_ok B q1 /\ level_ok B q2.
Proof.
  intros [H1 H2 H3 H4]. apply Forall_app in H2 as [? ?], H4 as [? ?].
  apply StronglySorted_app in H1 as (_ & ? & ?).
  split; split; try done; intros a b Ha Hb; apply H3; apply elem_of_app; auto.
Qed.

Lemma forest_ok_sub B q1 q2 : forest_ok B (q1 ++ q2) -> forest_ok B q1 /\ forest_ok B q2.
Proof.
  intros [H1 H2]. apply level_ok_sub in H1 as [? ?]. apply Forall_app in H2 as [? ?].
  by split; constructor.
Qed.

(** The elements around one of them. *)
Lemma sorted_around (q1 q2 : list lq) m : StronglySorted (fun a b => lt_name (name a) (name b)) (q1 ++ m :: q2) ->
  (forall a, a ∈ q1 -> lt_name (name a) (name m)) /\ (forall b, b ∈ q2 -> lt_name (name m) (name b)).
Proof.
  intros H. apply StronglySorted_app in H as (H1 & _ & H2). split.
  - intros a Ha. apply H1; [done|apply elem_of_cons; by left].
  - apply StronglySorted_inv in H2 as [_ H2]. by rewrite list.Forall_forall in H2.
Qed.

(** Nothing to the right of a higher name matches, and nothing to the left of
    a lower one that is passed over. *)
Definition no_match (U : list Z) (l : lq) : Prop :=
  name l <> U /\ (inclusive l <> None -> ~ below (name l) U).

Lemma no_match_right B q1 m q2 U : level_ok B (q1 ++ m :: q2) -> lt_name U (name m) ->
  forall b, b ∈ m :: q2 -> no_match U b.
Proof.
  intros [Hs _ _ _] HU b Hb. apply sorted_around in Hs as [_ Hs].
  assert (HUb : lt_name U (name b)).
  { apply elem_of_cons in Hb as [->|Hb]; [done|]. etransitivity; [exact HU|by apply Hs]. }
  split.
  - intros E. rewrite E in HUb. by apply lt_name_irrefl in HUb.
  - intros _ Hbel. apply below_lt in Hbel. by apply (lt_name_irrefl U); transitivity (name b).
Qed.

Lemma no_match_left B q1 m q2 U : level_ok B (q1 ++ m :: q2) -> lt_name (name m) U ->
  (inclusive m = None \/ diverge (name m) U) -> forall a, a ∈ q1 ++ [m] -> no_match U a.
Proof.
  intros [Hs _ Hap _] HU Hm a Ha. apply sorted_around in Hs as [Hs _].
  assert (Hlt : lt_name (name a) U).
  { apply elem_of_app in Ha as [Ha|Ha]; [etransitivity; [by apply Hs|done]|].
    apply list_elem_of_singleton in Ha as ->. done. }
  split; [by apply lt_name_ne|]. intros Hinc Hbel. apply elem_of_app in Ha as [Ha|Ha].
  - destruct (lt_cases _ _ (Hs a Ha)) as [Hbm|Hdm].
    + by apply (Hap a m); [apply elem_of_app; left|apply elem_of_app; right; apply elem_of_cons; left|..].
    + apply (diverge_prefix _ _ U (name m)) in Hdm; [|by apply below_prefix|done].
      apply diverge_lt in Hdm. by apply (lt_name_irrefl U); transitivity (name m).
  - apply list_elem_of_singleton in Ha as ->. destruct Hm as [Hm|Hm]; [done|].
    apply (diverge_prefix _ _ U U) in Hm; [|by apply below_prefix|done].
    by apply diverge_lt, lt_name_irrefl in Hm.
Qed.

(** ** One node *)

Section Search.
Context (ngx_strcmp : list Z -> list Z -> Z) (ngx_strncmp ngx_filename_cmp : list Z -> list Z -> Z -> Z).
Context (middle : nat -> nat) (alloc : list Z -> bool).
Hypothesis cmp_ok : compares ngx_strcmp ngx_strncmp ngx_filename_cmp.
(** [ngx_queue_middle] is in the queue, and first only in a queue of one. *)
Hypothesis middle_ok : forall n, (0 < n)%nat -> (middle n < n)%nat /\ (middle n = 0%nat -> n = 1%nat).

Abbreviation find := (find_static ngx_filename_cmp).
Abbreviation create := (ngx_http_create_locations_tree middle alloc).

Definition pick (ex inc : option nat) : ngx_rc * option nat :=
  match ex with Some c => (NGX_OK, Some c) | None => (NGX_AGAIN, inc) end.
Definition target (ex inc : option nat) : option nat := match ex with Some c => Some c | None => inc end.

Lemma find_node L R S ex inc au s u rv loc : (length s <= 255)%nat ->
  let res := find (Node L R S ex inc au (wrap 8 (Z.of_nat (length s))) s) u rv loc in
  (diverge u s /\ res = find L u rv loc)
  \/ (diverge s u /\ res = find R u rv loc)
  \/ (below s u /\ res = match inc with
                         | Some c => find S (drop (length s) u) NGX_AGAIN (Some c)
                         | None => find R u rv loc end)
  \/ (u = s /\ res = pick ex inc)
  \/ (below u s /\ (res = find L u rv loc
                    \/ (exists x, s = u ++ [x]) /\ au = true /\ res = find L u NGX_DONE (target ex inc))).
Proof.
  intros Hs res. assert (Hw : wrap 8 (Z.of_nat (length s)) = Z.of_nat (length s)) by (apply wrap_small; lia).
  assert (Hn : (if Z.of_nat (length u) <=? Z.of_nat (length s) then Z.of_nat (length u) else Z.of_nat (length s))
               = Z.of_nat (Nat.min (length u) (length s))).
  { destruct (Z.leb_spec (Z.of_nat (length u)) (Z.of_nat (length s))); lia. }
  unfold res. cbn [find_static]. rewrite Hw, Hn, Nat2Z.id.
  pose proof (filename_cmp_spec _ _ _ cmp_ok u s (Nat.min (length u) (length s))) as Hc.
  pose proof (compare_cases u s) as Hcase. cbv zeta in Hcase.
  destruct (Z.eqb_spec (ngx_filename_cmp u s (Z.of_nat (length u `min` length s))) 0) as [E|E]; cbn [negb].
  - rewrite E in Hc. cbn in Hc. rewrite <- Hc in Hcase.
    destruct (Z.ltb_spec (Z.of_nat (length s)) (Z.of_nat (length u))).
    { right; right; left. apply equal_shorter in Hcase as [->|[Hb|Hb]]; [lia|apply below_length in Hb; lia|].
      split; [done|]. by replace (length u `min` length s)%nat with (length s) by lia. }
    destruct (Z.eqb_spec (Z.of_nat (length u)) (Z.of_nat (length s))) as [El|El].
    { right; right; right; left. apply equal_shorter in Hcase as [->|[Hb|Hb]]; [done|apply below_length in Hb; lia..]. }
    do 4 right. apply equal_shorter in Hcase as [->|[Hb|Hb]]; [lia| |apply below_length in Hb; lia].
    split; [done|]. destruct ((_ =? _) && au)%bool eqn:Ea; [|by left]. right. b2p.
    split_and!; [|done|done]. destruct Hb as (x & k & ->). exists x. rewrite length_app in *. cbn in *.
    by destruct k; [|cbn in *; lia].
  - destruct (Z.ltb_spec (ngx_filename_cmp u s (Z.of_nat (length u `min` length s))) 0) as [El|El].
    + left. rewrite (proj2 (Z.compare_lt_iff _ 0)) in Hc by done. by rewrite <- Hc in Hcase.
    + right; left. rewrite (proj2 (Z.compare_gt_iff _ 0)) in Hc by lia. by rewrite <- Hc in Hcase.
Qed.

(** ** One level *)

(** The tree of what is below an element. *)
Definition built (mem : memory) (l : lq) (T : tree) : Prop :=
  (list_ l = [] /\ T = Null) \/ exists f, create f mem (list_ l) (length (name l)) = Some T.

Definition auto_of (mem : memory) (l : lq) : bool := is_auto mem (exact l) || is_auto mem (inclusive l).

(** What the search of the siblings [q] for the name [U] gives. *)
Definition level_answer (mem : memory) (q : list lq) (U : list Z) (rv : ngx_rc) (loc : option nat)
    (res : ngx_rc * option nat) : Prop :=
  (exists l, l ∈ q /\ name l = U /\ res = pick (exact l) (inclusive l))
  \/ (exists l c T, l ∈ q /\ inclusive l = Some c /\ below (name l) U /\ built mem l T
        /\ res = find T (drop (length (name l)) U) NGX_AGAIN (Some c))
  \/ ((forall l, l ∈ q -> no_match U l)
      /\ (res = (rv, loc)
          \/ exists l x, l ∈ q /\ name l = U ++ [x] /\ auto_of mem l = true
               /\ res = (NGX_DONE, target (exact l) (inclusive l)))).

Lemma level_answer_part mem q q1 U rv loc rv' loc' res :
  (forall l, l ∈ q1 -> l ∈ q) -> (forall l, l ∈ q -> l ∈ q1 \/ no_match U l) ->
  ((rv', loc') = (rv, loc)
   \/ exists l x, l ∈ q /\ name l = U ++ [x] /\ auto_of mem l = true /\ (rv', loc') = (NGX_DONE, target (exact l) (inclusive l))) ->
  level_answer mem q1 U rv' loc' res -> level_answer mem q U rv loc res.
Proof.
  intros Hin Hno Hrv [(l & H1 & H2)|[(l & c & T & H1 & H2)|[H1 H2]]].
  - left. exists l. by split; [apply Hin|].
  - right; left. exists l, c, T. by split; [apply Hin|].
  - right; right. split.
    + intros l Hl. destruct (Hno l Hl); [by apply H1|done].
    + destruct H2 as [->|(l & x & H2 & H3)]; [exact Hrv|]. right. exists l, x. by split; [apply Hin|].
Qed.

Lemma level_answer_nil mem U rv loc : level_answer mem [] U rv loc (rv, loc).
Proof. right; right. split; [by intros l []%elem_of_nil|by left]. Qed.

(** What a call of [ngx_http_create_locations_tree] made. *)
Lemma create_inv fuel mem q k T : create (S fuel) mem q k = Some T ->
  exists q1 m q2 L R ST, q = q1 ++ m :: q2 /\ built mem m ST
    /\ T = Node L R ST (exact m) (inclusive m) (auto_of mem m) (wrap 8 (Z.of_nat (length (name m)) - Z.of_nat k)) (drop k (name m))
    /\ (q1 = [] /\ L = Null \/ create fuel mem q1 k = Some L)
    /\ (q2 = [] /\ R = Null \/ create fuel mem q2 k = Some R).
Proof.
  intros HT. cbn [ngx_http_create_locations_tree] in HT. destruct (q !! middle (length q)) as [m|] eqn:Hm; [|done].
  pose proof (take_drop_middle q _ m Hm) as Hsplit.
  assert (Hml : (middle (length q) < length q)%nat) by by eapply lookup_lt_Some.
  assert (Hnil : take (middle (length q)) q = [] -> drop (S (middle (length q))) q = []).
  { intros E. apply (f_equal length) in E. rewrite length_take in E. cbn in E.
    destruct (middle_ok (length q)) as [_ H1]; [lia|]. apply nil_length_inv. rewrite length_drop. lia. }
  destruct (alloc (name m)); [|done]. cbn [negb] in HT.
  match type of HT with context [option_map _ ?e] => remember e as subtree eqn:Hst end.
  assert (Hsub : forall ST, subtree = Some ST -> built mem m ST).
  { intros ST ->. unfold built. destruct (list_ m); [left; by simplify_eq|right; by exists fuel]. }
  clear Hst. destruct (take (middle (length q)) q) as [|a q1].
  - rewrite (Hnil eq_refl) in Hsplit. destruct subtree as [ST|]; [|done]. cbn in HT. simplify_eq.
    exists [], m, [], Null, Null, ST. split_and!; [done|by apply Hsub|done|by left|by left].
  - destruct (create fuel mem (a :: q1) k) as [L|] eqn:EL; [|done].
    destruct (drop (S (middle (length q))) q) as [|b q2].
    + destruct subtree as [ST|]; [|done]. cbn in HT. simplify_eq.
      exists (a :: q1), m, [], L, Null, ST. split_and!; [done|by apply Hsub|done|by right|by left].
    + destruct (create fuel mem (b :: q2) k) as [R|] eqn:ER; [|done].
      destruct subtree as [ST|]; [|done]. cbn in HT. simplify_eq.
      exists (a :: q1), m, (b :: q2), L, R, ST. split_and!; [done|by apply Hsub|done|by right|by right].
Qed.

Lemma diverge_app B a b : diverge a b -> diverge (B ++ a) (B ++ b).
Proof. intros (p & x & y & a' & b' & -> & -> & H). exists (B ++ p), x, y, a', b'. by rewrite <- !app_assoc. Qed.

Lemma below_app B a b : below a b -> below (B ++ a) (B ++ b).
Proof. intros (x & k & ->). exists x, k. by rewrite <- app_assoc. Qed.

Lemma find_level fuel mem B q T u rv loc : level_ok B q -> Forall (fun l => (length (name l) <= 255)%nat) q ->
  create fuel mem q (length B) = Some T -> level_answer mem q (B ++ u) rv loc (find T u rv loc).
Proof.
  revert q T rv loc. induction fuel as [|fuel IH]; intros q T rv loc Hq Hlen HT; [done|].
  apply create_inv in HT as (q1 & m & q2 & L & R & ST & -> & HST & -> & HL & HR).
  pose proof Hq as [_ Hbase _ _]. apply Forall_app in Hbase as [_ Hbase]. apply Forall_cons_iff in Hbase as [[s Hs] _].
  apply Forall_app in Hlen as [Hlen1 Hlen2]. apply Forall_cons_iff in Hlen2 as [Hms Hlen2].
  pose proof (level_ok_sub B q1 (m :: q2) Hq) as [Hq1 Hq2]. apply (level_ok_sub B [m] q2) in Hq2 as [_ Hq2].
  assert (GL : forall rv loc, level_answer mem q1 (B ++ u) rv loc (find L u rv loc)).
  { intros rv' loc'. destruct HL as [[-> ->]|HL]; [apply level_answer_nil|by apply IH]. }
  assert (GR : forall rv loc, level_answer mem q2 (B ++ u) rv loc (find R u rv loc)).
  { intros rv' loc'. destruct HR as [[-> ->]|HR]; [apply level_answer_nil|by apply IH]. }
  assert (Hin : forall l, l ∈ q1 ++ m :: q2 <-> l ∈ q1 \/ l ∈ m :: q2) by (intros l; by rewrite elem_of_app).
  assert (Hmq : m ∈ q1 ++ m :: q2) by (apply Hin; right; apply elem_of_cons; by left).
  assert (Left_ : lt_name (B ++ u) (name m) -> forall l, l ∈ q1 ++ m :: q2 -> l ∈ q1 \/ no_match (B ++ u) l).
  { intros Hlt l Hl. apply Hin in Hl as [Hl|Hl]; [by left|]. right. by eapply no_match_right. }
  assert (Right_ : lt_name (name m) (B ++ u) -> (inclusive m = None \/ diverge (name m) (B ++ u)) ->
     forall l, l ∈ q1 ++ m :: q2 -> l ∈ q2 \/ no_match (B ++ u) l).
  { intros Hlt Hor l Hl. rewrite cons_middle, app_assoc, elem_of_app in Hl. destruct Hl as [Hl|Hl]; [right|by left].
    by eapply no_match_left. }
  assert (Hinl : forall l, l ∈ q1 -> l ∈ q1 ++ m :: q2) by (intros l Hl; apply Hin; auto).
  assert (Hinr : forall l, l ∈ q2 -> l ∈ q1 ++ m :: q2) by (intros l Hl; apply Hin; right; by apply elem_of_cons; right).
  rewrite Hs, length_app in Hms. rewrite Hs, drop_app_length, length_app.
  replace (Z.of_nat (length B + length s) - Z.of_nat (length B)) with (Z.of_nat (length s)) by lia.
  rewrite Hs in Left_, Right_.
  destruct (find_node L R ST (exact m) (inclusive m) (auto_of mem m) s u rv loc ltac:(lia))
    as [[Hd ->]|[[Hd ->]|[[Hd ->]|[[-> ->]|[Hd Hres]]]]].
  - eapply level_answer_part; [exact Hinl| |by left|apply GL]. by apply Left_, diverge_lt, diverge_app.
  - eapply level_answer_part; [exact Hinr| |by left|apply GR].
    apply Right_; [by apply diverge_lt, diverge_app|right; by apply diverge_app].
  - destruct (inclusive m) as [c|] eqn:Hinc.
    + right; left. exists m, c, ST. split_and!; [done|done|rewrite Hs; by apply below_app|done|].
      by rewrite Hs, length_app, <- drop_drop, drop_app_length.
    + eapply level_answer_part; [exact Hinr| |by left|apply GR].
      apply Right_; [by apply below_lt, below_app|by left].
  - left. by exists m.
  - assert (Hlt : lt_name (B ++ u) (B ++ s)) by by apply below_lt, below_app.
    destruct Hres as [->|([x Hx] & Hau & ->)].
    + eapply level_answer_part; [exact Hinl|by apply Left_|by left|apply GL].
    + eapply level_answer_part; [exact Hinl|by apply Left_| |apply GL]. right. exists m, x.
      split_and!; [done|by rewrite Hs, Hx, app_assoc|done|done].
Qed.
End Search.

End LocationsFacts.

(** * From the queue to the forest, and the search of the whole tree *)
Module LocationsForest.
Import Locations LocationsFacts.

(** ** The elements of a forest *)

Fixpoint flat (l : lq) : list lq := l :: flat_map flat (list_ l).
Definition flat_all (q : list lq) : list lq := flat_map flat q.

Lemma elem_of_flat_all e q : e ∈ flat_all q <-> exists l, l ∈ q /\ (e = l \/ e ∈ flat_all (list_ l)).
Proof.
  unfold flat_all. induction q as [|x q IH]; cbn [flat_map].
  - split; [by intros []%elem_of_nil|by intros (l & []%elem_of_nil & _)].
  - rewrite elem_of_app, IH. split.
    + intros [H|(l & H1 & H2)]; [|exists l; split; [by apply elem_of_cons; right|done]].
      exists x. split; [apply elem_of_cons; by left|]. destruct x. cbn in *. by apply elem_of_cons in H.
    + intros (l & [->|H1]%elem_of_cons & H2); [left|right; by exists l].
      destruct x. cbn in *. by apply elem_of_cons.
Qed.

Lemma size_pos l : (0 < size l)%nat.
Proof. destruct l. cbn. lia. Qed.

Lemma size_list_ l : size l = S (size_all (list_ l)).
Proof. by destruct l. Qed.

Lemma size_elem l q : l ∈ q -> (size_all (list_ l) < size_all q)%nat.
Proof.
  unfold size_all at 2. induction q as [|x q IH]; [by intros []%elem_of_nil|].
  intros [->|H]%elem_of_cons; cbn [foldr]; [rewrite size_list_; lia|]. specialize (IH H). lia.
Qed.

Lemma forest_elem B q l : forest_ok B q -> l ∈ q ->
  forest_ok (name l) (list_ l) /\ (list_ l <> [] -> inclusive l <> None)
  /\ Forall (fun x => below (name l) (name x)) (list_ l).
Proof. intros [_ H] Hl. by apply (proj1 (list.Forall_forall _ _) H). Qed.

Lemma below_trans a b c : below a b -> b `prefix_of` c -> below a c.
Proof. intros (x & k & ->) [k2 ->]. exists x, (k ++ k2). by rewrite <- app_assoc. Qed.

(** Every element of a forest is a sibling, or below one that is inclusive. *)
Lemma forest_top n : forall B q e, (size_all q <= n)%nat -> forest_ok B q -> e ∈ flat_all q ->
  exists l, l ∈ q /\ (e = l \/ inclusive l <> None /\ below (name l) (name e) /\ e ∈ flat_all (list_ l)).
Proof.
  induction n as [|n IH]; intros B q e Hn Hq He.
  - destruct q as [|x q]; [by apply elem_of_nil in He|]. cbn in Hn. pose proof (size_pos x). lia.
  - apply elem_of_flat_all in He as (l & Hl & [->|He]); [exists l; auto|]. exists l. split; [done|]. right.
    destruct (forest_elem _ _ _ Hq Hl) as (H1 & H2 & H3).
    assert (Hne : list_ l <> []) by (intros E; rewrite E in He; by apply elem_of_nil in He).
    split_and!; [by apply H2| |done]. pose proof (size_elem l q Hl).
    destruct (IH (name l) (list_ l) e ltac:(lia) H1 He) as (x & Hx & Hor).
    rewrite list.Forall_forall in H3. specialize (H3 x Hx).
    destruct Hor as [->|(_ & Hb & _)]; [done|]. by eapply below_trans; [|apply below_prefix].
Qed.

Lemma sorted_unique (q : list lq) a b : StronglySorted (fun a b => lt_name (name a) (name b)) q ->
  a ∈ q -> b ∈ q -> name a = name b -> a = b.
Proof.
  induction q as [|x q IH]; [by intros _ []%elem_of_nil|]. intros Hs Ha Hb E.
  apply StronglySorted_inv in Hs as [Hs Hx]. rewrite list.Forall_forall in Hx.
  apply elem_of_cons in Ha as [->|Ha], Hb as [->|Hb]; [done|..].
  - exfalso. apply (lt_name_ne _ _ (Hx b Hb)). done.
  - exfalso. apply (lt_name_ne _ _ (Hx a Ha)). done.
  - by apply IH.
Qed.

(** ** What the search of a tree answers *)

(** Looking for [U] among the elements [es]: the element with that name; else
    the redirect to a name one byte longer, or the longest inclusive one that
    is a shorter prefix; else what was known before. *)
Definition answer (mem : memory) (es : list lq) (U : list Z) (rv : ngx_rc) (loc : option nat)
    (res : ngx_rc * option nat) : Prop :=
  (forall e, e ∈ es -> name e = U -> res = pick (exact e) (inclusive e))
  /\ ((forall e, e ∈ es -> name e <> U) ->
      (exists e x, e ∈ es /\ name e = U ++ [x] /\ auto_of mem e = true
         /\ res = (NGX_DONE, target (exact e) (inclusive e)))
      \/ (exists e c, e ∈ es /\ inclusive e = Some c /\ below (name e) U /\ res = (NGX_AGAIN, Some c)
            /\ forall e', e' ∈ es -> inclusive e' <> None -> below (name e') U -> (length (name e') <= length (name e))%nat)
      \/ ((forall e, e ∈ es -> inclusive e <> None -> ~ below (name e) U) /\ res = (rv, loc))).

Section Search.
Context (ngx_strcmp : list Z -> list Z -> Z) (ngx_strncmp ngx_filename_cmp : list Z -> list Z -> Z -> Z).
Context (middle : nat -> nat) (alloc : list Z -> bool).
Hypothesis cmp_ok : compares ngx_strcmp ngx_strncmp ngx_filename_cmp.
Hypothesis middle_ok : forall n, (0 < n)%nat -> (middle n < n)%nat /\ (middle n = 0%nat -> n = 1%nat).

Abbreviation find := (find_static ngx_filename_cmp).
Abbreviation create := (ngx_http_create_locations_tree middle alloc).

Lemma level_of B q : forest_ok B q -> level_ok B q.
Proof. by intros [H _]. Qed.

(** An element found or passed belongs to the sibling that is. *)
Lemma match_in_sibling B q l e U : forest_ok B q -> l ∈ q -> inclusive l <> None -> below (name l) U ->
  e ∈ flat_all q -> (name e = U \/ inclusive e <> None /\ below (name e) U) -> e = l \/ e ∈ flat_all (list_ l).
Proof.
  intros Hq Hl Hinc Hb He Hm. destruct (level_of _ _ Hq) as [Hs _ Hap _].
  destruct (forest_top _ _ _ e (le_n _) Hq He) as (t & Ht & [->|(Hti & Hte & Hin)]).
  - destruct Hm as [HU|[Hi HbU]]; [exfalso; apply (Hap l t); congruence|].
    destruct (prefixes_compare (name l) (name t) U) as [E|[E|E]]; [by apply below_prefix..| | |].
    + left. symmetry. by apply (sorted_unique q).
    + by destruct (Hap l t).
    + by destruct (Hap t l).
  - assert (HtU : below (name t) U).
    { destruct Hm as [<-|[_ H]]; [done|]. by eapply below_trans; [exact Hte|apply below_prefix]. }
    destruct (prefixes_compare (name l) (name t) U) as [E|[E|E]]; [by apply below_prefix..| | |].
    + right. by rewrite (sorted_unique q l t).
    + by destruct (Hap l t).
    + by destruct (Hap t l).
Qed.

Lemma no_match_forest B q U : forest_ok B q -> (forall l, l ∈ q -> no_match U l) ->
  forall e, e ∈ flat_all q -> no_match U e.
Proof.
  intros Hq Hno e He. destruct (forest_top _ _ _ e (le_n _) Hq He) as (t & Ht & [->|(Hti & Hte & Hin)]).
  - by apply Hno.
  - destruct (Hno t Ht) as [_ Hb]. specialize (Hb Hti). split.
    + intros <-. done.
    + intros _ HeU. apply Hb. by eapply below_trans; [|apply below_prefix].
Qed.

Lemma answer_sibling mem B q l c U rv loc res : forest_ok B q -> l ∈ q -> inclusive l = Some c -> below (name l) U ->
  answer mem (flat_all (list_ l)) U NGX_AGAIN (Some c) res -> answer mem (flat_all q) U rv loc res.
Proof.
  intros Hq Hl Hc Hb [A1 A2].
  assert (Hin : forall e, e ∈ flat_all (list_ l) -> e ∈ flat_all q).
  { intros e He. apply elem_of_flat_all. exists l. auto. }
  assert (Hm : forall e, e ∈ flat_all q -> (name e = U \/ inclusive e <> None /\ below (name e) U) ->
                 e = l \/ e ∈ flat_all (list_ l)).
  { intros e He. apply (match_in_sibling B q l); [done|done|congruence|done|done]. }
  assert (Hlq : l ∈ flat_all q) by (apply elem_of_flat_all; exists l; auto).
  split.
  - intros e He E. destruct (Hm e He) as [->|He']; [by left| |by apply A1].
    apply below_length in Hb. rewrite E in Hb. lia.
  - intros Hne. destruct A2 as [(e & x & E1 & E2)|[(e & c' & E1 & E2 & E3 & E4 & E5)|[E1 ->]]].
    + intros e He. by apply Hne, Hin.
    + left. exists e, x. by split; [apply Hin|].
    + right; left. exists e, c'. split_and!; [by apply Hin|done|done|done|]. intros e' He' Hi' Hb'.
      destruct (Hm e' He') as [->|He2]; [by right| |by apply E5].
      destruct (forest_elem _ _ _ Hq Hl) as (F1 & F2 & F3).
      destruct (forest_top _ _ _ e (le_n _) F1 E1) as (t & Ht & Hor).
      rewrite list.Forall_forall in F3. pose proof (below_length _ _ (F3 t Ht)).
      destruct Hor as [->|(_ & Hte & _)]; [lia|]. apply below_length in Hte. lia.
    + right; left. exists l, c. split_and!; [done|done|done|done|]. intros e' He' Hi' Hb'.
      destruct (Hm e' He') as [->|He2]; [by right|done|]. by destruct (E1 e').
Qed.

Lemma find_forest mem n : forall B q fuel T u rv loc, (size_all q <= n)%nat -> forest_ok B q ->
  Forall (fun l => (length (name l) <= 255)%nat) (flat_all q) ->
  create fuel mem q (length B) = Some T -> answer mem (flat_all q) (B ++ u) rv loc (find T u rv loc).
Proof.
  induction n as [|n IH]; intros B q fuel T u rv loc Hn Hq Hlen HT.
  { destruct q as [|x q]; [by destruct fuel|cbn in Hn; pose proof (size_pos x); lia]. }
  assert (Hlen1 : Forall (fun l => (length (name l) <= 255)%nat) q).
  { apply list.Forall_forall. intros l Hl. rewrite list.Forall_forall in Hlen. apply Hlen, elem_of_flat_all. exists l. auto. }
  destruct (find_level _ _ _ _ _ cmp_ok middle_ok fuel mem B q T u rv loc (level_of _ _ Hq) Hlen1 HT)
    as [(l & Hl & HU & ->)|[(l & c & T' & Hl & Hc & Hb & HT' & ->)|[Hno Hres]]].
  - assert (Hone : forall e, e ∈ flat_all q -> name e = B ++ u -> e = l).
    { intros e He E. destruct (level_of _ _ Hq) as [Hs _ Hap _].
      destruct (forest_top _ _ _ e (le_n _) Hq He) as (t & Ht & [->|(Hti & Hte & _)]).
      - apply (sorted_unique q); [done..|congruence].
      - exfalso. apply (Hap t l); [done|done|done|]. congruence. }
    split.
    + intros e He E. by rewrite (Hone e He E).
    + intros Hne. exfalso. apply (Hne l); [|done]. apply elem_of_flat_all. exists l. auto.
  - eapply answer_sibling; [exact Hq|exact Hl|exact Hc|exact Hb|].
    destruct HT' as [[E ->]|[f HT']].
    + rewrite E. split; [by intros e []%elem_of_nil|]. intros _. right; right. split; [by intros e []%elem_of_nil|done].
    + pose proof Hb as (x & k & E). rewrite E at 1. rewrite E, drop_app_length.
      apply (IH (name l) (list_ l) f T' (x :: k)); [pose proof (size_elem l q Hl); lia|by apply (forest_elem B q)| |done].
      apply list.Forall_forall. intros e He. rewrite list.Forall_forall in Hlen. apply Hlen, elem_of_flat_all. exists l. auto.
  - pose proof (no_match_forest B q (B ++ u) Hq Hno) as Hall. split.
    + intros e He E. by destruct (Hall e He).
    + intros _. destruct Hres as [->|(l & x & Hl & E1 & E2 & E3)].
      * right; right. split; [|done]. intros e He. by apply Hall.
      * left. exists l, x. split; [apply elem_of_flat_all; exists l; auto|done].
Qed.
End Search.

End LocationsForest.
