(* ===== verification/LocationsProps.v ===== *)
(** * The location of a request

    Building the tree of a server's static locations and searching it, from
    the queue of its [location] blocks to the answer for a URI. *)

From stdpp Require Import sorting.
From S2P Require Import Prelude Locations LocationsFacts.

Module LocationsProps.
Import Locations LocationsFacts LocationsForest.

Definition strip (l : lq) : lq := LQ (exact l) (inclusive l) (name l) [].

Abbreviation by_name := (StronglySorted (fun a b => lt_name (name a) (name b))).
Abbreviation flat_only := (Forall (fun l => list_ l = [])).

Lemma strip_flat_only q : flat_only q -> map strip q = q.
Proof. induction 1 as [|[ex inc n l] q Hl H IH]; cbn in *; [done|]. by rewrite IH, Hl. Qed.

Section Build.
Context (ngx_strcmp : list Z -> list Z -> Z) (ngx_strncmp ngx_filename_cmp : list Z -> list Z -> Z -> Z).
Hypothesis cmp_ok : compares ngx_strcmp ngx_strncmp ngx_filename_cmp.

Abbreviation create_list := (ngx_http_create_locations_list ngx_strncmp).
Abbreviation under := (under ngx_strncmp).
Abbreviation names_ok := (Forall (fun l => no_nul (name l))).

(** ** The forest *)

Lemma under_spec l x : no_nul (name l) -> no_nul (name x) -> under l x = true <-> name l `prefix_of` name x.
Proof.
  intros Hl Hx. unfold Locations.under.
  pose proof (strncmp_spec _ _ _ cmp_ok (name l) (name x) (length (name l)) Hl Hx) as H.
  rewrite (take_ge (name l)) in H by lia.
  destruct (Z.ltb_spec (Z.of_nat (length (name x))) (Z.of_nat (length (name l)))) as [Hlt|Hge]; cbn [orb negb].
  { split; [done|]. intros Hp%prefix_length. lia. }
  rewrite negb_involutive, Z.eqb_eq. split.
  - intros E. rewrite E in H. symmetry in H. apply lex_eq in H. rewrite H. apply prefix_take.
  - intros [k Hk]. apply Z.compare_eq. rewrite H, Hk, take_app_length. apply lex_refl.
Qed.

Lemma take_under_spec l q a x : no_nul (name l) -> names_ok q -> take_under ngx_strncmp l q = (a, x) ->
  q = a ++ x /\ Forall (fun y => name l `prefix_of` name y) a
  /\ forall h x', x = h :: x' -> ~ name l `prefix_of` name h.
Proof.
  intros Hl. revert a x. induction q as [|y q IH]; intros a x Hq H; cbn in H; [by simplify_eq|].
  apply Forall_cons_iff in Hq as [Hy Hq]. destruct (under l y) eqn:Hu.
  - destruct (take_under _ l q) as [a' b']. simplify_eq. destruct (IH a' x Hq eq_refl) as (-> & H2 & H3).
    split_and!; [done| |done]. constructor; [by apply under_spec|done].
  - simplify_eq. split_and!; [done|done|]. intros h x' [= <- <-] Hp. apply under_spec in Hp; [congruence|done|done].
Qed.

(** Past the first that is not below [l], none is. *)
Lemma none_below l h x y : by_name (l :: h :: x) -> ~ name l `prefix_of` name h -> y ∈ h :: x -> ~ below (name l) (name y).
Proof.
  intros Hs Hh Hy Hb. apply StronglySorted_inv in Hs as [Hs Hl]. rewrite list.Forall_forall in Hl.
  apply StronglySorted_inv in Hs as [_ Hx]. rewrite list.Forall_forall in Hx.
  destruct (lt_cases (name l) (name h)) as [H|H]; [apply Hl, elem_of_cons; by left|by apply Hh, below_prefix|].
  apply (diverge_prefix _ _ (name y) (name h)) in H; [|by apply below_prefix|done]. apply diverge_lt in H.
  apply elem_of_cons in Hy as [->|Hy]; [by apply lt_name_irrefl in H|].
  apply (lt_name_irrefl (name y)). transitivity (name h); [done|by apply Hx].
Qed.

Lemma forest_cons B l r : forest_ok B r -> B `prefix_of` name l -> has_conf l ->
  (forall y, y ∈ r -> lt_name (name l) (name y)) -> (inclusive l <> None -> forall y, y ∈ r -> ~ below (name l) (name y)) ->
  forest_ok (name l) (list_ l) -> (list_ l <> [] -> inclusive l <> None) ->
  Forall (fun x => below (name l) (name x)) (list_ l) -> forest_ok B (l :: r).
Proof.
  intros [[H1 H2 H3 H4] H5] HB Hc Hlt Hap F1 F2 F3. constructor; [|by constructor].
  split; [|by constructor| |by constructor].
  - constructor; [done|]. by apply list.Forall_forall.
  - intros a b Ha Hb Hi Hbel. apply elem_of_cons in Ha as [->|Ha], Hb as [->|Hb].
    + by apply below_lt, lt_name_irrefl in Hbel.
    + by apply (Hap Hi b).
    + apply below_lt in Hbel. apply (lt_name_irrefl (name l)). transitivity (name a); [by apply Hlt|done].
    + by apply (H3 a b).
Qed.

Lemma forest_nil B : forest_ok B [].
Proof.
  constructor; [|done]. split; [constructor|done| |done]. by intros a b []%elem_of_nil.
Qed.

Lemma create_list_nil fuel : create_list fuel [] = [].
Proof. by destruct fuel. Qed.

(** One element with what [take_under] gives it. *)
Lemma create_list_cons fuel l q : list_ l = [] -> inclusive l <> None -> q <> [] ->
  create_list (S fuel) (l :: q)
  = LQ (exact l) (inclusive l) (name l) (create_list fuel (fst (take_under ngx_strncmp l q)))
    :: create_list fuel (snd (take_under ngx_strncmp l q)).
Proof.
  intros Hl Hi Hq. destruct q as [|y q]; [done|]. cbn [ngx_http_create_locations_list].
  destruct (inclusive l) as [c|] eqn:Hc; [|done]. destruct (take_under ngx_strncmp l (y :: q)) as [[|t a] x]; cbn [fst snd].
  - rewrite create_list_nil. destruct l as [ex inc n li]. cbn in *. by subst.
  - by rewrite Hl.
Qed.

Lemma flat_all_cons l r : map strip (flat_all (l :: r)) = strip l :: map strip (flat_all (list_ l)) ++ map strip (flat_all r).
Proof. unfold flat_all. cbn [flat_map]. rewrite map_app. by destruct l. Qed.

Lemma create_list_ok fuel : forall B q, (length q <= fuel)%nat -> by_name q -> names_ok q ->
  Forall (fun l => B `prefix_of` name l) q -> Forall has_conf q -> flat_only q ->
  forest_ok B (create_list fuel q) /\ map strip (flat_all (create_list fuel q)) = q
  /\ forall l, l ∈ create_list fuel q -> strip l ∈ q.
Proof.
  induction fuel as [|fuel IH]; intros B q Hf Hs Hn HB Hc Hl.
  { destruct q; [|cbn in Hf; lia]. split_and!; [apply forest_nil|done|by intros l []%elem_of_nil]. }
  destruct q as [|l q]; [split_and!; [apply forest_nil|done|by intros l []%elem_of_nil]|].
  pose proof Hs as [Hs1 Hs2]%StronglySorted_inv. rewrite list.Forall_forall in Hs2.
  apply Forall_cons_iff in Hn as [Hn1 Hn], HB as [HB1 HB], Hc as [Hc1 Hc], Hl as [Hl1 Hl].
  assert (Hstrip : strip l = l) by (destruct l; cbn in *; by subst). cbn [length] in Hf.
  destruct (decide (q = [])) as [->|Hq].
  { cbn [ngx_http_create_locations_list]. split_and!.
    - apply forest_cons; rewrite ?Hl1; try done; try apply forest_nil;
        intros; exfalso; by eapply not_elem_of_nil.
    - rewrite flat_all_cons, Hstrip, Hl1. done.
    - intros x [->|[]%elem_of_nil]%elem_of_cons. rewrite Hstrip. apply elem_of_cons. by left. }
  destruct (inclusive l) as [c|] eqn:Hinc.
  2: { destruct q as [|y q]; [done|]. cbn [ngx_http_create_locations_list]. rewrite Hinc.
       destruct (IH B (y :: q) ltac:(lia) Hs1 Hn HB Hc Hl) as (I1 & I2 & I3). split_and!.
       - apply forest_cons; rewrite ?Hl1; try done; [|apply forest_nil].
         intros z Hz. apply (Hs2 (strip z)). by apply I3.
       - rewrite flat_all_cons, Hstrip, Hl1, I2. done.
       - intros z [->|Hz]%elem_of_cons; [rewrite Hstrip; apply elem_of_cons; by left|]. apply elem_of_cons. right. by apply I3. }
  rewrite create_list_cons by (done || congruence).
  destruct (take_under ngx_strncmp l q) as [a x] eqn:Ht. cbn [fst snd].
  apply take_under_spec in Ht as (-> & Ha & Hx); [|done|done].
  apply Forall_app in Hn as [Hna Hnx], HB as [HBa HBx], Hc as [Hca Hcx], Hl as [Hla Hlx].
  apply StronglySorted_app in Hs1 as (Hax & Hsa & Hsx). rewrite length_app in Hf.
  destruct (IH (name l) a ltac:(lia) Hsa Hna Ha Hca Hla) as (A1 & A2 & A3).
  destruct (IH B x ltac:(lia) Hsx Hnx HBx Hcx Hlx) as (X1 & X2 & X3). split_and!.
  - apply forest_cons; cbn [name inclusive list_]; try done.
    + intros y Hy. apply (Hs2 (strip y)), elem_of_app. right. by apply X3.
    + intros _ y Hy. apply X3 in Hy. destruct x as [|h x]; [by apply elem_of_nil in Hy|].
      apply (none_below l h x (strip y)); [|by apply (Hx h x)|done].
      apply SSorted_cons; [done|]. apply list.Forall_forall. intros z Hz. by apply Hs2, elem_of_app; right.
    + by intros _; rewrite Hinc.
    + apply list.Forall_forall. intros z Hz. apply A3 in Hz. rewrite list.Forall_forall in Ha.
      destruct (prefix_below (name l) (name z)) as [E|E]; [by apply (Ha (strip z))| |done].
      exfalso. apply (lt_name_ne (name l) (name z)); [|done]. apply (Hs2 (strip z)), elem_of_app. by left.
  - rewrite flat_all_cons. cbn [list_]. rewrite A2, X2. f_equal. by rewrite <- Hstrip.
  - intros z [->|Hz]%elem_of_cons.
    + apply elem_of_cons. left. by rewrite <- Hstrip.
    + apply elem_of_cons. right. apply elem_of_app. right. by apply X3.
Qed.

(** ** Joining *)

(** The order the queue is sorted in, without duplicates: by name, and of two
    with one name the exact one first. *)
Definition follows (a b : lq) : Prop :=
  lt_name (name a) (name b) \/ name a = name b /\ inclusive a = None /\ exact b = None.

(** One of [exact] and [inclusive], as [ngx_http_add_location] makes them. *)
Definition single (l : lq) : Prop := (exact l = None <-> inclusive l <> None).

Definition same_confs (q r : list lq) : Prop := forall n c,
  ((exists e, e ∈ q /\ name e = n /\ exact e = Some c) <-> (exists e, e ∈ r /\ name e = n /\ exact e = Some c))
  /\ ((exists e, e ∈ q /\ name e = n /\ inclusive e = Some c) <-> (exists e, e ∈ r /\ name e = n /\ inclusive e = Some c)).

Lemma same_confs_refl q : same_confs q q.
Proof. done. Qed.

Lemma same_confs_trans q r s : same_confs q r -> same_confs r s -> same_confs q s.
Proof.
  intros H1 H2 n c. destruct (H1 n c) as [A B], (H2 n c) as [C D].
  split; [by rewrite A|by rewrite B].
Qed.

Lemma same_confs_cons l q r : same_confs q r -> same_confs (l :: q) (l :: r).
Proof.
  intros H n c. destruct (H n c) as [A B].
  assert (G : forall P : lq -> Prop, (exists e, e ∈ q /\ P e) <-> (exists e, e ∈ r /\ P e) ->
    (exists e, e ∈ l :: q /\ P e) <-> (exists e, e ∈ l :: r /\ P e)).
  { intros P HP. split; intros (e & [->|He]%elem_of_cons & HPe).
    - exists l. split; [apply elem_of_cons; by left|done].
    - destruct (proj1 HP) as (e' & H1 & H2); [by exists e|]. exists e'. split; [apply elem_of_cons; by right|done].
    - exists l. split; [apply elem_of_cons; by left|done].
    - destruct (proj2 HP) as (e' & H1 & H2); [by exists e|]. exists e'. split; [apply elem_of_cons; by right|done]. }
  split; [apply (G (fun e => name e = n /\ exact e = Some c)), A|apply (G (fun e => name e = n /\ inclusive e = Some c)), B].
Qed.

(** The names of the joined elements are names of the queue. *)
Lemma same_confs_name q r e : same_confs q r -> e ∈ r -> has_conf e -> exists e', e' ∈ q /\ name e' = name e.
Proof.
  intros H He [Hx|Hx].
  - destruct (exact e) as [c|] eqn:E; [|done]. destruct (H (name e) c) as [[_ A] _].
    destruct A as (e' & ? & ? & _); [by exists e|]. by exists e'.
  - destruct (inclusive e) as [c|] eqn:E; [|done]. destruct (H (name e) c) as [_ [_ A]].
    destruct A as (e' & ? & ? & _); [by exists e|]. by exists e'.
Qed.

Lemma merged_confs l x q : name l = name x -> inclusive l = None -> exact x = None ->
  same_confs (l :: x :: q) (LQ (exact l) (inclusive x) (name l) (list_ l) :: q).
Proof.
  intros Hn Hl Hx n c. split; (split; [intros (e & [->|[->|He]%elem_of_cons]%elem_of_cons & E1 & E2)
                                      |intros (e & [->|He]%elem_of_cons & E1 & E2)]); cbn in *; try congruence.
  - eexists. split; [apply elem_of_cons; by left|done].
  - exists e. split; [apply elem_of_cons; by right|done].
  - exists l. split; [apply elem_of_cons; by left|done].
  - exists e. split; [do 2 (apply elem_of_cons; right); done|done].
  - eexists. split; [apply elem_of_cons; by left|]. cbn. split; [congruence|done].
  - exists e. split; [apply elem_of_cons; by right|done].
  - exists x. split; [apply elem_of_cons; right; apply elem_of_cons; by left|]. split; [congruence|done].
  - exists e. split; [do 2 (apply elem_of_cons; right); done|done].
Qed.

Lemma join_exact_ok q : forall l, StronglySorted follows (l :: q) -> names_ok (l :: q) -> has_conf l -> list_ l = [] ->
  Forall single q -> flat_only q ->
  exists r, join_exact ngx_strcmp l q = Some r /\ by_name r /\ names_ok r /\ Forall has_conf r /\ flat_only r
    /\ same_confs (l :: q) r.
Proof.
  induction q as [|x q IH]; intros l Hs Hn Hc Hl Hsi Hfl.
  { exists [l]. split_and!; [done|constructor; [apply SSorted_nil|done]|done|by constructor|by constructor|done]. }
  apply Forall_cons_iff in Hn as [Hn1 Hn], Hsi as [Hsi1 Hsi], Hfl as [Hfl1 Hfl].
  apply StronglySorted_inv in Hs as [Hs Hlx]. pose proof Hs as [Hs' Hxq]%StronglySorted_inv.
  apply Forall_cons_iff in Hlx as [Hlx Hlq]. pose proof Hn as [Hnx Hnq]%Forall_cons_iff.
  pose proof (strcmp_spec _ _ _ cmp_ok (name l) (name x) Hn1 Hnx) as Hcmp. cbn [join_exact].
  destruct (Z.eqb_spec (ngx_strcmp (name l) (name x)) 0) as [E|E].
  - rewrite E in Hcmp. symmetry in Hcmp. apply lex_eq in Hcmp.
    destruct Hlx as [Hlx|(_ & Hli & Hxe)]; [rewrite Hcmp in Hlx; by apply lt_name_irrefl in Hlx|].
    rewrite Hli, Hxe. assert (Hex : exact l <> None) by (destruct Hc; congruence).
    destruct (exact l) as [c|] eqn:He; [|done].
    assert (Hxi : inclusive x <> None) by by apply Hsi1.
    destruct (IH (LQ (exact l) (inclusive x) (name l) (list_ l))) as (r & R1 & R2 & R3 & R4 & R5 & R6).
    + constructor; [done|]. apply list.Forall_forall. intros y Hy. left. cbn [name].
      rewrite list.Forall_forall in Hxq. destruct (Hxq y Hy) as [H|(_ & H & _)]; [by rewrite Hcmp|done].
    + by constructor.
    + left. cbn. congruence.
    + done.
    + done.
    + done.
    + exists r. rewrite He in R1. split_and!; [done|done|done|done|done|].
      eapply same_confs_trans; [|exact R6]. by apply merged_confs.
  - destruct Hlx as [Hlx|(Hlx & _)]; 
      [|exfalso; apply E, Z.compare_eq; rewrite Hcmp, Hlx; apply lex_refl].
    assert (Hcx : has_conf x) by (unfold has_conf; destruct (exact x) eqn:Ex; [by left|right; by apply Hsi1]).
    destruct (IH x Hs Hn Hcx Hfl1 Hsi Hfl) as (r & -> & R2 & R3 & R4 & R5 & R6).
    exists (l :: r). split_and!; [done| |by constructor|by constructor|by constructor|by apply same_confs_cons].
    constructor; [done|]. apply list.Forall_forall. intros e He.
    rewrite list.Forall_forall in R4. destruct (same_confs_name _ _ _ R6 He (R4 e He)) as (e' & He' & <-).
    apply elem_of_cons in He' as [->|He']; [done|].
    rewrite list.Forall_forall in Hxq. destruct (Hxq e' He') as [H|(H & _)]; [by transitivity (name x)|by rewrite <- H].
Qed.
End Build.

(** ** Sorting *)

(** [ngx_queue_sort]: a permutation, in order when the comparison is one. *)
Definition sorts (sort : (lq -> lq -> Z) -> list lq -> list lq) : Prop := forall cmp l,
  (forall a b, a ∈ l -> b ∈ l -> cmp a b <= 0 \/ cmp b a <= 0) ->
  (forall a b c, a ∈ l -> b ∈ l -> c ∈ l -> cmp a b <= 0 -> cmp b c <= 0 -> cmp a c <= 0) ->
  sort cmp l ≡ₚ l /\ StronglySorted (fun a b => cmp a b <= 0) (sort cmp l).

(** A location that goes into the tree. *)
Definition static_loc (k : clcf) : Prop :=
  regex k = false /\ named k = false /\ noname k = false /\ no_nul (loc_name k) /\ (length (loc_name k) <= 255)%nat.

Definition loc_key (mem : memory) (c : nat) : list Z * bool := (loc_name (conf mem c), exact_match (conf mem c)).

Section Sort.
Context (ngx_strcmp : list Z -> list Z -> Z) (ngx_strncmp ngx_filename_cmp : list Z -> list Z -> Z -> Z).
Hypothesis cmp_ok : compares ngx_strcmp ngx_strncmp ngx_filename_cmp.
Context (mem : memory).

Lemma new_lq_static c : static_loc (conf mem c) ->
  new_lq mem c = if exact_match (conf mem c) then LQ (Some c) None (loc_name (conf mem c)) []
                 else LQ None (Some c) (loc_name (conf mem c)) [].
Proof. intros (H1 & H2 & H3 & _). unfold new_lq. rewrite H1, H2, H3. by destruct (exact_match _). Qed.

Lemma clcf_of_new c : static_loc (conf mem c) -> clcf_of (new_lq mem c) = c.
Proof. intros H. rewrite new_lq_static by done. by destruct (exact_match _). Qed.

Lemma new_lq_name c : name (new_lq mem c) = loc_name (conf mem c).
Proof. unfold new_lq. by destruct (_ || _ || _ || _)%bool. Qed.

Abbreviation cmp := (ngx_http_cmp_locations ngx_strcmp mem).

Lemma cmp_static a b : static_loc (conf mem a) -> static_loc (conf mem b) ->
  cmp (new_lq mem a) (new_lq mem b) <= 0 <->
  match lex (loc_name (conf mem a)) (loc_name (conf mem b)) with
  | Lt => True | Gt => False
  | Eq => exact_match (conf mem b) = true -> exact_match (conf mem a) = true
  end.
Proof.
  intros Ha Hb. unfold ngx_http_cmp_locations. rewrite !clcf_of_new by done.
  destruct Ha as (-> & -> & -> & Na & _), Hb as (-> & -> & -> & Nb & _). cbn [negb andb orb].
  pose proof (strcmp_spec _ _ _ cmp_ok _ _ Na Nb) as H. revert H.
  generalize (ngx_strcmp (loc_name (conf mem a)) (loc_name (conf mem b))). intros z.
  destruct (Z.compare_spec z 0) as [->|Hz|Hz]; intros <-; cbn [Z.eqb andb negb].
  - destruct (exact_match (conf mem a)), (exact_match (conf mem b)); cbn; split; try lia; intuition congruence.
  - destruct (Z.eqb_spec z 0); [lia|]. cbn. split; [done|lia].
  - destruct (Z.eqb_spec z 0); [lia|]. cbn. lia.
Qed.

Lemma lex_trans a b c : lex a b <> Gt -> lex b c <> Gt -> lex a c = (match lex a b with Eq => lex b c | _ => Lt end).
Proof.
  intros H1 H2. destruct (lex a b) eqn:E1; [|..|done].
  - by apply lex_eq in E1 as ->.
  - destruct (lex b c) eqn:E2; [|..|done].
    + apply lex_eq in E2 as ->. done.
    + by apply (lt_name_transitive a b c).
Qed.

Context (locs : list nat).
Hypothesis locs_static : Forall (fun c => static_loc (conf mem c)) locs.
Hypothesis locs_distinct : NoDup (map (loc_key mem) locs).

Lemma locs_elem l : l ∈ map (new_lq mem) locs <-> exists c, c ∈ locs /\ l = new_lq mem c.
Proof. rewrite list_elem_of_fmap. split; intros (c & H1 & H2); by exists c. Qed.

Lemma locs_static_elem c : c ∈ locs -> static_loc (conf mem c).
Proof. intros Hc. by apply (proj1 (list.Forall_forall _ _) locs_static). Qed.

Lemma sorted_locs sort : sorts sort ->
  sort cmp (map (new_lq mem) locs) ≡ₚ map (new_lq mem) locs
  /\ StronglySorted (fun a b => cmp a b <= 0) (sort cmp (map (new_lq mem) locs)).
Proof.
  intros H. apply H.
  - intros a b (x & Hx & ->)%locs_elem (y & Hy & ->)%locs_elem.
    rewrite !cmp_static by by apply locs_static_elem. rewrite (lex_opp (loc_name (conf mem x))).
    destruct (lex _ _); cbn; auto. destruct (exact_match (conf mem x)), (exact_match (conf mem y)); auto.
  - intros a b c (x & Hx & ->)%locs_elem (y & Hy & ->)%locs_elem (z & Hz & ->)%locs_elem.
    rewrite !cmp_static by by apply locs_static_elem. intros H1 H2.
    rewrite (lex_trans _ (loc_name (conf mem y))) by (by intros E; rewrite E in *).
    destruct (lex (loc_name (conf mem x)) (loc_name (conf mem y))); [|done|done].
    destruct (lex (loc_name (conf mem y)) (loc_name (conf mem z))); [auto|done|done].
Qed.

(** Of two places in the sorted queue, the later one follows. *)
Lemma sorted_follows sort : sorts sort ->
  StronglySorted follows (sort cmp (map (new_lq mem) locs)).
Proof.
  intros Hsort. destruct (sorted_locs sort Hsort) as [Hp Hs].
  apply Permutation_map_inv in Hp as (cs & E & Hp). rewrite E in *.
  assert (Hst : Forall (fun c => static_loc (conf mem c)) cs).
  { apply list.Forall_forall. intros c Hc. apply locs_static_elem. by rewrite Hp. }
  assert (Hnd : NoDup (map (loc_key mem) cs)) by (by rewrite <- Hp).
  clear Hp E. induction cs as [|c cs IH]; [constructor|]. cbn [map] in *.
  apply StronglySorted_inv in Hs as [Hs Hc]. apply list.NoDup_cons in Hnd as [Hni Hnd]. apply Forall_cons_iff in Hst as [Hst1 Hst].
  constructor; [by apply IH|]. rewrite list.Forall_forall in Hc |- *. intros b Hb. pose proof (Hc b Hb) as Hcb.
  apply list_elem_of_fmap in Hb as (d & -> & Hd). rewrite list.Forall_forall in Hst. specialize (Hst d Hd).
  rewrite cmp_static in Hcb by done. unfold follows. rewrite !new_lq_name.
  destruct (lex _ _) eqn:E; [|by left|done]. right. apply lex_eq in E. split; [done|].
  assert (Hk : loc_key mem c <> loc_key mem d).
  { intros Hk. apply Hni. rewrite Hk. apply list_elem_of_fmap. by exists d. }
  unfold loc_key in Hk. rewrite E in Hk. rewrite !new_lq_static by done.
  destruct (exact_match (conf mem c)), (exact_match (conf mem d)); try done. by specialize (Hcb eq_refl).
Qed.
End Sort.

(** ** The tree *)

Section Tree.
Context (middle : nat -> nat) (alloc : list Z -> bool) (mem : memory).
Hypothesis middle_ok : forall n, (0 < n)%nat -> (middle n < n)%nat /\ (middle n = 0%nat -> n = 1%nat).
Hypothesis alloc_ok : forall x, alloc x = true.

Lemma size_all_app q1 q2 : size_all (q1 ++ q2) = (size_all q1 + size_all q2)%nat.
Proof. unfold size_all. induction q1 as [|x q IH]; cbn; [done|]. rewrite IH. lia. Qed.

Lemma size_all_nil q : size_all q = 0%nat -> q = [].
Proof. destruct q as [|x q]; [done|]. cbn. pose proof (size_pos x). lia. Qed.

Lemma create_total fuel : forall q k, q <> [] -> (size_all q <= fuel)%nat ->
  is_Some (ngx_http_create_locations_tree middle alloc fuel mem q k).
Proof.
  induction fuel as [|fuel IH]; intros q k Hq Hf; [by destruct Hq; apply size_all_nil; lia|].
  assert (Hpos : (0 < length q)%nat) by (destruct q; [done|cbn; lia]).
  destruct (middle_ok _ Hpos) as [Hm _]. destruct (lookup_lt_is_Some_2 q _ Hm) as [m Hlm].
  cbn [ngx_http_create_locations_tree]. rewrite Hlm, alloc_ok. cbn [negb].
  pose proof (take_drop_middle q _ m Hlm) as Hsplit.
  assert (Hs : (size_all (take (middle (length q)) q) + size (m) + size_all (drop (S (middle (length q))) q) <= S fuel)%nat).
  { rewrite <- Hsplit, size_all_app in Hf. cbn [size_all foldr] in Hf. unfold size_all in *. lia. }
  assert (Hsub : is_Some match list_ m with [] => Some Null | x :: y => ngx_http_create_locations_tree middle alloc fuel mem (x :: y) (length (name m)) end).
  { rewrite size_list_ in Hs. destruct (list_ m) as [|x y]; [done|]. apply IH; [done|lia]. }
  destruct Hsub as [ST ->]. pose proof (size_pos m).
  destruct (take (middle (length q)) q) as [|a q1]; [done|]. destruct (IH (a :: q1) k) as [L ->]; [done|lia|].
  destruct (drop (S (middle (length q))) q) as [|b q2]; [done|]. destruct (IH (b :: q2) k) as [R ->]; [done|lia|done].
Qed.
End Tree.

(** What a lookup in the locations [locs] has to give: the exact location with
    the name, the inclusive one with the name, or, where no location has it,
    the redirect of a location one byte longer, or the longest inclusive
    location the URI starts with. *)
Definition location_answer (mem : memory) (locs : list nat) (uri : list Z) (res : ngx_rc * option nat) : Prop :=
  let name_of c := loc_name (conf mem c) in
  let inclusive_below c := exact_match (conf mem c) = false /\ below (name_of c) uri in
  (forall c, c ∈ locs -> name_of c = uri -> exact_match (conf mem c) = true -> res = (NGX_OK, Some c))
  /\ (forall c, c ∈ locs -> name_of c = uri -> (forall d, d ∈ locs -> name_of d = uri -> exact_match (conf mem d) = false) ->
        res = (NGX_AGAIN, Some c))
  /\ ((forall c, c ∈ locs -> name_of c <> uri) ->
      (exists c d x, c ∈ locs /\ d ∈ locs /\ name_of c = uri ++ [x] /\ name_of d = uri ++ [x]
         /\ auto_redirect (conf mem d) = true /\ res = (NGX_DONE, Some c))
      \/ (exists c, c ∈ locs /\ inclusive_below c /\ res = (NGX_AGAIN, Some c)
            /\ forall d, d ∈ locs -> inclusive_below d -> (length (name_of d) <= length (name_of c))%nat)
      \/ ((forall c, c ∈ locs -> ~ inclusive_below c) /\ res = (NGX_DECLINED, None))).

Section Answer.
Context (mem : memory) (locs : list nat) (q : list lq).
Hypothesis locs_static : Forall (fun c => static_loc (conf mem c)) locs.
Hypothesis q_confs : same_confs (map (new_lq mem) locs) q.

Lemma exact_in n c : (exists e, e ∈ q /\ name e = n /\ exact e = Some c)
  <-> c ∈ locs /\ loc_name (conf mem c) = n /\ exact_match (conf mem c) = true.
Proof.
  destruct (q_confs n c) as [<- _]. split.
  - intros (e & (d & -> & Hd)%list_elem_of_fmap & Hn & He).
    rewrite new_lq_static in Hn, He by by apply (proj1 (list.Forall_forall _ _) locs_static).
    destruct (exact_match (conf mem d)) eqn:E; cbn in *; by simplify_eq.
  - intros (Hc & Hn & He). exists (new_lq mem c). split; [apply list_elem_of_fmap; by exists c|].
    rewrite new_lq_static, He by by apply (proj1 (list.Forall_forall _ _) locs_static). done.
Qed.

Lemma inclusive_in n c : (exists e, e ∈ q /\ name e = n /\ inclusive e = Some c)
  <-> c ∈ locs /\ loc_name (conf mem c) = n /\ exact_match (conf mem c) = false.
Proof.
  destruct (q_confs n c) as [_ <-]. split.
  - intros (e & (d & -> & Hd)%list_elem_of_fmap & Hn & He).
    rewrite new_lq_static in Hn, He by by apply (proj1 (list.Forall_forall _ _) locs_static).
    destruct (exact_match (conf mem d)) eqn:E; cbn in *; by simplify_eq.
  - intros (Hc & Hn & He). exists (new_lq mem c). split; [apply list_elem_of_fmap; by exists c|].
    rewrite new_lq_static, He by by apply (proj1 (list.Forall_forall _ _) locs_static). done.
Qed.

Lemma answer_locations uri res : Forall has_conf q -> by_name q ->
  answer mem q uri NGX_DECLINED None res -> location_answer mem locs uri res.
Proof.
  intros Hconf Hsort [A1 A2]. rewrite list.Forall_forall in Hconf.
  assert (Hin : forall e, e ∈ q -> exists c, c ∈ locs /\ loc_name (conf mem c) = name e).
  { intros e He. destruct (Hconf e He) as [H|H].
    - destruct (exact e) as [c|] eqn:E; [|done]. destruct (proj1 (exact_in (name e) c)) as (? & ? & _); [by exists e|]. by exists c.
    - destruct (inclusive e) as [c|] eqn:E; [|done]. destruct (proj1 (inclusive_in (name e) c)) as (? & ? & _); [by exists e|]. by exists c. }
  assert (Hlen : forall d, d ∈ locs -> exact_match (conf mem d) = false ->
     exists e, e ∈ q /\ name e = loc_name (conf mem d) /\ inclusive e = Some d).
  { intros d Hd Hx. by apply inclusive_in. }
  split_and!.
  - intros c Hc Hn Hx. destruct (proj2 (exact_in uri c)) as (e & He & En & Ee); [done|].
    rewrite (A1 e He En), Ee. done.
  - intros c Hc Hn Hd. destruct (proj2 (inclusive_in uri c)) as (e & He & En & Ee); [by auto|].
    rewrite (A1 e He En), Ee. destruct (exact e) as [x|] eqn:Hx; [|done].
    destruct (proj1 (exact_in uri x)) as (G1 & G2 & G3); [by exists e|]. by rewrite (Hd x G1 G2) in G3.
  - intros Hne. destruct A2 as [(e & x & E1 & E2 & E3 & ->)|[(e & c & E1 & E2 & E3 & -> & E5)|[E1 ->]]].
    + intros e He En. destruct (Hin e He) as (c & Hc & Hcn). apply (Hne c Hc). congruence.
    + left. unfold auto_of in E3. apply orb_true_iff in E3.
      assert (Ht : exists c, target (exact e) (inclusive e) = Some c /\ c ∈ locs /\ loc_name (conf mem c) = uri ++ [x]).
      { unfold target. destruct (exact e) as [c|] eqn:Ex.
        - exists c. split; [done|]. destruct (proj1 (exact_in (uri ++ [x]) c)) as (? & ? & _); [by exists e|done].
        - destruct (Hconf e E1) as [?|Hi]; [done|]. destruct (inclusive e) as [c|] eqn:Ei; [|done].
          exists c. split; [done|]. destruct (proj1 (inclusive_in (uri ++ [x]) c)) as (? & ? & _); [by exists e|done]. }
      destruct Ht as (c & -> & Hc & Hcn).
      assert (Hd : exists d, d ∈ locs /\ loc_name (conf mem d) = uri ++ [x] /\ auto_redirect (conf mem d) = true).
      { destruct E3 as [E3|E3].
        - destruct (exact e) as [d|] eqn:Ex; [|done]. exists d.
          destruct (proj1 (exact_in (uri ++ [x]) d)) as (? & ? & _); [by exists e|done].
        - destruct (inclusive e) as [d|] eqn:Ei; [|done]. exists d.
          destruct (proj1 (inclusive_in (uri ++ [x]) d)) as (? & ? & _); [by exists e|done]. }
      destruct Hd as (d & Hd1 & Hd2 & Hd3). by exists c, d, x.
    + right; left. destruct (proj1 (inclusive_in (name e) c)) as (C1 & C2 & C3); [by exists e|].
      exists c. rewrite C2. split_and!; [done|done|done|done|]. intros d Hd [D1 D2].
      destruct (Hlen d Hd D1) as (e' & He' & En' & Ei'). rewrite <- En'. apply E5; [done|congruence|by rewrite En'].
    + right; right. split; [|done]. intros d Hd [D1 D2]. destruct (Hlen d Hd D1) as (e' & He' & En' & Ei').
      apply (E1 e' He'); [congruence|by rewrite En'].
Qed.
End Answer.

Lemma add_locations mem locs : foldl (ngx_http_add_location mem) None locs
  = match locs with [] => None | _ => Some (map (new_lq mem) locs) end.
Proof.
  assert (H : forall q, foldl (ngx_http_add_location mem) (Some q) locs = Some (q ++ map (new_lq mem) locs)).
  { induction locs as [|c locs IH]; intros q; [cbn; by rewrite app_nil_r|].
    transitivity (foldl (ngx_http_add_location mem) (Some (q ++ [new_lq mem c])) locs); [done|].
    by rewrite IH, <- app_assoc. }
  destruct locs as [|c locs]; [done|]. exact (H []).
Qed.

Lemma same_confs_perm q r : q ≡ₚ r -> same_confs q r.
Proof.
  intros H n c. split; split; intros (e & He & E); exists e; (split; [|done]); [by rewrite <- H|by rewrite H|by rewrite <- H|by rewrite H].
Qed.

(** C14: The tree built from the [location] blocks of a server, which is always
    built when no two are the same, is searched as its blocks say: exact
    before inclusive, and the longest inclusive prefix. *)
Theorem location_lookup (ngx_strcmp : list Z -> list Z -> Z) (ngx_strncmp ngx_filename_cmp : list Z -> list Z -> Z -> Z)
    (middle : nat -> nat) (ngx_queue_sort : (lq -> lq -> Z) -> list lq -> list lq) (alloc : list Z -> bool)
    (mem : memory) (locs : list nat) :
  compares ngx_strcmp ngx_strncmp ngx_filename_cmp ->
  (forall n, (0 < n)%nat -> (middle n < n)%nat /\ (middle n = 0%nat -> n = 1%nat)) ->
  sorts ngx_queue_sort -> (forall x, alloc x = true) ->
  Forall (fun c => static_loc (conf mem c)) locs -> NoDup (map (loc_key mem) locs) -> locs <> [] ->
  let queue := default [] (foldl (ngx_http_add_location mem) None locs) in
  let sorted := ngx_queue_sort (ngx_http_cmp_locations ngx_strcmp mem) queue in
  exists t, static_tree ngx_strcmp ngx_strncmp middle alloc mem sorted = Some t
    /\ forall uri, location_answer mem locs uri (ngx_http_core_find_static_location ngx_filename_cmp t uri).
Proof.
  intros Hcmp Hmid Hsort Halloc Hst Hnd Hne. rewrite add_locations. destruct locs as [|c0 locs0]; [done|].
  remember (c0 :: locs0) as locs eqn:El. cbn [default]. cbv zeta.
  pose proof (sorted_follows _ _ _ Hcmp mem locs Hst Hnd _ Hsort) as Hf.
  destruct (sorted_locs _ _ _ Hcmp mem locs Hst _ Hsort) as [Hperm _].
  set (q := ngx_queue_sort _ _) in *.
  assert (Hq : forall P : lq -> Prop, (forall c, static_loc (conf mem c) -> P (new_lq mem c)) -> Forall P q).
  { intros P HP. apply list.Forall_forall. intros l Hl. rewrite Hperm in Hl.
    apply list_elem_of_fmap in Hl as (c & -> & Hc). apply HP. by apply (proj1 (list.Forall_forall _ _) Hst). }
  assert (Hq1 : Forall (fun l => no_nul (name l)) q) by (apply Hq; intros c H; rewrite new_lq_name; apply H).
  assert (Hq2 : Forall single q).
  { apply Hq. intros c H. unfold single. rewrite new_lq_static by done. by destruct (exact_match _). }
  assert (Hq3 : Forall (fun l => list_ l = []) q).
  { apply Hq. intros c H. rewrite new_lq_static by done. by destruct (exact_match _). }
  destruct q as [|l q]; [by apply Permutation_nil_l in Hperm; subst locs|].
  apply Forall_cons_iff in Hq2 as [Hl Hq2], Hq3 as [Hl3 Hq3].
  assert (Hcl : has_conf l) by (unfold has_conf, single in *; destruct (exact l) eqn:Ex; [by left|right; by apply Hl]).
  destruct (join_exact_ok _ _ _ Hcmp q l Hf Hq1 Hcl Hl3 Hq2 Hq3) as (r & Hjoin & R1 & R2 & R3 & R4 & R5).
  unfold static_tree, ngx_http_join_exact_locations. rewrite Hjoin.
  destruct (create_list_ok _ _ _ Hcmp (length r) [] r) as (F1 & F2 & F3); try done.
  { apply list.Forall_forall. intros x _. apply prefix_nil. }
  set (fo := ngx_http_create_locations_list _ _ _) in *.
  assert (Hfo : fo <> []).
  { intros E. rewrite E in F2. cbn in F2. subst r. destruct (R5 (name l) 0%nat) as [_ _].
    destruct Hcl as [H|H]; [destruct (exact l) as [c|] eqn:Ec|destruct (inclusive l) as [c|] eqn:Ec]; try done.
    - destruct (R5 (name l) c) as [[A _] _]. destruct A as (e & []%elem_of_nil & _). exists l. split; [apply elem_of_cons; by left|done].
    - destruct (R5 (name l) c) as [_ [A _]]. destruct A as (e & []%elem_of_nil & _). exists l. split; [apply elem_of_cons; by left|done]. }
  destruct (create_total middle alloc mem Hmid Halloc (size_all fo) fo 0 Hfo) as [t Ht]; [done|].
  exists t. split; [done|]. intros uri.
  assert (Hconfs : same_confs (map (new_lq mem) locs) r).
  { eapply same_confs_trans; [|exact R5]. by apply same_confs_perm, Permutation_sym. }
  assert (Hshort : Forall (fun x => (length (name x) <= 255)%nat) (flat_all fo)).
  { apply list.Forall_forall. intros e He.
    assert (Her : strip e ∈ r) by (rewrite <- F2; apply list_elem_of_fmap; by exists e).
    rewrite list.Forall_forall in R3. destruct (same_confs_name _ _ _ Hconfs Her (R3 _ Her)) as (e' & He' & En).
    apply list_elem_of_fmap in He' as (c & -> & Hc). rewrite new_lq_name in En. cbn in En. rewrite <- En.
    by apply (proj1 (list.Forall_forall _ _) Hst). }
  pose proof (find_forest _ _ _ middle alloc Hcmp Hmid mem _ [] fo _ t uri NGX_DECLINED None (le_n _) F1 Hshort Ht) as Ha.
  apply (answer_locations mem locs r); [done|done|done|done|].
  rewrite <- F2. cbn [app] in Ha. destruct Ha as [A1 A2]. split.
  - intros e He. apply list_elem_of_fmap in He as (x & -> & Hx). cbn. by apply A1.
  - intros Hno. destruct A2 as [(e & x & E1 & E2)|[(e & c & E1 & E2 & E3 & E4 & E5)|[E1 E2]]].
    + intros e He. apply (Hno (strip e)). apply list_elem_of_fmap. by exists e.
    + left. exists (strip e), x. split; [apply list_elem_of_fmap; by exists e|done].
    + right; left. exists (strip e), c. split_and!; [apply list_elem_of_fmap; by exists e|done|done|done|].
      intros y Hy. apply list_elem_of_fmap in Hy as (x & -> & Hx). exact (E5 x Hx).
    + right; right. split; [|done]. intros y Hy. apply list_elem_of_fmap in Hy as (x & -> & Hx). exact (E1 x Hx).
Qed.

(** ** Concrete libraries *)

Definition sign (c : comparison) : Z := match c with Lt => -1 | Eq => 0 | Gt => 1 end.
Definition strcmp (a b : list Z) : Z := sign (lex a b).
Definition memcmp (a b : list Z) (n : Z) : Z := sign (lex (take (Z.to_nat n) a) (take (Z.to_nat n) b)).

Lemma sign_compare c : (sign c ?= 0) = c.
Proof. by destruct c. Qed.

Lemma compares_ok : compares strcmp memcmp memcmp.
Proof.
  split; intros; unfold strcmp, memcmp; by rewrite ?Nat2Z.id, sign_compare.
Qed.

Definition half (n : nat) : nat := (n / 2)%nat.

Lemma half_ok n : (0 < n)%nat -> (half n < n)%nat /\ (half n = 0%nat -> n = 1%nat).
Proof.
  intros Hn. unfold half. split; [by apply Nat.div_lt; lia|]. intros H.
  apply Nat.div_small_iff in H; lia.
Qed.

(** A stable insertion sort. *)
Fixpoint insert_sorted (cmp : lq -> lq -> Z) (x : lq) (l : list lq) : list lq :=
  match l with
  | [] => [x]
  | y :: l => if cmp x y <=? 0 then x :: y :: l else y :: insert_sorted cmp x l
  end.
Definition insertion_sort (cmp : lq -> lq -> Z) (l : list lq) : list lq := foldr (insert_sorted cmp) [] l.

Lemma insert_sorted_perm cmp x l : insert_sorted cmp x l ≡ₚ x :: l.
Proof.
  induction l as [|y l IH]; [done|]. cbn. destruct (cmp x y <=? 0); [done|]. rewrite IH. apply perm_swap.
Qed.

Lemma insert_sorted_ok cmp x l :
  (forall a b, a ∈ x :: l -> b ∈ x :: l -> cmp a b <= 0 \/ cmp b a <= 0) ->
  (forall a b c, a ∈ x :: l -> b ∈ x :: l -> c ∈ x :: l -> cmp a b <= 0 -> cmp b c <= 0 -> cmp a c <= 0) ->
  StronglySorted (fun a b => cmp a b <= 0) l -> StronglySorted (fun a b => cmp a b <= 0) (insert_sorted cmp x l).
Proof.
  intros Htot Htr Hs. induction Hs as [|y l Hs IH Hy]; [by repeat constructor|]. cbn.
  assert (Hx : x ∈ x :: y :: l) by (apply elem_of_cons; by left).
  assert (Hyl : y ∈ x :: y :: l) by (apply elem_of_cons; right; apply elem_of_cons; by left).
  assert (Hl : forall z, z ∈ l -> z ∈ x :: y :: l) by (intros z Hz; do 2 (apply elem_of_cons; right); done).
  rewrite list.Forall_forall in Hy. destruct (Z.leb_spec (cmp x y) 0) as [Hxy|Hxy].
  - constructor; [constructor; [done|by apply list.Forall_forall]|]. apply list.Forall_forall.
    intros z [->|Hz]%elem_of_cons; [done|]. apply (Htr x y z); [done|done|by apply Hl|done|by apply Hy].
  - assert (Hsub : forall z, z ∈ x :: l -> z ∈ x :: y :: l) by (intros z [->|Hz]%elem_of_cons; [done|by apply Hl]).
    constructor; [apply IH; intros; [apply Htot|eapply Htr; [..|eassumption|eassumption]]; by apply Hsub|].
    apply list.Forall_forall. intros z Hz. rewrite insert_sorted_perm in Hz. apply elem_of_cons in Hz as [->|Hz]; [|by apply Hy].
    destruct (Htot x y Hx Hyl); [lia|done].
Qed.

Lemma insertion_sorts : sorts insertion_sort.
Proof.
  intros cmp l. induction l as [|x l IH]; intros Htot Htr; [split; [done|constructor]|].
  assert (Hsub : forall z, z ∈ l -> z ∈ x :: l) by (intros z Hz; apply elem_of_cons; by right).
  destruct IH as [Hp Hs].
  { intros a b Ha Hb. apply Htot; by apply Hsub. }
  { intros a b c Ha Hb Hc. apply Htr; by apply Hsub. }
  cbn [insertion_sort foldr]. fold (insertion_sort cmp l). split.
  - by rewrite insert_sorted_perm, Hp.
  - assert (Hin : forall z, z ∈ x :: insertion_sort cmp l -> z ∈ x :: l) by (intros z Hz; by rewrite Hp in Hz).
    apply insert_sorted_ok; [intros a b Ha Hb; apply Htot|intros a b c Ha Hb Hc; apply Htr|done]; by apply Hin.
Qed.

Definition ex_loc (name : list Z) (exact auto : bool) : clcf :=
  Clcf name false false false exact false auto None Null [].

(** The search in the tree of all the locations of a memory. *)
Definition ex_find (mem : memory) (uri : list Z) : option (ngx_rc * option nat) :=
  option_map (fun t => ngx_http_core_find_static_location memcmp t uri)
    (static_tree strcmp memcmp half (fun _ => true) mem
       (insertion_sort (ngx_http_cmp_locations strcmp mem)
          (default [] (foldl (ngx_http_add_location mem) None (seq 0 (length mem)))))).

Definition ex_mem : memory :=
  [ex_loc (bytes_of "/") false false; ex_loc (bytes_of "/img/") false true;
   ex_loc (bytes_of "/img") true false; ex_loc (bytes_of "/img/big/") false false].

Lemma location_lookup_witness :
  ex_find ex_mem (bytes_of "/img/x") = Some (NGX_AGAIN, Some 1%nat)
  /\ exists t, option_map (fun t => ngx_http_core_find_static_location memcmp t (bytes_of "/img"))
       (Some t) = Some (NGX_OK, Some 2%nat).
Proof.
  split; [by vm_compute|].
  destruct (location_lookup strcmp memcmp memcmp half insertion_sort (fun _ => true) ex_mem (seq 0 4)) as (t & _ & Ht).
  - apply compares_ok.
  - apply half_ok.
  - apply insertion_sorts.
  - done.
  - repeat constructor; cbn; lia.
  - apply (bool_decide_unpack _). by vm_compute.
  - done.
  - exists t. destruct (Ht (bytes_of "/img")) as [H _]. cbn [option_map]. f_equal.
    apply (H 2%nat); [|done|done]. apply elem_of_seq. lia.
Defined.

(** The redirect of "/x" to "/x/" depends on the shape of the tree: a
    location that sorts between the two names and is met first leads the
    search away from it. *)
Theorem redirect_depends_on_tree :
  let slash := ex_loc (bytes_of "/x/") false true in
  let dash := ex_loc (bytes_of "/x-y") false false in
  ex_find [slash; dash] (bytes_of "/x") = Some (NGX_DONE, Some 0%nat)
  /\ ex_find [slash; dash; ex_loc (bytes_of "/w") false false] (bytes_of "/x") = Some (NGX_DECLINED, None).
Proof. by vm_compute. Qed.

(** The length of a name is stored in a byte, so a location of 257 bytes
    is compared by its first one and takes every URI. *)
Theorem long_name_truncated :
  let long := ex_loc (bytes_of "/" ++ repeat "a"%c 256) false false in
  ex_find [long] (bytes_of "/etc") = Some (NGX_AGAIN, Some 0%nat).
Proof. by vm_compute. Qed.

End LocationsProps.
