(* ===== verification/HttpRequest.v ===== *)
(** * A request being processed

    The fields of [ngx_http_request_t] ([ngx_http_request.h]) that the phases,
    the script engine and the variables of a request read and write, after the
    request line and the headers are in.  Strings are lists of bytes, a handler
    or a configuration is its number, [None] is NULL. *)

From S2P Require Import Prelude.

Module HttpRequest.

(** [ngx_table_elt_t]; [hash = 0] disables a header. *)
Record ngx_table_elt := Elt { hash : Z; key : list Z; value : list Z }.

(** [ngx_http_variable_value_t]: [data] holds the [len] bytes at [data]. *)
Record ngx_http_variable_value := Value {
  data : list Z;
  valid : bool;
  no_cacheable : bool;
  not_found : bool;
}.

Definition eta_value (v : ngx_http_variable_value) : ngx_http_variable_value :=
  Value (data v) (valid v) (no_cacheable v) (not_found v).
#[export] Instance set_data : Setter data := ltac:(derive_setter eta_value data).
#[export] Instance set_valid : Setter valid := ltac:(derive_setter eta_value valid).
#[export] Instance set_no_cacheable : Setter no_cacheable := ltac:(derive_setter eta_value no_cacheable).
#[export] Instance set_not_found : Setter not_found := ltac:(derive_setter eta_value not_found).

(** [unsigned len:28] *)
Definition len28 (bytes : list Z) : list Z := take (Z.to_nat (wrap 28 (Z.of_nat (length bytes)))) bytes.

Definition ngx_http_variable_null_value : ngx_http_variable_value := Value [] true false false.
Definition ngx_http_variable_true_value : ngx_http_variable_value := Value ["1"%c] true false false.

(** Where the write event goes. *)
Inductive event_handler :=
| ngx_http_core_run_phases_handler | ngx_http_request_empty_handler | ngx_http_handler_handler
| ngx_http_writer_handler | ngx_http_request_finalizer_handler | other_handler (n : nat).

Record ngx_http_request := Request {
  is_main : bool;   (** [r == r->main] *)
  main_count : Z;   (** [r->main->count] *)
  method : Z;
  http_version : Z;
  headers_in : list ngx_table_elt;
  cookies : list ngx_table_elt;
  connection_type : Z;
  content_length_n : Z;
  headers_in_chunked : bool;
  msie6 : bool;
  safari : bool;
  upstream_headers : option (list ngx_table_elt);   (** [r->upstream->headers_in.headers] *)
  headers_out : list ngx_table_elt;
  location : option nat;   (** an index of [headers_out] *)
  www_authenticate : option nat;   (** an index of [headers_out] *)
  uri : list Z;
  args : list Z;
  exten : list Z;
  quoted_uri : bool;
  plus_in_uri : bool;
  internal : bool;
  valid_unparsed_uri : bool;
  valid_location : bool;
  uri_changed : bool;
  uri_changes : Z;   (** [unsigned uri_changes:4] *)
  add_uri_to_alias : bool;
  loc_conf : nat;
  phase_handler : Z;
  content_handler : option nat;
  access_code : Z;
  write_event_handler : event_handler;
  keepalive : bool;
  lingering_close : bool;
  discard_body : bool;
  expect_tested : bool;
  limit_rate : Z;
  request_body_in_file_only : bool;
  request_body_in_persistent_file : bool;
  request_body_in_clean_file : bool;
  request_body_in_single_buf : bool;
  request_body_file_log_level : Z;
  requests : Z;   (** of the connection *)
  conn_log : nat;   (** of the connection *)
  sendfile : bool;   (** of the connection *)
  tcp_nopush_disabled : bool;   (** of the connection *)
  variables : list ngx_http_variable_value;
  captures : option (list Z);
  ncaptures : Z;
  captures_data : list Z;
}.

Definition eta_request (r : ngx_http_request) : ngx_http_request :=
  Request
    (is_main r) (main_count r) (method r) (http_version r) (headers_in r) (cookies r)
    (connection_type r) (content_length_n r) (headers_in_chunked r) (msie6 r) (safari r)
    (upstream_headers r) (headers_out r) (location r) (www_authenticate r) (uri r) (args r)
    (exten r) (quoted_uri r) (plus_in_uri r) (internal r) (valid_unparsed_uri r) (valid_location
    r) (uri_changed r) (uri_changes r) (add_uri_to_alias r) (loc_conf r) (phase_handler r)
    (content_handler r) (access_code r) (write_event_handler r) (keepalive r) (lingering_close
    r) (discard_body r) (expect_tested r) (limit_rate r) (request_body_in_file_only r)
    (request_body_in_persistent_file r) (request_body_in_clean_file r)
    (request_body_in_single_buf r) (request_body_file_log_level r) (requests r) (conn_log r)
    (sendfile r) (tcp_nopush_disabled r) (variables r) (captures r) (ncaptures r) (captures_data
    r).

#[export] Instance set_is_main : Setter is_main := ltac:(derive_setter eta_request is_main).
#[export] Instance set_main_count : Setter main_count := ltac:(derive_setter eta_request main_count).
#[export] Instance set_method : Setter method := ltac:(derive_setter eta_request method).
#[export] Instance set_http_version : Setter http_version := ltac:(derive_setter eta_request http_version).
#[export] Instance set_headers_in : Setter headers_in := ltac:(derive_setter eta_request headers_in).
#[export] Instance set_cookies : Setter cookies := ltac:(derive_setter eta_request cookies).
#[export] Instance set_connection_type : Setter connection_type := ltac:(derive_setter eta_request connection_type).
#[export] Instance set_content_length_n : Setter content_length_n := ltac:(derive_setter eta_request content_length_n).
#[export] Instance set_headers_in_chunked : Setter headers_in_chunked := ltac:(derive_setter eta_request headers_in_chunked).
#[export] Instance set_msie6 : Setter msie6 := ltac:(derive_setter eta_request msie6).
#[export] Instance set_safari : Setter safari := ltac:(derive_setter eta_request safari).
#[export] Instance set_upstream_headers : Setter upstream_headers := ltac:(derive_setter eta_request upstream_headers).
#[export] Instance set_headers_out : Setter headers_out := ltac:(derive_setter eta_request headers_out).
#[export] Instance set_location : Setter location := ltac:(derive_setter eta_request location).
#[export] Instance set_www_authenticate : Setter www_authenticate := ltac:(derive_setter eta_request www_authenticate).
#[export] Instance set_uri : Setter uri := ltac:(derive_setter eta_request uri).
#[export] Instance set_args : Setter args := ltac:(derive_setter eta_request args).
#[export] Instance set_exten : Setter exten := ltac:(derive_setter eta_request exten).
#[export] Instance set_quoted_uri : Setter quoted_uri := ltac:(derive_setter eta_request quoted_uri).
#[export] Instance set_plus_in_uri : Setter plus_in_uri := ltac:(derive_setter eta_request plus_in_uri).
#[export] Instance set_internal : Setter internal := ltac:(derive_setter eta_request internal).
#[export] Instance set_valid_unparsed_uri : Setter valid_unparsed_uri := ltac:(derive_setter eta_request valid_unparsed_uri).
#[export] Instance set_valid_location : Setter valid_location := ltac:(derive_setter eta_request valid_location).
#[export] Instance set_uri_changed : Setter uri_changed := ltac:(derive_setter eta_request uri_changed).
#[export] Instance set_uri_changes : Setter uri_changes := ltac:(derive_setter eta_request uri_changes).
#[export] Instance set_add_uri_to_alias : Setter add_uri_to_alias := ltac:(derive_setter eta_request add_uri_to_alias).
#[export] Instance set_loc_conf : Setter loc_conf := ltac:(derive_setter eta_request loc_conf).
#[export] Instance set_phase_handler : Setter phase_handler := ltac:(derive_setter eta_request phase_handler).
#[export] Instance set_content_handler : Setter content_handler := ltac:(derive_setter eta_request content_handler).
#[export] Instance set_access_code : Setter access_code := ltac:(derive_setter eta_request access_code).
#[export] Instance set_write_event_handler : Setter write_event_handler := ltac:(derive_setter eta_request write_event_handler).
#[export] Instance set_keepalive : Setter keepalive := ltac:(derive_setter eta_request keepalive).
#[export] Instance set_lingering_close : Setter lingering_close := ltac:(derive_setter eta_request lingering_close).
#[export] Instance set_discard_body : Setter discard_body := ltac:(derive_setter eta_request discard_body).
#[export] Instance set_expect_tested : Setter expect_tested := ltac:(derive_setter eta_request expect_tested).
#[export] Instance set_limit_rate : Setter limit_rate := ltac:(derive_setter eta_request limit_rate).
#[export] Instance set_request_body_in_file_only : Setter request_body_in_file_only := ltac:(derive_setter eta_request request_body_in_file_only).
#[export] Instance set_request_body_in_persistent_file : Setter request_body_in_persistent_file := ltac:(derive_setter eta_request request_body_in_persistent_file).
#[export] Instance set_request_body_in_clean_file : Setter request_body_in_clean_file := ltac:(derive_setter eta_request request_body_in_clean_file).
#[export] Instance set_request_body_in_single_buf : Setter request_body_in_single_buf := ltac:(derive_setter eta_request request_body_in_single_buf).
#[export] Instance set_request_body_file_log_level : Setter request_body_file_log_level := ltac:(derive_setter eta_request request_body_file_log_level).
#[export] Instance set_requests : Setter requests := ltac:(derive_setter eta_request requests).
#[export] Instance set_conn_log : Setter conn_log := ltac:(derive_setter eta_request conn_log).
#[export] Instance set_sendfile : Setter sendfile := ltac:(derive_setter eta_request sendfile).
#[export] Instance set_tcp_nopush_disabled : Setter tcp_nopush_disabled := ltac:(derive_setter eta_request tcp_nopush_disabled).
#[export] Instance set_variables : Setter variables := ltac:(derive_setter eta_request variables).
#[export] Instance set_captures : Setter captures := ltac:(derive_setter eta_request captures).
#[export] Instance set_ncaptures : Setter ncaptures := ltac:(derive_setter eta_request ncaptures).
#[export] Instance set_captures_data : Setter captures_data := ltac:(derive_setter eta_request captures_data).

(** A request with nothing in it but these, for the examples. *)
Definition blank_request (u : list Z) (vars : nat) (plus : bool) (caps : list Z) : ngx_http_request :=
  Request true 1 2 1001 [] [] 0 (-1) false false false None [] None None u [] [] false plus false true true false 11
    false 0 0 None 0 (other_handler 0) true false false false 0 false false false false 4 0 0 false false
    (repeat (Value [] false false false) vars) (Some caps) (Z.of_nat (length caps)) u.

End HttpRequest.
