(* ===== verification/Variables.v ===== *)
(** * Variables

    From [ngx_http_variables.c]: the table of indexed variables that the
    configuration fills ([ngx_http_get_variable_index],
    [ngx_http_add_variable], [ngx_http_variables_init_vars]), their values in a
    request ([ngx_http_get_indexed_variable], [ngx_http_get_flushed_variable]),
    the handlers that look into headers, cookies and arguments, and
    [ngx_http_regex_exec], which fills the variables of named captures.  A
    pointer [&r->variables[i]] is the index [i]. *)

From S2P Require Import Prelude UriUtil HttpRequest.
Import HttpRequest.HttpRequest.

Module Variables.

(** ** The handlers of the source

    Each works on a cell [v] of the request [r]; [data] is the name of the
    variable, as [v[i].data = &v[i].name] says. *)

(** The bytes of a header name as they are compared with a variable name. *)
Definition name_byte (ch : Z) : Z :=
  if is_upper ch then lc ch else if ch =? "-"%c then "_"%c else ch.

(** The inner [for]: [var] is the name after its prefix. *)
Fixpoint same_name (var key : list Z) : bool :=
  match var, key with
  | [], [] => true
  | x :: var, ch :: key => (x =? name_byte ch) && same_name var key
  | _, _ => false
  end.

Fixpoint find_header (var : list Z) (headers : list ngx_table_elt) : option ngx_table_elt :=
  match headers with
  | [] => None
  | h :: headers => if negb (hash h =? 0) && same_name var (key h) then Some h else find_header var headers
  end.

Definition set_found (bytes : list Z) (v : ngx_http_variable_value) : ngx_http_variable_value :=
  v <| data := len28 bytes |> <| valid := true |> <| no_cacheable := false |> <| not_found := false |>.

Definition ngx_http_variable_unknown_header (v : ngx_http_variable_value) (var : list Z)
    (part : list ngx_table_elt) (prefix : nat) : ngx_rc * ngx_http_variable_value :=
  match (if (prefix <=? length var)%nat then find_header (drop prefix var) part else None) with
  | Some h => (NGX_OK, set_found (value h) v)
  | None => (NGX_OK, v <| not_found := true |>)
  end.

Definition ngx_http_variable_unknown_header_in (r : ngx_http_request) (v : ngx_http_variable_value) (name : list Z) :=
  ngx_http_variable_unknown_header v name (headers_in r) 5.
Definition ngx_http_variable_unknown_header_out (r : ngx_http_request) (v : ngx_http_variable_value) (name : list Z) :=
  ngx_http_variable_unknown_header v name (headers_out r) 10.
Definition ngx_http_upstream_header_variable (r : ngx_http_request) (v : ngx_http_variable_value) (name : list Z)
    : ngx_rc * ngx_http_variable_value :=
  match upstream_headers r with
  | None => (NGX_OK, v <| not_found := true |>)
  | Some hs => ngx_http_variable_unknown_header v name hs 14
  end.

(** [ngx_http_variable_headers_internal]: [a] is the array of headers. *)
Definition headers_len (a : list ngx_table_elt) : Z :=
  foldr (fun h n => (if hash h =? 0 then 0 else Z.of_nat (length (value h)) + 2) + n) 0 a.

(** The second [for], which has no test of its own: [written] is the text up to
    [p], [None] a read past the array. *)
Fixpoint join_loop (sep len : Z) (a : list ngx_table_elt) (written : list Z) : option (list Z) :=
  match a with
  | [] => None
  | h :: a =>
      if hash h =? 0 then join_loop sep len a written
      else
        let written := written ++ value h in
        if Z.of_nat (length written) =? len then Some written
        else join_loop sep len a (written ++ [sep; " "%c])
  end.

Definition ngx_http_variable_headers_internal (pnalloc : Z -> bool) (a : list ngx_table_elt) (sep : Z)
    (v : ngx_http_variable_value) : option (ngx_rc * ngx_http_variable_value) :=
  let len := headers_len a in
  if len =? 0 then Some (NGX_OK, v <| not_found := true |>)
  else
    let len := len - 2 in
    let v := v <| valid := true |> <| no_cacheable := false |> <| not_found := false |> in
    match a with
    | [h] => Some (NGX_OK, v <| data := len28 (value h) |>)
    | _ =>
        if pnalloc len then
          option_map (fun w => (NGX_OK, v <| data := len28 w |>)) (join_loop sep len a [])
        else Some (NGX_ERROR, v)
    end.

(** What the handlers of cookies and arguments look up ([UriUtil]): a header
    with the name, and the value of an argument. *)
Class Lookups := {
  lookup_cookie : list ngx_table_elt -> list Z -> option (list Z);
  lookup_argument : list Z -> list Z -> option (list Z);
}.

Section Handlers.
Context `{Lookups}.

Definition ngx_http_variable_cookie (r : ngx_http_request) (v : ngx_http_variable_value) (name : list Z)
    : ngx_rc * ngx_http_variable_value :=
  match lookup_cookie (cookies r) (drop 7 name) with
  | None => (NGX_OK, v <| not_found := true |>)
  | Some s => (NGX_OK, set_found s v)
  end.

Definition ngx_http_variable_argument (r : ngx_http_request) (v : ngx_http_variable_value) (name : list Z)
    : ngx_rc * ngx_http_variable_value :=
  match lookup_argument (args r) (drop 4 name) with
  | None => (NGX_OK, v <| not_found := true |>)
  | Some s => (NGX_OK, set_found s v)
  end.
End Handlers.

(** ** The table of variables *)

(** A [get_handler] with its [data]. *)
Inductive getter :=
| unknown_header_in (name : list Z)
| unknown_header_out (name : list Z)
| upstream_header (name : list Z)
| cookie (name : list Z)
| argument (name : list Z)
| variable_not_found
| module_getter (handler : nat) (data : Z).

Definition NGX_HTTP_VAR_CHANGEABLE : Z := 1.
Definition NGX_HTTP_VAR_NOCACHEABLE : Z := 2.
Definition NGX_HTTP_VAR_INDEXED : Z := 4.
Definition NGX_HTTP_VAR_NOHASH : Z := 8.

(** [ngx_http_variable_t]; the [set_handler]s are of the rewrite module. *)
Record ngx_http_variable := Variable_ {
  name : list Z;
  get_handler : option getter;
  flags : Z;
  index : nat;
}.

Definition eta_variable (v : ngx_http_variable) : ngx_http_variable :=
  Variable_ (name v) (get_handler v) (flags v) (index v).
#[export] Instance set_get_handler : Setter get_handler := ltac:(derive_setter eta_variable get_handler).
#[export] Instance set_flags : Setter flags := ltac:(derive_setter eta_variable flags).
#[export] Instance set_index : Setter index := ltac:(derive_setter eta_variable index).

Definition has_flag (v : ngx_http_variable) (f : Z) : bool := negb (Z.land (flags v) f =? 0).

(** The variables of [ngx_http_core_main_conf_t]: [variables_keys] are the
    names with their variables, [conf_variables] the indexed ones. *)
Record main_conf := MainConf {
  conf_variables : list ngx_http_variable;
  variables_keys : list (list Z * ngx_http_variable);
  conf_ncaptures : Z;
}.

Definition eta_conf (c : main_conf) : main_conf := MainConf (conf_variables c) (variables_keys c) (conf_ncaptures c).
#[export] Instance set_conf_variables : Setter conf_variables := ltac:(derive_setter eta_conf conf_variables).
#[export] Instance set_variables_keys : Setter variables_keys := ltac:(derive_setter eta_conf variables_keys).
#[export] Instance set_conf_ncaptures : Setter conf_ncaptures := ltac:(derive_setter eta_conf conf_ncaptures).

(** What a function of the configuration asks the pool for. *)
Inductive allocation := ForVariables | ForVariable | ForName (n : nat) | ForRegex | ForRegexVariables (n : nat).

Section Configuration.
Variable alloc : allocation -> bool.
(** [ngx_strncasecmp (s1, s2, n) == 0] and [ngx_strlow]. *)
Variable ngx_strncasecmp : list Z -> list Z -> Z -> Z.
Variable ngx_strlow : list Z -> list Z.
(** [ngx_hash_add_key]: with no flags and [NGX_OK] the key goes to the end of
    the array, lower-cased. *)
Variable ngx_hash_add_key : list (list Z * ngx_http_variable) -> list Z -> ngx_rc.

Definition same_variable (name other : list Z) : bool :=
  (length name =? length other)%nat && (ngx_strncasecmp name other (Z.of_nat (length name)) =? 0).

(** The first index whose name matches. *)
Fixpoint find_name (name : list Z) (names : list (list Z)) (i : nat) : option nat :=
  match names with
  | [] => None
  | n :: names => if same_variable name n then Some i else find_name name names (S i)
  end.

(** [None] for NULL; the result is the place of the variable in [variables_keys]. *)
Definition ngx_http_add_variable (name : list Z) (flags : Z) (cmcf : main_conf) : option (nat * main_conf) :=
  match name with
  | [] => None
  | _ =>
      match find_name name (map fst (variables_keys cmcf)) 0 with
      | Some i =>
          match variables_keys cmcf !! i with
          | Some (_, v) => if has_flag v NGX_HTTP_VAR_CHANGEABLE then Some (i, cmcf) else None
          | None => None
          end
      | None =>
          if alloc ForVariable && alloc (ForName (length name)) then
            let v := Variable_ (ngx_strlow name) None flags 0 in
            match ngx_hash_add_key (variables_keys cmcf) (ngx_strlow name) with
            | NGX_ERROR | NGX_BUSY => None
            | _ => Some (length (variables_keys cmcf),
                         cmcf <| variables_keys := variables_keys cmcf ++ [(ngx_strlow name, v)] |>)
            end
          else None
      end
  end.

(** [None] for [NGX_ERROR]. *)
Definition ngx_http_get_variable_index (name : list Z) (cmcf : main_conf) : option (nat * main_conf) :=
  match name with
  | [] => None
  | _ =>
      match find_name name (map Variables.name (conf_variables cmcf)) 0 with
      | Some i => Some (i, cmcf)
      | None =>
          if alloc ForVariables && alloc (ForName (length name)) then
            let i := length (conf_variables cmcf) in
            Some (i, cmcf <| conf_variables := conf_variables cmcf ++ [Variable_ (ngx_strlow name) None 0 i] |>)
          else None
      end
  end.

(** [ngx_strncmp (name, "...", n) == 0]; a name shorter than the prefix is taken
    to differ from it (the source compares the bytes after it). *)
Definition has_prefix (p name : list Z) : bool := bool_decide (take (length p) name = p).

(** The inner loop of [ngx_http_variables_init_vars]: the first key with the
    name and a handler. *)
Fixpoint find_key (name : list Z) (keys : list (list Z * ngx_http_variable)) (n : nat) : option nat :=
  match keys with
  | [] => None
  | (k, av) :: keys =>
      if (match get_handler av with Some _ => true | None => false end) && bool_decide (name = k)
      then Some n else find_key name keys (S n)
  end.

Definition init_var (i : nat) (v : ngx_http_variable) (keys : list (list Z * ngx_http_variable))
    : option (ngx_http_variable * list (list Z * ngx_http_variable)) :=
  match find_key (name v) keys 0 with
  | Some n =>
      match keys !! n with
      | Some (k, av) =>
          let f := Z.lor (flags av) NGX_HTTP_VAR_INDEXED in
          Some (v <| get_handler := get_handler av |> <| flags := f |>,
                <[n := (k, av <| flags := f |> <| index := i |>)]> keys)
      | None => None
      end
  | None =>
      if has_prefix (bytes_of "http_") (name v) then
        Some (v <| get_handler := Some (unknown_header_in (name v)) |>, keys)
      else if has_prefix (bytes_of "sent_http_") (name v) then
        Some (v <| get_handler := Some (unknown_header_out (name v)) |>, keys)
      else if has_prefix (bytes_of "upstream_http_") (name v) then
        Some (v <| get_handler := Some (upstream_header (name v)) |> <| flags := NGX_HTTP_VAR_NOCACHEABLE |>, keys)
      else if has_prefix (bytes_of "cookie_") (name v) then
        Some (v <| get_handler := Some (cookie (name v)) |>, keys)
      else if has_prefix (bytes_of "arg_") (name v) then
        Some (v <| get_handler := Some (argument (name v)) |> <| flags := NGX_HTTP_VAR_NOCACHEABLE |>, keys)
      else None
  end.

Fixpoint init_vars (i : nat) (vs : list ngx_http_variable) (keys : list (list Z * ngx_http_variable))
    : option (list ngx_http_variable * list (list Z * ngx_http_variable)) :=
  match vs with
  | [] => Some ([], keys)
  | v :: vs =>
      match init_var i v keys with
      | None => None
      | Some (v, keys) =>
          match init_vars (S i) vs keys with
          | None => None
          | Some (vs, keys) => Some (v :: vs, keys)
          end
      end
  end.

(** [ngx_hash_init] over the keys that are not [NGX_HTTP_VAR_NOHASH]. *)
Variable ngx_hash_init : list (list Z * ngx_http_variable) -> bool.

Definition ngx_http_variables_init_vars (cmcf : main_conf) : option main_conf :=
  match init_vars 0 (conf_variables cmcf) (variables_keys cmcf) with
  | None => None
  | Some (vs, keys) =>
      let hashed := filter (fun kv => has_flag kv.2 NGX_HTTP_VAR_NOHASH = false) keys in
      if ngx_hash_init hashed then Some (cmcf <| conf_variables := vs |> <| variables_keys := [] |>) else None
  end.

(** [ngx_http_regex_t]: a capture and the index of its variable. *)
Record ngx_http_regex := Regex { regex : nat; re_ncaptures : Z; re_variables : list (nat * nat); re_name : list Z }.

(** The name table of PCRE, [size] bytes per entry: a number and a C string. *)
Definition capture_at (p : list Z) : nat := Z.to_nat (2 * (Z.shiftl (rd p 0) 8 + rd p 1)).
Fixpoint c_string (p : list Z) : list Z :=
  match p with
  | [] => []
  | c :: p => if c =? NUL then [] else c :: c_string p
  end.

Fixpoint regex_variables (n size : nat) (p : list Z) (cmcf : main_conf) : option (list (nat * nat) * main_conf) :=
  match n with
  | O => Some ([], cmcf)
  | S n =>
      let name := c_string (drop 2 p) in
      match ngx_http_add_variable name NGX_HTTP_VAR_CHANGEABLE cmcf with
      | None => None
      | Some (v, cmcf) =>
          match ngx_http_get_variable_index name cmcf with
          | None => None
          | Some (i, cmcf) =>
              let cmcf := cmcf <| variables_keys :=
                alter (fun kv => (kv.1, kv.2 <| get_handler := Some variable_not_found |>)) v (variables_keys cmcf) |> in
              match regex_variables n size (drop size p) cmcf with
              | None => None
              | Some (rv, cmcf) => Some ((capture_at p, i) :: rv, cmcf)
              end
          end
      end
  end.

(** [ngx_regex_compile]: the regex, its captures, and its table of [n] names. *)
Variable ngx_regex_compile : list Z -> option (nat * Z * nat * nat * list Z).

Definition ngx_http_regex_compile (pattern : list Z) (cmcf : main_conf) : option (ngx_http_regex * main_conf) :=
  match ngx_regex_compile pattern with
  | None => None
  | Some (re, ncap, n, size, names) =>
      if alloc ForRegex then
        let cmcf := cmcf <| conf_ncaptures := Z.max (conf_ncaptures cmcf) ncap |> in
        if (n =? 0)%nat then Some (Regex re ncap [] pattern, cmcf)
        else if alloc (ForRegexVariables n) then
          match regex_variables n size names cmcf with
          | None => None
          | Some (rv, cmcf) => Some (Regex re ncap rv pattern, cmcf)
          end
        else None
      else None
  end.
End Configuration.

(** ** The values of a request *)

Definition value_at (r : ngx_http_request) (i : nat) : ngx_http_variable_value :=
  nth i (variables r) (Value [] false false false).
Definition set_value (i : nat) (v : ngx_http_variable_value) (r : ngx_http_request) : ngx_http_request :=
  r <| variables := <[i := v]> (variables r) |>.

Section Evaluation.
Context `{Lookups}.
Variable cmcf : main_conf.
(** The handler of a module on the cell [i]. *)
Variable module_handler : nat -> Z -> nat -> ngx_http_request -> ngx_rc * ngx_http_request.

(** A handler of this file writes its cell and nothing else. *)
Definition on_cell (i : nat) (r : ngx_http_request)
    (f : ngx_http_request -> ngx_http_variable_value -> ngx_rc * ngx_http_variable_value) : ngx_rc * ngx_http_request :=
  let (rc, v) := f r (value_at r i) in (rc, set_value i v r).

Definition call_get_handler (g : getter) (i : nat) (r : ngx_http_request) : ngx_rc * ngx_http_request :=
  match g with
  | unknown_header_in name => on_cell i r (fun r v => ngx_http_variable_unknown_header_in r v name)
  | unknown_header_out name => on_cell i r (fun r v => ngx_http_variable_unknown_header_out r v name)
  | upstream_header name => on_cell i r (fun r v => ngx_http_upstream_header_variable r v name)
  | cookie name => on_cell i r (fun r v => ngx_http_variable_cookie r v name)
  | argument name => on_cell i r (fun r v => ngx_http_variable_argument r v name)
  | variable_not_found => on_cell i r (fun _ v => (NGX_OK, v <| not_found := true |>))
  | module_getter h data => module_handler h data i r
  end.

(** The value, [Some None] for NULL, [None] for a call of a handler that is not
    set. *)
Definition ngx_http_get_indexed_variable (i : nat) (r : ngx_http_request)
    : option (option ngx_http_variable_value * ngx_http_request) :=
  match conf_variables cmcf !! i with
  | None => Some (None, r)
  | Some cv =>
      let v := value_at r i in
      if not_found v || valid v then Some (Some v, r)
      else
        match get_handler cv with
        | None => None
        | Some g =>
            match call_get_handler g i r with
            | (NGX_OK, r) =>
                let v := value_at r i in
                let v := if has_flag cv NGX_HTTP_VAR_NOCACHEABLE then v <| no_cacheable := true |> else v in
                Some (Some v, set_value i v r)
            | (_, r) => Some (None, set_value i ((value_at r i) <| valid := false |> <| not_found := true |>) r)
            end
        end
  end.

Definition flush (v : ngx_http_variable_value) : ngx_http_variable_value :=
  if no_cacheable v then v <| valid := false |> <| not_found := false |> else v.

Definition ngx_http_get_flushed_variable (i : nat) (r : ngx_http_request)
    : option (option ngx_http_variable_value * ngx_http_request) :=
  let v := value_at r i in
  if (valid v || not_found v) && negb (no_cacheable v) then Some (Some v, r)
  else ngx_http_get_indexed_variable i (if valid v || not_found v then set_value i (flush v) r else r).

(** [ngx_regex_exec (re, s, captures, len)]: its result and the vector after
    it; [None] is NULL. *)
Variable ngx_regex_exec : nat -> list Z -> option (list Z) -> Z -> Z * option (list Z).
Variable alloc_captures : bool.

Definition NGX_REGEX_NO_MATCHED : Z := -1.

Definition capture (r : ngx_http_request) (n : nat) : Z := nth n (default [] (captures r)) 0.

Definition set_named (s : list Z) (r : ngx_http_request) (ni : nat * nat) : ngx_http_request :=
  let (n, i) := ni in
  set_value i (set_found (slice s (capture r n) (capture r (n + 1))) (value_at r i)) r.

Definition ngx_http_regex_exec (re : ngx_http_regex) (s : list Z) (r : ngx_http_request) : ngx_rc * ngx_http_request :=
  let with_captures := negb (re_ncaptures re =? 0) in
  let unset := match captures r with None => true | Some _ => false end in
  if with_captures && unset && negb alloc_captures then (NGX_ERROR, r)
  else
    let r := if with_captures && unset then r <| captures := Some [] |> else r in
    let (rc, caps) := ngx_regex_exec (regex re) s (captures r) (if with_captures then conf_ncaptures cmcf else 0) in
    let r := r <| captures := caps |> in
    if rc =? NGX_REGEX_NO_MATCHED then (NGX_DECLINED, r)
    else if rc <? 0 then (NGX_ERROR, r)
    else
      let r := fold_left (set_named s) (re_variables re) r in
      (NGX_OK, r <| ncaptures := rc * 2 |> <| captures_data := s |>).

(** [ngx_http_map_find]: the combined hash of a map and its regexes. *)
Variable ngx_hash_find_combined : list Z -> option Z.
Variable ngx_strlow : list Z -> list Z.
Variable pnalloc : Z -> bool.

Fixpoint map_regexes (regs : list (ngx_http_regex * Z)) (s : list Z) (r : ngx_http_request)
    : option Z * ngx_http_request :=
  match regs with
  | [] => (None, r)
  | (re, v) :: regs =>
      match ngx_http_regex_exec re s r with
      | (NGX_OK, r) => (Some v, r)
      | (NGX_DECLINED, r) => map_regexes regs s r
      | (_, r) => (None, r)
      end
  end.

Definition ngx_http_map_find (regs : list (ngx_http_regex * Z)) (s : list Z) (r : ngx_http_request)
    : option Z * ngx_http_request :=
  if negb (length s =? 0)%nat && negb (pnalloc (Z.of_nat (length s))) then (None, r)
  else
    match ngx_hash_find_combined (ngx_strlow s) with
    | Some v => (Some v, r)
    | None => if (length s =? 0)%nat then (None, r) else map_regexes regs s r
    end.
End Evaluation.

End Variables.
