(* ===== verification/VariablesFacts.v ===== *)
(** * Variables: the table, the handlers and the values

    [table_ok] is the invariant of the indexed variables; [keeps] is what an
    evaluation leaves alone; [get_indexed_spec] is what the script engine is
    promised by [ngx_http_get_indexed_variable]. *)

From S2P Require Import Prelude HttpRequest Variables.
Import HttpRequest.HttpRequest Variables.Variables.

Module VariablesFacts.

(** ** Text of the nginx core *)

Definition no_nul (s : list Z) : Prop := Forall (fun c => c <> NUL) s.
Definition strncasecmp_spec (f : list Z -> list Z -> Z -> Z) : Prop :=
  forall a b, no_nul a -> no_nul b -> length a = length b ->
    f a b (Z.of_nat (length a)) = 0 <-> map tolower a = map tolower b.
Definition strlow_spec (f : list Z -> list Z) : Prop := forall s, f s = map tolower s.

Lemma tolower_idem c : tolower (tolower c) = tolower c.
Proof.
  unfold tolower at 2 3. destruct (is_upper c) eqn:E; [|unfold tolower; by rewrite E].
  unfold is_upper in E. b2p. unfold tolower.
  assert (Hl : lc c = c + 32).
  { unfold lc. rewrite (Z.lor_comm c 32).
    assert (Hc : 65 <= c <= 90) by lia. clear -Hc.
    assert (Hn : exists n : nat, (n < 26)%nat /\ c = 65 + Z.of_nat n) by (exists (Z.to_nat (c - 65)); lia).
    destruct Hn as (n & Hn & ->). do 26 (destruct n as [|n]; [reflexivity|]). lia. }
  rewrite Hl. unfold is_upper. destruct (Z.leb_spec "A"%c (c + 32)), (Z.leb_spec (c + 32) "Z"%c); cbn; [lia|done..].
Qed.

Lemma lower_idem s : map tolower (map tolower s) = map tolower s.
Proof. rewrite map_map. apply map_ext. intros. apply tolower_idem. Qed.

Lemma tolower_nul c : c <> NUL -> tolower c <> NUL.
Proof.
  intros Hc. unfold tolower. destruct (is_upper c); [|done].
  unfold lc. intros H. apply Z.lor_eq_0_iff in H as [_ H]. lia.
Qed.

Lemma no_nul_lower s : no_nul s -> no_nul (map tolower s).
Proof. intros H. apply List.Forall_map. eapply Forall_impl; [|exact H]. intros. by apply tolower_nul. Qed.

(** ** The table *)

Definition names (c : main_conf) : list (list Z) := map name (conf_variables c).

(** Lower-case names without duplicates, each with its place as its index. *)
Record table_ok (c : main_conf) : Prop := TableOk {
  table_nodup : NoDup (names c);
  table_lower : Forall (fun n => no_nul n /\ n <> [] /\ map tolower n = n) (names c);
  table_index : forall i v, conf_variables c !! i = Some v -> index v = i;
}.

Section Table.
Context (alloc : allocation -> bool) (ngx_strncasecmp : list Z -> list Z -> Z -> Z) (ngx_strlow : list Z -> list Z).
Hypothesis strncasecmp_ok : strncasecmp_spec ngx_strncasecmp.
Hypothesis strlow_ok : strlow_spec ngx_strlow.

Abbreviation find_name := (find_name ngx_strncasecmp).
Abbreviation get_index := (ngx_http_get_variable_index alloc ngx_strncasecmp ngx_strlow).

Lemma same_variable_lower n m : no_nul n -> no_nul m -> map tolower m = m ->
  same_variable ngx_strncasecmp n m = bool_decide (map tolower n = m).
Proof.
  intros Hn Hm Hl. unfold same_variable. destruct (Nat.eqb_spec (length n) (length m)) as [E|E]; cbn [andb].
  - pose proof (strncasecmp_ok n m Hn Hm E) as H. rewrite Hl in H.
    destruct (Z.eqb_spec (ngx_strncasecmp n m (Z.of_nat (length n))) 0) as [E'|E'];
      [rewrite bool_decide_true by tauto|rewrite bool_decide_false by tauto]; done.
  - rewrite bool_decide_false; [done|]. intros <-. by rewrite length_map in E.
Qed.

Lemma find_name_spec n ns k : no_nul n -> Forall (fun m => no_nul m /\ m <> [] /\ map tolower m = m) ns ->
  match find_name n ns k with
  | Some i => exists j, i = (k + j)%nat /\ ns !! j = Some (map tolower n)
  | None => map tolower n ∉ ns
  end.
Proof.
  intros Hn. revert k. induction ns as [|m ns IH]; intros k Hns; cbn [Variables.find_name]; [apply not_elem_of_nil|].
  apply Forall_cons_iff in Hns as ((Hm & _ & Hl) & Hns). rewrite same_variable_lower by done.
  case_bool_decide as E.
  - exists 0%nat. split; [lia|]. cbn. by rewrite E.
  - specialize (IH (S k) Hns). destruct (find_name n ns (S k)) as [i|].
    + destruct IH as (j & -> & Hj). exists (S j). split; [lia|done].
    + apply not_elem_of_cons. split; [done|exact IH].
Qed.

(** What asking for an index does. *)
Lemma get_index_spec n c i c' : table_ok c -> no_nul n -> get_index n c = Some (i, c') ->
  table_ok c' /\ names c' !! i = Some (map tolower n) /\ (exists more, names c' = names c ++ more)
  /\ variables_keys c' = variables_keys c.
Proof.
  intros [Hd Hl Hi] Hn H. unfold ngx_http_get_variable_index in H. destruct n as [|a n']; [done|].
  remember (a :: n') as n eqn:En.
  pose proof (find_name_spec n (names c) 0 Hn Hl) as Hf. fold (names c) in H.
  destruct (find_name n (names c) 0) as [j|].
  - injection H as <- <-. destruct Hf as (k & -> & Hk). split_and!; [by split|done| |done].
    exists []. by rewrite app_nil_r.
  - destruct (alloc ForVariables && alloc (ForName (length n))); [|done]. injection H as <- <-.
    assert (Hnew : names (c <| conf_variables := conf_variables c ++
                      [Variable_ (ngx_strlow n) None 0 (length (conf_variables c))] |>) = names c ++ [map tolower n]).
    { unfold names. cbn. rewrite map_app. cbn. by rewrite strlow_ok. }
    split_and!; [split| | |done]; rewrite ?Hnew.
    + apply list.NoDup_app. split_and!; [done| |apply NoDup_singleton].
      intros x Hx Hx'. apply list_elem_of_singleton in Hx' as ->. done.
    + apply Forall_app. split; [done|]. apply Forall_singleton. split_and!; [by apply no_nul_lower| |apply lower_idem].
      subst n. done.
    + intros k v Hv. cbn in Hv. apply lookup_app_Some in Hv as [Hv|(Hge & Hv)]; [by apply Hi|].
      destruct (k - length (conf_variables c))%nat as [|m] eqn:Ek; cbn in Hv; [|done].
      injection Hv as <-. cbn. lia.
    + rewrite lookup_app_r by (unfold names; rewrite length_map; lia).
      unfold names. rewrite length_map, Nat.sub_diag. done.
    + by exists [map tolower n].
Qed.

Lemma get_index_total n c : n <> [] -> (forall a, alloc a = true) -> exists i c', get_index n c = Some (i, c').
Proof.
  intros Hn Ha. unfold ngx_http_get_variable_index. destruct n as [|a n]; [done|].
  destruct (find_name _ _ _); [eauto|]. rewrite !Ha. cbn. eauto.
Qed.
End Table.

(** ** [ngx_http_variables_init_vars] *)

Lemma find_key_some nm ks k n : find_key nm ks k = Some n ->
  exists j kv, n = (k + j)%nat /\ ks !! j = Some kv /\ get_handler kv.2 <> None /\ nm = kv.1.
Proof.
  revert k. induction ks as [|[key av] ks IH]; intros k H; [done|]. cbn [find_key] in H.
  destruct (get_handler av) as [g|] eqn:Eh; cbn [andb] in H.
  - case_bool_decide as En.
    + injection H as <-. exists O, (key, av). cbn. split_and!; [lia|done|congruence|done].
    + apply IH in H as (j & kv & -> & Hj & Hh). exists (S j), kv. split; [lia|done].
  - apply IH in H as (j & kv & -> & Hj & Hh). exists (S j), kv. split; [lia|done].
Qed.

Lemma init_var_handler i v keys v' keys' : init_var i v keys = Some (v', keys') ->
  name v' = name v /\ index v' = index v /\ get_handler v' <> None.
Proof.
  unfold init_var. destruct (find_key (name v) keys 0) as [n|] eqn:E.
  - apply find_key_some in E as (j & [k av] & -> & Hj & Hh & _). cbn [Nat.add]. rewrite Hj.
    intros [= <- <-]. done.
  - repeat match goal with |- context [if ?b then _ else _] => destruct b end; by intros [= <- <-].
Qed.

Lemma init_vars_handlers i vs keys vs' keys' : init_vars i vs keys = Some (vs', keys') ->
  map name vs' = map name vs /\ map index vs' = map index vs /\ Forall (fun v => get_handler v <> None) vs'.
Proof.
  revert i keys vs' keys'. induction vs as [|v vs IH]; intros i keys vs' keys' H; cbn in H.
  - by injection H as <- <-.
  - destruct (init_var i v keys) as [[v1 k1]|] eqn:E1; [|done].
    destruct (init_vars (S i) vs k1) as [[vs1 k2]|] eqn:E2; [|done]. injection H as <- <-.
    apply init_var_handler in E1 as (? & ? & ?). apply IH in E2 as (? & ? & ?).
    cbn. split_and!; [congruence..|]. by constructor.
Qed.

(** Every indexed variable of a running server has a handler. *)
Definition handlers_set (c : main_conf) : Prop := Forall (fun v => get_handler v <> None) (conf_variables c).

Lemma init_vars_ok hash_init c c' : ngx_http_variables_init_vars hash_init c = Some c' ->
  names c' = names c /\ handlers_set c'.
Proof.
  unfold ngx_http_variables_init_vars. destruct (init_vars _ _ _) as [[vs keys]|] eqn:E; [|done].
  destruct (hash_init _); [|done]. intros [= <-]. apply init_vars_handlers in E as (? & ? & ?). done.
Qed.

(** ** Cells *)

Definition evaluated (v : ngx_http_variable_value) : Prop := valid v = true \/ not_found v = true.

Lemma evaluated_test v : not_found v || valid v = true <-> evaluated v.
Proof. unfold evaluated. rewrite orb_true_iff. tauto. Qed.

Lemma value_at_set_eq i v r : (i < length (variables r))%nat -> value_at (set_value i v r) i = v.
Proof. intros H. unfold value_at, set_value. cbn. rewrite nth_lookup, list_lookup_insert_eq by done. done. Qed.

Lemma value_at_set_ne i j v r : i <> j -> value_at (set_value i v r) j = value_at r j.
Proof. intros H. unfold value_at, set_value. cbn. by rewrite !nth_lookup, list_lookup_insert_ne. Qed.

Lemma length_set i v r : length (variables (set_value i v r)) = length (variables r).
Proof. unfold set_value. cbn. apply length_insert. Qed.

(** What an evaluation leaves alone: the values there are, and the captures. *)
Record keeps (r r' : ngx_http_request) : Prop := Keeps {
  keeps_values : forall j, evaluated (value_at r j) -> value_at r' j = value_at r j;
  keeps_length : length (variables r') = length (variables r);
  keeps_captures : captures r' = captures r;
  keeps_ncaptures : ncaptures r' = ncaptures r;
  keeps_captures_data : captures_data r' = captures_data r;
  keeps_quoted : quoted_uri r' = quoted_uri r;
  keeps_plus : plus_in_uri r' = plus_in_uri r;
}.

#[export] Instance keeps_preorder : PreOrder keeps.
Proof.
  split; [by intros r; split|]. intros r1 r2 r3 [] []. split; try congruence.
  intros j Hj. rewrite <- keeps_values0 by done. apply keeps_values1. by rewrite keeps_values0.
Qed.

Lemma keeps_set i v r : ~ evaluated (value_at r i) -> keeps r (set_value i v r).
Proof.
  intros Hi. split; try done; [|apply length_set]. intros j Hj.
  apply value_at_set_ne. by intros ->.
Qed.

(** ** Handlers *)

(** What the handlers of modules have to do: fill their cell, and leave alone
    what [keeps] says, whatever else they do to the request. *)
Definition handlers_ok (module_handler : nat -> Z -> nat -> ngx_http_request -> ngx_rc * ngx_http_request) : Prop :=
  forall h d i r rc r', (i < length (variables r))%nat -> ~ evaluated (value_at r i) ->
    module_handler h d i r = (rc, r') -> keeps r r' /\ (rc = NGX_OK -> evaluated (value_at r' i)).

Lemma evaluated_found s v : evaluated (set_found s v).
Proof. by left. Qed.
#[export] Hint Resolve evaluated_found : http.

Lemma unknown_header_value v name part n rc v' :
  ngx_http_variable_unknown_header v name part n = (rc, v') -> evaluated v'.
Proof.
  unfold ngx_http_variable_unknown_header. case_match; intros [= _ <-]; [by left|by right].
Qed.

Section Get.
Context `{Lookups} (cmcf : main_conf).
Context (module_handler : nat -> Z -> nat -> ngx_http_request -> ngx_rc * ngx_http_request).
Hypothesis module_ok : handlers_ok module_handler.
Hypothesis set_ok : handlers_set cmcf.

Abbreviation call := (call_get_handler module_handler).
Abbreviation get_indexed := (ngx_http_get_indexed_variable cmcf module_handler).

Lemma on_cell_ok i r f rc r' : (i < length (variables r))%nat -> ~ evaluated (value_at r i) ->
  (forall rc v, f r (value_at r i) = (rc, v) -> evaluated v) ->
  on_cell i r f = (rc, r') -> keeps r r' /\ (rc = NGX_OK -> evaluated (value_at r' i)).
Proof.
  intros Hi He Hf. unfold on_cell. destruct (f r (value_at r i)) as [rc0 v] eqn:E. intros [= <- <-].
  split; [by apply keeps_set|]. intros _. rewrite value_at_set_eq by done. eauto.
Qed.

Lemma call_ok g i r rc r' : (i < length (variables r))%nat -> ~ evaluated (value_at r i) ->
  call g i r = (rc, r') -> keeps r r' /\ (rc = NGX_OK -> evaluated (value_at r' i)).
Proof.
  intros Hi He. destruct g as [n|n|n|n|n| |h d]; cbn [call_get_handler]; [..|by eapply module_ok];
    (apply on_cell_ok; [done..|]; intros rc0 v0).
  - apply unknown_header_value.
  - apply unknown_header_value.
  - unfold ngx_http_upstream_header_variable. destruct (upstream_headers r); [apply unknown_header_value|].
    intros [= _ <-]. by right.
  - unfold ngx_http_variable_cookie. destruct (lookup_cookie _ _); intros [= _ <-]; [by left|by right].
  - unfold ngx_http_variable_argument. destruct (lookup_argument _ _); intros [= _ <-]; [by left|by right].
  - intros [= _ <-]. by right.
Qed.

(** The text a variable stands for once it is evaluated. *)
Definition variable_text (r : ngx_http_request) (i : nat) : list Z :=
  if not_found (value_at r i) then [] else data (value_at r i).

Definition found_text (v : option ngx_http_variable_value) : list Z :=
  match v with
  | Some v => if not_found v then [] else data v
  | None => []
  end.

(** The cells of a request are those of the table. *)
Definition request_ok (r : ngx_http_request) : Prop := length (variables r) = length (conf_variables cmcf).

Lemma get_indexed_spec i r : request_ok r -> (i < length (conf_variables cmcf))%nat ->
  exists v r', get_indexed i r = Some (v, r') /\ keeps r r' /\ evaluated (value_at r' i)
    /\ found_text v = variable_text r' i.
Proof.
  intros Hr Hi. unfold ngx_http_get_indexed_variable, variable_text.
  destruct (lookup_lt_is_Some_2 _ _ Hi) as [cv Hcv]. rewrite Hcv.
  destruct (not_found (value_at r i) || valid (value_at r i)) eqn:E.
  { apply evaluated_test in E. exists (Some (value_at r i)), r. by split_and!. }
  assert (He : ~ evaluated (value_at r i)) by (rewrite <- evaluated_test; congruence).
  assert (Hlt : (i < length (variables r))%nat) by (unfold request_ok in Hr; lia).
  pose proof (list.Forall_lookup_1 _ _ _ _ set_ok Hcv) as Hg. cbn beta in Hg.
  destruct (get_handler cv) as [g|]; [|done]. destruct (call g i r) as [rc r1] eqn:Ec.
  destruct (call_ok g i r rc r1 Hlt He Ec) as [Hk Hok].
  assert (Hlt1 : (i < length (variables r1))%nat) by (rewrite (keeps_length _ _ Hk); done).
  assert (Hset : forall v, keeps r (set_value i v r1)).
  { intros v. destruct Hk. split; try done; [|by rewrite length_set].
    intros j Hj. rewrite value_at_set_ne; [by apply keeps_values0|by intros ->]. }
  destruct rc; try (do 2 eexists; split; [done|]; split_and!; [apply Hset|rewrite value_at_set_eq by done; by right|
    rewrite value_at_set_eq by done; done]).
  do 2 eexists. split; [done|]. split_and!; [apply Hset| |by rewrite value_at_set_eq].
  rewrite value_at_set_eq by done. specialize (Hok eq_refl). destruct (has_flag _ _); [|done].
  destruct Hok; [by left|by right].
Qed.

Lemma get_indexed_evaluated i r : (i < length (conf_variables cmcf))%nat -> evaluated (value_at r i) ->
  get_indexed i r = Some (Some (value_at r i), r).
Proof.
  intros Hi He. unfold ngx_http_get_indexed_variable. destruct (lookup_lt_is_Some_2 _ _ Hi) as [cv ->].
  apply evaluated_test in He. by rewrite He.
Qed.

Lemma keeps_request_ok r r' : keeps r r' -> request_ok r -> request_ok r'.
Proof. intros [] ?. unfold request_ok in *. congruence. Qed.

Lemma keeps_text r r' i : keeps r r' -> evaluated (value_at r i) -> variable_text r' i = variable_text r i.
Proof. intros Hk He. unfold variable_text. by rewrite (keeps_values _ _ Hk). Qed.
End Get.

(** [ngx_strncasecmp] on names of the same length, for the examples. *)
Definition strncasecmp (a b : list Z) (n : Z) : Z := if bool_decide (map tolower a = map tolower b) then 0 else 1.

Lemma strncasecmp_is : strncasecmp_spec strncasecmp.
Proof. intros a b _ _ _. unfold strncasecmp. by case_bool_decide. Qed.

End VariablesFacts.

(** * What variables promise

    The index of a name, the text of a variable of several headers, and the
    header a variable is found in. *)
Import HttpRequest.HttpRequest Variables.Variables VariablesFacts.VariablesFacts.

Module VariablesProps.

(** ** Indices *)

(** Names get the same index exactly when they are equal but for case,
    however many other names are looked up in between; the table keeps
    lower-case names without duplicates, and an index, once given, stays. *)
Theorem variable_index_stable (alloc : allocation -> bool) (ngx_strncasecmp : list Z -> list Z -> Z -> Z)
    (ngx_strlow : list Z -> list Z) (c c1 : main_conf) (n : list Z) (i : nat) (others : list (list Z)) (c2 : main_conf)
    (m : list Z) (j : nat) (c3 : main_conf) :
  let get := ngx_http_get_variable_index alloc ngx_strncasecmp ngx_strlow in
  strncasecmp_spec ngx_strncasecmp -> strlow_spec ngx_strlow -> table_ok c ->
  no_nul n -> no_nul m -> Forall no_nul others ->
  get n c = Some (i, c1) ->
  foldl (fun s o => s ≫= fun c => snd <$> get o c) (Some c1) others = Some c2 ->
  get m c2 = Some (j, c3) ->
  table_ok c3 /\ names c3 !! i = Some (map tolower n) /\ (i = j <-> map tolower n = map tolower m).
Proof.
  intros get Hcmp Hlow Ht Hn Hm Ho E1 E2 E3.
  destruct (get_index_spec alloc _ _ Hcmp Hlow n c i c1 Ht Hn E1) as (Ht1 & Hi & _).
  assert (H2 : table_ok c2 /\ names c2 !! i = Some (map tolower n)).
  { clear E1 E3. revert c1 Ht1 Hi E2 Ho. induction others as [|o os IH]; intros c1 Ht1 Hi E2 Ho; cbn in E2.
    - by injection E2 as <-.
    - apply Forall_cons_iff in Ho as [Ho Hos]. destruct (get o c1) as [[k c']|] eqn:Eo; cbn in E2.
      + destruct (get_index_spec alloc _ _ Hcmp Hlow o c1 k c' Ht1 Ho Eo) as (Ht' & _ & (more & Hmore) & _).
        apply (IH c'); [done| |done|done]. rewrite Hmore. by apply lookup_app_l_Some.
      + exfalso. clear -E2. induction os as [|o' os IH]; cbn in E2; [done|by apply IH]. }
  destruct H2 as [Ht2 Hi2].
  destruct (get_index_spec alloc _ _ Hcmp Hlow m c2 j c3 Ht2 Hm E3) as (Ht3 & Hj & (more & Hmore) & _).
  assert (Hi3 : names c3 !! i = Some (map tolower n)) by (rewrite Hmore; by apply lookup_app_l_Some).
  split_and!; [done|done|]. split; intros E.
  - subst j. congruence.
  - rewrite <- E in Hj. by eapply NoDup_lookup; [apply (table_nodup c3 Ht3)|..].
Qed.

(** ** Headers with several values *)

Definition enabled (a : list ngx_table_elt) : list (list Z) :=
  map value (List.filter (fun h => negb (hash h =? 0)) a).

(** The values with the separator and a space between them. *)
Fixpoint join (sep : Z) (vs : list (list Z)) : list Z :=
  match vs with
  | [] => []
  | [v] => v
  | v :: vs => v ++ [sep; " "%c] ++ join sep vs
  end.

Lemma join_cons sep v vs : vs <> [] -> join sep (v :: vs) = v ++ [sep; " "%c] ++ join sep vs.
Proof. by destruct vs. Qed.

Lemma headers_len_join sep a : headers_len a = match enabled a with [] => 0 | vs => Z.of_nat (length (join sep vs)) + 2 end.
Proof.
  unfold headers_len, enabled. induction a as [|h a IH]; [done|]. cbn [foldr List.filter map]. rewrite IH.
  destruct (hash h =? 0); cbn [negb map]; [done|].
  destruct (map value _) as [|v vs] eqn:E; [cbn; lia|].
  rewrite (join_cons sep (value h) (v :: vs)) by done. rewrite !length_app. cbn [length app]. lia.
Qed.

Lemma join_loop_joins sep a written : enabled a <> [] ->
  join_loop sep (Z.of_nat (length written + length (join sep (enabled a)))) a written
  = Some (written ++ join sep (enabled a)).
Proof.
  unfold enabled. revert written. induction a as [|h a IH]; intros written Hne; [done|]. cbn [join_loop List.filter map] in *.
  destruct (hash h =? 0); cbn [negb map] in *; [by apply IH|].
  destruct (map value (List.filter _ a)) as [|v vs] eqn:E.
  - cbn [join]. rewrite length_app, Z.eqb_refl. done.
  - rewrite (join_cons sep (value h) (v :: vs)) by done.
    destruct (Z.eqb_spec (Z.of_nat (length (written ++ value h)))
      (Z.of_nat (length written + length (value h ++ [sep; " "%c] ++ join sep (v :: vs))))) as [Hz|_].
    { rewrite !length_app in Hz. cbn [length] in Hz. lia. }
    specialize (IH ((written ++ value h) ++ [sep; " "%c]) ltac:(done)). rewrite !app_assoc in *.
    rewrite <- IH. f_equal. rewrite !length_app. cbn [length]. lia.
Qed.

(** A variable of several headers is the text of the enabled ones joined
    by the separator and a space, and the copy stays inside the array and the
    buffer; without an enabled header it is not found. *)
Theorem headers_joined (pnalloc : Z -> bool) (a : list ngx_table_elt) (sep : Z) (v : ngx_http_variable_value) :
  (forall n, pnalloc n = true) ->
  ngx_http_variable_headers_internal pnalloc a sep v
  = Some (NGX_OK, match enabled a with
                  | [] => v <| not_found := true |>
                  | vs => set_found (join sep vs) v
                  end).
Proof.
  intros Hmem. unfold ngx_http_variable_headers_internal. rewrite (headers_len_join sep).
  destruct (enabled a) as [|x vs] eqn:E; [done|]. rewrite <- E.
  destruct (Z.eqb_spec (Z.of_nat (length (join sep (enabled a))) + 2) 0); [lia|].
  rewrite Hmem. replace (Z.of_nat (length (join sep (enabled a))) + 2 - 2) with (Z.of_nat (length (join sep (enabled a)))) by lia.
  assert (Hj := join_loop_joins sep a [] ltac:(by rewrite E)). cbn [length Nat.add app] in Hj.
  destruct a as [|h [|h' a]]; [done| |].
  - unfold enabled in *. cbn in *. destruct (hash h =? 0); [done|]. cbn in *. done.
  - rewrite Hj. cbn [option_map]. rewrite E. done.
Qed.

(** ** The header of a variable *)

(** A header name as a variable name has it: lower case, "_" for "-". *)
Definition as_variable (key : list Z) : list Z := map name_byte key.

Lemma same_name_iff var key : same_name var key = bool_decide (var = as_variable key).
Proof.
  revert key. induction var as [|x var IH]; intros [|ch key]; cbn [same_name as_variable map]; try done.
  rewrite IH. unfold as_variable. destruct (Z.eqb_spec x (name_byte ch)) as [->|Hne]; cbn [andb].
  - apply bool_decide_ext. split; [by intros ->|by intros [= ->]].
  - rewrite bool_decide_false; [done|]. by intros [= -> _].
Qed.

(** The variable [$http_name] is the value of the first enabled header
    whose name, in lower case and with "_" for "-", is the name. *)
Theorem header_variable_found (r : ngx_http_request) (v : ngx_http_variable_value) (n : list Z) :
  ngx_http_variable_unknown_header_in r v (bytes_of "http_" ++ n)
  = (NGX_OK, match list_find (fun h => hash h <> 0 /\ as_variable (key h) = n) (headers_in r) with
             | Some (_, h) => set_found (value h) v
             | None => v <| not_found := true |>
             end).
Proof.
  unfold ngx_http_variable_unknown_header_in, ngx_http_variable_unknown_header.
  rewrite length_app. cbn [length bytes_of]. change (length (bytes_of "http_")) with 5%nat.
  destruct (Nat.leb_spec 5 (5 + length n)); [|lia].
  change (drop 5 (bytes_of "http_" ++ n)) with n.
  assert (Hf : find_header n (headers_in r)
    = snd <$> list_find (fun h => hash h <> 0 /\ as_variable (key h) = n) (headers_in r)).
  { induction (headers_in r) as [|h hs IH]; [done|]. cbn [find_header list_find]. rewrite same_name_iff, IH.
    destruct (decide (hash h <> 0 /\ as_variable (key h) = n)) as [[Hh Hk]|Hno].
    - destruct (Z.eqb_spec (hash h) 0); [done|]. by rewrite bool_decide_true by done.
    - destruct (Z.eqb_spec (hash h) 0) as [|Hh]; cbn [negb andb]; [|rewrite bool_decide_false by naive_solver];
        by destruct (list_find _ hs) as [[??]|]. }
  rewrite Hf. by destruct (list_find _ _) as [[i h]|].
Qed.

(** ** Witnesses *)

Lemma variable_index_stable_witness :
  let get := ngx_http_get_variable_index (fun _ => true) strncasecmp (map tolower) in
  exists c1 c2 c3, get (bytes_of "Host") (MainConf [] [] 0) = Some (0%nat, c1)
    /\ (snd <$> get (bytes_of "arg_x") c1) = Some c2 /\ get (bytes_of "hOST") c2 = Some (0%nat, c3)
    /\ names c3 = [bytes_of "host"; bytes_of "arg_x"] /\ names c3 !! 0%nat = Some (bytes_of "host").
Proof.
  intros get. do 3 eexists. split_and!; [vm_compute; reflexivity..|].
  assert (Hno : forall n, no_nul n -> Forall no_nul [n]) by (intros n Hn; by repeat constructor).
  refine (proj1 (proj2 (variable_index_stable (fun _ => true) strncasecmp (map tolower) (MainConf [] [] 0) _
    (bytes_of "Host") 0 [bytes_of "arg_x"] _ (bytes_of "hOST") 0 _ _ _ _ _ _ _ eq_refl eq_refl eq_refl)));
    [intros a b _ _ _; unfold strncasecmp; by case_bool_decide|done|split; [constructor|done|done]|
     repeat constructor; done|repeat constructor; done|apply Hno; repeat constructor; done].
Defined.

Lemma headers_joined_witness :
  ngx_http_variable_headers_internal (fun _ => true)
    [Elt 1 [] (bytes_of "a"); Elt 0 [] (bytes_of "b"); Elt 1 [] []; Elt 1 [] (bytes_of "c")] ","%c (Value [] false false false)
  = Some (NGX_OK, Value (bytes_of "a, , c") true false false).
Proof. rewrite (headers_joined (fun _ => true) _ ","%c _ (fun _ => eq_refl)). reflexivity. Defined.

End VariablesProps.
