(* ===== verification/Script.v ===== *)
(** * The script engine

    From [ngx_http_script.c]: [ngx_http_script_compile], which turns a string
    with variables into two arrays of codes, one that computes lengths and one
    that copies bytes, and the codes of both.  An array of codes is the list of
    its structures; a code pointer is the byte offset of one, so that [e->ip]
    moves by the sizes of the source (64-bit).  The engine writes at [e->pos]
    only, so the bytes from [e->buf.data] to [e->pos] are a list that grows. *)

From S2P Require Import Prelude HttpRequest Variables.
Import HttpRequest.HttpRequest Variables.Variables.

Module Script.

(** ** Codes *)

(** A length code: the function and the fields of its structure. *)
Inductive len_code :=
| copy_len_code (len : Z)
| copy_var_len_code (index : nat)
| mark_args_code
| copy_capture_len_code (n : nat)
| full_name_len_code (conf_prefix : bool)
| null_len_code.

(** [ngx_http_complex_value_t] over the value codes. *)
Record complex_value {C : Type} := ComplexValue {
  cv_value : list Z;
  cv_flushes : list nat;
  cv_lengths : option (list len_code);
  cv_values : list C;
}.
Arguments complex_value : clear implicits.
Arguments ComplexValue {C}.

(** [ngx_http_script_regex_code_t] *)
Record regex_code := RegexCode {
  rc_regex : ngx_http_regex;
  rc_lengths : option (list len_code);
  rc_size : Z;
  rc_status : Z;
  rc_next : Z;
  rc_test : bool;
  rc_negative_test : bool;
  rc_uri : bool;
  rc_add_args : bool;
  rc_redirect : bool;
  rc_break_cycle : bool;
}.

(** [ngx_http_script_regex_end_code_t] *)
Record regex_end_code := RegexEndCode {
  end_uri : bool;
  end_args : bool;
  end_add_args : bool;
  end_redirect : bool;
}.

Inductive file_op :=
| file_plain | file_not_plain | file_dir | file_not_dir
| file_exists | file_not_exists | file_exec | file_not_exec.

(** A value code; [copy_code] is followed by its text. *)
Inductive code :=
| copy_code (text : list Z)
| copy_var_code (index : nat)
| start_args_code
| regex_start_code (c : regex_code)
| regex_end_code_ (c : regex_end_code)
| copy_capture_code (n : nat)
| full_name_code (conf_prefix : bool)
| return_code (status : Z) (text : complex_value code)
| break_code
| if_code (next : Z) (loc_conf : option nat)
| equal_code
| not_equal_code
| file_code (op : file_op)
| complex_value_code (lengths : list len_code)
| value_code (text : list Z)
| set_var_code (index : nat)
| var_set_handler_code (handler : nat) (data : Z)
| var_code (index : nat)
| nop_code
| null_code.

Definition sizeof_uintptr : Z := 8.
(** [(n + sizeof(uintptr_t) - 1) & ~(sizeof(uintptr_t) - 1)] *)
Definition align (n : Z) : Z := Z.land (n + sizeof_uintptr - 1) (Z.lnot (sizeof_uintptr - 1)).

(** [sizeof] of the structure of a code. *)
Definition len_size (c : len_code) : Z :=
  match c with mark_args_code | null_len_code => 8 | _ => 16 end.

(** What a code occupies: for [copy_code] as [add_copy_code] allocates it. *)
Definition code_size (c : code) : Z :=
  match c with
  | copy_code text => align (16 + Z.of_nat (length text))
  | copy_var_code _ | copy_capture_code _ | full_name_code _ | file_code _ | complex_value_code _
  | set_var_code _ | var_code _ | regex_end_code_ _ => 16
  | regex_start_code _ => 72
  | return_code _ _ => 56
  | if_code _ _ | var_set_handler_code _ _ => 24
  | value_code _ => 32
  | start_args_code | break_code | equal_code | not_equal_code | nop_code | null_code => 8
  end.

Definition size_of (cs : list code) : Z := foldr (fun c n => code_size c + n) 0 cs.

(** The code at an offset, if a structure starts there. *)
Fixpoint code_at (cs : list code) (off : Z) : option code :=
  match cs with
  | [] => None
  | c :: cs => if off =? 0 then Some c else code_at cs (off - code_size c)
  end.

(** ** The engine *)

(** [e->ip]: an offset, or [ngx_http_script_exit]. *)
Inductive code_ptr := At (off : Z) | Exit.

(** A cell of the stack holds a value, or the buffer that is being filled. *)
Inductive slot := Val (v : ngx_http_variable_value) | Buffer (len : Z).

(** [e->buf]: zero, the buffer with a length, or a string of its own. *)
Inductive buffer := NoBuffer | This (len : Z) | Other (value : list Z).

(** [e->args]: NULL, an offset into the buffer, or a place in an older one. *)
Inductive args_ptr := NoArgs | InBuffer (off : Z) | InOldBuffer.

Record engine := Engine {
  ip : code_ptr;
  out : list Z;   (** the bytes from the start of the buffer to [pos] *)
  allocated : Z;   (** the bytes there are *)
  buf : buffer;
  sp : list slot;
  line : list Z;
  e_args : args_ptr;
  flushed : bool;
  skip : bool;
  quote : bool;
  is_args : bool;
  status : ngx_rc;
  request : ngx_http_request;
}.

Definition eta_engine (e : engine) : engine :=
  Engine (ip e) (out e) (allocated e) (buf e) (sp e) (line e) (e_args e) (flushed e) (skip e) (quote e)
    (is_args e) (status e) (request e).
#[export] Instance set_ip : Setter ip := ltac:(derive_setter eta_engine ip).
#[export] Instance set_out : Setter out := ltac:(derive_setter eta_engine out).
#[export] Instance set_allocated : Setter allocated := ltac:(derive_setter eta_engine allocated).
#[export] Instance set_buf : Setter buf := ltac:(derive_setter eta_engine buf).
#[export] Instance set_sp : Setter sp := ltac:(derive_setter eta_engine sp).
#[export] Instance set_line : Setter line := ltac:(derive_setter eta_engine line).
#[export] Instance set_e_args : Setter e_args := ltac:(derive_setter eta_engine e_args).
#[export] Instance set_flushed : Setter flushed := ltac:(derive_setter eta_engine flushed).
#[export] Instance set_skip : Setter skip := ltac:(derive_setter eta_engine skip).
#[export] Instance set_quote : Setter quote := ltac:(derive_setter eta_engine quote).
#[export] Instance set_is_args : Setter is_args := ltac:(derive_setter eta_engine is_args).
#[export] Instance set_status : Setter status := ltac:(derive_setter eta_engine status).
#[export] Instance set_request : Setter request := ltac:(derive_setter eta_engine request).

(** [ngx_memzero (&e, sizeof(ngx_http_script_engine_t))] with its request. *)
Definition zero_engine (r : ngx_http_request) : engine :=
  Engine (At 0) [] 0 NoBuffer [] [] NoArgs false false false false NGX_OK r.

(** [e->ip += n] *)
Definition advance (n : Z) (e : engine) : engine :=
  match ip e with At off => e <| ip := At (off + n) |> | Exit => e end.

Definition append (bytes : list Z) (e : engine) : engine := e <| out := out e ++ bytes |>.

Definition exit_with (rc : ngx_rc) (e : engine) : engine := e <| ip := Exit |> <| status := rc |>.
Definition NGX_HTTP_INTERNAL_SERVER_ERROR : ngx_rc := Code 500.

(** The kinds of a file that can be opened. *)
Record file_info := FileInfo { is_file : bool; is_dir : bool; is_link : bool; is_exec : bool }.

(** What the engine calls: the handlers of modules, the nginx core, and the
    functions of the request that other files have. *)
Class Env := {
  env_lookups :: Lookups;
  cmcf : main_conf;
  (** the [get_handler]s and [set_handler]s of modules *)
  module_handler : nat -> Z -> nat -> ngx_http_request -> ngx_rc * ngx_http_request;
  set_handler : nat -> Z -> ngx_http_variable_value -> ngx_http_request -> ngx_http_request;
  (** [ngx_regex_exec], with the allocation of its vector *)
  ngx_regex_exec : nat -> list Z -> option (list Z) -> Z -> Z * option (list Z);
  alloc_captures : bool;
  (** [ngx_pnalloc (r->pool, n)], and what fresh memory holds *)
  pnalloc : Z -> bool;
  uninitialised : nat -> list Z;
  (** [ngx_escape_uri] with [NGX_ESCAPE_ARGS]: the number of bytes to escape,
      and the escaped text *)
  escape_count : list Z -> Z;
  ngx_escape_uri : list Z -> list Z;
  (** [ngx_unescape_uri] with [NGX_UNESCAPE_REDIRECT]: the text written and the
      number of bytes read *)
  ngx_unescape_uri : list Z -> list Z * nat;
  (** [ngx_cycle->conf_prefix], [ngx_cycle->prefix] and [ngx_get_full_name] *)
  cycle_conf_prefix : list Z;
  cycle_prefix : list Z;
  ngx_get_full_name : list Z -> list Z -> option (list Z);
  (** [ngx_list_push (&r->headers_out.headers)] *)
  list_push : ngx_http_request -> bool;
  (** [ngx_http_send_response (r, status, NULL, text)] *)
  ngx_http_send_response : ngx_http_request -> Z -> complex_value code -> ngx_rc * ngx_http_request;
  ngx_http_update_location_config : ngx_http_request -> ngx_http_request;
  (** [ngx_http_set_disable_symlinks], and [ngx_open_cached_file] with
      [of.test_only] *)
  set_disable_symlinks : ngx_http_request -> list Z -> bool;
  open_cached_file : list Z -> option file_info;
}.

Section Engine.
Context `{Env}.

Abbreviation get_indexed := (ngx_http_get_indexed_variable cmcf module_handler).
Abbreviation get_flushed := (ngx_http_get_flushed_variable cmcf module_handler).

Definition get_variable (e : engine) (i : nat) : option (option ngx_http_variable_value * engine) :=
  match (if flushed e then get_indexed i (request e) else get_flushed i (request e)) with
  | None => None
  | Some (v, r) => Some (v, e <| request := r |>)
  end.

(** [value && !value->not_found] *)
Definition found (v : option ngx_http_variable_value) : option (list Z) :=
  match v with
  | Some v => if not_found v then None else Some (data v)
  | None => None
  end.

(** ** Length codes *)

Definition ngx_http_script_copy_len_code (len : Z) (e : engine) : option (Z * engine) := Some (len, e).

Definition ngx_http_script_copy_var_len_code (i : nat) (e : engine) : option (Z * engine) :=
  match get_variable e i with
  | None => None
  | Some (v, e) => Some (match found v with Some bytes => Z.of_nat (length bytes) | None => 0 end, e)
  end.

Definition ngx_http_script_mark_args_code (e : engine) : option (Z * engine) := Some (1, e <| is_args := true |>).

(** The bytes of a capture, and whether they are escaped. *)
Definition captured (r : ngx_http_request) (n : nat) : list Z :=
  slice (captures_data r) (capture r n) (capture r (n + 1)).
Definition escaped (e : engine) : bool :=
  (is_args e || quote e) && (quoted_uri (request e) || plus_in_uri (request e)).

Definition ngx_http_script_copy_capture_len_code (n : nat) (e : engine) : option (Z * engine) :=
  let r := request e in
  Some (if Z.of_nat n <? ncaptures r then
          let len := capture r (n + 1) - capture r n in
          if escaped e then len + 2 * escape_count (captured r n) else len
        else 0, e).

Definition ngx_http_script_full_name_len_code (conf_prefix : bool) (e : engine) : option (Z * engine) :=
  Some (Z.of_nat (length (if conf_prefix then cycle_conf_prefix else cycle_prefix)), e).

Definition len_step (c : len_code) (e : engine) : option (Z * engine) :=
  match c with
  | copy_len_code len => ngx_http_script_copy_len_code len e
  | copy_var_len_code i => ngx_http_script_copy_var_len_code i e
  | mark_args_code => ngx_http_script_mark_args_code e
  | copy_capture_len_code n => ngx_http_script_copy_capture_len_code n e
  | full_name_len_code b => ngx_http_script_full_name_len_code b e
  | null_len_code => None
  end.

(** The loop [len += lcode (&e)] until the null code: length codes only move
    forward; [None] when the array has no end.  The lengths are of objects in
    memory, so the sum is not wrapped. *)
Fixpoint run_lengths (cs : list len_code) (len : Z) (e : engine) : option (Z * engine) :=
  match cs with
  | [] => None
  | null_len_code :: _ => Some (len, e)
  | c :: cs =>
      match len_step c e with
      | None => None
      | Some (n, e) => run_lengths cs (len + n) e
      end
  end.

(** ** Value codes *)

Definition ngx_http_script_copy_code (text : list Z) (e : engine) : option engine :=
  let e := if skip e then e else append text e in
  Some (advance (16 + align (Z.of_nat (length text))) e).

Definition ngx_http_script_copy_var_code (i : nat) (e : engine) : option engine :=
  let e := advance 16 e in
  if skip e then Some e
  else
    match get_variable e i with
    | None => None
    | Some (v, e) => Some (match found v with Some bytes => append bytes e | None => e end)
    end.

Definition ngx_http_script_start_args_code (e : engine) : option engine :=
  Some (advance 8 (e <| is_args := true |> <| e_args := InBuffer (Z.of_nat (length (out e))) |>)).

Definition ngx_http_script_copy_capture_code (n : nat) (e : engine) : option engine :=
  let e := advance 16 e in
  let r := request e in
  Some (if Z.of_nat n <? ncaptures r then
          append (if escaped e then ngx_escape_uri (captured r n) else captured r n) e
        else e).

Definition ngx_http_script_full_name_code (conf_prefix : bool) (e : engine) : option engine :=
  match buf e with
  | This _ =>
      match ngx_get_full_name (if conf_prefix then cycle_conf_prefix else cycle_prefix) (out e) with
      | None => Some (exit_with NGX_HTTP_INTERNAL_SERVER_ERROR e)
      | Some value => Some (advance 16 (e <| buf := Other value |>))
      end
  | _ => None
  end.

(** The value a cell of the stack has; a buffer is read as it is now. *)
Definition bytes_at (e : engine) (len : Z) : list Z :=
  take (Z.to_nat len) (out e ++ uninitialised (Z.to_nat (allocated e) - length (out e))).
Definition slot_value (e : engine) (s : slot) : ngx_http_variable_value :=
  match s with
  | Val v => v
  | Buffer len => Value (bytes_at e (wrap 28 len)) true false false
  end.

(** A new buffer of [len] bytes; the cells and [args] keep the old one. *)
Definition new_buffer (len : Z) (e : engine) : engine :=
  e <| sp := map (fun s => Val (slot_value e s)) (sp e) |>
    <| e_args := match e_args e with NoArgs => NoArgs | _ => InOldBuffer end |>
    <| out := [] |> <| allocated := len |> <| buf := This len |>.

Definition push (v : ngx_http_variable_value) (e : engine) : engine := e <| sp := Val v :: sp e |>.
Definition pop (e : engine) : option (ngx_http_variable_value * engine) :=
  match sp e with
  | [] => None
  | s :: ss => Some (slot_value e s, e <| sp := ss |>)
  end.

(** The engine [le] of a nested length computation. *)
Definition nested (e : engine) (q : bool) : engine := (zero_engine (request e)) <| line := line e |> <| quote := q |>.

(** The length of the rewritten string. *)
Definition regex_len (c : regex_code) (e : engine) : option (Z * ngx_http_request) :=
  let r := request e in
  match rc_lengths c with
  | None =>
      let escapes := if rc_uri c && negb (ncaptures r =? 0) && (quoted_uri r || plus_in_uri r)
                     then 2 * escape_count (uri r) else 0 in
      let caps := foldr (fun n len => capture r (n + 1) - capture r n + len) 0
                    (List.filter Nat.even (seq 2 (Z.to_nat (ncaptures r) - 2))) in
      Some (rc_size c + escapes + caps, r)
  | Some cs => option_map (fun x => (x.1, request x.2)) (run_lengths cs 0 (nested e (rc_redirect c)))
  end.

Definition true_if (b : bool) : ngx_http_variable_value :=
  if b then ngx_http_variable_true_value else ngx_http_variable_null_value.

(** The cell that [test] writes: only [len] and [data]. *)
Definition test_result (b : bool) (v : ngx_http_variable_value) : ngx_http_variable_value :=
  v <| data := data (true_if b) |>.

(** The request of a rewrite of the URI. *)
Definition rewritten (c : regex_code) (r : ngx_http_request) : ngx_http_request :=
  if rc_uri c then
    let r := r <| internal := true |> <| valid_unparsed_uri := false |> in
    if rc_break_cycle c then r <| valid_location := false |> <| uri_changed := false |>
    else r <| uri_changed := true |>
  else r.

(** From the match to the new buffer. *)
Definition regex_matched (c : regex_code) (e : engine) : option engine :=
  let e := if rc_status c =? 0 then e else e <| status := Code (rc_status c) |> in
  if negb (rc_status c =? 0) && negb (rc_redirect c) then Some (e <| ip := Exit |>)
  else
    let e := e <| request := rewritten c (request e) |> in
    match regex_len c e with
    | None => None
    | Some (len, r) =>
        let e := e <| request := r |> in
        let len := if rc_add_args c && negb (length (args r) =? 0)%nat then len + Z.of_nat (length (args r)) + 1 else len in
        if pnalloc len then Some (advance 72 ((new_buffer len e) <| quote := rc_redirect c |>))
        else Some (exit_with NGX_HTTP_INTERNAL_SERVER_ERROR (e <| buf := This len |>))
    end.

Definition ngx_http_script_regex_start_code (c : regex_code) (e : engine) : option engine :=
  (** the subject, and the cell a test writes *)
  match (if rc_uri c then Some (uri (request e), Value [] false false false, e)
         else match pop e with Some (v, e) => Some (data v, v, e) | None => None end) with
  | None => None
  | Some (s, cell, e) =>
      let e := e <| line := s |> in
      let (rc, r) := ngx_http_regex_exec cmcf ngx_regex_exec alloc_captures (rc_regex c) s (request e) in
      let e := e <| request := r |> in
      match rc with
      | NGX_DECLINED =>
          let e := e <| request := r <| ncaptures := 0 |> |> in
          if rc_test c then Some (advance 72 (push (test_result (rc_negative_test c) cell) e))
          else Some (advance (rc_next c) e)
      | NGX_ERROR => Some (exit_with NGX_HTTP_INTERNAL_SERVER_ERROR e)
      | _ =>
          if rc_test c then Some (advance 72 (push (test_result (negb (rc_negative_test c)) cell) e))
          else regex_matched c e
      end
  end.

(** [ngx_http_set_exten] of [ngx_http_core_module.c]: [i] goes down to 2. *)
Fixpoint exten_at (i : nat) (uri : list Z) : list Z :=
  match i with
  | O | 1%nat => []
  | S j =>
      if (rd uri (Z.of_nat i) =? "."%c) && negb (rd uri (Z.of_nat j) =? "/"%c) then drop (S i) uri
      else if rd uri (Z.of_nat i) =? "/"%c then []
      else exten_at j uri
  end.
Definition ngx_http_set_exten (r : ngx_http_request) : ngx_http_request :=
  r <| exten := exten_at (length (uri r) - 1) (uri r) |>.

(** [ngx_http_clear_location] *)
Definition ngx_http_clear_location (r : ngx_http_request) : ngx_http_request :=
  match location r with
  | Some i => r <| headers_out := alter (fun h => Elt 0 (key h) (value h)) i (headers_out r) |> <| location := None |>
  | None => r
  end.

Definition push_location (h : ngx_table_elt) (r : ngx_http_request) : ngx_http_request :=
  r <| location := Some (length (headers_out r)) |> <| headers_out := headers_out r ++ [h] |>.

Definition add_request_args (sep : Z) (c : regex_end_code) (e : engine) : engine :=
  let a := args (request e) in
  if end_add_args c && negb (length a =? 0)%nat then append (sep :: a) e else e.

Definition regex_end_redirect (c : regex_end_code) (e : engine) : engine :=
  let (dst, n) := ngx_unescape_uri (out e) in
  let e := e <| out := dst ++ drop n (out e) |> in
  let e := add_request_args (if end_args c then "&"%c else "?"%c) c e in
  let e := e <| buf := This (Z.of_nat (length (out e))) |> in
  let r := ngx_http_clear_location (request e) in
  let e := e <| request := r |> in
  if list_push r then
    advance 16 (e <| request := push_location (Elt 1 (bytes_of "Location") (out e)) r |>)
  else exit_with NGX_HTTP_INTERNAL_SERVER_ERROR e.

(** [r->args] and the length of the new URI; [None] when [args] is in a buffer
    that is no longer the one being written. *)
Definition take_args (c : regex_end_code) (e : engine) : option (Z * engine) :=
  match e_args e with
  | InBuffer a =>
      let e := add_request_args "&"%c c e in
      Some (a, e <| request := (request e) <| args := drop (Z.to_nat a) (out e) |> |> <| e_args := NoArgs |>)
  | NoArgs =>
      Some (Z.of_nat (length (out e)),
            if end_add_args c then e else e <| request := (request e) <| args := [] |> |>)
  | InOldBuffer => None
  end.

Definition ngx_http_script_regex_end_code (c : regex_end_code) (e : engine) : option engine :=
  let e := e <| quote := false |> in
  if end_redirect c then Some (regex_end_redirect c e)
  else
    match take_args c e with
    | None => None
    | Some (len, e) =>
        let e := e <| buf := This len |> in
        if end_uri c then
          let u := take (Z.to_nat len) (out e) in
          let e := e <| request := (request e) <| uri := u |> |> in
          if (length u =? 0)%nat then Some (exit_with NGX_HTTP_INTERNAL_SERVER_ERROR e)
          else Some (advance 16 (e <| request := ngx_http_set_exten (request e) |>))
        else Some (advance 16 e)
    end.

Definition ngx_http_script_return_code (st : Z) (text : complex_value code) (e : engine) : option engine :=
  let has_text := negb (length (cv_value text) =? 0)%nat || match cv_lengths text with Some _ => true | None => false end in
  if (st <? 400) || has_text then
    let (rc, r) := ngx_http_send_response (request e) st text in
    Some (exit_with rc (e <| request := r |>))
  else Some (exit_with (Code st) e).

Definition ngx_http_script_break_code (e : engine) : option engine :=
  Some (e <| request := (request e) <| uri_changed := false |> |> <| ip := Exit |>).

(** A value that counts as true: not empty and not "0". *)
Definition is_true (v : ngx_http_variable_value) : bool :=
  negb (length (data v) =? 0)%nat && (negb (length (data v) =? 1)%nat || negb (rd (data v) 0 =? "0"%c)).

Definition ngx_http_script_if_code (next : Z) (conf : option nat) (e : engine) : option engine :=
  match pop e with
  | None => None
  | Some (v, e) =>
      if is_true v then
        let e := match conf with
                 | Some c => e <| request := ngx_http_update_location_config ((request e) <| loc_conf := c |>) |>
                 | None => e
                 end in
        Some (advance 24 e)
      else Some (advance next e)
  end.

(** [len == len && ngx_strncmp (data, data, len) == 0]: a zero byte ends the
    comparison. *)
Definition same_value (val res : ngx_http_variable_value) : bool :=
  (length (data val) =? length (data res))%nat && bool_decide (c_string (data val) = c_string (data res)).

(** The top cell is compared with the one under it, which takes the result. *)
Definition compare (want : bool) (e : engine) : option engine :=
  match pop e with
  | None => None
  | Some (val, e) =>
      match pop e with
      | None => None
      | Some (res, e) => Some (push (true_if (Bool.eqb (same_value val res) want)) (advance 8 e))
      end
  end.
Definition ngx_http_script_equal_code (e : engine) : option engine := compare true e.
Definition ngx_http_script_not_equal_code (e : engine) : option engine := compare false e.

Definition file_result (op : file_op) (info : option file_info) : bool :=
  match op, info with
  | (file_plain | file_dir | file_exists | file_exec), None => false
  | (file_not_plain | file_not_dir | file_not_exists | file_not_exec), None => true
  | file_plain, Some f => is_file f
  | file_not_plain, Some f => negb (is_file f)
  | file_dir, Some f => is_dir f
  | file_not_dir, Some f => negb (is_dir f)
  | file_exists, Some f => is_file f || is_dir f || is_link f
  | file_not_exists, Some f => negb (is_file f || is_dir f || is_link f)
  | file_exec, Some f => is_exec f
  | file_not_exec, Some f => negb (is_exec f)
  end.

(** The value ends with a zero byte, which the path has not. *)
Definition ngx_http_script_file_code (op : file_op) (e : engine) : option engine :=
  match pop e with
  | None => None
  | Some (v, popped) =>
      let e := advance 16 e in
      let path := take (length (data v) - 1) (data v) in
      if set_disable_symlinks (request e) path then
        Some (push (true_if (file_result op (open_cached_file path))) (advance 16 popped))
      else Some (exit_with NGX_HTTP_INTERNAL_SERVER_ERROR e)
  end.

Definition ngx_http_script_complex_value_code (cs : list len_code) (e : engine) : option engine :=
  let e := advance 16 e in
  match run_lengths cs 0 (nested e (quote e)) with
  | None => None
  | Some (len, le) =>
      let e := e <| request := request le |> in
      if pnalloc len then
        let e := new_buffer len e in
        Some (e <| sp := Buffer len :: sp e |>)
      else Some (exit_with NGX_HTTP_INTERNAL_SERVER_ERROR (e <| buf := This len |>))
  end.

Definition ngx_http_script_value_code (text : list Z) (e : engine) : option engine :=
  Some (advance 32 (push (Value (len28 text) true false false) e)).

Definition ngx_http_script_set_var_code (i : nat) (e : engine) : option engine :=
  match pop e with
  | None => None
  | Some (v, e) => Some (advance 16 (e <| request := set_value i (set_found (data v) (value_at (request e) i)) (request e) |>))
  end.

Definition ngx_http_script_var_set_handler_code (h : nat) (d : Z) (e : engine) : option engine :=
  match pop e with
  | None => None
  | Some (v, e) => Some (advance 24 (e <| request := set_handler h d v (request e) |>))
  end.

Definition ngx_http_script_var_code (i : nat) (e : engine) : option engine :=
  match get_flushed i (request e) with
  | None => None
  | Some (v, r) =>
      let e := advance 16 (e <| request := r |>) in
      Some (match v with
            | Some v => if not_found v then push ngx_http_variable_null_value e else push v e
            | None => push ngx_http_variable_null_value e
            end)
  end.

Definition ngx_http_script_nop_code (e : engine) : option engine := Some (advance 8 e).

Definition step (c : code) (e : engine) : option engine :=
  match c with
  | copy_code text => ngx_http_script_copy_code text e
  | copy_var_code i => ngx_http_script_copy_var_code i e
  | start_args_code => ngx_http_script_start_args_code e
  | regex_start_code c => ngx_http_script_regex_start_code c e
  | regex_end_code_ c => ngx_http_script_regex_end_code c e
  | copy_capture_code n => ngx_http_script_copy_capture_code n e
  | full_name_code b => ngx_http_script_full_name_code b e
  | return_code st text => ngx_http_script_return_code st text e
  | break_code => ngx_http_script_break_code e
  | if_code next conf => ngx_http_script_if_code next conf e
  | equal_code => ngx_http_script_equal_code e
  | not_equal_code => ngx_http_script_not_equal_code e
  | file_code op => ngx_http_script_file_code op e
  | complex_value_code cs => ngx_http_script_complex_value_code cs e
  | value_code text => ngx_http_script_value_code text e
  | set_var_code i => ngx_http_script_set_var_code i e
  | var_set_handler_code h d => ngx_http_script_var_set_handler_code h d e
  | var_code i => ngx_http_script_var_code i e
  | nop_code => ngx_http_script_nop_code e
  | null_code => None
  end.

(** [while (uintptr of e->ip is not null) code (e)].  [Wrong]: [ip] is not at a
    structure, or the stack is empty. *)
Inductive outcome := Finished (e : engine) | Wrong | OutOfFuel.

Fixpoint run (fuel : nat) (cs : list code) (e : engine) : outcome :=
  match ip e with
  | Exit => Finished e
  | At off =>
      match code_at cs off with
      | None => Wrong
      | Some null_code => Finished e
      | Some c =>
          match fuel with
          | O => OutOfFuel
          | S fuel => match step c e with None => Wrong | Some e => run fuel cs e end
          end
      end
  end.

(** A code is at least eight bytes, and no code goes back. *)
Definition run_codes (cs : list code) (e : engine) : outcome := run (length cs) cs e.

(** ** Complex values *)

Definition ngx_http_script_flush_complex_value (flushes : list nat) (r : ngx_http_request) : ngx_http_request :=
  fold_left (fun r i => set_value i (flush (value_at r i)) r) flushes r.
Definition ngx_http_script_flush_no_cacheable_variables (indices : list nat) (r : ngx_http_request) : ngx_http_request :=
  ngx_http_script_flush_complex_value indices r.

(** [e.buf] after the run. *)
Definition result (e : engine) : list Z :=
  match buf e with
  | NoBuffer => []
  | This len => bytes_at e len
  | Other value => value
  end.

(** [inl] is [NGX_ERROR]; [None] is undefined behaviour. *)
Definition ngx_http_complex_value (val : complex_value code) (r : ngx_http_request)
    : option (option (list Z) * ngx_http_request) :=
  match cv_lengths val with
  | None => Some (Some (cv_value val), r)
  | Some lengths =>
      let r := ngx_http_script_flush_complex_value (cv_flushes val) r in
      match run_lengths lengths 0 ((zero_engine r) <| flushed := true |>) with
      | None => None
      | Some (len, e) =>
          if pnalloc len then
            match run_codes (cv_values val) (new_buffer len e) with
            | Finished e => Some (Some (result e), request e)
            | _ => None
            end
          else Some (None, request e)
      end
  end.

(** [None] when [ngx_http_complex_value] is undefined. *)
Fixpoint ngx_http_test_predicates (predicates : list (complex_value code)) (r : ngx_http_request)
    : option (ngx_rc * ngx_http_request) :=
  match predicates with
  | [] => Some (NGX_OK, r)
  | cv :: predicates =>
      match ngx_http_complex_value cv r with
      | None => None
      | Some (None, r) => Some (NGX_ERROR, r)
      | Some (Some val, r) =>
          if is_true (Value val true false false) then Some (NGX_DECLINED, r)
          else ngx_http_test_predicates predicates r
      end
  end.

(** [None] for NULL, otherwise [value] and the number of bytes up to [pos]. *)
Definition ngx_http_script_run (lengths : list len_code) (len : Z) (values : list code) (r : ngx_http_request)
    : option (option (list Z * Z) * ngx_http_request) :=
  let r := r <| variables := map flush (variables r) |> in
  match run_lengths lengths len ((zero_engine r) <| flushed := true |>) with
  | None => None
  | Some (len, e) =>
      if pnalloc len then
        match run_codes values ((new_buffer len e) <| buf := NoBuffer |>) with
        | Finished e => Some (Some (bytes_at e len, Z.of_nat (length (out e))), request e)
        | _ => None
        end
      else Some (None, request e)
  end.
End Engine.

End Script.
