(* ===== verification/ScriptFacts.v ===== *)
(** * Running scripts

    Straight-line codes come in pairs, a length code and a value code; [part]
    is such a pair.  The two runs of a list of parts are computed here, and
    what they have in common: the values of the variables, which the first run
    evaluates and the second finds. *)

From S2P Require Import Prelude HttpRequest Variables VariablesFacts Script.
Import HttpRequest.HttpRequest Variables.Variables VariablesFacts.VariablesFacts Script.Script.

Module ScriptFacts.

(** ** Sizes and offsets *)

Lemma align_eq n : align n = 8 * ((n + 7) / 8).
Proof.
  unfold align, sizeof_uintptr. rewrite <- Z.ldiff_land. change (8 - 1) with (Z.ones 3).
  rewrite Z.ldiff_ones_r by lia. rewrite Z.shiftl_mul_pow2, Z.shiftr_div_pow2 by lia.
  replace (n + 8 - 1) with (n + 7) by lia. change (2 ^ 3) with 8. lia.
Qed.

Lemma align_add n : align (16 + n) = 16 + align n.
Proof.
  rewrite !align_eq. replace (16 + n + 7) with (n + 7 + 2 * 8) by lia. rewrite Z.div_add by lia. lia.
Qed.

Lemma code_size_pos c : 8 <= code_size c.
Proof.
  destruct c; cbn; try lia. rewrite align_add, align_eq. pose proof (Z.div_pos (Z.of_nat (length text) + 7) 8). lia.
Qed.

Lemma size_of_app cs cs' : size_of (cs ++ cs') = size_of cs + size_of cs'.
Proof. induction cs as [|c cs IH]; [done|]. cbn in *. unfold size_of in *. lia. Qed.

Lemma size_of_nonneg cs : 0 <= size_of cs.
Proof. induction cs as [|c cs IH]; [done|]. pose proof (code_size_pos c). cbn. unfold size_of in IH. lia. Qed.

Lemma code_at_middle pre c post : code_at (pre ++ c :: post) (size_of pre) = Some c.
Proof.
  induction pre as [|d pre IH]; [done|]. cbn [app code_at].
  change (size_of (d :: pre)) with (code_size d + size_of pre).
  pose proof (code_size_pos d). pose proof (size_of_nonneg pre).
  destruct (Z.eqb_spec (code_size d + size_of pre) 0); [lia|].
  by replace (code_size d + size_of pre - code_size d) with (size_of pre) by lia.
Qed.

(** A code that is found stands after the ones before it. *)
Lemma code_at_split cs off c : code_at cs off = Some c ->
  exists pre post, cs = pre ++ c :: post /\ off = size_of pre.
Proof.
  revert off. induction cs as [|d cs IH]; intros off H; [done|]. cbn [code_at] in H.
  destruct (Z.eqb_spec off 0) as [E|_].
  - injection H as ->. by exists [], cs.
  - apply IH in H as (pre & post & -> & E). exists (d :: pre), post. split; [done|].
    change (size_of (d :: pre)) with (code_size d + size_of pre). lia.
Qed.

(** ** Parts *)

Inductive part := PText (s : list Z) | PVar (i : nat) | PCapture (n : nat) | PArgs.

Definition len_of (p : part) : len_code :=
  match p with
  | PText s => copy_len_code (Z.of_nat (length s))
  | PVar i => copy_var_len_code i
  | PCapture n => copy_capture_len_code n
  | PArgs => mark_args_code
  end.
Definition code_of (p : part) : code :=
  match p with
  | PText s => copy_code s
  | PVar i => copy_var_code i
  | PCapture n => copy_capture_code n
  | PArgs => start_args_code
  end.
Definition len_codes (ps : list part) : list len_code := map len_of ps ++ [null_len_code].
Definition value_codes (ps : list part) : list code := map code_of ps ++ [null_code].

(** What the theorems on scripts ask of the environment. *)
Class EnvOk `{Env} : Prop := {
  module_ok : handlers_ok module_handler;
  set_ok : handlers_set cmcf;
  escape_count_nonneg : forall s, 0 <= escape_count s;
  escape_length : forall s, Z.of_nat (length (ngx_escape_uri s)) = Z.of_nat (length s) + 2 * escape_count s;
}.

Section Run.
Context `{EnvOk}.

Abbreviation nvars := (length (conf_variables cmcf)).

Definition part_ok (p : part) : Prop :=
  match p with
  | PVar i => (i < nvars)%nat
  | PCapture n => Nat.even n = true
  | _ => True
  end.

(** The variables of the parts are evaluated. *)
Definition settled (ps : list part) (r : ngx_http_request) : Prop :=
  Forall (fun p => match p with PVar i => evaluated (value_at r i) | _ => True end) ps.

Definition special (r : ngx_http_request) : bool := quoted_uri r || plus_in_uri r.

(** What a part writes, escaping captures when [esc]. *)
Definition part_text (r : ngx_http_request) (esc : bool) (p : part) : list Z :=
  match p with
  | PText s => s
  | PVar i => variable_text r i
  | PCapture n =>
      if Z.of_nat n <? ncaptures r then
        if esc && special r then ngx_escape_uri (captured r n) else captured r n
      else []
  | PArgs => []
  end.

Definition is_args_part (p : part) : bool := match p with PArgs => true | _ => false end.

Fixpoint parts_text (r : ngx_http_request) (q a : bool) (ps : list part) : list Z :=
  match ps with
  | [] => []
  | p :: ps => part_text r (a || q) p ++ parts_text r q (a || is_args_part p) ps
  end.

(** What the length code of a part adds. *)
Definition part_len (r : ngx_http_request) (esc : bool) (p : part) : Z :=
  match p with PArgs => 1 | _ => Z.of_nat (length (part_text r esc p)) end.

Fixpoint parts_len (r : ngx_http_request) (q a : bool) (ps : list part) : Z :=
  match ps with
  | [] => 0
  | p :: ps => part_len r (a || q) p + parts_len r q (a || is_args_part p) ps
  end.

(** [ngx_regex_exec] leaves bounds of the subject in the vector. *)
Definition captures_ok (r : ngx_http_request) : Prop :=
  forall n, Nat.even n = true -> Z.of_nat n < ncaptures r ->
    Z.of_nat (length (captured r n)) = capture r (n + 1) - capture r n.

(** ** What an evaluation does not change *)

Lemma keeps_captured r r' n : keeps r r' -> captured r' n = captured r n.
Proof. intros []. unfold captured, capture. by rewrite keeps_captures0, keeps_captures_data0. Qed.

Lemma keeps_captures_ok r r' : keeps r r' -> captures_ok r -> captures_ok r'.
Proof.
  intros Hk Hc n He Hn. rewrite (keeps_captured _ _ _ Hk). unfold capture. rewrite (keeps_captures _ _ Hk).
  apply Hc; [done|]. by rewrite <- (keeps_ncaptures _ _ Hk).
Qed.

Lemma keeps_part_text r r' esc p : keeps r r' -> settled [p] r -> part_text r' esc p = part_text r esc p.
Proof.
  intros Hk Hs. apply Forall_cons_iff in Hs as [Hs _]. destruct p as [s|i|n|]; cbn; [done| | |done].
  - by apply keeps_text.
  - unfold special. rewrite (keeps_ncaptures _ _ Hk), (keeps_quoted _ _ Hk), (keeps_plus _ _ Hk).
    by rewrite (keeps_captured _ _ _ Hk).
Qed.

Lemma keeps_part_len r r' esc p : keeps r r' -> settled [p] r -> part_len r' esc p = part_len r esc p.
Proof. intros Hk Hs. destruct p; cbn [part_len]; [..|done]; by rewrite (keeps_part_text r r'). Qed.

Lemma keeps_settled r r' ps : keeps r r' -> settled ps r -> settled ps r'.
Proof.
  intros Hk. apply List.Forall_impl. intros [| i | |]; [done| |done|done].
  intros He. by rewrite (keeps_values _ _ Hk).
Qed.

(** ** The lengths *)

Lemma len_step_part p e : flushed e = true -> request_ok cmcf (request e) -> captures_ok (request e) -> part_ok p ->
  exists r', len_step (len_of p) e
    = Some (part_len r' (is_args e || quote e) p, e <| request := r' |> <| is_args := is_args e || is_args_part p |>)
  /\ keeps (request e) r' /\ settled [p] r'.
Proof.
  intros Hf Hr Hc Hp. destruct p as [s|i|n|]; cbn [len_of len_step].
  - exists (request e). unfold ngx_http_script_copy_len_code. cbn. rewrite orb_false_r.
    split_and!; [by destruct e|done|by repeat constructor].
  - unfold ngx_http_script_copy_var_len_code, get_variable. rewrite Hf.
    destruct (get_indexed_spec cmcf module_handler module_ok set_ok i (request e) Hr Hp)
      as (v & r' & E & Hk & He & Ht). rewrite E. exists r'. cbn [is_args_part]. rewrite orb_false_r.
    split_and!; [|done|by apply Forall_cons_iff].
    f_equal. f_equal. cbn [part_len part_text]. rewrite <- Ht.
    unfold found, found_text. destruct v as [v|]; [|done]. by destruct (not_found v).
  - exists (request e). unfold ngx_http_script_copy_capture_len_code. cbn [is_args_part]. rewrite orb_false_r.
    split_and!; [|done|by repeat constructor]. f_equal. f_equal; [|by destruct e].
    cbn [part_len part_text]. destruct (Z.ltb_spec (Z.of_nat n) (ncaptures (request e))); [|done].
    unfold escaped. fold (special (request e)). destruct (_ && _).
    + rewrite escape_length. by rewrite Hc.
    + by rewrite Hc.
  - exists (request e). unfold ngx_http_script_mark_args_code. cbn [is_args_part]. rewrite orb_true_r.
    split_and!; [by destruct e|done|by repeat constructor].
Qed.

Lemma run_lengths_parts ps e len : flushed e = true -> request_ok cmcf (request e) -> captures_ok (request e) ->
  Forall part_ok ps ->
  exists r' a', run_lengths (len_codes ps) len e
    = Some (len + parts_len r' (quote e) (is_args e) ps, e <| request := r' |> <| is_args := a' |>)
  /\ keeps (request e) r' /\ settled ps r' /\ a' = is_args e || existsb is_args_part ps.
Proof.
  revert e len. induction ps as [|p ps IH]; intros e len Hf Hr Hc Hps.
  { exists (request e), (is_args e). cbn. rewrite orb_false_r, Z.add_0_r.
    split_and!; [by destruct e|done|constructor|done]. }
  apply Forall_cons_iff in Hps as [Hp Hps].
  destruct (len_step_part p e Hf Hr Hc Hp) as (r1 & E1 & Hk1 & Hs1).
  destruct (IH (e <| request := r1 |> <| is_args := is_args e || is_args_part p |>)
              (len + part_len r1 (is_args e || quote e) p)) as (r2 & a2 & E2 & Hk2 & Hs2 & Ha2); [done| | |done|].
  { by eapply keeps_request_ok. }
  { by eapply keeps_captures_ok. }
  exists r2, a2. cbn in Hk2. split_and!.
  - unfold len_codes. cbn [map app Script.run_lengths]. fold (len_codes ps). cbn in E2. rewrite E1.
    assert (Hn : len_of p <> null_len_code) by by destruct p.
    destruct (len_of p) eqn:El; try (rewrite E2; cbn [parts_len]; f_equal; f_equal;
      rewrite (keeps_part_len r1 r2) by done; lia); done.
  - by etransitivity.
  - constructor; [|done]. apply (keeps_settled r1 r2 [p] Hk2) in Hs1. by apply Forall_cons_iff in Hs1 as [? _].
  - rewrite Ha2. cbn. by rewrite orb_assoc.
Qed.
(** ** The values *)

(** The engine after a part: only [out], [ip] and the flag of the arguments
    move. *)
Record wrote (p : list part) (e e' : engine) : Prop := Wrote {
  wrote_out : out e' = out e ++ parts_text (request e) (quote e) (is_args e) p;
  wrote_request : request e' = request e;
  wrote_buf : buf e' = buf e;
  wrote_allocated : allocated e' = allocated e;
  wrote_quote : quote e' = quote e;
  wrote_skip : skip e' = skip e;
  wrote_flushed : flushed e' = flushed e;
  wrote_is_args : is_args e' = is_args e || existsb is_args_part p;
}.

Lemma wrote_cons p ps e1 e2 e3 : wrote [p] e1 e2 -> wrote ps e2 e3 -> wrote (p :: ps) e1 e3.
Proof.
  intros [] []. split; try congruence.
  - rewrite wrote_out1, wrote_out0, wrote_request0, wrote_quote0, wrote_is_args0. cbn.
    by rewrite app_nil_r, !orb_false_r, <- app_assoc.
  - rewrite wrote_is_args1, wrote_is_args0. cbn. by rewrite orb_false_r, orb_assoc.
Qed.

Lemma step_part p e off : ip e = At off -> flushed e = true -> skip e = false ->
  part_ok p -> settled [p] (request e) ->
  exists e', step (code_of p) e = Some e' /\ ip e' = At (off + code_size (code_of p)) /\ wrote [p] e e'.
Proof.
  intros Hip Hf Hs Hp Hset. destruct p as [s|i|n|]; cbn [code_of step].
  - unfold ngx_http_script_copy_code. rewrite Hs. eexists. split; [done|]. unfold advance. cbn. rewrite Hip.
    split; [cbn; by rewrite align_add|]. split; cbn; rewrite ?app_nil_r, ?orb_false_r; done.
  - apply Forall_cons_iff in Hset as [He _]. unfold ngx_http_script_copy_var_code, advance. rewrite Hip. cbn. rewrite Hs.
    unfold get_variable. cbn. rewrite Hf, get_indexed_evaluated by done. eexists. split; [done|].
    unfold found, variable_text. destruct (not_found _) eqn:E; (split; [done|]); split; cbn;
      unfold variable_text; rewrite ?E, ?app_nil_r, ?orb_false_r; done.
  - unfold ngx_http_script_copy_capture_code, advance. rewrite Hip. eexists. split; [done|]. cbn.
    unfold escaped. cbn. fold (special (request e)).
    destruct (Z.of_nat n <? ncaptures (request e)) eqn:E; cbn; (split; [done|]); split; cbn;
      rewrite ?E, ?app_nil_r, ?orb_false_r; done.
  - unfold ngx_http_script_start_args_code, advance. cbn. rewrite Hip. eexists. split; [done|]. cbn.
    split; [done|]. split; cbn; rewrite ?app_nil_r, ?orb_true_r; done.
Qed.

Lemma run_parts ps pre e fuel : ip e = At (size_of pre) -> flushed e = true -> skip e = false ->
  Forall part_ok ps -> settled ps (request e) -> (length ps <= fuel)%nat ->
  exists e', run fuel (pre ++ value_codes ps) e = Finished e' /\ wrote ps e e'.
Proof.
  revert pre e fuel. induction ps as [|p ps IH]; intros pre e fuel Hip Hf Hs Hok Hset Hfuel.
  - exists e. destruct fuel; cbn [run]; rewrite Hip; cbn [value_codes map app];
      rewrite code_at_middle; (split; [done|]); split; cbn; rewrite ?app_nil_r, ?orb_false_r; done.
  - destruct fuel as [|fuel]; cbn [length] in Hfuel; [lia|]. apply Forall_cons_iff in Hok as [Hp Hok].
    apply Forall_cons_iff in Hset as [Hsp Hset].
    destruct (step_part p e (size_of pre)) as (e1 & E1 & Hip1 & Hw1); [done..|by apply Forall_cons_iff|].
    destruct (IH (pre ++ [code_of p]) e1 fuel) as (e2 & E2 & Hw2); try (by destruct Hw1; congruence); [| |lia|].
    + rewrite size_of_app. cbn. rewrite Hip1. f_equal. lia.
    + rewrite (wrote_request _ _ _ Hw1). done.
    + exists e2. split; [|by eapply wrote_cons].
      rewrite <- app_assoc in E2. change (value_codes (p :: ps)) with (code_of p :: value_codes ps).
      cbn [run]. rewrite Hip, code_at_middle, E1. destruct p; exact E2.
Qed.

(** ** The lengths cover the values *)

Lemma part_text_le r esc esc' p : (esc' = true -> esc = true) ->
  Z.of_nat (length (part_text r esc' p)) <= part_len r esc p.
Proof.
  intros Hi. destruct p as [s|i|n|]; cbn; try lia. destruct (_ <? _); [|done].
  pose proof (escape_length (captured r n)). pose proof (escape_count_nonneg (captured r n)).
  destruct esc', esc; cbn; [lia|by specialize (Hi eq_refl)| |lia]. destruct (special r); lia.
Qed.

(** A run with fewer flags than the lengths were computed with fits. *)
Lemma parts_text_le r q a q' a' ps : (q' = true -> q = true) -> (a' = true -> a = true) ->
  Z.of_nat (length (parts_text r q' a' ps)) <= parts_len r q a ps.
Proof.
  intros Hq. revert a a'. induction ps as [|p ps IH]; intros a a' Ha; cbn [parts_text parts_len]; [done|].
  rewrite length_app, Nat2Z.inj_add.
  pose proof (part_text_le r (a || q) (a' || q') p) as Hp.
  specialize (IH (a || is_args_part p) (a' || is_args_part p)).
  assert (Z.of_nat (length (part_text r (a' || q') p)) <= part_len r (a || q) p).
  { apply Hp. destruct a', q', a, q; cbn; auto. }
  assert (Z.of_nat (length (parts_text r q' (a' || is_args_part p) ps)) <= parts_len r q (a || is_args_part p) ps).
  { apply IH. destruct a', a, (is_args_part p); cbn; auto. }
  lia.
Qed.

Lemma parts_text_exact r q a ps : existsb is_args_part ps = false ->
  Z.of_nat (length (parts_text r q a ps)) = parts_len r q a ps.
Proof.
  revert a. induction ps as [|p ps IH]; intros a Hn; [done|]. cbn in Hn. apply orb_false_iff in Hn as [Hp Hn].
  cbn [parts_text parts_len]. rewrite length_app, Nat2Z.inj_add, IH by done. destruct p; done.
Qed.
End Run.

End ScriptFacts.
