(* ===== verification/ScriptCompile.v ===== *)
(** * Compiling a string with variables

    [ngx_http_script_compile] of [ngx_http_script.c] with the functions that
    add its codes, and [ngx_http_compile_complex_value].  The source string is
    read by position, as the code does. *)

From S2P Require Import Prelude HttpRequest Variables Script.
Import Variables.Variables Script.Script.

Module ScriptCompile.

(** An [ngx_array_t] of codes: the address of its elements, and the codes. *)
Record array (A : Type) := Array { elts : Z; codes : list A }.
Arguments Array {A}.
Arguments elts {A}.
Arguments codes {A}.

(** [ngx_http_script_compile_t]; an array that is NULL is [None]. *)
Record compile_t := Compile {
  flushes : option (list nat);
  lengths : option (array len_code);
  values : option (array code);
  sc_variables : Z;
  sc_ncaptures : Z;
  captures_mask : Z;
  size : Z;
  main : Z;   (** a pointer into the values *)
  compile_args : bool;
  complete_lengths : bool;
  complete_values : bool;
  zero : bool;
  conf_prefix : bool;
  root_prefix : bool;
  dup_capture : bool;
  sc_args : bool;
  conf : main_conf;   (** of [sc->cf] *)
}.

Definition eta_compile (s : compile_t) : compile_t :=
  Compile (flushes s) (lengths s) (values s) (sc_variables s) (sc_ncaptures s) (captures_mask s) (size s) (main s)
    (compile_args s) (complete_lengths s) (complete_values s) (zero s) (conf_prefix s) (root_prefix s)
    (dup_capture s) (sc_args s) (conf s).
#[export] Instance set_flushes : Setter flushes := ltac:(derive_setter eta_compile flushes).
#[export] Instance set_lengths : Setter lengths := ltac:(derive_setter eta_compile lengths).
#[export] Instance set_values : Setter values := ltac:(derive_setter eta_compile values).
#[export] Instance set_sc_variables : Setter sc_variables := ltac:(derive_setter eta_compile sc_variables).
#[export] Instance set_sc_ncaptures : Setter sc_ncaptures := ltac:(derive_setter eta_compile sc_ncaptures).
#[export] Instance set_captures_mask : Setter captures_mask := ltac:(derive_setter eta_compile captures_mask).
#[export] Instance set_size : Setter size := ltac:(derive_setter eta_compile size).
#[export] Instance set_main : Setter main := ltac:(derive_setter eta_compile main).
#[export] Instance set_compile_args : Setter compile_args := ltac:(derive_setter eta_compile compile_args).
#[export] Instance set_zero : Setter zero := ltac:(derive_setter eta_compile zero).
#[export] Instance set_dup_capture : Setter dup_capture := ltac:(derive_setter eta_compile dup_capture).
#[export] Instance set_sc_args : Setter sc_args := ltac:(derive_setter eta_compile sc_args).
#[export] Instance set_conf : Setter conf := ltac:(derive_setter eta_compile conf).

Section Compile.
(** Whether the build has [NGX_PCRE]. *)
Variable pcre : bool.
(** Memory: [ngx_array_create] and [ngx_array_push_n] give the address of the
    elements, [ngx_array_push] may fail. *)
Variable ngx_array_create : Z -> option Z.
Variable ngx_array_push_n : Z -> Z -> Z -> option Z.
Variable push_flush : nat -> bool.
(** For [ngx_http_get_variable_index]. *)
Variable alloc : allocation -> bool.
Variable ngx_strncasecmp : list Z -> list Z -> Z -> Z.
Variable ngx_strlow : list Z -> list Z.

(** ** Adding codes *)

Definition len_bytes (cs : list len_code) : Z := foldr (fun c n => len_size c + n) 0 cs.

(** [ngx_http_script_add_code] on [sc->lengths], with no pointer to move. *)
Definition add_len_code (c : len_code) (sc : compile_t) : option compile_t :=
  match lengths sc with
  | None => None
  | Some a =>
      match ngx_array_push_n (elts a) (len_bytes (codes a)) (len_size c) with
      | None => None
      | Some p => Some (sc <| lengths := Some (Array p (codes a ++ [c])) |>)
      end
  end.

(** [ngx_http_script_add_code] on [sc->values] with [&sc->main]: when the elements
    move, [main] moves with them. *)
Definition add_code (c : code) (sc : compile_t) : option compile_t :=
  match values sc with
  | None => None
  | Some a =>
      match ngx_array_push_n (elts a) (size_of (codes a)) (code_size c) with
      | None => None
      | Some p =>
          let sc := sc <| values := Some (Array p (codes a ++ [c])) |> in
          Some (if elts a =? p then sc else sc <| main := main sc + (p - elts a) |>)
      end
  end.

Definition add_both (lc : len_code) (c : code) (sc : compile_t) : option compile_t :=
  match add_len_code lc sc with
  | None => None
  | Some sc => add_code c sc
  end.

Definition ngx_http_script_add_copy_code (value : list Z) (last : bool) (sc : compile_t) : option compile_t :=
  let z := zero sc && last in
  let text := if z then value ++ [NUL] else value in
  match add_both (copy_len_code (Z.of_nat (length text))) (copy_code text) sc with
  | None => None
  | Some sc => Some (if z then sc <| zero := false |> else sc)
  end.

Definition ngx_http_script_add_var_code (name : list Z) (sc : compile_t) : option compile_t :=
  match ngx_http_get_variable_index alloc ngx_strncasecmp ngx_strlow name (conf sc) with
  | None => None
  | Some (i, c) =>
      let sc := sc <| conf := c |> in
      match flushes sc with
      | None => add_both (copy_var_len_code i) (copy_var_code i) sc
      | Some fl =>
          if push_flush (length fl) then
            add_both (copy_var_len_code i) (copy_var_code i) (sc <| flushes := Some (fl ++ [i]) |>)
          else None
      end
  end.

Definition ngx_http_script_add_args_code (sc : compile_t) : option compile_t :=
  add_both mark_args_code start_args_code sc.

Definition ngx_http_script_add_capture_code (n : Z) (sc : compile_t) : option compile_t :=
  match add_both (copy_capture_len_code (Z.to_nat (2 * n))) (copy_capture_code (Z.to_nat (2 * n))) sc with
  | None => None
  | Some sc => Some (if sc_ncaptures sc <? n then sc <| sc_ncaptures := n |> else sc)
  end.

Definition ngx_http_script_add_full_name_code (sc : compile_t) : option compile_t :=
  add_both (full_name_len_code (conf_prefix sc)) (full_name_code (conf_prefix sc)) sc.

(** ** The arrays *)

Definition create {A} (n : Z) (a : option (array A)) : option (array A) :=
  match a with
  | Some a => Some a
  | None => option_map (fun p => Array p []) (ngx_array_create n)
  end.

Definition ngx_http_script_init_arrays (source : list Z) (sc : compile_t) : option compile_t :=
  let per_variable := sc_variables sc * (2 * 16 + 16) + sizeof_uintptr in
  match create per_variable (lengths sc),
        create (align (per_variable + Z.of_nat (length source))) (values sc) with
  | Some l, Some v => Some (sc <| lengths := Some l |> <| values := Some v |> <| sc_variables := 0 |>)
  | _, _ => None
  end.

Definition done_zero (sc : compile_t) : option compile_t :=
  if zero sc then ngx_http_script_add_copy_code [NUL] false sc else Some sc.
Definition done_full_name (sc : compile_t) : option compile_t :=
  if conf_prefix sc || root_prefix sc then ngx_http_script_add_full_name_code sc else Some sc.
Definition done_lengths (sc : compile_t) : option compile_t :=
  if complete_lengths sc then add_len_code null_len_code sc else Some sc.
Definition done_values (sc : compile_t) : option compile_t :=
  if complete_values sc then add_code null_code sc else Some sc.

Definition ngx_http_script_done (sc : compile_t) : option compile_t :=
  ((done_zero sc ≫= done_full_name) ≫= done_lengths) ≫= done_values.

(** ** The loop over the source *)

Definition is_name_char (ch : Z) : bool := is_upper ch || is_lower ch || is_digit ch || (ch =? "_"%c).

(** The [for] over a name: [n] bytes are left at [i]; the result is [i], the
    length of the name and [bracket]. *)
Fixpoint scan_name (source : list Z) (n : nat) (i len : Z) (bracket : bool) : Z * Z * bool :=
  match n with
  | O => (i, len, bracket)
  | S n =>
      let ch := rd source i in
      if (ch =? "}"%c) && bracket then (i + 1, len, false)
      else if is_name_char ch then scan_name source n (i + 1) (len + 1) bracket
      else (i, len, bracket)
  end.

(** The [while] over plain text; [sc->args] is set by a "?". *)
Fixpoint scan_text (source : list Z) (n : nat) (i : Z) (sc : compile_t) : Z * compile_t :=
  match n with
  | O => (i, sc)
  | S n =>
      let ch := rd source i in
      if ch =? "$"%c then (i, sc)
      else if ch =? "?"%c then
        let sc := sc <| sc_args := true |> in
        if compile_args sc then (i, sc) else scan_text source n (i + 1) sc
      else scan_text source n (i + 1) sc
  end.

(** After a "$" at [i - 1]. *)
Definition compile_capture (n i : Z) (sc : compile_t) : option (Z * compile_t) :=
  let sc := if Z.land (captures_mask sc) (Z.shiftl 1 n) =? 0 then sc else sc <| dup_capture := true |> in
  let sc := sc <| captures_mask := Z.lor (captures_mask sc) (Z.shiftl 1 n) |> in
  option_map (fun sc => (i + 1, sc)) (ngx_http_script_add_capture_code n sc).

Definition compile_name (source : list Z) (bracket : bool) (i : Z) (sc : compile_t) : option (Z * compile_t) :=
  let '(j, len, bracket) := scan_name source (length source - Z.to_nat i) i 0 bracket in
  if bracket then None
  else if len =? 0 then None
  else
    option_map (fun sc => (j, sc))
      (ngx_http_script_add_var_code (slice source i (i + len)) (sc <| sc_variables := sc_variables sc + 1 |>)).

Definition compile_variable (source : list Z) (i : Z) (sc : compile_t) : option (Z * compile_t) :=
  let last := Z.of_nat (length source) in
  if i =? last then None
  else
    let ch := rd source i in
    if pcre && ("1"%c <=? ch) && (ch <=? "9"%c) then compile_capture (ch - "0"%c) i sc
    else if ch =? "{"%c then
      if i + 1 =? last then None else compile_name source true (i + 1) sc
    else compile_name source false i sc.

Definition compile_text (source : list Z) (i : Z) (sc : compile_t) : option (Z * compile_t) :=
  let (j, sc) := scan_text source (length source - Z.to_nat i) i sc in
  let sc := sc <| size := size sc + (j - i) |> in
  option_map (fun sc => (j, sc))
    (ngx_http_script_add_copy_code (slice source i j) (j =? Z.of_nat (length source)) sc).

(** One turn of the outer [for] at [i]. *)
Definition compile_turn (source : list Z) (i : Z) (sc : compile_t) : option (Z * compile_t) :=
  let ch := rd source i in
  if ch =? "$"%c then compile_variable source (i + 1) sc
  else if (ch =? "?"%c) && compile_args sc then
    option_map (fun sc => (i + 1, sc))
      (ngx_http_script_add_args_code (sc <| sc_args := true |> <| compile_args := false |>))
  else compile_text source i sc.

(** Every turn passes a byte, so the length of the source is fuel enough. *)
Fixpoint compile_loop (fuel : nat) (source : list Z) (i : Z) (sc : compile_t) : option compile_t :=
  if i <? Z.of_nat (length source) then
    match fuel with
    | O => None
    | S fuel =>
        match compile_turn source i sc with
        | None => None
        | Some (i, sc) => compile_loop fuel source i sc
        end
    end
  else Some sc.

(** [None] is [NGX_ERROR]. *)
Definition ngx_http_script_compile (source : list Z) (sc : compile_t) : option compile_t :=
  (ngx_http_script_init_arrays source sc ≫= compile_loop (length source) source 0) ≫= ngx_http_script_done.

Definition ngx_http_script_variables_count (value : list Z) : Z :=
  Z.of_nat (length (List.filter (fun ch => ch =? "$"%c) value)).

(** ** [ngx_http_compile_complex_value] *)

(** [ngx_conf_full_name (cycle, v, conf_prefix)] *)
Variable ngx_conf_full_name : list Z -> bool -> option (list Z).

(** [nv] and [nc]. *)
Fixpoint count_dollars (v : list Z) : Z * Z :=
  match v with
  | [] => (0, 0)
  | ch :: v =>
      let (nv, nc) := count_dollars v in
      if ch =? "$"%c then
        if ("1"%c <=? rd v 0) && (rd v 0 <=? "9"%c) then (nv, nc + 1) else (nv + 1, nc)
      else (nv, nc)
  end.

(** The complex value, the room there is for its flushes, and the configuration. *)
Definition ngx_http_compile_complex_value (value : list Z) (ccv_zero ccv_conf_prefix ccv_root_prefix : bool)
    (c : main_conf) : option (complex_value code * Z * main_conf) :=
  let (nv, nc) := count_dollars value in
  let full := ((length value =? 0)%nat || negb (rd value 0 =? "$"%c)) && (ccv_conf_prefix || ccv_root_prefix) in
  match (if full then ngx_conf_full_name value ccv_conf_prefix else Some value) with
  | None => None
  | Some v =>
      let cp := if full then false else ccv_conf_prefix in
      let rp := if full then false else ccv_root_prefix in
      if (nv =? 0) && (nc =? 0) then Some (ComplexValue v [] None [], 0, c)
      else
        let n := nv * (2 * 16 + 16) + sizeof_uintptr in
        match ngx_array_create (8 * (nv + 1)), ngx_array_create n, ngx_array_create (align (n + Z.of_nat (length v))) with
        | Some _, Some pl, Some pv =>
            match ngx_http_script_compile v
                    (Compile (Some []) (Some (Array pl [])) (Some (Array pv [])) 0 0 0 0 0 false true true
                       ccv_zero cp rp false false c) with
            | None => None
            | Some sc =>
                Some (ComplexValue v (default [] (flushes sc)) (option_map codes (lengths sc))
                        (default [] (option_map codes (values sc))), nv + 1, conf sc)
            end
        | _, _, _ => None
        end
  end.
End Compile.

End ScriptCompile.
