(* ===== verification/ScriptCompileFacts.v ===== *)
(** * Compiling a printed template

    A template is a list of pieces; [print] writes it as a configuration would.
    [compile_pieces] is what the loop of [ngx_http_script_compile] makes of it:
    a part per piece, and the table of variables with the names it meets. *)

From S2P Require Import Prelude HttpRequest Variables VariablesFacts Script ScriptFacts ScriptCompile.
Import HttpRequest.HttpRequest Variables.Variables VariablesFacts.VariablesFacts.
Import Script.Script ScriptFacts.ScriptFacts ScriptCompile.ScriptCompile.

Module ScriptCompileFacts.

(** ** Templates *)

Inductive piece :=
| Text (s : list Z)
| Var (brace : bool) (n : list Z)   (** [${n}] or [$n] *)
| Capture (d : Z).   (** [$1] to [$9] *)

Definition print_piece (p : piece) : list Z :=
  match p with
  | Text s => s
  | Var true n => "$"%c :: "{"%c :: n ++ ["}"%c]
  | Var false n => "$"%c :: n
  | Capture d => ["$"%c; d + "0"%c]
  end.
Definition print (ps : list piece) : list Z := flat_map print_piece ps.

Definition name_ok (n : list Z) : Prop := n <> [] /\ Forall (fun c => is_name_char c = true) n.
Definition is_capture_digit (c : Z) : bool := ("1"%c <=? c) && (c <=? "9"%c).

Definition piece_ok (p : piece) : Prop :=
  match p with
  | Text s => s <> [] /\ Forall (fun c => c <> "$"%c) s
  | Var true n => name_ok n
  | Var false n => name_ok n /\ is_capture_digit (rd n 0) = false
  | Capture d => 1 <= d <= 9
  end.

(** What can follow a piece: text is not cut, and a name without braces ends
    where a byte that is not of a name follows. *)
Definition follows (p : piece) (rest : list piece) : Prop :=
  match p with
  | Text _ => match rest with Text _ :: _ => False | _ => True end
  | Var false _ => match print rest with [] => True | c :: _ => is_name_char c = false end
  | _ => True
  end.

Fixpoint template_ok (ps : list piece) : Prop :=
  match ps with
  | [] => True
  | p :: ps => piece_ok p /\ follows p ps /\ template_ok ps
  end.

(** The part of a piece in a table of variables. *)
Definition piece_part (c : main_conf) (p : piece) (q : part) : Prop :=
  match p, q with
  | Text s, PText s' => s' = s
  | Var _ n, PVar i => names c !! i = Some (map tolower n)
  | Capture d, PCapture k => k = Z.to_nat (2 * d)
  | _, _ => False
  end.

Definition flush_of (q : part) : list nat := match q with PVar i => [i] | _ => [] end.

Definition is_var (p : piece) : bool := match p with Var _ _ => true | _ => false end.
Definition is_capture (p : piece) : bool := match p with Capture _ => true | _ => false end.

(** ** Bytes *)

Lemma name_char_not c : is_name_char c = true -> c <> "$"%c /\ c <> "}"%c /\ c <> "{"%c /\ c <> NUL.
Proof.
  intros H. split_and!; intros ->; discriminate H.
Qed.

Lemma name_no_nul n : Forall (fun c => is_name_char c = true) n -> no_nul n.
Proof. apply List.Forall_impl. intros c Hc. apply name_char_not in Hc. tauto. Qed.

Lemma scan_name_chars source n pre nm post len bracket :
  source = pre ++ nm ++ post -> Forall (fun c => is_name_char c = true) nm -> (length nm <= n)%nat ->
  scan_name source n (Z.of_nat (length pre)) len bracket
  = scan_name source (n - length nm) (Z.of_nat (length (pre ++ nm))) (len + Z.of_nat (length nm)) bracket.
Proof.
  revert n pre len. induction nm as [|c nm IH]; intros n pre len Hs Hn Hl.
  - by rewrite app_nil_r, Z.add_0_r, Nat.sub_0_r.
  - apply Forall_cons_iff in Hn as [Hc Hn]. destruct n as [|n]; cbn [length] in Hl; [lia|].
    assert (Hrd : rd source (Z.of_nat (length pre)) = c) by (rewrite Hs; apply rd_mid).
    cbn [scan_name]. rewrite Hrd, Hc.
    destruct (Z.eqb_spec c "}"%c) as [->|]; [discriminate Hc|]. cbn [andb].
    rewrite (length_snoc_Z pre c) by done. rewrite (IH n (pre ++ [c])); [|by rewrite <- app_assoc|done|lia].
    rewrite <- app_assoc. cbn [app]. f_equal. cbn [length]. lia.
Qed.

(** A name ends at the closing bracket, or at a byte that is not of a name. *)
Lemma scan_name_spec source pre nm post (brace : bool) : Forall (fun c => is_name_char c = true) nm ->
  source = pre ++ nm ++ (if brace then "}"%c :: post else post) ->
  (brace = false -> match post with [] => True | c :: _ => is_name_char c = false end) ->
  scan_name source (length source - length pre) (Z.of_nat (length pre)) 0 brace
  = (Z.of_nat (length (pre ++ nm)) + (if brace then 1 else 0), Z.of_nat (length nm), false).
Proof.
  intros Hn Hs Hp. rewrite (scan_name_chars source _ pre nm (if brace then "}"%c :: post else post) 0 brace Hs Hn)
    by (rewrite Hs, !length_app; lia).
  rewrite Z.add_0_l. destruct brace.
  - remember (length source - length pre - length nm)%nat as k eqn:Ek. destruct k as [|k].
    { rewrite Hs, !length_app in Ek. cbn in Ek. lia. }
    cbn [scan_name]. rewrite Hs, app_assoc, rd_mid. done.
  - specialize (Hp eq_refl). rewrite Z.add_0_r. destruct post as [|c post].
    + rewrite Hs, !length_app. cbn [length].
      replace (length pre + (length nm + 0) - length pre - length nm)%nat with O by lia. done.
    + remember (length source - length pre - length nm)%nat as k eqn:Ek. destruct k as [|k].
      { rewrite Hs, !length_app in Ek. cbn in Ek. lia. }
      cbn [scan_name]. rewrite Hs, app_assoc, rd_mid, Hp. by rewrite andb_false_r.
Qed.

Lemma scan_text_spec source pre s post sc : compile_args sc = false -> Forall (fun c => c <> "$"%c) s ->
  source = pre ++ s ++ post -> match post with [] => True | c :: _ => c = "$"%c end ->
  exists b, scan_text source (length source - length pre) (Z.of_nat (length pre)) sc
    = (Z.of_nat (length (pre ++ s)), sc <| sc_args := b |>).
Proof.
  intros Hc Hs -> Hp.
  assert (Hgen : forall n pre sc, compile_args sc = false -> (n = length s + length post)%nat ->
    exists b, scan_text (pre ++ s ++ post) n (Z.of_nat (length pre)) sc
      = (Z.of_nat (length (pre ++ s)), sc <| sc_args := b |>)).
  { clear pre sc Hc. induction s as [|c s IH]; intros n pre sc Hc Hn; cbn [length] in Hn.
    - exists (sc_args sc). rewrite app_nil_r. cbn [app]. destruct post as [|c post]; subst n; cbn [scan_text length Nat.add];
        [by destruct sc|]. subst c. rewrite rd_mid. cbn. by destruct sc.
    - apply Forall_cons_iff in Hs as [Hc' Hs]. subst n. cbn [Nat.add scan_text]. cbn [app]. rewrite rd_mid.
      destruct (Z.eqb_spec c "$"%c) as [|_]; [done|].
      rewrite (length_snoc_Z pre c) by done. specialize (IH Hs (length s + length post)%nat (pre ++ [c])).
      assert (Ha : (pre ++ [c]) ++ s ++ post = pre ++ c :: s ++ post) by by rewrite <- app_assoc.
      assert (Hl : (pre ++ [c]) ++ s = pre ++ c :: s) by by rewrite <- app_assoc.
      rewrite Ha, Hl in IH. destruct (c =? "?"%c).
      + change (compile_args (sc <| sc_args := true |>)) with (compile_args sc). rewrite Hc. specialize (IH (sc <| sc_args := true |>)).
        destruct (IH Hc eq_refl) as (b & E). exists b. exact E.
      + apply IH; done. }
  apply Hgen; [done|]. rewrite !length_app. lia.
Qed.

(** ** The loop *)

(** The compiler has made the parts [qs], with the flushes [fl]. *)
Record built (sc : compile_t) (qs : list part) (fl : list nat) (c : main_conf) : Prop := Built {
  built_lengths : exists a, lengths sc = Some (Array a (map len_of qs));
  built_values : exists a, values sc = Some (Array a (map code_of qs));
  built_flushes : flushes sc = Some fl;
  built_conf : conf sc = c;
  built_zero : zero sc = false;
  built_args : compile_args sc = false;
  built_complete_lengths : complete_lengths sc = true;
  built_complete_values : complete_values sc = true;
  built_conf_prefix : conf_prefix sc = false;
  built_root_prefix : root_prefix sc = false;
}.

Section Loop.
Context (ngx_array_create : Z -> option Z) (ngx_array_push_n : Z -> Z -> Z -> option Z).
Context (push_flush : nat -> bool) (alloc : allocation -> bool).
Context (ngx_strncasecmp : list Z -> list Z -> Z -> Z) (ngx_strlow : list Z -> list Z).
Hypothesis create_ok : forall n, exists a, ngx_array_create n = Some a.
Hypothesis push_n_ok : forall a n k, exists b, ngx_array_push_n a n k = Some b.
Hypothesis push_flush_ok : forall n, push_flush n = true.
Hypothesis alloc_ok : forall a, alloc a = true.
Hypothesis strncasecmp_ok : strncasecmp_spec ngx_strncasecmp.
Hypothesis strlow_ok : strlow_spec ngx_strlow.

Abbreviation compile_turn :=
  (compile_turn true ngx_array_push_n push_flush alloc ngx_strncasecmp ngx_strlow).
Abbreviation compile_loop :=
  (compile_loop true ngx_array_push_n push_flush alloc ngx_strncasecmp ngx_strlow).

Lemma add_len_built sc qs fl c lc : built sc qs fl c ->
  exists sc' a, add_len_code ngx_array_push_n lc sc = Some sc'
    /\ sc' = sc <| lengths := Some (Array a (map len_of qs ++ [lc])) |>.
Proof.
  intros [(a & Hl)]. unfold add_len_code. rewrite Hl. cbn [elts codes].
  destruct (push_n_ok a (len_bytes (map len_of qs)) (len_size lc)) as [b ->]. eauto.
Qed.

Lemma add_code_built sc a cs cd : values sc = Some (Array a cs) ->
  exists sc' b m, add_code ngx_array_push_n cd sc = Some sc'
    /\ sc' = sc <| values := Some (Array b (cs ++ [cd])) |> <| main := m |>.
Proof.
  intros Hv. unfold add_code. rewrite Hv. cbn [elts codes].
  destruct (push_n_ok a (size_of cs) (code_size cd)) as [b ->]. destruct (a =? b).
  - exists (sc <| values := Some (Array b (cs ++ [cd])) |>), b, (main sc). split; [done|]. by destruct sc.
  - eauto.
Qed.

Lemma add_both_built sc qs fl c q : built sc qs fl c ->
  exists sc', add_both ngx_array_push_n (len_of q) (code_of q) sc = Some sc' /\ built sc' (qs ++ [q]) fl c.
Proof.
  intros Hb. unfold add_both. destruct (add_len_built sc qs fl c (len_of q) Hb) as (sc1 & a & -> & E1).
  destruct Hb as [_ (b & Hv)].
  destruct (add_code_built sc1 b (map code_of qs) (code_of q)) as (sc2 & b' & m & -> & ->); [by rewrite E1|].
  eexists. split; [done|]. rewrite E1. split; cbn; rewrite ?map_app; eauto.
Qed.

Lemma add_text_built sc qs fl c t last : built sc qs fl c ->
  exists sc', ngx_http_script_add_copy_code ngx_array_push_n t last sc = Some sc' /\ built sc' (qs ++ [PText t]) fl c.
Proof.
  intros Hb. unfold ngx_http_script_add_copy_code. rewrite (built_zero _ _ _ _ Hb). cbn [andb].
  destruct (add_both_built sc qs fl c (PText t) Hb) as (sc' & E & Hb'). cbn [len_of code_of] in E. rewrite E. eauto.
Qed.

(** The table after more names. *)
Definition extends (c c' : main_conf) : Prop := exists more, names c' = names c ++ more.

Lemma extends_refl c : extends c c.
Proof. exists []. by rewrite app_nil_r. Qed.
Lemma extends_trans c1 c2 c3 : extends c1 c2 -> extends c2 c3 -> extends c1 c3.
Proof. intros [m Hm] [n Hn]. exists (m ++ n). by rewrite Hn, Hm, app_assoc. Qed.

Lemma piece_part_extends c c' p q : extends c c' -> piece_part c p q -> piece_part c' p q.
Proof.
  intros [m Hm]. destruct p, q; cbn; try done. intros Hn. rewrite Hm. apply lookup_app_l_Some. done.
Qed.

Lemma add_var_built sc qs fl c n : built sc qs fl c -> table_ok c -> name_ok n ->
  exists sc' i c', ngx_http_script_add_var_code ngx_array_push_n push_flush alloc ngx_strncasecmp ngx_strlow n sc = Some sc'
    /\ built sc' (qs ++ [PVar i]) (fl ++ [i]) c' /\ names c' !! i = Some (map tolower n)
    /\ table_ok c' /\ extends c c' /\ variables_keys c' = variables_keys c.
Proof.
  intros Hb Ht [Hn Hc]. unfold ngx_http_script_add_var_code. rewrite (built_conf _ _ _ _ Hb).
  destruct (get_index_total alloc ngx_strncasecmp ngx_strlow n c Hn alloc_ok) as (i & c' & E). rewrite E.
  destruct (get_index_spec alloc ngx_strncasecmp ngx_strlow strncasecmp_ok strlow_ok n c i c' Ht (name_no_nul n Hc) E)
    as (Ht' & Hi & Hmore & Hk).
  change (flushes (sc <| conf := c' |>)) with (flushes sc). rewrite (built_flushes _ _ _ _ Hb), push_flush_ok.
  destruct (add_both_built (sc <| conf := c' |> <| flushes := Some (fl ++ [i]) |>) qs (fl ++ [i]) c' (PVar i))
    as (sc' & E' & Hb').
  { destruct Hb. by split. }
  exists sc', i, c'. split_and!; done.
Qed.

Lemma add_capture_built sc qs fl c d : built sc qs fl c ->
  exists sc', ngx_http_script_add_capture_code ngx_array_push_n d sc = Some sc'
    /\ built sc' (qs ++ [PCapture (Z.to_nat (2 * d))]) fl c.
Proof.
  intros Hb. unfold ngx_http_script_add_capture_code.
  destruct (add_both_built sc qs fl c (PCapture (Z.to_nat (2 * d))) Hb) as (sc' & E & Hb'). cbn [len_of code_of] in E.
  rewrite E. eexists. split; [done|]. destruct (_ <? _); [|done]. destruct Hb'. by split.
Qed.

Lemma snoc_shift (pre : list Z) a l : pre ++ a :: l = (pre ++ [a]) ++ l.
Proof. by rewrite <- app_assoc. Qed.

Lemma slice_here (pre m post : list Z) a b : a = Z.of_nat (length pre) -> b = Z.of_nat (length (pre ++ m)) ->
  slice (pre ++ m ++ post) a b = m.
Proof. intros -> ->. rewrite length_app. apply slice_mid. Qed.

(** The variable that stands at [i], after its "$". *)
Lemma compile_name_built (brace : bool) pre n rest sc qs fl c : built sc qs fl c -> table_ok c -> name_ok n ->
  (brace = false -> match rest with [] => True | ch :: _ => is_name_char ch = false end) ->
  exists sc' i c', compile_name ngx_array_push_n push_flush alloc ngx_strncasecmp ngx_strlow
      (pre ++ n ++ (if brace then "}"%c :: rest else rest)) brace (Z.of_nat (length pre)) sc
    = Some (Z.of_nat (length (pre ++ n)) + (if brace then 1 else 0), sc')
    /\ built sc' (qs ++ [PVar i]) (fl ++ [i]) c' /\ names c' !! i = Some (map tolower n)
    /\ table_ok c' /\ extends c c' /\ variables_keys c' = variables_keys c.
Proof.
  intros Hb Ht Hn Hrest. unfold compile_name. rewrite Nat2Z.id.
  rewrite (scan_name_spec _ pre n rest brace (proj2 Hn) eq_refl Hrest).
  destruct (Z.eqb_spec (Z.of_nat (length n)) 0) as [Hz|_]; [destruct Hn as [Hne _]; destruct n; [done|cbn in Hz; lia]|].
  rewrite slice_here by (rewrite ?length_app; lia).
  destruct (add_var_built (sc <| sc_variables := sc_variables sc + 1 |>) qs fl c n) as (sc' & i & c' & E & Hrest').
  { destruct Hb. by split. }
  { done. }
  { done. }
  exists sc', i, c'. rewrite E. done.
Qed.

Lemma digit_of d : 1 <= d <= 9 -> is_capture_digit (d + "0"%c) = true.
Proof. intros Hd. unfold is_capture_digit. apply andb_true_iff. split; apply Z.leb_le; lia. Qed.

Lemma print_head rest : template_ok rest -> match rest with Text _ :: _ => False | _ => True end ->
  match print rest with [] => True | c :: _ => c = "$"%c end.
Proof. destruct rest as [|[s|[|] n|d] rest]; done. Qed.

Lemma compile_variable_at pre ch rest sc : is_capture_digit ch = false ->
  compile_variable true ngx_array_push_n push_flush alloc ngx_strncasecmp ngx_strlow
    (pre ++ ch :: rest) (Z.of_nat (length pre)) sc
  = if ch =? "{"%c then
      if (length rest =? 0)%nat then None
      else compile_name ngx_array_push_n push_flush alloc ngx_strncasecmp ngx_strlow
             (pre ++ ch :: rest) true (Z.of_nat (length (pre ++ [ch]))) sc
    else compile_name ngx_array_push_n push_flush alloc ngx_strncasecmp ngx_strlow
           (pre ++ ch :: rest) false (Z.of_nat (length pre)) sc.
Proof.
  intros Hd. unfold compile_variable. rewrite rd_mid. unfold is_capture_digit in Hd. cbn [andb]. rewrite Hd.
  rewrite length_app. cbn [length].
  destruct (Z.eqb_spec (Z.of_nat (length pre)) (Z.of_nat (length pre + S (length rest)))); [lia|].
  rewrite (length_snoc_Z pre ch) by done.
  destruct (ch =? "{"%c); [|done]. rewrite length_app. cbn [length].
  destruct (Z.eqb_spec (Z.of_nat (length pre + 1)) (Z.of_nat (length pre + S (length rest)))),
    (Nat.eqb_spec (length rest) 0); lia || done.
Qed.

Lemma turn_dollar pre rest sc :
  compile_turn (pre ++ "$"%c :: rest) (Z.of_nat (length pre)) sc
  = compile_variable true ngx_array_push_n push_flush alloc ngx_strncasecmp ngx_strlow
      (pre ++ "$"%c :: rest) (Z.of_nat (length (pre ++ ["$"%c]))) sc.
Proof. unfold ScriptCompile.compile_turn. rewrite rd_mid. cbn. by rewrite (length_snoc_Z pre "$"%c). Qed.

Definition turn_done (source : list Z) (pre m : list Z) (p : piece) sc qs fl (c : main_conf) : Prop :=
  exists sc' q c', compile_turn source (Z.of_nat (length pre)) sc = Some (Z.of_nat (length (pre ++ m)), sc')
    /\ built sc' (qs ++ [q]) (fl ++ flush_of q) c' /\ piece_part c' p q
    /\ table_ok c' /\ extends c c' /\ variables_keys c' = variables_keys c.

Lemma turn_text pre s rest sc qs fl c : built sc qs fl c -> table_ok c -> piece_ok (Text s) ->
  match rest with [] => True | ch :: _ => ch = "$"%c end ->
  turn_done (pre ++ s ++ rest) pre s (Text s) sc qs fl c.
Proof.
  intros Hb Ht [Hne Hs] Hrest. unfold turn_done, ScriptCompile.compile_turn.
  destruct s as [|ch s]; [done|]. cbn [app]. rewrite rd_mid.
  pose proof Hs as Hs'. apply Forall_cons_iff in Hs' as [Hch _].
  destruct (Z.eqb_spec ch "$"%c) as [|_]; [done|]. rewrite (built_args _ _ _ _ Hb), andb_false_r.
  unfold compile_text. rewrite Nat2Z.id.
  destruct (scan_text_spec (pre ++ (ch :: s) ++ rest) pre (ch :: s) rest sc (built_args _ _ _ _ Hb) Hs eq_refl Hrest)
    as (b & E). cbn [app] in E. rewrite E.
  change (ch :: s ++ rest) with ((ch :: s) ++ rest). rewrite slice_here by done.
  match goal with |- context [ngx_http_script_add_copy_code _ _ ?l ?sc1] =>
    destruct (add_text_built sc1 qs fl c (ch :: s) l) as (sc' & E' & Hb') end.
  { destruct Hb. by split. }
  rewrite E'. exists sc', (PText (ch :: s)), c. rewrite app_nil_r. split_and!; try done. apply extends_refl.
Qed.

Lemma turn_capture pre d rest sc qs fl c : built sc qs fl c -> table_ok c -> 1 <= d <= 9 ->
  turn_done (pre ++ ["$"%c; d + "0"%c] ++ rest) pre ["$"%c; d + "0"%c] (Capture d) sc qs fl c.
Proof.
  intros Hb Ht Hd. unfold turn_done. cbn [app]. rewrite turn_dollar.
  unfold compile_variable. rewrite (snoc_shift pre "$"%c (_ :: _)), rd_mid.
  pose proof (digit_of d Hd) as Hdig. unfold is_capture_digit in Hdig. cbn [andb]. rewrite Hdig.
  rewrite !length_app. cbn [length].
  destruct (Z.eqb_spec (Z.of_nat (length pre + 1)) (Z.of_nat (length pre + 1 + S (length rest)))); [lia|].
  unfold compile_capture. replace (d + "0"%c - "0"%c) with d by lia.
  match goal with |- context [ngx_http_script_add_capture_code _ _ ?sc1] =>
    destruct (add_capture_built sc1 qs fl c d) as (sc' & E' & Hb') end.
  { destruct (_ =? 0); destruct Hb; by split. }
  rewrite E'. exists sc', (PCapture (Z.to_nat (2 * d))), c. rewrite app_nil_r. split_and!; try done; [|apply extends_refl].
  cbn [option_map]. do 2 f_equal. lia.
Qed.

Lemma turn_var (brace : bool) pre n rest sc qs fl c : built sc qs fl c -> table_ok c -> piece_ok (Var brace n) ->
  (brace = false -> match rest with [] => True | ch :: _ => is_name_char ch = false end) ->
  turn_done (pre ++ print_piece (Var brace n) ++ rest) pre (print_piece (Var brace n)) (Var brace n) sc qs fl c.
Proof.
  intros Hb Ht Hp Hrest. unfold turn_done.
  assert (Hn : name_ok n) by (destruct brace; [exact Hp|apply Hp]).
  destruct (compile_name_built brace (pre ++ (if brace then ["$"%c; "{"%c] else ["$"%c])) n rest sc qs fl c Hb Ht Hn Hrest)
    as (sc' & i & c' & E & Hrest').
  exists sc', (PVar i), c'. split; [|exact Hrest'].
  destruct brace; cbn [print_piece app]; rewrite turn_dollar.
  - rewrite (snoc_shift pre "$"%c (_ :: _)), compile_variable_at by done. change ("{"%c =? "{"%c) with true. cbn iota.
    destruct (Nat.eqb_spec (length ((n ++ ["}"%c]) ++ rest)) 0) as [Hl|_]; [rewrite !length_app in Hl; cbn in Hl; lia|].
    assert (Hm : (pre ++ ["$"%c]) ++ "{"%c :: (n ++ ["}"%c]) ++ rest = (pre ++ ["$"%c; "{"%c]) ++ n ++ "}"%c :: rest)
      by by rewrite <- !app_assoc.
    assert (Hl : length ((pre ++ ["$"%c]) ++ ["{"%c]) = length (pre ++ ["$"%c; "{"%c])) by by rewrite <- !app_assoc.
    rewrite Hm, Hl, E. do 2 f_equal. rewrite !length_app. cbn [length]. rewrite length_app. cbn [length]. lia.
  - destruct Hp as [_ Hd]. destruct n as [|ch n]; [by destruct Hn|].
    cbn [app]. rewrite (snoc_shift pre "$"%c (_ :: _)), compile_variable_at by exact Hd.
    destruct (Z.eqb_spec ch "{"%c) as [->|]; [destruct Hn as [_ Hn]; apply Forall_cons_iff in Hn as [Hn _]; discriminate Hn|].
    cbn [app] in E. rewrite E. do 2 f_equal. rewrite !length_app. cbn [length]. lia.
Qed.

(** One turn takes one piece. *)
Lemma turn_piece pre p rest sc qs fl c : built sc qs fl c -> table_ok c -> piece_ok p -> follows p rest ->
  template_ok rest -> turn_done (pre ++ print_piece p ++ print rest) pre (print_piece p) p sc qs fl c.
Proof.
  intros Hb Ht Hp Hf Hrest. destruct p as [s|brace n|d].
  - apply turn_text; [done..|]. by apply print_head.
  - apply turn_var; [done..|]. by intros ->.
  - by apply turn_capture.
Qed.

Lemma print_piece_pos p : piece_ok p -> (0 < length (print_piece p))%nat.
Proof. destruct p as [s|[|] n|d]; cbn; [|lia..]. intros [Hs _]. destruct s; [done|cbn; lia]. Qed.

Lemma loop_pieces ps pre sc qs fl c fuel : built sc qs fl c -> table_ok c -> template_ok ps ->
  (length (print ps) <= fuel)%nat ->
  exists sc' qs' c', compile_loop fuel (pre ++ print ps) (Z.of_nat (length pre)) sc = Some sc'
    /\ built sc' (qs ++ qs') (fl ++ flat_map flush_of qs') c' /\ Forall2 (piece_part c') ps qs'
    /\ table_ok c' /\ extends c c' /\ variables_keys c' = variables_keys c.
Proof.
  revert pre sc qs fl c fuel. induction ps as [|p ps IH]; intros pre sc qs fl c fuel Hb Ht Hps Hfuel.
  - exists sc, [], c. cbn [print flat_map]. rewrite !app_nil_r.
    split_and!; try done; [|apply extends_refl].
    destruct fuel; cbn [ScriptCompile.compile_loop]; destruct (Z.ltb_spec (Z.of_nat (length pre)) (Z.of_nat (length pre))); done || lia.
  - destruct Hps as (Hp & Hf & Hps). change (print (p :: ps)) with (print_piece p ++ print ps) in *.
    pose proof (print_piece_pos p Hp) as Hpos. rewrite length_app in Hfuel.
    destruct fuel as [|fuel]; [lia|]. cbn [ScriptCompile.compile_loop]. rewrite !length_app.
    destruct (Z.ltb_spec (Z.of_nat (length pre))
      (Z.of_nat (length pre + (length (print_piece p) + length (print ps))))) as [_|]; [|lia].
    destruct (turn_piece pre p ps sc qs fl c Hb Ht Hp Hf Hps) as (sc1 & q & c1 & E1 & Hb1 & Hq & Ht1 & Hx1 & Hk1).
    rewrite E1. destruct (IH (pre ++ print_piece p) sc1 (qs ++ [q]) (fl ++ flush_of q) c1 fuel Hb1 Ht1 Hps)
      as (sc2 & qs2 & c2 & E2 & Hb2 & Hqs & Ht2 & Hx2 & Hk2); [lia|].
    exists sc2, (q :: qs2), c2. rewrite <- app_assoc in E2. cbn [flat_map].
    rewrite <- !app_assoc in Hb2. cbn [app] in Hb2.
    split_and!; try done; [|by eapply extends_trans|congruence].
    constructor; [by eapply piece_part_extends|done].
Qed.

Lemma done_built sc qs fl c : built sc qs fl c -> exists sc' a b,
  ngx_http_script_done ngx_array_push_n sc = Some sc' /\ lengths sc' = Some (Array a (len_codes qs))
  /\ values sc' = Some (Array b (value_codes qs)) /\ flushes sc' = Some fl /\ conf sc' = c.
Proof.
  intros Hb. unfold ngx_http_script_done, done_zero, done_full_name.
  rewrite (built_zero _ _ _ _ Hb). cbn [mbind option_bind].
  rewrite (built_conf_prefix _ _ _ _ Hb), (built_root_prefix _ _ _ _ Hb). cbn [orb mbind option_bind].
  unfold done_lengths. rewrite (built_complete_lengths _ _ _ _ Hb).
  destruct (add_len_built sc qs fl c null_len_code Hb) as (sc1 & a & -> & E1). cbn [mbind option_bind].
  destruct Hb as [_ (b & Hv) Hfl Hc _ _ _ Hcv]. unfold done_values.
  assert (H1 : complete_values sc1 = true) by by rewrite E1. rewrite H1.
  destruct (add_code_built sc1 b (map code_of qs) null_code) as (sc2 & b' & m & -> & ->); [by rewrite E1|].
  exists (sc1 <| values := Some (Array b' (map code_of qs ++ [null_code])) |> <| main := m |>), a, b'.
  rewrite E1. done.
Qed.

Lemma compile_pieces ps a b c : table_ok c -> template_ok ps ->
  exists sc' qs c' a' b', ngx_http_script_compile true ngx_array_create ngx_array_push_n push_flush alloc ngx_strncasecmp ngx_strlow
      (print ps) (Compile (Some []) (Some (Array a [])) (Some (Array b [])) 0 0 0 0 0 false true true false false false false false c)
    = Some sc' /\ lengths sc' = Some (Array a' (len_codes qs)) /\ values sc' = Some (Array b' (value_codes qs))
    /\ flushes sc' = Some (flat_map flush_of qs) /\ conf sc' = c'
    /\ Forall2 (piece_part c') ps qs /\ table_ok c' /\ extends c c' /\ variables_keys c' = variables_keys c.
Proof.
  intros Ht Hps. unfold ngx_http_script_compile, ngx_http_script_init_arrays. cbn [lengths values create mbind option_bind].
  match goal with |- context [ScriptCompile.compile_loop _ _ _ _ _ _ ?f _ _ ?sc0] =>
    destruct (loop_pieces ps [] sc0 [] [] c f) as (sc1 & qs & c1 & E1 & Hb1 & Hq & Ht1 & Hx & Hk) end; [|done..|].
  { split; cbn; eauto. }
  cbn [app] in E1. change (Z.of_nat (length [])) with 0 in E1. rewrite E1. cbn [mbind option_bind].
  destruct (done_built sc1 qs _ c1 Hb1) as (sc2 & a2 & b2 & -> & ? & ? & ? & ?).
  exists sc2, qs, c1, a2, b2. done.
Qed.
End Loop.


(** ** Counting *)

Lemma count_text s v : Forall (fun c => c <> "$"%c) s -> count_dollars (s ++ v) = count_dollars v.
Proof.
  induction s as [|c s IH]; intros Hs; [done|]. apply Forall_cons_iff in Hs as [Hc Hs]. cbn [app count_dollars].
  rewrite IH by done. destruct (count_dollars v). destruct (Z.eqb_spec c "$"%c); done.
Qed.

Lemma name_no_dollar n : Forall (fun c => is_name_char c = true) n -> Forall (fun c => c <> "$"%c) n.
Proof. apply List.Forall_impl. intros c Hc. apply name_char_not in Hc. tauto. Qed.

Lemma count_print ps : template_ok ps ->
  count_dollars (print ps) = (Z.of_nat (length (List.filter is_var ps)), Z.of_nat (length (List.filter is_capture ps))).
Proof.
  induction ps as [|p ps IH]; intros Hps; [done|]. destruct Hps as (Hp & _ & Hps). specialize (IH Hps).
  change (print (p :: ps)) with (print_piece p ++ print ps). cbn [List.filter].
  destruct p as [s|[|] n|d]; cbn [is_var is_capture length].
  - rewrite count_text by apply Hp. exact IH.
  - cbn [print_piece app count_dollars].
    rewrite <- (app_assoc n), count_text by (apply name_no_dollar, Hp). cbn [app count_dollars]. rewrite IH.
    change (rd ("{"%c :: n ++ "}"%c :: print ps) 0) with "{"%c. cbn. f_equal. lia.
  - destruct Hp as [[Hne Hn] Hd]. cbn [print_piece app count_dollars]. rewrite count_text by by apply name_no_dollar.
    rewrite IH. assert (Hr : rd (n ++ print ps) 0 = rd n 0) by (destruct n; done). rewrite Hr.
    unfold is_capture_digit in Hd. rewrite Hd. cbn. f_equal. lia.
  - cbn [print_piece app count_dollars]. rewrite IH.
    change (rd (d + "0"%c :: print ps) 0) with (d + "0"%c).
    pose proof (digit_of d Hp) as Hd. unfold is_capture_digit in Hd. rewrite Hd.
    destruct (Z.eqb_spec (d + "0"%c) "$"%c) as [|_]; [cbn in Hp; lia|]. cbn. f_equal. lia.
Qed.

Lemma flushes_of_parts c ps qs : Forall2 (piece_part c) ps qs ->
  length (flat_map flush_of qs) = length (List.filter is_var ps).
Proof.
  induction 1 as [|p q ps qs Hpq H IH]; [done|]. cbn. rewrite length_app, IH. by destruct p, q.
Qed.

End ScriptCompileFacts.
