(* ===== verification/ScriptProps.v ===== *)
(** * What scripts promise

    A compiled template expands to its text with the values of its variables;
    the buffer a script is run into is large enough; every run ends.  The two
    ways in which the source breaks the second promise are at the end. *)

From S2P Require Import Prelude HttpRequest Variables VariablesFacts Script ScriptFacts ScriptCompile ScriptCompileFacts.
Import HttpRequest.HttpRequest Variables.Variables VariablesFacts.VariablesFacts.
Import Script.Script ScriptFacts.ScriptFacts ScriptCompile.ScriptCompile ScriptCompileFacts.ScriptCompileFacts.

Module ScriptProps.

(** ** Flushing *)

Lemma flush_one_ok i r : length (variables (set_value i (flush (value_at r i)) r)) = length (variables r)
  /\ forall j, no_cacheable (value_at r j) = false ->
       value_at (set_value i (flush (value_at r i)) r) j = value_at r j.
Proof.
  split; [apply length_set|]. intros j Hj. destruct (decide (i = j)) as [->|Hne]; [|by apply value_at_set_ne].
  unfold flush. rewrite Hj. unfold value_at, set_value. cbn.
  destruct (decide (j < length (variables r))%nat) as [Hl|Hl].
  - by rewrite nth_lookup, list_lookup_insert_eq.
  - by rewrite list_insert_ge by lia.
Qed.

(** A flush touches the cells of variables that are not cacheable only. *)
Record flushed_from (r r' : ngx_http_request) : Prop := FlushedFrom {
  flushed_length : length (variables r') = length (variables r);
  flushed_cached : forall j, no_cacheable (value_at r j) = false -> value_at r' j = value_at r j;
  flushed_captures : captures r' = captures r;
  flushed_ncaptures : ncaptures r' = ncaptures r;
  flushed_data : captures_data r' = captures_data r;
}.

Lemma flush_complex_value_ok flushes r : flushed_from r (ngx_http_script_flush_complex_value flushes r).
Proof.
  unfold ngx_http_script_flush_complex_value. revert r. induction flushes as [|i fl IH]; intros r; cbn [fold_left].
  - by split.
  - specialize (IH (set_value i (flush (value_at r i)) r)). destruct IH. destruct (flush_one_ok i r) as [Hl Hv].
    split; try done; [congruence|]. intros j Hj. rewrite flushed_cached0, Hv; [done..|]. by rewrite Hv.
Qed.

Lemma flushed_captures_ok r r' : flushed_from r r' -> captures_ok r -> captures_ok r'.
Proof.
  intros [] Hc n He Hn. unfold captured, capture in *. rewrite flushed_captures0, flushed_data0. apply Hc; congruence.
Qed.

(** ** Expansion *)

Section Expand.
Context `{EnvOk}.

(** The index of a name in the table. *)
Definition index_of (n : list Z) : option nat := fst <$> list_find (fun m => m = map tolower n) (names cmcf).

(** What a piece stands for in a request. *)
Definition piece_text (r : ngx_http_request) (p : piece) : list Z :=
  match p with
  | Text s => s
  | Var _ n => match index_of n with Some i => variable_text r i | None => [] end
  | Capture d => if 2 * d <? ncaptures r then captured r (Z.to_nat (2 * d)) else []
  end.
Definition expand (r : ngx_http_request) (ps : list piece) : list Z := flat_map (piece_text r) ps.

Lemma index_of_part c n i : table_ok c -> extends c cmcf -> names c !! i = Some (map tolower n) -> index_of n = Some i.
Proof.
  intros Ht [more Hm] Hi. unfold index_of. rewrite Hm.
  assert (Hf : list_find (fun m => m = map tolower n) (names c ++ more) = Some (i, map tolower n)); [|by rewrite Hf].
  apply list_find_Some. split_and!; [by apply lookup_app_l_Some|done|].
  intros j y Hj Hlt ->. apply lookup_lt_Some in Hi as Hil.
  rewrite lookup_app_l in Hj by lia. pose proof (NoDup_lookup _ _ _ _ (table_nodup c Ht) Hi Hj). lia.
Qed.

Lemma expand_parts c ps qs r : table_ok c -> extends c cmcf -> Forall (fun p => piece_ok p) ps ->
  Forall2 (piece_part c) ps qs -> parts_text r false false qs = expand r ps.
Proof.
  intros Ht Hx Hok Hps. induction Hps as [|p q ps qs Hpq Hrest IH]; [done|]. apply Forall_cons_iff in Hok as [Hp Hok].
  cbn [parts_text]. unfold expand in *. cbn [flat_map].
  assert (Ha : is_args_part q = false) by by destruct p, q. rewrite Ha. cbn [orb]. rewrite IH by done. f_equal.
  destruct p as [s|b n|d], q as [s'|i|k|]; cbn in Hpq; try done.
  - cbn. by rewrite (index_of_part c n i).
  - subst k. cbn. cbn in Hp. by rewrite Z2Nat.id by lia.
Qed.

Lemma parts_are_ok c ps qs : extends c cmcf -> Forall2 (piece_part c) ps qs ->
  Forall part_ok qs /\ existsb is_args_part qs = false.
Proof.
  intros [more Hm]. induction 1 as [|p q ps qs Hpq H1 [IH1 IH2]]; [done|]. split.
  - constructor; [|done]. destruct p as [| |d], q; cbn in *; try done.
    2: { subst. destruct (decide (0 <= d)); [|by replace (Z.to_nat (2 * d)) with O by lia].
         rewrite Z2Nat.inj_mul by lia. apply Nat.even_mul. }
    apply lookup_lt_Some in Hpq.
    assert (Hl : length (names cmcf) = (length (names c) + length more)%nat) by by rewrite Hm, length_app.
    unfold names in Hl, Hpq. rewrite !length_map in *. lia.
  - cbn. rewrite IH2. by destruct p, q.
Qed.

(** Both runs of a script without arguments: the second writes the bytes the
    first counted. *)
Lemma script_runs qs r : request_ok cmcf r -> captures_ok r -> Forall part_ok qs -> existsb is_args_part qs = false ->
  exists r' e, run_lengths (len_codes qs) 0 ((zero_engine r) <| flushed := true |>)
      = Some (Z.of_nat (length (parts_text r' false false qs)), (zero_engine r') <| flushed := true |>)
    /\ run_codes (value_codes qs) (new_buffer (Z.of_nat (length (parts_text r' false false qs)))
         ((zero_engine r') <| flushed := true |>)) = Finished e
    /\ result e = parts_text r' false false qs /\ request e = r' /\ keeps r r'.
Proof.
  intros Hr Hc Hq Ha.
  destruct (run_lengths_parts qs ((zero_engine r) <| flushed := true |>) 0) as (r' & a' & E & Hk & Hs & Ea); try done.
  cbn in E, Ea, Hk. rewrite Ha in Ea. subst a'.
  destruct (run_parts qs [] (new_buffer (parts_len r' false false qs) ((zero_engine r') <| flushed := true |>)) (length (value_codes qs)))
    as (e & E2 & Hw); try done.
  { unfold value_codes. rewrite length_app, length_map. lia. }
  rewrite <- parts_text_exact in E, E2, Hw by done. rewrite Z.add_0_l in E.
  exists r', e. split_and!; [exact E|exact E2| |by rewrite (wrote_request _ _ _ Hw)|done].
  unfold result. rewrite (wrote_buf _ _ _ Hw). cbn. unfold bytes_at.
  rewrite (wrote_out _ _ _ Hw). cbn. rewrite Nat2Z.id. apply take_app_length.
Qed.
End Expand.

(** Memory is there. *)
Record memory_ok (create : Z -> option Z) (push_n : Z -> Z -> Z -> option Z) (push : nat -> bool)
    (alloc : allocation -> bool) : Prop := MemoryOk {
  create_some : forall n, exists a, create n = Some a;
  push_n_some : forall a n k, exists b, push_n a n k = Some b;
  push_true : forall n, push n = true;
  alloc_true : forall a, alloc a = true;
}.

(** C7: A template compiles, its names in the table of variables, with room for the end
    of its flushes; and in a server that runs with this table (and more names), whose
    handlers of variables neither change values that are set nor the captures of the
    request (those of a map with regular expressions do, see [captures_replaced]), the
    complex value is the template expanded: its text, the values of its variables and
    the captures of the request. Variables that were evaluated and are cacheable keep
    their values. *)
Theorem complex_value_expands `{EnvOk} (create : Z -> option Z) (push_n : Z -> Z -> Z -> option Z)
    (push : nat -> bool) (alloc : allocation -> bool) (ngx_strncasecmp : list Z -> list Z -> Z -> Z)
    (ngx_strlow : list Z -> list Z) (full_name : list Z -> bool -> option (list Z)) (c : main_conf) (ps : list piece) :
  memory_ok create push_n push alloc -> strncasecmp_spec ngx_strncasecmp -> strlow_spec ngx_strlow ->
  (forall n, pnalloc n = true) -> table_ok c -> template_ok ps ->
  exists cv room c',
    ngx_http_compile_complex_value true create push_n push alloc ngx_strncasecmp ngx_strlow full_name
      (print ps) false false false c = Some (cv, room, c')
    /\ (cv_flushes cv = [] \/ Z.of_nat (length (cv_flushes cv)) < room) /\ table_ok c' /\ extends c c'
    /\ forall r, extends c' cmcf -> request_ok cmcf r -> captures_ok r ->
         exists r', ngx_http_complex_value cv r = Some (Some (expand r' ps), r')
           /\ forall j, evaluated (value_at r j) -> no_cacheable (value_at r j) = false -> value_at r' j = value_at r j.
Proof.
  intros [Hcr Hpn Hpu Hal] Hcmp Hlow Hmem Ht Hps. unfold ngx_http_compile_complex_value.
  rewrite count_print by done. rewrite andb_false_r.
  assert (Hok : Forall piece_ok ps).
  { clear -Hps. induction ps as [|p ps IH]; [done|]. destruct Hps as (? & _ & ?). constructor; [done|by apply IH]. }
  destruct ((_ =? 0) && (_ =? 0)) eqn:E0.
  - exists (ComplexValue (print ps) [] None []), 0, c. split_and!; [done|by left|done|apply extends_refl|].
    intros r _ _ _. exists r. split; [|done]. unfold ngx_http_complex_value. cbn. do 3 f_equal.
    apply andb_true_iff in E0 as [Ev Ec]. apply Z.eqb_eq in Ev, Ec. clear -Ev Ec.
    induction ps as [|p ps IH]; [done|]. unfold expand in *.
    change (print (p :: ps)) with (print_piece p ++ print ps). cbn [flat_map].
    destruct p; cbn [List.filter is_var is_capture length] in Ev, Ec; [|lia..]. cbn. f_equal. by apply IH.
  - destruct (Hcr (8 * (Z.of_nat (length (List.filter is_var ps)) + 1))) as [a1 ->].
    destruct (Hcr (Z.of_nat (length (List.filter is_var ps)) * (2 * 16 + 16) + sizeof_uintptr)) as [a2 ->].
    match goal with |- context [create ?n] => destruct (Hcr n) as [a3 ->] end.
    destruct (compile_pieces create push_n push alloc ngx_strncasecmp ngx_strlow Hpn Hpu Hal Hcmp Hlow ps a2 a3 c Ht Hps)
      as (sc & qs & c' & b1 & b2 & -> & -> & -> & -> & -> & Hq & Ht' & Hx & _).
    eexists _, _, c'. cbn [option_map default codes]. split_and!; [done| |done|done|].
    { right. cbn. rewrite (flushes_of_parts c' ps qs Hq). lia. }
    intros r Hxc Hr Hc. unfold ngx_http_complex_value. cbn [cv_lengths cv_flushes cv_values id].
    set (r0 := ngx_http_script_flush_complex_value (flat_map flush_of qs) r).
    pose proof (flush_complex_value_ok (flat_map flush_of qs) r) as Hfl. fold r0 in Hfl.
    destruct (parts_are_ok c' ps qs Hxc Hq) as [Hpo Hna].
    destruct (script_runs qs r0) as (r' & e & -> & E2 & Hres & Hreq & Hk); try done.
    { unfold request_ok in *. by rewrite (flushed_length _ _ Hfl). }
    { by eapply flushed_captures_ok. }
    rewrite Hmem, E2, Hres, Hreq. exists r'. rewrite (expand_parts c' ps qs r') by done. split; [done|].
    intros j Hj Hn. rewrite (keeps_values _ _ Hk), (flushed_cached _ _ Hfl) by (rewrite ?(flushed_cached _ _ Hfl); done).
    done.
Qed.

(** ** Room *)

(** C33: The buffer of a script is large enough for its parts: text, variables, even
    captures and a mark of arguments. It takes engines that have flushed their
    variables, handlers of variables that leave the values that are set and the captures
    alone, a request that is the same for both passes, and a length pass whose flags for
    escaping and for arguments are set wherever those of the copying pass are. Then the
    copy ends and writes no more than the length, and exactly the length when there are
    no arguments to mark and the flags agree. Without that it can write more, see
    [stale_is_args] and [captures_replaced]. *)
Theorem script_fits `{EnvOk} (qs : list part) (e v : engine) :
  flushed e = true -> request_ok cmcf (request e) -> captures_ok (request e) -> Forall part_ok qs ->
  flushed v = true -> skip v = false -> ip v = At 0 -> out v = [] ->
  (quote v = true -> quote e = true) -> (is_args v = true -> is_args e = true) ->
  exists n e', run_lengths (len_codes qs) 0 e = Some (n, e')
    /\ (request v = request e' ->
        exists v', run_codes (value_codes qs) v = Finished v' /\ Z.of_nat (length (out v')) <= n
          /\ (existsb is_args_part qs = false -> quote v = quote e -> is_args v = is_args e ->
              Z.of_nat (length (out v')) = n)).
Proof.
  intros Hf Hr Hc Hq Hfv Hsv Hip Hout Hquote Hargs.
  destruct (run_lengths_parts qs e 0 Hf Hr Hc Hq) as (r' & a' & E & _ & Hs & _).
  eexists _, _. split; [exact E|]. cbn [request]. intros Hreq. cbn in Hreq.
  destruct (run_parts qs [] v (length (value_codes qs))) as (v' & Ev & Hw); try done.
  { by rewrite Hreq. }
  { unfold value_codes. rewrite length_app, length_map. lia. }
  exists v'. rewrite (wrote_out _ _ _ Hw), Hout, Hreq. cbn [app]. split_and!; [exact Ev| |].
  - rewrite Z.add_0_l. by apply parts_text_le.
  - intros Ha -> ->. rewrite Z.add_0_l. by apply parts_text_exact.
Qed.

(** ** Termination *)

(** The jumps of the rewrite module go forward. *)
Definition next_ok (c : code) : Prop :=
  match c with
  | if_code next _ => 0 < next
  | regex_start_code c => 0 < rc_next c
  | _ => True
  end.

Section Terminates.
Context `{Env}.

Definition moves (off : Z) (e : engine) : Prop := ip e = Exit \/ exists d, 0 < d /\ ip e = At (off + d).

Lemma advance_moves off n e : ip e = At off -> 0 < n -> moves off (advance n e).
Proof. intros Hip Hn. right. exists n. split; [done|]. unfold advance. by rewrite Hip. Qed.

Lemma pop_ip e v e' : pop e = Some (v, e') -> ip e' = ip e.
Proof. unfold pop. destruct (sp e); [done|]. by intros [= _ <-]. Qed.

Lemma regex_matched_moves c e e' off : ip e = At off -> regex_matched c e = Some e' -> moves off e'.
Proof.
  intros Hip. unfold regex_matched. destruct (rc_status c =? 0); cbn [negb andb].
  - destruct (regex_len _ _) as [[len r]|]; [|done]. destruct (pnalloc _); intros [= <-]; [|by left].
    apply advance_moves; [exact Hip|lia].
  - destruct (negb (rc_redirect c)); [intros [= <-]; by left|].
    destruct (regex_len _ _) as [[len r]|]; [|done]. destruct (pnalloc _); intros [= <-]; [|by left].
    apply advance_moves; [exact Hip|lia].
Qed.

Lemma regex_start_moves c e e' off : ip e = At off -> 0 < rc_next c ->
  ngx_http_script_regex_start_code c e = Some e' -> moves off e'.
Proof.
  intros Hip Hn. unfold ngx_http_script_regex_start_code.
  destruct (if rc_uri c then _ else _) as [[[s cell] e1]|] eqn:E1; [|done].
  assert (Hip1 : ip e1 = At off).
  { destruct (rc_uri c); [by injection E1 as _ _ <-|]. destruct (pop e) as [[v e2]|] eqn:Ep; [|done].
    apply pop_ip in Ep. injection E1 as _ _ <-. congruence. }
  destruct (ngx_http_regex_exec _ _ _ _ _ _) as [rc r]. destruct rc; try (intros [= <-]; by left);
    destruct (rc_test c); try (intros [= <-]; apply advance_moves; [exact Hip1|lia]);
    by apply regex_matched_moves.
Qed.

Lemma regex_end_moves c e e' off : ip e = At off -> ngx_http_script_regex_end_code c e = Some e' -> moves off e'.
Proof.
  intros Hip. unfold ngx_http_script_regex_end_code, regex_end_redirect, take_args, add_request_args.
  repeat case_match; intros; simplify_eq; try (by left); by apply advance_moves.
Qed.

(** What follows an advance leaves [ip] alone. *)
Lemma moves_after off n e e' : ip e = At off -> 0 < n -> ip e' = ip (advance n e) -> moves off e'.
Proof. intros Hip Hn He. destruct (advance_moves off n e Hip Hn) as [E|(d & Hd & E)]; rewrite <- He in E; [by left|by right; eauto]. Qed.

Lemma get_variable_ip e i v e' : get_variable e i = Some (v, e') -> ip e' = ip e.
Proof. unfold get_variable. destruct (if flushed e then _ else _) as [[w r]|]; [|done]. by intros [= _ <-]. Qed.

Lemma compare_moves want e e' off : ip e = At off -> compare want e = Some e' -> moves off e'.
Proof.
  intros Hip. unfold compare. destruct (pop e) as [[v e1]|] eqn:E1; [|done].
  destruct (pop e1) as [[w e2]|] eqn:E2; [|done]. intros [= <-].
  apply pop_ip in E1, E2. apply (moves_after off 8 e2); [congruence|lia|done].
Qed.

Lemma copy_var_moves i e e' off : ip e = At off -> ngx_http_script_copy_var_code i e = Some e' -> moves off e'.
Proof.
  intros Hip. unfold ngx_http_script_copy_var_code. destruct (skip _); [intros [= <-]; by apply advance_moves|].
  destruct (get_variable _ i) as [[v e1]|] eqn:E; [|done]. apply get_variable_ip in E. intros [= <-].
  apply (moves_after off 16 e _ Hip); [lia|]. rewrite <- E. by destruct (found v).
Qed.

Lemma file_moves op e e' off : ip e = At off -> ngx_http_script_file_code op e = Some e' -> moves off e'.
Proof.
  intros Hip. unfold ngx_http_script_file_code. destruct (pop e) as [[v e1]|] eqn:E; [|done]. apply pop_ip in E.
  destruct (set_disable_symlinks _ _); intros [= <-]; [|by left].
  apply (moves_after off 16 e1); [congruence|lia|done].
Qed.

Lemma if_moves next c e e' off : ip e = At off -> 0 < next -> ngx_http_script_if_code next c e = Some e' -> moves off e'.
Proof.
  intros Hip Hn. unfold ngx_http_script_if_code. destruct (pop e) as [[v e1]|] eqn:E; [|done]. apply pop_ip in E.
  destruct (is_true v); intros [= <-]; apply advance_moves; try congruence; try lia; destruct c; cbn; congruence.
Qed.

Lemma complex_value_moves cs e e' off : ip e = At off -> ngx_http_script_complex_value_code cs e = Some e' -> moves off e'.
Proof.
  intros Hip. unfold ngx_http_script_complex_value_code. destruct (run_lengths _ _ _) as [[n le]|]; [|done].
  destruct (pnalloc n); intros [= <-]; [|by left]. by apply (moves_after off 16 e _ Hip).
Qed.

Lemma step_moves c e e' off : ip e = At off -> next_ok c -> step c e = Some e' -> moves off e'.
Proof.
  intros Hip Hn. destruct c; cbn [step next_ok] in *; try done;
    eauto using copy_var_moves, regex_start_moves, regex_end_moves, compare_moves, file_moves, if_moves, complex_value_moves.
  - intros [= <-]. pose proof (code_size_pos (copy_code text)) as Hs. cbn in Hs. rewrite align_add in Hs.
    apply advance_moves; [by destruct (skip e)|lia].
  - intros [= <-]. by apply advance_moves.
  - intros [= <-]. apply (moves_after off 16 e _ Hip); [lia|]. by destruct (Z.of_nat n <? _).
  - unfold ngx_http_script_full_name_code. destruct (buf e); try done.
    destruct (ngx_get_full_name _ _); intros [= <-]; [by apply advance_moves|by left].
  - unfold ngx_http_script_return_code. destruct (_ || _); [destruct (ngx_http_send_response _ _ _)|];
      intros [= <-]; by left.
  - intros [= <-]. by left.
  - intros [= <-]. by apply advance_moves.
  - unfold ngx_http_script_set_var_code. destruct (pop e) as [[v e1]|] eqn:E; [|done]. apply pop_ip in E.
    intros [= <-]. apply advance_moves; [cbn; congruence|lia].
  - unfold ngx_http_script_var_set_handler_code. destruct (pop e) as [[v e1]|] eqn:E; [|done]. apply pop_ip in E.
    intros [= <-]. apply advance_moves; [cbn; congruence|lia].
  - unfold ngx_http_script_var_code. destruct (ngx_http_get_flushed_variable _ _ _ _) as [[v r]|]; [|done].
    intros [= <-]. apply (moves_after off 16 (e <| request := r |>)); [done|lia|].
    destruct v as [v|]; [destruct (not_found v)|]; done.
  - intros [= <-]. by apply advance_moves.
Qed.

(** The codes from an offset on. *)
Lemma run_ends cs fuel e : Forall next_ok cs ->
  match ip e with
  | Exit => True
  | At off => forall pre post, cs = pre ++ post -> off = size_of pre -> (length post <= fuel)%nat
  end -> run fuel cs e <> OutOfFuel.
Proof.
  intros Hok. revert e. induction fuel as [|fuel IH]; intros e He; cbn [run]; destruct (ip e) as [off|] eqn:Hip; try done.
  all: destruct (code_at cs off) as [c|] eqn:Ec; [|done].
  all: destruct (code_at_split cs off c Ec) as (pre & post & Hcs & Hoff).
  - specialize (He pre (c :: post) Hcs Hoff). cbn in He. lia.
  - assert (Hc : next_ok c) by (rewrite Hcs in Hok; apply List.Forall_app in Hok as [_ Hok]; by apply Forall_cons_iff in Hok as [? _]).
    assert (Hstep : match step c e with Some e' => run fuel cs e' | None => Wrong end <> OutOfFuel); [|by destruct c].
    destruct (step c e) as [e'|] eqn:Es; [|done]. apply IH.
    destruct (step_moves c e e' off Hip Hc Es) as [->|(d & Hd & ->)]; [done|].
    intros pre' post' Hcs' Hoff'. specialize (He pre (c :: post) Hcs Hoff). cbn [length] in He.
    assert (Hlen : (length pre < length pre')%nat).
    { rewrite Hcs in Hcs'. destruct (decide (length pre < length pre')%nat) as [|Hge]; [done|].
      assert (Hp : pre = pre' ++ drop (length pre') pre).
      { assert (Ht : take (length pre') (pre ++ c :: post) = take (length pre') (pre' ++ post')) by by rewrite Hcs'.
        rewrite take_app_length, take_app_le in Ht by lia. rewrite <- Ht at 1. by rewrite take_drop. }
      rewrite Hp, size_of_app in Hoff. pose proof (size_of_nonneg (drop (length pre') pre)). lia. }
    assert (Hl : length cs = (length pre + S (length post))%nat) by by rewrite Hcs, length_app.
    assert (Hl' : length cs = (length pre' + length post')%nat) by by rewrite Hcs', length_app.
    lia.
Qed.
End Terminates.

(** Every run of a script ends: with the jumps of the source, which go
    forward, there are no more turns than codes, wherever the run starts and
    whatever handlers, regular expressions and allocation do. *)
Theorem engine_terminates `{Env} (cs : list code) (e : engine) :
  Forall next_ok cs -> run_codes cs e <> OutOfFuel.
Proof.
  intros Hok. apply run_ends; [done|]. destruct (ip e) as [off|]; [|done]. intros pre post -> _. rewrite length_app. lia.
Qed.

(** ** A server *)

(** A handler that fills its cell with the text "host". *)
Definition host_handler (h : nat) (d : Z) (i : nat) (r : ngx_http_request) : ngx_rc * ngx_http_request :=
  (NGX_OK, set_value i (set_found (bytes_of "host") (value_at r i)) r).

Definition hex (d : Z) : Z := if d <? 10 then d + "0"%c else d - 10 + "A"%c.
(** The bytes [NGX_ESCAPE_ARGS] escapes. *)
Definition escapes (c : Z) : bool :=
  (c <=? 32) || (127 <=? c) || existsb (Z.eqb c) (bytes_of "#%&+?").
Definition escape_args (s : list Z) : list Z :=
  flat_map (fun c => if escapes c then ["%"%c; hex (c / 16); hex (c mod 16)] else [c]) s.
Definition count_escapes (s : list Z) : Z := Z.of_nat (length (List.filter escapes s)).

(** The whole subject is matched, and is the first capture. *)
Definition match_all (re : nat) (s : list Z) (caps : option (list Z)) (n : Z) : Z * option (list Z) :=
  (2, Some [0; Z.of_nat (length s); 0; Z.of_nat (length s)]).

Definition server (c : main_conf) (handler : nat -> Z -> nat -> ngx_http_request -> ngx_rc * ngx_http_request) : Env := {|
  env_lookups := {| lookup_cookie := fun _ _ => None; lookup_argument := fun _ _ => None |};
  cmcf := c;
  module_handler := handler;
  set_handler := fun _ _ _ r => r;
  ngx_regex_exec := match_all;
  alloc_captures := true;
  pnalloc := fun _ => true;
  uninitialised := fun n => repeat 0 n;
  escape_count := count_escapes;
  ngx_escape_uri := escape_args;
  ngx_unescape_uri := fun s => (s, length s);
  cycle_conf_prefix := [];
  cycle_prefix := [];
  ngx_get_full_name := fun p s => Some (p ++ s);
  list_push := fun _ => true;
  ngx_http_send_response := fun r _ _ => (NGX_OK, r);
  ngx_http_update_location_config := fun r => r;
  set_disable_symlinks := fun _ _ => true;
  open_cached_file := fun _ => None;
|}.

Lemma escape_args_length s : Z.of_nat (length (escape_args s)) = Z.of_nat (length s) + 2 * count_escapes s.
Proof.
  unfold count_escapes. induction s as [|c s IH]; [done|]. unfold escape_args in *. cbn [flat_map List.filter].
  rewrite length_app, Nat2Z.inj_add, IH. destruct (escapes c); cbn [length]; lia.
Qed.

Lemma host_handler_ok : handlers_ok host_handler.
Proof.
  intros h d i r rc r' Hi He [= <- <-]. split; [by apply keeps_set|]. intros _. rewrite value_at_set_eq by done. by left.
Qed.

Lemma server_ok c handler : handlers_ok handler -> handlers_set c -> @EnvOk (server c handler).
Proof.
  intros Hh Hc. split; cbn; [done|done| |apply escape_args_length]. intros s. unfold count_escapes. lia.
Qed.

Definition one_variable : main_conf := MainConf [Variable_ (bytes_of "host") (Some (module_getter 0 0)) 0 0] [] 6.
Lemma one_variable_ok : table_ok one_variable /\ handlers_set one_variable.
Proof.
  split; [split|].
  - apply NoDup_singleton.
  - apply Forall_cons_iff. split; [|done]. split_and!; [|done|done]. repeat constructor; done.
  - intros [|[|i]] v H; by simplify_eq/=.
  - apply Forall_cons_iff. by split.
Qed.

Lemma complex_value_expands_witness :
  let E := server one_variable host_handler in
  exists cv room c', ngx_http_compile_complex_value true (fun _ => Some 0) (fun a _ _ => Some a) (fun _ => true)
      (fun _ => true) strncasecmp (map tolower) (fun s _ => Some s) (bytes_of "a-${Host}$1") false false false one_variable
    = Some (cv, room, c')
    /\ exists r', ngx_http_complex_value cv (blank_request (bytes_of "/x") 1 false [0; 2; 1; 2])
      = Some (Some (bytes_of "a-hostx"), r').
Proof.
  intros E. destruct one_variable_ok as [Ht Hs].
  destruct (@complex_value_expands E (server_ok _ _ host_handler_ok Hs) (fun _ => Some 0) (fun a _ _ => Some a)
    (fun _ => true) (fun _ => true) strncasecmp (map tolower) (fun s _ => Some s) one_variable
    [Text (bytes_of "a-"); Var true (bytes_of "Host"); Capture 1]) as (cv & room & c' & Ec & _ & _ & Hx & Hr).
  - split; eauto.
  - apply strncasecmp_is.
  - done.
  - done.
  - done.
  - vm_compute. repeat split; try done; repeat constructor; done.
  - exists cv, room, c'. split; [exact Ec|].
    destruct (Hr (blank_request (bytes_of "/x") 1 false [0; 2; 1; 2])) as (r' & Er & Hk).
    + vm_compute in Ec. injection Ec as _ _ <-. exists []. done.
    + done.
    + intros n He Hn. cbn in Hn. destruct n as [|[|[|[|n]]]]; [first [discriminate He|vm_compute; reflexivity]..|lia].
    + exists r'. rewrite Er. do 3 f_equal. vm_compute in Ec. injection Ec as <- _ _.
      apply (f_equal (option_map fst)) in Er. cbn [option_map fst] in Er.
      match type of Er with ?x = _ =>
        assert (Ev : x = Some (Some (bytes_of "a-hostx"))) by (vm_compute; reflexivity); rewrite Ev in Er end.
      congruence.
Defined.

Lemma script_fits_witness :
  let E := server one_variable host_handler in
  let r := blank_request (bytes_of "/+") 1 true [0; 2; 1; 2] in
  exists n e', run_lengths (len_codes [PText [1]; PArgs; PCapture 2]) 0 ((zero_engine r) <| flushed := true |>) = Some (n, e')
    /\ n = 5.
Proof.
  intros E r. destruct one_variable_ok as [Ht Hs].
  destruct (@script_fits E (server_ok _ _ host_handler_ok Hs) [PText [1]; PArgs; PCapture 2]
    ((zero_engine r) <| flushed := true |>) ((zero_engine r) <| flushed := true |>)) as (n & e' & En & Hv); try done.
  - intros n He Hn. cbn in Hn. destruct n as [|[|[|[|n]]]]; [first [discriminate He|vm_compute; reflexivity]..|lia].
  - repeat constructor.
  - exists n, e'. split; [exact En|]. vm_compute in En. by injection En as <- _.
Defined.

Lemma engine_terminates_witness :
  let E := server one_variable host_handler in
  run_codes [value_code [48]; if_code 32 None; break_code; null_code] (zero_engine (blank_request [47] 1 false [])) <> OutOfFuel.
Proof. apply (@engine_terminates (server one_variable host_handler)). repeat constructor. Defined.

(** ** Two ways past the end of the buffer *)

(** The codes of [rewrite ^(.* )$ /a?x=1] and [set $v $1]. *)
Definition rewrite_then_set : list code :=
  [regex_start_code (RegexCode (Regex 0 2 [] []) (Some [copy_len_code 2; mark_args_code; copy_len_code 3; null_len_code])
     0 0 1 false false true false false false);
   copy_code (bytes_of "/a"); start_args_code; copy_code (bytes_of "x=1"); regex_end_code_ (RegexEndCode true true false false);
   complex_value_code [copy_capture_len_code 2; null_len_code]; copy_capture_code 2; set_var_code 0; null_code].

(** [e->is_args] stays set after a rewrite with arguments, and
    [ngx_http_script_complex_value_code] computes its length without it: the
    capture of a URI with a "+" is copied escaped into a buffer for the text as
    it is. *)
Lemma stale_is_args :
  let E := server one_variable host_handler in
  exists e, run_codes rewrite_then_set (zero_engine (blank_request (bytes_of "/+") 1 true [])) = Finished e
    /\ allocated e = 2 /\ length (out e) = 4%nat.
Proof. eexists. split; [vm_compute; reflexivity|]. done. Qed.

(** The handler of [map $uri $m { ~(.* ) x; }]. *)
Definition map_handler (h : nat) (d : Z) (i : nat) (r : ngx_http_request) : ngx_rc * ngx_http_request :=
  let (v, r) := ngx_http_map_find one_variable match_all true (fun _ => None) (map tolower) (fun _ => true)
                  [(Regex 0 2 [] [], 0)] (uri r) r in
  (NGX_OK, set_value i (set_found (bytes_of "x") (value_at r i)) r).

(** A handler that runs a regular expression replaces the captures between the
    two runs of a script. *)
Lemma captures_replaced :
  let E := server one_variable map_handler in
  exists cv lengths len e1 e2,
    option_map (fun x => x.1.1) (ngx_http_compile_complex_value true (fun _ => Some 0) (fun a _ _ => Some a) (fun _ => true)
      (fun _ => true) strncasecmp (map tolower) (fun s _ => Some s) (bytes_of "$1$host") false false false one_variable) = Some cv
    /\ cv_lengths cv = Some lengths
    /\ run_lengths lengths 0 ((zero_engine (blank_request (bytes_of "/long") 1 false [0; 1; 0; 1])) <| flushed := true |>)
       = Some (len, e1)
    /\ run_codes (cv_values cv) (new_buffer len e1) = Finished e2 /\ len < Z.of_nat (length (out e2)).
Proof. do 5 eexists. split_and!; [vm_compute; reflexivity..|done]. Qed.

(** Without [NGX_PCRE] a "$1" is a variable, and is not counted for the room
    of the flushes: the end mark is written after the array. *)
Lemma flushes_without_pcre :
  exists cv room c', ngx_http_compile_complex_value false (fun _ => Some 0) (fun a _ _ => Some a) (fun _ => true)
      (fun _ => true) strncasecmp (map tolower) (fun s _ => Some s) (bytes_of "$1") false false false one_variable
    = Some (cv, room, c') /\ room = 1 /\ length (cv_flushes cv) = 1%nat.
Proof. do 3 eexists. split; [vm_compute; reflexivity|]. done. Qed.

End ScriptProps.
