(* ===== verification/Phases.v ===== *)
(** * The phases of a request

    From [ngx_http.c]: [ngx_http_init_phase_handlers], which lays the handlers
    of the modules out in one array; from [ngx_http_core_module.c]: the
    checkers of the phases, [ngx_http_core_run_phases] and [ngx_http_handler]
    that drive them, the redirects that start them again
    ([ngx_http_internal_redirect], [ngx_http_named_location]) and
    [ngx_http_update_location_config].  A handler or a configuration is its
    number; [r->phase_handler] is an index into the array. *)

From S2P Require Import Prelude HttpRequest Script.
Import HttpRequest.HttpRequest.

Module Phases.

(** ** The array *)

Inductive checker :=
| generic_phase | rewrite_phase | find_config_phase | post_rewrite_phase
| access_phase | post_access_phase | try_files_phase | content_phase.

(** [ngx_http_phase_handler_t] *)
Record phase_handler_t := PhaseHandler { checker_ : checker; handler : nat; next : Z }.

(** [phase_engine], with the number of structures the array has room for. *)
Record phase_engine := PhaseEngine {
  handlers : list phase_handler_t;
  room : Z;
  server_rewrite_index : Z;
  location_rewrite_index : Z;
}.

(** [cmcf->phases[i].handlers], from [NGX_HTTP_POST_READ_PHASE], and
    [cmcf->try_files]. *)
Record phases_conf := PhasesConf {
  post_read : list nat;
  server_rewrite : list nat;
  rewrite : list nat;
  preaccess : list nat;
  access : list nat;
  content : list nat;
  try_files : bool;
}.

Inductive phase :=
| NGX_HTTP_POST_READ_PHASE | NGX_HTTP_SERVER_REWRITE_PHASE | NGX_HTTP_FIND_CONFIG_PHASE
| NGX_HTTP_REWRITE_PHASE | NGX_HTTP_POST_REWRITE_PHASE | NGX_HTTP_PREACCESS_PHASE
| NGX_HTTP_ACCESS_PHASE | NGX_HTTP_POST_ACCESS_PHASE | NGX_HTTP_TRY_FILES_PHASE | NGX_HTTP_CONTENT_PHASE.

(** The values of [i] in the loop, below [NGX_HTTP_LOG_PHASE]. *)
Definition phases : list phase :=
  [NGX_HTTP_POST_READ_PHASE; NGX_HTTP_SERVER_REWRITE_PHASE; NGX_HTTP_FIND_CONFIG_PHASE;
   NGX_HTTP_REWRITE_PHASE; NGX_HTTP_POST_REWRITE_PHASE; NGX_HTTP_PREACCESS_PHASE;
   NGX_HTTP_ACCESS_PHASE; NGX_HTTP_POST_ACCESS_PHASE; NGX_HTTP_TRY_FILES_PHASE; NGX_HTTP_CONTENT_PHASE].

Definition phase_handlers (c : phases_conf) (p : phase) : list nat :=
  match p with
  | NGX_HTTP_POST_READ_PHASE => post_read c
  | NGX_HTTP_SERVER_REWRITE_PHASE => server_rewrite c
  | NGX_HTTP_REWRITE_PHASE => rewrite c
  | NGX_HTTP_PREACCESS_PHASE => preaccess c
  | NGX_HTTP_ACCESS_PHASE => access c
  | NGX_HTTP_CONTENT_PHASE => content c
  | _ => []
  end.

(** The variables of the loop; [ph] is the array up to the pointer. *)
Record layout := Layout {
  ph : list phase_handler_t;
  n : Z;
  l_server_rewrite : Z;
  l_location_rewrite : Z;
  find_config_index : Z;
}.

Definition use (hs : list nat) : Z := if (length hs =? 0)%nat then 0 else 1.
Definition nelts (hs : list nat) : Z := Z.of_nat (length hs).

(** The inner loop: the handlers of a phase, the last registered first. *)
Definition segment (ck : checker) (hs : list nat) (n : Z) : list phase_handler_t :=
  map (fun h => PhaseHandler ck h n) (rev hs).

Definition add_handlers (ck : checker) (hs : list nat) (n0 : Z) (s : layout) : layout :=
  let n := n0 + nelts hs in
  Layout (ph s ++ segment ck hs n) n (l_server_rewrite s) (l_location_rewrite s) (find_config_index s).

Definition layout_phase (c : phases_conf) (s : layout) (i : phase) : layout :=
  let hs := phase_handlers c i in
  match i with
  | NGX_HTTP_SERVER_REWRITE_PHASE =>
      let s := if l_server_rewrite s =? -1 then Layout (ph s) (n s) (n s) (l_location_rewrite s) (find_config_index s) else s in
      add_handlers rewrite_phase hs (n s) s
  | NGX_HTTP_FIND_CONFIG_PHASE =>
      Layout (ph s ++ [PhaseHandler find_config_phase 0 0]) (n s + 1) (l_server_rewrite s) (l_location_rewrite s) (n s)
  | NGX_HTTP_REWRITE_PHASE =>
      let s := if l_location_rewrite s =? -1 then Layout (ph s) (n s) (l_server_rewrite s) (n s) (find_config_index s) else s in
      add_handlers rewrite_phase hs (n s) s
  | NGX_HTTP_POST_REWRITE_PHASE =>
      if use (rewrite c) =? 0 then s
      else Layout (ph s ++ [PhaseHandler post_rewrite_phase 0 (find_config_index s)]) (n s + 1)
             (l_server_rewrite s) (l_location_rewrite s) (find_config_index s)
  | NGX_HTTP_ACCESS_PHASE => add_handlers access_phase hs (n s + 1) s
  | NGX_HTTP_POST_ACCESS_PHASE =>
      if use (access c) =? 0 then s
      else Layout (ph s ++ [PhaseHandler post_access_phase 0 (n s)]) (n s)
             (l_server_rewrite s) (l_location_rewrite s) (find_config_index s)
  | NGX_HTTP_TRY_FILES_PHASE =>
      if try_files c then
        Layout (ph s ++ [PhaseHandler try_files_phase 0 0]) (n s + 1)
          (l_server_rewrite s) (l_location_rewrite s) (find_config_index s)
      else s
  | NGX_HTTP_CONTENT_PHASE => add_handlers content_phase hs (n s) s
  | _ => add_handlers generic_phase hs (n s) s
  end.

(** The structures [ngx_pcalloc] is asked for; the pointer after them is the
    null checker that ends the array. *)
Definition phases_room (c : phases_conf) : Z :=
  use (rewrite c) + use (access c) + (if try_files c then 1 else 0) + 1
  + foldr (fun i m => nelts (phase_handlers c i) + m) 0 phases.

Definition ngx_http_init_phase_handlers (alloc : Z -> bool) (c : phases_conf) : option phase_engine :=
  if alloc (phases_room c) then
    let s := foldl (layout_phase c) (Layout [] 0 (-1) (-1) 0) phases in
    Some (PhaseEngine (ph s) (phases_room c) (l_server_rewrite s) (l_location_rewrite s))
  else None.

(** ** Locations *)

(** [ngx_http_try_file_t]: its name, compiled or not, and [test_dir]. *)
Record try_file := TryFile { tf_name : nat; tf_test_dir : bool }.
(** Where the last argument leads: a named location, or a URI with arguments. *)
Inductive target := Named (name : nat) | Uri (u a : list Z).

(** [ngx_http_core_loc_conf_t] *)
Record loc_conf_t := LocConf {
  lc_name : list Z;
  lc_internal : bool;
  lc_limit_except : Z;
  lc_limit_except_loc_conf : nat;
  lc_error_log : nat;
  lc_sendfile : bool;
  lc_client_body_in_file_only : Z;
  lc_client_body_in_single_buffer : bool;
  lc_keepalive_timeout : Z;
  lc_keepalive_requests : Z;
  lc_keepalive_disable : Z;
  lc_tcp_nopush : bool;
  lc_limit_rate : Z;
  lc_handler : option nat;
  lc_client_max_body_size : Z;
  lc_satisfy_all : bool;
  lc_try_files : option (list try_file * try_file * Z);   (** the last argument and [code] apart *)
}.

Definition NGX_HTTP_POST : Z := 0x0008.
Definition NGX_HTTP_KEEPALIVE_DISABLE_MSIE6 : Z := 4.
Definition NGX_HTTP_KEEPALIVE_DISABLE_SAFARI : Z := 8.
Definition NGX_HTTP_REQUEST_BODY_FILE_CLEAN : Z := 2.
Definition NGX_LOG_NOTICE : Z := 6.
Definition NGX_LOG_WARN : Z := 5.

(** What the phases call: the handlers of modules and the parts of the server
    around them. *)
Class Env := {
  engine_ : phase_engine;
  loc : nat -> loc_conf_t;   (** the configuration behind [r->loc_conf] *)
  server_loc : nat;   (** [cscf->ctx->loc_conf] *)
  named_locations : list (nat * nat);   (** a name and its [loc_conf] *)
  (** the handlers of a phase, and content handlers *)
  call_handler : nat -> ngx_http_request -> ngx_rc * ngx_http_request;
  ngx_http_core_find_location : ngx_http_request -> ngx_rc * ngx_http_request;
  ngx_http_discard_request_body : ngx_http_request -> ngx_http_request;
  ngx_http_finalize_request : ngx_http_request -> ngx_rc -> ngx_http_request;
  (** [ngx_list_push (&r->headers_out.headers)] with what it holds, and
      [ngx_pnalloc] *)
  list_push : ngx_http_request -> option ngx_table_elt;
  pnalloc : Z -> bool;
  (** [ngx_io.flags & NGX_IO_SENDFILE] *)
  io_sendfile : bool;
  (** the path of a [try_files] argument ([None] for an error), whether it is
      there and is a directory, [r->uri] for it, and where it leads as the last *)
  try_path : try_file -> ngx_http_request -> option (list Z);
  open_path : list Z -> option bool;
  try_uri : list Z -> try_file -> ngx_http_request -> option ngx_http_request;
  try_target : list Z -> target;
}.

Section Run.
Context `{Env}.

(** ** [ngx_http_update_location_config] *)

Definition update_body_flags (c : loc_conf_t) (r : ngx_http_request) : ngx_http_request :=
  let r :=
    if lc_client_body_in_file_only c =? 0 then r <| request_body_file_log_level := NGX_LOG_WARN |>
    else
      r <| request_body_in_file_only := true |> <| request_body_in_persistent_file := true |>
        <| request_body_in_clean_file := lc_client_body_in_file_only c =? NGX_HTTP_REQUEST_BODY_FILE_CLEAN |>
        <| request_body_file_log_level := NGX_LOG_NOTICE |> in
  r <| request_body_in_single_buf := lc_client_body_in_single_buffer c |>.

Definition update_keepalive (c : loc_conf_t) (r : ngx_http_request) : ngx_http_request :=
  let disabled f := negb (Z.land (lc_keepalive_disable c) f =? 0) in
  if keepalive r then
    if lc_keepalive_timeout c =? 0 then r <| keepalive := false |>
    else if lc_keepalive_requests c <=? requests r then r <| keepalive := false |>
    else if msie6 r && (method r =? NGX_HTTP_POST) && disabled NGX_HTTP_KEEPALIVE_DISABLE_MSIE6
    then r <| keepalive := false |>
    else if safari r && disabled NGX_HTTP_KEEPALIVE_DISABLE_SAFARI then r <| keepalive := false |>
    else r
  else r.

Definition ngx_http_update_location_config (r : ngx_http_request) : ngx_http_request :=
  let c := loc (loc_conf r) in
  let r := if Z.land (method r) (lc_limit_except c) =? 0 then r else r <| loc_conf := lc_limit_except_loc_conf c |> in
  let c := loc (loc_conf r) in
  let r := if is_main r then r <| conn_log := lc_error_log c |> else r in
  let r := r <| sendfile := io_sendfile && lc_sendfile c |> in
  let r := update_keepalive c (update_body_flags c r) in
  let r := if lc_tcp_nopush c then r else r <| tcp_nopush_disabled := true |> in
  let r := if limit_rate r =? 0 then r <| limit_rate := lc_limit_rate c |> else r in
  match lc_handler c with
  | Some h => r <| content_handler := Some h |>
  | None => r
  end.

(** ** The checkers

    A checker answers [NGX_AGAIN], with the next [phase_handler], or [NGX_OK]
    to leave the loop. *)

Definition goto (i : Z) (r : ngx_http_request) : ngx_rc * ngx_http_request := (NGX_AGAIN, r <| phase_handler := i |>).
Definition go_on (r : ngx_http_request) : ngx_rc * ngx_http_request := goto (phase_handler r + 1) r.
Definition stop (r : ngx_http_request) : ngx_rc * ngx_http_request := (NGX_OK, r).
Definition finalize (rc : ngx_rc) (r : ngx_http_request) : ngx_rc * ngx_http_request :=
  (NGX_OK, ngx_http_finalize_request r rc).

Definition ngx_http_core_generic_phase (p : phase_handler_t) (r : ngx_http_request) : ngx_rc * ngx_http_request :=
  let (rc, r) := call_handler (handler p) r in
  match rc with
  | NGX_OK => goto (next p) r
  | NGX_DECLINED => go_on r
  | NGX_AGAIN | NGX_DONE => stop r
  | _ => finalize rc r
  end.

Definition ngx_http_core_rewrite_phase (p : phase_handler_t) (r : ngx_http_request) : ngx_rc * ngx_http_request :=
  let (rc, r) := call_handler (handler p) r in
  match rc with
  | NGX_DECLINED => go_on r
  | NGX_DONE => stop r
  | _ => finalize rc r
  end.

(** The redirect to the name of a location. *)
Definition redirect_location (r : ngx_http_request) : ngx_rc * ngx_http_request :=
  let c := loc (loc_conf r) in
  let r := Script.ngx_http_clear_location r in
  match list_push r with
  | None => finalize (Code 500) r
  | Some e =>
      if (length (args r) =? 0)%nat then
        finalize (Code 301) (Script.push_location (Elt (hash e) (key e) (lc_name c)) r)
      else
        let r0 := Script.push_location e r in
        let text := lc_name c ++ "?"%c :: args r in
        if pnalloc (Z.of_nat (length text)) then
          finalize (Code 301) (Script.push_location (Elt (hash e) (key e) text) r)
        else finalize (Code 500) r0
  end.

Definition body_too_large (c : loc_conf_t) (r : ngx_http_request) : bool :=
  negb (content_length_n r =? -1) && negb (discard_body r) && negb (lc_client_max_body_size c =? 0)
  && (lc_client_max_body_size c <? content_length_n r).

Definition ngx_http_core_find_config_phase (r : ngx_http_request) : ngx_rc * ngx_http_request :=
  let r := r <| content_handler := None |> <| uri_changed := false |> in
  let (rc, r) := ngx_http_core_find_location r in
  if bool_decide (rc = NGX_ERROR) then finalize (Code 500) r
  else
    let c := loc (loc_conf r) in
    if negb (internal r) && lc_internal c then finalize (Code 404) r
    else
      let r := ngx_http_update_location_config r in
      (** [clcf] is still the location found, also under [limit_except] *)
      if body_too_large c r then
        finalize (Code 413) (ngx_http_discard_request_body (r <| expect_tested := true |>))
      else if bool_decide (rc = NGX_DONE) then redirect_location r
      else go_on r.

Definition ngx_http_core_post_rewrite_phase (p : phase_handler_t) (r : ngx_http_request) : ngx_rc * ngx_http_request :=
  if negb (uri_changed r) then go_on r
  else
    let r := r <| uri_changes := wrap 4 (uri_changes r - 1) |> in
    if uri_changes r =? 0 then finalize (Code 500) r
    else goto (next p) (r <| loc_conf := server_loc |>).

Definition NGX_HTTP_FORBIDDEN : Z := 403.
Definition NGX_HTTP_UNAUTHORIZED : Z := 401.

(** [r->headers_out.www_authenticate->hash = 0] *)
Definition clear_authenticate (r : ngx_http_request) : ngx_http_request :=
  match www_authenticate r with
  | Some i => r <| headers_out := alter (fun h => Elt 0 (key h) (value h)) i (headers_out r) |>
  | None => r
  end.

Definition ngx_http_core_access_phase (p : phase_handler_t) (r : ngx_http_request) : ngx_rc * ngx_http_request :=
  if negb (is_main r) then goto (next p) r
  else
    let (rc, r) := call_handler (handler p) r in
    match rc with
    | NGX_DECLINED => go_on r
    | NGX_AGAIN | NGX_DONE => stop r
    | NGX_OK =>
        if lc_satisfy_all (loc (loc_conf r)) then go_on r
        else goto (next p) (clear_authenticate (r <| access_code := 0 |>))
    | Code z =>
        if negb (lc_satisfy_all (loc (loc_conf r))) && ((z =? NGX_HTTP_FORBIDDEN) || (z =? NGX_HTTP_UNAUTHORIZED))
        then go_on (r <| access_code := z |>)
        else finalize rc r
    | _ => finalize rc r
    end.

Definition ngx_http_core_post_access_phase (r : ngx_http_request) : ngx_rc * ngx_http_request :=
  if access_code r =? 0 then go_on r
  else finalize (Code (access_code r)) (r <| access_code := 0 |>).

(** ** Redirects

    [run] is [ngx_http_core_run_phases]; [Undefined] is a phase handler that is
    outside the array. *)

Inductive run_result := Returned (r : ngx_http_request) | Undefined | OutOfFuel.

Definition then_ (x : run_result) (f : ngx_http_request -> run_result) : run_result :=
  match x with Returned r => f r | _ => x end.

(** [last] is whether the null checker follows; [ngx_http_finalize_request]
    runs the phases again when a content handler declines. *)
Definition ngx_http_core_content_phase (run : ngx_http_request -> run_result) (p : phase_handler_t) (last : bool)
    (r : ngx_http_request) : (ngx_rc * ngx_http_request) + run_result :=
  match content_handler r with
  | Some h =>
      let r := r <| write_event_handler := ngx_http_request_empty_handler |> in
      let (rc, r) := call_handler h r in
      if bool_decide (rc = NGX_DECLINED) then
        inr (run (r <| content_handler := None |> <| write_event_handler := ngx_http_core_run_phases_handler |>))
      else inl (finalize rc r)
  | None =>
      let (rc, r) := call_handler (handler p) r in
      inl (if negb (bool_decide (rc = NGX_DECLINED)) then finalize rc r
           else if negb last then go_on r
           else if rd (uri r) (Z.of_nat (length (uri r)) - 1) =? "/"%c then finalize (Code NGX_HTTP_FORBIDDEN) r
           else finalize (Code 404) r)
  end.

(** The flags of gzip and of the connection's errors are left out. *)
Definition ngx_http_handler (run : ngx_http_request -> run_result) (r : ngx_http_request) : run_result :=
  let r :=
    if internal r then r <| phase_handler := server_rewrite_index engine_ |>
    else
      let r := if connection_type r =? 0 then r <| keepalive := 1000 <? http_version r |>
               else if connection_type r =? 1 then r <| keepalive := false |>
               else if connection_type r =? 2 then r <| keepalive := true |>
               else r in
      r <| lingering_close := (0 <? content_length_n r) || headers_in_chunked r |> <| phase_handler := 0 |> in
  run (r <| valid_location := true |> <| write_event_handler := ngx_http_core_run_phases_handler |>).

(** [ngx_http_internal_redirect], but for the contexts of the modules and the
    cache, which it clears; it returns [NGX_DONE]. *)
Definition ngx_http_internal_redirect (run : ngx_http_request -> run_result) (u : list Z) (a : option (list Z))
    (r : ngx_http_request) : run_result :=
  let r := r <| uri_changes := wrap 4 (uri_changes r - 1) |> in
  if uri_changes r =? 0 then Returned (ngx_http_finalize_request (r <| main_count := main_count r + 1 |>) (Code 500))
  else
    let r := Script.ngx_http_set_exten (r <| uri := u |> <| args := default [] a |>) in
    let r := ngx_http_update_location_config (r <| loc_conf := server_loc |>) in
    ngx_http_handler run (r <| internal := true |> <| valid_unparsed_uri := false |> <| add_uri_to_alias := false |>
                            <| main_count := main_count r + 1 |>).

(** [ngx_http_named_location]; it returns [NGX_DONE]. *)
Definition ngx_http_named_location (run : ngx_http_request -> run_result) (name : nat) (r : ngx_http_request) : run_result :=
  let r := r <| main_count := main_count r + 1 |> in
  let r := r <| uri_changes := wrap 4 (uri_changes r - 1) |> in
  if uri_changes r =? 0 then Returned (ngx_http_finalize_request r (Code 500))
  else
    match list_find (fun nl => nl.1 = name) named_locations with
    | None => Returned (ngx_http_finalize_request r (Code 500))
    | Some (_, (_, lc)) =>
        let r := r <| internal := true |> <| content_handler := None |> <| uri_changed := false |> <| loc_conf := lc |> in
        let r := ngx_http_update_location_config r in
        run (r <| phase_handler := location_rewrite_index engine_ |>
               <| write_event_handler := ngx_http_core_run_phases_handler |>)
    end.

(** The last argument: a code, or a redirect. *)
Definition try_last (run : ngx_http_request -> run_result) (path : list Z) (code : Z) (r : ngx_http_request)
    : (ngx_rc * ngx_http_request) + run_result :=
  let done r := Returned (ngx_http_finalize_request r NGX_DONE) in
  if negb (code =? 0) then inl (finalize (Code code) r)
  else
    match try_target path with
    | Named name => inr (then_ (ngx_http_named_location run name r) done)
    | Uri u a => inr (then_ (ngx_http_internal_redirect run u (Some a) r) done)
    end.

(** The [for] over the arguments of [ngx_http_core_try_files_phase]. *)
Fixpoint try_files_loop (run : ngx_http_request -> run_result) (tfs : list try_file) (last : try_file) (code : Z)
    (r : ngx_http_request) : (ngx_rc * ngx_http_request) + run_result :=
  match tfs with
  | [] =>
      match try_path last r with
      | None => inl (finalize (Code 500) r)
      | Some path => try_last run path code r
      end
  | tf :: tfs =>
      match try_path tf r with
      | None => inl (finalize (Code 500) r)
      | Some path =>
          match open_path path with
          | None => try_files_loop run tfs last code r
          | Some is_dir =>
              if is_dir && negb (tf_test_dir tf) then try_files_loop run tfs last code r
              else
                match try_uri path tf r with
                | None => inl (finalize (Code 500) r)
                | Some r => inl (go_on (Script.ngx_http_set_exten r))
                end
          end
      end
  end.

Definition ngx_http_core_try_files_phase (run : ngx_http_request -> run_result) (r : ngx_http_request)
    : (ngx_rc * ngx_http_request) + run_result :=
  match lc_try_files (loc (loc_conf r)) with
  | None => inl (go_on r)
  | Some (tfs, last, code) => try_files_loop run tfs last code r
  end.

(** The checker of a structure; [inr] is a redirect, which leaves the loop. *)
Definition check (run : ngx_http_request -> run_result) (p : phase_handler_t) (last : bool) (r : ngx_http_request)
    : (ngx_rc * ngx_http_request) + run_result :=
  match checker_ p with
  | generic_phase => inl (ngx_http_core_generic_phase p r)
  | rewrite_phase => inl (ngx_http_core_rewrite_phase p r)
  | find_config_phase => inl (ngx_http_core_find_config_phase r)
  | post_rewrite_phase => inl (ngx_http_core_post_rewrite_phase p r)
  | access_phase => inl (ngx_http_core_access_phase p r)
  | post_access_phase => inl (ngx_http_core_post_access_phase r)
  | try_files_phase => ngx_http_core_try_files_phase run r
  | content_phase => ngx_http_core_content_phase run p last r
  end.

(** The structure at [r->phase_handler], and whether it is the last;
    [inr true] is the null checker. *)
Definition at_phase (r : ngx_http_request) : (phase_handler_t * bool) + bool :=
  let hs := handlers engine_ in
  if phase_handler r <? 0 then inr false
  else
    match hs !! Z.to_nat (phase_handler r) with
    | Some p => inl (p, phase_handler r + 1 =? Z.of_nat (length hs))
    | None => inr (phase_handler r =? Z.of_nat (length hs))
    end.

(** A turn, or the redirect in it, takes one from the fuel. *)
Fixpoint ngx_http_core_run_phases (fuel : nat) (r : ngx_http_request) : run_result :=
  match at_phase r with
  | inr true => Returned r
  | inr false => Undefined
  | inl (p, last) =>
      match fuel with
      | O => OutOfFuel
      | S fuel =>
          match check (ngx_http_core_run_phases fuel) p last r with
          | inr x => x
          | inl (NGX_OK, r) => Returned r
          | inl (_, r) => ngx_http_core_run_phases fuel r
          end
      end
  end.
End Run.

End Phases.
