(* ===== verification/PhasesProps.v ===== *)
(** * What the phases promise

    The array is laid out phase by phase and every [next] leads where the
    phases say; the loop over it ends, whatever the handlers answer and
    however the URI changes; the access handlers are combined as [satisfy]
    says. *)

From S2P Require Import Prelude HttpRequest Script Phases.
Import HttpRequest.HttpRequest Phases.Phases.

Module PhasesProps.

#[export] Instance phase_eq_dec : EqDecision phase.
Proof. solve_decision. Defined.

(** ** The array, phase by phase

    [size] is how many structures a phase puts into the array, [start] the
    index of its first, [part] the structures. *)

Definition size (c : phases_conf) (p : phase) : Z :=
  match p with
  | NGX_HTTP_FIND_CONFIG_PHASE => 1
  | NGX_HTTP_POST_REWRITE_PHASE => use (rewrite c)
  | NGX_HTTP_POST_ACCESS_PHASE => use (access c)
  | NGX_HTTP_TRY_FILES_PHASE => if try_files c then 1 else 0
  | _ => nelts (phase_handlers c p)
  end.

Fixpoint start_in (c : phases_conf) (l : list phase) (p : phase) : Z :=
  match l with
  | [] => 0
  | q :: l => if decide (q = p) then 0 else size c q + start_in c l p
  end.
Definition start (c : phases_conf) (p : phase) : Z := start_in c phases p.
#[local] Arguments start : simpl never.

Definition checker_of (p : phase) : checker :=
  match p with
  | NGX_HTTP_POST_READ_PHASE | NGX_HTTP_PREACCESS_PHASE => generic_phase
  | NGX_HTTP_SERVER_REWRITE_PHASE | NGX_HTTP_REWRITE_PHASE => rewrite_phase
  | NGX_HTTP_FIND_CONFIG_PHASE => find_config_phase
  | NGX_HTTP_POST_REWRITE_PHASE => post_rewrite_phase
  | NGX_HTTP_ACCESS_PHASE => access_phase
  | NGX_HTTP_POST_ACCESS_PHASE => post_access_phase
  | NGX_HTTP_TRY_FILES_PHASE => try_files_phase
  | NGX_HTTP_CONTENT_PHASE => content_phase
  end.

(** Where the structures of a phase lead; the checkers of the other phases do
    not look at [next]. *)
Definition next_of (c : phases_conf) (p : phase) : option Z :=
  match p with
  | NGX_HTTP_POST_READ_PHASE | NGX_HTTP_PREACCESS_PHASE
  | NGX_HTTP_SERVER_REWRITE_PHASE | NGX_HTTP_REWRITE_PHASE => Some (start c p + size c p)
  | NGX_HTTP_POST_REWRITE_PHASE => Some (start c NGX_HTTP_FIND_CONFIG_PHASE)
  | NGX_HTTP_ACCESS_PHASE => Some (start c NGX_HTTP_POST_ACCESS_PHASE + 1)
  | _ => None
  end.

Definition has_handlers (p : phase) : bool :=
  match p with
  | NGX_HTTP_FIND_CONFIG_PHASE | NGX_HTTP_POST_REWRITE_PHASE
  | NGX_HTTP_POST_ACCESS_PHASE | NGX_HTTP_TRY_FILES_PHASE => false
  | _ => true
  end.

(** [n] after the access phase is one more than the index when the phase has
    no handlers: the [n++] for [ngx_http_core_post_access_phase] is not undone. *)
Definition part (c : phases_conf) (p : phase) : list phase_handler_t :=
  let i := start c p in
  let seg nx := segment (checker_of p) (phase_handlers c p) nx in
  match p with
  | NGX_HTTP_FIND_CONFIG_PHASE => [PhaseHandler find_config_phase 0 0]
  | NGX_HTTP_POST_REWRITE_PHASE =>
      if use (rewrite c) =? 0 then [] else [PhaseHandler post_rewrite_phase 0 (start c NGX_HTTP_FIND_CONFIG_PHASE)]
  | NGX_HTTP_POST_ACCESS_PHASE => if use (access c) =? 0 then [] else [PhaseHandler post_access_phase 0 (i + 1)]
  | NGX_HTTP_TRY_FILES_PHASE => if try_files c then [PhaseHandler try_files_phase 0 0] else []
  | NGX_HTTP_ACCESS_PHASE => seg (i + nelts (access c) + 1)
  | NGX_HTTP_CONTENT_PHASE => seg (i + nelts (content c) + (1 - use (access c)))
  | p => seg (i + nelts (phase_handlers c p))
  end.

Lemma use_cases hs : use hs = 0 \/ use hs = 1.
Proof. destruct hs; [left | right]; done. Qed.

Lemma use_pos hs : 0 < nelts hs -> use hs = 1.
Proof. destruct hs; done. Qed.

Lemma length_part c p : Z.of_nat (length (part c p)) = size c p.
Proof.
  unfold part, size, segment. destruct p; rewrite ?length_map, ?length_rev; try done.
  - destruct (use_cases (rewrite c)) as [-> | ->]; done.
  - destruct (use_cases (access c)) as [-> | ->]; done.
  - by destruct (try_files c).
Qed.

Lemma size_nonneg c p : 0 <= size c p.
Proof. rewrite <- length_part. lia. Qed.

Lemma start_in_nonneg c l p : 0 <= start_in c l p.
Proof.
  induction l as [|q l IH]; simpl; [lia|].
  destruct (decide (q = p)); [lia|]. pose proof (size_nonneg c q). lia.
Qed.

Lemma start_nonneg c p : 0 <= start c p.
Proof. apply start_in_nonneg. Qed.

Lemma start_steps c :
  start c NGX_HTTP_POST_READ_PHASE = 0 /\
  start c NGX_HTTP_SERVER_REWRITE_PHASE = nelts (post_read c) /\
  start c NGX_HTTP_FIND_CONFIG_PHASE = start c NGX_HTTP_SERVER_REWRITE_PHASE + nelts (server_rewrite c) /\
  start c NGX_HTTP_REWRITE_PHASE = start c NGX_HTTP_FIND_CONFIG_PHASE + 1 /\
  start c NGX_HTTP_POST_REWRITE_PHASE = start c NGX_HTTP_REWRITE_PHASE + nelts (rewrite c) /\
  start c NGX_HTTP_PREACCESS_PHASE = start c NGX_HTTP_POST_REWRITE_PHASE + use (rewrite c) /\
  start c NGX_HTTP_ACCESS_PHASE = start c NGX_HTTP_PREACCESS_PHASE + nelts (preaccess c) /\
  start c NGX_HTTP_POST_ACCESS_PHASE = start c NGX_HTTP_ACCESS_PHASE + nelts (access c) /\
  start c NGX_HTTP_TRY_FILES_PHASE = start c NGX_HTTP_POST_ACCESS_PHASE + use (access c) /\
  start c NGX_HTTP_CONTENT_PHASE = start c NGX_HTTP_TRY_FILES_PHASE + (if try_files c then 1 else 0).
Proof.
  unfold start, phases. cbn [start_in].
  repeat first [rewrite (decide_False (P := _ = _)) by done | rewrite (decide_True (P := _ = _)) by done].
  cbn [size phase_handlers]. split_and!; lia.
Qed.

(** Two layouts, structure by structure. *)
Ltac same_parts :=
  repeat match goal with
  | |- _ ++ _ = _ ++ _ => f_equal
  | |- _ :: _ = _ :: _ => f_equal
  | |- segment _ _ ?a = segment _ _ ?b => replace b with a by lia; reflexivity
  | |- PhaseHandler _ _ ?a = PhaseHandler _ _ ?b => replace b with a by lia; reflexivity
  | |- [] = [] => reflexivity
  end.

Ltac known_sizes :=
  repeat match goal with
  | E : use _ = _ |- _ => rewrite E
  | E : try_files _ = _ |- _ => rewrite E
  end.

(** The fold, computed for what the configuration has. *)
Ltac by_layout :=
  match goal with c : phases_conf |- _ =>
    destruct (use_cases (rewrite c)), (use_cases (access c)), (try_files c) eqn:?
  end;
  do 3 (cbn [foldl layout_phase phase_handlers add_handlers ph n l_server_rewrite l_location_rewrite
             find_config_index handlers map concat Z.eqb];
        known_sizes).

Lemma init_inv alloc c e : ngx_http_init_phase_handlers alloc c = Some e ->
  room e = phases_room c /\
  server_rewrite_index e = start c NGX_HTTP_SERVER_REWRITE_PHASE /\
  location_rewrite_index e = start c NGX_HTTP_REWRITE_PHASE.
Proof.
  unfold ngx_http_init_phase_handlers. case_match; [|done]. intros [= <-].
  pose proof (start_steps c) as Hs. destruct_and! Hs. cbn [room server_rewrite_index location_rewrite_index].
  split; [done|]. unfold phases.
  by_layout; rewrite ?Z.add_0_l; cbn [l_server_rewrite l_location_rewrite]; split; lia.
Qed.

Lemma handlers_are alloc c e : ngx_http_init_phase_handlers alloc c = Some e ->
  handlers e = concat (map (part c) phases).
Proof.
  unfold ngx_http_init_phase_handlers. case_match; [|done]. intros [= <-].
  pose proof (start_steps c) as Hs. destruct_and! Hs.
  unfold phases. by_layout;
    cbn [ph n]; unfold part; cbn [checker_of phase_handlers];
    known_sizes; cbn [Z.eqb app];
    rewrite <- ?app_assoc; cbn [app]; rewrite ?app_nil_r; same_parts.
Qed.

Lemma all_phases p : p ∈ phases.
Proof. destruct p; repeat constructor. Qed.

(** A concatenation is read part by part. *)
Lemma concat_lookup c l p i : p ∈ l -> (i < length (part c p))%nat ->
  concat (map (part c) l) !! (Z.to_nat (start_in c l p) + i)%nat = part c p !! i.
Proof.
  induction l as [|q l IH]; [by intros ?%not_elem_of_nil|]. intros Hp Hi. cbn [start_in map concat].
  destruct (decide (q = p)) as [-> | Hq].
  - by rewrite lookup_app_l by lia.
  - apply elem_of_cons in Hp as [->|Hp]; [done|]. rewrite <- length_part.
    pose proof (start_in_nonneg c l p).
    rewrite lookup_app_r by lia. rewrite <- IH by done. f_equal. lia.
Qed.

Lemma concat_lookup_inv c l k ph : NoDup l -> concat (map (part c) l) !! k = Some ph ->
  exists p i, p ∈ l /\ part c p !! i = Some ph /\ k = (Z.to_nat (start_in c l p) + i)%nat.
Proof.
  revert k. induction l as [|q l IH]; intros k Hl; [done|]. apply list.NoDup_cons in Hl as [Hq Hl].
  cbn [start_in map concat]. intros [Hk | [Hk1 Hk2]]%lookup_app_Some.
  - exists q, k. rewrite decide_True by done. split_and!; [left | done | lia].
  - apply IH in Hk2 as (p & i & Hp & Hi & Hk2); [|done]. exists p, i.
    rewrite decide_False by (intros ->; done). split_and!; [by right | done|].
    pose proof (start_in_nonneg c l p).
    rewrite <- length_part. lia.
Qed.

(** A structure of the part of a phase. *)
Lemma part_entry c p i ph : part c p !! i = Some ph ->
  checker_ ph = checker_of p /\
  (forall nx, next_of c p = Some nx -> next ph = nx) /\
  (has_handlers p = true -> rev (phase_handlers c p) !! i = Some (handler ph)).
Proof.
  assert (Hseg : forall ck hs nx, segment ck hs nx !! i = Some ph ->
    checker_ ph = ck /\ next ph = nx /\ rev hs !! i = Some (handler ph)).
  { intros ck hs nx H. unfold segment in H. rewrite list_lookup_fmap in H.
    destruct (rev hs !! i) as [h|] eqn:E; simplify_eq/=. done. }
  pose proof (start_steps c) as Hs. destruct_and! Hs.
  destruct p; unfold part; cbn [has_handlers next_of checker_of size phase_handlers].
  all: try match goal with |- (if ?b then _ else _) !! _ = _ -> _ => destruct b; try done end.
  all: first [intros (Hc & Hn & Hr)%Hseg; rewrite Hc, Hn
             | intros Hi; apply list_lookup_singleton_Some in Hi as [_ <-]]; cbn [checker_ next].
  all: split_and!; try done; intros ? [= <-]; lia.
Qed.

Lemma entries alloc c e : ngx_http_init_phase_handlers alloc c = Some e ->
  forall k ph, handlers e !! k = Some ph ->
  exists p i, 0 <= i < size c p /\ Z.of_nat k = start c p + i /\
    checker_ ph = checker_of p /\ (forall nx, next_of c p = Some nx -> next ph = nx).
Proof.
  intros He k ph Hk. rewrite (handlers_are _ _ _ He) in Hk. apply concat_lookup_inv in Hk as (p & i & _ & Hi & ->).
  - pose proof (part_entry _ _ _ _ Hi) as (H1 & H2 & _).
    exists p, (Z.of_nat i). apply lookup_lt_Some in Hi. rewrite <- length_part.
    pose proof (start_nonneg c p). unfold start in *. split_and!; try done; lia.
  - apply (bool_decide_eq_true_1 _). by vm_compute.
Qed.

Lemma entry_at alloc c e : ngx_http_init_phase_handlers alloc c = Some e ->
  forall p i, 0 <= i < size c p -> exists ph,
    handlers e !! Z.to_nat (start c p + i) = Some ph /\
    checker_ ph = checker_of p /\
    (forall nx, next_of c p = Some nx -> next ph = nx) /\
    (has_handlers p = true -> rev (phase_handlers c p) !! Z.to_nat i = Some (handler ph)).
Proof.
  intros He p i Hi. rewrite <- length_part in Hi.
  destruct (lookup_lt_is_Some_2 (part c p) (Z.to_nat i) ltac:(lia)) as [ph Hph].
  exists ph. pose proof (part_entry _ _ _ _ Hph) as (H1 & H2 & H3). split_and!; try done.
  pose proof (start_nonneg c p). rewrite (handlers_are _ _ _ He), Z2Nat.inj_add by lia.
  unfold start. rewrite concat_lookup; [done | apply all_phases | lia].
Qed.

Lemma handlers_length alloc c e : ngx_http_init_phase_handlers alloc c = Some e ->
  Z.of_nat (length (handlers e)) = start c NGX_HTTP_CONTENT_PHASE + nelts (content c).
Proof.
  intros He. rewrite (handlers_are _ _ _ He). pose proof (start_steps c) as Hs. destruct_and! Hs.
  unfold phases. cbn [map concat]. rewrite !length_app, !Nat2Z.inj_add, !length_part.
  cbn [size phase_handlers length]. lia.
Qed.

(** [ngx_http_init_phase_handlers] lays the phases out one after another:
    the structures of a phase are at [start], [start + 1], ..., with the
    checker of the phase and its handlers, the last registered first; every
    [next] a checker uses is the first structure after the phase, after
    [post_access] for the access phase, and [find_config] for [post_rewrite];
    the array is exactly as long as the memory asked for, and rewriting starts
    at the indices kept for internal requests and named locations. *)
Theorem phases_layout alloc c e : ngx_http_init_phase_handlers alloc c = Some e ->
  (forall p i, 0 <= i < size c p -> exists ph,
     handlers e !! Z.to_nat (start c p + i) = Some ph /\
     checker_ ph = checker_of p /\
     (forall nx, next_of c p = Some nx -> next ph = nx) /\
     (has_handlers p = true -> rev (phase_handlers c p) !! Z.to_nat i = Some (handler ph))) /\
  (forall k ph, handlers e !! k = Some ph -> exists p i, 0 <= i < size c p /\ Z.of_nat k = start c p + i) /\
  room e = Z.of_nat (length (handlers e)) /\
  server_rewrite_index e = start c NGX_HTTP_SERVER_REWRITE_PHASE /\
  location_rewrite_index e = start c NGX_HTTP_REWRITE_PHASE.
Proof.
  intros He. pose proof (handlers_are _ _ _ He) as Hh. split_and!.
  - by apply (entry_at alloc).
  - intros k ph Hk. destruct (entries _ _ _ He _ _ Hk) as (p & i & Hi & Hk' & _). by exists p, i.
  - destruct (init_inv _ _ _ He) as (-> & _). rewrite Hh.
    unfold phases_room, phases. cbn [map concat foldr phase_handlers]. rewrite !length_app, !Nat2Z.inj_add, !length_part.
    cbn [size phase_handlers length]. change (nelts []) with 0. lia.
  - apply (init_inv _ _ _ He).
  - apply (init_inv _ _ _ He).
Qed.

(** ** The loop ends *)

Section Termination.
Context `{Env} (alloc : Z -> bool) (c : phases_conf).
Hypothesis engine_is : ngx_http_init_phase_handlers alloc c = Some engine_.

Abbreviation L := (Z.of_nat (length (handlers engine_))).

(** The phases are walked forwards, except by [post_rewrite]. *)
Lemma next_forward k p : handlers engine_ !! k = Some p ->
  match checker_ p with
  | generic_phase | rewrite_phase | access_phase => Z.of_nat k < next p <= L
  | post_rewrite_phase => 0 <= next p <= L
  | _ => True
  end.
Proof.
  intros Hk. destruct (entries _ _ _ engine_is _ _ Hk) as (q & i & Hi & Hk' & -> & Hn).
  rewrite (handlers_length _ _ _ engine_is).
  pose proof (start_steps c) as Hs. destruct_and! Hs. pose proof (fun p => size_nonneg c p) as Hz.
  pose proof (Hz NGX_HTTP_CONTENT_PHASE); pose proof (Hz NGX_HTTP_TRY_FILES_PHASE); pose proof (Hz NGX_HTTP_POST_READ_PHASE).
  pose proof (Hz NGX_HTTP_SERVER_REWRITE_PHASE); pose proof (Hz NGX_HTTP_REWRITE_PHASE).
  pose proof (Hz NGX_HTTP_POST_REWRITE_PHASE); pose proof (Hz NGX_HTTP_PREACCESS_PHASE).
  pose proof (Hz NGX_HTTP_ACCESS_PHASE); pose proof (Hz NGX_HTTP_POST_ACCESS_PHASE).
  cbn [size phase_handlers] in *.
  destruct q; cbn [checker_of]; try done; rewrite (Hn _ eq_refl); cbn [size phase_handlers] in *; try lia.
  pose proof (use_pos (access c)). lia.
Qed.

Lemma rewrite_indices : 0 <= server_rewrite_index engine_ <= L /\ 0 <= location_rewrite_index engine_ <= L.
Proof.
  destruct (init_inv _ _ _ engine_is) as (_ & -> & ->). rewrite (handlers_length _ _ _ engine_is).
  pose proof (start_steps c) as Hs. destruct_and! Hs.
  pose proof (start_nonneg c NGX_HTTP_SERVER_REWRITE_PHASE). pose proof (use_cases (rewrite c)).
  pose proof (use_cases (access c)). unfold nelts in *. destruct (try_files c); lia.
Qed.

(** What a module may do to a request whose phases go on. *)
Definition same_turn (r r' : ngx_http_request) : Prop :=
  phase_handler r' = phase_handler r /\ 0 < uri_changes r' <= uri_changes r.

Definition ok (r : ngx_http_request) : Prop := 0 <= phase_handler r <= L /\ 0 < uri_changes r < 16.

(** Every turn goes forward in the array, or takes a content handler away, or
    one of the URI changes that are left. *)
Definition measure (r : ngx_http_request) : Z :=
  2 * (uri_changes r * (L + 1) + (L - phase_handler r)) + (if content_handler r is Some _ then 1 else 0).

Hypothesis handlers_same_turn : forall h r rc r', call_handler h r = (rc, r') ->
  rc = NGX_OK \/ rc = NGX_DECLINED \/ rc = Code NGX_HTTP_FORBIDDEN \/ rc = Code NGX_HTTP_UNAUTHORIZED ->
  0 < uri_changes r -> same_turn r r'.
Hypothesis find_same_turn : forall r, 0 < uri_changes r -> same_turn r (ngx_http_core_find_location r).2.
Hypothesis try_uri_same_turn : forall path tf r r', try_uri path tf r = Some r' -> 0 < uri_changes r -> same_turn r r'.

Definition goes_down (r : ngx_http_request) (x : ngx_rc * ngx_http_request) : Prop :=
  x.1 = NGX_OK \/ (ok x.2 /\ measure x.2 < measure r).

Lemma goto_down r r' i : ok r -> 0 <= i <= L ->
  (phase_handler r < i /\ 0 < uri_changes r' <= uri_changes r \/ 0 < uri_changes r' < uri_changes r) ->
  goes_down r (goto i r').
Proof.
  intros [Hr Hu] Hi Hd. right. unfold goto, ok, measure in *. cbn. split; [lia|].
  destruct (content_handler r'), (content_handler r), Hd; nia.
Qed.

Lemma go_on_down r r' : ok r -> phase_handler r < L -> same_turn r r' -> goes_down r (go_on r').
Proof. intros Hr Hl [H1 H2]. unfold go_on. rewrite H1. apply goto_down; [done | destruct Hr; lia | lia]. Qed.

Lemma body_flags_same lc r : phase_handler (update_body_flags lc r) = phase_handler r /\
  uri_changes (update_body_flags lc r) = uri_changes r.
Proof. unfold update_body_flags. by split_ifs. Qed.

Lemma keepalive_same lc r : phase_handler (update_keepalive lc r) = phase_handler r /\
  uri_changes (update_keepalive lc r) = uri_changes r.
Proof. unfold update_keepalive. cbv zeta. by split_ifs. Qed.

Lemma update_same r : phase_handler (ngx_http_update_location_config r) = phase_handler r /\
  uri_changes (ngx_http_update_location_config r) = uri_changes r.
Proof.
  assert (Hs : forall lc x r0, phase_handler x = phase_handler r0 /\ uri_changes x = uri_changes r0 ->
    phase_handler (update_keepalive lc (update_body_flags lc x)) = phase_handler r0 /\
    uri_changes (update_keepalive lc (update_body_flags lc x)) = uri_changes r0).
  { intros lc x r0 [H1 H2]. destruct (keepalive_same lc (update_body_flags lc x)) as [-> ->].
    by destruct (body_flags_same lc x) as [-> ->]. }
  unfold ngx_http_update_location_config. cbv zeta.
  destruct (Z.land _ _ =? 0), (is_main _).
  all: match goal with |- context [update_keepalive ?lc (update_body_flags ?lc ?x)] =>
         pose proof (Hs lc x r (conj eq_refl eq_refl)) as H3; revert H3;
         generalize (update_keepalive lc (update_body_flags lc x))
       end.
  all: intros r3 H3; destruct (lc_tcp_nopush _), (lc_handler _); split_ifs; exact H3.
Qed.

Lemma same_turn_refl r : 0 < uri_changes r -> same_turn r r.
Proof. unfold same_turn. lia. Qed.

Lemma finalize_down r rc r' : goes_down r (finalize rc r').
Proof. by left. Qed.

Lemma stop_down r r' : goes_down r (stop r').
Proof. by left. Qed.

#[local] Hint Resolve finalize_down stop_down : core.

(** The turn of a request in the array, at the structure [p]. *)
Definition turn (r : ngx_http_request) (p : phase_handler_t) : Prop :=
  ok r /\ handlers engine_ !! Z.to_nat (phase_handler r) = Some p.

Lemma turn_inside r p : turn r p -> phase_handler r < L.
Proof. intros [[Hr _] Hp]. apply lookup_lt_Some in Hp. lia. Qed.

Lemma next_down r r' p : turn r p -> checker_ p = generic_phase \/ checker_ p = rewrite_phase \/ checker_ p = access_phase ->
  0 < uri_changes r' <= uri_changes r -> goes_down r (goto (next p) r').
Proof.
  intros [Hr Hp] Hc Hu. pose proof (next_forward _ _ Hp) as Hn. destruct Hr as [Hr Hr'].
  apply goto_down; [done| |left; split; [|done]]; destruct Hc as [E | [E | E]]; rewrite E in Hn; lia.
Qed.

Lemma on_down r r' p : turn r p -> same_turn r r' -> goes_down r (go_on r').
Proof. intros Ht Hs. apply go_on_down; [apply Ht | by eapply turn_inside | done]. Qed.

Lemma generic_down r p : turn r p -> checker_ p = generic_phase -> goes_down r (ngx_http_core_generic_phase p r).
Proof.
  intros Ht Hc. unfold ngx_http_core_generic_phase. destruct (call_handler _ _) as [rc r'] eqn:E.
  assert (0 < uri_changes r) by apply Ht.
  destruct rc; eauto.
  - destruct (handlers_same_turn _ _ _ _ E) as [_ Hs]; [by left | done|]. eapply next_down; eauto.
  - eapply on_down; [done|]. eapply handlers_same_turn; eauto.
Qed.

Lemma rewrite_down r p : turn r p -> goes_down r (ngx_http_core_rewrite_phase p r).
Proof.
  intros Ht. unfold ngx_http_core_rewrite_phase. destruct (call_handler _ _) as [rc r'] eqn:E.
  assert (0 < uri_changes r) by apply Ht.
  destruct rc; eauto. eapply on_down; [done|]. eapply handlers_same_turn; eauto.
Qed.

Lemma find_config_down r p : turn r p -> goes_down r (ngx_http_core_find_config_phase r).
Proof.
  intros Ht. unfold ngx_http_core_find_config_phase. cbv zeta.
  set (r0 := (r <| content_handler := None |>) <| uri_changed := false |>).
  pose proof (find_same_turn r0 ltac:(apply Ht)) as Hs.
  destruct (ngx_http_core_find_location r0) as [rc r'] eqn:E. cbn [snd] in Hs.
  destruct (update_same r') as [H1 H2].
  split_ifs; auto.
  - unfold redirect_location. cbv zeta. destruct (list_push _); [|done]. split_ifs; done.
  - eapply on_down; [done|]. unfold same_turn in *. rewrite H1, H2. apply Hs.
Qed.

Lemma post_rewrite_down r p : turn r p -> checker_ p = post_rewrite_phase -> goes_down r (ngx_http_core_post_rewrite_phase p r).
Proof.
  intros Ht Hc. pose proof Ht as [Hr Hp]. pose proof (next_forward _ _ Hp) as Hn. rewrite Hc in Hn.
  unfold ngx_http_core_post_rewrite_phase. destruct (uri_changed r); cbn [negb].
  - cbv zeta. destruct (uri_changes (r <| uri_changes := _ |>) =? 0) eqn:E; [done|].
    apply goto_down; [done..|]. right. cbn in E |- *. b2p. destruct Hr as [_ Hr].
    rewrite wrap_small in * by lia. lia.
  - eapply on_down; [done|]. apply same_turn_refl. apply Ht.
Qed.

Lemma access_down r p : turn r p -> checker_ p = access_phase -> goes_down r (ngx_http_core_access_phase p r).
Proof.
  intros Ht Hc. unfold ngx_http_core_access_phase. assert (Hu : 0 < uri_changes r) by apply Ht.
  destruct (is_main r); cbn [negb]; [|eapply next_down; eauto; lia].
  destruct (call_handler _ _) as [rc r'] eqn:E. pose proof (fun H => handlers_same_turn _ _ _ _ E H Hu) as Hs.
  assert (Hon : same_turn r r' -> goes_down r (go_on r')) by (intros; by eapply on_down).
  destruct rc; eauto.
  - destruct (lc_satisfy_all _); eauto. destruct Hs as [_ Hs]; [by left|].
    eapply next_down; eauto. unfold clear_authenticate. by case_match.
  - case_match; [|done]. b2p. apply orb_true_iff in H1 as [H1|H1]; b2p; subst z;
      (eapply on_down; [done|]; eapply Hs; eauto).
Qed.

Lemma post_access_down r p : turn r p -> goes_down r (ngx_http_core_post_access_phase r).
Proof.
  intros Ht. unfold ngx_http_core_post_access_phase. case_match; [|done].
  eapply on_down; [done|]. apply same_turn_refl. apply Ht.
Qed.

(** [run] returns on what has less to go than [r]. *)
Definition returns_below (run : ngx_http_request -> run_result) (m : Z) : Prop :=
  forall r, ok r -> measure r < m -> exists r', run r = Returned r'.

Definition returned (x : run_result) : Prop := exists r, x = Returned r.

Definition fine (r : ngx_http_request) (x : (ngx_rc * ngx_http_request) + run_result) : Prop :=
  match x with inl y => goes_down r y | inr y => returned y end.

Lemma content_fine run r p last : turn r p -> returns_below run (measure r) ->
  fine r (ngx_http_core_content_phase run p last r).
Proof.
  intros Ht Hrun. assert (Hu : 0 < uri_changes r) by apply Ht.
  unfold ngx_http_core_content_phase. destruct (content_handler r) as [h|] eqn:Ec.
  - cbv zeta. destruct (call_handler h _) as [rc r'] eqn:E. case_bool_decide; [|by left]. apply Hrun.
    all: destruct (handlers_same_turn _ _ _ _ E) as [H1 H2]; [by right; left | done|]; cbn in H1, H2; destruct Ht as [[Hr Hr'] _].
    + unfold ok. cbn. lia.
    + unfold measure. cbn. rewrite Ec, H1. nia.
  - destruct (call_handler _ _) as [rc r'] eqn:E. case_bool_decide; cbn [negb]; [|by left].
    destruct last; cbn [negb]; [case_match; by left|].
    eapply on_down; [done|]. eapply handlers_same_turn; eauto.
Qed.

Lemma handler_returns run r m : (forall r, ok r -> uri_changes r <= m -> returned (run r)) ->
  0 < uri_changes r < 16 -> uri_changes r <= m -> returned (ngx_http_handler run r).
Proof.
  intros Hrun Hu Hm. pose proof rewrite_indices as [Hi _]. unfold ngx_http_handler. cbv zeta.
  apply Hrun; unfold ok; split_ifs; cbn; lia.
Qed.

(** A redirect takes one of the changes of the URI, or ends. *)
Lemma internal_redirect_returns run u a r m : (forall r, ok r -> uri_changes r < m -> returned (run r)) ->
  0 < uri_changes r < 16 -> uri_changes r <= m -> returned (ngx_http_internal_redirect run u a r).
Proof.
  intros Hrun Hu Hm. unfold ngx_http_internal_redirect. cbv zeta.
  destruct (uri_changes (r <| uri_changes := _ |>) =? 0) eqn:E; [by eexists|].
  cbn in E. b2p. rewrite wrap_small in E by lia.
  eapply (handler_returns _ _ (m - 1)).
  - intros r' Hr' Hl. apply Hrun; [done | lia].
  - cbn. rewrite (proj2 (update_same _)). cbn. rewrite wrap_small; lia.
  - cbn. rewrite (proj2 (update_same _)). cbn. rewrite wrap_small; lia.
Qed.

Lemma named_location_returns run name r m : (forall r, ok r -> uri_changes r < m -> returned (run r)) ->
  0 < uri_changes r < 16 -> uri_changes r <= m -> returned (ngx_http_named_location run name r).
Proof.
  intros Hrun Hu Hm. unfold ngx_http_named_location. cbv zeta.
  destruct (uri_changes ((r <| main_count := _ |>) <| uri_changes := _ |>) =? 0) eqn:E; [by eexists|].
  cbn in E. b2p. rewrite wrap_small in E by lia.
  destruct (list_find _ _) as [[i [name' lc]]|]; [|by eexists]. pose proof rewrite_indices as [_ Hi].
  apply Hrun; unfold ok; cbn; rewrite (proj2 (update_same _)); cbn; rewrite wrap_small; lia.
Qed.

(** What has fewer changes of the URI left has less to go. *)
Lemma fewer_below run r : ok r -> returns_below run (measure r) ->
  forall r', ok r' -> uri_changes r' < uri_changes r -> returned (run r').
Proof.
  intros [Hr Hu] Hrun r' Hr' Hl. apply Hrun; [done|]. destruct Hr' as [Hr' Hu']. unfold measure.
  destruct (content_handler r), (content_handler r'); nia.
Qed.

Lemma try_files_fine run r p : turn r p -> returns_below run (measure r) -> fine r (ngx_http_core_try_files_phase run r).
Proof.
  intros Ht Hrun. assert (Hu : 0 < uri_changes r < 16) by apply Ht.
  pose proof (fewer_below run r ltac:(apply Ht) Hrun) as Hf.
  unfold ngx_http_core_try_files_phase. destruct (lc_try_files _) as [[[tfs last] code]|].
  2: { eapply on_down; [done|]. apply same_turn_refl. lia. }
  induction tfs as [|tf tfs IH]; simpl.
  - destruct (try_path last r) as [path|]; [|by left]. unfold try_last. cbv zeta.
    destruct (code =? 0); [|by left]. cbn [negb]. destruct (try_target path) as [name | u a].
    + destruct (named_location_returns run name r (uri_changes r) Hf Hu ltac:(lia)) as [r' ->]. by eexists.
    + destruct (internal_redirect_returns run u (Some a) r (uri_changes r) Hf Hu ltac:(lia)) as [r' ->]. by eexists.
  - destruct (try_path tf r) as [path|]; [|by left]. destruct (open_path path) as [is_dir|]; [|done].
    destruct (is_dir && _); [done|].
     destruct (try_uri path tf r) as [r'|] eqn:E; [|by left].
    eapply on_down; [done|]. apply (try_uri_same_turn _ _ _ _ E). lia.
Qed.

Lemma check_fine run p last r : turn r p -> returns_below run (measure r) -> fine r (check run p last r).
Proof.
  intros Ht Hrun. unfold check. destruct (checker_ p) eqn:Hc.
  - by apply generic_down.
  - by apply rewrite_down.
  - by eapply find_config_down.
  - by apply post_rewrite_down.
  - by apply access_down.
  - by eapply post_access_down.
  - by eapply try_files_fine.
  - by apply content_fine.
Qed.

Lemma run_returns fuel r : ok r -> measure r <= Z.of_nat fuel -> returned (ngx_http_core_run_phases fuel r).
Proof.
  revert r. induction fuel as [|fuel IH]; intros r Hr Hm.
  { destruct Hr as [Hr Hu]. unfold measure in Hm. destruct (content_handler r); nia. }
  cbn [ngx_http_core_run_phases]. unfold at_phase.
  destruct (phase_handler r <? 0) eqn:E0; [b2p; destruct Hr; lia|].
  destruct (handlers engine_ !! Z.to_nat (phase_handler r)) as [p|] eqn:Ep.
  - assert (Ht : turn r p) by done.
    assert (Hb : returns_below (ngx_http_core_run_phases fuel) (measure r)).
    { intros r' Hr' Hl. apply IH; [done | lia]. }
    pose proof (check_fine _ p (phase_handler r + 1 =? L) r Ht Hb) as Hf.
    destruct (check _ _ _ _) as [[rc r'] | x]; [|done]. cbn [fine] in Hf.
    destruct Hf as [Hf | [Hok Hl]]; cbn in *; [subst; by eexists|].
    destruct rc; try (by eexists); apply IH; try done; lia.
  - apply lookup_ge_None in Ep. destruct Hr as [Hr _]. replace (phase_handler r =? L) with true; [by eexists | lia].
Qed.

Lemma measure_bound r : ok r -> measure r <= 32 * (L + 1).
Proof. intros [Hr Hu]. unfold measure. destruct (content_handler r); nia. Qed.

(** C12: Whatever the handlers of the modules answer, and however often they
    change the URI, the loop over the phases ends, also through the redirects
    in it: [ngx_http_handler], [ngx_http_internal_redirect] and
    [ngx_http_named_location] return when the request may still change its URI
    (at most fifteen times: [uri_changes] has four bits), and the index never
    leaves the array.  The modules are only asked to leave the index of the
    phase alone when they let the phases go on, and not to raise
    [uri_changes]. *)
Theorem phases_terminate fuel r u a name : 0 < uri_changes r < 16 ->
  32 * (Z.of_nat (length (handlers engine_)) + 1) <= Z.of_nat fuel ->
  (exists r', ngx_http_handler (ngx_http_core_run_phases fuel) r = Returned r') /\
  (exists r', ngx_http_internal_redirect (ngx_http_core_run_phases fuel) u a r = Returned r') /\
  (exists r', ngx_http_named_location (ngx_http_core_run_phases fuel) name r = Returned r').
Proof.
  intros Hu Hf.
  assert (Hrun : forall r, ok r -> returned (ngx_http_core_run_phases fuel r)).
  { intros r' Hr. apply run_returns; [done|]. pose proof (measure_bound r' Hr). lia. }
  split_and!.
  - eapply handler_returns; eauto. done.
  - eapply internal_redirect_returns; eauto. done.
  - eapply named_location_returns; eauto. done.
Qed.
End Termination.

(** ** The access phase *)

(** What the answers of the access handlers amount to: the first that decides,
    or else the last refusal that another handler could have made up for. *)
Inductive verdict := Pass | Wait | Refuse (rc : ngx_rc).

Definition is_refusal (rc : ngx_rc) : bool := bool_decide (rc = Code NGX_HTTP_FORBIDDEN \/ rc = Code NGX_HTTP_UNAUTHORIZED).

Definition decides (all : bool) (rc : ngx_rc) : option verdict :=
  match rc with
  | NGX_DECLINED => None
  | NGX_AGAIN | NGX_DONE => Some Wait
  | NGX_OK => if all then None else Some Pass
  | _ => if negb all && is_refusal rc then None else Some (Refuse rc)
  end.

Definition satisfied (all : bool) (answers : list ngx_rc) : verdict :=
  match head (omap (decides all) answers), head (rev (filter is_refusal answers)) with
  | Some v, _ => v
  | None, Some rc => Refuse rc
  | None, None => Pass
  end.

Lemma is_refusal_code z : is_refusal (Code z) = (z =? NGX_HTTP_FORBIDDEN) || (z =? NGX_HTTP_UNAUTHORIZED).
Proof.
  unfold is_refusal. destruct (_ || _) eqn:E.
  - apply bool_decide_eq_true. apply orb_true_iff in E as [E|E]; b2p; subst; auto.
  - apply bool_decide_eq_false. b2p. intros [[=] | [=]]; done.
Qed.

(** The same after a refusal [kept]. *)
Definition satisfied_after (kept : option ngx_rc) (all : bool) (answers : list ngx_rc) : verdict :=
  match head (omap (decides all) answers), head (rev (filter is_refusal answers)) with
  | Some v, _ => v
  | None, Some rc => Refuse rc
  | None, None => from_option Refuse Pass kept
  end.

Lemma satisfied_cons kept all rc answers :
  satisfied_after kept all (rc :: answers) =
  match decides all rc with
  | Some v => v
  | None => satisfied_after (if is_refusal rc then Some rc else kept) all answers
  end.
Proof.
  unfold satisfied_after. cbn [omap list_omap]. destruct (decides all rc); [done|].
  destruct (head (omap _ _)); [done|]. rewrite filter_cons. destruct (is_refusal rc); simpl; [|done].
  by destruct (rev (filter _ _)).
Qed.

Section Access.
Context `{Env} (alloc : Z -> bool) (c : phases_conf).
Hypothesis engine_is : ngx_http_init_phase_handlers alloc c = Some engine_.
Hypothesis some_access : access c <> [].

(** The states of one main request in the access phase, for which every
    handler keeps to its answer. *)
Variables (all : bool) (answer : nat -> ngx_rc) (seen : ngx_http_request -> Prop).
Hypothesis seen_call : forall h r, h ∈ access c -> seen r ->
  (call_handler h r).1 = answer h /\ seen (call_handler h r).2 /\
  phase_handler (call_handler h r).2 = phase_handler r /\ access_code (call_handler h r).2 = access_code r.
Hypothesis seen_main : forall r, seen r -> is_main r = true /\ lc_satisfy_all (loc (loc_conf r)) = all.
Hypothesis seen_at : forall r i, seen r -> seen (r <| phase_handler := i |>).
Hypothesis seen_code : forall r z, seen r -> seen (r <| access_code := z |>).
Hypothesis seen_clear : forall r, seen r -> seen (clear_authenticate r).

(** The request is at a handler of the phase, [hs] are the ones from there. *)
Definition at_handlers (hs : list nat) (r : ngx_http_request) : Prop :=
  seen r /\ exists pre, rev (access c) = pre ++ hs /\
    phase_handler r = start c NGX_HTTP_ACCESS_PHASE + Z.of_nat (length pre).

(** The refusal kept in [access_code]. *)
Definition kept (r : ngx_http_request) (o : option ngx_rc) : Prop :=
  match o with
  | None => access_code r = 0
  | Some rc => rc = Code (access_code r) /\ is_refusal rc = true
  end.

(** From [r] the phase ends with [v]: the phases go on after it, the loop is
    left, or the request is finalised. *)
Definition phase_ends (n : nat) (v : verdict) (r : ngx_http_request) : Prop :=
  exists k r', (k <= n)%nat /\ seen r' /\ forall fuel,
    ngx_http_core_run_phases (k + fuel) r =
    match v with
    | Pass => ngx_http_core_run_phases fuel (r' <| phase_handler := start c NGX_HTTP_TRY_FILES_PHASE |>)
    | Wait => Returned r'
    | Refuse rc => Returned (ngx_http_finalize_request r' rc)
    end.

Lemma access_entry i : 0 <= i < nelts (access c) -> exists p,
  handlers engine_ !! Z.to_nat (start c NGX_HTTP_ACCESS_PHASE + i) = Some p /\
  checker_ p = access_phase /\ next p = start c NGX_HTTP_TRY_FILES_PHASE /\
  rev (access c) !! Z.to_nat i = Some (handler p).
Proof.
  intros Hi. destruct (entry_at _ _ _ engine_is NGX_HTTP_ACCESS_PHASE i Hi) as (p & Hp & Hc & Hn & Hh).
  exists p. split_and!; [done|done| |by apply Hh]. rewrite (Hn _ eq_refl).
  pose proof (start_steps c) as Hs. destruct_and! Hs. pose proof (use_pos (access c)). lia.
Qed.

(** A turn at a structure that is there. *)
Lemma run_at fuel r p : 0 <= phase_handler r -> handlers engine_ !! Z.to_nat (phase_handler r) = Some p ->
  ngx_http_core_run_phases (S fuel) r =
  match check (ngx_http_core_run_phases fuel) p (phase_handler r + 1 =? Z.of_nat (length (handlers engine_))) r with
  | inr x => x
  | inl (NGX_OK, r) => Returned r
  | inl (_, r) => ngx_http_core_run_phases fuel r
  end.
Proof.
  intros Hr Hp. cbn [ngx_http_core_run_phases]. unfold at_phase.
  replace (phase_handler r <? 0) with false by lia. by rewrite Hp.
Qed.

Lemma post_access_entry : exists p,
  handlers engine_ !! Z.to_nat (start c NGX_HTTP_POST_ACCESS_PHASE) = Some p /\ checker_ p = post_access_phase.
Proof.
  destruct (entry_at _ _ _ engine_is NGX_HTTP_POST_ACCESS_PHASE 0) as (p & Hp & Hc & _).
  { cbn. rewrite use_pos; [lia|]. unfold nelts. destruct (access c); [done | simpl; lia]. }
  rewrite Z.add_0_r in Hp. by exists p.
Qed.

(** What one handler does to the phase. *)
Lemma access_turn h hs r o : at_handlers (h :: hs) r -> kept r o ->
  match decides all (answer h) with
  | Some v => phase_ends 1 v r
  | None => exists r1, at_handlers hs r1 /\ kept r1 (if is_refusal (answer h) then Some (answer h) else o) /\
      forall fuel, ngx_http_core_run_phases (S fuel) r = ngx_http_core_run_phases fuel r1
  end.
Proof.
  intros [Hs (pre & Hpre & Hr)] Ho.
  assert (Hlen : nelts (access c) = Z.of_nat (length pre) + 1 + Z.of_nat (length hs)).
  { unfold nelts. rewrite <- length_rev, Hpre, length_app. simpl. lia. }
  destruct (access_entry (Z.of_nat (length pre)) ltac:(lia)) as (p & Hp & Hc & Hn & Hh).
  rewrite Hpre, Nat2Z.id, lookup_app_r, Nat.sub_diag in Hh by lia. injection Hh as Hh.
  assert (Hin : h ∈ access c) by (apply list_elem_of_In, in_rev; rewrite Hpre; apply in_app_iff; right; by left).
  destruct (seen_call h r Hin Hs) as (Ha & Hs' & Hph & Hac). destruct (seen_main _ Hs) as [Hm _].
  destruct (seen_main _ Hs') as [_ Hall].
  assert (Hrun : forall fuel, ngx_http_core_run_phases (S fuel) r =
    match ngx_http_core_access_phase p r with
    | (NGX_OK, r) => Returned r
    | (_, r) => ngx_http_core_run_phases fuel r
    end).
  { intros fuel. rewrite (run_at _ _ p); [by unfold check; rewrite Hc | | by rewrite Hr].
    pose proof (start_nonneg c NGX_HTTP_ACCESS_PHASE). lia. }
  unfold ngx_http_core_access_phase in Hrun. rewrite Hm, <- Hh in Hrun. cbn [negb] in Hrun.
  destruct (call_handler h r) as [rc r1]. cbn [fst snd] in *. subst rc. rewrite Hall in Hrun.
  assert (Hend : forall v r', seen r' -> (forall fuel, ngx_http_core_run_phases (S fuel) r =
    match v with
    | Pass => ngx_http_core_run_phases fuel (r' <| phase_handler := start c NGX_HTTP_TRY_FILES_PHASE |>)
    | Wait => Returned r'
    | Refuse rc => Returned (ngx_http_finalize_request r' rc)
    end) -> phase_ends 1 v r).
  { intros v r' Hs1 H1. exists 1%nat, r'. split_and!; [lia | done | exact H1]. }
  assert (Hon : forall r' i, seen r' -> i = phase_handler r + 1 -> at_handlers hs (r' <| phase_handler := i |>)).
  { intros r' i Hs1 ->. split; [exact (seen_at _ _ Hs1)|]. exists (pre ++ [h]). rewrite <- app_assoc. split; [done|].
    rewrite length_app. cbn. lia. }
  assert (Hkept : forall i, kept (r1 <| phase_handler := i |>) o).
  { intros i. destruct o as [rc|]; unfold kept in *; cbn in *; congruence. }
  destruct (answer h) as [| | | | | |z] eqn:Ea; cbn [decides].
  - destruct all.
    + exists (r1 <| phase_handler := phase_handler r1 + 1 |>). split_and!; [apply Hon; [done | by rewrite Hph] | apply Hkept | exact Hrun].
    + apply (Hend Pass (clear_authenticate (r1 <| access_code := 0 |>))).
      * apply seen_clear. exact (seen_code _ 0 Hs').
      * intros fuel. rewrite Hrun, Hn. done.
  - rewrite andb_false_r. by eapply Hend.
  - by apply (Hend Wait r1).
  - rewrite andb_false_r. by eapply Hend.
  - by apply (Hend Wait r1).
  - exists (r1 <| phase_handler := phase_handler r1 + 1 |>). split_and!; [apply Hon; [done | by rewrite Hph] | apply Hkept | exact Hrun].
  - rewrite is_refusal_code. destruct (negb all && _) eqn:E; [|by eapply Hend].
    apply andb_true_iff in E as [_ E]. rewrite E.
    exists ((r1 <| access_code := z |>) <| phase_handler := phase_handler r1 + 1 |>). split_and!.
    + apply Hon; [exact (seen_code _ z Hs') | by rewrite Hph].
    + split; [done | by rewrite is_refusal_code].
    + exact Hrun.
Qed.

Lemma access_walk hs : forall r o, at_handlers hs r -> kept r o ->
  phase_ends (length hs + 1) (satisfied_after o all (map answer hs)) r.
Proof.
  induction hs as [|h hs IH]; intros r o Hr Ho.
  - destruct Hr as [Hs (pre & Hpre & Hr)]. rewrite app_nil_r in Hpre.
    destruct post_access_entry as (p & Hp & Hc). pose proof (start_steps c) as Hst. destruct_and! Hst.
    assert (Hr' : phase_handler r = start c NGX_HTTP_POST_ACCESS_PHASE).
    { rewrite Hr, <- Hpre, length_rev. unfold nelts in *. lia. }
    assert (Hrun : forall fuel, ngx_http_core_run_phases (S fuel) r =
      match ngx_http_core_post_access_phase r with
      | (NGX_OK, r) => Returned r
      | (_, r) => ngx_http_core_run_phases fuel r
      end).
    { intros fuel. rewrite (run_at _ _ p); [by unfold check; rewrite Hc | | by rewrite Hr'].
      rewrite Hr'. apply start_nonneg. }
    unfold ngx_http_core_post_access_phase in Hrun. unfold satisfied_after. cbn [map omap list_omap head filter list_filter rev].
    destruct o as [rc|]; cbn [from_option].
    + destruct Ho as [-> Ho]. destruct (access_code r =? 0) eqn:E.
      { b2p. rewrite is_refusal_code in Ho. rewrite E in Ho. done. }
      exists 1%nat, (r <| access_code := 0 |>). split_and!; [done | exact (seen_code _ 0 Hs) | exact Hrun].
    + cbn in Ho. rewrite Ho in Hrun. exists 1%nat, r. split_and!; [done..|]. intros fuel.
      cbn [Nat.add]. rewrite Hrun. unfold go_on, goto. f_equal. rewrite Hr'.
      assert (Hu : use (access c) = 1) by (apply use_pos; unfold nelts; destruct (access c); [done | simpl; lia]).
      f_equal. lia.
  - cbn [map]. rewrite satisfied_cons. pose proof (access_turn h hs r o Hr Ho) as Ht.
    destruct (decides all (answer h)).
    + destruct Ht as (k & r' & Hk & H1 & H2). exists k, r'. split_and!; [simpl; lia | done | done].
    + destruct Ht as (r1 & H1 & H2 & H3). destruct (IH r1 _ H1 H2) as (k & r' & Hk & H4 & H5).
      exists (S k), r'. split_and!; [simpl; lia | done|]. intros fuel. cbn [Nat.add]. by rewrite H3, H5.
Qed.

(** C28: The access phase of a main request decides as [satisfy] says.  With
    [satisfy all] the first handler that does not answer [NGX_OK] or
    [NGX_DECLINED] ends it; with [satisfy any] the first [NGX_OK] lets the
    request through, and when there is none the last 401 or 403 is its answer.
    The handlers are asked in the order of the array until one decides, and a
    request that passes has gone over [post_access] to the phase after it.  A
    subrequest passes without a question. *)
Theorem access_decides r : phase_handler r = start c NGX_HTTP_ACCESS_PHASE ->
  (seen r -> access_code r = 0 ->
     phase_ends (length (access c) + 1) (satisfied all (map answer (rev (access c)))) r) /\
  (is_main r = false -> forall fuel,
     ngx_http_core_run_phases (S fuel) r =
     ngx_http_core_run_phases fuel (r <| phase_handler := start c NGX_HTTP_TRY_FILES_PHASE |>)).
Proof.
  intros Hr. split.
  - intros Hs Ho. rewrite <- length_rev. apply (access_walk (rev (access c)) r None); [|done].
    split; [done|]. exists []. split; [done | simpl; lia].
  - intros Hm fuel. destruct (access_entry 0) as (p & Hp & Hc & Hn & _).
    { unfold nelts. destruct (access c); [done | simpl; lia]. }
    rewrite Z.add_0_r, <- Hr in Hp. rewrite (run_at _ _ p); [| |done].
    + unfold check. rewrite Hc. unfold ngx_http_core_access_phase. rewrite Hm. cbn [negb]. by rewrite Hn.
    + rewrite Hr. apply start_nonneg.
Qed.
End Access.

(** ** A configuration

    Handlers 1 and 2 rewrite, 3 and 4 look after access, 5 serves. *)

Definition example_conf : phases_conf := PhasesConf [] [1%nat] [2%nat] [] [4%nat; 3%nat] [5%nat] true.
Definition example_engine : phase_engine :=
  default (PhaseEngine [] 0 0 0) (ngx_http_init_phase_handlers (fun _ => true) example_conf).
Definition example_loc : loc_conf_t :=
  LocConf [] false 0 0 0 true 0 false 65 100 0 false 0 None 0 false None.

(** The third refuses, the fourth does not know. *)
Definition example_answer (h : nat) : ngx_rc :=
  match h with 1%nat | 2%nat | 4%nat => NGX_DECLINED | 3%nat => Code 403 | _ => Code 200 end.

Definition example_request : ngx_http_request :=
  (blank_request [47] 0 false []) <| phase_handler := 4 |>.

Definition example_env : Env := {|
  engine_ := example_engine; loc := fun _ => example_loc; server_loc := 0; named_locations := [];
  call_handler := fun h r => (example_answer h, r);
  ngx_http_core_find_location := fun r => (NGX_OK, r);
  ngx_http_discard_request_body := fun r => r;
  ngx_http_finalize_request := fun r rc => r;
  list_push := fun _ => None; pnalloc := fun _ => true; io_sendfile := true;
  try_path := fun _ _ => None; open_path := fun _ => None;
  try_uri := fun _ _ r => Some r; try_target := fun _ => Named 0 |}.

Lemma example_laid_out : ngx_http_init_phase_handlers (fun _ => true) example_conf = Some example_engine.
Proof. reflexivity. Qed.

Lemma phases_layout_witness :
  ngx_http_init_phase_handlers (fun _ => true) example_conf = Some example_engine /\
  server_rewrite_index example_engine = 0 /\ room example_engine = 9.
Proof.
  split; [reflexivity|].
  pose proof (phases_layout _ _ _ example_laid_out) as (_ & _ & H1 & H2 & _).
  split; [rewrite H2 | rewrite H1]; reflexivity.
Defined.

Lemma phases_terminate_witness :
  exists r', ngx_http_handler (H := example_env) (ngx_http_core_run_phases (H := example_env) 320) example_request = Returned r'.
Proof.
  apply (phases_terminate (H := example_env) (fun _ => true) example_conf example_laid_out) with (u := []) (a := None) (name := O).
  - intros h r rc r' [= <- <-] _ Hu. by split.
  - intros r Hu. by split.
  - intros path tf r r' [= <-] Hu. by split.
  - done.
  - done.
Defined.

Lemma access_decides_witness :
  phase_ends (H := example_env) example_conf (fun r => is_main r = true) 3 (Refuse (Code 403)) example_request.
Proof.
  pose (H := example_env).
  apply (proj1 (access_decides (H := example_env) (fun _ => true) example_conf example_laid_out ltac:(done)
    false example_answer (fun r => is_main r = true) ltac:(by intros) ltac:(by intros) ltac:(by intros) ltac:(by intros)
    ltac:(intros r Hr; unfold clear_authenticate; by destruct (www_authenticate r)) example_request eq_refl) eq_refl eq_refl).
Defined.

End PhasesProps.
