(* ===== verification/Subrequests.v ===== *)
(** * Subrequests and the order of their output

    The requests of one connection: a main request and the subrequests that
    work for it, each of which may produce output at any time.  From
    [ngx_http_postpone_filter_module.c]: the filter that keeps the output of a
    request back until everything before it in the document is out; from
    [ngx_http_core_module.c]: [ngx_http_subrequest]; from [ngx_http_request.c]:
    the end of a request in [ngx_http_finalize_request], [ngx_http_writer], and
    the queue of posted requests.

    A request is its index, the main request is 0; [c->data] is the request
    whose output may go out. *)

From S2P Require Import Prelude Request HttpRequest Script.
Import HttpRequest.HttpRequest.

Module Subrequests.

(** ** The state *)

(** [ngx_chain_t]: what its buffers hold; NULL has none. *)
Definition chain := list (list Z).

(** [ngx_http_postponed_request_t]; [next] is the rest of the list. *)
Record ngx_http_postponed_request := Postponed { pr_request : option nat; pr_out : chain }.

(** A request, with the fields that only subrequests have a use for. *)
Record node := Node {
  req : ngx_http_request;
  parent : nat;   (** 0 also for the main request, which has none *)
  postponed : list ngx_http_postponed_request;
  buffered : bool;   (** [r->buffered]: a filter before this one keeps output *)
  waited : bool;
  subrequest_in_memory : bool;
  done : bool;
  logged : bool;
}.

Definition eta_node (x : node) : node :=
  Node (req x) (parent x) (postponed x) (buffered x) (waited x) (subrequest_in_memory x) (done x) (logged x).
#[export] Instance set_req : Setter req := ltac:(derive_setter eta_node req).
#[export] Instance set_postponed : Setter postponed := ltac:(derive_setter eta_node postponed).
#[export] Instance set_buffered : Setter buffered := ltac:(derive_setter eta_node buffered).
#[export] Instance set_done : Setter done := ltac:(derive_setter eta_node done).
#[export] Instance set_logged : Setter logged := ltac:(derive_setter eta_node logged).

(** What became of the main request. *)
Inductive status_t := Open | Finished | Terminated.

(** The connection with its requests. *)
Record conn := Conn {
  nodes : list node;
  data : nat;   (** [c->data] *)
  posted_requests : list nat;   (** of the main request *)
  count : Z;   (** [unsigned count:8] of the main request *)
  subrequests : Z;   (** [unsigned subrequests:8] of the main request *)
  blocked : bool;   (** [r->main->blocked] *)
  c_buffered : bool;
  c_error : bool;
  sent : chain;   (** what the next body filter was given *)
  status : status_t;
}.

Definition eta_conn (c : conn) : conn :=
  Conn (nodes c) (data c) (posted_requests c) (count c) (subrequests c) (blocked c) (c_buffered c) (c_error c)
    (sent c) (status c).
#[export] Instance set_nodes : Setter nodes := ltac:(derive_setter eta_conn nodes).
#[export] Instance set_data : Setter data := ltac:(derive_setter eta_conn data).
#[export] Instance set_posted_requests : Setter posted_requests := ltac:(derive_setter eta_conn posted_requests).
#[export] Instance set_count : Setter count := ltac:(derive_setter eta_conn count).
#[export] Instance set_subrequests : Setter subrequests := ltac:(derive_setter eta_conn subrequests).
#[export] Instance set_c_buffered : Setter c_buffered := ltac:(derive_setter eta_conn c_buffered).
#[export] Instance set_c_error : Setter c_error := ltac:(derive_setter eta_conn c_error).
#[export] Instance set_sent : Setter sent := ltac:(derive_setter eta_conn sent).
#[export] Instance set_status : Setter status := ltac:(derive_setter eta_conn status).

Definition the (r : nat) (c : conn) : node := nth r (nodes c) (Node (blank_request [] 0 false []) 0 [] false false false false false).
Definition on (r : nat) (f : node -> node) (c : conn) : conn := c <| nodes := alter f r (nodes c) |>.
Definition handler_of (r : nat) (c : conn) : event_handler := write_event_handler (req (the r c)).
Definition set_handler (r : nat) (h : event_handler) : conn -> conn :=
  on r (fun x => x <| req := (req x) <| write_event_handler := h |> |>).
Definition set_queue (r : nat) (q : list ngx_http_postponed_request) : conn -> conn := on r (fun x => x <| postponed := q |>).

(** The pool, and the filters after this one, from what they were given
    before: their answer, and whether the connection keeps output. *)
Class Env := {
  ngx_palloc : conn -> bool;
  ngx_http_next_body_filter : chain -> chain -> ngx_rc * bool;
  ngx_http_default_loc_conf : nat;   (** [cscf->ctx->loc_conf] *)
  log_subrequest : bool;
}.

Section Requests.
Context `{Env}.

(** ** The queue of posted requests *)

Definition ngx_http_post_request (r : nat) (c : conn) : ngx_rc * conn :=
  if ngx_palloc c then (NGX_OK, c <| posted_requests := posted_requests c ++ [r] |>) else (NGX_ERROR, c).

(** ** The postpone filter *)

(** [ngx_http_postpone_filter_add]: at the end of the list, joined to the
    output that is there. *)
Definition ngx_http_postpone_filter_add (r : nat) (inp : chain) (c : conn) : ngx_rc * conn :=
  let add (before : list ngx_http_postponed_request) (out : chain) (c : conn) :=
    if ngx_palloc c then (NGX_OK, set_queue r (before ++ [Postponed None (out ++ inp)]) c) else (NGX_ERROR, c) in
  let q := postponed (the r c) in
  match reverse q with
  | Postponed None out :: before => add (reverse before) out c
  | _ =>
      if ngx_palloc c then add q [] (set_queue r (q ++ [Postponed None []]) c) else (NGX_ERROR, c)
  end.

Definition next_body_filter (inp : chain) (c : conn) : ngx_rc * conn :=
  let (rc, b) := ngx_http_next_body_filter (sent c) inp in
  (rc, c <| sent := sent c ++ inp |> <| c_buffered := b |>).

(** The [do] loop over [r->postponed], from [q]. *)
Fixpoint flush (r : nat) (q : list ngx_http_postponed_request) (c : conn) : ngx_rc * conn :=
  match q with
  | [] => (NGX_OK, c)
  | Postponed (Some y) _ :: q => ngx_http_post_request y ((set_queue r q c) <| data := y |>)
  | Postponed None [] :: q => flush r q (set_queue r q c)
  | Postponed None out :: q =>
      let (rc, c) := next_body_filter out c in
      if bool_decide (rc = NGX_ERROR) then (NGX_ERROR, c) else flush r q (set_queue r q c)
  end.

Definition ngx_http_postpone_filter (r : nat) (inp : chain) (c : conn) : ngx_rc * conn :=
  let null := bool_decide (inp = []) in
  if negb (bool_decide (r = data c)) then
    if null then (NGX_OK, c) else (NGX_OK, (ngx_http_postpone_filter_add r inp c).2)
  else if bool_decide (postponed (the r c) = []) then
    if negb null || c_buffered c then next_body_filter inp c else (NGX_OK, c)
  else
    let c := if null then c else (ngx_http_postpone_filter_add r inp c).2 in
    flush r (postponed (the r c)) c.

(** [ngx_http_output_filter], when the filters before this one pass all on. *)
Definition ngx_http_output_filter (r : nat) (inp : chain) (c : conn) : ngx_rc * conn :=
  let (rc, c) := ngx_http_postpone_filter r inp c in
  (rc, if bool_decide (rc = NGX_ERROR) then c <| c_error := true |> else c).

(** ** [ngx_http_subrequest] *)

(** What [sr] has of [r]; the rest is zero.  The structure [headers_in] is
    copied; [variables], and the connection, are shared. *)
Definition subrequest_of (r : ngx_http_request) (u a : list Z) : ngx_http_request :=
  let sr := (blank_request u 0 false [])
    <| is_main := false |> <| main_count := main_count r |> <| method := Request.NGX_HTTP_GET |> <| http_version := http_version r |>
    <| headers_in := headers_in r |> <| cookies := cookies r |> <| connection_type := connection_type r |>
    <| content_length_n := content_length_n r |> <| headers_in_chunked := headers_in_chunked r |>
    <| msie6 := msie6 r |> <| safari := safari r |> <| args := a |> in
  (Script.ngx_http_set_exten sr)
    <| loc_conf := ngx_http_default_loc_conf |>
    <| valid_unparsed_uri := false |> <| valid_location := false |>
    <| captures := None |> <| keepalive := false |> <| request_body_file_log_level := 0 |>
    <| requests := requests r |> <| conn_log := conn_log r |> <| sendfile := sendfile r |>
    <| tcp_nopush_disabled := tcp_nopush_disabled r |>
    <| write_event_handler := ngx_http_handler_handler |>
    <| variables := variables r |> <| internal := true |> <| discard_body := discard_body r |>
    <| expect_tested := true |> <| uri_changes := 11 |>.

Definition ngx_http_subrequest (r : nat) (u a : list Z) (in_memory waited : bool) (c : conn) : ngx_rc * conn :=
  let c := c <| subrequests := wrap 8 (subrequests c - 1) |> in
  if subrequests c =? 0 then (NGX_ERROR, c <| subrequests := 1 |>)
  else if negb (ngx_palloc c) then (NGX_ERROR, c)
  else
    let sr := length (nodes c) in
    let q := postponed (the r c) in
    let c := c <| nodes := nodes c ++ [Node (subrequest_of (req (the r c)) u a) r [] false waited in_memory false false] |> in
    let c := if bool_decide (data c = r) && bool_decide (q = []) then c <| data := sr |> else c in
    if negb (ngx_palloc c) then (NGX_ERROR, c)
    else ngx_http_post_request sr ((set_queue r (q ++ [Postponed (Some sr) []]) c) <| count := wrap 8 (count c + 1) |>).

(** ** The end of a request *)

Definition ngx_http_terminate_request (c : conn) : conn := c <| status := Terminated |>.

(** [ngx_http_set_write_handler], but for the timer and the event. *)
Definition ngx_http_set_write_handler (r : nat) : conn -> conn := set_handler r ngx_http_writer_handler.

(** The subrequest's part of [ngx_http_finalize_request]. *)
Definition finalize_subrequest (r : nat) (c : conn) : conn :=
  let x := the r c in
  if buffered x || negb (bool_decide (postponed x = [])) then ngx_http_set_write_handler r c
  else
    let pr := parent x in
    let c :=
      if bool_decide (r = data c) then
        let c := c <| count := wrap 8 (count c - 1) |> <| subrequests := wrap 8 (subrequests c + 1) |> in
        let c := on r (fun x => x <| logged := true |> <| done := true |>) c in
        let c :=
          match postponed (the pr c) with
          | Postponed (Some y) _ :: q => if bool_decide (y = r) then set_queue pr q c else c
          | _ => c
          end in
        c <| data := pr |>
      else
        let c := set_handler r ngx_http_request_finalizer_handler c in
        if waited x then on r (fun x => x <| done := true |>) c else c in
    match ngx_http_post_request pr c with
    | (NGX_OK, c) => c
    | (_, c) => ngx_http_terminate_request (c <| count := wrap 8 (count c + 1) |>)
    end.

(** The main request's part; [Finished] is where the connection is finalised,
    when there is no [post_action]. *)
Definition finalize_main (c : conn) : conn :=
  let x := the 0 c in
  if buffered x || c_buffered c || negb (bool_decide (postponed x = [])) || blocked c then ngx_http_set_write_handler 0 c
  else if negb (bool_decide (0%nat = data c)) then c
  else (set_handler 0 ngx_http_request_empty_handler (on 0 (fun x => x <| done := true |>) c)) <| status := Finished |>.

(** [ngx_http_finalize_request] for the codes a filter answers; the special
    responses, [NGX_DONE] and [NGX_DECLINED] are the business of modules. *)
Definition ngx_http_finalize_request (r : nat) (rc : ngx_rc) (c : conn) : conn :=
  if bool_decide (rc = NGX_ERROR) || c_error c then ngx_http_terminate_request c
  else if negb (bool_decide (r = 0%nat)) then finalize_subrequest r c
  else finalize_main c.

(** [ngx_http_writer], when its event is neither timed out nor delayed. *)
Definition ngx_http_writer (r : nat) (c : conn) : conn :=
  let (rc, c) := ngx_http_output_filter r [] c in
  if bool_decide (rc = NGX_ERROR) then ngx_http_finalize_request r rc c
  else
    let x := the r c in
    if buffered x || negb (bool_decide (postponed x = [])) || (bool_decide (r = 0%nat) && c_buffered c) then c
    else ngx_http_finalize_request r rc (set_handler r ngx_http_request_empty_handler c).

Definition ngx_http_request_finalizer (r : nat) (c : conn) : conn := ngx_http_finalize_request r NGX_OK c.

(** [r->write_event_handler (r)]; what the handlers of modules do are steps of
    their own. *)
Definition write_event (r : nat) (c : conn) : conn :=
  match handler_of r c with
  | ngx_http_writer_handler => ngx_http_writer r c
  | ngx_http_request_finalizer_handler => ngx_http_request_finalizer r c
  | _ => c
  end.

(** A turn of the loop of [ngx_http_run_posted_requests], and the loop;
    [c->destroyed] is a [status] that is not [Open]. *)
Definition run_posted_request (c : conn) : option conn :=
  match status c, posted_requests c with
  | Open, r :: posted => Some (write_event r (c <| posted_requests := posted |>))
  | _, _ => None
  end.

Fixpoint ngx_http_run_posted_requests (fuel : nat) (c : conn) : option conn :=
  match run_posted_request c with
  | None => Some c
  | Some c => match fuel with O => None | S fuel => ngx_http_run_posted_requests fuel c end
  end.

(** [ngx_http_request_handler] for a write event of the connection. *)
Definition ngx_http_request_handler (fuel : nat) (c : conn) : option conn :=
  ngx_http_run_posted_requests fuel (write_event (data c) c).

End Requests.

End Subrequests.
