(* ===== verification/SubrequestsFacts.v ===== *)
(** * Documents of subrequests

    The document a request and its subrequests write, as a tree in the order of
    the program, what it renders to, and the invariant that relates it to the
    queues of the postpone filter: everything before the active request is out,
    everything else is in a queue. *)

From S2P Require Import Prelude HttpRequest Script Subrequests.
Import HttpRequest.HttpRequest Subrequests.Subrequests.

Module SubrequestsFacts.

(** ** Documents

    What a request writes: buffers, and the places of its subrequests; a
    document is that of every request. *)

Inductive item := Text (b : list Z) | Sub (y : nat).
Abbreviation document := (list (list item)).
Definition doc_at (d : document) (x : nat) : list item := nth x d [].

Definition subs (l : list item) : list nat := omap (fun i => match i with Sub y => Some y | Text _ => None end) l.

(** What goes to the client: a subrequest in its place. *)
Inductive renders (d : document) : list item -> chain -> Prop :=
| renders_nil : renders d [] []
| renders_text b l s : renders d l s -> renders d (Text b :: l) (b :: s)
| renders_sub y l s1 s2 : renders d (doc_at d y) s1 -> renders d l s2 -> renders d (Sub y :: l) (s1 ++ s2).

#[export] Hint Constructors renders : http.

Lemma elem_of_subs y l : y ∈ subs l <-> Sub y ∈ l.
Proof.
  unfold subs. rewrite list_elem_of_omap. split.
  - intros ([b|z] & Hi & [=]). by subst.
  - intros Hy. by exists (Sub y).
Qed.

Lemma renders_app d l1 l2 s1 s2 : renders d l1 s1 -> renders d l2 s2 -> renders d (l1 ++ l2) (s1 ++ s2).
Proof. induction 1; simpl; rewrite <- ?app_assoc; eauto with http. Qed.

Lemma renders_app_inv d l1 l2 s : renders d (l1 ++ l2) s ->
  exists s1 s2, s = s1 ++ s2 /\ renders d l1 s1 /\ renders d l2 s2.
Proof.
  revert s. induction l1 as [|[b|y] l1 IH]; intros s Hs; simpl in Hs.
  - exists [], s. by split_and!; [|constructor|].
  - inversion_clear Hs as [|? ? s' H1|]. destruct (IH _ H1) as (s1 & s2 & -> & H2 & H3).
    exists (b :: s1), s2. split_and!; [done | by constructor | done].
  - inversion_clear Hs as [| |? ? s1 s' H1 H2]. destruct (IH _ H2) as (s2 & s3 & -> & H3 & H4).
    exists (s1 ++ s2), s3. split_and!; [by rewrite app_assoc | by constructor | done].
Qed.

Lemma renders_texts d ts : renders d (map Text ts) ts.
Proof. induction ts; simpl; eauto with http. Qed.

(** A document renders to one output. *)
Lemma renders_fun d l s1 : renders d l s1 -> forall s2, renders d l s2 -> s1 = s2.
Proof.
  induction 1 as [|b l s _ IH|y l s s' _ IH1 _ IH2]; intros s2 H2.
  - by inversion H2.
  - inversion H2; subst. f_equal. auto.
  - inversion H2; subst. f_equal; auto.
Qed.

(** A change of the document outside of [over] is not seen from there. *)
Lemma renders_stable d d' (over : list nat) l s :
  (forall y, y ∈ over -> doc_at d' y = doc_at d y /\ forall z, Sub z ∈ doc_at d y -> z ∈ over) ->
  renders d l s -> (forall y, Sub y ∈ l -> y ∈ over) -> renders d' l s.
Proof.
  intros Ho. induction 1 as [|b l s _ IH|y l s s' _ IH1 _ IH2]; intros Hl; constructor.
  - apply IH. intros y Hy. apply Hl. by right.
  - destruct (Ho y (Hl y (list_elem_of_here _ _))) as [-> Hz]. by apply IH1.
  - apply IH2. intros z Hz. apply Hl. by right.
Qed.

(** Subrequests are younger than their parents, so rendering ends. *)
Lemma renders_total d k : (forall x y, Sub y ∈ doc_at d x -> (x < y < length d)%nat) ->
  forall l, (forall y, Sub y ∈ l -> (y < length d /\ length d - y <= k)%nat) -> exists s, renders d l s.
Proof.
  intros Ht. induction k as [|k IHk]; intros l; induction l as [|[b|y] l IHl]; intros Hl; try (by eexists; constructor).
  - destruct IHl as [s Hs]; [intros y Hy; apply Hl; by right|]. eauto with http.
  - destruct (Hl y (list_elem_of_here _ _)). lia.
  - destruct IHl as [s Hs]; [intros y Hy; apply Hl; by right|]. eauto with http.
  - destruct IHl as [s Hs]; [intros z Hz; apply Hl; by right|].
    destruct (IHk (doc_at d y)) as [s' Hs'].
    { intros z Hz. pose proof (Ht _ _ Hz). pose proof (Hl y (list_elem_of_here _ _)). lia. }
    eauto with http.
Qed.

(** ** Queues *)

Definition pr_items (p : ngx_http_postponed_request) : list item :=
  match pr_request p with Some y => [Sub y] | None => map Text (pr_out p) end.
Definition items (q : list ngx_http_postponed_request) : list item := concat (map pr_items q).

(** An element with output has some. *)
Definition pr_ok (p : ngx_http_postponed_request) : Prop := pr_request p = None -> pr_out p <> [].

(** The queue after the subrequest [y]: [y] may be at its head or gone. *)
Definition after (y : nat) (q : list ngx_http_postponed_request) : list ngx_http_postponed_request :=
  match q with
  | Postponed (Some z) _ :: q' => if bool_decide (z = y) then q' else q
  | _ => q
  end.

Lemma items_app q1 q2 : items (q1 ++ q2) = items q1 ++ items q2.
Proof. unfold items. by rewrite map_app, concat_app. Qed.

Lemma items_nil q : Forall pr_ok q -> items q = [] -> q = [].
Proof.
  destruct q as [|[[y|] [|b out]] q]; unfold items; simpl; try done.
  intros H _. apply Forall_cons_iff in H as [H _]. by destruct (H eq_refl).
Qed.

Lemma after_app y q l : q <> [] -> after y (q ++ l) = after y q ++ l.
Proof. destruct q as [|[[z|] out] q]; simpl; try done. by case_bool_decide. Qed.

Lemma items_after y q : items q = items (after y q) \/ items q = Sub y :: items (after y q).
Proof.
  destruct q as [|[[z|] out] q]; simpl; auto. case_bool_decide; [|by left]. subst. by right.
Qed.

Lemma after_ok y q : Forall pr_ok q -> Forall pr_ok (after y q).
Proof.
  destruct q as [|[[z|] out] q]; simpl; auto. intros H. case_bool_decide; [|done]. by apply Forall_cons_iff in H as [_ H].
Qed.

(** ** Requests under an update *)

Lemma nodes_on r f c : nodes (on r f c) = alter f r (nodes c).
Proof. done. Qed.

Lemma the_on_eq r f c : (r < length (nodes c))%nat -> the r (on r f c) = f (the r c).
Proof.
  intros Hr. unfold the. rewrite nodes_on. destruct (lookup_lt_is_Some_2 (nodes c) r Hr) as [x Hx].
  by rewrite !nth_lookup, list_lookup_alter_eq, Hx.
Qed.

Lemma the_on_ne r x f c : x <> r -> the x (on r f c) = the x c.
Proof. intros Hx. unfold the. rewrite nodes_on. by rewrite !nth_lookup, list_lookup_alter_ne by done. Qed.

Lemma length_on r f c : length (nodes (on r f c)) = length (nodes c).
Proof. rewrite nodes_on. apply length_alter. Qed.

Lemma doc_alter_eq r f d : (r < length d)%nat -> doc_at (alter f r d) r = f (doc_at d r).
Proof.
  intros Hr. unfold doc_at. destruct (lookup_lt_is_Some_2 d r Hr) as [x Hx].
  by rewrite !nth_lookup, list_lookup_alter_eq, Hx.
Qed.

Lemma doc_alter_ne r x f d : x <> r -> doc_at (alter f r d) x = doc_at d x.
Proof. intros Hx. unfold doc_at. by rewrite !nth_lookup, list_lookup_alter_ne by done. Qed.

(** ** The invariant

    The active request is below a stack of ancestors: each with what of its
    document is before its child on the stack.  [over] are the subrequests that
    are done. *)

Definition frame : Type := nat * list item.
Definition queue (x : nat) (c : conn) : list ngx_http_postponed_request := postponed (the x c).

Fixpoint stack_ok (c : conn) (d : document) (y : nat) (st : list frame) : Prop :=
  match st with
  | [] => y = 0%nat
  | (x, C) :: st =>
      (0 < y)%nat /\ parent (the y c) = x /\ doc_at d x = C ++ Sub y :: items (after y (queue x c)) /\ stack_ok c d x st
  end.

(** What is before the active request in the document. *)
Fixpoint consumed (st : list frame) (C : list item) : list item :=
  match st with
  | [] => C
  | (_, C') :: st => consumed st C' ++ C
  end.

Definition path (c : conn) (st : list frame) : list nat := data c :: map fst st.

Record Inv (c : conn) (d : document) (closed : nat -> Prop) (over : list nat) (st : list frame) (C : list item) : Prop := {
  i_len : length d = length (nodes c);
  i_data : (data c < length d)%nat;
  i_tree : forall x y, Sub y ∈ doc_at d x -> (x < y < length d)%nat /\ parent (the y c) = x;
  i_child : forall y, (0 < y < length d)%nat -> Sub y ∈ doc_at d (parent (the y c));
  i_nodup : forall x, NoDup (subs (doc_at d x));
  i_queue : forall x, Forall pr_ok (queue x c);
  i_stack : stack_ok c d (data c) st;
  i_current : doc_at d (data c) = C ++ items (queue (data c) c);
  i_waiting : forall x, x ∉ over -> x ∉ path c st -> items (queue x c) = doc_at d x;
  i_over : forall x, x ∈ over ->
    (0 < x < length d)%nat /\ closed x /\ queue x c = [] /\ forall y, Sub y ∈ doc_at d x -> y ∈ over;
  i_path : forall x, x ∈ over -> x ∉ path c st;
  i_pending : forall x y, Sub y ∈ items (queue x c) -> y ∉ over;
  i_consumed : forall y, Sub y ∈ consumed st C -> y ∈ over;
  i_sent : renders d (consumed st C) (sent c);
  i_over_nodup : NoDup over;
  i_count : count c = Z.of_nat (length d) - Z.of_nat (length over);
  i_subrequests : subrequests c = 202 - count c /\ count c <= 201;
}.

Lemma consumed_app st C l : consumed st (C ++ l) = consumed st C ++ l.
Proof. destruct st as [|[x C'] st]; simpl; [done | by rewrite app_assoc]. Qed.

(** A stack survives what is added at the end of documents and queues. *)
Lemma stack_mono c c' d d' (ext : nat -> list item) n y st :
  (forall x, doc_at d' x = doc_at d x ++ ext x) ->
  (forall x z, (z < n)%nat -> items (after z (queue x c')) = items (after z (queue x c)) ++ ext x) ->
  (forall z, (z < n)%nat -> parent (the z c') = parent (the z c)) ->
  (forall z, (0 < z < n)%nat -> (parent (the z c) < z)%nat) ->
  (y < n)%nat -> stack_ok c d y st -> stack_ok c' d' y st.
Proof.
  intros Hd Hq Hp Hlt. revert y. induction st as [|[x C] st IH]; intros y Hy; [done|]. simpl.
  intros (H0 & H1 & H2 & H3). split_and!; [done | by rewrite Hp | |].
  - by rewrite Hd, H2, Hq, <- app_assoc.
  - apply IH; [|done]. subst x. pose proof (Hlt y ltac:(lia)). lia.
Qed.

Section Transitions.
Context (c : conn) (d : document) (closed : nat -> Prop) (over : list nat) (st : list frame) (C : list item).
Hypothesis inv : Inv c d closed over st C.

Lemma parent_lt y : (0 < y < length d)%nat -> (parent (the y c) < y)%nat.
Proof. intros Hy. apply (i_tree _ _ _ _ _ _ inv _ _ (i_child _ _ _ _ _ _ inv y Hy)). Qed.

Lemma doc_outside x : (length d <= x)%nat -> doc_at d x = [].
Proof. intros Hx. unfold doc_at. by apply nth_overflow. Qed.

Lemma stack_path y st' : stack_ok c d y st' -> (y < length d)%nat -> forall x, x ∈ map fst st' -> (x < y)%nat.
Proof.
  revert y. induction st' as [|[z C'] st' IH]; intros y Hs Hy x Hx; simpl in *.
  - by apply not_elem_of_nil in Hx.
  - destruct Hs as (H0 & <- & _ & Hs). pose proof (parent_lt y ltac:(lia)).
    apply elem_of_cons in Hx as [->|Hx]; [done|]. pose proof (IH _ Hs ltac:(lia) x Hx). lia.
Qed.

(** More at the end: output that is kept, and new subrequests. *)
Lemma inv_append c' d' (closed' : nat -> Prop) (ext : nat -> list item) :
  length d' = length (nodes c') -> (length d <= length d')%nat ->
  (forall x, doc_at d' x = doc_at d x ++ ext x) ->
  (forall x, items (queue x c') = items (queue x c) ++ ext x) ->
  (forall x z, (z < length d)%nat -> items (after z (queue x c')) = items (after z (queue x c)) ++ ext x) ->
  (forall x, Forall pr_ok (queue x c')) ->
  (forall z, (z < length d)%nat -> parent (the z c') = parent (the z c)) ->
  (forall x, x ∈ over -> ext x = [] /\ closed' x) ->
  (forall x y, Sub y ∈ ext x -> (x < y < length d')%nat /\ (length d <= y)%nat /\ parent (the y c') = x) ->
  (forall x, NoDup (subs (ext x))) ->
  (forall y, (length d <= y < length d')%nat -> Sub y ∈ ext (parent (the y c'))) ->
  data c' = data c -> sent c' = sent c ->
  count c' = count c + (Z.of_nat (length d') - Z.of_nat (length d)) ->
  subrequests c' = 202 - count c' -> count c' <= 201 ->
  Inv c' d' closed' over st C.
Proof.
  intros Hl Hl' Hd Hq Ha Hok Hp Ho He Hn Hc Hdata Hsent Hcnt Hsub H201.
  assert (Hqo : forall x, x ∈ over -> queue x c' = []).
  { intros x Hx. apply items_nil; [done|]. destruct (Ho x Hx) as [He' _].
    by rewrite Hq, He', (proj1 (proj2 (proj2 (i_over _ _ _ _ _ _ inv x Hx)))). }
  constructor; try done.
  - pose proof (i_data _ _ _ _ _ _ inv). rewrite Hdata. lia.
  - intros x y. rewrite Hd. intros [Hy|Hy]%elem_of_app; [|by destruct (He _ _ Hy) as (? & ? & ?)].
    destruct (i_tree _ _ _ _ _ _ inv _ _ Hy). rewrite Hp by lia. split; [lia | done].
  - intros y Hy. rewrite Hd. apply elem_of_app. destruct (decide (y < length d)%nat).
    + left. rewrite Hp by done. apply (i_child _ _ _ _ _ _ inv). lia.
    + right. apply Hc. lia.
  - intros x. rewrite Hd. unfold subs. rewrite omap_app. apply list.NoDup_app. split_and!.
    + apply (i_nodup _ _ _ _ _ _ inv).
    + intros y Hy1 Hy2. apply elem_of_subs in Hy1, Hy2. apply He in Hy2. apply (i_tree _ _ _ _ _ _ inv) in Hy1. lia.
    + apply Hn.
  - rewrite Hdata. eapply stack_mono; try done.
    + intros z Hz. apply parent_lt. lia.
    + apply (i_data _ _ _ _ _ _ inv).
    + apply (i_stack _ _ _ _ _ _ inv).
  - rewrite Hdata, Hd, Hq, (i_current _ _ _ _ _ _ inv), app_assoc. done.
  - intros x Hx Hx'. rewrite Hq, Hd, (i_waiting _ _ _ _ _ _ inv); [done..|]. unfold path in *. by rewrite Hdata in Hx'.
  - intros x Hx. destruct (i_over _ _ _ _ _ _ inv x Hx) as (H1 & H2 & H3 & H4). destruct (Ho x Hx) as [He' Hc'].
    split_and!; [lia | lia | done | by apply Hqo |]. rewrite Hd, He', app_nil_r. done.
  - intros x Hx. unfold path. rewrite Hdata. by apply (i_path _ _ _ _ _ _ inv).
  - intros x y. rewrite Hq. intros [Hy|Hy]%elem_of_app; [by eapply (i_pending _ _ _ _ _ _ inv)|].
    intros Hy'. apply He in Hy. apply (i_over _ _ _ _ _ _ inv) in Hy'. lia.
  - apply (i_consumed _ _ _ _ _ _ inv).
  - rewrite Hsent. eapply renders_stable; [|apply (i_sent _ _ _ _ _ _ inv)|apply (i_consumed _ _ _ _ _ _ inv)].
    intros y Hy. destruct (i_over _ _ _ _ _ _ inv y Hy) as (_ & _ & _ & H4). destruct (Ho y Hy) as [He' _].
    by rewrite Hd, He', app_nil_r.
  - apply (i_over_nodup _ _ _ _ _ _ inv).
  - rewrite Hcnt, (i_count _ _ _ _ _ _ inv). lia.
Qed.

(** Nothing of the requests' output changes. *)
Lemma inv_same c' (closed' : nat -> Prop) :
  length (nodes c') = length (nodes c) -> (forall x, queue x c' = queue x c) ->
  (forall x, parent (the x c') = parent (the x c)) -> (forall x, x ∈ over -> closed' x) ->
  data c' = data c -> sent c' = sent c -> count c' = count c -> subrequests c' = subrequests c ->
  Inv c' d closed' over st C.
Proof.
  intros Hl Hq Hp Hc Hd Hs Hn Hsub. pose proof (i_len _ _ _ _ _ _ inv). destruct (i_subrequests _ _ _ _ _ _ inv).
  apply (inv_append c' d closed' (fun _ => [])); intros; rewrite ?app_nil_r, ?Hq; try done.
  - lia.
  - apply (i_queue _ _ _ _ _ _ inv).
  - split; auto.
  - by match goal with Hy : _ ∈ [] |- _ => apply not_elem_of_nil in Hy end.
  - constructor.
  - lia.
  - lia.
  - by rewrite Hsub, Hn.
  - by rewrite Hn.
Qed.

Abbreviation a := (data c).

(** The queue of the active request, changed at its head. *)
Definition head_changes c' : Prop :=
  length (nodes c') = length (nodes c) /\ (forall x, x <> a -> queue x c' = queue x c) /\
  Forall pr_ok (queue a c') /\ (forall x, parent (the x c') = parent (the x c)) /\
  count c' = count c /\ subrequests c' = subrequests c.

Lemma stack_frame c' y st' : (forall x, x ∈ map fst st' -> queue x c' = queue x c) ->
  (forall x, parent (the x c') = parent (the x c)) -> stack_ok c d y st' -> stack_ok c' d y st'.
Proof.
  intros Hq Hp. revert y. induction st' as [|[x C'] st' IH]; intros y; [done|]. simpl in *.
  intros (H0 & H1 & H2 & H3). split_and!; [done | by rewrite Hp | | apply IH; [|done]; intros z Hz; apply Hq; by right].
  rewrite H2, Hq; [done | by left].
Qed.

Lemma stack_below x : x ∈ map fst st -> x <> a.
Proof. intros Hx. pose proof (stack_path a st (i_stack _ _ _ _ _ _ inv) (i_data _ _ _ _ _ _ inv) x Hx). lia. Qed.

Lemma stack_above c' : head_changes c' -> stack_ok c' d a st.
Proof.
  intros (_ & Hq & _ & Hp & _). apply stack_frame; [|done | apply (i_stack _ _ _ _ _ _ inv)].
  intros x Hx. apply Hq. by apply stack_below.
Qed.

(** What the active request may not have: a subrequest that is done. *)
Lemma active_not_over : a ∉ over.
Proof. intros Ha. apply (i_path _ _ _ _ _ _ inv a Ha). left. Qed.

Lemma queue_off c' x : head_changes c' -> x <> a -> items (queue x c') = items (queue x c).
Proof. intros (_ & Hq & _) Hx. by rewrite Hq. Qed.

(** The output at its head goes out. *)
Lemma inv_send c' ts : head_changes c' -> items (queue a c) = map Text ts ++ items (queue a c') ->
  data c' = a -> sent c' = sent c ++ ts -> Inv c' d closed over st (C ++ map Text ts).
Proof.
  intros Hh Hi Hd Hs. pose proof Hh as (Hl & Hq & Hok & Hp & Hn & Hsub). pose proof active_not_over as Hao.
  pose proof inv as [? ? ? ? ? ? ? Hcur Hw Hov ? Hpend ? ? ? ? ?].
  constructor; rewrite ?Hd, ?Hl, ?Hn, ?Hsub; try done.
  - intros x y Hy. rewrite Hp. auto.
  - intros y Hy. rewrite Hp. auto.
  - intros x. destruct (decide (x = a)) as [->|]; [done|]. by rewrite Hq.
  - by apply stack_above.
  - by rewrite Hcur, Hi, app_assoc.
  - intros x Hx Hx'. unfold path in Hx'. rewrite Hd in Hx'. rewrite (queue_off c'); auto.
    intros ->. apply Hx'. left.
  - intros x Hx. destruct (Hov x Hx) as (? & ? & Hqx & ?). split_and!; auto; try lia.
    rewrite Hq; [done|]. by intros ->.
  - intros x. unfold path. rewrite Hd. auto.
  - intros x y Hy. apply (Hpend x). destruct (decide (x = a)) as [->|Hx]; [|by rewrite <- (queue_off c')].
    rewrite Hi. apply elem_of_app. by right.
  - intros y. rewrite consumed_app. intros [Hy|Hy]%elem_of_app; [auto|].
    apply list_elem_of_fmap in Hy as (t & [=] & _).
  - rewrite consumed_app, Hs. by apply renders_app; [|apply renders_texts].
Qed.

(** The subrequest at its head becomes active; it may stay in the queue. *)
Lemma inv_wake c' y q : head_changes c' -> items (queue a c) = Sub y :: items q ->
  items (after y (queue a c')) = items q -> (forall i, i ∈ items (queue a c') -> i ∈ items (queue a c)) ->
  data c' = y -> sent c' = sent c -> Inv c' d closed over ((a, C) :: st) [].
Proof.
  intros Hh Hi Ha Hin Hd Hs. pose proof Hh as (Hl & Hq & Hok & Hp & Hn & Hsub). pose proof active_not_over as Hao.
  pose proof inv as [Hlen Hda Htree Hch Hnd Hqok Hst Hcur Hw Hov Hpath Hpend Hcons ? ? ? ?].
  assert (Hy : Sub y ∈ doc_at d a) by (rewrite Hcur, Hi; apply elem_of_app; right; left).
  destruct (Htree _ _ Hy) as [Hy1 Hy2].
  assert (Hya : y ∉ map fst st) by (intros Hx; pose proof (stack_path a st Hst Hda y Hx); lia).
  constructor; rewrite ?Hd, ?Hl, ?Hn, ?Hsub; try done.
  - lia.
  - intros x z Hz. rewrite Hp. auto.
  - intros z Hz. rewrite Hp. auto.
  - intros x. destruct (decide (x = a)) as [->|]; [done|]. by rewrite Hq.
  - simpl. rewrite Hp, Ha. split_and!; [lia | done | by rewrite Hcur, Hi | by apply stack_above].
  - rewrite (queue_off c'), Hw; [done | | | done | lia].
    + intros Hy'. apply (Hpend a y); [rewrite Hi; left | done].
    + intros [->|Hx]%elem_of_cons; [lia | done].
  - intros x Hx Hx'. unfold path in Hx'. rewrite Hd in Hx'. rewrite (queue_off c'); [|done|].
    + apply Hw; [done|]. intros Hx2. apply Hx'. right. done.
    + intros ->. apply Hx'. right. left.
  - intros x Hx. destruct (Hov x Hx) as (? & ? & Hqx & ?). split_and!; auto; try lia.
    rewrite Hq; [done|]. by intros ->.
  - intros x Hx. unfold path. rewrite Hd. intros [->|Hx']%elem_of_cons.
    + apply (Hpend a y); [rewrite Hi; left | done].
    + by apply (Hpath x).
  - intros x z Hz. apply (Hpend x). destruct (decide (x = a)) as [->|Hx]; [auto|]. by rewrite <- (queue_off c').
  - simpl. intros z Hz. rewrite app_nil_r in Hz. auto.
  - simpl. rewrite app_nil_r, Hs. done.
Qed.

Lemma stack_queue y st' x i : stack_ok c d y st' -> x ∈ map fst st' -> i ∈ items (queue x c) -> i ∈ doc_at d x.
Proof.
  revert y. induction st' as [|[z C'] st' IH]; intros y; simpl; [by intros _ Hx%not_elem_of_nil|].
  intros (_ & _ & H2 & H3) [->|Hx]%elem_of_cons Hi; [|by eapply IH].
  rewrite H2. apply elem_of_app. right. by destruct (items_after y (queue z c)) as [<- | <-]; [right|].
Qed.

(** A queue holds a part of the document of its request. *)
Lemma queue_in_doc x i : i ∈ items (queue x c) -> i ∈ doc_at d x.
Proof.
  intros Hi. destruct (decide (x ∈ over)) as [Ho|Ho].
  { destruct (i_over _ _ _ _ _ _ inv x Ho) as (_ & _ & Hq & _). rewrite Hq in Hi. by apply not_elem_of_nil in Hi. }
  destruct (decide (x ∈ path c st)) as [Hx|Hx]; [|by rewrite <- (i_waiting _ _ _ _ _ _ inv)].
  apply elem_of_cons in Hx as [->|Hx].
  - rewrite (i_current _ _ _ _ _ _ inv). apply elem_of_app. by right.
  - by apply (stack_queue a st); [apply (i_stack _ _ _ _ _ _ inv)|..].
Qed.

Lemma sub_once x l1 y l2 : doc_at d x = l1 ++ Sub y :: l2 -> Sub y ∉ l2.
Proof.
  intros Hx Hy. pose proof (i_nodup _ _ _ _ _ _ inv x) as Hnd. rewrite Hx in Hnd. unfold subs in Hnd.
  rewrite omap_app in Hnd. apply list.NoDup_app in Hnd as (_ & _ & Hnd). cbn in Hnd.
  apply list.NoDup_cons in Hnd as [Hnd _]. apply Hnd. by apply (elem_of_subs y l2).
Qed.

(** The active subrequest is done, and its parent goes on. *)
Lemma inv_done c' x C' st' : st = (x, C') :: st' -> queue a c = [] -> closed a ->
  length (nodes c') = length (nodes c) -> (forall z, z <> x -> queue z c' = queue z c) ->
  queue x c' = after a (queue x c) -> (forall z, parent (the z c') = parent (the z c)) ->
  data c' = x -> sent c' = sent c -> count c' = count c - 1 -> subrequests c' = subrequests c + 1 ->
  Inv c' d closed (a :: over) st' (C' ++ [Sub a]).
Proof.
  intros Est Hqa Hcl Hl Hq Hqx Hp Hd Hs Hn Hsub. pose proof active_not_over as Hao.
  pose proof inv as [Hlen Hda Htree Hch Hnd Hqok Hst Hcur Hw Hov Hpath Hpend Hcons Hsent Hond Hcnt [Hsb Hcb]].
  rewrite Est in Hst, Hpath, Hcons, Hsent, Hw. simpl in Hst. destruct Hst as (H0 & H1 & H2 & H3).
  assert (Hxa : (x < a)%nat) by (rewrite <- H1; apply parent_lt; lia).
  rewrite Hqa, app_nil_r in Hcur. cbn [consumed] in *.
  assert (Hsub' : forall z i, i ∈ items (queue z c') -> i ∈ items (queue z c)).
  { intros z i Hi. destruct (decide (z = x)) as [->|Hz]; [|by rewrite <- Hq].
    rewrite Hqx in Hi. destruct (items_after a (queue x c)) as [-> | ->]; [done | by right]. }
  constructor; rewrite ?Hd, ?Hl, ?Hs; try done.
  - lia.
  - intros z y Hy. rewrite Hp. auto.
  - intros y Hy. rewrite Hp. auto.
  - intros z. destruct (decide (z = x)) as [->|]; [rewrite Hqx; by apply after_ok | by rewrite Hq].
  - apply (stack_frame c'); [|done..]. intros z Hz. apply Hq. pose proof (stack_path x st' H3 ltac:(lia) z Hz). lia.
  - rewrite H2, Hqx, <- app_assoc. done.
  - intros z Hz Hz'. unfold path in Hz'. rewrite Hd in Hz'. apply not_elem_of_cons in Hz as [Hza Hz].
    rewrite Hq by (intros ->; apply Hz'; left). apply Hw; [done|]. intros [->|Hx']%elem_of_cons; done.
  - intros z [->|Hz]%elem_of_cons.
    + split_and!; [lia | lia | done | rewrite Hq by lia; done |]. intros y Hy. rewrite Hcur in Hy. right. apply Hcons.
      apply elem_of_app. by right.
    + destruct (Hov z Hz) as (? & ? & Hqz & Hsz). split_and!; [lia | lia | done | |intros; right; auto].
      rewrite Hq; [done|]. intros ->. apply (Hpath x Hz). right. left.
  - intros z [->|Hz]%elem_of_cons; unfold path; rewrite Hd.
    + intros [?|Hz]%elem_of_cons; [lia|]. pose proof (stack_path x st' H3 ltac:(lia) _ Hz). lia.
    + intros Hz'. apply (Hpath z Hz). right. done.
  - intros z y Hy [->|Hy']%elem_of_cons; [|by apply (Hpend z y); auto].
    pose proof (proj2 (Htree _ _ (queue_in_doc z _ (Hsub' _ _ Hy)))) as Hz. rewrite H1 in Hz. subst z.
    apply (sub_once _ _ _ _ H2). by rewrite <- Hqx.
  - intros y. rewrite consumed_app. intros [Hy|Hy]%elem_of_app.
    + right. apply Hcons. apply elem_of_app. by left.
    + apply list_elem_of_singleton in Hy as [= ->]. left.
  - rewrite consumed_app. apply renders_app_inv in Hsent as (s1 & s2 & -> & Hs1 & Hs2).
    apply renders_app; [done|]. rewrite <- (app_nil_r s2). constructor; [by rewrite Hcur | constructor].
  - by constructor.
  - simpl. lia.
  - lia.
Qed.

(** All that is written is out or will be, in its place. *)
Lemma doc_renders : forall st' y C', stack_ok c d y st' -> (y < length d)%nat ->
  (forall x, x ∈ map fst st' -> (x < length d)%nat) ->
  forall R s, doc_at d y = C' ++ R -> renders d (consumed st' C') s -> exists s', renders d (doc_at d 0) (s ++ s').
Proof.
  assert (Htot : forall l x, (forall y, y ∈ l -> y ∈ doc_at d x) -> exists s, renders d l s).
  { intros l x Hl. apply (renders_total d (length d)).
    - intros z y Hy. apply (i_tree _ _ _ _ _ _ inv _ _ Hy).
    - intros y Hy. apply Hl, (i_tree _ _ _ _ _ _ inv) in Hy as [Hy _]. lia. }
  induction st' as [|[x C1] st' IH]; intros y C' Hs Hy Hx R s HR Hr; simpl in *.
  - subst y. destruct (Htot R 0%nat) as [s' Hs'].
    { intros i Hi. rewrite HR. apply elem_of_app. by right. }
    exists s'. rewrite HR. by apply renders_app.
  - destruct Hs as (H0 & H1 & H2 & H3). apply renders_app_inv in Hr as (s1 & s2 & -> & Hs1 & Hs2).
    destruct (Htot R y) as [s3 Hs3]. { intros i Hi. rewrite HR. apply elem_of_app. by right. }
    destruct (IH x (C1 ++ [Sub y]) H3 ltac:(apply Hx; left) ltac:(intros; apply Hx; by right)
      (items (after y (queue x c))) (s1 ++ (s2 ++ s3) ++ [])) as [s' Hs'].
    + by rewrite H2, <- app_assoc.
    + rewrite consumed_app. apply renders_app; [done|]. constructor; [|constructor].
      rewrite HR. by apply renders_app.
    + exists (s3 ++ s'). rewrite app_nil_r, <- !app_assoc in Hs'. by rewrite <- app_assoc.
Qed.

Lemma sent_prefix : exists rest, renders d (doc_at d 0) (sent c ++ rest).
Proof.
  eapply (doc_renders st a C).
  - apply (i_stack _ _ _ _ _ _ inv).
  - apply (i_data _ _ _ _ _ _ inv).
  - intros x Hx. pose proof (stack_path a st (i_stack _ _ _ _ _ _ inv) (i_data _ _ _ _ _ _ inv) x Hx).
    pose proof (i_data _ _ _ _ _ _ inv). lia.
  - apply (i_current _ _ _ _ _ _ inv).
  - apply (i_sent _ _ _ _ _ _ inv).
Qed.

(** When the main request is active and has nothing kept, it is all out, and
    every subrequest is done. *)
Lemma all_out : a = 0%nat -> queue 0 c = [] ->
  renders d (doc_at d 0) (sent c) /\ (forall y, (0 < y < length d)%nat -> y ∈ over) /\ count c = 1.
Proof.
  intros Ha Hq. pose proof (i_stack _ _ _ _ _ _ inv) as Hst. rewrite Ha in Hst.
  assert (Est : st = []). { destruct st as [|[x C1] st1]; [done|]. simpl in Hst. lia. }
  pose proof (i_current _ _ _ _ _ _ inv) as Hcur. rewrite Ha, Hq, app_nil_r in Hcur.
  pose proof (i_sent _ _ _ _ _ _ inv) as Hs. pose proof (i_consumed _ _ _ _ _ _ inv) as Hc. rewrite Est in Hs, Hc.
  cbn in Hs, Hc.
  assert (Hall : forall y, (0 < y < length d)%nat -> y ∈ over).
  { intros y. induction (lt_wf y) as [y _ IH]. intros Hy.
    pose proof (i_child _ _ _ _ _ _ inv y Hy) as Hch. pose proof (parent_lt y Hy) as Hlt.
    destruct (decide (parent (the y c) = 0%nat)) as [E|E].
    - apply Hc. rewrite <- Hcur. by rewrite <- E.
    - apply (i_over _ _ _ _ _ _ inv (parent (the y c))); [|done]. apply IH; lia. }
  split_and!; [by rewrite Hcur | done|]. rewrite (i_count _ _ _ _ _ _ inv).
  assert (Hp : over ≡ₚ seq 1 (length d - 1)).
  { apply NoDup_Permutation; [apply (i_over_nodup _ _ _ _ _ _ inv) | apply NoDup_ListNoDup, seq_NoDup|].
    intros x. rewrite elem_of_seq. split.
    - intros Hx. apply (i_over _ _ _ _ _ _ inv) in Hx. lia.
    - intros Hx. apply Hall. lia. }
  rewrite Hp, length_seq. pose proof (i_data _ _ _ _ _ _ inv). lia.
Qed.

End Transitions.

End SubrequestsFacts.
