(* ===== verification/SubrequestsSteps.v ===== *)
(** * The steps of subrequests

    Every operation on the requests of a connection keeps the invariant of
    [SubrequestsFacts], and what waits for an event; [step] is what may happen
    next, in any order. *)

From stdpp Require Import relations.
From S2P Require Import Prelude HttpRequest Script Subrequests SubrequestsFacts.
Import HttpRequest.HttpRequest Subrequests.Subrequests SubrequestsFacts.SubrequestsFacts.

Module SubrequestsSteps.

(** ** Views of an updated connection *)

Lemma the_nodes x c c' : nodes c' = nodes c -> the x c' = the x c.
Proof. unfold the. by intros ->. Qed.

Lemma the_on_field {A} (g : node -> A) f r x c : (forall y, g (f y) = g y) -> g (the x (on r f c)) = g (the x c).
Proof.
  intros Hg. destruct (decide (x = r)) as [->|Hx]; [|by rewrite the_on_ne].
  destruct (decide (r < length (nodes c))%nat); [by rewrite the_on_eq|].
  unfold the. rewrite !nth_overflow; [done | lia | rewrite length_on; lia].
Qed.

Lemma on_on r f g c : on r f (on r g c) = on r (fun x => f (g x)) c.
Proof. exact (f_equal (fun l => c <| nodes := l |>) (list_alter_alter_eq f g (nodes c) r)). Qed.

Lemma queue_set r q c : (r < length (nodes c))%nat -> queue r (set_queue r q c) = q.
Proof. intros Hr. unfold queue, set_queue. by rewrite the_on_eq. Qed.

Lemma queue_set_ne r x q c : x <> r -> queue x (set_queue r q c) = queue x c.
Proof. intros Hx. unfold queue, set_queue. by rewrite the_on_ne. Qed.

Lemma set_queue_twice r q1 q2 c : set_queue r q2 (set_queue r q1 c) = set_queue r q2 c.
Proof. unfold set_queue. by rewrite on_on. Qed.

Lemma set_queue_same r q c : queue r c = q -> nodes (set_queue r q c) = nodes c.
Proof.
  intros Hq. unfold set_queue. rewrite nodes_on. apply list_eq. intros i.
  rewrite list_lookup_alter. case_decide as Hi; [subst i|done]. unfold queue, the in Hq. rewrite nth_lookup in Hq.
  destruct (nodes c !! r) as [x|] eqn:Ex; [|done]. simpl in *. f_equal. destruct x. cbn in *. by subst.
Qed.

Lemma text_ok out : out <> [] -> Forall pr_ok [Postponed None out].
Proof. intros Hout. apply Forall_cons_iff. by split; [intros _|]. Qed.

Lemma items_text out : items [Postponed None out] = map Text out.
Proof. unfold items. simpl. apply app_nil_r. Qed.

(** ** The operations when nothing fails *)

Section Operations.
Context `{Env}.
Hypothesis palloc_ok : forall c, ngx_palloc c = true.
Hypothesis filter_ok : forall before inp, (ngx_http_next_body_filter before inp).1 <> NGX_ERROR.

Lemma post_request_ok r c : ngx_http_post_request r c = (NGX_OK, c <| posted_requests := posted_requests c ++ [r] |>).
Proof. unfold ngx_http_post_request. by rewrite palloc_ok. Qed.

Lemma add_spec r inp c : (r < length (nodes c))%nat -> inp <> [] -> Forall pr_ok (queue r c) ->
  exists q, ngx_http_postpone_filter_add r inp c = (NGX_OK, set_queue r q c) /\
    items q = items (queue r c) ++ map Text inp /\ Forall pr_ok q /\
    forall y, items (after y q) = items (after y (queue r c)) ++ map Text inp.
Proof.
  intros Hr Hin Hok. unfold ngx_http_postpone_filter_add. cbv zeta. rewrite !palloc_ok.
  change (postponed (the r c)) with (queue r c).
  assert (Hnew : forall q, q = queue r c ->
    items (q ++ [Postponed None ([] ++ inp)]) = items (queue r c) ++ map Text inp /\
    Forall pr_ok (q ++ [Postponed None ([] ++ inp)]) /\
    forall y, items (after y (q ++ [Postponed None ([] ++ inp)])) = items (after y (queue r c)) ++ map Text inp).
  { intros q ->. rewrite items_app, items_text. split_and!; [done | |].
    - apply List.Forall_app. split; [done|]. by apply text_ok.
    - intros y. destruct (queue r c) as [|p q] eqn:E; [simpl; by rewrite items_text|].
      by rewrite after_app, items_app, items_text by done. }
  destruct (reverse (queue r c)) as [|[[z|] out] before] eqn:E.
  - rewrite set_queue_twice. eexists. split; [done|]. by apply Hnew.
  - rewrite set_queue_twice. eexists. split; [done|]. by apply Hnew.
  - assert (Eq : queue r c = reverse before ++ [Postponed None out]).
    { rewrite <- (reverse_involutive (queue r c)), E, reverse_cons. done. }
    rewrite Eq in Hok |- *. apply List.Forall_app in Hok as [Hok _].
    eexists. split; [done|]. rewrite !items_app, !items_text, map_app, app_assoc. split_and!; [done | |].
    + apply List.Forall_app. split; [done|]. apply text_ok. by destruct out.
    + intros y. destruct (reverse before) as [|p q] eqn:Eb.
      * simpl. by rewrite !items_text, map_app.
      * by rewrite !after_app, !items_app, !items_text, map_app, app_assoc by done.
Qed.

(** What does not change in the connection when output goes out. *)
Definition same_main (c c' : conn) : Prop :=
  count c' = count c /\ subrequests c' = subrequests c /\ blocked c' = blocked c /\ c_error c' = c_error c /\ status c' = status c.

(** What [flush] does from the queue [q] of [r]: all is output, or all up to a
    subrequest, which is woken. *)
Definition flushed (r : nat) (q : list ngx_http_postponed_request) (c c' : conn) : Prop :=
  exists q' ts, nodes c' = nodes (set_queue r q' c) /\ Forall pr_ok q' /\ sent c' = sent c ++ ts /\ same_main c c' /\
    ((q' = [] /\ items q = map Text ts /\ data c' = data c /\ posted_requests c' = posted_requests c) \/
     (exists y, items q = map Text ts ++ Sub y :: items q' /\ data c' = y /\
        posted_requests c' = posted_requests c ++ [y] /\ (length q' < length q)%nat)).

Lemma flush_spec r q c : (r < length (nodes c))%nat -> Forall pr_ok q -> queue r c = q ->
  (flush r q c).1 <> NGX_ERROR /\ flushed r q c (flush r q c).2.
Proof.
  revert c. induction q as [|[[y|] out] q IH]; intros c Hr Hok Hq.
  - split; [done|]. exists [], []. split_and!; try done; [|by rewrite app_nil_r|by left].
    symmetry. by apply set_queue_same.
  - apply Forall_cons_iff in Hok as [_ Hok]. cbn [flush]. rewrite post_request_ok. split; [done|].
    exists q, []. split_and!; try done; [by rewrite app_nil_r|]. right. exists y. split_and!; [done..|simpl; lia].
  - apply Forall_cons_iff in Hok as [Hout Hok]. specialize (Hout eq_refl). cbn [flush].
    destruct out as [|b out]; [done|]. unfold next_body_filter.
    destruct (ngx_http_next_body_filter (sent c) (b :: out)) as [rc buf] eqn:E.
    pose proof (filter_ok (sent c) (b :: out)) as Hf. rewrite E in Hf. cbn [fst] in Hf. rewrite bool_decide_false by done.
    set (c1 := set_queue r q _).
    assert (Hr1 : (r < length (nodes c1))%nat) by (unfold c1, set_queue; by rewrite length_on).
    destruct (IH c1 Hr1 Hok) as (H1 & q' & ts & H2 & H3 & H4 & H5 & H6).
    { unfold c1. by rewrite queue_set. }
    split; [done|]. exists q', ((b :: out) ++ ts). split_and!.
    + rewrite H2. unfold c1. by rewrite set_queue_twice.
    + done.
    + rewrite H4, app_assoc. done.
    + destruct H5 as (? & ? & ? & ? & ?). by split_and!.
    + rewrite map_app. change (items (Postponed None (b :: out) :: q)) with (map Text (b :: out) ++ items q).
      destruct H6 as [(-> & -> & ? & ?) | (y & -> & ? & ? & ?)]; [left | right].
      * by split_and!.
      * exists y. rewrite app_assoc. split_and!; try done. simpl. lia.
Qed.

(** ** Good states

    The invariant, with what waits for an event: a request that has ended and
    is not done has a handler that goes on with it, but for [ex]. *)

Definition waits (x : nat) (c : conn) : Prop :=
  handler_of x c = ngx_http_writer_handler \/
  (handler_of x c = ngx_http_request_finalizer_handler /\ queue x c = [] /\ x <> 0%nat).

Record Handlers (c : conn) (d : document) (closed : nat -> Prop) (over : list nat) (ex : option nat) : Prop := {
  h_closed : forall x, (x < length (nodes c))%nat ->
    handler_of x c = ngx_http_writer_handler \/ handler_of x c = ngx_http_request_finalizer_handler -> closed x;
  h_waits : forall x, (x < length (nodes c))%nat -> ex <> Some x -> closed x -> x ∉ over -> waits x c;
  h_last : closed 0%nat -> exists l b, doc_at d 0 = l ++ [Text b];
  h_posted : Forall (fun x => x < length (nodes c))%nat (posted_requests c);
  h_error : c_error c = false;
  h_open : status c = Open;
}.

Definition Good (c : conn) (d : document) (closed : nat -> Prop) (ex : option nat) : Prop :=
  exists over st C, Inv c d closed over st C /\ Handlers c d closed over ex.

Lemma length_set_queue r q c : length (nodes (set_queue r q c)) = length (nodes c).
Proof. apply length_on. Qed.

Lemma length_set_handler r h c : length (nodes (set_handler r h c)) = length (nodes c).
Proof. apply length_on. Qed.

Lemma handler_set_queue x r q c : handler_of x (set_queue r q c) = handler_of x c.
Proof. unfold handler_of, set_queue. by rewrite (the_on_field req). Qed.

Lemma parent_set_queue x r q c : parent (the x (set_queue r q c)) = parent (the x c).
Proof. unfold set_queue. by rewrite (the_on_field parent). Qed.

Lemma queue_nodes x c c' : nodes c' = nodes c -> queue x c' = queue x c.
Proof. intros E. unfold queue. by rewrite (the_nodes _ _ _ E). Qed.

Lemma head_changes_queue c c' q : (data c < length (nodes c))%nat ->
  nodes c' = nodes (set_queue (data c) q c) -> Forall pr_ok q -> same_main c c' -> head_changes c c'.
Proof.
  intros Ha Hn Hq (H1 & H2 & _). split_and!; try done.
  - rewrite Hn. apply length_on.
  - intros x Hx. rewrite (queue_nodes _ _ _ Hn). by apply queue_set_ne.
  - by rewrite (queue_nodes _ _ _ Hn), queue_set.
  - intros x. rewrite (the_nodes _ _ _ Hn). apply parent_set_queue.
Qed.

Lemma good_flushed c c' d closed ex : Good c d closed ex ->
  flushed (data c) (queue (data c) c) c c' -> Good c' d closed ex.
Proof.
  intros (over & st & C & Hi & Hh) (q' & ts & Hn & Hq' & Hs & Hm & Hcase).
  pose proof (i_data _ _ _ _ _ _ Hi) as Ha. rewrite (i_len _ _ _ _ _ _ Hi) in Ha.
  assert (Hlen : length (nodes c') = length (nodes c)) by (rewrite Hn; apply length_on).
  assert (Hw : forall x, waits x c -> waits x c').
  { intros x. unfold waits, handler_of. rewrite (the_nodes _ _ _ Hn), (queue_nodes _ _ _ Hn).
    change (write_event_handler (req (the x ?c))) with (handler_of x c). rewrite handler_set_queue.
    intros [?|(? & Hx & ?)]; [by left|]. right. split_and!; try done.
    destruct (decide (x = data c)) as [->|]; [|by rewrite queue_set_ne]. rewrite queue_set by done.
    rewrite Hx in Hcase. destruct Hcase as [[? _] | (y & Hy & _)]; [done|]. by destruct ts. }
  assert (Hsub : forall y, items (queue (data c) c) = map Text ts ++ Sub y :: items q' -> (y < length (nodes c))%nat).
  { intros y Hy. rewrite <- (i_len _ _ _ _ _ _ Hi). apply (i_tree _ _ _ _ _ _ Hi (data c) y).
    eapply queue_in_doc; [done|]. rewrite Hy. apply elem_of_app. right. left. }
  assert (Hh' : forall p, posted_requests c' = posted_requests c ++ p -> Forall (fun x => x < length (nodes c))%nat p ->
    Handlers c' d closed over ex).
  { intros p Hp Hpn. destruct Hh as [H1 H2 H3 H4 H5 H6]. destruct Hm as (_ & _ & _ & M1 & M2).
    constructor; rewrite ?Hlen; try done.
    - intros x Hx. unfold handler_of. rewrite (the_nodes _ _ _ Hn).
      change (write_event_handler (req (the x ?c))) with (handler_of x c). rewrite handler_set_queue. auto.
    - intros x Hx Hex Hcl Ho. auto.
    - rewrite Hp. apply List.Forall_app. by split.
    - by rewrite M1.
    - by rewrite M2. }
  pose proof (head_changes_queue c c' q' Ha Hn Hq' Hm) as Hhead.
  destruct Hcase as [(-> & Hit & Hd & Hp) | (y & Hit & Hd & Hp & _)].
  - exists over, st, (C ++ map Text ts). split; [|apply (Hh' []); [by rewrite app_nil_r | done]].
    eapply inv_send; try done. rewrite (queue_nodes _ _ _ Hn), queue_set by done. by rewrite Hit, app_nil_r.
  - set (c1 := (set_queue (data c) (Postponed (Some y) [] :: q') c) <| sent := sent c ++ ts |>).
    assert (Hi1 : Inv c1 d closed over st (C ++ map Text ts)).
    { eapply inv_send; try done.
      - apply (head_changes_queue c c1 (Postponed (Some y) [] :: q')); try done. by apply Forall_cons_iff.
      - change (queue (data c) c1) with (queue (data c) (set_queue (data c) (Postponed (Some y) [] :: q') c)).
        by rewrite queue_set. }
    exists over, ((data c, C ++ map Text ts) :: st), []. split.
    2: { apply (Hh' [y]); [done|]. apply Forall_cons_iff. split; [|done]. by apply Hsub. }
    assert (Hq1 : queue (data c) c1 = Postponed (Some y) [] :: q').
    { change (queue (data c) (set_queue (data c) (Postponed (Some y) [] :: q') c) = Postponed (Some y) [] :: q'). by apply queue_set. }
    assert (Hqc : queue (data c) c' = q') by (by rewrite (queue_nodes _ _ _ Hn), queue_set).
    assert (Hq1c : forall x, x <> data c -> queue x c1 = queue x c) by (intros x Hx; by apply queue_set_ne).
    apply (inv_wake c1 d closed over st (C ++ map Text ts) Hi1 c' y q').
    + destruct Hhead as (G1 & G2 & G3 & G4 & G5 & G6). split_and!; try done.
      * rewrite G1. symmetry. apply length_on.
      * intros x Hx. by rewrite Hq1c, G2.
      * intros x. rewrite G4. symmetry. apply parent_set_queue.
    + change (data c1) with (data c). by rewrite Hq1.
    + change (data c1) with (data c). rewrite Hqc. destruct (items_after y q') as [|E]; [done|]. exfalso.
      pose proof (i_current _ _ _ _ _ _ Hi1) as Hcur. change (data c1) with (data c) in Hcur. rewrite Hq1 in Hcur.
      apply (sub_once _ _ _ _ _ _ Hi1 _ _ _ _ Hcur). change (Sub y ∈ items q'). rewrite E. left.
    + change (data c1) with (data c). rewrite Hqc, Hq1. intros i Hin. by right.
    + done.
    + by rewrite Hs.
Qed.

Definition write (r : nat) (inp : chain) (d : document) : document := alter (fun l => l ++ map Text inp) r d.

Lemma write_at r inp d x : (r < length d)%nat -> doc_at (write r inp d) x = doc_at d x ++ (if decide (x = r) then map Text inp else []).
Proof.
  intros Hr. unfold write. case_decide as Hx; [subst x; by rewrite doc_alter_eq|].
  by rewrite doc_alter_ne, app_nil_r.
Qed.

Lemma write_nil r d : write r [] d = d.
Proof. apply list_alter_id. intros l. apply app_nil_r. Qed.

Lemma subs_texts ts : subs (map Text ts) = [].
Proof. induction ts; [done|]. by unfold subs in *. Qed.

Lemma no_sub_in_texts y ts : Sub y ∉ map Text ts.
Proof. intros Hy%elem_of_subs. rewrite subs_texts in Hy. by apply not_elem_of_nil in Hy. Qed.

Lemma good_add r inp q c d closed ex : Good c d closed ex -> (r < length (nodes c))%nat -> ~ closed r ->
  items q = items (queue r c) ++ map Text inp -> Forall pr_ok q ->
  (forall y, items (after y q) = items (after y (queue r c)) ++ map Text inp) ->
  Good (set_queue r q c) (write r inp d) closed ex.
Proof.
  intros (over & st & C & Hi & Hh) Hr Hcl Hq Hok Haf. exists over, st, C.
  pose proof (i_len _ _ _ _ _ _ Hi) as Hlen. assert (Hro : r ∉ over).
  { intros Ho. by apply (i_over _ _ _ _ _ _ Hi) in Ho as (_ & ? & _). }
  assert (Hqx : forall x, queue x (set_queue r q c) = if decide (x = r) then q else queue x c).
  { intros x. case_decide as Hx; [subst x; by apply queue_set | by apply queue_set_ne]. }
  destruct (i_subrequests _ _ _ _ _ _ Hi) as [Hsub H201]. split.
  - apply (inv_append c d closed over st C Hi _ _ closed (fun x => if decide (x = r) then map Text inp else [])); try done.
    + unfold write. by rewrite length_alter, length_set_queue.
    + unfold write. by rewrite length_alter.
    + intros x. apply write_at. lia.
    + intros x. rewrite Hqx. case_decide; [by subst | by rewrite app_nil_r].
    + intros x z _. rewrite Hqx. case_decide; [by subst | by rewrite app_nil_r].
    + intros x. rewrite Hqx. case_decide; [done | apply (i_queue _ _ _ _ _ _ Hi)].
    + intros z _. apply parent_set_queue.
    + intros x Hx. rewrite decide_False by (intros ->; done). split; [done|]. by apply (i_over _ _ _ _ _ _ Hi) in Hx as (_ & ? & _).
    + intros x y. case_decide; [intros Hy; by apply no_sub_in_texts in Hy | intros Hy; by apply not_elem_of_nil in Hy].
    + intros x. case_decide; [rewrite subs_texts|]; constructor.
    + intros y. unfold write. rewrite length_alter. lia.
    + unfold write. rewrite length_alter. change (count (set_queue r q c)) with (count c). lia.
  - destruct Hh as [H1 H2 H3 H4 H5 H6].
    constructor; rewrite ?length_set_queue; try done.
    + intros x Hx. rewrite handler_set_queue. auto.
    + intros x Hx Hex Hc Ho. unfold waits. rewrite handler_set_queue, Hqx.
      rewrite decide_False by (intros ->; done). by apply H2.
    + intros Hc. rewrite write_at by lia. rewrite decide_False by (intros <-; done). rewrite app_nil_r. auto.
Qed.

(** Output with an empty queue goes out directly. *)
Lemma next_good c1 inp c d closed ex : Good c1 d closed ex -> items (queue (data c1) c1) = map Text inp ->
  nodes c = nodes (set_queue (data c1) [] c1) -> data c = data c1 -> sent c = sent c1 ->
  posted_requests c = posted_requests c1 -> same_main c1 c ->
  (next_body_filter inp c).1 <> NGX_ERROR /\ Good (next_body_filter inp c).2 d closed ex.
Proof.
  intros Hg Hq Hn Hd Hs Hp (?&?&?&?&?). unfold next_body_filter. pose proof (filter_ok (sent c) inp) as Hf.
  destruct (ngx_http_next_body_filter (sent c) inp) as [rc b]. split; [done|]. cbn [snd].
  apply (good_flushed c1); [done|]. exists [], inp. split_and!; try done.
  - by rewrite <- Hs.
  - left. by split_and!.
Qed.

Lemma output_good r inp c d closed ex : Good c d closed ex -> (r < length (nodes c))%nat -> inp = [] \/ ~ closed r ->
  (ngx_http_output_filter r inp c).1 <> NGX_ERROR /\
  Good (ngx_http_output_filter r inp c).2 (write r inp d) closed ex.
Proof.
  intros Hg Hr Hin. unfold ngx_http_output_filter.
  assert (Hp : (ngx_http_postpone_filter r inp c).1 <> NGX_ERROR /\
    Good (ngx_http_postpone_filter r inp c).2 (write r inp d) closed ex).
  2: { destruct (ngx_http_postpone_filter r inp c) as [rc c']. destruct Hp as [H1 H2]. cbn [fst snd] in *.
       by rewrite bool_decide_false. }
  assert (Hok : Forall pr_ok (queue r c)) by (destruct Hg as (? & ? & ? & Hi & _); apply (i_queue _ _ _ _ _ _ Hi)).
  assert (Hadd : inp <> [] -> exists q, ngx_http_postpone_filter_add r inp c = (NGX_OK, set_queue r q c) /\
    Forall pr_ok q /\ items q = items (queue r c) ++ map Text inp /\ Good (set_queue r q c) (write r inp d) closed ex).
  { intros Hne. destruct (add_spec r inp c Hr Hne Hok) as (q & Hq1 & Hq2 & Hq3 & Hq4). exists q. split_and!; try done.
    apply good_add; try done. by destruct Hin. }
  unfold ngx_http_postpone_filter. change (postponed (the r ?c)) with (queue r c).
  case_bool_decide as Hra; cbn [negb].
  2: { case_bool_decide as Hn; [subst inp; by rewrite write_nil|]. destruct (Hadd Hn) as (q & -> & _ & _ & Hg'). done. }
  case_bool_decide as Hq.
  - case_bool_decide as Hn; cbn [negb orb].
    + subst inp. rewrite write_nil. destruct (c_buffered c); [|done]. subst r.
      apply (next_good c); try done; [by rewrite Hq | by rewrite set_queue_same].
    + destruct (Hadd Hn) as (q & _ & Hqok & Hqi & Hg'). rewrite Hq in Hqi.
      apply (next_good (set_queue r q c)); try done.
      * change (data (set_queue r q c)) with (data c). rewrite <- Hra, queue_set by done. done.
      * change (data (set_queue r q c)) with (data c). rewrite <- Hra, set_queue_twice. symmetry. by apply set_queue_same.
  - assert (Hflush : forall c1 d1, Good c1 d1 closed ex -> data c1 = r -> length (nodes c1) = length (nodes c) ->
      (flush r (queue r c1) c1).1 <> NGX_ERROR /\ Good (flush r (queue r c1) c1).2 d1 closed ex).
    { intros c1 d1 Hg1 Hd1 Hl1. destruct (flush_spec r (queue r c1) c1) as [H1 H2]; [lia | | done |].
      - destruct Hg1 as (? & ? & ? & Hi & _). apply (i_queue _ _ _ _ _ _ Hi).
      - split; [done|]. apply (good_flushed c1); [done|]. by rewrite Hd1. }
    cbv zeta. case_bool_decide as Hn.
    + subst inp. rewrite write_nil. by apply Hflush.
    + destruct (Hadd Hn) as (q & -> & Hqok & Hqi & Hg'). cbn [snd].
      apply Hflush; [done | done | apply length_set_queue].
Qed.

(** ** The end of a request *)

Definition same_views (c c' : conn) : Prop :=
  length (nodes c') = length (nodes c) /\ (forall x, queue x c' = queue x c) /\
  (forall x, parent (the x c') = parent (the x c)) /\ (forall x, handler_of x c' = handler_of x c).

Lemma good_same c c' d closed ex : Good c d closed ex -> same_views c c' ->
  data c' = data c -> sent c' = sent c -> same_main c c' ->
  Forall (fun x => x < length (nodes c))%nat (posted_requests c') -> Good c' d closed ex.
Proof.
  intros (over & st & C & Hi & Hh) (V1 & V2 & V3 & V4) Hd Hs (M1 & M2 & M3 & M4 & M5) Hp.
  exists over, st, C. split.
  - apply (inv_same c d closed over st C Hi); try done. intros x Hx. by apply (i_over _ _ _ _ _ _ Hi) in Hx as (_ & ? & _).
  - destruct Hh as [H1 H2 H3 H4 H5 H6]. constructor; rewrite ?V1; try done.
    + intros x Hx. rewrite V4. auto.
    + intros x Hx Hex Hc Ho. unfold waits. rewrite V4, V2. by apply H2.
    + by rewrite M4.
    + by rewrite M5.
Qed.

Lemma on_views r f c : (forall y, req (f y) = req y) -> (forall y, parent (f y) = parent y) ->
  (forall y, postponed (f y) = postponed y) -> same_views c (on r f c).
Proof.
  intros H1 H2 H3. split_and!; intros.
  - apply length_on.
  - by apply (the_on_field postponed).
  - by apply (the_on_field parent).
  - unfold handler_of. by rewrite (the_on_field req).
Qed.

Lemma good_post r c d closed ex : Good c d closed ex -> (r < length (nodes c))%nat ->
  Good (c <| posted_requests := posted_requests c ++ [r] |>) d closed ex.
Proof.
  intros Hg Hr. apply (good_same c); try done. apply List.Forall_app. split.
  - by destruct Hg as (? & ? & ? & _ & []).
  - by apply Forall_cons_iff.
Qed.

Lemma handler_set x r h c : (r < length (nodes c))%nat ->
  handler_of x (set_handler r h c) = if decide (x = r) then h else handler_of x c.
Proof.
  intros Hr. unfold handler_of, set_handler. case_decide as Hx; [subst; by rewrite the_on_eq | by rewrite the_on_ne].
Qed.

Lemma queue_set_handler x r h c : queue x (set_handler r h c) = queue x c.
Proof. unfold queue, set_handler. by apply (the_on_field postponed). Qed.

Lemma good_set_handler r h c d closed ex ex' : Good c d closed ex -> (r < length (nodes c))%nat -> closed r ->
  ex = Some r \/ ex = None ->
  ex' = Some r \/ h = ngx_http_writer_handler \/ h = ngx_http_request_finalizer_handler /\ queue r c = [] /\ r <> 0%nat ->
  Good (set_handler r h c) d closed ex'.
Proof.
  intros (over & st & C & Hi & Hh) Hr Hcl Hex Hw. exists over, st, C. split.
  - apply (inv_same c d closed over st C Hi); try done; intros.
    + apply length_on.
    + apply queue_set_handler.
    + by apply (the_on_field parent).
    + by destruct (i_over _ _ _ _ _ _ Hi x H0) as (_ & ? & _).
  - destruct Hh as [H1 H2 H3 H4 H5 H6].
    assert (Hl : length (nodes (set_handler r h c)) = length (nodes c)) by apply length_on.
    constructor; rewrite ?Hl; try done.
    + intros x Hx. rewrite handler_set by done. case_decide; [by subst | auto].
    + intros x Hx Hex' Hc Ho. unfold waits. rewrite handler_set, queue_set_handler by done. case_decide as Hxr.
      * subst. by destruct Hw.
      * apply H2; try done. destruct Hex as [-> | ->]; congruence.
Qed.

Lemma good_handler r h c d closed ex : Good c d closed ex -> (r < length (nodes c))%nat -> closed r ->
  ex = Some r \/ ex = None ->
  h = ngx_http_writer_handler \/ h = ngx_http_request_finalizer_handler /\ queue r c = [] /\ r <> 0%nat ->
  Good (set_handler r h c) d closed None.
Proof. intros. eapply good_set_handler; eauto. Qed.

Lemma good_length c d closed ex : Good c d closed ex -> length (nodes c) = length d.
Proof. intros (? & ? & ? & Hi & _). by rewrite (i_len _ _ _ _ _ _ Hi). Qed.

(** A subrequest that is done: its place in the queue of its parent [pr] is
    taken away, if it is at the head. *)
Definition popped (r pr : nat) (c : conn) : conn :=
  match postponed (the pr c) with
  | Postponed (Some y) _ :: q => if bool_decide (y = r) then set_queue pr q c else c
  | _ => c
  end.

Lemma popped_queue r pr c x : (pr < length (nodes c))%nat ->
  queue x (popped r pr c) = if decide (x = pr) then after r (queue pr c) else queue x c.
Proof.
  intros Hpr. unfold popped. change (postponed (the pr c)) with (queue pr c). unfold after.
  destruct (queue pr c) as [|[[y|] out] q] eqn:E; try (by case_decide; subst).
  case_bool_decide; [|by case_decide; subst].
  case_decide as Hx; [subst x; by apply queue_set | by apply queue_set_ne].
Qed.

Lemma popped_rest r pr c : length (nodes (popped r pr c)) = length (nodes c) /\
  (forall x, parent (the x (popped r pr c)) = parent (the x c)) /\
  (forall x, handler_of x (popped r pr c) = handler_of x c) /\
  data (popped r pr c) = data c /\ sent (popped r pr c) = sent c /\ posted_requests (popped r pr c) = posted_requests c /\
  same_main c (popped r pr c).
Proof.
  unfold popped. destruct (postponed (the pr c)) as [|[[y|] out] q]; try done. case_bool_decide; [|done].
  split_and!; try done; intros; [apply length_set_queue | apply parent_set_queue | apply handler_set_queue].
Qed.

(** Fewer are done than there are. *)
Lemma over_le c d closed over st C : Inv c d closed over st C -> (length over < length d)%nat.
Proof.
  intros Hi. pose proof (i_data _ _ _ _ _ _ Hi).
  assert (H1 : (length over <= length (seq 1 (length d - 1)))%nat); [|rewrite length_seq in H1; lia].
  apply NoDup_incl_length; [apply NoDup_ListNoDup, (i_over_nodup _ _ _ _ _ _ Hi)|]. intros x Hx. apply in_seq.
  apply list_elem_of_In, (i_over _ _ _ _ _ _ Hi) in Hx. lia.
Qed.

Lemma over_bound c d closed over st C : Inv c d closed over st C -> data c <> 0%nat ->
  (length over + 2 <= length d)%nat.
Proof.
  intros Hi Ha. pose proof (i_data _ _ _ _ _ _ Hi).
  assert (Hn : NoDup (data c :: over)).
  { constructor; [by eapply active_not_over | apply (i_over_nodup _ _ _ _ _ _ Hi)]. }
  assert (Hs : (length (data c :: over) <= length (seq 1 (length d - 1)))%nat).
  { apply NoDup_incl_length; [by apply NoDup_ListNoDup|]. intros x Hx. apply in_seq. simpl in Hx.
    destruct Hx as [<-|Hx]; [lia|]. apply list_elem_of_In, (i_over _ _ _ _ _ _ Hi) in Hx. lia. }
  rewrite length_seq in Hs. simpl in Hs. lia.
Qed.

Lemma done_good r c d (closed : nat -> Prop) : Good c d closed (Some r) -> r = data c -> r <> 0%nat -> closed r -> queue r c = [] ->
  let c1 := on r (fun x => x <| logged := true |> <| done := true |>)
    (c <| count := wrap 8 (count c - 1) |> <| subrequests := wrap 8 (subrequests c + 1) |>) in
  Good ((popped r (parent (the r c)) c1) <| data := parent (the r c) |>) d closed None /\ (parent (the r c) < length (nodes c))%nat.
Proof.
  intros (over & st & C & Hi & Hh) Hr Hr0 Hcl Hq c1. set (pr := parent (the r c)).
  pose proof (i_len _ _ _ _ _ _ Hi) as Hlen. pose proof (i_data _ _ _ _ _ _ Hi) as Hdl.
  assert (Hpr : (pr < r)%nat) by (apply (parent_lt _ _ _ _ _ _ Hi); lia).
  pose proof (over_bound _ _ _ _ _ _ Hi ltac:(congruence)) as Hob.
  pose proof (i_count _ _ _ _ _ _ Hi) as Hcnt. destruct (i_subrequests _ _ _ _ _ _ Hi) as [Hsub H201].
  set (c0 := (c <| count := wrap 8 (count c - 1) |>) <| subrequests := wrap 8 (subrequests c + 1) |>) in *.
  assert (Hv : same_views c0 c1) by (by apply on_views).
  change (same_views c c1) in Hv. destruct Hv as (V1 & V2 & V3 & V4).
  destruct (popped_rest r pr c1) as (P1 & P2 & P3 & P4 & P5 & P6 & P7 & P8 & P9 & P10 & P11).
  assert (Hpq : forall x, queue x (popped r pr c1) = if decide (x = pr) then after r (queue pr c) else queue x c).
  { intros x. rewrite popped_queue by lia. by rewrite !V2. }
  split; [|lia].
  destruct st as [|[x C1] st1]. { pose proof (i_stack _ _ _ _ _ _ Hi) as Hs. simpl in Hs. congruence. }
  assert (Hx : x = pr). { pose proof (i_stack _ _ _ _ _ _ Hi) as Hs. simpl in Hs. destruct Hs as (_ & Hs & _). unfold pr. congruence. }
  subst x. exists (r :: over), st1, (C1 ++ [Sub r]). split.
  - rewrite Hr. apply (inv_done c d closed over ((pr, C1) :: st1) C Hi) with (x := pr); rewrite <- ?Hr; try done.
    + cbn. lia.
    + intros z Hz. change (queue z (popped r pr c1) = queue z c). rewrite Hpq. by rewrite decide_False.
    + change (queue pr (popped r pr c1) = after r (queue pr c)). rewrite Hpq. by rewrite decide_True.
    + intros z. change (parent (the z (popped r pr c1)) = parent (the z c)). by rewrite P2.
    + change (count (popped r pr c1) = count c - 1). rewrite P7. cbn. rewrite wrap_small; lia.
    + change (subrequests (popped r pr c1) = subrequests c + 1). rewrite P8. cbn. rewrite wrap_small; lia.
  - destruct Hh as [H1 H2 H3 H4 H5 H6].
    assert (Hl : length (nodes ((popped r pr c1) <| data := pr |>)) = length (nodes c)) by (cbn; lia).
    assert (Hho : forall z, handler_of z ((popped r pr c1) <| data := pr |>) = handler_of z c).
    { intros z. change (handler_of z (popped r pr c1) = handler_of z c). by rewrite P3. }
    constructor; rewrite ?Hl; try done.
    + intros z Hz. rewrite Hho. auto.
    + intros z Hz _ Hc Ho. apply not_elem_of_cons in Ho as [Hzr Ho]. unfold waits. rewrite Hho.
      destruct (H2 z Hz ltac:(congruence) Hc Ho) as [?|(? & Hzq & ?)]; [by left|right]. split_and!; try done.
      change (queue z (popped r pr c1) = []). rewrite Hpq. case_decide; [|done]. subst z. by rewrite Hzq.
    + change (Forall (fun x => x < length (nodes c))%nat (posted_requests (popped r pr c1))). by rewrite P6.
    + change (c_error (popped r pr c1) = false). by rewrite P10.
    + change (status (popped r pr c1) = Open). by rewrite P11.
Qed.

Lemma good_ex c d closed : Good c d closed None -> forall ex, Good c d closed ex.
Proof.
  intros (over & st & C & Hi & [H1 H2 H3 H4 H5 H6]) ex. exists over, st, C. split; [done|]. constructor; try done.
  intros x Hx _. by apply H2.
Qed.

Lemma finalize_subrequest_good r c d closed ex : Good c d closed ex -> ex = Some r \/ ex = None ->
  (r < length (nodes c))%nat -> closed r -> r <> 0%nat -> Good (finalize_subrequest r c) d closed None.
Proof.
  intros Hg Hex Hr Hcl Hr0. unfold finalize_subrequest. cbv zeta. change (postponed (the r c)) with (queue r c).
  destruct (buffered (the r c) || negb (bool_decide (queue r c = []))) eqn:Eb.
  { apply good_handler with (ex := ex); try done. by left. }
  apply orb_false_iff in Eb as [_ Eb]. apply negb_false_iff, bool_decide_eq_true in Eb.
  case_bool_decide as Hra.
  - assert (Hg' : Good c d closed (Some r)) by (destruct Hex as [-> | ->]; [done | by apply good_ex]).
    destruct (done_good r c d closed Hg' Hra Hr0 Hcl Eb) as [H1 H2]. rewrite post_request_ok.
    apply good_post; [exact H1|].
    set (c1 := on r _ _). destruct (popped_rest r (parent (the r c)) c1) as (P1 & _).
    change (parent (the r c) < length (nodes (popped r (parent (the r c)) c1)))%nat. rewrite P1. unfold c1. by rewrite length_on.
  - rewrite post_request_ok.
    assert (Hg' : Good (set_handler r ngx_http_request_finalizer_handler c) d closed None).
    { apply good_handler with (ex := ex); try done. right. done. }
    assert (Hpr : (parent (the r c) < length (nodes c))%nat).
    { destruct Hg as (? & ? & ? & Hi & _). pose proof (i_len _ _ _ _ _ _ Hi). pose proof (parent_lt _ _ _ _ _ _ Hi r ltac:(lia)). lia. }
    assert (Hl : length (nodes (set_handler r ngx_http_request_finalizer_handler c)) = length (nodes c)) by apply length_on.
    apply good_post.
    + destruct (waited (the r c)); [|done]. set (c1 := set_handler r _ c) in *.
      apply (good_same c1); try done; [by apply on_views|].
      destruct Hg' as (? & ? & ? & _ & []). done.
    + destruct (waited (the r c)); [rewrite length_on|]; lia.
Qed.

(** The connection is finalised: everything is out and done. *)
Definition Final (c : conn) (d : document) (closed : nat -> Prop) : Prop :=
  status c = Finished /\ renders d (doc_at d 0) (sent c) /\ (forall y, (y < length d)%nat -> closed y) /\ count c = 1.

Lemma main_in_stack c d st : forall y, stack_ok c d y st -> y <> 0%nat -> queue 0 c = [] ->
  exists C1 z, doc_at d 0 = C1 ++ [Sub z].
Proof.
  induction st as [|[x C1] st IH]; intros y; simpl; [done|]. intros (_ & _ & H2 & H3) _ Hq.
  destruct (decide (x = 0%nat)) as [->|Hx]; [|by apply (IH x)].
  exists C1, y. by rewrite H2, Hq.
Qed.

Lemma finalize_main_good c d (closed : nat -> Prop) ex : Good c d closed ex -> ex = Some 0%nat \/ ex = None ->
  closed 0%nat -> Good (finalize_main c) d closed None \/ Final (finalize_main c) d closed.
Proof.
  intros Hg Hex Hcl. pose proof Hg as (over & st & C & Hi & Hh). unfold finalize_main. cbv zeta.
  change (postponed (the 0 c)) with (queue 0 c).
  assert (H0 : (0 < length (nodes c))%nat).
  { pose proof (i_data _ _ _ _ _ _ Hi). pose proof (i_len _ _ _ _ _ _ Hi). lia. }
  destruct (buffered (the 0 c) || c_buffered c || negb (bool_decide (queue 0 c = [])) || blocked c) eqn:Eb.
  { left. apply good_handler with (ex := ex); try done. by left. }
  apply orb_false_iff in Eb as [Eb _]. apply orb_false_iff in Eb as [_ Eb]. apply negb_false_iff, bool_decide_eq_true in Eb.
  case_bool_decide as Ha; cbn [negb].
  - right. destruct (all_out _ _ _ _ _ _ Hi (eq_sym Ha) Eb) as (H1 & H2 & H3). split_and!; try done.
    intros y Hy. destruct (decide (y = 0%nat)) as [->|]; [done|].
    by destruct (i_over _ _ _ _ _ _ Hi y (H2 y ltac:(lia))) as (_ & ? & _).
  - exfalso. destruct (main_in_stack c d st (data c) (i_stack _ _ _ _ _ _ Hi) ltac:(congruence) Eb) as (C1 & z & Hz).
    destruct (h_last _ _ _ _ _ Hh Hcl) as (l & b & Hl). rewrite Hz in Hl.
    apply app_inj_tail in Hl as [_ Hl]. done.
Qed.

Lemma finalize_good r rc c d (closed : nat -> Prop) ex : Good c d closed ex -> ex = Some r \/ ex = None ->
  (r < length (nodes c))%nat -> closed r -> rc <> NGX_ERROR ->
  Good (ngx_http_finalize_request r rc c) d closed None \/ Final (ngx_http_finalize_request r rc c) d closed.
Proof.
  intros Hg Hex Hr Hcl Hrc. unfold ngx_http_finalize_request. rewrite bool_decide_false by done.
  assert (He : c_error c = false) by (by destruct Hg as (? & ? & ? & _ & [])). rewrite He. cbn [orb].
  case_bool_decide as Hr0; cbn [negb].
  - subst r. by apply (finalize_main_good c d closed ex).
  - left. by apply finalize_subrequest_good with (ex := ex).
Qed.

Lemma writer_good r c d closed : Good c d closed None -> (r < length (nodes c))%nat -> closed r ->
  Good (ngx_http_writer r c) d closed None \/ Final (ngx_http_writer r c) d closed.
Proof.
  intros Hg Hr Hcl. unfold ngx_http_writer.
  destruct (output_good r [] c d closed None Hg Hr ltac:(by left)) as [H1 H2]. rewrite write_nil in H2.
  destruct (ngx_http_output_filter r [] c) as [rc c1] eqn:E. cbn [fst snd] in *. rewrite bool_decide_false by done.
  cbv zeta. case_match; [by left|].
  assert (Hr1 : (r < length (nodes c1))%nat) by (rewrite (good_length _ _ _ _ H2), <- (good_length _ _ _ _ Hg); done).
  apply finalize_good with (ex := Some r); try done; [|by left|by rewrite length_set_handler].
  apply (good_set_handler r _ c1 d closed None); try done; [by right | by left].
Qed.

Lemma write_event_good r c d closed : Good c d closed None -> (r < length (nodes c))%nat ->
  Good (write_event r c) d closed None \/ Final (write_event r c) d closed.
Proof.
  intros Hg Hr. unfold write_event. destruct (handler_of r c) eqn:E; try by left.
  all: assert (Hcl : closed r) by (destruct Hg as (? & ? & ? & _ & Hh); apply (h_closed _ _ _ _ _ Hh); auto).
  - by apply writer_good.
  - unfold ngx_http_request_finalizer. apply finalize_good with (ex := None); try done. by right.
Qed.

Lemma run_posted_good c c' d closed : Good c d closed None -> run_posted_request c = Some c' ->
  Good c' d closed None \/ Final c' d closed.
Proof.
  intros Hg. unfold run_posted_request. destruct (status c); try done.
  destruct (posted_requests c) as [|r p] eqn:Ep; [done|]. intros [= <-].
  assert (Hp : Forall (fun x => x < length (nodes c))%nat (r :: p)).
  { rewrite <- Ep. by destruct Hg as (? & ? & ? & _ & []). }
  apply Forall_cons_iff in Hp as [Hr Hp]. apply write_event_good; [|done]. by apply (good_same c).
Qed.

(** ** [ngx_http_subrequest] *)

Lemma the_new x nd c : the x (c <| nodes := nodes c ++ [nd] |>) = if decide (x = length (nodes c)) then nd else the x c.
Proof.
  unfold the. cbn. case_decide as Hx; [subst; by rewrite nth_middle|].
  destruct (decide (x < length (nodes c))%nat); [by rewrite app_nth1|].
  rewrite !nth_overflow; [done | lia | rewrite length_app; simpl; lia].
Qed.

Definition subrequested (r : nat) (d : document) : document := alter (fun l => l ++ [Sub (length d)]) r d ++ [[]].

Lemma subrequested_at r d x : (r < length d)%nat ->
  doc_at (subrequested r d) x = doc_at d x ++ (if decide (x = r) then [Sub (length d)] else []).
Proof.
  intros Hr. unfold subrequested. destruct (decide (x < length d)%nat).
  - unfold doc_at. rewrite app_nth1 by (by rewrite length_alter).
    change (nth x (alter (fun l => l ++ [Sub (length d)]) r d) []) with (doc_at (alter (fun l => l ++ [Sub (length d)]) r d) x).
    case_decide; [subst; by rewrite doc_alter_eq | by rewrite doc_alter_ne, app_nil_r].
  - rewrite decide_False by lia. unfold doc_at. rewrite (nth_overflow d), app_nil_r by lia.
    rewrite app_nth2 by (rewrite length_alter; lia). by destruct (x - _)%nat as [|[|]].
Qed.

(** The new request in the queue of its parent. *)
Definition queued (r : nat) (nd : node) (q : list ngx_http_postponed_request) (c : conn) : conn :=
  set_queue r (q ++ [Postponed (Some (length (nodes c))) []]) (c <| nodes := nodes c ++ [nd] |>).

Lemma queued_good r nd c c' d (closed : nat -> Prop) : Good c d closed None -> (r < length (nodes c))%nat ->
  ~ closed r -> (forall y, (length d <= y)%nat -> ~ closed y) ->
  parent nd = r -> postponed nd = [] -> write_event_handler (req nd) = ngx_http_handler_handler ->
  nodes c' = nodes (queued r nd (queue r c) c) -> data c' = data c -> sent c' = sent c -> posted_requests c' = posted_requests c ->
  c_error c' = c_error c -> status c' = status c ->
  count c' = count c + 1 -> subrequests c' = 202 - count c' -> count c' <= 201 ->
  Good c' (subrequested r d) closed None.
Proof.
  intros (over & st & C & Hi & Hh) Hr Hcl Hnew Np Nq Nh Hn Hd Hs Hp He Hst Hcnt Hsub H201.
  pose proof (i_len _ _ _ _ _ _ Hi) as Hlen.
  assert (Hro : r ∉ over). { intros Ho. by apply (i_over _ _ _ _ _ _ Hi) in Ho as (_ & ? & _). }
  set (n := length (nodes c)) in *. set (c1 := c <| nodes := nodes c ++ [nd] |>).
  assert (Hl1 : length (nodes c1) = S n) by (unfold c1; cbn; rewrite length_app; simpl; lia).
  assert (Hl : length (nodes c') = S n) by (rewrite Hn; unfold queued; by rewrite length_set_queue).
  assert (Hq : forall x, queue x c' = if decide (x = r) then queue r c ++ [Postponed (Some n) []] else queue x c).
  { intros x. rewrite (queue_nodes _ _ _ Hn). unfold queued. fold c1. fold n. case_decide as Hx.
    - subst x. apply queue_set. lia.
    - rewrite queue_set_ne by done. unfold queue, c1. rewrite the_new. case_decide; [|done]. subst x. rewrite Nq.
      unfold the. by rewrite nth_overflow. }
  assert (Hpar : forall x, parent (the x c') = if decide (x = n) then r else parent (the x c)).
  { intros x. rewrite (the_nodes _ _ _ Hn). unfold queued. rewrite parent_set_queue, the_new. fold n. by case_decide. }
  assert (Hhan : forall x, handler_of x c' = if decide (x = n) then ngx_http_handler_handler else handler_of x c).
  { intros x. unfold handler_of. rewrite (the_nodes _ _ _ Hn). unfold queued.
    change (handler_of x (set_queue r (queue r c ++ [Postponed (Some n) []]) c1) = if decide (x = n) then ngx_http_handler_handler else handler_of x c).
    rewrite handler_set_queue. unfold handler_of, c1. rewrite the_new. fold n. by case_decide. }
  assert (Hsubl : length (subrequested r d) = S n).
  { unfold subrequested. rewrite length_app, length_alter. simpl. lia. }
  exists over, st, C. split.
  - apply (inv_append c d closed over st C Hi _ _ closed (fun x => if decide (x = r) then [Sub (length d)] else [])).
    + lia.
    + lia.
    + intros x. apply subrequested_at. lia.
    + intros x. rewrite Hq, Hlen. case_decide as Hx; [subst x; by rewrite items_app | by rewrite app_nil_r].
    + intros x z Hz. rewrite Hq, Hlen. case_decide as Hx; [subst x|by rewrite app_nil_r].
      destruct (queue r c) as [|p q] eqn:Eq; [|by rewrite after_app, items_app].
      simpl. rewrite bool_decide_false by lia. done.
    + intros x. rewrite Hq. case_decide; [|apply (i_queue _ _ _ _ _ _ Hi)].
      apply List.Forall_app. split; [apply (i_queue _ _ _ _ _ _ Hi) | by apply Forall_cons_iff].
    + intros z Hz. rewrite Hpar. by rewrite decide_False by lia.
    + intros x Hx. rewrite decide_False by (intros ->; done). split; [done|]. by apply (i_over _ _ _ _ _ _ Hi) in Hx as (_ & ? & _).
    + intros x y. case_decide as Hx; [|intros Hy; by apply not_elem_of_nil in Hy].
      intros [= ->]%list_elem_of_singleton. rewrite Hpar, decide_True by done. subst x. split_and!; [lia.. | done].
    + intros x. case_decide; [|constructor]. cbn. apply NoDup_singleton.
    + intros y Hy. rewrite Hpar, (decide_True (P := y = n)) by lia. rewrite decide_True by done.
      replace y with (length d) by lia. left.
    + done.
    + done.
    + lia.
    + done.
    + done.
  - destruct Hh as [H1 H2 H3 H4 H5 H6]. constructor; rewrite ?Hl.
    + intros x Hx. rewrite Hhan. case_decide; [by intros [|]|]. apply H1. lia.
    + intros x Hx _ Hc Ho. unfold waits. rewrite Hhan, Hq. assert (x <> n) by (intros ->; apply (Hnew n); [lia | done]).
      rewrite decide_False by done. rewrite decide_False by (intros ->; done). apply H2; try done. lia.
    + intros Hc. rewrite subrequested_at by lia. rewrite decide_False by (intros <-; done). rewrite app_nil_r. auto.
    + rewrite Hp. eapply List.Forall_impl; [|exact H4]. cbn. lia.
    + by rewrite He.
    + by rewrite Hst.
Qed.

Lemma activated_good y c d closed : Good c d closed None -> queue (data c) c = [Postponed (Some y) []] ->
  Good (c <| data := y |>) d closed None.
Proof.
  intros (over & st & C & Hi & Hh) Hq. exists over, ((data c, C) :: st), []. split.
  - apply (inv_wake c d closed over st C Hi) with (y := y) (q := []); try done.
    + split_and!; try done. apply (i_queue _ _ _ _ _ _ Hi).
    + by rewrite Hq.
    + change (queue (data c) (c <| data := y |>)) with (queue (data c) c). rewrite Hq. simpl. by rewrite bool_decide_true.
  - destruct Hh. by constructor.
Qed.

Lemma subrequest_good r u a m w c d (closed : nat -> Prop) : Good c d closed None -> (r < length (nodes c))%nat ->
  ~ closed r -> (forall y, (length d <= y)%nat -> ~ closed y) ->
  let x := ngx_http_subrequest r u a m w c in
  (x.1 = NGX_OK /\ Good x.2 (subrequested r d) closed None) \/ (x.1 = NGX_ERROR /\ Good x.2 d closed None).
Proof.
  intros Hg Hr Hcl Hnew. cbv zeta. unfold ngx_http_subrequest.
  pose proof Hg as (over & st & C & Hi & Hh). destruct (i_subrequests _ _ _ _ _ _ Hi) as [Hsub H201].
  pose proof (i_count _ _ _ _ _ _ Hi) as Hcnt. pose proof (good_length _ _ _ _ Hg) as Hlen.
  set (c1 := c <| subrequests := _ |>). cbv zeta. change (subrequests c1) with (wrap 8 (subrequests c - 1)).
  pose proof (over_le _ _ _ _ _ _ Hi) as Hov.
  rewrite wrap_small by lia. destruct (subrequests c - 1 =? 0) eqn:E.
  { right. split; [done|]. b2p. exists over, st, C. split; [|by destruct Hh; constructor].
    apply (inv_same c d closed over st C Hi); try done; [|cbn; lia].
    intros x Hx. by apply (i_over _ _ _ _ _ _ Hi) in Hx as (_ & ? & _). }
  b2p. left. rewrite !palloc_ok. cbn [negb].
  set (nd := Node _ r [] false w m false false).
  set (c2 := c1 <| nodes := nodes c1 ++ [nd] |>). change (postponed (the r c1)) with (queue r c).
  change (length (nodes c1)) with (length (nodes c)). change (data c2) with (data c).
  assert (Hgood : forall k, k = count c + 1 -> Good ((set_queue r (queue r c ++ [Postponed (Some (length (nodes c))) []]) c2) <| count := k |>)
    (subrequested r d) closed None).
  { intros k Hk. apply (queued_good r nd c); try done; cbn -[wrap subrequests c1].
    - change (subrequests c1 = 202 - k). unfold c1. cbn -[wrap]. rewrite wrap_small; lia.
    - lia. }
  rewrite post_request_ok. split; [done|]. cbn [snd].
  set (n := length (nodes c)) in *. set (q := queue r c ++ [Postponed (Some n) []]) in *.
  assert (Hlast : forall c', Good c' (subrequested r d) closed None -> (n < length (nodes c'))%nat).
  { intros c' Hg'. rewrite (good_length _ _ _ _ Hg'). unfold subrequested. rewrite length_app, length_alter. simpl. lia. }
  specialize (Hgood (wrap 8 (count c + 1)) ltac:(apply wrap_small; lia)).
  destruct (bool_decide (data c = r) && bool_decide (queue r c = [])) eqn:Eb.
  - apply andb_true_iff in Eb as [Ed%bool_decide_eq_true Eq%bool_decide_eq_true].
    assert (Ha : Good (((set_queue r q c2) <| count := wrap 8 (count c + 1) |>) <| data := n |>) (subrequested r d) closed None).
    { apply activated_good; [done|]. change (queue (data c) (set_queue r q c2) = [Postponed (Some n) []]).
      rewrite Ed, queue_set; [unfold q; by rewrite Eq|]. unfold c2. cbn. rewrite length_app. simpl. lia. }
    apply good_post; [exact Ha | by apply Hlast].
  - apply good_post; [exact Hgood | by apply Hlast].
Qed.

(** ** Every order of events

    The connection with the document its requests have written so far, and
    whether each has ended. *)

Record world := World { cn : conn; doc : document; ended : list bool }.

Definition is_ended (e : list bool) (y : nat) : Prop := e !! y = Some true.

(** What the modules, the posted requests and the client may do next, in any
    order.  The output of the main request ends with its last buffer. *)
Inductive step : world -> world -> Prop :=
| step_output r inp c d e : status c = Open -> e !! r = Some false ->
    step (World c d e) (World (ngx_http_output_filter r inp c).2 (write r inp d) e)
| step_subrequest r u a m w c d e : status c = Open -> e !! r = Some false ->
    (ngx_http_subrequest r u a m w c).1 = NGX_OK ->
    step (World c d e) (World (ngx_http_subrequest r u a m w c).2 (subrequested r d) (e ++ [false]))
| step_refused r u a m w c d e : status c = Open -> e !! r = Some false ->
    (ngx_http_subrequest r u a m w c).1 <> NGX_OK ->
    step (World c d e) (World (ngx_http_subrequest r u a m w c).2 d e)
| step_end r c d e : status c = Open -> e !! r = Some false ->
    (r = 0%nat -> exists l b, doc_at d 0 = l ++ [Text b]) ->
    step (World c d e) (World (ngx_http_finalize_request r NGX_OK c) d (<[r := true]> e))
| step_handler r h c d e : status c = Open -> e !! r = Some false ->
    h <> ngx_http_writer_handler -> h <> ngx_http_request_finalizer_handler ->
    step (World c d e) (World (set_handler r h c) d e)
| step_buffered r b c d e : status c = Open -> step (World c d e) (World (on r (fun x => x <| buffered := b |>) c) d e)
| step_posted c c' d e : run_posted_request c = Some c' -> step (World c d e) (World c' d e)
| step_write c d e : status c = Open -> step (World c d e) (World (write_event (data c) c) d e).

(** The main request [m] before it has written anything. *)
Definition begins (m : ngx_http_request) (b cb : bool) : world :=
  World (Conn [Node m 0 [] false false false false false] 0 [] 1 201 b cb false [] Open) [[]] [false].

Definition in_progress (m : ngx_http_request) : Prop :=
  write_event_handler m <> ngx_http_writer_handler /\ write_event_handler m <> ngx_http_request_finalizer_handler.

Definition fair (w : world) : Prop :=
  length (ended w) = length (doc w) /\
  (Good (cn w) (doc w) (is_ended (ended w)) None \/ Final (cn w) (doc w) (is_ended (ended w))).

Lemma begins_fair m b cb : in_progress m -> fair (begins m b cb).
Proof.
  intros [Hm1 Hm2]. split; [done|]. left. exists [], [], []. split.
  - constructor; cbn; try done; try lia.
    + intros x y Hy. destruct x as [|[|x]]; by apply not_elem_of_nil in Hy.
    + intros x. destruct x as [|[|x]]; constructor.
    + intros x. destruct x as [|[|x]]; constructor.
    + intros x _ _. destruct x as [|[|x]]; done.
    + intros x Hx. by apply not_elem_of_nil in Hx.
    + intros x Hx. by apply not_elem_of_nil in Hx.
    + intros x y _. apply not_elem_of_nil.
    + intros y Hy. by apply not_elem_of_nil in Hy.
    + constructor.
    + constructor.
  - constructor; cbn; try done.
    + intros x Hx. replace x with 0%nat by lia. by intros [].
    + intros x Hx _. replace x with 0%nat by lia. done.
Qed.

Lemma ended_false e r : e !! r = Some false -> ~ is_ended e r /\ (r < length e)%nat.
Proof. intros Hr. split; [|by eapply lookup_lt_Some]. unfold is_ended. congruence. Qed.

Lemma good_close r c d e : Good c d (is_ended e) None -> e !! r = Some false ->
  (r = 0%nat -> exists l b, doc_at d 0 = l ++ [Text b]) -> Good c d (is_ended (<[r := true]> e)) (Some r).
Proof.
  intros (over & st & C & Hi & Hh) Hr H0. exists over, st, C.
  assert (Hsub : forall x, is_ended e x -> is_ended (<[r := true]> e) x).
  { intros x Hx. unfold is_ended in *. rewrite list_lookup_insert. case_decide as Hd; [done|]. done. }
  assert (Hback : forall x, is_ended (<[r := true]> e) x -> x <> r -> is_ended e x).
  { intros x Hx Hn. unfold is_ended in *. by rewrite list_lookup_insert_ne in Hx. }
  split.
  - apply (inv_same c d _ over st C Hi); try done. intros x Hx. by apply Hsub, (i_over _ _ _ _ _ _ Hi).
  - destruct Hh as [H1 H2 H3 H4 H5 H6]. constructor; try done.
    + intros x Hx Hw. apply Hsub. auto.
    + intros x Hx Hex Hc Ho. apply H2; try done. apply Hback; congruence.
    + intros Hc. destruct (decide (r = 0%nat)) as [->|Hne]; [by apply H0|]. apply H3. apply Hback; congruence.
Qed.

Lemma good_iff c d (closed closed' : nat -> Prop) ex : (forall x, closed x <-> closed' x) -> Good c d closed ex -> Good c d closed' ex.
Proof.
  intros Hc (over & st & C & Hi & [H1 H2 H3 H4 H5 H6]). exists over, st, C. split.
  - apply (inv_same c d closed over st C Hi); try done. intros x Hx. by apply Hc, (i_over _ _ _ _ _ _ Hi).
  - constructor; try done; intros.
    + apply Hc. auto.
    + apply H2; try done. by apply Hc.
    + apply H3. by apply Hc.
Qed.

Lemma ended_app e x : is_ended (e ++ [false]) x <-> is_ended e x.
Proof.
  unfold is_ended. rewrite lookup_app. destruct (e !! x) as [b|] eqn:E; [done|]. split; [|done].
  by destruct (x - length e)%nat as [|[|]].
Qed.

Lemma good_module_handler r h c d closed : Good c d closed None -> (r < length (nodes c))%nat -> ~ closed r ->
  h <> ngx_http_writer_handler -> h <> ngx_http_request_finalizer_handler -> Good (set_handler r h c) d closed None.
Proof.
  intros (over & st & C & Hi & [H1 H2 H3 H4 H5 H6]) Hr Hcl Hh1 Hh2. exists over, st, C. split.
  - apply (inv_same c d closed over st C Hi); try done; intros.
    + apply length_set_handler.
    + apply queue_set_handler.
    + by apply (the_on_field parent).
    + by apply (i_over _ _ _ _ _ _ Hi).
  - constructor; rewrite ?length_set_handler; try done.
    + intros x Hx. rewrite handler_set by done. case_decide; [by intros []|auto].
    + intros x Hx Hex Hc Ho. unfold waits. rewrite handler_set, queue_set_handler by done.
      rewrite decide_False by (intros ->; done). by apply H2.
Qed.

Lemma step_fair w w' : fair w -> step w w' -> fair w'.
Proof.
  intros [Hl Hw] Hstep.
  assert (Hf : forall c d e, Final c d (is_ended e) -> status c = Open -> False) by (intros c d e (Hs & _) Ho; congruence).
  assert (Hg : forall c d e, Good c d (is_ended e) None \/ Final c d (is_ended e) -> status c = Open -> Good c d (is_ended e) None).
  { intros c d e [?|?] Ho; [done|]. by destruct (Hf c d e). }
  destruct Hstep as [r inp c d e Ho Hr|r u a m w c d e Ho Hr Hx|r u a m w c d e Ho Hr Hx|r c d e Ho Hr H0|r h c d e Ho Hr Hh1 Hh2|r b c d e Ho|c c' d e Hx|c d e Ho];
    cbn [cn doc ended] in *.
  all: try (pose proof (Hg _ _ _ Hw Ho) as Hgood; pose proof (good_length _ _ _ _ Hgood) as Hlen).
  all: try (destruct (ended_false _ _ Hr) as [Hne Hre]).
  - split; [unfold write; cbn; by rewrite length_alter|]. left. apply output_good; [done | lia | by right].
  - split; [cbn; unfold subrequested; rewrite !length_app, length_alter; simpl; lia|]. left.
    destruct (subrequest_good r u a m w c d _ Hgood ltac:(lia) Hne) as [[_ H2]|[H1 _]]; [|by apply (good_iff _ _ _ _ _ (fun x => iff_sym (ended_app e x)))|congruence].
    intros y Hy Hey. apply lookup_lt_Some in Hey. lia.
  - split; [done|]. left. destruct (subrequest_good r u a m w c d _ Hgood ltac:(lia) Hne) as [[H1 _]|[_ H2]]; [|done|done].
    intros y Hy Hey. apply lookup_lt_Some in Hey. lia.
  - split; [cbn; by rewrite length_insert|]. apply finalize_good with (ex := Some r); [by apply good_close | by left | lia | | done].
    cbn [ended]. unfold is_ended. by rewrite list_lookup_insert_eq.
  - split; [done|]. left. apply good_module_handler; try done. lia.
  - split; [done|]. left. apply (good_same c); try done; [by apply on_views|]. by destruct Hgood as (? & ? & ? & _ & []).
  - split; [done|]. assert (Ho : status c = Open). { unfold run_posted_request in Hx. by destruct (status c). }
    apply (run_posted_good c); [by apply Hg | done].
  - split; [done|]. apply write_event_good; [done|]. destruct Hgood as (? & ? & ? & Hi & _).
    pose proof (i_data _ _ _ _ _ _ Hi). cbn in *. lia.
Qed.

Lemma reach_fair w w' : fair w -> rtc step w w' -> fair w'.
Proof. intros Hw Hr. induction Hr; [done|]. eauto using step_fair. Qed.

End Operations.

End SubrequestsSteps.
