(* ===== verification/SubrequestsProps.v ===== *)
(** * What subrequests promise

    Whatever the order in which the requests of a connection write, start
    subrequests, end and are woken, the client gets the document of the main
    request with every subrequest in its place; and when all have ended and
    nothing keeps output back, all of it goes out and the connection is
    finalised. *)

From stdpp Require Import relations.
From S2P Require Import Prelude HttpRequest Script Subrequests SubrequestsFacts SubrequestsSteps.
Import HttpRequest.HttpRequest Subrequests.Subrequests SubrequestsFacts.SubrequestsFacts.
Import SubrequestsSteps.SubrequestsSteps.

Module SubrequestsProps.

Section Promises.
Context `{Env}.
Hypothesis palloc_ok : forall c, ngx_palloc c = true.
Hypothesis filter_ok : forall before inp, (ngx_http_next_body_filter before inp).1 <> NGX_ERROR.

(** C2: The client gets the document.  Whatever the order in which the main
    request and its subrequests write, start subrequests and end, and their
    posted events and the write events of the connection run, what was passed
    on so far is the beginning of the document, in which every subrequest
    stands where its parent started it; and when the main request is finalised
    it is the whole document, every subrequest has ended, and the count of
    references is back to one.  The counters, eight bits wide, never wrap.  It
    takes that allocations succeed and the next filter does not fail. *)
Theorem subrequests_in_order m b cb w : in_progress m -> rtc step (begins m b cb) w ->
  (exists rest, renders (doc w) (doc_at (doc w) 0) (sent (cn w) ++ rest)) /\
  1 <= count (cn w) <= 201 /\ status (cn w) <> Terminated /\
  (status (cn w) = Finished ->
     renders (doc w) (doc_at (doc w) 0) (sent (cn w)) /\ count (cn w) = 1 /\
     forall y, (y < length (doc w))%nat -> ended w !! y = Some true).
Proof.
  intros Hm Hr. destruct (reach_fair palloc_ok filter_ok _ _ (begins_fair m b cb Hm) Hr) as [_ [Hg | (H1 & H2 & H3 & H4)]].
  - destruct Hg as (over & st & C & Hi & Hh). pose proof (h_open _ _ _ _ _ Hh) as Ho. split_and!.
    + by eapply sent_prefix.
    + rewrite (i_count _ _ _ _ _ _ Hi). pose proof (over_le _ _ _ _ _ _ Hi). lia.
    + apply (i_subrequests _ _ _ _ _ _ Hi).
    + by rewrite Ho.
    + by rewrite Ho.
  - split_and!; try done; [exists []; by rewrite app_nil_r | lia | lia | by rewrite H1].
Qed.

(** ** It all goes out *)

(** The filters after this one keep nothing back. *)
Hypothesis filter_quiet : forall before inp, (ngx_http_next_body_filter before inp).2 = false.

Definition quiet (c : conn) : Prop :=
  c_buffered c = false /\ blocked c = false /\ Forall (fun x => buffered x = false) (nodes c).

Lemma quiet_nodes c c' : quiet c -> nodes c' = nodes c -> blocked c' = blocked c -> c_buffered c' = c_buffered c -> quiet c'.
Proof. unfold quiet. by intros (? & ? & ?) -> -> ->. Qed.

Lemma quiet_on r f c : (forall x, buffered (f x) = buffered x) -> quiet c -> quiet (on r f c).
Proof.
  intros Hf (H1 & H2 & H3). split_and!; [done..|]. rewrite nodes_on. apply Forall_alter; [done|].
  intros x Hx. by rewrite Hf.
Qed.

Lemma quiet_at r c : quiet c -> buffered (the r c) = false.
Proof.
  intros (_ & _ & Hq). unfold the. rewrite nth_lookup. destruct (nodes c !! r) as [x|] eqn:E; [|done].
  apply (Forall_lookup_1 _ _ _ _ Hq E).
Qed.

Lemma quiet_flush r q c : quiet c -> quiet (flush r q c).2.
Proof.
  revert c. induction q as [|[[y|] out] q IH]; intros c Hc; [done| |]; cbn [flush].
  - rewrite post_request_ok by done. apply (quiet_on r (fun x => x <| postponed := q |>) c); done.
  - destruct out as [|b out]; [apply IH; by apply quiet_on|]. unfold next_body_filter.
    pose proof (filter_quiet (sent c) (b :: out)) as Hf. pose proof (filter_ok (sent c) (b :: out)) as He.
    destruct (ngx_http_next_body_filter _ _) as [rc k]. cbn [fst snd] in *. rewrite bool_decide_false by done.
    apply IH, quiet_on; [done|]. destruct Hc as (? & ? & ?). by split_and!.
Qed.

(** What is left to do: the places in the queues, and the subrequests. *)
Definition places (c : conn) : nat := sum_list_with (fun x => length (postponed x)) (nodes c).
Definition left (c : conn) : nat := places c + Z.to_nat (count c).

Lemma sum_alter {A} (g : A -> nat) (f : A -> A) l r x : l !! r = Some x ->
  (sum_list_with g (alter f r l) + g x = sum_list_with g l + g (f x))%nat.
Proof.
  revert r. induction l as [|y l IH]; intros [|r] Hr; try done; simpl in *.
  - injection Hr as ->. lia.
  - specialize (IH r Hr). change (list_alter f r l) with (alter f r l). lia.
Qed.

Lemma places_set_queue r q c : (r < length (nodes c))%nat ->
  (places (set_queue r q c) + length (queue r c) = places c + length q)%nat.
Proof.
  intros Hr. destruct (lookup_lt_is_Some_2 (nodes c) r Hr) as [x Hx].
  unfold places, set_queue. rewrite nodes_on.
  pose proof (sum_alter (fun x => length (postponed x)) (fun x => x <| postponed := q |>) (nodes c) r x Hx) as Hs.
  unfold queue, the. rewrite nth_lookup, Hx. cbn in *. lia.
Qed.

Lemma places_on r f c : (forall x, postponed (f x) = postponed x) -> places (on r f c) = places c.
Proof.
  intros Hf. unfold places. rewrite nodes_on. destruct (nodes c !! r) as [x|] eqn:E.
  - pose proof (sum_alter (fun x => length (postponed x)) f _ _ _ E) as Hs. cbn in Hs. rewrite Hf in Hs. lia.
  - replace (alter f r (nodes c)) with (nodes c); [done|]. apply list_eq. intros i. rewrite list_lookup_alter.
    case_decide; [|done]. subst. by rewrite E.
Qed.

(** The end of a request that is not active wakes its parent, if anything. *)
Definition stays (r : nat) (c c' : conn) : Prop :=
  data c' = data c /\ left c' = left c /\ status c' = status c /\ quiet c' /\
  (posted_requests c' = posted_requests c \/ exists p, (p < r)%nat /\ posted_requests c' = posted_requests c ++ [p]).

Lemma stays_handler r h c : quiet c -> stays r c (set_handler r h c).
Proof.
  intros Hq. split_and!; try done; [|by apply quiet_on | by left].
  unfold left, set_handler. by rewrite (places_on r).
Qed.

Lemma stays_trans r c1 c2 c3 : posted_requests c2 = posted_requests c1 -> stays r c1 c2 -> stays r c2 c3 -> stays r c1 c3.
Proof.
  intros Hp (H1 & H2 & H3 & H4 & H5) (G1 & G2 & G3 & G4 & G5). rewrite Hp in G5. split_and!; congruence || done.
Qed.

Lemma finalize_stays r rc c : quiet c -> rc <> NGX_ERROR -> c_error c = false -> r <> data c ->
  (r <> 0%nat -> (parent (the r c) < r)%nat) -> stays r c (ngx_http_finalize_request r rc c).
Proof.
  intros Hq Hrc He Hra Hp. unfold ngx_http_finalize_request. rewrite bool_decide_false, He by done. cbn [orb].
  case_bool_decide as Hr0; cbn [negb].
  - subst r. unfold finalize_main. cbv zeta. case_match; [by apply stays_handler|].
    rewrite bool_decide_false by done. split_and!; try done. by left.
  - unfold finalize_subrequest. cbv zeta. case_match; [by apply stays_handler|].
    rewrite bool_decide_false by done. rewrite post_request_ok by done.
    set (c1 := set_handler r _ c).
    assert (Hs : stays r c1 (if waited (the r c) then on r (fun x => x <| done := true |>) c1 else c1)).
    { destruct (waited (the r c)); [|split_and!; try done; [by apply quiet_on|by left]].
      split_and!; try done; [unfold left; by rewrite (places_on r)|by apply quiet_on, quiet_on|by left]. }
    set (c2 := if waited (the r c) then _ else _) in *.
    assert (Hp2 : posted_requests c2 = posted_requests c) by (unfold c2; by destruct (waited (the r c))).
    pose proof (stays_handler r ngx_http_request_finalizer_handler c Hq) as (A1 & A2 & A3 & A4 & _). fold c1 in A1, A2, A3, A4.
    destruct Hs as (B1 & B2 & B3 & B4 & _). split_and!; cbn; try congruence.
    + exact (eq_trans B2 A2).
    + done.
    + right. exists (parent (the r c)). split; [by apply Hp | by rewrite Hp2].
Qed.

(** Something of the active request is done, and what is active now is woken. *)
Definition advances (c c' : conn) : Prop :=
  quiet c' /\ data c' ∈ posted_requests c' /\ (left c' < left c)%nat.

Lemma popped_places r pr c : (pr < length (nodes c))%nat -> (places (popped r pr c) <= places c)%nat.
Proof.
  intros Hpr. unfold popped. change (postponed (the pr c)) with (queue pr c).
  destruct (queue pr c) as [|[[y|] out] q] eqn:E; [done| |done]. case_bool_decide; [|done].
  pose proof (places_set_queue pr q c Hpr) as Hs. rewrite E in Hs. simpl in Hs. lia.
Qed.

Lemma quiet_popped r pr c : quiet c -> quiet (popped r pr c).
Proof.
  intros Hq. unfold popped. destruct (postponed (the pr c)) as [|[[y|] out] q]; try done.
  case_bool_decide; [by apply quiet_on | done].
Qed.

Lemma done_advances r c : quiet c -> r = data c -> queue r c = [] -> 1 <= count c <= 201 ->
  (parent (the r c) < length (nodes c))%nat -> advances c (finalize_subrequest r c).
Proof.
  intros Hq Hr Hqr Hc Hp. unfold finalize_subrequest. cbv zeta. rewrite quiet_at by done. change (postponed (the r c)) with (queue r c).
  rewrite Hqr. rewrite (bool_decide_true (_ = [])), (bool_decide_true (r = _)) by done. cbn [negb orb].
  rewrite post_request_ok by done.
  set (c0 := (c <| count := _ |>) <| subrequests := _ |>). set (c1 := on r _ c0). set (pr := parent (the r c)) in *.
  assert (Hq1 : quiet c1) by (apply quiet_on; [done|]; by apply (quiet_nodes c)).
  assert (Hl1 : length (nodes c1) = length (nodes c)) by (unfold c1; by rewrite length_on).
  split_and!; cbn.
  - by apply (quiet_nodes (popped r pr c1)); [apply quiet_popped|..].
  - apply elem_of_app. right. left.
  - change (left (popped r pr c1) < left c)%nat. unfold left.
    destruct (popped_rest r pr c1) as (_ & _ & _ & _ & _ & _ & P & _). rewrite P.
    pose proof (popped_places r pr c1 ltac:(lia)) as H1. unfold c1 in H1 at 2. rewrite places_on in H1 by done.
    change (places c0) with (places c) in H1. change (count c1) with (wrap 8 (count c - 1)). rewrite wrap_small; lia.
Qed.

Lemma good_facts c d closed : Good c d closed None -> c_error c = false /\ status c = Open /\ 1 <= count c <= 201 /\
  (data c < length (nodes c))%nat /\
  (forall r, (0 < r < length (nodes c))%nat -> (parent (the r c) < r)%nat) /\
  (closed (data c) -> waits (data c) c) /\ Forall (fun x => x < length (nodes c))%nat (posted_requests c).
Proof.
  intros (over & st & C & Hi & Hh). pose proof (i_len _ _ _ _ _ _ Hi) as Hl. pose proof (i_data _ _ _ _ _ _ Hi) as Hd.
  rewrite Hl in Hd. destruct Hh as [H1 H2 H3 H4 H5 H6]. split_and!; try done.
  - pose proof (i_count _ _ _ _ _ _ Hi). pose proof (over_le _ _ _ _ _ _ Hi). lia.
  - apply (i_subrequests _ _ _ _ _ _ Hi).
  - intros r Hr. apply (parent_lt _ _ _ _ _ _ Hi). lia.
  - intros Hc. apply H2; try done. by eapply active_not_over.
Qed.

(** A turn of another request. *)
Lemma other_stays r c d closed : Good c d closed None -> quiet c -> (r < length (nodes c))%nat -> r <> data c ->
  stays r c (write_event r c).
Proof.
  intros Hg Hq Hr Hra. destruct (good_facts _ _ _ Hg) as (He & _ & _ & _ & Hpar & _).
  unfold write_event. destruct (handler_of r c); try (split_and!; try done; by left).
  - unfold ngx_http_writer, ngx_http_output_filter, ngx_http_postpone_filter. cbv zeta.
    rewrite (bool_decide_false (r = data c)) by done. cbn [negb]. rewrite bool_decide_true by done.
    rewrite !(bool_decide_false (NGX_OK = NGX_ERROR)) by done. cbv zeta. case_match; [split_and!; try done; by left|].
    eapply stays_trans; [|by apply (stays_handler r ngx_http_request_empty_handler)|apply finalize_stays]; try done.
    + by apply quiet_on.
    + intros Hr0. unfold set_handler. rewrite (the_on_field parent) by done. apply Hpar. lia.
  - apply finalize_stays; try done. intros Hr0. apply Hpar. lia.
Qed.

Lemma finalize_advances r rc c : quiet c -> rc <> NGX_ERROR -> c_error c = false -> r = data c -> queue r c = [] ->
  1 <= count c <= 201 -> (r <> 0%nat -> (parent (the r c) < length (nodes c))%nat) ->
  status (ngx_http_finalize_request r rc c) = Finished \/ advances c (ngx_http_finalize_request r rc c).
Proof.
  intros Hq Hrc He Hr Hqr Hc Hp. unfold ngx_http_finalize_request. rewrite bool_decide_false, He by done. cbn [orb].
  case_bool_decide as Hr0; cbn [negb].
  - left. assert (Hd : 0%nat = data c) by congruence. rewrite Hr0 in Hqr. unfold finalize_main. cbv zeta. rewrite quiet_at by done. change (postponed (the 0 c)) with (queue 0 c).
    destruct Hq as (-> & -> & _). rewrite Hqr, (bool_decide_true (_ = [])) by done. cbn [negb orb].
    by rewrite bool_decide_true.
  - right. apply done_advances; auto.
Qed.

(** The writer of a request whose queue is empty, from where it sets its handler. *)
Lemma writer_advances r rc c : quiet c -> rc <> NGX_ERROR -> c_error c = false -> r = data c -> queue r c = [] ->
  1 <= count c <= 201 -> (r <> 0%nat -> (parent (the r c) < length (nodes c))%nat) ->
  let c' := ngx_http_finalize_request r rc (set_handler r ngx_http_request_empty_handler c) in
  status c' = Finished \/ advances c c'.
Proof.
  intros Hq Hrc He Hr Hqr Hc Hp c'. set (c1 := set_handler r ngx_http_request_empty_handler c) in c'.
  destruct (stays_handler r ngx_http_request_empty_handler c Hq) as (H1 & H2 & H3 & H4 & _). fold c1 in H1, H2, H3, H4.
  destruct (finalize_advances r rc c1) as [?|(A1 & A2 & A3)]; try done.
  - unfold c1. by rewrite queue_set_handler.
  - unfold c1, set_handler. rewrite length_on, (the_on_field parent) by done. done.
  - by left.
  - right. split_and!; [done..|]. unfold c'. lia.
Qed.

Lemma active_advances c d closed : Good c d closed None -> quiet c -> closed (data c) ->
  status (write_event (data c) c) = Finished \/ advances c (write_event (data c) c).
Proof.
  intros Hg Hq Hcl. destruct (good_facts _ _ _ Hg) as (He & Ho & Hc & Ha & Hpar & Hw & _).
  assert (Hpl : data c <> 0%nat -> (parent (the (data c) c) < length (nodes c))%nat).
  { intros Hd. pose proof (Hpar (data c) ltac:(lia)). lia. }
  unfold write_event. destruct (Hw Hcl) as [-> | (-> & Hqa & H0)].
  2: { by apply finalize_advances. }
  unfold ngx_http_writer, ngx_http_output_filter, ngx_http_postpone_filter. cbv zeta.
  change (postponed (the (data c) ?x)) with (queue (data c) x).
  rewrite (bool_decide_true (data c = data c)), (bool_decide_true (_ = _ :> chain)) by done. cbn [negb].
  case_bool_decide as Hqa; cbn [orb].
  - destruct Hq as (Hb & Hq'). rewrite Hb. rewrite !(bool_decide_false (NGX_OK = NGX_ERROR)) by done.
    rewrite quiet_at by done. rewrite Hqa, Hb, (bool_decide_true ([] = [])) by done. rewrite andb_false_r. cbn [negb orb].
    by apply writer_advances.
  - destruct Hg as (over & st & C & Hi & Hh).
    destruct (flush_spec palloc_ok filter_ok (data c) (queue (data c) c) c Ha (i_queue _ _ _ _ _ _ Hi _) eq_refl) as [Hrc Hf].
    pose proof (quiet_flush (data c) (queue (data c) c) c Hq) as Hq2.
    destruct (flush (data c) (queue (data c) c) c) as [rc c2]. cbn [fst snd] in *.
    rewrite !(bool_decide_false (rc = NGX_ERROR)) by done.
    rewrite quiet_at by done. destruct Hq2 as (Hb2 & Hbl2 & Hbf2). rewrite Hb2, andb_false_r, orb_false_r. cbn [orb].
    assert (Hq2 : quiet c2) by done.
    destruct Hf as (q' & ts & Hn & Hq' & Hs & (M1 & M2 & M3 & M4 & M5) & Hcase).
    rewrite (queue_nodes _ _ _ Hn), queue_set by done.
    assert (Hlen : length (nodes c2) = length (nodes c)) by (rewrite Hn; apply length_set_queue).
    assert (Hpar2 : forall x, parent (the x c2) = parent (the x c)).
    { intros x. rewrite (the_nodes _ _ _ Hn). apply parent_set_queue. }
    assert (Hleft : (length q' < length (queue (data c) c))%nat -> (left c2 < left c)%nat).
    { intros Hlt. unfold left. rewrite M1. pose proof (places_set_queue (data c) q' c Ha) as Hpl2.
      replace (places c2) with (places (set_queue (data c) q' c)) by (unfold places; by rewrite Hn). lia. }
    destruct Hcase as [(-> & _ & Hd & Hp) | (y & Hit & Hd & Hp & Hlt)].
    + rewrite bool_decide_true by done. cbn [negb].
      assert (Hl : (left c2 < left c)%nat) by (apply Hleft; destruct (queue (data c) c); [done | simpl; lia]).
      destruct (writer_advances (data c) rc c2 Hq2 Hrc) as [?|(A1 & A2 & A3)]; try done; try congruence.
      * by rewrite (queue_nodes _ _ _ Hn), queue_set.
      * rewrite Hlen, Hpar2. done.
      * by left.
      * right. split_and!; [done..|lia].
    + right. specialize (Hleft Hlt). assert (Hy : y ∈ posted_requests c2) by (rewrite Hp; apply elem_of_app; right; left).
      case_match; [split_and!; try done; by rewrite Hd|].
      assert (Hya : (data c < y)%nat).
      { apply (i_tree _ _ _ _ _ _ Hi). eapply queue_in_doc; [done|]. rewrite Hit. apply elem_of_app. right. left. }
      destruct (stays_handler (data c) ngx_http_request_empty_handler c2 Hq2) as (S1 & S2 & S3 & S4 & _).
      set (c3 := set_handler _ _ c2) in *.
      destruct (finalize_stays (data c) rc c3 S4 Hrc) as (G1 & G2 & G3 & G4 & G5).
      * change (c_error c2 = false). by rewrite M4.
      * change (data c <> data c2). lia.
      * intros Hd0. unfold c3, set_handler. rewrite (the_on_field parent), Hpar2 by done. apply Hpar. lia.
      * split_and!; [done| |lia]. rewrite G1, S1, Hd.
        destruct G5 as [-> | (p & _ & ->)]; [done | apply elem_of_app; by left].
Qed.

(** The posted requests are run until there is none: a turn of the active
    request advances, a turn of another only wakes requests above it. *)
Definition heights (l : list nat) : nat := sum_list_with S l.

Lemma run_finishes d closed : (forall y, closed y \/ (length d <= y)%nat) ->
  forall k h c, Good c d closed None -> quiet c -> data c ∈ posted_requests c ->
  (left c <= k)%nat -> (heights (posted_requests c) <= h)%nat ->
  exists fuel c', ngx_http_run_posted_requests fuel c = Some c' /\ Final c' d closed.
Proof.
  intros Hall k. induction k as [k IHk] using lt_wf_ind. intros h. induction h as [|h IHh]; intros c Hg Hq Hd Hk Hh.
  { destruct (posted_requests c); [by apply not_elem_of_nil in Hd | simpl in Hh; lia]. }
  destruct (good_facts _ _ _ Hg) as (_ & Ho & _ & Ha & _ & _ & Hps).
  destruct (posted_requests c) as [|r p] eqn:Ep; [by apply not_elem_of_nil in Hd|].
  apply Forall_cons_iff in Hps as [Hr Hps].
  set (c1 := c <| posted_requests := p |>).
  assert (Hg1 : Good c1 d closed None) by (by apply (good_same c)).
  assert (Hq1 : quiet c1) by (by apply (quiet_nodes c)).
  assert (Hrun : forall fuel, ngx_http_run_posted_requests (S fuel) c = ngx_http_run_posted_requests fuel (write_event r c1)).
  { intros fuel. cbn [ngx_http_run_posted_requests]. unfold run_posted_request. by rewrite Ho, Ep. }
  assert (Hfin : forall c', Final c' d closed -> exists fuel c'', ngx_http_run_posted_requests fuel c' = Some c'' /\ Final c'' d closed).
  { intros c' Hf. exists 0%nat, c'. split; [|done]. cbn [ngx_http_run_posted_requests]. unfold run_posted_request.
    by rewrite (proj1 Hf). }
  assert (Hgo : exists fuel c', ngx_http_run_posted_requests fuel (write_event r c1) = Some c' /\ Final c' d closed).
  2: { destruct Hgo as (fuel & c' & H1 & H2). exists (S fuel), c'. by rewrite Hrun. }
  destruct (write_event_good palloc_ok filter_ok r c1 d closed Hg1 Hr) as [Hg2|Hf2]; [|by apply Hfin].
  destruct (good_facts _ _ _ Hg2) as (_ & Ho2 & _).
  destruct (decide (r = data c)) as [->|Hra].
  - assert (Hcl : closed (data c)). { destruct (Hall (data c)); [done|]. rewrite <- (good_length _ _ _ _ Hg) in *. lia. }
    destruct (active_advances c1 d closed Hg1 Hq1 Hcl) as [Hs|(A1 & A2 & A3)]; [change (data c1) with (data c) in Hs; congruence|].
    change (data c1) with (data c) in *. change (left c1) with (left c) in A3.
    by apply (IHk (left (write_event (data c) c1)) ltac:(lia) (heights (posted_requests (write_event (data c) c1)))).
  - destruct (other_stays r c1 d closed Hg1 Hq1 Hr Hra) as (S1 & S2 & S3 & S4 & S5).
    change (data c1) with (data c) in S1. change (left c1) with (left c) in S2. change (posted_requests c1) with p in S5.
    apply elem_of_cons in Hd as [Hd|Hd]; [congruence|]. unfold heights in Hh. simpl in Hh.
    apply IHh; try done; [|lia|].
    + rewrite S1. destruct S5 as [-> | (z & _ & ->)]; [done | apply elem_of_app; by left].
    + unfold heights. destruct S5 as [-> | (z & Hz & ->)]; [lia|]. rewrite sum_list_with_app. simpl. lia.
Qed.

(** C17: Nothing is left behind. In whatever order the requests of a connection have
    written and ended, the main request with output of its own as the last thing it did
    (on a subrequest as the last thing it hangs, see
    [main_ending_on_a_subrequest_hangs]): once the main request and all its subrequests
    have ended and the filters behind keep nothing back, one write event of the
    connection and the requests it wakes finalise the main request; the loop over the
    posted requests ends, and what was passed on is the whole document. *)
Theorem subrequests_finish m b cb w : in_progress m -> rtc step (begins m b cb) w ->
  status (cn w) = Open -> quiet (cn w) -> Forall (fun b => b = true) (ended w) ->
  exists fuel c', ngx_http_request_handler fuel (cn w) = Some c' /\ status c' = Finished /\
    renders (doc w) (doc_at (doc w) 0) (sent c').
Proof.
  intros Hm Hr Ho Hq Hall.
  destruct (reach_fair palloc_ok filter_ok _ _ (begins_fair m b cb Hm) Hr) as [Hl [Hg | (H1 & _)]]; [|congruence].
  set (closed := is_ended (ended w)) in *. destruct (good_facts _ _ _ Hg) as (_ & _ & _ & Ha & _).
  assert (Hcl : forall y, closed y \/ (length (doc w) <= y)%nat).
  { intros y. destruct (ended w !! y) as [e|] eqn:E; [|right; apply lookup_ge_None in E; lia].
    left. unfold closed, is_ended. rewrite E. f_equal. apply (Forall_lookup_1 _ _ _ _ Hall E). }
  assert (Hc : closed (data (cn w))). { destruct (Hcl (data (cn w))); [done|]. rewrite <- (good_length _ _ _ _ Hg) in *. lia. }
  unfold ngx_http_request_handler.
  destruct (write_event_good palloc_ok filter_ok (data (cn w)) (cn w) _ closed Hg Ha) as [Hg2|Hf2].
  - destruct (active_advances (cn w) _ closed Hg Hq Hc) as [Hs|(A1 & A2 & A3)].
    { destruct (good_facts _ _ _ Hg2) as (_ & Ho2 & _). congruence. }
    destruct (run_finishes _ closed Hcl _ _ _ Hg2 A1 A2 (le_n _) (le_n _)) as (fuel & c' & H1 & H2 & H3 & _). eauto.
  - exists 0%nat, (write_event (data (cn w)) (cn w)). destruct Hf2 as (H1 & H2 & _). split_and!; try done.
    cbn [ngx_http_run_posted_requests]. unfold run_posted_request. by rewrite H1.
Qed.

End Promises.

(** ** A page of three buffers, the second of which a subrequest writes last *)

Definition plain_env : Env := {|
  ngx_palloc := fun _ => true; ngx_http_next_body_filter := fun _ _ => (NGX_OK, false);
  ngx_http_default_loc_conf := 0; log_subrequest := false |}.
#[local] Existing Instance plain_env.

Definition page : ngx_http_request := blank_request (bytes_of "/page") 0 false [].

Definition written_late (k : nat) : world :=
  let c0 := cn (begins page false false) in
  let c1 := (ngx_http_output_filter 0 [bytes_of "a"] c0).2 in
  let c2 := (ngx_http_subrequest 0 (bytes_of "/part") [] false false c1).2 in
  let c3 := (ngx_http_output_filter 0 [bytes_of "c"] c2).2 in
  let c4 := ngx_http_finalize_request 0 NGX_OK c3 in
  let c5 := (ngx_http_output_filter 1 [bytes_of "b"] c4).2 in
  let d5 := write 1 [bytes_of "b"] (write 0 [bytes_of "c"] (subrequested 0 (write 0 [bytes_of "a"] [[]]))) in
  if k is 5%nat then World c5 d5 [true; false]
  else World (ngx_http_finalize_request 1 NGX_OK c5) d5 [true; true].

Lemma page_in_progress : in_progress page.
Proof. by split. Qed.

Lemma late_reached : rtc step (begins page false false) (written_late 5) /\ step (written_late 5) (written_late 6).
Proof.
  split.
  - eapply rtc_l; [by apply (step_output 0 [bytes_of "a"])|].
    eapply rtc_l; [by apply (step_subrequest 0 (bytes_of "/part") [] false false)|].
    eapply rtc_l; [by apply (step_output 0 [bytes_of "c"])|].
    eapply rtc_l; [apply (step_end 0); [done | done | intros _; exists [Text (bytes_of "a"); Sub 1], (bytes_of "c"); done]|].
    eapply rtc_l; [by apply (step_output 1 [bytes_of "b"])|]. apply rtc_refl.
  - by apply (step_end 1).
Qed.

Lemma subrequests_in_order_witness :
  sent (cn (written_late 5)) = [bytes_of "a"; bytes_of "b"] /\
  exists rest, renders (doc (written_late 5)) [Text (bytes_of "a"); Sub 1; Text (bytes_of "c")] (sent (cn (written_late 5)) ++ rest).
Proof.
  split; [reflexivity|].
  apply (proj1 (subrequests_in_order ltac:(done) ltac:(done) page false false _ page_in_progress (proj1 late_reached))).
Defined.

Lemma subrequests_finish_witness :
  exists fuel c', ngx_http_request_handler fuel (cn (written_late 6)) = Some c' /\ status c' = Finished /\
    renders (doc (written_late 6)) [Text (bytes_of "a"); Sub 1; Text (bytes_of "c")] (sent c').
Proof.
  apply (subrequests_finish ltac:(done) ltac:(done) ltac:(done) page false false (written_late 6) page_in_progress).
  - eapply rtc_r; [exact (proj1 late_reached) | exact (proj2 late_reached)].
  - reflexivity.
  - split_and!; [reflexivity..|]. repeat constructor.
  - repeat constructor.
Defined.

(** A main request that ends on a subrequest is never finalised: the writer
    wakes the subrequest, finds the queue empty, and gives up its handler for
    an alert. *)
Lemma main_ending_on_a_subrequest_hangs :
  let c1 := (ngx_http_subrequest 0 (bytes_of "/part") [] false false (cn (begins page false false))).2 in
  let c2 := (ngx_http_subrequest 0 (bytes_of "/last") [] false false c1).2 in
  let c3 := ngx_http_finalize_request 0 NGX_OK c2 in
  let c4 := ngx_http_finalize_request 1 NGX_OK c3 in
  exists c5, ngx_http_run_posted_requests 10 c4 = Some c5 /\
  exists c6, ngx_http_run_posted_requests 10 (ngx_http_finalize_request 2 NGX_OK c5) = Some c6 /\
  (forall fuel, ngx_http_request_handler fuel c6 = Some c6) /\ status c6 = Open /\ data c6 = 0%nat /\ queue 0 c6 = [].
Proof.
  eexists. split; [vm_compute; reflexivity|]. eexists. split; [vm_compute; reflexivity|].
  split_and!; try done. by intros [].
Qed.

(** Output of a request that is not active is lost when it cannot be kept, and
    the filter answers [NGX_OK]: what [ngx_http_postpone_filter_add] returns is
    not looked at. *)
Lemma unkept_output_lost (H : Env) r inp c : (forall c, ngx_palloc c = false) -> r <> data c -> queue r c = [] -> inp <> [] ->
  ngx_http_output_filter r inp c = (NGX_OK, c).
Proof.
  intros Hp Hr Hq Hin. unfold ngx_http_output_filter, ngx_http_postpone_filter. cbv zeta.
  rewrite (bool_decide_false (r = data c)) by done. cbn [negb]. rewrite bool_decide_false by done.
  unfold ngx_http_postpone_filter_add. cbv zeta. change (postponed (the r c)) with (queue r c). rewrite Hq. cbn.
  by rewrite Hp.
Qed.

End SubrequestsProps.
