(* ===== verification/Zones.v ===== *)
(** * Programs that share a zone of memory

    A worker process runs programs that share a zone under a mutex
    ([ngx_shmtx_lock], [ngx_shmtx_unlock]) and a few atomic words beside it.
    A program is written as it is in the source, lock and unlock included; what
    it asks of the rest of the server is a call that may answer anything.

    [wp] is a program logic for them: while the mutex is free the zone satisfies
    an invariant over the zone and a token per thread, the thread that takes the
    mutex gets the zone with the tokens of the others, and has to find the
    invariant again, with a token of its choice, before it lets go.  [sound] is
    what the logic promises about every interleaving of a pool of threads. *)

From S2P Require Import Prelude.
From stdpp Require Import relations.

Module Zones.

Section Programs.
Context {S W : Type} {E : Type -> Type}.

(** A step in the zone is [None] when it touches memory that is not there.  [Peek]
    reads words of the zone without the mutex, and changes nothing. *)
Inductive prog (A : Type) : Type :=
| Ret (a : A)
| Lock (k : prog A)
| Unlock (k : prog A)
| Zone {B : Type} (f : S -> option (S * B)) (k : B -> prog A)
| Atomic {B : Type} (f : W -> W * B) (k : B -> prog A)
| Peek {B : Type} (f : S -> B) (k : B -> prog A)
| Call {B : Type} (e : E B) (k : B -> prog A)
| OutOfFuel.

Fixpoint bind {A B : Type} (f : A -> prog B) (p : prog A) : prog B :=
  match p with
  | Ret _ a => f a
  | Lock _ k => Lock _ (bind f k)
  | Unlock _ k => Unlock _ (bind f k)
  | Zone _ g k => Zone _ g (fun b => bind f (k b))
  | Atomic _ g k => Atomic _ g (fun b => bind f (k b))
  | Peek _ g k => Peek _ g (fun b => bind f (k b))
  | Call _ e k => Call _ e (fun b => bind f (k b))
  | OutOfFuel _ => OutOfFuel _
  end.
#[export] Instance prog_bind : MBind prog := @bind.
#[export] Instance prog_ret : MRet prog := Ret.

Definition lock : prog unit := Lock _ (Ret _ tt).
Definition unlock : prog unit := Unlock _ (Ret _ tt).
Definition zone {B : Type} (f : S -> option (S * B)) : prog B := Zone _ f (Ret _).
Definition atomic {B : Type} (f : W -> W * B) : prog B := Atomic _ f (Ret _).
Definition peek {B : Type} (f : S -> B) : prog B := Peek _ f (Ret _).
Definition call {B : Type} (e : E B) : prog B := Call _ e (Ret _).

(** What a program alone ends with, whatever it is answered. *)
Fixpoint ends_alone {A : Type} (p : prog A) (s : S) (Q : A -> S -> Prop) : Prop :=
  match p with
  | Ret _ a => Q a s
  | Lock _ k | Unlock _ k => ends_alone k s Q
  | Zone _ f k => exists s' b, f s = Some (s', b) /\ ends_alone (k b) s' Q
  | Atomic _ f k => forall w, ends_alone (k (f w).2) s Q
  | Peek _ f k => ends_alone (k (f s)) s Q
  | Call _ e k => forall b, ends_alone (k b) s Q
  | OutOfFuel _ => False
  end.

Lemma ends_mono {A} (p : prog A) s (Q Q' : A -> S -> Prop) :
  ends_alone p s Q -> (forall a s, Q a s -> Q' a s) -> ends_alone p s Q'.
Proof.
  intros Hp HQ. revert s Hp. induction p as [a|k IH|k IH|C g k IH|C g k IH|C g k IH|C e k IH|]; intros s Hp; cbn in *; eauto.
  destruct Hp as (s' & b & Hg & Hp). eauto 6.
Qed.

Lemma ends_bind {A B} (p : prog A) (f : A -> prog B) s (Q : B -> S -> Prop) :
  ends_alone p s (fun a s => ends_alone (f a) s Q) -> ends_alone (p ≫= f) s Q.
Proof.
  revert s. induction p as [a|k IH|k IH|C g k IH|C g k IH|C g k IH|C e k IH|]; intros s Hp; cbn in *; eauto.
  destruct Hp as (s' & b & Hg & Hp). exists s', b. split; [done|]. by apply IH.
Qed.

(** ** The pool

    A thread is between two operations, with what it keeps, or in one. *)
Section Pool.
Context {L : Type} (start : L -> prog L -> Prop).

Inductive thread := Idle (l : L) | Run (p : prog L).

Record world := World { the_zone : S; atomics : W; owner : option nat; threads : list thread }.

Definition own_step (i : nat) (t : thread) (w w' : world) : Prop :=
  let next s a o t := w' = World s a o (<[i := t]> (threads w)) in
  let s := the_zone w in let a := atomics w in let o := owner w in
  match t with
  | Idle l => exists p, start l p /\ next s a o (Run p)
  | Run (Ret _ l) => next s a o (Idle l)
  | Run (Lock _ k) => o = None /\ next s a (Some i) (Run k)
  | Run (Unlock _ k) => o = Some i /\ next s a None (Run k)
  | Run (Zone _ f k) => o = Some i /\ exists s' b, f s = Some (s', b) /\ next s' a o (Run (k b))
  | Run (Atomic _ f k) => next s (f a).1 o (Run (k (f a).2))
  | Run (Peek _ f k) => next s a o (Run (k (f s)))
  | Run (Call _ e k) => exists b, next s a o (Run (k b))
  | Run (OutOfFuel _) => False
  end.

Definition pool_step (w w' : world) : Prop := exists i t, threads w !! i = Some t /\ own_step i t w w'.

(** A thread is about to use the zone without the mutex, but for a [Peek], to touch memory that
    is not there, to take the mutex twice or to release it for another. *)
Definition faulty (w : world) : Prop :=
  exists i p, threads w !! i = Some (Run p) /\
    match p with
    | Lock _ _ => owner w = Some i
    | Unlock _ _ => owner w <> Some i
    | Zone _ f _ => owner w <> Some i \/ f (the_zone w) = None
    | Ret _ _ => owner w = Some i
    | _ => False
    end.
End Pool.

(** ** The logic *)

Section Logic.
Context {T : Type} (I : S -> list T -> Prop).

(** Whether the thread has the mutex: its token, or the zone with the tokens of
    the other threads. *)
Inductive mode := Free (t : T) | Held (s : S) (ts : list T).

Fixpoint wp {A : Type} (p : prog A) (m : mode) (Q : A -> mode -> Prop) : Prop :=
  match p with
  | Ret _ a => Q a m
  | Lock _ k =>
      match m with
      | Free t => forall s ts, I s (t :: ts) -> wp k (Held s ts) Q
      | Held _ _ => False
      end
  | Unlock _ k =>
      match m with
      | Held s ts => exists t, I s (t :: ts) /\ wp k (Free t) Q
      | Free _ => False
      end
  | Zone _ f k =>
      match m with
      | Held s ts => exists s' b, f s = Some (s', b) /\ wp (k b) (Held s' ts) Q
      | Free _ => False
      end
  | Atomic _ f k => forall w, wp (k (f w).2) m Q
  | Peek _ f k => forall s, wp (k (f s)) m Q
  | Call _ e k => forall b, wp (k b) m Q
  | OutOfFuel _ => True
  end.

Lemma wp_mono {A} (p : prog A) m (Q Q' : A -> mode -> Prop) :
  wp p m Q -> (forall a m, Q a m -> Q' a m) -> wp p m Q'.
Proof.
  intros Hp HQ. revert m Hp.
  induction p as [a|k IH|k IH|B f k IH|B f k IH|B f k IH|B e k IH|]; intros [t|s ts] Hp; cbn in *; eauto; try done.
  - destruct Hp as (t & Ht & Hp). eauto.
  - destruct Hp as (s' & b & Hf & Hp). eauto 6.
Qed.

Lemma wp_bind {A B} (p : prog A) (f : A -> prog B) m (Q : B -> mode -> Prop) :
  wp p m (fun a m => wp (f a) m Q) -> wp (p ≫= f) m Q.
Proof.
  revert m. induction p as [a|k IH|k IH|C g k IH|C g k IH|C g k IH|C e k IH|]; intros [t|s ts] Hp; cbn in *; eauto; try done.
  - destruct Hp as (t & Ht & Hp). exists t. split; [done|]. by apply IH.
  - destruct Hp as (s' & b & Hf & Hp). exists s', b. split; [done|]. by apply IH.
Qed.

Lemma wp_unbind {A B} (p : prog A) (f : A -> prog B) m (Q : B -> mode -> Prop) :
  wp (p ≫= f) m Q -> wp p m (fun a m => wp (f a) m Q).
Proof.
  revert m. induction p as [a|k IH|k IH|C g k IH|C g k IH|C g k IH|C e k IH|]; intros [t|s ts] Hp; cbn in *; eauto; try done.
  - destruct Hp as (t & Ht & Hp). exists t. split; [done|]. by apply IH.
  - destruct Hp as (s' & b & Hf & Hp). exists s', b. split; [done|]. by apply IH.
Qed.

Lemma wp_lock t (Q : unit -> mode -> Prop) :
  (forall s ts, I s (t :: ts) -> Q tt (Held s ts)) -> wp lock (Free t) Q.
Proof. done. Qed.

Lemma wp_unlock s ts t (Q : unit -> mode -> Prop) : I s (t :: ts) -> Q tt (Free t) -> wp unlock (Held s ts) Q.
Proof. intros. by exists t. Qed.

Lemma wp_zone {B} (f : S -> option (S * B)) s ts s' b (Q : B -> mode -> Prop) :
  f s = Some (s', b) -> Q b (Held s' ts) -> wp (zone f) (Held s ts) Q.
Proof. intros. by exists s', b. Qed.

Lemma wp_call {B} (e : E B) m (Q : B -> mode -> Prop) : (forall b, Q b m) -> wp (call e) m Q.
Proof. done. Qed.

Lemma wp_peek {B} (f : S -> B) m (Q : B -> mode -> Prop) : (forall s, Q (f s) m) -> wp (peek f) m Q.
Proof. done. Qed.

Lemma wp_atomic {B} (f : W -> W * B) m (Q : B -> mode -> Prop) : (forall w, Q (f w).2 m) -> wp (atomic f) m Q.
Proof. done. Qed.

(** ** What it means for a pool *)

Section Sound.
Context {L : Type} (start : L -> prog L -> Prop) (token_of : L -> T) (wf : L -> Prop).

(** The order of the threads means nothing to the invariant. *)
Hypothesis I_perm : forall s ts ts', I s ts -> ts ≡ₚ ts' -> I s ts'.

Definition ends (l : L) (m : mode) : Prop := m = Free (token_of l) /\ wf l.
Hypothesis starts : forall l p, start l p -> wf l -> wp p (Free (token_of l)) ends.

Definition thread_ok (t : thread) (m : mode) : Prop :=
  match t with
  | Idle l => ends l m
  | Run p => wp p m ends
  end.

(** Every thread is as the logic says, from its token or with the mutex. *)
Definition pool_ok (w : world) (ts : list T) : Prop :=
  length ts = length (threads w)
  /\ match owner w with None => I (the_zone w) ts | Some i => (i < length ts)%nat end
  /\ forall i th t, threads w !! i = Some th -> ts !! i = Some t ->
       thread_ok th (if bool_decide (owner w = Some i) then Held (the_zone w) (delete i ts) else Free t).

Lemma others_insert (ts : list T) i t : delete i (<[i := t]> ts) = delete i ts.
Proof.
  revert i. induction ts as [|x ts IH]; intros [|i]; cbn; [done..|]. f_equal. apply IH.
Qed.

Lemma token_first (ts : list T) i t : ts !! i = Some t -> ts ≡ₚ t :: delete i ts.
Proof. intros H. by apply delete_Permutation. Qed.

(** What a step of one thread leaves of the others. *)
Lemma pool_ok_set w ts i th s a o t0 t : pool_ok w ts -> ts !! i = Some t0 ->
  (owner w = Some i \/ s = the_zone w) ->
  (forall j, j <> i -> o = Some j <-> owner w = Some j) ->
  (t = t0 \/ o = None) ->
  match o with None => I s (<[i := t]> ts) | Some _ => True end ->
  thread_ok th (if bool_decide (o = Some i) then Held s (delete i ts) else Free t) ->
  pool_ok (World s a o (<[i := th]> (threads w))) (<[i := t]> ts).
Proof.
  intros (Hl & Ho & Hth) Hi Hs Hj Ht Hinv Hok. assert (i < length ts)%nat by by eapply lookup_lt_Some.
  split_and!; cbn.
  - by rewrite !length_insert.
  - destruct o as [j|]; [|done]. rewrite length_insert. destruct (decide (j = i)) as [->|Hne]; [done|].
    assert (owner w = Some j) as Hown by by apply Hj. by rewrite Hown in Ho.
  - intros j th' t' Hth' Ht'. destruct (decide (j = i)) as [->|Hne].
    + rewrite list_lookup_insert_eq in Hth' by lia. rewrite list_lookup_insert_eq in Ht' by lia. simplify_eq. by rewrite others_insert.
    + rewrite list_lookup_insert_ne in Hth' by done. rewrite list_lookup_insert_ne in Ht' by done. specialize (Hth _ _ _ Hth' Ht').
      destruct (decide (o = Some j)) as [Ej|Ej].
      * rewrite bool_decide_true in Hth by by apply Hj. rewrite bool_decide_true by done.
        destruct Ht as [->|]; [|congruence]. rewrite list_insert_id by done.
        destruct Hs as [Hs| ->]; [|done]. apply Hj in Ej; [congruence | done].
      * rewrite bool_decide_false in Hth by by rewrite <- Hj. by rewrite bool_decide_false.
Qed.

Lemma pool_ok_step w w' ts : pool_ok w ts -> pool_step start w w' -> exists ts', pool_ok w' ts'.
Proof.
  intros Hw (i & th & Hi & Hstep). pose proof Hw as (Hl & Ho & Hth).
  destruct (lookup_lt_is_Some_2 ts i) as [t Ht]. { rewrite Hl. by eapply lookup_lt_Some. }
  specialize (Hth _ _ _ Hi Ht).
  assert (Hkeep : forall s a th', (owner w = Some i \/ s = the_zone w) ->
    (owner w = None -> s = the_zone w) ->
    thread_ok th' (if bool_decide (owner w = Some i) then Held s (delete i ts) else Free t) ->
    exists ts', pool_ok (World s a (owner w) (<[i := th']> (threads w))) ts').
  { intros s a th' Hs Hn Hok. eexists. eapply (pool_ok_set w ts i th' s a (owner w) t t); try done; [by left|].
    rewrite list_insert_id by done. destruct (owner w); [done|]. by rewrite Hn. }
  destruct th as [l|[l|k|k|B f k|B f k|B f k|B e k|]]; cbn in Hstep, Hth.
  - destruct Hstep as (p & Hp & ->). destruct Hth as [Hm Hwf].
    apply Hkeep; [by right | done |]. rewrite Hm. cbn. by apply starts.
  - rewrite Hstep. apply Hkeep; [by right | done | done].
  - destruct Hstep as [Hn ->]. rewrite Hn in *. rewrite bool_decide_false in Hth by done. exists (<[i := t]> ts).
    eapply (pool_ok_set w ts i (Run k) _ _ _ t t); try done; [by right | | by left |].
    { rewrite Hn. naive_solver. }
    rewrite bool_decide_true by done. apply Hth. eapply I_perm; [exact Ho|]. by apply token_first.
  - destruct Hstep as [Hn ->]. rewrite Hn in *. rewrite bool_decide_true in Hth by done.
    destruct Hth as (t' & HI & Hk). exists (<[i := t']> ts).
    eapply (pool_ok_set w ts i (Run k) _ _ _ t t'); try done; [by left | | by right | ].
    { rewrite Hn. naive_solver. }
    eapply I_perm; [exact HI|]. rewrite (token_first (<[i := t']> ts) i t'), others_insert; [done|].
    rewrite list_lookup_insert_eq; [done|]. by eapply lookup_lt_Some.
  - destruct Hstep as [Hn (s' & b & Hf & ->)]. rewrite bool_decide_true in Hth by done.
    destruct Hth as (s2 & b2 & Hf2 & Hk). simplify_eq. apply Hkeep; [by left | congruence |].
    by rewrite bool_decide_true.
  - rewrite Hstep. apply Hkeep; [by right | done | apply Hth].
  - rewrite Hstep. apply Hkeep; [by right | done | apply Hth].
  - destruct Hstep as (b & ->). apply Hkeep; [by right | done | apply Hth].
  - done.
Qed.

Lemma pool_ok_no_fault w ts : pool_ok w ts -> ~ faulty w.
Proof.
  intros (Hl & Ho & Hth) (i & p & Hi & Hp).
  destruct (lookup_lt_is_Some_2 ts i) as [t Ht]. { rewrite Hl. by eapply lookup_lt_Some. }
  specialize (Hth _ _ _ Hi Ht). cbn in Hth.
  destruct p as [l|k|k|B f k|B f k|B f k|B e k|]; try done.
  - rewrite bool_decide_true in Hth by done. by destruct Hth.
  - by rewrite bool_decide_true in Hth by done.
  - by rewrite bool_decide_false in Hth by done.
  - destruct (decide (owner w = Some i)) as [Ei|Ei].
    + rewrite bool_decide_true in Hth by done. destruct Hth as (s' & b & Hf & _). destruct Hp as [Hp|Hp]; congruence.
    + by rewrite bool_decide_false in Hth by done.
Qed.

(** No interleaving goes wrong, and whenever the mutex is free the zone
    satisfies the invariant, with the token of what a thread keeps when it is
    between two operations. *)
Theorem sound w0 ls w : threads w0 = map Idle ls -> owner w0 = None -> Forall wf ls ->
  I (the_zone w0) (map token_of ls) -> rtc (pool_step start) w0 w ->
  ~ faulty w /\
  (owner w = None -> exists ts, length ts = length (threads w) /\ I (the_zone w) ts /\
     forall i l, threads w !! i = Some (Idle l) -> ts !! i = Some (token_of l) /\ wf l).
Proof.
  intros Ht0 Ho0 Hwf HI Hr.
  assert (H0 : pool_ok w0 (map token_of ls)).
  { split_and!; [by rewrite Ht0, !length_map | by rewrite Ho0 |]. intros i th t Hth Ht. rewrite Ho0. cbn.
    rewrite Ht0, list_lookup_fmap in Hth. rewrite list_lookup_fmap in Ht.
    destruct (ls !! i) as [l|] eqn:El; [|done]. simplify_eq/=. split; [done|]. by eapply Forall_lookup_1. }
  assert (exists ts, pool_ok w ts) as [ts Hw].
  { clear -H0 Hr I_perm starts. revert H0. generalize (map token_of ls).
    induction Hr as [|w0 w1 w Hs _ IH]; intros ts Hts; [by eexists|].
    destruct (pool_ok_step _ _ _ Hts Hs) as [ts' H']. by eapply IH. }
  split; [by eapply pool_ok_no_fault|]. intros Hn. pose proof Hw as (Hl & Ho & Hth). rewrite Hn in Ho.
  exists ts. split_and!; [done..|]. intros i l Hi.
  destruct (lookup_lt_is_Some_2 ts i) as [t Ht]. { rewrite Hl. by eapply lookup_lt_Some. }
  specialize (Hth _ _ _ Hi Ht). rewrite bool_decide_false in Hth by (by rewrite Hn). destruct Hth as [[= ->] ?]. done.
Qed.
End Sound.
End Logic.
End Programs.

End Zones.
