(* ===== verification/FileCache.v ===== *)
(** * The file cache

    From [ngx_http_file_cache.c] and [ngx_http_cache.h]: the nodes of the files
    in shared memory, in a red-black tree and in a queue of their last use, and
    what requests, the cache manager and the cache loader do with them.  Every
    process may run at any time; the critical sections are where the source
    locks [shpool->mutex] ([Zones]).

    A node is its number; what [ngx_slab_alloc_locked] answers may be a number
    that was freed before. *)

From stdpp Require Import gmap.
From S2P Require Import Prelude Zones.
Import Zones.Zones.

Module FileCache.

(** ** The shared zone *)

(** [ngx_http_file_cache_node_t]; [key] is [node.key] and [key] together. *)
Record ngx_http_file_cache_node_t := Node {
  key : list Z;
  count : Z;   (** [unsigned count:20] *)
  uses : Z;   (** [unsigned uses:10] *)
  valid_msec : Z;
  error : Z;
  exists_ : bool;
  updating : bool;
  deleting : bool;
  uniq : Z;
  expire : Z;
  valid_sec : Z;
  body_start : Z;
  fs_size : Z;
}.

Definition eta_node (x : ngx_http_file_cache_node_t) : ngx_http_file_cache_node_t :=
  Node (key x) (count x) (uses x) (valid_msec x) (error x) (exists_ x) (updating x) (deleting x) (uniq x) (expire x)
    (valid_sec x) (body_start x) (fs_size x).
#[export] Instance set_count : Setter count := ltac:(derive_setter eta_node count).
#[export] Instance set_uses : Setter uses := ltac:(derive_setter eta_node uses).
#[export] Instance set_valid_msec : Setter valid_msec := ltac:(derive_setter eta_node valid_msec).
#[export] Instance set_error : Setter error := ltac:(derive_setter eta_node error).
#[export] Instance set_exists_ : Setter exists_ := ltac:(derive_setter eta_node exists_).
#[export] Instance set_updating : Setter updating := ltac:(derive_setter eta_node updating).
#[export] Instance set_deleting : Setter deleting := ltac:(derive_setter eta_node deleting).
#[export] Instance set_uniq : Setter uniq := ltac:(derive_setter eta_node uniq).
#[export] Instance set_expire : Setter expire := ltac:(derive_setter eta_node expire).
#[export] Instance set_valid_sec : Setter valid_sec := ltac:(derive_setter eta_node valid_sec).
#[export] Instance set_body_start : Setter body_start := ltac:(derive_setter eta_node body_start).
#[export] Instance set_fs_size : Setter fs_size := ltac:(derive_setter eta_node fs_size).

(** [ngx_rbtree_t], but for the colours. *)
Inductive rbtree_t := Sentinel | Fork (left : rbtree_t) (n : nat) (right : rbtree_t).

(** [ngx_http_file_cache_sh_t]; the queue from its head. *)
Record ngx_http_file_cache_sh_t := Sh {
  nodes : gmap nat ngx_http_file_cache_node_t;
  rbtree : rbtree_t;
  queue : list nat;
  size : Z;
}.

Definition eta_sh (s : ngx_http_file_cache_sh_t) : ngx_http_file_cache_sh_t := Sh (nodes s) (rbtree s) (queue s) (size s).
#[export] Instance set_nodes : Setter nodes := ltac:(derive_setter eta_sh nodes).
#[export] Instance set_rbtree : Setter rbtree := ltac:(derive_setter eta_sh rbtree).
#[export] Instance set_queue : Setter queue := ltac:(derive_setter eta_sh queue).
#[export] Instance set_size : Setter size := ltac:(derive_setter eta_sh size).

(** The words of it that are used without the mutex. *)
Record words := Words { cold : bool; loading : Z }.

(** ** A request's part *)

(** [ngx_http_cache_t] of a request, with [r->cached] and what it added to
    [r->main->blocked]; [c_buf] is whether there is a buffer. *)
Record ngx_http_cache_t := Cache {
  c_name : list Z;   (** [file.name] *)
  c_keys : list (list Z);
  c_crc32 : Z;
  c_key : list Z;
  c_uniq : Z;
  c_valid_sec : Z;
  c_last_modified : Z;
  c_date : Z;
  c_header_start : Z;
  c_body_start : Z;
  c_length : Z;
  c_fs_size : Z;
  c_min_uses : Z;
  c_error : Z;
  c_valid_msec : Z;
  c_buf : bool;
  c_node : option nat;
  c_lock_timeout : Z;
  c_wait_time : Z;
  c_timer : option Z;   (** the timer of [wait_event] *)
  c_lock : bool;
  c_waiting : bool;
  c_updated : bool;
  c_updating : bool;
  c_exists : bool;
  c_temp_file : bool;
  r_cached : bool;
  r_blocked : Z;
}.

Definition eta_cache (c : ngx_http_cache_t) : ngx_http_cache_t :=
  Cache (c_name c) (c_keys c) (c_crc32 c) (c_key c) (c_uniq c) (c_valid_sec c) (c_last_modified c) (c_date c)
    (c_header_start c) (c_body_start c) (c_length c) (c_fs_size c) (c_min_uses c) (c_error c) (c_valid_msec c) (c_buf c)
    (c_node c) (c_lock_timeout c) (c_wait_time c) (c_timer c) (c_lock c) (c_waiting c) (c_updated c) (c_updating c)
    (c_exists c) (c_temp_file c) (r_cached c) (r_blocked c).
#[export] Instance set_c_name : Setter c_name := ltac:(derive_setter eta_cache c_name).
#[export] Instance set_c_crc32 : Setter c_crc32 := ltac:(derive_setter eta_cache c_crc32).
#[export] Instance set_c_key : Setter c_key := ltac:(derive_setter eta_cache c_key).
#[export] Instance set_c_uniq : Setter c_uniq := ltac:(derive_setter eta_cache c_uniq).
#[export] Instance set_c_valid_sec : Setter c_valid_sec := ltac:(derive_setter eta_cache c_valid_sec).
#[export] Instance set_c_last_modified : Setter c_last_modified := ltac:(derive_setter eta_cache c_last_modified).
#[export] Instance set_c_date : Setter c_date := ltac:(derive_setter eta_cache c_date).
#[export] Instance set_c_header_start : Setter c_header_start := ltac:(derive_setter eta_cache c_header_start).
#[export] Instance set_c_body_start : Setter c_body_start := ltac:(derive_setter eta_cache c_body_start).
#[export] Instance set_c_length : Setter c_length := ltac:(derive_setter eta_cache c_length).
#[export] Instance set_c_fs_size : Setter c_fs_size := ltac:(derive_setter eta_cache c_fs_size).
#[export] Instance set_c_error : Setter c_error := ltac:(derive_setter eta_cache c_error).
#[export] Instance set_c_valid_msec : Setter c_valid_msec := ltac:(derive_setter eta_cache c_valid_msec).
#[export] Instance set_c_buf : Setter c_buf := ltac:(derive_setter eta_cache c_buf).
#[export] Instance set_c_node : Setter c_node := ltac:(derive_setter eta_cache c_node).
#[export] Instance set_c_wait_time : Setter c_wait_time := ltac:(derive_setter eta_cache c_wait_time).
#[export] Instance set_c_timer : Setter c_timer := ltac:(derive_setter eta_cache c_timer).
#[export] Instance set_c_lock : Setter c_lock := ltac:(derive_setter eta_cache c_lock).
#[export] Instance set_c_waiting : Setter c_waiting := ltac:(derive_setter eta_cache c_waiting).
#[export] Instance set_c_updated : Setter c_updated := ltac:(derive_setter eta_cache c_updated).
#[export] Instance set_c_updating : Setter c_updating := ltac:(derive_setter eta_cache c_updating).
#[export] Instance set_c_exists : Setter c_exists := ltac:(derive_setter eta_cache c_exists).
#[export] Instance set_c_temp_file : Setter c_temp_file := ltac:(derive_setter eta_cache c_temp_file).
#[export] Instance set_r_cached : Setter r_cached := ltac:(derive_setter eta_cache r_cached).
#[export] Instance set_r_blocked : Setter r_blocked := ltac:(derive_setter eta_cache r_blocked).

(** ** What the cache asks of the rest of the server *)

Inductive open_error := no_errno | ENOENT | ENOTDIR | other_errno.
Inductive open_answer := OpenError (err : open_error) | Opened (uniq size fs_size : Z).
(** A file of the walk: its name and sizes. *)
Record tree_file := TreeFile { tf_name : list Z; tf_size : Z; tf_fs_size : Z }.

(** The buffer of a cached answer: what it takes of the file, and its flags. *)
Record file_buf := FileBuf { file_pos : Z; file_last : Z; in_file : bool; last_buf : bool }.

Inductive event : Type -> Type :=
| ngx_time : event Z
| ngx_current_msec : event Z
| ngx_pool_cleanup_add : event bool
| ngx_pnalloc : event bool
| ngx_alloc : event bool
| ngx_create_temp_buf (n : Z) : event bool
| ngx_open_cached_file (name : list Z) (uniq : Z) : event open_answer
| ngx_read_file (n : Z) : event (ngx_rc + list Z)
| ngx_file_aio_read (n : Z) : event (ngx_rc + list Z)
| ngx_ext_rename_file (to : list Z) : event bool
| ngx_fd_info : event (option (Z * Z))   (** [ngx_file_uniq], [ngx_file_fs_size] *)
| ngx_delete_file (name : list Z) : event bool
| ngx_delete_temp_file : event bool
| write_handler : event unit
| ngx_quit_or_terminate : event bool
| ngx_pid : event Z
| ngx_http_send_header : event ngx_rc
| ngx_http_output_filter (b : file_buf) : event ngx_rc
| ngx_walk_tree_next : event (option (tree_file + list Z)).   (** a file, a special file, or the end *)

(** The nginx core, and the settings of a cache zone. *)
Class Core := {
  ngx_slab_alloc_locked : ngx_http_file_cache_sh_t -> option nat;
  (** what [ngx_rbtree_insert] does after the node is a leaf, and
      [ngx_rbtree_delete] *)
  ngx_rbtree_rebalance : rbtree_t -> rbtree_t;
  ngx_rbtree_delete : nat -> rbtree_t -> rbtree_t;
  ngx_hex_dump : list Z -> list Z;
  ngx_hextoi : list Z -> option Z;
  (** the path of a file from the name it has in its directory *)
  ngx_create_hashed_filename : list Z -> list Z;
  ngx_md5 : list Z -> list Z;
  ngx_crc32 : list Z -> Z;
  aio : bool;   (** [ngx_file_aio && clcf->aio] *)
  bsize : Z;
  max_size : Z;   (** in blocks *)
  inactive : Z;
}.
Abbreviation prog := (@prog ngx_http_file_cache_sh_t words event).
Abbreviation sec := (@zone ngx_http_file_cache_sh_t words event _).
Abbreviation ret := (@Ret ngx_http_file_cache_sh_t words event _).
Abbreviation shmtx_lock := (@lock ngx_http_file_cache_sh_t words event).
Abbreviation shmtx_unlock := (@unlock ngx_http_file_cache_sh_t words event).
Abbreviation word := (@atomic ngx_http_file_cache_sh_t words event _).
Abbreviation call := (@Zones.call ngx_http_file_cache_sh_t words event _).

(** ** Keys *)

(** An [ngx_rbtree_key_t] from the first bytes of a key, on a little-endian
    machine; [&key[sizeof(ngx_rbtree_key_t)]]. *)
Definition sizeof_rbtree_key : nat := 8.
Definition node_key (k : list Z) : Z := foldr (fun b z => b + 256 * z) 0 (take sizeof_rbtree_key k).
Definition rest_key (k : list Z) : list Z := drop sizeof_rbtree_key k.

Fixpoint ngx_memcmp (a b : list Z) : Z :=
  match a, b with
  | x :: a, y :: b => if x =? y then ngx_memcmp a b else x - y
  | _, _ => 0
  end.

(** ** The tree *)

(** From a subtree; [None] is a node that is not there. *)
Fixpoint lookup_from (m : gmap nat ngx_http_file_cache_node_t) (k : list Z) (t : rbtree_t) : option (option nat) :=
  match t with
  | Sentinel => Some None
  | Fork l n r =>
      x ← m !! n;
      if node_key k <? node_key (key x) then lookup_from m k l
      else if node_key (key x) <? node_key k then lookup_from m k r
      else
        let rc := ngx_memcmp (rest_key k) (rest_key (key x)) in
        if rc =? 0 then Some (Some n) else if rc <? 0 then lookup_from m k l else lookup_from m k r
  end.

Definition ngx_http_file_cache_lookup (k : list Z) (s : ngx_http_file_cache_sh_t) : option (option nat) :=
  lookup_from (nodes s) k (rbtree s).

(** The new node [n] with the key [k] as a leaf. *)
Fixpoint ngx_http_file_cache_rbtree_insert_value (m : gmap nat ngx_http_file_cache_node_t) (n : nat) (k : list Z)
    (t : rbtree_t) : option rbtree_t :=
  match t with
  | Sentinel => Some (Fork Sentinel n Sentinel)
  | Fork l n' r =>
      x ← m !! n';
      let go_left := if node_key k <? node_key (key x) then true
                     else if node_key (key x) <? node_key k then false
                     else ngx_memcmp (rest_key k) (rest_key (key x)) <? 0 in
      if go_left : bool then l' ← ngx_http_file_cache_rbtree_insert_value m n k l; Some (Fork l' n' r)
      else r' ← ngx_http_file_cache_rbtree_insert_value m n k r; Some (Fork l n' r')
  end.

Section Cache.
Context `{Core}.

Definition ngx_rbtree_insert (n : nat) (k : list Z) (s : ngx_http_file_cache_sh_t) : option ngx_http_file_cache_sh_t :=
  t ← ngx_http_file_cache_rbtree_insert_value (nodes s) n k (rbtree s);
  Some (s <| rbtree := ngx_rbtree_rebalance t |>).

(** [ngx_queue_remove] *)
Definition queue_remove (n : nat) (q : list nat) : list nat := filter (fun m => m <> n) q.

(** [ngx_queue_remove], [ngx_rbtree_delete] and [ngx_slab_free_locked]. *)
Definition free_node (n : nat) (s : ngx_http_file_cache_sh_t) : ngx_http_file_cache_sh_t :=
  Sh (delete n (nodes s)) (ngx_rbtree_delete n (rbtree s)) (queue_remove n (queue s)) (size s).

Definition put (n : nat) (x : ngx_http_file_cache_node_t) (s : ngx_http_file_cache_sh_t) : ngx_http_file_cache_sh_t :=
  s <| nodes := <[n := x]> (nodes s) |>.

(** ** Deleting files *)

(** The name of a file from the key of its node. *)
Definition file_name (k : list Z) : list Z := ngx_create_hashed_filename (ngx_hex_dump k).

(** With the mutex held: up to where it is released for the deletion of the
    file ([Some] name), and from where it is taken again. *)
Definition delete_begin (n : nat) (s : ngx_http_file_cache_sh_t) : option (ngx_http_file_cache_sh_t * option (list Z)) :=
  x ← nodes s !! n;
  if exists_ x then
    Some ((put n (x <| count := wrap 20 (count x + 1) |> <| deleting := true |>) s) <| size := size s - fs_size x |>,
          Some (file_name (key x)))
  else Some (s, None).

Definition delete_again (n : nat) (s : ngx_http_file_cache_sh_t) : option (ngx_http_file_cache_sh_t * unit) :=
  x ← nodes s !! n;
  Some (put n (x <| count := wrap 20 (count x - 1) |> <| deleting := false |>) s, tt).

Definition delete_end (n : nat) (s : ngx_http_file_cache_sh_t) : option (ngx_http_file_cache_sh_t * unit) :=
  x ← nodes s !! n;
  Some (if count x =? 0 then free_node n s else s, tt).

Definition ngx_http_file_cache_delete (n : nat) : prog unit :=
  name ← sec (delete_begin n);
  (match name with
   | Some name => shmtx_unlock;; call (ngx_delete_file name);; shmtx_lock;; sec (delete_again n)
   | None => ret tt
   end);;
  sec (delete_end n).

(** The [for] of [ngx_http_file_cache_forced_expire], over the queue from its
    last node: the node to delete, or how long to wait. *)
Fixpoint scan (m : gmap nat ngx_http_file_cache_node_t) (tries : Z) (q : list nat) : option (nat + Z) :=
  match q with
  | [] => Some (inr 10)
  | n :: q =>
      x ← m !! n;
      if count x =? 0 then Some (inl n)
      else if negb (tries - 1 =? 0) then scan m (tries - 1) q
      else Some (inr 1)
  end.

Definition ngx_http_file_cache_forced_expire : prog Z :=
  name ← call ngx_alloc;
  if negb name then ret 10
  else
    shmtx_lock;;
    found ← sec (fun s => v ← scan (nodes s) 20 (rev (queue s)); Some (s, v));
    wait ← (match found with
            | inl n => ngx_http_file_cache_delete n;; ret 0
            | inr wait => ret wait
            end);
    shmtx_unlock;;
    ret wait.

(** The node at the end of the queue. *)
Definition oldest (s : ngx_http_file_cache_sh_t)
    : option (ngx_http_file_cache_sh_t * option (nat * ngx_http_file_cache_node_t)) :=
  match rev (queue s) with
  | [] => Some (s, None)
  | n :: _ => x ← nodes s !! n; Some (s, Some (n, x))
  end.

(** A node goes to the head of the queue. *)
Definition requeue (n : nat) (now : Z) (s : ngx_http_file_cache_sh_t) : option (ngx_http_file_cache_sh_t * unit) :=
  x ← nodes s !! n;
  Some ((put n (x <| expire := now + inactive |>) s) <| queue := n :: queue_remove n (queue s) |>, tt).

Fixpoint expire_loop (fuel : nat) (now : Z) : prog Z :=
  match fuel with
  | O => OutOfFuel _
  | S fuel =>
      q ← sec oldest;
      match q with
      | None => ret 10
      | Some (n, x) =>
          let wait := expire x - now in
          if 0 <? wait then ret (if 10 <? wait then 10 else wait)
          else if count x =? 0 then ngx_http_file_cache_delete n;; expire_loop fuel now
          else if deleting x then ret 1
          else sec (requeue n now);; expire_loop fuel now
      end
  end.

Definition ngx_http_file_cache_expire (fuel : nat) : prog Z :=
  name ← call ngx_alloc;
  if negb name then ret 10
  else
    now ← call ngx_time;
    shmtx_lock;;
    wait ← expire_loop fuel now;
    shmtx_unlock;;
    ret wait.

Fixpoint manager_loop (fuel : nat) (next : Z) : prog Z :=
  match fuel with
  | O => OutOfFuel _
  | S fuel =>
      shmtx_lock;;
      sz ← sec (fun s => Some (s, size s));
      shmtx_unlock;;
      if sz <? max_size then ret next
      else
        wait ← ngx_http_file_cache_forced_expire;
        if 0 <? wait then ret wait
        else
          quit ← call ngx_quit_or_terminate;
          if quit : bool then ret next else manager_loop fuel next
  end.

Definition ngx_http_file_cache_manager (fuel : nat) : prog Z :=
  next ← ngx_http_file_cache_expire fuel;
  manager_loop fuel next.

(** ** The node of a request *)

(** [ngx_http_file_cache_exists] from [done]; [renew] before it. *)
Definition exists_done (now : Z) (n : nat) (rc : ngx_rc) (c : ngx_http_cache_t) (s : ngx_http_file_cache_sh_t)
    : option (ngx_http_file_cache_sh_t * (ngx_rc * ngx_http_cache_t)) :=
  x ← nodes s !! n;
  Some ((put n (x <| expire := now + inactive |>) s) <| queue := n :: queue s |>,
        (rc, c <| c_uniq := uniq x |> <| c_error := error x |> <| c_node := Some n |>)).

Definition renew (x : ngx_http_file_cache_node_t) : ngx_http_file_cache_node_t :=
  x <| valid_msec := 0 |> <| error := 0 |> <| exists_ := false |> <| valid_sec := 0 |> <| uniq := 0 |>
    <| body_start := 0 |> <| fs_size := 0 |>.

(** The node [n] was found. *)
Definition exists_found (now : Z) (n : nat) (c : ngx_http_cache_t) (s : ngx_http_file_cache_sh_t)
    : option (ngx_http_file_cache_sh_t * (ngx_rc * ngx_http_cache_t)) :=
  x ← nodes s !! n;
  let s := s <| queue := queue_remove n (queue s) |> in
  let x := match c_node c with
           | None => x <| uses := wrap 10 (uses x + 1) |> <| count := wrap 20 (count x + 1) |>
           | Some _ => x
           end in
  if negb (error x =? 0) then
    if valid_sec x <? now then exists_done now n NGX_DECLINED c (put n (renew x) s)
    else exists_done now n NGX_OK c (put n x s)
  else if exists_ x || (c_min_uses c <=? uses x) then
    let c := c <| c_exists := exists_ x |> in
    let c := if body_start x =? 0 then c else c <| c_body_start := body_start x |> in
    exists_done now n NGX_OK c (put n x s)
  else exists_done now n NGX_AGAIN c (put n x s).

(** The memory [n] is new. *)
Definition exists_new (now : Z) (n : nat) (c : ngx_http_cache_t) (s : ngx_http_file_cache_sh_t)
    : option (ngx_http_file_cache_sh_t * (ngx_rc * ngx_http_cache_t)) :=
  s ← ngx_rbtree_insert n (c_key c) s;
  exists_done now n NGX_DECLINED c (put n (renew (Node (c_key c) 1 1 0 0 false false false 0 0 0 0 0)) s).

Definition slab_alloc : prog (option nat) := sec (fun s => Some (s, ngx_slab_alloc_locked s)).

Definition ngx_http_file_cache_exists (c : ngx_http_cache_t) : prog (ngx_rc * ngx_http_cache_t) :=
  now ← call ngx_time;
  shmtx_lock;;
  fcn ← (match c_node c with
         | Some n => ret (Some n)
         | None => sec (fun s => v ← ngx_http_file_cache_lookup (c_key c) s; Some (s, v))
         end);
  r ← (match fcn with
       | Some n => sec (exists_found now n c)
       | None =>
           fcn ← slab_alloc;
           match fcn with
           | Some n => sec (exists_new now n c)
           | None =>
               shmtx_unlock;;
               ngx_http_file_cache_forced_expire;;
               shmtx_lock;;
               fcn ← slab_alloc;
               match fcn with
               | Some n => sec (exists_new now n c)
               | None => ret (NGX_ERROR, c)
               end
           end
       end);
  shmtx_unlock;;
  ret r.

Definition ngx_http_file_cache_name (c : ngx_http_cache_t) : prog (ngx_rc * ngx_http_cache_t) :=
  if negb (bool_decide (c_name c = [])) then ret (NGX_OK, c)
  else
    data ← call ngx_pnalloc;
    if negb data then ret (NGX_ERROR, c) else ret (NGX_OK, c <| c_name := file_name (c_key c) |>).

Definition ngx_http_file_cache_create (c : ngx_http_cache_t) : prog (ngx_rc * ngx_http_cache_t) :=
  cln ← call ngx_pool_cleanup_add;
  if negb cln then ret (NGX_ERROR, c)
  else
    r ← ngx_http_file_cache_exists c;
    if bool_decide (r.1 = NGX_ERROR) then ret (NGX_ERROR, r.2)
    else
      r ← ngx_http_file_cache_name r.2;
      ret (if bool_decide (r.1 = NGX_OK) then NGX_OK else NGX_ERROR, r.2).

(** ** Reading a file *)

(** [ngx_http_file_cache_header_t] as it is in the file, on a 64-bit
    little-endian machine. *)
Record ngx_http_file_cache_header_t := Header {
  h_valid_sec : Z;
  h_last_modified : Z;
  h_date : Z;
  h_crc32 : Z;
  h_valid_msec : Z;
  h_header_start : Z;
  h_body_start : Z;
}.
Definition sizeof_header : Z := 40.

Fixpoint bytes_le (n : nat) (z : Z) : list Z :=
  match n with O => [] | S n => z mod 256 :: bytes_le n (z / 256) end.
Definition load_le (b : list Z) : Z := foldr (fun b z => b + 256 * z) 0 b.

Definition encode_header (h : ngx_http_file_cache_header_t) : list Z :=
  bytes_le 8 (h_valid_sec h) ++ bytes_le 8 (h_last_modified h) ++ bytes_le 8 (h_date h) ++ bytes_le 4 (h_crc32 h)
  ++ bytes_le 2 (h_valid_msec h) ++ bytes_le 2 (h_header_start h) ++ bytes_le 2 (h_body_start h) ++ repeat 0 6.

Definition decode_header (b : list Z) : ngx_http_file_cache_header_t :=
  let at_ i n := load_le (take n (drop i b)) in
  Header (swrap 64 (at_ 0%nat 8%nat)) (swrap 64 (at_ 8%nat 8%nat)) (swrap 64 (at_ 16%nat 8%nat)) (at_ 24%nat 4%nat)
    (at_ 28%nat 2%nat) (at_ 30%nat 2%nat) (at_ 32%nat 2%nat).

(** [ngx_http_file_cache_key] *)
Definition cache_key_text : list Z := LF :: bytes_of "KEY: ".

(** What [ngx_http_file_cache_set_header] puts at the start of a buffer. *)
Definition ngx_http_file_cache_set_header (c : ngx_http_cache_t) : list Z :=
  encode_header (Header (c_valid_sec c) (c_last_modified c) (c_date c) (c_crc32 c) (wrap 16 (c_valid_msec c))
    (wrap 16 (c_header_start c)) (wrap 16 (c_body_start c)))
  ++ cache_key_text ++ concat (c_keys c) ++ [LF].

Definition ngx_http_file_cache_create_key (c : ngx_http_cache_t) : ngx_http_cache_t :=
  c <| c_header_start := sizeof_header + Z.of_nat (length cache_key_text) + Z.of_nat (length (concat (c_keys c))) + 1 |>
    <| c_crc32 := ngx_crc32 (concat (c_keys c)) |> <| c_key := ngx_md5 (concat (c_keys c)) |>.

Definition ngx_http_file_cache_aio_read (c : ngx_http_cache_t) : prog ((ngx_rc + list Z) * ngx_http_cache_t) :=
  if aio then
    n ← call (ngx_file_aio_read (c_body_start c));
    ret (n, match n with inl NGX_AGAIN => c <| r_blocked := r_blocked c + 1 |> | _ => c end)
  else
    n ← call (ngx_read_file (c_body_start c));
    ret (n, c).

Definition NGX_HTTP_CACHE_STALE : ngx_rc := Code 4.
Definition NGX_HTTP_CACHE_UPDATING : ngx_rc := Code 5.
Definition NGX_HTTP_CACHE_SCARCE : ngx_rc := Code 7.

(** A file that the loader has not seen yet. *)
Definition read_cold (c : ngx_http_cache_t) (s : ngx_http_file_cache_sh_t) : option (ngx_http_file_cache_sh_t * unit) :=
  n ← c_node c;
  x ← nodes s !! n;
  if exists_ x then Some (s, tt)
  else
    let x := x <| uses := 1 |> <| body_start := c_body_start c |> <| exists_ := true |> <| uniq := c_uniq c |>
               <| fs_size := c_fs_size c |> in
    Some ((put n x s) <| size := size s + c_fs_size c |>, tt).

(** Marks the node as being updated, unless it is. *)
Definition take_update (c : ngx_http_cache_t) (s : ngx_http_file_cache_sh_t) : option (ngx_http_file_cache_sh_t * bool) :=
  n ← c_node c;
  x ← nodes s !! n;
  Some (if updating x then (s, false) else (put n (x <| updating := true |>) s, true)).

Definition ngx_http_file_cache_read (c : ngx_http_cache_t) : prog (ngx_rc * ngx_http_cache_t) :=
  r ← ngx_http_file_cache_aio_read c;
  let c := r.2 in
  match r.1 with
  | inl rc => ret (rc, c)
  | inr b =>
      let h := decode_header b in
      if Z.of_nat (length b) <? c_header_start c then ret (NGX_DECLINED, c)
      else if negb (h_crc32 h =? c_crc32 c) then ret (NGX_DECLINED, c)
      else if c_body_start c <? h_body_start h then ret (NGX_DECLINED, c)
      else
        let c := c <| c_valid_sec := h_valid_sec h |> <| c_last_modified := h_last_modified h |> <| c_date := h_date h |>
                   <| c_valid_msec := h_valid_msec h |> <| c_header_start := h_header_start h |>
                   <| c_body_start := h_body_start h |> <| r_cached := true |> in
        cold ← word (fun w => (w, cold w));
        (if cold : bool then shmtx_lock;; sec (read_cold c);; shmtx_unlock else ret tt);;
        now ← call ngx_time;
        if c_valid_sec c <? now then
          shmtx_lock;;
          mine ← sec (take_update c);
          shmtx_unlock;;
          ret (if mine : bool then (NGX_HTTP_CACHE_STALE, c <| c_updating := true |>) else (NGX_HTTP_CACHE_UPDATING, c))
        else ret (NGX_OK, c)
  end.

(** ** Waiting for another request *)

(** [(timer > 500) ? 500 : timer], as an [ngx_msec_t]. *)
Definition wait_timer (timer : Z) : Z := if 500 <? wrap 64 timer then 500 else wrap 64 timer.

Definition ngx_http_file_cache_lock (c : ngx_http_cache_t) : prog (ngx_rc * ngx_http_cache_t) :=
  if negb (c_lock c) then ret (NGX_DECLINED, c)
  else
    shmtx_lock;;
    mine ← sec (take_update c);
    shmtx_unlock;;
    let c := if mine : bool then c <| c_updating := true |> else c in
    if c_updating c then ret (NGX_DECLINED, c)
    else
      let c := c <| c_waiting := true |> in
      now ← call ngx_current_msec;
      let c := if c_wait_time c =? 0 then c <| c_wait_time := wrap 64 (now + c_lock_timeout c) |> else c in
      ret (NGX_AGAIN, c <| c_timer := Some (wait_timer (c_wait_time c - now)) |> <| r_blocked := r_blocked c + 1 |>).

(** When the timer of [wait_event] expires. *)
Definition ngx_http_file_cache_lock_wait_handler (c : ngx_http_cache_t) : prog ngx_http_cache_t :=
  let c := c <| c_timer := None |> in
  let wakeup c := call write_handler;; ret (c <| c_waiting := false |> <| r_blocked := r_blocked c - 1 |>) in
  now ← call ngx_current_msec;
  let timer := c_wait_time c - now in
  if swrap 64 timer <=? 0 then wakeup (c <| c_lock := false |>)
  else
    shmtx_lock;;
    wait ← sec (fun s => n ← c_node c; x ← nodes s !! n; Some (s, updating x));
    shmtx_unlock;;
    if wait : bool then ret (c <| c_timer := Some (wait_timer timer) |>) else wakeup c.

(** ** Looking a request up *)

(** The part of [ngx_http_file_cache_open] that opens the file. *)
Definition open_file (c : ngx_http_cache_t) (rv : ngx_rc) : prog (ngx_rc * ngx_http_cache_t) :=
  opened ← call (ngx_open_cached_file (c_name c) (c_uniq c));
  match opened with
  | OpenError ENOENT | OpenError ENOTDIR =>
      if bool_decide (rv = NGX_DECLINED) then ngx_http_file_cache_lock c else ret (rv, c)
  | OpenError _ => ret (NGX_ERROR, c)
  | Opened u sz fs =>
      let c := c <| c_uniq := u |> <| c_length := sz |> <| c_fs_size := (fs + bsize - 1) / bsize |> in
      buf ← call (ngx_create_temp_buf (c_body_start c));
      if negb buf then ret (NGX_ERROR, c) else ngx_http_file_cache_read (c <| c_buf := true |>)
  end.

Definition ngx_http_file_cache_open (c : ngx_http_cache_t) : prog (ngx_rc * ngx_http_cache_t) :=
  if c_waiting c then ret (NGX_AGAIN, c)
  else if c_buf c then ngx_http_file_cache_read c
  else
    cln ← (match c_node c with None => call ngx_pool_cleanup_add | Some _ => ret true end);
    if negb cln then ret (NGX_ERROR, c)
    else
      r ← ngx_http_file_cache_exists c;
      let rc := r.1 in let c := r.2 in
      if bool_decide (rc = NGX_ERROR) then ret (rc, c)
      else if bool_decide (rc = NGX_AGAIN) then ret (NGX_HTTP_CACHE_SCARCE, c)
      else
        cold ← word (fun w => (w, cold w));
        if bool_decide (rc = NGX_OK) && negb (c_error c =? 0) then ret (Code (c_error c), c)
        else if negb (bool_decide (rc = NGX_OK)) && (1 <? c_min_uses c) && negb cold then ret (NGX_HTTP_CACHE_SCARCE, c)
        else
          let scarce := negb (bool_decide (rc = NGX_OK)) && (1 <? c_min_uses c) in
          let test := if bool_decide (rc = NGX_OK) then c_exists c else if scarce then true else cold in
          let rv := if scarce then NGX_HTTP_CACHE_SCARCE else NGX_DECLINED in
          let c := if scarce then c else c <| c_temp_file := true |> in
          r ← ngx_http_file_cache_name c;
          let c := r.2 in
          if negb (bool_decide (r.1 = NGX_OK)) then ret (NGX_ERROR, c)
          else if test : bool then open_file c rv
          else if bool_decide (rv = NGX_DECLINED) then ngx_http_file_cache_lock c else ret (rv, c).

(** ** After the answer *)

Definition update_node (c : ngx_http_cache_t) (ok : bool) (u fs : Z) (s : ngx_http_file_cache_sh_t)
    : option (ngx_http_file_cache_sh_t * unit) :=
  n ← c_node c;
  x ← nodes s !! n;
  let x' := x <| count := wrap 20 (count x - 1) |> <| uniq := u |> <| body_start := c_body_start c |>
              <| fs_size := fs |> <| exists_ := ok || exists_ x |> <| updating := false |> in
  Some ((put n x' s) <| size := size s + (fs - fs_size x) |>, tt).

(** [tf] is the temporary file of the pipe. *)
Definition ngx_http_file_cache_update (c : ngx_http_cache_t) : prog ngx_http_cache_t :=
  if c_updated c then ret c
  else
    let c := c <| c_updated := true |> <| c_updating := false |> in
    renamed ← call (ngx_ext_rename_file (c_name c));
    fi ← (if renamed : bool then call ngx_fd_info else ret None);
    shmtx_lock;;
    sec (match fi with
         | Some (u, fs) => update_node c true u ((fs + bsize - 1) / bsize)
         | None => update_node c false 0 0
         end);;
    shmtx_unlock;;
    ret c.

(** With whether the node was freed. *)
Definition release_node (c : ngx_http_cache_t) (s : ngx_http_file_cache_sh_t)
    : option (ngx_http_file_cache_sh_t * bool) :=
  n ← c_node c;
  x ← nodes s !! n;
  let x := x <| count := wrap 20 (count x - 1) |> in
  let x := if c_updating c then x <| updating := false |> else x in
  if negb (c_error c =? 0) then
    let x := x <| error := wrap 10 (c_error c) |> in
    let x := if c_valid_sec c =? 0 then x
             else x <| valid_sec := c_valid_sec c |> <| valid_msec := wrap 10 (c_valid_msec c) |> in
    Some (put n x s, false)
  else if negb (exists_ x) && (count x =? 0) && (c_min_uses c =? 1) then Some (free_node n (put n x s), true)
  else Some (put n x s, false).

(** [incomplete] is whether there is an open temporary file. *)
Definition ngx_http_file_cache_free (c : ngx_http_cache_t) (incomplete : bool) : prog ngx_http_cache_t :=
  if c_updated c || bool_decide (c_node c = None) then ret c
  else
    shmtx_lock;;
    freed ← sec (release_node c);
    shmtx_unlock;;
    let c := if freed : bool then c <| c_node := None |> else c in
    let c := c <| c_updated := true |> <| c_updating := false |> in
    (if c_temp_file c && incomplete then call ngx_delete_temp_file;; ret tt else ret tt);;
    ret (c <| c_timer := None |>).

Definition ngx_http_file_cache_cleanup (c : ngx_http_cache_t) : prog ngx_http_cache_t :=
  if c_updated c then ret c else ngx_http_file_cache_free c false.

(** ** Sending a cached answer

    [is_main] is [r == r->main]; [ngx_pcalloc] is called twice. *)
Definition ngx_http_cache_send (is_main header_only : bool) (c : ngx_http_cache_t) : prog ngx_rc :=
  if negb is_main && (c_length c - c_body_start c =? 0) then call ngx_http_send_header
  else
    b ← call ngx_pnalloc;
    if negb b then ret (Code 500)
    else
      file ← call ngx_pnalloc;
      if negb file then ret (Code 500)
      else
        rc ← call ngx_http_send_header;
        match rc with
        | NGX_ERROR => ret rc
        | Code z => if 0 <? z then ret rc else if header_only then ret rc
                    else call (ngx_http_output_filter (FileBuf (c_body_start c) (c_length c) (negb (c_length c - c_body_start c =? 0)) is_main))
        | _ => if header_only then ret rc
               else call (ngx_http_output_filter (FileBuf (c_body_start c) (c_length c) (negb (c_length c - c_body_start c =? 0)) is_main))
        end.

(** [ngx_http_file_cache_valid]: how long an answer with a status is valid. *)
Fixpoint ngx_http_file_cache_valid (cache_valid : list (Z * Z)) (status : Z) : Z :=
  match cache_valid with
  | [] => 0
  | (st, valid) :: cache_valid =>
      if (st =? 0) || (st =? status) then valid else ngx_http_file_cache_valid cache_valid status
  end.

(** ** The cache loader *)

Definition add_new (now : Z) (k : list Z) (fs : Z) (m : nat) (s : ngx_http_file_cache_sh_t)
    : option (ngx_http_file_cache_sh_t * unit) :=
  s ← ngx_rbtree_insert m k s;
  let x := Node k 0 1 0 0 true false false 0 (now + inactive) 0 0 fs in
  Some ((put m x s) <| queue := m :: queue s |> <| size := size s + fs |>, tt).

Definition ngx_http_file_cache_add (k : list Z) (fs : Z) : prog ngx_rc :=
  now ← call ngx_time;
  shmtx_lock;;
  fcn ← sec (fun s => v ← ngx_http_file_cache_lookup k s; Some (s, v));
  rc ← (match fcn with
        | Some n => sec (requeue n now);; ret NGX_OK
        | None =>
            fcn ← slab_alloc;
            match fcn with
            | Some n => sec (add_new now k fs n);; ret NGX_OK
            | None => ret NGX_ERROR
            end
        end);
  shmtx_unlock;;
  ret rc.

(** The key from the hexadecimal digits. *)
Fixpoint hex_key (digits : list Z) : option (list Z) :=
  match digits with
  | a :: b :: digits => n ← ngx_hextoi [a; b]; k ← hex_key digits; Some (n :: k)
  | _ => Some []
  end.

Definition NGX_HTTP_CACHE_KEY_LEN : nat := 16.

Definition ngx_http_file_cache_add_file (f : tree_file) : prog ngx_rc :=
  let len := length (tf_name f) in
  if (len <? 2 * NGX_HTTP_CACHE_KEY_LEN)%nat then ret NGX_ERROR
  else if tf_size f <? sizeof_header then ret NGX_ERROR
  else
    match hex_key (drop (len - 2 * NGX_HTTP_CACHE_KEY_LEN) (tf_name f)) with
    | None => ret NGX_ERROR
    | Some k => ngx_http_file_cache_add k ((tf_fs_size f + bsize - 1) / bsize)
    end.

(** [ngx_http_file_cache_manage_file], but for the pauses of the loader;
    [true] is [NGX_ABORT]. *)
Definition ngx_http_file_cache_manage_file (f : tree_file) : prog bool :=
  rc ← ngx_http_file_cache_add_file f;
  (if bool_decide (rc = NGX_OK) then ret tt else call (ngx_delete_file (tf_name f));; ret tt);;
  call ngx_quit_or_terminate.

(** [ngx_walk_tree] with the handlers of the loader. *)
Fixpoint walk (fuel : nat) : prog bool :=
  match fuel with
  | O => OutOfFuel _
  | S fuel =>
      f ← call ngx_walk_tree_next;
      match f with
      | None => ret false
      | Some (inr name) => call (ngx_delete_file name);; walk fuel
      | Some (inl f) =>
          abort ← ngx_http_file_cache_manage_file f;
          if abort : bool then ret true else walk fuel
      end
  end.

Definition ngx_http_file_cache_loader (fuel : nat) : prog unit :=
  w ← word (fun w => (w, w));
  if negb (cold w) || negb (loading w =? 0) then ret tt
  else
    pid ← call ngx_pid;
    (** [ngx_atomic_cmp_set (&cache->sh->loading, 0, ngx_pid)] *)
    mine ← word (fun w => if loading w =? 0 then (Words (cold w) pid, true) else (w, false));
    if negb mine then ret tt
    else
      abort ← walk fuel;
      if abort : bool then word (fun w => (Words (cold w) 0, tt))
      else
        word (fun w => (Words false (loading w), tt));;
        word (fun w => (Words (cold w) 0, tt));;
        (** the size for the message is read without the mutex *)
        @peek ngx_http_file_cache_sh_t words event _ size;;
        ret tt.

End Cache.

(** ** The zone of a configuration

    [ngx_http_file_cache_t] as far as [ngx_http_file_cache_init] sets it;
    [max_size] is in bytes before, and in blocks after it. *)
Record ngx_http_file_cache_t := FileCacheConf {
  path_name : list Z;
  path_level : list Z;   (** three *)
  conf_bsize : Z;
  conf_max_size : Z;
  path_loader : bool;
}.

(** With the zone of the configuration before, its words, whether the segment
    exists already, and whether [ngx_slab_alloc] succeeds twice; [None] is
    [NGX_ERROR], and the last part whether the zone was made here. *)
Definition ngx_http_file_cache_init (ngx_fs_bsize : list Z -> Z) (alloc_sh alloc_log : bool)
    (ocache : option (ngx_http_file_cache_t * words)) (shm_exists : bool) (cache : ngx_http_file_cache_t)
    : option (ngx_http_file_cache_t * option (ngx_http_file_cache_sh_t * words)) :=
  let with_bsize bs ms cache := FileCacheConf (path_name cache) (path_level cache) bs ms (path_loader cache) in
  match ocache with
  | Some (o, w) =>
      if negb (bool_decide (path_name cache = path_name o)) then None
      else if negb (bool_decide (path_level cache = path_level o)) then None
      else
        let cache := with_bsize (conf_bsize o) (conf_max_size cache `quot` conf_bsize o) cache in
        Some (if negb (cold w) || negb (loading w =? 0)
              then FileCacheConf (path_name cache) (path_level cache) (conf_bsize cache) (conf_max_size cache) false
              else cache, None)
  | None =>
      if shm_exists then Some (with_bsize (ngx_fs_bsize (path_name cache)) (conf_max_size cache) cache, None)
      else if negb alloc_sh then None
      else
        let bs := ngx_fs_bsize (path_name cache) in
        if negb alloc_log then None
        else Some (with_bsize bs (conf_max_size cache `quot` bs) cache, Some (Sh ∅ Sentinel [] 0, Words true 0))
  end.
End FileCache.
