(* ===== verification/FileCacheTree.v ===== *)
(** * The tree of the file cache

    The order of keys, and that [ngx_http_file_cache_lookup] and
    [ngx_http_file_cache_rbtree_insert_value] keep to it. *)

From stdpp Require Import gmap sorting.
From stdpp Require Import gmap.
From S2P Require Import Prelude Zones FileCache.
Import FileCache.FileCache.

Module FileCacheTree.

(** ** The order of keys *)

(** What [ngx_http_file_cache_exists] is given: sixteen bytes. *)
Definition key_ok (k : list Z) : Prop := length k = NGX_HTTP_CACHE_KEY_LEN /\ Forall u_char k.

(** A key as the comparisons see it. *)
Definition as_words (k : list Z) : list Z := node_key k :: rest_key k.
Definition key_cmp (a b : list Z) : Z := ngx_memcmp (as_words a) (as_words b).
Definition key_le (a b : list Z) : Prop := key_cmp a b <= 0.

Lemma memcmp_opp a b : ngx_memcmp b a = - ngx_memcmp a b.
Proof.
  revert b. induction a as [|x a IH]; intros [|y b]; cbn; try done.
  rewrite (Z.eqb_sym y x). destruct (Z.eqb_spec x y); [apply IH | lia].
Qed.

Lemma memcmp_trans a b c : length a = length b -> length b = length c ->
  ngx_memcmp a b <= 0 -> ngx_memcmp b c <= 0 -> ngx_memcmp a c <= 0.
Proof.
  revert b c. induction a as [|x a IH]; intros [|y b] [|z c]; cbn; try done.
  intros Ha Hb. destruct (Z.eqb_spec x y), (Z.eqb_spec y z), (Z.eqb_spec x z); subst; try lia.
  apply IH; lia.
Qed.

Lemma memcmp_zero a b : length a = length b -> ngx_memcmp a b = 0 -> a = b.
Proof.
  revert b. induction a as [|x a IH]; intros [|y b]; cbn; try done. intros Hl.
  destruct (Z.eqb_spec x y); [|lia]. subst. intros E. f_equal. apply IH; [lia | done].
Qed.

Lemma load_le_inj a b : length a = length b -> Forall u_char a -> Forall u_char b -> load_le a = load_le b -> a = b.
Proof.
  revert b. induction a as [|x a IH]; intros [|y b] Hl Ha Hb E; try done.
  apply Forall_cons_iff in Ha as [Hx Ha]. apply Forall_cons_iff in Hb as [Hy Hb]. unfold load_le in *. cbn [foldr] in E.
  unfold u_char in *. assert (x = y) by lia. subst. f_equal. cbn in Hl. apply IH; [lia | done | done | lia].
Qed.

Lemma length_words k : key_ok k -> length (as_words k) = 9%nat.
Proof. intros [Hl _]. unfold as_words, rest_key. cbn. rewrite length_drop, Hl. done. Qed.

Lemma words_inj a b : key_ok a -> key_ok b -> as_words a = as_words b -> a = b.
Proof.
  intros [La Ba] [Lb Bb] [= E1 E2].
  rewrite <- (take_drop sizeof_rbtree_key a), <- (take_drop sizeof_rbtree_key b). f_equal; [|done].
  apply load_le_inj; [by rewrite !length_take, La, Lb | by apply Forall_take.. | done].
Qed.

Lemma key_cmp_zero a b : key_ok a -> key_ok b -> key_cmp a b = 0 -> a = b.
Proof.
  intros Ha Hb E. apply words_inj; [done..|]. apply memcmp_zero; [|done]. by rewrite !length_words.
Qed.

Lemma key_cmp_refl a : key_cmp a a = 0.
Proof. pose proof (memcmp_opp (as_words a) (as_words a)). unfold key_cmp. lia. Qed.

Lemma key_le_trans a b c : key_ok a -> key_ok b -> key_ok c -> key_le a b -> key_le b c -> key_le a c.
Proof. intros Ha Hb Hc. apply memcmp_trans; by rewrite !length_words. Qed.

Lemma key_le_opp a b : key_le a b <-> 0 <= key_cmp b a.
Proof. unfold key_le, key_cmp. rewrite (memcmp_opp (as_words a)). lia. Qed.

(** The three-way test of the source. *)
Lemma compared {A} k k' (lt eq gt : A) :
  (if node_key k <? node_key k' then lt
   else if node_key k' <? node_key k then gt
   else let rc := ngx_memcmp (rest_key k) (rest_key k') in if rc =? 0 then eq else if rc <? 0 then lt else gt)
  = match key_cmp k k' with Z0 => eq | Zneg _ => lt | Zpos _ => gt end.
Proof.
  unfold key_cmp, as_words. cbn [ngx_memcmp].
  destruct (Z.ltb_spec (node_key k) (node_key k')).
  { destruct (Z.eqb_spec (node_key k) (node_key k')); [lia|]. by destruct (node_key k - node_key k') eqn:E; [lia|lia|]. }
  destruct (Z.ltb_spec (node_key k') (node_key k)).
  { destruct (Z.eqb_spec (node_key k) (node_key k')); [lia|]. by destruct (node_key k - node_key k') eqn:E; [lia| |lia]. }
  destruct (Z.eqb_spec (node_key k) (node_key k')); [|lia].
  cbv zeta. by destruct (ngx_memcmp _ _).
Qed.

Lemma compared_left k k' :
  (if node_key k <? node_key k' then true
   else if node_key k' <? node_key k then false
   else ngx_memcmp (rest_key k) (rest_key k') <? 0) = (key_cmp k k' <? 0).
Proof.
  unfold key_cmp, as_words. cbn [ngx_memcmp].
  destruct (Z.ltb_spec (node_key k) (node_key k')), (Z.ltb_spec (node_key k') (node_key k)),
    (Z.eqb_spec (node_key k) (node_key k')); try lia; try done;
    symmetry; (apply Z.ltb_lt + apply Z.ltb_ge); lia.
Qed.

(** ** Trees in order *)

Fixpoint inorder (t : rbtree_t) : list nat :=
  match t with Sentinel => [] | Fork l n r => inorder l ++ n :: inorder r end.

Abbreviation memory := (gmap nat ngx_http_file_cache_node_t).

(** The key of a node. *)
Definition key_of (m : memory) (n : nat) : list Z := from_option key [] (m !! n).

(** The nodes of a list are there, with keys in order. *)
Definition in_order (m : memory) (l : list nat) : Prop :=
  Forall (fun n => is_Some (m !! n) /\ key_ok (key_of m n)) l
  /\ StronglySorted (fun a b => key_le (key_of m a) (key_of m b)) l.

Lemma in_order_app m l1 n l2 : in_order m (l1 ++ n :: l2) <->
  in_order m l1 /\ in_order m l2 /\ is_Some (m !! n) /\ key_ok (key_of m n)
  /\ Forall (fun a => key_le (key_of m a) (key_of m n)) l1 /\ Forall (fun b => key_le (key_of m n) (key_of m b)) l2.
Proof.
  unfold in_order. rewrite List.Forall_app, Forall_cons_iff, StronglySorted_app. split.
  - intros ((H1 & (Hn & Hk) & H2) & Hc & S1 & S2). apply StronglySorted_inv in S2 as [S2 F2]. split_and!; try done.
    rewrite list.Forall_forall. intros a Ha. apply Hc; [done|]. apply elem_of_cons. by left.
  - intros ((H1 & S1) & (H2 & S2) & Hn & Hk & F1 & F2). split; [done|]. split_and!; [|done|by constructor].
    rewrite list.Forall_forall in *. intros a b Ha Hb. apply elem_of_cons in Hb as [->|Hb]; [by apply F1|].
    eapply key_le_trans; [by apply H1 | exact Hk | by apply H2 | by apply F1 | by apply F2].
Qed.

(** A subtree holds the key exactly when the way down leads to it. *)
Lemma lookup_spec m k t : in_order m (inorder t) -> key_ok k ->
  exists o, lookup_from m k t = Some o /\
    match o with
    | Some n => n ∈ inorder t /\ key_of m n = k
    | None => Forall (fun n => key_of m n <> k) (inorder t)
    end.
Proof.
  intros Ht Hk. induction t as [|l IHl n r IHr]; cbn [inorder lookup_from] in *; [by exists None|].
  apply in_order_app in Ht as (Hl & Hr & [x Hx] & Hkn & Fl & Fr). rewrite Hx. cbn [mbind option_bind]. rewrite compared.
  assert (Hn : key_of m n = key x) by (unfold key_of; by rewrite Hx). rewrite Hn in Hkn, Fl, Fr.
  destruct (key_cmp k (key x)) as [|p|p] eqn:E.
  - exists (Some n). split; [done|]. split; [apply elem_of_app; right; apply elem_of_cons; by left|]. rewrite Hn. by apply eq_sym, key_cmp_zero.
  - destruct (IHr Hr) as ([n'|] & -> & Ho); [exists (Some n') | exists None]; (split; [done|]).
    + split; [|apply Ho]. apply elem_of_app. right. apply elem_of_cons. right. apply Ho.
    + apply List.Forall_app. split; [|constructor; [|done]].
      * eapply list.Forall_impl; [exact Fl|]. intros a Ha Hka. cbn in Ha. rewrite Hka in Ha. unfold key_le in Ha. lia.
      * rewrite Hn. intros <-. rewrite key_cmp_refl in E. done.
  - destruct (IHl Hl) as ([n'|] & -> & Ho); [exists (Some n') | exists None]; (split; [done|]).
    + split; [|apply Ho]. apply elem_of_app. left. apply Ho.
    + apply List.Forall_app. split; [done|]. constructor; [rewrite Hn; intros <-; by rewrite key_cmp_refl in E|].
      eapply list.Forall_impl; [exact Fr|]. intros a Ha Hka. cbn in Ha. rewrite Hka in Ha.
      apply key_le_opp in Ha. lia.
Qed.

(** The new leaf is in its place, after the nodes with the same key. *)
Lemma insert_place m n k t : in_order m (inorder t) -> key_ok k ->
  exists t' l1 l2, ngx_http_file_cache_rbtree_insert_value m n k t = Some t' /\
    inorder t = l1 ++ l2 /\ inorder t' = l1 ++ n :: l2 /\
    Forall (fun a => key_le (key_of m a) k) l1 /\ Forall (fun b => key_le k (key_of m b)) l2.
Proof.
  intros Ht Hk. induction t as [|l IHl n' r IHr]; cbn [inorder ngx_http_file_cache_rbtree_insert_value] in *.
  { by exists (Fork Sentinel n Sentinel), [], []. }
  apply in_order_app in Ht as (Hl & Hr & [x Hx] & Hkn & Fl & Fr). rewrite Hx. cbn [mbind option_bind].
  rewrite compared_left. assert (Hn : key_of m n' = key x) by (unfold key_of; by rewrite Hx).
  rewrite Hn in Hkn, Fl, Fr. destruct (Z.ltb_spec (key_cmp k (key x)) 0) as [E|E].
  - destruct (IHl Hl) as (t' & l1 & l2 & -> & El & Et & F1 & F2). exists (Fork t' n' r), l1, (l2 ++ n' :: inorder r).
    cbn [mbind option_bind inorder]. rewrite El, Et, <- !app_assoc. cbn [app]. split_and!; try done.
    apply List.Forall_app. split; [done|]. constructor; [rewrite Hn; unfold key_le; lia|].
    destruct Hr as [Hr _]. rewrite list.Forall_forall in Fr, Hr |- *. intros b Hb.
    eapply key_le_trans; [exact Hk | exact Hkn | by apply Hr | unfold key_le; lia | by apply Fr].
  - destruct (IHr Hr) as (t' & l1 & l2 & -> & Er & Et & F1 & F2). exists (Fork l n' t'), (inorder l ++ n' :: l1), l2.
    cbn [mbind option_bind inorder]. rewrite Er, Et, <- !app_assoc. cbn [app]. split_and!; try done.
    apply key_le_opp in E. apply List.Forall_app. split; [|constructor; [by rewrite Hn | done]].
    destruct Hl as [Hl _]. rewrite list.Forall_forall in Fl, Hl |- *. intros a Ha.
    eapply key_le_trans; [by apply Hl | exact Hkn | exact Hk | by apply Fl | done].
Qed.

(** Other nodes do not matter. *)
Lemma in_order_ext m m' l : (forall n, n ∈ l -> key <$> m' !! n = key <$> m !! n) -> in_order m l -> in_order m' l.
Proof.
  intros He [H1 H2].
  assert (Hof : forall n, n ∈ l -> key_of m' n = key_of m n).
  { intros n Hn. specialize (He n Hn). unfold key_of. destruct (m !! n), (m' !! n); by simplify_eq/=. }
  split.
  - rewrite list.Forall_forall in *. intros n Hn. rewrite Hof by done. destruct (H1 n Hn) as [Hs ?]. split; [|done].
    specialize (He n Hn). destruct Hs as [x Hx]. rewrite Hx in He. destruct (m' !! n); [by eexists | done].
  - clear H1 He. induction H2 as [|a l Hs IH Hf]; [constructor|].
    constructor; [apply IH; intros; apply Hof; by apply elem_of_cons; right|].
    rewrite list.Forall_forall in *. intros b Hb. rewrite !Hof; [by apply Hf | apply elem_of_cons; auto..].
Qed.

Lemma insert_spec m n k t x : in_order m (inorder t) -> key_ok k -> n ∉ inorder t -> key x = k ->
  exists t', ngx_http_file_cache_rbtree_insert_value m n k t = Some t' /\
    inorder t' ≡ₚ n :: inorder t /\ in_order (<[n := x]> m) (inorder t').
Proof.
  intros Ht Hk Hnew Hx. destruct (insert_place m n k t Ht Hk) as (t' & l1 & l2 & E & El & Et & F1 & F2).
  exists t'. rewrite Et, El in *. split_and!; [done | by rewrite Permutation_middle|].
  assert (Hof : forall a, a <> n -> key_of (<[n := x]> m) a = key_of m a).
  { intros a Ha. unfold key_of. by rewrite lookup_insert_ne. }
  assert (Hin : forall l, n ∉ l -> in_order m l -> in_order (<[n := x]> m) l).
  { intros l Hl. apply in_order_ext. intros a Ha. rewrite lookup_insert_ne; [done|]. by intros ->. }
  assert (Hn : key_of (<[n := x]> m) n = k) by (unfold key_of; by rewrite lookup_insert_eq).
  rewrite not_elem_of_app in Hnew. destruct Hnew as [N1 N2]. apply in_order_app. rewrite Hn.
  assert (H1 : in_order m l1 /\ in_order m l2).
  { destruct Ht as [Hf Hs]. apply List.Forall_app in Hf as [? ?]. split; split; try done;
      [by eapply StronglySorted_app_1_l | by eapply StronglySorted_app_1_r]. }
  split_and!; [by apply Hin, H1 | by apply Hin, H1 | rewrite lookup_insert_eq; by eexists | done | |]; rewrite list.Forall_forall in *.
  - intros a Ha. rewrite Hof by (by intros ->). by apply F1.
  - intros b Hb. rewrite Hof by (by intros ->). by apply F2.
Qed.

(** Leaving nodes out keeps the order. *)
Lemma in_order_filter m (P : nat -> Prop) `{forall n, Decision (P n)} l : in_order m l -> in_order m (filter P l).
Proof.
  intros [H1 H2]. split.
  - rewrite list.Forall_forall in *. intros n Hn. apply H1. by apply list_elem_of_filter in Hn as [_ ?].
  - clear H1. induction H2 as [|a l Hs IH Hf]; cbn; [constructor|]. destruct (decide (P a)); [|done].
    constructor; [done|]. rewrite list.Forall_forall in *. intros b Hb. apply Hf. by apply list_elem_of_filter in Hb as [_ ?].
Qed.

End FileCacheTree.

(** * The invariant of the file cache

    What holds of the shared zone whenever nobody has its mutex, in terms of a
    token per process, and what the critical sections do to it. *)
Import Zones.Zones FileCache.FileCache FileCacheTree.FileCacheTree.

Module FileCacheFacts.

(** The nginx core does what its documentation says. *)
Class CoreOk {C : Core} := {
  slab_fresh : forall s n, ngx_slab_alloc_locked s = Some n -> nodes s !! n = None;
  rebalance_order : forall t, inorder (ngx_rbtree_rebalance t) = inorder t;
  rbtree_delete_order : forall n t, inorder (ngx_rbtree_delete n t) = queue_remove n (inorder t);
  md5_key : forall b, key_ok (ngx_md5 b);
  hextoi_byte : forall a b n, ngx_hextoi [a; b] = Some n -> u_char n;
}.

(** ** Tokens

    What a process has of the nodes: the node its request counts on, with its
    key and whether the request is updating it, and the node whose file it is
    deleting. *)
Record token := Token { ref : option nat; ref_key : list Z; upd : bool; del : option nat }.

Definition refs (n : nat) (t : token) : Z := if decide (ref t = Some n) then 1 else 0.
Definition dels (n : nat) (t : token) : Z := if decide (del t = Some n) then 1 else 0.
Definition total (f : token -> Z) (ts : list token) : Z := foldr (fun t z => f t + z) 0 ts.

Lemma total_cons f t ts : total f (t :: ts) = f t + total f ts.
Proof. done. Qed.

Arguments total : simpl never.

Lemma total_perm f ts ts' : ts ≡ₚ ts' -> total f ts = total f ts'.
Proof. induction 1; rewrite ?total_cons; lia. Qed.

Lemma refs_range n t : 0 <= refs n t <= 1.
Proof. unfold refs. case_decide; lia. Qed.
Lemma dels_range n t : 0 <= dels n t <= 1.
Proof. unfold dels. case_decide; lia. Qed.

Lemma total_range f ts : (forall t, 0 <= f t <= 1) -> 0 <= total f ts <= Z.of_nat (length ts).
Proof. intros Hf. induction ts as [|t ts IH]; [done|]. rewrite total_cons. cbn [length]. specialize (Hf t). lia. Qed.

Lemma total_zero f ts : (forall t, 0 <= f t <= 1) -> total f ts = 0 -> forall t, t ∈ ts -> f t = 0.
Proof.
  intros Hf. induction ts as [|u ts IH]; [by intros _ t Ht%not_elem_of_nil|]. rewrite total_cons.
  pose proof (Hf u). pose proof (total_range f ts Hf).
  intros E t [->|Ht]%elem_of_cons; [lia|]. apply IH; [lia | done].
Qed.

Lemma total_none f ts : (forall t, t ∈ ts -> f t = 0) -> total f ts = 0.
Proof.
  induction ts as [|t ts IH]; [done|]. intros H. rewrite total_cons, H by (apply elem_of_cons; by left).
  rewrite IH; [done|]. intros u Hu. apply H. apply elem_of_cons. by right.
Qed.

(** ** The invariant *)

Record Inv (s : ngx_http_file_cache_sh_t) (ts : list token) : Prop := {
  i_nodup : NoDup (queue s);
  i_tree : inorder (rbtree s) ≡ₚ queue s;
  i_nodes : forall n, n ∈ queue s <-> is_Some (nodes s !! n);
  i_order : in_order (nodes s) (inorder (rbtree s));
  i_count : forall n x, nodes s !! n = Some x -> count x = total (refs n) ts + total (dels n) ts;
  i_deleting : forall n x, nodes s !! n = Some x -> Z.b2z (deleting x) = total (dels n) ts;
  i_ref : forall t n, t ∈ ts -> ref t = Some n -> exists x, nodes s !! n = Some x /\ key x = ref_key t;
  i_del : forall t n, t ∈ ts -> del t = Some n -> is_Some (nodes s !! n);
  i_updating : forall n x, nodes s !! n = Some x -> updating x = true ->
    exists t, t ∈ ts /\ ref t = Some n /\ upd t = true;
  i_len : 2 * Z.of_nat (length ts) < 2 ^ 20;
}.

Lemma inv_perm s ts ts' : Inv s ts -> ts ≡ₚ ts' -> Inv s ts'.
Proof.
  intros [] Hp. split; try done; intros; try rewrite <- !(total_perm _ _ _ Hp); eauto.
  - apply (i_ref0 t); [by rewrite Hp | done].
  - apply (i_del0 t); [by rewrite Hp | done].
  - destruct (i_updating0 n x) as (t & Ht & ?); [done..|]. exists t. by rewrite <- Hp.
  - by rewrite <- Hp.
Qed.

(** The size is not part of it. *)
Lemma inv_ext s s' ts : Inv s ts -> rbtree s' = rbtree s -> queue s' = queue s -> nodes s' = nodes s -> Inv s' ts.
Proof. destruct s, s'. cbn. intros [] -> -> ->. by split. Qed.

Lemma inv_key s ts n x : Inv s ts -> nodes s !! n = Some x -> key_ok (key x).
Proof.
  intros Hi Hx. assert (Hn : n ∈ inorder (rbtree s)).
  { rewrite (i_tree _ _ Hi). apply (i_nodes _ _ Hi). by eexists. }
  destruct (i_order _ _ Hi) as [Hf _]. rewrite list.Forall_forall in Hf. destruct (Hf n Hn) as [_ Hk].
  unfold key_of in Hk. by rewrite Hx in Hk.
Qed.

Lemma inv_count_range s ts n x : Inv s ts -> nodes s !! n = Some x -> 0 <= count x <= 2 * Z.of_nat (length ts).
Proof.
  intros Hi Hx. rewrite (i_count _ _ Hi _ _ Hx).
  pose proof (total_range (refs n) ts (refs_range n)). pose proof (total_range (dels n) ts (dels_range n)). lia.
Qed.

(** A node that somebody has is there. *)
Lemma no_refs s t ts n : Inv s (t :: ts) -> nodes s !! n = None ->
  refs n t = 0 /\ dels n t = 0 /\ total (refs n) ts = 0 /\ total (dels n) ts = 0.
Proof.
  intros Hi Hn.
  assert (H0 : forall u, u ∈ t :: ts -> refs n u = 0 /\ dels n u = 0).
  { intros u Hu. unfold refs, dels. split; case_decide as E; try done.
    - destruct (i_ref _ _ Hi u n Hu E) as (x & Hx & _). congruence.
    - destruct (i_del _ _ Hi u n Hu E). congruence. }
  destruct (H0 t) as [? ?]; [apply elem_of_cons; by left|].
  split_and!; [done..| |]; apply total_none; intros u Hu; apply H0; apply elem_of_cons; by right.
Qed.

(** A node is written to, and a token changes with it. *)
Lemma zone_put s t t' ts n x x' q z : Inv s (t :: ts) -> nodes s !! n = Some x -> key x' = key x ->
  count x' = count x + (refs n t' + dels n t') - (refs n t + dels n t) ->
  Z.b2z (deleting x') = Z.b2z (deleting x) + dels n t' - dels n t ->
  (forall m, m <> n -> (ref t' = Some m <-> ref t = Some m) /\ (del t' = Some m <-> del t = Some m)) ->
  (ref t' = Some n -> ref_key t' = key x) -> (forall m, m <> n -> ref t' = Some m -> ref_key t' = ref_key t) ->
  (updating x' = true -> updating x = true \/ (ref t' = Some n /\ upd t' = true)) ->
  (forall m, ref t = Some m -> upd t = true -> (ref t' = Some m /\ upd t' = true) \/ (m = n /\ updating x' = false)) ->
  q ≡ₚ queue s ->
  Inv (Sh (<[n := x']> (nodes s)) (rbtree s) q z) (t' :: ts).
Proof.
  intros Hi Hx Hk Hc Hd Ho Hrk Hrk' Hu Hclaim Hq.
  assert (Hs : forall m, is_Some (<[n := x']> (nodes s) !! m) <-> is_Some (nodes s !! m)).
  { intros m. destruct (decide (m = n)) as [->|Hm]; [rewrite lookup_insert_eq, Hx | by rewrite lookup_insert_ne].
    split; by eexists. }
  assert (Hoth : forall m, m <> n -> refs m t' = refs m t /\ dels m t' = dels m t).
  { intros m Hm. destruct (Ho m Hm). unfold refs, dels. split; apply decide_ext; done. }
  split; cbn.
  - rewrite Hq. apply Hi.
  - rewrite Hq. apply Hi.
  - intros m. rewrite Hq, Hs. apply Hi.
  - eapply in_order_ext; [|apply Hi]. intros m _. destruct (decide (m = n)) as [->|Hm];
      [rewrite lookup_insert_eq, Hx; cbn; by rewrite Hk | by rewrite lookup_insert_ne].
  - intros m y Hy. destruct (decide (m = n)) as [->|Hm].
    + rewrite lookup_insert_eq in Hy. simplify_eq. pose proof (i_count _ _ Hi _ _ Hx) as E. rewrite !total_cons in *. rewrite ?total_cons. lia.
    + rewrite lookup_insert_ne in Hy by done. rewrite !total_cons. destruct (Hoth m Hm) as [-> ->].
      pose proof (i_count _ _ Hi _ _ Hy) as E. rewrite !total_cons in *. rewrite ?total_cons. lia.
  - intros m y Hy. destruct (decide (m = n)) as [->|Hm].
    + rewrite lookup_insert_eq in Hy. simplify_eq. pose proof (i_deleting _ _ Hi _ _ Hx) as E. rewrite !total_cons in *. rewrite ?total_cons. lia.
    + rewrite lookup_insert_ne in Hy by done. rewrite !total_cons. destruct (Hoth m Hm) as [_ ->].
      pose proof (i_deleting _ _ Hi _ _ Hy) as E. rewrite !total_cons in *. rewrite ?total_cons. lia.
  - intros u m [->|Hut]%elem_of_cons Hr.
    + destruct (decide (m = n)) as [->|Hm]; [exists x'; rewrite lookup_insert_eq; split; [done|]; rewrite Hk; symmetry; by apply Hrk|].
      apply (Ho m Hm) in Hr as Hr'. destruct (i_ref _ _ Hi t m) as (y & Hy & Hky); [apply elem_of_cons; by left | done|].
      exists y. rewrite lookup_insert_ne by done. split; [done|]. by rewrite Hky, (Hrk' m).
    + destruct (i_ref _ _ Hi u m) as (y & Hy & Hky); [apply elem_of_cons; by right | done|].
      destruct (decide (m = n)) as [->|Hm]; [|exists y; by rewrite lookup_insert_ne].
      exists x'. rewrite lookup_insert_eq. split; [done|]. rewrite Hk. by simplify_eq.
  - intros u m [->|Hut]%elem_of_cons Hr; apply Hs.
    + destruct (decide (m = n)) as [->|Hm]; [by eexists|]. apply (Ho m Hm) in Hr.
      apply (i_del _ _ Hi t); [apply elem_of_cons; by left | done].
    + apply (i_del _ _ Hi u); [apply elem_of_cons; by right | done].
  - intros m y Hy Hup. destruct (decide (m = n)) as [->|Hm].
    + rewrite lookup_insert_eq in Hy. simplify_eq. destruct (Hu Hup) as [Hup'|[Hr Hup']].
      * destruct (i_updating _ _ Hi n x Hx Hup') as (u & [->|Hut]%elem_of_cons & Hru & Huu).
        -- destruct (Hclaim n Hru Huu) as [[??]|[_ ?]]; [|congruence]. exists t'. split; [apply elem_of_cons; by left | done].
        -- exists u. split; [apply elem_of_cons; by right | done].
      * exists t'. split; [apply elem_of_cons; by left | done].
    + rewrite lookup_insert_ne in Hy by done.
      destruct (i_updating _ _ Hi m y Hy Hup) as (u & [->|Hut]%elem_of_cons & Hru & Huu).
      * destruct (Hclaim m Hru Huu) as [[??]|[-> _]]; [|done]. exists t'. split; [apply elem_of_cons; by left | done].
      * exists u. split; [apply elem_of_cons; by right | done].
  - apply (i_len _ _ Hi).
Qed.

Section Steps.
Context `{CoreOk}.

Lemma elem_of_remove m n q : m ∈ queue_remove n q <-> m <> n /\ m ∈ q.
Proof. unfold queue_remove. by rewrite list_elem_of_filter. Qed.

(** A node that nobody has is freed. *)
Lemma inv_free s ts n x : Inv s ts -> nodes s !! n = Some x -> count x = 0 -> Inv (free_node n s) ts.
Proof.
  intros Hi Hx Hc. rewrite (i_count _ _ Hi _ _ Hx) in Hc.
  pose proof (total_range (refs n) ts (refs_range n)). pose proof (total_range (dels n) ts (dels_range n)).
  assert (Hr : forall t, t ∈ ts -> ref t <> Some n).
  { intros t Ht E. pose proof (total_zero (refs n) ts (refs_range n) ltac:(lia) t Ht) as E0. unfold refs in E0. by case_decide. }
  assert (Hd : forall t, t ∈ ts -> del t <> Some n).
  { intros t Ht E. pose proof (total_zero (dels n) ts (dels_range n) ltac:(lia) t Ht) as E0. unfold dels in E0. by case_decide. }
  split; cbn.
  - apply list.NoDup_filter, Hi.
  - rewrite rbtree_delete_order. unfold queue_remove. by rewrite (i_tree _ _ Hi).
  - intros m. rewrite elem_of_remove, (i_nodes _ _ Hi). destruct (decide (m = n)) as [->|Hm].
    + rewrite lookup_delete_eq. split; [by intros [? _] | by intros []].
    + rewrite lookup_delete_ne by done. split; [by intros [_ ?] | done].
  - rewrite rbtree_delete_order. eapply in_order_ext; [|apply in_order_filter, Hi].
    intros m [Hm _]%elem_of_remove. by rewrite lookup_delete_ne.
  - intros m y [Hm Hy]%lookup_delete_Some. by apply Hi.
  - intros m y [Hm Hy]%lookup_delete_Some. by apply Hi.
  - intros t m Ht Hrt. rewrite lookup_delete_ne; [by apply (i_ref _ _ Hi)|]. intros ->. by apply (Hr t).
  - intros t m Ht Hdt. rewrite lookup_delete_ne; [by apply (i_del _ _ Hi t)|]. intros ->. by apply (Hd t).
  - intros m y [Hm Hy]%lookup_delete_Some. by apply Hi.
  - apply Hi.
Qed.

(** New memory becomes a node. *)
Lemma inv_insert s t ts n k : Inv s (t :: ts) -> nodes s !! n = None -> key_ok k ->
  exists s', ngx_rbtree_insert n k s = Some s' /\ nodes s' = nodes s /\ queue s' = queue s /\
    forall x t' z, key x = k -> count x = refs n t' -> deleting x = false -> updating x = false ->
      (forall m, m <> n -> ref t' = Some m <-> ref t = Some m) -> del t' = del t ->
      (ref t' = Some n -> ref_key t' = k) -> (forall m, m <> n -> ref t' = Some m -> ref_key t' = ref_key t) ->
      (upd t = true -> upd t' = true) ->
      Inv (Sh (<[n := x]> (nodes s)) (rbtree s') (n :: queue s) z) (t' :: ts).
Proof.
  intros Hi Hn Hk. destruct (no_refs _ _ _ _ Hi Hn) as (R1 & R2 & R3 & R4).
  assert (Hq : n ∉ queue s). { rewrite (i_nodes _ _ Hi), Hn. by intros []. }
  assert (Ht : n ∉ inorder (rbtree s)) by by rewrite (i_tree _ _ Hi).
  destruct (insert_spec (nodes s) n k (rbtree s) (Node k 0 0 0 0 false false false 0 0 0 0 0) (i_order _ _ Hi) Hk Ht eq_refl)
    as (t1 & E & Hp & Hord).
  unfold ngx_rbtree_insert. rewrite E. cbn [mbind option_bind]. eexists. split_and!; [done..|].
  intros x t' z Hkx Hc Hd Hu Ho Hdel Hrk Hrk' Hup.
  assert (Hoth : forall m, m <> n -> refs m t' = refs m t /\ dels m t' = dels m t).
  { intros m Hm. specialize (Ho m Hm). unfold refs, dels. rewrite Hdel. split; apply decide_ext; done. }
  assert (Hdn : dels n t' = 0) by (unfold dels in *; by rewrite Hdel).
  assert (Hlook : forall m y, <[n := x]> (nodes s) !! m = Some y ->
    (m = n /\ y = x) \/ (m <> n /\ nodes s !! m = Some y)).
  { intros m y. destruct (decide (m = n)) as [->|]; [rewrite lookup_insert_eq | rewrite lookup_insert_ne by done]; [intros [= ->]; by left | by right]. }
  split; cbn [queue rbtree nodes size set_field set_rbtree].
  - apply list.NoDup_cons. split; [done | apply Hi].
  - rewrite rebalance_order, Hp. by rewrite (i_tree _ _ Hi).
  - intros m. rewrite elem_of_cons, (i_nodes _ _ Hi). destruct (decide (m = n)) as [->|Hm].
    + rewrite lookup_insert_eq. split; [by eexists | by left].
    + rewrite lookup_insert_ne by done. split; [by intros [?|?] | by right].
  - rewrite rebalance_order. eapply in_order_ext; [|exact Hord]. intros m _.
    destruct (decide (m = n)) as [->|Hm]; [rewrite !lookup_insert_eq; cbn; by rewrite Hkx | by rewrite !lookup_insert_ne].
  - intros m y [[-> ->]|[Hm Hy]]%Hlook; rewrite !total_cons; [lia|]. destruct (Hoth m Hm) as [-> ->].
    pose proof (i_count _ _ Hi _ _ Hy) as Ec. rewrite !total_cons in Ec. lia.
  - intros m y [[-> ->]|[Hm Hy]]%Hlook; rewrite !total_cons; [rewrite Hd; cbn; lia|]. destruct (Hoth m Hm) as [_ ->].
    pose proof (i_deleting _ _ Hi _ _ Hy) as Ec. rewrite !total_cons in Ec. lia.
  - intros u m [->|Hut]%elem_of_cons Hr.
    + destruct (decide (m = n)) as [->|Hm]; [exists x; rewrite lookup_insert_eq, Hrk; done|].
      apply (Ho m Hm) in Hr as Hr'. destruct (i_ref _ _ Hi t m) as (y & Hy & Hky); [apply elem_of_cons; by left | done|].
      exists y. rewrite lookup_insert_ne by done. split; [done|]. by rewrite Hky, (Hrk' m).
    + destruct (i_ref _ _ Hi u m) as (y & Hy & Hky); [apply elem_of_cons; by right | done|].
      exists y. rewrite lookup_insert_ne; [done|]. congruence.
  - intros u m [->|Hut]%elem_of_cons Hr.
    + rewrite Hdel in Hr. destruct (i_del _ _ Hi t m) as [y Hy]; [apply elem_of_cons; by left | done|].
      rewrite lookup_insert_ne; [by eexists | congruence].
    + destruct (i_del _ _ Hi u m) as [y Hy]; [apply elem_of_cons; by right | done|].
      rewrite lookup_insert_ne; [by eexists | congruence].
  - intros m y [[-> ->]|[Hm Hy]]%Hlook Hup'; [congruence|].
    destruct (i_updating _ _ Hi m y Hy Hup') as (u & [->|Hut]%elem_of_cons & Hru & Huu).
    + exists t'. split; [apply elem_of_cons; by left|]. split; [by apply Ho | by apply Hup].
    + exists u. split; [apply elem_of_cons; by right | done].
  - apply (i_len _ _ Hi).
Qed.
End Steps.

End FileCacheFacts.
