(* ===== verification/FileCacheSteps.v ===== *)
(** * The operations of the file cache keep its invariant

    Each operation of a request, of the manager and of the loader in the logic
    of [Zones]: from the token of what the process has to the token of what it
    has then, whatever the others do while the mutex is free. *)

From stdpp Require Import gmap.
From stdpp Require Import gmap relations.
From S2P Require Import Prelude Zones FileCache FileCacheTree.
Import Zones.Zones FileCache.FileCache FileCacheTree.FileCacheTree FileCacheFacts.

Module FileCacheSteps.

(** ** What a request has *)

Definition no_token : token := Token None [] false None.
Definition token_of (c : ngx_http_cache_t) : token :=
  match c_node c with
  | Some n => if c_updated c then no_token else Token (Some n) (c_key c) (c_updating c) None
  | None => no_token
  end.

Lemma token_some c n : c_updated c = false -> c_node c = Some n -> token_of c = Token (Some n) (c_key c) (c_updating c) None.
Proof. intros Hu Hn. unfold token_of. by rewrite Hn, Hu. Qed.

Lemma token_none c : c_updated c = true \/ c_node c = None -> token_of c = no_token.
Proof. intros [E|E]; unfold token_of; rewrite E; [by destruct (c_node c) | done]. Qed.

Lemma token_del c : del (token_of c) = None.
Proof. unfold token_of. by destruct (c_node c), (c_updated c). Qed.

Record wf (c : ngx_http_cache_t) : Prop := {
  wf_key : key_ok (c_key c);
  wf_buf : c_buf c = true -> c_updated c = false -> is_Some (c_node c);
  wf_timer : c_timer c <> None -> c_waiting c = true /\ c_updated c = false /\ is_Some (c_node c);
  wf_updating : c_updating c = true -> c_updated c = false /\ is_Some (c_node c);
}.

(** [c'] is [c], as far as that goes, with the node [n]. *)
Definition kept (c c' : ngx_http_cache_t) : Prop :=
  c_key c' = c_key c /\ c_buf c' = c_buf c /\ c_updated c' = c_updated c /\ c_timer c' = c_timer c
  /\ c_waiting c' = c_waiting c /\ c_updating c' = c_updating c.

Lemma kept_refl c : kept c c.
Proof. done. Qed.

Lemma kept_trans c c1 c2 : kept c c1 -> kept c1 c2 -> kept c c2.
Proof. unfold kept. intuition congruence. Qed.

Lemma kept_wf c c' : kept c c' -> (c_node c' = c_node c \/ is_Some (c_node c')) -> wf c -> wf c'.
Proof.
  intros (Hk & Hb & Hu & Ht & Hw & Hup) Hn []. split; rewrite ?Hk, ?Hb, ?Hu, ?Ht, ?Hw, ?Hup.
  - done.
  - destruct Hn as [->|Hn]; [done | by intros].
  - intros H. destruct (wf_timer0 H) as (? & ? & ?). split_and!; [done..|]. by destruct Hn as [->|].
  - intros H. destruct (wf_updating0 H) as (? & ?). split; [done|]. by destruct Hn as [->|].
Qed.

Lemma kept_token c c' : kept c c' -> c_node c' = c_node c -> token_of c' = token_of c.
Proof. intros (Hk & Hb & Hu & Ht & Hw & Hup) Hn. unfold token_of. by rewrite Hn, Hu, Hk, Hup. Qed.

Lemma remove_perm n q : NoDup q -> n ∈ q -> n :: queue_remove n q ≡ₚ q.
Proof.
  intros Hq Hn. apply NoDup_Permutation; [|done|].
  - apply list.NoDup_cons. split; [by rewrite elem_of_remove; intros [? _] | by apply list.NoDup_filter].
  - intros m. rewrite elem_of_cons, elem_of_remove. destruct (decide (m = n)) as [->|Hm].
    + split; [done | by left].
    + split; [by intros [?|[_ ?]] | by right].
Qed.

Section Cache.
Context `{CoreOk}.
Abbreviation wp := (wp Inv).
Abbreviation mode := (@mode ngx_http_file_cache_sh_t token).

(** ** Deleting a node *)

Lemma delete_begin_ok s ts t n x : Inv s (t :: ts) -> del t = None -> nodes s !! n = Some x -> count x = 0 ->
  exists s' name, delete_begin n s = Some (s', name) /\
    match name with
    | Some _ => Inv s' (Token (ref t) (ref_key t) (upd t) (Some n) :: ts)
    | None => s' = s
    end.
Proof.
  intros Hi Ht Hx Hc. unfold delete_begin. rewrite Hx. cbn [mbind option_bind].
  destruct (exists_ x) eqn:Ex; [|by exists s, None]. eexists _, (Some _). split; [done|].
  assert (Hz : dels n t = 0) by (unfold dels; rewrite Ht; by case_decide).
  assert (Ho : dels n (Token (ref t) (ref_key t) (upd t) (Some n)) = 1) by (unfold dels; cbn; by case_decide).
  assert (Hr : refs n (Token (ref t) (ref_key t) (upd t) (Some n)) = refs n t) by done.
  assert (Hd : deleting x = false).
  { pose proof (i_deleting _ _ Hi _ _ Hx) as Ed. pose proof (i_count _ _ Hi _ _ Hx) as Ec.
    pose proof (total_range (refs n) (t :: ts) (refs_range n)). destruct (deleting x); cbn in Ed; lia. }
  eapply (zone_put s t _ ts n x); try done; cbn.
  - rewrite Hr, Ho, Hz, Hc. change (wrap 20 (0 + 1)) with 1. lia.
  - rewrite Hd, Ho, Hz. done.
  - intros m Hm. split; [done|]. rewrite Ht. split; congruence.
  - intros E. destruct (i_ref _ _ Hi t n) as (y & Hy & Hk); [apply elem_of_cons; by left | done|]. congruence.
  - tauto.
  - intros m ? ?. by left.
Qed.

Lemma delete_rest_ok s ts t n : Inv s (Token (ref t) (ref_key t) (upd t) (Some n) :: ts) -> del t = None ->
  exists s1 s2, delete_again n s = Some (s1, tt) /\ delete_end n s1 = Some (s2, tt) /\ Inv s2 (t :: ts).
Proof.
  intros Hi Ht. set (t1 := Token (ref t) (ref_key t) (upd t) (Some n)) in *.
  destruct (i_del _ _ Hi t1 n) as [x Hx]; [apply elem_of_cons; by left | done|].
  unfold delete_again, delete_end. rewrite Hx. cbn [mbind option_bind]. set (x1 := x <| count := _ |> <| deleting := false |>).
  assert (Hz : dels n t = 0) by (unfold dels; rewrite Ht; by case_decide).
  assert (Ho : dels n t1 = 1) by (unfold dels; cbn; by case_decide).
  assert (Hr : refs n t1 = refs n t) by done.
  pose proof (i_count _ _ Hi _ _ Hx) as Ec. rewrite !total_cons in Ec.
  pose proof (total_range (refs n) ts (refs_range n)). pose proof (total_range (dels n) ts (dels_range n)).
  pose proof (refs_range n t1). pose proof (inv_count_range _ _ _ _ Hi Hx) as Hrange. pose proof (i_len _ _ Hi).
  assert (Hc1 : count x1 = count x - 1). { cbn. apply wrap_small. cbn [length] in *. lia. }
  assert (Hd : deleting x = true).
  { pose proof (i_deleting _ _ Hi _ _ Hx) as Ed. rewrite total_cons in Ed. destruct (deleting x); [done|]. cbn in Ed. lia. }
  assert (Hput : Inv (put n x1 s) (t :: ts)).
  { eapply (zone_put s t1 t ts n x x1); try done.
    - rewrite Hc1, Hr, Ho, Hz. lia.
    - rewrite Hd, Ho, Hz. done.
    - intros m Hm. split; [done|]. rewrite Ht. cbn. split; congruence.
    - intros E. destruct (i_ref _ _ Hi t1 n) as (y & Hy & Hk); [apply elem_of_cons; by left | done|]. cbn in Hk. congruence.
    - by left.
    - intros m ? ?. by left. }
  assert (Hn : nodes (put n x1 s) !! n = Some x1) by apply lookup_insert_eq.
  eexists (put n x1 s), _. split; [done|]. rewrite Hn. cbn [mbind option_bind]. split; [done|].
  destruct (Z.eqb_spec (count x1) 0) as [E|E]; [by apply (inv_free _ _ n x1) | done].
Qed.

(** The node [n], that nobody has, is gone or is somebody's again. *)
Lemma wp_delete n s ts t x (Q : unit -> mode -> Prop) : Inv s (t :: ts) -> del t = None -> nodes s !! n = Some x ->
  count x = 0 -> (forall s' ts', Inv s' (t :: ts') -> Q tt (Held s' ts')) ->
  wp (ngx_http_file_cache_delete n) (Held s ts) Q.
Proof.
  intros Hi Ht Hx Hc HQ. destruct (delete_begin_ok s ts t n x Hi Ht Hx Hc) as (s1 & name & E & H1).
  unfold ngx_http_file_cache_delete. apply wp_bind. eapply wp_zone; [exact E|]. apply wp_bind. destruct name as [name|].
  - apply wp_bind. eapply wp_unlock; [exact H1|]. apply wp_bind, wp_call. intros _. apply wp_bind, wp_lock.
    intros s2 ts2 H2. destruct (delete_rest_ok s2 ts2 t n H2 Ht) as (s3 & s4 & E3 & E4 & H4).
    eapply wp_zone; [exact E3|]. eapply wp_zone; [exact E4|]. by apply HQ.
  - subst s1. cbn. exists (free_node n s), tt. unfold delete_end. rewrite Hx. cbn [mbind option_bind]. rewrite Hc. cbn.
    split; [done|]. apply HQ. by eapply inv_free.
Qed.

Lemma scan_ok m tries q : (forall n, n ∈ q -> is_Some (m !! n)) ->
  exists v, scan m tries q = Some v /\
    match v with inl n => n ∈ q /\ exists x, m !! n = Some x /\ count x = 0 | inr _ => True end.
Proof.
  revert tries. induction q as [|n q IH]; intros tries Hq; cbn; [by eexists|].
  destruct (Hq n) as [x Hx]; [apply elem_of_cons; by left|]. rewrite Hx. cbn.
  destruct (Z.eqb_spec (count x) 0).
  { eexists. split; [done|]. split; [apply elem_of_cons; by left | by eexists]. }
  destruct (negb _); [|by eexists].
  destruct (IH (tries - 1)) as (v & -> & Hv); [intros; apply Hq; apply elem_of_cons; by right|].
  eexists. split; [done|]. destruct v; [|done]. destruct Hv. split; [apply elem_of_cons; by right | done].
Qed.

Lemma wp_forced_expire t : del t = None ->
  wp ngx_http_file_cache_forced_expire (Free t) (fun _ m => m = Free t).
Proof.
  intros Ht. unfold ngx_http_file_cache_forced_expire. apply wp_bind, wp_call. intros [|]; cbn [negb]; [|done].
  apply wp_bind, wp_lock. intros s ts Hi.
  destruct (scan_ok (nodes s) 20 (rev (queue s))) as (v & E & Hv).
  { intros n Hn. apply (i_nodes _ _ Hi). rewrite list_elem_of_In, <- in_rev, <- list_elem_of_In in Hn. done. }
  apply wp_bind. eapply wp_zone; [by rewrite E|]. apply wp_bind. destruct v as [n|wait].
  - destruct Hv as (_ & x & Hx & Hc). apply wp_bind. eapply wp_delete; [done..|]. intros s' ts' H'.
    by exists t.
  - cbn. by exists t.
Qed.

(** ** Getting a node *)

(** [exists_found] writes one node and moves it to the head of the queue. *)
Lemma exists_found_writes now n c s x : nodes s !! n = Some x ->
  exists x' rc c', exists_found now n c s
    = Some (Sh (<[n := x']> (nodes s)) (rbtree s) (n :: queue_remove n (queue s)) (size s), (rc, c'))
  /\ rc <> NGX_ERROR /\ kept c c' /\ c_node c' = Some n
  /\ key x' = key x /\ deleting x' = deleting x /\ updating x' = updating x
  /\ count x' = match c_node c with None => wrap 20 (count x + 1) | Some _ => count x end.
Proof.
  intros Hx. unfold exists_found. rewrite Hx. cbn [mbind option_bind].
  set (s1 := s <| queue := _ |>). set (x1 := match c_node c with None => _ | _ => _ end).
  assert (Hx1 : key x1 = key x /\ deleting x1 = deleting x /\ updating x1 = updating x
                /\ count x1 = match c_node c with None => wrap 20 (count x + 1) | Some _ => count x end).
  { unfold x1. by destruct (c_node c). }
  assert (Hdone : forall rc c1 x2, rc <> NGX_ERROR -> kept c c1 ->
    key x2 = key x1 -> deleting x2 = deleting x1 -> updating x2 = updating x1 -> count x2 = count x1 ->
    exists x' rc' c', exists_done now n rc c1 (put n x2 s1)
      = Some (Sh (<[n := x']> (nodes s)) (rbtree s) (n :: queue_remove n (queue s)) (size s), (rc', c'))
    /\ rc' <> NGX_ERROR /\ kept c c' /\ c_node c' = Some n
    /\ key x' = key x /\ deleting x' = deleting x /\ updating x' = updating x
    /\ count x' = match c_node c with None => wrap 20 (count x + 1) | Some _ => count x end).
  { intros rc c1 x2 Hrc Hc1 H1 H2 H3 H4. unfold exists_done.
    assert (Hn : nodes (put n x2 s1) !! n = Some x2) by apply lookup_insert_eq. rewrite Hn. cbn [mbind option_bind].
    eexists (x2 <| expire := now + inactive |>), rc, _. split.
    { unfold put. cbn. by rewrite insert_insert_eq. }
    destruct Hx1 as (<- & <- & <- & <-). done. }
  destruct (negb (error x1 =? 0)); [destruct (valid_sec x1 <? now); by apply Hdone|].
  destruct (exists_ x1 || _); [|by apply Hdone]. apply Hdone; try done. by destruct (body_start x1 =? 0).
Qed.

Lemma exists_found_ok now n c s ts x : Inv s (token_of c :: ts) -> wf c -> c_updated c = false ->
  nodes s !! n = Some x -> key x = c_key c -> (c_node c = None \/ c_node c = Some n) ->
  exists s' rc c', exists_found now n c s = Some (s', (rc, c')) /\ rc <> NGX_ERROR /\ kept c c' /\ c_node c' = Some n
    /\ Inv s' (token_of c' :: ts).
Proof.
  intros Hi Hwf Hup Hx Hk Hn. destruct (exists_found_writes now n c s x Hx) as (x' & rc & c' & E & Hrc & Hkept & Hn' & K1 & K2 & K3 & K4).
  eexists _, rc, c'. split; [exact E|]. split_and!; [done..|].
  assert (Hq : n ∈ queue s) by (apply (i_nodes _ _ Hi); by eexists).
  pose proof (inv_count_range _ _ _ _ Hi Hx) as Hrange. pose proof (i_len _ _ Hi) as Hlen. cbn [length] in *.
  pose proof Hkept as (E1 & _ & E3 & _ & _ & E6).
  assert (Ht' : token_of c' = Token (Some n) (c_key c) (c_updating c) None).
  { rewrite (token_some c' n) by congruence. by rewrite E1, E6. }
  assert (Hno : c_node c = None -> c_updating c = false).
  { intros En. destruct (c_updating c) eqn:Eu; [|done]. apply (wf_updating _ Hwf) in Eu as [_ []]. congruence. }
  rewrite Ht'. destruct Hn as [Hn|Hn].
  - rewrite token_none in Hi by by right. rewrite Hn in K4. rewrite wrap_small in K4 by lia.
    eapply (zone_put s no_token _ ts n x x'); try done; cbn.
    + rewrite K4. unfold refs, dels. cbn. repeat case_decide; done || lia.
    + rewrite K2. unfold dels. cbn. repeat case_decide; lia.
    + intros m Hm. split; [split; congruence | done].
    + congruence.
    + rewrite K3. by left.
    + by apply remove_perm; [apply Hi|].
  - rewrite (token_some c n) in Hi by done. rewrite Hn in K4.
    eapply (zone_put s (Token (Some n) (c_key c) (c_updating c) None) _ ts n x x'); try done; cbn.
    + rewrite K4. lia.
    + rewrite K2. lia.
    + rewrite K3. by left.
    + intros m ? ?. by left.
    + by apply remove_perm; [apply Hi|].
Qed.

Lemma exists_new_ok now n c s ts : Inv s (token_of c :: ts) -> wf c -> c_updated c = false -> c_node c = None ->
  nodes s !! n = None ->
  exists s' rc c', exists_new now n c s = Some (s', (rc, c')) /\ rc <> NGX_ERROR /\ kept c c' /\ c_node c' = Some n
    /\ Inv s' (token_of c' :: ts).
Proof.
  intros Hi Hwf Hup Hn Hx. destruct (inv_insert s (token_of c) ts n (c_key c) Hi Hx (wf_key _ Hwf)) as (s1 & E & E1 & E2 & Hins).
  unfold exists_new. rewrite E. cbn [mbind option_bind]. unfold exists_done.
  set (x0 := renew _). assert (Hn0 : nodes (put n x0 s1) !! n = Some x0) by apply lookup_insert_eq.
  rewrite Hn0. cbn [mbind option_bind]. eexists _, NGX_DECLINED, _. split; [done|]. split_and!; [done..|].
  assert (Hno : c_updating c = false).
  { destruct (c_updating c) eqn:Eu; [|done]. apply (wf_updating _ Hwf) in Eu as [_ []]. congruence. }
  unfold put at 1. cbn [set_field set_nodes set_queue nodes rbtree queue size]. unfold put. cbn [nodes set_field set_nodes].
  rewrite insert_insert_eq, E1. cbn [rbtree queue size]. rewrite E2.
  rewrite (token_none c) in Hins by by right. set (c' := c <| c_uniq := _ |> <| c_error := _ |> <| c_node := _ |>).
  rewrite (token_some c' n) by done. apply Hins; try done; cbn.
  - unfold refs. cbn. by case_decide.
  - intros m Hm. split; congruence.
  - congruence.
Qed.

Lemma lookup_ok s ts k : Inv s ts -> key_ok k ->
  exists o, ngx_http_file_cache_lookup k s = Some o /\
    match o with Some n => exists x, nodes s !! n = Some x /\ key x = k | None => True end.
Proof.
  intros Hi Hk. destruct (lookup_spec (nodes s) k (rbtree s) (i_order _ _ Hi) Hk) as (o & E & Ho).
  exists o. split; [done|]. destruct o as [n|]; [|done]. destruct Ho as [Hn Hkn].
  rewrite (i_tree _ _ Hi), (i_nodes _ _ Hi) in Hn. destruct Hn as [x Hx]. exists x. unfold key_of in Hkn. by rewrite Hx in Hkn.
Qed.

(** What a request has after asking for its node. *)
Definition asked (c : ngx_http_cache_t) (r : ngx_rc * ngx_http_cache_t) (m : mode) : Prop :=
  m = Free (token_of r.2) /\ kept c r.2 /\ (is_Some (c_node r.2) \/ r = (NGX_ERROR, c)).

Lemma wp_found now n c s ts x (Q : ngx_rc * ngx_http_cache_t -> mode -> Prop) : Inv s (token_of c :: ts) -> wf c ->
  c_updated c = false -> nodes s !! n = Some x -> key x = c_key c -> (c_node c = None \/ c_node c = Some n) ->
  (forall r, asked c r (Free (token_of r.2)) -> Q r (Free (token_of r.2))) ->
  wp (r ← sec (exists_found now n c); shmtx_unlock;; ret r) (Held s ts) Q.
Proof.
  intros Hi Hwf Hup Hx Hk Hn HQ.
  destruct (exists_found_ok now n c s ts x) as (s' & rc & c' & E & Hrc & Hkept & Hn' & Hi'); [done..|].
  cbn. exists s', (rc, c'). split; [exact E|]. exists (token_of c'). split; [done|].
  apply (HQ (rc, c')). split_and!; [done..|]. left. by eexists.
Qed.

Lemma wp_new now n c s ts (Q : ngx_rc * ngx_http_cache_t -> mode -> Prop) : Inv s (token_of c :: ts) -> wf c ->
  c_updated c = false -> c_node c = None -> nodes s !! n = None ->
  (forall r, asked c r (Free (token_of r.2)) -> Q r (Free (token_of r.2))) ->
  wp (r ← sec (exists_new now n c); shmtx_unlock;; ret r) (Held s ts) Q.
Proof.
  intros Hi Hwf Hup Hn Hx HQ.
  destruct (exists_new_ok now n c s ts) as (s' & rc & c' & E & Hrc & Hkept & Hn' & Hi'); [done..|].
  cbn. exists s', (rc, c'). split; [exact E|]. exists (token_of c'). split; [done|].
  apply (HQ (rc, c')). split_and!; [done..|]. left. by eexists.
Qed.

Lemma wp_exists c : wf c -> c_updated c = false ->
  wp (ngx_http_file_cache_exists c) (Free (token_of c)) (asked c).
Proof.
  intros Hwf Hup. unfold ngx_http_file_cache_exists. apply wp_bind, wp_call. intros now.
  apply wp_bind, wp_lock. intros s ts Hi. apply wp_bind.
  assert (Hasked : forall r, asked c r (Free (token_of r.2)) -> asked c r (Free (token_of r.2))) by done.
  destruct (c_node c) as [n|] eqn:En.
  { destruct (i_ref _ _ Hi (token_of c) n) as (x & Hx & Hk); [apply elem_of_cons; by left | by rewrite (token_some c n)|].
    rewrite (token_some c n) in Hk by done.
    cbn [Zones.wp]. eapply (wp_found now n c s ts x); eauto. }
  destruct (lookup_ok s _ (c_key c) Hi (wf_key _ Hwf)) as (o & E & Ho). eapply wp_zone; [by rewrite E|].
  destruct o as [n|].
  { destruct Ho as (x & Hx & Hk). eapply (wp_found now n c s ts x); eauto. }
  apply wp_bind, wp_bind. eapply wp_zone; [done|]. destruct (ngx_slab_alloc_locked s) as [n|] eqn:Ea.
  { apply slab_fresh in Ea. apply wp_unbind. eapply (wp_new now n c s ts); eauto. }
  apply wp_bind. eapply wp_unlock; [exact Hi|]. apply wp_bind.
  eapply wp_mono; [apply wp_forced_expire, token_del|]. intros _ m ->. apply wp_bind, wp_lock. intros s2 ts2 H2.
  apply wp_bind. eapply wp_zone; [done|]. destruct (ngx_slab_alloc_locked s2) as [n|] eqn:Ea2.
  { apply slab_fresh in Ea2. apply wp_unbind. eapply (wp_new now n c s2 ts2); eauto. }
  cbn. exists (token_of c). split; [done|]. split_and!; [done..|]. by right.
Qed.

Lemma wp_name c t : wp (ngx_http_file_cache_name c) (Free t)
  (fun r m => m = Free t /\ kept c r.2 /\ c_node r.2 = c_node c).
Proof.
  unfold ngx_http_file_cache_name. destruct (negb _); [done|]. apply wp_bind, wp_call. by intros [|].
Qed.

(** The end of an operation. *)
Definition done_with (c : ngx_http_cache_t) (m : mode) : Prop := m = Free (token_of c) /\ wf c.

Lemma asked_done c r m : wf c -> asked c r m -> done_with r.2 m.
Proof.
  intros Hwf (-> & Hk & Hn). split; [done|]. destruct Hn as [Hn| ->]; [|done]. eapply kept_wf; eauto.
Qed.

Lemma wp_create c : wf c -> c_updated c = false ->
  wp (ngx_http_file_cache_create c) (Free (token_of c)) (fun r => done_with r.2).
Proof.
  intros Hwf Hup. unfold ngx_http_file_cache_create. apply wp_bind, wp_call. intros [|]; cbn [negb]; [|done].
  apply wp_bind. eapply wp_mono; [by apply wp_exists|]. intros r m Ha.
  pose proof (asked_done _ _ _ Hwf Ha) as Hd. case_bool_decide; [done|]. apply wp_bind.
  destruct Hd as [-> Hd]. eapply wp_mono; [apply wp_name|]. intros r2 m2 (-> & Hk & Hn). cbn.
  split; [f_equal; symmetry; by apply kept_token | eapply kept_wf; eauto].
Qed.

(** ** Updating *)

(** The node of a request in progress. *)
Lemma own_node c n s ts : Inv s (token_of c :: ts) -> c_updated c = false -> c_node c = Some n ->
  exists x, nodes s !! n = Some x.
Proof.
  intros Hi Hup Hn. destruct (i_ref _ _ Hi (token_of c) n) as (x & Hx & _);
    [apply elem_of_cons; by left | by rewrite (token_some c n) | by exists x].
Qed.

(** A write to that node that leaves what the invariant is about. *)
Lemma inv_write c c' n s ts x x' z : Inv s (token_of c :: ts) -> c_updated c = false -> c_node c = Some n ->
  nodes s !! n = Some x -> key x' = key x -> count x' = count x -> deleting x' = deleting x ->
  c_key c' = c_key c -> c_updated c' = false -> c_node c' = Some n ->
  (updating x' = true -> updating x = true \/ c_updating c' = true) ->
  (c_updating c = true -> c_updating c' = true \/ updating x' = false) ->
  Inv (Sh (<[n := x']> (nodes s)) (rbtree s) (queue s) z) (token_of c' :: ts).
Proof.
  intros Hi Hup Hn Hx Hk Hc Hd K1 K2 K3 H1 H2. rewrite (token_some c n) in Hi by done.
  rewrite (token_some c' n) by done. rewrite K1.
  destruct (i_ref _ _ Hi (Token (Some n) (c_key c) (c_updating c) None) n) as (y & Hy & Hky); [apply elem_of_cons; by left | done|]. cbn in Hky. simplify_eq.
  eapply (zone_put s _ _ ts n x x'); try done; cbn.
  - rewrite Hc. unfold refs, dels. cbn. repeat case_decide; lia.
  - rewrite Hd. unfold dels. cbn. repeat case_decide; lia.
  - intros E. destruct (H1 E); [by left | by right].
  - intros m [= <-] E. destruct (H2 E); [by left | by right].
Qed.

Definition marked (c : ngx_http_cache_t) (mine : bool) : ngx_http_cache_t :=
  if mine then c <| c_updating := true |> else c.

Lemma take_update_ok c s ts : Inv s (token_of c :: ts) -> c_updated c = false -> is_Some (c_node c) ->
  exists s' mine, take_update c s = Some (s', mine) /\ Inv s' (token_of (marked c mine) :: ts).
Proof.
  intros Hi Hup [n Hn]. destruct (own_node c n s ts Hi Hup Hn) as [x Hx]. unfold take_update.
  rewrite Hn. cbn [mbind option_bind]. rewrite Hx. cbn [mbind option_bind].
  destruct (updating x) eqn:Eu; [by exists s, false|]. eexists _, true. split; [done|].
  eapply (inv_write c _ n s ts x); try done; intros; by (left + right).
Qed.

Lemma marked_wf c mine : wf c -> c_updated c = false -> is_Some (c_node c) -> wf (marked c mine).
Proof. intros [] Hup Hn. destruct mine; split; try done. Qed.

Lemma read_cold_ok c s ts : Inv s (token_of c :: ts) -> c_updated c = false -> is_Some (c_node c) ->
  exists s', read_cold c s = Some (s', tt) /\ Inv s' (token_of c :: ts).
Proof.
  intros Hi Hup [n Hn]. destruct (own_node c n s ts Hi Hup Hn) as [x Hx]. unfold read_cold.
  rewrite Hn. cbn [mbind option_bind]. rewrite Hx. cbn [mbind option_bind].
  destruct (exists_ x); [by exists s|]. eexists. split; [done|].
  eapply (inv_write c c n s ts x); try done; cbn; by (left + right).
Qed.

Lemma wp_aio_read c t : wp (ngx_http_file_cache_aio_read c) (Free t)
  (fun r m => m = Free t /\ kept c r.2 /\ c_node r.2 = c_node c).
Proof. unfold ngx_http_file_cache_aio_read. destruct aio; apply wp_bind, wp_call; [by intros [[]|]|done]. Qed.

Lemma wp_read c : wf c -> c_updated c = false -> is_Some (c_node c) ->
  wp (ngx_http_file_cache_read c) (Free (token_of c)) (fun r => done_with r.2).
Proof.
  intros Hwf Hup Hn. unfold ngx_http_file_cache_read. apply wp_bind.
  eapply wp_mono; [apply wp_aio_read|]. intros [b c1] m (-> & Hk & Hn1). cbn [fst snd] in *.
  assert (Hwf1 : wf c1) by (eapply kept_wf; eauto).
  rewrite <- (kept_token c c1 Hk Hn1). destruct b as [rc|b]; [done|].
  destruct (_ <? _); [done|]. destruct (negb _); [done|]. destruct (_ <? _); [done|].
  set (c2 := c1 <| c_valid_sec := _ |> <| c_last_modified := _ |> <| c_date := _ |> <| c_valid_msec := _ |>
    <| c_header_start := _ |> <| c_body_start := _ |> <| r_cached := _ |>).
  assert (Hk2 : kept c1 c2) by done. assert (Hn2 : c_node c2 = c_node c1) by done.
  assert (Hwf2 : wf c2) by (eapply kept_wf; eauto).
  assert (Hup2 : c_updated c2 = false) by (destruct Hk as (_ & _ & E & _); cbn; congruence).
  assert (Hs2 : is_Some (c_node c2)) by (by rewrite Hn2, Hn1).
  rewrite <- (kept_token c1 c2 Hk2 Hn2). clearbody c2. clear Hk2 Hn2 Hwf1 Hk Hn1 c1 Hwf Hup Hn c.
  apply wp_bind, wp_atomic. intros w. apply wp_bind.
  eapply (wp_mono _ _ _ (fun _ m => m = Free (token_of c2))).
  { destruct (cold _); [|done]. cbn. intros s ts Hi. destruct (read_cold_ok c2 s ts) as (s' & E & Hi'); [done..|].
    exists s', tt. split; [done|]. by exists (token_of c2). }
  intros _ m ->. apply wp_bind, wp_call. intros now. destruct (_ <? _); [|done].
  apply wp_bind, wp_lock. intros s ts Hi. destruct (take_update_ok c2 s ts) as (s' & mine & E & Hi'); [done..|].
  apply wp_bind. eapply wp_zone; [exact E|]. apply wp_bind. eapply wp_unlock; [exact Hi'|].
  pose proof (marked_wf c2 mine Hwf2 Hup2 Hs2). by destruct mine.
Qed.

Lemma wp_cache_lock c : wf c -> c_updated c = false -> is_Some (c_node c) ->
  wp (ngx_http_file_cache_lock c) (Free (token_of c)) (fun r => done_with r.2).
Proof.
  intros Hwf Hup Hn. unfold ngx_http_file_cache_lock. destruct (negb _); [done|].
  apply wp_bind, wp_lock. intros s ts Hi. destruct (take_update_ok c s ts) as (s' & mine & E & Hi'); [done..|].
  apply wp_bind. eapply wp_zone; [exact E|]. apply wp_bind. eapply wp_unlock; [exact Hi'|]. fold (marked c mine).
  pose proof (marked_wf c mine Hwf Hup Hn) as Hwf'.
  assert (Hn' : is_Some (c_node (marked c mine))) by (by destruct mine).
  assert (Hup' : c_updated (marked c mine) = false) by (by destruct mine).
  generalize dependent (marked c mine). intros c1 _ Hwf1 Hn1 Hup1. destruct (c_updating c1) eqn:Eu; [done|].
  apply wp_bind, wp_call. intros now. destruct Hwf1. cbn. split.
  - unfold token_of. by destruct (c_wait_time c1 =? 0).
  - split; destruct (c_wait_time c1 =? 0); cbn; try done; congruence.
Qed.

Lemma wp_open_file c rv : wf c -> c_updated c = false -> is_Some (c_node c) ->
  wp (open_file c rv) (Free (token_of c)) (fun r => done_with r.2).
Proof.
  intros Hwf Hup Hn. unfold open_file. apply wp_bind, wp_call.
  assert (Hdone : wp (if bool_decide (rv = NGX_DECLINED) then ngx_http_file_cache_lock c else ret (rv, c))
    (Free (token_of c)) (fun r => done_with r.2)) by (case_bool_decide; [by apply wp_cache_lock | done]).
  intros [[]|u sz fs]; try done.
  set (c1 := c <| c_uniq := u |> <| c_length := sz |> <| c_fs_size := _ |>).
  assert (Hwf1 : wf c1) by (eapply (kept_wf c); [done | by left | done]).
  apply wp_bind, wp_call. intros [|]; [|done]. cbn [negb].
  change (token_of c) with (token_of (c1 <| c_buf := true |>)). apply wp_read; [|done..]. destruct Hwf1. by split.
Qed.

Lemma wp_open c : wf c -> c_updated c = false ->
  wp (ngx_http_file_cache_open c) (Free (token_of c)) (fun r => done_with r.2).
Proof.
  intros Hwf Hup. unfold ngx_http_file_cache_open. destruct (c_waiting c); [done|].
  destruct (c_buf c) eqn:Eb; [apply wp_read; [done..|by apply (wf_buf _ Hwf)]|].
  apply wp_bind. eapply (wp_mono _ _ _ (fun _ m => m = Free (token_of c))); [by destruct (c_node c)|].
  intros cln m ->. destruct (negb cln); [done|]. apply wp_bind.
  eapply wp_mono; [by apply wp_exists|]. intros [rc c1] m Ha.
  pose proof (asked_done _ _ _ Hwf Ha) as [-> Hwf1]. destruct Ha as (_ & Hk & Hn). cbn [fst snd] in *. cbv zeta.
  destruct (decide (rc = NGX_ERROR)) as [->|Hrc]; [done|]. rewrite bool_decide_false by done.
  destruct Hn as [Hn|[= ->]]; [|done]. case_bool_decide; [done|].
  apply wp_bind, wp_atomic. intros w. destruct (_ && _); [done|]. destruct (_ && _ && _); [done|].
  set (scarce := negb _ && _). set (test := if bool_decide _ then _ else _).
  set (rv := if scarce then _ else _). set (c2 := if scarce then c1 else _). clearbody test rv. clear w.
  assert (Hk2 : kept c1 c2 /\ c_node c2 = c_node c1) by (unfold c2; by destruct scarce).
  clearbody c2. clear scarce. destruct Hk2 as [Hk2 Hn2]. rewrite <- (kept_token c1 c2 Hk2 Hn2).
  apply wp_bind. eapply wp_mono; [apply wp_name|]. intros [rc3 c3] m3 (-> & Hk3 & Hn3). cbn [fst snd] in *.
  assert (Hk13 : kept c1 c3) by (by eapply kept_trans).
  assert (Hwf3 : wf c3) by (eapply kept_wf; [exact Hk13 | left; congruence | done]).
  assert (Hup3 : c_updated c3 = false).
  { destruct (kept_trans _ _ _ Hk Hk13) as (_ & _ & E & _). congruence. }
  assert (Hs3 : is_Some (c_node c3)) by (by rewrite Hn3, Hn2).
  rewrite <- (kept_token c2 c3 Hk3 Hn3).
  destruct (negb _); [done|]. destruct test; [by apply wp_open_file|].
  case_bool_decide; [by apply wp_cache_lock | done].
Qed.

Lemma wp_wait_handler c : wf c -> c_timer c <> None ->
  wp (ngx_http_file_cache_lock_wait_handler c) (Free (token_of c)) done_with.
Proof.
  intros Hwf Ht. destruct (wf_timer _ Hwf Ht) as (Hw & Hup & [n Hn]). unfold ngx_http_file_cache_lock_wait_handler.
  destruct Hwf. apply wp_bind, wp_call. intros now. destruct (_ <=? _).
  { apply wp_bind, wp_call. intros _. by split; [|split]. }
  apply wp_bind, wp_lock. intros s ts Hi. destruct (own_node c n s ts Hi Hup Hn) as [x Hx].
  apply wp_bind. eapply wp_zone. { cbn. rewrite Hn. cbn. by rewrite Hx. }
  apply wp_bind. eapply wp_unlock; [exact Hi|]. destruct (updating x).
  - split; [done|]. by split.
  - apply wp_bind, wp_call. intros _. by split; [|split].
Qed.

(** ** Letting the node go *)

(** A write to the node that gives it up. *)
Lemma inv_give_up c c' n s ts x x' z : Inv s (token_of c :: ts) -> c_updated c = false -> c_node c = Some n ->
  nodes s !! n = Some x -> key x' = key x -> count x' = wrap 20 (count x - 1) -> deleting x' = deleting x ->
  c_key c' = c_key c -> (c_updated c' = true \/ c_node c' = None) ->
  (updating x' = true -> updating x = true) -> (c_updating c = true -> updating x' = false) ->
  Inv (Sh (<[n := x']> (nodes s)) (rbtree s) (queue s) z) (token_of c' :: ts).
Proof.
  intros Hi Hup Hn Hx Hk Hc Hd K1 K2 H1 H2. pose proof (inv_count_range _ _ _ _ Hi Hx) as Hr.
  pose proof (i_len _ _ Hi) as Hlen. pose proof (i_count _ _ Hi _ _ Hx) as Ec. rewrite !total_cons in Ec.
  pose proof (total_range (refs n) ts (refs_range n)). pose proof (total_range (dels n) ts (dels_range n)).
  pose proof (dels_range n (token_of c)). rewrite (token_none c') by done. rewrite (token_some c n) in * by done.
  set (t := Token (Some n) (c_key c) (c_updating c) None) in *.
  assert (Hrt : refs n t = 1) by (unfold refs; cbn; by case_decide).
  eapply (zone_put s t _ ts n x x'); try done; cbn.
  - rewrite Hc, wrap_small by lia. rewrite Hrt. unfold refs, dels. cbn. repeat case_decide; done || lia.
  - rewrite Hd. unfold dels. cbn. repeat case_decide; lia.
  - intros m Hm. split; [|done]. split; congruence.
  - intros E. left. auto.
  - intros m [= <-] E. right. auto.
Qed.

Lemma update_node_ok c ok u fs s ts : Inv s (token_of c :: ts) -> c_updated c = false -> is_Some (c_node c) ->
  exists s', update_node (c <| c_updated := true |> <| c_updating := false |>) ok u fs s = Some (s', tt) /\
    Inv s' (token_of (c <| c_updated := true |> <| c_updating := false |>) :: ts).
Proof.
  intros Hi Hup [n Hn]. destruct (own_node c n s ts Hi Hup Hn) as [x Hx].
  unfold update_node. cbn [c_node set_field set_c_updated set_c_updating]. rewrite Hn. cbn [mbind option_bind].
  rewrite Hx. cbn [mbind option_bind]. eexists. split; [done|].
  eapply (inv_give_up c _ n s ts x); try done. by left.
Qed.

Lemma wp_update c : wf c -> (c_updated c = false -> is_Some (c_node c) /\ c_waiting c = false) ->
  wp (ngx_http_file_cache_update c) (Free (token_of c)) done_with.
Proof.
  intros Hwf Hn. unfold ngx_http_file_cache_update. destruct (c_updated c) eqn:Hup; [done|].
  destruct (Hn eq_refl) as [Hs Hw]. apply wp_bind, wp_call. intros renamed. apply wp_bind.
  eapply (wp_mono _ _ _ (fun _ m => m = Free (token_of c))); [by destruct renamed|].
  intros fi m ->. apply wp_bind, wp_lock. intros s ts Hi. apply wp_bind.
  assert (Hgo : forall ok u fs, wp (sec (update_node (c <| c_updated := true |> <| c_updating := false |>) ok u fs)) (Held s ts)
    (fun _ m => wp (shmtx_unlock;; ret (c <| c_updated := true |> <| c_updating := false |>)) m done_with)).
  { intros ok u fs. destruct (update_node_ok c ok u fs s ts Hi Hup Hs) as (s' & E & Hi').
    eapply wp_zone; [exact E|]. apply wp_bind. eapply wp_unlock; [exact Hi'|]. split; [done|].
    destruct Hwf. split; try done. cbn. intros Ht. destruct (wf_timer0 Ht). congruence. }
  destruct fi as [[u fs]|]; apply Hgo.
Qed.

Lemma release_node_ok c s ts : Inv s (token_of c :: ts) -> c_updated c = false -> is_Some (c_node c) ->
  exists s' freed, release_node c s = Some (s', freed) /\
    forall c', c_key c' = c_key c -> (c_updated c' = true \/ c_node c' = None) -> Inv s' (token_of c' :: ts).
Proof.
  intros Hi Hup [n Hn]. destruct (own_node c n s ts Hi Hup Hn) as [x Hx].
  unfold release_node. rewrite Hn. cbn [mbind option_bind]. rewrite Hx. cbn [mbind option_bind].
  set (x1 := if c_updating c then _ else _). set (x2 := if c_valid_sec c =? 0 then _ else _).
  assert (H1 : key x1 = key x /\ count x1 = wrap 20 (count x - 1) /\ deleting x1 = deleting x
    /\ (updating x1 = true -> updating x = true) /\ (c_updating c = true -> updating x1 = false)).
  { unfold x1. destruct (c_updating c); by split_and!. }
  assert (H2 : key x2 = key x1 /\ count x2 = count x1 /\ deleting x2 = deleting x1 /\ updating x2 = updating x1).
  { unfold x2. by destruct (c_valid_sec c =? 0). }
  destruct H1 as (K1 & K2 & K3 & K4 & K5). destruct H2 as (L1 & L2 & L3 & L4).
  assert (Hput : forall y, key y = key x1 -> count y = count x1 -> deleting y = deleting x1 -> updating y = updating x1 ->
    forall c', c_key c' = c_key c -> (c_updated c' = true \/ c_node c' = None) -> Inv (put n y s) (token_of c' :: ts)).
  { intros y Y1 Y2 Y3 Y4 c' C1 C2. eapply (inv_give_up c c' n s ts x y); try done; congruence || (rewrite Y4; auto). }
  destruct (negb (c_error c =? 0)); [eexists _, false; split; [done|]; by apply Hput|].
  destruct (negb (exists_ x1) && (count x1 =? 0) && (c_min_uses c =? 1)) eqn:E.
  - apply andb_prop in E as [[_ E]%andb_prop _]. apply Z.eqb_eq in E. eexists _, true. split; [done|].
    intros c' C1 C2. apply (inv_free _ _ n x1); [by apply Hput | by apply lookup_insert_eq | done].
  - eexists _, false. split; [done|]. by apply Hput.
Qed.

Lemma wp_free c incomplete : wf c -> wp (ngx_http_file_cache_free c incomplete) (Free (token_of c)) done_with.
Proof.
  intros Hwf. unfold ngx_http_file_cache_free. destruct (c_updated c) eqn:Hup; [done|]. cbn [orb].
  case_bool_decide as Hn; [done|].
  assert (Hs : is_Some (c_node c)) by (destruct (c_node c); [by eexists | done]).
  apply wp_bind, wp_lock. intros s ts Hi. destruct (release_node_ok c s ts Hi Hup Hs) as (s' & freed & E & Hi').
  apply wp_bind. eapply wp_zone; [exact E|]. apply wp_bind.
  set (c1 := if freed then c <| c_node := None |> else c).
  assert (Hk : c_key c1 = c_key c /\ c_timer c1 = c_timer c) by (unfold c1; by destruct freed).
  eapply (wp_unlock _ _ _ (token_of (c1 <| c_updated := true |> <| c_updating := false |>))).
  { apply Hi'; [apply Hk | by left]. }
  apply wp_bind. eapply (wp_mono _ _ _ (fun _ m => m = Free (token_of (c1 <| c_updated := true |> <| c_updating := false |>))));
    [by destruct (_ && _)|].
  intros _ m ->. split; [done|]. destruct Hwf. split; try done. cbn. by destruct Hk as [-> _].
Qed.

Lemma wp_cleanup c : wf c -> wp (ngx_http_file_cache_cleanup c) (Free (token_of c)) done_with.
Proof. intros Hwf. unfold ngx_http_file_cache_cleanup. destruct (c_updated c); [done | by apply wp_free]. Qed.

(** ** The manager and the loader *)

Lemma requeue_ok now n s ts x : Inv s ts -> nodes s !! n = Some x ->
  exists s', requeue n now s = Some (s', tt) /\ Inv s' ts.
Proof.
  intros Hi Hx. unfold requeue. rewrite Hx. cbn [mbind option_bind]. eexists. split; [done|].
  assert (Hq : n ∈ queue s) by (apply (i_nodes _ _ Hi); by eexists).
  assert (Hp : n :: queue_remove n (queue s) ≡ₚ queue s) by (apply remove_perm; [apply Hi | done]).
  destruct Hi. split; cbn; try done.
  - by rewrite Hp.
  - by rewrite Hp.
  - intros m. rewrite Hp. destruct (decide (m = n)) as [->|Hm]; [|rewrite lookup_insert_ne by done; apply i_nodes0].
    rewrite lookup_insert_eq. split; [by eexists | done].
  - eapply in_order_ext; [|done]. intros m _.
    destruct (decide (m = n)) as [->|Hm]; [by rewrite lookup_insert_eq, Hx | by rewrite lookup_insert_ne].
  - intros m y. rewrite lookup_insert_Some. intros [[<- <-]|[_ Hy]]; [by apply (i_count0 n x) | by apply i_count0].
  - intros m y. rewrite lookup_insert_Some. intros [[<- <-]|[_ Hy]]; [by apply (i_deleting0 n x) | by apply i_deleting0].
  - intros t m Ht Hr. destruct (i_ref0 t m Ht Hr) as (y & Hy & Hk). destruct (decide (m = n)) as [->|Hm].
    + exists (x <| expire := now + inactive |>). rewrite lookup_insert_eq. split; [done|]. simplify_eq. done.
    + exists y. by rewrite lookup_insert_ne.
  - intros t m Ht Hr. destruct (decide (m = n)) as [->|Hm]; [rewrite lookup_insert_eq; by eexists|].
    rewrite lookup_insert_ne by done. eauto.
  - intros m y. rewrite lookup_insert_Some. intros [[<- <-]|[_ Hy]]; [by apply (i_updating0 n x) | by apply i_updating0].
Qed.

Lemma oldest_ok s ts : Inv s ts ->
  exists o, oldest s = Some (s, o) /\ match o with Some (n, x) => nodes s !! n = Some x | None => True end.
Proof.
  intros Hi. unfold oldest. destruct (rev (queue s)) as [|n q] eqn:E; [by exists None|].
  destruct (proj1 (i_nodes _ _ Hi n)) as [x Hx].
  { rewrite list_elem_of_In, in_rev, E. by left. }
  rewrite Hx. by exists (Some (n, x)).
Qed.

Lemma wp_expire_loop fuel now t s ts (Q : Z -> mode -> Prop) : Inv s (t :: ts) -> del t = None ->
  (forall z s' ts', Inv s' (t :: ts') -> Q z (Held s' ts')) ->
  wp (expire_loop fuel now) (Held s ts) Q.
Proof.
  intros Hi Ht HQ. revert s ts Hi. induction fuel as [|fuel IH]; intros s ts Hi; [done|].
  cbn [expire_loop]. destruct (oldest_ok s _ Hi) as (o & E & Ho). apply wp_bind. eapply wp_zone; [exact E|].
  destruct o as [[n x]|]; [|by apply HQ]. destruct (0 <? _); [by apply HQ|].
  destruct (Z.eqb_spec (count x) 0) as [Ec|Ec].
  { apply wp_bind. eapply wp_delete; [done..|]. intros. by apply IH. }
  destruct (deleting x); [by apply HQ|].
  destruct (requeue_ok now n s _ x Hi Ho) as (s' & E' & Hi'). apply wp_bind. eapply wp_zone; [exact E'|]. by apply IH.
Qed.

Lemma wp_expire fuel t : del t = None -> wp (ngx_http_file_cache_expire fuel) (Free t) (fun _ m => m = Free t).
Proof.
  intros Ht. unfold ngx_http_file_cache_expire. apply wp_bind, wp_call. intros [|]; [|done]. cbn [negb].
  apply wp_bind, wp_call. intros now. apply wp_bind, wp_lock. intros s ts Hi. apply wp_bind.
  eapply wp_expire_loop; [done..|]. intros z s' ts' Hi'. by exists t.
Qed.

Lemma wp_manager fuel t : del t = None -> wp (ngx_http_file_cache_manager fuel) (Free t) (fun _ m => m = Free t).
Proof.
  intros Ht. unfold ngx_http_file_cache_manager. apply wp_bind. eapply wp_mono; [by apply wp_expire|].
  intros next m ->. generalize fuel at 1. intros k. induction k as [|k IH]; [done|]. cbn [manager_loop].
  apply wp_bind, wp_lock. intros s ts Hi. apply wp_bind. eapply wp_zone; [done|]. apply wp_bind.
  eapply wp_unlock; [exact Hi|]. destruct (_ <? _); [done|]. apply wp_bind.
  eapply wp_mono; [by apply wp_forced_expire|]. intros wait m ->. destruct (0 <? wait); [done|].
  apply wp_bind, wp_call. by intros [|].
Qed.

Lemma hex_key_ok ds k : hex_key ds = Some k -> Forall u_char k /\ (2 * length k <= length ds /\ length ds <= 2 * length k + 1)%nat.
Proof.
  revert k. induction ds as [ds IH] using (induction_ltof1 _ length). unfold ltof in IH. intros k.
  destruct ds as [|a [|b ds]]; cbn [hex_key].
  - intros [= <-]. cbn. split; [constructor | lia].
  - intros [= <-]. cbn. split; [constructor | lia].
  - destruct (ngx_hextoi [a; b]) as [n|] eqn:En; cbn; [|done].
    destruct (hex_key ds) as [k'|] eqn:Ek; cbn; [|done]. intros [= <-].
    destruct (IH ds ltac:(cbn; lia) k' Ek) as [Hk Hl]. apply hextoi_byte in En. split; [by constructor | cbn; lia].
Qed.

Lemma wp_add k fs t : key_ok k -> del t = None -> wp (ngx_http_file_cache_add k fs) (Free t) (fun _ m => m = Free t).
Proof.
  intros Hk Ht. unfold ngx_http_file_cache_add. apply wp_bind, wp_call. intros now. apply wp_bind, wp_lock. intros s ts Hi.
  destruct (lookup_ok s _ k Hi Hk) as (o & E & Ho). apply wp_bind. eapply wp_zone; [by rewrite E|]. apply wp_bind.
  destruct o as [n|].
  - destruct Ho as (x & Hx & _). destruct (requeue_ok now n s _ x Hi Hx) as (s' & E' & Hi').
    apply wp_bind. eapply wp_zone; [exact E'|]. by exists t.
  - apply wp_bind. eapply wp_zone; [done|]. destruct (ngx_slab_alloc_locked s) as [n|] eqn:Ea; [|by exists t].
    apply slab_fresh in Ea. destruct (inv_insert s t ts n k Hi Ea Hk) as (s1 & E1 & En & Eq & Hins).
    destruct (no_refs _ _ _ _ Hi Ea) as (R1 & _).
    apply wp_bind. eapply wp_zone.
    { unfold add_new. rewrite E1. cbn [mbind option_bind]. unfold put. cbn [set_field set_nodes set_queue set_size nodes queue rbtree size].
      rewrite En, Eq. done. }
    exists t. split; [|done].
    destruct (decide (ref t = Some n)) as [Er|Er]; [unfold refs in R1; by case_decide|].
    by apply Hins.
Qed.

Lemma wp_add_file f t : del t = None -> wp (ngx_http_file_cache_add_file f) (Free t) (fun _ m => m = Free t).
Proof.
  intros Ht. unfold ngx_http_file_cache_add_file. destruct (Nat.ltb_spec (length (tf_name f)) (2 * NGX_HTTP_CACHE_KEY_LEN)); [done|].
  destruct (_ <? _); [done|]. destruct (hex_key _) as [k|] eqn:E; [|done]. apply wp_add; [|done].
  apply hex_key_ok in E as [Hk Hl]. rewrite length_drop in Hl. split; [|done]. unfold NGX_HTTP_CACHE_KEY_LEN in *. lia.
Qed.

Lemma wp_walk fuel t : del t = None -> wp (walk fuel) (Free t) (fun _ m => m = Free t).
Proof.
  intros Ht. induction fuel as [|fuel IH]; [done|]. cbn [walk]. apply wp_bind, wp_call. intros [[f|name]|]; [| |done].
  - apply wp_bind. unfold ngx_http_file_cache_manage_file. apply wp_bind.
    eapply wp_mono; [by apply wp_add_file|]. intros rc m ->. apply wp_bind.
    eapply (wp_mono _ _ _ (fun _ m => m = Free t)); [by case_bool_decide|]. intros _ m ->.
    apply wp_call. intros [|]; [done | apply IH].
  - apply wp_bind, wp_call. intros _. apply IH.
Qed.

Lemma wp_loader fuel t : del t = None -> wp (ngx_http_file_cache_loader fuel) (Free t) (fun _ m => m = Free t).
Proof.
  intros Ht. unfold ngx_http_file_cache_loader. apply wp_bind, wp_atomic. intros w. destruct (_ || _); [done|].
  apply wp_bind, wp_call. intros pid. apply wp_bind, wp_atomic. intros w'. destruct (negb _); [done|].
  apply wp_bind. eapply wp_mono; [by apply wp_walk|]. intros [|] m ->; [by apply wp_atomic|].
  do 2 (apply wp_bind, wp_atomic; intros ?). by apply wp_bind, wp_peek.
Qed.
End Cache.
End FileCacheSteps.

(** * The processes of the file cache, and runs of them

    Which operations a process may begin, the worlds they reach, and a way to
    compute such a run: every operation with given answers, in a given order. *)
Import Zones.Zones FileCache.FileCache FileCacheTree.FileCacheTree FileCacheFacts FileCacheSteps.

Module FileCacheRuns.

(** ** Processes *)

Inductive process := Request (c : ngx_http_cache_t) | Manager | Loader.

Definition process_token (p : process) : token := match p with Request c => token_of c | _ => no_token end.
Definition process_wf (p : process) : Prop := match p with Request c => wf c | _ => True end.

(** [ngx_pcalloc (r->pool, sizeof(ngx_http_cache_t))] *)
Definition zero_cache (keys : list (list Z)) (min_uses start timeout : Z) (lock : bool) : ngx_http_cache_t :=
  Cache [] keys 0 (repeat 0 16) 0 0 0 0 0 start 0 0 min_uses 0 0 false None timeout 0 None lock false false false false
    false false 0.

Definition blank_process (p : process) : Prop :=
  match p with Request c => exists keys u b t l, c = zero_cache keys u b t l | _ => True end.

Abbreviation world := (@Zones.world ngx_http_file_cache_sh_t words event process).

Section Cache.
Context `{Core}.

(** What the upstream module does with the cache of a request, and when:
    [ngx_http_upstream_cache] sets a new one up and opens it, and again when the
    request is woken; [update] and [free] are for the answer, and a pool cleanup
    for its end.  What it writes into the cache itself is a step too. *)
Inductive starts : process -> prog process -> Prop :=
| start_new c keys min_uses start timeout lock :
    (c_updated c = true \/ c_node c = None) -> c_timer c = None ->
    starts (Request c) (ret (Request (ngx_http_file_cache_create_key (zero_cache keys min_uses start timeout lock))))
| start_open c : c_updated c = false ->
    starts (Request c) (r ← ngx_http_file_cache_open c; ret (Request r.2))
| start_create c : c_updated c = false ->
    starts (Request c) (r ← ngx_http_file_cache_create c; ret (Request r.2))
| start_wake c : c_timer c <> None ->
    starts (Request c) (c ← ngx_http_file_cache_lock_wait_handler c; ret (Request c))
| start_answer c sec msec modified date err start :
    starts (Request c) (ret (Request (c <| c_valid_sec := sec |> <| c_valid_msec := msec |> <| c_last_modified := modified |>
      <| c_date := date |> <| c_error := err |> <| c_body_start := start |>)))
| start_update c : (c_updated c = false -> is_Some (c_node c) /\ c_waiting c = false) ->
    starts (Request c) (c ← ngx_http_file_cache_update c; ret (Request c))
| start_free c incomplete :
    starts (Request c) (c ← ngx_http_file_cache_free c incomplete; ret (Request c))
| start_cleanup c :
    starts (Request c) (c ← ngx_http_file_cache_cleanup c; ret (Request c))
| start_manager fuel : starts Manager (ngx_http_file_cache_manager fuel;; ret Manager)
| start_loader fuel : starts Loader (ngx_http_file_cache_loader fuel;; ret Loader).

(** An empty zone, and processes that have not begun. *)
Definition initial (w : world) : Prop :=
  the_zone w = Sh ∅ Sentinel [] 0 /\ owner w = None /\
  exists ps, threads w = map Idle ps /\ Forall blank_process ps /\ 2 * Z.of_nat (length ps) < 2 ^ 20.


(** ** Computing a run *)

(** A step of the thread [i], that is in an operation. *)
Definition run_step (answer : forall B, event B -> B) (i : nat) (w : world) : option world :=
  let next s a o t := Some (World s a o (<[i := t]> (threads w))) in
  let s := the_zone w in let a := atomics w in let o := owner w in
  match threads w !! i with
  | Some (Run (Ret _ l)) => next s a o (Idle l)
  | Some (Run (Lock _ k)) => if bool_decide (o = None) then next s a (Some i) (Run k) else None
  | Some (Run (Unlock _ k)) => if bool_decide (o = Some i) then next s a None (Run k) else None
  | Some (Run (Zone _ f k)) =>
      if bool_decide (o = Some i) then
        match f s with Some (s', b) => next s' a o (Run (k b)) | None => None end
      else None
  | Some (Run (Atomic _ f k)) => next s (f a).1 o (Run (k (f a).2))
  | Some (Run (Peek _ f k)) => next s a o (Run (k (f s)))
  | Some (Run (Call _ e k)) => next s a o (Run (k (answer _ e)))
  | _ => None
  end.

Lemma run_step_sound answer i w w' : run_step answer i w = Some w' -> pool_step starts w w'.
Proof.
  unfold run_step. intros E. destruct (threads w !! i) as [t|] eqn:Et; [|done]. exists i, t. split; [done|].
  destruct t as [l|[l|k|k|B f k|B f k|B f k|B e k|]]; cbn in *; try done; try (by injection E).
  - case_bool_decide; [|done]. split; [done|]. by injection E.
  - case_bool_decide; [|done]. split; [done|]. by injection E.
  - case_bool_decide; [|done]. destruct (f _) as [[s' b]|] eqn:Ef; [|done]. split; [done|].
    exists s', b. split; [done|]. by injection E.
  - exists (answer B e). by injection E.
Qed.

(** At most [n] steps of one thread, as far as its operation goes. *)
Fixpoint run (answer : forall B, event B -> B) (i : nat) (n : nat) (w : world) : world :=
  match n with
  | O => w
  | S n => match run_step answer i w with Some w => run answer i n w | None => w end
  end.

Lemma run_sound answer i n w : rtc (pool_step starts) w (run answer i n w).
Proof.
  revert w. induction n as [|n IH]; intros w; cbn; [done|]. destruct (run_step answer i w) as [w'|] eqn:E; [|done].
  eapply rtc_l; [by eapply run_step_sound | apply IH].
Qed.

(** What a thread is told to begin, and whether it may. *)
Inductive command :=
| New (keys : list (list Z)) (min_uses : Z) (lock : bool) | Open | Wake | Answer (sec err : Z) | Update | Release
| Manage (fuel : nat).

Definition op_of (cmd : command) (p : process) : option (prog process) :=
  match cmd, p with
  | New keys u l, Request c =>
      if (c_updated c || bool_decide (c_node c = None)) && bool_decide (c_timer c = None)
      then Some (ret (Request (ngx_http_file_cache_create_key (zero_cache keys u 0 0 l)))) else None
  | Open, Request c =>
      if c_updated c then None else Some (r ← ngx_http_file_cache_open c; ret (Request r.2))
  | Wake, Request c =>
      if bool_decide (c_timer c = None) then None
      else Some (c ← ngx_http_file_cache_lock_wait_handler c; ret (Request c))
  | Answer sec err, Request c =>
      Some (ret (Request (c <| c_valid_sec := sec |> <| c_valid_msec := 0 |> <| c_last_modified := 0 |> <| c_date := 0 |>
                            <| c_error := err |> <| c_body_start := c_body_start c |>)))
  | Update, Request c =>
      if c_updated c || negb (bool_decide (c_node c = None)) && negb (c_waiting c)
      then Some (c ← ngx_http_file_cache_update c; ret (Request c)) else None
  | Release, Request c => Some (c ← ngx_http_file_cache_free c false; ret (Request c))
  | Manage fuel, Manager => Some (ngx_http_file_cache_manager fuel;; ret Manager)
  | _, _ => None
  end.

Lemma op_of_sound cmd l p : op_of cmd l = Some p -> starts l p.
Proof.
  destruct cmd, l as [c| |]; cbn; try done; intros E.
  - destruct (c_updated c) eqn:Eu; repeat case_bool_decide; cbn in E; simplify_eq; apply start_new; auto.
  - destruct (c_updated c) eqn:Eu; simplify_eq. by apply start_open.
  - case_bool_decide; simplify_eq. by apply start_wake.
  - simplify_eq. apply start_answer.
  - destruct (c_updated c) eqn:Eu; cbn in E; [simplify_eq; apply start_update; congruence|].
    case_bool_decide as En; [done|]. destruct (c_waiting c) eqn:Ew; cbn in E; [done|]. simplify_eq. apply start_update.
    intros _. split; [|done]. destruct (c_node c); [by eexists | done].
  - simplify_eq. apply start_free.
  - simplify_eq. apply start_manager.
Qed.

(** A thread begins what it is told, or goes on, for so many steps. *)
Definition turn (w : world) (x : nat * option command * nat * (forall B, event B -> B)) : world :=
  let '(i, cmd, n, answer) := x in
  match cmd with
  | None => run answer i n w
  | Some cmd =>
      match threads w !! i with
      | Some (Idle l) =>
          match op_of cmd l with
          | Some p => run answer i n (World (the_zone w) (atomics w) (owner w) (<[i := Run p]> (threads w)))
          | None => w
          end
      | _ => w
      end
  end.

Definition play (w : world) (xs : list (nat * option command * nat * (forall B, event B -> B))) : world := foldl turn w xs.

Lemma play_sound w xs : rtc (pool_step starts) w (play w xs).
Proof.
  revert w. induction xs as [|[[[i cmd] n] answer] xs IH]; intros w; [done|]. unfold play in *. cbn [foldl].
  etrans; [|apply IH]. clear IH. unfold turn. destruct cmd as [cmd|]; [|apply run_sound].
  destruct (threads w !! i) as [[l|p]|] eqn:E; [|done..]. destruct (op_of cmd l) as [p|] eqn:Ep; [|done].
  eapply rtc_l; [|apply run_sound]. exists i, (Idle l). split; [done|]. exists p. split; [by eapply op_of_sound | done].
Qed.
End Cache.

(** ** A server

    An allocator with room for some nodes, and a tree that is a list. *)
Fixpoint spine (l : list nat) : rbtree_t := match l with [] => Sentinel | n :: l => Fork Sentinel n (spine l) end.

Definition first_free (room : nat) (s : ngx_http_file_cache_sh_t) : option nat :=
  head (filter (fun n => nodes s !! n = None) (seq 0 room)).

Definition server (room : nat) (idle limit : Z) : Core := {|
  ngx_slab_alloc_locked := first_free room;
  ngx_rbtree_rebalance t := t;
  ngx_rbtree_delete n t := spine (queue_remove n (inorder t));
  ngx_hex_dump k := k;
  ngx_hextoi _ := None;
  ngx_create_hashed_filename name := name;
  ngx_md5 b := take 16 (map (fun z => z mod 256) b ++ repeat 0 16);
  ngx_crc32 b := Z.of_nat (length b);
  aio := false;
  bsize := 4096;
  max_size := limit;
  inactive := idle;
|}.

#[export] Instance server_ok room idle limit : CoreOk (C := server room idle limit).
Proof.
  split; cbn.
  - intros s n. unfold first_free. intros E. apply head_Some_elem_of in E. by apply list_elem_of_filter in E as [? _].
  - done.
  - intros n t. generalize (queue_remove n (inorder t)). intros l. induction l as [|m l IH]; [done|]. cbn. by rewrite IH.
  - intros b. split.
    + rewrite length_take, length_app. unfold NGX_HTTP_CACHE_KEY_LEN. cbn [length]. lia.
    + apply Forall_take, List.Forall_app. split.
      * apply Forall_map, Forall_true. intros z. apply Z.mod_pos_bound. done.
      * repeat (constructor; [unfold u_char; lia|]). constructor.
  - done.
Qed.

(** Calls that succeed at a given time, with a file of one block, or none. *)
Definition answers (time : Z) (file : bool) (B : Type) (e : event B) : B :=
  match e in event B return B with
  | ngx_time => time
  | ngx_current_msec => time * 1000
  | ngx_open_cached_file _ _ => if file then Opened 7 600 4096 else OpenError ENOENT
  | ngx_read_file _ => inl NGX_ERROR
  | ngx_file_aio_read _ => inl NGX_ERROR
  | ngx_fd_info => Some (7, 4096)
  | ngx_pid => 1
  | ngx_walk_tree_next => None
  | ngx_pool_cleanup_add | ngx_pnalloc | ngx_alloc | ngx_create_temp_buf _ | ngx_ext_rename_file _ | ngx_delete_file _
  | ngx_delete_temp_file | ngx_quit_or_terminate => true
  | write_handler => tt
  | ngx_http_send_header | ngx_http_output_filter _ => NGX_OK
  end.

(** Requests, and a manager after them. *)
Definition start_world (requests : nat) : world :=
  World (Sh ∅ Sentinel [] 0) (Words false 0) None
    (map Idle (repeat (Request (zero_cache [] 0 0 0 false)) requests ++ [Manager])).

Lemma start_initial requests : Z.of_nat requests < 2 ^ 18 -> initial (start_world requests).
Proof.
  intros Hr. split_and!; [done..|]. eexists. split_and!; [done | | rewrite length_app, repeat_length; cbn [length]; lia].
  apply List.Forall_app. split; [|by repeat constructor].
  induction requests as [|n IH]; constructor; [by eexists _, _, _, _, _ | apply IH; lia].
Qed.

End FileCacheRuns.
