(* ===== verification/FileCacheProps.v ===== *)
(** * What the file cache promises

    Any number of requests, a cache manager and a cache loader, interleaved in
    any way. *)

From stdpp Require Import gmap relations.
From S2P Require Import Prelude Zones FileCache FileCacheTree FileCacheSteps.
Import Zones.Zones FileCache.FileCache FileCacheTree.FileCacheTree FileCacheFacts FileCacheSteps.FileCacheSteps.
Import FileCacheRuns.

Module FileCacheProps.

Section Cache.
Context `{CoreOk}.

Lemma zero_wf keys u b t l : wf (zero_cache keys u b t l).
Proof. split; try done. split; [done|]. repeat (constructor; [unfold u_char; lia|]). constructor. Qed.

Lemma wrapped c (p : prog ngx_http_cache_t) : wp Inv p (Free (token_of c)) done_with ->
  wp Inv (c ← p; ret (Request c)) (Free (token_of c)) (ends process_token process_wf).
Proof. intros Hp. apply wp_bind. eapply wp_mono; [exact Hp|]. by intros c' m [-> Hwf]. Qed.

Lemma wrapped_rc c (p : prog (ngx_rc * ngx_http_cache_t)) : wp Inv p (Free (token_of c)) (fun r => done_with r.2) ->
  wp Inv (r ← p; ret (Request r.2)) (Free (token_of c)) (ends process_token process_wf).
Proof. intros Hp. apply wp_bind. eapply wp_mono; [exact Hp|]. by intros [rc c'] m [-> Hwf]. Qed.

(** Every operation keeps to the logic. *)
Lemma starts_ok l p : starts l p -> process_wf l -> wp Inv p (Free (process_token l)) (ends process_token process_wf).
Proof.
  intros Hs Hwf. destruct Hs as [c keys u b t lk Hn Ht|c Hup|c Hup|c Ht|c sec msec modified date err start|c Hn|c inc|c|fuel|fuel];
    cbn [process_token process_wf] in *.
  - rewrite token_none by done. split; [done|]. split; try done. apply md5_key.
  - by apply wrapped_rc, wp_open.
  - by apply wrapped_rc, wp_create.
  - by apply wrapped, wp_wait_handler.
  - split; [done|]. eapply (kept_wf c); [done | by left | done].
  - by apply wrapped, wp_update.
  - by apply wrapped, wp_free.
  - by apply wrapped, wp_cleanup.
  - apply wp_bind. eapply wp_mono; [by apply wp_manager|]. by intros z m ->.
  - apply wp_bind. eapply wp_mono; [by apply wp_loader|]. by intros z m ->.
Qed.

(** ** Every interleaving *)

Lemma inv_initial (ts : list token) : Forall (fun t => t = no_token) ts -> 2 * Z.of_nat (length ts) < 2 ^ 20 ->
  Inv (Sh ∅ Sentinel [] 0) ts.
Proof.
  intros Hts Hl. rewrite list.Forall_forall in Hts. split; cbn; try done; try (intros ? ?; by rewrite lookup_empty).
  - constructor.
  - intros n. rewrite lookup_empty. split; [by intros ?%not_elem_of_nil | by intros []].
  - by split; constructor.
  - intros t n Ht. by rewrite (Hts t Ht).
  - intros t n Ht. by rewrite (Hts t Ht).
Qed.

Lemma reaches w0 w : initial w0 -> rtc (pool_step starts) w0 w ->
  ~ faulty w /\ (owner w = None -> exists ts, length ts = length (threads w) /\ Inv (the_zone w) ts /\
     forall i l, threads w !! i = Some (Idle l) -> ts !! i = Some (process_token l) /\ process_wf l).
Proof.
  intros (Hz & Ho & ps & Hps & Hb & Hl) Hr.
  assert (Hblank : forall p, p ∈ ps -> process_token p = no_token /\ process_wf p).
  { intros p Hp. rewrite list.Forall_forall in Hb. specialize (Hb p Hp). destruct p as [c| |]; [|done..].
    destruct Hb as (keys & u & b & t & l & ->). split; [done | apply zero_wf]. }
  eapply (sound Inv starts process_token process_wf); [| | exact Hps | exact Ho | | | exact Hr].
  - intros. by eapply inv_perm.
  - apply starts_ok.
  - rewrite list.Forall_forall. intros p Hp. by apply Hblank.
  - rewrite Hz. apply inv_initial; [|by rewrite length_map].
    rewrite list.Forall_forall. intros t Ht. apply list_elem_of_fmap in Ht as (p & -> & Hp). by apply Hblank.
Qed.

(** C5: However the requests, the manager and the loader interleave, nobody
    touches the nodes, the tree or the queue without the mutex or a node that was
    freed, and the mutex is released by who took it; what the zone has is only changed
    with it, and without it only its size is read, by the loader for a message.
    Whenever the mutex is free, the queue and the tree
    hold the same nodes, which are the allocated ones, each once; and the node
    of a request in progress is among them, with the key of the request and a
    count above zero.  It takes fewer than 2^19 processes, and a slab allocator
    and a red-black tree that do what they should. *)
Theorem file_cache_safe w0 w : initial w0 -> rtc (pool_step starts) w0 w ->
  ~ faulty w /\
  (owner w = None -> let s := the_zone w in
     NoDup (queue s) /\ inorder (rbtree s) ≡ₚ queue s /\ (forall n, n ∈ queue s <-> is_Some (nodes s !! n)) /\
     forall i c n, threads w !! i = Some (Idle (Request c)) -> c_updated c = false -> c_node c = Some n ->
       exists x, nodes s !! n = Some x /\ key x = c_key c /\ 0 < count x).
Proof.
  intros H0 Hr. destruct (reaches w0 w H0 Hr) as [Hf Hi]. split; [done|]. intros Ho.
  destruct (Hi Ho) as (ts & _ & HI & Hth). split_and!; [apply HI..|]. intros i c n Hc Hup Hn.
  destruct (Hth i _ Hc) as [Ht _]. cbn in Ht. rewrite (token_some c n) in Ht by done.
  assert (Hin : Token (Some n) (c_key c) (c_updating c) None ∈ ts) by by eapply list_elem_of_lookup_2.
  destruct (i_ref _ _ HI _ n Hin eq_refl) as (x & Hx & Hk). exists x. split_and!; [done..|].
  rewrite (i_count _ _ HI n x Hx). pose proof (total_range (dels n) ts (dels_range n)).
  pose proof (total_range (refs n) ts (refs_range n)). destruct (Z.eqb_spec (total (refs n) ts) 0) as [E|E]; [|lia].
  pose proof (total_zero (refs n) ts (refs_range n) E _ Hin) as E1. unfold refs in E1. cbn in E1. by case_decide.
Qed.

(** The requests that have the node [n]. *)
Definition has_node (n : nat) (p : process) : Prop :=
  match p with Request c => c_updated c = false /\ c_node c = Some n | _ => False end.
#[export] Instance has_node_dec n p : Decision (has_node n p).
Proof. destruct p; cbn; apply _. Defined.

Lemma refs_of_process n p : refs n (process_token p) = if decide (has_node n p) then 1 else 0.
Proof.
  destruct p as [c| |]; unfold refs, process_token, token_of; cbn; try done.
  destruct (c_node c) as [m|], (c_updated c); cbn; repeat case_decide; try done; exfalso; intuition congruence.
Qed.

(** C13: No reference is lost and no update is left behind.  When no operation is
    in progress, the count of every node is the number of the requests that have
    it, nothing is being deleted, and a node that is marked as being updated is
    being updated by one of those requests, so whoever waits for it waits for
    somebody. *)
Theorem file_cache_counts w0 w ps n x : initial w0 -> rtc (pool_step starts) w0 w ->
  threads w = map Idle ps -> owner w = None -> nodes (the_zone w) !! n = Some x ->
  count x = Z.of_nat (length (filter (has_node n) ps)) /\ deleting x = false /\
  (updating x = true -> exists c, Request c ∈ ps /\ has_node n (Request c) /\ c_updating c = true).
Proof.
  intros H0 Hr Hps Ho Hx. destruct (reaches w0 w H0 Hr) as [_ Hi]. destruct (Hi Ho) as (ts & Hl & HI & Hth).
  assert (Hts : ts = map process_token ps).
  { apply list_eq. intros i. rewrite list_lookup_fmap. rewrite Hps, length_map in Hl. destruct (ps !! i) as [p|] eqn:E.
    - cbn. apply (Hth i p). rewrite Hps, list_lookup_fmap, E. done.
    - cbn. apply lookup_ge_None. apply lookup_ge_None in E. lia. }
  assert (Hd : total (dels n) ts = 0).
  { apply total_none. intros t Ht. rewrite Hts in Ht. apply list_elem_of_fmap in Ht as (p & -> & _).
    destruct p; [|done..]. unfold dels. cbn. by rewrite token_del. }
  assert (Hrefs : total (refs n) ts = Z.of_nat (length (filter (has_node n) ps))).
  { rewrite Hts. clear. induction ps as [|p ps IH]; [done|]. cbn [map]. rewrite total_cons, IH, refs_of_process.
    rewrite filter_cons. case_decide; cbn [length]; lia. }
  split_and!.
  - rewrite (i_count _ _ HI n x Hx). lia.
  - pose proof (i_deleting _ _ HI n x Hx) as E. destruct (deleting x); [|done]. cbn in E. lia.
  - intros Hu. destruct (i_updating _ _ HI n x Hx Hu) as (t & Ht & Hrt & Hut). rewrite Hts in Ht.
    apply list_elem_of_fmap in Ht as ([c| |] & -> & Hp); [|done..]. exists c. cbn in *. unfold token_of in *.
    destruct (c_node c) as [m|], (c_updated c); cbn in *; by simplify_eq.
Qed.

(** C38: Looking a key up finds a node with the key exactly when there is one. *)
Theorem file_cache_lookup w0 w k : initial w0 -> rtc (pool_step starts) w0 w -> owner w = None -> key_ok k ->
  exists o, ngx_http_file_cache_lookup k (the_zone w) = Some o /\
    match o with
    | Some n => exists x, nodes (the_zone w) !! n = Some x /\ key x = k
    | None => forall n x, nodes (the_zone w) !! n = Some x -> key x <> k
    end.
Proof.
  intros H0 Hr Ho Hk. destruct (reaches w0 w H0 Hr) as [_ Hi]. destruct (Hi Ho) as (ts & _ & HI & _).
  destruct (lookup_spec _ k _ (i_order _ _ HI) Hk) as (o & E & Hspec). exists o. split; [done|].
  destruct o as [n|].
  - destruct Hspec as [Hn Hkn]. rewrite (i_tree _ _ HI), (i_nodes _ _ HI) in Hn. destruct Hn as [x Hx].
    exists x. split; [done|]. unfold key_of in Hkn. by rewrite Hx in Hkn.
  - intros n x Hx. rewrite list.Forall_forall in Hspec. specialize (Hspec n). unfold key_of in Hspec. rewrite Hx in Hspec.
    apply Hspec. rewrite (i_tree _ _ HI). apply (i_nodes _ _ HI). by eexists.
Qed.

(** ** Expiring *)

(** The nodes that are due. *)
Definition is_due (m : memory) (now : Z) (n : nat) : Prop :=
  match m !! n with Some x => expire x <= now | None => False end.
#[export] Instance is_due_dec m now n : Decision (is_due m now n).
Proof. unfold is_due. destruct (m !! n); apply _. Defined.
Definition due (s : ngx_http_file_cache_sh_t) (now : Z) : nat := length (filter (is_due (nodes s) now) (queue s)).

(** A node of the queue that is no longer due, or no longer there. *)
Lemma due_less s s' now n q : queue s ≡ₚ n :: q -> is_due (nodes s) now n -> NoDup (n :: q) ->
  (queue s' ≡ₚ q \/ (queue s' ≡ₚ n :: q /\ ~ is_due (nodes s') now n)) ->
  (forall m, m ∈ q -> is_due (nodes s') now m <-> is_due (nodes s) now m) ->
  due s now = S (due s' now).
Proof.
  intros Hq Hn Hnd Hq' Hsame. apply list.NoDup_cons in Hnd as [Hnq _].
  assert (Hf : length (filter (is_due (nodes s') now) q) = length (filter (is_due (nodes s) now) q)).
  { clear -Hsame. induction q as [|m q IH]; [done|]. rewrite !filter_cons.
    destruct (Hsame m) as [H1 H2]; [apply elem_of_cons; by left|].
    assert (IH' := IH (fun m Hm => Hsame m (proj2 (elem_of_cons _ _ _) (or_intror Hm)))).
    repeat case_decide; cbn [length]; tauto || lia. }
  unfold due. rewrite Hq, filter_cons. rewrite decide_True by done. cbn [length].
  destruct Hq' as [Hq'|[Hq' Hn']]; rewrite Hq'; [|rewrite filter_cons, decide_False by done]; by rewrite Hf.
Qed.

(** Deleting a node alone frees it. *)
Lemma delete_alone n s t ts x (Q : unit -> ngx_http_file_cache_sh_t -> Prop) : Inv s (t :: ts) -> nodes s !! n = Some x ->
  count x = 0 ->
  (forall s', Inv s' (t :: ts) -> queue s' = queue_remove n (queue s) -> nodes s' = delete n (nodes s) -> Q tt s') ->
  ends_alone (ngx_http_file_cache_delete n) s Q.
Proof.
  intros Hi Hx Hc HQ. unfold ngx_http_file_cache_delete, delete_begin. cbn. rewrite Hx. cbn [mbind option_bind].
  destruct (exists_ x) eqn:Ex; eexists _, _; (split; [done|]); cbn.
  - intros _. unfold delete_again. cbn. rewrite lookup_insert_eq. cbn [mbind option_bind]. eexists _, _. split; [done|].
    unfold delete_end. cbn. rewrite lookup_insert_eq. cbn [mbind option_bind]. rewrite Hc. cbn.
    change (wrap 20 (wrap 20 (0 + 1) - 1) =? 0) with true. eexists _, _. split; [done|].
    apply HQ; [|done | cbn; by rewrite !delete_insert_eq].
    eapply inv_ext; [by eapply (inv_free s _ n x)|done..|]. cbn. by rewrite !delete_insert_eq.
  - unfold delete_end. rewrite Hx. cbn [mbind option_bind]. rewrite Hc. cbn. eexists _, _. split; [done|].
    apply HQ; [by eapply inv_free | done..].
Qed.

#[local] Arguments ngx_http_file_cache_delete : simpl never.

Lemma expire_loop_ends fuel now s t ts : Inv s (t :: ts) -> 0 < inactive -> (due s now < fuel)%nat ->
  ends_alone (expire_loop fuel now) s (fun wait s' => 0 < wait <= 10 /\ Inv s' (t :: ts) /\
    match rev (queue s') with
    | [] => True
    | n :: _ => exists x, nodes s' !! n = Some x /\ (now < expire x \/ deleting x = true)
    end).
Proof.
  intros Hi Ha. revert s Hi. induction fuel as [|fuel IH]; intros s Hi Hd; [lia|]. cbn [expire_loop].
  apply ends_bind. unfold oldest. cbn. destruct (rev (queue s)) as [|n q] eqn:Eq.
  { exists s, None. split; [done|]. cbn. by rewrite Eq. }
  assert (Hq : queue s ≡ₚ n :: rev q).
  { rewrite <- (rev_involutive (queue s)), Eq. cbn. rewrite Permutation_app_comm. done. }
  destruct (proj1 (i_nodes _ _ Hi n)) as [x Hx]; [rewrite Hq; apply elem_of_cons; by left|]. rewrite Hx. cbn [mbind option_bind].
  eexists _, _. split; [done|]. cbn. destruct (Z.ltb_spec 0 (expire x - now)).
  { cbn. rewrite Eq. split; [destruct (Z.ltb_spec 10 (expire x - now)); lia|]. split; [done|]. exists x. split; [done|]. left. lia. }
  assert (Hdue : is_due (nodes s) now n) by (unfold is_due; rewrite Hx; lia).
  assert (Hnd : NoDup (n :: rev q)) by (rewrite <- Hq; apply Hi).
  assert (Hin : n ∈ queue s) by (rewrite Hq; apply elem_of_cons; by left).
  pose proof Hnd as [Hnq _]%list.NoDup_cons.
  destruct (Z.eqb_spec (count x) 0) as [Ec|Ec].
  - apply ends_bind. eapply delete_alone; [done..|]. intros s' Hi' Hqs Hns. apply IH; [done|].
    assert (E : due s now = S (due s' now)); [|lia].
    eapply (due_less s s' now n (rev q)); try done.
    + left. rewrite Hqs. apply (Permutation_cons_inv (a := n)). rewrite remove_perm by (done || apply Hi). done.
    + intros m Hm. unfold is_due. rewrite Hns, lookup_delete_ne; [done|]. by intros ->.
  - destruct (deleting x) eqn:Ed; cbn.
    { rewrite Eq. split; [lia|]. split; [done|]. exists x. split; [done|]. by right. }
    destruct (requeue_ok now n s _ x Hi Hx) as (s' & E' & Hi'). eexists _, _. split; [exact E'|]. apply IH; [done|].
    unfold requeue in E'. rewrite Hx in E'. cbn in E'. simplify_eq.
    assert (E : due s now = S (due (put n (x <| expire := now + inactive |>) s) <| queue := n :: queue_remove n (queue s) |> now)); [|lia].
    eapply (due_less s _ now n (rev q)); try done.
    + right. split; [cbn; rewrite remove_perm by (done || apply Hi); done|]. unfold is_due. cbn.
      rewrite lookup_insert_eq. cbn. lia.
    + intros m Hm. unfold is_due. cbn. rewrite lookup_insert_ne; [done|]. by intros <-.
Qed.

(** The loop of [ngx_http_file_cache_expire], which keeps the mutex, ends
    when [inactive] is not zero, with no more turns than there are nodes and
    one: a node that is due is deleted, or sent back to the head of the queue
    when a request has it.  Then the oldest node is not due, or is being deleted,
    and the manager waits for a second at least. *)
Theorem file_cache_expire_ends w0 w fuel now : initial w0 -> rtc (pool_step starts) w0 w -> owner w = None ->
  threads w <> [] -> 0 < inactive -> (length (queue (the_zone w)) < fuel)%nat ->
  ends_alone (expire_loop fuel now) (the_zone w) (fun wait s' => 0 < wait <= 10 /\
    match rev (queue s') with
    | [] => True
    | n :: _ => exists x, nodes s' !! n = Some x /\ (now < expire x \/ deleting x = true)
    end).
Proof.
  intros H0 Hr Ho Hne Ha Hf. destruct (reaches w0 w H0 Hr) as [_ Hi]. destruct (Hi Ho) as (ts & Hl & HI & _).
  destruct ts as [|t ts]; [by destruct (threads w)|].
  assert (Hdue : (due (the_zone w) now < fuel)%nat).
  { unfold due. pose proof (length_filter (is_due (nodes (the_zone w)) now) (queue (the_zone w))). lia. }
  eapply ends_mono; [by eapply expire_loop_ends|]. intros wait s' (? & _ & ?). done.
Qed.

(** With [inactive] zero the loop never ends while a request has the only node:
    its time is renewed to what it is. *)
Lemma expire_spins fuel now s n x (Q : Z -> ngx_http_file_cache_sh_t -> Prop) : inactive = 0 -> queue s = [n] ->
  nodes s !! n = Some x -> count x <> 0 -> deleting x = false -> expire x <= now -> ~ ends_alone (expire_loop fuel now) s Q.
Proof.
  intros Ha. revert s x. induction fuel as [|fuel IH]; intros s x Hq Hx Hc Hd He; [intros []|].
  cbn [expire_loop]. unfold oldest. cbn. rewrite Hq. cbn. rewrite Hx. cbn. intros (s' & b & E & Hend). simplify_eq. revert Hend.
  replace (0 <? expire x - now) with false by (symmetry; lia). replace (count x =? 0) with false by (symmetry; lia). rewrite Hd. cbn.
  intros (s'' & u & E & Hend). unfold requeue in E. rewrite Hx in E. cbn in E. simplify_eq. revert Hend.
  eapply (IH _ (x <| expire := now + inactive |>)); cbn; try done.
  - rewrite Hq. unfold queue_remove. rewrite filter_cons, decide_False by tauto. done.
  - by rewrite lookup_insert_eq.
  - lia.
Qed.

(** ** The header of a file *)

Lemma load_bytes n z : load_le (bytes_le n z) = z mod 256 ^ Z.of_nat n.
Proof.
  revert z. induction n as [|n IH]; intros z; [by rewrite Z.mod_1_r|]. unfold load_le in *. cbn [bytes_le foldr].
  rewrite IH, Nat2Z.inj_succ, Z.pow_succ_r by lia. rewrite Z.rem_mul_r by lia. lia.
Qed.

Lemma length_bytes n z : length (bytes_le n z) = n.
Proof. revert z. induction n as [|n IH]; intros z; cbn; [done|]. by rewrite IH. Qed.

(** What [decode_header] finds, in terms of the bytes. *)
Lemma decode_encoded h rest : decode_header (encode_header h ++ rest)
  = Header (swrap 64 (load_le (bytes_le 8 (h_valid_sec h)))) (swrap 64 (load_le (bytes_le 8 (h_last_modified h))))
      (swrap 64 (load_le (bytes_le 8 (h_date h)))) (load_le (bytes_le 4 (h_crc32 h))) (load_le (bytes_le 2 (h_valid_msec h)))
      (load_le (bytes_le 2 (h_header_start h))) (load_le (bytes_le 2 (h_body_start h))).
Proof. reflexivity. Qed.

Lemma swrap_mod z : - 2 ^ 63 <= z < 2 ^ 63 -> swrap 64 (z mod 256 ^ Z.of_nat 8) = z.
Proof.
  intros Hz. unfold swrap. change (256 ^ Z.of_nat 8) with (2 ^ 64). change (2 ^ (64 - 1)) with (2 ^ 63).
  rewrite Zplus_mod_idemp_l. rewrite Z.mod_small by lia. lia.
Qed.

(** C32: The header that is written before a response is read back as it was: the times,
    the key's checksum and where the response and its body start; and it is as long as
    [c->header_start] says. This takes offsets and milliseconds below 2^16, for which
    the header has sixteen bits: nothing in the source makes sure of it, and larger ones
    are cut off. *)
Theorem cache_header_roundtrip c0 body : let c := ngx_http_file_cache_create_key c0 in
  - 2 ^ 63 <= c_valid_sec c < 2 ^ 63 -> - 2 ^ 63 <= c_last_modified c < 2 ^ 63 -> - 2 ^ 63 <= c_date c < 2 ^ 63 ->
  0 <= c_crc32 c < 2 ^ 32 -> 0 <= c_valid_msec c < 2 ^ 16 -> 0 <= c_header_start c < 2 ^ 16 -> 0 <= c_body_start c < 2 ^ 16 ->
  let file := ngx_http_file_cache_set_header c ++ body in
  decode_header file = Header (c_valid_sec c) (c_last_modified c) (c_date c) (c_crc32 c) (c_valid_msec c) (c_header_start c)
    (c_body_start c) /\
  drop (Z.to_nat (c_header_start c)) file = body.
Proof.
  intros c H1 H2 H3 H4 H5 H6 H7 file. unfold file, ngx_http_file_cache_set_header. split.
  - rewrite <- app_assoc, decode_encoded. cbn [h_valid_sec h_last_modified h_date h_crc32 h_valid_msec h_header_start h_body_start].
    rewrite !load_bytes. rewrite !swrap_mod by done. f_equal; rewrite ?wrap_small by done; by apply Z.mod_small.
  - apply drop_app_length'. rewrite !length_app. unfold encode_header. rewrite !length_app, !length_bytes.
    cbn [length repeat]. unfold c, ngx_http_file_cache_create_key. cbn [c_header_start c_keys set_field set_c_header_start set_c_crc32 set_c_key].
    change (Z.of_nat (length cache_key_text)) with 6. change (length cache_key_text) with 6%nat. unfold sizeof_header. lia.
Qed.
End Cache.

(** ** Runs *)

Section Runs.
#[local] Instance small : Core := server 4 10 1000.
Definition some_key : list (list Z) := [bytes_of "a"].

(** Two requests for one file, the second of which waits for the first. *)
Definition two_requests : world := play (start_world 2)
  [(0, Some (New some_key 1 true), 99, answers 100 false); (0, Some Open, 99, answers 100 false);
   (1, Some (New some_key 1 true), 99, answers 100 false); (1, Some Open, 99, answers 100 false)]%nat.

Lemma file_cache_safe_witness : ~ faulty two_requests /\
  exists c n x, threads two_requests !! 1%nat = Some (Idle (Request c)) /\ c_node c = Some n /\
    nodes (the_zone two_requests) !! n = Some x /\ key x = c_key c /\ 0 < count x.
Proof.
  destruct (file_cache_safe (start_world 2) two_requests) as [Hf Hs]; [by apply start_initial | apply play_sound|].
  split; [exact Hf|]. destruct Hs as (_ & _ & _ & Hs); [by vm_compute|].
  eexists _, 0%nat. destruct (Hs 1%nat _ 0%nat ltac:(by vm_compute) ltac:(by vm_compute) ltac:(by vm_compute)) as (x & Hx & Hk & Hc).
  exists x. split; [by vm_compute|]. split; [by vm_compute|]. by split_and!.
Defined.

Lemma file_cache_counts_witness : exists x, nodes (the_zone two_requests) !! 0%nat = Some x /\ count x = 2 /\
  exists c, c_updating c = true /\ has_node 0 (Request c).
Proof.
  eexists. split; [by vm_compute|].
  destruct (file_cache_counts (start_world 2) two_requests
    (map (fun t => match t with Idle p => p | _ => Manager end) (threads two_requests)) 0%nat _
    ltac:(by apply start_initial) (play_sound _ _) ltac:(by vm_compute) ltac:(by vm_compute) ltac:(by vm_compute)) as (_ & _ & Hu).
  split; [by vm_compute|]. destruct Hu as (c & _ & Hn & Hc); [by vm_compute|]. by exists c.
Defined.

Lemma file_cache_lookup_witness : exists n x,
  ngx_http_file_cache_lookup (ngx_md5 (bytes_of "a")) (the_zone two_requests) = Some (Some n) /\
  nodes (the_zone two_requests) !! n = Some x /\ key x = ngx_md5 (bytes_of "a").
Proof.
  destruct (file_cache_lookup (start_world 2) two_requests (ngx_md5 (bytes_of "a")) ltac:(by apply start_initial)
    (play_sound _ _) ltac:(by vm_compute) (md5_key _)) as (o & E & Ho).
  destruct o as [n|]; [|by vm_compute in E]. destruct Ho as (x & Hx & Hk). exists n, x. exact (conj E (conj Hx Hk)).
Defined.

Lemma file_cache_expire_ends_witness : ends_alone (expire_loop 2 1000) (the_zone two_requests) (fun wait s' => 0 < wait <= 10 /\
    match rev (queue s') with
    | [] => True
    | n :: _ => exists x, nodes s' !! n = Some x /\ (1000 < expire x \/ deleting x = true)
    end).
Proof.
  apply (file_cache_expire_ends (start_world 2) two_requests); [by apply start_initial | apply play_sound | by vm_compute | by vm_compute | done |].
  vm_compute. lia.
Defined.

Lemma cache_header_roundtrip_witness : let c := ngx_http_file_cache_create_key (zero_cache some_key 1 200 0 false) in
  drop (Z.to_nat (c_header_start c)) (ngx_http_file_cache_set_header c ++ bytes_of "HTTP/1.1 200") = bytes_of "HTTP/1.1 200".
Proof. apply (cache_header_roundtrip (zero_cache some_key 1 200 0 false)); by vm_compute. Defined.

(** ** What goes wrong *)

(** A request that gets a node while its file is being deleted keeps it, and the
    size has lost its blocks: the file is written again, and counts for nothing. *)
Definition deleted_in_between : world := play (start_world 2)
  [(0, Some (New some_key 1 false), 99, answers 100 false); (0, Some Open, 99, answers 100 false);
   (0, Some Update, 99, answers 100 false); (2, Some (Manage 9), 7, answers 1000 false);
   (1, Some (New some_key 1 false), 99, answers 1000 false); (1, Some Open, 99, answers 1000 false);
   (2, None, 99, answers 1000 false); (1, Some Update, 99, answers 1000 false)]%nat.

Definition sizes (w : world) : Z := map_fold (fun _ x z => fs_size x + z) 0 (nodes (the_zone w)).

Lemma size_lost : rtc (pool_step starts) (start_world 2) deleted_in_between /\ owner deleted_in_between = None /\
  size (the_zone deleted_in_between) = 0 /\ sizes deleted_in_between = 1.
Proof. split; [apply play_sound | by vm_compute]. Qed.

(** An error that was kept for a time makes a node new again, with no blocks, but
    the size keeps those of its file: the next file counts twice. *)
Definition renewed : world := play (start_world 3)
  [(0, Some (New some_key 1 false), 99, answers 100 false); (0, Some Open, 99, answers 100 false);
   (0, Some Update, 99, answers 100 false);
   (1, Some (New some_key 1 false), 99, answers 101 true); (1, Some Open, 99, answers 101 true);
   (1, Some (Answer 103 502), 99, answers 101 true); (1, Some Release, 99, answers 101 true);
   (2, Some (New some_key 1 false), 99, answers 105 true); (2, Some Open, 99, answers 105 false);
   (2, Some Update, 99, answers 105 true)]%nat.

Lemma size_doubled : rtc (pool_step starts) (start_world 3) renewed /\ owner renewed = None /\
  size (the_zone renewed) = 2 /\ sizes renewed = 1.
Proof. split; [apply play_sound | by vm_compute]. Qed.

(** A request that finds no memory releases the mutex to make room; meanwhile
    another one makes a node for the same key, and then there are two. *)
Definition keys_of (w : world) : list (list Z) := map (key_of (nodes (the_zone w))) (inorder (rbtree (the_zone w))).
Definition stored (i : nat) (k : list (list Z)) : list (nat * option command * nat * (forall B, event B -> B)) :=
  [(i, Some (New k 1 false), 99, answers 100 false); (i, Some Open, 99, answers 100 false);
   (i, Some Update, 99, answers 100 false)]%nat.
Definition no_room : world := play (start_world 2)
  (stored 0 [bytes_of "x"] ++ stored 0 [bytes_of "y"] ++ stored 0 [bytes_of "z"] ++ stored 0 [bytes_of "u"] ++
   [(0, Some (New some_key 1 false), 99, answers 100 false); (0, Some Open, 7, answers 100 false);
    (2, Some (Manage 9), 99, answers 1000 false);
    (1, Some (New some_key 1 false), 99, answers 1000 false); (1, Some Open, 99, answers 1000 false);
    (0, None, 99, answers 1000 false)])%nat.

Lemma key_twice : rtc (pool_step starts) (start_world 2) no_room /\ owner no_room = None /\
  keys_of no_room = [ngx_md5 (bytes_of "a"); ngx_md5 (bytes_of "a")].
Proof. split; [apply play_sound | by vm_compute]. Qed.

End Runs.
End FileCacheProps.
