(* ===== verification/HeaderFilter.v ===== *)
(** * The header filter

    From [ngx_http_header_filter_module.c]: the status line and the headers of a
    response, written into one buffer whose size is counted before.  The
    counting and the writing are two passes over the same fields
    ([count_header], [write_header]); the first one also settles what the second
    one prints. *)

From S2P Require Import Prelude HeaderLine.

Module HeaderFilter.

(** An element of [r->headers_out.headers]; [hash = 0] disables it. *)
Abbreviation ngx_table_elt_t := HeaderLine.HeaderLine.ngx_table_elt.
Abbreviation Elt := HeaderLine.HeaderLine.Elt.
Abbreviation hash := HeaderLine.HeaderLine.hash.
Abbreviation key := HeaderLine.HeaderLine.key.
Abbreviation value := HeaderLine.HeaderLine.value.
Abbreviation lowcase_key := HeaderLine.HeaderLine.lowcase_key.

(** [ngx_http_headers_out_t]; of the headers that are only compared with NULL,
    whether they are there. *)
Record ngx_http_headers_out_t := HeadersOut {
  headers : list ngx_table_elt_t;
  status : Z;
  status_line : list Z;
  server : bool;
  date : bool;
  content_length : bool;
  last_modified : bool;
  location : option nat;   (** an index of [headers] *)
  content_type_len : Z;
  content_type : list Z;
  charset : list Z;
  content_length_n : Z;
  last_modified_time : Z;
}.

Definition eta_out (o : ngx_http_headers_out_t) : ngx_http_headers_out_t :=
  HeadersOut (headers o) (status o) (status_line o) (server o) (date o) (content_length o) (last_modified o) (location o)
    (content_type_len o) (content_type o) (charset o) (content_length_n o) (last_modified_time o).
#[export] Instance set_headers : Setter headers := ltac:(derive_setter eta_out headers).
#[export] Instance set_content_length : Setter content_length := ltac:(derive_setter eta_out content_length).
#[export] Instance set_last_modified : Setter last_modified := ltac:(derive_setter eta_out last_modified).
#[export] Instance set_content_type : Setter content_type := ltac:(derive_setter eta_out content_type).
#[export] Instance set_content_length_n : Setter content_length_n := ltac:(derive_setter eta_out content_length_n).
#[export] Instance set_last_modified_time : Setter last_modified_time := ltac:(derive_setter eta_out last_modified_time).

(** The fields of the request that the filter uses, and of its connection. *)
Inductive sockaddr := AF_INET6 (port : Z) | AF_UNIX | AF_INET (port : Z).

Record ngx_http_request_t := Request {
  header_sent : bool;
  is_main : bool;   (** [r == r->main] *)
  http_version : Z;
  method : Z;
  header_only : bool;
  out : ngx_http_headers_out_t;   (** [headers_out] *)
  in_server : list Z;   (** [headers_in.server] *)
  chunked : bool;
  keepalive : bool;
  gzip_vary : bool;
  header_size : Z;
  local_sockaddr : sockaddr;
  ssl : bool;
}.

Definition eta_request (r : ngx_http_request_t) : ngx_http_request_t :=
  Request (header_sent r) (is_main r) (http_version r) (method r) (header_only r) (out r) (in_server r) (chunked r)
    (keepalive r) (gzip_vary r) (header_size r) (local_sockaddr r) (ssl r).
#[export] Instance set_header_sent : Setter header_sent := ltac:(derive_setter eta_request header_sent).
#[export] Instance set_header_only : Setter header_only := ltac:(derive_setter eta_request header_only).
#[export] Instance set_out : Setter out := ltac:(derive_setter eta_request out).
#[export] Instance set_gzip_vary : Setter gzip_vary := ltac:(derive_setter eta_request gzip_vary).
#[export] Instance set_header_size : Setter header_size := ltac:(derive_setter eta_request header_size).

(** The settings of the location and of the server block. *)
Record conf := Conf {
  server_tokens : bool;
  server_name_in_redirect : bool;
  port_in_redirect : bool;
  keepalive_header : Z;
  gzip_vary_on : bool;   (** [clcf->gzip_vary] *)
  server_name : list Z;
}.

Definition NGX_HTTP_VERSION_10 : Z := 1000.
Definition NGX_HTTP_HEAD : Z := 4.
Definition NGX_HTTP_SWITCHING_PROTOCOLS : Z := 101.
Definition NGX_HTTP_OK : Z := 200.
Definition NGX_HTTP_NO_CONTENT : Z := 204.
Definition NGX_HTTP_PARTIAL_CONTENT : Z := 206.
Definition NGX_HTTP_MOVED_PERMANENTLY : Z := 301.
Definition NGX_HTTP_NOT_MODIFIED : Z := 304.
Definition NGX_HTTP_BAD_REQUEST : Z := 400.
Definition NGX_HTTP_INTERNAL_SERVER_ERROR : Z := 500.

(** [sizeof("-9223372036854775808") - 1], [sizeof("-9223372036854775808") - 1] *)
Definition NGX_INT_T_LEN : Z := 20.
Definition NGX_OFF_T_LEN : Z := 20.
Definition NGX_TIME_T_LEN : Z := 20.

(** ** The status lines *)

(** [ngx_null_string] is the empty one. *)
Definition ngx_http_status_lines : list (list Z) := [
  bytes_of "200 OK"; bytes_of "201 Created"; bytes_of "202 Accepted"; []; bytes_of "204 No Content"; [];
  bytes_of "206 Partial Content";
  bytes_of "301 Moved Permanently"; bytes_of "302 Moved Temporarily"; bytes_of "303 See Other";
  bytes_of "304 Not Modified"; []; []; bytes_of "307 Temporary Redirect";
  bytes_of "400 Bad Request"; bytes_of "401 Unauthorized"; bytes_of "402 Payment Required"; bytes_of "403 Forbidden";
  bytes_of "404 Not Found"; bytes_of "405 Not Allowed"; bytes_of "406 Not Acceptable"; [];
  bytes_of "408 Request Time-out"; bytes_of "409 Conflict"; bytes_of "410 Gone"; bytes_of "411 Length Required";
  bytes_of "412 Precondition Failed"; bytes_of "413 Request Entity Too Large"; bytes_of "414 Request-URI Too Large";
  bytes_of "415 Unsupported Media Type"; bytes_of "416 Requested Range Not Satisfiable";
  bytes_of "500 Internal Server Error"; bytes_of "501 Not Implemented"; bytes_of "502 Bad Gateway";
  bytes_of "503 Service Temporarily Unavailable"; bytes_of "504 Gateway Time-out"; []; [];
  bytes_of "507 Insufficient Storage"].
Definition NGX_HTTP_LAST_2XX : Z := 207.
Definition NGX_HTTP_OFF_3XX : Z := NGX_HTTP_LAST_2XX - 200.
Definition NGX_HTTP_LAST_3XX : Z := 308.
Definition NGX_HTTP_OFF_4XX : Z := NGX_HTTP_LAST_3XX - 301 + NGX_HTTP_OFF_3XX.
Definition NGX_HTTP_LAST_4XX : Z := 417.
Definition NGX_HTTP_OFF_5XX : Z := NGX_HTTP_LAST_4XX - 400 + NGX_HTTP_OFF_4XX.
Definition NGX_HTTP_LAST_5XX : Z := 508.

Definition str_len (s : list Z) : Z := Z.of_nat (length s).
Definition CRLF : list Z := [CR; LF].

(** [status_line] of the local variables: a pointer into the table, or NULL;
    [None] on the outside is an index past the table. *)
Definition status_entry (st : Z) : option (list Z) :=
  let at_ i := ngx_http_status_lines !! Z.to_nat i in
  if (NGX_HTTP_OK <=? st) && (st <? NGX_HTTP_LAST_2XX) then at_ (st - NGX_HTTP_OK)
  else if (NGX_HTTP_MOVED_PERMANENTLY <=? st) && (st <? NGX_HTTP_LAST_3XX)
  then at_ (st - NGX_HTTP_MOVED_PERMANENTLY + NGX_HTTP_OFF_3XX)
  else if (NGX_HTTP_BAD_REQUEST <=? st) && (st <? NGX_HTTP_LAST_4XX)
  then at_ (st - NGX_HTTP_BAD_REQUEST + NGX_HTTP_OFF_4XX)
  else if (NGX_HTTP_INTERNAL_SERVER_ERROR <=? st) && (st <? NGX_HTTP_LAST_5XX)
  then at_ (st - NGX_HTTP_INTERNAL_SERVER_ERROR + NGX_HTTP_OFF_5XX)
  else Some [].

(** What the branches for 204 and 304 change. *)
Definition status_effects (r : ngx_http_request_t) : ngx_http_request_t :=
  if status (out r) =? NGX_HTTP_NO_CONTENT then
    r <| header_only := true |>
      <| out := (out r) <| content_type := [] |> <| last_modified_time := -1 |> <| last_modified := false |>
                  <| content_length := false |> <| content_length_n := -1 |> |>
  else if status (out r) =? NGX_HTTP_NOT_MODIFIED then r <| header_only := true |>
  else r.

(** ** The nginx core *)

Class Core := {
  (** [ngx_sprintf] of one unsigned number with "%0wui", [w] digits at least *)
  ngx_sprintf : nat -> Z -> list Z;
  ngx_http_time : Z -> list Z;
  ngx_cached_http_time : list Z;
  NGX_VER : list Z;
  (** [ngx_connection_local_sockaddr]: the text of the address *)
  ngx_connection_local_sockaddr : sockaddr -> option (list Z);
  ngx_create_temp_buf : Z -> bool;
  ngx_http_write_filter : list Z -> bool -> ngx_rc;   (** a buffer and its [last_buf] *)
}.

Section Filter.
Context `{Core} (clcf : conf).

Definition ngx_http_server_string : list Z := bytes_of "Server: nginx" ++ CRLF.
Definition ngx_http_server_full_string : list Z := bytes_of "Server: " ++ NGX_VER ++ CRLF.

(** ** The redirect *)

(** The branch on [location]: [host] and [port], for a location that starts
    with "/"; [None] on the outside is [NGX_ERROR]. *)
Definition port_of (a : sockaddr) : Z := match a with AF_INET6 p | AF_INET p => p | AF_UNIX => 0 end.

Definition redirect (r : ngx_http_request_t) : option (option (list Z * Z)) :=
  match location (out r) with
  | Some i =>
      match headers (out r) !! i with
      | Some h =>
          if bool_decide (head (value h) = Some "/"%c) then
            host ← (if server_name_in_redirect clcf then Some (server_name clcf)
                    else if negb (bool_decide (in_server r = [])) then Some (in_server r)
                    else ngx_connection_local_sockaddr (local_sockaddr r));
            let port := port_of (local_sockaddr r) in
            Some (Some (host, if port_in_redirect clcf
                              then (if ssl r then (if port =? 443 then 0 else port) else (if port =? 80 then 0 else port))
                              else 0))
          else Some None
      | None => Some None
      end
  | None => Some None
  end.

(** The value of the element of the location. *)
Definition location_value (o : ngx_http_headers_out_t) : list Z :=
  match location o with
  | Some i => match headers o !! i with Some h => value h | None => [] end
  | None => []
  end.

(** [r->headers_out.location->hash = 0] *)
Definition hide_location (o : ngx_http_headers_out_t) : ngx_http_headers_out_t :=
  match location o with
  | Some i => match headers o !! i with
              | Some h => o <| headers := <[i := Elt 0 (key h) (value h) (lowcase_key h)]> (headers o) |>
              | None => o
              end
  | None => o
  end.

(** ** Counting *)

Definition with_charset (o : ngx_http_headers_out_t) : bool :=
  (content_type_len o =? str_len (content_type o)) && negb (bool_decide (charset o = [])).

Definition count_status (o : ngx_http_headers_out_t) (line : list Z) : Z :=
  if bool_decide (line = []) then NGX_INT_T_LEN else str_len line.

Definition count_content_type (o : ngx_http_headers_out_t) : Z :=
  if bool_decide (content_type o = []) then 0
  else str_len (bytes_of "Content-Type: ") + str_len (content_type o) + 2
       + (if with_charset o then str_len (bytes_of "; charset=") + str_len (charset o) else 0).

Definition count_location (o : ngx_http_headers_out_t) (red : option (list Z * Z)) : Z :=
  match red with
  | Some (host, port) =>
      str_len (bytes_of "Location: https://") + str_len host + str_len (location_value o) + 2
      + (if port =? 0 then 0 else str_len (bytes_of ":65535"))
  | None => 0
  end.

Definition count_connection (r : ngx_http_request_t) : Z :=
  if status (out r) =? NGX_HTTP_SWITCHING_PROTOCOLS then str_len (bytes_of "Connection: upgrade" ++ CRLF)
  else if keepalive r then
    str_len (bytes_of "Connection: keep-alive" ++ CRLF)
    + (if keepalive_header clcf =? 0 then 0 else str_len (bytes_of "Keep-Alive: timeout=") + NGX_TIME_T_LEN + 2)
  else str_len (bytes_of "Connection: close" ++ CRLF).

(** The loop over the list of headers. *)
Fixpoint count_headers (hs : list ngx_table_elt_t) : Z :=
  match hs with
  | [] => 0
  | h :: hs =>
      if hash h =? 0 then count_headers hs
      else str_len (key h) + 2 + str_len (value h) + 2 + count_headers hs
  end.

Definition date_line : list Z := bytes_of "Date: Mon, 28 Sep 1970 06:00:00 GMT" ++ CRLF.
Definition last_modified_line : list Z := bytes_of "Last-Modified: Mon, 28 Sep 1970 06:00:00 GMT" ++ CRLF.

(** [len] before [ngx_create_temp_buf]. *)
Definition count_header (r : ngx_http_request_t) (line : list Z) (red : option (list Z * Z)) : Z :=
  let o := out r in
  str_len (bytes_of "HTTP/1.x ") + 2 + 2
  + count_status o line
  + (if server o then 0 else str_len (if server_tokens clcf then ngx_http_server_full_string else ngx_http_server_string))
  + (if date o then 0 else str_len date_line)
  + count_content_type o
  + (if negb (content_length o) && (0 <=? content_length_n o)
     then str_len (bytes_of "Content-Length: ") + NGX_OFF_T_LEN + 2 else 0)
  + (if negb (last_modified o) && negb (last_modified_time o =? -1) then str_len last_modified_line else 0)
  + count_location o red
  + (if chunked r then str_len (bytes_of "Transfer-Encoding: chunked" ++ CRLF) else 0)
  + count_connection r
  + (if gzip_vary r then str_len (bytes_of "Vary: Accept-Encoding" ++ CRLF) else 0)
  + count_headers (headers o).

(** ** Writing *)

Definition write_content_type (o : ngx_http_headers_out_t) : list Z :=
  content_type o ++ (if with_charset o then bytes_of "; charset=" ++ charset o else []).

(** The value of "Location". *)
Definition write_location (r : ngx_http_request_t) (host : list Z) (port : Z) : list Z :=
  bytes_of "http" ++ (if ssl r then bytes_of "s" else []) ++ bytes_of "://" ++ host
  ++ (if port =? 0 then [] else bytes_of ":" ++ ngx_sprintf 0 port) ++ location_value (out r).

Fixpoint write_headers (hs : list ngx_table_elt_t) : list Z :=
  match hs with
  | [] => []
  | h :: hs =>
      if hash h =? 0 then write_headers hs
      else key h ++ bytes_of ": " ++ value h ++ CRLF ++ write_headers hs
  end.

Definition write_status (o : ngx_http_headers_out_t) (line : list Z) : list Z :=
  if bool_decide (line = []) then ngx_sprintf 3 (status o) else line.

Definition write_header (r : ngx_http_request_t) (line : list Z) (red : option (list Z * Z)) : list Z :=
  let o := out r in
  bytes_of "HTTP/1.1 " ++ write_status o line ++ CRLF
  ++ (if server o then [] else if server_tokens clcf then ngx_http_server_full_string else ngx_http_server_string)
  ++ (if date o then [] else bytes_of "Date: " ++ ngx_cached_http_time ++ CRLF)
  ++ (if bool_decide (content_type o = []) then [] else bytes_of "Content-Type: " ++ write_content_type o ++ CRLF)
  ++ (if negb (content_length o) && (0 <=? content_length_n o)
      then bytes_of "Content-Length: " ++ ngx_sprintf 0 (content_length_n o) ++ CRLF else [])
  ++ (if negb (last_modified o) && negb (last_modified_time o =? -1)
      then bytes_of "Last-Modified: " ++ ngx_http_time (last_modified_time o) ++ CRLF else [])
  ++ match red with
     | Some (host, port) => bytes_of "Location: " ++ write_location r host port ++ CRLF
     | None => []
     end
  ++ (if chunked r then bytes_of "Transfer-Encoding: chunked" ++ CRLF else [])
  ++ (if status o =? NGX_HTTP_SWITCHING_PROTOCOLS then bytes_of "Connection: upgrade" ++ CRLF
      else if keepalive r then
        bytes_of "Connection: keep-alive" ++ CRLF
        ++ (if keepalive_header clcf =? 0 then []
            else bytes_of "Keep-Alive: timeout=" ++ ngx_sprintf 0 (keepalive_header clcf) ++ CRLF)
      else bytes_of "Connection: close" ++ CRLF)
  ++ (if gzip_vary r then bytes_of "Vary: Accept-Encoding" ++ CRLF else [])
  ++ write_headers (headers o)
  ++ CRLF.

(** What the writing leaves for the log. *)
Definition logged (r : ngx_http_request_t) (red : option (list Z * Z)) : ngx_http_request_t :=
  let o := out r in
  let o := if negb (bool_decide (content_type o = [])) && with_charset o
           then o <| content_type := write_content_type o |> else o in
  let o := match red, location o with
           | Some (host, port), Some i =>
               match headers o !! i with
               | Some h => o <| headers := <[i := Elt (hash h) (bytes_of "Location") (write_location r host port)
                                                   (lowcase_key h)]> (headers o) |>
               | None => o
               end
           | _, _ => o
           end in
  r <| out := o |>.

(** ** The filter *)

(** Up to the counting: the request, and [status_line] ([[]] is NULL) with the
    redirect.  [Overread] is an index past the table of lines. *)
Inductive prepared := Overread | Failed | Ready (line : list Z) (red : option (list Z * Z)).

Definition prepare_redirect (r : ngx_http_request_t) (line : list Z) : ngx_http_request_t * prepared :=
  match redirect r with
  | None => (r <| out := hide_location (out r) |>, Failed)
  | Some red =>
      let r := match red with Some _ => r <| out := hide_location (out r) |> | None => r end in
      (if gzip_vary r && negb (gzip_vary_on clcf) then r <| gzip_vary := false |> else r, Ready line red)
  end.

(** Before the status line. *)
Definition head_only (r : ngx_http_request_t) : ngx_http_request_t :=
  if method r =? NGX_HTTP_HEAD then r <| header_only := true |> else r.

Definition forget_modified (r : ngx_http_request_t) : ngx_http_request_t :=
  let o := out r in
  if negb (last_modified_time o =? -1) && negb (status o =? NGX_HTTP_OK)
     && negb (status o =? NGX_HTTP_PARTIAL_CONTENT) && negb (status o =? NGX_HTTP_NOT_MODIFIED)
  then r <| out := o <| last_modified_time := -1 |> <| last_modified := false |> |> else r.

Definition prepare (r : ngx_http_request_t) : ngx_http_request_t * prepared :=
  let r := forget_modified (head_only r) in
  if negb (bool_decide (status_line (out r) = [])) then prepare_redirect r (status_line (out r))
  else
    match status_entry (status (out r)) with
    | None => (r, Overread)
    | Some line => prepare_redirect (status_effects r) line
    end.

(** With the request and, when there was one, the buffer: its size and what was
    written into it. *)
Definition ngx_http_header_filter (r : ngx_http_request_t)
    : ngx_rc * ngx_http_request_t * option (Z * list Z) :=
  if header_sent r then (NGX_OK, r, None)
  else
    let r := r <| header_sent := true |> in
    if negb (is_main r) then (NGX_OK, r, None)
    else if http_version r <? NGX_HTTP_VERSION_10 then (NGX_OK, r, None)
    else
      match prepare r with
      | (r, Overread) | (r, Failed) => (NGX_ERROR, r, None)
      | (r, Ready line red) =>
          let len := count_header r line red in
          if negb (ngx_create_temp_buf len) then (NGX_ERROR, r, None)
          else
            let b := write_header r line red in
            let r := (logged r red) <| header_size := str_len b |> in
            (ngx_http_write_filter b (header_only r), r, Some (len, b))
      end.
End Filter.
End HeaderFilter.
