(* ===== verification/HeaderFilterProps.v ===== *)
(** * What the header filter promises

    The buffer it asks for is large enough, and the upstream parsers of the
    same program read its output back: the status, and exactly the headers. *)

From S2P Require Import Prelude Scan HeaderLine HeaderLineProps HeaderBlock StatusLine HeaderFilter.

Module HeaderFilterProps.
Import HeaderFilter.HeaderFilter.

(** ** Decimal numbers *)

Fixpoint decimal_digits (fuel : nat) (n : Z) : list Z :=
  match fuel with
  | O => []
  | S fuel => (if n <? 10 then [] else decimal_digits fuel (n / 10)) ++ [48 + n mod 10]
  end.
(** Twenty digits are enough for 64 bits. *)
Definition decimal (n : Z) : list Z := decimal_digits 20 n.
Definition padded (w : nat) (n : Z) : list Z := repeat 48 (w - length (decimal n)) ++ decimal n.

Lemma decimal_length (k : nat) n : (0 < k <= 20)%nat -> 0 <= n < 10 ^ Z.of_nat k -> (length (decimal n) <= k)%nat.
Proof.
  intros Hk Hn. unfold decimal. generalize 20%nat. intros fuel.
  assert (H : forall fuel k n, (0 < k)%nat -> 0 <= n < 10 ^ Z.of_nat k -> (length (decimal_digits fuel n) <= k)%nat).
  { clear. induction fuel as [|fuel IH]; intros k n Hk Hn; cbn [decimal_digits length]; [lia|].
    rewrite length_app. cbn [length]. destruct (Z.ltb_spec n 10); [cbn [length]; lia|].
    destruct k as [|[|k]]; [lia | change (10 ^ Z.of_nat 1) with 10 in Hn; lia |].
    rewrite (Nat2Z.inj_succ (S k)), Z.pow_succ_r in Hn by lia.
    specialize (IH (S k) (n / 10) ltac:(lia)).
    assert (0 <= n / 10 < 10 ^ Z.of_nat (S k)) by (split; [apply Z.div_pos; lia | apply Z.div_lt_upper_bound; lia]).
    specialize (IH ltac:(done)). lia. }
  apply H; [lia|done].
Qed.

Lemma decimal_digit n : 0 <= n -> Forall (fun c => 48 <= c <= 57) (decimal n).
Proof.
  unfold decimal. generalize 20%nat. intros fuel. revert n. induction fuel as [|fuel IH]; intros n Hn; cbn [decimal_digits]; [done|].
  apply List.Forall_app. split; [destruct (n <? 10); [done | apply IH, Z.div_pos; lia]|].
  constructor; [|done]. pose proof (Z.mod_pos_bound n 10). lia.
Qed.

Lemma decimal_nonempty n : decimal n <> [].
Proof. unfold decimal. cbn [decimal_digits]. by intros [_ ?]%app_nil. Qed.

(** The nginx core does what its documentation says. *)
Definition clean (v : list Z) : Prop := HeaderBlock.HeaderBlock.valid_value v.

Class CoreOk `{Core} : Prop := {
  sprintf_decimal w n : 0 <= n < 2 ^ 64 -> ngx_sprintf w n = padded w n;
  http_time_length t : length (ngx_http_time t) = 29%nat;
  http_time_clean t : clean (ngx_http_time t);
  cached_length : length ngx_cached_http_time = 29%nat;
  cached_clean : clean ngx_cached_http_time;
  ver_clean : clean NGX_VER;
  sockaddr_clean a host : ngx_connection_local_sockaddr a = Some host -> Forall HeaderLineProps.HeaderLineProps.line_byte host;
}.

Abbreviation parse_status :=
  (StatusLine.StatusLine.ngx_http_parse_status_line (StatusLine.StatusLine.sw_start, StatusLine.StatusLine.fresh_status)).

Section Filter.
Context `{CoreOk} (clcf : conf).

(** ** The buffer is large enough *)

Lemma str_len_app a b : str_len (a ++ b) = str_len a + str_len b.
Proof. unfold str_len. rewrite length_app. lia. Qed.

Lemma str_len_pos a : 0 <= str_len a.
Proof. unfold str_len. lia. Qed.

Lemma sprintf_len w k n : 0 <= n < 2 ^ 64 -> (0 < k <= 20)%nat -> (w <= k)%nat -> n < 10 ^ Z.of_nat k ->
  str_len (ngx_sprintf w n) <= Z.of_nat k.
Proof.
  intros Hn Hk Hw Hd. rewrite sprintf_decimal by done. unfold str_len, padded. rewrite length_app, repeat_length.
  pose proof (decimal_length k n Hk ltac:(lia)). lia.
Qed.

(** What the numbers of a request can be, from their types. *)
Definition in_range (o : ngx_http_headers_out_t) : Prop := 0 <= status o < 2 ^ 64 /\ content_length_n o < 2 ^ 63.
Definition port_ok (p : Z) : Prop := 0 <= p < 65536.
Definition conf_ok : Prop := 0 <= keepalive_header clcf < 2 ^ 63.

Lemma location_fits r red : match red with Some (_, port) => port_ok port | None => True end ->
  str_len match red with Some (host, port) => bytes_of "Location: " ++ write_location r host port ++ CRLF | None => [] end
  <= count_location (out r) red.
Proof.
  intros Hp. destruct red as [[host port]|]; [|done]. unfold count_location, write_location, port_ok in *. rewrite !str_len_app.
  change (str_len (bytes_of "Location: https://")) with 18. change (str_len (bytes_of "Location: ")) with 10.
  change (str_len (bytes_of "http")) with 4. change (str_len (bytes_of "://")) with 3. change (str_len CRLF) with 2.
  assert (str_len (if ssl r then bytes_of "s" else []) <= 1) by by destruct (ssl r).
  assert (str_len (if port =? 0 then [] else bytes_of ":" ++ ngx_sprintf 0 port)
    <= (if port =? 0 then 0 else str_len (bytes_of ":65535"))).
  { destruct (port =? 0); [done|]. rewrite str_len_app. pose proof (sprintf_len 0 5 port ltac:(lia) ltac:(lia) ltac:(lia) ltac:(lia)).
    change (str_len (bytes_of ":65535")) with 6. change (str_len (bytes_of ":")) with 1. lia. }
  lia.
Qed.

Lemma headers_fit hs : str_len (write_headers hs) = count_headers hs.
Proof.
  induction hs as [|h hs IH]; [done|]. cbn [write_headers count_headers]. destruct (hash h =? 0); [done|].
  rewrite !str_len_app, IH. change (str_len (bytes_of ": ")) with 2. change (str_len CRLF) with 2. lia.
Qed.

Lemma content_type_fits o :
  str_len (if bool_decide (content_type o = []) then [] else bytes_of "Content-Type: " ++ write_content_type o ++ CRLF)
  <= count_content_type o.
Proof.
  unfold count_content_type. case_bool_decide; [done|]. unfold write_content_type. rewrite !str_len_app.
  change (str_len CRLF) with 2. destruct (with_charset o); [rewrite str_len_app|change (str_len []) with 0]; lia.
Qed.

Lemma content_length_fits o : content_length_n o < 2 ^ 63 ->
  str_len (if negb (content_length o) && (0 <=? content_length_n o)
           then bytes_of "Content-Length: " ++ ngx_sprintf 0 (content_length_n o) ++ CRLF else [])
  <= (if negb (content_length o) && (0 <=? content_length_n o)
      then str_len (bytes_of "Content-Length: ") + NGX_OFF_T_LEN + 2 else 0).
Proof.
  intros Hc. destruct (content_length o); [done|]. cbn [negb andb]. destruct (Z.leb_spec 0 (content_length_n o)); [|done].
  rewrite !str_len_app. change (str_len CRLF) with 2. unfold NGX_OFF_T_LEN.
  pose proof (sprintf_len 0 20 (content_length_n o) ltac:(lia) ltac:(lia) ltac:(lia) ltac:(lia)). lia.
Qed.

Lemma connection_fits r : conf_ok ->
  str_len (if status (out r) =? NGX_HTTP_SWITCHING_PROTOCOLS then bytes_of "Connection: upgrade" ++ CRLF
    else if keepalive r then
      bytes_of "Connection: keep-alive" ++ CRLF
      ++ (if keepalive_header clcf =? 0 then []
          else bytes_of "Keep-Alive: timeout=" ++ ngx_sprintf 0 (keepalive_header clcf) ++ CRLF)
    else bytes_of "Connection: close" ++ CRLF)
  <= count_connection clcf r.
Proof.
  intros Hk. unfold count_connection. destruct (status (out r) =? _); [done|]. destruct (keepalive r); [|done].
  rewrite app_assoc, str_len_app. destruct (keepalive_header clcf =? 0); [done|].
  rewrite (str_len_app (bytes_of "Keep-Alive: timeout=")), (str_len_app (ngx_sprintf _ _)).
  change (str_len CRLF) with 2. unfold NGX_TIME_T_LEN, conf_ok in *.
  pose proof (sprintf_len 0 20 (keepalive_header clcf) ltac:(lia) ltac:(lia) ltac:(lia) ltac:(lia)). lia.
Qed.

Lemma dates_fit (o : ngx_http_headers_out_t) :
  str_len (if date o then [] else bytes_of "Date: " ++ ngx_cached_http_time ++ CRLF)
  <= (if date o then 0 else str_len date_line) /\
  str_len (if negb (last_modified o) && negb (last_modified_time o =? -1)
           then bytes_of "Last-Modified: " ++ ngx_http_time (last_modified_time o) ++ CRLF else [])
  <= (if negb (last_modified o) && negb (last_modified_time o =? -1) then str_len last_modified_line else 0).
Proof.
  split.
  - destruct (date o); [done|]. rewrite !str_len_app. unfold str_len at 2. rewrite cached_length. vm_compute. discriminate.
  - destruct (negb _ && negb _); [|done]. rewrite !str_len_app. unfold str_len at 2. rewrite http_time_length. vm_compute. discriminate.
Qed.

Lemma status_fits o line : 0 <= status o < 2 ^ 64 -> str_len (write_status o line) <= count_status o line.
Proof.
  intros Hs. unfold write_status, count_status. destruct (bool_decide (line = [])); [|lia].
  apply (sprintf_len 3 20); lia.
Qed.

Lemma write_fits r line red : in_range (out r) -> conf_ok ->
  match red with Some (_, port) => port_ok port | None => True end ->
  str_len (write_header clcf r line red) <= count_header clcf r line red.
Proof.
  intros [Hs Hc] Hk Hp. unfold write_header, count_header. rewrite !(str_len_app (bytes_of "HTTP/1.1 ")).
  pose proof (location_fits r red Hp). pose proof (content_type_fits (out r)). pose proof (content_length_fits (out r) Hc).
  pose proof (connection_fits r Hk). pose proof (dates_fit (out r)) as [? ?].
  assert (str_len (write_status (out r) line) <= count_status (out r) line)
    by by apply status_fits.
  assert (str_len (if server (out r) then [] else if server_tokens clcf then ngx_http_server_full_string else ngx_http_server_string)
    = if server (out r) then 0 else str_len (if server_tokens clcf then ngx_http_server_full_string else ngx_http_server_string))
    by by destruct (server (out r)).
  assert (str_len (if chunked r then bytes_of "Transfer-Encoding: chunked" ++ CRLF else [])
    = if chunked r then str_len (bytes_of "Transfer-Encoding: chunked" ++ CRLF) else 0) by by destruct (chunked r).
  assert (str_len (if gzip_vary r then bytes_of "Vary: Accept-Encoding" ++ CRLF else [])
    = if gzip_vary r then str_len (bytes_of "Vary: Accept-Encoding" ++ CRLF) else 0) by by destruct (gzip_vary r).
  do 12 rewrite str_len_app. rewrite headers_fit. change (str_len CRLF) with 2.
  change (str_len (bytes_of "HTTP/1.1 ")) with 9. change (str_len (bytes_of "HTTP/1.x ")) with 9. lia.
Qed.

(** ** The fields of a response

    What the header of a response says, in terms of the request as the filter
    gets it.  A 204 has no body, so it says nothing about one. *)
Definition no_content (r : ngx_http_request_t) : bool :=
  bool_decide (status_line (out r) = []) && (status (out r) =? NGX_HTTP_NO_CONTENT).

Definition has_last_modified (o : ngx_http_headers_out_t) : bool :=
  negb (last_modified o) && negb (last_modified_time o =? -1)
  && ((status o =? NGX_HTTP_OK) || (status o =? NGX_HTTP_PARTIAL_CONTENT) || (status o =? NGX_HTTP_NOT_MODIFIED)).

Definition opt {A} (c : bool) (x : A) : list A := if c then [x] else [].

Definition own_fields (r : ngx_http_request_t) (red : option (list Z * Z)) : list (list Z * list Z) :=
  let o := out r in let body := negb (no_content r) in
  opt (negb (server o)) (bytes_of "Server", if server_tokens clcf then NGX_VER else bytes_of "nginx")
  ++ opt (negb (date o)) (bytes_of "Date", ngx_cached_http_time)
  ++ opt (body && negb (bool_decide (content_type o = []))) (bytes_of "Content-Type", write_content_type o)
  ++ opt (body && negb (content_length o) && (0 <=? content_length_n o))
       (bytes_of "Content-Length", ngx_sprintf 0 (content_length_n o))
  ++ opt (body && has_last_modified o) (bytes_of "Last-Modified", ngx_http_time (last_modified_time o))
  ++ match red with Some (host, port) => [(bytes_of "Location", write_location r host port)] | None => [] end
  ++ opt (chunked r) (bytes_of "Transfer-Encoding", bytes_of "chunked")
  ++ opt (status o =? NGX_HTTP_SWITCHING_PROTOCOLS) (bytes_of "Connection", bytes_of "upgrade")
  ++ opt (negb (status o =? NGX_HTTP_SWITCHING_PROTOCOLS))
       (bytes_of "Connection", if keepalive r then bytes_of "keep-alive" else bytes_of "close")
  ++ opt (negb (status o =? NGX_HTTP_SWITCHING_PROTOCOLS) && keepalive r && negb (keepalive_header clcf =? 0))
       (bytes_of "Keep-Alive", bytes_of "timeout=" ++ ngx_sprintf 0 (keepalive_header clcf))
  ++ opt (gzip_vary r && gzip_vary_on clcf) (bytes_of "Vary", bytes_of "Accept-Encoding").

(** The headers of the list: those that are not disabled, and not the location
    that is written in full. *)
Definition shown (h : ngx_table_elt_t) : bool := negb (hash h =? 0).
Definition list_fields (o : ngx_http_headers_out_t) (red : option (list Z * Z)) : list (list Z * list Z) :=
  map (fun h => (key h, value h))
    (List.filter shown (headers match red with Some _ => hide_location o | None => o end)).

Definition fields (r : ngx_http_request_t) (red : option (list Z * Z)) : list (list Z * list Z) :=
  own_fields r red ++ list_fields (out r) red.

Definition print (fs : list (list Z * list Z)) : list Z := concat (map HeaderBlock.HeaderBlock.print_header fs).

Lemma print_app a b : print (a ++ b) = print a ++ print b.
Proof. unfold print. by rewrite map_app, concat_app. Qed.

Lemma print_opt c nv : print (opt c nv) = if c then HeaderBlock.HeaderBlock.print_header nv else [].
Proof. destruct c; [|done]. unfold print. cbn [opt map concat]. by rewrite app_nil_r. Qed.

Lemma print_list hs : print (map (fun h => (key h, value h)) (List.filter shown hs)) = write_headers hs.
Proof.
  induction hs as [|h hs IH]; [done|]. cbn [List.filter write_headers]. unfold shown at 1.
  destruct (hash h =? 0); cbn [negb]; [done|]. unfold print in *. cbn [map concat]. rewrite IH.
  unfold HeaderBlock.HeaderBlock.print_header. cbn [fst snd]. rewrite <- !app_assoc. cbn [app]. by rewrite <- app_assoc.
Qed.

(** What the branches leave of the request, as far as it is written. *)
Definition same_answer (r r' : ngx_http_request_t) (red : option (list Z * Z)) : Prop :=
  let o := out r in let o' := out r' in
  status o' = status o /\ server o' = server o /\ date o' = date o /\ charset o' = charset o
  /\ content_type_len o' = content_type_len o
  /\ content_type o' = (if no_content r then [] else content_type o)
  /\ negb (content_length o') && (0 <=? content_length_n o')
     = negb (no_content r) && negb (content_length o) && (0 <=? content_length_n o)
  /\ content_length_n o' = (if no_content r then -1 else content_length_n o)
  /\ negb (last_modified o') && negb (last_modified_time o' =? -1) = negb (no_content r) && has_last_modified o
  /\ (has_last_modified o = true -> no_content r = false -> last_modified_time o' = last_modified_time o)
  /\ headers o' = headers match red with Some _ => hide_location o | None => o end
  /\ location_value o' = location_value o
  /\ chunked r' = chunked r /\ keepalive r' = keepalive r /\ ssl r' = ssl r
  /\ gzip_vary r' = gzip_vary r && gzip_vary_on clcf.

Lemma hidden_value o : location_value (hide_location o) = location_value o.
Proof.
  unfold location_value, hide_location. destruct (location o) as [i|] eqn:Ei; [|by rewrite Ei].
  destruct (headers o !! i) as [h|] eqn:Eh; cbn; rewrite Ei; [|by rewrite Eh].
  rewrite list_lookup_insert_eq; [done|]. by eapply lookup_lt_Some.
Qed.

Lemma redirected_spec r line r' red :
  prepare_redirect clcf r line = (r', Ready line red) ->
  redirect clcf r = Some red /\
  r' = (r <| out := match red with Some _ => hide_location (out r) | None => out r end |>)
         <| gzip_vary := gzip_vary r && gzip_vary_on clcf |>.
Proof.
  unfold prepare_redirect. destruct (redirect clcf r) as [red0|]; [|done].
  destruct r as [hs im hv me ho o isv ch ka gv hsz ls sl]. destruct red0, gv, (gzip_vary_on clcf); cbn; intros [= <- <-]; done.
Qed.

Lemma hidden_same o : status (hide_location o) = status o /\ server (hide_location o) = server o
  /\ date (hide_location o) = date o /\ charset (hide_location o) = charset o
  /\ content_type_len (hide_location o) = content_type_len o /\ content_type (hide_location o) = content_type o
  /\ content_length (hide_location o) = content_length o /\ content_length_n (hide_location o) = content_length_n o
  /\ last_modified (hide_location o) = last_modified o /\ last_modified_time (hide_location o) = last_modified_time o.
Proof. unfold hide_location. destruct (location o) as [i|]; [destruct (headers o !! i)|]; by split_and!. Qed.

(** Before the redirect. *)
Definition settled (r r1 : ngx_http_request_t) (line : list Z) : Prop :=
  redirect clcf r1 = redirect clcf r /\ same_answer r (r1 <| gzip_vary := gzip_vary r && gzip_vary_on clcf |>) None
  /\ location_value (out r1) = location_value (out r) /\ location (out r1) = location (out r)
  /\ gzip_vary r1 = gzip_vary r
  /\ (if bool_decide (status_line (out r) = []) then status_entry (status (out r)) = Some line
      else line = status_line (out r)).

Lemma head_only_view r : head_only r = r \/ head_only r = r <| header_only := true |>.
Proof. unfold head_only. destruct (_ =? _); auto. Qed.

(** Its time is forgotten unless it is shown. *)
Lemma forget_view r :
  forget_modified r = r /\ (last_modified_time (out r) = -1
    \/ (status (out r) =? NGX_HTTP_OK) || (status (out r) =? NGX_HTTP_PARTIAL_CONTENT) || (status (out r) =? NGX_HTTP_NOT_MODIFIED) = true)
  \/ forget_modified r = r <| out := (out r) <| last_modified_time := -1 |> <| last_modified := false |> |>
     /\ (status (out r) =? NGX_HTTP_OK) || (status (out r) =? NGX_HTTP_PARTIAL_CONTENT) || (status (out r) =? NGX_HTTP_NOT_MODIFIED) = false.
Proof.
  unfold forget_modified. destruct (Z.eqb_spec (last_modified_time (out r)) (-1)) as [E|E]; cbn [negb andb]; [by left; auto|].
  destruct (status (out r) =? NGX_HTTP_OK), (status (out r) =? NGX_HTTP_PARTIAL_CONTENT), (status (out r) =? NGX_HTTP_NOT_MODIFIED);
    cbn [negb andb orb]; auto.
Qed.

Ltac settle r :=
  unfold settled, same_answer, no_content, has_last_modified, redirect, location_value;
  destruct (head_only_view r) as [-> | ->];
  match goal with |- context [forget_modified ?x] => destruct (forget_view x) as [[-> Ht]|[-> Ht]] end; cbn in *.
Ltac settle_modified Ht :=
  first [ destruct Ht as [Ht|Ht]; rewrite Ht; cbn; by rewrite ?andb_false_r, ?andb_true_r
        | rewrite Ht, ?andb_false_r; done ].

Lemma settled_line r : status_line (out r) <> [] -> settled r (forget_modified (head_only r)) (status_line (out r)).
Proof.
  intros Hs. assert (Hn : bool_decide (status_line (out r) = []) = false) by by apply bool_decide_eq_false_2.
  settle r; rewrite Hn; cbn; split_and!; try done; settle_modified Ht.
Qed.

Lemma settled_status r line : status_line (out r) = [] -> status_entry (status (out r)) = Some line ->
  settled r (status_effects (forget_modified (head_only r))) line.
Proof.
  intros Hs Hl. assert (Hn : bool_decide (status_line (out r) = []) = true) by by apply bool_decide_eq_true_2.
  settle r; rewrite Hn; unfold status_effects; cbn;
    (destruct (status (out r) =? NGX_HTTP_NO_CONTENT); cbn; [|destruct (status (out r) =? NGX_HTTP_NOT_MODIFIED) eqn:Em; cbn; try rewrite Em in Ht]);
    split_and!; try done; try rewrite Em; try settle_modified Ht.
Qed.

Lemma prepare_spec r r' line red : prepare clcf r = (r', Ready line red) ->
  redirect clcf r = Some red /\ same_answer r r' red /\
  (if bool_decide (status_line (out r) = []) then status_entry (status (out r)) = Some line else line = status_line (out r)).
Proof.
  intros E. assert (exists r1, prepare_redirect clcf r1 line = (r', Ready line red) /\ settled r r1 line) as (r1 & E1 & Hset).
  { unfold prepare in E.
    assert (Hsl : status_line (out (forget_modified (head_only r))) = status_line (out r)
                  /\ status (out (forget_modified (head_only r))) = status (out r)).
    { destruct (head_only_view r) as [-> | ->];
        match goal with |- context [forget_modified ?x] => by destruct (forget_view x) as [[-> _]|[-> _]] end. }
    destruct Hsl as [Hsl Hst]. rewrite Hsl in E. destruct (bool_decide_reflect (status_line (out r) = [])) as [Hs|Hs]; cbn [negb] in E.
    - rewrite Hst in E. destruct (status_entry (status (out r))) as [line'|] eqn:El; [|done].
      assert (line' = line) as <- by (unfold prepare_redirect in E; by destruct (redirect _ _); simplify_eq).
      eexists. split; [exact E|]. by apply settled_status.
    - assert (status_line (out r) = line) as <- by (unfold prepare_redirect in E; by destruct (redirect _ _); simplify_eq).
      eexists. split; [exact E|]. by apply settled_line. }
  destruct Hset as (Hr & Ha & Hv & Hloc & Hg & Hline). apply redirected_spec in E1 as [Hred ->].
  rewrite Hr in Hred. split_and!; [done| |done].
  unfold same_answer in *. cbn in *. destruct red as [[host port]|]; cbn; [|by rewrite Hg].
  destruct (hidden_same (out r1)) as (-> & -> & -> & -> & -> & -> & -> & -> & -> & ->). rewrite Hg, hidden_value.
  destruct_and! Ha. split_and!; try done. unfold hide_location. rewrite Hloc.
  destruct (location (out r)) as [i|]; [|done].
  match goal with E : headers (out r1) = _ |- _ => rewrite E end. by destruct (headers (out r) !! i).
Qed.

(** The buffer, field by field. *)
Lemma write_header_fields r r' line red : same_answer r r' red ->
  write_header clcf r' line red
  = bytes_of "HTTP/1.1 " ++ write_status (out r) line ++ CRLF ++ print (fields r red) ++ CRLF.
Proof.
  unfold same_answer.
  intros (Hst & Hsv & Hdt & Hcs & Hctl & Hct & Hcl & Hcln & Hlm & Hlmt & Hhs & Hlv & Hch & Hka & Hssl & Hgz).
  unfold write_header, fields, own_fields. rewrite !print_app, !print_opt. unfold list_fields. rewrite print_list, Hlm, Hcl, Hgz, Hst, Hsv, Hdt, Hch, Hka.
  rewrite <- Hhs. rewrite <- !app_assoc. unfold write_status. rewrite Hst.
  do 3 f_equal. apply (f_equal2 app).
  { destruct (server (out r)); [done|]. by destruct (server_tokens clcf). }
  apply (f_equal2 app); [by destruct (date (out r))|].
  apply (f_equal2 app).
  { unfold write_content_type, with_charset. rewrite Hct, Hctl, Hcs. destruct (no_content r); [done|]. cbn [negb andb].
    by destruct (bool_decide (content_type (out r) = [])). }
  apply (f_equal2 app).
  { rewrite Hcln. destruct (no_content r); [done|]. by destruct (negb _ && negb _ && _). }
  apply (f_equal2 app).
  { destruct (no_content r); [done|]. destruct (has_last_modified (out r)); [|done]. by rewrite Hlmt. }
  apply (f_equal2 app).
  { destruct red as [[host port]|]; [|done]. unfold print, write_location. cbn [map concat]. by rewrite app_nil_r, Hssl, Hlv. }
  apply (f_equal2 app); [by destruct (chunked r)|].
  rewrite (app_assoc (if status (out r) =? _ then HeaderBlock.HeaderBlock.print_header _ else [])), (app_assoc _ (if _ && keepalive r && _ then _ else [])).
  apply (f_equal2 app).
  { destruct (status (out r) =? _); cbn [negb andb]; [done|]. destruct (keepalive r); [|done].
    by destruct (keepalive_header clcf =? 0). }
  by destruct (gzip_vary r && gzip_vary_on clcf).
Qed.

(** ** The status line *)

(** The table of status lines: an entry starts with its own number. *)
Definition is_text (t : list Z) : bool :=
  match t with [] => true | c :: t => (c =? " "%c) && forallb (fun c => negb (c =? CR) && negb (c =? LF)) t end.
Definition names_status (st : Z) (line : list Z) : bool :=
  match line with
  | d1 :: d2 :: d3 :: t =>
      forallb (fun d => (48 <=? d) && (d <=? 57)) [d1; d2; d3] && ((d1 - 48) * 100 + (d2 - 48) * 10 + (d3 - 48) =? st) && is_text t
  | _ => false
  end.
Definition entry_ok (st : Z) : bool :=
  match status_entry st with
  | Some [] => true
  | Some line => names_status st line
  | None => false
  end.

Lemma entries_ok st : entry_ok st = true.
Proof.
  destruct (decide (200 <= st < 508)) as [Hst|Hst].
  - assert (H1 : forallb (fun n => entry_ok (Z.of_nat n)) (seq 200 308) = true) by by vm_compute.
    rewrite forallb_forall in H1. rewrite <- (Z2Nat.id st) by lia. apply H1, in_seq. lia.
  - unfold entry_ok, status_entry, NGX_HTTP_OK, NGX_HTTP_MOVED_PERMANENTLY, NGX_HTTP_BAD_REQUEST, NGX_HTTP_INTERNAL_SERVER_ERROR,
      NGX_HTTP_LAST_2XX, NGX_HTTP_LAST_3XX, NGX_HTTP_LAST_4XX, NGX_HTTP_LAST_5XX.
    replace ((200 <=? st) && (st <? 207)) with false by (symmetry; apply andb_false_iff; lia).
    replace ((301 <=? st) && (st <? 308)) with false by (symmetry; apply andb_false_iff; lia).
    replace ((400 <=? st) && (st <? 417)) with false by (symmetry; apply andb_false_iff; lia).
    by replace ((500 <=? st) && (st <? 508)) with false by (symmetry; apply andb_false_iff; lia).
Qed.

Lemma three_digits st : 100 <= st <= 999 -> names_status st (padded 3 st) = true.
Proof.
  intros Hst. assert (H1 : forallb (fun n => names_status (Z.of_nat n) (padded 3 (Z.of_nat n))) (seq 100 900) = true) by by vm_compute.
  rewrite forallb_forall in H1. rewrite <- (Z2Nat.id st) by lia. apply H1, in_seq. lia.
Qed.

(** The status of an answer has three digits, also in a line that came from an
    upstream. *)
Definition status_ok (o : ngx_http_headers_out_t) : Prop :=
  100 <= status o <= 999 /\ (status_line o <> [] -> names_status (status o) (status_line o) = true).

Lemma written_status (o : ngx_http_headers_out_t) line : status_ok o ->
  (if bool_decide (status_line o = []) then status_entry (status o) = Some line else line = status_line o) ->
  names_status (status o) (write_status o line) = true.
Proof.
  intros [Hr Hl] E. unfold write_status. case_bool_decide as Hs.
  - pose proof (entries_ok (status o)) as Hok. unfold entry_ok in Hok. rewrite E in Hok.
    destruct line; cbn; [|done]. rewrite sprintf_decimal by lia. by apply three_digits.
  - subst line. rewrite bool_decide_eq_false_2 by done. by apply Hl.
Qed.

Lemma status_read_back st line rest : names_status st line = true ->
  let first := bytes_of "HTTP/1.1 " ++ line ++ CRLF in
  exists s, parse_status (Buf (first ++ rest) 0)
      = (NGX_OK, (StatusLine.StatusLine.sw_start, s), Buf (first ++ rest) (Z.of_nat (length first)))
    /\ StatusLine.StatusLine.code s = st /\ StatusLine.StatusLine.http_version s = 1001.
Proof.
  destruct line as [|d1 [|d2 [|d3 t]]]; cbn [names_status]; try done. intros E.
  apply andb_true_iff in E as [E Ht]. apply andb_true_iff in E as [E Hst]. cbn [forallb] in E.
  apply Z.eqb_eq in Hst as <-. apply StatusLine.StatusLine.parse_printed_status; [unfold StatusLine.StatusLine.digit; lia..|].
  destruct t as [|c t]; [by left|]. right. cbn [is_text] in Ht. apply andb_true_iff in Ht as [Hc Ht].
  apply Z.eqb_eq in Hc as ->. exists t. split; [done|]. apply list.Forall_forall. intros x Hx.
  rewrite forallb_forall in Ht. apply list_elem_of_In in Hx. specialize (Ht x Hx). unfold StatusLine.StatusLine.text_byte. lia.
Qed.

(** ** Names and values *)

Abbreviation valid_name := HeaderBlock.HeaderBlock.valid_name.
Abbreviation last_byte := HeaderBlock.HeaderBlock.last_byte.
Abbreviation line_byte := HeaderLineProps.HeaderLineProps.line_byte.

Lemma last_app a b : b <> [] -> last_byte (a ++ b) = last_byte b.
Proof.
  intros Hb. induction a as [|c a IH]; [done|]. cbn [app]. rewrite <- IH. cbn. by destruct a, b.
Qed.

Lemma digits_clean l : Forall (fun c => 48 <= c <= 57) l -> clean l.
Proof.
  intros Hl. split_and!.
  - eapply list.Forall_impl; [exact Hl|]. unfold line_byte. intros c ?. lia.
  - destruct Hl; [done|]. cbn. intros [= ->]. lia.
  - induction Hl as [|c l Hc Hl IH]; [done|]. destruct l; [|done]. cbn. intros [= ->]. lia.
Qed.

Lemma clean_app a b : a <> [] -> b <> [] -> Forall line_byte a -> head a <> Some " "%c ->
  Forall line_byte b -> last_byte b <> Some " "%c -> clean (a ++ b).
Proof.
  intros Ha Hb Hla Hh Hlb Hl. split_and!; [by apply List.Forall_app | by destruct a | by rewrite last_app].
Qed.

Lemma sprintf_clean w n : 0 <= n < 2 ^ 64 -> clean (ngx_sprintf w n) /\ ngx_sprintf w n <> [].
Proof.
  intros Hn. rewrite sprintf_decimal by done. unfold padded. split.
  - apply digits_clean, List.Forall_app. split; [|apply decimal_digit; lia].
    apply list.Forall_forall. intros c Hc. apply list_elem_of_In, repeat_spec in Hc. lia.
  - intros [_ ?]%app_nil. by eapply decimal_nonempty.
Qed.

(** Literals are checked by evaluation. *)
Lemma literal_clean v : forallb (fun c => (32 <? c) && (c <? 127)) v = true -> clean v.
Proof.
  intros Hv. rewrite forallb_forall in Hv.
  assert (Hl : Forall (fun c => 32 < c < 127) v)
    by (apply list.Forall_forall; intros c Hc; apply list_elem_of_In in Hc; specialize (Hv c Hc); lia).
  clear Hv. split_and!.
  - eapply list.Forall_impl; [exact Hl|]. unfold line_byte. intros c ?. lia.
  - destruct Hl; [done|]. cbn. intros [= ->]. lia.
  - induction Hl as [|c l Hc Hl IH]; [done|]. destruct l; [|done]. cbn. intros [= ->]. lia.
Qed.

Lemma literal_name au n : n <> [] -> forallb (fun c => negb (rd HeaderLine.HeaderLine.lowcase c =? 0)) n = true -> valid_name au n.
Proof.
  intros Hne Hn. destruct n as [|c n]; [done|]. cbn [forallb] in Hn. apply andb_true_iff in Hn as [Hc Hn]. split; [lia|].
  apply list.Forall_forall. intros x Hx. apply list_elem_of_In in Hx. rewrite forallb_forall in Hn. left. specialize (Hn x Hx). lia.
Qed.

(** What is asked of a response: clean strings of the configuration, of the
    request and of the modules before. *)
Record answer_ok (au : bool) (r : ngx_http_request_t) : Prop := {
  a_status : status_ok (out r);
  a_headers : Forall (fun h => clean (value h) /\ (hash h <> 0 -> valid_name au (key h))) (headers (out r));
  a_type : clean (write_content_type (out r));
  a_server_name : Forall line_byte (server_name clcf);
  a_in_server : Forall line_byte (in_server r);
  a_port : port_ok (port_of (local_sockaddr r));
  a_length : content_length_n (out r) < 2 ^ 63;
  a_keepalive : conf_ok;
}.

Definition valid_field (au : bool) (nv : list Z * list Z) : Prop := valid_name au nv.1 /\ clean nv.2.

Lemma redirect_port r host port : redirect clcf r = Some (Some (host, port)) -> port_ok (port_of (local_sockaddr r)) -> port_ok port.
Proof.
  unfold redirect, port_ok. intros E Hp. destruct (location (out r)); [|done]. destruct (headers (out r) !! _); [|done].
  case_bool_decide; [|done]. destruct (if server_name_in_redirect clcf then _ else _); [|done]. cbn in E. simplify_eq.
  destruct (port_in_redirect clcf); [|lia]. destruct (ssl r), (_ =? _); lia.
Qed.

Lemma redirect_host r host port : redirect clcf r = Some (Some (host, port)) -> Forall line_byte (server_name clcf) ->
  Forall line_byte (in_server r) ->
  Forall line_byte host /\ location_value (out r) <> [] /\ exists i h, location (out r) = Some i /\ headers (out r) !! i = Some h.
Proof.
  intros E Hsn His. unfold redirect in E. unfold location_value. destruct (location (out r)) as [i|]; [|done].
  destruct (headers (out r) !! i) as [h|] eqn:Eh; [|done]. case_bool_decide as Hv; [|done]. split_and!; [| |by eauto].
  - destruct (server_name_in_redirect clcf); [by cbn in E; simplify_eq|]. destruct (negb _); [by cbn in E; simplify_eq|].
    destruct (ngx_connection_local_sockaddr _) eqn:Es; [|done]. cbn in E. simplify_eq. by eapply sockaddr_clean.
  - intros Hn. by rewrite Hn in Hv.
Qed.

Lemma location_clean au r host port : redirect clcf r = Some (Some (host, port)) -> answer_ok au r ->
  clean (write_location r host port).
Proof.
  intros E [? Hhs ? ? ? ? ? ?]. destruct (redirect_host r host port E) as (Hh & Hne & i & h & Ei & Eh); [done..|].
  assert (Hport : port_ok port) by by eapply redirect_port.
  assert (Hv : clean (location_value (out r))).
  { unfold location_value. rewrite Ei, Eh. rewrite list.Forall_forall in Hhs. apply Hhs. by eapply list_elem_of_lookup_2. }
  destruct Hv as (Hv1 & _ & Hv3). unfold write_location.
  assert (Hlit : forall v, forallb (fun c => (32 <? c) && (c <? 127)) v = true -> Forall line_byte v)
    by (intros v ?; by apply literal_clean).
  apply clean_app; [done | | by apply Hlit | done | | ].
  - intros Hn. by do 4 apply app_nil in Hn as [_ Hn].
  - repeat (apply List.Forall_app; split); try done; try by apply Hlit.
    + destruct (ssl r); by apply Hlit.
    + destruct (port =? 0); [by apply Hlit|]. apply List.Forall_app. split; [by apply Hlit|].
      apply sprintf_clean. unfold port_ok in Hport. lia.
  - by rewrite !app_assoc, last_app.
Qed.

Lemma valid_opt au c nv : (c = true -> valid_field au nv) -> Forall (valid_field au) (opt c nv).
Proof. destruct c; cbn; intros Hv; repeat constructor; by apply Hv. Qed.

Lemma fields_valid au r red : redirect clcf r = Some red -> answer_ok au r -> Forall (valid_field au) (fields r red).
Proof.
  intros E Ha. pose proof Ha as [? Hhs ? ? ? ? ? ?].
  assert (Hname : forall n v, n <> [] -> forallb (fun c => negb (rd HeaderLine.HeaderLine.lowcase c =? 0)) n = true -> clean v -> valid_field au (n, v))
    by (intros n v ? ? ?; split; [by apply literal_name | done]).
  unfold fields, own_fields. repeat (apply List.Forall_app; split); try (apply valid_opt; intros Hc; apply Hname; [done|reflexivity|]).
  - destruct (server_tokens clcf); [apply ver_clean | by apply literal_clean].
  - apply cached_clean.
  - done.
  - apply andb_true_iff in Hc as [_ Hc]. apply sprintf_clean. lia.
  - apply http_time_clean.
  - destruct red as [[host port]|]; constructor; [|constructor]. apply Hname; [done|reflexivity|]. by eapply location_clean.
  - by apply literal_clean.
  - by apply literal_clean.
  - destruct (keepalive r); by apply literal_clean.
  - assert (Hk : 0 <= keepalive_header clcf < 2 ^ 64) by (unfold conf_ok in *; lia).
    destruct (sprintf_clean 0 _ Hk) as [(Hs1 & _ & Hs3) Hs4]. apply clean_app; try done; by apply literal_clean.
  - by apply literal_clean.
  - unfold list_fields. apply Forall_map, list.Forall_forall. intros h Hh. apply list_elem_of_In, filter_In in Hh as [Hh Hs].
    unfold shown in Hs. apply list_elem_of_In in Hh. rewrite list.Forall_forall in Hhs.
    assert (Hin : h ∈ headers (out r)).
    { destruct red; [|done]. unfold hide_location in Hh. destruct (location (out r)) as [i|]; [|done].
      destruct (headers (out r) !! i) eqn:Eh; [|done]. cbn in Hh. apply list_elem_of_lookup in Hh as [j Hj].
      destruct (decide (i = j)) as [->|Hij].
      - rewrite list_lookup_insert_eq in Hj by (by eapply lookup_lt_Some). by simplify_eq.
      - rewrite list_lookup_insert_ne in Hj by done. by eapply list_elem_of_lookup_2. }
    destruct (Hhs h Hin) as [Hv Hn]. split; [apply Hn; lia | done].
Qed.

(** ** The promises *)

(** How the filter gets to a buffer. *)
Lemma filter_sent r rc r' len b : ngx_http_header_filter clcf r = (rc, r', Some (len, b)) ->
  exists r0 r1 line red, (r0 = r <| header_sent := true |>) /\ prepare clcf r0 = (r1, Ready line red)
    /\ len = count_header clcf r1 line red /\ b = write_header clcf r1 line red.
Proof.
  unfold ngx_http_header_filter. destruct (header_sent r); [done|]. destruct (negb _); [done|]. destruct (http_version _ <? _); [done|].
  destruct (prepare _ _) as [r1 [| |line red]] eqn:E; [done..|]. destruct (negb _); [done|]. intros [= <- <- <- <-]. by eexists _, _, _, _.
Qed.

Lemma prepare_in_table r : (prepare clcf r).2 <> Overread.
Proof.
  unfold prepare. assert (H1 : forall r line, (prepare_redirect clcf r line).2 <> Overread).
  { intros r1 line. unfold prepare_redirect. by destruct (redirect _ _). }
  destruct (negb _); [apply H1|]. pose proof (entries_ok (status (out (forget_modified (head_only r))))) as Hok.
  unfold entry_ok in Hok. destruct (status_entry _); [apply H1|done].
Qed.

(** C24: The filter never reads past the table of status lines, whatever the
    status; and what it writes fits into the buffer it asked for, as long as
    the numbers are of their types and the ports have sixteen bits. *)
Theorem header_fits r : (prepare clcf r).2 <> Overread /\
  forall rc r' len b, ngx_http_header_filter clcf r = (rc, r', Some (len, b)) ->
    0 <= status (out r) < 2 ^ 64 -> content_length_n (out r) < 2 ^ 63 -> conf_ok -> port_ok (port_of (local_sockaddr r)) ->
    str_len b <= len.
Proof.
  split; [apply prepare_in_table|]. intros rc r' len b E Hs Hc Hk Hp.
  apply filter_sent in E as (r0 & r1 & line & red & -> & E & -> & ->). apply prepare_spec in E as (Hred & Ha & _).
  apply write_fits; [|done|].
  - destruct Ha as (Hst & _ & _ & _ & _ & _ & _ & Hcl & _). unfold in_range. rewrite Hst, Hcl. cbn. destruct (no_content _); lia.
  - destruct red as [[host port]|]; [|done]. by eapply redirect_port.
Qed.

(** C19: What the filter writes is read back by the parsers of responses: the
    status and the version by [ngx_http_parse_status_line], and then, by
    [ngx_http_parse_header_line], one header per field of the response
    ([fields]), in order, and nothing else. *)
Theorem response_roundtrip (ngx_hash : Z -> Z -> Z) (au ignore : bool) (ngx_strlow : list Z -> list Z) r rc r' len b body :
  (forall l, ngx_strlow l = map tolower l) ->
  ngx_http_header_filter clcf r = (rc, r', Some (len, b)) -> answer_ok au r ->
  exists red s pos, redirect clcf r = Some red /\
    parse_status (Buf (b ++ body) 0) = (NGX_OK, (StatusLine.StatusLine.sw_start, s), Buf (b ++ body) pos) /\
    StatusLine.StatusLine.code s = status (out r) /\ StatusLine.StatusLine.http_version s = 1001 /\
    HeaderLine.HeaderLine.process_request_headers ngx_hash au true ngx_strlow (S (length (fields r red))) ignore
      (HeaderLine.HeaderLine.sw_start, HeaderLine.HeaderLine.fresh_header) (Buf (b ++ body) pos)
    = (NGX_HTTP_PARSE_HEADER_DONE, map (HeaderBlock.HeaderBlock.elt_of ngx_hash) (fields r red)).
Proof.
  intros Hstrlow E Hok. apply filter_sent in E as (r0 & r1 & line & red & -> & E & _ & ->).
  apply prepare_spec in E as (Hred & Ha & Hline). rewrite (write_header_fields _ _ _ _ Ha).
  pose proof (fields_valid au r red Hred Hok) as Hv. pose proof Hok as [Hst _ _ _ _ _ _ _].
  pose proof (written_status (out r) line Hst Hline) as Hn. change (fields (r <| header_sent := true |>) red) with (fields r red).
  change (out (r <| header_sent := true |>)) with (out r).
  destruct (status_read_back (status (out r)) (write_status (out r) line) (print (fields r red) ++ CRLF ++ body) Hn) as (s & Es & Hc & Hver).
  set (first := bytes_of "HTTP/1.1 " ++ write_status (out r) line ++ CRLF) in *.
  replace ((bytes_of "HTTP/1.1 " ++ write_status (out r) line ++ CRLF ++ print (fields r red) ++ CRLF) ++ body)
    with (first ++ print (fields r red) ++ CRLF ++ body) by (unfold first; by rewrite <- !app_assoc).
  exists red, s, (Z.of_nat (length first)). split_and!; [done..|].
  apply HeaderBlock.HeaderBlock.headers_printed; [done|exact Hv|]. split; [simpl; lia|done].
Qed.
End Filter.

(** ** At a concrete response *)

Definition some_date : list Z := bytes_of "Mon, 28 Sep 1970 06:00:00 GMT".

#[local] Instance sample_core : Core := {|
  ngx_sprintf := padded;
  ngx_http_time _ := some_date;
  ngx_cached_http_time := some_date;
  NGX_VER := bytes_of "nginx/1.5.6";
  ngx_connection_local_sockaddr _ := Some (bytes_of "127.0.0.1");
  ngx_create_temp_buf _ := true;
  ngx_http_write_filter _ _ := NGX_OK;
|}.

Lemma date_clean : clean some_date.
Proof. split_and!; [|discriminate|discriminate]. repeat constructor; discriminate. Qed.

#[local] Instance sample_core_ok : CoreOk.
Proof.
  split; try done; try (intros; apply date_clean); [by apply literal_clean|].
  intros a host [= <-]. by apply literal_clean.
Qed.

Definition sample_conf : conf := Conf true false true 75 true (bytes_of "example.org").

(** A redirect to "/x" over TLS on another port, with a header of a module. *)
Definition sample_out : ngx_http_headers_out_t :=
  HeadersOut [Elt 1 (bytes_of "Location") (bytes_of "/x") []; Elt 7 (bytes_of "X-Cache") (bytes_of "HIT") []] 301 [] false false
    false false (Some 0%nat) 9 (bytes_of "text/html") (bytes_of "utf-8") 184 (-1).
Definition sample_request : ngx_http_request_t :=
  Request false true 1001 2 false sample_out (bytes_of "a.b") false true true 0 (AF_INET 8443) true.

Definition sample_answer : Z * list Z :=
  match (ngx_http_header_filter sample_conf sample_request).2 with Some x => x | None => (0, []) end.

Lemma header_fits_witness : str_len sample_answer.2 <= sample_answer.1 /\ str_len sample_answer.2 = 268.
Proof.
  split; [|by vm_compute]. destruct (header_fits sample_conf sample_request) as [_ Hfits].
  eapply (Hfits (ngx_http_header_filter sample_conf sample_request).1.1 (ngx_http_header_filter sample_conf sample_request).1.2);
    try (vm_compute; reflexivity); unfold conf_ok, port_ok; cbn; lia.
Defined.

Lemma response_roundtrip_witness : exists s pos,
  parse_status (Buf (sample_answer.2 ++ bytes_of "body") 0)
    = (NGX_OK, (StatusLine.StatusLine.sw_start, s), Buf (sample_answer.2 ++ bytes_of "body") pos)
  /\ StatusLine.StatusLine.code s = 301
  /\ fields sample_conf sample_request (Some (bytes_of "a.b", 8443)) !! 4%nat = Some (bytes_of "Location", bytes_of "https://a.b:8443/x").
Proof.
  destruct (response_roundtrip sample_conf HeaderBlock.HeaderBlock.hash31 false true (map tolower) sample_request
    (ngx_http_header_filter sample_conf sample_request).1.1 (ngx_http_header_filter sample_conf sample_request).1.2
    sample_answer.1 sample_answer.2 (bytes_of "body") (fun _ => eq_refl)) as (red & s & pos & _ & Hp & Hc & _).
  - vm_compute. reflexivity.
  - split.
    + split; [cbn; lia|done].
    + constructor; [|constructor; [|constructor]]; (split; [by apply literal_clean|intros _; by apply literal_name]).
    + split_and!; [|discriminate|discriminate]. repeat constructor; discriminate.
    + by apply literal_clean.
    + by apply literal_clean.
    + unfold port_ok. cbn. lia.
    + cbn. lia.
    + unfold conf_ok. cbn. lia.
  - exists s, pos. split; [exact Hp|]. split; [exact Hc|]. vm_compute. reflexivity.
Defined.
End HeaderFilterProps.
