(* ===== verification/RequestBody.v ===== *)
(** * Reading the body of a request

    From [ngx_http_request_body.c]: what [ngx_http_read_client_request_body]
    starts and its read handler continues, until the whole body is in buffers or
    in a temporary file; and the discarding of a body that nobody wants.

    The buffers of [rb->bufs] do not hold bytes, they point into [r->header_in]
    or into [rb->buf], and one buffer is in several chains at once: they are
    numbers here, in a heap, and the bytes are where they are in the source. *)

From stdpp Require Import gmap.
From S2P Require Import Prelude Scan Chunked.

Module RequestBody.
Import Chunked.Chunked.

(** ** Buffers and sockets *)

(** Where a buffer points: into [r->header_in], or [rb->buf]. *)
Inductive region := Header_in | Rb_buf.

#[export] Instance region_eq_dec : EqDecision region.
Proof. solve_decision. Defined.

(** [ngx_buf_t] of a chain: memory, a buffer without any ([last_buf] only), or
    the first bytes of the temporary file. *)
Inductive body_buf :=
| Memory (src : region) (pos last : Z) (last_buf : bool)
| Special
| In_file (file_last : Z).

Definition buf_size (b : body_buf) : Z :=
  match b with Memory _ pos last _ => last - pos | Special => 0 | In_file n => n end.

Abbreviation heap := (gmap nat body_buf).

(** What the socket has: bytes, with [c->read->ready] after they are read; its
    end; an error.  Nothing more is [NGX_AGAIN]. *)
Inductive segment := Bytes (bs : list Z) (ready : bool) | Closed | Broken.

Inductive recv_result := Got (bs : list Z) | Again | Zero | Failed.

(** [c->recv (c, ..., size)]: what it gets, [ready], and what stays.  No room is
    taken for the end. *)
Definition recv (size : Z) (sock : list segment) : recv_result * bool * list segment :=
  if size <=? 0 then (Zero, false, sock)
  else
    match sock with
    | [] => (Again, false, [])
    | Bytes bs ready :: sock =>
        if Z.of_nat (length bs) <=? size then (Got bs, ready, sock)
        else (Got (take (Z.to_nat size) bs), true, Bytes (drop (Z.to_nat size) bs) ready :: sock)
    | Closed :: sock => (Zero, true, sock)
    | Broken :: sock => (Failed, true, sock)
    end.

(** ** The state of a request *)

Inductive read_handler := read_body_handler | discarded_body_handler | block_reading | other_handler.

(** [ngx_http_request_body_t] *)
Record ngx_http_request_body_t := Body {
  temp_file : option (list Z);   (** what was written *)
  bufs : list nat;
  buf : option (ngx_buf * Z);   (** with its size, [buf->end - buf->start] *)
  rest : Z;
  free : list nat;
  busy : list nat;
  rb_chunked : option chunked;
}.

Definition eta_body (b : ngx_http_request_body_t) : ngx_http_request_body_t :=
  Body (temp_file b) (bufs b) (buf b) (rest b) (free b) (busy b) (rb_chunked b).
#[export] Instance set_temp_file : Setter temp_file := ltac:(derive_setter eta_body temp_file).
#[export] Instance set_bufs : Setter bufs := ltac:(derive_setter eta_body bufs).
#[export] Instance set_buf : Setter buf := ltac:(derive_setter eta_body buf).
#[export] Instance set_rest : Setter rest := ltac:(derive_setter eta_body rest).
#[export] Instance set_free : Setter free := ltac:(derive_setter eta_body free).
#[export] Instance set_busy : Setter busy := ltac:(derive_setter eta_body busy).
#[export] Instance set_rb_chunked : Setter rb_chunked := ltac:(derive_setter eta_body rb_chunked).

(** The fields of the request and of its connection. *)
Record request := Request {
  header_in : ngx_buf;
  header_end : Z;   (** [header_in->end - header_in->start] *)
  in_chunked : bool;   (** [headers_in.chunked] *)
  content_length_n : Z;
  expect : option (list Z);
  http_version : Z;
  expect_tested : bool;
  is_main : bool;
  main_count : Z;
  discard_body : bool;
  lingering_close : bool;
  lingering_time : Z;
  in_file_only : bool;   (** [request_body_in_file_only] *)
  in_single_buf : bool;   (** [request_body_in_single_buf] *)
  request_length : Z;
  request_body : option ngx_http_request_body_t;
  memory : heap;
  sock : list segment;
  ready : bool;   (** [c->read->ready] *)
  timer : option Z;   (** of [c->read] *)
  conn_error : bool;
  timedout : bool;
  on_read : read_handler;   (** [r->read_event_handler] *)
  posted : nat;   (** how often [post_handler] was called *)
  finalized : list ngx_rc;   (** the calls of [ngx_http_finalize_request] *)
}.

Definition eta_request (r : request) : request :=
  Request (header_in r) (header_end r) (in_chunked r) (content_length_n r) (expect r) (http_version r) (expect_tested r)
    (is_main r) (main_count r) (discard_body r) (lingering_close r) (lingering_time r) (in_file_only r) (in_single_buf r)
    (request_length r) (request_body r) (memory r) (sock r) (ready r) (timer r) (conn_error r) (timedout r) (on_read r)
    (posted r) (finalized r).
#[export] Instance set_header_in : Setter header_in := ltac:(derive_setter eta_request header_in).
#[export] Instance set_content_length_n : Setter content_length_n := ltac:(derive_setter eta_request content_length_n).
#[export] Instance set_expect_tested : Setter expect_tested := ltac:(derive_setter eta_request expect_tested).
#[export] Instance set_main_count : Setter main_count := ltac:(derive_setter eta_request main_count).
#[export] Instance set_discard_body : Setter discard_body := ltac:(derive_setter eta_request discard_body).
#[export] Instance set_lingering_close : Setter lingering_close := ltac:(derive_setter eta_request lingering_close).
#[export] Instance set_request_length : Setter request_length := ltac:(derive_setter eta_request request_length).
#[export] Instance set_request_body : Setter request_body := ltac:(derive_setter eta_request request_body).
#[export] Instance set_memory : Setter memory := ltac:(derive_setter eta_request memory).
#[export] Instance set_sock : Setter sock := ltac:(derive_setter eta_request sock).
#[export] Instance set_ready : Setter ready := ltac:(derive_setter eta_request ready).
#[export] Instance set_timer : Setter timer := ltac:(derive_setter eta_request timer).
#[export] Instance set_conn_error : Setter conn_error := ltac:(derive_setter eta_request conn_error).
#[export] Instance set_timedout : Setter timedout := ltac:(derive_setter eta_request timedout).
#[export] Instance set_on_read : Setter on_read := ltac:(derive_setter eta_request on_read).
#[export] Instance set_posted : Setter posted := ltac:(derive_setter eta_request posted).
#[export] Instance set_finalized : Setter finalized := ltac:(derive_setter eta_request finalized).

Definition NGX_HTTP_VERSION_11 : Z := 1001.
Definition NGX_HTTP_DISCARD_BUFFER_SIZE : Z := 4096.
Definition NGX_HTTP_SPECIAL_RESPONSE : Z := 300.
Definition NGX_HTTP_BAD_REQUEST : ngx_rc := Code 400.
Definition NGX_HTTP_REQUEST_TIME_OUT : ngx_rc := Code 408.
Definition NGX_HTTP_REQUEST_ENTITY_TOO_LARGE : ngx_rc := Code 413.
Definition NGX_HTTP_INTERNAL_SERVER_ERROR : ngx_rc := Code 500.

(** [rc >= NGX_HTTP_SPECIAL_RESPONSE] *)
Definition special (rc : ngx_rc) : bool := match rc with Code z => NGX_HTTP_SPECIAL_RESPONSE <=? z | _ => false end.

(** ** The nginx core, and the settings of the location *)

Class Core := {
  ngx_pcalloc_body : bool;   (** each of the allocations of this file *)
  ngx_pcalloc_chunked : bool;
  ngx_pcalloc_temp_file : bool;
  ngx_calloc_buf : bool;
  ngx_create_temp_buf : Z -> bool;
  ngx_create_temp_file : bool;
  ngx_write_chain_to_temp_file : bool;   (** or [NGX_ERROR] *)
  (** a buffer for a link, and the chain of free ones after it *)
  ngx_chain_get_free_buf : heap -> list nat -> option (nat * list nat);
  ngx_chain_update_chains : heap -> list nat -> list nat -> list nat -> heap * list nat * list nat;
  ngx_chain_add_copy : list nat -> list nat -> option (list nat);
  ngx_handle_read_event : bool;
  ngx_time : Z;
  send : list Z -> Z;   (** [c->send] *)
  client_body_buffer_size : Z;
  client_max_body_size : Z;
  client_body_timeout : Z;
  lingering_timeout : Z;
}.

Section Body.
Context `{Core}.

(** Changes of [r->request_body]. *)
Definition upd (f : ngx_http_request_body_t -> ngx_http_request_body_t) (r : request) : request :=
  r <| request_body := f <$> request_body r |>.

(** The input of a filter: [r->header_in], or [rb->buf]. *)
Definition input (r : request) (src : region) : ngx_buf :=
  match src with
  | Header_in => header_in r
  | Rb_buf => match request_body r with
              | Some rb => match buf rb with Some (b, _) => b | None => Buf [] 0 end
              | None => Buf [] 0
              end
  end.
Definition set_pos (src : region) (p : Z) (r : request) : request :=
  match src with
  | Header_in => r <| header_in := Buf (b_mem (header_in r)) p |>
  | Rb_buf => upd (fun rb => rb <| buf := (fun x => (Buf (b_mem x.1) p, x.2)) <$> buf rb |>) r
  end.

(** The bytes of a buffer. *)
Definition buf_data (r : request) (i : nat) : list Z :=
  match memory r !! i with
  | Some (Memory src pos last _) => slice (b_mem (input r src)) pos last
  | Some (In_file n) =>
      match request_body r with
      | Some rb => match temp_file rb with Some f => take (Z.to_nat n) f | None => [] end
      | None => []
      end
  | _ => []
  end.

(** ** The filters *)

(** [ngx_http_request_body_save_filter] *)
Definition ngx_http_request_body_save_filter (out : list nat) (r : request) : ngx_rc * request :=
  match request_body r with
  | None => (NGX_HTTP_INTERNAL_SERVER_ERROR, r)
  | Some rb =>
      match ngx_chain_add_copy (bufs rb) out with
      | Some l => (NGX_OK, upd (fun rb => rb <| bufs := l |>) r)
      | None => (NGX_HTTP_INTERNAL_SERVER_ERROR, r)
      end
  end.

(** The end of both filters. *)
Definition save_and_update (out : list nat) (r : request) : ngx_rc * request :=
  let '(rc, r) := ngx_http_request_body_save_filter out r in
  match request_body r with
  | None => (rc, r)
  | Some rb =>
      let '(m, free', busy') := ngx_chain_update_chains (memory r) (free rb) (busy rb) out in
      (rc, upd (fun rb => rb <| free := free' |> <| busy := busy' |>) (r <| memory := m |>))
  end.

(** [ngx_chain_get_free_buf], and what is written into the buffer it gives. *)
Definition get_free_buf (b : body_buf) (r : request) : option (nat * request) :=
  match request_body r with
  | None => None
  | Some rb =>
      match ngx_chain_get_free_buf (memory r) (free rb) with
      | Some (i, l) => Some (i, upd (fun rb => rb <| free := l |>) (r <| memory := <[i := b]> (memory r) |>))
      | None => None
      end
  end.

(** [in] is NULL or a chain of one buffer. *)
Definition ngx_http_request_body_length_filter (inp : option region) (r : request) : ngx_rc * request :=
  let r := upd (fun rb => if rest rb =? -1 then rb <| rest := content_length_n r |> else rb) r in
  match inp, request_body r with
  | Some src, Some rb =>
      let b := input r src in
      let size := b_last b - b_pos b in
      let all := size <? rest rb in
      let n := if all then size else rest rb in
      match get_free_buf (Memory src (b_pos b) (b_pos b + n) (negb all)) r with
      | None => (NGX_HTTP_INTERNAL_SERVER_ERROR, r)
      | Some (i, r) =>
          save_and_update [i] (upd (fun rb => rb <| rest := rest rb - n |>) (set_pos src (b_pos b + n) r))
      end
  | _, _ => save_and_update [] r
  end.

(** The [for ( ;; )] over one buffer; [out] is what there was in [out]. *)
Fixpoint chunked_loop (fuel : nat) (src : region) (out : list nat) (r : request) : ngx_rc * list nat * request :=
  match fuel, request_body r with
  | S fuel, Some rb =>
      match rb_chunked rb with
      | None => (NGX_HTTP_INTERNAL_SERVER_ERROR, out, r)
      | Some ctx =>
          let '(rc, ctx, b) := ngx_http_parse_chunked ctx (input r src) in
          let r := upd (fun rb => rb <| rb_chunked := Some ctx |>) (set_pos src (b_pos b) r) in
          match rc with
          | NGX_OK =>
              if negb (client_max_body_size =? 0) && (client_max_body_size <? off_t (content_length_n r + c_size ctx))
              then (NGX_HTTP_REQUEST_ENTITY_TOO_LARGE, out, r <| lingering_close := true |>)
              else
                let size := b_last b - b_pos b in
                let '(n, remaining) := if size >? c_size ctx then (c_size ctx, 0) else (size, c_size ctx - size) in
                match get_free_buf (Memory src (b_pos b) (b_pos b + n) false) r with
                | None => (NGX_HTTP_INTERNAL_SERVER_ERROR, out, r)
                | Some (i, r) =>
                    let r := upd (fun rb => rb <| rb_chunked := Some (Ctx (c_state ctx) remaining (c_length ctx)) |>)
                               (set_pos src (b_pos b + n) (r <| content_length_n := off_t (content_length_n r + n) |>)) in
                    chunked_loop fuel src (out ++ [i]) r
                end
          | NGX_DONE =>
              let r := upd (fun rb => rb <| rest := 0 |>) r in
              match get_free_buf Special r with
              | None => (NGX_HTTP_INTERNAL_SERVER_ERROR, out, r)
              | Some (i, r) => (NGX_OK, out ++ [i], r)
              end
          | NGX_AGAIN => (NGX_OK, out, upd (fun rb => rb <| rest := c_length ctx |>) r)
          | _ => (NGX_HTTP_BAD_REQUEST, out, r)
          end
      end
  | _, _ => (NGX_HTTP_INTERNAL_SERVER_ERROR, out, r)
  end.

(** Every turn but the last takes a byte at least. *)
Definition ngx_http_request_body_chunked_filter (inp : option region) (r : request) : ngx_rc * request :=
  let first := match request_body r with Some rb => rest rb =? -1 | None => false end in
  if first && negb ngx_pcalloc_chunked then (NGX_HTTP_INTERNAL_SERVER_ERROR, r)
  else
    let r := if first then upd (fun rb => rb <| rb_chunked := Some fresh_ctx |> <| rest := 3 |>) (r <| content_length_n := 0 |>)
             else r in
    match inp with
    | None => save_and_update [] r
    | Some src =>
        let '(rc, out, r) := chunked_loop (S (length (unread (input r src)))) src [] r in
        if bool_decide (rc = NGX_OK) then save_and_update out r else (rc, r)
    end.

Definition ngx_http_request_body_filter (inp : option region) (r : request) : ngx_rc * request :=
  if in_chunked r then ngx_http_request_body_chunked_filter inp r else ngx_http_request_body_length_filter inp r.

(** ** Writing to the file *)

(** [cl->buf->pos = cl->buf->last] *)
Definition written (b : body_buf) : body_buf :=
  match b with Memory src _ last l => Memory src last last l | _ => b end.

Definition ngx_http_write_request_body (r : request) : ngx_rc * request :=
  match request_body r with
  | None => (NGX_ERROR, r)
  | Some rb =>
      let new := bool_decide (temp_file rb = None) in
      if new && negb ngx_pcalloc_temp_file then (NGX_ERROR, r)
      else
        let r := if new then upd (fun rb => rb <| temp_file := Some [] |>) r else r in
        if new && bool_decide (bufs rb = []) then (if ngx_create_temp_file then NGX_OK else NGX_ERROR, r)
        else if bool_decide (bufs rb = []) then (NGX_OK, r)
        else if negb ngx_write_chain_to_temp_file then (NGX_ERROR, r)
        else
          let data := concat (map (buf_data r) (bufs rb)) in
          (NGX_OK,
           upd (fun rb => rb <| temp_file := (fun f => f ++ data) <$> temp_file rb |> <| bufs := [] |>)
             (r <| memory := foldr (fun i m => alter written i m) (memory r) (bufs rb) |>))
  end.

(** Saving the last part: the file in place of the buffers. *)
Definition save_last_part (r : request) : ngx_rc * request :=
  let '(rc, r) := ngx_http_write_request_body r in
  if negb (bool_decide (rc = NGX_OK)) then (NGX_HTTP_INTERNAL_SERVER_ERROR, r)
  else
    let n := match request_body r with
             | Some rb => match temp_file rb with Some f => Z.of_nat (length f) | None => 0 end
             | None => 0
             end in
    match get_free_buf (In_file n) r with
    | None => (NGX_HTTP_INTERNAL_SERVER_ERROR, r)
    | Some (i, r) => (NGX_OK, upd (fun rb => rb <| bufs := [i] |>) r)
    end.

Definition post_handler (r : request) : request := r <| posted := S (posted r) |>.

(** ** Reading *)

(** When [rb->buf] is full: its bytes are passed on and written to the file, and
    it starts again. *)
Definition flush_buffer (r : request) : ngx_rc * request :=
  let '(rc, r) := ngx_http_request_body_filter (Some Rb_buf) r in
  if negb (bool_decide (rc = NGX_OK)) then (rc, r)
  else
    let '(rc, r) := ngx_http_write_request_body r in
    if negb (bool_decide (rc = NGX_OK)) then (NGX_HTTP_INTERNAL_SERVER_ERROR, r)
    else
      let '(rc, r) := ngx_http_request_body_filter None r in
      if negb (bool_decide (rc = NGX_OK)) then (rc, r)
      else
        match request_body r with
        | Some rb =>
            if negb (bool_decide (busy rb = [])) then (NGX_HTTP_INTERNAL_SERVER_ERROR, r)
            else (NGX_OK, upd (fun rb => rb <| buf := (fun x => (Buf [] 0, x.2)) <$> buf rb |>) r)
        | None => (NGX_HTTP_INTERNAL_SERVER_ERROR, r)
        end.

(** How a turn of the inner [for ( ;; )] ends. *)
Inductive turn := Return (rc : ngx_rc) | Inner | Outer.

Definition the_rest (r : request) : Z := match request_body r with Some rb => rest rb | None => 0 end.
Definition capacity (r : request) : Z :=
  match request_body r with
  | Some rb => match buf rb with Some (_, n) => n | None => 0 end
  | None => 0
  end.
Definition append (bs : list Z) (r : request) : request :=
  upd (fun rb => rb <| buf := (fun x => (received x.1 bs, x.2)) <$> buf rb |>) r
    <| request_length := request_length r + Z.of_nat (length bs) |>.

Definition after_read (bs : list Z) (wanted : Z) (r : request) : turn * request :=
  let r := append bs r in
  let '(rc, r) := if Z.of_nat (length bs) =? wanted then ngx_http_request_body_filter (Some Rb_buf) r else (NGX_OK, r) in
  if negb (bool_decide (rc = NGX_OK)) then (Return rc, r)
  else if the_rest r =? 0 then (Outer, r)
  else if b_last (input r Rb_buf) <? capacity r then (Outer, r)
  else (Inner, r).

Definition read_turn (r : request) : turn * request :=
  let '(rc, r) := if b_last (input r Rb_buf) =? capacity r then flush_buffer r else (NGX_OK, r) in
  if negb (bool_decide (rc = NGX_OK)) then (Return rc, r)
  else
    let b := input r Rb_buf in
    let wanted := the_rest r - (b_last b - b_pos b) in
    let '(got, rdy, s) := recv (Z.min (capacity r - b_last b) wanted) (sock r) in
    let r := r <| sock := s |> <| ready := rdy |> in
    match got with
    | Again => (Outer, r)
    | Zero | Failed => (Return NGX_HTTP_BAD_REQUEST, r <| conn_error := true |>)
    | Got bs => after_read bs wanted r
    end.

(** After the loops. *)
Definition body_read (r : request) : ngx_rc * request :=
  let r := r <| timer := None |> in
  let file := in_file_only r || match request_body r with Some rb => negb (bool_decide (temp_file rb = None)) | None => false end in
  let '(rc, r) := if file then save_last_part r else (NGX_OK, r) in
  if negb (bool_decide (rc = NGX_OK)) then (rc, r) else (NGX_OK, post_handler (r <| on_read := block_reading |>)).

(** [None] is a run that has not ended. *)
Fixpoint ngx_http_do_read_client_request_body (fuel : nat) (r : request) : option (ngx_rc * request) :=
  match fuel with
  | O => None
  | S fuel =>
      match read_turn r with
      | (Return rc, r) => Some (rc, r)
      | (Inner, r) => ngx_http_do_read_client_request_body fuel r
      | (Outer, r) =>
          if the_rest r =? 0 then Some (body_read r)
          else if negb (ready r) then
            let r := r <| timer := Some client_body_timeout |> in
            Some (if ngx_handle_read_event then NGX_AGAIN else NGX_HTTP_INTERNAL_SERVER_ERROR, r)
          else ngx_http_do_read_client_request_body fuel r
      end
  end.

Definition ngx_http_finalize_request (rc : ngx_rc) (r : request) : request := r <| finalized := finalized r ++ [rc] |>.

(** A turn takes a byte, a segment, or finds nothing. *)
Definition read_fuel (r : request) : nat :=
  S (foldr (fun s n => match s with Bytes bs _ => S (length bs) | _ => 1 end + n)%nat O (sock r)).

Definition ngx_http_read_client_request_body_handler (late : bool) (r : request) : option request :=
  if late then Some (ngx_http_finalize_request NGX_HTTP_REQUEST_TIME_OUT (r <| timedout := true |>))
  else
    match ngx_http_do_read_client_request_body (read_fuel r) r with
    | Some (rc, r) => Some (if special rc then ngx_http_finalize_request rc r else r)
    | None => None
    end.

(** ** Starting *)

(** [ngx_strncasecmp (..., "100-continue", ...)] on a value of that length *)
Definition continue_line : list Z := bytes_of "HTTP/1.1 100 Continue" ++ [CR; LF; CR; LF].

Definition ngx_http_test_expect (r : request) : ngx_rc * request :=
  match expect r with
  | None => (NGX_OK, r)
  | Some v =>
      if expect_tested r || (http_version r <? NGX_HTTP_VERSION_11) then (NGX_OK, r)
      else
        let r := r <| expect_tested := true |> in
        if negb (bool_decide (map tolower v = bytes_of "100-continue")) then (NGX_OK, r)
        else (if send continue_line =? Z.of_nat (length continue_line) then NGX_OK else NGX_ERROR, r)
  end.

(** [done:] *)
Definition body_done (x : ngx_rc * request) : ngx_rc * request :=
  (x.1, if special x.1 then x.2 <| main_count := main_count x.2 - 1 |> else x.2).

Definition start_reading (r : request) : option (ngx_rc * request) :=
  body_done <$> ngx_http_do_read_client_request_body (read_fuel r) (r <| on_read := read_body_handler |>).

(** The whole body was read before. *)
Definition all_read_before (r : request) : ngx_rc * request :=
  let '(rc, r) := if in_file_only r then save_last_part r else (NGX_OK, r) in
  if negb (bool_decide (rc = NGX_OK)) then body_done (rc, r) else (NGX_OK, post_handler r).

(** The size of [rb->buf]. *)
Definition buffer_size (preread : Z) (r : request) : Z :=
  let size := client_body_buffer_size + Z.shiftr client_body_buffer_size 2 in
  if negb (in_chunked r) && (the_rest r <? size)
  then the_rest r + (if in_single_buf r then preread else 0)
  else client_body_buffer_size.

Definition with_own_buffer (preread : Z) (r : request) : option (ngx_rc * request) :=
  if the_rest r =? 0 then Some (all_read_before r)
  else if the_rest r <? 0 then Some (body_done (NGX_HTTP_INTERNAL_SERVER_ERROR, r))
  else
    let size := buffer_size preread r in
    if negb (ngx_create_temp_buf size) then Some (body_done (NGX_HTTP_INTERNAL_SERVER_ERROR, r))
    else start_reading (upd (fun rb => rb <| buf := Some (Buf [] 0, size) |>) r).

Definition fresh_body : ngx_http_request_body_t := Body None [] None (-1) [] [] None.

Definition ngx_http_read_client_request_body (r : request) : option (ngx_rc * request) :=
  let r := r <| main_count := main_count r + 1 |> in
  if negb (is_main r) || negb (bool_decide (request_body r = None)) || discard_body r then Some (NGX_OK, post_handler r)
  else
    let '(rc, r) := ngx_http_test_expect r in
    if negb (bool_decide (rc = NGX_OK)) then Some (body_done (NGX_HTTP_INTERNAL_SERVER_ERROR, r))
    else if negb ngx_pcalloc_body then Some (body_done (NGX_HTTP_INTERNAL_SERVER_ERROR, r))
    else
      let r := r <| request_body := Some fresh_body |> in
      if (content_length_n r <? 0) && negb (in_chunked r) then Some (NGX_OK, post_handler r)
      else
        let preread := b_last (header_in r) - b_pos (header_in r) in
        if negb (preread =? 0) then
          let '(rc, r) := ngx_http_request_body_filter (Some Header_in) r in
          if negb (bool_decide (rc = NGX_OK)) then Some (body_done (rc, r))
          else
            let b := header_in r in
            let r := r <| request_length := request_length r + (preread - (b_last b - b_pos b)) |> in
            if negb (in_chunked r) && (0 <? the_rest r) && (the_rest r <=? header_end r - b_last b) then
              if negb ngx_calloc_buf then Some (body_done (NGX_HTTP_INTERNAL_SERVER_ERROR, r))
              else start_reading (upd (fun rb => rb <| buf := Some (Buf (unread b) 0, header_end r - b_pos b) |>) r)
            else with_own_buffer preread r
        else
          let '(rc, r) := ngx_http_request_body_filter None r in
          if negb (bool_decide (rc = NGX_OK)) then Some (body_done (NGX_HTTP_INTERNAL_SERVER_ERROR, r))
          else with_own_buffer preread r.

(** ** Discarding *)

(** [ngx_http_discard_request_body_filter] *)
Definition ngx_http_discard_request_body_filter (b : ngx_buf) (r : request) : ngx_rc * request * ngx_buf :=
  if in_chunked r then
    let new := bool_decide (request_body r = None) in
    if new && negb (ngx_pcalloc_body && ngx_pcalloc_chunked) then (NGX_HTTP_INTERNAL_SERVER_ERROR, r, b)
    else
      let r := if new then r <| request_body := Some (Body None [] None 0 [] [] (Some fresh_ctx)) |> else r in
      match request_body r with
      | Some rb =>
          match rb_chunked rb with
          | Some ctx =>
              let '(f, ctx, b) := discard_chunked (S (length (unread b))) ctx b in
              let r := upd (fun rb => rb <| rb_chunked := Some ctx |>) r in
              match f with
              | Last => (NGX_OK, r <| content_length_n := 0 |>, b)
              | More n => (NGX_OK, r <| content_length_n := n |>, b)
              | _ => (NGX_HTTP_BAD_REQUEST, r, b)
              end
          | None => (NGX_HTTP_INTERNAL_SERVER_ERROR, r, b)
          end
      | None => (NGX_HTTP_INTERNAL_SERVER_ERROR, r, b)
      end
  else
    let '(n, b) := discard_length (content_length_n r) b in
    (NGX_OK, r <| content_length_n := n |>, b).

Fixpoint ngx_http_read_discarded_request_body (fuel : nat) (r : request) : option (ngx_rc * request) :=
  match fuel with
  | O => None
  | S fuel =>
      if content_length_n r =? 0 then Some (NGX_OK, r <| on_read := block_reading |>)
      else if negb (ready r) then Some (NGX_AGAIN, r)
      else
        let '(got, rdy, s) := recv (Z.min (content_length_n r) NGX_HTTP_DISCARD_BUFFER_SIZE) (sock r) in
        let r := r <| sock := s |> <| ready := rdy |> in
        match got with
        | Failed => Some (NGX_OK, r <| conn_error := true |>)
        | Again => Some (NGX_AGAIN, r)
        | Zero => Some (NGX_OK, r)
        | Got bs =>
            match ngx_http_discard_request_body_filter (Buf bs 0) r with
            | (NGX_OK, r, _) => ngx_http_read_discarded_request_body fuel r
            | (rc, r, _) => Some (rc, r)
            end
        end
  end.

(** From the first read. *)
Definition discard_rest (r : request) : option (ngx_rc * request) :=
  match ngx_http_read_discarded_request_body (read_fuel r) r with
  | None => None
  | Some (NGX_OK, r) => Some (NGX_OK, r <| lingering_close := false |>)
  | Some (rc, r) =>
      if special rc then Some (rc, r)
      else
        let r := r <| on_read := discarded_body_handler |> in
        Some (if ngx_handle_read_event
              then (NGX_OK, r <| main_count := main_count r + 1 |> <| discard_body := true |>)
              else (NGX_HTTP_INTERNAL_SERVER_ERROR, r))
  end.

Definition ngx_http_discard_request_body (r : request) : option (ngx_rc * request) :=
  if negb (is_main r) || discard_body r || negb (bool_decide (request_body r = None)) then Some (NGX_OK, r)
  else
    let '(rc, r) := ngx_http_test_expect r in
    if negb (bool_decide (rc = NGX_OK)) then Some (NGX_HTTP_INTERNAL_SERVER_ERROR, r)
    else
      let r := r <| timer := None |> in
      if (content_length_n r <=? 0) && negb (in_chunked r) then Some (NGX_OK, r)
      else if negb (b_last (header_in r) - b_pos (header_in r) =? 0) || in_chunked r then
        let '(rc, r, b) := ngx_http_discard_request_body_filter (header_in r) r in
        let r := r <| header_in := b |> in
        if negb (bool_decide (rc = NGX_OK)) then Some (rc, r)
        else if content_length_n r =? 0 then Some (NGX_OK, r)
        else discard_rest r
      else discard_rest r.

Definition ngx_http_discarded_request_body_handler (late : bool) (r : request) : option request :=
  if late then Some (ngx_http_finalize_request NGX_ERROR (r <| timedout := true |> <| conn_error := true |>))
  else
    let left_ := wrap 64 (lingering_time r - ngx_time) in
    if negb (lingering_time r =? 0) && (swrap 64 left_ <=? 0) then
      Some (ngx_http_finalize_request NGX_ERROR (r <| discard_body := false |> <| lingering_close := false |>))
    else
      let left_ := if lingering_time r =? 0 then 0 else left_ in
      match ngx_http_read_discarded_request_body (read_fuel r) r with
      | None => None
      | Some (NGX_OK, r) =>
          Some (ngx_http_finalize_request NGX_DONE (r <| discard_body := false |> <| lingering_close := false |>))
      | Some (rc, r) =>
          Some (if special rc || negb ngx_handle_read_event then ngx_http_finalize_request NGX_ERROR (r <| conn_error := true |>)
                else if left_ =? 0 then r
                else
                  let t := wrap 64 (left_ * 1000) in
                  r <| timer := Some (if lingering_timeout <? t then lingering_timeout else t) |>)
      end.
End Body.
End RequestBody.
