(* ===== verification/RequestBodyErrors.v ===== *)
(** * How the reading of a body can end

    Whatever the socket does and whatever fails: the codes, the reference count
    of the request and the calls of the post handler.  Nothing is assumed of the
    nginx core here. *)

From stdpp Require Import gmap.
From S2P Require Import Prelude Scan Chunked RequestBody.

Module RequestBodyErrors.
Import Chunked.Chunked RequestBody.RequestBody.

Section Body.
Context `{Core}.

(** ** What the filters leave alone *)

Definition same_outside (r r' : request) : Prop :=
  main_count r' = main_count r /\ posted r' = posted r /\ finalized r' = finalized r /\ sock r' = sock r
  /\ ready r' = ready r /\ is_main r' = is_main r /\ in_chunked r' = in_chunked r /\ on_read r' = on_read r.

#[local] Instance same_outside_pre : PreOrder same_outside.
Proof.
  split; [by intros r|]. intros r1 r2 r3 (E1 & E2 & E3 & E4 & E5 & E6 & E7 & E8) (F1 & F2 & F3 & F4 & F5 & F6 & F7 & F8).
  split_and!; congruence.
Qed.

Definition body_code (rc : ngx_rc) : Prop :=
  rc = NGX_OK \/ rc = NGX_HTTP_BAD_REQUEST \/ rc = NGX_HTTP_REQUEST_ENTITY_TOO_LARGE \/ rc = NGX_HTTP_INTERNAL_SERVER_ERROR.

(** A code of a filter, with nothing else touched. *)
Definition inner (r : request) (x : ngx_rc * request) : Prop := body_code x.1 /\ same_outside r x.2.

Lemma same_upd f r : same_outside r (upd f r).
Proof. done. Qed.

Lemma same_set_pos src p r : same_outside r (set_pos src p r).
Proof. by destruct src. Qed.

Lemma same_get_free b r i r' : get_free_buf b r = Some (i, r') -> same_outside r r'.
Proof. unfold get_free_buf. destruct (request_body r); [|done]. destruct (ngx_chain_get_free_buf _ _) as [[]|]; intros; by simplify_eq. Qed.

Lemma inner_save out r : inner r (save_and_update out r).
Proof.
  unfold save_and_update, ngx_http_request_body_save_filter. destruct (request_body r) as [rb|] eqn:E.
  - destruct (ngx_chain_add_copy _ _); cbn; rewrite E; cbn; destruct (ngx_chain_update_chains _ _ _ _) as [[]];
      (split; [unfold body_code; auto | done]).
  - rewrite E. split; [unfold body_code; auto | done].
Qed.

Lemma inner_after r r1 x : same_outside r r1 -> inner r1 x -> inner r x.
Proof. intros H1 [Hc H2]. split; [done|]. by etrans. Qed.

Lemma inner_error r r' rc : same_outside r r' -> body_code rc -> inner r (rc, r').
Proof. by split. Qed.

Lemma code_500 : body_code NGX_HTTP_INTERNAL_SERVER_ERROR. Proof. unfold body_code. auto. Qed.
Lemma code_400 : body_code NGX_HTTP_BAD_REQUEST. Proof. unfold body_code. auto. Qed.
Lemma code_413 : body_code NGX_HTTP_REQUEST_ENTITY_TOO_LARGE. Proof. unfold body_code. auto. Qed.
Lemma code_ok : body_code NGX_OK. Proof. unfold body_code. auto. Qed.
#[local] Hint Resolve code_500 code_400 code_413 code_ok : core.

Lemma inner_length inp r : inner r (ngx_http_request_body_length_filter inp r).
Proof.
  unfold ngx_http_request_body_length_filter.
  set (r1 := upd _ r). apply (inner_after r r1); [done|]. destruct inp as [src|]; [|apply inner_save].
  destruct (request_body r1); [|apply inner_save]. destruct (get_free_buf _ _) as [[i r2]|] eqn:E; [|by split].
  apply same_get_free in E. eapply inner_after; [|apply inner_save]. etrans; [exact E|]. apply same_set_pos.
Qed.

Lemma inner_loop fuel src out r rc out' r' : chunked_loop fuel src out r = (rc, out', r') -> inner r (rc, r').
Proof.
  revert out r. induction fuel as [|fuel IH]; intros out r; cbn [chunked_loop]; [intros [= <- <- <-]; by split|].
  destruct (request_body r) as [rb|]; [|intros [= <- <- <-]; by split]. destruct (rb_chunked rb) as [ctx|]; [|intros [= <- <- <-]; by split].
  destruct (ngx_http_parse_chunked ctx _) as [[prc ctx'] b']. set (r1 := upd _ _).
  assert (H1 : same_outside r r1) by (unfold r1; apply same_set_pos).
  destruct prc; try (intros [= <- <- <-]; by apply inner_error).
  - destruct (negb _ && _); [intros [= <- <- <-]; by apply inner_error|].
    destruct (if _ >? _ then _ else _) as [n left_]. destruct (get_free_buf _ _) as [[i r2]|] eqn:E; [|intros [= <- <- <-]; by apply inner_error].
    apply same_get_free in E. intros E'. eapply inner_after; [|by eapply IH]. etrans; [exact H1|]. etrans; [exact E|].
    etrans; [|apply same_upd]. destruct src; done.
  - destruct (get_free_buf _ _) as [[i r2]|] eqn:E; [|intros [= <- <- <-]; by apply inner_error].
    apply same_get_free in E. intros [= <- <- <-]. split; [done|]. etrans; [exact H1|]. exact E.
Qed.

Lemma inner_filter inp r : inner r (ngx_http_request_body_filter inp r).
Proof.
  unfold ngx_http_request_body_filter. destruct (in_chunked r) eqn:Ec; [|apply inner_length].
  unfold ngx_http_request_body_chunked_filter. destruct (_ && _); [by split|]. match goal with |- context [if ?c then ?a else r] => set (r1 := if c then a else r) end.
  assert (H1 : same_outside r r1) by (unfold r1; destruct (request_body r) as [rb|]; [destruct (rest rb =? -1)|]; done).
  destruct inp as [src|]; [|eapply inner_after; [exact H1|apply inner_save]].
  destruct (chunked_loop _ _ _ _) as [[rc out] r2] eqn:E. apply inner_loop in E. eapply inner_after; [exact H1|].
  case_bool_decide; [|done]. eapply inner_after; [apply E|apply inner_save].
Qed.

(** [inner] with a code other than [NGX_OK] is passed on. *)
Lemma same_write r : same_outside r (ngx_http_write_request_body r).2.
Proof.
  unfold ngx_http_write_request_body. destruct (request_body r); [|done]. destruct (_ && negb _); [done|].
  match goal with |- context [if ?c then ?a else r] => set (r1 := if c then a else r) end. assert (H1 : same_outside r r1) by (unfold r1; match goal with |- context [if ?c then _ else r] => by destruct c end).
  clearbody r1. repeat match goal with |- context [if ?c then _ else _] => destruct c end; try exact H1; (etrans; [exact H1|done]).
Qed.

Lemma inner_last_part r : inner r (save_last_part r).
Proof.
  unfold save_last_part. pose proof (same_write r) as H1. destruct (ngx_http_write_request_body r) as [rc r1]. cbn in H1.
  destruct (negb _); [by split|]. destruct (get_free_buf _ _) as [[i r2]|] eqn:E; [|by split].
  apply same_get_free in E. split; [done|]. etrans; [exact H1|]. exact E.
Qed.

Lemma inner_flush r : inner r (flush_buffer r).
Proof.
  unfold flush_buffer. pose proof (inner_filter (Some Rb_buf) r) as H1. destruct (ngx_http_request_body_filter _ r) as [rc r1].
  destruct (negb _); [done|]. destruct H1 as [_ H1]. cbn in H1. pose proof (same_write r1) as H2.
  destruct (ngx_http_write_request_body r1) as [rc2 r2]. cbn in H2. assert (H3 : same_outside r r2) by by etrans.
  destruct (negb _); [by split|]. pose proof (inner_filter None r2) as H4. destruct (ngx_http_request_body_filter _ r2) as [rc4 r4].
  destruct (negb _); [by eapply inner_after|]. destruct H4 as [_ H4]. cbn in H4. assert (H5 : same_outside r r4) by by etrans.
  destruct (request_body r4); [|by split]. destruct (negb _); by split.
Qed.

(** ** The reading loop *)

(** What is still on the socket, with one for each segment. *)
Definition pending (s : list segment) : nat :=
  foldr (fun s n => match s with Bytes bs _ => S (length bs) | _ => 1 end + n)%nat O s.

Lemma recv_pending n s got rdy s' : recv n s = (got, rdy, s') ->
  match got with Got _ => (pending s' < pending s)%nat | Again => s = [] /\ rdy = false /\ s' = [] | _ => True end.
Proof.
  unfold recv. destruct (Z.leb_spec n 0); [intros; by simplify_eq|]. destruct s as [|[bs rdy0| |] s]; intros E; try by simplify_eq.
  destruct (Z.leb_spec (Z.of_nat (length bs)) n); simplify_eq; unfold pending; cbn; [lia|]. rewrite length_drop. lia.
Qed.

(** The parts of a request that a call counts. *)
Definition counts (r r' : request) : Prop :=
  main_count r' = main_count r /\ finalized r' = finalized r /\ is_main r' = is_main r.

Lemma counts_of r r' : same_outside r r' -> counts r r'.
Proof. unfold same_outside, counts. intuition. Qed.

Definition reading (r : request) (rc : ngx_rc) (r' : request) : Prop :=
  counts r r' /\ (rc = NGX_AGAIN \/ body_code rc) /\ posted r' = (posted r + if bool_decide (rc = NGX_OK) then 1 else 0)%nat.

Lemma reading_error r r' rc : counts r r' -> posted r' = posted r -> body_code rc -> rc <> NGX_OK -> reading r rc r'.
Proof. intros Hc Hp Hb Hrc. split_and!; [done|by right|]. rewrite bool_decide_eq_false_2 by done. lia. Qed.

Lemma reading_body_read r : reading r (body_read r).1 (body_read r).2.
Proof.
  unfold body_read. set (r1 := r <| timer := None |>). match goal with |- context [if ?c then save_last_part r1 else ?b] => set (x := if c then save_last_part r1 else b) end.
  assert (Hx : inner r x).
  { unfold x. match goal with |- context [if ?c then _ else _] => destruct c end; [|by split].
    eapply inner_after; [|apply inner_last_part]. done. }
  clearbody x. destruct x as [rc r2]. destruct Hx as [Hc Hs]. cbn in Hc, Hs. pose proof Hs as (_ & Hp & _).
  case_bool_decide as Hrc; cbn.
  - subst rc. split_and!; [exact (counts_of _ _ Hs)|by right; left|]. rewrite bool_decide_eq_true_2 by done. cbn in *. lia.
  - apply reading_error; [by apply counts_of|done..].
Qed.

(** One turn: the socket gives something, or the turn is the last of the call. *)
Lemma turn_step r t r1 : read_turn r = (t, r1) ->
  counts r r1 /\ posted r1 = posted r /\
  match t with
  | Return rc => body_code rc /\ rc <> NGX_OK
  | Inner => (pending (sock r1) < pending (sock r))%nat
  | Outer => (pending (sock r1) < pending (sock r))%nat \/ ready r1 = false
  end.
Proof.
  unfold read_turn. match goal with |- context [if ?c then flush_buffer r else ?b] => set (x := if c then flush_buffer r else b) end. assert (Hx : inner r x).
  { unfold x. destruct (_ =? _); [apply inner_flush | by split]. }
  clearbody x. destruct x as [rc r0]. destruct Hx as [Hc Hs]. cbn in Hc, Hs.
  case_bool_decide as Hrc; cbn [negb]; [|intros [= <- <-]; split_and!; [by apply counts_of|apply Hs|done|done]].
  destruct (recv _ _) as [[got rdy] s] eqn:Er. apply recv_pending in Er. set (r2 := (r0 <| sock := s |>) <| ready := rdy |>).
  assert (H2 : counts r r2 /\ posted r2 = posted r) by (split; [by apply counts_of in Hs | apply Hs]).
  assert (Hsock : sock r0 = sock r) by apply Hs. rewrite Hsock in Er.
  destruct got as [bs| | |].
  - unfold after_read. set (r3 := append bs r2). match goal with |- context [if ?c then ngx_http_request_body_filter ?a r3 else ?b] => set (y := if c then ngx_http_request_body_filter a r3 else b) end.
    assert (Hy : inner r3 y) by (unfold y; destruct (_ =? _); [apply inner_filter | by split]).
    clearbody y. destruct y as [rc4 r4]. destruct Hy as [Hc4 Hs4]. cbn in Hc4, Hs4.
    assert (H4 : counts r r4 /\ posted r4 = posted r /\ sock r4 = s).
    { destruct Hs4 as (E1 & E2 & E3 & E4 & E5 & E6 & E7). destruct H2 as [(F1 & F2 & F3) F4].
      split_and!; [split_and!|..]; [by rewrite E1|by rewrite E3|by rewrite E6|by rewrite E2|by rewrite E4]. }
    destruct H4 as (H41 & H42 & H43).
    case_bool_decide as Hrc4; cbn [negb]; [|by intros [= <- <-]].
    destruct (the_rest r4 =? 0); [intros [= <- <-]; split_and!; [done..|left; by rewrite H43]|].
    destruct (_ <? _); intros [= <- <-]; split_and!; try done; [left|]; by rewrite H43.
  - destruct Er as (_ & -> & _). intros [= <- <-]. split_and!; [apply H2..|]. by right.
  - intros [= <- <-]. split_and!; [apply H2|apply H2|auto|done].
  - intros [= <- <-]. split_and!; [apply H2|apply H2|auto|done].
Qed.

Lemma reading_loop fuel r : (pending (sock r) < fuel)%nat ->
  exists rc r', ngx_http_do_read_client_request_body fuel r = Some (rc, r') /\ reading r rc r'.
Proof.
  revert r. induction fuel as [|fuel IH]; intros r Hf; [lia|]. cbn [ngx_http_do_read_client_request_body].
  destruct (read_turn r) as [t r1] eqn:E. apply turn_step in E as (Hc & Hp & Ht).
  assert (Hgo : forall rc r', reading r1 rc r' -> reading r rc r').
  { intros rc r' ((E1 & E2 & E3) & Hrc & Hp'). destruct Hc as (F1 & F2 & F3).
    split_and!; [split_and!; congruence|done|]. by rewrite Hp', Hp. }
  destruct t as [rc| |].
  - eexists _, _. split; [done|]. destruct Ht. by apply reading_error.
  - destruct (IH r1 ltac:(lia)) as (rc & r' & -> & Hr). eauto.
  - destruct (_ =? 0).
    { destruct (body_read r1) as [rc r'] eqn:Eb. eexists _, _. split; [done|]. apply Hgo.
      pose proof (reading_body_read r1) as Hr. by rewrite Eb in Hr. }
    destruct (ready r1) eqn:Er; cbn [negb].
    + destruct Ht as [Ht|?]; [|done]. destruct (IH r1 ltac:(lia)) as (rc & r' & -> & Hr). eauto.
    + eexists _, _. split; [done|]. apply Hgo. destruct ngx_handle_read_event.
      * split_and!; [done|by left|rewrite bool_decide_eq_false_2 by done; cbn; lia].
      * by apply reading_error; auto.
Qed.

(** ** The whole call *)

(** What a call of [ngx_http_read_client_request_body] did: the request has one
    reference more unless the code is that of a special response, and the post
    handler was called if and only if the code is [NGX_OK]. *)
Definition answered (r : request) (rc : ngx_rc) (r' : request) : Prop :=
  (rc = NGX_AGAIN \/ body_code rc) /\
  main_count r' = main_count r + (if special rc then 0 else 1) /\
  posted r' = (posted r + if bool_decide (rc = NGX_OK) then 1 else 0)%nat /\ finalized r' = finalized r.

(** The reference is taken; what is left to do is [x]. *)
Lemma answered_done r r1 rc r' : main_count r1 = main_count r + 1 -> posted r1 = posted r -> finalized r1 = finalized r ->
  reading r1 rc r' -> answered r (body_done (rc, r')).1 (body_done (rc, r')).2.
Proof.
  intros Hm Hp Hf ((E1 & E2 & E3) & Hrc & Hp'). unfold body_done, answered. cbn [fst snd]. split; [done|].
  destruct (special rc); cbn; split_and!; try congruence; try lia.
Qed.

Lemma special_error rc : body_code rc -> rc <> NGX_OK -> special rc = true.
Proof. intros [?|[->|[->| ->]]] ?; done. Qed.

Section Started.
Context (r r1 : request).
Hypothesis Hm : main_count r1 = main_count r + 1.
Hypothesis Hp : posted r1 = posted r.
Hypothesis Hf : finalized r1 = finalized r.

Lemma answered_reading rc r' : reading r1 rc r' -> answered r (body_done (rc, r')).1 (body_done (rc, r')).2.
Proof using Hm Hp Hf. by apply answered_done. Qed.

Lemma answered_error rc r' : same_outside r1 r' -> body_code rc -> rc <> NGX_OK ->
  answered r (body_done (rc, r')).1 (body_done (rc, r')).2.
Proof using Hm Hp Hf. intros Hs Hc Hrc. apply answered_reading, reading_error; [by apply counts_of|apply Hs|done..]. Qed.

Lemma answered_post r' : same_outside r1 r' -> answered r NGX_OK (post_handler r').
Proof using Hm Hp Hf.
  intros (E1 & E2 & E3 & _). unfold answered. cbn. rewrite bool_decide_eq_true_2 by done. split_and!; try congruence; [right; auto|lia..].
Qed.

Lemma answered_start r' : same_outside r1 r' -> exists rc r2, start_reading r' = Some (rc, r2) /\ answered r rc r2.
Proof using Hm Hp Hf.
  intros Hs. unfold start_reading. destruct (reading_loop (read_fuel r') (r' <| on_read := read_body_handler |>)) as (rc & r2 & -> & Hr).
  { cbn. unfold read_fuel, pending. lia. }
  eexists _, _. split; [reflexivity|]. apply answered_reading. destruct Hr as ((E1 & E2 & E3) & Hrc & Hp2).
  destruct Hs as (F1 & F2 & F3 & F4 & F5 & F6 & F7). cbn in *. split_and!; [split_and!; congruence|done|by rewrite Hp2, F2].
Qed.

Lemma answered_own preread r' : same_outside r1 r' -> exists rc r2, with_own_buffer preread r' = Some (rc, r2) /\ answered r rc r2.
Proof using Hm Hp Hf.
  intros Hs. unfold with_own_buffer. destruct (_ =? 0).
  { eexists _, _. split; [by rewrite <- surjective_pairing|]. unfold all_read_before.
    match goal with |- context [if ?c then save_last_part r' else ?b] => set (x := if c then save_last_part r' else b) end.
    assert (Hx : inner r' x) by (unfold x; destruct (in_file_only r'); [apply inner_last_part | by split]).
    clearbody x. destruct x as [rc r2]. destruct Hx as [Hc Hs2]. cbn in Hc, Hs2.
    case_bool_decide as Hrc; cbn [negb].
    - apply answered_post. by etrans.
    - apply answered_error; [by etrans|done..]. }
  destruct (_ <? 0). { eexists _, _. split; [by rewrite <- surjective_pairing|]. by apply answered_error; auto. }
  destruct (negb _). { eexists _, _. split; [by rewrite <- surjective_pairing|]. by apply answered_error; auto. }
  apply answered_start. done.
Qed.
End Started.

(** C22: However the socket behaves and whatever fails, the call returns; with
    [NGX_OK] after calling the post handler once, with [NGX_AGAIN] before, or
    with 400, 413 or 500 and without it.  The reference it took on the request
    is given back exactly when it returns one of these errors. *)
Theorem read_body_answers r : exists rc r', ngx_http_read_client_request_body r = Some (rc, r') /\ answered r rc r'.
Proof.
  unfold ngx_http_read_client_request_body. set (r1 := r <| main_count := main_count r + 1 |>).
  assert (Hm : main_count r1 = main_count r + 1) by done.
  assert (Hexp : same_outside r1 (ngx_http_test_expect r1).2).
  { unfold ngx_http_test_expect. destruct (expect r1); [|done]. destruct (_ || _); [done|]. by destruct (negb _). }
  destruct (negb (is_main r1) || _ || _); [eexists _, _; split; [done|]; by apply (answered_post r r1)|].
  destruct (ngx_http_test_expect r1) as [rce r2]. cbn in Hexp.
  destruct (negb _). { eexists _, _. split; [by rewrite <- surjective_pairing|]. by apply (answered_error r r1); auto. }
  destruct (negb _). { eexists _, _. split; [by rewrite <- surjective_pairing|]. by apply (answered_error r r1); auto. }
  set (r3 := r2 <| request_body := Some fresh_body |>). assert (H3 : same_outside r1 r3) by (etrans; [exact Hexp|done]).
  destruct (_ && negb _). { eexists _, _. split; [done|]. by apply (answered_post r r1). }
  destruct (negb (_ =? 0)).
  - pose proof (inner_filter (Some Header_in) r3) as Hi. destruct (ngx_http_request_body_filter _ r3) as [rc r4].
    destruct Hi as [Hc H4]. cbn in Hc, H4. assert (H5 : same_outside r1 r4) by by etrans. case_bool_decide as Hrc; cbn [negb].
    2: { eexists _, _. split; [by rewrite <- surjective_pairing|]. by apply (answered_error r r1). }
    destruct (_ && _ && _); [|apply (answered_own r r1); done].
    destruct (negb _). { eexists _, _. split; [by rewrite <- surjective_pairing|]. by apply (answered_error r r1); auto. }
    apply (answered_start r r1); done.
  - pose proof (inner_filter None r3) as Hi. destruct (ngx_http_request_body_filter _ r3) as [rc r4].
    destruct Hi as [Hc H4]. cbn in Hc, H4. assert (H5 : same_outside r1 r4) by by etrans. case_bool_decide as Hrc; cbn [negb].
    2: { eexists _, _. split; [by rewrite <- surjective_pairing|]. by apply (answered_error r r1); auto. }
    apply (answered_own r r1); done.
Qed.

(** When the client is heard again, or not in time: the request is finalized
    once, with 408 or the error, unless the body is read on or complete. *)
Lemma body_handler_answers late r : exists r', ngx_http_read_client_request_body_handler late r = Some r' /\
  ((exists rc, finalized r' = finalized r ++ [rc] /\ posted r' = posted r /\ special rc = true /\
      (late = true -> rc = NGX_HTTP_REQUEST_TIME_OUT)) \/
   finalized r' = finalized r /\ late = false /\ (posted r' = posted r \/ posted r' = S (posted r))).
Proof.
  unfold ngx_http_read_client_request_body_handler. destruct late.
  { eexists. split; [done|]. left. by exists NGX_HTTP_REQUEST_TIME_OUT. }
  destruct (reading_loop (read_fuel r) r) as (rc & r1 & -> & ((E1 & E2 & E3) & Hrc & Hp)); [unfold read_fuel, pending; lia|].
  eexists. split; [done|]. destruct (special rc) eqn:Es.
  - left. exists rc. cbn. rewrite E2. split_and!; try done. rewrite Hp, bool_decide_eq_false_2 by (by intros ->). lia.
  - right. rewrite E2. split_and!; try done. rewrite Hp. case_bool_decide; [right|left]; lia.
Qed.
End Body.
End RequestBodyErrors.
