(* ===== verification/RequestBodyFacts.v ===== *)
(** * The buffers of a body, and what the filters do with them

    What [rb->bufs] and the temporary file hold, the invariant of the chains,
    and the two filters as decoders of the bytes they are given. *)

From stdpp Require Import gmap.
From S2P Require Import Prelude Scan Chunked ChunkedProps RequestBody RequestBodyErrors.

Module RequestBodyFacts.
Import Chunked.Chunked ChunkedProps.ChunkedProps RequestBody.RequestBody RequestBodyErrors.RequestBodyErrors.

(** The nginx core does what its documentation says: a buffer from the free
    chain, or a new one; and [ngx_chain_update_chains] takes the buffers without
    bytes from the front of [busy] to [free]. *)
Definition no_bytes (m : heap) (i : nat) : Prop := exists b, m !! i = Some b /\ buf_size b = 0.

Record updates (m : heap) (free busy out : list nat) (m' : heap) (free' busy' : list nat) (done : list nat) : Prop := {
  u_split : busy ++ out = done ++ busy';
  u_done : Forall (no_bytes m) done;
  u_busy : match busy' with [] => True | i :: _ => ~ no_bytes m i end;
  u_heap : forall i, (i ∉ done) -> m' !! i = m !! i;
  u_heap_done : Forall (no_bytes m') done;
  u_free : forall i, i ∈ free' -> i ∈ free \/ i ∈ done;
  u_nodup : NoDup free -> NoDup done -> (forall i, i ∈ done -> (i ∉ free)) -> NoDup free';
}.

Class CoreOk `{Core} : Prop := {
  all_allocated : ngx_pcalloc_body = true /\ ngx_pcalloc_chunked = true /\ ngx_pcalloc_temp_file = true
    /\ ngx_calloc_buf = true /\ (forall n, ngx_create_temp_buf n = true);
  files_work : ngx_create_temp_file = true /\ ngx_write_chain_to_temp_file = true;
  free_buf : forall (m : heap) l, exists i l', ngx_chain_get_free_buf m l = Some (i, l')
    /\ (i ∈ l \/ m !! i = None) /\ (forall j, j ∈ l' -> j ∈ l) /\ (NoDup l -> (i ∉ l') /\ NoDup l');
  update_chains : forall m f b o, exists done,
    let '(m', f', b') := ngx_chain_update_chains m f b o in updates m f b o m' f' b' done;
  add_copy : forall a b, ngx_chain_add_copy a b = Some (a ++ b);
  read_event : ngx_handle_read_event = true;
  sends : forall l, send l = Z.of_nat (length l);
  buffer_room : 0 < client_body_buffer_size;
}.

(** ** What the chains hold *)

Section Facts.
Context `{CoreOk}.

Definition data_of (r : request) (l : list nat) : list Z := concat (map (buf_data r) l).
Definition file_of (rb : ngx_http_request_body_t) : list Z := default [] (temp_file rb).
(** The bytes of the body that were passed on. *)
Definition total (r : request) (rb : ngx_http_request_body_t) : list Z := file_of rb ++ data_of r (bufs rb).

(** A buffer that points to some bytes of its region. *)
Definition live (r : request) (i : nat) : Prop :=
  exists src p l f, memory r !! i = Some (Memory src p l f) /\ 0 <= p < l /\ l <= b_last (input r src).

(** The chains while more is to come; [out] is what a filter is about to add. *)
Record chains (r : request) (rb : ngx_http_request_body_t) (out : list nat) : Prop := {
  ch_free : NoDup (free rb);
  ch_live : forall i, i ∈ bufs rb ++ out -> live r i /\ (i ∉ free rb);
  ch_busy : NoDup (busy rb ++ out);
  ch_used : forall i, i ∈ busy rb -> (i ∉ free rb) /\ exists b, memory r !! i = Some b /\ (buf_size b <> 0 -> i ∈ bufs rb);
}.

Lemma data_app r a b : data_of r (a ++ b) = data_of r a ++ data_of r b.
Proof. unfold data_of. by rewrite map_app, concat_app. Qed.

Lemma data_ext r r' l : (forall i, i ∈ l -> buf_data r' i = buf_data r i) -> data_of r' l = data_of r l.
Proof.
  intros Hl. unfold data_of. f_equal. induction l as [|i l IH]; [done|]. cbn. rewrite Hl by (apply elem_of_cons; by left).
  f_equal. apply IH. intros j Hj. apply Hl, elem_of_cons. by right.
Qed.

Lemma empty_data r i : no_bytes (memory r) i -> buf_data r i = [].
Proof.
  intros (b & E & Hb). unfold buf_data. rewrite E. destruct b as [src p l f| |n]; cbn in Hb; [|done|].
  - replace l with p by lia. apply slice_nil.
  - subst n. destruct (request_body r) as [rb|]; [|done]. by destruct (temp_file rb).
Qed.

(** Requests that differ in none of the memory that buffers point to. *)
Record same_memory (r r' : request) : Prop := {
  sm_input : forall src, b_mem (input r' src) = b_mem (input r src);
  sm_file : match request_body r, request_body r' with
            | Some rb, Some rb' => temp_file rb' = temp_file rb
            | _, _ => request_body r = request_body r'
            end;
}.

Lemma same_data r r' i : same_memory r r' -> memory r' !! i = memory r !! i -> buf_data r' i = buf_data r i.
Proof.
  intros [Hi Hf] E. unfold buf_data. rewrite E. destruct (memory r !! i) as [[src p l f| |n]|]; [by rewrite Hi|done| |done].
  destruct (request_body r) as [rb|], (request_body r') as [rb'|]; try done. by rewrite Hf.
Qed.

Lemma same_live r r' i : same_memory r r' -> memory r' !! i = memory r !! i -> live r i -> live r' i.
Proof.
  intros [Hi _] E (src & p & l & f & Em & Hp & Hl). exists src, p, l, f. rewrite E. split_and!; try done; try lia.
  unfold b_last in *. by rewrite Hi.
Qed.

Lemma live_bytes r i : live r i -> ~ no_bytes (memory r) i.
Proof. intros (src & p & l & f & E & Hp & _) (b & E' & Hb). rewrite E in E'. simplify_eq. cbn in Hb. lia. Qed.

(** ** The pieces of the filters *)

Lemma body_upd f r rb : request_body r = Some rb -> request_body (upd f r) = Some (f rb).
Proof. intros E. unfold upd. cbn. by rewrite E. Qed.

Lemma upd_same f r rb : request_body r = Some rb -> f rb = rb -> upd f r = r.
Proof. intros E Hf. unfold upd. rewrite E. cbn. rewrite Hf, <- E. by destruct r. Qed.

(** A new buffer, not in use anywhere. *)
Lemma get_free_ok b r rb out : request_body r = Some rb -> chains r rb out ->
  exists i l, get_free_buf b r = Some (i, upd (fun rb => rb <| free := l |>) (r <| memory := <[i := b]> (memory r) |>))
    /\ (i ∉ bufs rb ++ out) /\ (i ∉ busy rb) /\ (i ∉ l) /\ NoDup l /\ (forall j, j ∈ l -> j ∈ free rb).
Proof.
  intros E [Hf Hl _ Hu]. unfold get_free_buf. rewrite E.
  destruct (free_buf (memory r) (free rb)) as (i & l & -> & Hi & Hsub & Hnd). destruct (Hnd Hf).
  exists i, l. split_and!; try done.
  - intros Hin. destruct (Hl i Hin) as [(src & p & q & f & Em & _) Hnf]. destruct Hi as [?|Hn]; [done|]. congruence.
  - intros Hin. destruct (Hu i Hin) as [Hnf (b0 & Eb & _)]. destruct Hi as [?|Hn]; [done|]. congruence.
Qed.

(** The end of a filter keeps every byte; and the chains, when nothing in them
    is empty. *)
Lemma save_ok out r rb : request_body r = Some rb -> exists r' rb', save_and_update out r = (NGX_OK, r')
  /\ request_body r' = Some rb' /\ bufs rb' = bufs rb ++ out /\ temp_file rb' = temp_file rb /\ buf rb' = buf rb
  /\ rest rb' = rest rb /\ rb_chunked rb' = rb_chunked rb /\ same_memory r r' /\ (forall i, buf_data r' i = buf_data r i)
  /\ r' = r <| request_body := Some rb' |> <| memory := memory r' |>
  /\ (chains r rb out -> chains r' rb' [])
  /\ ((forall i, i ∈ busy rb ++ out -> no_bytes (memory r) i) -> busy rb' = []).
Proof.
  intros E. unfold save_and_update, ngx_http_request_body_save_filter. rewrite E, add_copy. cbn. rewrite E. cbn.
  destruct (update_chains (memory r) (free rb) (busy rb) out) as (done & Hup).
  destruct (ngx_chain_update_chains _ _ _ _) as [[m' f'] b']. destruct Hup as [Hsp Hd Hb Hh Hhd Hf Hnd].
  eexists _, _. split; [reflexivity|]. cbn. rewrite E. cbn. split; [reflexivity|]. cbn.
  set (rb' := Body (temp_file rb) (bufs rb ++ out) (buf rb) (rest rb) f' b' (rb_chunked rb)).
  match goal with |- context [same_memory r ?x] => set (r' := x) end.
  assert (Er : r' = r <| request_body := Some rb' |> <| memory := m' |>) by (unfold r', upd; cbn; by rewrite E).
  assert (Hsame : same_memory r r').
  { rewrite Er. split; cbn; [|by rewrite E]. intros [|]; [done|]. cbn. by rewrite E. }
  assert (Em : memory r' = m') by by rewrite Er. clearbody r'.
  split_and!; try done.
  - intros i. destruct (decide (i ∈ done)) as [Hi|Hi]; [|apply same_data; [exact Hsame | rewrite Em; by apply Hh]].
    rewrite list.Forall_forall in Hd, Hhd. by rewrite !empty_data by (rewrite ?Em; auto).
  - intros [Hcf Hcl Hcb Hcu].
    assert (Hlive : forall i, i ∈ bufs rb ++ out -> i ∉ done).
    { intros i Hi Hid. rewrite list.Forall_forall in Hd. eapply live_bytes; [by apply Hcl | by apply Hd]. }
    assert (Hdf : forall i, i ∈ done -> i ∉ free rb).
    { intros i Hi. assert (Hin : i ∈ busy rb ++ out) by (rewrite Hsp; apply elem_of_app; by left).
      apply elem_of_app in Hin as [Hin|Hin]; [by apply Hcu|]. apply Hcl, elem_of_app. by right. }
    assert (Hmem : forall i, i ∉ done -> memory r' !! i = memory r !! i) by (intros i Hi; rewrite Em; by apply Hh).
    assert (Hn : NoDup (done ++ b')) by by rewrite <- Hsp. apply list.NoDup_app in Hn as (Hn1 & Hn2 & Hn3).
    unfold rb'. split; cbn.
    + by apply Hnd.
    + intros i Hi. rewrite app_nil_r in Hi. split; [|intros [?|?]%Hf; [by eapply Hcl | by eapply Hlive]].
      eapply same_live; [exact Hsame | by apply Hmem, Hlive | by apply Hcl].
    + by rewrite app_nil_r.
    + intros i Hi. assert (Hid : i ∉ done) by (intros Hid; by eapply Hn2). rewrite Em, Hh by done.
      assert (Hin : i ∈ busy rb ++ out) by (rewrite Hsp; apply elem_of_app; by right).
      apply elem_of_app in Hin as [Hin|Hin].
      * destruct (Hcu i Hin) as (Hf1 & b & Eb & Hb1). split; [intros [?|?]%Hf; done|]. exists b. split; [done|].
        intros Hb2. apply elem_of_app. left. auto.
      * assert (Hin2 : i ∈ bufs rb ++ out) by (apply elem_of_app; by right). destruct (Hcl i Hin2) as [(src & p & l & f & Ems & _) Hf1].
        split; [intros [?|?]%Hf; done|]. eexists. split; [exact Ems|]. done.
  - intros Hall. destruct b' as [|i b']; [done|]. exfalso. apply Hb, Hall. rewrite Hsp. apply elem_of_app. right. apply elem_of_cons. by left.
Qed.

Lemma total_ext r r' rb rb' out : (forall i, buf_data r' i = buf_data r i) -> bufs rb' = bufs rb ++ out -> temp_file rb' = temp_file rb ->
  total r' rb' = total r rb ++ data_of r out.
Proof.
  intros Hd Hb Hf. unfold total, file_of. rewrite Hb, Hf, data_app, <- app_assoc. f_equal.
  f_equal; by apply data_ext.
Qed.

(** A step that leaves the chains and what the buffers point to. *)
Lemma chains_keep r r' rb rb' out : same_memory r r' -> memory r' = memory r -> free rb' = free rb -> busy rb' = busy rb ->
  bufs rb' = bufs rb -> chains r rb out -> chains r' rb' out.
Proof.
  intros Hs Hm Hf Hb Hl [C1 C2 C3 C4]. split; rewrite ?Hf, ?Hb, ?Hl, ?Hm; try done.
  intros i Hi. destruct (C2 i Hi). split; [|done]. by eapply same_live; [exact Hs | by rewrite Hm|].
Qed.

Lemma keep_data r r' : same_memory r r' -> memory r' = memory r -> forall i, buf_data r' i = buf_data r i.
Proof. intros Hs Hm i. apply same_data; [done|]. by rewrite Hm. Qed.

(** A filter adds a buffer for the [n] bytes at [p]. *)
Lemma add_buffer src p n f r rb out : request_body r = Some rb -> chains r rb out -> 0 <= p -> 0 <= n -> p + n <= b_last (input r src) ->
  exists i l m', let r' := upd (fun rb => rb <| free := l |>) (r <| memory := m' |>) in
    get_free_buf (Memory src p (p + n) f) r = Some (i, r') /\ (0 < n -> chains r' (rb <| free := l |>) (out ++ [i]))
    /\ buf_data r' i = slice (b_mem (input r src)) p (p + n)
    /\ (forall j, j ∈ bufs rb ++ out -> buf_data r' j = buf_data r j).
Proof.
  intros E C Hp Hn Hl. destruct (get_free_ok (Memory src p (p + n) f) r rb out E C) as (i & l & Hg & Hi1 & Hi2 & Hi3 & Hnd & Hsub).
  exists i, l, (<[i := Memory src p (p + n) f]> (memory r)). cbn zeta. split; [exact Hg|].
  match goal with |- (_ -> chains ?x _ _) /\ _ => set (r' := x) end.
  assert (Hs : same_memory r r').
  { split; unfold r', upd; cbn; [|by rewrite E]. intros [|]; [done|]. cbn. by rewrite E. }
  assert (Hm : forall j, j <> i -> memory r' !! j = memory r !! j) by (intros j Hj; cbn; by rewrite lookup_insert_ne).
  assert (Hmi : memory r' !! i = Some (Memory src p (p + n) f)) by (cbn; by rewrite lookup_insert_eq).
  destruct C as [C1 C2 C3 C4]. split_and!.
  - intros Hn0. split; cbn; [exact Hnd| | |].
    + intros j Hj. rewrite app_assoc in Hj. apply elem_of_app in Hj as [Hj| ->%list_elem_of_singleton].
      * assert (j <> i) by (intros ->; done). destruct (C2 j Hj). split; [|auto]. eapply same_live; [exact Hs | by apply Hm | done].
      * split; [|done]. exists src, p, (p + n), f. split_and!; [done|lia|lia|]. unfold b_last. rewrite (sm_input _ _ Hs). exact Hl.
    + rewrite app_assoc. apply list.NoDup_app. split_and!; [exact C3| |apply NoDup_singleton].
      intros j Hj ->%list_elem_of_singleton. apply elem_of_app in Hj as [?|?]; [done|]. apply Hi1, elem_of_app. by right.
    + intros j Hj. destruct (C4 j Hj) as (F & b & Eb & Hb). split; [auto|]. exists b. rewrite Hm by (intros ->; done). done.
  - unfold buf_data. rewrite Hmi. by rewrite (sm_input _ _ Hs).
  - intros j Hj. apply same_data; [done|]. apply Hm. intros ->; done.
Qed.

(** ** Where a filter leaves its input *)

(** [src] is a buffer there is. *)
Definition usable (r : request) (src : region) : Prop :=
  buf_wf (input r src) /\ (src = Rb_buf -> 0 < capacity r).

Record moved (src : region) (r r' : request) : Prop := {
  mv_same : same_memory r r';
  mv_other : forall s, s <> src -> input r' s = input r s;
  mv_usable : usable r' src;
  mv_capacity : capacity r' = capacity r;
  mv_file : in_file_only r' = in_file_only r;
  mv_chunked : in_chunked r' = in_chunked r;
}.

#[export] Instance same_memory_pre : PreOrder same_memory.
Proof.
  split; [intros r; split; [done|]; by destruct (request_body r)|]. intros r1 r2 r3 [A1 A2] [B1 B2]. split; [congruence|].
  destruct (request_body r1), (request_body r2), (request_body r3); congruence.
Qed.

Lemma moved_trans src r1 r2 r3 : moved src r1 r2 -> moved src r2 r3 -> moved src r1 r3.
Proof. intros [] []. split; try congruence; [by etrans|]. intros s Hs. by rewrite mv_other1, mv_other0. Qed.

(** Nothing is taken from the buffers. *)
Lemma moved_still src r r' : usable r src -> same_memory r r' -> (forall s, input r' s = input r s) -> capacity r' = capacity r ->
  in_file_only r' = in_file_only r -> in_chunked r' = in_chunked r -> moved src r r'.
Proof. intros [U1 U2] Hs Hi Hc Hf Hk. split; try done. unfold usable. by rewrite Hi, Hc. Qed.

Lemma input_upd f r : (forall rb, buf (f rb) = buf rb) -> forall s, input (upd f r) s = input r s.
Proof. intros Hf [|]; cbn; [done|]. destruct (request_body r) as [rb|]; cbn; [by rewrite Hf|done]. Qed.

Lemma capacity_upd f r : (forall rb, buf (f rb) = buf rb) -> capacity (upd f r) = capacity r.
Proof. intros Hf. unfold capacity. cbn. destruct (request_body r) as [rb|]; cbn; [by rewrite Hf|done]. Qed.

Lemma moved_upd src f r : usable r src -> (forall rb, buf (f rb) = buf rb /\ temp_file (f rb) = temp_file rb) -> moved src r (upd f r).
Proof.
  intros Hu Hf. assert (Hb : forall rb, buf (f rb) = buf rb) by apply Hf.
  apply moved_still; [done| |by apply input_upd|by apply capacity_upd|done|done].
  split; [intros s; by rewrite input_upd|]. cbn. destruct (request_body r); [apply Hf|done].
Qed.

Lemma moved_set_pos src p r : usable r src -> 0 <= p <= b_last (input r src) ->
  moved src r (set_pos src p r) /\ input (set_pos src p r) src = Buf (b_mem (input r src)) p.
Proof.
  intros [U1 U2] Hp.
  assert (Hi : input (set_pos src p r) src = Buf (b_mem (input r src)) p).
  { destruct src; cbn; [done|]. specialize (U2 eq_refl). unfold capacity in U2. destruct (request_body r) as [rb|]; cbn; [|lia].
    by destruct (buf rb) as [[b n]|]; [|lia]. }
  assert (Ho : forall s, s <> src -> input (set_pos src p r) s = input r s) by (intros [|] Hs; by destruct src).
  assert (Hc : capacity (set_pos src p r) = capacity r).
  { destruct src; [done|]. unfold capacity. cbn. destruct (request_body r) as [rb|]; [|done]. cbn. by destruct (buf rb) as [[]|]. }
  split; [|exact Hi]. split; [|exact Ho| |exact Hc|by destruct src|by destruct src].
  - split.
    + intros s. destruct (decide (s = src)) as [->|Hs]; [by rewrite Hi | by rewrite Ho].
    + destruct src; cbn; destruct (request_body r); done.
  - split; [rewrite Hi; exact Hp | by rewrite Hc].
Qed.

(** The position of the input moves, and [rest] or [rb_chunked] changes. *)
Definition mild (f : ngx_http_request_body_t -> ngx_http_request_body_t) : Prop :=
  forall rb, f rb = rb <| rest := rest (f rb) |> <| rb_chunked := rb_chunked (f rb) |>.

Lemma mild_rb f rb : mild f -> buf (f rb) = buf rb /\ temp_file (f rb) = temp_file rb /\ free (f rb) = free rb
  /\ busy (f rb) = busy rb /\ bufs (f rb) = bufs rb.
Proof. intros Hf. by rewrite (Hf rb). Qed.

Lemma moved_mild src f r : usable r src -> mild f -> moved src r (upd f r).
Proof. intros U Hf. apply moved_upd; [done|]. intros rb. by destruct (mild_rb f rb Hf) as (? & ? & _). Qed.

Lemma pos_upd src p f r rb : usable r src -> 0 <= p <= b_last (input r src) -> request_body r = Some rb -> mild f ->
  let r' := upd f (set_pos src p r) in
  (exists x, request_body r' = Some (f (rb <| buf := x |>))) /\ moved src r r'
  /\ input r' src = Buf (b_mem (input r src)) p /\ memory r' = memory r.
Proof.
  intros U Hp E Hf. destruct (moved_set_pos src p r U Hp) as [M Hi]. cbn zeta. split_and!.
  - destruct src; cbn; rewrite E; cbn; [exists (buf rb)|eexists; reflexivity]. by destruct rb.
  - eapply moved_trans; [exact M|]. apply moved_mild; [apply M|done].
  - rewrite input_upd; [done|]. intros rb0. by destruct (mild_rb f rb0 Hf).
  - by destruct src.
Qed.

Lemma moved_data src r r' : moved src r r' -> memory r' = memory r -> forall i, buf_data r' i = buf_data r i.
Proof. intros M. apply keep_data, M. Qed.

(** Some bytes of the input go to a new buffer; [k] changes no more than
    [content_length_n]. *)
Definition outer (k : request -> request) : Prop :=
  forall r, header_in (k r) = header_in r /\ request_body (k r) = request_body r /\ memory (k r) = memory r
    /\ in_file_only (k r) = in_file_only r /\ in_chunked (k r) = in_chunked r.

Lemma moved_outer src k r : usable r src -> outer k -> moved src r (k r).
Proof.
  intros U Hk. destruct (Hk r) as (K1 & K2 & K3 & K4 & K5).
  assert (Hi : forall s, input (k r) s = input r s) by (intros [|]; cbn; by rewrite ?K1, ?K2).
  apply moved_still; try done; [|unfold capacity; by rewrite K2]. split; [intros s; by rewrite Hi|]. rewrite K2. by destruct (request_body r).
Qed.

Lemma moved_free src l m r : usable r src -> moved src r (upd (fun rb => rb <| free := l |>) (r <| memory := m |>)).
Proof.
  intros U. apply (moved_trans _ _ (r <| memory := m |>)); [|by apply moved_upd].
  apply moved_still; try done. split; [done|]. cbn. by destruct (request_body r).
Qed.

Lemma take_bytes src p n f g k r rb out : request_body r = Some rb -> chains r rb out -> usable r src ->
  0 <= p -> 0 <= n -> p + n <= b_last (input r src) -> mild g -> outer k ->
  exists i r1 l x, get_free_buf (Memory src p (p + n) f) r = Some (i, r1) /\
    let r2 := upd g (set_pos src (p + n) (k r1)) in let rb2 := g (rb <| free := l |> <| buf := x |>) in
    request_body r2 = Some rb2 /\ moved src r r2 /\ input r2 src = Buf (b_mem (input r src)) (p + n) /\ (0 < n -> chains r2 rb2 (out ++ [i]))
    /\ buf_data r2 i = slice (b_mem (input r src)) p (p + n) /\ (forall j, j ∈ bufs rb ++ out -> buf_data r2 j = buf_data r j).
Proof.
  intros E C U Hp Hn Hl Hg Hk. destruct (add_buffer src p n f r rb out E C Hp Hn Hl) as (i & l & m' & Hadd). cbn zeta in Hadd.
  pose proof (moved_free src l m' r U) as M1. set (r1 := upd _ _) in *. destruct Hadd as (Eg & C1 & D1 & D2).
  pose proof (moved_outer src k r1 (mv_usable _ _ _ M1) Hk) as M2. pose proof (moved_trans _ _ _ _ M1 M2) as M3.
  destruct (Hk r1) as (K1 & K2 & K3 & K4 & K5).
  assert (Hmem : b_mem (input (k r1) src) = b_mem (input r src)) by apply (mv_same _ _ _ M3).
  assert (E1 : request_body (k r1) = Some (rb <| free := l |>)) by (rewrite K2; by apply body_upd).
  destruct (pos_upd src (p + n) g (k r1) (rb <| free := l |>) (mv_usable _ _ _ M3)) as ((x & E2) & M4 & Hi & Hm); [|done|done|].
  { unfold b_last. rewrite Hmem. unfold b_last in Hl. lia. }
  exists i, r1, l, x. split; [exact Eg|]. cbn zeta. set (r2 := upd g _) in *.
  assert (M5 : moved src r1 r2) by by eapply moved_trans.
  assert (Hm2 : memory r2 = memory r1) by by rewrite Hm.
  split_and!.
  - exact E2.
  - by eapply moved_trans.
  - by rewrite Hi, Hmem.
  - intros Hn0. set (rb0 := rb <| free := l |>) in *. destruct (mild_rb g (rb0 <| buf := x |>) Hg) as (_ & _ & G1 & G2 & G3).
    eapply chains_keep; [exact (mv_same _ _ _ M5)|exact Hm2|..|exact (C1 Hn0)]; done.
  - by rewrite (moved_data _ _ _ M5 Hm2).
  - intros j Hj. rewrite (moved_data _ _ _ M5 Hm2). auto.
Qed.

(** ** The chunked filter *)

(** What the loop over one buffer did: [new] holds the data of [m]. *)
Definition looped (src : region) (out : list nat) (r : request) (rb : ngx_http_request_body_t) (m : verdict * list Z * list Z)
    (new : list nat) (r' : request) : Prop :=
  exists rb', moved src r r' /\ request_body r' = Some rb' /\ bufs rb' = bufs rb
    /\ (forall i, i ∈ bufs rb ++ out -> buf_data r' i = buf_data r i) /\ data_of r' new = m.1.2 /\
    match m with
    | (In_body st size, _, _) => chains r' rb' (out ++ new) /\ unread (input r' src) = []
        /\ rest rb' = min_length st size /\ rb_chunked rb' = Some (Ctx (enter st size) size (min_length st size))
        /\ good (enter st size) size
    | (Complete, _, left_) => rest rb' = 0 /\ unread (input r' src) = left_
    | _ => False
    end.

Lemma upd_upd f g r : upd f (upd g r) = upd (fun rb => f (g rb)) r.
Proof. unfold upd. cbn. by destruct (request_body r). Qed.

Lemma loop_again src out r rb ctx st size : request_body r = Some rb -> chains r rb out -> usable r src ->
  ctx = Ctx (enter st size) size (min_length st size) -> good (enter st size) size ->
  looped src out r rb (In_body st size, [], []) []
    (upd (fun rb => rb <| rest := c_length ctx |>) (upd (fun rb => rb <| rb_chunked := Some ctx |>) (set_pos src (b_last (input r src)) r))).
Proof.
  intros E C U -> Hg. rewrite upd_upd.
  match goal with |- context [upd ?f _] => destruct (pos_upd src (b_last (input r src)) f r rb U) as ((x & E1) & M & Hi & Hm) end; [|done|done|].
  { destruct U as [Hw _]. unfold buf_wf in Hw. lia. }
  set (r1 := upd _ _) in *. eexists. split_and!; [exact M|exact E1|done|intros; by apply (moved_data _ _ _ M)|done|..]; try done.
  - rewrite app_nil_r. eapply chains_keep; [exact (mv_same _ _ _ M)|exact Hm|..|exact C]; done.
  - rewrite Hi. unfold unread, b_last. cbn. apply drop_ge. lia.
Qed.

Lemma loop_done src out r rb ctx b' : request_body r = Some rb -> chains r rb out -> usable r src ->
  b_mem b' = b_mem (input r src) -> buf_wf b' ->
  exists i r', get_free_buf Special (upd (fun rb => rb <| rest := 0 |>) (upd (fun rb => rb <| rb_chunked := Some ctx |>) (set_pos src (b_pos b') r)))
      = Some (i, r') /\ looped src out r rb (Complete, [], unread b') [i] r'.
Proof.
  intros E C U Hmb Hwb. rewrite upd_upd.
  match goal with |- context [upd ?f _] => destruct (pos_upd src (b_pos b') f r rb U) as ((x & E1) & M & Hi & Hm) end; [|done|done|].
  { unfold buf_wf, b_last in *. by rewrite <- Hmb. }
  match goal with H : moved src r ?y |- _ => set (r1 := y) in * end. clearbody r1.
  assert (C1 : chains r1 (rb <| buf := x |> <| rb_chunked := Some ctx |> <| rest := 0 |>) out).
  { eapply chains_keep; [exact (mv_same _ _ _ M)|exact Hm|..|exact C]; done. }
  destruct (get_free_ok Special r1 _ out E1 C1) as (i & l & Hg & Hi1 & _). exists i. eexists. split; [exact Hg|].
  pose proof (moved_free src l (<[i := Special]> (memory r1)) r1 (mv_usable _ _ _ M)) as M2. match goal with H : moved src r1 ?y |- _ => set (r2 := y) in * end.
  assert (E2 : request_body r2 = Some (rb <| buf := x |> <| rb_chunked := Some ctx |> <| rest := 0 |> <| free := l |>)) by by apply body_upd.
  eexists. split_and!; [by eapply moved_trans|exact E2|done| | |done|].
  - intros j Hj. transitivity (buf_data r1 j); [|by apply (moved_data _ _ _ M)]. apply same_data; [apply M2|]. cbn.
    apply lookup_insert_ne. intros ->. by apply Hi1.
  - unfold data_of. cbn. unfold buf_data. cbn. by rewrite lookup_insert_eq.
  - unfold r2. rewrite input_upd by done. assert (Hib : input r1 src = b') by (rewrite Hi, <- Hmb; by destruct b').
    rewrite <- Hib. by destruct src.
Qed.

(** A turn with data, and the turns after it. *)
Lemma looped_cons src out r rb i r1 rb1 d m new r' : moved src r r1 -> bufs rb1 = bufs rb -> buf_data r1 i = d ->
  (forall j, j ∈ bufs rb ++ out -> buf_data r1 j = buf_data r j) -> looped src (out ++ [i]) r1 rb1 m new r' ->
  looped src out r rb (m.1.1, d ++ m.1.2, m.2) (i :: new) r'.
Proof.
  intros M Hb Hd Hk (rb' & M' & E' & Hb' & Hk' & Hd' & Hm). rewrite Hb in Hk'.
  exists rb'. split_and!; [by eapply moved_trans|done|by rewrite Hb', Hb| | |].
  - intros j Hj. rewrite Hk'; [auto|]. rewrite app_assoc. apply elem_of_app. by left.
  - unfold data_of in *. cbn. rewrite Hd', Hk', Hd; [done|]. rewrite app_assoc. apply elem_of_app. right. by apply list_elem_of_singleton.
  - destruct m as [[[st size| |] d'] left_]; cbn; try done. by rewrite <- app_assoc in Hm.
Qed.

Lemma loop_ok fuel src : client_max_body_size = 0 -> forall out r rb ctx, request_body r = Some rb -> rb_chunked rb = Some ctx ->
  chains r rb out -> usable r src -> ctx_ok ctx (unread (input r src)) -> (length (unread (input r src)) < fuel)%nat ->
  (run_of ctx (unread (input r src))).1.1 <> Malformed ->
  exists new r', chunked_loop fuel src out r = (NGX_OK, out ++ new, r')
    /\ looped src out r rb (run_of ctx (unread (input r src))) new r'.
Proof.
  intros Hmax. induction fuel as [|fuel IH]; intros out r rb ctx E Ec C U [Hg Hf] Hfu Hm; [lia|].
  cbn [chunked_loop]. rewrite E, Ec.
  pose proof (parse_turn ctx (input r src) (proj1 U) Hg Hf) as Ht. cbn zeta in Ht. fold (run_of ctx (unread (input r src))) in Ht.
  destruct (ngx_http_parse_chunked ctx (input r src)) as [[rc ctx'] b'].
  destruct rc; try (destruct Ht as (_ & rest & Hrun); by rewrite Hrun in Hm).
  - destruct Ht as (size & pre & post & -> & Hu & Hne & -> & Hs & Hrun & Hf'). rewrite Hmax. cbn [Z.eqb negb andb c_size c_state c_length].
    destruct (data_turn (min_length sw_chunk_data size) (input r src) pre post size (proj1 U) Hu Hne Hs Hf')
      as (n & Hsel & Hp & Hn & Hn2 & Hlen & Hok & Hr2).
    cbn [b_pos b_mem] in *. set (p := b_pos (input r src) + Z.of_nat (length pre)) in *. rewrite Hrun, Hr2.
    change (b_last (Buf (b_mem (input r src)) p)) with (b_last (input r src)). rewrite Hsel.
    match goal with |- context [upd ?f (set_pos src p r)] => destruct (pos_upd src p f r rb U) as ((x & E1) & M1 & Hi1 & Hm1) end;
      [lia|done|done|]. match type of M1 with moved _ _ ?y => set (r1 := y) in * end. clearbody r1. cbn beta in E1.
    match type of E1 with _ = Some ?y => set (rb1 := y) in * end.
    assert (C1 : chains r1 rb1 out) by (eapply chains_keep; [exact (mv_same _ _ _ M1)|exact Hm1|..|exact C]; done).
    destruct (take_bytes src p n false (fun rb => rb <| rb_chunked := Some (Ctx sw_chunk_data (size - n) (min_length sw_chunk_data size)) |>)
      (fun r => r <| content_length_n := off_t (content_length_n r + n) |>) r1 rb1 out E1 C1 (mv_usable _ _ _ M1) Hp (Z.lt_le_incl _ _ Hn)) as
      (i & r2 & l & x2 & -> & E3 & M3 & Hi3 & C3 & D3 & K3); [by rewrite Hi1|done|done|].
    match type of M3 with moved _ _ ?y => set (r3 := y) in * end. clearbody r3.
    rewrite Hi1 in Hi3, D3. cbn [b_mem] in Hi3, D3. rewrite <- Hi3 in *. rewrite Hrun, Hr2 in Hm. cbn [fst snd] in Hm.
    destruct (IH (out ++ [i]) r3 _ _ E3 eq_refl (C3 Hn) (mv_usable _ _ _ M3) Hok ltac:(lia) Hm) as (new & r' & -> & L).
    exists (i :: new), r'. split; [by rewrite <- app_assoc|].
    eapply looped_cons; [by eapply moved_trans|done|exact D3| |exact L].
    intros j Hj. rewrite K3 by done. by apply (moved_data _ _ _ M1).
  - destruct Ht as (st & size & -> & Hg' & -> & ->). exists []. eexists. rewrite app_nil_r. split; [done|]. by apply loop_again.
  - destruct Ht as (-> & Hmb & Hwb). destruct (loop_done src out r rb ctx' b' E C U Hmb Hwb) as (i & r' & -> & Hl). by exists [i], r'.
Qed.

(** ** The two filters *)

(** The body, as the bytes that are to come have it: [d], and [rst] after it. *)
Definition decodes (r : request) (rb : ngx_http_request_body_t) (stream d rst : list Z) : Prop :=
  if in_chunked r then
    client_max_body_size = 0 /\ exists ctx, rb_chunked rb = Some ctx /\ ctx_ok ctx stream
      /\ run_of ctx stream = (Complete, d, rst) /\ rest rb = min_length (c_state ctx) (c_size ctx)
  else stream = d ++ rst /\ rest rb = Z.of_nat (length d).

(** A filter passed on what was read of the body; [s] is not read. *)
Definition passed (src : region) (r : request) (rb : ngx_http_request_body_t) (s d rst : list Z) (r' : request) : Prop :=
  exists rb' d1 d2, request_body r' = Some rb' /\ moved src r r' /\ d = d1 ++ d2 /\ total r' rb' = total r rb ++ d1 /\
    (0 < rest rb' /\ unread (input r' src) = [] /\ chains r' rb' [] /\ decodes r' rb' s d2 rst
      /\ (in_chunked r = false -> Z.of_nat (length (unread (input r src))) < rest rb)
     \/ rest rb' = 0 /\ d2 = [] /\ unread (input r' src) ++ s = rst).

Lemma moved_save src r rb r' rb' m : usable r src -> request_body r = Some rb -> buf rb' = buf rb -> temp_file rb' = temp_file rb ->
  r' = r <| request_body := Some rb' |> <| memory := m |> -> moved src r r'.
Proof.
  intros U E Hb Ht ->. assert (Hi : forall s, input (r <| request_body := Some rb' |> <| memory := m |>) s = input r s).
  { intros [|]; cbn; [done|]. by rewrite E, Hb. }
  apply moved_still; try done; [|unfold capacity; cbn; by rewrite E, Hb]. split; [intros s; by rewrite Hi|]. cbn. by rewrite E.
Qed.

Lemma save_end src r rb out r1 rb1 : request_body r = Some rb -> moved src r r1 -> request_body r1 = Some rb1 -> bufs rb1 = bufs rb ->
  (forall j, j ∈ bufs rb -> buf_data r1 j = buf_data r j) ->
  exists r' rb', save_and_update out r1 = (NGX_OK, r') /\ request_body r' = Some rb' /\ moved src r r'
    /\ total r' rb' = total r rb ++ data_of r1 out /\ rest rb' = rest rb1 /\ rb_chunked rb' = rb_chunked rb1
    /\ input r' src = input r1 src /\ (chains r1 rb1 out -> chains r' rb' []).
Proof.
  intros E M E1 Hb Hk. destruct (save_ok out r1 rb1 E1) as (r' & rb' & Es & E2 & B2 & T2 & Bu2 & R2 & C2 & S2 & D2 & Er & Ch & _).
  pose proof (moved_save src r1 rb1 r' rb' _ (mv_usable _ _ _ M) E1 Bu2 T2 Er) as M2.
  pose proof (sm_file _ _ (mv_same _ _ _ M)) as Hf. rewrite E, E1 in Hf.
  exists r', rb'. split_and!; try done.
  - by eapply moved_trans.
  - unfold total, file_of. rewrite T2, Hf, B2, Hb, data_app, <- app_assoc. f_equal. f_equal; [|by apply data_ext].
    apply data_ext. intros j Hj. rewrite D2. auto.
  - rewrite Er. destruct src; cbn; [done|]. by rewrite E1, Bu2.
Qed.

Lemma length_ok src r rb s d rst : in_chunked r = false -> request_body r = Some rb -> chains r rb [] -> usable r src ->
  unread (input r src) <> [] -> decodes r rb (unread (input r src) ++ s) d rst ->
  exists r', ngx_http_request_body_length_filter (Some src) r = (NGX_OK, r') /\ passed src r rb s d rst r'.
Proof.
  intros Hc E C U Hne Hdec. unfold decodes in Hdec. rewrite Hc in Hdec. destruct Hdec as [Hst Hr].
  unfold ngx_http_request_body_length_filter. rewrite (upd_same _ r rb E) by (rewrite (proj2 (Z.eqb_neq _ _)) by lia; done).
  rewrite E. pose proof (length_unread _ (proj1 U)) as Hlen. destruct U as [Hw U2]. unfold buf_wf in Hw.
  set (n := if _ <? rest rb then _ else rest rb) in *.
  assert (Hn : 0 <= n /\ b_pos (input r src) + n <= b_last (input r src)) by (unfold n; destruct (Z.ltb_spec (b_last (input r src) - b_pos (input r src)) (rest rb)); lia).
  destruct (take_bytes src (b_pos (input r src)) n (negb (b_last (input r src) - b_pos (input r src) <? rest rb)) (fun rb => rb <| rest := rest rb - n |>) (fun r => r) r rb [] E C) as
    (i & r1 & l & x & -> & E3 & M3 & Hi3 & C3 & D3 & K3); [done|lia|lia|lia|done|done|].
  match type of M3 with moved _ _ ?y => set (r3 := y) in * end. clearbody r3. cbn beta in E3, C3.
  destruct (save_end src r rb [i] r3 _ E M3 E3 eq_refl) as (r' & rb' & Es & E4 & M4 & T4 & R4 & _ & I4 & C4).
  { intros j Hj. apply K3. by rewrite app_nil_r. }
  exists r'. split; [done|]. assert (Hc' : in_chunked r' = false) by by rewrite (mv_chunked _ _ _ M4).
  rewrite Hi3 in I4. cbn in R4.
  assert (Hd : data_of r3 [i] = take (Z.to_nat n) (unread (input r src))).
  { unfold data_of. cbn. rewrite app_nil_r, D3. unfold slice, unread. do 2 f_equal. lia. }
  assert (Hun : unread (input r' src) = drop (Z.to_nat n) (unread (input r src))).
  { rewrite I4. unfold unread. cbn. rewrite drop_drop. f_equal. lia. }
  exists rb', (take (Z.to_nat n) d), (drop (Z.to_nat n) d). rewrite T4, Hd, Hun. split_and!; [done|done|by rewrite take_drop| |].
  - f_equal. apply (f_equal (take (Z.to_nat n))) in Hst. rewrite !take_app_le in Hst by (unfold n; destruct (Z.ltb_spec (b_last (input r src) - b_pos (input r src)) (rest rb)); lia). done.
  - unfold n in *. destruct (Z.ltb_spec (b_last (input r src) - b_pos (input r src)) (rest rb)) as [Hlt|Hge]; [left|right].
    + assert (Hlen0 : (0 < length (unread (input r src)))%nat) by (destruct (unread _); [done|simpl; lia]).
      split_and!; [lia|by apply drop_ge; lia|apply C4, C3; lia| |lia]. unfold decodes. rewrite Hc'. split; [|rewrite R4, length_drop; lia].
      apply (f_equal (drop (Z.to_nat (b_last (input r src) - b_pos (input r src))))) in Hst. rewrite drop_app_le in Hst by lia.
      rewrite drop_ge in Hst by lia. rewrite drop_app_le in Hst by lia. done.
    + split_and!; [lia|apply drop_ge; lia|]. apply (f_equal (drop (Z.to_nat (rest rb)))) in Hst. rewrite drop_app_le in Hst by lia.
      rewrite Hst, drop_app_length' by lia. done.
Qed.

Lemma fits_small stream st size : fits stream st size -> small size.
Proof. by destruct stream; intros []. Qed.

Lemma min_length_pos st size : small size -> 0 < min_length st size.
Proof. unfold small. intros Hs. destruct st; cbn; try lia. destruct (size =? 0); lia. Qed.

(** The bytes that are still wanted are there, and part of the body. *)
Lemma decodes_rest r rb stream d rst : decodes r rb stream d rst ->
  0 <= rest rb /\ rest rb <= Z.of_nat (length stream) - Z.of_nat (length rst) /\ (in_chunked r = true -> 0 < rest rb).
Proof.
  unfold decodes. destruct (in_chunked r).
  - intros (_ & ctx & _ & [Hg Hf] & Hrun & ->). pose proof (min_length_pos (c_state ctx) _ (fits_small _ _ _ Hf)).
    pose proof (need_run _ _ _ Hf) as Hn. unfold run_of in Hrun. rewrite Hrun, need_min in Hn. lia.
  - intros [-> ->]. rewrite length_app. split_and!; [lia..|done].
Qed.

Lemma chunked_ok src r rb s d rst : in_chunked r = true -> request_body r = Some rb -> chains r rb [] -> usable r src ->
  decodes r rb (unread (input r src) ++ s) d rst ->
  exists r', ngx_http_request_body_chunked_filter (Some src) r = (NGX_OK, r') /\ passed src r rb s d rst r'.
Proof.
  intros Hc E C U Hdec. pose proof (decodes_rest _ _ _ _ _ Hdec) as (_ & _ & Hpos). specialize (Hpos Hc).
  unfold decodes in Hdec. rewrite Hc in Hdec. destruct Hdec as (Hmax & ctx & Ec & [Hg Hf] & Hrun & Hr).
  destruct (fits_app_inv _ _ _ _ Hf) as [Hf1 Hf2]. unfold run_of in Hrun. rewrite body_run_app in Hrun.
  unfold ngx_http_request_body_chunked_filter. rewrite E, (proj2 (Z.eqb_neq _ _)) by lia. cbn [andb].
  assert (Hm : (run_of ctx (unread (input r src))).1.1 <> Malformed) by (unfold run_of; by destruct (body_run (unread _) _ _) as [[[]]]).
  destruct (loop_ok (S (length (unread (input r src)))) src Hmax [] r rb ctx E Ec C U (conj Hg Hf1) ltac:(lia) Hm) as
    (new & r1 & -> & (rb1 & M & E1 & B1 & K1 & D1 & L1)). rewrite bool_decide_eq_true_2 by done. cbn [app].
  destruct (save_end src r rb new r1 rb1 E M E1 B1) as (r' & rb' & Es & E4 & M4 & T4 & R4 & C4 & I4 & Ch4).
  { intros j Hj. apply K1. by rewrite app_nil_r. }
  exists r'. split; [done|]. rewrite D1 in T4. clear D1. unfold run_of in *.
  destruct (body_run (unread (input r src)) (c_state ctx) (c_size ctx)) as [[[st size| |] d1] left_]; [| |done]; cbn [fst snd] in *.
  - destruct L1 as (Lc & Lu & Lr & Lk & Lg). destruct (body_run s st size) as [[v d2] rest2] eqn:Es2. injection Hrun as -> <- ->.
    exists rb', d1, d2. rewrite I4, R4, Lr. split_and!; try done. left. split_and!; [by eapply min_length_pos, fits_small|done|auto| |by rewrite Hc].
    unfold decodes. rewrite (mv_chunked _ _ _ M4), Hc. split; [done|]. eexists. rewrite C4, R4. split; [exact Lk|]. cbn [c_state c_size].
    assert (Hs : s <> []) by by intros ->. destruct s as [|ch s]; [done|]. unfold run_of, ctx_ok; cbn [c_state c_size].
    rewrite body_run_enter by done. split_and!; [by rewrite enter_good|by apply fits_enter|done|].
    rewrite Lr, <- !need_min. unfold need. by rewrite enter_good.
  - destruct L1 as (Lr & Lu). injection Hrun as -> <-. exists rb', d, []. rewrite I4, R4, Lu, app_nil_r. split_and!; try done. by right.
Qed.

(** Either filter on a buffer, and without one. *)
Lemma filter_ok src r rb s d rst : request_body r = Some rb -> chains r rb [] -> usable r src -> unread (input r src) <> [] \/ in_chunked r = true ->
  decodes r rb (unread (input r src) ++ s) d rst ->
  exists r', ngx_http_request_body_filter (Some src) r = (NGX_OK, r') /\ passed src r rb s d rst r'.
Proof.
  intros E C U Hne Hdec. unfold ngx_http_request_body_filter. destruct (in_chunked r) eqn:Hc; [by apply chunked_ok|].
  apply length_ok; try done. by destruct Hne.
Qed.

Lemma filter_none_ok r rb s d rst : request_body r = Some rb -> decodes r rb s d rst ->
  ngx_http_request_body_filter None r = save_and_update [] r.
Proof.
  intros E Hdec. pose proof (decodes_rest _ _ _ _ _ Hdec) as (Hr & _).
  unfold ngx_http_request_body_filter, ngx_http_request_body_chunked_filter, ngx_http_request_body_length_filter.
  rewrite E, (proj2 (Z.eqb_neq _ _)) by lia. cbn [andb]. rewrite (upd_same _ r rb E) by (rewrite (proj2 (Z.eqb_neq _ _)) by lia; done).
  by destruct (in_chunked r).
Qed.
End Facts.
End RequestBodyFacts.
