(* ===== verification/RequestBodyReading.v ===== *)
(** * A body read to its end

    The invariant of the reading loop: what was passed on, what is in [rb->buf]
    and what is to come are the body; every turn of the loop keeps it or ends the
    body, at its last byte. *)

From stdpp Require Import gmap.
From S2P Require Import Prelude Scan Chunked ChunkedProps RequestBody RequestBodyErrors RequestBodyFacts.

Module RequestBodyReading.
Import Chunked.Chunked ChunkedProps.ChunkedProps RequestBody.RequestBody RequestBodyErrors.RequestBodyErrors RequestBodyFacts.RequestBodyFacts.

Section Reading.
Context `{CoreOk}.

(** ** The invariant *)

(** The bytes that a socket has, one segment at most. *)
Definition plain (s : list segment) : Prop := s = [] \/ exists bs rdy, s = [Bytes bs rdy] /\ bs <> [].
Definition sock_bytes (s : list segment) : list Z := concat (map (fun x => match x with Bytes bs _ => bs | _ => [] end) s).

(** [body] and then [rst] is what the client sends, [left_] is what of the body
    was not passed on, [fut] was not received. *)
Record waiting (r : request) (rb : ngx_http_request_body_t) (left_ body rst fut : list Z) : Prop := {
  w_body : request_body r = Some rb;
  w_chains : chains r rb [];
  w_usable : usable r Rb_buf;
  w_room : b_last (input r Rb_buf) <= capacity r;
  w_preread : unread (header_in r) = [];
  w_decodes : decodes r rb (unread (input r Rb_buf) ++ sock_bytes (sock r) ++ fut) left_ rst;
  w_total : total r rb ++ left_ = body;
  w_wants : Z.of_nat (length (unread (input r Rb_buf))) < rest rb;
  w_start : in_chunked r = false -> b_pos (input r Rb_buf) = 0;
}.
Definition waits (r : request) (body rst fut : list Z) : Prop := exists rb left_, waiting r rb left_ body rst fut.

(** The body has ended. *)
Definition ended (r : request) (body rst fut : list Z) : Prop :=
  exists rb, request_body r = Some rb /\ rest rb = 0 /\ total r rb = body /\ unread (header_in r) = []
    /\ sock_bytes (sock r) ++ fut = rst.

(** ** The temporary file *)

(** An empty file changes nothing in a buffer. *)
Lemma data_new_file r rb i : request_body r = Some rb -> temp_file rb = None ->
  buf_data (r <| request_body := Some (rb <| temp_file := Some [] |>) |>) i = buf_data r i.
Proof.
  intros E Ht. unfold buf_data. cbn. destruct (memory r !! i) as [[[|] p l f| |n]|]; try done; cbn.
  - by rewrite E.
  - rewrite E, Ht. apply take_nil.
Qed.

Lemma write_ok r rb : request_body r = Some rb ->
  ngx_http_write_request_body r = (NGX_OK, r <| request_body := Some (rb <| temp_file := Some (total r rb) |> <| bufs := [] |>) |>
    <| memory := foldr (fun i m => alter written i m) (memory r) (bufs rb) |>).
Proof.
  intros E. unfold ngx_http_write_request_body. destruct all_allocated as (_ & _ & A3 & _). destruct files_work as [F1 F2].
  rewrite E, A3, F1, F2. cbn [negb]. rewrite andb_false_r. unfold total, file_of.
  assert (Hnil : bufs rb = [] -> forall f, rb <| temp_file := Some f |> <| bufs := [] |> = rb <| temp_file := Some f |>) by (intros Hb f; destruct rb; cbn in *; by subst).
  case_bool_decide as Ht; case_bool_decide as Hb; cbn [andb]; f_equal.
  - rewrite Ht, Hb, Hnil by done. unfold upd. rewrite E. by destruct r.
  - rewrite Ht. unfold upd; cbn. rewrite E. cbn. unfold data_of.
    rewrite (map_ext _ _ (fun i => data_new_file r rb i E Ht)). done.
  - destruct (temp_file rb) as [f|] eqn:Ef; [|done]. rewrite Hb, Hnil by done. cbn [default]. unfold data_of. cbn. rewrite app_nil_r.
    rewrite <- Ef. destruct rb, r. cbn in *. by rewrite E.
  - destruct (temp_file rb) as [f|] eqn:Ef; [|done]. unfold upd; cbn. rewrite E. cbn. by rewrite Ef.
Qed.
Lemma written_lookup l (m : heap) i : foldr (fun i m => alter written i m) m l !! i = (if decide (i ∈ l) then written else id) <$> m !! i.
Proof.
  induction l as [|j l IH]; cbn; [by destruct (m !! i)|]. destruct (decide (i = j)) as [->|Hij].
  - rewrite lookup_alter_eq, IH. destruct (decide (j ∈ j :: l)) as [_|Hn]; [|destruct Hn; apply elem_of_cons; by left].
    destruct (m !! j) as [b|]; [|done]. cbn. f_equal. destruct (decide (j ∈ l)); [by destruct b|done].
  - rewrite lookup_alter_ne, IH by done. f_equal. destruct (decide (i ∈ l)) as [Hi|Hi], (decide (i ∈ j :: l)) as [Hj|Hj]; try done.
    + destruct Hj. apply elem_of_cons. by right.
    + by apply elem_of_cons in Hj as [?|?].
Qed.

(** When all of [bufs] is written, nothing in the chains has bytes. *)
Lemma chains_written r rb r' : chains r rb [] -> memory r' = foldr (fun i m => alter written i m) (memory r) (bufs rb) ->
  (forall i, i ∈ busy rb -> no_bytes (memory r') i) /\
  forall rb', free rb' = free rb -> busy rb' = busy rb -> bufs rb' = [] -> chains r' rb' [].
Proof.
  intros [C1 C2 C3 C4] Hm.
  assert (He : forall i, i ∈ busy rb -> (i ∉ free rb) /\ no_bytes (memory r') i).
  { intros i Hi. destruct (C4 i Hi) as (Hf & b & Eb & Hb). split; [done|]. unfold no_bytes. rewrite Hm, written_lookup, Eb. cbn.
    eexists. split; [reflexivity|]. destruct (decide (i ∈ bufs rb)) as [Hin|Hin].
    - destruct (C2 i) as [(src & p & l & f & Em & _) _]; [by rewrite app_nil_r|]. rewrite Em in Eb. simplify_eq. cbn. lia.
    - cbn. destruct (decide (buf_size b = 0)); [done|]. by destruct Hin; auto. }
  split; [intros i Hi; by apply He|]. intros rb' F1 F2 F3. split; rewrite ?F1, ?F2, ?F3; try done; [by intros i ?%elem_of_nil|].
  intros i Hi. destruct (He i Hi) as [Hf (b & Eb & Hb)]. split; [done|]. by exists b.
Qed.

(** ** A full buffer *)

(** The part of the body that is wanted is not there yet. *)
Lemma passed_more src r rb s d rst r' : passed src r rb s d rst r' -> decodes r rb (unread (input r src) ++ s) d rst ->
  Z.of_nat (length (unread (input r src))) < rest rb ->
  exists rb' d1 d2, request_body r' = Some rb' /\ moved src r r' /\ d = d1 ++ d2 /\ total r' rb' = total r rb ++ d1
    /\ 0 < rest rb' /\ unread (input r' src) = [] /\ chains r' rb' [] /\ decodes r' rb' s d2 rst.
Proof.
  intros (rb' & d1 & d2 & E & M & Hd & Ht & [(Hr & Hu & Hc & Hdec & _)|(_ & _ & Hs)]) Hd0 Hw.
  - by exists rb', d1, d2.
  - apply decodes_rest in Hd0 as (_ & Hd0 & _). rewrite <- Hs, !length_app in Hd0. lia.
Qed.

(** The second half of [flush_buffer]: the file, and an empty buffer. *)
Lemma restart_ok r rb d body rst fut : request_body r = Some rb -> chains r rb [] -> 0 < capacity r -> unread (header_in r) = [] ->
  decodes r rb (sock_bytes (sock r) ++ fut) d rst -> total r rb ++ d = body -> 0 < rest rb ->
  let r2 := (ngx_http_write_request_body r).2 in
  exists r3 rb3, ngx_http_request_body_filter None r2 = (NGX_OK, r3) /\ request_body r3 = Some rb3 /\ busy rb3 = [] /\
  let r' := upd (fun rb => rb <| buf := (fun x => (Buf [] 0, x.2)) <$> buf rb |>) r3 in
  exists rb', waiting r' rb' d body rst fut /\ b_last (input r' Rb_buf) = 0.
Proof.
  intros E C Hcap Hpre Hdec Ht Hr. rewrite (write_ok r rb E). cbn zeta. cbn [snd].
  set (m2 := foldr _ _ _). set (rb2 := rb <| temp_file := _ |> <| bufs := [] |>). set (r2 := _ <| memory := m2 |>).
  assert (E2 : request_body r2 = Some rb2) by done.
  destruct (chains_written r rb r2 C eq_refl) as [Hbusy Hch]. specialize (Hch rb2 eq_refl eq_refl eq_refl).
  assert (Hdec2 : decodes r2 rb2 (sock_bytes (sock r) ++ fut) d rst) by exact Hdec.
  rewrite (filter_none_ok r2 rb2 _ d rst E2 Hdec2).
  destruct (save_ok [] r2 rb2 E2) as (r3 & rb3 & -> & E3 & B3 & T3 & U3 & R3 & K3 & S3 & D3 & Er3 & Ch3 & Hb3).
  exists r3, rb3. split; [done|]. split; [done|]. split; [apply Hb3; intros i Hi; rewrite app_nil_r in Hi; by apply Hbusy|].
  unfold capacity in Hcap. rewrite E in Hcap. destruct (buf rb) as [[b n]|] eqn:Eb; [|lia]. cbn zeta.
  assert (U4 : buf rb3 = Some (b, n)) by by rewrite U3.
  exists (rb3 <| buf := Some (Buf [] 0, n) |>).
  pose proof (body_upd (fun rb => rb <| buf := (fun x => (Buf [] 0, x.2)) <$> buf rb |>) _ _ E3) as E4. cbn beta in E4. rewrite U4 in E4.
  change ((fun x : ngx_buf * Z => (Buf [] 0, x.2)) <$> Some (b, n)) with (Some (Buf [] 0, n)) in E4.
  match goal with |- waiting ?x _ _ _ _ _ /\ _ => set (r4 := x) in * end.
  assert (F4 : header_in r4 = header_in r /\ in_chunked r4 = in_chunked r /\ sock r4 = sock r) by (unfold r4; rewrite Er3; by split_and!).
  assert (M4 : memory r4 = memory r3) by done. clearbody r4. destruct F4 as (F1 & F2 & F3).
  assert (Hin : input r4 Rb_buf = Buf [] 0) by (cbn; by rewrite E4).
  assert (Hcap4 : capacity r4 = n) by (unfold capacity; by rewrite E4).
  split; [|by rewrite Hin]. assert (Hn : bufs rb3 = []) by by rewrite B3. specialize (Ch3 Hch). destruct Ch3 as [Q1 Q2 Q3 Q4].
  split; rewrite ?Hin, ?Hcap4, ?F1, ?F3; try done.
  - split; cbn; rewrite ?Hn, ?M4 in *; try done; by intros i ?%elem_of_nil.
  - split; [rewrite Hin; done | by rewrite Hcap4].
  - unfold b_last; cbn; lia.
  - unfold decodes in *. rewrite F2. cbn [rb_chunked rest]. cbn. by rewrite K3, R3.
  - unfold total, file_of. cbn. rewrite Hn, T3. cbn. by rewrite app_nil_r.
  - cbn. by rewrite R3.
Qed.

Lemma flush_ok r rb d body rst fut : waiting r rb d body rst fut -> b_last (input r Rb_buf) = capacity r ->
  exists r' rb' d', flush_buffer r = (NGX_OK, r') /\ waiting r' rb' d' body rst fut /\ b_last (input r' Rb_buf) = 0.
Proof.
  intros [E C U Hl Hpre Hdec Ht Hw Hst] Hfull. unfold flush_buffer.
  assert (Hne : unread (input r Rb_buf) <> [] \/ in_chunked r = true).
  { destruct (in_chunked r); [by right|left]. specialize (Hst eq_refl). destruct U as [U1 U2]. pose proof (length_unread _ U1) as Hlen.
    specialize (U2 eq_refl). intros Hn. apply (f_equal length) in Hn. cbn [length] in Hn. lia. }
  destruct (filter_ok Rb_buf r rb _ d rst E C U Hne Hdec) as (r1 & Ef & Hp). rewrite Ef. rewrite bool_decide_eq_true_2 by done. cbn [negb].
  pose proof (inner_filter (Some Rb_buf) r) as [_ (_ & _ & _ & Hs & _)]. rewrite Ef in Hs. cbn in Hs.
  destruct (passed_more _ _ _ _ _ _ _ Hp Hdec Hw) as (rb1 & d1 & d2 & E1 & M1 & -> & Ht1 & Hr1 & Hu1 & C1 & Hdec1).
  pose proof (mv_other _ _ _ M1 Header_in ltac:(done)) as Hh. cbn in Hh. rewrite <- Hs in Hdec1.
  destruct (restart_ok r1 rb1 d2 body rst fut E1 C1) as (r3 & rb3 & Ef3 & E3 & B3 & rb4 & Hwt & Hz); try done.
  - rewrite (mv_capacity _ _ _ M1). by apply U.
  - by rewrite Hh.
  - by rewrite Ht1, <- app_assoc.
  - rewrite (write_ok r1 rb1 E1) in *. rewrite bool_decide_eq_true_2 by done. cbn [negb]. cbn [snd] in Ef3. rewrite Ef3.
    rewrite bool_decide_eq_true_2 by done. cbn [negb]. rewrite E3, B3, bool_decide_eq_true_2 by done. cbn [negb].
    eexists _, rb4, d2. split; [done|]. by split.
Qed.

(** ** One turn *)

Lemma recv_plain n s : 0 < n -> plain s ->
  match recv n s with
  | (Again, rdy, s') => s = [] /\ s' = [] /\ rdy = false
  | (Got bs, rdy, s') => bs <> [] /\ Z.of_nat (length bs) <= n /\ sock_bytes s = bs ++ sock_bytes s' /\ plain s' /\ (rdy = false -> s' = [])
  | _ => False
  end.
Proof.
  intros Hn Hs. unfold recv. rewrite (proj2 (Z.leb_gt _ _)) by lia. destruct Hs as [->|(bs & rdy & -> & Hbs)]; [done|].
  unfold sock_bytes. cbn. destruct (Z.leb_spec (Z.of_nat (length bs)) n); cbn.
  - split_and!; try done. by left.
  - rewrite !app_nil_r, take_drop. split_and!; try done; [|rewrite length_take; lia|].
    + intros Ht. apply (f_equal length) in Ht. rewrite length_take in Ht. destruct bs; [done|]. cbn in *. lia.
    + right. eexists _, _. split; [done|]. intros Ht. apply (f_equal length) in Ht. rewrite length_drop in Ht. cbn in Ht. lia.
Qed.

Lemma slice_app m bs a b : 0 <= a -> b <= Z.of_nat (length m) -> slice (m ++ bs) a b = slice m a b.
Proof.
  intros Ha Hb. unfold slice. destruct (Z.le_gt_cases a b) as [Hab|Hab].
  - rewrite drop_app_le by lia. rewrite take_app_le by (rewrite length_drop; lia). done.
  - replace (Z.to_nat (b - a)) with 0%nat by lia. done.
Qed.

(** Bytes are received into [rb->buf]. *)
Lemma append_ok r rb bs : request_body r = Some rb -> chains r rb [] -> usable r Rb_buf ->
  let r' := append bs r in
  exists rb', request_body r' = Some rb' /\ chains r' rb' [] /\ total r' rb' = total r rb /\ usable r' Rb_buf
    /\ input r' Rb_buf = received (input r Rb_buf) bs /\ capacity r' = capacity r /\ rest rb' = rest rb /\ rb_chunked rb' = rb_chunked rb.
Proof.
  intros E [C1 C2 C3 C4] [U1 U2] r'. specialize (U2 eq_refl). unfold capacity in U2. rewrite E in U2.
  destruct (buf rb) as [[b n]|] eqn:Eb; [|lia].
  assert (E' : request_body r' = Some (rb <| buf := Some (received b bs, n) |>)) by (unfold r', append, upd; cbn; rewrite E; cbn; by rewrite Eb).
  assert (F : header_in r' = header_in r /\ memory r' = memory r) by done. clearbody r'. destruct F as [F1 F2].
  assert (Hin : input r Rb_buf = b) by (cbn; by rewrite E, Eb).
  assert (Hin' : input r' Rb_buf = received b bs) by (cbn; by rewrite E').
  assert (Hh : input r' Header_in = input r Header_in) by (cbn; by rewrite F1).
  assert (Hd : forall i, live r i -> live r' i /\ buf_data r' i = buf_data r i).
  { intros i (src & p & l & f & Em & Hp & Hl). unfold live, buf_data. rewrite F2, Em. split.
    - exists src, p, l, f. split_and!; try done; try lia. destruct src; [by rewrite Hh|]. rewrite Hin'. rewrite Hin in Hl.
      unfold b_last, received in *. cbn. rewrite length_app. lia.
    - destruct src; [by rewrite Hh|]. rewrite Hin', Hin in *. cbn. apply slice_app; [lia|exact Hl]. }
  eexists. split; [exact E'|]. rewrite Hin', Hin. split_and!; try done.
  - split; cbn; try done; [|by rewrite F2]. intros i Hi. destruct (C2 i Hi). split; [by apply Hd|done].
  - unfold total, file_of. cbn. f_equal. apply data_ext. intros i Hi. apply Hd. apply C2. by rewrite app_nil_r.
  - split; [|unfold capacity; by rewrite E']. rewrite Hin'. rewrite Hin in U1. unfold buf_wf, b_last, received in *. cbn. rewrite length_app. lia.
  - unfold capacity. by rewrite E, E', Eb.
Qed.

(** What a turn can leave. *)
Definition turned (t : turn) (r : request) (body rst fut : list Z) : Prop :=
  (t = Inner \/ t = Outer) /\ waits r body rst fut /\ the_rest r <> 0 \/ t = Outer /\ ended r body rst fut /\ the_rest r = 0.

Lemma turn_waits r rb d body rst fut : waiting r rb d body rst fut ->
  exists t, (t = Inner \/ t = Outer) /\ turned t r body rst fut /\
    (if the_rest r =? 0 then (Outer, r) else if b_last (input r Rb_buf) <? capacity r then (Outer, r) else (Inner, r)) = (t, r).
Proof.
  intros Hw. assert (Hr : the_rest r <> 0). { unfold the_rest. rewrite (w_body _ _ _ _ _ _ Hw). pose proof (w_wants _ _ _ _ _ _ Hw). lia. }
  rewrite (proj2 (Z.eqb_neq _ _)) by done. assert (Hws : waits r body rst fut) by by exists rb, d.
  destruct (_ <? _); [exists Outer|exists Inner]; (split; [by auto|]; split; [left; by split_and!; auto|done]).
Qed.

(** The bytes that were wanted are there: they are passed on. *)
Lemma wanted_ok r rb d body rst fut : request_body r = Some rb -> chains r rb [] -> usable r Rb_buf -> b_last (input r Rb_buf) <= capacity r ->
  unread (header_in r) = [] -> decodes r rb (unread (input r Rb_buf) ++ sock_bytes (sock r) ++ fut) d rst -> total r rb ++ d = body ->
  Z.of_nat (length (unread (input r Rb_buf))) = rest rb -> 0 < rest rb ->
  exists r', ngx_http_request_body_filter (Some Rb_buf) r = (NGX_OK, r') /\ (waits r' body rst fut \/ ended r' body rst fut /\ the_rest r' = 0).
Proof.
  intros E C U Hl Hpre Hdec Ht Hw Hpos.
  assert (Hne : unread (input r Rb_buf) <> []) by (intros Hn; apply (f_equal length) in Hn; cbn [length] in Hn; lia).
  destruct (filter_ok Rb_buf r rb _ d rst E C U (or_introl Hne) Hdec) as (r' & Ef & Hp). exists r'. split; [done|].
  pose proof (inner_filter (Some Rb_buf) r) as [_ (_ & _ & _ & Hs & _)]. rewrite Ef in Hs. cbn in Hs.
  destruct Hp as (rb' & d1 & d2 & E' & M & -> & Ht' & Hcase). pose proof (mv_other _ _ _ M Header_in ltac:(done)) as Hh. cbn in Hh.
  destruct Hcase as [(Hr & Hu & Hc & Hdec' & Hlen)|(Hr & -> & Hs')].
  - left. exists rb', d2. split; rewrite ?Hh, ?Hs, ?Hu; try done.
    + apply M.
    + rewrite (mv_capacity _ _ _ M). unfold b_last. by rewrite (sm_input _ _ (mv_same _ _ _ M)).
    + by rewrite Ht', <- app_assoc.
    + intros Hk. rewrite (mv_chunked _ _ _ M) in Hk. specialize (Hlen Hk). lia.
  - right. apply decodes_rest in Hdec as (_ & Hd & _). rewrite <- Hs', !length_app in Hd.
    assert (Hu : unread (input r' Rb_buf) = []) by (apply nil_length_inv; lia).
    split; [|unfold the_rest; by rewrite E']. exists rb'. rewrite Hh, Hs. rewrite Hu in Hs'. rewrite app_nil_r in Ht. rewrite Ht'. by split_and!.
Qed.

Lemma after_read_ok bs r rb d body rst fut : request_body r = Some rb -> chains r rb [] -> usable r Rb_buf ->
  b_last (input r Rb_buf) + Z.of_nat (length bs) <= capacity r -> unread (header_in r) = [] ->
  decodes r rb (unread (input r Rb_buf) ++ bs ++ sock_bytes (sock r) ++ fut) d rst -> total r rb ++ d = body -> bs <> [] ->
  (in_chunked r = false -> b_pos (input r Rb_buf) = 0) ->
  let wanted := rest rb - (b_last (input r Rb_buf) - b_pos (input r Rb_buf)) in
  Z.of_nat (length bs) <= wanted ->
  exists t r', after_read bs wanted r = (t, r') /\ turned t r' body rst fut.
Proof.
  intros E C U Hroom Hpre Hdec Ht Hbs Hst wanted Hw. unfold after_read.
  destruct (append_ok r rb bs E C U) as (rb1 & E1 & C1 & T1 & U1 & I1 & K1 & R1 & X1). pose proof (length_unread _ (proj1 U)) as Hlen.
  assert (F : header_in (append bs r) = header_in r /\ sock (append bs r) = sock r /\ in_chunked (append bs r) = in_chunked r) by done.
  set (r1 := append bs r) in *. clearbody r1. destruct F as (F1 & F2 & F3).
  assert (Hu : unread (input r1 Rb_buf) = unread (input r Rb_buf) ++ bs) by (rewrite I1; apply unread_received, U).
  assert (Hl1 : b_last (input r1 Rb_buf) <= capacity r1) by (rewrite I1, K1; unfold b_last, received in *; cbn [b_mem]; rewrite length_app; lia).
  assert (Hdec1 : decodes r1 rb1 (unread (input r1 Rb_buf) ++ sock_bytes (sock r1) ++ fut) d rst).
  { rewrite Hu, F2, <- app_assoc. unfold decodes in *. by rewrite F3, R1, X1. }
  assert (Hn : (0 < length bs)%nat) by (destruct bs; [done|cbn; lia]).
  rewrite <- F1 in Hpre. rewrite <- T1 in Ht.
  destruct (Z.eqb_spec (Z.of_nat (length bs)) wanted) as [Heq|Hneq].
  - destruct (wanted_ok r1 rb1 d body rst fut E1 C1 U1 Hl1 Hpre Hdec1 Ht) as (r' & -> & Hcase); [rewrite Hu, length_app, R1; unfold wanted in *; lia | rewrite R1; unfold wanted in *; lia|].
    rewrite bool_decide_eq_true_2 by done. cbn [negb]. destruct Hcase as [(rb' & d' & Hwt)|[He Hr]].
    + destruct (turn_waits _ _ _ _ _ _ Hwt) as (t & _ & Htd & ->). by exists t, r'.
    + rewrite Hr. exists Outer, r'. split; [done|]. right. by split_and!.
  - rewrite bool_decide_eq_true_2 by done. cbn [negb].
    assert (Hwt : waiting r1 rb1 d body rst fut).
    { split; try done; [rewrite Hu, length_app, R1; unfold wanted in *; lia|]. rewrite I1, F3. exact Hst. }
    destruct (turn_waits _ _ _ _ _ _ Hwt) as (t & _ & Htd & ->). by exists t, r1.
Qed.

Lemma the_rest_body r rb : request_body r = Some rb -> the_rest r = rest rb.
Proof. intros E. unfold the_rest. by rewrite E. Qed.

(** Before the bytes are asked for there is room for one. *)
Lemma room_ok r body rst fut : waits r body rst fut ->
  exists r0 rb d, (if b_last (input r Rb_buf) =? capacity r then flush_buffer r else (NGX_OK, r)) = (NGX_OK, r0)
    /\ waiting r0 rb d body rst fut /\ b_last (input r0 Rb_buf) < capacity r0 /\ sock r0 = sock r /\ on_read r0 = on_read r.
Proof.
  intros (rb & d & Hw). destruct (Z.eqb_spec (b_last (input r Rb_buf)) (capacity r)) as [Hf|Hf].
  - destruct (flush_ok _ _ _ _ _ _ Hw Hf) as (r0 & rb0 & d0 & Ef & Hw0 & Hz). exists r0, rb0, d0. split_and!; try done.
    1: rewrite Hz; by apply (w_usable _ _ _ _ _ _ Hw0).
    all: pose proof (inner_flush r) as [_ (_ & _ & _ & Hs & _ & _ & _ & Hon)]; by rewrite Ef in Hs, Hon.
  - exists r, rb, d. split_and!; try done. pose proof (w_room _ _ _ _ _ _ Hw). lia.
Qed.

Lemma turn_ok r body rst fut : waits r body rst fut -> plain (sock r) ->
  exists t r', read_turn r = (t, r') /\ turned t r' body rst fut /\ plain (sock r') /\ (ready r' = false -> sock r' = [])
    /\ on_read r' = on_read r.
Proof.
  intros Hws Hp. unfold read_turn. destruct (room_ok _ _ _ _ Hws) as (r0 & rb & d & -> & [E C U Hl Hpre Hdec Ht Hw Hst] & Hroom & Hs0 & Hon0).
  rewrite bool_decide_eq_true_2 by done. cbn [negb]. rewrite (the_rest_body r0 rb E). rewrite <- Hs0 in Hp. rewrite <- Hon0. clear Hws Hs0 Hon0.
  pose proof (length_unread _ (proj1 U)) as Hlen. set (wanted := rest rb - (b_last (input r0 Rb_buf) - b_pos (input r0 Rb_buf))) in *.
  pose proof (recv_plain (Z.min (capacity r0 - b_last (input r0 Rb_buf)) wanted) (sock r0) ltac:(lia) Hp) as Hr.
  destruct (recv _ _) as [[got rdy] s']. set (r1 := r0 <| sock := s' |> <| ready := rdy |>).
  assert (C1 : chains r1 rb []) by (destruct C; by split). destruct got as [bs| | |]; try done.
  - destruct Hr as (Hbs & Hn & Hsb & Hp' & Hrd).
    assert (Hdec1 : decodes r1 rb (unread (input r1 Rb_buf) ++ bs ++ sock_bytes (sock r1) ++ fut) d rst) by (rewrite Hsb, <- app_assoc in Hdec; exact Hdec).
    destruct (after_read_ok bs r1 rb d body rst fut E C1 U ltac:(change (b_last (input r0 Rb_buf) + Z.of_nat (length bs) <= capacity r0); lia) Hpre Hdec1 Ht Hbs Hst) as (t & r' & Ea & Htd).
    { change (Z.of_nat (length bs) <= wanted). lia. }
    change (rest rb - (b_last (input r1 Rb_buf) - b_pos (input r1 Rb_buf))) with wanted in Ea. exists t, r'. split; [exact Ea|].
    assert (Hk : sock r' = s' /\ ready r' = rdy /\ on_read r' = on_read r0); [|destruct Hk as (-> & -> & ->); by split_and!].
    unfold after_read in Ea. pose proof (inner_filter (Some Rb_buf) (append bs r1)) as [_ Hi].
    destruct (Z.of_nat (length bs) =? wanted); [destruct (ngx_http_request_body_filter _ _) as [rc r2]|]; cbn in Hi;
      repeat match goal with H : (if ?c then _ else _) = _ |- _ => destruct c end; simplify_eq; try done; by destruct Hi as (_ & _ & _ & -> & -> & _ & _ & ->).
  - destruct Hr as (Hr & -> & ->). exists Outer, r1. split; [done|]. split; [|split_and!; [by left|done|done]]. left. split_and!; [by right| |].
    + exists rb, d. split; try done. rewrite Hr in Hdec. exact Hdec.
    + rewrite (the_rest_body r1 rb E). lia.
Qed.

(** ** The end of a body *)

(** The body as the rest of the server finds it, in [rb->bufs]. *)
Definition body_bytes (r : request) : list Z :=
  match request_body r with Some rb => data_of r (bufs rb) | None => [] end.

Lemma save_last_part_ok r rb : request_body r = Some rb ->
  exists r', save_last_part r = (NGX_OK, r') /\ body_bytes r' = total r rb /\ header_in r' = header_in r.
Proof.
  intros E. unfold save_last_part. rewrite (write_ok r rb E). rewrite bool_decide_eq_true_2 by done. cbn [negb].
  match goal with |- context [get_free_buf _ ?x] => set (r2 := x) end. cbn [request_body temp_file]. cbn.
  unfold get_free_buf. cbn [request_body]. cbn. destruct (free_buf (memory r2) (free rb)) as (i & l & Hg & _). cbn in Hg. rewrite Hg.
  eexists. split; [done|]. split; [|done]. unfold body_bytes, upd. cbn. unfold data_of. cbn. unfold buf_data. cbn.
  rewrite lookup_insert_eq, app_nil_r, Nat2Z.id. apply firstn_all.
Qed.

Lemma total_no_file r rb : request_body r = Some rb -> temp_file rb = None -> body_bytes r = total r rb.
Proof. intros E Ht. unfold body_bytes, total, file_of. by rewrite E, Ht. Qed.

(** The body is what [rb->bufs] holds, and the next byte of the client is the first
    that was not taken. *)
Definition has_whole (r : request) (body rst fut : list Z) : Prop :=
  body_bytes r = body /\ unread (header_in r) ++ sock_bytes (sock r) ++ fut = rst.

Lemma body_read_ok r body rst fut : ended r body rst fut ->
  exists r', body_read r = (NGX_OK, r') /\ has_whole r' body rst fut /\ on_read r' = block_reading.
Proof.
  intros (rb & E & Hr & Ht & Hp & Hs). unfold body_read. set (r1 := r <| timer := None |>).
  assert (Hx : exists r2, (if in_file_only r1 || match request_body r1 with Some rb => negb (bool_decide (temp_file rb = None)) | None => false end
    then save_last_part r1 else (NGX_OK, r1)) = (NGX_OK, r2) /\ body_bytes r2 = body /\ header_in r2 = header_in r /\ sock r2 = sock r).
  { assert (E1 : request_body r1 = Some rb) by done. rewrite E1. destruct (in_file_only r1 || _) eqn:Ef.
    - destruct (save_last_part_ok r1 rb E1) as (r2 & Es & Hb & Hh). exists r2. split; [done|]. split; [by rewrite Hb|]. split; [done|].
      pose proof (inner_last_part r1) as [_ (_ & _ & _ & Hk & _)]. by rewrite Es in Hk.
    - exists r1. split; [done|]. apply orb_false_iff in Ef as [_ Ef]. split; [|done]. rewrite (total_no_file r1 rb E1); [done|].
      destruct (decide (temp_file rb = None)) as [Hn|Hn]; [done|]. by rewrite (bool_decide_eq_false_2 _ Hn) in Ef. }
  destruct Hx as (r2 & -> & Hb & Hh & Hk). rewrite bool_decide_eq_true_2 by done. cbn [negb]. eexists. split; [done|]. split; [|done].
  split; [exact Hb|]. cbn. by rewrite Hh, Hk, Hp.
Qed.

(** The loop: the body is whole, or everything was received and more is wanted. *)
Lemma loop_reads fuel r rc r' body rst fut : ngx_http_do_read_client_request_body fuel r = Some (rc, r') ->
  waits r body rst fut -> plain (sock r) ->
  rc = NGX_AGAIN /\ waits r' body rst fut /\ sock r' = [] /\ on_read r' = on_read r
  \/ rc = NGX_OK /\ has_whole r' body rst fut /\ on_read r' = block_reading.
Proof.
  revert r. induction fuel as [|fuel IH]; intros r E Hw Hp; [done|]. cbn [ngx_http_do_read_client_request_body] in E.
  destruct (turn_ok r body rst fut Hw Hp) as (t & r1 & Et & Htd & Hp1 & Hrd & Hon). rewrite Et in E. rewrite <- Hon.
  destruct Htd as [([-> | ->] & Hw1 & Hr)|(-> & He & Hr)]; [by apply IH| |].
  - rewrite (proj2 (Z.eqb_neq _ _)) in E by done. destruct (ready r1) eqn:Er; cbn [negb] in E; [by apply IH|].
    rewrite read_event in E. simplify_eq. left. specialize (Hrd eq_refl). split_and!; try done.
    destruct Hw1 as (rb & d & [W1 W2 W3 W4 W5 W6 W7 W8 W9]). exists rb, d. split; try done. destruct W2; by split.
  - rewrite Hr in E. cbn [Z.eqb] in E. destruct (body_read_ok r1 body rst fut He) as (r2 & Eb & Hh & Ho). rewrite Eb in E. simplify_eq. by right.
Qed.
End Reading.
End RequestBodyReading.
