(* ===== verification/RequestBodyProps.v ===== *)
(** * The body of a request is read exactly

    However it is cut on its way: the body that the server keeps is the one that
    was sent, and nothing after it is taken from the client. *)

From stdpp Require Import gmap.
From S2P Require Import Prelude Scan Chunked ChunkedProps RequestBody RequestBodyErrors RequestBodyFacts RequestBodyReading.

Module RequestBodyProps.
Import Chunked.Chunked ChunkedProps.ChunkedProps RequestBody.RequestBody RequestBodyErrors.RequestBodyErrors
  RequestBodyFacts.RequestBodyFacts RequestBodyReading.RequestBodyReading.

(** What arrives while the request waits for its body, with [c->read->ready]
    after it; each event calls the read handler.  What was not served is left. *)
Fixpoint serve `{Core} (events : list (list Z * bool)) (r : request) : option (request * list (list Z * bool)) :=
  match events with
  | [] => Some (r, [])
  | (bs, rdy) :: events' =>
      match on_read r with
      | read_body_handler =>
          match ngx_http_read_client_request_body_handler false (r <| sock := sock r ++ [Bytes bs rdy] |> <| ready := true |>) with
          | Some r => serve events' r
          | None => None
          end
      | _ => Some (r, events)
      end
  end.

(** What the client sends after the header, by the header: [body], then [rst]. *)
Definition has_body `{Core} (r : request) (stream body rst : list Z) : Prop :=
  if in_chunked r then
    client_max_body_size = 0 /\ fits stream sw_chunk_start 0 /\ body_run stream sw_chunk_start 0 = (Complete, body, rst)
  else stream = body ++ rst /\ content_length_n r = Z.of_nat (length body).

(** A request whose body nobody has asked for. *)
Definition unread_body (r : request) : Prop :=
  is_main r = true /\ request_body r = None /\ discard_body r = false /\ buf_wf (header_in r) /\ plain (sock r).

Section Props.
Context `{CoreOk}.

(** ** The first call of a filter *)

Definition begin (r : request) : request :=
  if in_chunked r then upd (fun rb => rb <| rb_chunked := Some fresh_ctx |> <| rest := 3 |>) (r <| content_length_n := 0 |>)
  else upd (fun rb => rb <| rest := content_length_n r |>) r.

Lemma filter_begin inp r rb : request_body r = Some rb -> rest rb = -1 -> (in_chunked r = false -> 0 <= content_length_n r) ->
  ngx_http_request_body_filter inp r = ngx_http_request_body_filter inp (begin r).
Proof.
  intros E Hr Hc. destruct all_allocated as (_ & A2 & _). unfold begin, ngx_http_request_body_filter. destruct (in_chunked r) eqn:Ec.
  - unfold ngx_http_request_body_chunked_filter. cbn [in_chunked]. cbn. rewrite Ec, E, Hr, A2. cbn. done.
  - cbn. rewrite Ec. specialize (Hc eq_refl). unfold ngx_http_request_body_length_filter.
    assert (Hu : upd (fun rb => if rest rb =? -1 then rb <| rest := content_length_n r |> else rb) r = upd (fun rb => rb <| rest := content_length_n r |>) r).
    { unfold upd. rewrite E. cbn. by rewrite Hr. }
    rewrite Hu. rewrite upd_upd. cbn. destruct (Z.eqb_spec (content_length_n r) (-1)); [lia|done].
Qed.

Lemma begin_ok r stream body rst : request_body r = Some fresh_body -> buf_wf (header_in r) -> has_body r stream body rst ->
  exists rb, request_body (begin r) = Some rb /\ chains (begin r) rb [] /\ usable (begin r) Header_in /\ decodes (begin r) rb stream body rst
    /\ total (begin r) rb = [] /\ input (begin r) Rb_buf = Buf [] 0 /\ header_in (begin r) = header_in r /\ sock (begin r) = sock r
    /\ temp_file rb = None /\ same_outside r (begin r).
Proof.
  intros E Hwf Hb. unfold has_body in Hb. unfold begin. destruct (in_chunked r) eqn:Ec.
  all: eexists; split; [unfold upd; cbn; rewrite E; reflexivity|]; split_and!; try done; try (by cbn; rewrite E).
  1, 3: split; cbn; try apply NoDup_nil_2; by intros i ?%elem_of_nil.
  - unfold decodes. cbn. rewrite Ec. destruct Hb as (Hm & Hf & Hr). split; [done|]. exists fresh_ctx. by split_and!.
  - unfold decodes. cbn. rewrite Ec. by destruct Hb.
Qed.

(** The buffer for the rest of the body. *)
Lemma own_buffer_waits r rb d size body rst fut : request_body r = Some rb -> chains r rb [] -> input r Rb_buf = Buf [] 0 ->
  unread (header_in r) = [] -> decodes r rb (sock_bytes (sock r) ++ fut) d rst -> total r rb ++ d = body -> 0 < rest rb -> 0 < size ->
  waits ((upd (fun rb => rb <| buf := Some (Buf [] 0, size) |>) r) <| on_read := read_body_handler |>) body rst fut.
Proof.
  intros E C Hin Hpre Hdec Ht Hr Hs. match goal with |- waits ?x _ _ _ => set (r1 := x) end.
  assert (E1 : request_body r1 = Some (rb <| buf := Some (Buf [] 0, size) |>)) by (unfold r1; cbn; by rewrite E).
  assert (Hi1 : input r1 Rb_buf = Buf [] 0) by (unfold input; by rewrite E1).
  assert (Hs1 : same_memory r r1).
  { split; [intros [|]; [done|by rewrite Hi1, Hin]|]. by rewrite E, E1. }
  assert (Hc1 : capacity r1 = size) by (unfold capacity; by rewrite E1).
  eexists _, d. split; [exact E1|..]; rewrite ?Hi1, ?Hc1; try done.
  - eapply chains_keep; [exact Hs1|..|exact C]; done.
  - split; [by rewrite Hi1|by rewrite Hc1].
  - unfold b_last; cbn; lia.
  - rewrite <- Ht. f_equal. unfold total, file_of. cbn. f_equal. apply data_ext. intros i _. by apply keep_data.
Qed.

(** ** The whole call *)

(** What a call leaves: the body is whole, or the rest of it is waited for. *)
Definition called (r : request) (rc : ngx_rc) (r' : request) (body rst fut : list Z) : Prop :=
  finalized r' = finalized r /\
  (rc = NGX_OK /\ posted r' = S (posted r) /\ has_whole r' body rst fut /\ on_read r' <> read_body_handler
   \/ rc = NGX_AGAIN /\ posted r' = posted r /\ waits r' body rst fut /\ sock r' = [] /\ on_read r' = read_body_handler).

(** The loop, from a state that waits. *)
Lemma loop_called r body rst fut : waits r body rst fut -> plain (sock r) -> on_read r = read_body_handler ->
  exists rc r', ngx_http_do_read_client_request_body (read_fuel r) r = Some (rc, r') /\ called r rc r' body rst fut.
Proof.
  intros Hw Hp Ho. destruct (reading_loop (read_fuel r) r) as (rc & r' & E & (_ & F & _) & _ & P); [unfold read_fuel, pending; lia|].
  exists rc, r'. split; [done|]. split; [done|].
  destruct (loop_reads _ _ _ _ _ _ _ E Hw Hp) as [(-> & Hw' & Hs & Ho')|(-> & Hh & Ho')]; rewrite P; [right|left].
  - rewrite bool_decide_eq_false_2 by done. split_and!; try done; try lia; by rewrite Ho'.
  - rewrite bool_decide_eq_true_2 by done. split_and!; try done; try lia; by rewrite Ho'.
Qed.

Lemma start_called r body rst fut : waits (r <| on_read := read_body_handler |>) body rst fut -> plain (sock r) ->
  exists rc r', start_reading r = Some (rc, r') /\ called r rc r' body rst fut.
Proof.
  intros Hw Hp. destruct (loop_called _ _ _ _ Hw Hp eq_refl) as (rc & r' & E & F & Hc). unfold start_reading.
  change (read_fuel r) with (read_fuel (r <| on_read := read_body_handler |>)). rewrite E. exists rc, r'.
  split; [|by split]. cbn. unfold body_done. cbn. by destruct Hc as [(-> & _)|(-> & _)].
Qed.

(** After the bytes of the header's buffer. *)
Lemma own_called preread r rb d body rst fut : request_body r = Some rb -> input r Rb_buf = Buf [] 0 -> plain (sock r) ->
  temp_file rb = None -> total r rb ++ d = body ->
  0 < rest rb /\ unread (header_in r) = [] /\ chains r rb [] /\ decodes r rb (sock_bytes (sock r) ++ fut) d rst
    \/ rest rb = 0 /\ d = [] /\ unread (header_in r) ++ sock_bytes (sock r) ++ fut = rst ->
  0 <= preread -> on_read r <> read_body_handler ->
  exists rc r', with_own_buffer preread r = Some (rc, r') /\ called r rc r' body rst fut.
Proof.
  intros E Hin Hp Ht Hb Hcase Hpre Hon. unfold with_own_buffer. rewrite (the_rest_body r rb E).
  destruct Hcase as [(Hr & Hu & C & Hdec)|(Hr & -> & Hrst)].
  - rewrite (proj2 (Z.eqb_neq _ _)), (proj2 (Z.ltb_ge _ _)) by lia. destruct all_allocated as (_ & _ & _ & _ & ->). cbn [negb].
    destruct (start_called (upd (fun rb => rb <| buf := Some (Buf [] 0, buffer_size preread r) |>) r) body rst fut) as (rc & r' & Es & Hc); [|done|].
    + eapply own_buffer_waits; try done. unfold buffer_size. rewrite (the_rest_body r rb E). pose proof buffer_room.
      destruct (negb (in_chunked r) && _); [destruct (in_single_buf r)|]; lia.
    + exists rc, r'. split; [exact Es|]. exact Hc.
  - rewrite Hr. cbn [Z.eqb]. rewrite app_nil_r in Hb. unfold all_read_before. eexists _, _. split; [by rewrite <- surjective_pairing|].
    assert (Hx : exists r2, (if in_file_only r then save_last_part r else (NGX_OK, r)) = (NGX_OK, r2) /\ body_bytes r2 = body
      /\ header_in r2 = header_in r /\ same_outside r r2).
    { destruct (in_file_only r); [|exists r; split_and!; try done; by rewrite (total_no_file r rb E)].
      destruct (save_last_part_ok r rb E) as (r2 & Es & Hb2 & Hh). exists r2. split_and!; try done; [by rewrite Hb2|].
      pose proof (inner_last_part r) as [_ Ho]. by rewrite Es in Ho. }
    destruct Hx as (r2 & -> & Hb2 & Hh & (_ & P & F & S2 & _ & _ & _ & O)). rewrite bool_decide_eq_true_2 by done. cbn [negb fst snd].
    split; [exact F|]. left. split_and!; [done|by cbn; rewrite P| |cbn; by rewrite O]. split; [exact Hb2|]. cbn. by rewrite Hh, S2.
Qed.

Lemma expect_ok r : exists b, ngx_http_test_expect r = (NGX_OK, r <| expect_tested := b |>).
Proof.
  unfold ngx_http_test_expect. assert (Hr : (NGX_OK, r) = (NGX_OK, r <| expect_tested := expect_tested r |>)) by by destruct r.
  destruct (expect r); [|by eexists]. destruct (_ || _); [by eexists|]. destruct (negb _); [by eexists|].
  rewrite sends, Z.eqb_refl. by eexists.
Qed.

Lemma called_same r1 r rc r' body rst fut : same_outside r r1 -> called r1 rc r' body rst fut -> called r rc r' body rst fut.
Proof. intros (_ & P & F & _) [H1 H2]. rewrite P, F in *. by split. Qed.

(** After the bytes that were read with the header: the rest of that buffer
    serves as [rb->buf], or a new one. *)
Lemma preread_called r rb body rst fut : request_body r = Some rb -> chains r rb [] -> usable r Header_in -> total r rb = [] ->
  input r Rb_buf = Buf [] 0 -> plain (sock r) -> temp_file rb = None -> on_read r <> read_body_handler ->
  unread (header_in r) <> [] -> decodes r rb (unread (header_in r) ++ sock_bytes (sock r) ++ fut) body rst ->
  exists r0, ngx_http_request_body_filter (Some Header_in) r = (NGX_OK, r0) /\ forall n, let r1 := r0 <| request_length := n |> in
    (0 < the_rest r1 -> the_rest r1 <= header_end r1 - b_last (header_in r0) ->
      exists rc r', start_reading (upd (fun rb => rb <| buf := Some (Buf (unread (header_in r0)) 0, header_end r1 - b_pos (header_in r0)) |>) r1) = Some (rc, r')
        /\ called r rc r' body rst fut)
    /\ forall p, 0 <= p -> exists rc r', with_own_buffer p r1 = Some (rc, r') /\ called r rc r' body rst fut.
Proof.
  intros E C U Ht Hin Hp Htf Hon Hne Hdec.
  destruct (filter_ok Header_in r rb _ body rst E C U (or_introl Hne) Hdec) as (r0 & Ef & (rb0 & d1 & d2 & E0 & M & -> & Ht0 & Hcase)).
  pose proof (inner_filter (Some Header_in) r) as [_ Ho]. rewrite Ef in Ho. cbn in Ho. pose proof Ho as (_ & _ & _ & Hk & _ & _ & _ & Hon0).
  pose proof (sm_file _ _ (mv_same _ _ _ M)) as Hf. rewrite E, E0, Htf in Hf.
  pose proof (mv_other _ _ _ M Rb_buf ltac:(done)) as Hin0. rewrite Hin in Hin0. rewrite Ht in Ht0. cbn in Ht0.
  exists r0. split; [done|]. intros n. cbn zeta. set (r1 := r0 <| request_length := n |>).
  assert (C1 : chains r0 rb0 [] -> chains r1 rb0 []) by (intros []; by split).
  split.
  - intros Hr Hroom. rewrite (the_rest_body r1 rb0 E0) in *. destruct Hcase as [(_ & Hu & Ch & Hdec0 & _)|(Hr0 & _)]; [|lia].
    destruct U as [U1 _]. pose proof (length_unread _ (proj1 (mv_usable _ _ _ M))) as Hlen. rewrite Hu in Hlen. cbn [length] in Hlen.
    change (input r0 Header_in) with (header_in r0) in *. rewrite Hu.
    match goal with |- context [start_reading ?x] => destruct (start_called x (d1 ++ d2) rst fut) as (rc & r' & Es & Hc) end.
    + eapply (own_buffer_waits r1 rb0 d2); try done; [by apply C1|by rewrite <- Hk in Hdec0|by rewrite <- Ht0|lia].
    + cbn. by rewrite Hk.
    + exists rc, r'. split; [exact Es|]. by apply (called_same r1).
  - intros p Hpp. destruct (own_called p r1 rb0 d2 (d1 ++ d2) rst fut) as (rc & r' & Es & Hc); try done.
    + cbn. by rewrite Hk.
    + by rewrite <- Ht0.
    + cbn. rewrite Hk. destruct Hcase as [(Hr & Hu & Ch & Hdec0 & _)|Hcase]; [left|by right]. split_and!; try done. by apply C1.
    + cbn. by rewrite Hon0.
    + exists rc, r'. split; [exact Es|]. by apply (called_same r1).
Qed.

(** Nothing was read with the header. *)
Lemma none_called r rb body rst fut : request_body r = Some rb -> chains r rb [] -> usable r Header_in -> total r rb = [] ->
  input r Rb_buf = Buf [] 0 -> plain (sock r) -> temp_file rb = None -> on_read r <> read_body_handler ->
  unread (header_in r) = [] -> decodes r rb (sock_bytes (sock r) ++ fut) body rst ->
  exists r0, ngx_http_request_body_filter None r = (NGX_OK, r0)
    /\ exists rc r', with_own_buffer 0 r0 = Some (rc, r') /\ called r rc r' body rst fut.
Proof.
  intros E C U Ht Hin Hp Htf Hon Hu Hdec. pose proof (inner_filter None r) as [_ Ho].
  rewrite (filter_none_ok r rb _ _ _ E Hdec) in *.
  destruct (save_end Header_in r rb [] r rb E) as (r0 & rb0 & Ef & E0 & M & T0 & R0 & K0 & I0 & Ch); [apply moved_still; try done; reflexivity|done..|].
  rewrite Ef in *. cbn in Ho. pose proof Ho as (_ & _ & _ & Hk & _ & _ & Hck & Hon0).
  pose proof (sm_file _ _ (mv_same _ _ _ M)) as Hf. rewrite E, E0, Htf in Hf.
  pose proof (mv_other _ _ _ M Rb_buf ltac:(done)) as Hin0. rewrite Hin in Hin0. rewrite Ht in T0. cbn in T0. cbn in I0.
  pose proof (decodes_rest _ _ _ _ _ Hdec) as (Hr & _ & Hrc).
  assert (Hdec0 : decodes r0 rb0 (sock_bytes (sock r) ++ fut) body rst) by (unfold decodes in *; by rewrite Hck, R0, K0).
  exists r0. split; [done|]. destruct (own_called 0 r0 rb0 body body rst fut) as (rc & r' & Es & Hc); try done.
  - by rewrite Hk.
  - by rewrite T0.
  - rewrite Hk, I0, Hu, R0. destruct (Z.eqb_spec (rest rb) 0) as [Hz|Hz]; [right|left].
    + unfold decodes in Hdec. destruct (in_chunked r); [specialize (Hrc eq_refl); lia|]. destruct Hdec as [Hs Hl].
      assert (body = []) as -> by (apply nil_length_inv; lia). by split_and!.
    + split_and!; try done; [lia|auto].
  - by rewrite Hon0.
  - exists rc, r'. split; [exact Es|]. by apply (called_same r0).
Qed.

Lemma read_called r body rst fut : unread_body r -> on_read r <> read_body_handler ->
  has_body r (unread (header_in r) ++ sock_bytes (sock r) ++ fut) body rst ->
  exists rc r', ngx_http_read_client_request_body r = Some (rc, r') /\ called r rc r' body rst fut.
Proof.
  intros (Hm & Hn & Hd & Hwf & Hp) Ho Hb. unfold ngx_http_read_client_request_body. set (r1 := r <| main_count := _ |>).
  change (is_main r1) with (is_main r). change (request_body r1) with (request_body r). change (discard_body r1) with (discard_body r).
  rewrite Hm, Hn, Hd, bool_decide_eq_true_2 by done. cbn [negb orb].
  destruct (expect_ok r1) as (b & ->). rewrite bool_decide_eq_true_2 by done. cbn [negb]. destruct all_allocated as (A1 & _ & _ & A4 & _). rewrite A1. cbn [negb].
  set (r2 := _ <| request_body := _ |>).
  assert (Hcl : in_chunked r2 = false -> 0 <= content_length_n r2).
  { unfold has_body in Hb. change (in_chunked r2) with (in_chunked r). intros Hc. rewrite Hc in Hb. destruct Hb as [_ Hb].
    change (content_length_n r2) with (content_length_n r). lia. }
  assert (Hneg : (content_length_n r2 <? 0) && negb (in_chunked r2) = false).
  { destruct (in_chunked r2); [apply andb_false_r|]. specialize (Hcl eq_refl). rewrite (proj2 (Z.ltb_ge _ _)) by done. done. }
  rewrite Hneg. rewrite !(filter_begin _ r2 fresh_body eq_refl eq_refl Hcl).
  destruct (begin_ok r2 _ body rst eq_refl Hwf Hb) as (rb & E & C & U & Hdec & Ht & Hin & Hh & Hk & Htf & Hso).
  assert (Hgo : forall rc r', called (begin r2) rc r' body rst fut -> called r rc r' body rst fut).
  { intros rc r' Hc. apply (called_same (begin r2) r2) in Hc; [|done]. exact Hc. }
  assert (Hon : on_read (begin r2) <> read_body_handler) by (destruct Hso as (_ & _ & _ & _ & _ & _ & _ & ->); exact Ho).
  change (header_in r) with (header_in r2) in Hdec. change (sock r) with (sock r2) in *. rewrite <- Hh, <- Hk in Hdec. rewrite <- Hk in Hp.
  pose proof (length_unread (header_in r2) Hwf) as Hlen. rewrite <- Hh in *.
  destruct (Z.eqb_spec (b_last (header_in (begin r2)) - b_pos (header_in (begin r2))) 0) as [Hz|Hz]; cbn [negb].
  - assert (Hu : unread (header_in (begin r2)) = []) by (apply nil_length_inv; lia). rewrite Hu in Hdec.
    destruct (none_called (begin r2) rb body rst fut) as (r0 & -> & rc & r' & Es & Hc); try done.
    rewrite bool_decide_eq_true_2 by done. cbn [negb]. rewrite Hz. exists rc, r'. by split; [|apply Hgo].
  - assert (Hne : unread (header_in (begin r2)) <> []) by (intros Hu; apply (f_equal length) in Hu; cbn [length] in Hu; lia).
    destruct (preread_called (begin r2) rb body rst fut) as (r0 & -> & Hall); try done.
    rewrite bool_decide_eq_true_2 by done. cbn [negb]. rewrite A4. cbn [negb]. match goal with |- context [r0 <| request_length := ?n |>] => specialize (Hall n) end.
    destruct Hall as [H1 H2]. destruct (_ && (0 <? _) && _) eqn:Ec.
    + b2p. destruct H1 as (rc & r' & Es & Hc); [lia..|]. exists rc, r'. by split; [|apply Hgo].
    + destruct (H2 (b_last (header_in (begin r2)) - b_pos (header_in (begin r2)))) as (rc & r' & Es & Hc); [lia|]. exists rc, r'. by split; [|apply Hgo].
Qed.

(** ** The events after it *)

(** Everything the client sends until the body is whole. *)
Lemma serve_ok events r body rst : Forall (fun e => e.1 <> []) events -> waits r body rst (concat (map fst events)) -> sock r = [] ->
  on_read r = read_body_handler ->
  exists r' left_, serve events r = Some (r', left_) /\ finalized r' = finalized r /\ posted r' = S (posted r)
    /\ has_whole r' body rst (concat (map fst left_)).
Proof.
  revert r. induction events as [|[bs rdy] events IH]; intros r Hne Hw Hs Ho.
  - exfalso. destruct Hw as (rb & d & [W1 W2 W3 W4 W5 W6 W7 W8 W9]). apply decodes_rest in W6 as (_ & W6 & _).
    rewrite Hs in W6. cbn [sock_bytes map concat app] in W6. change (sock_bytes []) with (@nil Z) in W6. rewrite !app_nil_r in W6. lia.
  - cbn [serve]. rewrite Ho, Hs. cbn [app]. apply Forall_cons_iff in Hne as [Hb Hne]. cbn [fst] in Hb.
    set (r1 := r <| sock := [Bytes bs rdy] |> <| ready := true |>).
    assert (Hw1 : waits r1 body rst (concat (map fst events))).
    { destruct Hw as (rb & d & [W1 W2 W3 W4 W5 W6 W7 W8 W9]). exists rb, d. rewrite Hs in W6. split; try done.
      - destruct W2; by split.
      - change (sock_bytes (sock r1)) with (bs ++ []). rewrite app_nil_r. exact W6. }
    destruct (loop_called r1 _ _ _ Hw1) as (rc & r2 & E & F & Hc); [right; by eexists _, _|done|].
    unfold ngx_http_read_client_request_body_handler. rewrite E.
    destruct Hc as [(-> & P & Hh & Ho2)|(-> & P & Hw2 & Hs2 & Ho2)]; cbn [special].
    + exists r2, events. split; [by destruct events as [|[]]; cbn; [|destruct (on_read r2)]|]. by split_and!.
    + destruct (IH r2 Hne Hw2 Hs2 Ho2) as (r3 & left_ & -> & F3 & P3 & Hh). exists r3, left_. rewrite F3, P3, F, P. by split_and!.
Qed.

(** C8: A body of [Content-Length] bytes, or a chunked one without a limit on its
    size, arrives in whatever pieces, some of it with the header: the post
    handler is called once, [rb->bufs] hold the body, through the buffer or the
    temporary file, and the bytes after the body are still unread. *)
Theorem body_read_exactly r events body rst : unread_body r -> on_read r <> read_body_handler -> Forall (fun e => e.1 <> []) events ->
  has_body r (unread (header_in r) ++ sock_bytes (sock r) ++ concat (map fst events)) body rst ->
  exists rc r1 r2 left_, ngx_http_read_client_request_body r = Some (rc, r1) /\ serve events r1 = Some (r2, left_)
    /\ posted r2 = S (posted r) /\ finalized r2 = finalized r /\ body_bytes r2 = body
    /\ unread (header_in r2) ++ sock_bytes (sock r2) ++ concat (map fst left_) = rst.
Proof.
  intros Hr Ho Hne Hb. destruct (read_called r body rst _ Hr Ho Hb) as (rc & r1 & E & F & Hc). exists rc, r1.
  destruct Hc as [(_ & P & [Hh1 Hh2] & Ho1)|(_ & P & Hw & Hs & Ho1)].
  - exists r1, events. split; [done|]. split; [by destruct events as [|[]]; cbn; [|destruct (on_read r1)]|]. by split_and!.
  - destruct (serve_ok events r1 body rst Hne Hw Hs Ho1) as (r2 & left_ & E2 & F2 & P2 & Hh1 & Hh2). exists r2, left_.
    split_and!; try done; congruence.
Qed.
End Props.

(** ** A core with lists of free buffers *)

Fixpoint without_bytes (m : heap) (l : list nat) : list nat * list nat :=
  match l with
  | [] => ([], [])
  | i :: l' =>
      if match m !! i with Some b => buf_size b =? 0 | None => false end
      then let (done, busy) := without_bytes m l' in (i :: done, busy)
      else ([], l)
  end.

Definition small_core : Core := {|
  ngx_pcalloc_body := true; ngx_pcalloc_chunked := true; ngx_pcalloc_temp_file := true; ngx_calloc_buf := true;
  ngx_create_temp_buf _ := true; ngx_create_temp_file := true; ngx_write_chain_to_temp_file := true;
  ngx_chain_get_free_buf m l := match l with i :: l' => Some (i, l') | [] => Some (fresh (dom m), []) end;
  ngx_chain_update_chains m f b o := let (done, busy') := without_bytes m (b ++ o) in (m, done ++ f, busy');
  ngx_chain_add_copy a b := Some (a ++ b); ngx_handle_read_event := true; ngx_time := 0;
  send l := Z.of_nat (length l); client_body_buffer_size := 4; client_max_body_size := 0; client_body_timeout := 60000;
  lingering_timeout := 5000 |}.

Lemma without_bytes_ok m l : let (done, busy) := without_bytes m l in
  l = done ++ busy /\ Forall (no_bytes m) done /\ match busy with [] => True | i :: _ => ~ no_bytes m i end.
Proof.
  induction l as [|i l IH]; cbn; [done|]. destruct (m !! i) as [b|] eqn:E; [destruct (Z.eqb_spec (buf_size b) 0) as [Hb|Hb]|].
  - destruct (without_bytes m l) as [done busy]. destruct IH as (-> & Hd & Hbusy). split_and!; try done. constructor; [|done]. by exists b.
  - split_and!; try done. intros (b' & E' & Hb'). congruence.
  - split_and!; try done. intros (b' & E' & Hb'). congruence.
Qed.

#[local] Instance small_core_ok : @CoreOk small_core.
Proof.
  split; try by split_and!.
  - intros m l. destruct l as [|i l]; cbn.
    + eexists _, _. split; [done|]. split_and!; [right; apply not_elem_of_dom, is_fresh|done|].
      intros _. split; [by intros ?%elem_of_nil|constructor].
    + exists i, l. split_and!; [done|left; apply elem_of_cons; by left|intros j Hj; apply elem_of_cons; by right|].
      intros [? ?]%list.NoDup_cons. done.
  - intros m f b o. cbn. pose proof (without_bytes_ok m (b ++ o)) as Hw. destruct (without_bytes m (b ++ o)) as [done busy].
    exists done. destruct Hw as (Hs & Hd & Hb). split; try done.
    + intros i Hi. apply elem_of_app in Hi as [?|?]; [by right|by left].
    + intros Hf Hn Hi. apply list.NoDup_app. by split_and!.
  - done.
  - done.
  - done.
  - cbn. lia.
Qed.

(** A chunked body in three pieces, the first with the header, in a buffer of four
    bytes. *)
Definition chunked_request : request :=
  Request (Buf (bytes_of "POST" ++ [CR; LF; CR; LF] ++ bytes_of "6" ++ [CR; LF] ++ bytes_of "he") 8) 64 true (-1) None
    NGX_HTTP_VERSION_11 false true 1 false false 0 false false 100 None ∅ [] true None false false other_handler 0 [].
Definition its_events : list (list Z * bool) :=
  [(bytes_of "l", false); (bytes_of "lo!" ++ [CR; LF] ++ bytes_of "0" ++ [CR], true); ([LF; CR; LF] ++ bytes_of "GET", false)].

Example body_read_exactly_witness : exists rc r1 r2 left_,
  @ngx_http_read_client_request_body small_core chunked_request = Some (rc, r1) /\ @serve small_core its_events r1 = Some (r2, left_)
  /\ posted r2 = 1%nat /\ finalized r2 = [] /\ @body_bytes r2 = bytes_of "hello!"
  /\ unread (header_in r2) ++ sock_bytes (sock r2) ++ concat (map fst left_) = bytes_of "GET".
Proof.
  apply (@body_read_exactly small_core small_core_ok chunked_request its_events (bytes_of "hello!") (bytes_of "GET")).
  - split_and!; try done. by left.
  - done.
  - by repeat constructor.
  - split; [done|]. split; [|vm_compute; reflexivity]. vm_compute. repeat split; discriminate.
Defined.

End RequestBodyProps.
