(* ===== verification/UpstreamHeaders.v ===== *)
(** * The headers of an upstream response

    From [ngx_http_upstream.c]: the table of headers the upstream module knows,
    the handlers that read them into [u->headers_in] as they are parsed, the
    handlers that copy them to [r->headers_out], and
    [ngx_http_upstream_process_headers], which decides what the client gets or,
    with "X-Accel-Redirect", where the request goes instead.  What it calls
    outside of this (finalization, the internal redirect) is returned as a list of
    effects in their order.  The server is built with the cache and with gzip. *)

From stdpp Require Import functions.
From S2P Require Import Prelude Scan Request ParseTime UriUtil.

Module UpstreamHeaders.

(** [ngx_table_elt_t]; of [value], [None] is NULL data.  The bytes of a value are
    followed by a NUL, as the modules that parse headers leave them, which is what
    [rd] reads behind them. *)
Record ngx_table_elt_t := Elt { hash : Z; key : list Z; value : option (list Z); lowcase_key : list Z }.

Definition eta_elt (h : ngx_table_elt_t) : ngx_table_elt_t := Elt (hash h) (key h) (value h) (lowcase_key h).
#[export] Instance set_hash : Setter hash := ltac:(derive_setter eta_elt hash).
#[export] Instance set_value : Setter value := ltac:(derive_setter eta_elt value).

Definition null_elt : ngx_table_elt_t := Elt 0 [] None [].
Definition data (h : ngx_table_elt_t) : list Z := default [] (value h).

(** The pointer fields of [ngx_http_upstream_headers_in_t] and of
    [ngx_http_headers_out_t], which the handlers reach by their offset; [None]
    is the offset 0. *)
Inductive in_field :=
| in_status | in_date | in_server | in_connection | in_expires | in_etag | in_x_accel_expires
| in_x_accel_redirect | in_x_accel_limit_rate | in_content_type | in_content_length | in_last_modified
| in_location | in_accept_ranges | in_www_authenticate | in_transfer_encoding | in_content_encoding.

Inductive out_field :=
| out_date | out_etag | out_server | out_cache_control | out_expires | out_accept_ranges
| out_last_modified | out_location | out_refresh | out_content_encoding | out_www_authenticate.

#[export] Instance in_field_eq_dec : EqDecision in_field.
Proof. solve_decision. Defined.
#[export] Instance out_field_eq_dec : EqDecision out_field.
Proof. solve_decision. Defined.

(** [ngx_http_upstream_headers_in_t]: a pointer to a header is its place in
    [headers]. *)
Record ngx_http_upstream_headers_in_t := HeadersIn {
  headers : list ngx_table_elt_t;
  status_n : Z;
  status_line : list Z;
  ptr_in : in_field -> option nat;
  content_length_n : Z;
  cache_control : list nat;
  connection_close : bool;
  chunked : bool;
}.

Definition eta_in (i : ngx_http_upstream_headers_in_t) : ngx_http_upstream_headers_in_t :=
  HeadersIn (headers i) (status_n i) (status_line i) (ptr_in i) (content_length_n i) (cache_control i)
    (connection_close i) (chunked i).
#[export] Instance set_headers : Setter headers := ltac:(derive_setter eta_in headers).
#[export] Instance set_ptr_in : Setter ptr_in := ltac:(derive_setter eta_in ptr_in).
#[export] Instance set_content_length_n : Setter content_length_n := ltac:(derive_setter eta_in content_length_n).
#[export] Instance set_cache_control : Setter cache_control := ltac:(derive_setter eta_in cache_control).
#[export] Instance set_connection_close : Setter connection_close := ltac:(derive_setter eta_in connection_close).
#[export] Instance set_chunked : Setter chunked := ltac:(derive_setter eta_in chunked).

(** The fields of [ngx_http_headers_out_t] that are written here; [arrays] are
    the fields that are arrays of pointers ([cache_control]).  [charset] is an
    offset into the value of [content_type] and a length. *)
Record ngx_http_headers_out_t := HeadersOut {
  out_headers : list ngx_table_elt_t;
  out_status : Z;
  out_status_line : list Z;
  ptr_out : out_field -> option nat;
  arrays : out_field -> list nat;
  override_charset : option nat;   (** the value of that header of [headers_in] *)
  content_type_len : Z;
  content_type : option (list Z);
  content_type_lowcase : option (list Z);
  charset : Z * Z;
  out_content_length_n : Z;
  last_modified_time : Z;
}.

Definition eta_out (o : ngx_http_headers_out_t) : ngx_http_headers_out_t :=
  HeadersOut (out_headers o) (out_status o) (out_status_line o) (ptr_out o) (arrays o) (override_charset o)
    (content_type_len o) (content_type o) (content_type_lowcase o) (charset o) (out_content_length_n o)
    (last_modified_time o).
#[export] Instance set_out_headers : Setter out_headers := ltac:(derive_setter eta_out out_headers).
#[export] Instance set_out_status : Setter out_status := ltac:(derive_setter eta_out out_status).
#[export] Instance set_out_status_line : Setter out_status_line := ltac:(derive_setter eta_out out_status_line).
#[export] Instance set_ptr_out : Setter ptr_out := ltac:(derive_setter eta_out ptr_out).
#[export] Instance set_arrays : Setter arrays := ltac:(derive_setter eta_out arrays).
#[export] Instance set_override_charset : Setter override_charset := ltac:(derive_setter eta_out override_charset).
#[export] Instance set_content_type_len : Setter content_type_len := ltac:(derive_setter eta_out content_type_len).
#[export] Instance set_content_type : Setter content_type := ltac:(derive_setter eta_out content_type).
#[export] Instance set_content_type_lowcase : Setter content_type_lowcase :=
  ltac:(derive_setter eta_out content_type_lowcase).
#[export] Instance set_charset : Setter charset := ltac:(derive_setter eta_out charset).
#[export] Instance set_out_content_length_n : Setter out_content_length_n :=
  ltac:(derive_setter eta_out out_content_length_n).
#[export] Instance set_last_modified_time : Setter last_modified_time :=
  ltac:(derive_setter eta_out last_modified_time).

(** The request and its upstream; [cache] is [r->cache], of which only
    [valid_sec] is used. *)
Record request := Request {
  headers_in : ngx_http_upstream_headers_in_t;   (** of the upstream *)
  cacheable : bool;
  buffering : bool;
  length_ : Z;   (** [u->length] *)
  cache : option Z;
  cached : bool;
  method : Z;
  limit_rate : Z;
  allow_ranges : bool;
  headers_out : ngx_http_headers_out_t;
}.

Definition eta_request (r : request) : request :=
  Request (headers_in r) (cacheable r) (buffering r) (length_ r) (cache r) (cached r) (method r) (limit_rate r)
    (allow_ranges r) (headers_out r).
#[export] Instance set_headers_in : Setter headers_in := ltac:(derive_setter eta_request headers_in).
#[export] Instance set_cacheable : Setter cacheable := ltac:(derive_setter eta_request cacheable).
#[export] Instance set_buffering : Setter buffering := ltac:(derive_setter eta_request buffering).
#[export] Instance set_length : Setter length_ := ltac:(derive_setter eta_request length_).
#[export] Instance set_cache : Setter cache := ltac:(derive_setter eta_request cache).
#[export] Instance set_cached : Setter cached := ltac:(derive_setter eta_request cached).
#[export] Instance set_method : Setter method := ltac:(derive_setter eta_request method).
#[export] Instance set_limit_rate : Setter limit_rate := ltac:(derive_setter eta_request limit_rate).
#[export] Instance set_allow_ranges : Setter allow_ranges := ltac:(derive_setter eta_request allow_ranges).
#[export] Instance set_headers_out : Setter headers_out := ltac:(derive_setter eta_request headers_out).

(** [ngx_http_upstream_conf_t], the fields used here; [hide_headers] are the
    elements of [hide_headers_hash]. *)
Record ngx_http_upstream_conf_t := Conf {
  ignore_headers : Z;
  change_buffering : bool;
  hide_headers : list (list Z * unit);
}.

Definition NGX_HTTP_UPSTREAM_IGN_XA_REDIRECT : Z := 0x00000002.
Definition NGX_HTTP_UPSTREAM_IGN_XA_EXPIRES : Z := 0x00000004.
Definition NGX_HTTP_UPSTREAM_IGN_EXPIRES : Z := 0x00000008.
Definition NGX_HTTP_UPSTREAM_IGN_CACHE_CONTROL : Z := 0x00000010.
Definition NGX_HTTP_UPSTREAM_IGN_SET_COOKIE : Z := 0x00000020.
Definition NGX_HTTP_UPSTREAM_IGN_XA_LIMIT_RATE : Z := 0x00000040.
Definition NGX_HTTP_UPSTREAM_IGN_XA_BUFFERING : Z := 0x00000080.
Definition NGX_HTTP_UPSTREAM_IGN_XA_CHARSET : Z := 0x00000100.

(** The code of the double quote. *)
Definition DQUOTE : Z := 34.

Definition NGX_HTTP_NOT_FOUND : Z := 404.
Definition NGX_HTTP_INTERNAL_SERVER_ERROR : Z := 500.

(** ** The nginx core *)

Class Core := {
  (** [ngx_atoi], [ngx_atoof]: -1 is [NGX_ERROR] *)
  ngx_atoi : list Z -> Z;
  ngx_atoof : list Z -> Z;
  (** [ngx_strlcasestrn (p, last, s, n)] in one memory; [ngx_strcasestrn (p, s, n)] *)
  ngx_strlcasestrn : list Z -> Z -> Z -> list Z -> Z -> option Z;
  ngx_strcasestrn : list Z -> list Z -> Z -> option Z;
  (** 0 when the first [n] bytes agree without regard to case *)
  ngx_strncasecmp : list Z -> list Z -> Z -> Z;
  ngx_path_separator : Z -> bool;
  ngx_time : Z;
  (** [ngx_hash_key_lc] of a name in lower case, and the value of the element of
      a hash with a key *)
  ngx_hash_key : list Z -> Z;
  ngx_hash_find : forall {A}, list (list Z * A) -> Z -> list Z -> option A;
  (** whether there is memory for one more element *)
  ngx_array_push : nat -> bool;
  ngx_list_push : nat -> bool;
  (** the callbacks of the module that made the upstream: what they answer, and
      the header they leave *)
  rewrite_redirect : option (ngx_table_elt_t -> Z -> ngx_rc * ngx_table_elt_t);
  rewrite_cookie : option (ngx_table_elt_t -> ngx_rc * ngx_table_elt_t);
}.

Section Headers.
Context {C : Core} (conf : ngx_http_upstream_conf_t).

Definition ignored (mask : Z) : bool := negb (Z.land (ignore_headers conf) mask =? 0).

(** [*h] for a header of [headers_in] *)
Definition elt (r : request) (h : nat) : ngx_table_elt_t := nth h (headers (headers_in r)) null_elt.

(** [u->headers_in.f = h] *)
Definition point_in (f : in_field) (h : nat) (r : request) : request :=
  r <| headers_in := (headers_in r) <| ptr_in := <[f := Some h]> (ptr_in (headers_in r)) |> |>.

(** [r->cache->valid_sec = n] *)
Definition set_valid_sec (n : Z) (r : request) : request := r <| cache := Some n |>.

Definition not_cacheable (r : request) : request := r <| cacheable := false |>.

(** ** Reading headers *)

Definition ngx_http_upstream_process_header_line (r : request) (h : nat) (offset : option in_field)
    : ngx_rc * request :=
  match offset with
  | Some f => match ptr_in (headers_in r) f with
              | None => (NGX_OK, point_in f h r)
              | Some _ => (NGX_OK, r)
              end
  | None => (NGX_OK, r)
  end.

Definition ngx_http_upstream_ignore_header_line (r : request) (h : nat) (offset : option in_field)
    : ngx_rc * request := (NGX_OK, r).

Definition ngx_http_upstream_process_content_length (r : request) (h : nat) (offset : option in_field)
    : ngx_rc * request :=
  let n := ngx_atoof (data (elt r h)) in
  let r := point_in in_content_length h r in
  (NGX_OK, r <| headers_in := (headers_in r) <| content_length_n := n |> |>).

Definition ngx_http_upstream_process_set_cookie (r : request) (h : nat) (offset : option in_field)
    : ngx_rc * request :=
  (NGX_OK, if ignored NGX_HTTP_UPSTREAM_IGN_SET_COOKIE then r else not_cacheable r).

(** The bytes after "max-age=", up to the end of the value; [None] is a byte
    that does not belong there. *)
Fixpoint max_age (n : Z) (s : list Z) : option Z :=
  match s with
  | [] => Some n
  | c :: s =>
      if (c =? ","%c) || (c =? ";"%c) || (c =? " "%c) then Some n
      else if is_digit c then max_age (swrap 64 (swrap 64 (swrap 64 (n * 10) + c) - "0"%c)) s
      else None
  end.

(** [ngx_strlcasestrn(p, last, s, sizeof(s) - 1 - 1)] on a whole value. *)
Definition find_in (v : list Z) (s : list Z) : option Z :=
  ngx_strlcasestrn v 0 (Z.of_nat (length v)) s (Z.of_nat (length s) - 1).

Definition contains (v : list Z) (s : list Z) : bool := bool_decide (is_Some (find_in v s)).

(** [valid_sec] as long as nothing set it. *)
Definition valid_sec_unset (r : request) : bool :=
  match cache r with Some valid_sec => valid_sec =? 0 | None => false end.

Definition cache_control_expiry (r : request) (v : list Z) : request :=
  if contains v (bytes_of "no-cache") || contains v (bytes_of "no-store") || contains v (bytes_of "private")
  then not_cacheable r
  else
    match find_in v (bytes_of "max-age=") with
    | None => r
    | Some p =>
        match max_age 0 (drop (Z.to_nat (p + 8)) v) with
        | None => not_cacheable r
        | Some n => if n =? 0 then not_cacheable r else set_valid_sec (swrap 64 (ngx_time + n)) r
        end
    end.

Definition ngx_http_upstream_process_cache_control (r : request) (h : nat) (offset : option in_field)
    : ngx_rc * request :=
  let pa := cache_control (headers_in r) in
  if negb (ngx_array_push (length pa)) then (NGX_ERROR, r)
  else
    let r := r <| headers_in := (headers_in r) <| cache_control := pa ++ [h] |> |> in
    if ignored NGX_HTTP_UPSTREAM_IGN_CACHE_CONTROL then (NGX_OK, r)
    else if negb (valid_sec_unset r) then (NGX_OK, r)
    else (NGX_OK, cache_control_expiry r (data (elt r h))).

Definition ngx_http_upstream_process_expires (r : request) (h : nat) (offset : option in_field)
    : ngx_rc * request :=
  let r := point_in in_expires h r in
  if ignored NGX_HTTP_UPSTREAM_IGN_EXPIRES then (NGX_OK, r)
  else if negb (valid_sec_unset r) then (NGX_OK, r)
  else
    match ParseTime.ngx_http_parse_time (data (elt r h)) with
    | ParseTime.Ok expires =>
        if expires <? ngx_time then (NGX_OK, not_cacheable r) else (NGX_OK, set_valid_sec expires r)
    | _ => (NGX_OK, not_cacheable r)
    end.

Definition ngx_http_upstream_process_accel_expires (r : request) (h : nat) (offset : option in_field)
    : ngx_rc * request :=
  let r := point_in in_x_accel_expires h r in
  if ignored NGX_HTTP_UPSTREAM_IGN_XA_EXPIRES then (NGX_OK, r)
  else if bool_decide (cache r = None) then (NGX_OK, r)
  else
    let v := data (elt r h) in
    if negb (rd v 0 =? "@"%c) then
      let n := ngx_atoi v in
      if n =? 0 then (NGX_OK, not_cacheable r)
      else if n =? -1 then (NGX_OK, r)
      else (NGX_OK, set_valid_sec (swrap 64 (ngx_time + n)) r)
    else
      let n := ngx_atoi (drop 1 v) in
      (NGX_OK, if negb (n =? -1) then set_valid_sec n r else r).

Definition ngx_http_upstream_process_limit_rate (r : request) (h : nat) (offset : option in_field)
    : ngx_rc * request :=
  let r := point_in in_x_accel_limit_rate h r in
  if ignored NGX_HTTP_UPSTREAM_IGN_XA_LIMIT_RATE then (NGX_OK, r)
  else
    let n := ngx_atoi (data (elt r h)) in
    (NGX_OK, if negb (n =? -1) then r <| limit_rate := wrap 64 n |> else r).

Definition ngx_http_upstream_process_buffering (r : request) (h : nat) (offset : option in_field)
    : ngx_rc * request :=
  if ignored NGX_HTTP_UPSTREAM_IGN_XA_BUFFERING then (NGX_OK, r)
  else if change_buffering conf then
    let v := data (elt r h) in
    if bool_decide (length v = 2%nat) then
      if (tolower (rd v 0) =? "n"%c) && (tolower (rd v 1) =? "o"%c)
      then (NGX_OK, r <| buffering := false |>) else (NGX_OK, r)
    else if bool_decide (length v = 3%nat) then
      if (tolower (rd v 0) =? "y"%c) && (tolower (rd v 1) =? "e"%c) && (tolower (rd v 2) =? "s"%c)
      then (NGX_OK, r <| buffering := true |>) else (NGX_OK, r)
    else (NGX_OK, r)
  else (NGX_OK, r).

Definition ngx_http_upstream_process_charset (r : request) (h : nat) (offset : option in_field)
    : ngx_rc * request :=
  if ignored NGX_HTTP_UPSTREAM_IGN_XA_CHARSET then (NGX_OK, r)
  else (NGX_OK, r <| headers_out := (headers_out r) <| override_charset := Some h |> |>).

Definition ngx_http_upstream_process_connection (r : request) (h : nat) (offset : option in_field)
    : ngx_rc * request :=
  let r := point_in in_connection h r in
  (NGX_OK, if contains (data (elt r h)) (bytes_of "close")
           then r <| headers_in := (headers_in r) <| connection_close := true |> |> else r).

Definition ngx_http_upstream_process_transfer_encoding (r : request) (h : nat) (offset : option in_field)
    : ngx_rc * request :=
  let r := point_in in_transfer_encoding h r in
  (NGX_OK, if contains (data (elt r h)) (bytes_of "chunked")
           then r <| headers_in := (headers_in r) <| chunked := true |> |> else r).

(** ** Copying headers *)

(** [ho = ngx_list_push(&r->headers_out.headers); *ho = *h], and what follows
    with the place of [ho]. *)
Definition push_header (r : request) (h : ngx_table_elt_t) (k : request -> nat -> ngx_rc * request)
    : ngx_rc * request :=
  let hs := out_headers (headers_out r) in
  if ngx_list_push (length hs)
  then k (r <| headers_out := (headers_out r) <| out_headers := hs ++ [h] |> |>) (length hs)
  else (NGX_ERROR, r).

(** [r->headers_out.f = ho] *)
Definition point_out (f : out_field) (ho : nat) (r : request) : request :=
  r <| headers_out := (headers_out r) <| ptr_out := <[f := Some ho]> (ptr_out (headers_out r)) |> |>.

Definition ngx_http_upstream_copy_header_line (r : request) (h : ngx_table_elt_t) (offset : option out_field)
    : ngx_rc * request :=
  push_header r h (fun r ho => (NGX_OK, match offset with Some f => point_out f ho r | None => r end)).

(** [ngx_http_upstream_ignore_header_line] in the place of a copy handler. *)
Definition ngx_http_upstream_ignore_header_copy (r : request) (h : ngx_table_elt_t) (offset : option out_field)
    : ngx_rc * request := (NGX_OK, r).

Definition ngx_http_upstream_copy_multi_header_lines (r : request) (h : ngx_table_elt_t)
    (offset : option out_field) : ngx_rc * request :=
  match offset with
  | Some f =>
      let pa := arrays (headers_out r) f in
      if negb (ngx_array_push (length pa)) then (NGX_ERROR, r)
      else
        push_header r h (fun r ho =>
          (NGX_OK, r <| headers_out := (headers_out r) <| arrays := <[f := pa ++ [ho]]> (arrays (headers_out r)) |> |>))
  | None => (NGX_OK, r)
  end.

(** [while ( *++p == ' ')] from the byte after [p], [n] bytes at most. *)
Fixpoint skip_spaces (v : list Z) (n : nat) (p : Z) : Z :=
  match n with
  | O => p
  | S n => if rd v p =? " "%c then skip_spaces v n (p + 1) else p
  end.

(** The [for] loop: where the ";" is and where the value of "charset=" starts. *)
Fixpoint find_charset (v : list Z) (n : nat) (p : Z) : option (Z * Z) :=
  match n with
  | O => None
  | S n =>
      let c := rd v p in
      if c =? NUL then None
      else if negb (c =? ";"%c) then find_charset v n (p + 1)
      else
        let q := skip_spaces v (length v) (p + 1) in
        if rd v q =? NUL then None
        else if negb (ngx_strncasecmp (drop (Z.to_nat q) v) (bytes_of "charset=") 8 =? 0)
        then find_charset v n (q + 1)
        else Some (p, q + 8)
  end.

Definition ngx_http_upstream_copy_content_type (r : request) (h : ngx_table_elt_t) (offset : option out_field)
    : ngx_rc * request :=
  let v := data h in
  let len := Z.of_nat (length v) in
  let o := (headers_out r) <| content_type_len := len |> <| content_type := value h |>
             <| content_type_lowcase := None |> in
  match find_charset v (length v) 0 with
  | None => (NGX_OK, r <| headers_out := o |>)
  | Some (semi, p) =>
      let p := if rd v p =? DQUOTE then p + 1 else p in
      let last := if rd v (len - 1) =? DQUOTE then len - 1 else len in
      (NGX_OK, r <| headers_out := o <| content_type_len := semi |> <| charset := (p, wrap 64 (last - p)) |> |>)
  end.

Definition parsed_time (v : list Z) : Z :=
  match ParseTime.ngx_http_parse_time v with ParseTime.Ok t => t | _ => -1 end.

Definition ngx_http_upstream_copy_last_modified (r : request) (h : ngx_table_elt_t) (offset : option out_field)
    : ngx_rc * request :=
  push_header r h (fun r ho =>
    let r := point_out out_last_modified ho r in
    (NGX_OK, if cacheable r
             then r <| headers_out := (headers_out r) <| last_modified_time := parsed_time (data h) |> |> else r)).

(** A callback on the header [ho], whose answer [k] sorts. *)
Definition rewritten (r : request) (ho : nat) (h : ngx_table_elt_t) : request :=
  r <| headers_out := (headers_out r) <| out_headers := <[ho := h]> (out_headers (headers_out r)) |> |>.

Definition ngx_http_upstream_rewrite_location (r : request) (h : ngx_table_elt_t) (offset : option out_field)
    : ngx_rc * request :=
  push_header r h (fun r ho =>
    match rewrite_redirect with
    | Some f =>
        let '(rc, h') := f h 0 in
        let r := rewritten r ho h' in
        match rc with
        | NGX_DECLINED => (NGX_OK, r)
        | NGX_OK => (NGX_OK, point_out out_location ho r)
        | rc => (rc, r)
        end
    | None => (NGX_OK, if negb (rd (data h) 0 =? "/"%c) then point_out out_location ho r else r)
    end).

Definition ngx_http_upstream_rewrite_refresh (r : request) (h : ngx_table_elt_t) (offset : option out_field)
    : ngx_rc * request :=
  push_header r h (fun r ho =>
    match rewrite_redirect with
    | Some f =>
        match ngx_strcasestrn (data h) (bytes_of "url=") (4 - 1) with
        | None => (NGX_OK, r)
        | Some p =>
            let '(rc, h') := f h (p + 4) in
            let r := rewritten r ho h' in
            match rc with
            | NGX_DECLINED => (NGX_OK, r)
            | NGX_OK => (NGX_OK, point_out out_refresh ho r)
            | rc => (rc, r)
            end
        end
    | None => (NGX_OK, point_out out_refresh ho r)
    end).

Definition ngx_http_upstream_rewrite_set_cookie (r : request) (h : ngx_table_elt_t) (offset : option out_field)
    : ngx_rc * request :=
  push_header r h (fun r ho =>
    match rewrite_cookie with
    | Some f =>
        let '(rc, h') := f h in
        let r := rewritten r ho h' in
        match rc with
        | NGX_DECLINED => (NGX_OK, r)
        | rc => (rc, r)
        end
    | None => (NGX_OK, r)
    end).

Definition ngx_http_upstream_copy_allow_ranges (r : request) (h : ngx_table_elt_t) (offset : option out_field)
    : ngx_rc * request :=
  if cached r then (NGX_OK, r <| allow_ranges := true |>)
  else push_header r h (fun r ho => (NGX_OK, point_out out_accept_ranges ho r)).

Definition ngx_http_upstream_copy_content_encoding (r : request) (h : ngx_table_elt_t) (offset : option out_field)
    : ngx_rc * request :=
  push_header r h (fun r ho => (NGX_OK, point_out out_content_encoding ho r)).

(** ** The table *)

(** [ngx_http_upstream_header_t] *)
Record ngx_http_upstream_header_t := Header {
  name : list Z;
  handler : request -> nat -> option in_field -> ngx_rc * request;
  offset : option in_field;
  copy_handler : request -> ngx_table_elt_t -> option out_field -> ngx_rc * request;
  copy_offset : option out_field;   (** [conf] *)
  redirect : bool;
}.

Definition ngx_http_upstream_headers_in : list ngx_http_upstream_header_t := [
  Header (bytes_of "Status") ngx_http_upstream_process_header_line (Some in_status)
         ngx_http_upstream_copy_header_line None false;
  Header (bytes_of "Content-Type") ngx_http_upstream_process_header_line (Some in_content_type)
         ngx_http_upstream_copy_content_type None true;
  Header (bytes_of "Content-Length") ngx_http_upstream_process_content_length (Some in_content_length)
         ngx_http_upstream_ignore_header_copy None false;
  Header (bytes_of "Date") ngx_http_upstream_process_header_line (Some in_date)
         ngx_http_upstream_copy_header_line (Some out_date) false;
  Header (bytes_of "Last-Modified") ngx_http_upstream_process_header_line (Some in_last_modified)
         ngx_http_upstream_copy_last_modified None false;
  Header (bytes_of "ETag") ngx_http_upstream_process_header_line (Some in_etag)
         ngx_http_upstream_copy_header_line (Some out_etag) false;
  Header (bytes_of "Server") ngx_http_upstream_process_header_line (Some in_server)
         ngx_http_upstream_copy_header_line (Some out_server) false;
  Header (bytes_of "WWW-Authenticate") ngx_http_upstream_process_header_line (Some in_www_authenticate)
         ngx_http_upstream_copy_header_line None false;
  Header (bytes_of "Location") ngx_http_upstream_process_header_line (Some in_location)
         ngx_http_upstream_rewrite_location None false;
  Header (bytes_of "Refresh") ngx_http_upstream_ignore_header_line None
         ngx_http_upstream_rewrite_refresh None false;
  Header (bytes_of "Set-Cookie") ngx_http_upstream_process_set_cookie None
         ngx_http_upstream_rewrite_set_cookie None true;
  Header (bytes_of "Content-Disposition") ngx_http_upstream_ignore_header_line None
         ngx_http_upstream_copy_header_line None true;
  Header (bytes_of "Cache-Control") ngx_http_upstream_process_cache_control None
         ngx_http_upstream_copy_multi_header_lines (Some out_cache_control) true;
  Header (bytes_of "Expires") ngx_http_upstream_process_expires None
         ngx_http_upstream_copy_header_line (Some out_expires) true;
  Header (bytes_of "Accept-Ranges") ngx_http_upstream_process_header_line (Some in_accept_ranges)
         ngx_http_upstream_copy_allow_ranges (Some out_accept_ranges) true;
  Header (bytes_of "Connection") ngx_http_upstream_process_connection None
         ngx_http_upstream_ignore_header_copy None false;
  Header (bytes_of "Keep-Alive") ngx_http_upstream_ignore_header_line None
         ngx_http_upstream_ignore_header_copy None false;
  Header (bytes_of "X-Powered-By") ngx_http_upstream_ignore_header_line None
         ngx_http_upstream_copy_header_line None false;
  Header (bytes_of "X-Accel-Expires") ngx_http_upstream_process_accel_expires None
         ngx_http_upstream_copy_header_line None false;
  Header (bytes_of "X-Accel-Redirect") ngx_http_upstream_process_header_line (Some in_x_accel_redirect)
         ngx_http_upstream_copy_header_line None false;
  Header (bytes_of "X-Accel-Limit-Rate") ngx_http_upstream_process_limit_rate None
         ngx_http_upstream_copy_header_line None false;
  Header (bytes_of "X-Accel-Buffering") ngx_http_upstream_process_buffering None
         ngx_http_upstream_copy_header_line None false;
  Header (bytes_of "X-Accel-Charset") ngx_http_upstream_process_charset None
         ngx_http_upstream_copy_header_line None false;
  Header (bytes_of "Transfer-Encoding") ngx_http_upstream_process_transfer_encoding None
         ngx_http_upstream_ignore_header_copy None false;
  Header (bytes_of "Content-Encoding") ngx_http_upstream_process_header_line (Some in_content_encoding)
         ngx_http_upstream_copy_content_encoding None false].

(** [umcf->headers_in_hash], as [ngx_http_upstream_init_main_conf] makes it. *)
Definition headers_in_hash : list (list Z * ngx_http_upstream_header_t) :=
  map (fun header => (name header, header)) ngx_http_upstream_headers_in.

Definition find_header (h : ngx_table_elt_t) : option ngx_http_upstream_header_t :=
  ngx_hash_find headers_in_hash (hash h) (lowcase_key h).

(** ** [ngx_http_upstream_process_headers] *)

Inductive effect :=
| Upstream_finalized (rc : ngx_rc)   (** [ngx_http_upstream_finalize_request] *)
| Finalized (rc : ngx_rc)   (** [ngx_http_finalize_request] *)
| Internal_redirect (uri args : list Z).   (** [ngx_http_internal_redirect] *)

(** The loop of a redirect. *)
Fixpoint copy_redirected (hs : list ngx_table_elt_t) (r : request) : ngx_rc * request :=
  match hs with
  | [] => (NGX_OK, r)
  | h :: hs =>
      match find_header h with
      | Some hh =>
          if redirect hh then
            match copy_handler hh r h (copy_offset hh) with
            | (NGX_OK, r) => copy_redirected hs r
            | (_, r) => (NGX_ERROR, r)
            end
          else copy_redirected hs r
      | None => copy_redirected hs r
      end
  end.

Definition hidden (h : ngx_table_elt_t) : bool :=
  bool_decide (is_Some (ngx_hash_find (hide_headers conf) (hash h) (lowcase_key h))).

(** The loop of a response that is passed on. *)
Fixpoint copy_passed (hs : list ngx_table_elt_t) (r : request) : ngx_rc * request :=
  match hs with
  | [] => (NGX_OK, r)
  | h :: hs =>
      if hidden h then copy_passed hs r
      else
        let res := match find_header h with
                   | Some hh => copy_handler hh r h (copy_offset hh)
                   | None => ngx_http_upstream_copy_header_line r h None
                   end in
        match res with
        | (NGX_OK, r) => copy_passed hs r
        | (_, r) => (NGX_ERROR, r)
        end
  end.

(** A header with NULL data only stands for the absence of one. *)
Definition disable_null (f : out_field) (r : request) : request :=
  match ptr_out (headers_out r) f with
  | Some ho =>
      let h := nth ho (out_headers (headers_out r)) null_elt in
      if bool_decide (value h = None) then rewritten r ho (h <| hash := 0 |>) else r
  | None => r
  end.

(** The path with a redirect: [p] is the header "X-Accel-Redirect". *)
Definition redirect_headers (r : request) (p : nat) : list effect * ngx_rc * request :=
  let head := [Upstream_finalized NGX_DECLINED] in
  match copy_redirected (headers (headers_in r)) r with
  | (NGX_OK, r) =>
      let v := data (elt r p) in
      match UriUtil.ngx_http_parse_unsafe_uri v ngx_path_separator (UriUtil.Str 0 (Z.of_nat (length v))) with
      | None => (head ++ [Finalized (Code NGX_HTTP_NOT_FOUND)], NGX_DONE, r)
      | Some (uri, args) =>
          let uri := UriUtil.text v uri in
          let args := match args with Some args => UriUtil.text v args | None => [] end in
          let r := r <| headers_in := (headers_in r)
                          <| headers := <[p := (elt r p) <| value := Some uri |>]> (headers (headers_in r)) |> |> in
          let r := if negb (method r =? NGX_HTTP_HEAD) then r <| method := NGX_HTTP_GET |> else r in
          (head ++ [Internal_redirect uri args; Finalized NGX_DONE], NGX_DONE, r)
      end
  | (_, r) => (head ++ [Finalized (Code NGX_HTTP_INTERNAL_SERVER_ERROR)], NGX_DONE, r)
  end.

Definition pass_headers (r : request) : list effect * ngx_rc * request :=
  match copy_passed (headers (headers_in r)) r with
  | (NGX_OK, r) =>
      let r := disable_null out_date (disable_null out_server r) in
      let i := headers_in r in
      let r := r <| headers_out := (headers_out r) <| out_status := status_n i |>
                      <| out_status_line := status_line i |> <| out_content_length_n := content_length_n i |> |> in
      ([], NGX_OK, r <| length_ := -1 |>)
  | (_, r) => ([Upstream_finalized (Code NGX_HTTP_INTERNAL_SERVER_ERROR)], NGX_DONE, r)
  end.

Definition ngx_http_upstream_process_headers (r : request) : list effect * ngx_rc * request :=
  match ptr_in (headers_in r) in_x_accel_redirect with
  | Some p => if ignored NGX_HTTP_UPSTREAM_IGN_XA_REDIRECT then pass_headers r else redirect_headers r p
  | None => pass_headers r
  end.
End Headers.

End UpstreamHeaders.
