(* ===== verification/UpstreamHeadersFacts.v ===== *)
(** * What the headers of an upstream response do: lemmas

    The documented behaviour of what the nginx core and the modules contribute,
    the type of the records (every pointer to a header names a header of its
    field), and what each row of the table does when its header is read and when
    it is copied. *)

From stdpp Require Import functions.
From S2P Require Import Prelude Scan Request ParseTime UriUtil UpstreamHeaders.

Module UpstreamHeadersFacts.
Import UpstreamHeaders.

Definition strlow (n : list Z) : list Z := map tolower n.

(** A header as it was parsed: its lower-cased name and the hash of it. *)
Definition elt_ok {C : Core} (h : ngx_table_elt_t) : Prop :=
  lowcase_key h = strlow (key h) /\ hash h = ngx_hash_key (lowcase_key h).

(** What a callback may change of a header is its value. *)
Definition same_name (h h' : ngx_table_elt_t) : Prop :=
  hash h' = hash h /\ key h' = key h /\ lowcase_key h' = lowcase_key h /\ (value h' = None <-> value h = None).

(** The documented behaviour of [ngx_hash_find] on a hash of names that differ,
    and of the callbacks. *)
Class CoreOk {C : Core} : Prop := {
  hash_find {A} (elts : list (list Z * A)) n (a : A) :
    NoDup (map (fun e => strlow e.1) elts) ->
    ngx_hash_find elts (ngx_hash_key n) n = Some a <-> exists m, (m, a) ∈ elts /\ strlow m = n;
  redirect_same_name f h p : rewrite_redirect = Some f -> same_name h (f h p).2;
  cookie_same_name f h : rewrite_cookie = Some f -> same_name h (f h).2;
}.

Lemma same_name_refl h : same_name h h.
Proof. done. Qed.
#[export] Hint Resolve same_name_refl : http.

(** ** The table *)

Definition in_name (f : in_field) : list Z :=
  match f with
  | in_status => bytes_of "status" | in_date => bytes_of "date" | in_server => bytes_of "server"
  | in_connection => bytes_of "connection" | in_expires => bytes_of "expires" | in_etag => bytes_of "etag"
  | in_x_accel_expires => bytes_of "x-accel-expires" | in_x_accel_redirect => bytes_of "x-accel-redirect"
  | in_x_accel_limit_rate => bytes_of "x-accel-limit-rate" | in_content_type => bytes_of "content-type"
  | in_content_length => bytes_of "content-length" | in_last_modified => bytes_of "last-modified"
  | in_location => bytes_of "location" | in_accept_ranges => bytes_of "accept-ranges"
  | in_www_authenticate => bytes_of "www-authenticate" | in_transfer_encoding => bytes_of "transfer-encoding"
  | in_content_encoding => bytes_of "content-encoding"
  end.

Definition out_name (f : out_field) : list Z :=
  match f with
  | out_date => bytes_of "date" | out_etag => bytes_of "etag" | out_server => bytes_of "server"
  | out_cache_control => bytes_of "cache-control" | out_expires => bytes_of "expires"
  | out_accept_ranges => bytes_of "accept-ranges" | out_last_modified => bytes_of "last-modified"
  | out_location => bytes_of "location" | out_refresh => bytes_of "refresh"
  | out_content_encoding => bytes_of "content-encoding" | out_www_authenticate => bytes_of "www-authenticate"
  end.

(** ** The type of the records *)

(** [p] is a header of that name in the list. *)
Definition points (hs : list ngx_table_elt_t) (n : list Z) (p : nat) : Prop :=
  exists h, hs !! p = Some h /\ lowcase_key h = n.

Record typed_in {C : Core} (i : ngx_http_upstream_headers_in_t) : Prop := {
  in_elts : Forall elt_ok (headers i);
  in_ptrs f p : ptr_in i f = Some p -> points (headers i) (in_name f) p;
  in_cache : Forall (points (headers i) (bytes_of "cache-control")) (cache_control i);
}.

Record typed_out (hs : list ngx_table_elt_t) (o : ngx_http_headers_out_t) : Prop := {
  out_ptrs f p : ptr_out o f = Some p -> points (out_headers o) (out_name f) p;
  out_arrays f : Forall (points (out_headers o) (out_name f)) (arrays o f);
  out_charset p : override_charset o = Some p -> points hs (bytes_of "x-accel-charset") p;
  out_type : 0 <= content_type_len o <= Z.of_nat (length (default [] (content_type o)));
}.

Definition well_typed {C : Core} (r : request) : Prop :=
  typed_in (headers_in r) /\ typed_out (headers (headers_in r)) (headers_out r).

Lemma points_app hs hs' n p : points hs n p -> points (hs ++ hs') n p.
Proof. intros (h & E & Hn). exists h. split; [by apply lookup_app_l_Some | done]. Qed.

Lemma points_last hs h : points (hs ++ [h]) (lowcase_key h) (length hs).
Proof. exists h. split; [|done]. rewrite lookup_app_r, Nat.sub_diag by lia. done. Qed.

Lemma points_insert hs i h n p : (forall h0, hs !! i = Some h0 -> lowcase_key h = lowcase_key h0) ->
  points hs n p -> points (<[i := h]> hs) n p.
Proof.
  intros Hk (h1 & E & Hn). destruct (decide (i = p)) as [->|Hi].
  - exists h. split; [apply list_lookup_insert_eq; by eapply lookup_lt_Some|]. rewrite <- Hn. by apply Hk.
  - exists h1. by rewrite list_lookup_insert_ne.
Qed.
#[export] Hint Resolve points_app : http.

Lemma points_elt r n p : points (headers (headers_in r)) n p -> lowcase_key (elt r p) = n.
Proof. intros (h & E & <-). unfold elt. by rewrite nth_lookup, E. Qed.

Section Typed.
Context {C : Core}.

Lemma typed_out_push hs o h : typed_out hs o -> typed_out hs (o <| out_headers := out_headers o ++ [h] |>).
Proof.
  intros [P A K T]. split; cbn; [..|exact K|exact T].
  - intros f p E. apply points_app, P, E.
  - intros f. eapply Forall_impl; [|apply A]. intros p. apply points_app.
Qed.

Lemma typed_point_out r f p : points (out_headers (headers_out r)) (out_name f) p ->
  well_typed r -> well_typed (point_out f p r).
Proof.
  intros Hp [Hi [P A K T]]. split; [exact Hi|]. split; cbn; [|exact A|exact K|exact T].
  intros g q. destruct (decide (f = g)) as [->|Hg].
  - rewrite fn_lookup_insert. by intros [= <-].
  - rewrite fn_lookup_insert_ne by done. apply P.
Qed.

Lemma typed_point_in r f p : points (headers (headers_in r)) (in_name f) p ->
  well_typed r -> well_typed (point_in f p r).
Proof.
  intros Hp [[E P K] Ho]. split; [|exact Ho]. split; cbn; [exact E| |exact K].
  intros g q. destruct (decide (f = g)) as [->|Hg].
  - rewrite fn_lookup_insert. by intros [= <-].
  - rewrite fn_lookup_insert_ne by done. apply P.
Qed.

Lemma typed_rewritten r p h :
  (forall h0, out_headers (headers_out r) !! p = Some h0 -> lowcase_key h = lowcase_key h0) ->
  well_typed r -> well_typed (rewritten r p h).
Proof.
  intros Hh [Hi [P A K T]]. split; [exact Hi|]. split; cbn; [..|exact K|exact T].
  - intros f q E. by apply points_insert, P.
  - intros f. eapply Forall_impl; [|apply A]. intros q. by apply points_insert.
Qed.

(** ** Reading a header *)

(** What reading leaves: the type, and the list of headers. *)
Definition reads (r r' : request) : Prop :=
  well_typed r' /\ headers (headers_in r') = headers (headers_in r).

Lemma reads_same r r' r'' : headers_in r'' = headers_in r' -> headers_out r'' = headers_out r' ->
  reads r r' -> reads r r''.
Proof. unfold reads, well_typed. by intros -> ->. Qed.

Lemma reads_refl r : well_typed r -> reads r r.
Proof. done. Qed.

Lemma reads_point_in r f p : well_typed r -> points (headers (headers_in r)) (in_name f) p -> reads r (point_in f p r).
Proof. intros Hr Hp. split; [by apply typed_point_in | done]. Qed.

(** Fields of [headers_in] that are not pointers. *)
Lemma reads_in_same r r' i : headers i = headers (headers_in r') -> ptr_in i = ptr_in (headers_in r') ->
  cache_control i = cache_control (headers_in r') -> reads r r' -> reads r (r' <| headers_in := i |>).
Proof.
  intros E1 E2 E3 [[[I1 I2 I3] Ho] Hh]. split; [|cbn; by rewrite E1]. split; cbn.
  - split; rewrite ?E1, ?E2, ?E3; done.
  - by rewrite E1.
Qed.

Lemma expiry_fields r v : headers_in (cache_control_expiry r v) = headers_in r
  /\ headers_out (cache_control_expiry r v) = headers_out r.
Proof. unfold cache_control_expiry. split_ifs; [done|]. destruct find_in; [|done]. destruct max_age; [|done]. by split_ifs. Qed.

Variable conf : ngx_http_upstream_conf_t.

Lemma reads_header_line r p f : well_typed r -> points (headers (headers_in r)) (in_name f) p ->
  reads r (ngx_http_upstream_process_header_line r p (Some f)).2.
Proof.
  intros Hr Hp. unfold ngx_http_upstream_process_header_line. destruct (ptr_in (headers_in r) f); [done|].
  by apply reads_point_in.
Qed.

Lemma reads_cache_control r p o : well_typed r -> points (headers (headers_in r)) (bytes_of "cache-control") p ->
  reads r (ngx_http_upstream_process_cache_control conf r p o).2.
Proof.
  intros Hr Hp. unfold ngx_http_upstream_process_cache_control. destruct negb; [done|].
  match goal with |- context [elt ?x] => set (r1 := x) end.
  assert (H1 : reads r r1).
  { destruct Hr as [[E P K] Ho]. split; [|done]. split; [|exact Ho].
    split; cbn; [exact E | exact P |]. apply Forall_app_2; [exact K|]. by constructor. }
  destruct (ignored conf _); [done|]. destruct negb; [done|]. cbn.
  eapply reads_same; [apply expiry_fields .. | done].
Qed.

Lemma reads_expires r p o : well_typed r -> points (headers (headers_in r)) (bytes_of "expires") p ->
  reads r (ngx_http_upstream_process_expires conf r p o).2.
Proof.
  intros Hr Hp. pose proof (reads_point_in r in_expires p Hr Hp).
  unfold ngx_http_upstream_process_expires. destruct (ignored conf _); [done|]. destruct negb; [done|].
  destruct ParseTime.ngx_http_parse_time; [|by eapply reads_same..]. destruct Z.ltb; by eapply reads_same.
Qed.

Lemma reads_accel_expires r p o : well_typed r -> points (headers (headers_in r)) (bytes_of "x-accel-expires") p ->
  reads r (ngx_http_upstream_process_accel_expires conf r p o).2.
Proof.
  intros Hr Hp. pose proof (reads_point_in r in_x_accel_expires p Hr Hp).
  unfold ngx_http_upstream_process_accel_expires. split_ifs; by eapply reads_same.
Qed.

Lemma reads_limit_rate r p o : well_typed r -> points (headers (headers_in r)) (bytes_of "x-accel-limit-rate") p ->
  reads r (ngx_http_upstream_process_limit_rate conf r p o).2.
Proof.
  intros Hr Hp. pose proof (reads_point_in r in_x_accel_limit_rate p Hr Hp).
  unfold ngx_http_upstream_process_limit_rate. split_ifs; by eapply reads_same.
Qed.

Lemma reads_buffering r p o : well_typed r -> reads r (ngx_http_upstream_process_buffering conf r p o).2.
Proof. intros Hr. unfold ngx_http_upstream_process_buffering. split_ifs; by eapply reads_same. Qed.

Lemma reads_charset r p o : well_typed r -> points (headers (headers_in r)) (bytes_of "x-accel-charset") p ->
  reads r (ngx_http_upstream_process_charset conf r p o).2.
Proof.
  intros Hr Hp. unfold ngx_http_upstream_process_charset. destruct ignored; [done|].
  destruct Hr as [Hi [P A K T]]. split; [|done]. split; [exact Hi|]. split; cbn; [exact P | exact A | | exact T].
  by intros q [= <-].
Qed.

Lemma reads_length r p o : well_typed r -> points (headers (headers_in r)) (bytes_of "content-length") p ->
  reads r (ngx_http_upstream_process_content_length r p o).2.
Proof. intros Hr Hp. apply reads_in_same; [done..|]. by apply reads_point_in. Qed.

Lemma reads_connection r p o : well_typed r -> points (headers (headers_in r)) (bytes_of "connection") p ->
  reads r (ngx_http_upstream_process_connection r p o).2.
Proof.
  intros Hr Hp. unfold ngx_http_upstream_process_connection. pose proof (reads_point_in r in_connection p Hr Hp).
  destruct contains; [|done]. by apply reads_in_same.
Qed.

Lemma reads_transfer_encoding r p o : well_typed r ->
  points (headers (headers_in r)) (bytes_of "transfer-encoding") p ->
  reads r (ngx_http_upstream_process_transfer_encoding r p o).2.
Proof.
  intros Hr Hp. unfold ngx_http_upstream_process_transfer_encoding.
  pose proof (reads_point_in r in_transfer_encoding p Hr Hp).
  destruct contains; [|done]. by apply reads_in_same.
Qed.

Lemma reads_set_cookie r p o : well_typed r -> reads r (ngx_http_upstream_process_set_cookie conf r p o).2.
Proof. intros Hr. unfold ngx_http_upstream_process_set_cookie. split_ifs; by eapply reads_same. Qed.

Create HintDb upstream.
#[local] Hint Resolve reads_header_line reads_cache_control reads_expires reads_accel_expires reads_limit_rate
  reads_buffering reads_charset reads_length reads_connection reads_transfer_encoding reads_set_cookie reads_refl : upstream.

(** The handler of a row of the table, on a header of its name. *)
Lemma handler_reads hh r p : hh ∈ ngx_http_upstream_headers_in conf -> well_typed r ->
  points (headers (headers_in r)) (strlow (name hh)) p -> reads r (handler hh r p (offset hh)).2.
Proof.
  intros Hh Hr. revert hh Hh. refine (proj1 (list.Forall_forall (fun hh => points (headers (headers_in r))
    (strlow (name hh)) p -> reads r (handler hh r p (offset hh)).2) _) _).
  unfold ngx_http_upstream_headers_in.
  repeat (apply Forall_cons; [cbn [name handler offset]; intros Hp; try by eauto with upstream|]); [..|apply Forall_nil].
  all: match goal with |- reads _ (ngx_http_upstream_process_header_line _ _ (Some ?f)).2 =>
    by apply (reads_header_line r p f) end.
Qed.
End Typed.

(** ** Copying a header *)

(** What the client gets of a header that is not hidden. *)
Inductive treatment := Dropped | Ranges | Location | Refresh | Set_cookie | Copied.

#[export] Instance treatment_eq_dec : EqDecision treatment.
Proof. solve_decision. Defined.

Definition treatments : list (list Z * treatment) := [
  (bytes_of "content-type", Dropped); (bytes_of "content-length", Dropped); (bytes_of "connection", Dropped);
  (bytes_of "keep-alive", Dropped); (bytes_of "transfer-encoding", Dropped); (bytes_of "accept-ranges", Ranges);
  (bytes_of "location", Location); (bytes_of "refresh", Refresh); (bytes_of "set-cookie", Set_cookie)].

Fixpoint treatment_in (l : list (list Z * treatment)) (n : list Z) : treatment :=
  match l with
  | [] => Copied
  | (m, t) :: l => if bool_decide (m = n) then t else treatment_in l n
  end.

Definition treatment_of (h : ngx_table_elt_t) : treatment := treatment_in treatments (lowcase_key h).

Definition redirected_value {C : Core} (h : ngx_table_elt_t) (prefix : Z) : ngx_table_elt_t :=
  match rewrite_redirect with Some f => (f h prefix).2 | None => h end.

(** The header that is sent; [c] is whether the response comes from the cache. *)
Definition sent {C : Core} (c : bool) (h : ngx_table_elt_t) : option ngx_table_elt_t :=
  match treatment_of h with
  | Dropped => None
  | Ranges => if c then None else Some h
  | Location => Some (redirected_value h 0)
  | Refresh => Some (match ngx_strcasestrn (data h) (bytes_of "url=") 3 with
                     | Some p => redirected_value h (p + 4)
                     | None => h
                     end)
  | Set_cookie => Some (match rewrite_cookie with Some f => (f h).2 | None => h end)
  | Copied => Some h
  end.

(** There is memory, and the callbacks do not fail. *)
Definition answers (rc : ngx_rc) : Prop := rc = NGX_OK \/ rc = NGX_DECLINED.

Record no_failure {C : Core} : Prop := {
  array_memory n : ngx_array_push n = true;
  list_memory n : ngx_list_push n = true;
  redirect_answers f h p : rewrite_redirect = Some f -> answers (f h p).1;
  cookie_answers f h : rewrite_cookie = Some f -> answers (f h).1;
}.

(** [r'] has [hs] more to send than [r]; nothing of the upstream's side was
    touched, and the type is kept. *)
Record extends {C : Core} (r r' : request) (hs : list ngx_table_elt_t) : Prop := {
  ext_in : headers_in r' = headers_in r;
  ext_cached : cached r' = cached r;
  ext_method : method r' = method r;
  ext_headers : out_headers (headers_out r') = out_headers (headers_out r) ++ hs;
  ext_typed : well_typed r -> well_typed r';
}.

(** What a copy handler does with a header. *)
Definition copies {C : Core} (r : request) (h : ngx_table_elt_t) (res : ngx_rc * request) : Prop :=
  (exists hs, extends r res.2 hs /\ (res.1 = NGX_OK -> hs = option_list (sent (cached r) h)))
  /\ (no_failure -> res.1 = NGX_OK).

Section Copies.
Context `{CoreOk} (conf : ngx_http_upstream_conf_t).

Lemma header_extends_refl r : extends r r [].
Proof. split; [done..| by rewrite app_nil_r | done]. Qed.

Lemma header_extends_trans r r1 r2 hs hs' : extends r r1 hs -> extends r1 r2 hs' -> extends r r2 (hs ++ hs').
Proof.
  intros [A1 A2 A3 A4 A5] [B1 B2 B3 B4 B5]. split; [congruence..| |auto]. by rewrite B4, A4, app_assoc.
Qed.

Lemma extends_same r r1 r2 hs : headers_in r2 = headers_in r1 -> headers_out r2 = headers_out r1 ->
  cached r2 = cached r1 -> method r2 = method r1 -> extends r r1 hs -> extends r r2 hs.
Proof.
  intros E1 E2 E3 E4 [A1 A2 A3 A4 A5]. split; [congruence..|]. unfold well_typed in *. by rewrite E1, E2.
Qed.

Lemma extends_point_out r r1 h f : lowcase_key h = out_name f -> extends r r1 [h] ->
  extends r (point_out f (length (out_headers (headers_out r))) r1) [h].
Proof.
  intros Hn [A1 A2 A3 A4 A5]. split; [done..|]. intros Hr. apply typed_point_out; [|auto].
  rewrite A4, <- Hn. apply points_last.
Qed.

Lemma extends_rewritten r r1 h h' : lowcase_key h' = lowcase_key h -> extends r r1 [h] ->
  extends r (rewritten r1 (length (out_headers (headers_out r))) h') [h'].
Proof.
  intros Hn [A1 A2 A3 A4 A5]. split; [done..| |].
  - cbn. rewrite A4, insert_app_r_alt, Nat.sub_diag by lia. done.
  - intros Hr. apply typed_rewritten; [|auto]. rewrite A4. intros h0.
    rewrite lookup_app_r, Nat.sub_diag by lia. by intros [= <-].
Qed.

(** A handler that pushes the header and goes on with [k]. *)
Lemma copies_push r h k :
  (forall r1, extends r r1 [h] ->
     (exists hs, extends r (k r1 (length (out_headers (headers_out r)))).2 hs
        /\ ((k r1 (length (out_headers (headers_out r)))).1 = NGX_OK -> hs = option_list (sent (cached r) h)))
     /\ (no_failure -> (k r1 (length (out_headers (headers_out r)))).1 = NGX_OK)) ->
  copies r h (push_header r h k).
Proof.
  intros Hk. unfold push_header. destruct ngx_list_push eqn:E.
  - apply Hk. split; [done..|]. intros [Hi Ho]. split; [done|]. by apply typed_out_push.
  - split; [exists []; split; [apply header_extends_refl | done]|]. intros F. by rewrite (list_memory F) in E.
Qed.

(** A push and a step that cannot fail. *)
Lemma copies_pure r h f :
  sent (cached r) h = Some h ->
  (forall r1, extends r r1 [h] -> extends r (f r1 (length (out_headers (headers_out r)))) [h]) ->
  copies r h (push_header r h (fun r ho => (NGX_OK, f r ho))).
Proof.
  intros Hs Hf. apply copies_push. intros r1 H1. split; [|done]. exists [h]. split; [by apply Hf|]. by rewrite Hs.
Qed.

(** A callback's answer. *)
Lemma copies_answer r h h' rc (k : request) r1 : sent (cached r) h = Some h' -> lowcase_key h' = lowcase_key h ->
  (no_failure -> answers rc) ->
  extends r r1 [h] ->
  extends r k [h'] ->
  let r2 := rewritten r1 (length (out_headers (headers_out r))) h' in
  let res := match rc with NGX_DECLINED => (NGX_OK, r2) | NGX_OK => (NGX_OK, k) | rc => (rc, r2) end in
  (exists hs, extends r res.2 hs /\ (res.1 = NGX_OK -> hs = option_list (sent (cached r) h)))
  /\ (no_failure -> res.1 = NGX_OK).
Proof.
  intros Hs Hl Ha H1 Hk r2. assert (H2 : extends r r2 [h']) by by apply (extends_rewritten _ _ h).
  split.
  - exists [h']. rewrite Hs. destruct rc; cbn; eauto.
  - intros F. by destruct (Ha F) as [-> | ->].
Qed.

(** *** The handlers *)

Lemma copy_line r h f : sent (cached r) h = Some h -> (forall g, f = Some g -> lowcase_key h = out_name g) ->
  copies r h (ngx_http_upstream_copy_header_line r h f).
Proof.
  intros Hs Hf. apply copies_pure; [done|]. intros r1 H1. destruct f as [g|]; [|done].
  apply extends_point_out; auto.
Qed.

Lemma copy_dropped r h o : sent (cached r) h = None -> copies r h (ngx_http_upstream_ignore_header_copy r h o).
Proof. intros Hs. split; [|done]. exists []. rewrite Hs. split; [apply header_extends_refl | done]. Qed.

Lemma copy_multi r h f : sent (cached r) h = Some h -> lowcase_key h = out_name f ->
  copies r h (ngx_http_upstream_copy_multi_header_lines r h (Some f)).
Proof.
  intros Hs Hn. unfold ngx_http_upstream_copy_multi_header_lines.
  destruct ngx_array_push eqn:E; cbn [negb].
  - apply copies_pure; [done|]. intros r1 [A1 A2 A3 A4 A5]. split; [done..|].
    intros Hr. destruct (A5 Hr) as [Hi [P A K T]]. split; [exact Hi|].
    split; [exact P| |exact K | exact T]. intros g. cbn. destruct (decide (f = g)) as [->|Hg].
    + rewrite fn_lookup_insert. apply Forall_app_2.
      * destruct Hr as [_ [_ B _ _]]. eapply Forall_impl; [|apply B]. intros q. rewrite A4. apply points_app.
      * constructor; [|done]. rewrite A4, <- Hn. apply points_last.
    + rewrite fn_lookup_insert_ne by done. apply A.
  - split; [exists []; split; [apply header_extends_refl | done]|]. intros F. by rewrite (array_memory F) in E.
Qed.

Lemma find_charset_before v n p semi q : 0 <= p -> find_charset v n p = Some (semi, q) ->
  p <= semi < Z.of_nat (length v).
Proof.
  revert p. induction n as [|n IH]; [done|]. intros p Hp. cbn [find_charset].
  assert (Hskip : forall k p0, p0 <= skip_spaces v k p0).
  { induction k as [|k IHk]; [cbn; lia|]. intros p0. cbn. destruct Z.eqb; [|lia]. specialize (IHk (p0 + 1)). lia. }
  assert (Hrd : rd v p <> 0 -> p < Z.of_nat (length v)).
  { intros Hc. destruct (decide (p < Z.of_nat (length v))); [done|]. destruct Hc. unfold rd. rewrite nth_overflow; lia. }
  pose proof (Hskip (length v) (p + 1)).
  split_ifs; [done|..].
  - intros E'%IH; lia.
  - done.
  - intros E'%IH; lia.
  - b2p. intros [= <- <-]. lia.
Qed.

Lemma copy_content_type r h o : sent (cached r) h = None -> copies r h (ngx_http_upstream_copy_content_type r h o).
Proof.
  intros Hs. unfold ngx_http_upstream_copy_content_type.
  assert (Hout : forall o', out_headers o' = out_headers (headers_out r) -> ptr_out o' = ptr_out (headers_out r) ->
    arrays o' = arrays (headers_out r) -> override_charset o' = override_charset (headers_out r) ->
    0 <= content_type_len o' <= Z.of_nat (length (default [] (content_type o'))) ->
    copies r h (NGX_OK, r <| headers_out := o' |>)).
  { intros o' E1 E2 E3 E4 T'. split; [|done]. exists []. rewrite Hs. split; [|done].
    split; [done..| by rewrite app_nil_r |]. intros [Hi [P A K T]]. split; [exact Hi|].
    split; cbn; rewrite ?E1, ?E2, ?E3, ?E4; done. }
  destruct find_charset as [[semi p]|] eqn:E; apply Hout; try done; cbn.
  - apply find_charset_before in E; [|lia]. unfold data in *. lia.
  - unfold data. lia.
Qed.

Lemma copy_last_modified r h o : sent (cached r) h = Some h -> lowcase_key h = out_name out_last_modified ->
  copies r h (ngx_http_upstream_copy_last_modified r h o).
Proof.
  intros Hs Hn. apply copies_pure; [done|]. intros r1 H1.
  pose proof (extends_point_out _ _ _ _ Hn H1) as H2. destruct cacheable; [|done].
  destruct H2 as [A1 A2 A3 A4 A5]. split; [done..|]. intros Hr. destruct (A5 Hr) as [Hi [P A K T]]. by split.
Qed.

Lemma copy_location r h o : treatment_of h = Location -> lowcase_key h = out_name out_location ->
  copies r h (ngx_http_upstream_rewrite_location r h o).
Proof.
  intros Ht Hn. unfold ngx_http_upstream_rewrite_location. apply copies_push. intros r1 H1.
  assert (Hs : sent (cached r) h = Some (redirected_value h 0)) by (unfold sent; by rewrite Ht).
  unfold redirected_value in Hs. destruct rewrite_redirect as [f|] eqn:Ef.
  - destruct (redirect_same_name f h 0 Ef) as (_ & _ & Hl & _).
    pose proof (fun F : no_failure => redirect_answers F f h 0 Ef) as Ha.
    destruct (f h 0) as [rc h']. cbn [fst snd] in *.
    apply (copies_answer r h h' rc (point_out _ _ (rewritten r1 _ h'))); try done.
    apply extends_point_out; [congruence|]. by apply (extends_rewritten _ _ h).
  - split; [|done]. exists [h]. rewrite Hs. split; [|done]. destruct negb; [|done]. by apply extends_point_out.
Qed.

Lemma copy_refresh r h o : treatment_of h = Refresh -> lowcase_key h = out_name out_refresh ->
  copies r h (ngx_http_upstream_rewrite_refresh r h o).
Proof.
  intros Ht Hn. unfold ngx_http_upstream_rewrite_refresh. apply copies_push. intros r1 H1.
  pose proof (eq_refl (sent (cached r) h)) as Hs. unfold sent in Hs at 2. rewrite Ht in Hs. unfold redirected_value in Hs.
  destruct rewrite_redirect as [f|] eqn:Ef.
  - change (4 - 1) with 3. destruct ngx_strcasestrn as [p|] eqn:Ep.
    + destruct (redirect_same_name f h (p + 4) Ef) as (_ & _ & Hl & _).
      pose proof (fun F : no_failure => redirect_answers F f h (p + 4) Ef) as Ha.
      destruct (f h (p + 4)) as [rc h']. cbn [fst snd] in *.
      apply (copies_answer r h h' rc (point_out _ _ (rewritten r1 _ h'))); try done.
      apply extends_point_out; [congruence|]. by apply (extends_rewritten _ _ h).
    + split; [|done]. exists [h]. by rewrite Hs.
  - split; [|done]. exists [h]. rewrite Hs. split; [by apply extends_point_out|]. by destruct ngx_strcasestrn.
Qed.

Lemma copy_set_cookie r h o : treatment_of h = Set_cookie -> copies r h (ngx_http_upstream_rewrite_set_cookie r h o).
Proof.
  intros Ht. unfold ngx_http_upstream_rewrite_set_cookie. apply copies_push. intros r1 H1.
  pose proof (eq_refl (sent (cached r) h)) as Hs. unfold sent in Hs at 2. rewrite Ht in Hs.
  destruct rewrite_cookie as [f|] eqn:Ef.
  - destruct (cookie_same_name f h Ef) as (_ & _ & Hl & _).
    pose proof (fun F : no_failure => cookie_answers F f h Ef) as Ha.
    destruct (f h) as [rc h']. cbn [fst snd] in *.
    pose proof (copies_answer r h h' rc _ r1 Hs Hl Ha H1 (extends_rewritten _ _ h h' Hl H1)).
    by destruct rc.
  - split; [|done]. exists [h]. by rewrite Hs.
Qed.

Lemma copy_allow_ranges r h o : treatment_of h = Ranges -> lowcase_key h = out_name out_accept_ranges ->
  copies r h (ngx_http_upstream_copy_allow_ranges r h o).
Proof.
  intros Ht Hn. unfold ngx_http_upstream_copy_allow_ranges.
  pose proof (eq_refl (sent (cached r) h)) as Hs. unfold sent in Hs at 2. rewrite Ht in Hs.
  destruct (cached r) eqn:Ec.
  - split; [|done]. exists []. rewrite Ec, Hs. split; [|done]. by eapply extends_same; [..|apply header_extends_refl].
  - apply copies_pure; [by rewrite Ec|]. intros r1 H1. by apply extends_point_out.
Qed.

Lemma copy_encoding r h o : sent (cached r) h = Some h -> lowcase_key h = out_name out_content_encoding ->
  copies r h (ngx_http_upstream_copy_content_encoding r h o).
Proof. intros Hs Hn. apply copies_pure; [done|]. intros r1 H1. by apply extends_point_out. Qed.

(** *** The rows of the table *)

Lemma sent_treatment c h t : treatment_of h = t ->
  sent c h = match t with
             | Dropped => None
             | Ranges => if c then None else Some h
             | Location => Some (redirected_value h 0)
             | Refresh => Some (match ngx_strcasestrn (data h) (bytes_of "url=") 3 with
                                | Some p => redirected_value h (p + 4)
                                | None => h
                                end)
             | Set_cookie => Some (match rewrite_cookie with Some f => (f h).2 | None => h end)
             | Copied => Some h
             end.
Proof. by intros <-. Qed.

(** The row of a name says how the header is treated. *)
Ltac row_treatment :=
  match goal with
  | Hn : lowcase_key ?h = strlow ?n |- _ =>
      let t := eval vm_compute in (treatment_in treatments (strlow n)) in
      let H := fresh "Ht" in
      assert (H : treatment_of h = t) by (unfold treatment_of; rewrite Hn; vm_compute; reflexivity);
      try (pose proof (fun c => sent_treatment c h _ H))
  end.

Lemma row_copies hh r h : hh ∈ ngx_http_upstream_headers_in conf -> lowcase_key h = strlow (name hh) ->
  copies r h (copy_handler hh r h (copy_offset hh)).
Proof.
  revert hh. refine (proj1 (list.Forall_forall (fun hh => lowcase_key h = strlow (name hh) ->
    copies r h (copy_handler hh r h (copy_offset hh))) _) _).
  unfold ngx_http_upstream_headers_in.
  repeat (apply Forall_cons; [cbn [name copy_handler copy_offset]; intros Hn; row_treatment|]); [..|apply Forall_nil].
  all: first
    [ by apply copy_dropped | by apply copy_content_type | by apply copy_location | by apply copy_refresh
    | by apply copy_set_cookie | by apply copy_allow_ranges | by apply copy_last_modified | by apply copy_encoding
    | by apply copy_multi | by (apply copy_line; [auto|]; intros g [= <-]) | by apply copy_line ].
Qed.

Lemma headers_in_names : NoDup (map (fun e => strlow e.1) (headers_in_hash conf)).
Proof. apply (bool_decide_unpack (NoDup _)). vm_compute. done. Qed.

Lemma find_header_some h hh : elt_ok h -> find_header conf h = Some hh ->
  hh ∈ ngx_http_upstream_headers_in conf /\ lowcase_key h = strlow (name hh).
Proof.
  intros [_ Eh] E. unfold find_header in E. rewrite Eh in E. apply hash_find in E as (m & Hm & Hl);
    [|apply headers_in_names].
  apply list_elem_of_fmap in Hm as (hh' & [= -> ->] & Hin). by rewrite <- Hl.
Qed.

Lemma treatment_names n t : treatment_in treatments n = t -> t <> Copied -> n ∈ map fst treatments.
Proof.
  generalize treatments. intros l. induction l as [|[m t'] l IH]; cbn; [by intros <-|].
  case_bool_decide; intros E Hne; apply elem_of_cons; [by left | right; auto].
Qed.

Lemma find_header_none h : elt_ok h -> find_header conf h = None -> treatment_of h = Copied.
Proof.
  intros [_ Eh] E. destruct (decide (treatment_of h = Copied)) as [|Hne]; [done|].
  pose proof (treatment_names _ _ eq_refl Hne) as Hn.
  assert (Hin : lowcase_key h ∈ map (fun e => strlow e.1) (headers_in_hash conf)).
  { revert Hn. generalize (lowcase_key h). refine (proj1 (list.Forall_forall _ _) _).
    apply (bool_decide_unpack (Forall _ _)). vm_compute. done. }
  apply list_elem_of_fmap in Hin as ([m hh] & Hm & Hin). exfalso.
  assert (E' : find_header conf h = Some hh); [|by rewrite E' in E].
  unfold find_header. rewrite Eh. apply hash_find; [apply headers_in_names|]. eauto.
Qed.

(** A header that is not hidden, whatever its row. *)
Lemma passed_copies r h : elt_ok h ->
  copies r h (match find_header conf h with
              | Some hh => copy_handler hh r h (copy_offset hh)
              | None => ngx_http_upstream_copy_header_line r h None
              end).
Proof.
  intros Hh. destruct find_header as [hh|] eqn:E.
  - apply find_header_some in E as []; [|done]. by apply row_copies.
  - apply find_header_none in E; [|done]. apply copy_line; [|done]. by rewrite (sent_treatment _ _ _ E).
Qed.

(** ** The loops *)

Definition passed (c : bool) (h : ngx_table_elt_t) : option ngx_table_elt_t :=
  if hidden conf h then None else sent c h.

Definition redirected (c : bool) (h : ngx_table_elt_t) : option ngx_table_elt_t :=
  match find_header conf h with
  | Some hh => if redirect hh then sent c h else None
  | None => None
  end.

(** What a loop leaves: nothing of the upstream's side is touched, and when all
    is copied, what is added is what the headers are sent as. *)
Definition loops (r : request) (hs : list ngx_table_elt_t) (f : ngx_table_elt_t -> option ngx_table_elt_t)
    (res : ngx_rc * request) : Prop :=
  (exists added, extends r res.2 added /\ (res.1 = NGX_OK -> added = omap f hs))
  /\ (res.1 = NGX_OK \/ res.1 = NGX_ERROR) /\ (no_failure -> res.1 = NGX_OK).

Lemma loops_cons r h hs f res0 k :
  copies r h res0 -> f h = sent (cached r) h ->
  (forall r1, cached r1 = cached r -> loops r1 hs f (k r1)) ->
  loops r (h :: hs) f (match res0 with (NGX_OK, r1) => k r1 | (_, r1) => (NGX_ERROR, r1) end).
Proof.
  intros [(a & Ha & Hsent) Hno] Hf Hk. destruct res0 as [rc r1]. cbn [fst snd] in *.
  assert (Hfail : rc <> NGX_OK -> loops r (h :: hs) f (NGX_ERROR, r1)).
  { intros Hrc. split; [by exists a|]. split; [by right|]. intros F. by destruct Hrc; apply Hno. }
  destruct rc; try by apply Hfail. clear Hfail Hno.
  destruct (Hk r1 (ext_cached _ _ _ Ha)) as [(b & Hb & Hrest) Hk2]. split; [|exact Hk2].
  exists (a ++ b). split; [by eapply header_extends_trans|]. intros E. cbn. rewrite Hf, <- (Hrest E), (Hsent eq_refl).
  by destruct (sent (cached r) h).
Qed.

Lemma loops_skip r h hs f res : f h = None -> loops r hs f res -> loops r (h :: hs) f res.
Proof. intros Hf Hl. unfold loops. cbn. by rewrite Hf. Qed.

Lemma loops_nil r f : loops r [] f (NGX_OK, r).
Proof. split; [exists []; split; [apply header_extends_refl | done]|]. by split; [left|]. Qed.

Lemma copy_passed_loops hs r : Forall elt_ok hs -> loops r hs (passed (cached r)) (copy_passed conf hs r).
Proof.
  intros Hhs. revert r. induction Hhs as [|h hs Hh _ IH]; intros r; [apply loops_nil|]. cbn [copy_passed].
  destruct (hidden conf h) eqn:E; [apply loops_skip; [by unfold passed; rewrite E | apply IH]|].
  apply loops_cons; [by apply passed_copies | by unfold passed; rewrite E |].
  intros r1 <-. apply IH.
Qed.

Lemma copy_redirected_loops hs r : Forall elt_ok hs -> loops r hs (redirected (cached r)) (copy_redirected conf hs r).
Proof.
  intros Hhs. revert r. induction Hhs as [|h hs Hh _ IH]; intros r; [apply loops_nil|]. cbn [copy_redirected].
  destruct (find_header conf h) as [hh|] eqn:E; [|apply loops_skip; [by unfold redirected; rewrite E | apply IH]].
  destruct (redirect hh) eqn:Er; [|apply loops_skip; [by unfold redirected; rewrite E, Er | apply IH]].
  pose proof (find_header_some _ _ Hh E) as [].
  apply loops_cons; [by apply row_copies | by unfold redirected; rewrite E, Er |].
  intros r1 <-. apply IH.
Qed.
End Copies.
End UpstreamHeadersFacts.
