(* ===== verification/UpstreamHeadersProps.v ===== *)
(** * What the client gets of an upstream response

    The pointers of the header records name the headers they are for; which
    headers are passed on, unchanged and in order, and which go with an
    X-Accel-Redirect; what decides that a response may be cached, and for how
    long. *)

From stdpp Require Import functions.
From S2P Require Import Prelude Scan Request ParseTime UriUtil HeaderFilterProps UpstreamHeaders UpstreamHeadersFacts.

Module UpstreamHeadersProps.
Import UpstreamHeaders UpstreamHeadersFacts.

Abbreviation decimal := HeaderFilterProps.HeaderFilterProps.decimal.

(** ** Reading a response

    What the modules that parse headers do with each header: it is added to the
    list, and the handler of its row is called. *)
Section Read.
Context {C : Core} (conf : ngx_http_upstream_conf_t).

Definition read_header (r : request) (h : ngx_table_elt_t) : ngx_rc * request :=
  let hs := headers (headers_in r) in
  let r := r <| headers_in := (headers_in r) <| headers := hs ++ [h] |> |> in
  match find_header conf h with
  | Some hh => handler hh r (length hs) (offset hh)
  | None => (NGX_OK, r)
  end.

Fixpoint read_headers (hs : list ngx_table_elt_t) (r : request) : ngx_rc * request :=
  match hs with
  | [] => (NGX_OK, r)
  | h :: hs =>
      match read_header r h with
      | (NGX_OK, r) => read_headers hs r
      | res => res
      end
  end.
End Read.

Section Props.
Context `{CoreOk} (conf : ngx_http_upstream_conf_t).

(** ** The records are well typed *)

Lemma typed_added r h : elt_ok h -> well_typed r ->
  well_typed (r <| headers_in := (headers_in r) <| headers := headers (headers_in r) ++ [h] |> |>).
Proof.
  intros Hh [[E P K] [P' A' K' T']]. split; [split; cbn | split; cbn; [exact P' | exact A' | | exact T']].
  - apply Forall_app_2; [exact E|]. by constructor.
  - intros f p Ep. by apply points_app, P.
  - eapply Forall_impl; [|exact K]. intros p. apply points_app.
  - intros p Ep. by apply points_app, K'.
Qed.

Lemma typed_read h r : elt_ok h -> well_typed r -> well_typed (read_header conf r h).2.
Proof.
  intros Hh Hr. pose proof (typed_added r h Hh Hr) as H1. unfold read_header.
  destruct (find_header conf h) as [hh|] eqn:E; [|done]. apply find_header_some in E as [Hin Hn]; [|done].
  apply (handler_reads conf hh _ _ Hin H1). cbn. rewrite <- Hn. apply points_last.
Qed.

Lemma typed_read_all hs r : Forall elt_ok hs -> well_typed r -> well_typed (read_headers conf hs r).2.
Proof.
  intros Hhs. revert r. induction Hhs as [|h hs Hh _ IH]; intros r Hr; [done|]. cbn [read_headers].
  pose proof (typed_read h r Hh Hr) as H1. destruct (read_header conf r h) as [[] r1]; try done. by apply IH.
Qed.

Lemma typed_extends r r1 hs : extends r r1 hs -> well_typed r -> well_typed r1.
Proof. by intros [_ _ _ _ Ht]. Qed.

Lemma typed_disable_null r f : well_typed r -> well_typed (disable_null f r).
Proof.
  intros Hr. unfold disable_null. destruct (ptr_out (headers_out r) f) as [p|] eqn:Ep; [|done].
  case_bool_decide; [|done]. apply typed_rewritten; [|done]. intros h0 E0. by rewrite nth_lookup, E0.
Qed.

Lemma typed_frame r r' : headers_in r' = headers_in r -> headers_out r' = headers_out r -> well_typed r -> well_typed r'.
Proof. unfold well_typed. by intros -> ->. Qed.

Lemma typed_elts r : well_typed r -> Forall elt_ok (headers (headers_in r)).
Proof. by intros [[E _ _] _]. Qed.

Lemma typed_out_same r o : out_headers o = out_headers (headers_out r) -> ptr_out o = ptr_out (headers_out r) ->
  arrays o = arrays (headers_out r) -> override_charset o = override_charset (headers_out r) ->
  content_type_len o = content_type_len (headers_out r) -> content_type o = content_type (headers_out r) ->
  well_typed r -> well_typed (r <| headers_out := o |>).
Proof.
  intros E1 E2 E3 E4 E5 E6 [Hi [P A K T]]. split; [exact Hi|]. split; cbn; rewrite ?E1, ?E2, ?E3, ?E4, ?E5, ?E6; done.
Qed.

(** The redirect's URI takes the place of the header's value. *)
Lemma typed_in_value r p v : well_typed r ->
  well_typed (r <| headers_in := (headers_in r)
                     <| headers := <[p := (elt r p) <| value := v |>]> (headers (headers_in r)) |> |>).
Proof.
  intros [[E P K] [P' A' K' T']].
  assert (Hp : forall n q, points (headers (headers_in r)) n q ->
    points (<[p := (elt r p) <| value := v |>]> (headers (headers_in r))) n q).
  { intros n q. apply points_insert. intros h0 E0. cbn. unfold elt. by rewrite nth_lookup, E0. }
  split; [split; cbn | split; cbn; [exact P' | exact A' | | exact T']]; auto.
  - destruct (decide (p < length (headers (headers_in r)))%nat) as [Hl|Hl]; [|by rewrite list_insert_ge by lia].
    apply Forall_insert; [done|]. apply lookup_lt_is_Some in Hl as [h0 E0].
    pose proof (Forall_lookup_1 _ _ _ _ E E0) as [He1 He2]. unfold elt. by rewrite nth_lookup, E0.
  - eapply Forall_impl; [|exact K]. auto.
Qed.

Lemma typed_process r : well_typed r -> well_typed (ngx_http_upstream_process_headers conf r).2.
Proof.
  intros Hr. pose proof (typed_elts r Hr) as He.
  assert (Hpass : well_typed (pass_headers conf r).2).
  { unfold pass_headers. destruct (copy_passed_loops conf _ r He) as [(a & Ha & _) _].
    apply typed_extends in Ha; [|done]. destruct copy_passed as [rc r1]. cbn [snd] in Ha.
    destruct rc; try done. cbn [snd].
    eapply (typed_frame (set_field (f := headers_out) _ (disable_null out_date (disable_null out_server r1))));
      [done..|].
    by apply typed_out_same, typed_disable_null, typed_disable_null. }
  unfold ngx_http_upstream_process_headers. destruct (ptr_in _ _) as [p|]; [|done]. destruct ignored; [done|].
  unfold redirect_headers. destruct (copy_redirected_loops conf _ r He) as [(a & Ha & _) _].
  apply typed_extends in Ha; [|done]. destruct copy_redirected as [rc r1]. cbn [snd] in Ha.
  destruct rc; try done. destruct UriUtil.ngx_http_parse_unsafe_uri as [[uri args]|]; [|done].
  pose proof (typed_in_value r1 p (Some (UriUtil.text (data (elt r1 p)) uri)) Ha) as Hv. cbn [snd].
  destruct negb; [|done]. exact Hv.
Qed.

(** C29: Whatever headers an upstream sends, reading them and processing the
    response keeps the type of the header records: a pointer of [headers_in] or
    [headers_out] is the place of a header with the name of its field, an array
    holds such places, the charset that overrides is that of an X-Accel-Charset
    header, and the length of the content type without its parameters is not
    more than the whole. *)
Theorem headers_well_typed hs r :
  Forall elt_ok hs -> well_typed r ->
  well_typed (read_headers conf hs r).2
  /\ well_typed (ngx_http_upstream_process_headers conf (read_headers conf hs r).2).2.
Proof. intros Hhs Hr. split; [|apply typed_process]; by apply typed_read_all. Qed.

(** ** What is passed on *)

(** A header as it was added, or without a value and disabled. *)
Definition or_disabled (h h' : ngx_table_elt_t) : Prop :=
  h' = h \/ (value h = None /\ (lowcase_key h = bytes_of "server" \/ lowcase_key h = bytes_of "date") /\ h' = h <| hash := 0 |>).

Lemma disable_null_headers r f : well_typed r -> f = out_server \/ f = out_date ->
  Forall2 or_disabled (out_headers (headers_out r)) (out_headers (headers_out (disable_null f r))).
Proof.
  intros Hr Hf.
  assert (Hrefl : forall l, Forall2 or_disabled l l) by (intros l; apply Forall_Forall2_diag, Forall_true; by left).
  unfold disable_null. destruct (ptr_out (headers_out r) f) as [p|] eqn:Ep; [|done].
  destruct Hr as [_ [P _ _ _]]. destruct (P f p Ep) as (h & E & Hn).
  case_bool_decide as Hv; [|done]. cbn. rewrite nth_lookup, E in *. cbn in *.
  rewrite <- (list_insert_id _ _ _ E) at 1. apply Forall2_insert; [done|]. right.
  split; [done|]. split; [|done]. rewrite Hn. by destruct Hf as [-> | ->]; [left|right].
Qed.

Lemma disable_null_done r f p h : ptr_out (headers_out r) f = Some p ->
  out_headers (headers_out (disable_null f r)) !! p = Some h -> value h = None -> hash h = 0.
Proof.
  intros Ep. unfold disable_null. rewrite Ep. case_bool_decide as Hv; cbn.
  - intros E. destruct (decide (p < length (out_headers (headers_out r)))%nat) as [Hl|Hl].
    + rewrite list_lookup_insert_eq in E by done. by injection E as <-.
    + rewrite list_insert_ge in E by lia. apply lookup_lt_Some in E. lia.
  - intros E Hh. rewrite nth_lookup, E in Hv. done.
Qed.

Lemma disable_null_ptr r f : ptr_out (headers_out (disable_null f r)) = ptr_out (headers_out r).
Proof. unfold disable_null. destruct (ptr_out (headers_out r) f); [|done]. by case_bool_decide. Qed.

Lemma or_disabled_trans l1 l2 l3 : Forall2 or_disabled l1 l2 -> Forall2 or_disabled l2 l3 -> Forall2 or_disabled l1 l3.
Proof.
  intros H1. revert l3. induction H1 as [|h1 h2 l1 l2 Hh _ IH]; intros l3 H3; inversion H3 as [|? h3 ? l3' Hh' H3']; subst;
    [constructor|]. constructor; [|by apply IH].
  destruct Hh as [-> | (V & N & ->)]; [done|]. right. destruct Hh' as [-> | (_ & _ & ->)]; done.
Qed.

(** C20: A response without a redirect: the client gets the headers that are not
    hidden in their order, each as its row of the table treats it (hop-by-hop
    headers, the length and the type are left to the server; Location, Refresh
    and Set-Cookie are rewritten by the callbacks; all others, unknown ones
    included, unchanged), a Server or Date without a value being disabled, with
    the status and the length of the upstream.  Otherwise the request is ended
    with 500, which does not happen as long as there is memory and the callbacks
    answer. *)
Theorem headers_passed_on r :
  well_typed r ->
  ptr_in (headers_in r) in_x_accel_redirect = None \/ ignored conf NGX_HTTP_UPSTREAM_IGN_XA_REDIRECT = true ->
  let i := headers_in r in
  match ngx_http_upstream_process_headers conf r with
  | (effects, NGX_OK, r') =>
      effects = []
      /\ Forall2 or_disabled (out_headers (headers_out r) ++ omap (passed conf (cached r)) (headers i))
           (out_headers (headers_out r'))
      /\ (forall f p h, f = out_server \/ f = out_date -> ptr_out (headers_out r') f = Some p ->
           out_headers (headers_out r') !! p = Some h -> value h = None -> hash h = 0)
      /\ out_status (headers_out r') = status_n i /\ out_status_line (headers_out r') = status_line i
      /\ out_content_length_n (headers_out r') = content_length_n i /\ length_ r' = -1
  | (effects, rc, _) => rc = NGX_DONE /\ effects = [Upstream_finalized (Code NGX_HTTP_INTERNAL_SERVER_ERROR)]
  end
  /\ (no_failure -> (ngx_http_upstream_process_headers conf r).1.2 = NGX_OK).
Proof.
  intros Hr Hx. cbn zeta.
  assert (E : ngx_http_upstream_process_headers conf r = pass_headers conf r).
  { unfold ngx_http_upstream_process_headers. destruct (ptr_in _ _); [|done]. destruct Hx as [|Hx]; [done|]. by rewrite Hx. }
  rewrite E. clear E Hx. unfold pass_headers.
  destruct (copy_passed_loops conf _ r (typed_elts r Hr)) as [(a & Ha & Ea) [Hrc Hno]].
  destruct copy_passed as [rc r1]. cbn [fst snd] in *.
  destruct Hrc as [-> | ->]; [|split; [done|]; intros F; by specialize (Hno F)].
  split; [|done]. rewrite (Ea eq_refl) in Ha. clear Ea Hno.
  pose proof (typed_extends _ _ _ Ha Hr) as H1. destruct Ha as [Ein Ec _ Eh _].
  set (r2 := disable_null out_server r1). assert (H2 : well_typed r2) by by apply typed_disable_null.
  assert (Ein2 : headers_in (disable_null out_date r2) = headers_in r).
  { rewrite <- Ein. assert (D : forall f r, headers_in (disable_null f r) = headers_in r).
    { intros f r0. unfold disable_null. destruct (ptr_out _ f); [|done]. by case_bool_decide. }
    unfold r2. by rewrite !D. }
  split; [done|]. cbn. rewrite Ein2. split_and!; try done.
  - rewrite <- Eh. eapply or_disabled_trans; [|apply disable_null_headers; auto]. apply disable_null_headers; auto.
  - intros f p h Hf Ep El Hv. pose proof (disable_null_headers r2 out_date H2 (or_intror eq_refl)) as F2.
    destruct Hf as [-> | ->].
    + destruct (Forall2_lookup_r _ _ _ _ _ F2 El) as (h2 & E2 & Hh).
      assert (Hv2 : value h2 = None) by by destruct Hh as [-> | (? & _)].
      rewrite disable_null_ptr in Ep.
      assert (hash h2 = 0).
      { eapply (disable_null_done r1 out_server); [|exact E2 | done]. by rewrite <- (disable_null_ptr _ out_server). }
      by destruct Hh as [-> | (_ & _ & ->)].
    + eapply (disable_null_done r2 out_date); [|exact El | done]. by rewrite disable_null_ptr in Ep.
Qed.

(** C21: A response with X-Accel-Redirect: the upstream is given up first; then
    the headers whose rows are marked for a redirect are taken over, hidden or
    not; and the request ends with one internal redirect to the path and the
    arguments of the header, with GET unless it was HEAD, or with 404 exactly
    when the URI is refused, or with 500 when a header could not be copied. *)
Theorem redirect_leaves r p :
  well_typed r -> ptr_in (headers_in r) in_x_accel_redirect = Some p ->
  ignored conf NGX_HTTP_UPSTREAM_IGN_XA_REDIRECT = false ->
  exists h tail r', headers (headers_in r) !! p = Some h /\ lowcase_key h = bytes_of "x-accel-redirect"
  /\ ngx_http_upstream_process_headers conf r = (Upstream_finalized NGX_DECLINED :: tail, NGX_DONE, r')
  /\ (tail = [Finalized (Code NGX_HTTP_INTERNAL_SERVER_ERROR)] /\ ~ no_failure
      \/ out_headers (headers_out r')
          = out_headers (headers_out r) ++ omap (redirected conf (cached r)) (headers (headers_in r))
         /\ match UriUtil.ngx_http_parse_unsafe_uri (data h) ngx_path_separator
                    (UriUtil.Str 0 (Z.of_nat (length (data h)))) with
            | None => tail = [Finalized (Code NGX_HTTP_NOT_FOUND)]
            | Some (uri, args) =>
                tail = [Internal_redirect (UriUtil.text (data h) uri) (from_option (UriUtil.text (data h)) [] args);
                        Finalized NGX_DONE]
                /\ method r' = (if method r =? NGX_HTTP_HEAD then NGX_HTTP_HEAD else NGX_HTTP_GET)
            end).
Proof.
  intros Hr Ep Hi. destruct (in_ptrs _ (proj1 Hr) _ _ Ep) as (h & Eh & Hn).
  unfold ngx_http_upstream_process_headers. rewrite Ep, Hi. unfold redirect_headers.
  destruct (copy_redirected_loops conf _ r (typed_elts r Hr)) as [(a & Ha & Ea) [Hrc Hno]].
  destruct copy_redirected as [rc r1]. cbn [fst snd] in *. exists h.
  destruct Hrc as [-> | ->]; [|exists [Finalized (Code NGX_HTTP_INTERNAL_SERVER_ERROR)], r1; split_and!; try done; left;
    split; [done|]; intros F; by specialize (Hno F)].
  rewrite (Ea eq_refl) in Ha. destruct Ha as [Ein _ Em Eo _].
  assert (Ed : elt r1 p = h) by (unfold elt; by rewrite Ein, nth_lookup, Eh). rewrite Ed.
  destruct UriUtil.ngx_http_parse_unsafe_uri as [[uri args]|].
  - eexists _, _. split_and!; [done..|]. right. split; [by destruct negb|]. split; [by destruct args|].
    match goal with |- method (if negb ?b then _ else _) = _ => change b with (method r1 =? NGX_HTTP_HEAD) end.
    rewrite <- Em. by destruct (Z.eqb_spec (method r1) NGX_HTTP_HEAD).
  - eexists _, _. split_and!; [done..|]. by right.
Qed.
End Props.

(** ** Examples *)

(** A nginx core that does what its documentation says, and a module that
    rewrites redirects. *)
Fixpoint search (fuel : nat) (v s : list Z) (p last : Z) : option Z :=
  match fuel with
  | O => None
  | S fuel =>
      let n := Z.of_nat (length s) in
      if last <? p + n then None
      else if bool_decide (strlow (slice v p (p + n)) = strlow s) then Some p else search fuel v s (p + 1) last
  end.

Fixpoint number (n : Z) (s : list Z) : Z :=
  match s with
  | [] => n
  | c :: s => if is_digit c then number (n * 10 + c - "0"%c) s else -1
  end.

Fixpoint element {A} (elts : list (list Z * A)) (n : list Z) : option A :=
  match elts with
  | [] => None
  | (m, a) :: elts => if bool_decide (strlow m = n) then Some a else element elts n
  end.

#[local] Instance small : Core := {|
  ngx_atoi s := if bool_decide (s = []) then -1 else number 0 s;
  ngx_atoof s := if bool_decide (s = []) then -1 else number 0 s;
  ngx_strlcasestrn v p last s n := search (S (length v)) v (take (Z.to_nat (n + 1)) s) p last;
  ngx_strcasestrn v s n := search (S (length v)) v (take (Z.to_nat (n + 1)) s) 0 (Z.of_nat (length v));
  ngx_strncasecmp a b n :=
    if bool_decide (strlow (take (Z.to_nat n) a) = strlow (take (Z.to_nat n) b)) then 0 else 1;
  ngx_path_separator c := c =? "/"%c;
  ngx_time := 1400000000;
  ngx_hash_key n := fold_left (fun h c => h * 31 + c) n 0;
  ngx_hash_find _ elts _ n := element elts n;
  ngx_array_push _ := true;
  ngx_list_push _ := true;
  rewrite_redirect := Some (fun h p =>
    (NGX_OK, h <| value := (fun v => take (Z.to_nat p) v ++ bytes_of "/front" ++ drop (Z.to_nat p) v) <$> value h |>));
  rewrite_cookie := None;
|}.

Lemma small_find {A} (elts : list (list Z * A)) n (a : A) : NoDup (map (fun e => strlow e.1) elts) ->
  element elts n = Some a <-> exists m, (m, a) ∈ elts /\ strlow m = n.
Proof.
  induction elts as [|[m0 a0] elts IH]; cbn; intros Hd.
  - split; [done|]. by intros (m & Hm%not_elem_of_nil & _).
  - apply list.NoDup_cons in Hd as [Hn Hd]. case_bool_decide as E.
    + split; [intros [= <-]; exists m0; split; [by left | done]|].
      intros (m & [[= -> ->]|Hin]%elem_of_cons & Em); [done|]. destruct Hn. change (strlow m0 ∈ map (fun e => strlow e.1) elts).
      rewrite E, <- Em. apply list_elem_of_fmap. by exists (m, a).
    + rewrite IH by done. split.
      * intros (m & Hin & Em). exists m. split; [by right | done].
      * intros (m & [[= -> ->]|Hin]%elem_of_cons & Em); [done|]. eauto.
Qed.

#[local] Instance small_ok : CoreOk.
Proof.
  split.
  - intros A elts n a Hd. by apply small_find.
  - intros f h p [= <-]. split_and!; try done. cbn. by destruct (value h).
  - done.
Qed.

Lemma small_no_failure : no_failure.
Proof. split; [done | done | intros f h p [= <-]; by left | done]. Qed.

Definition made (name : list Z) (v : option (list Z)) : ngx_table_elt_t :=
  Elt (fold_left (fun h c => h * 31 + c) (strlow name) 0) name v (strlow name).

Lemma made_ok n v : elt_ok (made n v).
Proof. done. Qed.

Definition blank : request :=
  Request (HeadersIn [] 200 (bytes_of "200 OK") (fun _ => None) (-1) [] false false) true true 0 (Some 0) false
    NGX_HTTP_GET 0 false
    (HeadersOut [] 0 [] (fun _ => None) (fun _ => []) None 0 None None (0, 0) (-1) (-1)).

Lemma blank_typed : well_typed blank.
Proof. by repeat split. Qed.

Definition plain_conf : ngx_http_upstream_conf_t := Conf 0 true [(bytes_of "X-Powered-By", tt); (bytes_of "Set-Cookie", tt)].

Definition response : list ngx_table_elt_t := [
  made (bytes_of "Date") None;
  made (bytes_of "Content-Type") (Some (bytes_of "text/html; charset=utf-8"));
  made (bytes_of "X-Powered-By") (Some (bytes_of "C"));
  made (bytes_of "Connection") (Some (bytes_of "close"));
  made (bytes_of "Location") (Some (bytes_of "/a"));
  made (bytes_of "X-Own") (Some (bytes_of "1"))].

Definition received (hs : list ngx_table_elt_t) : request := (read_headers plain_conf hs blank).2.

Lemma received_typed hs : Forall elt_ok hs -> well_typed (received hs).
Proof. intros Hhs. by apply typed_read_all, blank_typed. Qed.

Lemma response_ok : Forall elt_ok response.
Proof. by repeat constructor. Qed.

(** [headers_well_typed] on that response. *)
Lemma headers_well_typed_witness :
  well_typed (received response) /\ well_typed (ngx_http_upstream_process_headers plain_conf (received response)).2.
Proof. apply (headers_well_typed plain_conf response blank); [apply response_ok | apply blank_typed]. Defined.

(** [headers_passed_on]: the type is left to the server, two headers are dropped
    or hidden, the Location is rewritten, and the Date is disabled. *)
Lemma headers_passed_on_witness :
  omap (passed plain_conf false) response
  = [made (bytes_of "Date") None; made (bytes_of "Location") (Some (bytes_of "/front/a"));
     made (bytes_of "X-Own") (Some (bytes_of "1"))]
  /\ map hash (out_headers (headers_out (ngx_http_upstream_process_headers plain_conf (received response)).2))
     = [0; hash (made (bytes_of "Location") None); hash (made (bytes_of "X-Own") None)]
  /\ (ngx_http_upstream_process_headers plain_conf (received response)).1.2 = NGX_OK.
Proof.
  split; [vm_compute; reflexivity|]. split; [vm_compute; reflexivity|].
  apply (headers_passed_on plain_conf (received response)).
  - apply received_typed, response_ok.
  - left. vm_compute. reflexivity.
  - apply small_no_failure.
Defined.

Definition elsewhere : list ngx_table_elt_t := [
  made (bytes_of "Content-Type") (Some (bytes_of "text/plain"));
  made (bytes_of "X-Accel-Redirect") (Some (bytes_of "/files/a?b=1"));
  made (bytes_of "X-Own") (Some (bytes_of "1"));
  made (bytes_of "Set-Cookie") (Some (bytes_of "a=b"))].

(** [redirect_leaves]: a hidden Set-Cookie goes with the redirect. *)
Lemma redirect_leaves_witness :
  exists tail r', ngx_http_upstream_process_headers plain_conf (received elsewhere)
                  = (Upstream_finalized NGX_DECLINED :: tail, NGX_DONE, r')
  /\ tail = [Internal_redirect (bytes_of "/files/a") (bytes_of "b=1"); Finalized NGX_DONE]
  /\ out_headers (headers_out r') = [made (bytes_of "Set-Cookie") (Some (bytes_of "a=b"))].
Proof.
  destruct (redirect_leaves plain_conf (received elsewhere) 1) as (h & tail & r' & Eh & _ & E & Htail).
  - apply received_typed. by repeat constructor.
  - vm_compute. reflexivity.
  - vm_compute. reflexivity.
  - exists tail, r'. split; [exact E|]. destruct Htail as [[_ Hf]|[Ho Ht]]; [by destruct Hf; apply small_no_failure|].
    assert (Eh' : Some (made (bytes_of "X-Accel-Redirect") (Some (bytes_of "/files/a?b=1"))) = Some h)
      by (rewrite <- Eh; vm_compute; reflexivity).
    injection Eh' as <-. split; [apply (proj1 Ht) | rewrite Ho; vm_compute; reflexivity].
Defined.
End UpstreamHeadersProps.
