(* ===== verification/UpstreamCaching.v ===== *)
(** * Whether and how long an upstream response is cached

    What reading the headers of a response decides about [u->cacheable] and
    [r->cache->valid_sec]: Cache-Control, Expires, X-Accel-Expires and
    Set-Cookie, in the order in which they come, and the loop that reads a number. *)

From stdpp Require Import functions.
From S2P Require Import Prelude Scan ParseTime HeaderFilterProps UpstreamHeaders UpstreamHeadersFacts UpstreamHeadersProps.

Module UpstreamCaching.
Import UpstreamHeaders UpstreamHeadersFacts UpstreamHeadersProps.

(** What one header says about caching. *)
Inductive verdict := Nothing | Never | Until (t : Z).
Definition forbids (x : verdict) : bool := match x with Never => true | _ => false end.
Definition time_of (x : verdict) : option Z := match x with Until t => Some t | _ => None end.

(** ** The number of max-age *)

(** The word at the beginning of a text, and the number that digits are. *)
Fixpoint age_word (l : list Z) : list Z :=
  match l with
  | [] => []
  | c :: l => if (c =? ","%c) || (c =? ";"%c) || (c =? " "%c) then [] else c :: age_word l
  end.
Definition number (n : Z) (ds : list Z) : Z := fold_left (fun n d => 10 * n + (d - "0"%c)) ds n.

Lemma swrap_64_mod z z' : z mod 2 ^ 64 = z' mod 2 ^ 64 -> swrap 64 z = swrap 64 z'.
Proof. intros H. unfold swrap. by rewrite <- (Zplus_mod_idemp_l z), <- (Zplus_mod_idemp_l z'), H. Qed.

Lemma swrap_same z : swrap 64 z mod 2 ^ 64 = z mod 2 ^ 64.
Proof. unfold swrap. rewrite Zminus_mod_idemp_l. f_equal. lia. Qed.

Lemma number_mod ds : forall n n', n mod 2 ^ 64 = n' mod 2 ^ 64 -> number n ds mod 2 ^ 64 = number n' ds mod 2 ^ 64.
Proof.
  induction ds as [|d ds IH]; intros n n' H; [done|]. apply IH.
  by rewrite <- Zplus_mod_idemp_l, <- Zmult_mod_idemp_r, H, Zmult_mod_idemp_r, Zplus_mod_idemp_l.
Qed.

(** The loop over the digits computes their number, in 64 bits. *)
Lemma max_age_number l : forall n, max_age n l =
  if forallb is_digit (age_word l) then Some (if bool_decide (age_word l = []) then n else swrap 64 (number n (age_word l))) else None.
Proof.
  induction l as [|c l IH]; intros n; cbn [max_age age_word]; [done|].
  destruct (_ || _); [done|]. cbn [forallb]. destruct (is_digit c); cbn [andb]; [|done]. rewrite IH.
  destruct (forallb is_digit (age_word l)); [|done]. f_equal. rewrite (bool_decide_false (c :: _ = [])) by done.
  assert (E : swrap 64 (swrap 64 (swrap 64 (n * 10) + c) - "0"%c) mod 2 ^ 64 = (10 * n + (c - "0"%c)) mod 2 ^ 64).
  { rewrite swrap_same, <- Zminus_mod_idemp_l, swrap_same, Zminus_mod_idemp_l.
    replace (swrap 64 (n * 10) + c - "0"%c) with (swrap 64 (n * 10) + (c - "0"%c)) by lia.
    rewrite <- Zplus_mod_idemp_l, swrap_same, Zplus_mod_idemp_l. f_equal. lia. }
  case_bool_decide as H.
  - rewrite H. cbn [number fold_left]. change (number n [c]) with (10 * n + (c - "0"%c)).
    apply swrap_64_mod in E. rewrite <- E. symmetry. apply swrap_small; [done|]. by apply swrap_range.
  - change (number n (c :: age_word l)) with (number (10 * n + (c - "0"%c)) (age_word l)). by apply swrap_64_mod, number_mod.
Qed.

Section Caching.
Context `{CoreOk} (conf : ngx_http_upstream_conf_t).

(** ** What the headers say *)

(** "Cache-Control": no-cache, no-store and private forbid caching, and so does a
    max-age that is no number or zero. *)
Definition cache_control_says (v : list Z) : verdict :=
  if contains v (bytes_of "no-cache") || contains v (bytes_of "no-store") || contains v (bytes_of "private") then Never
  else
    match find_in v (bytes_of "max-age=") with
    | None => Nothing
    | Some p =>
        let w := age_word (drop (Z.to_nat (p + 8)) v) in
        let n := swrap 64 (number 0 w) in
        if negb (forallb is_digit w) || (n =? 0) then Never else Until (swrap 64 (ngx_time + n))
    end.

(** "Expires": a date that is none, or has passed, forbids it. *)
Definition expires_says (v : list Z) : verdict :=
  match ParseTime.ngx_http_parse_time v with
  | ParseTime.Ok t => if t <? ngx_time then Never else Until t
  | _ => Never
  end.

(** "X-Accel-Expires": seconds, none of which forbid it, or "@" and a time. *)
Definition accel_expires_says (v : list Z) : verdict :=
  if rd v 0 =? "@"%c then let n := ngx_atoi (drop 1 v) in if n =? -1 then Nothing else Until n
  else let n := ngx_atoi v in if n =? 0 then Never else if n =? -1 then Nothing else Until (swrap 64 (ngx_time + n)).

Definition named (h : ngx_table_elt_t) (n : list Z) : bool := bool_decide (lowcase_key h = n).

(** Headers that are looked at wherever they are, and those that are looked at as long
    as there is no time; each unless the configuration ignores it. *)
Definition at_any_time (h : ngx_table_elt_t) : verdict :=
  if named h (bytes_of "set-cookie") && negb (ignored conf NGX_HTTP_UPSTREAM_IGN_SET_COOKIE) then Never
  else if named h (bytes_of "x-accel-expires") && negb (ignored conf NGX_HTTP_UPSTREAM_IGN_XA_EXPIRES) then accel_expires_says (data h)
  else Nothing.

Definition while_untimed (h : ngx_table_elt_t) : verdict :=
  if named h (bytes_of "cache-control") && negb (ignored conf NGX_HTTP_UPSTREAM_IGN_CACHE_CONTROL) then cache_control_says (data h)
  else if named h (bytes_of "expires") && negb (ignored conf NGX_HTTP_UPSTREAM_IGN_EXPIRES) then expires_says (data h)
  else Nothing.

(** The last X-Accel-Expires with a time, or else the first of the others with one. *)
Definition valid_until (v : Z) (hs : list ngx_table_elt_t) : Z :=
  match list.last (omap (fun h => time_of (at_any_time h)) hs) with
  | Some t => t
  | None => if v =? 0 then default 0 (head (omap (fun h => time_of (while_untimed h)) hs)) else v
  end.

(** The headers up to the first one with a time, which is among them. *)
Fixpoint up_to_time (hs : list ngx_table_elt_t) : list ngx_table_elt_t :=
  match hs with
  | [] => []
  | h :: hs => h :: match time_of (at_any_time h), time_of (while_untimed h) with None, None => up_to_time hs | _, _ => [] end
  end.

Definition may_be_cached (v : Z) (hs : list ngx_table_elt_t) : bool :=
  forallb (fun h => negb (forbids (at_any_time h))) hs
  && (negb (v =? 0) || forallb (fun h => negb (forbids (while_untimed h))) (up_to_time hs)).

(** ** One header *)

Definition same_caching (r r' : request) : Prop := cacheable r' = cacheable r /\ cache r' = cache r.

(** Rows that have nothing to do with caching. *)
Definition caching_names : list (list Z) :=
  [bytes_of "set-cookie"; bytes_of "cache-control"; bytes_of "expires"; bytes_of "x-accel-expires"].

Lemma handler_other hh r p : hh ∈ ngx_http_upstream_headers_in conf -> strlow (name hh) ∉ caching_names ->
  same_caching r (handler hh r p (offset hh)).2.
Proof.
  revert hh. refine (proj1 (list.Forall_forall (fun hh => strlow (name hh) ∉ caching_names ->
    same_caching r (handler hh r p (offset hh)).2) _) _).
  unfold ngx_http_upstream_headers_in.
  repeat (apply Forall_cons; [cbn [name handler offset]|]); [..|apply Forall_nil].
  all: try (intros Hn; destruct Hn; apply (bool_decide_unpack _); vm_compute; exact I).
  all: intros _.
  all: unfold ngx_http_upstream_process_header_line, ngx_http_upstream_process_limit_rate,
    ngx_http_upstream_process_buffering, ngx_http_upstream_process_charset, ngx_http_upstream_process_connection,
    ngx_http_upstream_process_transfer_encoding.
  all: try destruct (ptr_in _ _); split_ifs; done.
Qed.

(** The row of a name. *)
Lemma find_row h k hh : elt_ok h -> ngx_http_upstream_headers_in conf !! k = Some hh ->
  lowcase_key h = strlow (name hh) -> find_header conf h = Some hh.
Proof.
  intros [_ Eh] El En. unfold find_header. rewrite Eh. apply hash_find; [apply headers_in_names|].
  exists (name hh). split; [|done]. apply list_elem_of_fmap. exists hh. split; [done|]. by eapply list_elem_of_lookup_2.
Qed.

Lemma read_other h r : elt_ok h -> lowcase_key h ∉ caching_names -> same_caching r (read_header conf r h).2.
Proof.
  intros Hh Hn. unfold read_header. destruct (find_header conf h) as [hh|] eqn:E; [|done].
  apply find_header_some in E as [Hin El]; [|done]. rewrite El in Hn.
  by destruct (handler_other hh (r <| headers_in := (headers_in r) <| headers := headers (headers_in r) ++ [h] |> |>)
    (length (headers (headers_in r))) Hin Hn).
Qed.

(** What a header leaves of the time [v] and of whether the response may be cached. *)
Definition step (h : ngx_table_elt_t) (v : Z) (r r' : request) : Prop :=
  cache r' = Some (match time_of (at_any_time h) with Some t => t
                   | None => if v =? 0 then default v (time_of (while_untimed h)) else v end)
  /\ cacheable r' = cacheable r && (negb (forbids (at_any_time h)) && (negb (v =? 0) || negb (forbids (while_untimed h)))).

Lemma step_none h v r r' : at_any_time h = Nothing -> while_untimed h = Nothing \/ v <> 0 ->
  same_caching r r' -> cache r = Some v -> step h v r r'.
Proof.
  intros Ea Ew [E1 E2] Hc. unfold step. rewrite Ea, E1, E2, Hc. cbn. destruct Ew as [-> |Hv].
  - cbn. destruct (v =? 0); by rewrite ?orb_true_r, andb_true_r.
  - apply Z.eqb_neq in Hv. by rewrite Hv, andb_true_r.
Qed.

Lemma elt_added h r f k : elt (point_in f k (r <| headers_in := (headers_in r) <| headers := headers (headers_in r) ++ [h] |> |>))
  (length (headers (headers_in r))) = h.
Proof. unfold elt. cbn. rewrite nth_lookup, lookup_app_r, Nat.sub_diag by lia. done. Qed.

Lemma named_only h n m : lowcase_key h = n -> n <> m -> named h m = false.
Proof. intros E Hn. unfold named. rewrite bool_decide_false; [done|congruence]. Qed.

Lemma named_true h n : lowcase_key h = n -> named h n = true.
Proof. intros E. by apply bool_decide_true. Qed.

Lemma untimed r v : cache r = Some v -> valid_sec_unset r = (v =? 0).
Proof. unfold valid_sec_unset. by intros ->. Qed.

Ltac names E := rewrite ?(named_true _ _ E), ?(named_only _ _ _ E) by (apply (bool_decide_unpack (_ <> _)); vm_compute; exact I).

Lemma expiry_step r v s : cache r = Some v ->
  let r' := if v =? 0 then cache_control_expiry r s else r in
  cache r' = Some (if v =? 0 then default v (time_of (cache_control_says s)) else v)
  /\ cacheable r' = cacheable r && (negb (v =? 0) || negb (forbids (cache_control_says s))).
Proof.
  intros Hc. unfold cache_control_expiry, cache_control_says. destruct (v =? 0); cbn [negb orb]; [|by rewrite Hc, andb_true_r].
  destruct (_ || _); [by cbn; rewrite Hc, andb_false_r|]. destruct (find_in s _) as [p|]; [|by cbn; rewrite Hc, andb_true_r].
  rewrite max_age_number. destruct (forallb _ _); cbn [negb orb]; [|by cbn; rewrite Hc, andb_false_r].
  set (w := age_word _). assert (Ew : (if bool_decide (w = []) then 0 else swrap 64 (number 0 w)) = swrap 64 (number 0 w)).
  { case_bool_decide as E; [by rewrite E|done]. }
  cbv zeta. rewrite Ew. destruct (_ =? 0); cbn; by rewrite ?Hc, ?andb_true_r, ?andb_false_r.
Qed.

Lemma read_cache_control h r r' v : elt_ok h -> lowcase_key h = bytes_of "cache-control" -> cache r = Some v ->
  read_header conf r h = (NGX_OK, r') -> step h v r r'.
Proof.
  intros Hh Hn Hc. unfold read_header. rewrite (find_row h 12 _ Hh eq_refl Hn). cbn [handler offset].
  unfold ngx_http_upstream_process_cache_control. destruct ngx_array_push; [|done]. cbn [negb].
  change (valid_sec_unset (_ <| headers_in := _ |>)) with (valid_sec_unset r). rewrite (untimed r v Hc).
  match goal with |- context [cache_control_expiry ?x (data (elt ?x _))] => set (r2 := x) end.
  assert (E : elt r2 (length (headers (headers_in r))) = h).
  { unfold elt. cbn. rewrite nth_lookup, lookup_app_r, Nat.sub_diag by lia. done. }
  rewrite E. unfold step, at_any_time, while_untimed. names Hn. cbn [andb time_of forbids negb].
  destruct ignored; cbn [negb]; [intros [= <-]; split; [by destruct (v =? 0)|by rewrite orb_true_r, andb_true_r]|].
  pose proof (expiry_step r2 v (data h) Hc) as H1. cbv zeta in H1. destruct (v =? 0); by intros [= <-].
Qed.

Lemma read_expires h r r' v : elt_ok h -> lowcase_key h = bytes_of "expires" -> cache r = Some v ->
  read_header conf r h = (NGX_OK, r') -> step h v r r'.
Proof.
  intros Hh Hn Hc. unfold read_header. rewrite (find_row h 13 _ Hh eq_refl Hn). cbn [handler offset].
  unfold ngx_http_upstream_process_expires. rewrite elt_added.
  change (valid_sec_unset (point_in _ _ _)) with (valid_sec_unset r). rewrite (untimed r v Hc).
  unfold step, at_any_time, while_untimed. names Hn. cbn [andb time_of forbids negb].
  destruct ignored; cbn [negb]; [intros [= <-]; split; [by destruct (v =? 0)|by rewrite orb_true_r, andb_true_r]|].
  unfold expires_says. destruct (v =? 0) eqn:Ev; cbn [negb]; [|intros [= <-]; by rewrite andb_true_r].
  apply Z.eqb_eq in Ev. subst v.
  destruct ParseTime.ngx_http_parse_time as [t| |]; [destruct (t <? ngx_time)|..]; intros [= <-]; cbn; by rewrite ?andb_false_r, ?andb_true_r.
Qed.

Lemma read_accel_expires h r r' v : elt_ok h -> lowcase_key h = bytes_of "x-accel-expires" -> cache r = Some v ->
  read_header conf r h = (NGX_OK, r') -> step h v r r'.
Proof.
  intros Hh Hn Hc. unfold read_header. rewrite (find_row h 18 _ Hh eq_refl Hn). cbn [handler offset].
  unfold ngx_http_upstream_process_accel_expires. rewrite elt_added.
  change (cache (point_in _ _ _)) with (cache r). rewrite (bool_decide_false (cache r = None)) by (by rewrite Hc).
  unfold step, at_any_time, while_untimed. names Hn. cbn [andb time_of forbids negb].
  assert (Ev : (if v =? 0 then v else v) = v) by (by destruct (v =? 0)).
  destruct ignored; cbn [negb andb]; [intros [= <-]; cbn; by rewrite Ev, orb_true_r, andb_true_r|].
  unfold accel_expires_says. destruct (rd (data h) 0 =? "@"%c); cbn [negb].
  - destruct (ngx_atoi (drop 1 (data h)) =? -1); intros [= <-]; cbn; by rewrite ?Ev, orb_true_r, andb_true_r.
  - destruct (ngx_atoi (data h) =? 0); [intros [= <-]; cbn; by rewrite Ev, andb_false_r|].
    destruct (ngx_atoi (data h) =? -1); intros [= <-]; cbn; by rewrite ?Ev, orb_true_r, andb_true_r.
Qed.

Lemma read_set_cookie h r r' v : elt_ok h -> lowcase_key h = bytes_of "set-cookie" -> cache r = Some v ->
  read_header conf r h = (NGX_OK, r') -> step h v r r'.
Proof.
  intros Hh Hn Hc. unfold read_header. rewrite (find_row h 10 _ Hh eq_refl Hn). cbn [handler offset].
  unfold ngx_http_upstream_process_set_cookie, step, at_any_time, while_untimed. names Hn.
  assert (Ev : (if v =? 0 then v else v) = v) by (by destruct (v =? 0)).
  destruct ignored; intros [= <-]; cbn; by rewrite Ev, ?orb_true_r, ?andb_true_r, ?andb_false_r.
Qed.

(** A header that is none of the four, or one of them. *)
Lemma read_step h r r' v : elt_ok h -> cache r = Some v -> read_header conf r h = (NGX_OK, r') -> step h v r r'.
Proof.
  intros Hh Hc E. destruct (decide (lowcase_key h ∈ caching_names)) as [Hin|Hn].
  - unfold caching_names in Hin. repeat (apply elem_of_cons in Hin as [Hin|Hin]); [| | | |by apply not_elem_of_nil in Hin].
    + by apply read_set_cookie.
    + by apply read_cache_control.
    + by apply read_expires.
    + by apply read_accel_expires.
  - assert (Ho : forall n, n ∈ caching_names -> named h n = false) by (intros n Hm; unfold named; rewrite bool_decide_false; [done|intros E0; apply Hn; by rewrite E0]).
    apply step_none; [..|done].
    + unfold at_any_time. rewrite !Ho by (apply (bool_decide_unpack (_ ∈ _)); vm_compute; exact I). done.
    + left. unfold while_untimed. rewrite !Ho by (apply (bool_decide_unpack (_ ∈ _)); vm_compute; exact I). done.
    + pose proof (read_other h r Hh Hn) as H1. by rewrite E in H1.
Qed.

(** ** All headers *)

(** No header says that the response is valid until the time 0, which stands for none. *)
Definition timed (h : ngx_table_elt_t) : Prop := at_any_time h <> Until 0 /\ while_untimed h <> Until 0.

Lemma valid_until_cons h hs v : timed h -> valid_until v (h :: hs) =
  valid_until (match time_of (at_any_time h) with Some t => t
               | None => if v =? 0 then default v (time_of (while_untimed h)) else v end) hs.
Proof.
  intros [H1 H2]. unfold valid_until. cbn [omap list_omap]. destruct (at_any_time h) as [| |t]; cbn [time_of].
  3: { set (l := omap (fun h => time_of (at_any_time h)) hs). assert (E : (t =? 0) = false) by (apply Z.eqb_neq; by intros ->).
       change (list.last (t :: l)) with (match l with [] => Some t | _ => list.last l end).
       destruct l as [|x l]; [by rewrite E|]. destruct (list.last (x :: l)) eqn:El; [done|by apply list.last_None in El]. }
  all: destruct (list.last (omap _ hs)); [done|]; destruct (v =? 0) eqn:Ev; [|by rewrite Ev]; destruct (while_untimed h) as [| |t]; cbn [time_of default from_option]; rewrite ?Ev; try done.
  all: assert (E : (t =? 0) = false) by (apply Z.eqb_neq; by intros ->); unfold id; by rewrite E.
Qed.

Lemma may_be_cached_cons h hs v : timed h -> may_be_cached v (h :: hs) =
  negb (forbids (at_any_time h)) && (negb (v =? 0) || negb (forbids (while_untimed h)))
  && may_be_cached (match time_of (at_any_time h) with Some t => t
                    | None => if v =? 0 then default v (time_of (while_untimed h)) else v end) hs.
Proof.
  intros [H1 H2]. unfold may_be_cached. cbn [forallb up_to_time].
  destruct (at_any_time h) as [| |t]; cbn [time_of forbids negb andb]; [| |].
  - destruct (v =? 0) eqn:Ev; cbn [negb orb andb]; [|by rewrite Ev].
    destruct (while_untimed h) as [| |t]; cbn [time_of forbids negb andb default from_option forallb]; rewrite ?Ev, ?andb_false_r; try done.
    assert (E : (t =? 0) = false) by (apply Z.eqb_neq; by intros ->). unfold id; by rewrite E.
  - done.
  - assert (E : (t =? 0) = false) by (apply Z.eqb_neq; by intros ->). rewrite E. cbn [forallb negb orb]. rewrite !andb_true_r.
    destruct (v =? 0), (forbids _); cbn; by rewrite ?andb_true_r, ?andb_false_r.
Qed.

(** C30: What the headers of a response decide about caching it, whatever they are and
    in whatever order they come.  It is valid until the time of the last X-Accel-Expires
    that gives one, else until that of the first Cache-Control or Expires that does.  It
    may be cached unless there is a Set-Cookie or an X-Accel-Expires of 0 anywhere, or a
    Cache-Control or Expires that forbids it before a time was given: one behind
    any time, that of an X-Accel-Expires too, is not looked at.  Headers the configuration
    ignores count for nothing.  The time 0 marks that there is none yet: the response
    begins with it, and no header here gives it. *)
Theorem caching_decided hs r r' :
  Forall elt_ok hs -> Forall timed hs -> cache r = Some 0 -> read_headers conf hs r = (NGX_OK, r') ->
  cache r' = Some (valid_until 0 hs) /\ cacheable r' = cacheable r && may_be_cached 0 hs.
Proof.
  intros Hok Ht. generalize 0 as v. revert r. induction Hok as [|h hs Hh _ IH]; intros r v Hc.
  - intros [= <-]. rewrite Hc. split.
    + unfold valid_until. cbn. by destruct (Z.eqb_spec v 0) as [-> |].
    + unfold may_be_cached. cbn. by rewrite orb_true_r, andb_true_r.
  - cbn [read_headers]. inversion Ht as [|? ? Hh' Ht']; subst. destruct (read_header conf r h) as [rc r1] eqn:E. destruct rc; try done.
    intros E'. destruct (read_step h r r1 v Hh Hc E) as [E1 E2]. destruct (IH Ht' r1 _ E1 E') as [-> ->].
    rewrite (valid_until_cons h hs v Hh'), (may_be_cached_cons h hs v Hh'), E2. split; [done|]. by rewrite !andb_assoc.
Qed.
End Caching.

(** ** Examples *)

#[local] Existing Instance small.
#[local] Existing Instance small_ok.

Definition max_age_60 : ngx_table_elt_t := made (bytes_of "Cache-Control") (Some (bytes_of "max-age=60")).
Definition x_accel_10 : ngx_table_elt_t := made (bytes_of "X-Accel-Expires") (Some (bytes_of "10")).
Definition no_cache : ngx_table_elt_t := made (bytes_of "Cache-Control") (Some (bytes_of "No-Cache")).
Definition own : ngx_table_elt_t := made (bytes_of "X-Own") (Some (bytes_of "1")).

(** A minute, whatever a later Cache-Control says; but that of an X-Accel-Expires. *)
Lemma caching_decided_witness :
  cache (received [own; max_age_60; no_cache]) = Some 1400000060
  /\ cacheable (received [own; max_age_60; no_cache]) = true
  /\ cacheable (received [own; no_cache; max_age_60]) = false
  /\ cache (received [max_age_60; x_accel_10]) = Some 1400000010.
Proof.
  assert (H : forall hs, Forall elt_ok hs -> Forall (timed plain_conf) hs -> read_headers plain_conf hs blank = (NGX_OK, received hs) ->
    cache (received hs) = Some (valid_until plain_conf 0 hs) /\ cacheable (received hs) = cacheable blank && may_be_cached plain_conf 0 hs)
    by (intros hs H1 H2 H3; exact (caching_decided plain_conf hs blank (received hs) H1 H2 eq_refl H3)).
  destruct (H [own; max_age_60; no_cache]) as [E1 E2]; [by repeat constructor|repeat constructor; vm_compute; discriminate|vm_compute; reflexivity|].
  destruct (H [own; no_cache; max_age_60]) as [_ E3]; [by repeat constructor|repeat constructor; vm_compute; discriminate|vm_compute; reflexivity|].
  destruct (H [max_age_60; x_accel_10]) as [E4 _]; [by repeat constructor|repeat constructor; vm_compute; discriminate|vm_compute; reflexivity|].
  rewrite E1, E2, E3, E4. split_and!; vm_compute; reflexivity.
Defined.

(** The order decides: with X-Accel-Expires first a response with "no-cache" is
    cached for ten seconds, with Cache-Control first it is not cached. *)
Example accel_first : cacheable (received [x_accel_10; no_cache]) = true /\ cache (received [x_accel_10; no_cache]) = Some 1400000010.
Proof. vm_compute. done. Qed.

Example accel_last : cacheable (received [no_cache; x_accel_10]) = false /\ cache (received [no_cache; x_accel_10]) = Some 1400000010.
Proof. vm_compute. done. Qed.

(** Seconds beyond the width of the counter wrap around. *)
Example max_age_wraps : max_age 0 (bytes_of "18446744073709551617") = Some 1.
Proof. vm_compute. done. Qed.

(** A content type that ends with an opening quote leaves a charset of length
    -1 as a [size_t]. *)
Example charset_length_wraps : charset (headers_out (ngx_http_upstream_process_headers plain_conf
    (received [made (bytes_of "Content-Type") (Some (bytes_of "text/html; charset=" ++ [DQUOTE]))])).2)
  = (20, 2 ^ 64 - 1).
Proof. vm_compute. done. Qed.
End UpstreamCaching.
