(* ===== verification/UpstreamState.v ===== *)
(** * The state of a proxied request

    The fields of [ngx_http_upstream_t], of its request and of the two
    connections that [ngx_http_upstream.c] works on, the monad its functions are
    written in, and what they ask of the nginx core.  The groups of peers and the
    balancing data are those of the round-robin balancer, the header records
    those of the header handlers.

    The world answers each question once: a question carries the number of
    questions asked before it, and an answer is any function of that number, so
    the theorems hold whatever sockets, timers, memory and modules do.  What the
    request does is recorded in a log, newest first.  Reading a field of
    [u->peer.connection] when that is NULL is an outcome of its own, [Crash]. *)

From S2P Require Import Prelude RoundRobin UpstreamHeaders.

Module UpstreamState.

Abbreviation headers_request := UpstreamHeaders.request.
Abbreviation peers_heap := (list RoundRobin.peers).

(** ** Buffers *)

(** [ngx_buf_t] over its own memory: offsets from [start]; [start] is whether
    that is not NULL. *)
Record buf := Buf { start : bool; mem : list Z; pos : Z; last : Z; end_ : Z }.

Definition eta_buf (b : buf) : buf := Buf (start b) (mem b) (pos b) (last b) (end_ b).
#[export] Instance set_mem : Setter mem := ltac:(derive_setter eta_buf mem).
#[export] Instance set_pos : Setter pos := ltac:(derive_setter eta_buf pos).
#[export] Instance set_last : Setter last := ltac:(derive_setter eta_buf last).
#[export] Instance set_end : Setter end_ := ltac:(derive_setter eta_buf end_).

Definition null_buf : buf := Buf false [] 0 0 0.

(** Bytes received at [b->last], without moving it. *)
Definition store (b : buf) (l : list Z) : buf :=
  let n := Z.to_nat (last b) in
  Buf (start b) (take n (mem b) ++ l ++ drop (n + length l) (mem b)) (pos b) (last b) (end_ b).

(** The bytes from [pos] to [last]. *)
Definition pending (b : buf) : list Z := slice (mem b) (pos b) (last b).

(** ** Records *)

(** [ngx_http_upstream_state_t] *)
Record upstream_state := State {
  s_status : Z;
  response_sec : Z;
  response_msec : Z;
  response_length : Z;
  s_peer : option (list Z);
}.

Definition eta_state (s : upstream_state) : upstream_state :=
  State (s_status s) (response_sec s) (response_msec s) (response_length s) (s_peer s).
#[export] Instance set_s_status : Setter s_status := ltac:(derive_setter eta_state s_status).
#[export] Instance set_response_sec : Setter response_sec := ltac:(derive_setter eta_state response_sec).
#[export] Instance set_response_msec : Setter response_msec := ltac:(derive_setter eta_state response_msec).
#[export] Instance set_response_length : Setter response_length := ltac:(derive_setter eta_state response_length).
#[export] Instance set_s_peer : Setter s_peer := ltac:(derive_setter eta_state s_peer).

(** What [ngx_memzero] leaves. *)
Definition zero_state : upstream_state := State 0 0 0 0 None.

(** The fields of [ngx_event_pipe_t] that this module reads; [temp_file] is the
    offset of the temporary file, and whether it has a descriptor. *)
Record pipe := Pipe {
  upstream_done : bool;
  upstream_eof : bool;
  upstream_error : bool;
  downstream_error : bool;
  p_length : Z;
  read_length : Z;
  temp_file : option (Z * bool);
}.

Definition eta_pipe (p : pipe) : pipe :=
  Pipe (upstream_done p) (upstream_eof p) (upstream_error p) (downstream_error p) (p_length p) (read_length p)
    (temp_file p).
#[export] Instance set_upstream_error : Setter upstream_error := ltac:(derive_setter eta_pipe upstream_error).
#[export] Instance set_downstream_error : Setter downstream_error := ltac:(derive_setter eta_pipe downstream_error).
#[export] Instance set_p_length : Setter p_length := ltac:(derive_setter eta_pipe p_length).
#[export] Instance set_temp_file : Setter temp_file := ltac:(derive_setter eta_pipe temp_file).

(** The handlers of the events of the upstream connection, and of the request. *)
Inductive u_handler :=
| no_handler | dummy_handler | send_request_handler | process_header_handler | process_body_in_memory_handler
| process_non_buffered_upstream_handler | process_upstream_handler
| upgraded_read_upstream_handler | upgraded_write_upstream_handler.

Inductive r_handler :=
| other_handler | empty_handler | init_request_handler | rd_check_broken_connection | wr_check_broken_connection
| process_non_buffered_downstream_handler | process_downstream_handler
| upgraded_read_downstream_handler | upgraded_write_downstream_handler.

#[export] Instance u_handler_eq_dec : EqDecision u_handler.
Proof. solve_decision. Defined.
#[export] Instance r_handler_eq_dec : EqDecision r_handler.
Proof. solve_decision. Defined.

(** What is done outside of the state. *)
Inductive action :=
| Peer_got (a : option RoundRobin.addr)   (** the address, if a peer was found *)
| Peer_freed (state : Z)
| Connected | Closed   (** the connection with the upstream *)
| Session_saved
| Request_sent   (** [ngx_output_chain] with the chain of the request *)
| Header_sent | Output (bytes : list Z) | Special (flags : Z)   (** to the client *)
| To_upstream (bytes : list Z)
| From_upstream (bytes : list Z) | From_client (bytes : list Z)   (** what [recv] gives *)
| Module_finalized (rc : ngx_rc)   (** [u->finalize_request] *)
| Finalized (rc : ngx_rc)   (** [ngx_http_finalize_request] *)
| Redirected (uri args : list Z)
| Cache_sent | Cache_freed | Cache_updated | Stored | Temp_file_deleted.

(** ** The state *)

Record st := St {
  clock : nat;   (** the questions asked *)
  log : list action;
  heap : peers_heap;
  peer : RoundRobin.upstream;   (** [u->peer] with [peer.data] *)
  c_ssl : bool;   (** [ssl] of the upstream connection is not NULL *)
  handshaking : bool;   (** its handlers are those of the TLS handshake *)
  write_timer : bool;
  read_timer : bool;
  u_nodelay : bool;
  hdr : headers_request;   (** the headers in and out, [cacheable], [buffering], [length], [cache] *)
  states : option (list upstream_state);   (** [r->upstream_states] *)
  state : option nat;   (** [u->state] *)
  resolved : option RoundRobin.resolved;
  resolving : bool;   (** [u->resolved->ctx] *)
  cleanup : bool;
  request_sent : bool;
  header_sent : bool;
  u_store : bool;
  u_keepalive : bool;
  upgrade : bool;
  cache_status : Z;
  cache_error : Z;   (** [r->cache->error] *)
  body_start : Z;   (** [r->cache->body_start] *)
  buffer : buf;
  from_client : buf;
  header_in : buf;
  out_bufs : list (Z * Z);   (** parts of [u->buffer] *)
  busy_bufs : list (Z * Z);
  u_pipe : pipe;
  u_read : u_handler;
  u_write : u_handler;
  r_read : r_handler;
  r_write : r_handler;
  header_only : bool;
  r_keepalive : bool;
  http_version : Z;
  c_error : bool;   (** of the connection of the client *)
  c_timedout : bool;
  c_nodelay : bool;
  delayed : bool;   (** [c->write->delayed] *)
}.

Definition eta_st (s : st) : st :=
  St (clock s) (log s) (heap s) (peer s) (c_ssl s) (handshaking s) (write_timer s) (read_timer s) (u_nodelay s) (hdr s)
    (states s) (state s) (resolved s) (resolving s) (cleanup s) (request_sent s) (header_sent s) (u_store s)
    (u_keepalive s) (upgrade s) (cache_status s) (cache_error s) (body_start s) (buffer s) (from_client s) (header_in s) (out_bufs s) (busy_bufs s)
    (u_pipe s) (u_read s) (u_write s) (r_read s) (r_write s) (header_only s) (r_keepalive s) (http_version s)
    (c_error s) (c_timedout s) (c_nodelay s) (delayed s).
#[export] Instance set_clock : Setter clock := ltac:(derive_setter eta_st clock).
#[export] Instance set_log : Setter log := ltac:(derive_setter eta_st log).
#[export] Instance set_heap : Setter heap := ltac:(derive_setter eta_st heap).
#[export] Instance set_peer : Setter peer := ltac:(derive_setter eta_st peer).
#[export] Instance set_c_ssl : Setter c_ssl := ltac:(derive_setter eta_st c_ssl).
#[export] Instance set_handshaking : Setter handshaking := ltac:(derive_setter eta_st handshaking).
#[export] Instance set_write_timer : Setter write_timer := ltac:(derive_setter eta_st write_timer).
#[export] Instance set_read_timer : Setter read_timer := ltac:(derive_setter eta_st read_timer).
#[export] Instance set_u_nodelay : Setter u_nodelay := ltac:(derive_setter eta_st u_nodelay).
#[export] Instance set_hdr : Setter hdr := ltac:(derive_setter eta_st hdr).
#[export] Instance set_states : Setter states := ltac:(derive_setter eta_st states).
#[export] Instance set_state : Setter state := ltac:(derive_setter eta_st state).
#[export] Instance set_resolved : Setter resolved := ltac:(derive_setter eta_st resolved).
#[export] Instance set_resolving : Setter resolving := ltac:(derive_setter eta_st resolving).
#[export] Instance set_cleanup : Setter cleanup := ltac:(derive_setter eta_st cleanup).
#[export] Instance set_request_sent : Setter request_sent := ltac:(derive_setter eta_st request_sent).
#[export] Instance set_header_sent : Setter header_sent := ltac:(derive_setter eta_st header_sent).
#[export] Instance set_u_store : Setter u_store := ltac:(derive_setter eta_st u_store).
#[export] Instance set_u_keepalive : Setter u_keepalive := ltac:(derive_setter eta_st u_keepalive).
#[export] Instance set_upgrade : Setter upgrade := ltac:(derive_setter eta_st upgrade).
#[export] Instance set_cache_status : Setter cache_status := ltac:(derive_setter eta_st cache_status).
#[export] Instance set_cache_error : Setter cache_error := ltac:(derive_setter eta_st cache_error).
#[export] Instance set_body_start : Setter body_start := ltac:(derive_setter eta_st body_start).
#[export] Instance set_buffer : Setter buffer := ltac:(derive_setter eta_st buffer).
#[export] Instance set_from_client : Setter from_client := ltac:(derive_setter eta_st from_client).
#[export] Instance set_header_in : Setter header_in := ltac:(derive_setter eta_st header_in).
#[export] Instance set_out_bufs : Setter out_bufs := ltac:(derive_setter eta_st out_bufs).
#[export] Instance set_busy_bufs : Setter busy_bufs := ltac:(derive_setter eta_st busy_bufs).
#[export] Instance set_u_pipe : Setter u_pipe := ltac:(derive_setter eta_st u_pipe).
#[export] Instance set_u_read : Setter u_read := ltac:(derive_setter eta_st u_read).
#[export] Instance set_u_write : Setter u_write := ltac:(derive_setter eta_st u_write).
#[export] Instance set_r_read : Setter r_read := ltac:(derive_setter eta_st r_read).
#[export] Instance set_r_write : Setter r_write := ltac:(derive_setter eta_st r_write).
#[export] Instance set_header_only : Setter header_only := ltac:(derive_setter eta_st header_only).
#[export] Instance set_r_keepalive : Setter r_keepalive := ltac:(derive_setter eta_st r_keepalive).
#[export] Instance set_http_version : Setter http_version := ltac:(derive_setter eta_st http_version).
#[export] Instance set_c_error : Setter c_error := ltac:(derive_setter eta_st c_error).
#[export] Instance set_c_timedout : Setter c_timedout := ltac:(derive_setter eta_st c_timedout).
#[export] Instance set_c_nodelay : Setter c_nodelay := ltac:(derive_setter eta_st c_nodelay).
#[export] Instance set_delayed : Setter delayed := ltac:(derive_setter eta_st delayed).

(** ** The monad *)

Inductive result (A : Type) :=
| Done (a : A) (s : st)
| Crash   (** a field of a NULL pointer is read *)
| Fuel.   (** the bound on recursion and loops is reached *)
Arguments Done {A} a s.
Arguments Crash {A}.
Arguments Fuel {A}.

Definition M (A : Type) : Type := st -> result A.

Definition ret {A} (a : A) : M A := fun s => Done a s.
Definition bind {A B} (m : M A) (k : A -> M B) : M B := fun s =>
  match m s with
  | Done a s => k a s
  | Crash => Crash
  | Fuel => Fuel
  end.

Definition read {A} (f : st -> A) : M A := fun s => Done (f s) s.
Definition write (f : st -> st) : M unit := fun s => Done tt (f s).
Definition crash {A} : M A := fun _ => Crash.
Definition out_of_fuel {A} : M A := fun _ => Fuel.

(** A question to the world. *)
Definition ask {A} (f : nat -> A) : M A := fun s => Done (f (clock s)) (s <| clock := S (clock s) |>).

Definition record (a : action) : M unit := write (fun s => s <| log := a :: log s |>).

Declare Scope upstream_scope.
Delimit Scope upstream_scope with upstream.
Notation "x <- m ;; k" := (bind m (fun x => k)) (at level 100, m at next level, right associativity) : upstream_scope.
Notation "m ;; k" := (bind m (fun _ : unit => k)) (at level 100, right associativity) : upstream_scope.
Notation "'ok'" := (ret tt) : upstream_scope.
Notation "'when' b 'do' m" := (if b then m else ret tt) (at level 99, b at level 200, m at level 98) : upstream_scope.

(** ** Settings *)

Record conf := Conf {
  next_upstream : Z;
  hdr_conf : UpstreamHeaders.ngx_http_upstream_conf_t;
  buffer_size : Z;
  store_on : bool;   (** [conf->store || conf->store_lengths] *)
  store_lengths : bool;   (** not NULL *)
  ignore_client_abort : bool;
  intercept_404 : bool;
  intercept_errors : bool;
  error_pages : option (list Z);   (** their statuses *)
  cache_on : bool;
  cache_methods : Z;
  cache_use_stale : Z;
  ssl : bool;   (** [u->ssl] *)
  ssl_session_reuse : bool;
  tcp_nodelay : bool;
  upstream_conf : option nat;   (** [conf->upstream]: its [peer.data] *)
  named_upstreams : list (list Z * Z * nat);   (** host, port and [peer.data] *)
  no_port : bool;   (** [u->resolved->no_port] *)
  post_action : bool;
  aio : bool;
  subrequest_in_memory : bool;
  tcp_push : bool;   (** [tcp_nopush] is used *)
  custom_filter : bool;   (** the module has set [u->input_filter] *)
  header_start : Z;   (** [r->cache->header_start] *)
  main_body_file : bool;   (** [request_body->buf], [temp_file], and [r == r->main] *)
  sub_body_file : bool;   (** [request_body->temp_file], [r != r->main] and [u->output.buf] *)
}.

(** What [recv] gives. *)
Inductive received := Again | Error | Bytes (l : list Z).

(** What [u->process_header] may change: the part of the buffer that is parsed,
    the headers, and the two flags. *)
Record parsed := Parsed {
  p_rc : ngx_rc;
  p_pos : Z;
  p_hdr : headers_request;
  p_keepalive : bool;
  p_upgrade : bool;
}.

(** ** The world *)

Class World := {
  (** The core: [ngx_event_connect_peer] over [u->peer.get], and what connecting
      the socket gives; the calls on events, sockets, buffers and memory. *)
  ngx_event_connect_peer : M ngx_rc -> M ngx_rc;
  connect_socket : nat -> ngx_rc;
  connection_pool : nat -> bool;   (** [c->pool] of the connection is not NULL *)
  ngx_output_chain : nat -> ngx_rc;
  ngx_handle_write_event : nat -> bool;
  ngx_handle_read_event : nat -> bool;
  ngx_tcp_push : nat -> bool;
  setsockopt : nat -> bool;
  getsockopt_error : nat -> bool;
  recv : nat -> Z -> received;
  send : nat -> list Z -> option Z;   (** [None] is [NGX_ERROR], [NGX_AGAIN] sends nothing *)
  peek : nat -> received;   (** [recv] with [MSG_PEEK] *)
  ngx_del_event : nat -> bool;   (** not needed, or [NGX_OK] *)
  ngx_add_event : nat -> bool;
  memory : nat -> bool;
  (** flags of the events *)
  upstream_read_timedout : nat -> bool;
  upstream_write_timedout : nat -> bool;
  upstream_read_ready : nat -> bool;
  upstream_read_eof : nat -> bool;
  upstream_read_error : nat -> bool;
  upstream_read_active : nat -> bool;
  upstream_write_ready : nat -> bool;
  upstream_write_waits : nat -> bool;   (** active and not ready *)
  downstream_write_timedout : nat -> bool;
  downstream_write_ready : nat -> bool;
  downstream_read_ready : nat -> bool;
  downstream_read_eof : nat -> bool;
  connection_ssl : nat -> bool;   (** a kept connection may have TLS already *)
  handshaked : nat -> bool;
  ngx_ssl_create_connection : nat -> bool;
  ngx_ssl_handshake_again : nat -> bool;
  ngx_event_pipe : nat -> bool -> pipe -> bool * pipe;   (** [NGX_ABORT] or not *)
  ngx_time : nat -> Z;
  ngx_msec : nat -> Z;
  now : nat -> Z;   (** the clock of the balancer *)
  ngx_resolve_start : nat -> option bool;   (** NULL, [NGX_NO_RESOLVER] is [Some false] *)
  ngx_resolve_name : nat -> bool;
  (** The memory and the texts of the balancer, and TLS sessions *)
  alloc : RoundRobin.allocation -> bool;
  ngx_inet_ntop : Z -> list Z;
  sprint_d : Z -> list Z;
  htons : Z -> Z;
  NGX_PEER_NEXT : Z;
  NGX_PEER_FAILED : Z;
  ngx_ssl_set_session : option Z -> option Z -> ngx_rc;
  ngx_ssl_get_session : option Z -> option Z;
  (** The modules and the rest of the server *)
  create_request : nat -> ngx_rc;
  reinit_request : nat -> ngx_rc;
  process_header : nat -> buf -> headers_request -> parsed;
  input_filter_init : nat -> bool;   (** not [NGX_ERROR] *)
  (** [u->input_filter] of a module on new bytes: the buffers it adds to
      [u->out_bufs], [u->length] and [u->buffer.last]; [None] is [NGX_ERROR] *)
  custom_input_filter : nat -> buf -> Z -> option (list (Z * Z) * Z * Z);
  ngx_http_send_header : nat -> ngx_rc;
  ngx_http_send_special : nat -> ngx_rc;
  ngx_http_output_filter : nat -> nat -> option nat;   (** of so many buffers, how many stay busy *)
  ngx_http_test_predicates : nat -> ngx_rc;
  ngx_http_file_cache_new : nat -> bool;
  create_key : nat -> bool;
  ngx_http_file_cache_open : nat -> ngx_rc;
  ngx_http_file_cache_create : nat -> bool;
  ngx_http_file_cache_valid : nat -> Z;
  cached_without_header : nat -> bool;   (** [c->header_start == c->body_start] *)
  cached_buf : nat -> buf;   (** [*c->buf] *)
  ngx_http_cache_send : nat -> ngx_rc;
  header_core :: UpstreamHeaders.Core;
}.

End UpstreamState.
