(* ===== verification/Upstream.v ===== *)
(** * The upstream state machine

    From [ngx_http_upstream.c]: a request that is passed to an upstream, from
    the lookup in the cache and the choice of a peer to the end of the response.
    [ngx_http_upstream_next] tries another peer and so starts again from
    [ngx_http_upstream_connect]; the functions on the way are written over that
    call ([connect]), and [ngx_http_upstream_connect] ties the knot with as much
    fuel as attempts are allowed.  The server is built with the cache and TLS,
    without kqueue and the half-closed events of epoll. *)

From S2P Require Import Prelude RoundRobin UpstreamHeaders UpstreamState.

Module Upstream.
Import RoundRobin.RoundRobin UpstreamHeaders.UpstreamHeaders UpstreamState.UpstreamState.
#[local] Open Scope upstream_scope.

Definition NGX_HTTP_UPSTREAM_FT_ERROR : Z := 0x00000002.
Definition NGX_HTTP_UPSTREAM_FT_TIMEOUT : Z := 0x00000004.
Definition NGX_HTTP_UPSTREAM_FT_INVALID_HEADER : Z := 0x00000008.
Definition NGX_HTTP_UPSTREAM_FT_HTTP_500 : Z := 0x00000010.
Definition NGX_HTTP_UPSTREAM_FT_HTTP_502 : Z := 0x00000020.
Definition NGX_HTTP_UPSTREAM_FT_HTTP_503 : Z := 0x00000040.
Definition NGX_HTTP_UPSTREAM_FT_HTTP_504 : Z := 0x00000080.
Definition NGX_HTTP_UPSTREAM_FT_HTTP_403 : Z := 0x00000100.
Definition NGX_HTTP_UPSTREAM_FT_HTTP_404 : Z := 0x00000200.
Definition NGX_HTTP_UPSTREAM_FT_UPDATING : Z := 0x00000400.
Definition NGX_HTTP_UPSTREAM_FT_NOLIVE : Z := 0x40000000.

Definition NGX_HTTP_UPSTREAM_INVALID_HEADER : ngx_rc := Code 40.

Definition NGX_HTTP_CACHE_MISS : Z := 1.
Definition NGX_HTTP_CACHE_BYPASS : Z := 2.
Definition NGX_HTTP_CACHE_EXPIRED : Z := 3.
Definition NGX_HTTP_CACHE_STALE : Z := 4.
Definition NGX_HTTP_CACHE_UPDATING : Z := 5.
Definition NGX_HTTP_CACHE_HIT : Z := 6.
Definition NGX_HTTP_CACHE_SCARCE : Z := 7.

Definition NGX_HTTP_SPECIAL_RESPONSE : Z := 300.
Definition NGX_HTTP_OK : Z := 200.
Definition NGX_HTTP_UNAUTHORIZED : Z := 401.
Definition NGX_HTTP_FORBIDDEN : Z := 403.
Definition NGX_HTTP_NOT_FOUND : Z := 404.
Definition NGX_HTTP_REQUEST_TIME_OUT : ngx_rc := Code 408.
Definition NGX_HTTP_CLIENT_CLOSED_REQUEST : ngx_rc := Code 499.
Definition NGX_HTTP_INTERNAL_SERVER_ERROR : ngx_rc := Code 500.
Definition NGX_HTTP_BAD_GATEWAY : ngx_rc := Code 502.
Definition NGX_HTTP_GATEWAY_TIME_OUT : ngx_rc := Code 504.

Definition NGX_HTTP_LAST : Z := 1.
Definition NGX_HTTP_FLUSH : Z := 2.
Definition NGX_HTTP_VERSION_9 : Z := 9.

(** [rc >= NGX_HTTP_SPECIAL_RESPONSE] and [rc > NGX_OK] *)
Definition special (rc : ngx_rc) : bool := match rc with Code z => NGX_HTTP_SPECIAL_RESPONSE <=? z | _ => false end.
Definition positive (rc : ngx_rc) : bool := match rc with Code z => 0 <? z | _ => false end.

(** [ngx_http_upstream_next_errors] *)
Definition ngx_http_upstream_next_errors : list (Z * Z) := [
  (500, NGX_HTTP_UPSTREAM_FT_HTTP_500); (502, NGX_HTTP_UPSTREAM_FT_HTTP_502); (503, NGX_HTTP_UPSTREAM_FT_HTTP_503);
  (504, NGX_HTTP_UPSTREAM_FT_HTTP_504); (403, NGX_HTTP_UPSTREAM_FT_HTTP_403); (404, NGX_HTTP_UPSTREAM_FT_HTTP_404)].

(** [a & b] as a condition *)
Definition has (a b : Z) : bool := negb (Z.land a b =? 0).

(** ** Fields *)

Definition cacheable (s : st) : bool := UpstreamHeaders.cacheable (hdr s).
Definition length_ (s : st) : Z := UpstreamHeaders.length_ (hdr s).
Definition has_cache (s : st) : bool := bool_decide (is_Some (UpstreamHeaders.cache (hdr s))).
Definition valid_sec (s : st) : Z := default 0 (UpstreamHeaders.cache (hdr s)).
Definition status_n (s : st) : Z := UpstreamHeaders.status_n (UpstreamHeaders.headers_in (hdr s)).
Definition content_length_n (s : st) : Z := UpstreamHeaders.content_length_n (UpstreamHeaders.headers_in (hdr s)).

Definition on_hdr (f : headers_request -> headers_request) : M unit := write (fun s => s <| hdr := f (hdr s) |>).
Definition set_cacheable (b : bool) : M unit := on_hdr (fun h => h <| UpstreamHeaders.cacheable := b |>).
Definition set_length (n : Z) : M unit := on_hdr (fun h => h <| UpstreamHeaders.length_ := n |>).
Definition set_cache (v : option Z) : M unit := on_hdr (fun h => h <| UpstreamHeaders.cache := v |>).
Definition set_cached (b : bool) : M unit := on_hdr (fun h => h <| UpstreamHeaders.cached := b |>).

Definition on_buffer (f : buf -> buf) : M unit := write (fun s => s <| buffer := f (buffer s) |>).
Definition on_pipe (f : pipe -> pipe) : M unit := write (fun s => s <| u_pipe := f (u_pipe s) |>).
Definition on_peer (f : RoundRobin.upstream -> RoundRobin.upstream) : M unit := write (fun s => s <| peer := f (peer s) |>).

(** The peer connection: [u->peer.sockaddr], [tries], [connection]. *)
Definition pc (s : st) : RoundRobin.peer_connection := RoundRobin.u_peer (peer s).
Definition sockaddr (s : st) : option RoundRobin.addr := RoundRobin.pc_sockaddr (pc s).
Definition connection (s : st) : option Z := RoundRobin.connection (pc s).
Definition on_pc (f : RoundRobin.peer_connection -> RoundRobin.peer_connection) : M unit :=
  on_peer (fun u => u <| RoundRobin.u_peer := f (RoundRobin.u_peer u) |>).

(** [*u->state]; NULL cannot be written. *)
Definition on_state (f : upstream_state -> upstream_state) : M unit :=
  i <- read state ;;
  match i with
  | Some i => write (fun s => s <| states := alter f i <$> states s |>)
  | None => crash
  end.

(** [c = u->peer.connection] where a field of [c] is used. *)
Definition deref_connection : M unit :=
  c <- read connection ;; if bool_decide (is_Some c) then ok else crash.

Section Machine.
Context `{World} (cf : conf).

(** ** The end of a request *)

Definition ngx_http_finalize_request (rc : ngx_rc) : M unit := record (Finalized rc).

(** The connection is closed, and its pool and its timers with it. *)
Definition close_connection : M unit :=
  c <- read connection ;;
  if bool_decide (is_Some c) then
    record Closed ;;
    on_pc (fun p => p <| RoundRobin.connection := None |>) ;;
    write (fun s => s <| c_ssl := false |> <| handshaking := false |> <| write_timer := false |> <| read_timer := false |>
                      <| u_nodelay := false |>)
  else ok.

(** The time of the attempt, when [u->state] has one; [final] also takes the
    length of the response over. *)
Definition end_of_state (final : bool) : M unit :=
  i <- read state ;;
  l <- read states ;;
  match i with
  | Some i =>
      let sec := from_option (fun l => from_option response_sec 0 (l !! i)) 0 l in
      if sec =? 0 then ok
      else
        t <- ask ngx_time ;;
        m <- ask ngx_msec ;;
        p <- read u_pipe ;;
        on_state (fun x =>
          let x := x <| response_sec := swrap 64 (t - response_sec x) |>
                     <| response_msec := wrap 64 (m - response_msec x) |> in
          if final && negb (read_length p =? 0) then x <| response_length := read_length p |> else x)
  | None => ok
  end.

(** [u->peer.free(&u->peer, u->peer.data, state); u->peer.sockaddr = NULL] *)
Definition free_peer (state : Z) : M unit :=
  n <- ask now ;;
  s <- read (fun s => s) ;;
  let '(h, u) := RoundRobin.release NGX_PEER_FAILED n state (heap s) (peer s) in
  record (Peer_freed state) ;;
  write (fun s => s <| heap := h |> <| peer := u |>).

(** [ngx_http_file_cache_free] and the validity of an error. *)
Definition error_valid (rc : ngx_rc) : M unit :=
  match rc with
  | Code z =>
      valid <- ask ngx_http_file_cache_valid ;;
      if negb (valid =? 0) then
        t <- ask ngx_time ;;
        set_cache (Some (swrap 64 (t + valid))) ;;
        write (fun s => s <| cache_error := z |>)
      else ok
  | _ => ok
  end.

Definition finalize_cache (rc : ngx_rc) : M unit :=
  s <- read (fun s => s) ;;
  if has_cache s then
    (if cacheable s && (bool_decide (rc = NGX_HTTP_BAD_GATEWAY) || bool_decide (rc = NGX_HTTP_GATEWAY_TIME_OUT))
     then error_valid rc else ok) ;;
    record Cache_freed
  else ok.

(** What is said to the client at the end. *)
Definition finalize_client (rc : ngx_rc) : M unit :=
  s <- read (fun s => s) ;;
  if negb (header_sent s) || bool_decide (rc = NGX_HTTP_REQUEST_TIME_OUT)
     || bool_decide (rc = NGX_HTTP_CLIENT_CLOSED_REQUEST)
  then ngx_http_finalize_request rc
  else
    let flush := special rc in
    let rc := if flush then NGX_ERROR else rc in
    if header_only s then ngx_http_finalize_request rc
    else if bool_decide (rc = NGX_OK) then
      record (Special NGX_HTTP_LAST) ;;
      rc <- ask ngx_http_send_special ;;
      ngx_http_finalize_request rc
    else if flush then
      write (fun s => s <| r_keepalive := false |>) ;;
      record (Special NGX_HTTP_FLUSH) ;;
      rc <- ask ngx_http_send_special ;;
      ngx_http_finalize_request rc
    else ngx_http_finalize_request rc.

Definition delete_temp_file : M unit :=
  s <- read (fun s => s) ;;
  match temp_file (u_pipe s) with
  | Some (_, true) => when u_store s do record Temp_file_deleted
  | _ => ok
  end.

Definition ngx_http_upstream_finalize_request (rc : ngx_rc) : M unit :=
  write (fun s => s <| cleanup := false |> <| resolving := false |>) ;;
  end_of_state true ;;
  record (Module_finalized rc) ;;
  s <- read (fun s => s) ;;
  (if bool_decide (is_Some (RoundRobin.peer_data (peer s))) && bool_decide (is_Some (sockaddr s))
   then free_peer 0 else ok) ;;
  close_connection ;;
  delete_temp_file ;;
  finalize_cache rc ;;
  match rc with NGX_DECLINED => ok | rc => finalize_client rc end.

(** [ngx_http_upstream_cleanup] *)
Definition ngx_http_upstream_cleanup : M unit := ngx_http_upstream_finalize_request NGX_DONE.

Abbreviation finalize := ngx_http_upstream_finalize_request.

(** ** The headers *)

(** [u->process_header(r)] *)
Definition run_process_header : M ngx_rc :=
  s <- read (fun s => s) ;;
  p <- ask (fun n => process_header n (buffer s) (hdr s)) ;;
  on_buffer (fun b => b <| pos := p_pos p |>) ;;
  write (fun s => s <| hdr := p_hdr p |> <| u_keepalive := p_keepalive p |> <| upgrade := p_upgrade p |>) ;;
  ret (p_rc p).

(** [ngx_memzero] of [u->headers_in] *)
Definition zero_headers_in : UpstreamHeaders.ngx_http_upstream_headers_in_t :=
  UpstreamHeaders.HeadersIn [] 0 [] (fun _ => None) (-1) [] false false.

Definition run_effect (e : UpstreamHeaders.effect) : M unit :=
  match e with
  | UpstreamHeaders.Upstream_finalized rc => finalize rc
  | UpstreamHeaders.Finalized rc => ngx_http_finalize_request rc
  | UpstreamHeaders.Internal_redirect uri args => record (Redirected uri args)
  end.

Fixpoint run_effects (es : list UpstreamHeaders.effect) : M unit :=
  match es with
  | [] => ok
  | e :: es => run_effect e ;; run_effects es
  end.

Definition process_headers : M ngx_rc :=
  h <- read hdr ;;
  let '(es, rc, h) := UpstreamHeaders.ngx_http_upstream_process_headers (hdr_conf cf) h in
  write (fun s => s <| hdr := h |>) ;;
  run_effects es ;;
  ret rc.

(** What [ngx_pcalloc] leaves of [u->peer]. *)
Definition zero_peer_connection : RoundRobin.upstream :=
  RoundRobin.Upstream None (RoundRobin.PC None [] 0 false None) RoundRobin.round_robin_sessions.

(** [ngx_http_upstream_create]: an upstream the request had is ended first. *)
Definition ngx_http_upstream_create : M ngx_rc :=
  c <- read cleanup ;;
  (if c then ngx_http_upstream_cleanup else ok) ;;
  m <- ask memory ;;
  if negb m then ret NGX_ERROR
  else
    write (fun s => s <| peer := zero_peer_connection |> <| state := None |> <| resolved := None |> <| resolving := false |>
                      <| cleanup := false |> <| request_sent := false |> <| header_sent := false |> <| u_store := false |>
                      <| u_keepalive := false |> <| upgrade := false |> <| cache_status := 0 |> <| buffer := null_buf |>) ;;
    write (fun s => s <| from_client := null_buf |> <| out_bufs := [] |> <| busy_bufs := [] |>
                      <| u_read := no_handler |> <| u_write := no_handler |>) ;;
    on_hdr (fun h => h <| headers_in := zero_headers_in |> <| UpstreamHeaders.cacheable := false |> <| buffering := false |>
                       <| UpstreamHeaders.length_ := 0 |> <| cache := None |>) ;;
    ret NGX_OK.

(** ** The cache *)

Definition send_cached : M ngx_rc :=
  rc <- ask ngx_http_cache_send ;;
  record Cache_sent ;;
  ret rc.

Definition ngx_http_upstream_cache_send : M ngx_rc :=
  set_cached true ;;
  headerless <- ask cached_without_header ;;
  if headerless then
    write (fun s => s <| http_version := NGX_HTTP_VERSION_9 |>) ;;
    send_cached
  else
    b <- ask cached_buf ;;
    write (fun s => s <| buffer := b <| pos := pos b + header_start cf |> |>) ;;
    on_hdr (fun h => h <| UpstreamHeaders.headers_in := zero_headers_in |>) ;;
    m <- ask memory ;;
    if negb m then ret NGX_ERROR
    else
      rc <- run_process_header ;;
      match rc with
      | NGX_OK =>
          rc <- process_headers ;;
          match rc with NGX_OK => send_cached | _ => ret NGX_DONE end
      | rc => ret rc
      end.

(** The part of [ngx_http_upstream_cache] for a request without [r->cache];
    [Some rc] returns. *)
Definition cache_new : M (option ngx_rc) :=
  h <- read hdr ;;
  if negb (has (UpstreamHeaders.method h) (cache_methods cf)) then ret (Some NGX_DECLINED)
  else
    new <- ask ngx_http_file_cache_new ;;
    if negb new then ret (Some NGX_ERROR)
    else
      set_cache (Some 0) ;;
      key <- ask create_key ;;
      if negb key then ret (Some NGX_ERROR)
      else if buffer_size cf <=? header_start cf + 256 then set_cache None ;; ret (Some NGX_DECLINED)
      else
        set_cacheable true ;;
        rc <- ask ngx_http_test_predicates ;;
        match rc with
        | NGX_ERROR => ret (Some NGX_ERROR)
        | NGX_DECLINED =>
            write (fun s => s <| cache_status := NGX_HTTP_CACHE_BYPASS |>) ;;
            ret (Some NGX_DECLINED)
        | _ => write (fun s => s <| body_start := buffer_size cf |> <| cache_status := NGX_HTTP_CACHE_MISS |>) ;; ret None
        end.

(** [u->buffer.start = NULL] *)
Definition drop_buffer : M unit := on_buffer (fun b => Buf false (mem b) (pos b) (last b) (end_ b)).

Definition ngx_http_upstream_cache : M ngx_rc :=
  s <- read (fun s => s) ;;
  r <- (if has_cache s then ret None else cache_new) ;;
  match r with
  | Some rc => ret rc
  | None =>
      rc <- ask ngx_http_file_cache_open ;;
      let set_status n : M unit := write (fun s => s <| cache_status := n |>) in
      rc <- (match rc with
             | Code 5 =>
                 if has (cache_use_stale cf) NGX_HTTP_UPSTREAM_FT_UPDATING
                 then set_status NGX_HTTP_CACHE_UPDATING ;; ret NGX_OK
                 else ret (Code NGX_HTTP_CACHE_STALE)
             | NGX_OK => set_status NGX_HTTP_CACHE_HIT ;; ret NGX_OK
             | rc => ret rc
             end) ;;
      let declined : M ngx_rc := set_cached false ;; ret NGX_DECLINED in
      match rc with
      | NGX_OK =>
          rc <- ngx_http_upstream_cache_send ;;
          if bool_decide (rc = NGX_HTTP_UPSTREAM_INVALID_HEADER) then declined else ret rc
      | Code 4 =>
          set_cache (Some 0) ;; drop_buffer ;; set_status NGX_HTTP_CACHE_EXPIRED ;; declined
      | NGX_DECLINED =>
          b <- read buffer ;;
          (if (if start b then end_ b else 0) <? buffer_size cf then drop_buffer
           else on_buffer (fun b => b <| pos := header_start cf |> <| last := header_start cf |>)) ;;
          declined
      | Code 7 => set_cacheable false ;; declined
      | NGX_AGAIN => ret NGX_BUSY
      | NGX_ERROR => ret NGX_ERROR
      | rc => set_status NGX_HTTP_CACHE_HIT ;; ret rc
      end
  end.

(** ** Over the next attempt *)

Section Attempt.
Context (connect : M unit).

(** The answer of a stale cached response, after which the request is ended. *)
Definition send_stale : M unit :=
  rc <- ask reinit_request ;;
  rc <- (match rc with
         | NGX_OK => write (fun s => s <| cache_status := NGX_HTTP_CACHE_STALE |>) ;; ngx_http_upstream_cache_send
         | rc => ret rc
         end) ;;
  finalize rc.

(** The status of a failure. *)
Definition failure_status (ft_type : Z) : Z :=
  if ft_type =? NGX_HTTP_UPSTREAM_FT_TIMEOUT then 504
  else if ft_type =? NGX_HTTP_UPSTREAM_FT_HTTP_500 then 500
  else if ft_type =? NGX_HTTP_UPSTREAM_FT_HTTP_403 then 403
  else if ft_type =? NGX_HTTP_UPSTREAM_FT_HTTP_404 then 404
  else 502.

Definition ngx_http_upstream_next (ft_type : Z) : M unit :=
  s <- read (fun s => s) ;;
  (if bool_decide (is_Some (sockaddr s)) then
     let state := if (ft_type =? NGX_HTTP_UPSTREAM_FT_HTTP_403) || (ft_type =? NGX_HTTP_UPSTREAM_FT_HTTP_404)
                  then NGX_PEER_NEXT else NGX_PEER_FAILED in
     if bool_decide (is_Some (peer_data (peer s))) then free_peer state else crash
   else ok) ;;
  s <- read (fun s => s) ;;
  let again := RoundRobin.cached (pc s) && (ft_type =? NGX_HTTP_UPSTREAM_FT_ERROR) in
  (if again then on_pc (fun p => p <| tries := wrap 64 (tries p + 1) |>) else ok) ;;
  if c_error s then finalize NGX_HTTP_CLIENT_CLOSED_REQUEST
  else
    let retry : M unit := close_connection ;; connect in
    if again then retry
    else
      let status := failure_status ft_type in
      on_state (fun x => x <| s_status := status |>) ;;
      if (tries (pc s) =? 0) || negb (has (next_upstream cf) ft_type) then
        if (cache_status s =? NGX_HTTP_CACHE_EXPIRED) && has (cache_use_stale cf) ft_type
        then send_stale else finalize (Code status)
      else retry.

(** The row of a status in [ngx_http_upstream_next_errors]. *)
Fixpoint next_error (l : list (Z * Z)) (status : Z) : option Z :=
  match l with
  | [] => None
  | (s, mask) :: l => if status =? s then Some mask else next_error l status
  end.

Definition ngx_http_upstream_test_next : M ngx_rc :=
  s <- read (fun s => s) ;;
  match next_error ngx_http_upstream_next_errors (status_n s) with
  | None => ret NGX_DECLINED
  | Some mask =>
      if (1 <? tries (pc s)) && has (next_upstream cf) mask then ngx_http_upstream_next mask ;; ret NGX_OK
      else if (cache_status s =? NGX_HTTP_CACHE_EXPIRED) && has (cache_use_stale cf) mask
      then send_stale ;; ret NGX_OK
      else ret NGX_DECLINED
  end.

(** The header "WWW-Authenticate" of the response; [false] is a failed push. *)
Definition copy_www_authenticate : M bool :=
  h <- read hdr ;;
  match ptr_in (headers_in h) in_www_authenticate with
  | None => ret true
  | Some p =>
      m <- ask memory ;;
      if m then
        let hs := out_headers (headers_out h) in
        on_hdr (fun h => point_out out_www_authenticate (length hs)
          (h <| headers_out := (headers_out h) <| out_headers := hs ++ [elt h p] |> |>)) ;;
        ret true
      else ret false
  end.

Definition intercepted (status : Z) : M ngx_rc :=
  pushed <- (if status =? NGX_HTTP_UNAUTHORIZED then copy_www_authenticate else ret true) ;;
  if negb pushed then finalize NGX_HTTP_INTERNAL_SERVER_ERROR ;; ret NGX_OK
  else
    s <- read (fun s => s) ;;
    (if has_cache s then error_valid (Code status) ;; record Cache_freed else ok) ;;
    finalize (Code status) ;;
    ret NGX_OK.

Definition ngx_http_upstream_intercept_errors : M ngx_rc :=
  s <- read (fun s => s) ;;
  let status := status_n s in
  if (status =? NGX_HTTP_NOT_FOUND) && intercept_404 cf then finalize (Code NGX_HTTP_NOT_FOUND) ;; ret NGX_OK
  else if negb (intercept_errors cf) then ret NGX_DECLINED
  else
    match error_pages cf with
    | None => ret NGX_DECLINED
    | Some pages => if bool_decide (status ∈ pages) then intercepted status else ret NGX_DECLINED
    end.

(** [c->recv(c, b->last, b->end - b->last)] on the upstream's connection. *)
Definition recv_buffer : M received :=
  deref_connection ;;
  b <- read buffer ;;
  n <- ask (fun n => recv n (end_ b - last b)) ;;
  match n with
  | Bytes l => record (From_upstream l) ;; on_buffer (fun b => UpstreamState.store b l) ;; ret n
  | n => ret n
  end.

(** *** Bodies without an event pipe *)

(** [ngx_http_upstream_non_buffered_filter]; the bytes are at [u->buffer.last]. *)
Definition ngx_http_upstream_non_buffered_filter (bytes : Z) : M bool :=
  m <- ask memory ;;
  if negb m then ret false
  else
    write (fun s => s <| out_bufs := out_bufs s ++ [(last (buffer s), last (buffer s) + bytes)] |>) ;;
    on_buffer (fun b => b <| last := last b + bytes |>) ;;
    l <- read length_ ;;
    (if l =? -1 then ok else set_length (l - bytes)) ;;
    ret true.

(** [u->input_filter] of a module. *)
Definition run_custom_filter (bytes : Z) : M bool :=
  b <- read buffer ;;
  r <- ask (fun n => custom_input_filter n b bytes) ;;
  match r with
  | Some (bufs, len, p) =>
      write (fun s => s <| out_bufs := out_bufs s ++ bufs |>) ;;
      on_buffer (fun b => b <| last := p |>) ;;
      set_length len ;;
      ret true
  | None => ret false
  end.

Definition input_filter (bytes : Z) : M bool :=
  if custom_filter cf then run_custom_filter bytes else ngx_http_upstream_non_buffered_filter bytes.

(** [u->input_filter_init], [ngx_http_upstream_non_buffered_filter_init] unless
    the module has its own. *)
Definition filter_init : M bool := if custom_filter cf then ask input_filter_init else ret true.

Definition count_bytes (n : Z) : M unit := on_state (fun x => x <| response_length := swrap 64 (response_length x + n) |>).

(** The bytes that came with the header; [false] is [NGX_ERROR]. *)
Definition filter_preread : M bool :=
  b <- read buffer ;;
  let n := last b - pos b in
  if n =? 0 then ret true
  else
    on_buffer (fun b => b <| last := pos b |>) ;;
    count_bytes n ;;
    input_filter n.

Definition upstream_read_timer : M unit :=
  active <- ask upstream_read_active ;;
  write (fun s => s <| read_timer := active |>).

(** The [for ( ;; )]; [true] is a [break]. *)
Fixpoint body_in_memory_loop (fuel : nat) : M bool :=
  match fuel with
  | O => out_of_fuel
  | S fuel =>
      b <- read buffer ;;
      if end_ b - last b =? 0 then finalize NGX_ERROR ;; ret false
      else
        n <- recv_buffer ;;
        match n with
        | Again => ret true
        | Error => finalize NGX_ERROR ;; ret false
        | Bytes [] => finalize NGX_OK ;; ret false
        | Bytes l =>
            count_bytes (Z.of_nat (length l)) ;;
            f <- input_filter (Z.of_nat (length l)) ;;
            if negb f then finalize NGX_ERROR ;; ret false
            else
              ready <- ask upstream_read_ready ;;
              if ready then body_in_memory_loop fuel else ret true
        end
  end.

Definition ngx_http_upstream_process_body_in_memory (fuel : nat) : M unit :=
  deref_connection ;;
  timedout <- ask upstream_read_timedout ;;
  if timedout then finalize NGX_HTTP_GATEWAY_TIME_OUT
  else
    more <- body_in_memory_loop fuel ;;
    if negb more then ok
    else
      l <- read length_ ;;
      if l =? 0 then finalize NGX_OK
      else
        e <- ask ngx_handle_read_event ;;
        if negb e then finalize NGX_ERROR else upstream_read_timer.

(** *** Without buffering *)

(** [ngx_http_output_filter] on [u->out_bufs], and [ngx_chain_update_chains]:
    what does not stay busy has been written from [u->buffer]. *)
Definition output_bufs : M bool :=
  s <- read (fun s => s) ;;
  let bufs := busy_bufs s ++ out_bufs s in
  r <- ask (fun n => ngx_http_output_filter n (length bufs)) ;;
  match r with
  | None => ret false
  | Some k =>
      let sent := take (length bufs - k) bufs in
      record (Output (concat (map (fun x => slice (mem (buffer s)) x.1 x.2) sent))) ;;
      write (fun s => s <| busy_bufs := drop (length bufs - k) bufs |> <| out_bufs := [] |>) ;;
      ret true
  end.

(** The part of the loop with [do_write]; [None] goes on, [Some rc] is the end
    of the request. *)
Definition non_buffered_write : M (option ngx_rc) :=
  s <- read (fun s => s) ;;
  sent <- (if bool_decide (out_bufs s = []) && bool_decide (busy_bufs s = []) then ret true else output_bufs) ;;
  if negb sent then ret (Some NGX_ERROR)
  else
    s <- read (fun s => s) ;;
    if negb (bool_decide (busy_bufs s = [])) then ret None
    else if length_ s =? 0 then ret (Some NGX_OK)
    else
      deref_connection ;;
      eof <- ask upstream_read_eof ;;
      if eof then ret (Some (if length_ s =? -1 then NGX_OK else NGX_HTTP_BAD_GATEWAY))
      else
        err <- ask upstream_read_error ;;
        if err then ret (Some NGX_HTTP_BAD_GATEWAY)
        else on_buffer (fun b => b <| pos := 0 |> <| last := 0 |>) ;; ret None.

(** The [for ( ;; )]; [true] is a [break]. *)
Fixpoint non_buffered_loop (fuel : nat) (do_write : bool) : M bool :=
  match fuel with
  | O => out_of_fuel
  | S fuel =>
      e <- (if do_write then non_buffered_write else ret None) ;;
      match e with
      | Some rc => finalize rc ;; ret false
      | None =>
          deref_connection ;;
          b <- read buffer ;;
          ready <- ask upstream_read_ready ;;
          if negb (end_ b - last b =? 0) && ready then
            n <- recv_buffer ;;
            match n with
            | Again => ret true
            | Error | Bytes [] => non_buffered_loop fuel true
            | Bytes l =>
                count_bytes (Z.of_nat (length l)) ;;
                f <- input_filter (Z.of_nat (length l)) ;;
                if negb f then finalize NGX_ERROR ;; ret false
                else non_buffered_loop fuel true
            end
          else ret true
      end
  end.

Definition ngx_http_upstream_process_non_buffered_request (fuel : nat) (do_write : bool) : M unit :=
  l <- read length_ ;;
  more <- non_buffered_loop fuel (do_write || (l =? 0)) ;;
  if negb more then ok
  else
    w <- ask ngx_handle_write_event ;;
    if negb w then finalize NGX_ERROR
    else
      e <- ask ngx_handle_read_event ;;
      if negb e then finalize NGX_ERROR else deref_connection ;; upstream_read_timer.

Definition ngx_http_upstream_process_non_buffered_downstream (fuel : nat) : M unit :=
  timedout <- ask downstream_write_timedout ;;
  if timedout then
    write (fun s => s <| c_timedout := true |>) ;;
    finalize NGX_HTTP_REQUEST_TIME_OUT
  else ngx_http_upstream_process_non_buffered_request fuel true.

Definition ngx_http_upstream_process_non_buffered_upstream (fuel : nat) : M unit :=
  deref_connection ;;
  timedout <- ask upstream_read_timedout ;;
  if timedout then finalize NGX_HTTP_GATEWAY_TIME_OUT
  else ngx_http_upstream_process_non_buffered_request fuel false.

(** *** An upgraded connection *)

(** The buffer of a direction. *)
Inductive tunnel_buf := upstream_buffer | client_buffer | client_header.

Definition get_buf (w : tunnel_buf) (s : st) : buf :=
  match w with upstream_buffer => buffer s | client_buffer => from_client s | client_header => header_in s end.

Definition on_buf (w : tunnel_buf) (f : buf -> buf) : M unit :=
  match w with
  | upstream_buffer => on_buffer f
  | client_buffer => write (fun s => s <| from_client := f (from_client s) |>)
  | client_header => write (fun s => s <| header_in := f (header_in s) |>)
  end.

(** [dst->send]; [false] is [NGX_ERROR]. *)
Definition tunnel_send (from_upstream : bool) (w : tunnel_buf) : M bool :=
  s <- read (fun s => s) ;;
  let b := get_buf w s in
  if last b - pos b =? 0 then ret true
  else
    ready <- (if from_upstream then ask downstream_write_ready
              else deref_connection ;; ask upstream_write_ready) ;;
    if negb ready then ret true
    else
      r <- ask (fun n => send n (pending b)) ;;
      match r with
      | None => ret false
      | Some n =>
          if 0 <? n then
            let sent := take (Z.to_nat n) (pending b) in
            record (if from_upstream then Output sent else To_upstream sent) ;;
            on_buf w (fun b =>
              let b := b <| pos := pos b + n |> in
              if pos b =? last b then b <| pos := 0 |> <| last := 0 |> else b) ;;
            ret true
          else ret true
      end.

(** The [for ( ;; )]: whether the source has failed, or [None] at the end of
    the request. *)
Fixpoint tunnel_loop (fuel : nat) (from_upstream : bool) (w : tunnel_buf) (do_write : bool) : M (option bool) :=
  match fuel with
  | O => out_of_fuel
  | S fuel =>
      sent <- (if do_write then tunnel_send from_upstream w else ret true) ;;
      if negb sent then finalize NGX_ERROR ;; ret None
      else
        s <- read (fun s => s) ;;
        let size := end_ (get_buf w s) - last (get_buf w s) in
        ready <- (if size =? 0 then ret false
                  else if from_upstream then deref_connection ;; ask upstream_read_ready else ask downstream_read_ready) ;;
        if negb ready then ret (Some false)
        else
          n <- ask (fun n => recv n size) ;;
          match n with
          | Again | Bytes [] => ret (Some false)
          | Error => ret (Some true)
          | Bytes l =>
              record (if from_upstream then From_upstream l else From_client l) ;;
              on_buf w (fun b => (UpstreamState.store b l) <| last := last b + Z.of_nat (length l) |>) ;;
              tunnel_loop fuel from_upstream w true
          end
  end.

(** The buffer of the direction, allocated the first time; [None] when there is
    no memory. *)
Definition tunnel_buffer (from_upstream do_write : bool) : M (option (tunnel_buf * bool)) :=
  if from_upstream then ret (Some (upstream_buffer, do_write))
  else
    s <- read (fun s => s) ;;
    if pos (header_in s) <? last (header_in s) then
      on_buf client_header (fun b => b <| end_ := last b |>) ;;
      ret (Some (client_header, true))
    else if start (from_client s) then ret (Some (client_buffer, do_write))
    else
      m <- ask memory ;;
      if negb m then ret None
      else
        on_buf client_buffer (fun _ => Buf true [] 0 0 (buffer_size cf)) ;;
        ret (Some (client_buffer, do_write)).

(** The end of [ngx_http_upstream_process_upgraded]: the events are armed. *)
Definition tunnel_events : M unit :=
  deref_connection ;;
  w <- ask ngx_handle_write_event ;;
  if negb w then finalize NGX_ERROR
  else
    waits <- ask upstream_write_waits ;;
    write (fun s => s <| write_timer := waits |>) ;;
    e <- ask ngx_handle_read_event ;;
    if negb e then finalize NGX_ERROR
    else
      upstream_read_timer ;;
      w <- ask ngx_handle_write_event ;;
      if negb w then finalize NGX_ERROR
      else
        e <- ask ngx_handle_read_event ;;
        if negb e then finalize NGX_ERROR else ok.

Definition empty (b : buf) : bool := pos b =? last b.

Definition ngx_http_upstream_process_upgraded (fuel : nat) (from_upstream do_write : bool) : M unit :=
  timedout <- ask downstream_write_timedout ;;
  if timedout then
    write (fun s => s <| c_timedout := true |>) ;;
    finalize NGX_HTTP_REQUEST_TIME_OUT
  else
    deref_connection ;;
    rt <- ask upstream_read_timedout ;;
    wt <- ask upstream_write_timedout ;;
    if rt || wt then finalize NGX_HTTP_GATEWAY_TIME_OUT
    else
      b <- tunnel_buffer from_upstream do_write ;;
      match b with
      | None => finalize NGX_ERROR
      | Some (w, do_write) =>
          r <- tunnel_loop fuel from_upstream w do_write ;;
          match r with
          | None => ok
          | Some failed =>
              deref_connection ;;
              ue <- ask upstream_read_eof ;;
              de <- ask downstream_read_eof ;;
              let ue := ue || (failed && from_upstream) in
              let de := de || (failed && negb from_upstream) in
              s <- read (fun s => s) ;;
              if (ue && empty (buffer s)) || (de && empty (from_client s)) || (de && ue)
              then finalize NGX_OK else tunnel_events
          end
      end.

(** [setsockopt(TCP_NODELAY)] on a connection that does not have it. *)
Definition client_nodelay : M bool :=
  s <- read (fun s => s) ;;
  if tcp_nodelay cf && negb (c_nodelay s) then
    r <- ask setsockopt ;;
    if r then write (fun s => s <| c_nodelay := true |>) ;; ret true else ret false
  else ret true.

Definition upstream_nodelay : M bool :=
  if tcp_nodelay cf then
    deref_connection ;;
    s <- read (fun s => s) ;;
    if u_nodelay s then ret true
    else
      r <- ask setsockopt ;;
      if r then write (fun s => s <| u_nodelay := true |>) ;; ret true else ret false
  else ret true.

(** [ngx_http_send_special(r, NGX_HTTP_FLUSH) != NGX_ERROR] *)
Definition send_flush : M bool :=
  record (Special NGX_HTTP_FLUSH) ;;
  rc <- ask ngx_http_send_special ;;
  ret (negb (bool_decide (rc = NGX_ERROR))).

Definition ngx_http_upstream_upgrade (fuel : nat) : M unit :=
  write (fun s => s <| r_keepalive := false |> <| u_read := upgraded_read_upstream_handler |>
                    <| u_write := upgraded_write_upstream_handler |> <| r_read := upgraded_read_downstream_handler |>
                    <| r_write := upgraded_write_downstream_handler |>) ;;
  c <- client_nodelay ;;
  if negb c then finalize NGX_ERROR
  else
    u <- upstream_nodelay ;;
    if negb u then finalize NGX_ERROR
    else
      f <- send_flush ;;
      if negb f then finalize NGX_ERROR
      else
        deref_connection ;;
        ready <- ask upstream_read_ready ;;
        b <- read buffer ;;
        (if ready || negb (empty b) then ngx_http_upstream_process_upgraded fuel true true else ok) ;;
        ready <- ask downstream_read_ready ;;
        b <- read header_in ;;
        (if ready || negb (empty b) then ngx_http_upstream_process_upgraded fuel false true else ok).

(** *** Through the event pipe *)

(** [ngx_event_pipe]; [false] is [NGX_ABORT]. *)
Definition event_pipe (do_write : bool) : M bool :=
  p <- read u_pipe ;;
  r <- ask (fun n => ngx_event_pipe n do_write p) ;;
  write (fun s => s <| u_pipe := r.2 |>) ;;
  ret (negb r.1).

(** The response is whole. *)
Definition whole (s : st) (offset : Z) : bool :=
  (content_length_n s =? -1) || (content_length_n s =? offset).

(** The offset of [p->temp_file]. *)
Definition temp_offset (s : st) : Z := match temp_file (u_pipe s) with Some (n, _) => n | None => 0 end.

(** A temporary file for [ngx_http_upstream_store]; [false] when there is none. *)
Definition store_file : M bool :=
  s <- read (fun s => s) ;;
  match temp_file (u_pipe s) with
  | Some (_, true) => ret true
  | _ =>
      m <- ask memory ;;
      if m then on_pipe (fun p => p <| temp_file := Some (0, true) |>) ;; ret true else ret false
  end.

Definition ngx_http_upstream_store : M unit :=
  f <- store_file ;;
  if negb f then ok
  else
    path <- (if store_lengths cf then ask memory else ret true) ;;
    when path do record Stored.

Definition store_response : M unit :=
  s <- read (fun s => s) ;;
  let p := u_pipe s in
  if u_store s && (upstream_eof p || upstream_done p) && (status_n s =? NGX_HTTP_OK)
     && (upstream_done p || (p_length p =? -1)) && whole s (temp_offset s)
  then ngx_http_upstream_store ;; write (fun s => s <| u_store := false |>)
  else ok.

Definition cache_response : M unit :=
  s <- read (fun s => s) ;;
  let p := u_pipe s in
  if cacheable s then
    if upstream_done p then record Cache_updated
    else if upstream_eof p then
      if (p_length p =? -1) && whole s (temp_offset s - body_start s) then record Cache_updated else record Cache_freed
    else if upstream_error p then record Cache_freed
    else ok
  else ok.

Definition ngx_http_upstream_process_request : M unit :=
  s <- read (fun s => s) ;;
  let p := u_pipe s in
  let ended := upstream_done p || upstream_eof p || upstream_error p in
  let failed : M unit :=
    s <- read (fun s => s) ;;
    if downstream_error (u_pipe s) && negb (cacheable s) && negb (u_store s) && bool_decide (is_Some (connection s))
    then finalize NGX_ERROR else ok in
  if bool_decide (is_Some (connection s)) then
    store_response ;;
    cache_response ;;
    if ended then
      if upstream_done p || (upstream_eof p && (p_length p =? -1)) then finalize NGX_OK
      else finalize NGX_HTTP_BAD_GATEWAY
    else failed
  else failed.

Definition ngx_http_upstream_process_upstream : M unit :=
  deref_connection ;;
  timedout <- ask upstream_read_timedout ;;
  if timedout then on_pipe (fun p => p <| upstream_error := true |>) ;; ngx_http_upstream_process_request
  else
    a <- event_pipe false ;;
    if a then ngx_http_upstream_process_request else finalize NGX_ERROR.

Definition ngx_http_upstream_process_downstream : M unit :=
  timedout <- ask downstream_write_timedout ;;
  d <- read delayed ;;
  let rearm : M unit := w <- ask ngx_handle_write_event ;; if negb w then finalize NGX_ERROR else ok in
  let pump : M unit :=
    a <- event_pipe true ;; if a then ngx_http_upstream_process_request else finalize NGX_ERROR in
  if timedout then
    if d then
      write (fun s => s <| delayed := false |>) ;;
      ready <- ask downstream_write_ready ;;
      if negb ready then rearm else pump
    else
      on_pipe (fun p => p <| downstream_error := true |>) ;;
      write (fun s => s <| c_timedout := true |>) ;;
      ngx_http_upstream_process_request
  else if d then rearm else pump.

(** *** Sending the response *)

(** The branch without buffering. *)
Definition send_non_buffered (fuel : nat) : M unit :=
  write (fun s => s <| u_read := process_non_buffered_upstream_handler |>
                    <| r_write := process_non_buffered_downstream_handler |>) ;;
  on_hdr (fun h => h <| limit_rate := 0 |>) ;;
  i <- filter_init ;;
  if negb i then finalize NGX_ERROR
  else
    c <- client_nodelay ;;
    if negb c then finalize NGX_ERROR
    else
      b <- read buffer ;;
      if negb (last b - pos b =? 0) then
        f <- filter_preread ;;
        if negb f then finalize NGX_ERROR else ngx_http_upstream_process_non_buffered_downstream fuel
      else
        on_buffer (fun b => b <| pos := 0 |> <| last := 0 |>) ;;
        f <- send_flush ;;
        if negb f then finalize NGX_ERROR
        else
          deref_connection ;;
          ready <- ask upstream_read_ready ;;
          l <- read length_ ;;
          if ready || (l =? 0) then ngx_http_upstream_process_non_buffered_upstream fuel else ok.

(** How long the response is kept; it is not cacheable if that is no time. *)
Definition cache_validity : M unit :=
  s <- read (fun s => s) ;;
  (if cacheable s then
     t <- ask ngx_time ;;
     valid <- (if valid_sec s =? 0 then
                 v <- ask ngx_http_file_cache_valid ;;
                 (if v =? 0 then ok else set_cache (Some (swrap 64 (t + v)))) ;;
                 ret v
               else ret (valid_sec s)) ;;
     if valid =? 0 then
       set_cacheable false ;;
       on_hdr (fun h => h <| headers_out := (headers_out h) <| last_modified_time := -1 |> |>)
     else write (fun s => s <| body_start := wrap 16 (pos (buffer s)) |>)
   else ok) ;;
  s <- read (fun s => s) ;;
  if negb (cacheable s) && has_cache s then record Cache_freed else ok.

(** The cache of a response that is buffered; [false] is the end. *)
Definition cache_buffered : M bool :=
  rc <- ask ngx_http_test_predicates ;;
  match rc with
  | NGX_ERROR => ret false
  | NGX_DECLINED => set_cacheable false ;; cache_validity ;; ret true
  | _ =>
      s <- read (fun s => s) ;;
      created <- (if cache_status s =? NGX_HTTP_CACHE_BYPASS then
                    write (fun s => s <| body_start := buffer_size cf |>) ;;
                    ask ngx_http_file_cache_create
                  else ret true) ;;
      if negb created then ret false else cache_validity ;; ret true
  end.

(** The branch with an event pipe. *)
Definition send_buffered : M unit :=
  c <- cache_buffered ;;
  if negb c then finalize NGX_ERROR
  else
    temp <- ask memory ;;
    if negb temp then finalize NGX_ERROR
    else
      on_pipe (fun p => p <| temp_file := Some (0, false) |>) ;;
      link <- ask memory ;;
      if negb link then finalize NGX_ERROR
      else
        s <- read (fun s => s) ;;
        b <- (if cacheable s then ask memory else ret true) ;;
        if negb b then finalize NGX_ERROR
        else
          on_buffer (fun b => b <| last := pos b |>) ;;
          on_pipe (fun p => p <| p_length := -1 |>) ;;
          i <- ask input_filter_init ;;
          if negb i then finalize NGX_ERROR
          else
            write (fun s => s <| u_read := process_upstream_handler |> <| r_write := process_downstream_handler |>) ;;
            ngx_http_upstream_process_upstream.

Definition ngx_http_upstream_send_response (fuel : nat) : M unit :=
  record Header_sent ;;
  rc <- ask ngx_http_send_header ;;
  if bool_decide (rc = NGX_ERROR) || positive rc || post_action cf then finalize rc
  else
    write (fun s => s <| header_sent := true |>) ;;
    s <- read (fun s => s) ;;
    if upgrade s then ngx_http_upstream_upgrade fuel
    else if header_only s && negb (cacheable s || u_store s) then finalize rc
    else
      (if header_only s then
         write (fun s => s <| r_read := empty_handler |> <| r_write := empty_handler |> <| c_error := true |>)
       else ok) ;;
      if negb (buffering (hdr s)) then send_non_buffered fuel else send_buffered.

(** *** Reading the header *)

(** [u->buffer], allocated the first time. *)
Definition header_buffer : M bool :=
  s <- read (fun s => s) ;;
  if start (buffer s) then ret true
  else
    m <- ask memory ;;
    if negb m then ret false
    else
      on_buffer (fun _ => Buf true [] 0 0 (buffer_size cf)) ;;
      m <- ask memory ;;
      if negb m then ret false
      else
        on_hdr (fun h => h <| headers_in := (headers_in h) <| headers := [] |> |>) ;;
        (if has_cache s
         then on_buffer (fun b => b <| mem := repeat 0 (Z.to_nat (header_start cf)) |> <| pos := header_start cf |>
                                    <| last := header_start cf |>)
         else ok) ;;
        ret true.

(** The [for ( ;; )]: the answer of [u->process_header], or [None] when there is
    nothing more to do. *)
Fixpoint header_loop (fuel : nat) : M (option ngx_rc) :=
  match fuel with
  | O => out_of_fuel
  | S fuel =>
      n <- recv_buffer ;;
      match n with
      | Again =>
          e <- ask ngx_handle_read_event ;;
          (if negb e then finalize NGX_HTTP_INTERNAL_SERVER_ERROR else ok) ;;
          ret None
      | Error | Bytes [] => ngx_http_upstream_next NGX_HTTP_UPSTREAM_FT_ERROR ;; ret None
      | Bytes l =>
          on_buffer (fun b => b <| last := last b + Z.of_nat (length l) |>) ;;
          rc <- run_process_header ;;
          match rc with
          | NGX_AGAIN =>
              b <- read buffer ;;
              if last b =? end_ b then ngx_http_upstream_next NGX_HTTP_UPSTREAM_FT_INVALID_HEADER ;; ret None
              else header_loop fuel
          | rc => ret (Some rc)
          end
      end
  end.

(** A subrequest whose content is kept in memory. *)
Definition in_memory (fuel : nat) : M unit :=
  i <- filter_init ;;
  if negb i then finalize NGX_ERROR
  else
    f <- filter_preread ;;
    if negb f then finalize NGX_ERROR
    else
      l <- read length_ ;;
      if l =? 0 then finalize NGX_OK
      else
        write (fun s => s <| u_read := process_body_in_memory_handler |>) ;;
        ngx_http_upstream_process_body_in_memory fuel.

(** [rc == NGX_OK] *)
Definition header_done (fuel : nat) : M unit :=
  s <- read (fun s => s) ;;
  returned <- (if NGX_HTTP_SPECIAL_RESPONSE <=? status_n s then
                 (if subrequest_in_memory cf then on_buffer (fun b => b <| last := pos b |>) else ok) ;;
                 t <- ngx_http_upstream_test_next ;;
                 match t with
                 | NGX_OK => ret true
                 | _ => i <- ngx_http_upstream_intercept_errors ;; ret (bool_decide (i = NGX_OK))
                 end
               else ret false) ;;
  if returned then ok
  else
    rc <- process_headers ;;
    match rc with
    | NGX_OK => if subrequest_in_memory cf then in_memory fuel else ngx_http_upstream_send_response fuel
    | _ => ok
    end.

(** [ngx_http_upstream_test_connect] *)
Definition ngx_http_upstream_test_connect : M bool := e <- ask getsockopt_error ;; ret (negb e).

Definition ngx_http_upstream_process_header (fuel : nat) : M unit :=
  deref_connection ;;
  timedout <- ask upstream_read_timedout ;;
  if timedout then ngx_http_upstream_next NGX_HTTP_UPSTREAM_FT_TIMEOUT
  else
    sent <- read request_sent ;;
    c <- (if sent then ret true else ngx_http_upstream_test_connect) ;;
    if negb c then ngx_http_upstream_next NGX_HTTP_UPSTREAM_FT_ERROR
    else
      b <- header_buffer ;;
      if negb b then finalize NGX_HTTP_INTERNAL_SERVER_ERROR
      else
        rc <- header_loop fuel ;;
        match rc with
        | None => ok
        | Some (Code 40) => ngx_http_upstream_next NGX_HTTP_UPSTREAM_FT_INVALID_HEADER
        | Some NGX_ERROR => finalize NGX_HTTP_INTERNAL_SERVER_ERROR
        | Some _ => header_done fuel
        end.

(** *** Sending the request *)

Definition ngx_http_upstream_send_request (fuel : nat) : M unit :=
  deref_connection ;;
  sent <- read request_sent ;;
  c <- (if sent then ret true else ngx_http_upstream_test_connect) ;;
  if negb c then ngx_http_upstream_next NGX_HTTP_UPSTREAM_FT_ERROR
  else
    rc <- ask ngx_output_chain ;;
    (if sent then ok else record Request_sent) ;;
    write (fun s => s <| request_sent := true |>) ;;
    match rc with
    | NGX_ERROR => ngx_http_upstream_next NGX_HTTP_UPSTREAM_FT_ERROR
    | NGX_AGAIN =>
        write (fun s => s <| write_timer := true |>) ;;
        w <- ask ngx_handle_write_event ;;
        if negb w then finalize NGX_HTTP_INTERNAL_SERVER_ERROR else ok
    | _ =>
        write (fun s => s <| write_timer := false |>) ;;
        p <- (if tcp_push cf then ask ngx_tcp_push else ret true) ;;
        if negb p then finalize NGX_HTTP_INTERNAL_SERVER_ERROR
        else
          write (fun s => s <| read_timer := true |>) ;;
          ready <- ask upstream_read_ready ;;
          if ready then ngx_http_upstream_process_header fuel
          else
            write (fun s => s <| u_write := dummy_handler |>) ;;
            w <- ask ngx_handle_write_event ;;
            if negb w then finalize NGX_HTTP_INTERNAL_SERVER_ERROR else ok
    end.

(** [ngx_http_upstream_ssl_handshake] *)
Definition ngx_http_upstream_ssl_handshake (fuel : nat) : M unit :=
  h <- ask handshaked ;;
  if h then
    (if ssl_session_reuse cf then
       s <- read (fun s => s) ;;
       match peer_data (peer s) with
       | Some d =>
           write (fun s => s <| heap := (save_session ngx_ssl_get_session (heap s) (peer s) d).1 |>) ;;
           record Session_saved
       | None => crash
       end
     else ok) ;;
    write (fun s => s <| handshaking := false |>) ;;
    ngx_http_upstream_send_request fuel
  else ngx_http_upstream_next NGX_HTTP_UPSTREAM_FT_ERROR.

Definition ngx_http_upstream_ssl_init_connection (fuel : nat) : M unit :=
  c <- ngx_http_upstream_test_connect ;;
  if negb c then ngx_http_upstream_next NGX_HTTP_UPSTREAM_FT_ERROR
  else
    created <- ask ngx_ssl_create_connection ;;
    if negb created then finalize NGX_HTTP_INTERNAL_SERVER_ERROR
    else
      write (fun s => s <| c_ssl := true |>) ;;
      s <- read (fun s => s) ;;
      set <- (if ssl_session_reuse cf then
                match peer_data (peer s) with
                | Some d => ret (set_session ngx_ssl_set_session (heap s) (peer s) d)
                | None => crash
                end
              else ret NGX_OK) ;;
      if negb (bool_decide (set = NGX_OK)) then finalize NGX_HTTP_INTERNAL_SERVER_ERROR
      else
        again <- ask ngx_ssl_handshake_again ;;
        if again then write (fun s => s <| handshaking := true |>)
        else ngx_http_upstream_ssl_handshake fuel.

(** [u->ssl && c->ssl == NULL] *)
Definition needs_ssl (s : st) : bool := ssl cf && negb (c_ssl s).

Definition ngx_http_upstream_send_request_handler (fuel : nat) : M unit :=
  deref_connection ;;
  timedout <- ask upstream_write_timedout ;;
  if timedout then ngx_http_upstream_next NGX_HTTP_UPSTREAM_FT_TIMEOUT
  else
    s <- read (fun s => s) ;;
    if needs_ssl s then ngx_http_upstream_ssl_init_connection fuel
    else if header_sent s then
      write (fun s => s <| u_write := dummy_handler |>) ;;
      _ <- ask ngx_handle_write_event ;;
      ok
    else ngx_http_upstream_send_request fuel.

(** *** Connecting *)

(** [ngx_http_upstream_reinit]; the chain of the request starts again, which
    [ngx_output_chain] is given when [request_sent] is 0. *)
Definition ngx_http_upstream_reinit : M bool :=
  rc <- ask reinit_request ;;
  match rc with
  | NGX_OK =>
      write (fun s => s <| u_keepalive := false |> <| upgrade := false |>) ;;
      on_hdr (fun h => h <| headers_in := zero_headers_in |>) ;;
      m <- ask memory ;;
      if negb m then ret false
      else
        s <- read (fun s => s) ;;
        link <- (if sub_body_file cf then ask memory else ret true) ;;
        if negb link then ret false
        else
          let p := if has_cache s then header_start cf else 0 in
          on_buffer (fun b => b <| pos := p |> <| last := p |>) ;;
          ret true
  | _ => ret false
  end.

(** The balancer's [u->peer.get]. *)
Definition get_peer : M ngx_rc :=
  n <- ask now ;;
  s <- read (fun s => s) ;;
  match peer_data (peer s) with
  | None => crash
  | Some d =>
      match ngx_http_upstream_get_round_robin_peer 2 n (heap s) d (pc s) with
      | None => out_of_fuel
      | Some (rc, h, d, p) =>
          record (Peer_got (match rc with NGX_OK => pc_sockaddr p | _ => None end)) ;;
          write (fun s => s <| heap := h |> <| peer := (peer s) <| peer_data := Some d |> <| u_peer := p |> |>) ;;
          ret rc
      end
  end.

(** [ngx_array_push(r->upstream_states)]: a new [u->state]. *)
Definition push_state : M bool :=
  m <- ask memory ;;
  s <- read (fun s => s) ;;
  match states s with
  | None => crash
  | Some l =>
      if m then write (fun s => s <| states := Some (l ++ [zero_state]) |> <| state := Some (length l) |>) ;; ret true
      else write (fun s => s <| state := None |>) ;; ret false
  end.

Definition connect_body (fuel : nat) : M unit :=
  end_of_state false ;;
  p <- push_state ;;
  if negb p then finalize NGX_HTTP_INTERNAL_SERVER_ERROR
  else
    t <- ask ngx_time ;;
    m <- ask ngx_msec ;;
    on_state (fun x => x <| response_sec := t |> <| response_msec := m |>) ;;
    rc <- ngx_event_connect_peer get_peer ;;
    match rc with
    | NGX_ERROR => finalize NGX_HTTP_INTERNAL_SERVER_ERROR
    | rc =>
        name <- read (fun s => pc_name (pc s)) ;;
        on_state (fun x => x <| s_peer := Some name |>) ;;
        match rc with
        | NGX_BUSY => ngx_http_upstream_next NGX_HTTP_UPSTREAM_FT_NOLIVE
        | NGX_DECLINED => ngx_http_upstream_next NGX_HTTP_UPSTREAM_FT_ERROR
        | rc =>
            deref_connection ;;
            write (fun s => s <| u_write := send_request_handler |> <| u_read := process_header_handler |>) ;;
            kept <- ask connection_pool ;;
            pool <- (if kept then ret true else ask memory) ;;
            if negb pool then finalize NGX_HTTP_INTERNAL_SERVER_ERROR
            else
              sent <- read request_sent ;;
              r <- (if sent then ngx_http_upstream_reinit else ret true) ;;
              if negb r then finalize NGX_HTTP_INTERNAL_SERVER_ERROR
              else
                link <- (if main_body_file cf then ask memory else ret true) ;;
                if negb link then finalize NGX_HTTP_INTERNAL_SERVER_ERROR
                else
                  write (fun s => s <| request_sent := false |>) ;;
                  match rc with
                  | NGX_AGAIN => write (fun s => s <| write_timer := true |>)
                  | _ =>
                      s <- read (fun s => s) ;;
                      if needs_ssl s then ngx_http_upstream_ssl_init_connection fuel
                      else ngx_http_upstream_send_request fuel
                  end
        end
    end.
End Attempt.

(** [ngx_http_upstream_connect]: [attempts] is how many peers may be tried in one
    call, [fuel] bounds the loops over what a socket has ready. *)
Fixpoint ngx_http_upstream_connect (attempts fuel : nat) : M unit :=
  match attempts with
  | O => out_of_fuel
  | S attempts => connect_body (ngx_http_upstream_connect attempts fuel) fuel
  end.

(** ** Starting *)

Section Start.
Context (attempts fuel : nat).

Abbreviation connect := (ngx_http_upstream_connect attempts fuel).

(** The configured upstream of a host. *)
Definition find_upstream (ur : RoundRobin.resolved) : option nat :=
  match find (fun x => let '(host, port, _) := x in
                bool_decide (host = ur_host ur) && (((port =? 0) && no_port cf) || (port =? ur_port ur)))
             (named_upstreams cf) with
  | Some (_, us) => Some us
  | None => None
  end.

(** The label [found:]. *)
Definition init_found (us : option nat) : M unit :=
  match us with
  | None => finalize NGX_HTTP_INTERNAL_SERVER_ERROR
  | Some us =>
      s <- read (fun s => s) ;;
      match ngx_http_upstream_init_round_robin_peer alloc (heap s) us (peer s) with
      | (NGX_OK, u) => on_peer (fun _ => u) ;; connect
      | (_, u) => on_peer (fun _ => u) ;; finalize NGX_HTTP_INTERNAL_SERVER_ERROR
      end
  end.

(** A balancer for addresses that are known. *)
Definition init_resolved (ur : RoundRobin.resolved) : M bool :=
  s <- read (fun s => s) ;;
  let '(rc, u, h) := ngx_http_upstream_create_round_robin_peer alloc ngx_inet_ntop sprint_d htons ur (heap s) (peer s) in
  write (fun s => s <| heap := h |> <| peer := u |>) ;;
  ret (bool_decide (rc = NGX_OK)).

(** A name that is not configured. *)
Definition init_resolver (ur : RoundRobin.resolved) : M unit :=
  if ur_port ur =? 0 then finalize NGX_HTTP_INTERNAL_SERVER_ERROR
  else
    ctx <- ask ngx_resolve_start ;;
    match ctx with
    | None => finalize NGX_HTTP_INTERNAL_SERVER_ERROR
    | Some false => finalize NGX_HTTP_BAD_GATEWAY
    | Some true =>
        write (fun s => s <| resolving := true |>) ;;
        r <- ask ngx_resolve_name ;;
        if r then ok
        else
          write (fun s => s <| resolving := false |>) ;;
          finalize NGX_HTTP_INTERNAL_SERVER_ERROR
    end.

(** The cleanup handler is there, and the upstream is looked up. *)
Definition init_cleanup : M unit :=
  m <- ask memory ;;
  if negb m then ngx_http_finalize_request NGX_HTTP_INTERNAL_SERVER_ERROR
  else
    write (fun s => s <| cleanup := true |>) ;;
    r <- read resolved ;;
    match r with
    | None => init_found (upstream_conf cf)
    | Some ur =>
        match ur_sockaddr ur with
        | Some _ =>
            r <- init_resolved ur ;;
            if r then connect else finalize NGX_HTTP_INTERNAL_SERVER_ERROR
        | None =>
            match find_upstream ur with
            | Some us => init_found (Some us)
            | None => init_resolver ur
            end
        end
    end.

(** After the cache: the request is made, and a peer is looked for. *)
Definition init_upstream : M unit :=
  write (fun s => s <| u_store := store_on cf |>) ;;
  (if negb (store_on cf) && negb (post_action cf) && negb (ignore_client_abort cf)
   then write (fun s => s <| r_read := rd_check_broken_connection |> <| r_write := wr_check_broken_connection |>)
   else ok) ;;
  rc <- ask create_request ;;
  if negb (bool_decide (rc = NGX_OK)) then ngx_http_finalize_request NGX_HTTP_INTERNAL_SERVER_ERROR
  else
    l <- read states ;;
    match l with
    | None =>
        m <- ask memory ;;
        if negb m then ngx_http_finalize_request NGX_HTTP_INTERNAL_SERVER_ERROR
        else write (fun s => s <| states := Some [] |>) ;; init_cleanup
    | Some l =>
        p <- push_state ;;
        if negb p then finalize NGX_HTTP_INTERNAL_SERVER_ERROR else init_cleanup
    end.

Definition ngx_http_upstream_init_request : M unit :=
  if aio cf then ok
  else if cache_on cf then
    rc <- ngx_http_upstream_cache ;;
    match rc with
    | NGX_BUSY => write (fun s => s <| r_write := init_request_handler |>)
    | rc =>
        write (fun s => s <| r_write := empty_handler |>) ;;
        match rc with
        | NGX_DONE => ok
        | NGX_DECLINED => init_upstream
        | rc => ngx_http_finalize_request rc
        end
    end
  else init_upstream.

(** [ngx_http_upstream_init]: no timer of the client's stays. *)
Definition ngx_http_upstream_init : M unit :=
  a <- ask ngx_add_event ;;
  if negb a then ngx_http_finalize_request NGX_HTTP_INTERNAL_SERVER_ERROR else ngx_http_upstream_init_request.

(** [ngx_http_upstream_resolve_handler]: the state of the resolver and the
    addresses it found. *)
Definition ngx_http_upstream_resolve_handler (state : Z) (addrs : list Z) : M unit :=
  if negb (state =? 0) then finalize NGX_HTTP_BAD_GATEWAY
  else
    ur <- read resolved ;;
    match ur with
    | None => crash
    | Some ur =>
        let ur := Resolved (ur_host ur) (ur_port ur) (length addrs) addrs (ur_sockaddr ur) in
        write (fun s => s <| resolved := Some ur |>) ;;
        r <- init_resolved ur ;;
        if negb r then finalize NGX_HTTP_INTERNAL_SERVER_ERROR
        else write (fun s => s <| resolving := false |>) ;; connect
    end.

(** [ngx_http_upstream_check_broken_connection] on the read or the write event
    of the client. *)
Definition ngx_http_upstream_check_broken_connection (ev_write : bool) : M unit :=
  s <- read (fun s => s) ;;
  if c_error s then
    d <- ask ngx_del_event ;;
    if negb d then finalize NGX_HTTP_INTERNAL_SERVER_ERROR
    else if negb (cacheable s) then finalize NGX_HTTP_CLIENT_CLOSED_REQUEST else ok
  else
    n <- ask peek ;;
    let failed := match n with Error => true | _ => false end in
    if ev_write && negb failed then ok
    else
      d <- ask ngx_del_event ;;
      if negb d then finalize NGX_HTTP_INTERNAL_SERVER_ERROR
      else
        match n with
        | Again | Bytes (_ :: _) => ok
        | Error | Bytes [] =>
            write (fun s => s <| c_error := true |>) ;;
            s <- read (fun s => s) ;;
            if negb (cacheable s) && bool_decide (is_Some (connection s)) then finalize NGX_HTTP_CLIENT_CLOSED_REQUEST
            else if bool_decide (connection s = None) then finalize NGX_HTTP_CLIENT_CLOSED_REQUEST
            else ok
        end.

(** ** Events *)

Inductive event :=
| Upstream_event (ev_write : bool)
| Client_event (ev_write : bool)
| Resolver_event (state : Z) (addrs : list Z)
| Cleanup_event.   (** the pool of the request is destroyed *)

Definition run_u_handler (h : u_handler) : M unit :=
  match h with
  | no_handler | dummy_handler => ok
  | send_request_handler => ngx_http_upstream_send_request_handler connect fuel
  | process_header_handler => ngx_http_upstream_process_header connect fuel
  | process_body_in_memory_handler => ngx_http_upstream_process_body_in_memory fuel
  | process_non_buffered_upstream_handler => ngx_http_upstream_process_non_buffered_upstream fuel
  | process_upstream_handler => ngx_http_upstream_process_upstream
  | upgraded_read_upstream_handler => ngx_http_upstream_process_upgraded fuel true false
  | upgraded_write_upstream_handler => ngx_http_upstream_process_upgraded fuel false true
  end.

Definition run_r_handler (h : r_handler) : M unit :=
  match h with
  | other_handler | empty_handler => ok
  | init_request_handler => ngx_http_upstream_init_request
  | rd_check_broken_connection => ngx_http_upstream_check_broken_connection false
  | wr_check_broken_connection => ngx_http_upstream_check_broken_connection true
  | process_non_buffered_downstream_handler => ngx_http_upstream_process_non_buffered_downstream fuel
  | process_downstream_handler => ngx_http_upstream_process_downstream
  | upgraded_read_downstream_handler => ngx_http_upstream_process_upgraded fuel false false
  | upgraded_write_downstream_handler => ngx_http_upstream_process_upgraded fuel true true
  end.

(** The request has been ended: its handlers are no longer called. *)
Definition is_finalized (a : action) : bool := match a with Finalized _ => true | _ => false end.
Definition over (s : st) : bool := existsb is_finalized (log s).

(** [ngx_http_upstream_handler] and the handlers of the request. *)
Definition dispatch (e : event) : M unit :=
  s <- read (fun s => s) ;;
  if over s then ok
  else
    match e with
    | Upstream_event ev_write =>
        if bool_decide (connection s = None) then ok
        else if handshaking s then ngx_http_upstream_ssl_handshake connect fuel
        else run_u_handler (if ev_write then u_write s else u_read s)
    | Client_event ev_write => run_r_handler (if ev_write then r_write s else r_read s)
    | Resolver_event state addrs =>
        if resolving s then ngx_http_upstream_resolve_handler state addrs else ok
    | Cleanup_event => if cleanup s then ngx_http_upstream_cleanup else ok
    end.

Fixpoint run (es : list event) : M unit :=
  match es with
  | [] => ok
  | e :: es => dispatch e ;; run es
  end.
End Start.
End Machine.
End Upstream.
