(* ===== verification/UpstreamPeers.v ===== *)
(** * The peers of a request, as its attempts see them

    Every peer of every group has its address, whatever the balancer does, and a
    request is given a peer of a group that is not a single one only once: what
    is left to try bounds its attempts. *)

From S2P Require Import Prelude RoundRobin RoundRobinWeights RoundRobinFacts RoundRobinWorld.

Module UpstreamPeers.
Import RoundRobin RoundRobinWeights RoundRobinFacts RoundRobinGroup RoundRobinWorld RoundRobinReach.

(** ** Addresses *)

Definition address (h : list peers) (a i : nat) : option addr := sockaddr (peer_at (peer_array (group_at h a)) i).

Definition addressed (h : list peers) : Prop :=
  forall a i, (a < length h)%nat -> (i < number (group_at h a))%nat -> is_Some (address h a i).

Definition same_addresses (h h' : list peers) : Prop := forall a i, address h' a i = address h a i.

#[export] Instance same_addresses_preorder : PreOrder same_addresses.
Proof. split; [by intros h a i|]. intros h1 h2 h3 H H' a i. by rewrite H', H. Qed.

Lemma addressed_same h h' : evolves h h' -> same_addresses h h' -> addressed h -> addressed h'.
Proof.
  intros He Hs H a i Ha Hi. rewrite Hs. destruct (evolves_at _ _ a He) as (E & _). apply H; [|by rewrite <- E].
  by destruct He as [<- _].
Qed.

Lemma group_at_out (h : list peers) a : (length h <= a)%nat -> group_at h a = zero_peers 0.
Proof. intros H. unfold group_at. by apply nth_overflow. Qed.

(** One group whose peers keep their addresses. *)
Lemma same_addresses_alter f h a :
  (forall g i, sockaddr (peer_at (peer_array (f g)) i) = sockaddr (peer_at (peer_array g) i)) ->
  same_addresses h (alter f a h).
Proof.
  intros Hf b i. unfold address. destruct (decide (a < length h)%nat) as [Ha|Ha].
  - rewrite group_at_alter by done. destruct (b =? a)%nat eqn:E; [|done]. apply Nat.eqb_eq in E as ->. apply Hf.
  - replace (alter f a h) with h; [done|]. apply list_eq. intros j. rewrite list_lookup_alter.
    destruct (decide (a = j)) as [->|]; [|done]. by rewrite (lookup_ge_None_2 h j) by lia.
Qed.

Lemma peer_at_alter_address f ps j i : (forall p, sockaddr (f p) = sockaddr p) ->
  sockaddr (peer_at (alter f j ps) i) = sockaddr (peer_at ps i).
Proof.
  intros Hf. unfold peer_at. rewrite !nth_lookup, list_lookup_alter. destruct (decide (j = i)) as [->|]; [|done].
  destruct (ps !! i); [apply Hf|done].
Qed.

(** One peer that keeps its address. *)
Lemma same_addresses_peer f h a j : (forall p, sockaddr (f p) = sockaddr p) ->
  same_addresses h (alter (fun g => g <| peer_array := alter f j (peer_array g) |>) a h).
Proof. intros Hf. apply same_addresses_alter. intros g i. by apply peer_at_alter_address. Qed.

Lemma same_addresses_clear_fails h a : same_addresses h (clear_fails h a).
Proof.
  apply same_addresses_alter. intros g i. cbn. unfold peer_at.
  rewrite <- (take_drop (number g) (peer_array g)) at 3. rewrite !nth_lookup.
  destruct (decide (i < length (take (number g) (peer_array g)))%nat).
  - rewrite !lookup_app_l by (by rewrite ?length_map). rewrite list_lookup_fmap. by destruct (_ !! _).
  - rewrite !lookup_app_r by (rewrite ?length_map; lia). by rewrite length_map.
Qed.

Lemma address_free_peer F now state p : sockaddr (free_peer F now state p) = sockaddr p.
Proof.
  unfold free_peer, note_failure, note_success.
  destruct (negb _); [destruct (max_fails _ =? 0); by destruct (_ <? 0)|by destruct (_ <? _)].
Qed.

Lemma same_addresses_release F now state h u h' u' : release F now state h u = (h', u') -> same_addresses h h'.
Proof.
  unfold release, ngx_http_upstream_free_round_robin_peer. destruct (pc_sockaddr _); [|by intros [= <- _]].
  destruct (peer_data u); [|by intros [= <- _]]. destruct (single _); intros [= <- _]; [done|].
  apply same_addresses_peer, address_free_peer.
Qed.

Lemma same_addresses_save get h u d : same_addresses h (save_session get h u d).1.
Proof.
  unfold save_session. destruct (sessions u); [|done]. unfold ngx_http_upstream_save_round_robin_peer_session.
  destruct (get _); [|done]. by apply same_addresses_peer.
Qed.

(** ** One call of [ngx_http_upstream_get_round_robin_peer] *)

Lemma same_addresses_choose now h d i h' d' : heap_ok h -> data_ok h d ->
  choose now h d = (i, h', d') -> same_addresses h h'.
Proof.
  intros Hh Hd. unfold choose. destruct (Hh _ (do_peers _ _ Hd)) as [[Hnum _ _] _].
  destruct (single _); [by destruct (down _); intros [= _ <- _]|].
  unfold ngx_http_upstream_get_peer. rewrite Hnum.
  pose proof (get_peer_cases (tried d) now (peer_array (group_at h (rrp_peers d)))) as Hc.
  destruct (get_peer _ _ _ _) as [[b|] ps'].
  - destruct Hc as (_ & _ & _ & Hsel). intros [= _ <- _] a j. unfold address.
    rewrite group_at_alter by apply Hd. destruct (a =? rrp_peers d)%nat eqn:E; [|done]. apply Nat.eqb_eq in E as ->.
    cbn. pose proof (selected_fixed _ _ _ _ _ j Hsel) as Hf. unfold fixed in Hf. by injection Hf.
  - destruct Hc as [-> _]. intros [= _ <- _]. by rewrite alter_same.
Qed.

(** What the call says of the connection, whatever it finds. *)
Lemma get_fresh fuel now h d pc rc h' d' pc' :
  ngx_http_upstream_get_round_robin_peer fuel now h d pc = Some (rc, h', d', pc') ->
  RoundRobin.cached pc' = false /\ connection pc' = None.
Proof.
  revert h d pc rc h' d' pc'. induction fuel as [|fuel IH]; [done|]. intros h d pc rc h' d' pc'.
  cbn [ngx_http_upstream_get_round_robin_peer]. destruct (choose now h d) as [[[i|] h1] d1].
  - destruct (next _); [destruct (_ =? 1)|]; by intros [= _ _ _ <-].
  - destruct (next _); [|by intros [= _ _ _ <-]].
    destruct (ngx_http_upstream_get_round_robin_peer fuel _ _ _ _) as [[[[[] ?] ?] p]|] eqn:E; [| | | | | | |done];
      apply IH in E as [E1 E2]; by intros [= <- <- <- <-].
Qed.

Lemma get_same_addresses fuel now h d pc rc h' d' pc' : heap_ok h -> data_ok h d ->
  ngx_http_upstream_get_round_robin_peer fuel now h d pc = Some (rc, h', d', pc') -> same_addresses h h'.
Proof.
  intros Hh Hd. revert h d pc rc h' d' pc' Hh Hd. induction fuel as [|fuel IH]; [done|].
  intros h d pc rc h' d' pc' Hh Hd. cbn [ngx_http_upstream_get_round_robin_peer].
  pose proof (choose_cases now h d Hh Hd) as Hc.
  destruct (choose now h d) as [[o h1] d1] eqn:Ec. apply same_addresses_choose in Ec; [|done..].
  destruct o as [i|]; [by intros [= _ <- _ _]|]. destruct Hc as [-> ->].
  destruct (next _) as [b|] eqn:Eb; [|intros [= _ <- _ _]; apply same_addresses_clear_fails].
  destruct (ngx_http_upstream_get_round_robin_peer fuel _ _ _ _) as [[[[[] h2] ?] p]|] eqn:E; [| | | | | | |done];
    (eapply IH in E; [|done|by apply data_ok_backup]); intros [= <- <- <- <-]; try done.
  etransitivity; [exact E|apply same_addresses_clear_fails].
Qed.

(** ** What is left to try *)

Definition untried (t : list Z) (n : nat) : nat := length (filter (fun i => is_tried t i = false) (seq 0 n)).

Definition allowance (h : list peers) (d : rr_peer_data) : nat :=
  (untried (tried d) (number (group_at h (rrp_peers d)))
   + from_option (fun b => number (group_at h b)) 0 (next (group_at h (rrp_peers d))))%nat.

Lemma untried_le t n : (untried t n <= n)%nat.
Proof. unfold untried. etransitivity; [apply length_filter|by rewrite length_seq]. Qed.

Lemma untried_set t i n : (i < n)%nat -> (words n <= length t)%nat -> is_tried t i = false ->
  (untried (set_tried_bit t i) n < untried t n)%nat.
Proof.
  intros Hi Hw Ht. pose proof (words_cover n i Hi) as Hc. unfold untried. apply Nat.le_succ_l.
  apply (submseteq_length (i :: filter (fun j => is_tried (set_tried_bit t i) j = false) (seq 0 n))).
  assert (Hset : forall j, is_tried (set_tried_bit t i) j = ((i =? j)%nat || is_tried t j)%bool).
  { intros j. apply is_tried_set. lia. }
  apply NoDup_submseteq.
  - apply list.NoDup_cons. split; [|apply list.NoDup_filter, NoDup_seq].
    rewrite list_elem_of_filter, Hset, Nat.eqb_refl. by intros [].
  - intros j. rewrite elem_of_cons, !list_elem_of_filter, Hset, elem_of_seq, orb_false_iff.
    intros [->|[[_ H] Hj]]; [split; [done|lia]|done].
Qed.

Lemma allowance_evolves h h' d : evolves h h' -> allowance h' d = allowance h d.
Proof.
  intros He. unfold allowance. destruct (evolves_at _ _ (rrp_peers d) He) as (-> & _ & -> & _).
  destruct (next _) as [b|]; [|done]. cbn. by destruct (evolves_at _ _ b He) as (-> & _).
Qed.

Lemma allowance_marks h d d' : (current d' < number (group_at h (rrp_peers d)))%nat ->
  (words (number (group_at h (rrp_peers d))) <= length (tried d))%nat ->
  marks d d' -> (allowance h d' < allowance h d)%nat.
Proof.
  intros Hi Hw (Hr & Ht & Hset). unfold allowance. rewrite Hr, Hset. pose proof (untried_set _ _ _ Hi Hw Ht). lia.
Qed.

(** ** The call, as an attempt needs it *)

Record gave (h : list peers) (d : rr_peer_data) (rc : ngx_rc) (h' : list peers) (d' : rr_peer_data)
    (pc' : peer_connection) : Prop := {
  gave_heap : heap_ok h';
  gave_addressed : addressed h';
  gave_data : data_ok h' d';
  gave_length : length h' = length h;
  gave_fresh : RoundRobin.cached pc' = false /\ connection pc' = None;
  gave_cases : (rc = NGX_OK /\ is_Some (pc_sockaddr pc')
                /\ (current d' < number (group_at h' (rrp_peers d')))%nat
                /\ (single (group_at h' (rrp_peers d')) = true \/ (allowance h' d' < allowance h d)%nat))
               \/ rc = NGX_BUSY;
}.

Lemma get_gives now h d pc : heap_ok h -> addressed h -> data_ok h d -> pc_sockaddr pc = None ->
  exists rc h' d' pc', ngx_http_upstream_get_round_robin_peer 2 now h d pc = Some (rc, h', d', pc')
    /\ gave h d rc h' d' pc' /\ (rc = NGX_BUSY -> pc_sockaddr pc' = None).
Proof.
  intros Hh Ha Hd Hpc. destruct (get_cases now h d pc Hh Hd) as (rc & h' & d' & pc' & E & [G1 G2 G3 G4]).
  exists rc, h', d', pc'. split; [done|].
  pose proof (addressed_same _ _ G2 (get_same_addresses _ _ _ _ _ _ _ _ _ Hh Hd E) Ha) as Ha'.
  split; [|intros ->; destruct G4 as [[? _]|[_ ->]]; done].
  split; [done|done|done|apply G2|by eapply get_fresh|].
  destruct G4 as [(-> & Hcur & Hf & Hs)|[-> _]]; [left|by right]. split; [done|].
  split; [rewrite Hs; apply Ha'; [apply G3|done]|]. split; [done|].
  destruct Hf as [[Hr Hm]|(b & Hb & Hm)].
  - rewrite Hr in *. destruct (evolves_at _ _ (rrp_peers d) G2) as (En & Es & _).
    rewrite Es. destruct (single _) eqn:E1; [by left|right]. rewrite (allowance_evolves _ _ d' G2).
    apply allowance_marks; [by rewrite <- En|apply Hd|by apply Hm].
  - right. rewrite (allowance_evolves _ _ d' G2). pose proof (data_ok_backup h d b Hh Hd Hb) as Hd2.
    destruct (Hh _ (do_peers _ _ Hd)) as [_ Hl]. destruct (Hl b Hb) as (_ & Hbn & _).
    eapply (allowance_marks h) in Hm; [|pose proof Hm as [Hr _]; cbn in Hr; rewrite Hr in Hcur;
      destruct (evolves_at _ _ b G2) as (En & _); rewrite En in Hcur; exact Hcur|apply Hd2].
    eapply Nat.lt_le_trans; [exact Hm|]. unfold allowance. cbn -[words group_at untried clear_tried]. rewrite Hbn, Hb.
    cbn -[words group_at untried clear_tried].
    pose proof (untried_le (clear_tried (words (number (group_at h b))) (tried d)) (number (group_at h b))). lia.
Qed.

(** ** The start of a request *)

(** A connection that was never made. *)
Definition unused (u : upstream) : Prop :=
  pc_sockaddr (u_peer u) = None /\ connection (u_peer u) = None /\ RoundRobin.cached (u_peer u) = false.

Lemma allowance_le h d :
  (allowance h d <= number (group_at h (rrp_peers d))
     + from_option (fun b => number (group_at h b)) 0 (next (group_at h (rrp_peers d))))%nat.
Proof. unfold allowance. pose proof (untried_le (tried d) (number (group_at h (rrp_peers d)))). lia. Qed.

Lemma start_unused alloc ops n h u d rc u' : unused u -> start_peers alloc ops n h u d = (rc, u') ->
  unused u' /\ (rc = NGX_OK -> exists d', peer_data u' = Some d' /\ rrp_peers d' = rrp_peers d).
Proof.
  intros Hu. unfold start_peers. destruct (init_tried alloc n d) as [d'|] eqn:E; intros [= <- <-]; [|done].
  apply init_tried_ok in E as (E & _). split; [done|]. intros _. by exists d'.
Qed.

Lemma init_unused alloc h us rc u : ngx_http_upstream_init_round_robin_peer alloc h us fresh_upstream = (rc, u) ->
  unused u /\ (rc = NGX_OK -> exists d, peer_data u = Some d /\ rrp_peers d = us).
Proof.
  unfold ngx_http_upstream_init_round_robin_peer, get_rrp. cbn [peer_data fresh_upstream].
  destruct (alloc ForPeerData); [|by intros [= <- <-]]. intros H. by eapply start_unused in H.
Qed.

(** An address that is known is that of one peer. *)
Definition ur_ok (ur : resolved) : Prop := is_Some (ur_sockaddr ur) -> ur_naddrs ur = 1%nat.

Section Create.
Context (alloc : allocation -> bool) (ngx_inet_ntop sprint_d : Z -> list Z) (htons : Z -> Z).

Lemma resolved_addressed ur ps i : ur_ok ur -> resolved_peers alloc ngx_inet_ntop sprint_d htons ur = Some ps ->
  (i < ur_naddrs ur)%nat -> is_Some (sockaddr (peer_at ps i)).
Proof.
  intros Hur. unfold resolved_peers, peer_at. destruct (ur_sockaddr ur) as [sa|] eqn:E.
  - rewrite Hur by done. intros [= <-] Hi. by replace i with O by lia.
  - destruct (forallb _ _); [|done]. intros [= <-] Hi.
    rewrite nth_lookup, list_lookup_fmap, lookup_seq_lt by done. by eexists.
Qed.

Lemma create_unused ur h rc u h' :
  ngx_http_upstream_create_round_robin_peer alloc ngx_inet_ntop sprint_d htons ur h fresh_upstream = (rc, u, h') ->
  heap_ok h -> ur_ok ur -> addressed h ->
  unused u /\ addressed h'
  /\ (rc = NGX_OK -> exists d, peer_data u = Some d /\ (allowance h' d <= ur_naddrs ur)%nat).
Proof.
  unfold ngx_http_upstream_create_round_robin_peer, get_rrp. cbn [peer_data fresh_upstream]. intros H Hh Hur Ha.
  destruct (alloc ForPeerData); [|by injection H as <- <- <-]. destruct (negb _); [by injection H as <- <- <-|].
  destruct (resolved_peers _ _ _ _ ur) as [ps|] eqn:E; [|by injection H as <- <- <-].
  destruct (start_peers _ _ _ _ _ _) as [rc' u'] eqn:Es. injection H as <- <- <-.
  apply start_unused in Es as [Hu Hd]; [|done]. split; [done|]. split.
  - intros a i. rewrite length_app. cbn. intros Hlt. unfold address.
    destruct (decide (a < length h)%nat); [rewrite group_at_app by done; by apply Ha|].
    replace a with (length h) by lia. rewrite group_at_new. cbn. by apply resolved_addressed.
  - intros Hrc. destruct (Hd Hrc) as (d & Hd1 & Hd2). exists d. split; [done|].
    etransitivity; [apply allowance_le|]. rewrite Hd2. cbn [rrp_peers set_field set_rrp_peers set_current].
    change (rrp_peers _) with (length h). rewrite group_at_new. cbn. lia.
Qed.
End Create.

End UpstreamPeers.
