(* ===== verification/UpstreamFacts.v ===== *)
(** * The upstream state machine: what every function keeps

    Partial-correctness triples for the monad ([wp]), the books a request keeps
    (its connections, the peers it takes, how often it is ended), and that every
    function of [Upstream.v] keeps them.  Upgraded connections and stale cached
    answers are left out here; examples show what they do. *)

From S2P Require Import Prelude RoundRobin RoundRobinFacts RoundRobinWorld UpstreamHeaders UpstreamState Upstream UpstreamPeers.

Module UpstreamFacts.
Import RoundRobin.RoundRobin RoundRobinGroup RoundRobinWorld.RoundRobinWorld RoundRobinReach.
Import UpstreamPeers.UpstreamPeers UpstreamHeaders.UpstreamHeaders UpstreamState.UpstreamState Upstream.Upstream.
#[local] Open Scope upstream_scope.

(** ** Weakest preconditions

    [wp m Q s]: [m] from [s] does not crash, if it ends [Q] holds, and it may run
    out of fuel only if [out] holds.  The world has nothing more to read after
    [questions] questions, and no more than [level] peers are tried in a call. *)

Class Limits := { out : Prop; questions : nat; level : nat }.

Definition wp `{Limits} {A} (m : M A) (Q : A -> st -> Prop) (s : st) : Prop :=
  match m s with
  | Done a s' => Q a s'
  | Crash => False
  | Fuel => out
  end.

Section Rules.
Context {L : Limits}.

Lemma wp_then {A B} (m : M A) (k : A -> M B) Q s :
  wp m (fun a s' => wp (k a) Q s') s -> wp (bind m k) Q s.
Proof. unfold wp, bind. by destruct (m s). Qed.

Lemma wp_conseq {A} (m : M A) (P Q : A -> st -> Prop) s :
  wp m P s -> (forall a s', P a s' -> Q a s') -> wp m Q s.
Proof. unfold wp. destruct (m s); auto. Qed.

Lemma wp_ret {A} (a : A) Q s : Q a s -> wp (ret a) Q s.
Proof. done. Qed.
Lemma wp_field_read {A} (f : st -> A) Q s : Q (f s) s -> wp (read f) Q s.
Proof. done. Qed.
Lemma wp_write f Q s : Q tt (f s) -> wp (write f) Q s.
Proof. done. Qed.
Lemma wp_ask {A} (f : nat -> A) Q s : (forall a, Q a (s <| clock := S (clock s) |>)) -> wp (ask f) Q s.
Proof. intros HQ. apply HQ. Qed.
Lemma wp_fuel {A} (Q : A -> st -> Prop) s : out -> wp out_of_fuel Q s.
Proof. done. Qed.
End Rules.

(** One step of symbolic execution. *)
Ltac wstep :=
  lazymatch goal with
  | |- wp (bind _ _) _ _ => apply wp_then
  | |- wp (ret _) _ _ => apply wp_ret
  | |- wp (read _) _ _ => apply wp_field_read
  | |- wp (write _) _ _ => apply wp_write
  | |- wp (ask _) _ _ => apply wp_ask; intros ?
  | |- wp (record _) _ _ => unfold record; apply wp_write
  | |- wp (on_buffer _) _ _ => unfold on_buffer; apply wp_write
  | |- wp (on_pipe _) _ _ => unfold on_pipe; apply wp_write
  | |- wp (on_hdr _) _ _ => unfold on_hdr; apply wp_write
  | |- wp (on_peer _) _ _ => unfold on_peer; apply wp_write
  | |- wp (on_pc _) _ _ => unfold on_pc
  | |- wp (set_cacheable _) _ _ => unfold set_cacheable
  | |- wp (set_length _) _ _ => unfold set_length
  | |- wp (set_cache _) _ _ => unfold set_cache
  | |- wp (set_cached _) _ _ => unfold set_cached
  | |- wp (ngx_http_finalize_request _) _ _ => unfold ngx_http_finalize_request
  | |- wp (if ?b then _ else _) _ _ => let E := fresh "E" in destruct b eqn:E
  | |- wp (match ?x with _ => _ end) _ _ => let E := fresh "E" in destruct x eqn:E
  | |- wp (let _ := _ in _) _ _ => cbv zeta
  end.
Ltac wsteps := repeat (cbv beta zeta; wstep).

(** ** The books *)

Fixpoint tally (f : action -> Z) (l : list action) : Z :=
  match l with
  | [] => 0
  | a :: l => f a + tally f l
  end.

(** Connections that are open, peers that are taken, ends of the request. *)
Definition opens (a : action) : Z := match a with Connected => 1 | Closed => -1 | _ => 0 end.
Definition takes (a : action) : Z := match a with Peer_got (Some _) => 1 | Peer_freed _ => -1 | _ => 0 end.
Definition ends (a : action) : Z := match a with Finalized _ => 1 | _ => 0 end.

Definition one {A} (o : option A) : Z := match o with Some _ => 1 | None => 0 end.

Record books (c p : Z) (h : peers_heap) (u : RoundRobin.upstream) : Prop := {
  bk_connection : c = one (RoundRobin.connection (u_peer u));
  bk_peer : p = one (pc_sockaddr (u_peer u));
  bk_heap : heap_ok h;
  bk_addressed : addressed h;
  bk_request : pc_sockaddr (u_peer u) <> None -> request_ok h u;
  bk_data : pc_sockaddr (u_peer u) <> None -> peer_data u <> None;
}.

Definition plain_u (h : u_handler) : bool :=
  match h with upgraded_read_upstream_handler | upgraded_write_upstream_handler => false | _ => true end.
Definition plain_r (h : r_handler) : bool :=
  match h with upgraded_read_downstream_handler | upgraded_write_downstream_handler => false | _ => true end.
Definition plain_read (h : r_handler) : bool :=
  match h with other_handler | empty_handler | rd_check_broken_connection => true | _ => false end.
Definition starts (h : r_handler) : bool := match h with init_request_handler => true | _ => false end.

(** The fields that are no part of the books, of which some are fixed here. *)
Definition plain (s : st) : Prop :=
  upgrade s = false /\ plain_u (u_read s) = true /\ plain_u (u_write s) = true
  /\ plain_read (r_read s) = true /\ plain_r (r_write s) = true.

Definition booked (s : st) : Prop :=
  books (tally opens (log s)) (tally takes (log s)) (heap s) (peer s) /\ plain s.

(** A request that has not been ended. *)
Definition live (s : st) : Prop := booked s /\ tally ends (log s) = 0.

(** Nothing is held, and the cleanup is done. *)
Definition clear (s : st) : Prop := connection s = None /\ Upstream.sockaddr s = None /\ cleanup s = false.

(** A request that has been ended, once. *)
Definition ended (s : st) : Prop := booked s /\ tally ends (log s) = 1 /\ clear s.

(** What an attempt has to have: a balancer and the list of attempts. *)
Definition balanced (s : st) : Prop :=
  is_Some (peer_data (peer s)) /\ is_Some (states s) /\ RoundRobin.cached (pc s) = false
  /\ request_ok (heap s) (peer s).

(** What is left to try, and whether the group has one peer. *)
Definition remaining (s : st) : nat := from_option (allowance (heap s)) 0%nat (peer_data (peer s)).
Definition sole (s : st) : bool :=
  from_option (fun d => single (group_at (heap s) (rrp_peers d))) false (peer_data (peer s)).

(** Giving the peer back, if that leaves a try, leaves less than [level]. *)
Definition affordable `{Limits} (s : st) : Prop :=
  out \/ tries (pc s) = 0 \/ (sole s = true /\ is_Some (Upstream.sockaddr s)) \/ (remaining s < level)%nat.

(** The request has been started, no name is being resolved, and the cleanup
    handler is there. *)
Definition started (s : st) : Prop := starts (r_write s) = false /\ resolving s = false /\ cleanup s = true.

(** An attempt is under way. *)
Definition trying (s : st) : Prop := live s /\ balanced s /\ is_Some (state s) /\ started s.
Definition connected `{Limits} (s : st) : Prop := trying s /\ affordable s /\ is_Some (connection s).

(** Before an attempt. *)
Definition ready `{Limits} (s : st) : Prop :=
  live s /\ balanced s /\ connection s = None /\ Upstream.sockaddr s = None /\ started s
  /\ (out \/ (remaining s < level)%nat).

(** Where a handler leaves the request. *)
Definition rest `{Limits} (s : st) : Prop := ended s \/ connected s.

Ltac open_inv := repeat match goal with
  | H : _ /\ _ |- _ => destruct H
  | H : connected _ |- _ => unfold connected in H
  | H : trying _ |- _ => unfold trying in H
  | H : ready _ |- _ => unfold ready in H
  | H : live _ |- _ => unfold live in H
  | H : ended _ |- _ => unfold ended in H
  | H : clear _ |- _ => unfold clear in H
  | H : balanced _ |- _ => unfold balanced in H
  | H : started _ |- _ => unfold started in H
  | H : booked _ |- _ => unfold booked in H
  | H : plain _ |- _ => unfold plain in H
  end.

(** An invariant of a state whose other fields were written. *)
Ltac keep :=
  open_inv; unfold connected, trying, ready, live, ended, clear, balanced, started, booked, plain;
  repeat match goal with |- _ /\ _ => split end;
  first [ assumption | reflexivity | eassumption | (by auto) | idtac ].

(** Writes and questions. *)
Ltac calm := solve [split; [reflexivity | cbn; repeat constructor]].

Section Facts.
Context {L : Limits} {W : World} (cf : conf).

(** ** What the balancer's operations do to the books *)

Lemma release_ok now state h u h' u' : heap_ok h -> request_ok h u -> is_Some (pc_sockaddr (u_peer u)) ->
  is_Some (peer_data u) -> release NGX_PEER_FAILED now state h u = (h', u') ->
  heap_ok h' /\ request_ok h' u' /\ pc_sockaddr (u_peer u') = None
  /\ RoundRobin.connection (u_peer u') = RoundRobin.connection (u_peer u) /\ peer_data u' = peer_data u
  /\ evolves h h' /\ RoundRobin.cached (u_peer u') = RoundRobin.cached (u_peer u)
  /\ (tries (u_peer u') <> 0 -> tries (u_peer u) <> 0
      /\ from_option (fun d => single (group_at h (rrp_peers d))) false (peer_data u) = false).
Proof.
  intros Hh Hu [a Ha] [d Hd]. destruct (Hu d Hd) as [Hok _].
  unfold release, ngx_http_upstream_free_round_robin_peer. rewrite Ha, Hd. cbn [from_option].
  destruct (single _).
  - intros [= <- <-]. split_and!; try done. by eapply held_ok.
  - intros [= <- <-].
    destruct (heap_ok_peer (RoundRobin.free_peer NGX_PEER_FAILED now state) h (rrp_peers d) (current d))
      as [G1 G2]; [auto with http|apply Hok|done|].
    destruct (Z.eqb_spec (tries (u_peer u)) 0).
    all: split_and!; try done; (eapply request_ok_evolves; [exact G2|]; by eapply held_ok).
Qed.

(** A state after the release of the peer. *)
Definition released (state : Z) (h : peers_heap) (u : RoundRobin.upstream) (s : st) : st :=
  s <| clock := S (clock s) |> <| log := Peer_freed state :: log s |> <| heap := h |> <| peer := u |>.

Lemma wp_free_peer state Q s : booked s -> is_Some (Upstream.sockaddr s) ->
  (forall h u, let s' := released state h u s in
     books (tally opens (log s)) (-1 + tally takes (log s)) h u -> Upstream.sockaddr s' = None ->
     RoundRobin.connection (u_peer u) = connection s -> peer_data u = peer_data (peer s) ->
     RoundRobin.cached (u_peer u) = RoundRobin.cached (pc s) ->
     request_ok h u -> remaining s' = remaining s -> (tries (u_peer u) <> 0 -> tries (pc s) <> 0 /\ sole s = false) -> Q tt s') ->
  wp (Upstream.free_peer state) Q s.
Proof.
  intros [[Bc Bp Bh Ba Br Bd] _] Hs HQ. unfold Upstream.free_peer. wsteps.
  assert (Hd : is_Some (peer_data (peer s))).
  { destruct Hs as [x Hx]. destruct (peer_data (peer s)); [done|]. destruct Bd; [|done]. unfold Upstream.sockaddr, pc in Hx. congruence. }
  pose proof (same_addresses_release _ _ _ _ _ _ _ E) as Hsame.
  assert (Hr : request_ok (heap s) (peer s)) by (apply Br; destruct Hs as [x Hx]; unfold Upstream.sockaddr, pc in Hx; congruence).
  apply release_ok in E as (G1 & G2 & G3 & G4 & G5 & G6 & G7 & G8); try done.
  refine (HQ _ _ _ _ _ _ _ _ _ _); try done.
  - split; try done.
    + by rewrite G4.
    + rewrite G3, Bp. cbn. destruct Hs as [x Hx]. unfold Upstream.sockaddr, pc in Hx. by rewrite Hx.
    + by eapply addressed_same.
  - unfold remaining. cbn. rewrite G5. cbn. destruct (peer_data (peer s)); [|done]. by apply allowance_evolves.
Qed.

Lemma wp_on_state f Q s : is_Some (state s) ->
  (forall l, (is_Some (states s) -> is_Some l) -> Q tt (s <| states := l |>)) -> wp (on_state f) Q s.
Proof.
  intros [i Hi] HQ. unfold on_state. wsteps; [|congruence]. apply HQ. by rewrite fmap_is_Some.
Qed.

Lemma wp_end_of_state final Q s : Q tt s ->
  (forall c l, (is_Some (states s) -> is_Some l) -> Q tt (s <| clock := c |> <| states := l |>)) ->
  wp (end_of_state final) Q s.
Proof.
  intros H1 H2. unfold end_of_state. wsteps; try done. apply wp_on_state; [by exists n|]. cbn. intros l0 Hl. by apply H2.
Qed.

Lemma wp_close_connection Q s : booked s ->
  (connection s = None -> Q tt s) ->
  (forall u, books (-1 + tally opens (log s)) (tally takes (log s)) (heap s) u ->
     RoundRobin.connection (u_peer u) = None -> pc_sockaddr (u_peer u) = Upstream.sockaddr s ->
     peer_data u = peer_data (peer s) -> RoundRobin.cached (u_peer u) = RoundRobin.cached (pc s) ->
     (request_ok (heap s) (peer s) -> request_ok (heap s) u) ->
     Q tt (s <| log := Closed :: log s |> <| peer := u |> <| c_ssl := false |> <| handshaking := false |>
             <| write_timer := false |> <| read_timer := false |> <| u_nodelay := false |>)) ->
  wp close_connection Q s.
Proof.
  intros [[Bc Bp Bh Ba Br Bd] _] H1 H2. unfold close_connection. wsteps.
  - apply H2; try done. split; try done.
    rewrite Bc. unfold connection, pc in *. apply bool_decide_eq_true_1 in E as [x ->]. done.
  - apply H1. apply bool_decide_eq_false_1 in E. destruct (connection s); [|done]. by destruct E; eexists.
Qed.

(** ** The end of a request *)

(** What ends a request without saying so to the client. *)
Definition left (s : st) : Prop := live s /\ clear s.

(** The fields that the end does not touch. *)
Definition frame (s s' : st) : Prop :=
  peer_data (peer s') = peer_data (peer s) /\ (is_Some (states s) -> is_Some (states s'))
  /\ state s' = state s /\ r_write s' = r_write s.

Definition ending (s s' : st) : Prop := live s' /\ cleanup s' = false /\ frame s s'.

(** A piece of the program that goes from one state of affairs to another. *)
Lemma wp_seq {A} (m : M unit) (k : M A) (P : st -> Prop) Q s :
  wp m (fun _ s' => P s') s -> (forall s', P s' -> wp k Q s') -> wp (bind m (fun _ => k)) Q s.
Proof. intros Hm Hk. apply wp_then. eapply wp_conseq; [exact Hm|]. intros [] s' H. by apply Hk. Qed.

Ltac keep_end := unfold ending, frame in *; keep.

Lemma wp_delete_temp_file s0 s (P : st -> Prop) : ending s0 s ->
  (forall l, ending s0 (s <| log := l |>) -> P (s <| log := l |>)) -> P s -> wp delete_temp_file (fun _ s' => P s') s.
Proof.
  intros H HP HPs. unfold delete_temp_file. wsteps; try done. apply HP. keep_end.
Qed.

(** Steps that touch nothing of the invariants. *)
Definition view (s : st) :=
  (tally opens (log s), tally takes (log s), tally ends (log s), (heap s, peer s), (state s, states s, cleanup s, resolving s, resolved s),
   (upgrade s, u_read s, u_write s, r_read s, r_write s)).
Definition quiet (s s' : st) : Prop := view s' = view s /\ (clock s <= clock s')%nat.

(** An invariant of the view. *)
Ltac by_view :=
  let E := fresh "E" in
  unfold quiet, view; intros [E _]; injection E; clear E; intros;
  unfold ending, frame, rest, ended, clear, connected, affordable, trying, ready, live, balanced, started, booked, plain,
    remaining, sole, Upstream.sockaddr, connection, pc in *;
  repeat match goal with H : ?f ?s' = ?f ?s |- _ => rewrite !H in *; clear H
                       | H : tally ?f ?l = tally ?f ?l' |- _ => rewrite !H in *; clear H end;
  done.

Lemma quiet_ending s0 s s' : quiet s s' -> ending s0 s -> ending s0 s'.
Proof. by_view. Qed.
Lemma quiet_live s s' : quiet s s' -> live s -> live s'.
Proof. by_view. Qed.
Lemma quiet_trying s s' : quiet s s' -> trying s -> trying s'.
Proof. by_view. Qed.
Lemma quiet_connected s s' : quiet s s' -> connected s -> connected s'.
Proof. by_view. Qed.
Lemma quiet_affordable s s' : quiet s s' -> affordable s -> affordable s'.
Proof. by_view. Qed.
Lemma quiet_ready s s' : quiet s s' -> ready s -> ready s'.
Proof. by_view. Qed.
Lemma quiet_ended s s' : quiet s s' -> ended s -> ended s'.
Proof. by_view. Qed.
Lemma quiet_peer s s' : quiet s s' -> peer s' = peer s.
Proof. by_view. Qed.
Lemma quiet_trans s1 s2 s3 : quiet s1 s2 -> quiet s2 s3 -> quiet s1 s3.
Proof. intros [E1 E2] [E3 E4]. split; [congruence|lia]. Qed.
Lemma quiet_refl s : quiet s s.
Proof. by split. Qed.


Lemma wp_error_valid rc s : wp (error_valid rc) (fun _ => quiet s) s.
Proof. unfold error_valid. wsteps; calm. Qed.

(** What [finalize] does before the client is told. *)
Lemma wp_finalize_front rc Q s : live s ->
  (forall s', left s' -> frame s s' -> wp (match rc with NGX_DECLINED => ok | rc => finalize_client rc end) Q s') ->
  wp (ngx_http_upstream_finalize_request rc) Q s.
Proof.
  intros Hl HQ. unfold ngx_http_upstream_finalize_request.
  apply wp_then, wp_write.
  apply wp_seq with (P := ending s).
  { apply wp_end_of_state; [keep_end|]. intros c l Hs. keep_end. }
  intros s1 H1. apply wp_then. wstep. apply wp_then. wstep.
  apply wp_seq with (P := fun s' => ending s s' /\ Upstream.sockaddr s' = None).
  { destruct (_ && _) eqn:E; b2p.
    - apply wp_free_peer; [keep_end | by apply bool_decide_eq_true_1 in H0 |].
      intros h u s' Hb E1 E2 E3 _ _ _ _. split; [|exact E1]. keep_end. etransitivity; [exact E3|assumption].
    - apply wp_ret. split; [keep_end|]. apply andb_false_iff in E. unfold Upstream.sockaddr, pc in *.
      destruct (pc_sockaddr (u_peer (peer s1))) as [a|] eqn:Ea; [|done]. exfalso.
      destruct E as [E|E]; apply bool_decide_eq_false_1 in E; [|by destruct E; eexists].
      destruct H1 as [[[[_ _ _ _ _ Bd] _] _] _]. destruct (peer_data (peer s1)) eqn:Ed; [by destruct E; eexists|].
      assert (Hn : Some a <> None) by done. rewrite <- Ea in Hn. by apply Bd in Hn. }
  intros s2 [H2 Ha2].
  apply wp_seq with (P := fun s' => ending s s' /\ Upstream.sockaddr s' = None /\ connection s' = None).
  { apply wp_close_connection; [by apply H2 | by intros Hc; split_and! |].
    intros u Hb E1 E2 E3 _ _. split; [|split; [by rewrite <- Ha2 | exact E1]]. keep_end. etransitivity; [exact E3|assumption]. }
  intros s3 (H3 & Ha3 & Hc3).
  apply wp_seq with (P := fun s' => ending s s' /\ Upstream.sockaddr s' = None /\ connection s' = None).
  { unfold delete_temp_file. wsteps; (split; [keep_end | by split]). }
  intros s4 (H4 & Ha4 & Hc4).
  apply wp_seq with (P := fun s' => ending s s' /\ Upstream.sockaddr s' = None /\ connection s' = None).
  { unfold finalize_cache. apply wp_then. wstep. destruct (has_cache s4); [|by apply wp_ret].
    apply wp_seq with (P := fun s' => quiet s4 s').
    - destruct (_ && _); [apply wp_error_valid | apply wp_ret, quiet_refl].
    - intros s5 H5. wstep. pose proof (quiet_ending s s4 s5 H5 H4) as H6. pose proof (quiet_peer _ _ H5) as E3.
      unfold Upstream.sockaddr, connection, pc in *. rewrite <- E3 in Ha4, Hc4. split; [keep_end | done]. }
  intros s5 ([H5 [H5c H5f]] & Ha5 & Hc5). by apply HQ.
Qed.

Lemma wp_finalize_client rc s : left s -> wp (finalize_client rc) (fun _ => ended) s.
Proof. intros [H C]. unfold finalize_client. wsteps; keep; cbn; lia. Qed.

Lemma wp_finalize rc Q s : live s -> rc <> NGX_DECLINED -> (forall s', ended s' -> Q tt s') ->
  wp (ngx_http_upstream_finalize_request rc) Q s.
Proof.
  intros H Hrc HQ. apply wp_finalize_front; [done|]. intros s' H' _.
  destruct rc; try done; (eapply wp_conseq; [by apply wp_finalize_client | intros [] s'' H''; by apply HQ]).
Qed.

Lemma wp_finalize_declined Q s : live s -> (forall s', left s' -> Q tt s') ->
  wp (ngx_http_upstream_finalize_request NGX_DECLINED) Q s.
Proof. intros H HQ. apply wp_finalize_front; [done|]. intros s' H' _. by apply wp_ret, HQ. Qed.

(** ** The headers and the cache *)

(** The effects of processing the headers end the request, or there are none. *)
Lemma header_effects h es rc h' :
  UpstreamHeaders.ngx_http_upstream_process_headers (hdr_conf cf) h = (es, rc, h') ->
  (es = [] /\ rc = NGX_OK)
  \/ (rc = NGX_DONE /\ (es = [Upstream_finalized (Code UpstreamHeaders.NGX_HTTP_INTERNAL_SERVER_ERROR)]
        \/ (exists z, es = [Upstream_finalized NGX_DECLINED; UpstreamHeaders.Finalized (Code z)])
        \/ (exists uri args, es = [Upstream_finalized NGX_DECLINED; Internal_redirect uri args;
                                   UpstreamHeaders.Finalized NGX_DONE]))).
Proof.
  assert (Hpass : pass_headers (hdr_conf cf) h = (es, rc, h') -> (es = [] /\ rc = NGX_OK)
    \/ (rc = NGX_DONE /\ es = [Upstream_finalized (Code UpstreamHeaders.NGX_HTTP_INTERNAL_SERVER_ERROR)])).
  { unfold pass_headers. destruct copy_passed as [[] ?]; intros [= <- <- _]; auto. }
  unfold UpstreamHeaders.ngx_http_upstream_process_headers.
  destruct (ptr_in _ _) as [p|]; [destruct ignored|]; try by (intros [|[]]%Hpass; auto).
  unfold redirect_headers. destruct copy_redirected as [rc0 h0].
  destruct rc0; try (intros [= <- <- _]; right; split; [done|]; right; left; by eexists).
  destruct UriUtil.UriUtil.ngx_http_parse_unsafe_uri as [[uri args]|]; intros [= <- <- _]; right; (split; [done|]);
    right; [right; by eexists _, _ | left; by eexists].
Qed.

Lemma wp_finalized rc s : left s -> wp (record (Finalized rc)) (fun _ => ended) s.
Proof. intros [H C]. wsteps. keep; cbn; lia. Qed.

Lemma wp_process_headers Q s : live s -> (forall h, Q NGX_OK (s <| hdr := h |>)) ->
  (forall s', ended s' -> Q NGX_DONE s') -> wp (process_headers cf) Q s.
Proof.
  intros Hl Hok Hdone. unfold process_headers. apply wp_then. wstep.
  destruct (UpstreamHeaders.ngx_http_upstream_process_headers _ _) as [[es rc] h] eqn:E.
  apply wp_then. wstep. assert (Hl' : live (s <| hdr := h |>)) by keep.
  apply header_effects in E as [[-> ->]|[-> [->|[[z ->]|(uri & args & ->)]]]]; cbn [run_effects run_effect].
  - apply wp_then. apply wp_ret. apply wp_ret, Hok.
  - apply wp_then, wp_then, wp_finalize; [done..|]. intros s' H'. by apply wp_ret, wp_ret, Hdone.
  - apply wp_then, wp_then, wp_finalize_declined; [done|]. intros s' H'. apply wp_then.
    eapply wp_conseq; [by apply wp_finalized|]. intros [] s'' H''. by apply wp_ret, wp_ret, Hdone.
  - apply wp_then, wp_then, wp_finalize_declined; [done|]. intros s' H'. apply wp_then. wstep. apply wp_then.
    eapply wp_conseq; [apply wp_finalized; destruct H' as [H' C']; split; keep|]. intros [] s'' H''. by apply wp_ret, wp_ret, Hdone.
Qed.
End Facts.

(** ** What the core and the modules promise

    [ngx_event_connect_peer] asks the balancer and, if that has a peer, connects
    a socket to its address, which must not be NULL; a connection is there when
    that does not fail. *)
Definition event_connect {W : World} (get : M ngx_rc) : M ngx_rc :=
  rc <- get ;;
  match rc with
  | NGX_OK =>
      a <- read Upstream.sockaddr ;;
      (if bool_decide (is_Some a) then ok else crash) ;;
      n <- read clock ;;
      rc <- ask connect_socket ;;
      match rc with
      | NGX_ERROR => ret NGX_ERROR
      | NGX_DECLINED => ret NGX_DECLINED
      | NGX_BUSY => ret NGX_DECLINED
      | rc =>
          record Connected ;;
          tls <- ask connection_ssl ;;
          on_pc (fun p => p <| RoundRobin.connection := Some (Z.of_nat n) |>) ;;
          write (fun s => s <| c_ssl := tls |> <| handshaking := false |> <| write_timer := false |>
                            <| read_timer := false |> <| u_nodelay := false |>) ;;
          ret rc
      end
  | rc => ret rc
  end.

Class WorldOk {W : World} : Prop := {
  connect_peer get s : ngx_event_connect_peer get s = event_connect get s;
  send_header_rc n : ngx_http_send_header n <> NGX_DECLINED;
}.

(** The module does not upgrade connections, and no stale answer is sent. *)
Definition never_upgrades {W : World} : Prop := forall n b h, p_upgrade (process_header n b h) = false.

(** Nothing more is received after [n] questions. *)
Definition drained {W : World} (n : nat) : Prop := forall k size, (n <= k)%nat -> recv k size = Again.

(** The fuel of a loop over what a socket has. *)
Definition enough {L : Limits} (fuel : nat) (s : st) : Prop :=
  out \/ ((0 < fuel)%nat /\ (questions < fuel + clock s)%nat).

Definition failures : list Z := [
  NGX_HTTP_UPSTREAM_FT_ERROR; NGX_HTTP_UPSTREAM_FT_TIMEOUT; NGX_HTTP_UPSTREAM_FT_INVALID_HEADER;
  NGX_HTTP_UPSTREAM_FT_HTTP_500; NGX_HTTP_UPSTREAM_FT_HTTP_502; NGX_HTTP_UPSTREAM_FT_HTTP_503;
  NGX_HTTP_UPSTREAM_FT_HTTP_504; NGX_HTTP_UPSTREAM_FT_HTTP_403; NGX_HTTP_UPSTREAM_FT_HTTP_404;
  NGX_HTTP_UPSTREAM_FT_NOLIVE].
Definition never_stale (cf : conf) : Prop := Forall (fun ft => has (cache_use_stale cf) ft = false) failures.

End UpstreamFacts.
