(* ===== verification/UpstreamSteps.v ===== *)
(** * The upstream state machine: one attempt

    Every function of an attempt, from the choice of a peer to the last byte of
    the response, keeps the books of the request and leaves it ended or with its
    connection, provided the next attempt ([connect]) does. *)

From S2P Require Import Prelude RoundRobin RoundRobinFacts RoundRobinWorld UpstreamHeaders UpstreamState Upstream UpstreamPeers UpstreamFacts.

Module UpstreamSteps.
Import RoundRobin.RoundRobin RoundRobinGroup RoundRobinWorld.RoundRobinWorld RoundRobinReach.
Import UpstreamPeers.UpstreamPeers UpstreamHeaders.UpstreamHeaders UpstreamState.UpstreamState Upstream.Upstream UpstreamFacts.UpstreamFacts.
#[local] Open Scope upstream_scope.

Section Attempts.
Context {L : Limits} {W : World} {WOK : WorldOk} (cf : conf) (Hup : never_upgrades) (Hstale : never_stale cf).
Context (fuel0 : nat) (Hdrained : out \/ drained questions) (Hfuel : out \/ (questions < fuel0)%nat).

Lemma not_stale ft : ft ∈ failures -> has (cache_use_stale cf) ft = false.
Proof. intros Hin. unfold never_stale in Hstale. rewrite list.Forall_forall in Hstale. by apply Hstale. Qed.

Lemma wp_run_process_header s : upgrade s = false -> wp run_process_header (fun _ => quiet s) s.
Proof.
  intros Hu. unfold wp, run_process_header, bind, read, ask, on_buffer, write, ret. unfold quiet, view. cbn.
  rewrite Hup, Hu. split; [done|repeat constructor].
Qed.

Section Attempt.
Context (connect : M unit).
Hypothesis connect_rest : forall s Q, ready s -> (forall s', rest s' -> Q tt s') -> wp connect Q s.

(** The end and a new attempt, as the last thing done. *)
Lemma wp_finalize_rest rc Q s : live s -> rc <> NGX_DECLINED -> (forall s', rest s' -> Q tt s') ->
  wp (ngx_http_upstream_finalize_request rc) Q s.
Proof. intros H Hrc HQ. apply wp_finalize; [done..|]. intros s' H'. apply HQ. by left. Qed.

Lemma trying_live s : trying s -> live s.
Proof. by intros []. Qed.
Lemma connected_trying s : connected s -> trying s.
Proof. by intros []. Qed.
Lemma connected_live s : connected s -> live s.
Proof. intros H. by apply trying_live, connected_trying. Qed.

Lemma connected_affordable s : connected s -> affordable s.
Proof. by intros (_ & ? & _). Qed.

Lemma wp_next ft Q s : ft ∈ failures -> trying s -> affordable s \/ has (next_upstream cf) ft = false ->
  (forall s', rest s' -> Q tt s') -> wp (ngx_http_upstream_next cf connect ft) Q s.
Proof.
  intros Hft H Hrem HQ. unfold ngx_http_upstream_next. apply wp_then. wstep.
  pose (after := fun s' => trying s' /\ Upstream.sockaddr s' = None
    /\ (out \/ tries (pc s') = 0 \/ (remaining s' < level)%nat \/ has (next_upstream cf) ft = false)).
  apply wp_seq with (P := after).
  { destruct (bool_decide (is_Some (Upstream.sockaddr s))) eqn:Es.
    - apply bool_decide_eq_true_1 in Es. cbv zeta.
      destruct (bool_decide (is_Some (peer_data (peer s)))) eqn:Ed;
        [|apply bool_decide_eq_false_1 in Ed; by destruct H as (_ & [] & _)].
      apply wp_free_peer; [by apply H | done |]. intros h u s' Hb E1 E2 E3 E4 Er E5 E6.
      split; [keep; unfold pc in *; cbn; first [by rewrite E3 | by rewrite E4 | exact Hb]|]. split; [done|]. rewrite E5.
      destruct (decide (tries (u_peer u) = 0)) as [|Ht]; [by right; left|]. destruct (E6 Ht) as [Ht' Hsole].
      destruct Hrem as [[?|[?|[[??]|?]]]|?]; try congruence; auto.
    - apply wp_ret. split; [done|]. apply bool_decide_eq_false_1 in Es.
      assert (Hn : Upstream.sockaddr s = None) by (destruct (Upstream.sockaddr s); [by destruct Es; eexists|done]).
      split; [done|]. destruct Hrem as [[?|[?|[[_ [??]]|?]]]|?]; try congruence; auto. }
  intros s1 (H1 & Ha & Hb). apply wp_then. wstep. cbv zeta.
  assert (Hc : RoundRobin.cached (pc s1) = false) by apply H1. rewrite Hc. cbn [andb].
  apply wp_then, wp_ret.
  destruct (c_error s1); [by apply wp_finalize_rest; [apply trying_live|..]|].
  apply wp_seq with (P := fun s' => trying s' /\ Upstream.sockaddr s' = None /\ remaining s' = remaining s1).
  { apply wp_on_state; [by apply H1|]. intros l Hl. split; [|done]. keep. }
  intros s2 (H2 & Ha2 & Hr2).
  rewrite (not_stale ft Hft), andb_false_r. destruct (_ || _) eqn:E; [by apply wp_finalize_rest; [apply trying_live|..]|].
  apply orb_false_iff in E as [E1 E2]. apply Z.eqb_neq in E1. apply negb_false_iff in E2.
  assert (Hleft : out \/ (remaining s2 < level)%nat).
  { rewrite Hr2. destruct Hb as [?|[?|[?|?]]]; auto; congruence. }
  apply wp_seq with (P := ready); [|intros s'' H''; by apply connect_rest].
  apply wp_close_connection; [by apply H2 | intros Hcn; keep; done |]. intros u Hbk F1 F2 F3 F4 F5.
  assert (Hleft' : forall s', peer_data (peer s') = peer_data (peer s2) -> heap s' = heap s2 -> out \/ (remaining s' < level)%nat).
  { intros s' G1 G2. unfold remaining in *. by rewrite G1, G2. }
  split; [keep|]. split; [unfold balanced, pc in *; cbn; rewrite F3, F4; destruct H2 as (_ & (? & ? & ? & ?) & _); auto|].
  split; [exact F1|]. split; [unfold Upstream.sockaddr, pc in *; cbn; congruence|]. split; [keep | by apply Hleft'].
Qed.

Lemma wp_next_connected ft Q s : ft ∈ failures -> connected s -> (forall s', rest s' -> Q tt s') ->
  wp (ngx_http_upstream_next cf connect ft) Q s.
Proof. intros Hft H. apply wp_next; [done | by apply connected_trying | by left; apply connected_affordable]. Qed.

(** An invariant after such a step. *)
Ltac by_quiet := cbv beta in *; solve
  [ eassumption | eapply quiet_connected; eassumption | eapply quiet_trying; eassumption | eapply quiet_live; eassumption
  | eapply quiet_ready; eassumption | eapply quiet_ended; eassumption | eapply quiet_trans; eassumption ].

(** A step that touches nothing of the invariants. *)
Lemma wp_quiet {A B} (m : M A) (k : A -> M B) Q s :
  wp m (fun _ => quiet s) s -> (forall a s', quiet s s' -> wp (k a) Q s') -> wp (bind m k) Q s.
Proof. intros Hm Hk. apply wp_then. eapply wp_conseq; [exact Hm|]. intros a s' H. by apply Hk. Qed.

(** A question. *)
Lemma wp_asked {A B} (f : nat -> A) (k : A -> M B) Q s :
  (forall a s', (exists n, a = f n) -> quiet s s' -> wp (k a) Q s') -> wp (bind (ask f) k) Q s.
Proof. intros Hk. apply wp_then. unfold ask, wp. apply Hk; [by eexists | calm]. Qed.

Lemma wp_test_next Q s : connected s -> Q NGX_DECLINED s -> (forall s', rest s' -> Q NGX_OK s') ->
  wp (ngx_http_upstream_test_next cf connect) Q s.
Proof.
  intros H HD HO. unfold ngx_http_upstream_test_next. apply wp_then. wstep.
  destruct (next_error _ _) as [mask|] eqn:E; [|done].
  assert (Hin : mask ∈ failures).
  { revert E. unfold ngx_http_upstream_next_errors. cbn [next_error].
    repeat (destruct (status_n s =? _); [intros [= <-]; apply (bool_decide_unpack (_ ∈ _)); vm_compute; exact I|]). done. }
  destruct (_ && _).
  - apply wp_then, wp_next; [done | by apply connected_trying | by left; apply connected_affordable |].
    intros s' H'. by apply wp_ret, HO.
  - by rewrite (not_stale mask Hin), andb_false_r.
Qed.

Lemma wp_copy_www_authenticate s : wp copy_www_authenticate (fun _ => quiet s) s.
Proof. unfold copy_www_authenticate. wsteps; calm. Qed.

Lemma wp_intercept_errors Q s : live s -> Q NGX_DECLINED s -> (forall s', rest s' -> Q NGX_OK s') ->
  wp (ngx_http_upstream_intercept_errors cf) Q s.
Proof.
  intros H HD HO. unfold ngx_http_upstream_intercept_errors. apply wp_then. wstep. cbv zeta.
  destruct (_ && _); [apply wp_then, wp_finalize_rest; [done..|]; intros; by apply wp_ret, HO|].
  destruct (negb _); [done|]. destruct (error_pages cf); [|done]. destruct (bool_decide _); [|done].
  unfold intercepted. apply wp_quiet.
  { destruct (_ =? _); [apply wp_copy_www_authenticate | done]. }
  intros [] s1 H1; cbn [negb]; apply quiet_live in H1; try done.
  2: { apply wp_then, wp_finalize_rest; [done..|]. intros. by apply wp_ret, HO. }
  apply wp_then. wstep. apply wp_quiet.
  { destruct (has_cache s1); [|done]. apply wp_quiet; [apply wp_error_valid|]. by intros [] s2 H2. }
  intros [] s2 H2. apply wp_then, wp_finalize_rest; [by_quiet | done|]. intros. by apply wp_ret, HO.
Qed.

Lemma wp_deref Q s : connected s -> Q tt s -> wp deref_connection Q s.
Proof.
  intros (_ & _ & Hc) HQ. unfold deref_connection. apply wp_then. wstep.
  by rewrite bool_decide_true.
Qed.

(** What is received, unless the world has nothing more. *)
Lemma wp_received {B} (k : received -> M B) Q s : connected s ->
  (forall n s', connected s' -> (clock s < clock s')%nat -> n = Again \/ out \/ (clock s < questions)%nat -> wp (k n) Q s') ->
  wp (bind recv_buffer k) Q s.
Proof.
  intros H Hk. apply wp_then. unfold recv_buffer. apply wp_then, wp_deref; [done|]. apply wp_then. wstep.
  apply wp_then. unfold ask at 1. cbv beta. unfold wp at 1.
  assert (Hn : forall size, recv (clock s) size = Again \/ out \/ (clock s < questions)%nat).
  { intros size. destruct Hdrained as [|Hd]; [auto|]. destruct (decide (questions <= clock s)%nat); [left; by apply Hd|].
    right. right. lia. }
  specialize (Hn (end_ (buffer s) - last (buffer s))).
  assert (H' : connected (s <| clock := S (clock s) |>)) by (eapply quiet_connected; [|exact H]; calm).
  destruct (recv _ _) as [| |l] eqn:E.
  - apply wp_ret, Hk; [exact H' | cbn; lia | exact Hn].
  - apply wp_ret, Hk; [exact H' | cbn; lia | exact Hn].
  - apply wp_then. wstep. apply wp_then. wstep. apply wp_ret, Hk; [|cbn; lia | exact Hn]. eapply quiet_connected; [|exact H]. calm.
Qed.

Lemma enough_next fuel s s1 s' : enough (S fuel) s -> out \/ (clock s1 < questions)%nat ->
  (clock s <= clock s1 < clock s')%nat -> enough fuel s'.
Proof. unfold enough. intros [|[]] [|] ?; auto. right. lia. Qed.

Lemma enough_start s : enough fuel0 s.
Proof. unfold enough. destruct Hfuel; [auto|right; lia]. Qed.

Lemma quiet_clock s s' : quiet s s' -> (clock s <= clock s')%nat.
Proof. by intros []. Qed.

(** *** Bodies *)

Lemma wp_input_filter n s : wp (input_filter cf n) (fun _ => quiet s) s.
Proof.
  unfold input_filter, run_custom_filter, ngx_http_upstream_non_buffered_filter. wsteps; calm.
Qed.

Lemma wp_count_bytes n s : connected s -> wp (count_bytes n) (fun _ s' => connected s' /\ clock s' = clock s) s.
Proof. intros H. apply wp_on_state; [by apply H|]. intros l Hl. split; [keep|done]. Qed.

Lemma wp_filter_preread s : connected s -> wp (filter_preread cf) (fun _ => connected) s.
Proof.
  intros H. unfold filter_preread. apply wp_then. wstep. cbv zeta. destruct (_ =? _); [done|].
  apply wp_quiet; [wsteps; calm|]. intros [] s1 H1. apply wp_then.
  eapply wp_conseq; [apply wp_count_bytes; by_quiet|]. intros [] s2 [H2 _].
  eapply wp_conseq; [apply wp_input_filter|]. intros b s3 H3. by_quiet.
Qed.

(** The arithmetic of a round of a loop. *)
Ltac next_round := eapply enough_next; [eassumption|eassumption|]; unfold quiet in *; lia.

Lemma wp_body_in_memory_loop fuel Q s : enough fuel s -> connected s -> (forall s', connected s' -> Q true s') ->
  (forall s', rest s' -> Q false s') -> wp (body_in_memory_loop cf fuel) Q s.
Proof.
  revert s. induction fuel as [|fuel IH]; intros s Hf H HT HF; [destruct Hf as [|[]]; [done|lia]|]. cbn [body_in_memory_loop].
  assert (Hend : forall rc s', connected s' -> rc <> NGX_DECLINED ->
    wp (ngx_http_upstream_finalize_request rc ;; ret false) Q s').
  { intros rc s' H' Hrc. apply wp_then, wp_finalize_rest; [by apply connected_live | done|]. intros. by apply wp_ret, HF. }
  apply wp_then. wstep. destruct (_ =? _); [by apply Hend|].
  apply wp_received; [done|]. intros n s1 H1 L1 Hn.
  destruct n as [| |[|c l]]; [by apply wp_ret, HT | by apply Hend | by apply Hend |].
  destruct Hn as [?|Hn]; [done|].
  apply wp_then. eapply wp_conseq; [by apply wp_count_bytes|]. intros [] s2 [H2 L2].
  apply wp_quiet; [apply wp_input_filter|]. intros f s3 H3. pose proof (quiet_connected _ _ H3 H2) as C3.
  destruct f; cbn [negb]; [|by apply Hend]. apply wp_asked. intros ready s4 _ H4. pose proof (quiet_connected _ _ H4 C3) as C4.
  destruct ready; [apply IH; [next_round | done..] | by apply wp_ret, HT].
Qed.

Lemma wp_upstream_read_timer s : wp upstream_read_timer (fun _ => quiet s) s.
Proof. unfold upstream_read_timer. wsteps; calm. Qed.

Lemma rest_connected s : connected s -> rest s.
Proof. by right. Qed.

Lemma wp_process_body_in_memory Q s : connected s -> (forall s', rest s' -> Q tt s') ->
  wp (ngx_http_upstream_process_body_in_memory cf fuel0) Q s.
Proof.
  intros H HQ. unfold ngx_http_upstream_process_body_in_memory. apply wp_then, wp_deref; [done|].
  apply wp_asked. intros timedout s1 _ H1. apply quiet_connected in H1; [|done].
  destruct timedout; [by apply wp_finalize_rest; [apply connected_live|..]|].
  apply wp_then, wp_body_in_memory_loop; [apply enough_start|done| |intros s' H'; by apply wp_ret, HQ]. intros s2 H2. cbn [negb].
  apply wp_then. wstep. destruct (_ =? _); [by apply wp_finalize_rest; [apply connected_live|..]|].
  apply wp_asked. intros e s3 _ H3. apply quiet_connected in H3; [|done].
  destruct e; cbn [negb]; [|by apply wp_finalize_rest; [apply connected_live|..]].
  eapply wp_conseq; [apply wp_upstream_read_timer|]. intros [] s4 H4. apply HQ. right. by_quiet.
Qed.
(** The end of a request whose connection is still there. *)
Lemma wp_finalize_connected rc Q s : connected s -> rc <> NGX_DECLINED -> (forall s', rest s' -> Q tt s') ->
  wp (ngx_http_upstream_finalize_request rc) Q s.
Proof. intros H. apply wp_finalize_rest. by apply connected_live. Qed.

Lemma wp_finalize_then {A} rc (a : A) Q s : connected s -> rc <> NGX_DECLINED -> (forall s', rest s' -> Q a s') ->
  wp (ngx_http_upstream_finalize_request rc ;; ret a) Q s.
Proof. intros H Hrc HQ. apply wp_then, wp_finalize_connected; [done..|]. intros. by apply wp_ret, HQ. Qed.

(** [rest] at the end of a handler that has nothing more to do. *)
Lemma wp_rest_ret Q s : (forall s', rest s' -> Q tt s') -> connected s -> wp (ret tt) Q s.
Proof. intros HQ H. apply wp_ret, HQ. by right. Qed.

(** *** Without buffering *)

Lemma wp_output_bufs s : wp output_bufs (fun _ => quiet s) s.
Proof. unfold output_bufs. wsteps; calm. Qed.

Lemma wp_non_buffered_write s : connected s -> wp non_buffered_write (fun e s' => quiet s s' /\ e <> Some NGX_DECLINED) s.
Proof.
  intros H. unfold non_buffered_write. apply wp_then. wstep. apply wp_quiet.
  { destruct (_ && _); [done | apply wp_output_bufs]. }
  intros sent s1 H1. destruct sent; cbn [negb]; [|done]. apply wp_then. wstep.
  destruct (negb _); [done|]. destruct (_ =? _); [done|].
  apply wp_then, wp_deref; [by_quiet|]. apply wp_asked. intros eof s2 _ H2.
  pose proof (quiet_trans _ _ _ H1 H2) as H02.
  destruct eof; [split; [done | by destruct (_ =? _)]|].
  apply wp_asked. intros err s3 _ H3. pose proof (quiet_trans _ _ _ H02 H3) as H03. destruct err; [done|].
  wsteps. split; [|done]. eapply quiet_trans; [exact H03|]. calm.
Qed.

Lemma wp_non_buffered_loop fuel do_write Q s : enough fuel s -> connected s -> (forall s', connected s' -> Q true s') ->
  (forall s', rest s' -> Q false s') -> wp (non_buffered_loop cf fuel do_write) Q s.
Proof.
  revert do_write s. induction fuel as [|fuel IH]; intros do_write s Hf H HT HF; [destruct Hf as [|[]]; [done|lia]|].
  cbn [non_buffered_loop].
  apply wp_then. eapply wp_conseq with (P := fun e s' => quiet s s' /\ e <> Some NGX_DECLINED).
  { destruct do_write; [by apply wp_non_buffered_write | by apply wp_ret]. }
  intros e s1 [Q1 He]. pose proof (quiet_connected _ _ Q1 H) as H1.
  destruct e as [rc|]; [apply wp_finalize_then; [done | congruence | done]|].
  apply wp_then, wp_deref; [done|]. apply wp_then. wstep. apply wp_asked. intros ready s2 _ Q2.
  pose proof (quiet_connected _ _ Q2 H1) as H2. destruct (_ && _); [|by apply wp_ret, HT].
  apply wp_received; [done|]. intros n s3 H3 L3 Hn. pose proof (quiet_clock _ _ Q1) as L1. pose proof (quiet_clock _ _ Q2) as L2.
  destruct n as [| |[|c l]]; [by apply wp_ret, HT|..]; (destruct Hn as [?|Hn]; [done|]).
  1,2: apply IH; [next_round | done..].
  apply wp_then. eapply wp_conseq; [by apply wp_count_bytes|]. intros [] s4 [H4 L4].
  apply wp_quiet; [apply wp_input_filter|]. intros f s5 Q5. pose proof (quiet_connected _ _ Q5 H4) as H5.
  destruct f; cbn [negb]; [|by apply wp_finalize_then]. apply IH; [next_round | done..].
Qed.

Lemma wp_process_non_buffered_request do_write Q s : connected s -> (forall s', rest s' -> Q tt s') ->
  wp (ngx_http_upstream_process_non_buffered_request cf fuel0 do_write) Q s.
Proof.
  intros H HQ. unfold ngx_http_upstream_process_non_buffered_request. apply wp_then. wstep.
  apply wp_then, wp_non_buffered_loop; [apply enough_start|done| |intros s' H'; by apply wp_ret, HQ]. intros s1 H1. cbn [negb].
  apply wp_asked. intros w s2 _ H2. apply quiet_connected in H2; [|done].
  destruct w; cbn [negb]; [|by apply wp_finalize_connected].
  apply wp_asked. intros e s3 _ H3. apply quiet_connected in H3; [|done].
  destruct e; cbn [negb]; [|by apply wp_finalize_connected].
  apply wp_then, wp_deref; [done|]. eapply wp_conseq; [apply wp_upstream_read_timer|].
  intros [] s4 H4. apply HQ, rest_connected. by_quiet.
Qed.

Lemma wp_process_non_buffered_downstream Q s : connected s -> (forall s', rest s' -> Q tt s') ->
  wp (ngx_http_upstream_process_non_buffered_downstream cf fuel0) Q s.
Proof.
  intros H HQ. unfold ngx_http_upstream_process_non_buffered_downstream.
  apply wp_asked. intros t s1 _ H1. apply quiet_connected in H1; [|done].
  destruct t; [|by apply wp_process_non_buffered_request]. apply wp_quiet; [wsteps; calm|].
  intros [] s2 H2. apply wp_finalize_connected; [by_quiet | done | done].
Qed.

Lemma wp_process_non_buffered_upstream Q s : connected s -> (forall s', rest s' -> Q tt s') ->
  wp (ngx_http_upstream_process_non_buffered_upstream cf fuel0) Q s.
Proof.
  intros H HQ. unfold ngx_http_upstream_process_non_buffered_upstream. apply wp_then, wp_deref; [done|].
  apply wp_asked. intros t s1 _ H1. apply quiet_connected in H1; [|done].
  destruct t; [by apply wp_finalize_connected | by apply wp_process_non_buffered_request].
Qed.

(** *** Through the event pipe *)

Lemma wp_event_pipe b s : wp (event_pipe b) (fun _ => quiet s) s.
Proof. unfold event_pipe. wsteps; calm. Qed.

Lemma wp_store_response s : wp (store_response cf) (fun _ => quiet s) s.
Proof. unfold store_response, ngx_http_upstream_store, store_file. wsteps; calm. Qed.

Lemma wp_cache_response s : wp cache_response (fun _ => quiet s) s.
Proof. unfold cache_response. wsteps; calm. Qed.

Lemma wp_process_request Q s : connected s -> (forall s', rest s' -> Q tt s') ->
  wp (ngx_http_upstream_process_request cf) Q s.
Proof.
  intros H HQ. unfold ngx_http_upstream_process_request. apply wp_then. wstep. cbv zeta.
  rewrite bool_decide_true by apply H.
  apply wp_quiet; [apply wp_store_response|]. intros [] s1 H1. apply quiet_connected in H1; [|done].
  apply wp_quiet; [apply wp_cache_response|]. intros [] s2 H2. apply quiet_connected in H2; [|done].
  destruct (_ || _); [destruct (_ || _); by apply wp_finalize_connected|].
  apply wp_then. wstep. destruct (_ && _); [by apply wp_finalize_connected | by apply wp_rest_ret].
Qed.

Lemma wp_process_upstream Q s : connected s -> (forall s', rest s' -> Q tt s') ->
  wp (ngx_http_upstream_process_upstream cf) Q s.
Proof.
  intros H HQ. unfold ngx_http_upstream_process_upstream. apply wp_then, wp_deref; [done|].
  apply wp_asked. intros t s1 _ H1. apply quiet_connected in H1; [|done]. destruct t.
  - apply wp_quiet; [wsteps; calm|]. intros [] s2 H2. apply wp_process_request; [by_quiet | done].
  - apply wp_quiet; [apply wp_event_pipe|]. intros a s2 H2. apply quiet_connected in H2; [|done].
    destruct a; [by apply wp_process_request | by apply wp_finalize_connected].
Qed.

Lemma wp_process_downstream Q s : connected s -> (forall s', rest s' -> Q tt s') ->
  wp (ngx_http_upstream_process_downstream cf) Q s.
Proof.
  intros H HQ. unfold ngx_http_upstream_process_downstream.
  apply wp_asked. intros t s1 _ H1. apply quiet_connected in H1; [|done]. apply wp_then. wstep. cbv zeta.
  assert (Hrearm : forall s', connected s' ->
    wp (w <- ask ngx_handle_write_event ;; if negb w then ngx_http_upstream_finalize_request NGX_ERROR else ok) Q s').
  { intros s' H'. apply wp_asked. intros w s2 _ H2. apply quiet_connected in H2; [|done].
    destruct w; cbn [negb]; [by apply wp_rest_ret | by apply wp_finalize_connected]. }
  assert (Hpump : forall s', connected s' ->
    wp (a <- event_pipe true ;; if a then ngx_http_upstream_process_request cf else ngx_http_upstream_finalize_request NGX_ERROR) Q s').
  { intros s' H'. apply wp_quiet; [apply wp_event_pipe|]. intros a s2 H2. apply quiet_connected in H2; [|done].
    destruct a; [by apply wp_process_request | by apply wp_finalize_connected]. }
  destruct t, (delayed s1); [| |by apply Hrearm | by apply Hpump].
  - apply wp_quiet; [wsteps; calm|]. intros [] s2 H2. apply quiet_connected in H2; [|done].
    apply wp_asked. intros ready s3 _ H3. apply quiet_connected in H3; [|done].
    destruct ready; cbn [negb]; [by apply Hpump | by apply Hrearm].
  - apply wp_quiet; [wsteps; calm|]. intros [] s2 H2. apply quiet_connected in H2; [|done].
    apply wp_quiet; [wsteps; calm|]. intros [] s3 H3. apply wp_process_request; [by_quiet | done].
Qed.
(** *** Sending the response *)

Lemma wp_filter_init s : wp (filter_init cf) (fun _ => quiet s) s.
Proof. unfold filter_init. wsteps; calm. Qed.
Lemma wp_client_nodelay s : wp (client_nodelay cf) (fun _ => quiet s) s.
Proof. unfold client_nodelay. wsteps; calm. Qed.
Lemma wp_send_flush s : wp send_flush (fun _ => quiet s) s.
Proof. unfold send_flush. wsteps; calm. Qed.

Lemma wp_send_non_buffered Q s : connected s -> (forall s', rest s' -> Q tt s') ->
  wp (send_non_buffered cf fuel0) Q s.
Proof.
  intros H HQ. unfold send_non_buffered.
  apply wp_seq with (P := connected); [apply wp_write; keep|]. intros s1 H1.
  apply wp_quiet; [wsteps; calm|]. intros [] s2 H2. apply quiet_connected in H2; [|done].
  apply wp_quiet; [apply wp_filter_init|]. intros i s3 H3. apply quiet_connected in H3; [|done].
  destruct i; cbn [negb]; [|by apply wp_finalize_connected].
  apply wp_quiet; [apply wp_client_nodelay|]. intros c s4 H4. apply quiet_connected in H4; [|done].
  destruct c; cbn [negb]; [|by apply wp_finalize_connected].
  apply wp_then. wstep. destruct (negb _).
  - apply wp_then. eapply wp_conseq; [by apply wp_filter_preread|]. intros f s5 H5.
    destruct f; cbn [negb]; [by apply wp_process_non_buffered_downstream | by apply wp_finalize_connected].
  - apply wp_quiet; [wsteps; calm|]. intros [] s5 H5. apply quiet_connected in H5; [|done].
    apply wp_quiet; [apply wp_send_flush|]. intros f s6 H6. apply quiet_connected in H6; [|done].
    destruct f; cbn [negb]; [|by apply wp_finalize_connected]. apply wp_then, wp_deref; [done|].
    apply wp_asked. intros ready s7 _ H7. apply quiet_connected in H7; [|done]. apply wp_then. wstep.
    destruct (_ || _); [by apply wp_process_non_buffered_upstream | by apply wp_rest_ret].
Qed.

Lemma wp_cache_validity s : wp cache_validity (fun _ => quiet s) s.
Proof. unfold cache_validity. wsteps; calm. Qed.
Lemma wp_cache_buffered s : wp (cache_buffered cf) (fun _ => quiet s) s.
Proof.
  assert (H : forall (b : bool) s1, quiet s s1 -> wp (cache_validity ;; ret b) (fun _ => quiet s) s1).
  { intros b s1 H1. apply wp_quiet; [apply wp_cache_validity|]. intros [] s2 H2. wstep. by_quiet. }
  unfold cache_buffered. apply wp_asked. intros rc s1 _ H1.
  assert (Hother : wp (A := bool) (s2 <- read (fun s2 => s2) ;;
      created <- (if cache_status s2 =? NGX_HTTP_CACHE_BYPASS then
                    write (fun s2 => s2 <| body_start := buffer_size cf |>) ;; ask ngx_http_file_cache_create
                  else ret true) ;;
      if negb created then ret false else cache_validity ;; ret true) (fun _ => quiet s) s1).
  { apply wp_then. wstep. apply wp_quiet; [destruct (_ =? _); [wsteps; calm | done]|]. intros c s2 H2.
    destruct c; cbn [negb]; [apply H; by_quiet | wstep; by_quiet]. }
  destruct rc; try exact Hother; [done|].
  apply wp_quiet; [wsteps; calm|]. intros [] s2 H2. apply H. by_quiet.
Qed.

Lemma wp_send_buffered Q s : connected s -> (forall s', rest s' -> Q tt s') -> wp (send_buffered cf) Q s.
Proof.
  intros H HQ. unfold send_buffered.
  apply wp_quiet; [apply wp_cache_buffered|]. intros c s1 H1. apply quiet_connected in H1; [|done].
  destruct c; cbn [negb]; [|by apply wp_finalize_connected].
  apply wp_asked. intros m s2 _ H2. apply quiet_connected in H2; [|done].
  destruct m; cbn [negb]; [|by apply wp_finalize_connected].
  apply wp_quiet; [wsteps; calm|]. intros [] s3 H3. apply quiet_connected in H3; [|done].
  apply wp_asked. intros l s4 _ H4. apply quiet_connected in H4; [|done].
  destruct l; cbn [negb]; [|by apply wp_finalize_connected]. apply wp_then. wstep.
  apply wp_quiet; [destruct (cacheable s4); [wsteps; calm | done]|]. intros b s5 H5. apply quiet_connected in H5; [|done].
  destruct b; cbn [negb]; [|by apply wp_finalize_connected].
  apply wp_quiet; [wsteps; calm|]. intros [] s6 H6. apply quiet_connected in H6; [|done].
  apply wp_quiet; [wsteps; calm|]. intros [] s7 H7. apply quiet_connected in H7; [|done].
  apply wp_asked. intros i s8 _ H8. apply quiet_connected in H8; [|done].
  destruct i; cbn [negb]; [|by apply wp_finalize_connected].
  apply wp_seq with (P := connected); [apply wp_write; keep|]. intros s9 H9. by apply wp_process_upstream.
Qed.

Lemma wp_send_response Q s : connected s -> (forall s', rest s' -> Q tt s') ->
  wp (ngx_http_upstream_send_response cf fuel0) Q s.
Proof.
  intros H HQ. unfold ngx_http_upstream_send_response.
  apply wp_quiet; [wsteps; calm|]. intros [] s1 H1. apply quiet_connected in H1; [|done].
  apply wp_asked. intros rc s2 [n Hn] H2. apply quiet_connected in H2; [|done].
  assert (Hrc : rc <> NGX_DECLINED) by (rewrite Hn; apply send_header_rc).
  destruct (_ || _); [by apply wp_finalize_connected|].
  apply wp_quiet; [wsteps; calm|]. intros [] s3 H3. apply quiet_connected in H3; [|done]. apply wp_then. wstep.
  assert (Hu : upgrade s3 = false) by apply H3. rewrite Hu.
  destruct (_ && _); [by apply wp_finalize_connected|].
  apply wp_seq with (P := connected).
  { destruct (header_only s3); [apply wp_write; keep | done]. }
  intros s4 H4. destruct (negb _); [by apply wp_send_non_buffered | by apply wp_send_buffered].
Qed.

(** *** Reading the header *)

Lemma wp_header_buffer s : wp (header_buffer cf) (fun _ => quiet s) s.
Proof. unfold header_buffer. wsteps; calm. Qed.

Lemma connected_plain s : connected s -> upgrade s = false.
Proof. intros H. apply H. Qed.

Lemma wp_header_loop fuel Q s : enough fuel s -> connected s -> (forall rc s', connected s' -> Q (Some rc) s') ->
  (forall s', rest s' -> Q None s') -> wp (header_loop cf connect fuel) Q s.
Proof.
  intros Hf H HS HN. revert s Hf H.
  induction fuel as [|fuel IH]; intros s Hf H; [destruct Hf as [|[]]; [done|lia]|]. cbn [header_loop].
  apply wp_received; [done|]. intros n s1 H1 L1 Hn.
  assert (Hnext : forall ft s', ft ∈ failures -> connected s' ->
    wp (ngx_http_upstream_next cf connect ft ;; ret None) Q s').
  { intros ft s' Hft H'. apply wp_then, wp_next_connected; [done..|]. intros. by apply wp_ret, HN. }
  destruct n as [| |[|c l]].
  - apply wp_asked. intros e s2 _ H2. apply quiet_connected in H2; [|done].
    destruct e; cbn [negb].
    + apply wp_then, wp_ret, wp_ret, HN. by right.
    + apply wp_then, wp_finalize_connected; [done..|]. intros. by apply wp_ret, HN.
  - apply Hnext; [|done]. apply (bool_decide_unpack (_ ∈ _)). vm_compute. exact I.
  - apply Hnext; [|done]. apply (bool_decide_unpack (_ ∈ _)). vm_compute. exact I.
  - destruct Hn as [?|Hn]; [done|].
    apply wp_quiet; [wsteps; calm|]. intros [] s2 Q2. pose proof (quiet_connected _ _ Q2 H1) as H2.
    apply wp_quiet; [by apply wp_run_process_header, connected_plain|]. intros rc s3 Q3.
    pose proof (quiet_connected _ _ Q3 H2) as H3. destruct rc; try by apply wp_ret, HS.
    apply wp_then. wstep. destruct (_ =? _); [|apply IH; [next_round | done]].
    apply Hnext; [|done]. apply (bool_decide_unpack (_ ∈ _)). vm_compute. exact I.
Qed.

Lemma wp_in_memory Q s : connected s -> (forall s', rest s' -> Q tt s') -> wp (in_memory cf fuel0) Q s.
Proof.
  intros H HQ. unfold in_memory.
  apply wp_quiet; [apply wp_filter_init|]. intros i s1 H1. apply quiet_connected in H1; [|done].
  destruct i; cbn [negb]; [|by apply wp_finalize_connected].
  apply wp_then. eapply wp_conseq; [by apply wp_filter_preread|]. intros f s2 H2.
  destruct f; cbn [negb]; [|by apply wp_finalize_connected]. apply wp_then. wstep.
  destruct (_ =? _); [by apply wp_finalize_connected|].
  apply wp_seq with (P := connected); [apply wp_write; keep|]. intros s3 H3. by apply wp_process_body_in_memory.
Qed.

Lemma wp_header_done Q s : connected s -> (forall s', rest s' -> Q tt s') -> wp (header_done cf connect fuel0) Q s.
Proof.
  intros H HQ. unfold header_done. apply wp_then. wstep. apply wp_then.
  eapply wp_conseq with (P := fun b s' => if (b : bool) then rest s' else connected s').
  { destruct (_ <=? _); [|done].
    apply wp_quiet; [destruct (subrequest_in_memory cf); wsteps; calm|]. intros [] s1 H1.
    apply quiet_connected in H1; [|done]. apply wp_then, wp_test_next; [done| |].
    - apply wp_then, wp_intercept_errors; [by apply connected_live | by apply wp_ret |]. intros s2 H2. by apply wp_ret.
    - intros s2 H2. by apply wp_ret. }
  intros returned s1 H1. destruct returned; [by apply wp_ret, HQ|].
  apply wp_then, wp_process_headers; [by apply connected_live| |intros s2 H2; apply wp_ret, HQ; by left].
  intros h. assert (H2 : connected (s1 <| hdr := h |>)) by keep.
  destruct (subrequest_in_memory cf); [by apply wp_in_memory | by apply wp_send_response].
Qed.

Ltac failure := apply (bool_decide_unpack (_ ∈ _)); vm_compute; exact I.

Lemma wp_test_connect s : wp ngx_http_upstream_test_connect (fun _ => quiet s) s.
Proof. unfold ngx_http_upstream_test_connect. wsteps; calm. Qed.

Lemma wp_process_header Q s : connected s -> (forall s', rest s' -> Q tt s') ->
  wp (ngx_http_upstream_process_header cf connect fuel0) Q s.
Proof.
  intros H HQ. unfold ngx_http_upstream_process_header. apply wp_then, wp_deref; [done|].
  apply wp_asked. intros t s1 _ H1. apply quiet_connected in H1; [|done].
  destruct t; [apply wp_next_connected; [failure | done | done]|]. apply wp_then. wstep.
  apply wp_quiet; [destruct (request_sent s1); [done | apply wp_test_connect]|]. intros c s2 H2.
  apply quiet_connected in H2; [|done].
  destruct c; cbn [negb]; [|apply wp_next_connected; [failure | done | done]].
  apply wp_quiet; [apply wp_header_buffer|]. intros b s3 H3. apply quiet_connected in H3; [|done].
  destruct b; cbn [negb]; [|by apply wp_finalize_connected].
  apply wp_then, wp_header_loop; [apply enough_start|done| |intros s4 H4; by apply wp_ret, HQ]. intros rc s4 H4.
  assert (Hdone : wp (header_done cf connect fuel0) Q s4) by by apply wp_header_done.
  assert (Hbad : wp (ngx_http_upstream_next cf connect NGX_HTTP_UPSTREAM_FT_INVALID_HEADER) Q s4).
  { apply wp_next_connected; [failure | done | done]. }
  destruct rc as [| | | | | |z]; try exact Hdone; [by apply wp_finalize_connected|].
  destruct z as [|z|z]; try exact Hdone. do 6 (destruct z as [z|z|]; try exact Hdone; try exact Hbad).
Qed.

(** *** Sending the request *)

Lemma wp_send_request Q s : connected s -> (forall s', rest s' -> Q tt s') ->
  wp (ngx_http_upstream_send_request cf connect fuel0) Q s.
Proof.
  intros H HQ. unfold ngx_http_upstream_send_request. apply wp_then, wp_deref; [done|]. apply wp_then. wstep.
  apply wp_quiet; [destruct (request_sent s); [done | apply wp_test_connect]|]. intros c s2 H2.
  apply quiet_connected in H2; [|done].
  destruct c; cbn [negb]; [|apply wp_next_connected; [failure | done | done]].
  apply wp_asked. intros rc s3 _ H3. apply quiet_connected in H3; [|done].
  apply wp_quiet; [destruct (request_sent s); wsteps; calm|]. intros [] s4 H4. apply quiet_connected in H4; [|done].
  apply wp_quiet; [wsteps; calm|]. intros [] s5 H5. apply quiet_connected in H5; [|done].
  assert (Hsent : wp (write (fun s => s <| write_timer := false |>) ;;
        p <- (if tcp_push cf then ask ngx_tcp_push else ret true) ;;
        if negb p then ngx_http_upstream_finalize_request Upstream.NGX_HTTP_INTERNAL_SERVER_ERROR
        else
          write (fun s => s <| read_timer := true |>) ;;
          ready <- ask upstream_read_ready ;;
          if ready then ngx_http_upstream_process_header cf connect fuel0
          else
            write (fun s => s <| u_write := dummy_handler |>) ;;
            w <- ask ngx_handle_write_event ;;
            if negb w then ngx_http_upstream_finalize_request Upstream.NGX_HTTP_INTERNAL_SERVER_ERROR else ok) Q s5).
  { apply wp_quiet; [wsteps; calm|]. intros [] s6 H6. apply quiet_connected in H6; [|done].
    apply wp_quiet; [destruct (tcp_push cf); wsteps; calm|]. intros p s7 H7. apply quiet_connected in H7; [|done].
    destruct p; cbn [negb]; [|by apply wp_finalize_connected].
    apply wp_quiet; [wsteps; calm|]. intros [] s8 H8. apply quiet_connected in H8; [|done].
    apply wp_asked. intros ready s9 _ H9. apply quiet_connected in H9; [|done].
    destruct ready; [by apply wp_process_header|].
    apply wp_seq with (P := connected); [apply wp_write; keep|]. intros s10 H10.
    apply wp_asked. intros w s11 _ H11. apply quiet_connected in H11; [|done].
    destruct w; cbn [negb]; [by apply wp_rest_ret | by apply wp_finalize_connected]. }
  destruct rc; try exact Hsent.
  - apply wp_next_connected; [failure | done | done].
  - apply wp_quiet; [wsteps; calm|]. intros [] s6 H6. apply quiet_connected in H6; [|done].
    apply wp_asked. intros w s7 _ H7. apply quiet_connected in H7; [|done].
    destruct w; cbn [negb]; [by apply wp_rest_ret | by apply wp_finalize_connected].
Qed.

(** *** TLS *)

Lemma wp_save_session d Q s : connected s -> peer_data (peer s) = Some d ->
  (forall s', connected s' -> Q tt s') ->
  wp (write (fun s' => s' <| heap := (save_session ngx_ssl_get_session (heap s) (peer s) d).1 |>)) Q s.
Proof.
  intros H Hd HQ. apply wp_write, HQ. pose proof H as [(([[Bc Bp Bh Ba Br Bd] Hp] & He) & (Hb1 & Hb2 & Hb3 & Hreq) & Hst & Hs) [Haf Hc]].
  destruct (Hreq d Hd) as [Hok Hcur]. pose proof (same_addresses_save ngx_ssl_get_session (heap s) (peer s) d) as Hsame.
  assert (G : heap_ok (save_session ngx_ssl_get_session (heap s) (peer s) d).1
    /\ evolves (heap s) (save_session ngx_ssl_get_session (heap s) (peer s) d).1).
  { unfold save_session. destruct (sessions (peer s)); [|done].
    unfold ngx_http_upstream_save_round_robin_peer_session. destruct (ngx_ssl_get_session _) as [x|]; [|done].
    apply (heap_ok_peer (fun p => p <| ssl_session := Some x |>)); [auto with http | apply Hok | done]. }
  destruct G as [G1 G2]. set (h' := (save_session _ _ _ _).1) in *. clearbody h'.
  split; [|split; [|exact Hc]].
  - split; [|split; [|done]].
    + split; [|done]. split; [|exact Hp].
      split; [done..|by eapply addressed_same|intros _; by eapply request_ok_evolves|done].
    + split_and!; try done. by eapply request_ok_evolves.
  - unfold affordable, sole, remaining in *. cbn -[group_at]. rewrite Hd in *. cbn [from_option] in *.
    rewrite (allowance_evolves _ _ d G2). by destruct (evolves_at _ _ (rrp_peers d) G2) as (_ & -> & _).
Qed.

Lemma wp_ssl_handshake Q s : connected s -> (forall s', rest s' -> Q tt s') ->
  wp (ngx_http_upstream_ssl_handshake cf connect fuel0) Q s.
Proof.
  intros H HQ. unfold ngx_http_upstream_ssl_handshake.
  apply wp_asked. intros h s1 _ H1. apply quiet_connected in H1; [|done].
  destruct h; [|apply wp_next_connected; [failure | done | done]].
  apply wp_seq with (P := connected).
  { destruct (ssl_session_reuse cf); [|done]. apply wp_then. wstep.
    destruct (peer_data (peer s1)) as [d|] eqn:Ed; [|by destruct H1 as [(_ & [[? E] _] & _) _]; rewrite Ed in E].
    apply wp_then, wp_save_session; [done|done|]. intros s2 H2. wsteps. keep. }
  intros s2 H2. apply wp_seq with (P := connected); [apply wp_write; keep|].
  intros s3 H3. by apply wp_send_request.
Qed.

Lemma wp_ssl_init_connection Q s : connected s -> (forall s', rest s' -> Q tt s') ->
  wp (ngx_http_upstream_ssl_init_connection cf connect fuel0) Q s.
Proof.
  intros H HQ. unfold ngx_http_upstream_ssl_init_connection.
  apply wp_quiet; [apply wp_test_connect|]. intros c s1 H1. apply quiet_connected in H1; [|done].
  destruct c; cbn [negb]; [|apply wp_next_connected; [failure | done | done]].
  apply wp_asked. intros m s2 _ H2. apply quiet_connected in H2; [|done].
  destruct m; cbn [negb]; [|by apply wp_finalize_connected].
  apply wp_seq with (P := connected); [apply wp_write; keep|]. intros s3 H3. apply wp_then. wstep.
  apply wp_quiet.
  { destruct (ssl_session_reuse cf); [|by apply wp_ret, quiet_refl].
    destruct (peer_data (peer s3)) as [d|] eqn:Ed; [by apply wp_ret, quiet_refl|].
    by destruct H3 as [(_ & [[? E] _] & _) _]; rewrite Ed in E. }
  intros set s4 H4. apply quiet_connected in H4; [|done].
  destruct (bool_decide _); cbn [negb]; [|by apply wp_finalize_connected].
  apply wp_asked. intros again s5 _ H5. apply quiet_connected in H5; [|done].
  destruct again; [apply wp_write, HQ; right; keep | by apply wp_ssl_handshake].
Qed.

Lemma wp_send_request_handler Q s : connected s -> (forall s', rest s' -> Q tt s') ->
  wp (ngx_http_upstream_send_request_handler cf connect fuel0) Q s.
Proof.
  intros H HQ. unfold ngx_http_upstream_send_request_handler. apply wp_then, wp_deref; [done|].
  apply wp_asked. intros t s1 _ H1. apply quiet_connected in H1; [|done].
  destruct t; [apply wp_next_connected; [failure | done | done]|]. apply wp_then. wstep.
  destruct (needs_ssl cf s1); [by apply wp_ssl_init_connection|].
  destruct (header_sent s1); [|by apply wp_send_request].
  apply wp_seq with (P := connected); [apply wp_write; keep|]. intros s2 H2.
  apply wp_asked. intros _ s3 _ H3. by apply wp_rest_ret; [|eapply quiet_connected].
Qed.
End Attempt.
End Attempts.
End UpstreamSteps.
