(* ===== verification/UpstreamConnect.v ===== *)
(** * The upstream state machine: attempts and starts

    A peer is asked for and connected to; [ngx_http_upstream_connect] by induction
    on the attempts that are left; the start of a request, its cache lookup and
    the resolver; every event. *)

From S2P Require Import Prelude RoundRobin RoundRobinFacts RoundRobinWorld UpstreamHeaders UpstreamState Upstream UpstreamPeers UpstreamFacts UpstreamSteps.

Module UpstreamConnect.
Import RoundRobin.RoundRobin RoundRobinGroup RoundRobinWorld.RoundRobinWorld RoundRobinReach.
Import UpstreamPeers.UpstreamPeers UpstreamHeaders.UpstreamHeaders UpstreamState.UpstreamState Upstream.Upstream UpstreamFacts.UpstreamFacts UpstreamSteps.UpstreamSteps.
#[local] Open Scope upstream_scope.

(** ** One attempt *)

(** With one more attempt than [L] has. *)
Definition more (L : Limits) : Limits :=
  {| out := @out L; questions := @questions L; level := S (@level L) |}.

Section Body.
Context {L : Limits} {W : World} {WOK : WorldOk} (cf : conf) (Hup : never_upgrades) (Hstale : never_stale cf).
Context (fuel0 : nat) (Hdrained : out \/ drained questions) (Hfuel : out \/ (questions < fuel0)%nat).
Context (Hnolive : has (next_upstream cf) NGX_HTTP_UPSTREAM_FT_NOLIVE = false).
Context (connect : M unit).
Hypothesis connect_rest : forall s Q, ready s -> (forall s', rest s' -> Q tt s') -> wp connect Q s.

Lemma wp_reinit s : connected s -> wp (ngx_http_upstream_reinit cf) (fun _ => quiet s) s.
Proof.
  intros H. assert (Hu : upgrade s = false) by apply H. unfold ngx_http_upstream_reinit.
  apply wp_asked. intros rc s1 _ H1. destruct rc; try exact H1.
  apply wp_quiet; [wsteps; split; [unfold view; cbn; destruct H1 as [E _]; unfold view in E; cbn in E; congruence|cbn; lia]|].
  intros [] s2 H2. wsteps; (eapply quiet_trans; [eapply quiet_trans; [exact H1|exact H2]|calm]).
Qed.

(** An attempt whose state is there and whose peer is not. *)
Definition begun (s : st) : Prop := @ready (more L) s /\ is_Some (state s).

(** What the balancer answers. *)
Definition got_peer (rc : ngx_rc) (s : st) : Prop :=
  trying s /\ connection s = None
  /\ ((rc = NGX_OK /\ is_Some (Upstream.sockaddr s) /\ affordable s) \/ rc = NGX_BUSY).

Lemma wp_get_peer s : begun s -> wp get_peer got_peer s.
Proof.
  intros [(([[Bc Bp Bh Ba Br Bd] Hp] & He) & ([d Hd] & Hl & Hca & Hreq) & Hc & Hsa & Hst & Hrem) Hstate].
  unfold get_peer. apply wp_then, wp_ask. intros n. apply wp_then. wstep.
  change (peer_data (peer (s <| clock := S (clock s) |>))) with (peer_data (peer s)). rewrite Hd.
  destruct (Hreq d Hd) as [Hok _].
  destruct (get_gives n (heap s) d (pc s) Bh Ba Hok Hsa) as (rc & h' & d' & pc' & E & [G1 G2 G3 G4 [G5 G6] G7] & Hbusy).
  change (ngx_http_upstream_get_round_robin_peer 2 n (heap (s <| clock := S (clock s) |>)) d
    (pc (s <| clock := S (clock s) |>))) with (ngx_http_upstream_get_round_robin_peer 2 n (heap s) d (pc s)).
  rewrite E. apply wp_then. wstep. apply wp_then. wstep. apply wp_ret.
  pose (u' := (peer s) <| peer_data := Some d' |> <| u_peer := pc' |>).
  assert (Hreq' : request_ok h' u').
  { intros d'' [= <-]. split; [exact G3|]. intros Hn. cbn in Hn. destruct G7 as [(_ & _ & ? & _)| ->]; [done|].
    by rewrite Hbusy in Hn. }
  assert (Hbooks : forall c p, c = 0 -> p = one (pc_sockaddr pc') -> books c p h' u').
  { intros c p -> ->. split; cbn; [by rewrite G6|done..]. }
  assert (Hzero : tally opens (log s) = 0 /\ tally takes (log s) = 0).
  { rewrite Bc, Bp. unfold connection, Upstream.sockaddr, pc in Hc, Hsa. by rewrite Hc, Hsa. }
  destruct Hzero as [Z1 Z2]. split; [|split; [exact G6|]].
  - split; [|split; [split_and!; [by eexists|exact Hl|exact G5|exact Hreq']|by split]].
    split; [|exact He]. split; [|exact Hp]. apply Hbooks; [exact Z1|]. cbn.
    destruct G7 as [(-> & [x Hx] & _)| ->]; [rewrite Hx; cbn; lia|]. by rewrite Hbusy.
  - destruct G7 as [(-> & Hx & _ & Hall)| ->]; [left|by right]. split; [done|]. split; [exact Hx|].
    unfold affordable. destruct Hrem as [?|Hrem]; [by left|right]. right.
    destruct Hall as [Hs|Hlt]; [left; by split|right].
    unfold remaining in *. cbn -[allowance]. rewrite Hd in Hrem. cbn -[allowance] in Hrem. lia.
Qed.

(** What [ngx_event_connect_peer] leaves. *)
Definition met (rc : ngx_rc) (s : st) : Prop :=
  match rc with
  | NGX_ERROR => live s
  | NGX_BUSY => trying s
  | NGX_DECLINED => trying s /\ affordable s
  | _ => connected s
  end.

Lemma wp_connect_peer s : begun s -> wp (ngx_event_connect_peer get_peer) met s.
Proof.
  intros H. unfold wp. rewrite connect_peer. fold (wp (event_connect get_peer) met s).
  unfold event_connect. apply wp_then. eapply wp_conseq; [by apply wp_get_peer|].
  intros rc s1 (H1 & Hc & [(-> & Ha & Haf)| ->]); [|by apply wp_ret].
  apply wp_then. wstep. rewrite bool_decide_true by done. apply wp_then, wp_ret. apply wp_then. wstep.
  apply wp_asked. intros rc s2 _ Q2. pose proof (quiet_trying _ _ Q2 H1) as H2. pose proof (quiet_affordable _ _ Q2 Haf) as Haf2.
  assert (Hc2 : connection s2 = None) by (unfold connection, pc in *; by rewrite (quiet_peer _ _ Q2)).
  assert (Hopen : forall tls n rc, wp (A := ngx_rc)
    (record Connected ;; tls <- ask tls ;; on_pc (fun p => p <| RoundRobin.connection := Some n |>) ;;
     write (fun s => s <| c_ssl := tls |> <| handshaking := false |> <| write_timer := false |>
                       <| read_timer := false |> <| u_nodelay := false |>) ;; ret rc) (fun rc' s' => rc' = rc /\ connected s') s2).
  { intros tls n rc'. wsteps. split; [done|].
    destruct H2 as (([[Bc Bp Bh Ba Br Bd] Hp] & He) & Hb & Hst & Hs).
    split; [|split; [exact Haf2|by eexists]].
    split; [|done]. split; [|exact He]. split; [|exact Hp]. split; try done. cbn.
    rewrite Bc. unfold connection, pc in Hc2. by rewrite Hc2. }
  destruct rc; try (eapply wp_conseq; [apply Hopen|]; by intros rc' s3 [-> H3]).
  all: apply wp_ret; try by split. apply H2.
Qed.

Lemma wp_push_state Q s : is_Some (states s) ->
  (forall l, is_Some l -> Q true (s <| clock := S (clock s) |> <| states := l |> <| state := length <$> states s |>)) ->
  Q false (s <| clock := S (clock s) |> <| state := None |>) -> wp push_state Q s.
Proof.
  intros [l Hl] HT HF. unfold push_state. apply wp_then. wstep. apply wp_then. wstep. cbn [states]. 
  change (states (s <| clock := S (clock s) |>)) with (states s). rewrite Hl in *.
  destruct a; wsteps; [by apply HT|exact HF].
Qed.

Ltac failure := apply (bool_decide_unpack (_ ∈ _)); vm_compute; exact I.

(** The attempt once there is a connection. *)
Lemma wp_connection_made (now : bool) Q s : connected s -> (forall s', rest s' -> Q tt s') ->
  wp (write (fun s => s <| u_write := send_request_handler |> <| u_read := process_header_handler |>) ;;
      kept <- ask connection_pool ;;
      pool <- (if kept then ret true else ask memory) ;;
      if negb pool then ngx_http_upstream_finalize_request Upstream.NGX_HTTP_INTERNAL_SERVER_ERROR
      else
        sent <- read request_sent ;;
        r <- (if sent then ngx_http_upstream_reinit cf else ret true) ;;
        if negb r then ngx_http_upstream_finalize_request Upstream.NGX_HTTP_INTERNAL_SERVER_ERROR
        else
          link <- (if main_body_file cf then ask memory else ret true) ;;
          if negb link then ngx_http_upstream_finalize_request Upstream.NGX_HTTP_INTERNAL_SERVER_ERROR
          else
            write (fun s => s <| request_sent := false |>) ;;
            if now then
              s <- read (fun s => s) ;;
              if needs_ssl cf s then ngx_http_upstream_ssl_init_connection cf connect fuel0
              else ngx_http_upstream_send_request cf connect fuel0
            else write (fun s => s <| write_timer := true |>)) Q s.
Proof.
  intros H HQ. apply wp_seq with (P := connected); [apply wp_write; keep|]. intros s1 H1.
  apply wp_asked. intros kept s2 _ H2. apply quiet_connected in H2; [|done].
  apply wp_quiet; [destruct kept; wsteps; calm|]. intros pool s3 H3. apply quiet_connected in H3; [|done].
  destruct pool; cbn [negb]; [|by apply wp_finalize_connected]. apply wp_then. wstep.
  apply wp_quiet; [destruct (request_sent s3); [by apply wp_reinit | wsteps; calm]|]. intros r s4 H4.
  apply quiet_connected in H4; [|done]. destruct r; cbn [negb]; [|by apply wp_finalize_connected].
  apply wp_quiet; [destruct (main_body_file cf); wsteps; calm|]. intros k s5 H5.
  apply quiet_connected in H5; [|done]. destruct k; cbn [negb]; [|by apply wp_finalize_connected].
  apply wp_seq with (P := connected); [apply wp_write; keep|]. intros s6 H6. destruct now.
  - apply wp_then. wstep. destruct (needs_ssl cf s6); [by apply wp_ssl_init_connection | by apply wp_send_request].
  - apply wp_write, HQ. right. keep.
Qed.

Lemma wp_connect_body Q s : @ready (more L) s -> (forall s', rest s' -> Q tt s') ->
  wp (connect_body cf connect fuel0) Q s.
Proof.
  intros H HQ. unfold connect_body.
  apply wp_seq with (P := @ready (more L)).
  { apply wp_end_of_state; [done|]. intros c l Hl. keep. }
  intros s1 H1. apply wp_then, wp_push_state; [by apply H1| |].
  2: { cbn [negb]. apply wp_finalize_rest; [keep | done..]. }
  intros l Hl. cbn [negb].
  assert (H2 : begun (s1 <| clock := S (clock s1) |> <| states := l |> <| state := length <$> states s1 |>)).
  { split; [unfold more in *; keep|]. cbn. destruct H1 as (_ & (_ & [x ->] & _) & _). by eexists. }
  revert H2. generalize (s1 <| clock := S (clock s1) |> <| states := l |> <| state := length <$> states s1 |>).
  intros s2 H2. apply wp_asked. intros t s3 _ Q3. apply wp_asked. intros t' s4 _ Q4.
  assert (H4 : begun s4).
  { destruct H2 as [H2 Hst]. split; [by eapply quiet_ready, quiet_ready|].
    destruct Q3 as [E3 _], Q4 as [E4 _]. unfold view in *. simplify_eq. congruence. }
  apply wp_seq with (P := begun).
  { apply wp_on_state; [by apply H4|]. intros l' Hl'. destruct H4 as [H4 Hst]. split; [keep|exact Hst]. }
  intros s5 H5. apply wp_then. eapply wp_conseq; [by apply wp_connect_peer|].
  intros rc s6 H6.
  assert (Hname : forall (I : st -> Prop) (m : M unit), is_Some (state s6) ->
    (forall l', (is_Some (states s6) -> is_Some l') -> I (s6 <| states := l' |>)) -> (forall s', I s' -> wp m Q s') ->
    wp (name <- read (fun s => pc_name (pc s)) ;; on_state (fun x => x <| s_peer := Some name |>) ;; m) Q s6).
  { intros I m Hst HI Hm. apply wp_then. wstep. apply wp_seq with (P := I); [by apply wp_on_state | done]. }
  destruct rc; cbn [met] in H6; try by apply wp_finalize_rest.
  all: try (refine (Hname connected _ _ _ _); [apply H6 | intros l' Hl'; keep | intros s7 H7];
    apply wp_then, wp_deref; [done|];
    first [exact (wp_connection_made true Q s7 H7 HQ) | exact (wp_connection_made false Q s7 H7 HQ)]).
  - refine (Hname trying _ _ _ _); [apply H6 | intros l' Hl'; keep | intros s7 H7].
    apply wp_next with (Hstale := Hstale); [done | failure | done | by right | done].
  - destruct H6 as [H6 Ha]. refine (Hname (fun s => trying s /\ affordable s) _ _ _ _);
      [apply H6 | intros l' Hl'; split; [keep | exact Ha] | intros s7 [H7 Ha7]].
    eapply wp_next; [done | done | failure | done | by left | done].
Qed.
End Body.

(** ** Attempts *)

Lemma rest_more {L : Limits} s : rest s -> @rest (more L) s.
Proof.
  intros [H|(H & Ha & Hc)]; [by left|right]. split; [exact H|]. split; [|exact Hc].
  unfold affordable in *. cbn. destruct Ha as [?|[?|[?|?]]]; auto.
  do 3 right. lia.
Qed.

(** ** Whether a request is over *)

Lemma tally_ends l : 0 <= tally ends l /\ (tally ends l = 0 -> existsb is_finalized l = false).
Proof.
  induction l as [|a l [IH1 IH2]]; [done|]. destruct a; cbn; try (split; [lia|]; intros; apply IH2; lia). split; lia.
Qed.

Lemma over_live s : live s -> over s = false.
Proof. intros [_ H]. by apply tally_ends. Qed.

Lemma over_ended s : over s = false -> ~ ended s.
Proof.
  intros H (_ & He & _). unfold over in H. induction (log s) as [|a l IH]; [done|].
  cbn in H. apply orb_false_iff in H as [Ha Hl]. apply IH; [done|]. destruct a; cbn in *; try done; lia.
Qed.

Section Runs.
Context (o : Prop) (q n : nat) {W : World} {WOK : WorldOk} (cf : conf) (Hup : never_upgrades) (Hstale : never_stale cf).
Context (fuel : nat) (Hdrained : o \/ drained q) (Hfuel : o \/ (q < fuel)%nat).
Context (Hnolive : has (next_upstream cf) NGX_HTTP_UPSTREAM_FT_NOLIVE = false).

(** [n] attempts. *)
Definition limits (n : nat) : Limits := {| out := o; questions := q; level := n |}.

Lemma wp_connect k s Q : @ready (limits k) s -> (forall s', @rest (limits k) s' -> Q tt s') ->
  @wp (limits k) _ (ngx_http_upstream_connect cf k fuel) Q s.
Proof.
  revert s Q. induction k as [|k IH]; intros s Q H HQ.
  - destruct H as (_ & _ & _ & _ & _ & [|H]); [done|]. cbn in H. lia.
  - cbn [ngx_http_upstream_connect].
    refine (wp_connect_body (L := limits k) cf Hup Hstale fuel Hdrained Hfuel Hnolive _ IH Q s H _).
    intros s' H'. by apply HQ, (@rest_more (limits k)).
Qed.

(** ** Starting *)

#[local] Instance here : Limits := limits n.

Abbreviation connect := (ngx_http_upstream_connect cf n fuel).

(** The configured upstreams and the resolved name are known to the balancer,
    with no more peers than attempts. *)
Definition room (h : peers_heap) (us : nat) : Prop :=
  (us < length h)%nat
  /\ (o \/ (number (group_at h us) + from_option (fun b => number (group_at h b)) 0 (next (group_at h us)) < n)%nat).

Record known (h : peers_heap) (name : option RoundRobin.resolved) : Prop := {
  kn_conf : Forall (room h) (option_list (upstream_conf cf) ++ map (fun x => x.2) (named_upstreams cf));
  kn_name : forall ur, name = Some ur -> ur_ok ur /\ (o \/ (ur_naddrs ur < n)%nat);
}.

Definition idle_write (h : r_handler) : bool :=
  match h with other_handler | empty_handler | init_request_handler | wr_check_broken_connection => true | _ => false end.

(** No peer is looked for yet. *)
Definition unbalanced (s : st) : Prop :=
  live s /\ peer s = fresh_upstream /\ known (heap s) (resolved s) /\ idle_write (r_write s) = true.

(** The request may still be started again, when the cache is busy. *)
Definition waiting (s : st) : Prop :=
  unbalanced s /\ cleanup s = false /\ resolving s = false
  /\ (starts (r_write s) = true -> cache_on cf = true).

(** About to look for a peer. *)
Definition starting (s : st) : Prop :=
  unbalanced s /\ is_Some (states s) /\ starts (r_write s) = false /\ cleanup s = true.

(** A name is being resolved. *)
Definition asking (s : st) : Prop :=
  starting s /\ (exists ur, resolved s = Some ur /\ ur_sockaddr ur = None).

Definition inv (s : st) : Prop := rest s \/ waiting s \/ asking s.

(** A balancer has been made. *)
Lemma ready_of s h u d : starting s -> heap_ok h -> addressed h -> request_ok h u -> unused u -> peer_data u = Some d ->
  o \/ (allowance h d < n)%nat -> ready (s <| heap := h |> <| peer := u |> <| resolving := false |>).
Proof.
  intros ((([[Bc Bp Bh Ba Br Bd] Hp] & He) & Hf & Hk & Hw) & Hl & Hst & Hcl) Hh Hha Hr (U1 & U2 & U3) Hd Hrem.
  assert (Hbooks : books (tally opens (log s)) (tally takes (log s)) h u).
  { rewrite Bc, Bp, Hf. split; [by rewrite U2|by rewrite U1|done..|by rewrite U1]. }
  unfold ready, live, booked, balanced, remaining. cbn -[allowance]. rewrite Hd. cbn -[allowance].
  split_and!; try done; by eexists.
Qed.

Lemma ready_resolved s : ready (s <| resolving := false |>) -> resolving s = false -> ready s.
Proof. intros H Hr. unfold ready, started in *. destruct H as (H1 & H2 & H3 & H4 & (H5 & _ & H7) & H6). by split_and!. Qed.

(** The balancer could not be made. *)
Lemma live_of s h u : starting s -> heap_ok h -> addressed h -> unused u -> live (s <| heap := h |> <| peer := u |>).
Proof.
  intros ((([[Bc Bp Bh Ba Br Bd] Hp] & He) & Hf & Hk & Hw) & Hl & Hst & Hcl) Hh Hha (U1 & U2 & U3).
  split; [|done]. split; [|done]. rewrite Hf in Bc, Bp.
  split; cbn; [by rewrite U2|by rewrite U1|done|done|by rewrite U1|by rewrite U1].
Qed.

Lemma wp_init_found us Q s : starting s -> resolving s = false -> (forall us', us = Some us' -> room (heap s) us') ->
  (forall s', rest s' -> Q tt s') -> wp (init_found cf n fuel us) Q s.
Proof.
  intros H Hres Hus HQ. unfold init_found. destruct us as [us|].
  2: { apply wp_finalize; [by apply H|done|]. intros s' H'. apply HQ. by left. }
  destruct (Hus us eq_refl) as [Hlt Hroom]. apply wp_then. wstep.
  pose proof H as ((([[_ _ Hh Ha _ _] _] & _) & Hf & _) & _). rewrite Hf.
  destruct (ngx_http_upstream_init_round_robin_peer _ _ _ _) as [rc u] eqn:E.
  pose proof (init_unused _ _ _ _ _ E) as [Hu Hd].
  assert (Hgo : rc = NGX_OK -> wp (on_peer (fun _ => u) ;; connect) Q s).
  { intros ->. destruct (Hd eq_refl) as (d & Hd1 & Hd2). apply wp_then. wstep.
    apply wp_connect; [|done]. apply ready_resolved; [|done].
    apply (ready_of s (heap s) u d); try done; [by eapply init_peer_ok|].
    pose proof (allowance_le (heap s) d) as Hle. rewrite Hd2 in Hle. destruct Hroom; [by left|right; lia]. }
  assert (Hno : wp (on_peer (fun _ => u) ;; ngx_http_upstream_finalize_request Upstream.NGX_HTTP_INTERNAL_SERVER_ERROR) Q s).
  { apply wp_then. wstep. apply wp_finalize; [by apply (live_of s (heap s) u)|done|]. intros s' H'. apply HQ. by left. }
  destruct rc; try exact Hno. by apply Hgo.
Qed.

(** The invariants of a state whose other fields were written. *)
Ltac keep_start := unfold inv, waiting, asking, starting, unbalanced in *; keep.

Lemma wp_rest_finalize rc Q s : live s -> rc <> NGX_DECLINED -> (forall s', rest s' -> Q tt s') ->
  wp (ngx_http_upstream_finalize_request rc) Q s.
Proof. intros H Hrc HQ. apply wp_finalize; [done..|]. intros s' H'. apply HQ. by left. Qed.

Lemma wp_end_unbalanced rc s : unbalanced s -> cleanup s = false -> wp (record (Finalized rc)) (fun _ => ended) s.
Proof.
  intros (([[Bc Bp Bh Ba Br Bd] Hp] & He) & Hf & _) Hc. wsteps. unfold ended, clear. keep; try done.
  - cbn. by rewrite He.
  - unfold connection, pc. cbn. by rewrite Hf.
  - unfold Upstream.sockaddr, pc. cbn. by rewrite Hf.
Qed.

(** A balancer for known addresses, and what follows. *)
Lemma wp_init_resolved ur (k : bool -> M unit) Q s : starting s -> ur_ok ur -> o \/ (ur_naddrs ur < n)%nat ->
  (forall s', ready (s' <| resolving := false |>) -> resolving s' = resolving s -> wp (k true) Q s') ->
  (forall s', live s' -> wp (k false) Q s') ->
  wp (bind (init_resolved ur) k) Q s.
Proof.
  intros H Hur Hn HT HF. apply wp_then. unfold init_resolved. apply wp_then. wstep.
  pose proof H as ((([[_ _ Hh Ha _ _] _] & _) & Hf & _) & _). rewrite Hf.
  destruct (ngx_http_upstream_create_round_robin_peer _ _ _ _ _ _ _) as [[rc u] h'] eqn:E.
  pose proof (create_request_ok _ _ _ _ _ _ _ _ _ Hh E) as (Hh' & _ & Hok).
  pose proof (create_unused _ _ _ _ _ _ _ _ _ E Hh Hur Ha) as (Hu & Ha' & Hd).
  apply wp_then. wstep. apply wp_ret. destruct (bool_decide (rc = NGX_OK)) eqn:Erc.
  - apply bool_decide_eq_true_1 in Erc. destruct (Hd Erc) as (d & Hd1 & Hd2). apply HT; [|done].
    apply (ready_of s h' u d); try done; [by apply Hok|]. destruct Hn; [by left|right; lia].
  - by apply HF, (live_of s h' u).
Qed.

Lemma wp_init_resolver ur Q s : starting s -> resolved s = Some ur -> ur_sockaddr ur = None ->
  (forall s', inv s' -> Q tt s') -> wp (init_resolver ur) Q s.
Proof.
  intros H Hr Hn HQ. unfold init_resolver.
  assert (Hend : forall rc s', live s' -> rc <> NGX_DECLINED -> wp (ngx_http_upstream_finalize_request rc) Q s').
  { intros rc s' H' Hrc. apply wp_rest_finalize; [done..|]. intros. apply HQ. by left. }
  destruct (_ =? _); [apply Hend; [apply H|done]|].
  apply wp_then, wp_ask. intros [[]|]; [|apply Hend; [keep_start|done]..].
  apply wp_then. wstep. apply wp_then, wp_ask. intros []; [|apply wp_then; wstep; apply Hend; [keep_start|done]].
  apply wp_ret, HQ. do 2 right. split; [keep_start|by exists ur].
Qed.

Lemma wp_init_cleanup Q s : unbalanced s -> is_Some (states s) -> cleanup s = false -> starts (r_write s) = false -> resolving s = false ->
  (forall s', inv s' -> Q tt s') -> wp (init_cleanup cf n fuel) Q s.
Proof.
  intros H Hl Hc Hst Hres HQ. unfold init_cleanup. apply wp_then, wp_ask. intros []; cbn [negb].
  2: { eapply wp_conseq; [apply wp_end_unbalanced; keep_start|]. intros [] s' H'. apply HQ. left. by left. }
  apply wp_then. wstep. apply wp_then. wstep.
  set (s1 := _ <| cleanup := true |>). assert (H1 : starting s1) by keep_start.
  assert (Hr1 : resolving s1 = false) by exact Hres.
  assert (Hrest : forall s', rest s' -> Q tt s') by (intros s' H'; apply HQ; by left).
  pose proof (kn_conf _ _ (proj1 (proj2 (proj2 H)))) as Hconf. apply List.Forall_app in Hconf as [Hconf Hnamed].
  change (resolved s1) with (resolved s). destruct (resolved s) as [ur|] eqn:Er.
  - destruct (kn_name _ _ (proj1 (proj2 (proj2 H))) ur Er) as [Hur Hroom].
    destruct (ur_sockaddr ur) as [a|] eqn:Ea.
    + apply wp_init_resolved; [done..| |]; intros s' H'; [|by apply wp_rest_finalize].
      intros Hr'. apply wp_connect; [|done]. apply ready_resolved; [done|congruence].
    + unfold find_upstream. destruct (find _ _) as [[[host port] us]|] eqn:Ef; [|by apply wp_init_resolver].
      apply wp_init_found; [done|done| |done]. intros us' [= <-]. apply List.find_some in Ef as [Ef _].
      rewrite List.Forall_map, List.Forall_forall in Hnamed. apply (Hnamed _ Ef).
  - apply wp_init_found; [done|done| |done]. intros us Hus. rewrite Hus in Hconf. by apply Forall_cons_iff in Hconf as [].
Qed.

Lemma wp_init_upstream Q s : unbalanced s -> cleanup s = false -> starts (r_write s) = false -> resolving s = false ->
  (forall s', inv s' -> Q tt s') -> wp (init_upstream cf n fuel) Q s.
Proof.
  intros H Hc Hst Hres HQ. unfold init_upstream.
  pose (P := fun s' => unbalanced s' /\ cleanup s' = false /\ starts (r_write s') = false /\ resolving s' = false).
  assert (Hend : forall rc s', P s' -> wp (record (Finalized rc)) Q s').
  { intros rc s' (H1 & H2 & H3 & H4). eapply wp_conseq; [by apply wp_end_unbalanced|]. intros [] s'' H'. apply HQ. left. by left. }
  apply wp_seq with (P := P); [apply wp_write; unfold P; keep_start|]. intros s1 H1.
  apply wp_seq with (P := P).
  { destruct (_ && _); [apply wp_write; unfold P in *; keep_start | done]. }
  intros s2 H2. apply wp_then, wp_ask. intros rc.
  assert (H3 : P (s2 <| clock := S (clock s2) |>)) by (unfold P in *; keep_start).
  destruct (negb _); [by apply Hend|]. apply wp_then. wstep.
  destruct (states _) as [l|] eqn:El.
  - apply wp_then, wp_push_state; [by rewrite El| |].
    + intros l' Hl'. cbn [negb]. apply wp_init_cleanup; [unfold P in *; keep_start..|done].
    + cbn [negb]. apply wp_rest_finalize; [unfold P in *; keep_start|done|]. intros s' H'. apply HQ. by left.
  - apply wp_then, wp_ask. intros []; cbn [negb]; [|apply Hend; unfold P in *; keep_start].
    apply wp_then. wstep. apply wp_init_cleanup; [unfold P in *; keep_start..|done].
Qed.

(** *** The cache *)

(** Before the upstream is tried. *)
Definition unstarted (s : st) : Prop := unbalanced s /\ cleanup s = false /\ resolving s = false.

Lemma quiet_unstarted s s' : quiet s s' -> unstarted s -> unstarted s'.
Proof.
  unfold quiet, view, unstarted, unbalanced, live, booked, plain. intros [E _]. injection E. clear E. intros.
  repeat match goal with H : ?f ?s' = ?f ?s |- _ => rewrite !H in *; clear H
                       | H : tally ?f ?l = tally ?f ?l' |- _ => rewrite !H in *; clear H end.
  done.
Qed.

Lemma wp_send_cached s : wp send_cached (fun _ => quiet s) s.
Proof. unfold send_cached. wsteps. calm. Qed.

Lemma wp_cache_send Q s : unstarted s -> (forall rc s', unstarted s' -> Q rc s') -> (forall s', ended s' -> Q NGX_DONE s') ->
  wp (ngx_http_upstream_cache_send cf) Q s.
Proof.
  intros H HQ HD. unfold ngx_http_upstream_cache_send.
  assert (Hsend : forall s', unstarted s' -> wp send_cached Q s').
  { intros s' H'. eapply wp_conseq; [apply wp_send_cached|]. intros rc s2 Q2.
    eapply HQ, quiet_unstarted; [exact Q2|exact H']. }
  apply wp_quiet; [wsteps; calm|]. intros [] s1 H1. apply quiet_unstarted in H1; [|done].
  apply wp_asked. intros b s2 _ H2. apply quiet_unstarted in H2; [|done]. destruct b.
  { apply wp_quiet; [wsteps; calm|]. intros [] s3 H3. apply quiet_unstarted in H3; [|done]. by apply Hsend. }
  apply wp_asked. intros b s3 _ H3. apply quiet_unstarted in H3; [|done].
  apply wp_quiet; [wsteps; calm|]. intros [] s4 H4. apply quiet_unstarted in H4; [|done].
  apply wp_quiet; [wsteps; calm|]. intros [] s5 H5. apply quiet_unstarted in H5; [|done].
  apply wp_asked. intros m s6 _ H6. apply quiet_unstarted in H6; [|done]. destruct m; cbn [negb]; [|by apply wp_ret, HQ].
  apply wp_quiet; [apply wp_run_process_header; [done | apply H6]|]. intros rc s7 H7. apply quiet_unstarted in H7; [|done].
  destruct rc; try by apply wp_ret, HQ.
  apply wp_then, wp_process_headers; [apply H7| |by intros s8 H8; apply wp_ret, HD]. intros h. apply Hsend.
  unfold unstarted in *. keep_start.
Qed.

Lemma wp_cache_new s : wp (cache_new cf) (fun _ => quiet s) s.
Proof. unfold cache_new. wsteps; calm. Qed.

Lemma wp_cache Q s : unstarted s -> (forall rc s', unstarted s' -> Q rc s') -> (forall s', ended s' -> Q NGX_DONE s') ->
  wp (ngx_http_upstream_cache cf) Q s.
Proof.
  intros H HQ HD. unfold ngx_http_upstream_cache. apply wp_then. wstep.
  apply wp_quiet; [destruct (has_cache s); [by apply wp_ret, quiet_refl | apply wp_cache_new]|].
  intros r s1 H1. apply quiet_unstarted in H1; [|done]. destruct r as [rc|]; [by apply wp_ret, HQ|].
  apply wp_asked. intros rc s2 _ H2. apply quiet_unstarted in H2; [|done]. cbv zeta.
  apply wp_quiet; [wsteps; try calm|].
  intros rc' s3 H3. apply quiet_unstarted in H3; [|done].
  assert (Hquiet : forall m : M ngx_rc, wp m (fun _ => quiet s3) s3 -> wp m Q s3).
  { intros m Hm. eapply wp_conseq; [exact Hm|]. intros rc2 s4 Q4. eapply HQ, quiet_unstarted; [exact Q4|exact H3]. }
  destruct rc' as [| | | | | |z].
  - apply wp_then, wp_cache_send; [done| |].
    + intros rc2 s4 H4. destruct (bool_decide _); [|by apply wp_ret, HQ].
      apply wp_quiet; [wsteps; calm|]. intros [] s5 H5. apply quiet_unstarted in H5; [|done]. by apply wp_ret, HQ.
    + intros s4 H4. rewrite bool_decide_false by done. by apply wp_ret, HD.
  - apply Hquiet. wsteps. calm.
  - apply Hquiet. wsteps. calm.
  - apply Hquiet. wsteps. calm.
  - apply Hquiet. wsteps. calm.
  - apply Hquiet. wsteps; calm.
  - apply Hquiet. wsteps; calm.
Qed.

Lemma wp_init_request Q s : waiting s -> (forall s', inv s' -> Q tt s') ->
  wp (ngx_http_upstream_init_request cf n fuel) Q s.
Proof.
  intros H HQ. unfold ngx_http_upstream_init_request.
  destruct (aio cf); [apply wp_ret, HQ; by right; left|].
  destruct H as (Hu & Hc & Hr & Hst). destruct (cache_on cf) eqn:Ec.
  2: { apply wp_init_upstream; [done|done| |done..]. destruct (starts _); [by discriminate Hst|done]. }
  apply wp_then, wp_cache; [by split| |].
  2: { intros s1 H1. apply wp_then. wstep. apply wp_ret, HQ. left. left. keep. }
  intros rc s1 (H1 & H2 & H3).
  assert (Hempty : forall m : M unit, (forall s', unstarted s' -> starts (r_write s') = false -> wp m Q s') ->
    wp (write (fun s => s <| r_write := empty_handler |>) ;; m) Q s1).
  { intros m Hm. apply wp_then. wstep. apply Hm; [unfold unstarted; keep_start|done]. }
  assert (Hend : forall rc s', unstarted s' -> wp (record (Finalized rc)) Q s').
  { intros rc' s' (U1 & U2 & U3). eapply wp_conseq; [by apply wp_end_unbalanced|].
    intros [] s'' H''. apply HQ. left. by left. }
  destruct rc; try (apply Hempty; intros s2 H4 H5; by apply Hend).
  - apply wp_write, HQ. right. left. split; [keep_start|]. by split_and!.
  - apply Hempty. intros s2 (U1 & U2 & U3) H5. apply wp_ret, HQ. right. left. by split.
  - apply Hempty. intros s2 (U1 & U2 & U3) H5. by apply wp_init_upstream.
Qed.

(** *** Other events *)

Lemma wp_resolve_handler state addrs Q s : asking s -> o \/ (length addrs < n)%nat -> (forall s', inv s' -> Q tt s') ->
  wp (ngx_http_upstream_resolve_handler cf n fuel state addrs) Q s.
Proof.
  intros [H (ur & Hr & Hn)] Ha HQ. unfold ngx_http_upstream_resolve_handler.
  assert (Hend : forall rc s', live s' -> rc <> NGX_DECLINED -> wp (ngx_http_upstream_finalize_request rc) Q s').
  { intros rc s' H' Hrc. apply wp_rest_finalize; [done..|]. intros. apply HQ. by left. }
  destruct (negb _); [apply Hend; [apply H|done]|]. apply wp_then. wstep. rewrite Hr. cbv zeta.
  apply wp_then. wstep.
  assert (Hnew : ur_ok (Resolved (ur_host ur) (ur_port ur) (length addrs) addrs (ur_sockaddr ur))).
  { intros Hs. cbn in Hs. rewrite Hn in Hs. by destruct Hs. }
  apply wp_init_resolved; [|done|exact Ha| |].
  - destruct H as [(H1 & H2 & [K1 K2] & H3) H4]. split; [|exact H4]. unfold unbalanced. split_and!; try done.
    split; [done|]. by intros ur' [= <-].
  - intros s1 H1 _. cbn [negb]. apply wp_then. wstep. apply wp_connect; [done|]. intros s2 H2. apply HQ. by left.
  - intros s1 H1. cbn [negb]. by apply Hend.
Qed.

Lemma wp_check_broken b Q s : live s -> (forall s', quiet s s' -> Q tt s') -> (forall s', rest s' -> Q tt s') ->
  wp (ngx_http_upstream_check_broken_connection b) Q s.
Proof.
  intros H HQ HR. unfold ngx_http_upstream_check_broken_connection.
  assert (Hend : forall rc s', quiet s s' -> rc <> NGX_DECLINED -> wp (ngx_http_upstream_finalize_request rc) Q s').
  { intros rc s' H' Hrc. apply wp_rest_finalize; [by eapply quiet_live|done..]. }
  assert (Hok : forall s', quiet s s' -> wp ok Q s') by (intros; by apply wp_ret, HQ).
  apply wp_then. wstep. destruct (c_error s).
  - apply wp_asked. intros d s1 _ H1. destruct d; cbn [negb]; [|by apply Hend].
    destruct (cacheable s); cbn [negb]; [by apply Hok|by apply Hend].
  - apply wp_asked. intros m s1 _ H1. cbv zeta. destruct (_ && _); [by apply Hok|].
    apply wp_asked. intros d s2 _ H2. pose proof (quiet_trans _ _ _ H1 H2) as H02.
    destruct d; cbn [negb]; [|by apply Hend].
    assert (Hbroken : wp (write (fun s => s <| c_error := true |>) ;; s <- read (fun s => s) ;;
      if negb (cacheable s) && bool_decide (is_Some (connection s))
      then ngx_http_upstream_finalize_request NGX_HTTP_CLIENT_CLOSED_REQUEST
      else if bool_decide (connection s = None) then ngx_http_upstream_finalize_request NGX_HTTP_CLIENT_CLOSED_REQUEST
      else ok) Q s2).
    { apply wp_quiet; [wsteps; calm|]. intros [] s3 H3. pose proof (quiet_trans _ _ _ H02 H3) as H03.
      apply wp_then. wstep. destruct (_ && _); [by apply Hend|]. destruct (bool_decide _); [by apply Hend|by apply Hok]. }
    destruct m as [| |[|c l]]; [by apply Hok|exact Hbroken|exact Hbroken|by apply Hok].
Qed.

Lemma quiet_unbalanced s s' : quiet s s' ->
  (unbalanced s -> unbalanced s') /\ r_write s' = r_write s /\ cleanup s' = cleanup s /\ resolving s' = resolving s
  /\ resolved s' = resolved s /\ states s' = states s.
Proof.
  unfold quiet, view, unbalanced, live, booked, plain. intros [E _]. injection E. clear E. intros.
  repeat match goal with H : ?f ?s' = ?f ?s |- _ => rewrite !H in *; clear H
                       | H : tally ?f ?l = tally ?f ?l' |- _ => rewrite !H in *; clear H end.
  done.
Qed.

Lemma quiet_waiting s s' : quiet s s' -> waiting s -> waiting s'.
Proof.
  intros H (H1 & H2 & H3 & H4). apply quiet_unbalanced in H as (Hu & Ew & Ec & Er & _).
  unfold waiting. rewrite Ew, Ec, Er. split_and!; [by apply Hu|done..].
Qed.

Lemma quiet_asking s s' : quiet s s' -> asking s -> asking s'.
Proof.
  intros H ((H1 & H2 & H3 & H5) & H4). apply quiet_unbalanced in H as (Hu & Ew & Ec & Er & En & El).
  unfold asking, starting. rewrite Ew, En, El, Ec. split_and!; [by apply Hu|done..].
Qed.

Lemma wp_connected_handlers h Q s : connected s -> plain_u h = true -> (forall s', rest s' -> Q tt s') ->
  wp (run_u_handler cf n fuel h) Q s.
Proof.
  intros H Hh HQ. pose proof (fun s Q => wp_connect n s Q) as Hc.
  destruct h; try done; cbn [run_u_handler]; try (apply wp_ret, HQ; by right).
  - eapply wp_send_request_handler; done.
  - eapply wp_process_header; done.
  - eapply wp_process_body_in_memory; done.
  - eapply wp_process_non_buffered_upstream; done.
  - eapply wp_process_upstream; done.
Qed.

Lemma wp_client_handlers h Q s : inv s -> ~ ended s -> (h = r_read s \/ h = r_write s) -> (forall s', inv s' -> Q tt s') ->
  wp (run_r_handler cf n fuel h) Q s.
Proof.
  intros H He Hh HQ.
  assert (Hlive : live s) by (destruct H as [[?|H]|[H|H]]; [done|apply H..]).
  assert (Hplain : plain s) by apply Hlive.
  assert (Hrest : forall s', rest s' -> Q tt s') by (intros s' H'; apply HQ; by left).
  assert (Hcheck : forall b, wp (ngx_http_upstream_check_broken_connection b) Q s).
  { intros b. apply wp_check_broken; [done| |done]. intros s' H'. apply HQ.
    destruct H as [[?|H]|[H|H]]; [done|left; right; by eapply quiet_connected|right; left; by eapply quiet_waiting
      |right; right; by eapply quiet_asking]. }
  assert (Hbusy : plain_read h = false -> h = r_write s).
  { destruct Hh as [->| ->]; [|done]. destruct Hplain as (_ & _ & _ & Hr & _). congruence. }
  assert (Hup' : plain_r h = true).
  { destruct Hplain as (_ & _ & _ & Hr & Hw). destruct Hh as [->| ->]; [|done]. by destruct (r_read s). }
  destruct h; try done; cbn [run_r_handler]; try (by apply wp_ret, HQ); try apply Hcheck.
  - apply wp_init_request; [|done]. specialize (Hbusy eq_refl).
    destruct H as [[?|H]|[H|H]]; [done| |done|]; exfalso.
    + destruct H as ((_ & _ & _ & [Hs _]) & _). by rewrite <- Hbusy in Hs.
    + destruct H as ((_ & _ & Hs & _) & _). by rewrite <- Hbusy in Hs.
  - specialize (Hbusy eq_refl). destruct H as [[?|H]|[H|H]]; [done|by eapply wp_process_non_buffered_downstream|exfalso..];
      [destruct H as ((_ & _ & _ & Hw) & _)|destruct H as (((_ & _ & _ & Hw) & _) & _)]; by rewrite <- Hbusy in Hw.
  - specialize (Hbusy eq_refl). destruct H as [[?|H]|[H|H]]; [done|by eapply wp_process_downstream|exfalso..];
      [destruct H as ((_ & _ & _ & Hw) & _)|destruct H as (((_ & _ & _ & Hw) & _) & _)]; by rewrite <- Hbusy in Hw.
Qed.

(** The resolver does not find more addresses than there are attempts. *)
Definition event_ok (e : event) : Prop :=
  match e with Resolver_event _ addrs => o \/ (length addrs < n)%nat | _ => True end.

Lemma wp_dispatch e Q s : inv s -> event_ok e -> (forall s', inv s' -> Q tt s') -> wp (dispatch cf n fuel e) Q s.
Proof.
  intros H Hev HQ. unfold dispatch. apply wp_then. wstep. destruct (over s) eqn:Eo; [by apply wp_ret, HQ|].
  apply over_ended in Eo. assert (Hrest : forall s', rest s' -> Q tt s') by (intros s' H'; apply HQ; by left).
  destruct e as [w|w|state addrs|].
  - destruct (bool_decide (connection s = None)) eqn:Ec; [by apply wp_ret, HQ|]. apply bool_decide_eq_false_1 in Ec.
    assert (Hc : connected s).
    { destruct H as [[?|H]|[H|H]]; [done|done|exfalso..]; apply Ec;
        [destruct H as ((_ & Hf & _) & _)|destruct H as (((_ & Hf & _) & _) & _)]; unfold connection, pc; by rewrite Hf. }
    destruct (handshaking s).
    + pose proof (fun s Q => wp_connect n s Q) as Hconn. by eapply wp_ssl_handshake.
    + apply wp_connected_handlers; [done| |done]. destruct Hc as [[[[_ (_ & H1 & H2 & _)] _] _] _].
      by destruct w.
  - apply wp_client_handlers; [done..| |done]. destruct w; auto.
  - destruct (resolving s) eqn:Er; [|by apply wp_ret, HQ].
    destruct H as [[?|H]|[H|H]]; [done|exfalso..|by apply wp_resolve_handler].
    + destruct H as ((_ & _ & _ & (_ & Hs & _)) & _). congruence.
    + destruct H as (_ & _ & Hs & _). congruence.
  - destruct (cleanup s); [|by apply wp_ret, HQ]. apply wp_rest_finalize; [|done..].
    destruct H as [[?|H]|[H|H]]; [done|apply H..].
Qed.

Lemma wp_run es Q s : inv s -> Forall event_ok es -> (forall s', inv s' -> Q tt s') -> wp (run cf n fuel es) Q s.
Proof.
  intros H Hes HQ. revert s H. induction Hes as [|e es He Hes IH]; intros s H; cbn [run]; [by apply wp_ret, HQ|].
  apply wp_then, wp_dispatch; [done..|]. intros s' H'. by apply IH.
Qed.
End Runs.

End UpstreamConnect.
