(* ===== verification/UpstreamProps.v ===== *)
(** * The upstream state machine: what every run keeps

    A request is started and any events follow, in any order, whatever the world
    answers: no NULL connection is used, the request is ended at most once, every
    connection and every peer is given back, and with enough fuel the handlers
    return.  Examples run two requests and show two runs that go wrong where a
    connection is upgraded or a stale answer is sent. *)

From S2P Require Import Prelude RoundRobin RoundRobinFacts RoundRobinWorld RoundRobinProps UpstreamHeaders UpstreamHeadersProps UpstreamState Upstream UpstreamPeers UpstreamFacts UpstreamSteps UpstreamConnect.

Module UpstreamProps.
Import RoundRobin.RoundRobin RoundRobinGroup RoundRobinWorld.RoundRobinWorld RoundRobinReach.
Import UpstreamPeers.UpstreamPeers UpstreamHeaders.UpstreamHeaders UpstreamState.UpstreamState Upstream.Upstream UpstreamFacts.UpstreamFacts UpstreamConnect.UpstreamConnect.
#[local] Open Scope upstream_scope.

(** ** A request that has just been made *)

(** The balancing data of the configured upstreams. *)
Definition confs (cf : conf) : list nat := option_list (upstream_conf cf) ++ map (fun x => x.2) (named_upstreams cf).

(** What [ngx_http_upstream_create] and the module leave. *)
Record fresh_request (cf : conf) (s : st) : Prop := {
  fr_log : log s = [];
  fr_peer : peer s = zero_peer_connection;
  fr_heap : heap_ok (heap s);
  fr_addressed : addressed (heap s);
  fr_cleanup : cleanup s = false;
  fr_resolving : resolving s = false;
  fr_upgrade : upgrade s = false;
  fr_handlers : u_read s = no_handler /\ u_write s = no_handler /\ r_read s = other_handler /\ r_write s = other_handler;
  fr_confs : Forall (fun us => (us < length (heap s))%nat) (confs cf);
  fr_name : forall ur, resolved s = Some ur -> ur_ok ur;
}.

(** The peers of a group and of its backup. *)
Definition peers_of (h : peers_heap) (us : nat) : nat :=
  (number (group_at h us) + from_option (fun b => number (group_at h b)) 0 (next (group_at h us)))%nat.

(** More attempts than peers, and fuel for what there is to read. *)
Record bounded {W : World} (cf : conf) (attempts fuel : nat) (es : list event) (s : st) : Prop := {
  bd_reads : exists q, drained q /\ (q < fuel)%nat;
  bd_confs : Forall (fun us => (peers_of (heap s) us < attempts)%nat) (confs cf);
  bd_name : forall ur, resolved s = Some ur -> (ur_naddrs ur < attempts)%nat;
  bd_addrs : Forall (fun e => match e with Resolver_event _ addrs => (length addrs < attempts)%nat | _ => True end) es;
}.

(** The connections and the peers that are held are in the books, and a request
    that has been ended, which happens once, holds none. *)
Record accounted (s : st) : Prop := {
  ac_connections : tally opens (log s) = one (connection s);
  ac_peers : tally takes (log s) = one (Upstream.sockaddr s);
  ac_ends : tally ends (log s) = 0
            \/ (tally ends (log s) = 1 /\ connection s = None /\ Upstream.sockaddr s = None /\ cleanup s = false);
  ac_heap : heap_ok (heap s);
  ac_addressed : addressed (heap s);
}.

(** A request and the events that follow. *)
Definition serve {W : World} (cf : conf) (attempts fuel : nat) (es : list event) : M unit :=
  ngx_http_upstream_init cf attempts fuel ;; run cf attempts fuel es.

Section Runs.
Context {W : World} {WOK : WorldOk} (cf : conf) (Hup : never_upgrades) (Hstale : never_stale cf).
Context (Hnolive : has (next_upstream cf) NGX_HTTP_UPSTREAM_FT_NOLIVE = false).

Lemma fresh_waiting o n s : fresh_request cf s ->
  o \/ (Forall (fun us => (peers_of (heap s) us < n)%nat) (confs cf)
        /\ (forall ur, resolved s = Some ur -> (ur_naddrs ur < n)%nat)) ->
  waiting o n cf s.
Proof.
  intros [F1 F2 F3 F4 F5 F6 F7 (F8 & F9 & F10 & F11) F12 F13] Hb. split; [|by rewrite F5, F6, F11].
  split; [|split; [exact F2|split; [split|by rewrite F11]]].
  - unfold live, booked, plain. rewrite F1, F2, F7, F8, F9, F10, F11. split; [|done]. by split.
  - rewrite List.Forall_forall in *. intros us Hin. split; [by apply F12|].
    destruct Hb as [?|[Hb _]]; [by left|right; by apply Hb].
  - intros ur Hur. split; [by apply F13|]. destruct Hb as [?|[_ Hb]]; [by left|right; by apply Hb].
Qed.

Lemma wp_init o q n fuel s : o \/ drained q -> o \/ (q < fuel)%nat -> waiting o n cf s ->
  @wp (limits o q n) _ (ngx_http_upstream_init cf n fuel) (fun _ => inv o q n cf) s.
Proof.
  intros Hd Hf Hw. unfold ngx_http_upstream_init. apply wp_then, wp_ask. intros b.
  assert (H' : waiting o n cf (s <| clock := S (clock s) |>)).
  { eapply quiet_waiting; [|exact Hw]. calm. }
  destruct b; cbn [negb]; [by eapply wp_init_request|].
  eapply wp_conseq; [eapply wp_end_unbalanced; apply H'|]. intros [] s' He. left. by left.
Qed.

Lemma wp_serve o q n fuel es (Q : unit -> st -> Prop) s : o \/ drained q -> o \/ (q < fuel)%nat -> waiting o n cf s ->
  Forall (event_ok o n) es -> (forall s', inv o q n cf s' -> Q tt s') ->
  @wp (limits o q n) _ (serve cf n fuel es) Q s.
Proof.
  intros Hd Hf Hw Hes HQ. unfold serve. apply wp_then. eapply wp_conseq; [by apply wp_init|]. intros [] s' H'.
  by eapply wp_run.
Qed.

Lemma wp_run_app {L : Limits} n fuel es es' (Q : unit -> st -> Prop) s :
  wp (run cf n fuel es) (fun _ s' => wp (run cf n fuel es') Q s') s -> wp (run cf n fuel (es ++ es')) Q s.
Proof.
  revert s. induction es as [|e es IH]; intros s; [done|]. cbn [run app]. unfold wp at 1, bind at 1. intros H.
  apply wp_then. unfold wp at 1. destruct (dispatch _ _ _ _ s) as [[] s'| |]; [|done..]. by apply IH.
Qed.

(** Nothing is held, and nothing is owed. *)
Definition settled (s : st) : Prop :=
  tally opens (log s) = 0 /\ tally takes (log s) = 0 /\ connection s = None /\ Upstream.sockaddr s = None.

Lemma ended_settled s : ended s -> settled s.
Proof.
  intros ([[Bc Bp _ _ _ _] _] & _ & Hc & Ha & _). unfold settled, connection, Upstream.sockaddr, pc in *.
  by rewrite Bc, Bp, Hc, Ha.
Qed.

Lemma wp_cleanup_event o q n fuel s : inv o q n cf s ->
  @wp (limits o q n) _ (dispatch cf n fuel Cleanup_event) (fun _ => settled) s.
Proof.
  intros H. unfold dispatch. apply wp_then, wp_field_read. destruct (over s) eqn:Eo.
  - apply wp_ret. destruct H as [[H|H]|[H|H]]; [by apply ended_settled|exfalso..];
      rewrite over_live in Eo by apply H; done.
  - apply over_ended in Eo.
    assert (Hend : live s -> @wp (limits o q n) _ (ngx_http_upstream_finalize_request NGX_DONE) (fun _ => settled) s).
    { intros Hl. apply wp_finalize; [done..|]. by apply ended_settled. }
    destruct (cleanup s) eqn:Ec; [apply Hend; destruct H as [[?|H]|[H|H]]; [done|apply H..]|].
    apply wp_ret. destruct H as [[?|H]|[H|H]]; [done|exfalso| |exfalso].
    + destruct H as ((_ & _ & _ & (_ & _ & Hc)) & _). congruence.
    + destruct H as ((([[Bc Bp _ _ _ _] _] & _) & Hf & _) & _). unfold settled, connection, Upstream.sockaddr, pc.
      by rewrite Bc, Bp, Hf.
    + destruct H as ((_ & _ & _ & Hc) & _). congruence.
Qed.

Lemma inv_accounted o q n s : inv o q n cf s -> accounted s.
Proof.
  assert (Hlive : live s -> accounted s).
  { intros [[[Bc Bp Bh Ba _ _] _] He]. split; try done. by left. }
  intros [[((Bb & _) & He & Hc)|H]|[H|H]]; [|apply Hlive, H..].
  destruct Bb as [Bc Bp Bh Ba _ _]. split; try done. right. by split.
Qed.

(** C3: For responses that do not upgrade the connection, a configuration that does not
    serve stale answers on the errors of an upstream, and [next_upstream] without
    [NGX_HTTP_UPSTREAM_FT_NOLIVE], which no directive sets: whatever the world answers
    otherwise and in whatever order events come, a request that is passed to an upstream
    never uses a connection that is not there, is ended at most once, and always has in
    its log one opened connection and one peer taken for each that it holds, none once
    it has been ended; the groups of peers stay well formed. With an upgrade or a stale
    answer the code does otherwise, see [upgraded_then_closed] and
    [stale_redirect_ends_twice]. *)
Theorem upstream_accounts (attempts fuel : nat) (es : list event) (s : st) :
  fresh_request cf s ->
  match serve cf attempts fuel es s with
  | Done _ s' => accounted s'
  | Crash => False
  | Fuel => ~ bounded cf attempts fuel es s
  end.
Proof.
  intros Hs.
  assert (Hany : @wp (limits True 0 attempts) _ (serve cf attempts fuel es) (fun _ s' => accounted s') s).
  { apply wp_serve; [by left|by left|apply fresh_waiting; [done|by left]| |by intros; eapply inv_accounted].
    apply List.Forall_forall. intros [] _; cbn; auto. }
  unfold wp in Hany. destruct (serve cf attempts fuel es s) eqn:E; [exact Hany|exact Hany|].
  intros [(q & Hq & Hf) Hc Hn Ha].
  assert (Hall : @wp (limits False q attempts) _ (serve cf attempts fuel es) (fun _ _ => True) s).
  { apply wp_serve; [by right|by right|apply fresh_waiting; [done|by right]| |done].
    eapply List.Forall_impl; [|exact Ha]. intros []; cbn; auto. }
  unfold wp in Hall. by rewrite E in Hall.
Qed.

(** C9: For responses that do not upgrade the connection, a configuration that does not
    serve stale answers on the errors of an upstream, and [next_upstream] without
    [NGX_HTTP_UPSTREAM_FT_NOLIVE], which no directive sets: with more attempts allowed
    than the upstream has peers, and fuel for what there is to read, every handler
    returns: the retries and the loops over the sockets end, in whatever order events
    come. *)
Theorem upstream_returns (attempts fuel : nat) (es : list event) (s : st) :
  fresh_request cf s -> bounded cf attempts fuel es s ->
  exists s', serve cf attempts fuel es s = Done tt s' /\ accounted s'.
Proof.
  intros Hs [(q & Hq & Hf) Hc Hn Ha].
  assert (Hall : @wp (limits False q attempts) _ (serve cf attempts fuel es) (fun _ s' => accounted s') s).
  { apply wp_serve; [by right|by right|apply fresh_waiting; [done|by right]| |by intros; eapply inv_accounted].
    eapply List.Forall_impl; [|exact Ha]. intros []; cbn; auto. }
  unfold wp in Hall. destruct (serve cf attempts fuel es s) as [[] s'| |]; [by exists s'|done|done].
Qed.

(** C31: For responses that do not upgrade the connection, a configuration that does not
    serve stale answers on the errors of an upstream, and [next_upstream] without
    [NGX_HTTP_UPSTREAM_FT_NOLIVE], which no directive sets: when the pool of the request
    is destroyed, after any events, every connection that was opened has been closed and
    every peer that was taken has been given back. *)
Theorem upstream_leaks_nothing (attempts fuel : nat) (es : list event) (s : st) :
  fresh_request cf s -> bounded cf attempts fuel es s ->
  exists s', serve cf attempts fuel (es ++ [Cleanup_event]) s = Done tt s'
    /\ tally opens (log s') = 0 /\ tally takes (log s') = 0 /\ connection s' = None /\ Upstream.sockaddr s' = None.
Proof.
  intros Hs [(q & Hq & Hf) Hc Hn Ha].
  assert (Hall : @wp (limits False q attempts) _ (serve cf attempts fuel (es ++ [Cleanup_event])) (fun _ => settled) s).
  { apply wp_then. eapply wp_conseq; [apply wp_init; [by right|by right|apply fresh_waiting; [done|by right]]|].
    intros [] s1 H1. apply wp_run_app. eapply wp_run; try done; [by right|by right| |].
    - eapply List.Forall_impl; [|exact Ha]. intros []; cbn; auto.
    - intros s2 H2. apply wp_then. eapply wp_conseq; [by apply wp_cleanup_event|]. by intros [] s3 H3. }
  unfold wp in Hall. destruct (serve _ _ _ _ s) as [[] s'| |]; [by exists s'|done|done].
Qed.
End Runs.

(** ** Examples

    The groups are those of the balancer's example: three servers and a backup. *)

Definition ex_heap : peers_heap := w_heap RoundRobinProps.RoundRobinProps.ex_boot.

Definition ex_headers : headers_request :=
  Request zero_headers_in false false 0 None false 2 0 false
    (HeadersOut [] 0 [] (fun _ => None) (fun _ => []) None 0 None None (0, 0) (-1) (-1)).

Definition ex_request : st :=
  St 0 [] ex_heap zero_peer_connection false false false false false ex_headers None None None false false false false
    false false false 0 0 0 null_buf null_buf null_buf [] [] (Pipe false false false false 0 0 None) no_handler no_handler
    other_handler other_handler false true 11 false false false false.

Definition ex_conf (mask stale : Z) : conf :=
  Conf mask (UpstreamHeaders.Conf 0 false []) 4096 false false true false false None (negb (stale =? 0)) 2 stale false false
    false (Some 0%nat) [] false false false false false false 0 false false.

(** Sockets connect from question [up] on, there are bytes to read until question
    80, and a response is 200; the cache has what [cached] says, and its answer is
    redirected by "X-Accel-Redirect". *)
Definition ex_fields (connect : M ngx_rc -> M ngx_rc) (up : nat) (upgrades : bool) (cached : ngx_rc)
  (answer : UpstreamHeaders.ngx_http_upstream_headers_in_t) : World := {|
  ngx_event_connect_peer := connect;
  connect_socket n := if (up <=? n)%nat then NGX_AGAIN else NGX_DECLINED;
  connection_pool _ := true;
  ngx_output_chain _ := NGX_OK;
  ngx_handle_write_event _ := true;
  ngx_handle_read_event _ := true;
  ngx_tcp_push _ := true;
  setsockopt _ := true;
  getsockopt_error _ := false;
  recv n size := if (80 <=? n)%nat || (size <? 5) then Again else Bytes (bytes_of "hello");
  send _ l := Some (Z.of_nat (length l));
  peek _ := Again;
  ngx_del_event _ := true;
  ngx_add_event _ := true;
  memory _ := true;
  upstream_read_timedout _ := false;
  upstream_write_timedout _ := false;
  upstream_read_ready n := (n <? 80)%nat;
  upstream_read_eof _ := true;
  upstream_read_error _ := false;
  upstream_read_active _ := true;
  upstream_write_ready _ := true;
  upstream_write_waits _ := false;
  downstream_write_timedout _ := false;
  downstream_write_ready _ := true;
  downstream_read_ready n := true;
  downstream_read_eof _ := false;
  connection_ssl _ := false;
  handshaked _ := true;
  ngx_ssl_create_connection _ := true;
  ngx_ssl_handshake_again _ := false;
  ngx_event_pipe _ _ p := (false, p);
  UpstreamState.ngx_time _ := 1400000000;
  ngx_msec _ := 0;
  now _ := 1400000000;
  ngx_resolve_start _ := None;
  ngx_resolve_name _ := true;
  alloc _ := true;
  ngx_inet_ntop z := [z];
  sprint_d z := [z];
  htons := id;
  NGX_PEER_NEXT := 2;
  NGX_PEER_FAILED := 4;
  ngx_ssl_set_session _ _ := NGX_OK;
  ngx_ssl_get_session c := c;
  create_request _ := NGX_OK;
  reinit_request _ := NGX_OK;
  process_header _ b h :=
    Parsed NGX_OK (last b) (Request answer (UpstreamHeaders.cacheable h)
      false (-1) (UpstreamHeaders.cache h) (UpstreamHeaders.cached h) (UpstreamHeaders.method h) 0 false (headers_out h))
      false upgrades;
  input_filter_init _ := true;
  custom_input_filter _ _ _ := None;
  ngx_http_send_header _ := NGX_OK;
  ngx_http_send_special _ := NGX_OK;
  ngx_http_output_filter _ _ := Some 0%nat;
  ngx_http_test_predicates _ := NGX_OK;
  ngx_http_file_cache_new _ := true;
  create_key _ := true;
  ngx_http_file_cache_open _ := cached;
  ngx_http_file_cache_create _ := true;
  ngx_http_file_cache_valid _ := 0;
  cached_without_header _ := false;
  cached_buf _ := null_buf;
  ngx_http_cache_send _ := NGX_OK;
  header_core := UpstreamHeadersProps.UpstreamHeadersProps.small;
|}.

Definition ex_world (up : nat) (upgrades : bool) (cached : ngx_rc)
  (answer : UpstreamHeaders.ngx_http_upstream_headers_in_t) : World :=
  ex_fields (@event_connect (ex_fields (fun m => m) up upgrades cached answer)) up upgrades cached answer.

Lemma ex_world_ok up upgrades cached answer : @WorldOk (ex_world up upgrades cached answer).
Proof. by split. Qed.

Definition log_of (r : result unit) : option (list action) :=
  match r with Done _ s => Some (rev (log s)) | _ => None end.

Definition ex_error : Z := NGX_HTTP_UPSTREAM_FT_ERROR.

(** A response without headers, and one that is redirected. *)
Definition ex_answer : UpstreamHeaders.ngx_http_upstream_headers_in_t :=
  HeadersIn [] 200 [] (fun _ => None) (-1) [] false false.
Definition ex_redirect : UpstreamHeaders.ngx_http_upstream_headers_in_t :=
  HeadersIn [Elt 1 (bytes_of "X-Accel-Redirect") (Some (bytes_of "/private")) (bytes_of "x-accel-redirect")] 200 []
    (fun f => if bool_decide (f = in_x_accel_redirect) then Some 0%nat else None) (-1) [] false false.

(** The first peer refuses the connection; the second answers. *)
Example two_peers :
  log_of (@serve (ex_world 12 false NGX_DECLINED ex_answer) (ex_conf ex_error 0) 5 100 [Upstream_event true] ex_request)
  = Some [Peer_got (Some (RoundRobin.Addr 1 16)); Peer_freed 4; Peer_got (Some (RoundRobin.Addr 2 16)); Connected;
          Request_sent; From_upstream (bytes_of "hello"); Header_sent; Special NGX_HTTP_FLUSH;
          From_upstream (bytes_of "hello"); Output (bytes_of "hello"); Module_finalized NGX_OK; Peer_freed 0; Closed; Special NGX_HTTP_LAST; Finalized NGX_OK].
Proof. vm_compute. reflexivity. Qed.

(** An upgraded connection that its upstream closes at once: the request is ended
    and the connection is gone when the client's bytes are looked at. *)
Example upgraded_then_closed :
  @serve (ex_world 0 true NGX_DECLINED ex_answer) (ex_conf ex_error 0) 5 100 [Upstream_event true] ex_request = Crash.
Proof. vm_compute. reflexivity. Qed.

(** No peer connects and the cached answer that is stale is redirected: the
    request is ended by the redirect and then once more. *)
Example stale_redirect_ends_twice :
  log_of (@serve (ex_world 1000 false (Code 4) ex_redirect) (ex_conf 0 ex_error) 5 100 [] ex_request)
  = Some [Peer_got (Some (RoundRobin.Addr 1 16)); Peer_freed 4; Module_finalized NGX_DECLINED; Cache_freed;
          Redirected (bytes_of "/private") []; Finalized NGX_DONE; Module_finalized NGX_DONE; Cache_freed;
          Finalized NGX_DONE].
Proof. vm_compute. reflexivity. Qed.

(** ** Witnesses *)

Lemma ex_fresh mask stale : fresh_request (ex_conf mask stale) ex_request.
Proof.
  split; try done.
  - apply RoundRobinProps.RoundRobinProps.ex_heap_ok.
  - intros a i Ha Hi. destruct a as [|[|a]]; [| |exfalso; vm_compute in Ha; lia].
    + destruct i as [|[|[|i]]]; try (by eexists). exfalso. vm_compute in Hi. lia.
    + destruct i as [|i]; [by eexists|]. exfalso. vm_compute in Hi. lia.
  - constructor; [vm_compute; lia|done].
Qed.

Lemma ex_bounded up upgrades cached answer mask stale :
  @bounded (ex_world up upgrades cached answer) (ex_conf mask stale) 5 100 [Upstream_event true] ex_request.
Proof.
  split.
  - exists 80%nat. split; [|lia]. intros k size Hk. cbn [recv ex_world ex_fields]. by rewrite (proj2 (Nat.leb_le 80 k)).
  - constructor; [vm_compute; lia|done].
  - done.
  - by repeat constructor.
Qed.

Lemma ex_calm up cached answer : @never_upgrades (ex_world up false cached answer).
Proof. done. Qed.

Lemma ex_never_stale mask : never_stale (ex_conf mask 0).
Proof. by repeat constructor. Qed.

Lemma upstream_accounts_witness :
  match @serve (ex_world 12 false NGX_DECLINED ex_answer) (ex_conf ex_error 0) 5 100 [Upstream_event true] ex_request with
  | Done _ s' => accounted s'
  | Crash => False
  | Fuel => ~ @bounded (ex_world 12 false NGX_DECLINED ex_answer) (ex_conf ex_error 0) 5 100 [Upstream_event true] ex_request
  end.
Proof.
  apply (@upstream_accounts (ex_world 12 false NGX_DECLINED ex_answer) (ex_world_ok _ _ _ _)).
  - apply ex_calm.
  - apply ex_never_stale.
  - reflexivity.
  - apply ex_fresh.
Defined.

Lemma upstream_returns_witness : exists s',
  @serve (ex_world 12 false NGX_DECLINED ex_answer) (ex_conf ex_error 0) 5 100 [Upstream_event true] ex_request = Done tt s'
  /\ accounted s'.
Proof.
  apply (@upstream_returns (ex_world 12 false NGX_DECLINED ex_answer) (ex_world_ok _ _ _ _)).
  - apply ex_calm.
  - apply ex_never_stale.
  - reflexivity.
  - apply ex_fresh.
  - apply ex_bounded.
Defined.

Lemma upstream_leaks_nothing_witness : exists s',
  @serve (ex_world 12 false NGX_DECLINED ex_answer) (ex_conf ex_error 0) 5 100
    ([Upstream_event true] ++ [Cleanup_event]) ex_request = Done tt s'
  /\ tally opens (log s') = 0 /\ tally takes (log s') = 0 /\ connection s' = None /\ Upstream.sockaddr s' = None.
Proof.
  apply (@upstream_leaks_nothing (ex_world 12 false NGX_DECLINED ex_answer) (ex_world_ok _ _ _ _)).
  - apply ex_calm.
  - apply ex_never_stale.
  - reflexivity.
  - apply ex_fresh.
  - apply ex_bounded.
Defined.

End UpstreamProps.
