(* ===== verification/UpstreamBytes.v ===== *)
(** * The upstream state machine: the bytes that pass through it

    What is received from one side is what is sent to the other, in order:
    through the buffers of an upgraded connection in both directions, and through
    [u->out_bufs] and [u->busy_bufs] of a response that is not buffered. *)

From S2P Require Import Prelude RoundRobin UpstreamHeaders UpstreamState Upstream UpstreamPeers UpstreamFacts UpstreamProps.

Module UpstreamBytes.
Import RoundRobin.RoundRobin UpstreamHeaders.UpstreamHeaders UpstreamState.UpstreamState Upstream.Upstream UpstreamFacts.UpstreamFacts.
#[local] Open Scope upstream_scope.

(** ** Buffers *)

Definition fits (b : buf) : Prop := 0 <= pos b <= last b /\ last b <= Z.of_nat (length (mem b)) /\ last b <= end_ b.

Lemma slice_drop m a c n : 0 <= a -> 0 <= n -> slice m (a + n) c = drop (Z.to_nat n) (slice m a c).
Proof.
  intros Ha Hn. unfold slice. rewrite skipn_firstn_comm, drop_drop. f_equal; [lia|]. f_equal. lia.
Qed.

Lemma slice_store_below b l a c : fits b -> 0 <= a -> c <= last b -> slice (mem (store b l)) a c = slice (mem b) a c.
Proof.
  intros (Hp & Hm & _) Ha Hc. cbn [mem store].
  assert (Hl : length (take (Z.to_nat (last b)) (mem b)) = Z.to_nat (last b)) by (rewrite length_take; lia).
  rewrite slice_app_l by lia. rewrite <- (take_drop (Z.to_nat (last b)) (mem b)) at 2. by rewrite slice_app_l by lia.
Qed.

Lemma slice_store_new b l : fits b -> slice (mem (store b l)) (last b) (last b + Z.of_nat (length l)) = l.
Proof.
  intros (Hp & Hm & _). cbn [mem store].
  assert (Hl : length (take (Z.to_nat (last b)) (mem b)) = Z.to_nat (last b)) by (rewrite length_take; lia).
  pose proof (slice_mid (take (Z.to_nat (last b)) (mem b)) l (drop (Z.to_nat (last b) + length l) (mem b))) as H.
  rewrite Hl in H. etransitivity; [|exact H]. f_equal; lia.
Qed.

Lemma length_store b l : fits b -> (length (mem b) <= length (mem (store b l)))%nat
  /\ (Z.to_nat (last b) + length l <= length (mem (store b l)))%nat.
Proof. intros (Hp & Hm & _). cbn [mem store]. rewrite !length_app, length_take, length_drop. lia. Qed.

(** Bytes received into a buffer. *)
Definition grown (b : buf) (l : list Z) : buf := (store b l) <| last := last b + Z.of_nat (length l) |>.

Lemma slice_split m a c d : 0 <= a <= c -> c <= d -> d <= Z.of_nat (length m) -> slice m a d = slice m a c ++ slice m c d.
Proof.
  intros Ha Hc Hd. unfold slice. rewrite <- (take_drop (Z.to_nat (c - a)) (take (Z.to_nat (d - a)) (drop (Z.to_nat a) m))).
  rewrite take_take, skipn_firstn_comm, drop_drop. f_equal; f_equal; try lia. f_equal. lia.
Qed.

Lemma pending_grown b l : fits b -> pending (grown b l) = pending b ++ l.
Proof.
  intros H. pose proof H as (Hp & Hm & _). pose proof (length_store b l H) as Hl.
  change (pending (grown b l)) with (slice (mem (store b l)) (pos b) (last b + Z.of_nat (length l))).
  rewrite (slice_split _ _ (last b)) by lia. by rewrite (slice_store_below _ _ (pos b) (last b)), slice_store_new by (done || lia).
Qed.

Lemma fits_grown b l : fits b -> Z.of_nat (length l) <= end_ b - last b -> fits (grown b l).
Proof. intros H Hl. pose proof (length_store b l H). destruct H as (Hp & Hm & He). unfold fits.
  change (mem (grown b l)) with (mem (store b l)). change (pos (grown b l)) with (pos b).
  change (last (grown b l)) with (last b + Z.of_nat (length l)). change (end_ (grown b l)) with (end_ b). lia.
Qed.

(** Bytes sent from a buffer, which is emptied when that was all of them. *)
Definition shrunk (b : buf) (n : Z) : buf :=
  let b := b <| pos := pos b + n |> in if pos b =? last b then b <| pos := 0 |> <| last := 0 |> else b.

Lemma pending_shrunk b n : fits b -> 0 < n -> pending b = take (Z.to_nat n) (pending b) ++ pending (shrunk b n).
Proof.
  intros (Hp & Hm & _) Hn. rewrite <- (take_drop (Z.to_nat n) (pending b)) at 1. f_equal. unfold pending, shrunk. cbn.
  destruct (Z.eqb_spec (pos b + n) (last b)) as [E|E]; cbn.
  - rewrite slice_nil, <- slice_drop, E by lia. by rewrite slice_nil.
  - by rewrite slice_drop by lia.
Qed.

Lemma fits_shrunk b n : fits b -> 0 < n <= Z.of_nat (length (pending b)) -> fits (shrunk b n).
Proof.
  intros (Hp & Hm & He) Hn. unfold pending in Hn. rewrite length_slice in Hn by lia. unfold fits, shrunk. cbn.
  destruct (_ =? _); cbn; lia.
Qed.

Lemma start_shrunk b n : start (shrunk b n) = start b.
Proof. unfold shrunk. cbn. by destruct (_ =? _). Qed.

(** ** What the log says of the bytes *)

(** The bytes sent and received, of a log; [true] is the direction from the
    upstream to the client. *)
Definition gives (d : bool) (a : action) : list Z :=
  match a with Output l => if d then l else [] | To_upstream l => if d then [] else l | _ => [] end.
Definition takes_in (d : bool) (a : action) : list Z :=
  match a with From_upstream l => if d then l else [] | From_client l => if d then [] else l | _ => [] end.

Definition bytes_in (f : action -> list Z) (l : list action) : list Z := concat (map f (rev l)).

Lemma bytes_in_app f l l' : bytes_in f (l' ++ l) = bytes_in f l ++ bytes_in f l'.
Proof. unfold bytes_in. by rewrite rev_app_distr, map_app, concat_app. Qed.

Lemma bytes_in_cons f a l : bytes_in f (a :: l) = bytes_in f l ++ f a.
Proof. change (a :: l) with ([a] ++ l). rewrite (bytes_in_app f l [a]). unfold bytes_in at 2. cbn. by rewrite app_nil_r. Qed.

(** From one state to another, the bytes sent and those that wait are those that
    waited and those received. *)
Definition passes (waits : st -> list Z) (d : bool) (s s' : st) : Prop :=
  exists new, log s' = new ++ log s /\ bytes_in (gives d) new ++ waits s' = waits s ++ bytes_in (takes_in d) new.

Lemma passes_refl w d s : passes w d s s.
Proof. exists []. split; [done|]. cbn. by rewrite app_nil_r. Qed.

Lemma passes_trans w d s1 s2 s3 : passes w d s1 s2 -> passes w d s2 s3 -> passes w d s1 s3.
Proof.
  intros (n1 & E1 & H1) (n2 & E2 & H2). exists (n2 ++ n1). split; [by rewrite E2, E1, app_assoc|].
  rewrite !bytes_in_app, <- app_assoc, H2, app_assoc, H1. by rewrite app_assoc.
Qed.

(** Steps that move no bytes. *)
Definition still (s s' : st) : Prop :=
  buffer s' = buffer s /\ from_client s' = from_client s /\ header_in s' = header_in s
  /\ out_bufs s' = out_bufs s /\ busy_bufs s' = busy_bufs s
  /\ exists new, log s' = new ++ log s /\ Forall (fun a => forall d, gives d a = [] /\ takes_in d a = []) new.

Lemma still_refl s : still s s.
Proof. repeat split. by exists []. Qed.

Lemma still_trans s1 s2 s3 : still s1 s2 -> still s2 s3 -> still s1 s3.
Proof.
  intros (A1 & A2 & A3 & A4 & A5 & n1 & A6 & A7) (B1 & B2 & B3 & B4 & B5 & n2 & B6 & B7).
  split_and!; try congruence. exists (n2 ++ n1). split; [by rewrite B6, A6, app_assoc|]. by apply List.Forall_app.
Qed.

Lemma bytes_in_still (f : action -> list Z) l : Forall (fun a => f a = []) l -> bytes_in f l = [].
Proof. induction 1 as [|a l Ha Hl IH]; [done|]. by rewrite bytes_in_cons, IH, Ha. Qed.

Lemma still_passes w d s s' : (still s s' -> w s' = w s) -> still s s' -> passes w d s s'.
Proof.
  intros Hw H. pose proof (Hw H) as E. destruct H as (_ & _ & _ & _ & _ & new & Hl & Hn). exists new. split; [done|].
  rewrite E, !bytes_in_still; [by rewrite app_nil_r|..]; (eapply List.Forall_impl; [|exact Hn]); intros a Ha; by apply Ha.
Qed.

(** *** The end of the request moves no bytes *)

Ltac stand := solve [refine (conj eq_refl (conj eq_refl (conj eq_refl (conj eq_refl (conj eq_refl _)))));
  first [exists []; by split | eexists [_]; split; [reflexivity|]; by repeat constructor
    | eexists [_; _]; split; [reflexivity|]; by repeat constructor]].

Section Still.
Context {L : Limits} {W : World}.

Lemma wp_still {A} (m : M unit) (k : M A) Q s0 s : still s0 s -> (forall s, wp m (fun _ => still s) s) ->
  (forall s', still s0 s' -> wp k Q s') -> wp (bind m (fun _ => k)) Q s.
Proof.
  intros Hs Hm Hk. apply wp_then. eapply wp_conseq; [apply Hm|]. intros [] s' H'. apply Hk. by eapply still_trans.
Qed.

Lemma wp_still_last (m : M unit) s0 s : still s0 s -> (forall s, wp m (fun _ => still s) s) -> wp m (fun _ => still s0) s.
Proof. intros Hs Hm. eapply wp_conseq; [apply Hm|]. intros [] s' H'. by eapply still_trans. Qed.

Lemma wp_end_still rc s : wp (ngx_http_upstream_finalize_request rc)
  (fun _ s' => still s s' /\ (rc <> NGX_DECLINED -> over s' = true)) s.
Proof.
  unfold ngx_http_upstream_finalize_request.
  apply (wp_still _ _ _ s); [apply still_refl|intros; wsteps; stand|]. intros s1 H1.
  apply (wp_still _ _ _ s); [done|intros; unfold end_of_state, on_state; wsteps; first [stand | cbn in *; congruence]|]. intros s2 H2.
  apply (wp_still _ _ _ s); [done|intros; wsteps; stand|]. intros s3 H3. apply wp_then, wp_field_read.
  apply (wp_still _ _ _ s); [done|intros; unfold free_peer; wsteps; stand|]. intros s4 H4.
  apply (wp_still _ _ _ s); [done|intros; unfold close_connection; wsteps; stand|]. intros s5 H5.
  apply (wp_still _ _ _ s); [done|intros; unfold delete_temp_file; wsteps; stand|]. intros s6 H6.
  apply (wp_still _ _ _ s); [done|intros; unfold finalize_cache|].
  { apply wp_then, wp_field_read. destruct (has_cache _); [|stand].
    eapply wp_still; [apply still_refl|intros; unfold error_valid; wsteps; stand|]. intros s8 H8.
    apply wp_still_last; [done|]. intros. wsteps. stand. }
  intros s7 H7.
  assert (Hend : wp (finalize_client rc) (fun _ s' => still s s' /\ (rc <> NGX_DECLINED -> over s' = true)) s7).
  { eapply wp_conseq with (P := fun _ s' => still s7 s' /\ over s' = true).
    - unfold finalize_client. apply wp_then, wp_field_read. wsteps; (split; [stand|done]).
    - intros [] s8 [H8 Ho]. split; [by eapply still_trans|done]. }
  destruct rc; try exact Hend. apply wp_ret. by split.
Qed.
End Still.

(** ** An upgraded connection *)

(** The bytes that wait in the buffers of a direction. *)
Definition waits (d : bool) (s : st) : list Z :=
  if d then pending (buffer s) else pending (header_in s) ++ pending (from_client s).

(** The buffers of the two directions; what the client sent with its request is
    sent before anything else is read from it. *)
Definition tunnel (s : st) : Prop :=
  fits (buffer s) /\ fits (from_client s) /\ fits (header_in s)
  /\ (pending (header_in s) = [] \/ pending (from_client s) = [])
  /\ (start (from_client s) = true \/ pending (from_client s) = []).

(** Which buffer is the one of a direction now. *)
Definition route (d : bool) (w : tunnel_buf) (s : st) : Prop :=
  match w with
  | upstream_buffer => d = true
  | client_buffer => d = false /\ pending (header_in s) = [] /\ start (from_client s) = true
  | client_header => d = false /\ pending (from_client s) = []
  end.

(** Both directions pass what they receive. *)
Definition moved (s s' : st) : Prop := forall d, passes (waits d) d s s'.

Lemma moved_refl s : moved s s.
Proof. intros d. apply passes_refl. Qed.

Lemma tunnel_moved_trans s1 s2 s3 : moved s1 s2 -> moved s2 s3 -> moved s1 s3.
Proof. intros H1 H2 d. by eapply passes_trans. Qed.

Lemma tunnel_moved_still s s' : still s s' -> moved s s'.
Proof.
  intros H d. apply still_passes; [|done]. intros (E1 & E2 & E3 & _). unfold waits. by rewrite E1, E2, E3.
Qed.

Lemma tunnel_still s s' : still s s' -> tunnel s -> tunnel s'.
Proof. intros (E1 & E2 & E3 & _). unfold tunnel. by rewrite E1, E2, E3. Qed.

(** What the events look at. *)
Definition conduit (s : st) := (connection s, (u_read s, u_write s, r_read s, r_write s), handshaking s, resolving s).

(** The buffers are alone in being changed. *)
Definition tied (s s' : st) : Prop :=
  moved s s' /\ tunnel s' /\ conduit s' = conduit s /\ (clock s <= clock s')%nat.

Lemma tied_trans s1 s2 s3 : tied s1 s2 -> tied s2 s3 -> tied s1 s3.
Proof.
  intros (H1 & H2 & H3 & H4) (H5 & H6 & H7 & H8).
  split; [by eapply tunnel_moved_trans|]. split; [done|]. split; [congruence|lia].
Qed.

Lemma tied_refl s : tunnel s -> tied s s.
Proof. intros H. split; [apply moved_refl|]. by repeat split; try apply H. Qed.

(** A direction sends [n] bytes of its buffer. *)
Lemma sent_tied d w s n : tunnel s -> route d w s -> 0 < n <= Z.of_nat (length (pending (get_buf w s))) ->
  forall s', s' = match w with
    | upstream_buffer => s <| buffer := shrunk (buffer s) n |>
    | client_buffer => s <| from_client := shrunk (from_client s) n |>
    | client_header => s <| header_in := shrunk (header_in s) n |> end ->
  let sent := take (Z.to_nat n) (pending (get_buf w s)) in
  tied s (s' <| log := (if d then Output sent else To_upstream sent) :: log s |>) /\ route d w s'.
Proof.
  intros (F1 & F2 & F3 & F4 & F5) Hr Hn s' -> sent.
  assert (Hsent : pending (get_buf w s) = sent ++ pending (shrunk (get_buf w s) n)).
  { apply pending_shrunk; [by destruct w|lia]. }
  assert (Hfits : fits (shrunk (get_buf w s) n)) by (apply fits_shrunk; [by destruct w|done]).
  clearbody sent. destruct w; cbn [get_buf] in *.
  - cbn in Hr. subst d. split; [|done]. split; [|split; [by split|done]].
    intros []; (eexists [_]; split; [reflexivity|]); unfold bytes_in; cbn; rewrite ?app_nil_r; [by rewrite Hsent|done].
  - destruct Hr as (-> & Hr & Hs). split; [|by cbn -[shrunk]; rewrite start_shrunk]. split; [|split; [|done]].
    + intros []; (eexists [_]; split; [reflexivity|]); unfold bytes_in; cbn; rewrite ?app_nil_r; [done|].
      by rewrite Hr, Hsent.
    + split_and!; try done; left; [done|]. cbn -[shrunk]. by rewrite start_shrunk.
  - destruct Hr as [-> Hr]. split; [|done]. split; [|split; [|done]].
    + intros []; (eexists [_]; split; [reflexivity|]); unfold bytes_in; cbn; rewrite ?app_nil_r; [done|].
      by rewrite Hr, Hsent, !app_nil_r.
    + split_and!; try done. by right.
Qed.

(** A direction receives bytes into its buffer. *)
Lemma received_tied d w s l : tunnel s -> route d w s -> Z.of_nat (length l) <= end_ (get_buf w s) - last (get_buf w s) ->
  forall s', s' = match w with
    | upstream_buffer => s <| buffer := grown (buffer s) l |>
    | client_buffer => s <| from_client := grown (from_client s) l |>
    | client_header => s <| header_in := grown (header_in s) l |> end ->
  tied s (s' <| log := (if d then From_upstream l else From_client l) :: log s |>) /\ route d w s'.
Proof.
  intros (F1 & F2 & F3 & F4 & F5) Hr Hl s' ->.
  assert (Hgot : pending (grown (get_buf w s) l) = pending (get_buf w s) ++ l) by (apply pending_grown; by destruct w).
  assert (Hfits : fits (grown (get_buf w s) l)) by (apply fits_grown; [by destruct w|done]).
  destruct w; cbn [get_buf] in *.
  - cbn in Hr. subst d. split; [|done]. split; [|split; [by split|done]].
    intros []; (eexists [_]; split; [reflexivity|]); unfold bytes_in; cbn -[grown]; rewrite ?app_nil_r; [by rewrite Hgot|done].
  - destruct Hr as (-> & Hr & Hs). split; [|done]. split; [|split; [|done]].
    + intros []; (eexists [_]; split; [reflexivity|]); unfold bytes_in; cbn -[grown]; rewrite ?app_nil_r; [done|].
      by rewrite Hgot, app_assoc.
    + split_and!; try done; by left.
  - destruct Hr as [-> Hr]. split; [|done]. split; [|split; [|done]].
    + intros []; (eexists [_]; split; [reflexivity|]); unfold bytes_in; cbn -[grown]; rewrite ?app_nil_r; [done|].
      by rewrite Hgot, Hr, !app_nil_r.
    + split_and!; try done. by right.
Qed.

(** What the calls on sockets promise. *)
Record sockets_ok {W : World} : Prop := {
  send_some : forall n l k, send n l = Some k -> k <= Z.of_nat (length l);
  recv_some : forall n size l, recv n size = Bytes l -> Z.of_nat (length l) <= size;
}.

(** A question. *)
Lemma tick_tied s : tunnel s -> tied s (s <| clock := S (clock s) |>).
Proof. intros H. split; [apply tunnel_moved_still; stand|]. split; [done|]. split; [done|]. cbn. lia. Qed.

Section Tunnel.
Context {L : Limits} {W : World} (cf : conf) (HS : sockets_ok) (Hsize : 0 <= buffer_size cf).
Context (Hdrained : out \/ drained questions).

(** The state before the next thing that is done. *)
Definition going (d : bool) (w : tunnel_buf) (s0 s : st) : Prop :=
  tied s0 s /\ route d w s /\ is_Some (connection s).

Lemma going_tick d w s0 s : going d w s0 s -> going d w s0 (s <| clock := S (clock s) |>).
Proof.
  intros (H1 & H2 & H3). split; [|split; [by destruct w|done]]. eapply tied_trans; [done|]. apply tick_tied, H1.
Qed.

Lemma wp_asks {A B} (f : nat -> A) (k : A -> M B) Q d w s0 s : going d w s0 s ->
  (forall a s', going d w s0 s' -> wp (k a) Q s') -> wp (bind (ask f) k) Q s.
Proof. intros H Hk. apply wp_then, wp_ask. intros a. by apply Hk, going_tick. Qed.

Lemma wp_there {B} (k : unit -> M B) Q s : is_Some (connection s) -> wp (k tt) Q s -> wp (bind deref_connection k) Q s.
Proof. intros H Hk. apply wp_then. unfold deref_connection. apply wp_then, wp_field_read. by rewrite bool_decide_true. Qed.

Lemma wp_tunnel_send d w Q s0 s : going d w s0 s -> (forall b s', going d w s0 s' -> Q b s') ->
  wp (tunnel_send d w) Q s.
Proof.
  intros H HQ. unfold tunnel_send. apply wp_then, wp_field_read. destruct (_ =? 0); [by apply wp_ret, HQ|].
  apply wp_then. eapply wp_conseq with (P := fun _ s' => going d w s0 s' /\ get_buf w s' = get_buf w s).
  { destruct d; [|apply wp_there; [apply H|]]; apply wp_ask; intros b; (split; [by apply going_tick|by destruct w]). }
  intros ready s1 [H1 E1]. destruct ready; cbn [negb]; [|by apply wp_ret, HQ].
  apply wp_then. unfold ask at 1, wp at 1. pose proof (going_tick _ _ _ _ H1) as H2.
  destruct (send (clock s1) (pending (get_buf w s))) as [n|] eqn:En; [|by apply wp_ret, HQ].
  apply (send_some HS) in En. destruct (Z.ltb_spec 0 n) as [Hn|Hn]; [|by apply wp_ret, HQ].
  set (s2 := s1 <| clock := S (clock s1) |>) in *.
  assert (E2 : get_buf w s2 = get_buf w s) by (rewrite <- E1; by destruct w). rewrite <- E2 in *.
  destruct H2 as (T2 & R2 & C2).
  destruct (sent_tied d w s2 n (proj1 (proj2 T2)) R2 (conj Hn En) _ eq_refl) as [T3 R3].
  apply wp_then. unfold record. apply wp_write. apply wp_then.
  assert (Hgo : forall s', tied s2 s' -> route d w s' -> wp (ret true) Q s').
  { intros s' T R. apply wp_ret, HQ. split; [by eapply tied_trans|]. split; [done|].
    destruct T as (_ & _ & T & _). unfold conduit in T. injection T as -> _. exact C2. }
  destruct w; cbn [on_buf]; unfold on_buffer; apply wp_write; by apply Hgo.
Qed.

Lemma wp_tunnel_loop fuel d w do_write Q s0 s : out \/ ((0 < fuel)%nat /\ (questions < fuel + clock s)%nat) ->
  going d w s0 s -> (forall b s', going d w s0 s' -> Q (Some b) s') -> (forall s', moved s0 s' -> tunnel s' -> over s' = true -> Q None s') ->
  wp (tunnel_loop fuel d w do_write) Q s.
Proof.
  intros Hf H HS1 HN. revert do_write s Hf H. induction fuel as [|fuel IH]; intros do_write s Hf H.
  { destruct Hf as [|[]]; [done|lia]. }
  cbn [tunnel_loop]. apply wp_then.
  eapply wp_conseq with (P := fun _ s' => going d w s0 s' /\ (clock s <= clock s')%nat).
  { destruct do_write; [|by apply wp_ret].
    apply (wp_tunnel_send d w _ s s).
    - split; [apply tied_refl, H|apply H].
    - intros b s' (T & R & C). split; [|apply T]. split; [eapply tied_trans; [apply H|exact T]|done]. }
  intros sent s1 [H1 L1]. destruct sent; cbn [negb].
  2: { apply wp_then. eapply wp_conseq; [apply wp_end_still|]. intros [] s2 [H2 Ho]. apply wp_ret, HN; [|eapply tunnel_still; [exact H2|apply H1]|by apply Ho].
       eapply tunnel_moved_trans; [apply H1|by apply tunnel_moved_still]. }
  apply wp_then, wp_field_read. cbv zeta. apply wp_then.
  eapply wp_conseq with (P := fun _ s' => going d w s0 s' /\ get_buf w s' = get_buf w s1 /\ (clock s1 <= clock s')%nat).
  { destruct (_ =? 0); [by apply wp_ret|]. destruct d; [apply wp_there; [apply H1|]|]; apply wp_ask; intros b;
      (split; [by apply going_tick|split; [by destruct w|cbn; lia]]). }
  intros ready s2 (H2 & E2 & L2). destruct ready; cbn [negb]; [|by apply wp_ret, HS1].
  apply wp_then. unfold ask at 1, wp at 1. pose proof (going_tick _ _ _ _ H2) as H3.
  set (s3 := s2 <| clock := S (clock s2) |>) in *. rewrite <- E2.
  destruct (recv (clock s2) _) as [| |[|c l]] eqn:En; try by apply wp_ret, HS1.
  assert (Hq : out \/ (clock s2 < questions)%nat).
  { destruct Hdrained as [|Hd]; [by left|right]. destruct (decide (questions <= clock s2)%nat) as [Hle|]; [|lia].
    by rewrite Hd in En. }
  apply (recv_some HS) in En. set (bs := c :: l) in *. clearbody bs.
  assert (E3 : get_buf w s3 = get_buf w s2) by by destruct w. rewrite <- E3 in *.
  destruct H3 as (T3 & R3 & C3).
  destruct (received_tied d w s3 bs (proj1 (proj2 T3)) R3 En _ eq_refl) as [T4 R4].
  apply wp_then. unfold record. apply wp_write. apply wp_then.
  assert (Hgo : forall s', tied s3 s' -> route d w s' -> wp (tunnel_loop fuel d w true) Q s').
  { intros s' T R. apply IH.
    - assert (clock s3 <= clock s')%nat by apply T. cbn in H0. destruct Hf as [|Hf]; [by left|].
      destruct Hq as [|Hq]; [by left|right]. lia.
    - split; [by eapply tied_trans|]. split; [done|]. destruct T as (_ & _ & T & _). unfold conduit in T. injection T as -> _. exact C3. }
  destruct w; cbn [on_buf]; unfold on_buffer; apply wp_write; by apply Hgo.
Qed.

(** Whatever the direction. *)
Abbreviation open := (going true upstream_buffer).

Lemma going_open d w s0 s : going d w s0 s -> open s0 s.
Proof. by intros (H1 & H2 & H3). Qed.

Lemma going_start s : tunnel s -> is_Some (connection s) -> open s s.
Proof. intros H1 H2. split; [by apply tied_refl|done]. Qed.

(** Steps that leave the buffers and what the events look at. *)
Lemma open_still s0 s s' : open s0 s -> still s s' -> conduit s' = conduit s -> (clock s <= clock s')%nat -> open s0 s'.
Proof.
  intros (T & R & C) Hs Hc Hl. split; [|split; [done|]].
  - eapply tied_trans; [exact T|]. split; [by apply tunnel_moved_still|]. split; [eapply tunnel_still; [exact Hs|apply T]|done].
  - unfold conduit in Hc. by injection Hc as -> _.
Qed.

(** Where a call leaves the tunnel: open, or the request ended. *)
Definition passed (s0 s : st) : Prop := open s0 s \/ (moved s0 s /\ tunnel s /\ over s = true).

Lemma wp_open_end {A} rc (k : M A) Q s0 s : open s0 s -> rc <> NGX_DECLINED ->
  (forall s', passed s0 s' -> wp k Q s') -> wp (ngx_http_upstream_finalize_request rc ;; k) Q s.
Proof.
  intros (T & _) Hrc Hk. apply wp_then. eapply wp_conseq; [apply wp_end_still|]. intros [] s' [H Ho]. apply Hk. right.
  split; [eapply tunnel_moved_trans; [apply T|by apply tunnel_moved_still]|]. split; [eapply tunnel_still; [exact H|apply T]|by apply Ho].
Qed.

Lemma wp_open_last rc Q s0 s : open s0 s -> rc <> NGX_DECLINED -> (forall s', passed s0 s' -> Q tt s') ->
  wp (ngx_http_upstream_finalize_request rc) Q s.
Proof.
  intros (T & _) Hrc Hk. eapply wp_conseq; [apply wp_end_still|]. intros [] s' [H Ho]. apply Hk. right.
  split; [eapply tunnel_moved_trans; [apply T|by apply tunnel_moved_still]|]. split; [eapply tunnel_still; [exact H|apply T]|by apply Ho].
Qed.

Lemma wp_tunnel_buffer d dw Q s0 s : open s0 s ->
  (forall w dw s', going d w s0 s' -> Q (Some (w, dw)) s') -> (forall s', open s0 s' -> Q None s') ->
  wp (tunnel_buffer cf d dw) Q s.
Proof.
  intros H HS1 HN. unfold tunnel_buffer. destruct d; [by apply wp_ret, HS1|]. apply wp_then, wp_field_read.
  destruct H as (T & R & C). pose proof (proj1 (proj2 T)) as (F1 & F2 & F3 & F4 & F5).
  destruct (Z.ltb_spec (pos (header_in s)) (last (header_in s))) as [Hlt|Hge].
  - apply wp_then. unfold on_buf. apply wp_write. apply wp_ret, HS1.
    assert (Hn : pending (header_in s) <> []).
    { intros E. apply (f_equal length) in E. unfold pending in E. destruct F3 as (? & ? & ?).
      pose proof (length_slice (mem (header_in s)) (pos (header_in s)) (last (header_in s))) as Hl. rewrite E in Hl. cbn in Hl. lia. }
    split; [|split; [|done]].
    + eapply tied_trans; [exact T|]. split; [intros d; exists []; split; [done|]; cbn; rewrite app_nil_r; by destruct d|].
      split; [|done]. split_and!; try done. destruct F3 as (? & ? & ?). unfold fits. cbn. lia.
    + split; [done|]. by destruct F4 as [?|?].
  - assert (Hp : pending (header_in s) = []).
    { destruct F3 as (? & _). unfold pending. replace (last (header_in s)) with (pos (header_in s)) by lia. apply slice_nil. }
    destruct (start (from_client s)) eqn:Es; [by apply wp_ret, HS1|].
    assert (Hc : pending (from_client s) = []) by by destruct F5.
    apply wp_then, wp_ask. intros []; cbn [negb]; [|apply wp_ret, HN; by apply (going_tick true upstream_buffer)].
    apply wp_then. unfold on_buf. apply wp_write. apply wp_ret, HS1. split; [|done].
    eapply tied_trans; [exact T|]. split; [|split; [|split; [done|cbn; lia]]].
    + intros d. exists []. split; [done|]. cbn. rewrite app_nil_r. destruct d; [done|]. cbn. by rewrite Hc.
    + split; [done|]. split; [unfold fits; cbn; lia|]. split; [done|]. split; by left.
Qed.

Lemma wp_tunnel_events Q s0 s : open s0 s -> (forall s', passed s0 s' -> Q tt s') -> wp tunnel_events Q s.
Proof.
  intros H HQ. unfold tunnel_events. apply wp_there; [apply H|].
  apply (wp_asks _ _ _ true upstream_buffer s0); [done|]. intros w s1 H1. destruct w; cbn [negb]; [|by eapply wp_open_last].
  apply (wp_asks _ _ _ true upstream_buffer s0); [done|]. intros waits s2 H2. apply wp_then, wp_write.
  assert (H3 : open s0 (s2 <| write_timer := waits |>)) by (eapply open_still; [exact H2|stand|done|done]).
  apply (wp_asks _ _ _ true upstream_buffer s0); [done|]. intros e s4 H4. destruct e; cbn [negb]; [|by eapply wp_open_last].
  apply wp_then. unfold upstream_read_timer. apply (wp_asks _ _ _ true upstream_buffer s0); [done|]. intros active s5 H5.
  apply wp_write. assert (H6 : open s0 (s5 <| read_timer := active |>)) by (eapply open_still; [exact H5|stand|done|done]).
  apply (wp_asks _ _ _ true upstream_buffer s0); [done|]. intros w s7 H7. destruct w; cbn [negb]; [|by eapply wp_open_last].
  apply (wp_asks _ _ _ true upstream_buffer s0); [done|]. intros e s8 H8. destruct e; cbn [negb]; [|by eapply wp_open_last].
  apply wp_ret, HQ. by left.
Qed.

Lemma wp_process_upgraded fuel d dw Q s : out \/ (questions < fuel)%nat -> tunnel s -> is_Some (connection s) ->
  (forall s', passed s s' -> Q tt s') -> wp (ngx_http_upstream_process_upgraded cf fuel d dw) Q s.
Proof.
  intros Hf Ht Hc HQ. unfold ngx_http_upstream_process_upgraded. pose proof (going_start s Ht Hc) as H.
  apply (wp_asks _ _ _ true upstream_buffer s); [done|]. intros timedout s1 H1. destruct timedout.
  { apply wp_then, wp_write. eapply wp_open_last; [|done|done]. eapply open_still; [exact H1|stand|done|done]. }
  apply wp_there; [apply H1|].
  apply (wp_asks _ _ _ true upstream_buffer s); [done|]. intros rt s2 H2.
  apply (wp_asks _ _ _ true upstream_buffer s); [done|]. intros wt s3 H3.
  destruct (rt || wt); [by eapply wp_open_last|].
  apply wp_then, (wp_tunnel_buffer _ _ _ s); [done| |by intros s4 H4; eapply wp_open_last].
  intros w dw' s4 H4. apply wp_then, (wp_tunnel_loop _ d w _ _ s); [destruct Hf; [by left|right; lia]|done| |].
  2: { intros s5 H5 H6 H7. apply wp_ret, HQ. by right. }
  intros failed s5 H5%going_open. apply wp_there; [apply H5|].
  apply (wp_asks _ _ _ true upstream_buffer s); [done|]. intros ue s6 H6.
  apply (wp_asks _ _ _ true upstream_buffer s); [done|]. intros de s7 H7. cbv zeta. apply wp_then, wp_field_read.
  destruct (_ || _); [by eapply wp_open_last|by eapply wp_tunnel_events].
Qed.

(** *** Events *)

(** The handlers of an upgraded connection. *)
Definition upgraded (s : st) : Prop :=
  u_read s = upgraded_read_upstream_handler /\ u_write s = upgraded_write_upstream_handler
  /\ r_read s = upgraded_read_downstream_handler /\ r_write s = upgraded_write_downstream_handler
  /\ handshaking s = false /\ resolving s = false.

(** The tunnel is open, or the request has been ended. *)
Definition running (s : st) : Prop := tunnel s /\ (over s = true \/ (upgraded s /\ is_Some (connection s))).

Lemma passed_running s0 s : upgraded s0 -> passed s0 s -> moved s0 s /\ running s.
Proof.
  intros Hu [((T1 & T2 & T3 & _) & _ & C)|(H1 & H2 & H3)].
  - split; [done|]. split; [done|]. right. split; [|done]. unfold conduit in T3. injection T3 as E1 E2 E3 E4 E5 E6 E7.
    unfold upgraded. by rewrite E2, E3, E4, E5, E6, E7.
  - split; [done|]. split; [done|]. by left.
Qed.

Lemma wp_upgraded_event attempts fuel e Q s : out \/ (questions < fuel)%nat -> running s ->
  (forall s', moved s s' -> running s' -> Q tt s') -> wp (dispatch cf attempts fuel e) Q s.
Proof.
  intros Hf [Ht H] HQ. unfold dispatch. apply wp_then, wp_field_read. destruct (over s) eqn:Eo.
  { apply wp_ret, HQ; [apply moved_refl|]. split; [done|]. by left. }
  destruct H as [?|[Hu Hc]]; [done|]. assert (Hok : wp ok Q s).
  { apply wp_ret, HQ; [apply moved_refl|]. split; [done|]. by right. }
  assert (Hcall : forall d w, wp (ngx_http_upstream_process_upgraded cf fuel d w) Q s).
  { intros d w. apply wp_process_upgraded; [done..|]. intros s' H'. apply passed_running in H' as []; auto. }
  pose proof Hu as (E1 & E2 & E3 & E4 & E5 & E6). destruct e as [[]|[]|state addrs|].
  - rewrite bool_decide_false by (by intros E; rewrite E in Hc; destruct Hc). rewrite E5, E2. apply Hcall.
  - rewrite bool_decide_false by (by intros E; rewrite E in Hc; destruct Hc). rewrite E5, E1. apply Hcall.
  - rewrite E4. apply Hcall.
  - rewrite E3. apply Hcall.
  - by rewrite E6.
  - destruct (cleanup s); [|done]. eapply wp_open_last; [by apply going_start|done|]. intros s' H'.
    apply passed_running in H' as []; auto.
Qed.

Lemma wp_upgraded_run attempts fuel es Q s : out \/ (questions < fuel)%nat -> running s ->
  (forall s', moved s s' -> running s' -> Q tt s') -> wp (run cf attempts fuel es) Q s.
Proof.
  intros Hf. revert s Q. induction es as [|e es IH]; intros s Q H HQ; cbn [run]; [by apply wp_ret, HQ; [apply moved_refl|]|].
  apply wp_then, wp_upgraded_event; [done..|]. intros s1 M1 R1. apply IH; [done|]. intros s2 M2 R2.
  apply HQ; [by eapply tunnel_moved_trans|done].
Qed.
End Tunnel.

(** C10: Once a connection has been upgraded, whatever events follow and whatever
    the sockets do, the handlers return, and in each direction the bytes sent and
    those still in the buffers are those that were in the buffers and those
    received since, in order: none is lost, repeated or written outside of a
    buffer, including those that the client sent with its request. *)
Theorem tunnel_in_order `{World} (cf : conf) (attempts fuel q : nat) (es : list event) (s : st) :
  sockets_ok -> 0 <= buffer_size cf -> drained q -> (q < fuel)%nat ->
  upgraded s -> is_Some (connection s) -> tunnel s ->
  exists s', run cf attempts fuel es s = Done tt s' /\ tunnel s'
    /\ forall d, exists new, log s' = new ++ log s
        /\ bytes_in (gives d) new ++ waits d s' = waits d s ++ bytes_in (takes_in d) new.
Proof.
  intros HS Hsize Hd Hf Hu Hc Ht.
  assert (Hall : @wp {| out := False; questions := q; level := 0 |} _ (run cf attempts fuel es)
    (fun _ s' => moved s s' /\ running s') s).
  { apply wp_upgraded_run; [done|done|by right|by right| |done]. split; [done|]. by right. }
  unfold wp in Hall. destruct (run _ _ _ _ s) as [[] s'| |]; [|done..]. destruct Hall as [Hm [Ht' _]].
  by exists s'.
Qed.

(** *** An example *)

Import UpstreamProps.UpstreamProps.

(** An open tunnel, to which the client sent "ping" with its request. *)
Definition ex_tunnel : st :=
  ex_request <| peer := RoundRobin.Upstream None (RoundRobin.PC None [] 0 false (Some 7)) round_robin_sessions |>
    <| u_read := upgraded_read_upstream_handler |> <| u_write := upgraded_write_upstream_handler |>
    <| r_read := upgraded_read_downstream_handler |> <| r_write := upgraded_write_downstream_handler |>
    <| buffer := Buf true (bytes_of "welcome") 0 7 64 |> <| header_in := Buf true (bytes_of "ping") 0 4 64 |>.

Lemma ex_sockets up upgrades cached answer : @sockets_ok (ex_world up upgrades cached answer).
Proof.
  split.
  - intros n l k [= <-]. done.
  - intros n size l. cbn [recv ex_world ex_fields]. destruct (_ || (size <? 5)) eqn:E; [done|]. intros [= <-].
    apply orb_false_iff in E as [_ E]. apply Z.ltb_ge in E. cbn. lia.
Qed.

Lemma tunnel_in_order_witness : exists s',
  @run (ex_world 0 true NGX_DECLINED ex_answer) (ex_conf 0 0) 5 100 [Client_event false; Upstream_event false] ex_tunnel = Done tt s'
  /\ tunnel s'
  /\ forall d, exists new, log s' = new ++ log ex_tunnel
      /\ bytes_in (gives d) new ++ waits d s' = waits d ex_tunnel ++ bytes_in (takes_in d) new.
Proof.
  apply (@tunnel_in_order (ex_world 0 true NGX_DECLINED ex_answer) _ 5 100 80).
  - apply ex_sockets.
  - done.
  - intros k size Hk. cbn [recv ex_world ex_fields]. by rewrite (proj2 (Nat.leb_le 80 k)).
  - lia.
  - by repeat split.
  - by eexists.
  - repeat split; cbn; try lia; by right.
Defined.

End UpstreamBytes.
