(* ===== verification/HostName.v ===== *)
(** * Host names and virtual servers

    From [ngx_http_request.c]: [ngx_http_validate_host], which cleans the name of
    a host that a client sent, and the choice of a virtual server by that name, for
    the name of a TLS handshake and for a request.  The hash of server names, the
    regular expressions and TLS are parameters.  The server is built with TLS,
    with server names in TLS and with PCRE. *)

From S2P Require Import Prelude.

Module HostName.

(** ** [ngx_http_validate_host] *)

Inductive sw := sw_usual | sw_literal | sw_rest.

#[export] Instance sw_eq_dec : EqDecision sw.
Proof. solve_decision. Defined.

(** The locals of the loop. *)
Record locals := Locals { state : sw; dot_pos : Z; host_len : Z; alloc : bool }.

Definition eta_locals (s : locals) : locals := Locals (state s) (dot_pos s) (host_len s) (alloc s).
#[export] Instance set_state : Setter state := ltac:(derive_setter eta_locals state).
#[export] Instance set_dot_pos : Setter dot_pos := ltac:(derive_setter eta_locals dot_pos).
#[export] Instance set_host_len : Setter host_len := ltac:(derive_setter eta_locals host_len).
#[export] Instance set_alloc : Setter alloc := ltac:(derive_setter eta_locals alloc).

(** What is called outside of the source.  A server is the place of its
    [ngx_http_core_srv_conf_t] in the configuration, a regular expression its
    place in the list of those of the server names. *)
Class HostCore := {
  ngx_path_separator : Z -> bool;
  ngx_pnalloc : Z -> bool;   (** whether so many bytes are there *)
  ngx_strlow : list Z -> list Z;
  ngx_hash_key : list Z -> Z;
  (** [ngx_hash_find_combined]: the value of a key in a hash, by the hash of the key *)
  ngx_hash_find_combined : list (list Z * nat) -> Z -> list Z -> option nat;
  (** [ngx_regex_exec]: 0 or more for a match, [NGX_REGEX_NO_MATCHED] or an error *)
  ngx_regex_exec : nat -> list Z -> Z;
  NGX_REGEX_NO_MATCHED : Z;
  (** [ngx_http_regex_exec] of the request *)
  ngx_http_regex_exec : nat -> list Z -> ngx_rc;
}.

(** [hc->addr_conf]: the names of the servers that listen on an address. *)
Record ngx_http_virtual_names_t := Names { names : list (list Z * nat); regex : list (nat * nat) }.
Record ngx_http_addr_conf_t := Addr_conf { default_server : nat; virtual_names : option ngx_http_virtual_names_t }.

Section Host.
Context {C : HostCore}.

(** One turn of the loop, on the byte [ch] at [i]; [None] is the return of
    [NGX_DECLINED]. *)
Definition validate_byte (i ch : Z) (s : locals) : option locals :=
  if ch =? "."%c then
    if dot_pos s =? wrap 64 (i - 1) then None else Some (s <| dot_pos := i |>)
  else if ch =? ":"%c then
    Some (if bool_decide (state s = sw_usual) then s <| host_len := i |> <| state := sw_rest |> else s)
  else if ch =? "["%c then
    Some (if i =? 0 then s <| state := sw_literal |> else s)
  else if ch =? "]"%c then
    Some (if bool_decide (state s = sw_literal) then s <| host_len := i + 1 |> <| state := sw_rest |> else s)
  else if ch =? NUL then None
  else if ngx_path_separator ch then None
  else Some (if is_upper ch then s <| alloc := true |> else s).

Fixpoint validate_loop (i : Z) (h : list Z) (s : locals) : option locals :=
  match h with
  | [] => Some s
  | ch :: h =>
      match validate_byte i ch s with
      | Some s => validate_loop (i + 1) h s
      | None => None
      end
  end.

(** The code, and [*host] after the call. *)
Definition ngx_http_validate_host (host : list Z) (alloc : bool) : ngx_rc * list Z :=
  let len := Z.of_nat (length host) in
  match validate_loop 0 host (Locals sw_usual len len alloc) with
  | None => (NGX_DECLINED, host)
  | Some s =>
      let n := if dot_pos s =? wrap 64 (host_len s - 1) then host_len s - 1 else host_len s in
      if n =? 0 then (NGX_DECLINED, host)
      else
        let name := take (Z.to_nat n) host in
        if HostName.alloc s then
          if ngx_pnalloc n then (NGX_OK, ngx_strlow name) else (NGX_ERROR, host)
        else (NGX_OK, name)
  end.

(** ** [ngx_http_find_virtual_server] *)

(** What is found: the server and, for a handshake, [hc->ssl_servername_regex]. *)
Inductive found :=
| Found (cscf : nat) (servername_regex : option nat)
| Not_found   (** [NGX_DECLINED] *)
| Failed.     (** [NGX_ERROR] *)

(** The loop with a request. *)
Fixpoint find_regex (l : list (nat * nat)) (host : list Z) : found :=
  match l with
  | [] => Not_found
  | (re, server) :: l =>
      match ngx_http_regex_exec re host with
      | NGX_DECLINED => find_regex l host
      | NGX_OK => Found server None
      | _ => Failed
      end
  end.

(** The loop without one. *)
Fixpoint find_servername_regex (l : list (nat * nat)) (host : list Z) : found :=
  match l with
  | [] => Not_found
  | (re, server) :: l =>
      let n := ngx_regex_exec re host in
      if n =? NGX_REGEX_NO_MATCHED then find_servername_regex l host
      else if 0 <=? n then Found server (Some re)
      else Failed
  end.

(** [r] tells whether there is a request. *)
Definition ngx_http_find_virtual_server (vn : option ngx_http_virtual_names_t) (host : list Z) (r : bool) : found :=
  match vn with
  | None => Not_found
  | Some vn =>
      match ngx_hash_find_combined (names vn) (ngx_hash_key host) host with
      | Some cscf => Found cscf None
      | None =>
          if bool_decide (host <> []) && bool_decide (regex vn <> []) then
            if r then find_regex (regex vn) host else find_servername_regex (regex vn) host
          else Not_found
      end
  end.

(** ** The server of a connection and of a request *)

(** The fields of [ngx_http_connection_t] about servers. *)
Record http_connection := Connection {
  addr_conf : ngx_http_addr_conf_t;
  conf_ctx : nat;
  ssl_servername : option (list Z);
  ssl_servername_regex : option nat;
}.

(** [ngx_http_ssl_servername], with the name that [SSL_get_servername] gives;
    [None] is [SSL_TLSEXT_ERR_NOACK], after which the connection goes on with what
    it has (a regular expression that was stored is not used without a name).  The
    contexts of TLS are left out. *)
Definition ngx_http_ssl_servername (servername : option (list Z)) (hc : http_connection) : option http_connection :=
  match servername with
  | None | Some [] => None
  | Some host =>
      match ngx_http_validate_host host true with
      | (NGX_OK, host) =>
          match ngx_http_find_virtual_server (virtual_names (addr_conf hc)) host false with
          | Found cscf re =>
              let re := match re with Some _ => re | None => ssl_servername_regex hc end in
              if ngx_pnalloc 16 then Some (Connection (addr_conf hc) cscf (Some host) re) else None
          | _ => None
          end
      | _ => None
      end
  end.

(** How [ngx_http_set_virtual_server] ends: the server of the request from now
    on, or the end of the request. *)
Inductive virtual_server :=
| Server (srv : nat)
| Server_closed      (** [ngx_http_close_request(r, 500)] *)
| Server_refused.    (** [ngx_http_finalize_request(r, 400)] *)

(** [verify] is [sscf->verify] of a server, [srv] the server so far. *)
Definition ngx_http_set_virtual_server (verify : nat -> bool) (hc : http_connection) (srv : nat) (host : list Z)
    : virtual_server :=
  let search :=
    match ngx_http_find_virtual_server (virtual_names (addr_conf hc)) host true with
    | Failed => Server_closed
    | (Found _ _ | Not_found) as f =>
        let f := match f, ssl_servername hc with
                 | Not_found, Some _ => Found (default_server (addr_conf hc)) None
                 | _, _ => f
                 end in
        match f, ssl_servername hc with
        | Found cscf _, Some _ => if verify cscf then Server_refused else Server cscf
        | Found cscf _, None => Server cscf
        | _, _ => Server srv
        end
    end in
  match ssl_servername hc with
  | Some name =>
      if bool_decide (name = host) then
        match ssl_servername_regex hc with
        | Some re => if bool_decide (ngx_http_regex_exec re name = NGX_OK) then Server srv else Server_closed
        | None => Server srv
        end
      else search
  | None => search
  end.
End Host.

End HostName.
