(* ===== verification/HostNameProps.v ===== *)
(** * What a host name is cleaned to

    [ngx_http_validate_host] against a definition of the name of a host that does
    not go byte by byte, and what follows for the choice of a server: the
    spellings of a name (its case, a port, a dot at its end) do not matter. *)

From stdpp Require Import sets.
From S2P Require Import Prelude HostName.

Module HostNameProps.
Import HostName.

Abbreviation last := list.last.

(** ** Where a byte is first found *)

Fixpoint index_of (c : Z) (l : list Z) : option nat :=
  match l with
  | [] => None
  | d :: l => if d =? c then Some O else S <$> index_of c l
  end.

Lemma index_of_app c l l' : index_of c (l ++ l')
  = match index_of c l with Some i => Some i | None => (fun i => length l + i)%nat <$> index_of c l' end.
Proof.
  induction l as [|d l IH]; simpl; [by destruct (index_of c l')|].
  destruct (d =? c); [done|]. rewrite IH. destruct (index_of c l); [done|]. by destruct (index_of c l').
Qed.

Lemma index_of_None c l : index_of c l = None <-> c ∉ l.
Proof.
  induction l as [|d l IH]; simpl; [by split; [intros _ ?%elem_of_nil|]|].
  rewrite not_elem_of_cons, <- IH. destruct (Z.eqb_spec d c) as [->|H]; [by split; [|intros []]|].
  destruct (index_of c l); simpl; [by split; [|intros []]|]. split; [by split|done].
Qed.

Lemma index_of_lt c l i : index_of c l = Some i -> (i < length l)%nat.
Proof.
  revert i; induction l as [|d l IH]; intros i; simpl; [done|].
  destruct (d =? c); [intros [= <-]; lia|]. destruct (index_of c l); [|done]. intros [= <-]. specialize (IH _ eq_refl). lia.
Qed.

(** ** The name of a host *)

Section Names.
Context {C : HostCore}.

(** A byte that no host may have. *)
Definition refused (c : Z) : bool :=
  negb ((c =? "."%c) || (c =? ":"%c) || (c =? "["%c) || (c =? "]"%c)) && ((c =? NUL) || ngx_path_separator c).

Fixpoint two_dots (h : list Z) : bool :=
  match h with
  | c :: (d :: _) as t => (c =? "."%c) && (d =? "."%c) || two_dots t
  | _ => false
  end.

(** The end of the name: after the bracket of an address, or before the port. *)
Definition name_end (h : list Z) : nat :=
  if bool_decide (head h = Some "["%c)
  then from_option S (length h) (index_of "]"%c h)
  else default (length h) (index_of ":"%c h).

(** Whether the last dot of [h] is the byte before [e]. *)
Definition dot_before (e : nat) (h : list Z) : bool :=
  match e with
  | O => false
  | S e => match drop e h with
           | c :: t => (c =? "."%c) && bool_decide (index_of "."%c t = None)
           | [] => false
           end
  end.

Definition host_name (h : list Z) : option (list Z) :=
  if existsb refused h || two_dots h then None
  else
    let e := name_end h in
    let e := if dot_before e h then Nat.pred e else e in
    if bool_decide (e = 0%nat) then None else Some (map tolower (take e h)).

(** ** The loop *)

Context (len : Z) (alloc0 : bool).

Definition dot_known (pre : list Z) (d : Z) : Prop :=
  (index_of "."%c pre = None /\ d = len)
  \/ exists p1 p2, pre = p1 ++ "."%c :: p2 /\ index_of "."%c p2 = None /\ d = Z.of_nat (length p1).

Definition end_known (pre : list Z) (st : sw) (n : Z) : Prop :=
  match st with
  | sw_usual => head pre <> Some "["%c /\ index_of ":"%c pre = None /\ n = len
  | sw_literal => head pre = Some "["%c /\ index_of "]"%c pre = None /\ n = len
  | sw_rest => exists i, n = Z.of_nat i
      /\ (head pre <> Some "["%c /\ index_of ":"%c pre = Some i
          \/ head pre = Some "["%c /\ S <$> index_of "]"%c pre = Some i)
  end.

Record known (pre : list Z) (s : locals) : Prop := {
  k_alloc : alloc s = alloc0 || existsb is_upper pre;
  k_bytes : existsb refused pre = false;
  k_dots : two_dots pre = false;
  k_dot : dot_known pre (dot_pos s);
  k_end : end_known pre (state s) (host_len s);
}.

Lemma two_dots_app pre ch : two_dots (pre ++ [ch]) = two_dots pre || (bool_decide (last pre = Some "."%c) && (ch =? "."%c)).
Proof.
  induction pre as [|c pre IH]; [done|]. destruct pre as [|d pre].
  - cbn [app two_dots last]. rewrite orb_false_r. destruct (Z.eqb_spec c "."%c) as [->|H]; [done|].
    by rewrite bool_decide_eq_false_2 by congruence.
  - change (two_dots ((c :: d :: pre) ++ [ch])) with ((c =? "."%c) && (d =? "."%c) || two_dots ((d :: pre) ++ [ch])).
    rewrite IH. change (last (c :: d :: pre)) with (last (d :: pre)).
    change (two_dots (c :: d :: pre)) with ((c =? "."%c) && (d =? "."%c) || two_dots (d :: pre)). by rewrite orb_assoc.
Qed.

Lemma two_dots_mono pre post : two_dots pre = true -> two_dots (pre ++ post) = true.
Proof.
  induction post as [|c post IH] using rev_ind; [by rewrite app_nil_r|]. intros H.
  rewrite app_assoc, two_dots_app, IH by done. done.
Qed.

(** The position of the last dot tells whether the byte before is one. *)
Lemma dot_last pre d : dot_known pre d -> Z.of_nat (length pre) < len -> len < 2 ^ 63 ->
  (d =? wrap 64 (Z.of_nat (length pre) - 1)) = bool_decide (last pre = Some "."%c).
Proof.
  intros Hd Hl Hw.
  assert (Hpre : pre = [] \/ wrap 64 (Z.of_nat (length pre) - 1) = Z.of_nat (length pre) - 1).
  { destruct pre; [by left|right]. apply wrap_small. simpl in *. lia. }
  destruct Hd as [[Hn ->]|(p1 & p2 & -> & Hn & ->)].
  - rewrite bool_decide_eq_false_2.
    + apply Z.eqb_neq. destruct Hpre as [-> | ->]; [|lia]. change (wrap 64 (Z.of_nat (length []) - 1)) with (2 ^ 64 - 1). simpl in *. lia.
    + intros Hc. apply index_of_None in Hn. apply last_Some in Hc as [l' ->]. clear -Hn. set_solver.
  - destruct Hpre as [?|Hw']; [by destruct p1|]. rewrite Hw', length_app. cbn [length].
    destruct p2 as [|c p2].
    + rewrite bool_decide_eq_true_2 by (by rewrite last_snoc). apply Z.eqb_eq. simpl. lia.
    + rewrite bool_decide_eq_false_2; [apply Z.eqb_neq; simpl; lia|].
      rewrite last_app. intros Hc. apply index_of_None in Hn. apply Hn.
      change (last ("."%c :: c :: p2)) with (last (c :: p2)) in Hc.
      destruct (last (c :: p2)) eqn:E; [|by apply last_None in E]. injection Hc as ->.
      apply last_Some in E as [l' ->]. set_solver.
Qed.

Lemma end_known_app pre ch st n : pre <> [] -> end_known pre st n ->
  (st = sw_usual -> ch <> ":"%c) -> (st = sw_literal -> ch <> "]"%c) -> end_known (pre ++ [ch]) st n.
Proof.
  intros Hp H Hu Hl. assert (Hh : head (pre ++ [ch]) = head pre) by by destruct pre.
  destruct st; cbn [end_known] in *; rewrite Hh, index_of_app.
  - destruct H as (H1 & H2 & H3). rewrite H2. split_and!; [done| |done]. cbn.
    by rewrite (proj2 (Z.eqb_neq _ _)) by auto.
  - destruct H as (H1 & H2 & H3). rewrite H2. split_and!; [done| |done]. cbn.
    by rewrite (proj2 (Z.eqb_neq _ _)) by auto.
  - destruct H as (i & -> & [[H1 H2]|[H1 H2]]); exists i; (split; [done|]).
    + left. by rewrite H2.
    + right. destruct (index_of _ pre) eqn:E; [|done]. by rewrite index_of_app, E.
Qed.

(** What a byte that is let through adds. *)
Lemma known_more pre ch s s' : known pre s ->
  alloc s' = alloc s || is_upper ch -> refused ch = false -> (ch = "."%c -> last pre <> Some "."%c) ->
  dot_pos s' = (if ch =? "."%c then Z.of_nat (length pre) else dot_pos s) ->
  end_known (pre ++ [ch]) (state s') (host_len s') -> known (pre ++ [ch]) s'.
Proof.
  intros [K1 K2 K3 K4 K5] Ha Hr Hd Hp He. split.
  - rewrite Ha, K1, existsb_app. cbn [existsb]. by rewrite orb_false_r, orb_assoc.
  - rewrite existsb_app, K2. cbn [existsb]. by rewrite Hr.
  - rewrite two_dots_app, K3. destruct (Z.eqb_spec ch "."%c) as [E|]; [|by rewrite andb_false_r].
    by rewrite bool_decide_eq_false_2 by auto.
  - rewrite Hp. destruct (Z.eqb_spec ch "."%c) as [->|Hn].
    + right. by exists pre, [].
    + destruct K4 as [[Hi ->]|(p1 & p2 & -> & Hi & ->)].
      * left. split; [|done]. rewrite index_of_app, Hi. cbn. by rewrite (proj2 (Z.eqb_neq _ _)) by done.
      * right. exists p1, (p2 ++ [ch]). split; [by rewrite <- app_assoc|]. split; [|done].
        rewrite index_of_app, Hi. cbn. by rewrite (proj2 (Z.eqb_neq _ _)) by done.
  - done.
Qed.

Lemma end_known_nil st n : end_known [] st n -> st = sw_usual /\ n = len.
Proof. destruct st; cbn; [by intros (_ & _ & ->)|by intros []|by intros (? & _ & [[]|[]])]. Qed.

Lemma end_known_first ch : (ch =? ":"%c) = false -> (ch =? "["%c) = false -> end_known [ch] sw_usual len.
Proof. intros H1 H2. cbn. rewrite H1. split_and!; [|done|done]. intros [= ->]. by rewrite Z.eqb_refl in H2. Qed.

Lemma known_byte pre ch s : known pre s -> Z.of_nat (length pre) < len -> len < 2 ^ 63 ->
  match validate_byte (Z.of_nat (length pre)) ch s with
  | Some s' => known (pre ++ [ch]) s'
  | None => refused ch || (bool_decide (last pre = Some "."%c) && (ch =? "."%c)) = true
  end.
Proof.
  intros K Hl Hw. pose proof K as [_ _ _ K4 K5]. unfold validate_byte. rewrite (dot_last pre) by done.
  assert (Hgo : forall s', end_known (pre ++ [ch]) (state s') (host_len s') ->
    (ch =? ":"%c) || (ch =? "["%c) || (ch =? "]"%c) = true -> alloc s' = alloc s -> dot_pos s' = dot_pos s ->
    known (pre ++ [ch]) s').
  { intros s' He Hc Ha Hd. apply (known_more pre ch s s' K); try done.
    - rewrite Ha. unfold is_upper. rewrite !orb_true_iff, !Z.eqb_eq in Hc. 
      destruct Hc as [[-> | ->] | ->]; by rewrite orb_false_r.
    - unfold refused. rewrite !orb_true_iff, !Z.eqb_eq in Hc. by destruct Hc as [[-> | ->] | ->].
    - intros ->. done.
    - destruct (Z.eqb_spec ch "."%c) as [->|]; done. }
  destruct (ch =? "."%c) eqn:Edot.
  { apply Z.eqb_eq in Edot as ->. case_bool_decide as Hlast.
    - done.
    - apply (known_more pre "."%c s _ K); try done; [by rewrite orb_false_r|]. cbn [state host_len set_dot_pos set_field].
      destruct pre as [|c pre]; [|by apply end_known_app].
      apply end_known_nil in K5 as [-> ->]. by apply end_known_first. }
  destruct (ch =? ":"%c) eqn:Ecolon.
  { apply Z.eqb_eq in Ecolon as ->. case_bool_decide as Hst; apply Hgo; try done.
    - cbn. exists (length pre). split; [done|]. rewrite Hst in K5. destruct K5 as (H1 & H2 & _). left.
      rewrite index_of_app, H2. cbn. rewrite Nat.add_0_r. split; [by destruct pre|done].
    - destruct pre as [|c pre]; [by apply end_known_nil in K5 as [? _]|]. by apply end_known_app. }
  destruct (ch =? "["%c) eqn:Eopen.
  { apply Z.eqb_eq in Eopen as ->. destruct pre as [|c pre].
    - apply end_known_nil in K5 as [Hst Hn]. apply Hgo; [|done..]. destruct s; cbn in *; by subst.
    - apply Hgo; try done. by apply end_known_app. }
  destruct (ch =? "]"%c) eqn:Eclose.
  { apply Z.eqb_eq in Eclose as ->. case_bool_decide as Hst; apply Hgo; try done.
    - cbn. rewrite Hst in K5. destruct K5 as (H1 & H2 & _). exists (S (length pre)). split; [lia|]. right.
      rewrite index_of_app, H2. cbn. rewrite Nat.add_0_r. split; [by destruct pre|done].
    - destruct pre as [|c pre]; [|by apply end_known_app].
      apply end_known_nil in K5 as [-> ->]. by apply end_known_first. }
  assert (Href : refused ch = (ch =? NUL) || ngx_path_separator ch) by (unfold refused; by rewrite Edot, Ecolon, Eopen, Eclose).
  destruct (ch =? NUL) eqn:Enul; [by rewrite Href|]. destruct (ngx_path_separator ch) eqn:Esep; [by rewrite Href|].
  apply (known_more pre ch s _ K); [by destruct (is_upper ch); rewrite ?orb_true_r, ?orb_false_r| |intros ->; done| |].
  - by rewrite Href.
  - rewrite Edot. by destruct (is_upper ch).
  - replace (state (if is_upper ch then _ else s)) with (state s) by by destruct (is_upper ch).
    replace (host_len (if is_upper ch then _ else s)) with (host_len s) by by destruct (is_upper ch).
    destruct pre as [|c pre].
    + apply end_known_nil in K5 as [-> ->]. by apply end_known_first.
    + apply end_known_app; try done; intros _ ->; done.
Qed.

Lemma known_start : known [] (Locals sw_usual len len alloc0).
Proof. split; cbn; [by rewrite orb_false_r|done|done|by left|done]. Qed.

Lemma known_loop post : forall pre s, known pre s -> Z.of_nat (length (pre ++ post)) = len -> len < 2 ^ 63 ->
  match validate_loop (Z.of_nat (length pre)) post s with
  | Some s' => known (pre ++ post) s'
  | None => existsb refused (pre ++ post) || two_dots (pre ++ post) = true
  end.
Proof.
  induction post as [|ch post IH]; intros pre s K Hl Hw; [by rewrite app_nil_r|]. cbn [validate_loop].
  pose proof (known_byte pre ch s K) as H. rewrite length_app in Hl. cbn [length] in Hl. specialize (H ltac:(lia) Hw).
  rewrite (cons_middle ch pre post). rewrite app_assoc.
  destruct (validate_byte _ ch s) as [s'|].
  - replace (Z.of_nat (length pre) + 1) with (Z.of_nat (length (pre ++ [ch]))) by (rewrite length_app; cbn; lia).
    apply IH; [done| |done]. rewrite !length_app. cbn. lia.
  - destruct K as [_ K2 K3 _ _]. rewrite existsb_app. apply orb_true_iff in H as [H|H].
    + rewrite existsb_app. cbn. by rewrite H, orb_true_r.
    + rewrite two_dots_mono; [by rewrite orb_true_r|]. by rewrite two_dots_app, H, orb_true_r.
Qed.

Lemma end_known_name h st n : Z.of_nat (length h) = len -> end_known h st n -> Z.of_nat (name_end h) = n /\ n <= len.
Proof.
  intros Hl He. unfold name_end. destruct st; cbn in He.
  - destruct He as (H1 & H2 & ->). rewrite bool_decide_eq_false_2, H2 by done. cbn. lia.
  - destruct He as (H1 & H2 & ->). rewrite bool_decide_eq_true_2, H2 by done. cbn. lia.
  - destruct He as (i & -> & [[H1 H2]|[H1 H2]]).
    + rewrite bool_decide_eq_false_2, H2 by done. apply index_of_lt in H2. cbn. lia.
    + rewrite bool_decide_eq_true_2 by done. destruct (index_of _ h) eqn:E; [|done]. injection H2 as <-.
      apply index_of_lt in E. cbn. lia.
Qed.

Lemma dot_known_before h e d : Z.of_nat (length h) = len -> len < 2 ^ 63 -> (e <= length h)%nat -> dot_known h d ->
  (d =? wrap 64 (Z.of_nat e - 1)) = dot_before e h.
Proof.
  intros Hl Hw He Hd.
  assert (Hdl : 0 <= d <= len).
  { destruct Hd as [[_ ->]|(p1 & p2 & -> & _ & ->)]; [lia|]. rewrite length_app in Hl. lia. }
  destruct e as [|e]; cbn [dot_before].
  { apply Z.eqb_neq. change (wrap 64 (Z.of_nat 0 - 1)) with (2 ^ 64 - 1). lia. }
  rewrite wrap_small by lia. destruct (drop e h) as [|c t] eqn:Ed.
  { apply (f_equal length) in Ed. rewrite length_drop in Ed. simpl in Ed. lia. }
  assert (Hh : h = take e h ++ c :: t) by (by rewrite <- Ed, take_drop).
  assert (Hle : length (take e h) = e) by (rewrite length_take; lia).
  destruct Hd as [[Hn ->]|(p1 & p2 & Hp & Hn & ->)].
  - rewrite Hh, index_of_app in Hn. destruct (index_of _ (take e h)); [done|]. cbn in Hn.
    destruct (c =? "."%c); [done|]. cbn. apply Z.eqb_neq. lia.
  - destruct (Z.eqb_spec (Z.of_nat (length p1)) (Z.of_nat (S e) - 1)) as [E|E].
    + assert (length p1 = e) by lia. rewrite Hh in Hp. apply app_inj_1 in Hp as [_ [= -> ->]]; [|lia].
      rewrite Hn. done.
    + symmetry. apply andb_false_iff. destruct (decide (length p1 < e)%nat).
      * left. apply Z.eqb_neq. intros ->.
        assert (Hc : h !! e = Some "."%c) by (rewrite Hh, lookup_app_r by lia; by rewrite Hle, Nat.sub_diag).
        rewrite Hp, lookup_app_r in Hc by lia. destruct (e - length p1)%nat eqn:Ee; [lia|]. cbn in Hc.
        apply list_elem_of_lookup_2 in Hc. by apply index_of_None in Hn.
      * right. apply bool_decide_eq_false. intros Ht. apply index_of_None in Ht. apply Ht.
        assert (Hc : h !! length p1 = Some "."%c) by (rewrite Hp, lookup_app_r by lia; by rewrite Nat.sub_diag).
        rewrite Hh, lookup_app_r, Hle in Hc by lia. destruct (length p1 - e)%nat eqn:Ee; [lia|]. cbn in Hc.
        by apply list_elem_of_lookup_2 in Hc.
Qed.
End Names.

Lemma no_upper l : existsb is_upper l = false -> map tolower l = l.
Proof.
  induction l as [|c l IH]; [done|]. cbn [existsb map]. intros [H1 H2]%orb_false_iff. rewrite IH by done. unfold tolower. by rewrite H1.
Qed.

Section Props.
Context {C : HostCore} (ngx_strlow_spec : forall l, ngx_strlow l = map tolower l).

Lemma validate_host_spec (h : list Z) (alloc : bool) :
  Z.of_nat (length h) < 2 ^ 63 ->
  ngx_http_validate_host h alloc =
    match host_name h with
    | None => (NGX_DECLINED, h)
    | Some n =>
        if (alloc || existsb is_upper h) && negb (ngx_pnalloc (Z.of_nat (length n)))
        then (NGX_ERROR, h) else (NGX_OK, n)
    end.
Proof using ngx_strlow_spec.
  intros Hl. unfold ngx_http_validate_host, host_name.
  pose proof (known_loop (Z.of_nat (length h)) alloc h [] (Locals sw_usual (Z.of_nat (length h)) (Z.of_nat (length h)) alloc)) as H.
  cbn [app length] in H. change (Z.of_nat 0) with 0 in H. specialize (H (known_start _ _) eq_refl Hl).
  destruct (validate_loop _ _ _) as [s|]; [|by rewrite H].
  destruct H as [K1 K2 K3 K4 K5].
  rewrite K2, K3. cbn [orb]. destruct (end_known_name _ _ _ _ eq_refl K5) as [<- He].
  rewrite (dot_known_before (Z.of_nat (length h)) h) by (done || lia).
  set (e := if dot_before (name_end h) h then Nat.pred (name_end h) else name_end h).
  assert (Hn : (if dot_before (name_end h) h then Z.of_nat (name_end h) - 1 else Z.of_nat (name_end h)) = Z.of_nat e).
  { unfold e. destruct (dot_before _ _) eqn:E; [|done]. destruct (name_end h); [done|]. simpl. lia. }
  assert (Hle : (e <= length h)%nat) by (unfold e; destruct (dot_before _ _); lia).
  rewrite Hn. destruct (decide (e = 0%nat)) as [E|Hz]; [by rewrite E|].
  rewrite (proj2 (Z.eqb_neq _ _)), bool_decide_eq_false_2 by lia. rewrite Nat2Z.id, K1.
  rewrite length_map, length_take, Nat.min_l by done.
  destruct (alloc || existsb is_upper h) eqn:Ea; cbn [andb].
  - rewrite ngx_strlow_spec. by destruct (ngx_pnalloc _).
  - rewrite no_upper; [done|]. apply orb_false_iff in Ea as [_ Ea].
    rewrite <- (take_drop e h), existsb_app in Ea. by apply orb_false_iff in Ea as [? _].
Qed.

(** A name that is accepted is not empty. *)
Lemma validated (h : list Z) (alloc : bool) n :
  Z.of_nat (length h) < 2 ^ 63 -> ngx_http_validate_host h alloc = (NGX_OK, n) -> n <> [].
Proof using ngx_strlow_spec.
  intros Hl. rewrite validate_host_spec by done. unfold host_name. destruct (_ || two_dots h); [done|].
  destruct h as [|c h]; [done|]. destruct (if dot_before _ _ then _ else _); [done|].
  rewrite bool_decide_eq_false_2 by done. by destruct (_ && _); intros [= <-].
Qed.

(** C16: [ngx_http_validate_host] computes [host_name]: a host with a NUL, a path
    separator or two dots in a row is refused, and one without a name; of any other the
    name is what comes before the port, or an address with its brackets, in lower case.
    A dot at the end of the name is dropped only when it is the last dot of the whole:
    with another one in the port, as in "example.org.:8.0", it stays. Memory is needed
    exactly when there is a capital letter somewhere, or the caller asks for a copy. *)
Theorem validate_host_exact (h : list Z) (alloc : bool) :
  Z.of_nat (length h) < 2 ^ 63 ->
  ngx_http_validate_host h alloc =
    match host_name h with
    | None => (NGX_DECLINED, h)
    | Some n =>
        if (alloc || existsb is_upper h) && negb (ngx_pnalloc (Z.of_nat (length n)))
        then (NGX_ERROR, h) else (NGX_OK, n)
    end.
Proof using ngx_strlow_spec. apply validate_host_spec. Qed.
End Props.

(** ** Examples *)

Definition ex_core (memory : bool) : HostCore := {|
  ngx_path_separator c := c =? "/"%c;
  ngx_pnalloc _ := memory;
  ngx_strlow := map tolower;
  ngx_hash_key l := fold_left (fun k c => wrap 64 (k * 31 + c)) l 0;
  ngx_hash_find_combined names _ host := snd <$> find (fun kv => bool_decide (kv.1 = host)) names;
  ngx_regex_exec _ _ := -1;
  NGX_REGEX_NO_MATCHED := -1;
  ngx_http_regex_exec _ _ := NGX_DECLINED;
|}.

Lemma validate_host_exact_witness :
  let _ := ex_core true in
  let h := bytes_of "WWW.Example.org.:8080" in
  ngx_http_validate_host h false = (NGX_OK, bytes_of "www.example.org").
Proof.
  cbv zeta. rewrite (@validate_host_exact (ex_core true)); [vm_compute; reflexivity|done|vm_compute; reflexivity].
Defined.

(** An address keeps its brackets. *)
Example address : @ngx_http_validate_host (ex_core true) (bytes_of "[2001:db8::1]:443") false = (NGX_OK, bytes_of "[2001:db8::1]").
Proof. reflexivity. Qed.

(** The last dot of the whole is looked for, so with a dot in what should be the
    port the one at the end of the name stays, and the name is another one. *)
Example dot_in_port : @ngx_http_validate_host (ex_core true) (bytes_of "example.org.:8.0") false = (NGX_OK, bytes_of "example.org.").
Proof. reflexivity. Qed.

End HostNameProps.
