(* ===== verification/RequestHeaders.v ===== *)
(** * The headers of a request

    From [ngx_http_request.c]: the table of headers the server knows, the handlers
    that are called for a header when its line has been read,
    [ngx_http_process_request_header], which decides when all have been read
    whether the request is one to serve and how its body is framed, and the checks
    of [ngx_http_process_request] before a request is handled.  The server is built
    with gzip, X-Forwarded-For, realip, headers and dav, and with TLS. *)

From stdpp Require Import functions.
From S2P Require Import Prelude Request ProcessUri HeaderLine HostName.

Module RequestHeaders.
Import HeaderLine HostName.

(** The pointer fields of [ngx_http_headers_in_t], and its arrays of pointers. *)
Inductive in_field :=
| in_host | in_connection | in_if_modified_since | in_if_unmodified_since | in_if_match | in_if_none_match
| in_user_agent | in_referer | in_content_length | in_content_type | in_range | in_if_range
| in_transfer_encoding | in_expect | in_upgrade | in_accept_encoding | in_via | in_authorization
| in_keep_alive | in_x_real_ip | in_accept | in_accept_language | in_depth | in_destination | in_overwrite | in_date.

Inductive in_array := in_x_forwarded_for | in_cookies.

#[export] Instance in_field_eq_dec : EqDecision in_field.
Proof. solve_decision. Defined.
#[export] Instance in_array_eq_dec : EqDecision in_array.
Proof. solve_decision. Defined.

Definition NGX_HTTP_CONNECTION_CLOSE : Z := 1.
Definition NGX_HTTP_CONNECTION_KEEP_ALIVE : Z := 2.
Definition NGX_HTTP_VERSION_10 : Z := 1000.
Definition NGX_HTTP_BAD_REQUEST : Z := 400.
Definition NGX_HTTP_NOT_ALLOWED : Z := 405.
Definition NGX_HTTPS_CERT_ERROR : Z := 495.
Definition NGX_HTTPS_NO_CERT : Z := 496.
Definition NGX_HTTP_TO_HTTPS : Z := 497.
Definition NGX_HTTP_INTERNAL_SERVER_ERROR : Z := 500.
Definition NGX_HTTP_NOT_IMPLEMENTED : Z := 501.

(** [ngx_http_headers_in_t]: a pointer to a header is its place in [headers];
    an array that has not been made is [None]. *)
Record ngx_http_headers_in_t := HeadersIn {
  headers : list ngx_table_elt;
  pointer : in_field -> option nat;
  array : in_array -> option (list nat);
  server : list Z;
  content_length_n : Z;
  keep_alive_n : Z;
  connection_type : Z;
  chunked : bool;
  msie : bool;
  msie6 : bool;
  opera : bool;
  gecko : bool;
  chrome : bool;
  safari : bool;
  konqueror : bool;
}.

Definition eta_in (i : ngx_http_headers_in_t) : ngx_http_headers_in_t :=
  HeadersIn (headers i) (pointer i) (array i) (server i) (content_length_n i) (keep_alive_n i) (connection_type i)
    (chunked i) (msie i) (msie6 i) (opera i) (gecko i) (chrome i) (safari i) (konqueror i).
#[export] Instance set_headers : Setter headers := ltac:(derive_setter eta_in headers).
#[export] Instance set_pointer : Setter pointer := ltac:(derive_setter eta_in pointer).
#[export] Instance set_array : Setter array := ltac:(derive_setter eta_in array).
#[export] Instance set_server : Setter server := ltac:(derive_setter eta_in server).
#[export] Instance set_content_length_n : Setter content_length_n := ltac:(derive_setter eta_in content_length_n).
#[export] Instance set_keep_alive_n : Setter keep_alive_n := ltac:(derive_setter eta_in keep_alive_n).
#[export] Instance set_connection_type : Setter connection_type := ltac:(derive_setter eta_in connection_type).
#[export] Instance set_chunked : Setter chunked := ltac:(derive_setter eta_in chunked).
#[export] Instance set_msie : Setter msie := ltac:(derive_setter eta_in msie).
#[export] Instance set_msie6 : Setter msie6 := ltac:(derive_setter eta_in msie6).
#[export] Instance set_opera : Setter opera := ltac:(derive_setter eta_in opera).
#[export] Instance set_gecko : Setter gecko := ltac:(derive_setter eta_in gecko).
#[export] Instance set_chrome : Setter chrome := ltac:(derive_setter eta_in chrome).
#[export] Instance set_safari : Setter safari := ltac:(derive_setter eta_in safari).
#[export] Instance set_konqueror : Setter konqueror := ltac:(derive_setter eta_in konqueror).

(** [ngx_http_core_srv_conf_t], the fields that reading a request uses, with
    [sscf->verify] of the same server. *)
Record ngx_http_core_srv_conf_t := Srv_conf {
  large_num : Z;   (** [large_client_header_buffers] *)
  large_size : Z;
  underscores_in_headers : bool;
  ignore_invalid_headers : bool;
  merge_slashes : bool;
  verify : Z;
}.

(** The request, its pointers into buffers being strings here; [srv] is the
    server whose configuration it has. *)
Record request := Req {
  r_method : Z;
  r_http_version : Z;
  request_line : list Z;
  method_name : list Z;
  http_protocol : list Z;
  uri : ProcessUri.uri_fields;
  headers_in : ngx_http_headers_in_t;
  srv : nat;
  request_length : Z;
}.

Definition eta_request (r : request) : request :=
  Req (r_method r) (r_http_version r) (request_line r) (method_name r) (http_protocol r) (uri r) (headers_in r) (srv r)
    (request_length r).
#[export] Instance set_r_method : Setter r_method := ltac:(derive_setter eta_request r_method).
#[export] Instance set_r_http_version : Setter r_http_version := ltac:(derive_setter eta_request r_http_version).
#[export] Instance set_request_line : Setter request_line := ltac:(derive_setter eta_request request_line).
#[export] Instance set_method_name : Setter method_name := ltac:(derive_setter eta_request method_name).
#[export] Instance set_http_protocol : Setter http_protocol := ltac:(derive_setter eta_request http_protocol).
#[export] Instance set_uri : Setter uri := ltac:(derive_setter eta_request uri).
#[export] Instance set_headers_in : Setter headers_in := ltac:(derive_setter eta_request headers_in).
#[export] Instance set_srv : Setter srv := ltac:(derive_setter eta_request srv).
#[export] Instance set_request_length : Setter request_length := ltac:(derive_setter eta_request request_length).

(** How reading a request ends. *)
Inductive ended :=
| Handled              (** [ngx_http_handler] *)
| Finalized (rc : Z)   (** [ngx_http_finalize_request] *)
| Closed (rc : Z).     (** [ngx_http_close_request] *)

(** ** The nginx core and TLS *)

Class HeaderCore := {
  (** -1 is [NGX_ERROR] *)
  ngx_atoof : list Z -> Z;
  ngx_atotm : list Z -> Z;
  (** the place of the second string, whose length is the number and one, in the
      first, which ends with a NUL *)
  ngx_strstrn : list Z -> list Z -> Z -> option Z;
  ngx_strcasestrn : list Z -> list Z -> Z -> option Z;
  ngx_strncasecmp : list Z -> list Z -> Z -> Z;
  ngx_hash_find : forall {A}, list (list Z * A) -> Z -> list Z -> option A;
  (** whether there is memory for an array of pointers, for one more element *)
  ngx_array_init : bool;
  ngx_array_push : nat -> bool;
  (** the client's side of TLS: whether it is used, what its certificate is worth,
      and whether there is one *)
  c_ssl : bool;
  SSL_get_verify_result : Z;
  X509_V_OK : Z;
  ngx_ssl_verify_error_optional : Z -> bool;
  peer_certificate : bool;
}.

Section Handlers.
Context {C : HostCore} {D : HeaderCore}.
(** The servers of the configuration, the connection, and [hc->ssl]. *)
Context (servers : nat -> ngx_http_core_srv_conf_t) (hc : http_connection) (hc_ssl : bool).

Definition null_elt : ngx_table_elt := Elt 0 [] [] [].
Definition header (r : request) (h : nat) : ngx_table_elt := nth h (headers (headers_in r)) null_elt.
Definition value_of (r : request) (h : nat) : list Z := value (header r h).

Definition on_in (f : ngx_http_headers_in_t -> ngx_http_headers_in_t) (r : request) : request :=
  r <| headers_in := f (headers_in r) |>.

(** [r->headers_in.f = h] *)
Definition point (f : in_field) (h : nat) (r : request) : request :=
  on_in (fun i => i <| pointer := <[f := Some h]> (pointer i) |>) r.

(** The offset of a row of the table. *)
Inductive offset := at_field (f : in_field) | at_array (a : in_array).

(** What a handler answers: [None] for [NGX_OK]; otherwise it has ended the
    request. *)
Abbreviation answer := (option ended * request)%type.

(** ** The handlers *)

Definition ngx_http_process_header_line (r : request) (h : nat) (o : offset) : answer :=
  match o with
  | at_field f => match pointer (headers_in r) f with
                  | None => (None, point f h r)
                  | Some _ => (None, r)
                  end
  | at_array _ => (None, r)
  end.

Definition ngx_http_process_unique_header_line (r : request) (h : nat) (o : offset) : answer :=
  match o with
  | at_field f => match pointer (headers_in r) f with
                  | None => (None, point f h r)
                  | Some _ => (Some (Finalized NGX_HTTP_BAD_REQUEST), r)
                  end
  | at_array _ => (None, r)
  end.

(** [ngx_http_set_virtual_server] on the request. *)
Definition set_virtual_server (host : list Z) (r : request) : answer :=
  match ngx_http_set_virtual_server (fun s => negb (verify (servers s) =? 0)) hc (srv r) host with
  | Server s => (None, r <| srv := s |>)
  | Server_closed => (Some (Closed NGX_HTTP_INTERNAL_SERVER_ERROR), r)
  | Server_refused => (Some (Finalized NGX_HTTP_BAD_REQUEST), r)
  end.

Definition ngx_http_process_host (r : request) (h : nat) (o : offset) : answer :=
  let r := match pointer (headers_in r) in_host with None => point in_host h r | Some _ => r end in
  match ngx_http_validate_host (value_of r h) false with
  | (NGX_DECLINED, _) => (Some (Finalized NGX_HTTP_BAD_REQUEST), r)
  | (NGX_ERROR, _) => (Some (Closed NGX_HTTP_INTERNAL_SERVER_ERROR), r)
  | (_, host) =>
      if bool_decide (server (headers_in r) <> []) then (None, r)
      else
        match set_virtual_server host r with
        | (None, r) => (None, on_in (fun i => i <| server := host |>) r)
        | e => e
        end
  end.

Definition ngx_http_process_connection (r : request) (h : nat) (o : offset) : answer :=
  let v := value_of r h in
  if bool_decide (is_Some (ngx_strcasestrn v (bytes_of "close") (5 - 1)))
  then (None, on_in (fun i => i <| connection_type := NGX_HTTP_CONNECTION_CLOSE |>) r)
  else if bool_decide (is_Some (ngx_strcasestrn v (bytes_of "keep-alive") (10 - 1)))
  then (None, on_in (fun i => i <| connection_type := NGX_HTTP_CONNECTION_KEEP_ALIVE |>) r)
  else (None, r).

Definition contains (v s : list Z) : bool := bool_decide (is_Some (ngx_strstrn v s (Z.of_nat (length s) - 1))).

(** The version that follows "MSIE ", which is at [m]. *)
Definition msie_version (v : list Z) (m : Z) (i : ngx_http_headers_in_t) : ngx_http_headers_in_t :=
  if m + 7 <? Z.of_nat (length v) then
    let i := i <| msie := true |> in
    if rd v (m + 6) =? "."%c then
      let c := rd v (m + 5) in
      if (c =? "4"%c) || (c =? "5"%c) then i <| msie6 := true |>
      else if (c =? "6"%c) && negb (contains (drop (Z.to_nat (m + 8)) v) (bytes_of "SV1")) then i <| msie6 := true |>
      else i
    else i
  else i.

Definition browser (v : list Z) (i : ngx_http_headers_in_t) : ngx_http_headers_in_t :=
  let i := match ngx_strstrn v (bytes_of "MSIE ") (5 - 1) with Some m => msie_version v m i | None => i end in
  let i := if contains v (bytes_of "Opera") then i <| opera := true |> <| msie := false |> <| msie6 := false |> else i in
  if negb (msie i) && negb (opera i) then
    if contains v (bytes_of "Gecko/") then i <| gecko := true |>
    else if contains v (bytes_of "Chrome/") then i <| chrome := true |>
    else if contains v (bytes_of "Safari/") && contains v (bytes_of "Mac OS X") then i <| safari := true |>
    else if contains v (bytes_of "Konqueror") then i <| konqueror := true |>
    else i
  else i.

Definition ngx_http_process_user_agent (r : request) (h : nat) (o : offset) : answer :=
  match pointer (headers_in r) in_user_agent with
  | Some _ => (None, r)
  | None => let r := point in_user_agent h r in (None, on_in (browser (value_of r h)) r)
  end.

Definition ngx_http_process_multi_header_lines (r : request) (h : nat) (o : offset) : answer :=
  match o with
  | at_field _ => (None, r)
  | at_array a =>
      let elts := default [] (array (headers_in r) a) in
      if bool_decide (array (headers_in r) a = None) && negb ngx_array_init
      then (Some (Closed NGX_HTTP_INTERNAL_SERVER_ERROR), r)
      else if negb (ngx_array_push (length elts))
      then (Some (Closed NGX_HTTP_INTERNAL_SERVER_ERROR), r)
      else (None, on_in (fun i => i <| array := <[a := Some (elts ++ [h])]> (array i) |>) r)
  end.

(** ** The table *)

Record ngx_http_header_t := Header {
  name : list Z;
  header_offset : offset;
  handler : request -> nat -> offset -> answer;
}.

Definition ngx_http_headers_in : list ngx_http_header_t := [
  Header (bytes_of "Host") (at_field in_host) ngx_http_process_host;
  Header (bytes_of "Connection") (at_field in_connection) ngx_http_process_connection;
  Header (bytes_of "If-Modified-Since") (at_field in_if_modified_since) ngx_http_process_unique_header_line;
  Header (bytes_of "If-Unmodified-Since") (at_field in_if_unmodified_since) ngx_http_process_unique_header_line;
  Header (bytes_of "If-Match") (at_field in_if_match) ngx_http_process_unique_header_line;
  Header (bytes_of "If-None-Match") (at_field in_if_none_match) ngx_http_process_unique_header_line;
  Header (bytes_of "User-Agent") (at_field in_user_agent) ngx_http_process_user_agent;
  Header (bytes_of "Referer") (at_field in_referer) ngx_http_process_header_line;
  Header (bytes_of "Content-Length") (at_field in_content_length) ngx_http_process_unique_header_line;
  Header (bytes_of "Content-Type") (at_field in_content_type) ngx_http_process_header_line;
  Header (bytes_of "Range") (at_field in_range) ngx_http_process_header_line;
  Header (bytes_of "If-Range") (at_field in_if_range) ngx_http_process_unique_header_line;
  Header (bytes_of "Transfer-Encoding") (at_field in_transfer_encoding) ngx_http_process_header_line;
  Header (bytes_of "Expect") (at_field in_expect) ngx_http_process_unique_header_line;
  Header (bytes_of "Upgrade") (at_field in_upgrade) ngx_http_process_header_line;
  Header (bytes_of "Accept-Encoding") (at_field in_accept_encoding) ngx_http_process_header_line;
  Header (bytes_of "Via") (at_field in_via) ngx_http_process_header_line;
  Header (bytes_of "Authorization") (at_field in_authorization) ngx_http_process_unique_header_line;
  Header (bytes_of "Keep-Alive") (at_field in_keep_alive) ngx_http_process_header_line;
  Header (bytes_of "X-Forwarded-For") (at_array in_x_forwarded_for) ngx_http_process_multi_header_lines;
  Header (bytes_of "X-Real-IP") (at_field in_x_real_ip) ngx_http_process_header_line;
  Header (bytes_of "Accept") (at_field in_accept) ngx_http_process_header_line;
  Header (bytes_of "Accept-Language") (at_field in_accept_language) ngx_http_process_header_line;
  Header (bytes_of "Depth") (at_field in_depth) ngx_http_process_header_line;
  Header (bytes_of "Destination") (at_field in_destination) ngx_http_process_header_line;
  Header (bytes_of "Overwrite") (at_field in_overwrite) ngx_http_process_header_line;
  Header (bytes_of "Date") (at_field in_date) ngx_http_process_header_line;
  Header (bytes_of "Cookie") (at_array in_cookies) ngx_http_process_multi_header_lines].

(** [cmcf->headers_in_hash], whose keys are the names in lower case. *)
Definition headers_in_hash : list (list Z * ngx_http_header_t) :=
  map (fun hh => (map tolower (name hh), hh)) ngx_http_headers_in.

Definition find_header (h : ngx_table_elt) : option ngx_http_header_t :=
  ngx_hash_find headers_in_hash (hash h) (lowcase_key h).

(** A header is pushed on the list and its handler called. *)
Definition process_header (r : request) (h : ngx_table_elt) : answer :=
  let n := length (headers (headers_in r)) in
  let r := on_in (fun i => i <| headers := headers i ++ [h] |>) r in
  match find_header h with
  | Some hh => handler hh r n (header_offset hh)
  | None => (None, r)
  end.

(** ** When all have been read *)

Definition field_value (r : request) (f : in_field) : option (list Z) := value_of r <$> pointer (headers_in r) f.

(** The check for a host, for HTTP/1.1. *)
Definition host_missing (r : request) : bool :=
  bool_decide (pointer (headers_in r) in_host = None) && (NGX_HTTP_VERSION_10 <? r_http_version r).

(** "Transfer-Encoding". *)
Definition transfer_encoding (r : request) : answer :=
  match field_value r in_transfer_encoding with
  | None => (None, r)
  | Some v =>
      if (Z.of_nat (length v) =? 7) && (ngx_strncasecmp v (bytes_of "chunked") 7 =? 0)
      then (None, on_in (fun i => i <| pointer := <[in_content_length := None]> (pointer i) |>
                                    <| content_length_n := -1 |> <| chunked := true |>) r)
      else if negb (Z.of_nat (length v) =? 8) || negb (ngx_strncasecmp v (bytes_of "identity") 8 =? 0)
      then (Some (Finalized NGX_HTTP_NOT_IMPLEMENTED), r)
      else (None, r)
  end.

Definition keep_alive (r : request) : request :=
  if connection_type (headers_in r) =? NGX_HTTP_CONNECTION_KEEP_ALIVE then
    match field_value r in_keep_alive with
    | Some v => on_in (fun i => i <| keep_alive_n := ngx_atotm v |>) r
    | None => r
    end
  else r.

Definition ngx_http_process_request_header (r : request) : answer :=
  let served := if bool_decide (server (headers_in r) = []) then set_virtual_server [] r else (None, r) in
  match served with
  | (Some e, r) => (Some e, r)
  | (None, r) =>
      if host_missing r then (Some (Finalized NGX_HTTP_BAD_REQUEST), r)
      else
        let r := match field_value r in_content_length with
                 | Some v => on_in (fun i => i <| content_length_n := ngx_atoof v |>) r
                 | None => r
                 end in
        if bool_decide (is_Some (pointer (headers_in r) in_content_length)) && (content_length_n (headers_in r) =? -1)
        then (Some (Finalized NGX_HTTP_BAD_REQUEST), r)
        else if negb (Z.land (r_method r) NGX_HTTP_TRACE =? 0) then (Some (Finalized NGX_HTTP_NOT_ALLOWED), r)
        else
          match transfer_encoding r with
          | (Some e, r) => (Some e, r)
          | (None, r) => (None, keep_alive r)
          end
  end.

(** The checks before [ngx_http_handler]. *)
Definition ngx_http_process_request (r : request) : ended :=
  if hc_ssl then
    if negb c_ssl then Finalized NGX_HTTP_TO_HTTPS
    else
      let v := verify (servers (srv r)) in
      if v =? 0 then Handled
      else if negb (SSL_get_verify_result =? X509_V_OK)
              && (negb (v =? 3) || negb (ngx_ssl_verify_error_optional SSL_get_verify_result))
      then Finalized NGX_HTTPS_CERT_ERROR
      else if (v =? 1) && negb peer_certificate then Finalized NGX_HTTPS_NO_CERT
      else Handled
  else Handled.
End Handlers.

End RequestHeaders.
