(* ===== verification/RequestHeadersProps.v ===== *)
(** * What the headers of a request become

    The records after any headers have been read: each pointer is the first header
    of its name, and a header that may come once has come once.  What is served,
    and how its body is framed, as a function of the headers alone. *)

From stdpp Require Import functions.
From S2P Require Import Prelude Request ProcessUri HeaderLine HostName HostNameProps RequestHeaders.

Module RequestHeadersProps.
Import HeaderLine HostName HostNameProps RequestHeaders.

Definition field_name (f : in_field) : list Z :=
  match f with
  | in_host => bytes_of "host" | in_connection => bytes_of "connection"
  | in_if_modified_since => bytes_of "if-modified-since" | in_if_unmodified_since => bytes_of "if-unmodified-since"
  | in_if_match => bytes_of "if-match" | in_if_none_match => bytes_of "if-none-match"
  | in_user_agent => bytes_of "user-agent" | in_referer => bytes_of "referer"
  | in_content_length => bytes_of "content-length" | in_content_type => bytes_of "content-type"
  | in_range => bytes_of "range" | in_if_range => bytes_of "if-range"
  | in_transfer_encoding => bytes_of "transfer-encoding" | in_expect => bytes_of "expect"
  | in_upgrade => bytes_of "upgrade" | in_accept_encoding => bytes_of "accept-encoding" | in_via => bytes_of "via"
  | in_authorization => bytes_of "authorization" | in_keep_alive => bytes_of "keep-alive"
  | in_x_real_ip => bytes_of "x-real-ip" | in_accept => bytes_of "accept"
  | in_accept_language => bytes_of "accept-language" | in_depth => bytes_of "depth"
  | in_destination => bytes_of "destination" | in_overwrite => bytes_of "overwrite" | in_date => bytes_of "date"
  end.

Definition array_name (a : in_array) : list Z :=
  match a with in_x_forwarded_for => bytes_of "x-forwarded-for" | in_cookies => bytes_of "cookie" end.

(** The headers that may come once. *)
Definition unique (f : in_field) : bool :=
  match f with
  | in_if_modified_since | in_if_unmodified_since | in_if_match | in_if_none_match | in_content_length | in_if_range
  | in_expect | in_authorization => true
  | _ => false
  end.

(** ** The headers with a name *)

Definition named (n : list Z) (h : ngx_table_elt) : bool := bool_decide (lowcase_key h = n).

(** The place of the first, and the places of all, counted from [i]. *)
Fixpoint first_named (n : list Z) (i : nat) (hs : list ngx_table_elt) : option nat :=
  match hs with
  | [] => None
  | h :: hs => if named n h then Some i else first_named n (S i) hs
  end.

Fixpoint all_named (n : list Z) (i : nat) (hs : list ngx_table_elt) : list nat :=
  match hs with
  | [] => []
  | h :: hs => if named n h then i :: all_named n (S i) hs else all_named n (S i) hs
  end.

(** The value of the first. *)
Definition first_value (n : list Z) (hs : list ngx_table_elt) : option (list Z) := value <$> find (named n) hs.

Definition count_named (n : list Z) (hs : list ngx_table_elt) : nat := length (List.filter (named n) hs).

Lemma first_named_app n hs h : forall i, first_named n i (hs ++ [h])
  = match first_named n i hs with Some j => Some j | None => if named n h then Some (i + length hs)%nat else None end.
Proof.
  induction hs as [|k hs IH]; intros i; simpl; [by rewrite Nat.add_0_r|].
  destruct (named n k); [done|]. rewrite IH. by rewrite Nat.add_succ_r.
Qed.

Lemma all_named_app n hs h : forall i, all_named n i (hs ++ [h])
  = all_named n i hs ++ (if named n h then [(i + length hs)%nat] else []).
Proof.
  induction hs as [|k hs IH]; intros i; simpl; [rewrite Nat.add_0_r; by destruct (named n h)|].
  rewrite IH, Nat.add_succ_r. by destruct (named n k).
Qed.

Lemma count_named_app n hs h : count_named n (hs ++ [h]) = (count_named n hs + if named n h then 1 else 0)%nat.
Proof. unfold count_named. rewrite List.filter_app, length_app. cbn. by destruct (named n h). Qed.

Lemma first_named_value n hs : forall pre,
  (fun j => value (nth j (pre ++ hs) null_elt)) <$> first_named n (length pre) hs = first_value n hs.
Proof.
  unfold first_value. induction hs as [|h hs IH]; intros pre; simpl; [done|].
  destruct (named n h) eqn:E; cbn.
  - by rewrite app_nth2, Nat.sub_diag by lia.
  - specialize (IH (pre ++ [h])). rewrite length_app, Nat.add_1_r, <- app_assoc in IH. exact IH.
Qed.

Lemma first_named_None n hs : forall i, first_named n i hs = None <-> count_named n hs = 0%nat.
Proof.
  unfold count_named. induction hs as [|h hs IH]; intros i; simpl; [done|]. destruct (named n h); [by split|apply IH].
Qed.

(** ** The documented behaviour of the hash *)

Class HeaderCoreOk {C : HostCore} {D : HeaderCore} : Prop := {
  strlow_spec l : ngx_strlow l = map tolower l;
  strncasecmp_spec a b : length a = length b ->
    ngx_strncasecmp a b (Z.of_nat (length b)) = 0 <-> map tolower a = map tolower b;
  hash_find {A} (elts : list (list Z * A)) n (a : A) :
    NoDup (map fst elts) -> ngx_hash_find elts (ngx_hash_key n) n = Some a <-> (n, a) ∈ elts;
}.

(** A header as it was parsed. *)
Definition parsed {C : HostCore} (h : ngx_table_elt) : Prop :=
  hash h = ngx_hash_key (lowcase_key h) /\ Z.of_nat (length (value h)) < 2 ^ 63.

Section Read.
Context {C : HostCore} {D : HeaderCore} {DOK : HeaderCoreOk}.
Context (servers : nat -> ngx_http_core_srv_conf_t) (hc : http_connection).

Abbreviation process_header := (process_header servers hc).

(** The row of a header. *)
Inductive row (n : list Z) : option ngx_http_header_t -> Prop :=
| row_field f hh : n = field_name f -> header_offset hh = at_field f ->
    handler hh = (match f with
                  | in_host => ngx_http_process_host servers hc
                  | in_connection => ngx_http_process_connection
                  | in_user_agent => ngx_http_process_user_agent
                  | _ => if unique f then ngx_http_process_unique_header_line else ngx_http_process_header_line
                  end) -> row n (Some hh)
| row_array a hh : n = array_name a -> header_offset hh = at_array a ->
    handler hh = ngx_http_process_multi_header_lines -> row n (Some hh)
| row_none : (forall f, n <> field_name f) -> (forall a, n <> array_name a) -> row n None.

Lemma hash_keys_differ : NoDup (map fst (headers_in_hash servers hc)).
Proof. apply (bool_decide_unpack _). vm_compute. exact I. Qed.

Lemma in_table f : exists hh, (field_name f, hh) ∈ headers_in_hash servers hc.
Proof.
  destruct f; eexists; apply list_elem_of_In; unfold headers_in_hash, ngx_http_headers_in; cbn [map];
    repeat first [left; reflexivity | right].
Qed.

Lemma in_table_array a : exists hh, (array_name a, hh) ∈ headers_in_hash servers hc.
Proof.
  destruct a; eexists; apply list_elem_of_In; unfold headers_in_hash, ngx_http_headers_in; cbn [map];
    repeat first [left; reflexivity | right].
Qed.

Lemma table_row n hh : (n, hh) ∈ headers_in_hash servers hc -> row n (Some hh).
Proof.
  intros H%list_elem_of_In. unfold headers_in_hash in H. apply in_map_iff in H as (x & [= <- <-] & H).
  unfold ngx_http_headers_in in H.
  repeat (destruct H as [<-|H];
    [first [match goal with |- row _ (Some (Header _ (at_field ?f) _)) => apply (row_field _ f); reflexivity end
           |match goal with |- row _ (Some (Header _ (at_array ?a) _)) => apply (row_array _ a); reflexivity end]|]).
  destruct H.
Qed.

Lemma find_in_row h : parsed h -> row (lowcase_key h) (find_header servers hc h).
Proof.
  intros [Hp _]. unfold find_header. rewrite Hp. destruct (ngx_hash_find _ _ _) as [hh|] eqn:E.
  - apply table_row. by apply hash_find in E; [|apply hash_keys_differ].
  - apply row_none.
    + intros f Hf. destruct (in_table f) as [hh Hin]. rewrite <- Hf in Hin. 
      apply hash_find in Hin; [congruence|apply hash_keys_differ].
    + intros a Ha. destruct (in_table_array a) as [hh Hin]. rewrite <- Ha in Hin. 
      apply hash_find in Hin; [congruence|apply hash_keys_differ].
Qed.

(** ** The records while headers are read *)

Definition pointed (hs : list ngx_table_elt) (f : in_field) : option nat :=
  if bool_decide (f = in_connection) then None else first_named (field_name f) 0 hs.

(** The name of the host: that of the request line, or the first header's. *)
Definition host_of (s0 : list Z) (hs : list ngx_table_elt) : list Z :=
  if bool_decide (s0 <> []) then s0
  else match first_value (bytes_of "host") hs with
       | Some v => (ngx_http_validate_host v false).2
       | None => []
       end.

Record read_ok (r0 : request) (hs : list ngx_table_elt) (r : request) : Prop := {
  ro_headers : headers (headers_in r) = hs;
  ro_pointer f : pointer (headers_in r) f = pointed hs f;
  ro_array a : default [] (array (headers_in r) a) = all_named (array_name a) 0 hs;
  ro_unique f : unique f = true -> (count_named (field_name f) hs <= 1)%nat;
  ro_server : server (headers_in r) = host_of (server (headers_in r0)) hs;
  ro_host v : first_value (bytes_of "host") hs = Some v -> exists n, ngx_http_validate_host v false = (NGX_OK, n) /\ n <> [];
  ro_body : content_length_n (headers_in r) = -1 /\ chunked (headers_in r) = false;
  ro_line : r_method r = r_method r0 /\ r_http_version r = r_http_version r0;
}.

Lemma field_name_inj f g : field_name f = field_name g -> f = g.
Proof. destruct f, g; try done; intros H; by vm_compute in H. Qed.

Lemma array_field a f : array_name a <> field_name f.
Proof. destruct a, f; intros H; by vm_compute in H. Qed.

Lemma array_name_inj a b : array_name a = array_name b -> a = b.
Proof. destruct a, b; try done; intros H; by vm_compute in H. Qed.

(** The next header is pointed at when it is the first of its name. *)
Lemma pointed_more hs h f : pointed (hs ++ [h]) f =
  if bool_decide (lowcase_key h = field_name f /\ f <> in_connection /\ pointed hs f = None)
  then Some (length hs) else pointed hs f.
Proof.
  unfold pointed. case_bool_decide as Hf.
  - rewrite bool_decide_eq_false_2; [done|]. by intros (_ & ? & _).
  - rewrite first_named_app. destruct (first_named _ 0 hs) eqn:E.
    + rewrite bool_decide_eq_false_2; [done|]. by intros (_ & _ & ?).
    + unfold named. case_bool_decide; [by rewrite bool_decide_eq_true_2|].
      rewrite bool_decide_eq_false_2; [done|]. by intros (? & _ & _).
Qed.

(** What a handler did to the pointers when the header has the name of [f]. *)
Lemma pointed_field hs h f p : lowcase_key h = field_name f -> f <> in_connection ->
  (forall g, p g = pointed hs g) ->
  forall g, (match p f with None => <[f := Some (length hs)]> p | Some _ => p end) g = pointed (hs ++ [h]) g.
Proof.
  intros Hh Hf Hp g. rewrite pointed_more, Hh. destruct (decide (f = g)) as [->|Hg].
  - destruct (p g) eqn:E; rewrite Hp in E.
    + rewrite bool_decide_eq_false_2; [apply Hp|]. intros (_ & _ & En). congruence.
    + rewrite fn_lookup_insert, bool_decide_eq_true_2 by done. done.
  - rewrite bool_decide_eq_false_2 by (intros (?%field_name_inj & _); done).
    destruct (p f); [|rewrite fn_lookup_insert_ne by done]; apply Hp.
Qed.

(** A header of another name changes nothing that is counted by name. *)
Lemma pointed_other hs h p : (forall f, lowcase_key h = field_name f -> f = in_connection) ->
  (forall g, p g = pointed hs g) -> forall g, p g = pointed (hs ++ [h]) g.
Proof.
  intros Hh Hp g. rewrite pointed_more, bool_decide_eq_false_2; [apply Hp|]. intros (?%Hh & ? & _). done.
Qed.

Lemma first_value_more n hs h : first_value n (hs ++ [h])
  = match first_value n hs with Some v => Some v | None => if named n h then Some (value h) else None end.
Proof.
  unfold first_value. induction hs as [|k hs IH]; simpl; [destruct (named n h); reflexivity|]. destruct (named n k); [reflexivity|exact IH].
Qed.

Lemma host_of_more s0 hs h : lowcase_key h <> bytes_of "host" -> host_of s0 (hs ++ [h]) = host_of s0 hs.
Proof.
  intros Hh. unfold host_of. rewrite first_value_more. destruct (first_value _ hs); [done|].
  unfold named. by rewrite (bool_decide_eq_false_2 (lowcase_key h = _)).
Qed.

(** After the push, before the handler. *)
Lemma browser_same v i : let i' := browser v i in
  headers i' = headers i /\ pointer i' = pointer i /\ array i' = array i /\ server i' = server i
  /\ content_length_n i' = content_length_n i /\ chunked i' = chunked i.
Proof. unfold browser, msie_version. destruct (ngx_strstrn _ _ _); split_ifs; done. Qed.

Lemma unique_more hs h f : (unique f = true -> (count_named (field_name f) hs <= 1)%nat) ->
  (lowcase_key h = field_name f -> unique f = true -> pointed hs f = None) ->
  unique f = true -> (count_named (field_name f) (hs ++ [h]) <= 1)%nat.
Proof.
  intros H1 H2 Hu. rewrite count_named_app. unfold named. case_bool_decide as Hn; [|rewrite Nat.add_0_r; auto].
  specialize (H2 Hn Hu). unfold pointed in H2. rewrite bool_decide_eq_false_2 in H2 by (by intros ->).
  apply first_named_None in H2. lia.
Qed.

Lemma array_more hs h a l : l = all_named (array_name a) 0 hs -> lowcase_key h <> array_name a ->
  l = all_named (array_name a) 0 (hs ++ [h]).
Proof. intros -> H. rewrite all_named_app. unfold named. by rewrite bool_decide_eq_false_2, app_nil_r by done. Qed.

(** A row whose handler points at the first header of its name. *)
Lemma row_points r0 hs h r f r' : read_ok r0 hs r -> lowcase_key h = field_name f -> f <> in_connection -> f <> in_host ->
  (unique f = true -> pointer (headers_in r) f = None) ->
  headers (headers_in r') = headers (headers_in r) ++ [h] ->
  pointer (headers_in r') = match pointer (headers_in r) f with
                            | None => <[f := Some (length hs)]> (pointer (headers_in r)) | Some _ => pointer (headers_in r) end ->
  array (headers_in r') = array (headers_in r) -> server (headers_in r') = server (headers_in r) ->
  content_length_n (headers_in r') = content_length_n (headers_in r) -> chunked (headers_in r') = chunked (headers_in r) ->
  r_method r' = r_method r -> r_http_version r' = r_http_version r -> read_ok r0 (hs ++ [h]) r'.
Proof.
  intros [R1 R2 R3 R4 R5 R8 R6 R7] Hn Hc Hh Hu E1 E2 E3 E4 E5 E6 E7 E8. split.
  - by rewrite E1, R1.
  - intros g. rewrite E2. by apply pointed_field.
  - intros a. rewrite E3. apply array_more; [apply R3|]. rewrite Hn. intros Ha. by apply (array_field a f).
  - intros g. apply unique_more; [apply R4|]. rewrite Hn. intros <-%field_name_inj Hg. rewrite <- R2. auto.
  - rewrite E4, R5. symmetry. apply host_of_more. rewrite Hn. by intros ?%(field_name_inj f in_host).
  - intros v. rewrite first_value_more. destruct (first_value _ hs) eqn:E; [by apply R8|]. unfold named.
    rewrite bool_decide_eq_false_2; [done|]. rewrite Hn. by intros ?%(field_name_inj f in_host).
  - by rewrite E5, E6.
  - by rewrite E7, E8.
Qed.

Lemma header_pushed r h x : headers (headers_in r) = headers (headers_in x) ++ [h] ->
  value_of r (length (headers (headers_in x))) = value h.
Proof. intros E. unfold value_of, header. by rewrite E, app_nth2, Nat.sub_diag by lia. Qed.

Lemma validate_codes v rc n : Z.of_nat (length v) < 2 ^ 63 -> ngx_http_validate_host v false = (rc, n) ->
  rc = NGX_DECLINED \/ rc = NGX_ERROR \/ rc = NGX_OK /\ n <> [].
Proof.
  intros Hl E. pose proof (validate_host_spec strlow_spec v false Hl) as H. rewrite E in H.
  destruct (host_name v); [destruct (_ && _)|]; injection H as -> ->; auto. right; right. split; [done|].
  by eapply (validated strlow_spec v false).
Qed.

Lemma set_virtual_server_same host r r' : set_virtual_server servers hc host r = (None, r') ->
  headers_in r' = headers_in r /\ r_method r' = r_method r /\ r_http_version r' = r_http_version r.
Proof. unfold set_virtual_server. destruct (ngx_http_set_virtual_server _ _ _ _); [|done..]. by intros [= <-]. Qed.

(** The row of "Host". *)
Lemma host_ok r0 hs r h r1 r' : parsed h -> read_ok r0 hs r -> lowcase_key h = bytes_of "host" ->
  r1 = on_in (fun i => i <| headers := headers i ++ [h] |>) r ->
  ngx_http_process_host servers hc r1 (length hs) (at_field in_host) = (None, r') -> read_ok r0 (hs ++ [h]) r'.
Proof.
  intros [_ Hlen] [R1 R2 R3 R4 R5 R8 R6 R7] Hn -> H. unfold ngx_http_process_host in H.
  set (r2 := match pointer _ _ with None => _ | Some _ => _ end) in H.
  assert (E1 : headers (headers_in r2) = headers (headers_in r) ++ [h]) by (unfold r2; by destruct (pointer _ _)).
  assert (E2 : pointer (headers_in r2) = match pointer (headers_in r) in_host with
    | None => <[in_host := Some (length hs)]> (pointer (headers_in r)) | Some _ => pointer (headers_in r) end)
    by (unfold r2; cbn; by destruct (pointer (headers_in r) in_host)).
  assert (E3 : array (headers_in r2) = array (headers_in r)) by (unfold r2; by destruct (pointer _ _)).
  assert (E4 : server (headers_in r2) = server (headers_in r)) by (unfold r2; by destruct (pointer _ _)).
  assert (E5 : content_length_n (headers_in r2) = content_length_n (headers_in r)
    /\ chunked (headers_in r2) = chunked (headers_in r) /\ r_method r2 = r_method r
    /\ r_http_version r2 = r_http_version r) by (unfold r2; by destruct (pointer _ _)).
  clearbody r2. rewrite <- R1, header_pushed with (h := h) in H by done.
  destruct (ngx_http_validate_host (value h) false) as [rc n] eqn:Ev.
  destruct (validate_codes _ _ _ Hlen Ev) as [->|[->|[-> Hne]]]; [done..|].
  assert (Hfirst : first_value (bytes_of "host") (hs ++ [h])
    = match first_value (bytes_of "host") hs with Some v => Some v | None => Some (value h) end).
  { rewrite first_value_more. unfold named. by rewrite bool_decide_eq_true_2. }
  assert (Hgoal : forall r3, headers (headers_in r3) = headers (headers_in r2) ->
    pointer (headers_in r3) = pointer (headers_in r2) -> array (headers_in r3) = array (headers_in r2) ->
    server (headers_in r3) = host_of (server (headers_in r0)) (hs ++ [h]) ->
    content_length_n (headers_in r3) = content_length_n (headers_in r2) ->
    chunked (headers_in r3) = chunked (headers_in r2) -> r_method r3 = r_method r2 ->
    r_http_version r3 = r_http_version r2 -> read_ok r0 (hs ++ [h]) r3).
  { intros r3 F1 F2 F3 F4 F5 F6 F7 F8. split.
    - by rewrite F1, E1, R1.
    - intros g. rewrite F2, E2. by apply pointed_field.
    - intros a. rewrite F3, E3. apply array_more; [apply R3|]. rewrite Hn. intros Ha. by apply (array_field a in_host).
    - intros g. apply unique_more; [apply R4|]. rewrite Hn. by intros <-%(field_name_inj in_host).
    - done.
    - intros v. rewrite Hfirst. destruct (first_value _ hs) eqn:E; [apply R8|]. intros [= <-]. by exists n.
    - rewrite F5, F6. destruct E5 as (-> & -> & _). done.
    - rewrite F7, F8. destruct E5 as (_ & _ & -> & ->). done. }
  case_bool_decide as Hs.
  - injection H as <-. apply Hgoal; try done. rewrite E4, R5 in *. unfold host_of in *.
    case_bool_decide; [done|]. rewrite Hfirst. by destruct (first_value _ hs).
  - destruct (set_virtual_server _ _ n r2) as [[e|] r3] eqn:Es; [done|]. injection H as <-.
    apply set_virtual_server_same in Es as (G1 & G2 & G3). apply Hgoal; cbn; rewrite ?G1; try done.
    rewrite E4, R5 in Hs. unfold host_of in *. case_bool_decide as Hs0; [done|]. rewrite Hfirst.
    destruct (first_value _ hs) as [v|] eqn:Ef; [|by rewrite Ev].
    destruct (R8 v eq_refl) as (m & Em & Hm). rewrite Em in Hs. cbn in Hs. by destruct (Hm Hs).
Qed.

(** A header that no pointer and no array is for. *)
Lemma row_other r0 hs r h r' : read_ok r0 hs r -> (forall f, lowcase_key h = field_name f -> f = in_connection) ->
  (forall a, lowcase_key h <> array_name a) ->
  headers (headers_in r') = headers (headers_in r) ++ [h] -> pointer (headers_in r') = pointer (headers_in r) ->
  array (headers_in r') = array (headers_in r) -> server (headers_in r') = server (headers_in r) ->
  content_length_n (headers_in r') = content_length_n (headers_in r) -> chunked (headers_in r') = chunked (headers_in r) ->
  r_method r' = r_method r -> r_http_version r' = r_http_version r -> read_ok r0 (hs ++ [h]) r'.
Proof.
  intros [R1 R2 R3 R4 R5 R8 R6 R7] Hf Ha E1 E2 E3 E4 E5 E6 E7 E8.
  assert (Hh : lowcase_key h <> bytes_of "host") by (intros Hh; by specialize (Hf in_host Hh)).
  split.
  - by rewrite E1, R1.
  - rewrite E2. by apply pointed_other.
  - intros a. rewrite E3. by apply array_more.
  - intros g. apply unique_more; [apply R4|]. by intros ->%Hf.
  - rewrite E4, R5. symmetry. by apply host_of_more.
  - intros v. rewrite first_value_more. destruct (first_value _ hs) eqn:E; [by apply R8|]. unfold named.
    by rewrite bool_decide_eq_false_2.
  - by rewrite E5, E6.
  - by rewrite E7, E8.
Qed.

Lemma header_ok r0 hs r h r' : parsed h -> read_ok r0 hs r -> process_header r h = (None, r') ->
  read_ok r0 (hs ++ [h]) r'.
Proof.
  intros Hp R. pose proof R as [R1 R2 R3 R4 R5 R8 R6 R7]. unfold RequestHeaders.process_header.
  set (r1 := on_in _ r). assert (Hv : value_of r1 (length (headers (headers_in r))) = value h) by by apply header_pushed.
  destruct (find_in_row h Hp) as [f hh Hn Ho Hh|a hh Hn Ho Hh|Hf Ha]; [rewrite Ho, Hh..|].
  - destruct (decide (f = in_host)) as [->|Hhost]; [rewrite R1; by apply (host_ok r0 hs r h r1)|].
    destruct (decide (f = in_connection)) as [->|Hconn]; [|destruct (decide (f = in_user_agent)) as [->|Hua]].
    + unfold ngx_http_process_connection. intros H. apply (row_other r0 hs r h r'); try done.
      1: intros g; rewrite Hn; by intros <-%(field_name_inj in_connection).
      1: intros a; rewrite Hn; intros Ha; by apply (array_field a in_connection).
      all: revert H; split_ifs; by intros [= <-].
    + unfold ngx_http_process_user_agent. change (pointer (headers_in r1)) with (pointer (headers_in r)).
      destruct (pointer (headers_in r) in_user_agent) eqn:Ep; intros [= <-].
      * apply (row_points r0 hs h r in_user_agent); try done. by rewrite Ep.
      * set (r2 := point in_user_agent _ r1). set (v := value_of r2 _).
        destruct (browser_same v (headers_in r2)) as (B1 & B2 & B3 & B4 & B5 & B6).
        apply (row_points r0 hs h r in_user_agent); try done. by rewrite Ep, <- R1.
    + assert (Hrow : forall b : bool, (if b then ngx_http_process_unique_header_line else ngx_http_process_header_line)
        r1 (length (headers (headers_in r))) (at_field f) = (None, r') -> b = unique f -> read_ok r0 (hs ++ [h]) r').
      { intros b H ->. destruct (unique f) eqn:Eu;
          unfold ngx_http_process_unique_header_line, ngx_http_process_header_line in H;
          change (pointer (headers_in r1)) with (pointer (headers_in r)) in H;
          destruct (pointer (headers_in r) f) eqn:Ep; try done; injection H as <-;
          apply (row_points r0 hs h r f); rewrite ?Ep, <- ?R1; try done; congruence. }
      destruct f; try done; intros H; first [by apply (Hrow true)|by apply (Hrow false)].
  - unfold ngx_http_process_multi_header_lines. destruct (_ && _); [done|]. destruct (negb _); [done|]. intros [= <-].
    assert (Hf : forall f, lowcase_key h <> field_name f) by (intros f; rewrite Hn; apply array_field).
    split; try done.
    + cbn. by rewrite R1.
    + apply pointed_other; [by intros f ?%Hf|done].
    + intros b. cbn. rewrite all_named_app. unfold named. rewrite Hn. destruct (decide (a = b)) as [->|Hab].
      * rewrite fn_lookup_insert, bool_decide_eq_true_2 by done. cbn. by rewrite R3, R1.
      * rewrite fn_lookup_insert_ne, bool_decide_eq_false_2, app_nil_r by (done || by intros ?%array_name_inj). apply R3.
    + intros f. apply unique_more; [apply R4|]. by intros ?%Hf.
    + cbn. rewrite R5. symmetry. apply host_of_more, (Hf in_host).
    + intros v. rewrite first_value_more. destruct (first_value _ hs) eqn:E; [by apply R8|]. unfold named.
      rewrite bool_decide_eq_false_2; [done|]. apply (Hf in_host).
  - intros [= <-]. apply (row_other r0 hs r h); try done. by intros f ?%Hf.
Qed.

(** ** All the headers *)

(** The handlers of the headers in their order, up to one that ends the request. *)
Fixpoint read_headers (hs : list ngx_table_elt) (r : request) : option ended * request :=
  match hs with
  | [] => (None, r)
  | h :: hs => match process_header r h with
               | (None, r) => read_headers hs r
               | e => e
               end
  end.

(** A request before its headers, with the host that its line may have had. *)
Definition no_headers (r : request) : Prop :=
  headers (headers_in r) = [] /\ (forall f, pointer (headers_in r) f = None)
  /\ (forall a, array (headers_in r) a = None) /\ content_length_n (headers_in r) = -1 /\ chunked (headers_in r) = false.

Lemma read_headers_ok r0 hs : forall pre r r', Forall parsed hs -> read_ok r0 pre r ->
  read_headers hs r = (None, r') -> read_ok r0 (pre ++ hs) r'.
Proof.
  induction hs as [|h hs IH]; intros pre r r' Hp R; cbn [read_headers].
  - intros [= <-]. by rewrite app_nil_r.
  - apply Forall_cons_iff in Hp as [Hh Hp]. destruct (process_header r h) as [[e|] r1] eqn:E; [done|].
    intros H. rewrite cons_middle, app_assoc. eapply IH; [done| |done]. by eapply header_ok.
Qed.

Lemma no_headers_ok r : no_headers r -> read_ok r [] r.
Proof.
  intros (H1 & H2 & H3 & H4 & H5). split; try done.
  - intros f. rewrite H2. unfold pointed. by case_bool_decide.
  - intros a. by rewrite H3.
  - intros f _. cbn. lia.
  - unfold host_of. case_bool_decide as H; [done|]. cbn. destruct (server (headers_in r)); [done|]. by destruct H.
Qed.

Lemma read_value r0 hs r f : read_ok r0 hs r -> f <> in_connection -> field_value r f = first_value (field_name f) hs.
Proof.
  intros [R1 R2 _ _ _ _ _ _] Hf. unfold field_value. rewrite R2. unfold pointed. rewrite bool_decide_eq_false_2 by done.
  rewrite <- (first_named_value _ hs []). cbn. unfold value_of, header. by rewrite R1.
Qed.

(** ** What is served *)

(** Why a request with these headers is not. *)
Definition refusal (method version : Z) (hs : list ngx_table_elt) : option ended :=
  if bool_decide (first_value (bytes_of "host") hs = None) && (NGX_HTTP_VERSION_10 <? version)
  then Some (Finalized NGX_HTTP_BAD_REQUEST)
  else if match first_value (bytes_of "content-length") hs with Some v => ngx_atoof v =? -1 | None => false end
  then Some (Finalized NGX_HTTP_BAD_REQUEST)
  else if negb (Z.land method NGX_HTTP_TRACE =? 0) then Some (Finalized NGX_HTTP_NOT_ALLOWED)
  else match first_value (bytes_of "transfer-encoding") hs with
       | None => None
       | Some v => if bool_decide (map tolower v = bytes_of "chunked") || bool_decide (map tolower v = bytes_of "identity")
                   then None else Some (Finalized NGX_HTTP_NOT_IMPLEMENTED)
       end.

(** How the body is framed: by chunks, or by a length, -1 for none. *)
Definition framing (hs : list ngx_table_elt) : bool * Z :=
  if bool_decide (map tolower <$> first_value (bytes_of "transfer-encoding") hs = Some (bytes_of "chunked"))
  then (true, -1)
  else (false, from_option ngx_atoof (-1) (first_value (bytes_of "content-length") hs)).

Lemma coding_is v (c : list Z) : map tolower c = c ->
  (Z.of_nat (length v) =? Z.of_nat (length c)) && (ngx_strncasecmp v c (Z.of_nat (length c)) =? 0)
  = bool_decide (map tolower v = c).
Proof.
  intros Hc. destruct (Z.eqb_spec (Z.of_nat (length v)) (Z.of_nat (length c))) as [E|E]; cbn [andb].
  - pose proof (strncasecmp_spec v c ltac:(lia)) as H. rewrite Hc in H. case_bool_decide as Hd.
    + apply H in Hd. by rewrite Hd.
    + apply Z.eqb_neq. tauto.
  - rewrite bool_decide_eq_false_2; [done|]. intros Hd. apply (f_equal length) in Hd. rewrite length_map in Hd. lia.
Qed.

Lemma decide_Some (v c : list Z) : bool_decide (Some v = Some c) = bool_decide (v = c).
Proof. apply bool_decide_ext. split; congruence. Qed.

Lemma coding_not v (c : list Z) : map tolower c = c ->
  negb (Z.of_nat (length v) =? Z.of_nat (length c)) || negb (ngx_strncasecmp v c (Z.of_nat (length c)) =? 0)
  = negb (bool_decide (map tolower v = c)).
Proof. intros Hc. by rewrite <- negb_andb, coding_is. Qed.

(** What "Transfer-Encoding" decides, once the length is known. *)
Lemma transfer_encoding_spec hs r : field_value r in_transfer_encoding = first_value (bytes_of "transfer-encoding") hs ->
  chunked (headers_in r) = false ->
  let te := map tolower <$> first_value (bytes_of "transfer-encoding") hs in
  let '(e, r') := transfer_encoding r in
  e = (if bool_decide (te = None) || bool_decide (te = Some (bytes_of "chunked")) || bool_decide (te = Some (bytes_of "identity"))
       then None else Some (Finalized NGX_HTTP_NOT_IMPLEMENTED))
  /\ (e = None -> r' = if bool_decide (te = Some (bytes_of "chunked"))
       then on_in (fun i => i <| pointer := <[in_content_length := None]> (pointer i) |>
                              <| content_length_n := -1 |> <| chunked := true |>) r else r).
Proof.
  intros Hv Hc. cbv zeta. unfold transfer_encoding. rewrite Hv.
  destruct (first_value _ hs) as [v|]; [|done].
  pose proof (coding_is v (bytes_of "chunked") eq_refl) as H1. pose proof (coding_not v (bytes_of "identity") eq_refl) as H2.
  change (Z.of_nat (length (bytes_of "chunked"))) with 7 in H1. change (Z.of_nat (length (bytes_of "identity"))) with 8 in H2.
  rewrite H1, H2. cbn [fmap option_fmap option_map].
  rewrite (bool_decide_eq_false_2 (Some _ = None)) by done. cbn [orb].
  rewrite !decide_Some.
  destruct (bool_decide (map tolower v = bytes_of "chunked")); [done|].
  by destruct (bool_decide (map tolower v = bytes_of "identity")).
Qed.

Lemma keep_alive_same r : let i := headers_in r in let i' := headers_in (keep_alive r) in
  chunked i' = chunked i /\ content_length_n i' = content_length_n i /\ headers i' = headers i
  /\ server i' = server i /\ pointer i' = pointer i.
Proof. unfold keep_alive. destruct (_ =? _); [|done]. by destruct (field_value _ _). Qed.

(** C25: When the headers of a request have been read, whatever they are, each pointer
    of [headers_in] is the first header of its name, but that to "Connection", which no
    handler sets; each array has all headers of its name in order, a header that may
    come once has come once, and the name of the server is that of the request line or
    else the cleaned one of the first "Host". *)
Theorem request_headers_typed hs r0 r :
  Forall parsed hs -> no_headers r0 -> read_headers hs r0 = (None, r) ->
  headers (headers_in r) = hs
  /\ (forall f, pointer (headers_in r) f = pointed hs f)
  /\ (forall a, default [] (array (headers_in r) a) = all_named (array_name a) 0 hs)
  /\ (forall f, unique f = true -> (count_named (field_name f) hs <= 1)%nat)
  /\ server (headers_in r) = host_of (server (headers_in r0)) hs.
Proof.
  intros Hp H0 E. by destruct (read_headers_ok r0 hs [] r0 r Hp (no_headers_ok r0 H0) E).
Qed.

(** C15: When a server has been selected for a request whose headers have been read,
    what is done with it depends on its method, version and headers alone: [refusal]
    says with which code it is refused, and otherwise [framing] how its body is framed.
    Chunked coding takes precedence over a length, whose header is then forgotten. When
    neither the request line nor a "Host" gave a name and the choice of a server for no
    name refuses the request, which depends on the connection and the configuration, its
    code is that one. *)
Theorem request_framed hs r0 r e r' :
  Forall parsed hs -> no_headers r0 -> read_headers hs r0 = (None, r) ->
  ngx_http_process_request_header servers hc r = (e, r') ->
  match (if bool_decide (server (headers_in r) = []) then set_virtual_server servers hc [] r else (None, r)).1 with
  | Some e0 => e = Some e0
  | None =>
      e = refusal (r_method r0) (r_http_version r0) hs
      /\ (e = None -> (chunked (headers_in r'), content_length_n (headers_in r')) = framing hs
          /\ headers (headers_in r') = hs /\ server (headers_in r') = host_of (server (headers_in r0)) hs
          /\ pointer (headers_in r') in_content_length = (if (framing hs).1 then None else pointed hs in_content_length))
  end.
Proof.
  intros Hp H0 E H. pose proof (read_headers_ok r0 hs [] r0 r Hp (no_headers_ok r0 H0) E) as R. cbn [app] in R. clear E.
  unfold ngx_http_process_request_header in H.
  destruct (if bool_decide (server (headers_in r) = []) then _ else _) as [[e0|] r1] eqn:Es; cbn [fst].
  { by injection H as <- _. }
  assert (Hs : headers_in r1 = headers_in r /\ r_method r1 = r_method r /\ r_http_version r1 = r_http_version r).
  { destruct (bool_decide _); [by apply set_virtual_server_same in Es|by injection Es as <-]. }
  destruct Hs as (Hi & Hm & Hv). pose proof R as [R1 R2 _ _ R5 _ [R6 R6'] [R7 R7']].
  assert (Hf : forall f, f <> in_connection -> field_value r1 f = first_value (field_name f) hs).
  { intros f ?. rewrite <- (read_value r0 hs r) by done. unfold field_value, value_of, header. by rewrite Hi. }
  pose proof (Hf in_host ltac:(done)) as Fh. pose proof (Hf in_content_length ltac:(done)) as Fc.
  pose proof (Hf in_transfer_encoding ltac:(done)) as Ft.
  change (field_name in_host) with (bytes_of "host") in Fh.
  change (field_name in_content_length) with (bytes_of "content-length") in Fc.
  change (field_name in_transfer_encoding) with (bytes_of "transfer-encoding") in Ft.
  assert (Hmiss : host_missing r1 = bool_decide (first_value (bytes_of "host") hs = None) && (NGX_HTTP_VERSION_10 <? r_http_version r0)).
  { unfold host_missing. rewrite Hv, R7'. f_equal. rewrite <- Fh. unfold field_value. apply bool_decide_ext.
    by destruct (pointer (headers_in r1) in_host). }
  unfold refusal. rewrite Hmiss in H. destruct (_ && _); [by injection H as <- _|].
  set (r2 := match field_value r1 in_content_length with Some _ => _ | None => _ end) in H.
  assert (E2 : content_length_n (headers_in r2) = from_option ngx_atoof (-1) (first_value (bytes_of "content-length") hs)
    /\ chunked (headers_in r2) = false /\ headers (headers_in r2) = hs
    /\ server (headers_in r2) = host_of (server (headers_in r0)) hs /\ pointer (headers_in r2) = pointer (headers_in r)
    /\ r_method r2 = r_method r0 /\ field_value r2 in_transfer_encoding = first_value (bytes_of "transfer-encoding") hs).
  { rewrite <- Ft, <- Fc. unfold r2.
    rewrite <- R7, <- Hm, <- R6', <- R5, <- R6, <- Hi.
    rewrite <- Hi in R1, R2. destruct (field_value r1 in_content_length); by split_and!. }
  destruct E2 as (L1 & L2 & L3 & L4 & L5 & L6 & L7). clearbody r2.
  assert (Hcl : bool_decide (is_Some (pointer (headers_in r2) in_content_length)) && (content_length_n (headers_in r2) =? -1)
    = match first_value (bytes_of "content-length") hs with Some v => ngx_atoof v =? -1 | None => false end).
  { rewrite L1, L5, <- Hi, <- Fc. unfold field_value. by destruct (pointer (headers_in r1) in_content_length). }
  rewrite Hcl in H. destruct (match first_value _ hs with Some _ => _ | None => _ end); [by injection H as <- _|].
  rewrite L6 in H. destruct (negb _); [by injection H as <- _|].
  pose proof (transfer_encoding_spec hs r2 L7 L2) as Ht. cbv zeta in Ht. destruct (transfer_encoding r2) as [e3 r3].
  destruct Ht as [He Hr]. unfold framing.
  split.
  { transitivity e3; [by destruct e3; injection H as <- _|]. rewrite He. destruct (first_value (bytes_of "transfer-encoding") hs) as [v|]; [|done]. cbn.
    by rewrite !decide_Some. }
  intros ->. destruct e3 as [e3|]; [done|]. injection H as <-. specialize (Hr eq_refl).
  destruct (keep_alive_same r3) as (-> & -> & -> & -> & ->). rewrite Hr.
  case_bool_decide; cbn [fst]; [by split_and!|]. split_and!; [by rewrite L1, L2|done..|]. by rewrite L5.
Qed.
End Read.

(** ** Examples *)

Definition ex_core : HeaderCore := {|
  ngx_atoof v := if bool_decide (v = bytes_of "5") then 5 else -1;
  ngx_atotm _ := -1;
  ngx_strstrn v s _ := None;
  ngx_strcasestrn v s _ := None;
  ngx_strncasecmp a b n := if bool_decide (map tolower (take (Z.to_nat n) a) = map tolower (take (Z.to_nat n) b)) then 0 else 1;
  ngx_hash_find A elts _ n := snd <$> find (fun e => bool_decide (e.1 = n)) elts;
  ngx_array_init := true;
  ngx_array_push _ := true;
  c_ssl := false;
  SSL_get_verify_result := 0;
  X509_V_OK := 0;
  ngx_ssl_verify_error_optional _ := false;
  peer_certificate := false;
|}.

Lemma find_element {A} (elts : list (list Z * A)) n a : NoDup (map fst elts) ->
  snd <$> find (fun e => bool_decide (e.1 = n)) elts = Some a <-> (n, a) ∈ elts.
Proof.
  induction elts as [|[m b] elts IH]; cbn [map find]; intros Hd; [by split; [|intros ?%elem_of_nil]|].
  apply list.NoDup_cons in Hd as [Hm Hd]. rewrite elem_of_cons. cbn [fst snd]. case_bool_decide as E; cbn in E.
  - subst m. cbn. split; [intros [= ->]; by left|]. intros [[= ->]|Hin]; [done|]. exfalso. apply Hm, list_elem_of_In.
    apply in_map_iff. exists (n, a). split; [done|]. by apply list_elem_of_In.
  - rewrite IH by done. split; [by right|]. intros [[= -> ->]|]; done.
Qed.

#[export] Instance ex_core_ok : @HeaderCoreOk (HostNameProps.ex_core true) ex_core.
Proof.
  split; [done| |].
  - intros a b Hl. cbn. rewrite Nat2Z.id, firstn_all. rewrite <- Hl, firstn_all. by case_bool_decide.
  - intros A elts n a. apply find_element.
Qed.

Definition ex_servers (n : nat) : ngx_http_core_srv_conf_t := Srv_conf 4 8192 false true true 0.
Definition ex_hc : http_connection := Connection (Addr_conf 0 (Some (Names [(bytes_of "example.org", 1%nat)] []))) 0 None None.

Definition ex_header (n v : list Z) : ngx_table_elt :=
  Elt (@ngx_hash_key (HostNameProps.ex_core true) (map tolower n)) n v (map tolower n).

Definition ex_request : request :=
  Req NGX_HTTP_GET 1001 [] [] [] (ProcessUri.Fields [] [] [] [] true false)
    (HeadersIn [] (fun _ => None) (fun _ => None) [] (-1) (-1) 0 false false false false false false false false) 0 0.

Definition ex_post : list ngx_table_elt :=
  [ex_header (bytes_of "Host") (bytes_of "Example.org:80"); ex_header (bytes_of "Content-Length") (bytes_of "5");
   ex_header (bytes_of "Transfer-Encoding") (bytes_of "Chunked")].

Abbreviation ex_read := (@read_headers (HostNameProps.ex_core true) ex_core ex_servers ex_hc).
Abbreviation ex_done := (@ngx_http_process_request_header (HostNameProps.ex_core true) ex_core ex_servers ex_hc).

Lemma ex_parsed n v : Z.of_nat (length v) < 2 ^ 63 -> @parsed (HostNameProps.ex_core true) (ex_header n v).
Proof. by split. Qed.

Lemma ex_post_parsed : Forall (@parsed (HostNameProps.ex_core true)) ex_post.
Proof. repeat constructor. Qed.

Lemma request_headers_typed_witness :
  let r := (ex_read ex_post ex_request).2 in
  pointer (headers_in r) in_transfer_encoding = Some 2%nat /\ server (headers_in r) = bytes_of "example.org".
Proof.
  intros r.
  destruct (@request_headers_typed _ _ ex_core_ok ex_servers ex_hc ex_post ex_request r) as (_ & H1 & _ & _ & H2);
    [apply ex_post_parsed|by split_and!|vm_compute; reflexivity|]. split; [rewrite H1|rewrite H2]; vm_compute; reflexivity.
Defined.

Definition ex_posted : request := Eval vm_compute in (ex_read ex_post ex_request).2.
Definition ex_framed : request := Eval vm_compute in (ex_done ex_posted).2.

Lemma ex_no_headers : no_headers ex_request.
Proof. by split_and!. Qed.

Lemma request_framed_witness :
  (chunked (headers_in ex_framed), content_length_n (headers_in ex_framed)) = @framing ex_core ex_post.
Proof.
  pose proof (@request_framed (HostNameProps.ex_core true) ex_core ex_core_ok ex_servers ex_hc ex_post ex_request
    ex_posted None ex_framed ex_post_parsed ex_no_headers ltac:(vm_compute; reflexivity) ltac:(vm_compute; reflexivity)) as H.
  rewrite bool_decide_eq_false_2 in H by done. apply (proj2 H). done.
Defined.

(** Only the first "Transfer-Encoding" counts: this body is framed by its length,
    while a server behind that takes the last would see chunks. *)
Example second_coding_ignored :
  let hs := [ex_header (bytes_of "Host") (bytes_of "a"); ex_header (bytes_of "Content-Length") (bytes_of "5");
             ex_header (bytes_of "Transfer-Encoding") (bytes_of "identity");
             ex_header (bytes_of "Transfer-Encoding") (bytes_of "chunked")] in
  let e := ex_done (ex_read hs ex_request).2 in
  e.1 = None /\ @framing ex_core hs = (false, 5) /\ chunked (headers_in e.2) = false /\ content_length_n (headers_in e.2) = 5.
Proof. vm_compute. by split_and!. Qed.

End RequestHeadersProps.
