(* ===== verification/ReadRequest.v ===== *)
(** * Reading requests from a connection

    From [ngx_http_request.c]: the two event handlers that read a request line and
    the headers, the buffers they read into, and what happens to the buffers when a
    connection is kept for the next request, parts of which may have been read
    already.  A line that does not fit into what is left of a buffer is copied into
    a large one, and the pointers of the parser into it are moved.

    The socket has the bytes that have arrived; the handlers are called by events.
    Memory outside of the source is a parameter. *)

From S2P Require Import Prelude Scan Request RequestLine ProcessUri HeaderLine HostName RequestHeaders.

Module ReadRequest.
Import HostName RequestHeaders.

Definition NGX_HTTP_REQUEST_TIME_OUT : Z := 408.
Definition NGX_HTTP_REQUEST_URI_TOO_LARGE : Z := 414.
Definition NGX_HTTP_REQUEST_HEADER_TOO_LARGE : Z := 494.

(** A buffer: its bytes from [start] to [last] and [pos], its size, and where it
    is in memory. *)
Record ngx_buf_t := Header_buf { bytes : ngx_buf; size : Z; address : Z }.

(** How reading a request ended. *)
Inductive outcome :=
| Ended (e : ended)        (** by what was read: handled, or refused *)
| Too_large (rc : Z)       (** [ngx_http_finalize_request]: no buffer for a line *)
| Lost                     (** the client closed the connection: finalised with 400, or closed between requests *)
| Timed_out                (** closed with 408, or closed between requests *)
| Out_of_memory            (** closed with 500, or the connection closed *)
| Overrun (n : Z).         (** [n] bytes were written behind a buffer or an array *)

(** What the read event of the connection is for. *)
Inductive stage :=
| Idle (kept : bool)                     (** [ngx_http_keepalive_handler] when the connection was kept, else
                                             [ngx_http_wait_request_handler] *)
| Reading_line (s : RequestLine.locals)  (** [ngx_http_process_request_line] *)
| Reading_headers (s : HeaderLine.locals)
| Over (o : outcome).

Inductive peer := Open | Shut | Reset.

(** The connection [c] with its [hc] and the request [r]: [buffers], the first of
    which is [c->buffer]; [busy] and [free] as places of buffers, the last one of
    [free] first, with the length their arrays were made with; [pending], the bytes
    that [recv] has not taken. *)
Record reader := Reader {
  at_stage : stage;
  req : request;
  buffers : list ngx_buf_t;
  header_in : nat;
  busy : list nat;
  free : list nat;
  busy_room : option Z;
  free_room : option Z;
  pending : list Z;
  client : peer;
  timer_set : bool;
  calls : nat;   (** of [ngx_handle_read_event] *)
}.

Definition eta_reader (x : reader) : reader :=
  Reader (at_stage x) (req x) (buffers x) (header_in x) (busy x) (free x) (busy_room x) (free_room x) (pending x)
    (client x) (timer_set x) (calls x).
#[export] Instance set_at_stage : Setter at_stage := ltac:(derive_setter eta_reader at_stage).
#[export] Instance set_req : Setter req := ltac:(derive_setter eta_reader req).
#[export] Instance set_buffers : Setter buffers := ltac:(derive_setter eta_reader buffers).
#[export] Instance set_header_in : Setter header_in := ltac:(derive_setter eta_reader header_in).
#[export] Instance set_busy : Setter busy := ltac:(derive_setter eta_reader busy).
#[export] Instance set_free : Setter free := ltac:(derive_setter eta_reader free).
#[export] Instance set_busy_room : Setter busy_room := ltac:(derive_setter eta_reader busy_room).
#[export] Instance set_free_room : Setter free_room := ltac:(derive_setter eta_reader free_room).
#[export] Instance set_pending : Setter pending := ltac:(derive_setter eta_reader pending).
#[export] Instance set_client : Setter client := ltac:(derive_setter eta_reader client).
#[export] Instance set_timer_set : Setter timer_set := ltac:(derive_setter eta_reader timer_set).
#[export] Instance set_calls : Setter calls := ltac:(derive_setter eta_reader calls).

Class ReadCore := {
  NGX_MAX_ERROR_STR : Z;
  ngx_hash : Z -> Z -> Z;
  (** the address of the next buffer of that size, when [n] have been made *)
  ngx_create_temp_buf : nat -> Z -> option Z;
  ngx_palloc : Z -> bool;
  ngx_list_init : bool;
  ngx_list_push : nat -> bool;
  ngx_create_pool : bool;
  ngx_handle_read_event : nat -> bool;
  (** the length of the body of a request in the bytes that follow its headers, or
      [None] when it has not arrived; [RequestBody] models how it is read *)
  body_length : request -> list Z -> option nat;
}.

Section Reading.
Context {C : HostCore} {D : HeaderCore} {R : ReadCore}.
Context (servers : nat -> ngx_http_core_srv_conf_t) (hc : http_connection) (hc_ssl : bool).

Definition null_buf : ngx_buf_t := Header_buf (Buf [] 0) 0 0.
Definition buffer (x : reader) : ngx_buf_t := nth (header_in x) (buffers x) null_buf.
Definition on_buffer (f : ngx_buf -> ngx_buf) (x : reader) : reader :=
  let b := buffer x in
  x <| buffers := <[header_in x := Header_buf (f (bytes b)) (size b) (address b)]> (buffers x) |>.
Definition conf (x : reader) : ngx_http_core_srv_conf_t := servers (srv (req x)).
Definition over (o : outcome) (x : reader) : reader := x <| at_stage := Over o |>.

(** The buffer is full: [pos == end]. *)
Definition full (x : reader) : bool := b_pos (bytes (buffer x)) =? size (buffer x).

(** ** [ngx_http_read_request_header] *)

Inductive received := Again | Nothing | Got (bs : list Z).

(** [c->recv] into so much room, once the socket is ready. *)
Definition recv (room : Z) (x : reader) : received :=
  match pending x, client x with
  | [], Open => Again
  | [], _ => Nothing
  | bs, _ => if room =? 0 then Nothing else Got (take (Z.to_nat room) bs)
  end.

(** Whether there is something to parse; otherwise the handler returns. *)
Definition ngx_http_read_request_header (x : reader) : reader * bool :=
  let b := buffer x in
  if 0 <? b_last (bytes b) - b_pos (bytes b) then (x, true)
  else
    match recv (size b - b_last (bytes b)) x with
    | Again =>
        let x := x <| timer_set := true |> <| calls := S (calls x) |> in
        (if ngx_handle_read_event (calls x) then x else over Out_of_memory x, false)
    | Nothing => (over Lost x, false)
    | Got bs =>
        (on_buffer (fun b => Buf (b_mem b ++ bs) (b_pos b)) x <| pending := drop (length bs) (pending x) |>, true)
    end.

(** ** [ngx_http_alloc_large_header_buffer] *)

(** [r->state == 0] *)
Definition state_0 (x : reader) : bool :=
  match at_stage x with
  | Reading_line (RequestLine.sw_start, _) | Reading_headers (HeaderLine.sw_start, _) => true
  | Reading_line _ | Reading_headers _ => false
  | _ => true
  end.

(** The beginning of the line that is being read. *)
Definition line_start (x : reader) : option Z :=
  match at_stage x with
  | Reading_line s => request_start s.2
  | Reading_headers s => HeaderLine.header_name_start s.2
  | _ => None
  end.

(** A pointer that is moved when it is not NULL, and one that is moved anyway:
    NULL becomes the address that far from the new buffer. *)
Definition moved (old : Z) (p : option Z) : option Z := option_map (fun a => a - old) p.
Definition moved_anyway (base old : Z) (p : option Z) : option Z :=
  Some (match p with Some a => a - old | None => - (base + old) end).

(** [port_end] would be moved if anything set [port_start]. *)
Definition relocate_line (base old : Z) (r : ngx_http_request) : ngx_http_request :=
  let r := r <| request_start := Some 0 |> <| request_end := moved old (request_end r) |>
             <| method_end := moved_anyway base old (method_end r) |>
             <| uri_start := moved_anyway base old (uri_start r) |> <| uri_end := moved_anyway base old (uri_end r) |> in
  let r := match schema_start r with
           | Some _ => r <| schema_start := moved old (schema_start r) |> <| schema_end := moved_anyway base old (schema_end r) |>
           | None => r
           end in
  let r := match host_start r with
           | Some _ => r <| host_start := moved old (host_start r) |> <| host_end := moved old (host_end r) |>
           | None => r
           end in
  r <| uri_ext := moved old (uri_ext r) |> <| args_start := moved old (args_start r) |>
    <| http_protocol_data := moved old (http_protocol_data r) |>.

Definition relocate_header (base old : Z) (h : HeaderLine.header) : HeaderLine.header :=
  HeaderLine.Header (HeaderLine.header_hash h) (HeaderLine.lowcase_index h) (HeaderLine.lowcase_header h)
    (Some 0) (moved_anyway base old (HeaderLine.header_name_end h)) (moved_anyway base old (HeaderLine.header_start h))
    (moved_anyway base old (HeaderLine.header_end h)) (HeaderLine.invalid_header h).

Definition relocate (base old : Z) (s : stage) : stage :=
  match s with
  | Reading_line (st, r) => Reading_line (st, relocate_line base old r)
  | Reading_headers (st, h) => Reading_headers (st, relocate_header base old h)
  | _ => s
  end.

(** A buffer for the line: from the free ones, or a new one. *)
Definition take_large (x : reader) : ngx_rc * nat * reader :=
  match free x with
  | b :: bs => (NGX_OK, b, x <| free := bs |>)
  | [] =>
      if Z.of_nat (length (busy x)) <? large_num (conf x) then
        if bool_decide (busy_room x = None) && negb (ngx_palloc (large_num (conf x) * 8)) then (NGX_ERROR, 0%nat, x)
        else
          let x := match busy_room x with None => x <| busy_room := Some (large_num (conf x)) |> | Some _ => x end in
          match ngx_create_temp_buf (length (buffers x)) (large_size (conf x)) with
          | None => (NGX_ERROR, 0%nat, x)
          | Some a =>
              (NGX_OK, length (buffers x),
               x <| buffers := buffers x ++ [Header_buf (Buf [] 0) (large_size (conf x)) a] |>)
          end
      else (NGX_DECLINED, 0%nat, x)
  end.

(** [Code n] stands for a write of [n] bytes where they do not belong. *)
Definition ngx_http_alloc_large_header_buffer (request_line : bool) (x : reader) : ngx_rc * reader :=
  if request_line && state_0 x then (NGX_OK, on_buffer (fun _ => Buf [] 0) x)
  else
    let pos := b_pos (bytes (buffer x)) in
    let old := default 0 (line_start x) in
    if negb (state_0 x) && (large_size (conf x) <=? pos - old) then (NGX_DECLINED, x)
    else
      match take_large x with
      | (NGX_OK, b, x1) =>
          if default 0 (busy_room x1) <=? Z.of_nat (length (busy x1)) then (Code 8, x1)
          else
            let x2 := x1 <| busy := busy x1 ++ [b] |> in
            if state_0 x then (NGX_OK, x2 <| header_in := b |>)
            else
              let from := buffer x in
              let n := pos - old in
              let x3 := x2 <| header_in := b |> in
              if size (buffer x3) <? n then (Code (n - size (buffer x3)), x3)
              else
                (NGX_OK, on_buffer (fun _ => Buf (slice (b_mem (bytes from)) old pos) n) x3
                           <| at_stage := relocate (address from) old (at_stage x) |>)
      | (rc, _, x1) => (rc, x1)
      end.

(** ** When a line has been read *)

(** The end of [ngx_http_process_request_line] for a line in the memory [mem], read up to
    [pos]: [None] when the headers are next. *)
Definition line_done (mem : list Z) (pos : Z) (r : ngx_http_request) (q : request) : option ended * request :=
  let rs := default 0 (request_start r) in
  let re := default 0 (request_end r) in
  let q := q <| r_method := method r |> <| r_http_version := http_version r |>
             <| request_line := slice mem rs re |> <| request_length := pos - rs |>
             <| method_name := slice mem rs (default 0 (method_end r) + 1) |>
             <| http_protocol := match http_protocol_data r with Some a => slice mem a re | None => [] end |> in
  match ProcessUri.ngx_http_process_request_uri ngx_pnalloc mem r (default 0 (uri_start r)) (default 0 (uri_end r))
          (merge_slashes (servers (srv q))) [] [] with
  | ProcessUri.Closed => (Some (Closed NGX_HTTP_INTERNAL_SERVER_ERROR), q)
  | ProcessUri.Bad_request => (Some (Finalized NGX_HTTP_BAD_REQUEST), q)
  | ProcessUri.Stuck => (Some (Closed 0), q)
  | ProcessUri.Processed f =>
      let q := q <| uri := f |> in
      let host :=
        match host_start r, host_end r with
        | Some a, Some e =>
            match ngx_http_validate_host (slice mem a e) false with
            | (NGX_DECLINED, _) => (Some (Finalized NGX_HTTP_BAD_REQUEST), q)
            | (NGX_ERROR, _) => (Some (Closed NGX_HTTP_INTERNAL_SERVER_ERROR), q)
            | (_, host) =>
                match set_virtual_server servers hc host q with
                | (None, q) => (None, on_in (fun i => i <| server := host |>) q)
                | e => e
                end
            end
        | _, _ => (None, q)
        end in
      match host with
      | (Some e, q) => (Some e, q)
      | (None, q) =>
          if r_http_version q <? NGX_HTTP_VERSION_10 then
            let served := if bool_decide (server (headers_in q) = []) then set_virtual_server servers hc [] q else (None, q) in
            match served with
            | (Some e, q) => (Some e, q)
            | (None, q) => (Some (ngx_http_process_request servers hc_ssl q), q)
            end
          else if negb ngx_list_init then (Some (Closed NGX_HTTP_INTERNAL_SERVER_ERROR), q)
          else (None, q)
      end
  end.

(** A header line. *)
Definition header_done (mem : list Z) (pos : Z) (h : HeaderLine.header) (q : request) : option ended * request :=
  let q := q <| request_length := request_length q + (pos - default 0 (HeaderLine.header_name_start h)) |> in
  if HeaderLine.invalid_header h && ignore_invalid_headers (servers (srv q)) then (None, q)
  else if negb (ngx_list_push (length (headers (headers_in q)))) then (Some (Closed NGX_HTTP_INTERNAL_SERVER_ERROR), q)
  else
    let e := HeaderLine.make_elt ngx_strlow mem h in
    if negb (ngx_pnalloc (Z.of_nat (length (HeaderLine.key e)))) then (Some (Closed NGX_HTTP_INTERNAL_SERVER_ERROR), q)
    else process_header servers hc q e.

(** The empty line. *)
Definition headers_done (pos : Z) (h : HeaderLine.header) (q : request) : ended * request :=
  let q := q <| request_length := request_length q + (pos - default 0 (HeaderLine.header_name_start h)) |> in
  match ngx_http_process_request_header servers hc q with
  | (Some e, q) => (e, q)
  | (None, q) => (ngx_http_process_request servers hc_ssl q, q)
  end.

(** [h->key.data[h->key.len] = 0] and the same for the value. *)
Definition terminate (h : HeaderLine.header) (m : list Z) : list Z :=
  let put p m := match p with Some p => <[Z.to_nat p := NUL]> m | None => m end in
  put (HeaderLine.header_end h) (put (HeaderLine.header_name_end h) m).

(** ** The event handlers *)

(** One turn of the loop of [ngx_http_process_request_headers]; [again] is
    [rc == NGX_AGAIN] at its top, and so is what is returned, or [None] when the
    handler returns. *)
Definition too_long_header (x : reader) : outcome :=
  match line_start x with
  | None => Too_large NGX_HTTP_REQUEST_HEADER_TOO_LARGE
  | Some p =>
      let len := size (buffer x) - p in
      let most := NGX_MAX_ERROR_STR - 300 in
      (* three dots are written behind the first [most] bytes *)
      if (most <? len) && (len <? most + 3) then Overrun (most + 3 - len)
      else Too_large NGX_HTTP_REQUEST_HEADER_TOO_LARGE
  end.

Definition parse_header (x : reader) (s : HeaderLine.locals) : reader * option bool :=
  let b := bytes (buffer x) in
  let '(rc, s, b') := HeaderLine.ngx_http_parse_header_line ngx_hash (underscores_in_headers (conf x)) false s b in
  let x1 := on_buffer (fun _ => b') x <| at_stage := Reading_headers s |> in
  if bool_decide (rc = NGX_OK) then
    match header_done (b_mem b) (b_pos b') s.2 (req x) with
    | (Some e, q) => (over (Ended e) (x1 <| req := q |>), None)
    | (None, q) =>
        let ignored := HeaderLine.invalid_header s.2 && ignore_invalid_headers (conf x) in
        let x1 := if ignored then x1 else on_buffer (fun b => Buf (terminate s.2 (b_mem b)) (b_pos b)) x1 in
        (x1 <| req := q |>, Some false)
    end
  else if bool_decide (rc = NGX_HTTP_PARSE_HEADER_DONE) then
    let (e, q) := headers_done (b_pos b') s.2 (req x) in
    let x1 := match e with Handled => x1 <| timer_set := false |> | _ => x1 end in
    (over (Ended e) (x1 <| req := q |>), None)
  else if bool_decide (rc = NGX_AGAIN) then (x1, Some true)
  else (over (Ended (Finalized NGX_HTTP_BAD_REQUEST)) x1, None).

Definition header_turn (again : bool) (x : reader) : reader * option bool :=
  let parse x := match at_stage x with Reading_headers s => parse_header x s | _ => (x, None) end in
  if again then
    let (rc, x) := if full x then ngx_http_alloc_large_header_buffer false x else (NGX_OK, x) in
    match rc with
    | NGX_OK =>
        let (x, some) := ngx_http_read_request_header x in
        if some then parse x else (x, None)
    | NGX_DECLINED => (over (too_long_header x) x, None)
    | Code n => (over (Overrun n) x, None)
    | _ => (over Out_of_memory x, None)
    end
  else parse x.

(** [None] for want of fuel. *)
Fixpoint header_loop (fuel : nat) (again : bool) (x : reader) : option reader :=
  match fuel with
  | O => None
  | S fuel =>
      match header_turn again x with
      | (x, Some again) => header_loop fuel again x
      | (x, None) => Some x
      end
  end.

Definition ngx_http_process_request_headers (fuel : nat) (x : reader) : option reader := header_loop fuel true x.

(** [HeaderLine] has fields of its own for what the request has once, zero in a
    new one. *)
Definition begin_headers (x : reader) : reader :=
  x <| at_stage := Reading_headers (HeaderLine.sw_start, HeaderLine.fresh_header) |>.

(** One turn of [ngx_http_process_request_line]; true to go on, [None] when
    the headers are next. *)
Definition line_turn (x : reader) : reader * option bool :=
  let (x, some) := ngx_http_read_request_header x in
  if negb some then (x, Some false)
  else
    match at_stage x with
    | Reading_line s =>
        let b := bytes (buffer x) in
        let '(rc, s, b') := RequestLine.ngx_http_parse_request_line s b in
        let x1 := on_buffer (fun _ => b') x <| at_stage := Reading_line s |> in
        if bool_decide (rc = NGX_OK) then
          match line_done (b_mem b) (b_pos b') s.2 (req x) with
          | (Some e, q) =>
              let x1 := match e with Handled => x1 <| timer_set := false |> | _ => x1 end in
              (over (Ended e) (x1 <| req := q |>), Some false)
          | (None, q) => (begin_headers (x1 <| req := q |>), None)
          end
        else if negb (bool_decide (rc = NGX_AGAIN)) then (over (Ended (Finalized NGX_HTTP_BAD_REQUEST)) x1, Some false)
        else if full x1 then
          let (rc, x1) := ngx_http_alloc_large_header_buffer true x1 in
          match rc with
          | NGX_OK => (x1, Some true)
          | NGX_DECLINED => (over (Too_large NGX_HTTP_REQUEST_URI_TOO_LARGE) x1, Some false)
          | Code n => (over (Overrun n) x1, Some false)
          | _ => (over Out_of_memory x1, Some false)
          end
        else (x1, Some true)
    | _ => (x, Some false)
    end.

Fixpoint ngx_http_process_request_line (fuel : nat) (x : reader) : option reader :=
  match fuel with
  | O => None
  | S fuel =>
      match line_turn x with
      | (x, Some true) => ngx_http_process_request_line fuel x
      | (x, Some false) => Some x
      | (x, None) => ngx_http_process_request_headers fuel x
      end
  end.

(** ** Requests of a connection *)

Definition new_request : request :=
  Req NGX_HTTP_UNKNOWN NGX_HTTP_VERSION_10 [] [] [] (ProcessUri.Fields [] [] [] [] false false)
    (HeadersIn [] (fun _ => None) (fun _ => None) [] (-1) (-1) 0 false false false false false false false false)
    (conf_ctx hc) 0.

Definition ngx_http_create_request (x : reader) : option reader :=
  if ngx_create_pool then
    Some (x <| req := new_request |> <| header_in := match busy x with b :: _ => b | [] => 0%nat end |>
            <| at_stage := Reading_line (RequestLine.sw_start, fresh_request) |>)
  else None.

(** The buffers [busy[0]] to [busy[nbusy - 2]] go to the free ones. *)
Definition empty_buf (b : nat) (bs : list ngx_buf_t) : list ngx_buf_t :=
  alter (fun b => Header_buf (Buf [] 0) (size b) (address b)) b bs.

Definition rotate (x : reader) : ngx_rc * reader :=
  if bool_decide (free_room x = None) && negb (ngx_palloc (large_num (conf x) * 8)) then (NGX_ERROR, x)
  else
    let x := match free_room x with None => x <| free_room := Some (large_num (conf x)) |> | Some _ => x end in
    let bs := take (length (busy x) - 1) (busy x) in
    if default 0 (free_room x) <? Z.of_nat (length bs + length (free x)) then
      (Code (8 * (Z.of_nat (length bs + length (free x)) - default 0 (free_room x))), x)
    else
      (NGX_OK, x <| buffers := fold_left (fun l b => empty_buf b l) bs (buffers x) |>
                 <| free := rev bs ++ free x |> <| busy := [header_in x] |>).

(** The buffers in [ngx_http_set_keepalive], when the request has been served and
    the connection is kept.  The memory of [c->buffer] is not given back here: that
    is the branch where [ngx_pfree] declines, because it belongs to the pool. *)
Definition ngx_http_set_keepalive (x : reader) : reader :=
  let b := bytes (buffer x) in
  let more := b_pos b <? b_last b in
  let (rc, x) := if more && negb (bool_decide (header_in x = 0%nat)) then rotate x else (NGX_OK, x) in
  match rc with
  | NGX_OK =>
      let x := x <| calls := S (calls x) |> in
      if negb (ngx_handle_read_event (calls x)) then over Out_of_memory x
      else if more then
        match ngx_http_create_request x with
        | Some x => x <| timer_set := false |>
        | None => over Out_of_memory x
        end
      else
        x <| buffers := empty_buf 0 (buffers x) |> <| free := [] |> <| busy := [] |> <| at_stage := Idle true |>
          <| timer_set := true |>
  | Code n => over (Overrun n) x
  | _ => over Out_of_memory x
  end.

(** The first bytes of a request.  The memory of [c->buffer] is there; that a handler
    gets it on its first call, or gives it back while it waits, is left out. *)
Definition first_bytes (fuel : nat) (kept : bool) (x : reader) : option reader :=
  let b := nth 0 (buffers x) null_buf in
  match recv (size b) x with
  | Again =>
      let x := (if kept then x else x <| timer_set := true |>) <| calls := S (calls x) |> in
      Some (if ngx_handle_read_event (calls x) then x else over Out_of_memory x)
  | Nothing => Some (over Lost x)
  | Got bs =>
      let x := x <| buffers := <[0%nat := Header_buf (Buf (b_mem (bytes b) ++ bs) (b_pos (bytes b))) (size b) (address b)]> (buffers x) |>
                 <| pending := drop (length bs) (pending x) |> in
      match ngx_http_create_request x with
      | Some x => ngx_http_process_request_line fuel (if kept then x <| timer_set := false |> else x)
      | None => Some (over Out_of_memory x)
      end
  end.

Definition ngx_http_wait_request_handler (fuel : nat) (x : reader) : option reader := first_bytes fuel false x.
Definition ngx_http_keepalive_handler (fuel : nat) (x : reader) : option reader := first_bytes fuel true x.

Inductive event :=
| Arrived (bs : list Z)
| Closed_by_client
| Reset_by_client
| Timer
| Served.   (** the request has been handled with its body, and the connection is kept *)

(** The body of the request that is handled: [header_in->pos] goes over what of
    it has been read with the headers, the rest is taken from the socket into a
    buffer of its own. *)
Definition take_body (k : nat) (x : reader) : reader :=
  let b := bytes (buffer x) in
  let here := Nat.min k (length (unread b)) in
  on_buffer (fun b => Buf (b_mem b) (b_pos b + Z.of_nat here)) x <| pending := drop (k - here) (pending x) |>.

(** [rev->handler], with the fuel for a loop. *)
Definition run_handler (fuel : nat) (x : reader) : option reader :=
  match at_stage x with
  | Idle true => ngx_http_keepalive_handler fuel x
  | Idle false => ngx_http_wait_request_handler fuel x
  | Reading_line _ => ngx_http_process_request_line fuel x
  | Reading_headers _ => ngx_http_process_request_headers fuel x
  | Over _ => Some x
  end.

(** [rev->ready]: there is something to be read. *)
Definition ready (x : reader) : bool := negb (bool_decide (pending x = []) && match client x with Open => true | _ => false end).

(** A timer ends a request that is being read; when a request, or a part of one, is
    left in the buffers or the socket, the event is posted at once. *)
Definition dispatch (fuel : nat) (e : event) (x : reader) : option reader :=
  match e with
  | Arrived bs => run_handler fuel (x <| pending := pending x ++ bs |>)
  | Closed_by_client => run_handler fuel (x <| client := Shut |>)
  | Reset_by_client => run_handler fuel (x <| client := Reset |>)
  | Timer => Some (if timer_set x then match at_stage x with Over _ => x | _ => over Timed_out x end else x)
  | Served =>
      match at_stage x with
      | Over (Ended Handled) =>
          match body_length (req x) (unread (bytes (buffer x)) ++ pending x) with
          | None => Some x
          | Some k =>
              let x := ngx_http_set_keepalive (take_body k x) in
              match at_stage x with
              | Reading_line _ => run_handler fuel x
              | Idle _ => if ready x then run_handler fuel x else Some x
              | _ => Some x
              end
          end
      | _ => Some x
      end
  end.

Fixpoint run (fuel : nat) (es : list event) (x : reader) : option reader :=
  match es with
  | [] => Some x
  | e :: es => match dispatch fuel e x with Some x => run fuel es x | None => None end
  end.

(** A connection that has been accepted, with its buffer of [client_header_buffer_size]. *)
Definition accepted (size address : Z) : reader :=
  Reader (Idle false) new_request [Header_buf (Buf [] 0) size address] 0 [] [] None None [] Open true 0.
End Reading.

End ReadRequest.
