(* ===== verification/ReadRequestShift.v ===== *)
(** * The line parsers do not depend on where a line is

    A parser that is given the same bytes at another place, with its pointers moved
    as far, does the same and leaves its pointers moved as far.  Pointers that it
    has not set yet need not correspond. *)

From S2P Require Import Prelude Scan Request RequestLine RequestLineFacts RequestLineProps ComplexUri ProcessUri HeaderLine HeaderLineProps HostName RequestHeaders ReadRequest.

Module ReadRequestShift.

(** ** The loop *)

Section Loop.
Context {S S' L : Type} (f : Z -> Z -> S -> outcome S L) (f' : Z -> Z -> S' -> outcome S' L) (d : Z).
Context (I : Z -> S -> S' -> Prop) (Q : Z -> L -> S -> S' -> Prop).

Definition step_alike : Prop := forall p ch s s', I p s s' ->
  match f p ch s, f' (p + d) ch s' with
  | Next t, Next t' => I (p + 1) t t'
  | Stop l t, Stop l' t' => l = l' /\ Q p l t t'
  | _, _ => False
  end.

Lemma scan_shift bs : step_alike -> forall p s s', I p s s' ->
  match scan f p bs s, scan f' (p + d) bs s' with
  | (q, t, None), (q', t', None) => q' = q + d /\ I q t t'
  | (q, t, Some l), (q', t', Some l') => q' = q + d /\ l = l' /\ Q q l t t'
  | _, _ => False
  end.
Proof.
  intros Hf. induction bs as [|ch bs IH]; intros p s s' H; cbn [scan]; [done|].
  specialize (Hf p ch s s' H). destruct (f p ch s) as [t|l t], (f' (p + d) ch s') as [t'|l' t']; try done.
  replace (p + d + 1) with (p + 1 + d) by lia. by apply IH.
Qed.
End Loop.

(** A pointer [d] further. *)
Definition sh (d : Z) (p p' : option Z) : Prop := p' = option_map (fun a => a + d) p.

Lemma sh_Some d a a' : a' = a + d -> sh d (Some a) (Some a').
Proof. by intros ->. Qed.

(** From [lo] on [m] is what [m'] is from [lo + d] on. *)
Definition view (lo d : Z) (m m' : list Z) : Prop :=
  0 <= lo /\ 0 <= lo + d /\ drop (Z.to_nat (lo + d)) m' = drop (Z.to_nat lo) m.

Section View.
Context (lo d : Z) (m m' : list Z) (V : view lo d m m').

Lemma view_drop a : lo <= a -> drop (Z.to_nat (a + d)) m' = drop (Z.to_nat a) m.
Proof.
  destruct V as (H1 & H2 & H3). intros Ha.
  replace (Z.to_nat (a + d)) with (Z.to_nat (lo + d) + Z.to_nat (a - lo))%nat by lia.
  replace (Z.to_nat a) with (Z.to_nat lo + Z.to_nat (a - lo))%nat by lia.
  by rewrite <- !drop_drop, H3.
Qed.

Lemma view_mono a : lo <= a -> view a d m m'.
Proof. intros Ha. pose proof V as (? & ? & _). split; [lia|]. split; [lia|]. by apply view_drop. Qed.

Lemma view_slice a e : lo <= a -> slice m' (a + d) (e + d) = slice m a e.
Proof. intros Ha. unfold slice. rewrite view_drop by done. by replace (e + d - (a + d)) with (e - a) by lia. Qed.

Lemma view_rd a : lo <= a -> rd m' (a + d) = rd m a.
Proof.
  intros Ha. pose proof V as (? & ? & _). pose proof (view_drop a Ha) as H1.
  pose proof (rd_drop m' (a + d) 0 ltac:(lia) ltac:(lia)) as H2. rewrite H1, rd_drop in H2 by lia.
  by rewrite !Z.add_0_r in H2.
Qed.

Lemma view_app ys : lo <= Z.of_nat (length m) -> lo + d <= Z.of_nat (length m') -> view lo d (m ++ ys) (m' ++ ys).
Proof.
  destruct V as (H1 & H2 & H3). intros Hl Hl'. split; [done|]. split; [done|].
  rewrite !drop_app_le by lia. by rewrite H3.
Qed.
End View.

(** ** The request line *)

Section Line.
Import RequestLine.

(** The states in which a pointer has been set. *)
Definition method_set (st : sw) : bool := match st with sw_start | sw_method => false | _ => true end.
Definition uri_set (st : sw) : bool :=
  match st with
  | sw_start | sw_method | sw_spaces_before_uri | sw_schema | sw_schema_slash | sw_schema_slash_slash | sw_host_start
  | sw_host | sw_host_end | sw_host_ip_literal | sw_port => false
  | _ => true
  end.
Definition uri_end_set (st : sw) : bool :=
  uri_set st && match st with sw_after_slash_in_uri | sw_check_uri | sw_uri => false | _ => true end.

Record line_sim (d : Z) (st : sw) (r r' : ngx_http_request) : Prop := {
  ls_method : method r' = method r;
  ls_version : http_version r' = http_version r;
  ls_minor : http_minor r' = http_minor r;
  ls_major : http_major r' = http_major r;
  ls_complex : complex_uri r' = complex_uri r;
  ls_quoted : quoted_uri r' = quoted_uri r;
  ls_plus : plus_in_uri r' = plus_in_uri r;
  ls_space : space_in_uri r' = space_in_uri r;
  ls_start : st <> sw_start -> sh d (request_start r) (request_start r');
  ls_end : sh d (request_end r) (request_end r');
  ls_method_end : method_set st = true -> sh d (method_end r) (method_end r');
  ls_schema_start : sh d (schema_start r) (schema_start r');
  ls_schema_end : st <> sw_schema -> sh d (schema_end r) (schema_end r');
  ls_host_start : sh d (host_start r) (host_start r');
  ls_host_end : sh d (host_end r) (host_end r');
  ls_uri_start : uri_set st = true -> sh d (uri_start r) (uri_start r');
  ls_uri_end : uri_end_set st = true -> sh d (uri_end r) (uri_end r');
  ls_ext : sh d (uri_ext r) (uri_ext r');
  ls_args : sh d (args_start r) (args_start r');
  ls_protocol : sh d (http_protocol_data r) (http_protocol_data r');
}.

Lemma after_schema_sh d n r r' : sh d (schema_end r) (schema_end r') -> sh d (after_schema n r) (after_schema n r').
Proof. unfold sh, after_schema. intros ->. destruct (schema_end r); [|done]. cbn. f_equal. lia. Qed.

Ltac sim :=
  constructor; cbn;
  first [ done | assumption | by apply after_schema_sh; auto | by intros _; apply after_schema_sh; auto
        | by intros; apply sh_Some; lia | by apply sh_Some; lia | by auto | congruence | idtac ].

Lemma line_step_shift d m m' p ch st r r' : line_sim d st r r' ->
  (st = sw_method -> forall a, request_start r = Some a -> drop (Z.to_nat (a + d)) m' = drop (Z.to_nat a) m) ->
  match step m p ch (st, r), step m' (p + d) ch (st, r') with
  | Next t, Next t' => t.1 = t'.1 /\ line_sim d t.1 t.2 t'.2
  | Stop l t, Stop l' t' => l = l' /\ (l = done -> line_sim d sw_almost_done t.2 t'.2)
  | _, _ => False
  end.
Proof.
  intros Hs Hw. destruct Hs. destruct st.
  all: repeat match goal with H : _ <> _ -> _ |- _ => specialize (H ltac:(done)) | H : true = true -> _ |- _ => specialize (H eq_refl) end.
  all: try (unfold_cases; split_ifs; cbn; (split; [done|]); try (intros ?); try done; sim; fail).
  destruct (request_start r) as [a|] eqn:Ea.
  all: assert (E' : request_start r' = option_map (fun a => a + d) (request_start r)) by (unfold sh in ls_start0; by rewrite Ea).
  all: rewrite Ea in E'; unfold_cases; rewrite ?E', ?Ea, ?ls_method0; cbn [option_map]; split_ifs; cbn; rewrite ?E', ?Ea; (split; [done|]); try (intros ?); try done.
  all: constructor; cbn; auto; intros; try done; unfold sh in *; rewrite ?E', ?Ea; cbn; auto; try (f_equal; lia).
  rewrite (Hw eq_refl a eq_refl), ls_method0. f_equal. lia.
Qed.

(** What the pointers of a line that is being read are, when nothing has been
    moved: those that are set are not before the beginning of the line. *)
Definition from (a : Z) (o : option Z) : Prop := match o with Some x => a <= x | None => True end.

Definition upto (p : Z) (o : option Z) : Prop := match o with Some x => x <= p | None => True end.

Definition schema_set (st : sw) : bool :=
  match st with
  | sw_schema_slash | sw_schema_slash_slash | sw_host_start | sw_host | sw_host_end | sw_host_ip_literal | sw_port => true
  | _ => false
  end.

Definition schema_begun (st : sw) : bool := match st with sw_schema => true | _ => schema_set st end.
Definition host_set (st : sw) : bool := match st with sw_host | sw_host_end | sw_host_ip_literal => true | _ => false end.
Definition before_schema (st : sw) : bool := match st with sw_start | sw_method | sw_spaces_before_uri => true | _ => false end.
Definition schema_over (st : sw) : bool := match st with sw_schema => false | _ => true end.

Record marks (p : Z) (st : sw) (a : Z) (r : ngx_http_request) : Prop := {
  mk_start : st <> sw_start -> request_start r = Some a;
  mk_before : st <> sw_start -> a < p;
  mk_method_end : method_set st = true -> is_Some (method_end r);
  mk_schema : before_schema st = true -> schema_start r = None;
  mk_schema_none : schema_start r = None -> schema_end r = None;
  mk_schema_begun : schema_begun st = true -> is_Some (schema_start r);
  mk_schema_some : schema_over st = true -> is_Some (schema_start r) -> is_Some (schema_end r);
  mk_schema_set : schema_set st = true -> is_Some (schema_end r);
  mk_schema_end : from a (schema_end r);
  mk_schema_start : from a (schema_start r);
  mk_host_none : host_start r = None -> host_end r = None;
  mk_host : host_set st = true -> is_Some (host_start r);
  mk_host_start : from a (host_start r);
  mk_uri : uri_set st = true -> is_Some (uri_start r);
  mk_uri_start : from a (uri_start r);
  mk_uri_end : uri_end_set st = true -> is_Some (uri_end r);
  mk_ext : from a (uri_ext r);
  mk_args : from a (args_start r);
  mk_protocol : from a (http_protocol_data r);
  mk_host_end : upto p (host_end r);
  mk_args_end : upto p (args_start r);
}.

Lemma upto_next p o : upto p o -> upto (p + 1) o.
Proof. destruct o; cbn; lia. Qed.

Lemma from_le a b o : b <= a -> from a o -> from b o.
Proof. destruct o; cbn; lia. Qed.

Lemma marks_step m p ch st a r : marks p st a r -> st <> sw_start ->
  match step m p ch (st, r) with
  | Next t => marks (p + 1) t.1 a t.2
  | Stop l t => l = done -> marks (p + 1) sw_almost_done a t.2
  end.
Proof.
  intros Hm Hst. destruct Hm. specialize (mk_start0 Hst). specialize (mk_before0 Hst). destruct st; try done.
  all: cbn in *; repeat match goal with H : true = true -> _ |- _ => specialize (H eq_refl) | H : false = true -> _ |- _ => clear H end.
  all: unfold_cases; unfold after_schema; rewrite ?mk_start0; split_ifs; cbn; rewrite ?mk_start0; try (intros ?); try done.
  all: repeat match goal with H : is_Some ?o |- _ => let v := fresh "v" in let E := fresh "E" in destruct H as [v E]; rewrite E in * end.
  all: constructor; cbn; intros; auto using upto_next; try done; try lia; eauto;
    try match goal with E : ?x = Some _ |- context [?x] => rewrite E end; simplify_eq; cbn in *; auto; try lia;
    try match goal with E : ?x = Some _, H : ?x = None |- _ => congruence end.
Qed.
Lemma never_start_again m p ch st r t : st <> sw_start -> step m p ch (st, r) = Next t -> t.1 <> sw_start.
Proof. intros Hst. destruct st; try done; unfold_cases; split_ifs; by intros [= <-]. Qed.

(** Before a line begins nothing is set. *)
Definition clean (r : ngx_http_request) : Prop :=
  schema_start r = None /\ schema_end r = None /\ host_start r = None /\ host_end r = None /\ uri_start r = None
  /\ uri_ext r = None /\ args_start r = None /\ http_protocol_data r = None.

Definition marked (lo p : Z) (s : locals) : Prop :=
  lo <= p /\ match s.1 with sw_start => clean s.2 | st => exists a, lo <= a /\ marks p st a s.2 end.

Lemma marked_iff lo p st r : st <> sw_start -> marked lo p (st, r) <-> lo <= p /\ exists a, lo <= a /\ marks p st a r.
Proof. unfold marked. by destruct st. Qed.

Lemma marks_of_clean st p a r : st = sw_start \/ st = sw_method -> clean r -> a < p -> request_start r = Some a -> marks p st a r.
Proof.
  intros Hst (E1 & E2 & E3 & E4 & E5 & E6 & E7 & E8) Ha Er.
  constructor; rewrite ?E1, ?E2, ?E3, ?E4, ?E5, ?E6, ?E7, ?E8; auto; try done; try (by intros _ [? ?]); by destruct Hst as [-> | ->].
Qed.

Lemma marked_step lo m p ch s : marked lo p s ->
  match step m p ch s with
  | Next t => marked lo (p + 1) t
  | Stop l t => l = done -> exists a, lo <= a /\ marks (p + 1) sw_almost_done a t.2
  end.
Proof.
  destruct s as [st r]. destruct (decide (st = sw_start)) as [-> | Hst].
  - intros [Hl Hc]. cbn in Hc. unfold_cases. split_ifs; cbn; try done.
    + split; [cbn; lia|]. done.
    + apply (marked_iff _ _ sw_method); [done|]. split; [lia|]. exists p. split; [done|].
      apply marks_of_clean; auto; cbn; lia.
  - intros Hm. apply marked_iff in Hm as (Hl & a & Ha & Hm); [|done].
    pose proof (marks_step m p ch st a r Hm Hst) as H. destruct (step m p ch (st, r)) as [[st' r']|l t] eqn:E; [|eauto].
    apply marked_iff; [|eauto with lia]. by apply never_start_again in E.
Qed.

Lemma finish_shift d p r r' : line_sim d sw_almost_done r r' ->
  (finish p r).1 = (finish (p + d) r').1 /\ line_sim d sw_almost_done (finish p r).2 (finish (p + d) r').2
  /\ is_Some (request_end (finish p r).2).
Proof.
  intros H. destruct H. unfold finish. unfold sh in ls_end0. rewrite ls_end0. destruct (request_end r) as [e|] eqn:Ee; cbn.
  all: rewrite ls_minor0, ls_major0, ls_method0; destruct (_ && _); cbn; rewrite ?Ee; (split; [done|]); (split; [|by eexists]).
  all: constructor; cbn; auto; try congruence; unfold sh; rewrite ?Ee, ?ls_end0; done.
Qed.

Lemma marks_finish p a q r : marks q sw_almost_done a r -> marks q sw_almost_done a (finish p r).2.
Proof.
  intros Hm. unfold finish. destruct (request_end r); destruct (_ && _); destruct Hm; by constructor.
Qed.

Definition is_error (l : label) : Prop := match l with ret rc => rc <> NGX_AGAIN /\ rc <> NGX_OK | done => True end.

Lemma stop_error m p ch s l t : step m p ch s = Stop l t -> is_error l.
Proof. destruct s as [st r]. destruct st; unfold_cases; split_ifs; by intros [= <- _]. Qed.

Lemma both_step lo d m m' : view lo d m m' ->
  step_alike (step m) (step m') d
    (fun p s s' => s.1 = s'.1 /\ line_sim d s.1 s.2 s'.2 /\ marked lo p s)
    (fun p l s s' => is_error l /\ (l = done -> line_sim d sw_almost_done s.2 s'.2 /\ exists a, lo <= a /\ marks (p + 1) sw_almost_done a s.2)).
Proof.
  intros V p ch [st r] [st' r'] (E & Hs & Hm). cbn in E, Hs. subst st'.
  pose proof (marked_step lo m p ch _ Hm) as H1.
  pose proof (line_step_shift d m m' p ch st r r' Hs) as H2.
  assert (Hw : st = sw_method -> forall a, request_start r = Some a -> drop (Z.to_nat (a + d)) m' = drop (Z.to_nat a) m).
  { intros -> a Ea. apply (view_drop _ _ _ _ V). apply marked_iff in Hm as (_ & b & Hb & Hm); [|done].
    pose proof (mk_start _ _ _ _ Hm ltac:(done)) as Ea'. cbn in Ea'. by simplify_eq. }
  specialize (H2 Hw). pose proof (stop_error m p ch (st, r)) as H3. destruct (step m p ch (st, r)), (step m' (p + d) ch (st, r')); try done.
  - by destruct H2.
  - destruct H2 as [-> H2]. split; [done|]. split; eauto.
Qed.

Lemma line_parse_shift lo d m m' pos st r r' : view lo d m m' -> buf_wf (Buf m pos) -> marked lo pos (st, r) -> line_sim d st r r' ->
  match ngx_http_parse_request_line (st, r) (Buf m pos), ngx_http_parse_request_line (st, r') (Buf m' (pos + d)) with
  | (rc, (st1, r1), b), (rc', (st1', r1'), b') =>
      rc = rc' /\ st1 = st1' /\ b_mem b = m /\ b' = Buf m' (b_pos b + d)
      /\ (rc = NGX_AGAIN -> line_sim d st1 r1 r1' /\ marked lo (b_pos b) (st1, r1))
      /\ (rc = NGX_OK -> line_sim d sw_almost_done r1 r1' /\ is_Some (request_end r1)
                         /\ exists a, lo <= a /\ marks (b_pos b) sw_almost_done a r1)
  end.
Proof.
  intros V Hwf Hm Hs.
  assert (Hlo : lo <= pos) by apply Hm.
  unfold ngx_http_parse_request_line, unread; cbn [b_mem b_pos]. rewrite (view_drop _ _ _ _ V) by done.
  pose proof (scan_shift (step m) (step m') d
    (fun p s s' => s.1 = s'.1 /\ line_sim d s.1 s.2 s'.2 /\ marked lo p s)
    (fun p l s s' => is_error l /\ (l = done -> line_sim d sw_almost_done s.2 s'.2 /\ exists a, lo <= a /\ marks (p + 1) sw_almost_done a s.2))
    (drop (Z.to_nat pos) m)) as H.
  specialize (H ltac:(exact (both_step lo d m m' V)) pos (st, r) (st, r') (conj eq_refl (conj Hs Hm))).
  destruct (scan (step m) pos _ (st, r)) as [[q [st1 r1]] [l|]], (scan (step m') (pos + d) _ (st, r')) as [[q' [st1' r1']] [l'|]]; try done.
  - destruct H as (-> & <- & H). destruct l as [|rc]; [|destruct H as [[? ?] _]; by repeat split].
    destruct H as [_ H]. destruct (H eq_refl) as [Hs1 (a & Ha & Hm1)]. cbn in Hs1, Hm1.
    pose proof (finish_shift d q r1 r1' Hs1) as (E1 & E2 & E3). pose proof (marks_finish q a _ _ Hm1) as Hm2.
    destruct (finish q r1) as [rc r2] eqn:Ef, (finish (q + d) r1') as [rc' r2']. cbn in *. subst rc'.
    split; [done|]. split; [done|]. split; [done|]. split; [f_equal; lia|]. split; [|eauto].
    intros ->. exfalso. revert Ef. unfold finish. by destruct (request_end r1); destruct (_ && _).
  - destruct H as (-> & E & H1 & H2). cbn in E, H1. subst st1'. split; [done|]. split; [done|]. split; [done|]. split; [done|]. by split.
Qed.
End Line.
End ReadRequestShift.

(** * The parser of header lines does not depend on where a line is

    As [ReadRequestShift] for the request line. *)
Module ReadHeaderShift.
Import HeaderLine ReadRequestShift.

(** The states in which a pointer has been set. *)
Definition name_end_set (st : sw) : bool := match st with sw_start | sw_name | sw_ignore_line | sw_header_almost_done => false | _ => true end.
Definition start_set (st : sw) : bool := match st with sw_value | sw_space_after_value | sw_almost_done => true | _ => false end.
Definition end_set (st : sw) : bool := match st with sw_space_after_value | sw_almost_done => true | _ => false end.
Definition name_set (st : sw) : bool := match st with sw_start | sw_ignore_line => false | _ => true end.

Record header_sim (d : Z) (st : sw) (h h' : header) : Prop := {
  hs_hash : header_hash h' = header_hash h;
  hs_index : lowcase_index h' = lowcase_index h;
  hs_lowcase : lowcase_header h' = lowcase_header h;
  hs_invalid : invalid_header h' = invalid_header h;
  hs_name : name_set st = true -> sh d (header_name_start h) (header_name_start h');
  hs_name_end : name_end_set st = true -> sh d (header_name_end h) (header_name_end h');
  hs_start : start_set st = true -> sh d (header_start h) (header_start h');
  hs_end : end_set st = true -> sh d (header_end h) (header_end h');
}.

(** [p] is past the pointers that have been set. *)
Record header_marks (lo p : Z) (st : sw) (h : header) : Prop := {
  hm_lo : lo <= p;
  hm_read : st <> sw_ignore_line;
  hm_name : name_set st = true -> ptr (header_name_start h) (fun a => lo <= a < p);
  hm_name_end : name_end_set st = true -> ptr (header_name_start h) (fun b => ptr (header_name_end h) (fun a => b <= a < p));
  hm_start : start_set st = true -> ptr (header_name_start h) (fun b => ptr (header_start h) (fun a => b <= a));
  hm_end : end_set st = true -> ptr (header_name_start h) (fun b => ptr (header_end h) (fun a => b <= a < p));
}.

(** The state whose pointers are set when the parser is left. *)
Definition left_in (l : label) : sw :=
  match l with done => sw_almost_done | header_done => sw_header_almost_done | ret _ => sw_start end.
Definition header_error (l : label) : Prop :=
  match l with ret rc => rc = NGX_HTTP_PARSE_INVALID_HEADER | _ => True end.

Section Step.
Context (ngx_hash : Z -> Z -> Z) (allow : bool) (lo d : Z) (m m' : list Z).

Lemma ptr_weaken (o : option Z) (P Q : Z -> Prop) : ptr o P -> (forall a, P a -> Q a) -> ptr o Q.
Proof. intros H1 H2. by apply (ptr_impl _ _ _ H1). Qed.

Lemma header_step_shift p ch st h h' : header_sim d st h h' ->
  match step ngx_hash allow false m p ch (st, h), step ngx_hash allow false m' (p + d) ch (st, h') with
  | Next t, Next t' => t.1 = t'.1 /\ header_sim d t.1 t.2 t'.2
  | Stop l t, Stop l' t' => l = l' /\ header_sim d (left_in l) t.2 t'.2
  | _, _ => False
  end.
Proof.
  intros Hs. destruct Hs. destruct st; cbn in *.
  all: repeat match goal with H : true = true -> _ |- _ => specialize (H eq_refl) | H : false = true -> _ |- _ => clear H end.
  all: unfold_header; unfold first_char, name_char, with_name_start, with_name_end, with_start, with_end, with_invalid;
    rewrite ?andb_false_r; cbn [andb]; split_ifs; cbn; (split; [done|]).
  all: constructor; cbn; try done; try (intros _; by apply sh_Some); congruence.
Qed.

Lemma header_marks_step p ch st h : header_marks lo p st h ->
  match step ngx_hash allow false m p ch (st, h) with
  | Next t => header_marks lo (p + 1) t.1 t.2
  | Stop l t => header_error l /\ header_marks lo (p + 1) (left_in l) t.2
  end.
Proof.
  intros Hs. destruct Hs. destruct st; cbn in *.
  all: repeat match goal with H : true = true -> _ |- _ => specialize (H eq_refl) | H : false = true -> _ |- _ => clear H end.
  all: unfold_header; unfold first_char, name_char, with_name_start, with_name_end, with_start, with_end, with_invalid;
    rewrite ?andb_false_r; cbn [andb]; split_ifs; cbn; try (split; [done|]).
  all: constructor; cbn; try lia; intros; try done; open_ptr; repeat match goal with E : _ = Some _ |- _ => rewrite E end; cbn; lia.
Qed.

Lemma header_both_step :
  step_alike (step ngx_hash allow false m) (step ngx_hash allow false m') d
    (fun p s s' => s.1 = s'.1 /\ header_sim d s.1 s.2 s'.2 /\ header_marks lo p s.1 s.2)
    (fun p l s s' => header_error l /\ header_sim d (left_in l) s.2 s'.2 /\ header_marks lo (p + 1) (left_in l) s.2).
Proof.
  intros p ch [st h] [st' h'] (E & Hs & Hm). cbn in E, Hs, Hm. subst st'.
  pose proof (header_marks_step p ch st h Hm) as H1. pose proof (header_step_shift p ch st h h' Hs) as H2.
  destruct (step _ _ _ m p ch (st, h)), (step _ _ _ m' (p + d) ch (st, h')); try done.
  - by destruct H2.
  - destruct H1, H2. by split_and!.
Qed.

Lemma unsaved_sim h0 h0' h h' st : header_sim d st h h' -> header_hash h0' = header_hash h0 -> lowcase_index h0' = lowcase_index h0 ->
  header_sim d st (unsaved h0 h) (unsaved h0' h').
Proof. intros [] ? ?. by constructor. Qed.

Lemma unsaved_marks h0 h p st : header_marks lo p st h -> header_marks lo p st (unsaved h0 h).
Proof. intros []. by constructor. Qed.

Lemma header_parse_shift pos st h h' : view lo d m m' -> header_marks lo pos st h -> header_sim d st h h' ->
  match ngx_http_parse_header_line ngx_hash allow false (st, h) (Buf m pos),
        ngx_http_parse_header_line ngx_hash allow false (st, h') (Buf m' (pos + d)) with
  | (rc, (st1, h1), b), (rc', (st1', h1'), b') =>
      rc = rc' /\ st1 = st1' /\ b_mem b = m /\ b' = Buf m' (b_pos b + d)
      /\ (rc = NGX_AGAIN -> header_sim d st1 h1 h1' /\ header_marks lo (b_pos b) st1 h1)
      /\ (rc = NGX_OK -> header_sim d sw_almost_done h1 h1' /\ header_marks lo (b_pos b) sw_almost_done h1 /\ st1 = sw_start)
      /\ (rc = NGX_HTTP_PARSE_HEADER_DONE ->
            header_sim d sw_header_almost_done h1 h1' /\ header_marks lo (b_pos b) sw_header_almost_done h1)
  end.
Proof.
  intros V Hm Hs.
  pose proof (hm_lo _ _ _ _ Hm) as Hlo.
  unfold ngx_http_parse_header_line, unread; cbn [b_mem b_pos]. rewrite (view_drop _ _ _ _ V) by done.
  pose proof (scan_shift _ _ d _ _ (drop (Z.to_nat pos) m) header_both_step pos (st, h) (st, h') (conj eq_refl (conj Hs Hm))) as H.
  destruct (scan (step ngx_hash allow false m) pos _ (st, h)) as [[q [st1 h1]] [l|]], (scan (step ngx_hash allow false m') (pos + d) _ (st, h')) as [[q' [st1' h1']] [l'|]]; try done.
  - destruct H as (-> & <- & He & Hs1 & Hm1). cbn in Hs1, Hm1.
    pose proof (unsaved_sim h h' h1 h1' _ Hs1 (hs_hash _ _ _ _ Hs) (hs_index _ _ _ _ Hs)) as Hs2.
    pose proof (unsaved_marks h _ _ _ Hm1) as Hm2.
    destruct l as [| |rc]; cbn in *; subst; split_and!; auto; try done; f_equal; lia.
  - destruct H as (-> & E & H1 & H2). cbn in E, H1, H2. subst st1'. by split_and!.
Qed.
End Step.

(** ** What is made of a line *)

Lemma make_elt_shift ngx_strlow lo d m m' p h h' : view lo d m m' ->
  header_sim d sw_almost_done h h' -> header_marks lo p sw_almost_done h ->
  make_elt ngx_strlow m' h' = make_elt ngx_strlow m h.
Proof.
  intros V [H1 H2 H3 _ H5 H6 H7 H8] [_ _ M1 M2 M3 M4]. cbn in *. unfold make_elt.
  rewrite H1, H2, H3, (H5 eq_refl), (H6 eq_refl), (H7 eq_refl), (H8 eq_refl).
  specialize (M1 eq_refl). specialize (M2 eq_refl). specialize (M3 eq_refl). specialize (M4 eq_refl). open_ptr.
  repeat match goal with E : _ = Some _ |- _ => rewrite E end. cbn [option_map]. by rewrite !(view_slice _ _ _ _ V) by lia.
Qed.

End ReadHeaderShift.

(** * What is made of a line does not depend on where it is

    [ReadRequestShift] and [ReadHeaderShift] say that about the parsers, this file
    about what [ngx_http_process_request_line] and
    [ngx_http_process_request_headers] do with a line. *)
Module ReadDoneShift.
Import HostName RequestHeaders ReadRequestShift ReadHeaderShift ReadRequest.

(** ** The URI *)

Section Uri.
Import ComplexUri ProcessUri.
Context (lo d : Z) (m m' : list Z) (V : view lo d m m').

Definition shifted (s : locals) : locals :=
  Locals (state s) (quoted_state s) (decoded s) (ch s) (p s + d) (out s) (ext s)
    (option_map (fun a => a + d) (args s)) (plus s) (quoted s).

Definition inside (s : locals) : Prop := lo <= p s /\ from lo (args s).

Lemma complex_step_shift merge s : inside s ->
  match step m merge s with
  | Loop t => step m' merge (shifted s) = Loop (shifted t) /\ inside t
  | Exit e t => step m' merge (shifted s) = Exit e (shifted t) /\ inside t
  end.
Proof.
  intros [Hp Ha]. pose proof (view_rd lo d m m' V (p s) Hp) as Hr.
  unfold step, shifted, inside. destruct (state s) eqn:Es; cbn [state];
    unfold case_usual, case_slash, case_dot, case_dot_dot, case_quoted, case_quoted_second,
      literal, invalid, goto_args, redispatch, advance, to_quoted, put; cbn; rewrite ?Hr, ?Es.
  all: split_ifs; try destruct (back_to_slash _ _); cbn; rewrite ?Es.
  all: rewrite ?(Z.add_shuffle0 (p s) d 1); split_and!; done || lia.
Qed.

Lemma complex_loop_shift ue merge n : forall s, inside s ->
  loop m' (ue + d) merge n (shifted s) = ((loop m ue merge n s).1, shifted (loop m ue merge n s).2)
  /\ inside (loop m ue merge n s).2.
Proof.
  assert (E : forall q, (q + d <=? ue + d) = (q <=? ue)) by (intros q; destruct (Z.leb_spec q ue); lia).
  induction n as [|n IH]; intros s Hs; cbn [loop]; change (p (shifted s)) with (p s + d); rewrite E;
    (destruct (p s <=? ue); [|by cbn]); [by cbn|].
  pose proof (complex_step_shift merge s Hs) as H.
  destruct (step m merge s) as [t|e t]; destruct H as [-> Ht]; [by apply IH|by cbn].
Qed.

Lemma find_hash_shift n : forall q, lo <= q -> find_hash m' n (q + d) = option_map (fun a => a + d) (find_hash m n q).
Proof.
  induction n as [|n IH]; intros q Hq; cbn [find_hash]; [done|]. rewrite (view_rd lo d m m' V) by done.
  destruct (_ =? _); [done|]. rewrite <- IH by lia. f_equal. lia.
Qed.

Lemma complex_uri_shift us ue merge pl q : lo <= us ->
  match ngx_http_parse_complex_uri m us ue merge pl q, ngx_http_parse_complex_uri m' (us + d) (ue + d) merge pl q with
  | inl e, inl e' => e = e'
  | inr x, inr x' =>
      x' = Parsed (c_uri x) (c_exten x) (option_map (fun a => (a.1 + d, a.2)) (c_args x))
             (option_map (fun a => a + d) (c_args_start x)) (c_plus x) (c_quoted x)
      /\ match c_args x with Some (a, _) => lo <= a | None => True end
      /\ ReadRequestShift.from lo (c_args_start x)
  | _, _ => False
  end.
Proof.
  intros Hu. unfold ngx_http_parse_complex_uri, fuel. replace (ue + d - (us + d)) with (ue - us) by lia.
  assert (Hi : inside (start m us pl q)) by (split; cbn; [lia|done]).
  pose proof (complex_loop_shift ue merge (2 * (Z.to_nat (ue - us) + 1)) _ Hi) as [E [H1 H2]].
  replace (start m' (us + d) pl q) with (shifted (start m us pl q)).
  2:{ unfold start, shifted; cbn. rewrite (view_rd lo d m m' V) by done. f_equal. lia. }
  rewrite E. destruct (loop m ue merge _ _) as [e s]. cbn [fst snd] in *. destruct e; try done.
  change (p (shifted s)) with (p s + d). replace (ue + d - (p s + d)) with (ue - p s) by lia.
  rewrite find_hash_shift by done. destruct (find_hash _ _ _) as [h|]; cbn; [|done].
  split; [|done]. by replace (h + d - (p s + d)) with (h - p s) by lia.
Qed.

Lemma finish_uri_shift us ue uri e a ex ar sp pl : lo <= us -> from lo e -> from lo a ->
  finish_uri m' (us + d) (ue + d) uri (option_map (fun x => x + d) e) (option_map (fun x => x + d) a) ex ar sp pl
  = finish_uri m us ue uri e a ex ar sp pl.
Proof.
  intros Hu He Ha. unfold finish_uri. rewrite (view_slice lo d m m' V) by done.
  destruct e as [e|], a as [a|]; cbn in *; f_equal.
  all: try (replace (a + d - 1) with (a - 1 + d) by lia); rewrite ?(view_slice lo d m m' V) by done; try done.
  all: destruct (Z.gtb_spec (ue + d) (a + d)), (Z.gtb_spec ue a); done || lia.
Qed.

Lemma process_uri_shift pn (r r' : ngx_http_request) us ue merge ex ar : lo <= us ->
  from lo (uri_ext r) -> from lo (args_start r) -> sh d (uri_ext r) (uri_ext r') -> sh d (args_start r) (args_start r') ->
  complex_uri r' = complex_uri r -> quoted_uri r' = quoted_uri r -> plus_in_uri r' = plus_in_uri r ->
  space_in_uri r' = space_in_uri r ->
  ngx_http_process_request_uri pn m' r' (us + d) (ue + d) merge ex ar = ngx_http_process_request_uri pn m r us ue merge ex ar.
Proof.
  intros Hu He Ha Se Sa E1 E2 E3 E4. unfold ngx_http_process_request_uri, sh in *. rewrite E1, E2, E3, E4, Se, Sa.
  assert (El : uri_len r' (us + d) (ue + d) = uri_len r us ue) by (unfold uri_len; rewrite Sa; destruct (args_start r); cbn; lia).
  rewrite El. destruct (_ || _).
  - destruct (negb _); [done|]. pose proof (complex_uri_shift us ue merge (plus_in_uri r) (quoted_uri r) Hu) as H.
    destruct (ngx_http_parse_complex_uri m _ _ _ _ _) as [e|x], (ngx_http_parse_complex_uri m' _ _ _ _ _) as [e'|x']; try done.
    + by subst.
    + destruct H as (-> & Hc & Hs). cbn. f_equal. rewrite <- (finish_uri_shift _ _ _ None) by done. cbn. f_equal.
      destruct (c_args x) as [[a n]|]; cbn; [|done]. replace (a + d + n) with (a + n + d) by lia.
      by rewrite (view_slice lo d m m' V).
  - f_equal. rewrite <- finish_uri_shift by done. f_equal. replace (us + d + _) with (us + uri_len r us ue + d) by lia.
    by rewrite (view_slice lo d m m' V).
Qed.
End Uri.

(** ** The lines *)

Section Lines.
Context {C : HostCore} {D : HeaderCore} {R : ReadCore}.
Context (servers : nat -> ngx_http_core_srv_conf_t) (hc : http_connection) (hc_ssl : bool).

Lemma line_done_shift lo d m m' p a (r r' : ngx_http_request) q : view lo d m m' -> line_sim d RequestLine.sw_almost_done r r' ->
  lo <= a -> marks p RequestLine.sw_almost_done a r -> is_Some (request_end r) ->
  line_done servers hc hc_ssl m' (p + d) r' q = line_done servers hc hc_ssl m p r q.
Proof.
  intros V Hs Ha Hm [e Ee]. destruct Hs, Hm. unfold sh in *. cbn in *.
  specialize (mk_start0 ltac:(done)). specialize (ls_start0 ltac:(done)). specialize (ls_method_end0 eq_refl).
  specialize (ls_uri_start0 eq_refl). specialize (ls_uri_end0 eq_refl).
  destruct (mk_method_end0 eq_refl) as [me Eme], (mk_uri0 eq_refl) as [us Eus], (mk_uri_end0 eq_refl) as [ue Eue].
  rewrite Eus in *. cbn in mk_uri_start0.
  unfold line_done. rewrite ls_method0, ls_version0, ls_start0, ls_end0, ls_method_end0, ls_uri_start0, ls_uri_end0, mk_start0, Ee, Eme, Eus, Eue.
  cbn [option_map default from_option id].
  rewrite !(view_slice lo d m m' V) by lia. replace (me + d + 1) with (me + 1 + d) by lia. rewrite (view_slice lo d m m' V) by lia.
  replace (p + d - (a + d)) with (p - a) by lia.
  rewrite (process_uri_shift lo d m m' V ngx_pnalloc r r') by (done || lia || by eapply from_le).
  assert (Ep : match http_protocol_data r' with Some x => slice m' x (e + d) | None => [] end
             = match http_protocol_data r with Some x => slice m x e | None => [] end).
  { rewrite ls_protocol0. destruct (http_protocol_data r) as [x|]; [|done]. cbn in *. apply (view_slice lo d m m' V). lia. }
  rewrite Ep. destruct (ProcessUri.ngx_http_process_request_uri _ _ _ _ _ _ _ _) as [f| | |]; try done.
  rewrite ls_host_start0, ls_host_end0. destruct (host_start r) as [x|]; [|done]. destruct (host_end r) as [y|]; [|done].
  cbn [option_map]. cbn in mk_host_start0. by rewrite (view_slice lo d m m' V) by lia.
Qed.


Lemma header_done_shift lo d m m' p h h' q : view lo d m m' ->
  header_sim d HeaderLine.sw_almost_done h h' -> header_marks lo p HeaderLine.sw_almost_done h ->
  header_done servers hc m' (p + d) h' q = header_done servers hc m p h q.
Proof.
  intros V Hs Hm. pose proof (make_elt_shift ngx_strlow lo d m m' p h h' V Hs Hm) as He.
  pose proof (hm_name _ _ _ _ Hm eq_refl) as Hn. destruct Hs. unfold sh in *. cbn in *.
  specialize (hs_name0 eq_refl). open_ptr. unfold header_done. rewrite He, hs_invalid0, hs_name0, E. cbn.
  by replace (p + d - (z + d)) with (p - z) by lia.
Qed.

Lemma headers_done_shift lo d p h h' q :
  header_sim d HeaderLine.sw_header_almost_done h h' -> header_marks lo p HeaderLine.sw_header_almost_done h ->
  headers_done servers hc hc_ssl (p + d) h' q = headers_done servers hc hc_ssl p h q.
Proof.
  intros Hs Hm. pose proof (hm_name _ _ _ _ Hm eq_refl) as Hn. destruct Hs. unfold sh in *. cbn in *.
  specialize (hs_name0 eq_refl). open_ptr. unfold headers_done. rewrite hs_name0, E. cbn.
  by replace (p + d - (z + d)) with (p - z) by lia.
Qed.
End Lines.
End ReadDoneShift.
