(* ===== verification/ReadRequestSpec.v ===== *)
(** * What requests a stream of bytes holds

    The specification of [ReadRequest]: a request is read off the front of a string
    of bytes that is all there, without buffers, sockets and events.  Whether a
    request is whole, what it is and how it ends does not depend on bytes after it. *)

From S2P Require Import Prelude Scan Request RequestLine RequestLineFacts RequestLineProps ComplexUri ProcessUri HeaderLine HeaderLineProps HostName RequestHeaders ReadRequest ReadRequestShift.

Module ReadRequestSpec.
Import HostName RequestHeaders ReadRequest ReadRequestShift ReadHeaderShift ReadDoneShift.

(** ** Bytes that follow a line *)

Lemma complex_args_end m us ue merge pl q x : 
  ComplexUri.ngx_http_parse_complex_uri m us ue merge pl q = inr x ->
  match ComplexUri.c_args x with Some (a, n) => a + n < ue | None => True end.
Proof.
  unfold ComplexUri.ngx_http_parse_complex_uri. destruct (ComplexUri.loop _ _ _ _ _) as [e s].
  destruct e; try done; [by intros [= <-]|]. destruct (ComplexUri.find_hash _ _ _) as [h|] eqn:Eh; intros [= <-]; cbn; [|done].
  apply ProcessUri.find_hash_some in Eh as [? _]. lia.
Qed.

Lemma view_refl lo m : 0 <= lo -> view lo 0 m m.
Proof. intros H. split; [done|]. rewrite Z.add_0_r. done. Qed.

Section After.
Context (m ys : list Z).
Let n := Z.of_nat (length m).

Lemma finish_uri_app us ue uri e a ex ar sp pl : 0 <= us -> ue <= n -> from 0 e -> from 0 a -> e = None \/ upto n a ->
  ProcessUri.finish_uri (m ++ ys) us ue uri e a ex ar sp pl = ProcessUri.finish_uri m us ue uri e a ex ar sp pl.
Proof using Type.
  intros Hu He Fe Fa Ua. unfold ProcessUri.finish_uri. rewrite slice_app_l by done.
  destruct Ua as [-> | Ua]; [|destruct e as [e|]]; destruct a as [a|]; cbn in *; rewrite ?slice_app_l by lia; done.
Qed.

Lemma process_uri_app pn (r : ngx_http_request) us ue merge ex ar : 0 <= us < ue -> ue <= n ->
  from 0 (uri_ext r) -> from 0 (args_start r) -> upto n (args_start r) ->
  ProcessUri.ngx_http_process_request_uri pn (m ++ ys) r us ue merge ex ar = ProcessUri.ngx_http_process_request_uri pn m r us ue merge ex ar.
Proof using Type.
  intros Hu He Fe Fa Ua. unfold ProcessUri.ngx_http_process_request_uri.
  rewrite (ProcessUri.complex_uri_local (m ++ ys) m) by (lia || (intros; apply rd_app_l; lia)).
  destruct (_ || _).
  - destruct (negb _); [done|].
    pose proof (complex_uri_shift us 0 m m (view_refl us m ltac:(lia)) us ue merge (plus_in_uri r) (quoted_uri r) ltac:(lia)) as H.
    rewrite !Z.add_0_r in H.
    pose proof (complex_args_end m us ue merge (plus_in_uri r) (quoted_uri r)) as Hc.
    destruct (ComplexUri.ngx_http_parse_complex_uri m _ _ _ _ _) as [[]|x]; try done.
    destruct H as (_ & H1 & H2). specialize (Hc x eq_refl). f_equal.
    assert (Ea : match ComplexUri.c_args x with Some (a, k) => slice (m ++ ys) a (a + k) | None => ar end
               = match ComplexUri.c_args x with Some (a, k) => slice m a (a + k) | None => ar end)
      by (destruct (ComplexUri.c_args x) as [[a k]|]; [apply slice_app_l; lia|done]).
    rewrite Ea. apply finish_uri_app; [lia|done|done| |by left]. by eapply from_le; [|done]; lia.
  - f_equal. rewrite finish_uri_app by (auto; lia). f_equal. apply slice_app_l; [lia|]. unfold ProcessUri.uri_len.
    destruct (args_start r); cbn in *; lia.
Qed.
End After.

Section Spec.
Context {C : HostCore} {D : HeaderCore} {R : ReadCore}.
Context (servers : nat -> ngx_http_core_srv_conf_t) (hc : http_connection) (hc_ssl : bool).

Lemma line_done_app m ys lo p a (r : ngx_http_request) q : 0 <= lo <= a -> p <= Z.of_nat (length m) ->
  RequestLineFacts.line_of m lo p r -> marks p RequestLine.sw_almost_done a r ->
  line_done servers hc hc_ssl (m ++ ys) p r q = line_done servers hc hc_ssl m p r q.
Proof.
  intros Hlo Hp (rs & me & us & ue & re & E1 & E2 & E3 & E4 & E5 & H1 & H2 & H3 & H4 & _) Hm.
  destruct Hm. unfold line_done. rewrite E1, E2, E3, E4, E5. cbn [default from_option id].
  rewrite !slice_app_l by lia.
  rewrite process_uri_app; [|lia|lia|by eapply from_le; [|done]; lia|by eapply from_le; [|done]; lia|destruct (args_start r); cbn in *; [lia|done]].
  assert (Ep : match http_protocol_data r with Some x => slice (m ++ ys) x re | None => [] end
             = match http_protocol_data r with Some x => slice m x re | None => [] end)
    by (destruct (http_protocol_data r); [cbn in *; apply slice_app_l; lia|done]).
  rewrite Ep. destruct (ProcessUri.ngx_http_process_request_uri _ _ _ _ _ _ _ _) as [f| | |]; try done.
  destruct (host_start r) as [x|]; [|done]. destruct (host_end r) as [y|]; [|done]. cbn in *. by rewrite slice_app_l by lia.
Qed.

Lemma header_done_app m ys p h q : 0 <= p <= Z.of_nat (length m) -> header_marks 0 p HeaderLine.sw_almost_done h ->
  header_done servers hc (m ++ ys) p h q = header_done servers hc m p h q.
Proof.
  intros Hp [_ _ H1 H2 H3 H4]. unfold header_done, HeaderLine.make_elt.
  specialize (H1 eq_refl). specialize (H2 eq_refl). specialize (H3 eq_refl). specialize (H4 eq_refl). open_ptr.
  repeat match goal with E : _ = Some _ |- _ => rewrite E end. by rewrite !slice_app_l by lia.
Qed.

(** ** Requests *)

Definition parse_header (q : request) : HeaderLine.locals -> ngx_buf -> ngx_rc * HeaderLine.locals * ngx_buf :=
  HeaderLine.ngx_http_parse_header_line ngx_hash (underscores_in_headers (servers (srv q))) false.

(** The headers that begin at [pos] of the bytes [bs]: how the request ends, and
    where; [None] when they are not all there. *)
Fixpoint whole_headers (fuel : nat) (bs : list Z) (pos : Z) (s : HeaderLine.locals) (q : request) : option (ended * request * Z) :=
  match fuel with
  | O => None
  | S fuel =>
      let '(rc, s', b) := parse_header q s (Buf bs pos) in
      if bool_decide (rc = NGX_OK) then
        match header_done servers hc bs (b_pos b) s'.2 q with
        | (Some e, q) => Some (e, q, b_pos b)
        | (None, q) => whole_headers fuel bs (b_pos b) s' q
        end
      else if bool_decide (rc = NGX_HTTP_PARSE_HEADER_DONE) then
        let (e, q) := headers_done servers hc hc_ssl (b_pos b) s'.2 q in Some (e, q, b_pos b)
      else if bool_decide (rc = NGX_AGAIN) then None
      else Some (Finalized NGX_HTTP_BAD_REQUEST, q, 0)
  end.

Definition first_header : HeaderLine.locals := (HeaderLine.sw_start, HeaderLine.fresh_header).

Definition headers_from (bs : list Z) : Z -> HeaderLine.locals -> request -> option (ended * request * Z) :=
  whole_headers (S (length bs)) bs.

Definition whole_line (bs : list Z) (pos : Z) (s : RequestLine.locals) : option (ended * request * Z) :=
  let '(rc, s', b) := RequestLine.ngx_http_parse_request_line s (Buf bs pos) in
  if bool_decide (rc = NGX_OK) then
    match line_done servers hc hc_ssl bs (b_pos b) s'.2 (new_request hc) with
    | (Some e, q) => Some (e, q, b_pos b)
    | (None, q) => headers_from bs (b_pos b) first_header q
    end
  else if bool_decide (rc = NGX_AGAIN) then None
  else Some (Finalized NGX_HTTP_BAD_REQUEST, new_request hc, 0).

(** The request at the front of a string of bytes. *)
Definition whole_request (bs : list Z) : option (ended * request * Z) :=
  whole_line bs 0 (RequestLine.sw_start, fresh_request).

(** ** Lines that are not whole *)

Definition blank (c : Z) : bool := (c =? CR) || (c =? LF).

Fixpoint skip_blanks (bs : list Z) : list Z :=
  match bs with
  | c :: cs => if blank c then skip_blanks cs else bs
  | [] => []
  end.

(** The request line is not all there: no LF after the first byte of it. *)
Definition in_request_line (bs : list Z) : Prop := Forall (fun c => c <> LF) (skip_blanks bs).

(** How many bytes there are after the last LF, [n] of them before. *)
Fixpoint open_from (n : Z) (bs : list Z) : Z :=
  match bs with
  | [] => n
  | c :: cs => open_from (if c =? LF then 0 else n + 1) cs
  end.

Definition open_line : list Z -> Z := open_from 0.

Lemma skip_blanks_app xs ys : Forall (fun c => blank c = true) xs -> skip_blanks (xs ++ ys) = skip_blanks ys.
Proof. induction 1 as [|c xs Hc _ IH]; [done|]. cbn. by rewrite Hc. Qed.

Lemma skip_blanks_keeps (P : Z -> Prop) bs : Forall P bs -> Forall P (skip_blanks bs).
Proof. induction 1 as [|c bs Hc H IH]; [done|]. cbn. by destruct (blank c); [|constructor]. Qed.

Lemma open_from_app n xs ys : open_from n (xs ++ ys) = open_from (open_from n xs) ys.
Proof. revert n. induction xs as [|c xs IH]; intros n; [done|]. cbn. apply IH. Qed.

Lemma open_from_line n bs : Forall (fun c => c <> LF) bs -> open_from n bs = n + Z.of_nat (length bs).
Proof.
  intros H. revert n. induction H as [|c bs Hc _ IH]; intros n; [cbn; lia|]. cbn [open_from length].
  apply Z.eqb_neq in Hc. rewrite Hc, IH. lia.
Qed.

Lemma open_from_nonneg n bs : 0 <= n -> 0 <= open_from n bs.
Proof. revert n. induction bs as [|c bs IH]; intros n Hn; [done|]. cbn. apply IH. destruct (c =? LF); lia. Qed.

Lemma open_line_tail a bs : Forall (fun c => c <> LF) (drop a bs) -> Z.of_nat (length bs) - Z.of_nat a <= open_line bs.
Proof.
  intros H. rewrite <- (take_drop a bs) at 2. unfold open_line. rewrite open_from_app, open_from_line by done.
  pose proof (open_from_nonneg 0 (take a bs) ltac:(done)). rewrite length_drop. lia.
Qed.

(** ** The states of the parsers *)

(** [pre] has been read: blanks, and from [request_start] on no LF. *)
Definition line_open (pre : list Z) (s : RequestLine.locals) : Prop :=
  (s.1 = RequestLine.sw_start -> Forall (fun c => blank c = true) pre)
  /\ (s.1 <> RequestLine.sw_start -> exists a, request_start s.2 = Some (Z.of_nat a) /\ (a <= length pre)%nat
       /\ Forall (fun c => blank c = true) (take a pre) /\ Forall (fun c => c <> LF) (drop a pre)).

(** From [header_name_start] on there is no LF. *)
Definition header_open (pre : list Z) (s : HeaderLine.locals) : Prop :=
  s.1 <> HeaderLine.sw_start -> exists a, HeaderLine.header_name_start s.2 = Some (Z.of_nat a) /\ (a <= length pre)%nat
    /\ Forall (fun c => c <> LF) (drop a pre).

Lemma line_starts m p c r s' : RequestLine.step m p c (RequestLine.sw_start, r) = Next s' ->
  s'.1 = RequestLine.sw_start /\ blank c = true \/ s'.1 <> RequestLine.sw_start /\ request_start s'.2 = Some p /\ c <> LF.
Proof.
  RequestLine.unfold_cases. split_ifs; intros [= <-]; b2p; [by left|]. right. by split_and!.
Qed.

Lemma line_goes_on m p c st r s' : st <> RequestLine.sw_start -> RequestLine.step m p c (st, r) = Next s' ->
  s'.1 <> RequestLine.sw_start /\ request_start s'.2 = request_start r /\ c <> LF.
Proof.
  intros Hst. destruct st; [done|..]; RequestLine.unfold_cases; unfold RequestLine.after_schema; cbn.
  all: destruct (Z.eqb_spec c LF) as [-> | Hc]; cbn; split_ifs; intros [= <-]; try done.
  by destruct (request_start r) eqn:Er; cbn; rewrite ?Er.
Qed.

Lemma line_stops m p c s l s' : RequestLine.step m p c s = Stop l s' -> l <> RequestLine.ret NGX_AGAIN.
Proof.
  destruct s as [st r]. destruct st; RequestLine.unfold_cases; unfold RequestLine.after_schema; split_ifs; by intros [= <- _].
Qed.

Lemma header_stops hash allow m p c s l s' : HeaderLine.step hash allow false m p c s = Stop l s' -> l <> HeaderLine.ret NGX_AGAIN.
Proof. destruct s as [st h]. destruct st; HeaderLine.unfold_header; split_ifs; by intros [= <- _]. Qed.

Lemma line_open_grows m pre p c s s' : p = Z.of_nat (length pre) -> line_open pre s -> RequestLine.step m p c s = Next s' ->
  line_open (pre ++ [c]) s'.
Proof.
  intros -> [H1 H2] E. destruct s as [st r]. unfold line_open. cbn [fst snd] in *.
  destruct (RequestLine.sw_eq_dec st RequestLine.sw_start) as [-> | Hst].
  - specialize (H1 eq_refl). apply line_starts in E as [[-> Hc]|(Hs & -> & Hc)].
    + split; [|done]. intros _. apply List.Forall_app. by split; [|constructor].
    + split; [done|]. intros _. exists (length pre). rewrite length_app. split; [done|]. split; [lia|].
      rewrite take_app_length, drop_app_length. by split; [|constructor].
  - apply line_goes_on in E as (Hs & -> & Hc); [|done]. split; [done|]. intros _. destruct (H2 Hst) as (a & Ha & Hl & H3 & H4).
    exists a. rewrite length_app, take_app_le, drop_app_le by done. split_and!; [done|lia|done|]. apply List.Forall_app. by split; [|constructor].
Qed.

Lemma header_open_grows hash allow m pre p c s s' : p = Z.of_nat (length pre) -> header_open pre s ->
  HeaderLine.step hash allow false m p c s = Next s' -> header_open (pre ++ [c]) s'.
Proof.
  intros -> H E. destruct s as [st h]. unfold header_open in *. cbn [fst snd] in *.
  assert (Hc : s'.1 <> HeaderLine.sw_start -> c <> LF /\
    (st = HeaderLine.sw_start /\ HeaderLine.header_name_start s'.2 = Some (Z.of_nat (length pre))
     \/ st <> HeaderLine.sw_start /\ HeaderLine.header_name_start s'.2 = HeaderLine.header_name_start h)).
  { revert E. destruct st; HeaderLine.unfold_header; rewrite ?andb_false_r; cbn [andb];
      destruct (Z.eqb_spec c LF) as [-> | Hc]; cbn; split_ifs; intros [= <-]; cbn; try done; intros _; (split; [done|]); auto. }
  intros Hs. destruct (Hc Hs) as [Hc' [[-> ->]|[Hst ->]]].
  - exists (length pre). rewrite length_app, drop_app_length. split; [done|]. split; [lia|]. by constructor.
  - destruct (H Hst) as (a & -> & Hl & Ha). exists a. rewrite length_app, drop_app_le by done. split; [done|]. split; [lia|].
    apply List.Forall_app. by split; [|constructor].
Qed.

Definition line_state (m : list Z) (pos : Z) (s : RequestLine.locals) : Prop :=
  sp_ok (StreamParser := RequestLineProps.request_line_parser) s (Buf m pos) /\ marked 0 pos s
  /\ line_open (take (Z.to_nat pos) m) s.

Definition header_state (m : list Z) (pos : Z) (s : HeaderLine.locals) : Prop :=
  sp_ok (StreamParser := HeaderLineProps.header_line_parser ngx_hash false false) s (Buf m pos) /\ header_marks 0 pos s.1 s.2
  /\ header_open (take (Z.to_nat pos) m) s.

Lemma line_state_app m ys pos s : line_state m pos s -> line_state (m ++ ys) pos s.
Proof.
  intros [H1 H2]. split; [by apply (RequestLineProps.request_line_parser_laws.(sp_ok_received) s (Buf m pos) ys)|].
  pose proof H1 as [[_ Hl] _]. unfold b_last in Hl. cbn in Hl. by rewrite take_app_le by lia.
Qed.

Lemma header_state_app m ys pos s : header_state m pos s -> header_state (m ++ ys) pos s.
Proof.
  intros [H1 H2]. split; [by apply ((HeaderLineProps.header_line_parser_laws ngx_hash false false).(sp_ok_received) s (Buf m pos) ys)|].
  pose proof H1 as [[_ Hl] _]. unfold b_last in Hl. cbn in Hl. by rewrite take_app_le by lia.
Qed.

Lemma line_state_start m r : request_end r = None -> clean r -> line_state m 0 (RequestLine.sw_start, r).
Proof.
  intros Hr Hc. split; [|split; [by split; [cbn; lia|]|by split]]. split; [by split; cbn; unfold b_last; cbn; lia|].
  exists 0. cbn [b_pos b_mem]. apply RequestLineFacts.inv_start; try done; lia.
Qed.

Lemma header_state_start m pos h : 0 <= pos <= Z.of_nat (length m) -> HeaderLineProps.array_ok h ->
  header_state m pos (HeaderLine.sw_start, h).
Proof.
  intros Hp Ha. split; [|split; [constructor; cbn; lia || done|by intros []]]. split; [by split; cbn; unfold b_last; cbn; lia|].
  cbn [b_pos b_mem]. split; [rewrite length_take; lia|]. by split.
Qed.

(** What is behind the parser is open. *)
Lemma line_state_open m s : line_state m (Z.of_nat (length m)) s ->
  in_request_line m /\ (s.1 <> RequestLine.sw_start -> ptr (request_start s.2) (fun a => Z.of_nat (length m) - a <= open_line m)).
Proof.
  intros (_ & _ & H1 & H2). rewrite Nat2Z.id, firstn_all in *. split.
  - unfold in_request_line. destruct (RequestLine.sw_eq_dec s.1 RequestLine.sw_start) as [E|E].
    + rewrite <- (app_nil_r m), skip_blanks_app by auto. constructor.
    + destruct (H2 E) as (a & _ & _ & H3 & H4). rewrite <- (take_drop a m), skip_blanks_app by done. by apply skip_blanks_keeps.
  - intros E. destruct (H2 E) as (a & -> & _ & _ & H4). cbn. by apply open_line_tail.
Qed.

Lemma header_state_open m s : header_state m (Z.of_nat (length m)) s -> s.1 <> HeaderLine.sw_start ->
  ptr (HeaderLine.header_name_start s.2) (fun a => Z.of_nat (length m) - a <= open_line m).
Proof.
  intros (_ & _ & H) E. rewrite Nat2Z.id, firstn_all in *. destruct (H E) as (a & -> & _ & H1). cbn. by apply open_line_tail.
Qed.

Lemma line_sim_refl st r : line_sim 0 st r r.
Proof.
  assert (H : forall o, sh 0 o o) by (intros [a|]; unfold sh; cbn; [by rewrite Z.add_0_r|done]).
  constructor; auto.
Qed.

Lemma header_sim_refl st h : header_sim 0 st h h.
Proof.
  assert (H : forall o, sh 0 o o) by (intros [a|]; unfold sh; cbn; [by rewrite Z.add_0_r|done]).
  constructor; auto.
Qed.

Lemma line_call_open m pos s : buf_wf (Buf m pos) -> line_open (take (Z.to_nat pos) m) s ->
  match RequestLine.ngx_http_parse_request_line s (Buf m pos) with
  | (rc, s', b) => rc = NGX_AGAIN -> line_open (take (Z.to_nat (b_pos b)) m) s'
  end.
Proof.
  intros [Hp Hl] H. unfold b_last in Hl. cbn in Hp, Hl. unfold RequestLine.ngx_http_parse_request_line.
  pose proof (scan_invariant (RequestLine.step m) (fun pre p s => p = Z.of_nat (length pre) /\ line_open pre s) (fun _ _ _ l _ => l <> RequestLine.ret NGX_AGAIN)) as Hi.
  specialize (Hi ltac:(intros pre p c t [Ep Ht]; destruct (RequestLine.step m p c t) eqn:E; [split;
    [rewrite length_app; cbn; lia|by eapply line_open_grows]|by eapply line_stops]) (unread (Buf m pos)) (take (Z.to_nat pos) m) pos s).
  specialize (Hi ltac:(split; [rewrite length_take; lia|done])). cbn [b_mem b_pos] in *.
  destruct (scan _ _ _ _) as [[p [st' r']] [[|rc]|]].
  - destruct (RequestLine.finish p r') as [rc r''] eqn:E. unfold RequestLine.finish in E. intros ->. by destruct (_ && _).
  - intros ->. by destruct Hi as (mid & c & post & _ & _ & Hi).
  - intros _. destruct Hi as [-> Hi]. cbn [b_pos]. unfold unread in *. cbn [b_pos b_mem] in *. rewrite take_drop in *. by rewrite Nat2Z.id, firstn_all.
Qed.

Lemma header_call_open allow m pos s : buf_wf (Buf m pos) -> header_open (take (Z.to_nat pos) m) s ->
  match HeaderLine.ngx_http_parse_header_line ngx_hash allow false s (Buf m pos) with
  | (rc, s', b) => rc = NGX_AGAIN -> header_open (take (Z.to_nat (b_pos b)) m) s'
  end.
Proof.
  intros [Hp Hl] H. unfold b_last in Hl. cbn in Hp, Hl. unfold HeaderLine.ngx_http_parse_header_line.
  pose proof (scan_invariant (HeaderLine.step ngx_hash allow false m) (fun pre p s => p = Z.of_nat (length pre) /\ header_open pre s) (fun _ _ _ l _ => l <> HeaderLine.ret NGX_AGAIN)) as Hi.
  specialize (Hi ltac:(intros pre p c t [Ep Ht]; destruct (HeaderLine.step _ _ _ m p c t) eqn:E; [split;
    [rewrite length_app; cbn; lia|by eapply header_open_grows]|by eapply header_stops]) (unread (Buf m pos)) (take (Z.to_nat pos) m) pos s).
  specialize (Hi ltac:(split; [rewrite length_take; lia|done])). cbn [b_mem b_pos] in *.
  destruct (scan _ _ _ _) as [[p [st' h']] [[| |rc]|]]; [done|done| |].
  - intros ->. by destruct Hi as (mid & c & post & _ & _ & Hi).
  - intros _. destruct Hi as [-> Hi]. cbn [b_pos]. unfold unread in *. cbn [b_pos b_mem] in *. rewrite take_drop in *. by rewrite Nat2Z.id, firstn_all.
Qed.

(** What a call of the parser of request lines leaves. *)
Lemma line_call m pos s : line_state m pos s ->
  match RequestLine.ngx_http_parse_request_line s (Buf m pos) with
  | (rc, s', b) =>
      b_mem b = m /\ (rc = NGX_AGAIN -> b_pos b = Z.of_nat (length m) /\ line_state m (b_pos b) s')
      /\ (rc = NGX_OK -> pos < b_pos b <= Z.of_nat (length m) /\ RequestLineFacts.line_of m 0 (b_pos b) s'.2
           /\ exists a, 0 <= a /\ marks (b_pos b) RequestLine.sw_almost_done a s'.2)
  end.
Proof.
  intros ([Hwf [lo Hi]] & Hm & Hop). pose proof (line_call_open m pos s Hwf Hop) as Hop'. destruct s as [st r].
  pose proof (RequestLineFacts.parse_cases lo (st, r) (Buf m pos) Hwf Hi) as H1.
  assert (H0 : 0 <= pos) by apply Hwf.
  pose proof (line_parse_shift 0 0 m m pos st r r (view_refl 0 m ltac:(lia)) Hwf Hm (line_sim_refl st r)) as H2.
  rewrite !Z.add_0_r in H2.
  destruct (RequestLine.ngx_http_parse_request_line _ _) as [[rc [st' r']] b].
  assert (Hl : RequestLineFacts.line_of m lo (b_pos b) r' -> RequestLineFacts.line_of m 0 (b_pos b) r').
  { intros (x1 & x2 & x3 & x4 & x5 & ?). exists x1, x2, x3, x4, x5. assert (0 <= lo) by (destruct st; apply Hi).
    split_and!; try lia; by destruct_and?. }
  destruct H2 as (_ & _ & Hb & _ & Ha & Ho). cbn [snd].
  split; [done|]. split.
  - intros ->. destruct H1 as [-> Hi']. split; [done|]. split; [|split; [by apply Ha|by apply Hop']]. split; [by split; cbn; unfold b_last; cbn; lia|].
    exists lo. unfold b_last in *. cbn [b_mem b_pos] in *. by rewrite Nat2Z.id, firstn_all.
  - intros ->. destruct H1 as [(_ & _ & _ & H1 & HL)|[[|] _]]; [|done..]. split; [done|]. split; [by apply Hl|]. by apply Ho.
Qed.

(** What a call of the parser of header lines leaves. *)
Lemma header_call allow m pos s : header_state m pos s ->
  match HeaderLine.ngx_http_parse_header_line ngx_hash allow false s (Buf m pos) with
  | (rc, s', b) =>
      b_mem b = m /\ (rc = NGX_AGAIN -> b_pos b = Z.of_nat (length m) /\ header_state m (b_pos b) s')
      /\ (rc = NGX_OK -> pos < b_pos b <= Z.of_nat (length m) /\ header_state m (b_pos b) s'
           /\ s'.1 = HeaderLine.sw_start /\ header_marks 0 (b_pos b) HeaderLine.sw_almost_done s'.2)
      /\ (rc = NGX_HTTP_PARSE_HEADER_DONE -> pos < b_pos b <= Z.of_nat (length m)
           /\ header_marks 0 (b_pos b) HeaderLine.sw_header_almost_done s'.2)
  end.
Proof.
  intros (Hok & Hm & Hop). pose proof Hok as [Hwf Hi]. pose proof (header_call_open allow m pos s Hwf Hop) as Hop'. destruct s as [st h].
  assert (H0 : 0 <= pos) by apply Hwf.
  pose proof (header_parse_shift ngx_hash allow 0 0 m m pos st h h (view_refl 0 m ltac:(lia)) Hm (header_sim_refl st h)) as H2.
  rewrite !Z.add_0_r in H2.
  pose proof ((HeaderLineProps.header_line_parser_laws ngx_hash allow false).(sp_again) (st, h) (Buf m pos)) as H3.
  pose proof (scan_invariant (HeaderLine.step ngx_hash allow false m) (HeaderLineProps.inv ngx_hash)
    (fun pre p _ l s => HeaderLineProps.done_at ngx_hash pre p l s.2) ltac:(intros pre p ch s Hs; exact (HeaderLineProps.header_inv_step ngx_hash allow false m pre p ch s Hs)) (unread (Buf m pos)) _ _ _ Hi) as H1.
  cbn [sp_parse HeaderLineProps.header_line_parser scan_parser b_mem b_pos] in *.
  unfold HeaderLine.ngx_http_parse_header_line in *. cbn [b_mem b_pos] in *.
  destruct (scan _ _ _ _) as [[p [st' h']] [l|]].
  - destruct H1 as (mid & ch & post & Eu & -> & Ha & Hl).
    assert (Hlen : pos + Z.of_nat (length mid) + 1 <= Z.of_nat (length m)).
    { pose proof (length_unread _ Hwf) as E. rewrite Eu, length_app in E. unfold b_last in E. cbn in E. lia. }
    cbn [snd] in Ha. destruct l as [| |rc]; cbn [b_mem b_pos snd] in *; destruct H2 as (_ & _ & _ & _ & _ & H2 & H4).
    + specialize (H2 eq_refl) as (_ & H2 & _). split; [done|]. split; [done|]. split; [|done]. intros _.
      split; [lia|]. split; [by apply header_state_start; [lia|]|]. done.
    + specialize (H4 eq_refl) as (_ & H4). split; [done|]. split; [done|]. split; [done|]. intros _. split; [lia|done].
    + subst rc. done.
  - specialize (H3 _ _ Hok eq_refl) as [E H3]. unfold b_last in *. cbn [b_mem b_pos] in *.
    injection E as ->. split; [done|]. split; [|done]. intros _. split; [done|]. split; [done|].
    destruct H2 as (_ & _ & _ & _ & H2 & _). split; [by apply H2|by apply Hop'].
Qed.

(** ** Bytes that follow *)

Lemma whole_line_again m ys pos s s' b : line_state m pos s ->
  RequestLine.ngx_http_parse_request_line s (Buf m pos) = (NGX_AGAIN, s', b) ->
  whole_line (m ++ ys) pos s = whole_line (m ++ ys) (b_pos b) s'.
Proof.
  intros [Hok _] E.
  pose proof (RequestLineProps.request_line_parser_laws.(sp_resume) s (Buf m pos) s' b ys Hok E) as [H1 H2].
  pose proof (RequestLineProps.request_line_parser_laws.(sp_again) s (Buf m pos) s' b Hok E) as [-> _].
  unfold Scan.received, b_last in *. cbn [b_mem b_pos sp_parse RequestLineProps.request_line_parser scan_parser] in *.
  unfold whole_line.
  destruct (RequestLine.ngx_http_parse_request_line s _) as [[rc t] c], (RequestLine.ngx_http_parse_request_line s' _) as [[rc' t'] c'].
  cbn [fst snd] in *. subst rc'. change (sp_same rc) with (RequestLineProps.same rc) in H2.
  unfold RequestLineProps.same, same_unless, RequestLineProps.fatal in H2.
  destruct (decide (rc = NGX_OK)) as [-> | E1]; [|by rewrite !(bool_decide_eq_false_2 (rc = NGX_OK)) by done].
  specialize (H2 eq_refl). by simplify_eq.
Qed.

Lemma whole_headers_again m ys pos s s' b q n : header_state m pos s ->
  parse_header q s (Buf m pos) = (NGX_AGAIN, s', b) ->
  whole_headers n (m ++ ys) pos s q = whole_headers n (m ++ ys) (b_pos b) s' q.
Proof.
  intros [Hok _] E. destruct n as [|n]; [done|]. cbn [whole_headers]. unfold parse_header in *.
  set (a := underscores_in_headers _) in *.
  pose proof ((HeaderLineProps.header_line_parser_laws ngx_hash a false).(sp_resume) s (Buf m pos) s' b ys Hok E) as [H1 H2].
  pose proof ((HeaderLineProps.header_line_parser_laws ngx_hash a false).(sp_again) s (Buf m pos) s' b Hok E) as [-> _].
  unfold Scan.received, b_last in *. cbn [b_mem b_pos sp_parse HeaderLineProps.header_line_parser scan_parser] in *.
  destruct (HeaderLine.ngx_http_parse_header_line _ _ _ s _) as [[rc t] c], (HeaderLine.ngx_http_parse_header_line _ _ _ s' _) as [[rc' t'] c'].
  cbn [fst snd] in *. subst rc'. change (sp_same rc) with (HeaderLineProps.same rc) in H2.
  unfold HeaderLineProps.same in H2.
  destruct (decide (rc = NGX_OK)) as [-> | E1]; [assert (H3 : (t, c) = (t', c')) by exact H2; by simplify_eq|].
  rewrite !(bool_decide_eq_false_2 (rc = NGX_OK)) by done.
  destruct (decide (rc = NGX_HTTP_PARSE_HEADER_DONE)) as [-> | E2]; [|by rewrite !(bool_decide_eq_false_2 (rc = NGX_HTTP_PARSE_HEADER_DONE)) by done].
  assert (H3 : HeaderLineProps.forget t.2 = HeaderLineProps.forget t'.2 /\ c = c') by exact (proj2 H2).
  destruct H3 as [H3 ->]. unfold headers_done.
  assert (Hn : HeaderLine.header_name_start t.2 = HeaderLine.header_name_start t'.2) by (injection H3; auto).
  by rewrite Hn.
Qed.

Lemma whole_line_verdict m ys pos s rc s' b : line_state m pos s ->
  RequestLine.ngx_http_parse_request_line s (Buf m pos) = (rc, s', b) -> rc <> NGX_AGAIN ->
  whole_line (m ++ ys) pos s =
    if bool_decide (rc = NGX_OK) then
      match line_done servers hc hc_ssl m (b_pos b) s'.2 (new_request hc) with
      | (Some e, q) => Some (e, q, b_pos b)
      | (None, q) => headers_from (m ++ ys) (b_pos b) first_header q
      end
    else Some (Finalized NGX_HTTP_BAD_REQUEST, new_request hc, 0).
Proof.
  intros Hs E Hrc. pose proof Hs as [Hok _].
  pose proof (RequestLineProps.request_line_parser_laws.(sp_final) s (Buf m pos) rc s' b ys Hok E Hrc) as H.
  unfold Scan.received in H. cbn [b_mem b_pos sp_parse RequestLineProps.request_line_parser scan_parser] in H.
  unfold whole_line. rewrite H. cbn [b_pos].
  destruct (decide (rc = NGX_OK)) as [-> | E1]; [|by rewrite bool_decide_eq_false_2, bool_decide_eq_false_2 by done].
  rewrite bool_decide_eq_true_2 by done.
  pose proof (line_call m pos s Hs) as Hc. rewrite E in Hc. destruct Hc as (_ & _ & Hc).
  destruct (Hc eq_refl) as (H1 & H2 & a & Ha & Hm).
  by rewrite (line_done_app m ys 0 (b_pos b) a) by (done || lia).
Qed.

Lemma whole_headers_verdict m ys pos s q rc s' b n : header_state m pos s ->
  parse_header q s (Buf m pos) = (rc, s', b) -> rc <> NGX_AGAIN ->
  whole_headers (S n) (m ++ ys) pos s q =
    if bool_decide (rc = NGX_OK) then
      match header_done servers hc m (b_pos b) s'.2 q with
      | (Some e, q) => Some (e, q, b_pos b)
      | (None, q) => whole_headers n (m ++ ys) (b_pos b) s' q
      end
    else if bool_decide (rc = NGX_HTTP_PARSE_HEADER_DONE) then
      let (e, q) := headers_done servers hc hc_ssl (b_pos b) s'.2 q in Some (e, q, b_pos b)
    else Some (Finalized NGX_HTTP_BAD_REQUEST, q, 0).
Proof.
  intros Hs E Hrc. pose proof Hs as [Hok _]. cbn [whole_headers]. unfold parse_header in *.
  set (a := underscores_in_headers _) in *.
  pose proof ((HeaderLineProps.header_line_parser_laws ngx_hash a false).(sp_final) s (Buf m pos) rc s' b ys Hok E Hrc) as H.
  unfold Scan.received in H. cbn [b_mem b_pos sp_parse HeaderLineProps.header_line_parser scan_parser] in H.
  rewrite H. cbn [b_pos].
  destruct (decide (rc = NGX_OK)) as [-> | E1].
  - rewrite bool_decide_eq_true_2 by done.
    pose proof (header_call a m pos s Hs) as Hc. rewrite E in Hc. destruct Hc as (_ & _ & Hc & _).
    destruct (Hc eq_refl) as (H1 & H2 & _ & H3). rewrite header_done_app; [done| |done].
    destruct Hs as [[[? ?] _] _]. cbn in *. lia.
  - rewrite bool_decide_eq_false_2 by done. destruct (bool_decide (rc = NGX_HTTP_PARSE_HEADER_DONE)); [done|].
    by rewrite bool_decide_eq_false_2.
Qed.

Lemma whole_headers_fuel bs n n' : forall pos s q, header_state bs pos s ->
  Z.of_nat (length bs) - pos < Z.of_nat n -> Z.of_nat (length bs) - pos < Z.of_nat n' ->
  whole_headers n bs pos s q = whole_headers n' bs pos s q.
Proof.
  revert n'. induction n as [|n IH]; intros n' pos s q Hs Hn Hn'; pose proof Hs as [[[H1 H2] _] _]; unfold b_last in H2; cbn in H1, H2; [lia|].
  destruct n' as [|n']; [lia|]. cbn [whole_headers]. unfold parse_header.
  pose proof (header_call (underscores_in_headers (servers (srv q))) bs pos s Hs) as Hc.
  destruct (HeaderLine.ngx_http_parse_header_line _ _ _ _ _) as [[rc s'] b]. destruct Hc as (_ & _ & Hc & _).
  destruct (decide (rc = NGX_OK)) as [-> | E1]; [|by rewrite !(bool_decide_eq_false_2 (rc = NGX_OK)) by done].
  rewrite bool_decide_eq_true_2 by done. destruct (Hc eq_refl) as (Hp & Hs' & _).
  destruct (header_done _ _ _ _ _ _) as [[e|] q']; [done|]. apply IH; [done|lia|lia].
Qed.

Lemma headers_from_verdict m ys pos s q rc s' b : header_state m pos s ->
  parse_header q s (Buf m pos) = (rc, s', b) -> rc <> NGX_AGAIN ->
  headers_from (m ++ ys) pos s q =
    if bool_decide (rc = NGX_OK) then
      match header_done servers hc m (b_pos b) s'.2 q with
      | (Some e, q) => Some (e, q, b_pos b)
      | (None, q) => headers_from (m ++ ys) (b_pos b) s' q
      end
    else if bool_decide (rc = NGX_HTTP_PARSE_HEADER_DONE) then
      let (e, q) := headers_done servers hc hc_ssl (b_pos b) s'.2 q in Some (e, q, b_pos b)
    else Some (Finalized NGX_HTTP_BAD_REQUEST, q, 0).
Proof.
  intros Hs E Hrc. unfold headers_from at 1. rewrite (whole_headers_verdict m ys pos s q rc s' b _ Hs E Hrc).
  destruct (decide (rc = NGX_OK)) as [-> | E1]; [|by rewrite !(bool_decide_eq_false_2 (rc = NGX_OK)) by done].
  rewrite bool_decide_eq_true_2 by done.
  pose proof (header_call (underscores_in_headers (servers (srv q))) m pos s Hs) as Hc.
  unfold parse_header in E. rewrite E in Hc. destruct Hc as (_ & _ & Hc & _). destruct (Hc eq_refl) as (Hp & Hs' & _).
  destruct (header_done _ _ _ _ _ _) as [[e|] q']; [done|].
  pose proof Hs as [[[H1 H2] _] _]. cbn in H1. apply whole_headers_fuel; [by apply header_state_app| |]; rewrite length_app; lia.
Qed.

Lemma headers_from_again m ys pos s s' b q : header_state m pos s ->
  parse_header q s (Buf m pos) = (NGX_AGAIN, s', b) ->
  headers_from (m ++ ys) pos s q = headers_from (m ++ ys) (b_pos b) s' q.
Proof. apply whole_headers_again. Qed.

(** What a request is does not depend on the bytes after it. *)
Lemma headers_more n m ys : forall pos s q x, header_state m pos s ->
  whole_headers n m pos s q = Some x -> whole_headers n (m ++ ys) pos s q = Some x.
Proof.
  induction n as [|n IH]; intros pos s q x Hs E; [done|].
  destruct (parse_header q s (Buf m pos)) as [[rc s'] b] eqn:Ep.
  destruct (decide (rc = NGX_AGAIN)) as [-> | Hrc]; [cbn [whole_headers] in E; by rewrite Ep in E|].
  rewrite (whole_headers_verdict m ys pos s q rc s' b n Hs Ep Hrc).
  pose proof (whole_headers_verdict m [] pos s q rc s' b n Hs Ep Hrc) as E'. rewrite app_nil_r, E in E'. clear E.
  destruct (decide (rc = NGX_OK)) as [-> | E1].
  - rewrite bool_decide_eq_true_2 in E' |- * by done.
    pose proof (header_call (underscores_in_headers (servers (srv q))) m pos s Hs) as Hc.
    unfold parse_header in Ep. rewrite Ep in Hc. destruct Hc as (_ & _ & Hc & _). destruct (Hc eq_refl) as (Hp & Hs' & _).
    destruct (header_done _ _ _ _ _ _) as [[e|] q']; [done|]. by apply IH.
  - by rewrite bool_decide_eq_false_2 in E' |- * by done.
Qed.

Lemma whole_request_more m ys x : whole_request m = Some x -> whole_request (m ++ ys) = Some x.
Proof.
  unfold whole_request. intros E.
  assert (Hs : line_state m 0 (RequestLine.sw_start, fresh_request)) by (apply line_state_start; [done|by repeat split]).
  destruct (RequestLine.ngx_http_parse_request_line (RequestLine.sw_start, fresh_request) (Buf m 0)) as [[rc s'] b] eqn:Ep.
  destruct (decide (rc = NGX_AGAIN)) as [-> | Hrc]; [unfold whole_line in E; by rewrite Ep in E|].
  rewrite (whole_line_verdict m ys 0 _ rc s' b Hs Ep Hrc).
  pose proof (whole_line_verdict m [] 0 _ rc s' b Hs Ep Hrc) as E'. rewrite app_nil_r, E in E'. clear E.
  destruct (decide (rc = NGX_OK)) as [-> | E1].
  - rewrite bool_decide_eq_true_2 in E' |- * by done.
    pose proof (line_call m 0 _ Hs) as Hc. rewrite Ep in Hc. destruct Hc as (_ & _ & Hc). destruct (Hc eq_refl) as (Hp & _).
    destruct (line_done _ _ _ _ _ _ _) as [[e|] q']; [done|].
    assert (Hh : header_state m (b_pos b) first_header) by (apply header_state_start; [lia|done]).
    unfold headers_from in *. apply headers_more; [done|]. rewrite E'. apply whole_headers_fuel; [done| |]; rewrite ?length_app; lia.
  - by rewrite bool_decide_eq_false_2 in E' |- * by done.
Qed.
End Spec.
End ReadRequestSpec.
