(* ===== verification/ReadRequestFollows.v ===== *)
(** * Reading a request follows the stream

    The state of a connection that reads a request corresponds to the state of the
    parsers on the stream of bytes, wherever the bytes are in memory: every turn of
    the two loops of [ReadRequest] keeps the correspondence. *)

From stdpp Require Import sets.
From S2P Require Import Prelude Scan Request RequestLine HeaderLine HostName RequestHeaders ReadRequest ReadRequestShift ReadRequestSpec.

(** * The buffers of a connection

    What [ReadRequest] keeps about its buffers: which of them are busy and free, that
    no buffer is filled beyond its end, and where in the stream of bytes the memory
    of the one that is being read is (a [window]). *)
Module ReadRequestBuffers.
Import HostName RequestHeaders ReadRequest ReadRequestShift.

(** ** The pool *)

Definition get (bs : list ngx_buf_t) (b : nat) : ngx_buf_t := nth b bs null_buf.

Definition fits (b : ngx_buf_t) : Prop := b_last (bytes b) <= size b.

(** Buffer 0 is [c->buffer]; the large ones are busy, the last of them being read,
    or free and empty. *)
Record pool_ok (bs : list ngx_buf_t) (at_ : nat) (busy free : list nat) : Prop := {
  po_range : forall b, b ∈ 0%nat :: busy ++ free -> (b < length bs)%nat;
  po_distinct : NoDup (0%nat :: busy ++ free);
  po_last : at_ = default 0%nat (list.last busy);
  po_free : forall b, b ∈ free -> bytes (get bs b) = Buf [] 0;
  po_fits : Forall fits bs;
}.

Definition buffers_ok (x : reader) : Prop := pool_ok (buffers x) (header_in x) (busy x) (free x).

Section Pool.
Context (bs : list ngx_buf_t) (at_ : nat) (busy free : list nat) (P : pool_ok bs at_ busy free).

Lemma at_range : (at_ < length bs)%nat.
Proof.
  destruct P. apply po_range0. rewrite po_last0. destruct (list.last busy) as [b|] eqn:E; cbn; [|by apply elem_of_cons; left].
  apply list.last_Some in E as [l ->]. rewrite elem_of_cons, !elem_of_app, elem_of_cons. tauto.
Qed.

Lemma at_not_free : at_ ∉ free.
Proof.
  destruct P. intros Hf. rewrite po_last0 in Hf. apply list.NoDup_cons in po_distinct0 as [H0 Hd].
  apply list.NoDup_app in Hd as (_ & Hd & _).
  destruct (list.last busy) as [b|] eqn:E; cbn in Hf.
  - apply (Hd b); [|done]. apply list.last_Some in E as [l ->]. rewrite elem_of_app, elem_of_cons. tauto.
  - apply H0. rewrite elem_of_app. tauto.
Qed.
End Pool.

Lemma get_insert bs b c (v : ngx_buf_t) : (b < length bs)%nat -> get (<[b := v]> bs) c = if decide (b = c) then v else get bs c.
Proof.
  intros H. unfold get. rewrite !nth_lookup. destruct (decide (b = c)) as [<-|E].
  - by rewrite list_lookup_insert_eq.
  - by rewrite list_lookup_insert_ne.
Qed.

Lemma fits_insert bs b v : Forall fits bs -> fits v -> Forall fits (<[b := v]> bs).
Proof. intros H1 H2. by apply Forall_insert. Qed.

(** The contents of the buffer that is being read change. *)
Lemma pool_at bs at_ busy free v : pool_ok bs at_ busy free -> fits v -> pool_ok (<[at_ := v]> bs) at_ busy free.
Proof.
  intros P Hv. pose proof (at_range _ _ _ _ P) as Hr. pose proof (at_not_free _ _ _ _ P) as Hn. destruct P. constructor; auto.
  - intros b Hb. rewrite length_insert. auto.
  - intros b Hb. rewrite get_insert by done. destruct (decide (at_ = b)) as [<-|]; [done|auto].
  - by apply fits_insert.
Qed.

Lemma buffer_get x : buffer x = get (buffers x) (header_in x).
Proof. done. Qed.

Lemma on_buffer_ok f x : buffers_ok x -> b_last (f (bytes (buffer x))) <= size (buffer x) ->
  buffers_ok (on_buffer f x) /\ buffer (on_buffer f x) = Header_buf (f (bytes (buffer x))) (size (buffer x)) (address (buffer x)).
Proof.
  intros H Hf. split; [by apply pool_at|]. change (get (<[header_in x := Header_buf (f (bytes (buffer x))) (size (buffer x)) (address (buffer x))]> (buffers x)) (header_in x)
    = Header_buf (f (bytes (buffer x))) (size (buffer x)) (address (buffer x))).
  rewrite get_insert by (by eapply at_range). by rewrite decide_True.
Qed.

Lemma fits_at x : buffers_ok x -> fits (buffer x).
Proof.
  intros H. pose proof (at_range _ _ _ _ H) as Hr. destruct H. rewrite buffer_get. unfold get.
  rewrite List.Forall_forall in po_fits0. apply po_fits0. by apply nth_In.
Qed.

(** ** Windows

    [got] are the bytes of the stream that have been read, [pos] is where the parser
    is in them, and the buffer that is being read has what is in [got] from [lo] on,
    [d] further. *)
Record window (x : reader) (got : list Z) (d lo pos : Z) : Prop := {
  wi_view : view lo d got (b_mem (bytes (buffer x)));
  wi_length : b_last (bytes (buffer x)) = Z.of_nat (length got) + d;
  wi_pos : b_pos (bytes (buffer x)) = pos + d;
  wi_in : lo <= pos <= Z.of_nat (length got);
}.

Lemma window_ext x y got d lo pos : bytes (buffer y) = bytes (buffer x) -> window x got d lo pos -> window y got d lo pos.
Proof. intros E []. by constructor; rewrite ?E. Qed.

Lemma taken {A} n (l : list A) : take n l ++ drop (length (take n l)) l = l.
Proof.
  rewrite length_take. destruct (decide (n <= length l)%nat).
  - by rewrite Nat.min_l, take_drop by done.
  - by rewrite Nat.min_r, take_ge, drop_all, app_nil_r by lia.
Qed.

Lemma pool_taken bs at_ busy free b : pool_ok bs at_ busy (b :: free) -> pool_ok bs b (busy ++ [b]) free.
Proof.
  intros []. constructor.
  - intros c Hc. apply po_range0. set_solver.
  - revert po_distinct0. rewrite <- app_assoc. done.
  - by rewrite list.last_snoc.
  - intros c Hc. apply po_free0. set_solver.
  - done.
Qed.

Lemma pool_new bs at_ busy a n : 0 <= n -> pool_ok bs at_ busy [] ->
  pool_ok (bs ++ [Header_buf (Buf [] 0) n a]) (length bs) (busy ++ [length bs]) [].
Proof.
  intros Hn []. rewrite app_nil_r in *. constructor.
  - intros c Hc. rewrite length_app. cbn. rewrite app_nil_r in Hc. rewrite elem_of_cons, elem_of_app, list_elem_of_singleton in Hc.
    destruct (decide (c = length bs)); [lia|]. pose proof (po_range0 c) as H. rewrite elem_of_cons in H. specialize (H ltac:(tauto)). lia.
  - rewrite app_nil_r. rewrite app_comm_cons. apply list.NoDup_app. split; [done|]. split; [|apply NoDup_singleton].
    intros c Hc. rewrite list_elem_of_singleton. intros ->. specialize (po_range0 _ Hc). lia.
  - by rewrite list.last_snoc.
  - intros c Hc. by apply not_elem_of_nil in Hc.
  - apply List.Forall_app. split; [done|]. by repeat constructor.
Qed.

(** ** Emptied buffers *)

Definition empty_bufs (ls : list nat) (bs : list ngx_buf_t) : list ngx_buf_t := fold_left (fun l b => empty_buf b l) ls bs.

Lemma get_empty_buf b c bs : get (empty_buf b bs) c =
  if decide (b = c) then Header_buf (Buf [] 0) (size (get bs c)) (address (get bs c)) else get bs c.
Proof.
  unfold get, empty_buf. rewrite !nth_lookup. destruct (decide (b = c)) as [<-|E].
  - rewrite list_lookup_alter. destruct (bs !! b); cbn; by rewrite ?decide_True by done.
  - by rewrite list_lookup_alter_ne.
Qed.

Lemma empty_buf_bytes b c bs : bytes (get bs c) = Buf [] 0 -> bytes (get (empty_buf b bs) c) = Buf [] 0.
Proof. intros H. rewrite get_empty_buf. by destruct (decide (b = c)). Qed.

Lemma fits_empty_buf b bs : Forall fits bs -> Forall fits (empty_buf b bs).
Proof.
  intros H. rewrite List.Forall_forall in *. intros v Hv. apply (In_nth _ _ null_buf) in Hv as (c & Hc & <-).
  unfold empty_buf in Hc. rewrite length_alter in Hc. specialize (H (get bs c) ltac:(by apply nth_In)).
  change (fits (get (empty_buf b bs) c)). rewrite get_empty_buf. destruct (decide (b = c)); [|done].
  unfold fits, b_last in *. cbn. lia.
Qed.

Lemma empty_bufs_ok ls : forall bs,
  length (empty_bufs ls bs) = length bs
  /\ (Forall fits bs -> Forall fits (empty_bufs ls bs))
  /\ (forall c, c ∉ ls -> get (empty_bufs ls bs) c = get bs c)
  /\ (forall c, c ∈ ls \/ bytes (get bs c) = Buf [] 0 -> bytes (get (empty_bufs ls bs) c) = Buf [] 0).
Proof.
  induction ls as [|b ls IH]; intros bs; [|change (empty_bufs (b :: ls) bs) with (empty_bufs ls (empty_buf b bs))].
  - split_and!; try done. intros c [H|H]; [by apply not_elem_of_nil in H|done].
  - specialize (IH (empty_buf b bs)) as (E1 & E2 & E3 & E4). split_and!.
    + rewrite E1. apply length_alter.
    + intros H. by apply E2, fits_empty_buf.
    + intros c Hc. apply not_elem_of_cons in Hc as [Hn Hc]. rewrite E3, get_empty_buf by done. by rewrite decide_False.
    + intros c Hc. apply E4. destruct (decide (b = c)) as [<-|Hne].
      * right. by rewrite get_empty_buf, decide_True.
      * rewrite elem_of_cons in Hc. destruct Hc as [[->|Hc]|Hc]; [done|by left|right; by apply empty_buf_bytes].
Qed.

Lemma elem_of_rev_iff (b : nat) l : b ∈ rev l <-> b ∈ l.
Proof. rewrite !list_elem_of_In. symmetry. apply in_rev. Qed.

(** All busy buffers but the last are made free. *)
Lemma pool_rotate bs at_ l h free : pool_ok bs at_ (l ++ [h]) free -> pool_ok (empty_bufs l bs) h [h] (rev l ++ free).
Proof.
  intros [P1 P2 P3 P4 P5]. destruct (empty_bufs_ok l bs) as (E1 & E2 & E3 & E4). constructor; auto.
  - intros b Hb. rewrite E1. apply P1. rewrite elem_of_cons, !elem_of_app, elem_of_cons, elem_of_rev_iff in *. tauto.
  - eapply NoDup_Permutation_proper; [|exact P2]. constructor. cbn. rewrite <- app_assoc. cbn.
    transitivity (h :: l ++ free); [constructor; by rewrite <- Permutation_rev|]. by rewrite Permutation_middle.
  - intros b Hb. apply E4. rewrite elem_of_app, elem_of_rev_iff in Hb. destruct Hb; auto.
Qed.

(** The buffers of a connection that waits. *)
Lemma pool_idle bs at_ busy free : pool_ok bs at_ busy free -> pool_ok (empty_buf 0 bs) 0 [] [].
Proof.
  intros P. pose proof (po_range _ _ _ _ P) as P1. constructor.
  - intros b Hb. unfold empty_buf. rewrite length_alter. apply P1. cbn in Hb. apply list_elem_of_singleton in Hb as ->. apply elem_of_cons. by left.
  - apply NoDup_singleton.
  - done.
  - intros b Hb. by apply not_elem_of_nil in Hb.
  - apply fits_empty_buf, P.
Qed.

(** When the first buffer is being read none is busy. *)
Lemma pool_first bs busy free : pool_ok bs 0 busy free -> busy = [].
Proof.
  intros [_ P2 P3 _ _]. destruct (list.last busy) as [b|] eqn:E; [|by apply list.last_None in E].
  cbn in P3. subst b. apply list.NoDup_cons in P2 as [P2 _]. exfalso. apply P2. apply list.last_Some in E as [l ->].
  rewrite !elem_of_app, elem_of_cons. tauto.
Qed.

Section Reading.
Context {C : HostCore} {D : HeaderCore} {R : ReadCore}.
Context (servers : nat -> ngx_http_core_srv_conf_t) (hc : http_connection) (hc_ssl : bool).

Lemma unread_window x got d lo pos : window x got d lo pos -> unread (bytes (buffer x)) = drop (Z.to_nat pos) got.
Proof. intros [V _ E H]. unfold unread. rewrite E. apply (view_drop _ _ _ _ V). lia. Qed.

(** The stage is not touched by reading. *)
Lemma read_some x got d lo pos : buffers_ok x -> window x got d lo pos ->
  match ngx_http_read_request_header x with
  | (x', true) => exists bs, buffers_ok x' /\ window x' (got ++ bs) d lo pos /\ pending x = bs ++ pending x'
                   /\ at_stage x' = at_stage x /\ req x' = req x /\ client x' = client x /\ pos < Z.of_nat (length (got ++ bs))
                   /\ size (buffer x') = size (buffer x) /\ header_in x' = header_in x /\ busy x' = busy x /\ free x' = free x
  | (x', false) =>
      pos = Z.of_nat (length got) /\
      (x' = over Lost x /\ (client x <> Open \/ full x = true)
       \/ pending x = [] /\ client x = Open /\
          let x1 := x <| timer_set := true |> <| calls := S (calls x) |> in x' = x1 \/ x' = over Out_of_memory x1)
  end.
Proof.
  intros Ho [V El Ep Hi]. unfold ngx_http_read_request_header.
  rewrite El, Ep. destruct (Z.ltb_spec 0 (Z.of_nat (length got) + d - (pos + d))).
  - exists []. rewrite !app_nil_r. split_and!; try done. lia.
  - unfold recv. assert (Hp : pos = Z.of_nat (length got)) by lia.
    destruct (pending x) as [|c cs] eqn:Ec; [destruct (client x) eqn:Ecl|].
    + split; [done|]. right. split; [done|]. split; [done|]. cbv zeta. destruct (ngx_handle_read_event _); auto.
    + split; [done|]. left. split; [done|]. by left.
    + split; [done|]. left. split; [done|]. by left.
    + pose proof (fits_at _ Ho) as Hf. unfold fits in Hf. rewrite El in Hf.
      destruct (Z.eqb_spec (size (buffer x) - (Z.of_nat (length got) + d)) 0) as [E0|E0].
      * split; [done|]. left. split; [done|]. right. unfold full. rewrite Ep. apply Z.eqb_eq. lia.
      * set (n := Z.to_nat _). assert (Hn : (0 < n)%nat) by lia.
        set (f := fun b : ngx_buf => Buf (b_mem b ++ take n (c :: cs)) (b_pos b)).
        destruct (on_buffer_ok f x Ho) as [Ho' Eb].
        { unfold f, b_last. cbn [b_mem]. unfold b_last in El. rewrite length_app, length_take. lia. }
        exists (take n (c :: cs)).
        assert (W : window (on_buffer f x) (got ++ take n (c :: cs)) d lo pos).
        { pose proof V as (V1 & V2 & V3). unfold b_last in El. constructor; rewrite ?Eb; unfold f, b_last; cbn [bytes b_mem b_pos].
          - apply view_app; [done|lia|lia].
          - rewrite !length_app. lia.
          - done.
          - rewrite length_app. lia. }
        split; [exact Ho'|]. split; [by apply (window_ext (on_buffer f x))|].
        split; [symmetry; apply (taken n (c :: cs))|]. do 3 (split; [done|]). split; [rewrite length_app, length_take; cbn [length]; lia|].
        split; [|done]. by change (size (buffer (on_buffer f x)) = size (buffer x)); rewrite Eb.
Qed.

(** ** Another buffer *)

Context (sizes : forall s, 0 <= large_size (servers s)).

Lemma take_large_ok x : buffers_ok x ->
  match take_large servers x with
  | (NGX_OK, b, x1) =>
      pool_ok (buffers x1) b (busy x1 ++ [b]) (free x1) /\ bytes (get (buffers x1) b) = Buf [] 0
      /\ get (buffers x1) (header_in x) = buffer x /\ busy x1 = busy x
      /\ at_stage x1 = at_stage x /\ req x1 = req x /\ pending x1 = pending x /\ client x1 = client x /\ header_in x1 = header_in x
  | (rc, _, _) => rc = NGX_DECLINED \/ rc = NGX_ERROR
  end.
Proof using sizes.
  intros H. pose proof (at_range _ _ _ _ H) as Hr. unfold take_large. destruct (free x) as [|b fs] eqn:Ef.
  - destruct (_ <? _); [|by left]. destruct (_ && _); [by right|].
    set (x1 := match busy_room x with None => _ | Some _ => _ end).
    assert (E : buffers x1 = buffers x /\ busy x1 = busy x /\ free x1 = free x /\ at_stage x1 = at_stage x /\ req x1 = req x
             /\ pending x1 = pending x /\ client x1 = client x /\ header_in x1 = header_in x) by (unfold x1; by destruct (busy_room x)).
    destruct E as (E1 & E2 & E3 & E4 & E5 & E6 & E7 & E8).
    destruct (ngx_create_temp_buf _ _) as [a|]; [|by right]. cbn -[get]. rewrite E1, E2, E3, Ef.
    unfold buffers_ok in H. rewrite Ef in H. split; [apply pool_new with (at_ := header_in x); [apply sizes|done]|].
    split; [unfold get; by rewrite nth_middle|]. split; [|by split_and!]. by unfold get; rewrite app_nth1.
  - unfold buffers_ok in H. rewrite Ef in H. cbn -[get]. split; [by apply pool_taken in H|]. split; [|done].
    destruct H as [_ _ _ Hf _]. apply Hf. set_solver.
Qed.

Lemma alloc_large rl x : buffers_ok x -> rl && state_0 x = false ->
  match ngx_http_alloc_large_header_buffer servers rl x with
  | (NGX_OK, x') =>
      buffers_ok x' /\ req x' = req x /\ pending x' = pending x /\ client x' = client x
      /\ if state_0 x then bytes (buffer x') = Buf [] 0 /\ at_stage x' = at_stage x
         else let old := default 0 (line_start x) in let pos := b_pos (bytes (buffer x)) in
              bytes (buffer x') = Buf (slice (b_mem (bytes (buffer x))) old pos) (pos - old)
              /\ at_stage x' = relocate (address (buffer x)) old (at_stage x)
  | (rc, _) => rc = NGX_DECLINED \/ rc = NGX_ERROR \/ exists n, rc = Code n
  end.
Proof using sizes.
  intros H Hrl. unfold ngx_http_alloc_large_header_buffer. rewrite Hrl. cbv zeta.
  destruct (negb (state_0 x) && _); cbv beta iota; [by left|]. pose proof (take_large_ok x H) as Ht.
  destruct (take_large servers x) as [[rc b] x1]. destruct rc; try (destruct Ht as [Ht|Ht]; by auto).
  destruct Ht as (P & Eb & Eg & E1 & E2 & E3 & E4 & E5 & E6).
  destruct (_ <=? _); [eauto|]. destruct (state_0 x) eqn:Es.
  - split; [done|]. cbn. split_and!; try done.
  - set (x3 := x1 <| busy := busy x1 ++ [b] |> <| header_in := b |>).
    assert (E3' : buffer x3 = get (buffers x1) b) by done. rewrite E3'.
    destruct (Z.ltb_spec (size (get (buffers x1) b)) (b_pos (bytes (buffer x)) - default 0 (line_start x))); [eauto|].
    assert (P3 : buffers_ok x3) by exact P.
    set (f := fun _ : ngx_buf => Buf (slice _ _ _) _).
    destruct (on_buffer_ok f x3 P3) as [P4 E4'].
    { rewrite E3'. pose proof (fits_at x3 P3) as Hf. unfold fits in Hf. rewrite E3', Eb in Hf. unfold f, b_last in *. cbn [b_mem length] in *.
      unfold slice. rewrite length_take. lia. }
    split; [exact P4|]. do 3 (split; [done|]). split; [|by rewrite <- E2].
    change (bytes (buffer (on_buffer f x3)) = f (bytes (buffer x3))). by rewrite E4'.
Qed.
End Reading.
End ReadRequestBuffers.

Module ReadRequestFollows.
Import HostName RequestHeaders ReadRequest ReadRequestShift ReadHeaderShift ReadDoneShift ReadRequestSpec ReadRequestBuffers.

(** ** Moving the pointers *)

Lemma moved_sh d a o o' : sh d o o' -> sh (- a) o (moved (a + d) o').
Proof. intros ->. destruct o; unfold sh; cbn; [f_equal; lia|done]. Qed.

Lemma moved_anyway_sh d a base o o' : is_Some o -> sh d o o' -> sh (- a) o (moved_anyway base (a + d) o').
Proof. intros [z ->] ->. unfold sh, moved_anyway; cbn. f_equal. lia. Qed.

Lemma relocate_line_sim pos d base st a r r' : marks pos st a r -> st <> RequestLine.sw_start -> line_sim d st r r' ->
  line_sim (- a) st r (relocate_line base (a + d) r').
Proof.
  intros Hm Hst Hs. pose proof (mk_start _ _ _ _ Hm Hst) as Ea. destruct Hs, Hm. unfold relocate_line.
  assert (E0 : sh (- a) (request_start r) (Some 0)) by (rewrite Ea; unfold sh; cbn; f_equal; lia).
  assert (Es : sh (- a) (schema_start r) (moved (a + d) (schema_start r'))) by by apply moved_sh.
  assert (Eh : sh (- a) (host_start r) (moved (a + d) (host_start r'))) by by apply moved_sh.
  assert (Eh' : sh (- a) (host_end r) (moved (a + d) (host_end r'))) by by apply moved_sh.
  unfold sh in ls_schema_start0, ls_host_start0.
  destruct (schema_start r) as [sc|] eqn:Esc, (host_start r) as [ho|] eqn:Eho; cbn [option_map] in *;
    cbn; rewrite ls_schema_start0; cbn; rewrite ls_host_start0; cbn.
  all: rewrite ?ls_schema_start0, ?ls_host_start0 in *.
  all: constructor; cbn; rewrite ?Esc, ?Eho, ?ls_schema_start0, ?ls_host_start0; auto; try (intros; apply moved_anyway_sh; auto; by apply moved_sh); try by apply moved_sh.
  all: try (intros Hs; apply moved_anyway_sh; [apply mk_schema_some0; [by destruct st|by eexists]|by auto]).
  all: try (rewrite mk_host_none0 in * by done; unfold sh in *; by rewrite ls_host_end0).
  all: intros Hs; specialize (ls_schema_end0 Hs); rewrite mk_schema_none0 in * by done; unfold sh in *; by rewrite ls_schema_end0.
Qed.


Lemma relocate_header_sim lo pos d base st a h h' : header_marks lo pos st h -> name_set st = true -> HeaderLine.header_name_start h = Some a ->
  header_sim d st h h' -> header_sim (- a) st h (relocate_header base (a + d) h').
Proof.
  intros [_ _ _ M1 M2 M3] Hn Ea [E1 E2 E3 E4 E5 E6 E7 E8].
  constructor; cbn; auto.
  - intros _. rewrite Ea. unfold sh. cbn. f_equal. lia.
  - intros H. apply moved_anyway_sh; [specialize (M1 H); open_ptr; by eexists|auto].
  - intros H. apply moved_anyway_sh; [specialize (M2 H); open_ptr; by eexists|auto].
  - intros H. apply moved_anyway_sh; [specialize (M3 H); open_ptr; by eexists|auto].
Qed.

(** ** The correspondence *)

Section Follows.
Context {C : HostCore} {D : HeaderCore} {R : ReadCore}.
Context (servers : nat -> ngx_http_core_srv_conf_t) (hc : http_connection) (hc_ssl : bool).
Context (sizes : forall s, 0 <= large_size (servers s)).

Abbreviation whole_request := (whole_request servers hc hc_ssl).
Abbreviation whole_line := (whole_line servers hc hc_ssl).
Abbreviation headers_from := (headers_from servers hc hc_ssl).

Definition line_follows (x : reader) (s' : RequestLine.locals) (got : list Z) : Prop :=
  exists d lo pos s, window x got d lo pos /\ s'.1 = s.1 /\ line_sim d s.1 s.2 s'.2 /\ marked lo pos s /\ line_state got pos s
    /\ req x = new_request hc /\ forall ys, whole_request (got ++ ys) = whole_line (got ++ ys) pos s.

Definition headers_follow (x : reader) (s' : HeaderLine.locals) (got : list Z) : Prop :=
  exists d lo pos s, window x got d lo pos /\ s'.1 = s.1 /\ header_sim d s.1 s.2 s'.2 /\ header_marks lo pos s.1 s.2
    /\ header_state got pos s /\ forall ys, whole_request (got ++ ys) = headers_from (got ++ ys) pos s (req x).

(** [rest] is the stream from the beginning of the request on. *)
Definition ended_as (x : reader) (rest : list Z) (e : ended) : Prop :=
  exists n, whole_request rest = Some (e, req x, n)
    /\ (e = Handled -> 0 <= n <= Z.of_nat (length rest) /\ 0 <= b_pos (bytes (buffer x))
         /\ drop (Z.to_nat n) rest = unread (bytes (buffer x)) ++ pending x).

Definition follows (x : reader) (rest : list Z) : Prop :=
  match at_stage x with
  | Reading_line s => buffers_ok x /\ exists got, rest = got ++ pending x /\ line_follows x s got
  | Reading_headers s => buffers_ok x /\ exists got, rest = got ++ pending x /\ headers_follow x s got
  | Over (Ended e) => buffers_ok x /\ ended_as x rest e
  | Over _ => True
  | Idle _ => pool_ok (buffers x) 0 (busy x) (free x) /\ rest = pending x /\ bytes (get (buffers x) 0) = Buf [] 0 /\ busy x = [] /\ free x = []
  end.

(** When a handler has returned there is nothing left to do. *)
Definition settled (x : reader) (rest : list Z) : Prop :=
  follows x rest /\
  match at_stage x with
  | Reading_line _ | Reading_headers _ => pending x = [] /\ whole_request rest = None
  | Idle _ => pending x = []
  | Over _ => True
  end.

Definition measure (x : reader) : nat := length (unread (bytes (buffer x))) + length (pending x).

Lemma set_pos x got d lo pos pos' : buffers_ok x -> window x got d lo pos -> lo <= pos' <= Z.of_nat (length got) ->
  let y := on_buffer (fun _ => Buf (b_mem (bytes (buffer x))) (pos' + d)) x in
  buffers_ok y /\ window y got d lo pos' /\ buffer y = Header_buf (Buf (b_mem (bytes (buffer x))) (pos' + d)) (size (buffer x)) (address (buffer x)).
Proof.
  intros Ho [V El Ep Hi] Hp y. destruct (on_buffer_ok (fun _ => Buf (b_mem (bytes (buffer x))) (pos' + d)) x Ho) as [Ho' E].
  { pose proof (fits_at _ Ho). unfold fits, b_last in *. done. }
  split; [done|]. split; [|done]. unfold b_last in El. constructor; fold y in E; rewrite ?E; unfold b_last; cbn [bytes b_mem b_pos]; done.
Qed.

Lemma over_settled x rest o : match o with Ended _ => False | _ => True end -> settled (over o x) rest.
Proof. intros H. destruct o; by split. Qed.

Lemma at_end x got d lo pos : window x got d lo pos -> unread (bytes (buffer x)) = [] -> pos = Z.of_nat (length got).
Proof.
  intros W E. rewrite (unread_window _ _ _ _ _ W) in E. destruct W as [V _ _ Hi]. destruct V as (Hlo & _ & _).
  apply (f_equal length) in E. rewrite length_drop in E. cbn in E. lia.
Qed.

(** A window on nothing, at the end of what has been read. *)
Lemma window_empty x got d lo pos y : window x got d lo pos -> pos = Z.of_nat (length got) -> bytes (buffer y) = Buf [] 0 ->
  window y got (- pos) pos pos.
Proof.
  intros [V _ _ Hi] -> E. destruct V as (Hlo & _ & _). constructor; rewrite ?E; unfold b_last; cbn [b_mem b_pos length].
  - split; [lia|]. split; [lia|]. rewrite !drop_ge by (cbn; lia). done.
  - lia.
  - lia.
  - lia.
Qed.

(** A window on the line that begins at [a]. *)
Lemma window_line x got d lo pos a y : window x got d lo pos -> pos = Z.of_nat (length got) -> lo <= a <= pos ->
  bytes (buffer y) = Buf (slice (b_mem (bytes (buffer x))) (a + d) (b_pos (bytes (buffer x)))) (b_pos (bytes (buffer x)) - (a + d)) ->
  window y got (- a) a pos.
Proof.
  intros [V El Ep Hi] Epos Ha E. rewrite Ep in E. rewrite (view_slice _ _ _ _ V) in E by lia. destruct V as (Hlo & _ & _).
  assert (Es : slice got a pos = drop (Z.to_nat a) got) by (unfold slice; apply take_ge; rewrite length_drop; lia).
  rewrite Es in E. constructor; rewrite ?E; unfold b_last; cbn [b_mem b_pos].
  - split; [lia|]. split; [lia|]. by rewrite Z.add_opp_diag_r.
  - rewrite length_drop. lia.
  - lia.
  - lia.
Qed.

Lemma clean_sim d d' r r' : clean r -> request_end r = None -> line_sim d RequestLine.sw_start r r' -> line_sim d' RequestLine.sw_start r r'.
Proof.
  intros (E1 & E2 & E3 & E4 & E5 & E6 & E7 & E8) E9 []. unfold sh in *.
  rewrite E1, E2, E3, E4, E6, E7, E8, E9 in *. cbn [option_map] in *.
  constructor; unfold sh; rewrite ?E1, ?E2, ?E3, ?E4, ?E6, ?E7, ?E8, ?E9; auto; done.
Qed.

Lemma line_state_end m pos s : line_state m pos s -> request_end s.2 = None.
Proof. intros [[_ [lo Hi]] _]. destruct s as [st r]. by destruct Hi as (_ & _ & H & _). Qed.

Lemma line_alloc x s' got : buffers_ok x -> at_stage x = Reading_line s' -> line_follows x s' got -> unread (bytes (buffer x)) = [] ->
  match ngx_http_alloc_large_header_buffer servers true x with
  | (NGX_OK, x') => exists s'', at_stage x' = Reading_line s'' /\ buffers_ok x' /\ line_follows x' s'' got
                      /\ unread (bytes (buffer x')) = [] /\ pending x' = pending x
  | (rc, _) => rc = NGX_DECLINED \/ rc = NGX_ERROR \/ exists n, rc = Code n
  end.
Proof using sizes.
  intros Ho Est (d & lo & pos & [st r] & W & E1 & Hs & Hm & Hst & Hq & Hw) Hu. cbn in E1, Hs.
  pose proof (at_end _ _ _ _ _ W Hu) as Hp. destruct s' as [st' r']. cbn in E1, Hs. subst st'.
  pose proof (line_state_end _ _ _ Hst) as He. cbn in He.
  destruct (RequestLine.sw_eq_dec st RequestLine.sw_start) as [-> | Hne].
  - assert (E0 : state_0 x = true) by (unfold state_0; by rewrite Est).
    unfold ngx_http_alloc_large_header_buffer. rewrite E0. cbn [andb].
    destruct (on_buffer_ok (fun _ => Buf [] 0) x Ho) as [Ho' Eb].
    { pose proof (fits_at _ Ho). unfold fits, b_last in *. cbn. lia. }
    eexists. split; [exact Est|]. split; [done|]. split; [|by rewrite Eb].
    exists (- pos), pos, pos, (RequestLine.sw_start, r). split; [eapply window_empty; [done|done|by rewrite Eb]|].
    split; [done|]. split; [cbn; eapply clean_sim; [apply Hm|done|done]|]. split; [by split; [lia|apply Hm]|]. done.
  - assert (E0 : state_0 x = false) by (unfold state_0; rewrite Est; by destruct st).
    pose proof (alloc_large servers sizes true x Ho ltac:(by rewrite E0)) as Ha.
    destruct (ngx_http_alloc_large_header_buffer servers true x) as [rc x']. destruct rc; auto.
    destruct Ha as (Ho' & Eq & Epd & _ & Ha). rewrite E0 in Ha. cbv zeta in Ha. rewrite Est in Ha.
    pose proof Hm as Hm'. apply marked_iff in Hm' as (_ & a & Hla & Hmk); [|done].
    pose proof (mk_start _ _ _ _ Hmk Hne) as Ea. pose proof (mk_before _ _ _ _ Hmk Hne) as Hap.
    pose proof (ls_start _ _ _ _ Hs Hne) as Er. rewrite Ea in Er. unfold sh in Er. cbn in Er.
    unfold line_start in Ha. rewrite Est in Ha. cbn [snd] in Ha. rewrite Er in Ha. cbn [default from_option id] in Ha.
    destruct Ha as [Eb Es']. eexists. split; [exact Es'|]. split; [done|]. split.
    + exists (- a), a, pos, (st, r). split; [eapply window_line; [exact W|done|lia|exact Eb]|]. cbn [fst snd].
      split; [done|]. split; [by eapply relocate_line_sim|]. split; [|by rewrite Eq].
      apply marked_iff; [done|]. split; [lia|]. exists a. by split; [lia|].
    + split; [|done]. rewrite Eb. unfold unread. cbn [b_mem b_pos]. destruct W as [V El Ep Hi]. rewrite Ep.
      rewrite (view_slice _ _ _ _ V) by lia. apply drop_ge. unfold slice. rewrite length_take, length_drop. lia.
Qed.

Lemma headers_alloc x s' got : buffers_ok x -> at_stage x = Reading_headers s' -> headers_follow x s' got -> unread (bytes (buffer x)) = [] ->
  match ngx_http_alloc_large_header_buffer servers false x with
  | (NGX_OK, x') => exists s'', at_stage x' = Reading_headers s'' /\ buffers_ok x' /\ headers_follow x' s'' got
                      /\ unread (bytes (buffer x')) = [] /\ pending x' = pending x
  | (rc, _) => rc = NGX_DECLINED \/ rc = NGX_ERROR \/ exists n, rc = Code n
  end.
Proof using sizes.
  intros Ho Est (d & lo & pos & [st h] & W & E1 & Hs & Hm & Hst & Hw) Hu. cbn in E1, Hs, Hm.
  pose proof (at_end _ _ _ _ _ W Hu) as Hp. destruct s' as [st' h']. cbn in E1, Hs. subst st'.
  pose proof (alloc_large servers sizes false x Ho eq_refl) as Ha.
  destruct (ngx_http_alloc_large_header_buffer servers false x) as [rc x']. destruct rc; auto.
  destruct Ha as (Ho' & Eq & Epd & _ & Ha).
  destruct (HeaderLine.sw_eq_dec st HeaderLine.sw_start) as [-> | Hne].
  - assert (E0 : state_0 x = true) by (unfold state_0; by rewrite Est). rewrite E0, Est in Ha. destruct Ha as [Eb Es'].
    eexists. split; [exact Es'|]. split; [done|]. split; [|by rewrite Eb].
    exists (- pos), pos, pos, (HeaderLine.sw_start, h). split; [by eapply window_empty|].
    split; [done|]. split; [destruct Hs; by constructor|]. split; [by constructor|]. split; [done|]. by rewrite Eq.
  - assert (E0 : state_0 x = false) by (unfold state_0; rewrite Est; by destruct st). rewrite E0 in Ha. cbv zeta in Ha. rewrite Est in Ha.
    assert (Hn : name_set st = true) by (pose proof (hm_read _ _ _ _ Hm); by destruct st).
    pose proof (hm_name _ _ _ _ Hm Hn) as Hna. pose proof (hs_name _ _ _ _ Hs Hn) as Er.
    destruct (HeaderLine.header_name_start h) as [a|] eqn:Ea; [|done]. cbn in Hna. unfold sh in Er. cbn in Er.
    unfold line_start in Ha. rewrite Est in Ha. cbn [snd] in Ha. rewrite Er in Ha. cbn [default from_option id] in Ha.
    destruct Ha as [Eb Es']. eexists. split; [exact Es'|]. split; [done|]. split.
    + exists (- a), a, pos, (st, h). split; [eapply window_line; [exact W|done|lia|exact Eb]|]. cbn [fst snd].
      split; [done|]. split; [by eapply relocate_header_sim|]. split; [|split; [done|by rewrite Eq]].
      destruct Hm as [M0 M1 M2 M3 M4 M5]. cbn in *. constructor; auto; try lia. intros _. rewrite Ea. cbn. lia.
    + split; [|done]. rewrite Eb. unfold unread. cbn [b_mem b_pos]. destruct W as [V El Ep Hi]. rewrite Ep.
      rewrite (view_slice _ _ _ _ V) by lia. apply drop_ge. unfold slice. rewrite length_take, length_drop. lia.
Qed.

(** ** Reading *)

Lemma line_unread_none got s : whole_line got (Z.of_nat (length got)) s = None.
Proof.
  destruct s as [st r]. unfold ReadRequestSpec.whole_line, RequestLine.ngx_http_parse_request_line, unread. cbn [b_mem b_pos].
  rewrite drop_ge by lia. reflexivity.
Qed.

Lemma headers_unread_none got s q : headers_from got (Z.of_nat (length got)) s q = None.
Proof.
  destruct s as [st h]. unfold ReadRequestSpec.headers_from. cbn [whole_headers].
  unfold parse_header, HeaderLine.ngx_http_parse_header_line, unread. cbn [b_mem b_pos].
  rewrite drop_ge by lia. reflexivity.
Qed.

Lemma measure_read x x' got bs d lo pos : window x got d lo pos -> window x' (got ++ bs) d lo pos -> pending x = bs ++ pending x' ->
  measure x' = measure x.
Proof.
  intros W W' E. unfold measure. rewrite E, (unread_window _ _ _ _ _ W), (unread_window _ _ _ _ _ W').
  destruct W as [_ _ _ Hi]. rewrite drop_app_le by lia. rewrite !length_app. lia.
Qed.

(** Bytes are taken from the socket. *)
Lemma line_read x s' got : buffers_ok x -> at_stage x = Reading_line s' -> line_follows x s' got ->
  match ngx_http_read_request_header x with
  | (x', true) => exists bs, buffers_ok x' /\ at_stage x' = Reading_line s' /\ line_follows x' s' (got ++ bs)
                    /\ pending x = bs ++ pending x' /\ unread (bytes (buffer x')) <> [] /\ measure x' = measure x /\ req x' = req x
  | (x', false) => settled x' (got ++ pending x)
  end.
Proof.
  intros Ho Est (d & lo & pos & s & W & E1 & Hs & Hm & Hst & Hq & Hw).
  pose proof (read_some x got d lo pos Ho W) as Hr. destruct (ngx_http_read_request_header x) as [x' []].
  - destruct Hr as (bs & Ho' & W' & Ep & Es & Eq & _ & Hlt & _). exists bs. split; [done|]. split; [by rewrite Es|].
    split; [|split; [done|split; [|split; [by eapply measure_read|done]]]].
    + exists d, lo, pos, s. split; [done|]. do 3 (split; [done|]). split; [by apply line_state_app|]. split; [by rewrite Eq|].
      intros ys. rewrite <- app_assoc. apply Hw.
    + rewrite (unread_window _ _ _ _ _ W'). intros Hn%(f_equal length). rewrite length_drop in Hn. cbn in Hn.
      destruct W' as [[? _] _ _ ?]. lia.
  - destruct Hr as [-> [[-> _]|(Ep & _ & [-> | ->])]]; [by apply over_settled| |by apply over_settled].
    rewrite Ep. split.
    + unfold follows. cbn. rewrite Est. split; [done|]. exists got. split; [by rewrite Ep|]. exists d, lo, (Z.of_nat (length got)), s.
      split; [by apply (window_ext x)|]. do 4 (split; [done|]). first [done|by split].
    + cbn. rewrite Est. split; [done|]. rewrite (Hw []), app_nil_r. by apply line_unread_none.
Qed.

Lemma headers_read x s' got : buffers_ok x -> at_stage x = Reading_headers s' -> headers_follow x s' got ->
  match ngx_http_read_request_header x with
  | (x', true) => exists bs, buffers_ok x' /\ at_stage x' = Reading_headers s' /\ headers_follow x' s' (got ++ bs)
                    /\ pending x = bs ++ pending x' /\ unread (bytes (buffer x')) <> [] /\ measure x' = measure x /\ req x' = req x
  | (x', false) => settled x' (got ++ pending x)
  end.
Proof.
  intros Ho Est (d & lo & pos & s & W & E1 & Hs & Hm & Hst & Hw).
  pose proof (read_some x got d lo pos Ho W) as Hr. destruct (ngx_http_read_request_header x) as [x' []].
  - destruct Hr as (bs & Ho' & W' & Ep & Es & Eq & _ & Hlt & _). exists bs. split; [done|]. split; [by rewrite Es|].
    split; [|split; [done|split; [|split; [by eapply measure_read|done]]]].
    + exists d, lo, pos, s. split; [done|]. do 3 (split; [done|]). split; [by apply header_state_app|].
      intros ys. rewrite <- app_assoc, Eq. apply Hw.
    + rewrite (unread_window _ _ _ _ _ W'). intros Hn%(f_equal length). rewrite length_drop in Hn. cbn in Hn.
      destruct W' as [[? _] _ _ ?]. lia.
  - destruct Hr as [-> [[-> _]|(Ep & _ & [-> | ->])]]; [by apply over_settled| |by apply over_settled].
    rewrite Ep. split.
    + unfold follows. cbn. rewrite Est. split; [done|]. exists got. split; [by rewrite Ep|]. exists d, lo, (Z.of_nat (length got)), s.
      split; [by apply (window_ext x)|]. do 4 (split; [done|]). first [done|by split].
    + cbn. rewrite Est. split; [done|]. rewrite (Hw []), app_nil_r. by apply headers_unread_none.
Qed.

Lemma window_buf x got d lo pos : window x got d lo pos -> bytes (buffer x) = Buf (b_mem (bytes (buffer x))) (pos + d).
Proof. intros [_ _ E _]. destruct (bytes (buffer x)). cbn in *. by subst. Qed.

Lemma unread_shorter (got : list Z) pos pos' : 0 <= pos < pos' -> pos' <= Z.of_nat (length got) ->
  (length (drop (Z.to_nat pos') got) < length (drop (Z.to_nat pos) got))%nat.
Proof. intros H1 H2. rewrite !length_drop. lia. Qed.

(** The parser of request lines is called. *)
Lemma line_parsed x s' got rc s2 b : buffers_ok x -> line_follows x s' got ->
  RequestLine.ngx_http_parse_request_line s' (bytes (buffer x)) = (rc, s2, b) ->
  let x1 := on_buffer (fun _ => b) x in
  buffers_ok x1 /\ bytes (buffer x1) = b /\
  if bool_decide (rc = NGX_OK) then
    let '(o, q) := line_done servers hc hc_ssl (b_mem (bytes (buffer x))) (b_pos b) s2.2 (req x) in
    (length (unread b) < length (unread (bytes (buffer x))))%nat /\
    match o with
    | Some e => exists n, 0 <= n <= Z.of_nat (length got) /\ 0 <= b_pos b /\ unread b = drop (Z.to_nat n) got
                  /\ forall ys, whole_request (got ++ ys) = Some (e, q, n)
    | None => forall y, bytes (buffer y) = b -> req y = q -> headers_follow y first_header got
    end
  else if bool_decide (rc = NGX_AGAIN) then line_follows x1 s2 got /\ unread b = []
  else forall ys, whole_request (got ++ ys) = Some (Finalized NGX_HTTP_BAD_REQUEST, req x, 0).
Proof.
  intros Ho (d & lo & pos & s & W & E1 & Hs & Hm & Hst & Hq & Hw) Ep.
  pose proof (window_buf _ _ _ _ _ W) as Eb. rewrite Eb in Ep. destruct s as [st r], s' as [st' r']. cbn in E1, Hs. subst st'.
  set (m' := b_mem (bytes (buffer x))) in *.
  assert (Hv : view lo d got m') by apply W. assert (Hwf : buf_wf (Buf got pos)) by apply Hst.
  pose proof (line_parse_shift lo d got m' pos st r r' Hv Hwf Hm Hs) as Hp. rewrite Ep in Hp.
  pose proof (line_call got pos (st, r) Hst) as Hc.
  destruct (RequestLine.ngx_http_parse_request_line (st, r) (Buf got pos)) as [[rc0 [st0 r0]] b0] eqn:Eg. destruct s2 as [st2 r2].
  destruct Hp as (<- & <- & Em & -> & Ha & Hk). destruct Hc as (_ & Hca & Hck). cbn [snd] in *.
  destruct (on_buffer_ok (fun _ => Buf m' (b_pos b0 + d)) x Ho (fits_at _ Ho)) as [Ho1 Eb1].
  split; [done|]. split; [by rewrite Eb1|]. cbn [b_pos].
  assert (Hu : lo <= b_pos b0 -> unread (Buf m' (b_pos b0 + d)) = drop (Z.to_nat (b_pos b0)) got)
    by (intros Hl; unfold unread; cbn; by apply (view_drop _ _ _ _ Hv)).
  assert (Hlo : 0 <= lo <= pos) by (split; [apply Hv|apply W]).
  destruct (decide (rc0 = NGX_OK)) as [-> | Hrc].
  - rewrite bool_decide_eq_true_2 by done. destruct (Hk eq_refl) as (Hs0 & He0 & a & Ha0 & Hm0).
    destruct (Hck eq_refl) as (Hpos & _).
    rewrite (line_done_shift servers hc hc_ssl lo d got m' (b_pos b0) a r0 r2 (req x) Hv Hs0 Ha0 Hm0 He0).
    assert (Hr : forall ys, whole_request (got ++ ys) =
      match line_done servers hc hc_ssl got (b_pos b0) r0 (req x) with
      | (Some e, q) => Some (e, q, b_pos b0)
      | (None, q) => headers_from (got ++ ys) (b_pos b0) first_header q
      end).
    { intros ys. rewrite Hw, (whole_line_verdict servers hc hc_ssl got ys pos _ _ _ _ Hst Eg), bool_decide_eq_true_2 by done. by rewrite Hq. }
    destruct (line_done servers hc hc_ssl got (b_pos b0) r0 (req x)) as [o q]. split.
    { rewrite Hu, (unread_window _ _ _ _ _ W) by lia. apply unread_shorter; lia. }
    destruct o as [e|]; [exists (b_pos b0); split; [lia|]; split; [destruct Hv; cbn; lia|]; split; [apply Hu; lia|done]|].
    intros y Ey Eq. exists d, (b_pos b0), (b_pos b0), first_header. split.
    { constructor; rewrite ?Ey; cbn [b_mem b_pos]; [by apply (view_mono lo); [done|lia]|apply W|lia|lia]. }
    split; [done|]. split; [by constructor|]. split; [by constructor|]. split; [apply header_state_start; [lia|done]|].
    intros ys. by rewrite Hr, Eq.
  - rewrite bool_decide_eq_false_2 by done. destruct (decide (rc0 = NGX_AGAIN)) as [-> | Hrc'].
    + rewrite bool_decide_eq_true_2 by done. destruct (Ha eq_refl) as [Hs0 Hm0]. destruct (Hca eq_refl) as [Ep0 Hst0].
      assert (lo <= Z.of_nat (length got)) by (pose proof (wi_in _ _ _ _ _ W); lia).
      split; [|rewrite Hu by lia; rewrite Ep0; apply drop_ge; lia].
      exists d, lo, (b_pos b0), (st0, r0). split.
      { constructor; rewrite ?Eb1; cbn [bytes b_mem b_pos]; [done|apply W|done|lia]. }
      split; [done|]. do 2 (split; [done|]). split; [done|]. split; [done|].
      intros ys. rewrite Hw. by apply (whole_line_again servers hc hc_ssl got ys pos).
    + rewrite bool_decide_eq_false_2 by done. intros ys.
      rewrite Hw, (whole_line_verdict servers hc hc_ssl got ys pos _ _ _ _ Hst Eg), bool_decide_eq_false_2 by done. by rewrite Hq.
Qed.

Lemma length_terminate h m : length (terminate h m) = length m.
Proof. unfold terminate. destruct (HeaderLine.header_end h), (HeaderLine.header_name_end h); by rewrite ?length_insert. Qed.

Lemma drop_terminate h m n :
  ptr (HeaderLine.header_end h) (fun a => 0 <= a < Z.of_nat n) -> ptr (HeaderLine.header_name_end h) (fun a => 0 <= a < Z.of_nat n) ->
  drop n (terminate h m) = drop n m.
Proof.
  intros H1 H2. open_ptr. unfold terminate. rewrite E, E0. by rewrite !drop_insert_lt by lia.
Qed.

(** The request has ended with the bytes up to [n]. *)
Lemma read_ended_settled x got tl e n : pending x = tl -> buffers_ok x -> at_stage x = Over (Ended e) ->
  whole_request (got ++ tl) = Some (e, req x, n) ->
  (e = Handled -> 0 <= n <= Z.of_nat (length got) /\ 0 <= b_pos (bytes (buffer x)) /\ unread (bytes (buffer x)) = drop (Z.to_nat n) got) ->
  settled x (got ++ tl).
Proof.
  intros <- Ho Es Hw He. split; [|by rewrite Es]. unfold follows. rewrite Es. split; [done|]. exists n. split; [done|]. intros Hh.
  destruct (He Hh) as (Hn & Hb & Hu). rewrite length_app, Hu, drop_app_le by lia. split_and!; [lia|lia|done|done].
Qed.

(** The parser of header lines is called: on the buffer, where the pointers are [d]
    further than on the stream. *)
Section Call.
Context (x : reader) (got : list Z) (d lo pos : Z) (st : HeaderLine.sw) (h h' : HeaderLine.header).
Context (Ho : buffers_ok x) (W : window x got d lo pos) (Hst : header_state got pos (st, h)).
Context (Hw : forall ys, whole_request (got ++ ys) = headers_from (got ++ ys) pos (st, h) (req x)).
Context (rc : ngx_rc) (st0 : HeaderLine.sw) (h0 h2 : HeaderLine.header) (b0 : ngx_buf).
Context (Eg : parse_header servers (req x) (st, h) (Buf got pos) = (rc, (st0, h0), b0)).

Definition moved_on : reader := on_buffer (fun _ => Buf (b_mem (bytes (buffer x))) (b_pos b0 + d)) x.

Lemma moved_on_ok : buffers_ok moved_on
  /\ buffer moved_on = Header_buf (Buf (b_mem (bytes (buffer x))) (b_pos b0 + d)) (size (buffer x)) (address (buffer x)).
Proof using Ho. apply (on_buffer_ok (fun _ => Buf _ (b_pos b0 + d)) x Ho (fits_at _ Ho)). Qed.

Lemma moved_on_unread : lo <= b_pos b0 -> unread (bytes (buffer moved_on)) = drop (Z.to_nat (b_pos b0)) got.
Proof using W Ho. intros Hl. rewrite (proj2 moved_on_ok). unfold unread. cbn. by apply (view_drop _ _ _ _ (wi_view _ _ _ _ _ W)). Qed.

(** A line has been read, and [y] is the connection after it: before the position the
    memory of the buffer may have changed. *)
Lemma line_over y q m2 : at_stage y = Reading_headers (HeaderLine.sw_start, h2) -> buffers_ok y -> req y = q -> pending y = pending x ->
  bytes (buffer y) = Buf m2 (b_pos b0 + d) -> length m2 = length (b_mem (bytes (buffer x))) ->
  drop (Z.to_nat (b_pos b0 + d)) m2 = drop (Z.to_nat (b_pos b0 + d)) (b_mem (bytes (buffer x))) ->
  pos < b_pos b0 <= Z.of_nat (length got) -> header_sim d HeaderLine.sw_almost_done h0 h2 ->
  header_state got (b_pos b0) (HeaderLine.sw_start, h0) ->
  (forall ys, headers_from (got ++ ys) pos (st, h) (req x) = headers_from (got ++ ys) (b_pos b0) (HeaderLine.sw_start, h0) q) ->
  exists s2, at_stage y = Reading_headers s2 /\ buffers_ok y /\ headers_follow y s2 got /\ pending y = pending x
    /\ (length (unread (bytes (buffer y))) < length (unread (bytes (buffer x))))%nat.
Proof using W Hw.
  intros Ey Hoy Eq Epd Eby El2 Ed2 Hpos Hs0 Hst0 Hr. pose proof (wi_view _ _ _ _ _ W) as Hv. pose proof (wi_in _ _ _ _ _ W) as Hin.
  eexists. split; [exact Ey|]. split; [done|]. rewrite (view_drop _ _ _ _ Hv) in Ed2 by lia. pose proof Hv as (Hv1 & Hv2 & _). split.
  - exists d, (b_pos b0), (b_pos b0), (HeaderLine.sw_start, h0). split.
    { pose proof (wi_length _ _ _ _ _ W) as El. unfold b_last in El.
      constructor; rewrite ?Eby; unfold b_last; cbn [b_mem b_pos]; [|rewrite El2; lia|lia|lia]. split; [lia|]. split; [lia|done]. }
    split; [done|]. split; [destruct Hs0; by constructor|]. split; [by constructor|]. split; [done|].
    intros ys. by rewrite Hw, Hr, Eq.
  - split; [done|]. rewrite (unread_window _ _ _ _ _ W), Eby. unfold unread. cbn [b_mem b_pos]. rewrite Ed2. apply unread_shorter; lia.
Qed.

(** The zeros are written before the position. *)
Lemma terminated : pos < b_pos b0 -> header_sim d HeaderLine.sw_almost_done h0 h2 -> header_marks lo (b_pos b0) HeaderLine.sw_almost_done h0 ->
  drop (Z.to_nat (b_pos b0 + d)) (terminate h2 (b_mem (bytes (buffer x)))) = drop (Z.to_nat (b_pos b0 + d)) (b_mem (bytes (buffer x))).
Proof using W.
  intros Hpos Hs0 Hm0. pose proof (wi_view _ _ _ _ _ W) as (_ & Hv2 & _). pose proof (wi_in _ _ _ _ _ W) as Hin.
  pose proof (hm_name _ _ _ _ Hm0 eq_refl) as M0. apply drop_terminate.
  - pose proof (hm_end _ _ _ _ Hm0 eq_refl) as M1. pose proof (hs_end _ _ _ _ Hs0 eq_refl) as ->.
    open_ptr. repeat match goal with E : _ = Some _ |- _ => rewrite E end. cbn. lia.
  - pose proof (hm_name_end _ _ _ _ Hm0 eq_refl) as M1. pose proof (hs_name_end _ _ _ _ Hs0 eq_refl) as ->.
    open_ptr. repeat match goal with E : _ = Some _ |- _ => rewrite E end. cbn. lia.
Qed.

Lemma verdict ys : rc <> NGX_AGAIN -> headers_from (got ++ ys) pos (st, h) (req x) =
  if bool_decide (rc = NGX_OK) then
    match header_done servers hc got (b_pos b0) h0 (req x) with
    | (Some e, q) => Some (e, q, b_pos b0)
    | (None, q) => headers_from (got ++ ys) (b_pos b0) (st0, h0) q
    end
  else if bool_decide (rc = NGX_HTTP_PARSE_HEADER_DONE) then
    let (e, q) := headers_done servers hc hc_ssl (b_pos b0) h0 (req x) in Some (e, q, b_pos b0)
  else Some (Finalized NGX_HTTP_BAD_REQUEST, req x, 0).
Proof using Hst Eg. apply (headers_from_verdict servers hc hc_ssl got ys pos (st, h) (req x) rc (st0, h0) b0 Hst Eg). Qed.

Lemma ended_at y e q : buffers_ok y -> at_stage y = Over (Ended e) -> req y = q -> pending y = pending x ->
  bytes (buffer y) = bytes (buffer moved_on) -> pos < b_pos b0 <= Z.of_nat (length got) ->
  (forall ys, headers_from (got ++ ys) pos (st, h) (req x) = Some (e, q, b_pos b0)) -> settled y (got ++ pending x).
Proof using Ho W Hw.
  intros Hoy Ey Eq Ep Eb Hpos Hr. pose proof (wi_in _ _ _ _ _ W) as Hin. pose proof (wi_view _ _ _ _ _ W) as (Hv1 & Hv2 & _).
  eapply (read_ended_settled y got _ e (b_pos b0)); [done|done|done|by rewrite Hw, Hr, Eq|]. intros _. split; [lia|].
  rewrite Eb. split; [rewrite (proj2 moved_on_ok); cbn; lia|]. apply moved_on_unread. lia.
Qed.
End Call.

Lemma headers_parsed x s' got : buffers_ok x -> headers_follow x s' got ->
  match ReadRequest.parse_header servers hc hc_ssl x s' with
  | (x', None) => settled x' (got ++ pending x)
  | (x', Some again) =>
      exists s2, at_stage x' = Reading_headers s2 /\ buffers_ok x' /\ headers_follow x' s2 got /\ pending x' = pending x
        /\ if again then unread (bytes (buffer x')) = []
           else (length (unread (bytes (buffer x'))) < length (unread (bytes (buffer x))))%nat
  end.
Proof.
  intros Ho (d & lo & pos & [st h] & W & E1 & Hs & Hm & Hst & Hw). destruct s' as [st' h']. cbn in E1, Hs, Hm. subst st'.
  pose proof (window_buf _ _ _ _ _ W) as Eb. unfold ReadRequest.parse_header, conf. set (allow := underscores_in_headers _).
  pose proof (header_parse_shift ngx_hash allow lo d got _ pos st h h' (wi_view _ _ _ _ _ W) Hm Hs) as Hp. rewrite <- Eb in Hp.
  pose proof (header_call allow got pos (st, h) Hst) as Hc.
  destruct (HeaderLine.ngx_http_parse_header_line ngx_hash allow false (st, h) (Buf got pos)) as [[rc [st0 h0]] b0] eqn:Eg.
  destruct (HeaderLine.ngx_http_parse_header_line ngx_hash allow false (st, h') (bytes (buffer x))) as [[rc' [st0' h2]] b2].
  destruct Hp as (<- & <- & _ & -> & Ha & Hk & Hd). destruct Hc as (_ & Hca & Hck & Hcd). cbn [snd b_pos b_mem] in *.
  fold (moved_on x d b0). pose proof (moved_on_ok x d Ho b0) as [Ho1 Eb1].
  pose proof (fun ys => verdict x got pos st h Hst rc st0 h0 b0 Eg ys) as Hr.
  destruct (decide (rc = NGX_OK)) as [-> | Hrc].
  - destruct (Hk eq_refl) as (Hs0 & Hm0 & ->). destruct (Hck eq_refl) as (Hpos & Hst0 & _).
    specialize (fun ys => Hr ys ltac:(done)) as Hr'. rewrite bool_decide_eq_true_2 in Hr' |- * by done.
    rewrite (header_done_shift servers hc lo d got _ (b_pos b0) h0 h2 (req x) (wi_view _ _ _ _ _ W) Hs0 Hm0).
    destruct (header_done servers hc got (b_pos b0) h0 (req x)) as [[e|] q]; [by eapply ended_at|].
    destruct (HeaderLine.invalid_header h2 && ignore_invalid_headers (servers (srv (req x)))).
    { eapply line_over; [exact W|exact Hw|done|exact Ho1|done|done| |done|done|exact Hpos|exact Hs0|exact Hst0|exact Hr'].
      change (bytes (buffer (moved_on x d b0)) = Buf (b_mem (bytes (buffer x))) (b_pos b0 + d)). by rewrite Eb1. }
    set (x2 := (moved_on x d b0) <| at_stage := Reading_headers (HeaderLine.sw_start, h2) |>). assert (Eb2 : buffer x2 = buffer (moved_on x d b0)) by done.
    destruct (on_buffer_ok (fun b => Buf (terminate h2 (b_mem b)) (b_pos b)) x2 Ho1) as [Ho3 Eb3].
    { rewrite Eb2, Eb1. unfold b_last. cbn [bytes b_mem size]. rewrite length_terminate. apply (fits_at _ Ho). }
    eapply line_over; [exact W|exact Hw|done|exact Ho3|done|done| |apply length_terminate|eapply terminated; [exact W|exact (proj1 Hpos)|exact Hs0|exact Hm0]|exact Hpos|exact Hs0|exact Hst0|exact Hr'].
    change (bytes (buffer (on_buffer (fun b => Buf (terminate h2 (b_mem b)) (b_pos b)) x2)) = Buf (terminate h2 (b_mem (bytes (buffer x)))) (b_pos b0 + d)).
    by rewrite Eb3, Eb2, Eb1.
  - rewrite bool_decide_eq_false_2 by done. destruct (decide (rc = NGX_HTTP_PARSE_HEADER_DONE)) as [-> | Hrc2].
    + rewrite bool_decide_eq_true_2 by done. destruct (Hd eq_refl) as [Hs0 Hm0]. destruct (Hcd eq_refl) as [Hpos _].
      rewrite (headers_done_shift servers hc hc_ssl lo d (b_pos b0) h0 h2 (req x) Hs0 Hm0).
      specialize (fun ys => Hr ys ltac:(done)) as Hr'. rewrite bool_decide_eq_false_2, bool_decide_eq_true_2 in Hr' by done.
      destruct (headers_done servers hc hc_ssl (b_pos b0) h0 (req x)) as [e q].
      eapply ended_at; [exact Ho|exact W|exact Hw|by destruct e|done|by destruct e|by destruct e|by destruct e|exact Hpos|by destruct e].
    + rewrite bool_decide_eq_false_2 by done. destruct (decide (rc = NGX_AGAIN)) as [-> | Hrc3].
      * rewrite bool_decide_eq_true_2 by done. destruct (Ha eq_refl) as [Hs0 Hm0]. destruct (Hca eq_refl) as [Epos Hst0].
        pose proof (wi_in _ _ _ _ _ W) as Hin.
        eexists. split; [done|]. split; [done|]. split; [|split; [done|]].
        -- exists d, lo, (b_pos b0), (st0, h0). split.
           { constructor; change (buffer _) with (buffer (moved_on x d b0)); rewrite ?Eb1; cbn [bytes b_mem b_pos]; [apply W|apply W|done|lia]. }
           do 4 (split; [done|]). intros ys. rewrite Hw. by apply (headers_from_again servers hc hc_ssl got ys pos).
        -- change (unread (bytes (buffer (moved_on x d b0))) = []). erewrite moved_on_unread by (done || lia). rewrite Epos. apply drop_ge. lia.
      * rewrite bool_decide_eq_false_2 by done. specialize (fun ys => Hr ys Hrc3) as Hr'. rewrite !bool_decide_eq_false_2 in Hr' by done.
        eapply (read_ended_settled _ got _ _ 0); [done|done|done|by rewrite Hw, Hr'|done].
Qed.

(** ** The loops *)

Lemma line_follows_ext x y s got : bytes (buffer y) = bytes (buffer x) -> req y = req x -> line_follows x s got -> line_follows y s got.
Proof.
  intros Eb Eq (d & lo & pos & t & W & H). exists d, lo, pos, t. rewrite Eq. split; [by apply (window_ext x)|done].
Qed.

Lemma headers_follow_ext x y s got : bytes (buffer y) = bytes (buffer x) -> req y = req x -> headers_follow x s got -> headers_follow y s got.
Proof.
  intros Eb Eq (d & lo & pos & t & W & H). exists d, lo, pos, t. rewrite Eq. split; [by apply (window_ext x)|done].
Qed.

Lemma full_unread x got d lo pos : buffers_ok x -> window x got d lo pos -> full x = true -> unread (bytes (buffer x)) = [].
Proof.
  intros Ho [_ El Ep Hi] Hf%Z.eqb_eq. pose proof (fits_at _ Ho) as Hfit. unfold fits in Hfit.
  unfold unread. apply drop_ge. unfold b_last in *. lia.
Qed.

Definition header_measure (again : bool) (x : reader) : nat := 2 * measure x + if again then 0 else 1.

Definition header_next (x : reader) (rest : list Z) (again : bool) (n : nat) : Prop :=
  exists s got, at_stage x = Reading_headers s /\ buffers_ok x /\ headers_follow x s got /\ rest = got ++ pending x
    /\ (header_measure again x < n)%nat.

Lemma headers_parsed_next x s' got n : buffers_ok x -> headers_follow x s' got -> at_stage x = Reading_headers s' ->
  (header_measure false x <= n)%nat \/ unread (bytes (buffer x)) <> [] /\ (2 * measure x <= n)%nat ->
  match ReadRequest.parse_header servers hc hc_ssl x s' with
  | (x', None) => settled x' (got ++ pending x)
  | (x', Some again) => header_next x' (got ++ pending x) again n
  end.
Proof.
  intros Ho Hf Est Hn. pose proof (headers_parsed x s' got Ho Hf) as H.
  destruct (ReadRequest.parse_header servers hc hc_ssl x s') as [x' [again|]]; [|done].
  destruct H as (s2 & Es & Ho' & Hf' & Epd & Hu). exists s2, got. rewrite Epd. split_and!; try done.
  unfold header_measure, measure in *. rewrite Epd. destruct again.
  - rewrite Hu. cbn [length]. destruct Hn as [Hn|[Hne Hn]]; [lia|]. destruct (unread (bytes (buffer x))); [done|]. cbn [length] in Hn. lia.
  - destruct Hn as [Hn|[Hne Hn]]; lia.
Qed.

Lemma header_turn_follows again x s' got : buffers_ok x -> at_stage x = Reading_headers s' -> headers_follow x s' got ->
  match header_turn servers hc hc_ssl again x with
  | (x', None) => settled x' (got ++ pending x)
  | (x', Some again') => header_next x' (got ++ pending x) again' (header_measure again x)
  end.
Proof using sizes.
  intros Ho Est Hf. unfold header_turn. destruct again; [|rewrite Est; by apply headers_parsed_next; auto].
  assert (Ha : match (if full x then ngx_http_alloc_large_header_buffer servers false x else (NGX_OK, x)) with
    | (NGX_OK, x1) => exists s2, at_stage x1 = Reading_headers s2 /\ buffers_ok x1 /\ headers_follow x1 s2 got
                        /\ measure x1 = measure x /\ pending x1 = pending x
    | (rc, _) => rc = NGX_DECLINED \/ rc = NGX_ERROR \/ exists n, rc = Code n
    end).
  { destruct (full x) eqn:Ef; [|eauto 10].
    assert (Hu : unread (bytes (buffer x)) = []) by (destruct Hf as (? & ? & ? & ? & W & _); by eapply full_unread).
    pose proof (headers_alloc x s' got Ho Est Hf Hu) as Ha.
    destruct (ngx_http_alloc_large_header_buffer servers false x) as [rc x1]. destruct rc; auto.
    destruct Ha as (s2 & E1 & Ho1 & Hf1 & Hu1 & Ep1). exists s2. unfold measure. by rewrite Hu, Hu1, Ep1. }
  destruct (if full x then _ else _) as [rc x1]. destruct rc; try (by destruct Ha as [?|[?|[? ?]]]); try (by apply over_settled).
  - destruct Ha as (s2 & Es1 & Ho1 & Hf1 & Hm1 & Ep1). pose proof (headers_read x1 s2 got Ho1 Es1 Hf1) as Hr. rewrite <- Ep1.
    destruct (ngx_http_read_request_header x1) as [x2 [|]]; [|done].
    destruct Hr as (bs & Ho2 & Es2 & Hf2 & Epd & Hu2 & Hm2 & _). rewrite Es2, Epd, app_assoc.
    apply headers_parsed_next; [done|done|done|]. right. split; [done|]. unfold header_measure. lia.
  - apply over_settled. unfold too_long_header. destruct (line_start x1); [|done]. cbv zeta. by destruct (_ && _).
Qed.

Lemma header_loop_follows fuel : forall again x s' got, buffers_ok x -> at_stage x = Reading_headers s' -> headers_follow x s' got ->
  (header_measure again x < fuel)%nat ->
  exists x', header_loop servers hc hc_ssl fuel again x = Some x' /\ settled x' (got ++ pending x).
Proof using sizes.
  induction fuel as [|fuel IH]; intros again x s' got Ho Est Hf Hn; [lia|]. cbn [header_loop].
  pose proof (header_turn_follows again x s' got Ho Est Hf) as Ht.
  destruct (header_turn servers hc hc_ssl again x) as [x' [again'|]]; [|eauto].
  destruct Ht as (s2 & got2 & Es2 & Ho2 & Hf2 & -> & Hm). apply (IH again' x' s2 got2 Ho2 Es2 Hf2). lia.
Qed.

(** A turn of the loop of request lines. *)
Lemma line_turn_follows x s' got : buffers_ok x -> at_stage x = Reading_line s' -> line_follows x s' got ->
  match line_turn servers hc hc_ssl x with
  | (x', Some false) => settled x' (got ++ pending x)
  | (x', Some true) => exists s2 got2, at_stage x' = Reading_line s2 /\ buffers_ok x' /\ line_follows x' s2 got2
                         /\ got ++ pending x = got2 ++ pending x' /\ (measure x' < measure x)%nat
  | (x', None) => exists got2, at_stage x' = Reading_headers first_header /\ buffers_ok x' /\ headers_follow x' first_header got2
                    /\ got ++ pending x = got2 ++ pending x' /\ (measure x' < measure x)%nat
  end.
Proof using sizes.
  intros Ho Est Hf. unfold line_turn. pose proof (line_read x s' got Ho Est Hf) as Hr.
  destruct (ngx_http_read_request_header x) as [x1 [|]]; [|done]. cbn [negb].
  destruct Hr as (bs & Ho1 & Es1 & Hf1 & Epd & Hu1 & Hm1 & _). rewrite Es1, Epd, app_assoc, <- Hm1.
  destruct (RequestLine.ngx_http_parse_request_line s' (bytes (buffer x1))) as [[rc s2] b] eqn:Ep.
  destruct (line_parsed x1 s' _ rc s2 b Ho1 Hf1 Ep) as (Ho2 & Eb2 & H).
  set (x2 := on_buffer (fun _ => b) x1) in *.
  cbv zeta. set (x3 := x2 <| at_stage := Reading_line s2 |>).
  change (on_buffer (fun _ => b) x1 <| at_stage := Reading_line s2 |>) with x3.
  assert (Em3 : measure x3 = (length (unread b) + length (pending x1))%nat) by (change (measure x2 = (length (unread b) + length (pending x1))%nat); unfold measure; by rewrite Eb2).
  destruct (decide (rc = NGX_OK)) as [-> | Hrc].
  - rewrite bool_decide_eq_true_2 in H |- * by done.
    destruct (line_done _ _ _ _ _ _ _) as [[e|] q]; destruct H as [Hl H].
    + destruct H as (n & Hn & Hb & Hu & Hw). eapply (read_ended_settled _ _ _ e n); [by destruct e|by destruct e|by destruct e| |].
      * rewrite Hw. by destruct e.
      * intros ->. split; [done|]. change (0 <= b_pos (bytes (buffer x2)) /\ unread (bytes (buffer x2)) = drop (Z.to_nat n) (got ++ bs)). by rewrite Eb2.
    + eexists. split; [done|]. split; [done|]. split; [by apply H|]. split; [done|].
      change (measure x3 < measure x1)%nat. unfold measure in *. lia.
  - rewrite bool_decide_eq_false_2 in H |- * by done. destruct (decide (rc = NGX_AGAIN)) as [-> | Hrc2].
    + rewrite bool_decide_eq_true_2 in H |- * by done. cbn [negb]. destruct H as [Hf2 Hu2].
      assert (Hf3 : line_follows x3 s2 (got ++ bs)) by (by apply (line_follows_ext x2)).
      assert (Hlt : (measure x3 < measure x1)%nat).
      { rewrite Em3, Hu2. unfold measure. destruct (unread (bytes (buffer x1))); [done|]. cbn [length]. lia. }
      destruct (full x3); [|eauto 10].
      assert (Hu3 : unread (bytes (buffer x3)) = []) by (change (unread (bytes (buffer x2)) = []); by rewrite Eb2).
      pose proof (line_alloc x3 s2 _ Ho2 eq_refl Hf3 Hu3) as Ha.
      destruct (ngx_http_alloc_large_header_buffer servers true x3) as [rc x4].
      destruct rc; try (by destruct Ha as [?|[?|[? ?]]]); try (by apply over_settled).
      destruct Ha as (s4 & Es4 & Ho4 & Hf4 & Hu4 & Ep4). exists s4, (got ++ bs). rewrite Ep4. split_and!; try done.
      unfold measure in *. by rewrite Hu4, Ep4, <- Hu3.
    + rewrite bool_decide_eq_false_2 in H |- * by done. cbn [negb].
      eapply (read_ended_settled _ _ _ _ 0); [done|done|done|by rewrite H|done].
Qed.

Lemma line_loop_follows fuel : forall x s' got, buffers_ok x -> at_stage x = Reading_line s' -> line_follows x s' got ->
  (2 * measure x + 1 < fuel)%nat ->
  exists x', ngx_http_process_request_line servers hc hc_ssl fuel x = Some x' /\ settled x' (got ++ pending x).
Proof using sizes.
  induction fuel as [|fuel IH]; intros x s' got Ho Est Hf Hn; [lia|]. cbn [ngx_http_process_request_line].
  pose proof (line_turn_follows x s' got Ho Est Hf) as Ht.
  destruct (line_turn servers hc hc_ssl x) as [x' [[|]|]]; [| |].
  - destruct Ht as (s2 & got2 & Es2 & Ho2 & Hf2 & -> & Hm). apply (IH x' s2 got2 Ho2 Es2 Hf2). lia.
  - eauto.
  - destruct Ht as (got2 & Es2 & Ho2 & Hf2 & -> & Hm).
    apply (header_loop_follows fuel true x' first_header got2 Ho2 Es2 Hf2). unfold header_measure. lia.
Qed.

Lemma process_headers_follows fuel x s' got : buffers_ok x -> at_stage x = Reading_headers s' -> headers_follow x s' got ->
  (2 * measure x + 1 < fuel)%nat ->
  exists x', ngx_http_process_request_headers servers hc hc_ssl fuel x = Some x' /\ settled x' (got ++ pending x).
Proof using sizes.
  intros Ho Est Hf Hn. apply (header_loop_follows fuel true x s' got Ho Est Hf). unfold header_measure. lia.
Qed.
End Follows.
End ReadRequestFollows.
