(* ===== verification/ReadRequestProps.v ===== *)
(** * A connection serves the requests of its stream

    The bytes that arrive on a connection, in whatever pieces and with whatever
    sizes of buffers, are read as the specification says: a request, its body, the
    next request. *)

From S2P Require Import Prelude Scan Request RequestLine ProcessUri HeaderLine HostName HostNameProps RequestHeaders RequestHeadersProps ReadRequest ReadRequestShift ReadRequestSpec ReadRequestFollows.

Module ReadRequestProps.
Import HostName RequestHeaders ReadRequest ReadRequestShift ReadHeaderShift ReadDoneShift ReadRequestSpec ReadRequestBuffers ReadRequestFollows.

(** A body is among the bytes that have arrived, and the ones after it do not
    change it. *)
Class BodyLaws {R : ReadCore} := {
  body_in : forall q s k, body_length q s = Some k -> (k <= length s)%nat;
  body_more : forall q s t k, body_length q s = Some k -> body_length q (s ++ t) = Some k;
}.

(** The bytes of an event. *)
Definition arrives (e : event) : list Z := match e with Arrived bs => bs | _ => [] end.
Definition arrived (es : list event) : list Z := concat (map arrives es).

Section Props.
Context {C : HostCore} {D : HeaderCore} {R : ReadCore} {L : BodyLaws}.
Context (servers : nat -> ngx_http_core_srv_conf_t) (hc : http_connection) (hc_ssl : bool).

Abbreviation whole_request := (whole_request servers hc hc_ssl).
Abbreviation settled := (settled servers hc hc_ssl).
Abbreviation follows := (follows servers hc hc_ssl).
Abbreviation line_follows := (line_follows servers hc hc_ssl).

(** After requests of the stream [s] have been served with their bodies, [rest] is left. *)
Inductive served : list Z -> list Z -> Prop :=
| served_none s : served s s
| served_more s q n k rest :
    whole_request s = Some (Handled, q, n) -> 0 <= n <= Z.of_nat (length s) ->
    body_length q (drop (Z.to_nat n) s) = Some k ->
    served (drop k (drop (Z.to_nat n) s)) rest -> served s rest.

Lemma served_app s rest t : served s rest -> served (s ++ t) (rest ++ t).
Proof using L.
  induction 1 as [|s q n k rest Hw Hn Hk _ IH]; [constructor|].
  apply served_more with q n k; [by apply whole_request_more|rewrite length_app; lia| |].
  - rewrite drop_app_le by lia. by apply body_more.
  - apply body_in in Hk. by rewrite !drop_app_le by (rewrite ?length_drop in *; lia).
Qed.

Lemma served_snoc s rest q n k : served s rest ->
  whole_request rest = Some (Handled, q, n) -> 0 <= n <= Z.of_nat (length rest) ->
  body_length q (drop (Z.to_nat n) rest) = Some k ->
  served s (drop k (drop (Z.to_nat n) rest)).
Proof using Type.
  intros H. revert q n k. induction H as [s|s q n k rest Hw Hn Hk _ IH]; intros q' n' k' H1 H2 H3.
  - by apply (served_more s q' n' k'); [..|constructor].
  - by apply (served_more s q n k); [..|apply (IH q' n' k')].
Qed.

Lemma served_length s rest : served s rest -> (length rest <= length s)%nat.
Proof using Type. induction 1; rewrite ?length_drop in *; lia. Qed.

(** ** The events *)

(** More bytes are in the socket. *)
Lemma follows_arrived x rest bs : follows x rest -> follows (x <| pending := pending x ++ bs |>) (rest ++ bs).
Proof using Type.
  unfold ReadRequestFollows.follows. change (at_stage (x <| pending := pending x ++ bs |>)) with (at_stage x).
  destruct (at_stage x) as [kept|s|s|[]]; try done.
  - intros (P & -> & H). by split_and!; try apply H.
  - intros (Ho & got & -> & Hf). split; [done|]. exists got. split; [by rewrite <- app_assoc|]. by apply (line_follows_ext _ _ _ x).
  - intros (Ho & got & -> & Hf). split; [done|]. exists got. split; [by rewrite <- app_assoc|]. by apply (headers_follow_ext _ _ _ x).
  - intros (Ho & n & Hw & He). split; [done|]. exists n. split; [by apply whole_request_more|]. intros Hh.
    destruct (He Hh) as (Hn & Hb & Hd). split; [rewrite length_app; lia|]. split; [done|].
    change (drop (Z.to_nat n) (rest ++ bs) = unread (bytes (buffer x)) ++ (pending x ++ bs)).
    by rewrite drop_app_le, Hd, app_assoc by lia.
Qed.

(** The client, the timer and the count of calls do not matter. *)
Lemma follows_ext x y rest : buffers y = buffers x -> header_in y = header_in x -> busy y = busy x -> free y = free x ->
  at_stage y = at_stage x -> req y = req x -> pending y = pending x -> follows x rest -> follows y rest.
Proof using Type.
  intros E1 E2 E3 E4 E5 E6 E7. assert (Eb : buffer y = buffer x) by (unfold buffer; by rewrite E1, E2).
  unfold ReadRequestFollows.follows, buffers_ok, ended_as. rewrite E1, E2, E3, E4, E5, E6, E7, Eb.
  destruct (at_stage x) as [kept|s|s|[]]; try done; intros (Ho & got & -> & Hf); (split; [done|]); exists got; (split; [done|]).
  - apply (line_follows_ext _ _ _ x); by rewrite ?Eb.
  - apply (headers_follow_ext _ _ _ x); by rewrite ?Eb.
Qed.

Lemma follows_measure x rest : follows x rest ->
  match at_stage x with Reading_line _ | Reading_headers _ => (measure x <= length rest)%nat | _ => True end.
Proof using Type.
  unfold ReadRequestFollows.follows. destruct (at_stage x); try done; intros (Ho & got & -> & d & lo & pos & s' & W & _);
    unfold measure; rewrite (unread_window _ _ _ _ _ W), length_app, length_drop; lia.
Qed.

(** A new request, the beginning of which is in the buffer. *)
Lemma created_follows x d : buffers_ok x -> at_stage x = Reading_line (RequestLine.sw_start, fresh_request) ->
  req x = new_request hc -> 0 <= d -> b_pos (bytes (buffer x)) = d -> d <= b_last (bytes (buffer x)) ->
  follows x (unread (bytes (buffer x)) ++ pending x).
Proof using Type.
  intros Ho Es Eq Hd Ep El. unfold ReadRequestFollows.follows. rewrite Es. split; [done|].
  exists (unread (bytes (buffer x))). split; [done|]. exists d, 0, 0, (RequestLine.sw_start, fresh_request).
  split; [|split_and!; try done; by apply line_state_start; [|repeat split]].
  constructor; unfold unread, b_last in *; rewrite ?length_drop; try lia.
  split; [lia|]. split; [lia|]. rewrite Ep, drop_0. by replace (0 + d) with d by lia.
Qed.

Context (sizes : forall s, 0 <= large_size (servers s)).

(** A handler that reads a request. *)
Lemma reading_follows fuel x rest : follows x rest -> match at_stage x with Idle _ => False | _ => True end ->
  (2 * length rest + 1 < fuel)%nat ->
  exists x', run_handler servers hc hc_ssl fuel x = Some x' /\ settled x' rest.
Proof using sizes.
  intros Hf Hs Hn. pose proof (follows_measure x rest Hf) as Hm. pose proof Hf as Hf'. unfold ReadRequestFollows.follows in Hf. unfold run_handler.
  destruct (at_stage x) as [kept|s|s|o] eqn:Es; [done| | |].
  - destruct Hf as (Ho & got & -> & Hf). apply (line_loop_follows _ _ _ sizes _ x s); [done|done|done|lia].
  - destruct Hf as (Ho & got & -> & Hf). apply (process_headers_follows _ _ _ sizes _ x s); [done|done|done|lia].
  - exists x. split; [done|]. split; [done|]. by rewrite Es.
Qed.

(** A request begins in the first busy buffer, if there is one. *)
Lemma create_follows x : pool_ok (buffers x) (List.hd 0%nat (busy x)) (busy x) (free x) ->
  let b := bytes (get (buffers x) (List.hd 0%nat (busy x))) in 0 <= b_pos b <= b_last b ->
  match ngx_http_create_request hc x with
  | Some y => follows y (unread b ++ pending x) /\ at_stage y = Reading_line (RequestLine.sw_start, fresh_request)
  | None => True
  end.
Proof using Type.
  intros P b Hb. unfold ngx_http_create_request. destruct ngx_create_pool; [|done]. split; [|done].
  set (y := x <| req := _ |> <| header_in := _ |> <| at_stage := _ |>).
  assert (Eh : header_in y = List.hd 0%nat (busy x)) by (unfold y; cbn; by destruct (busy x)).
  assert (Eb : bytes (buffer y) = b) by (unfold buffer; by rewrite Eh).
  rewrite <- Eb in *. change (pending x) with (pending y). apply (created_follows y (b_pos (bytes (buffer y)))); try done; try apply Hb.
Qed.

Lemma first_bytes_follows fuel kept x rest : at_stage x = Idle kept -> follows x rest -> (2 * length rest + 1 < fuel)%nat ->
  exists x', first_bytes servers hc hc_ssl fuel kept x = Some x' /\ settled x' rest.
Proof using sizes.
  intros Es Hf Hn. unfold ReadRequestFollows.follows in Hf. rewrite Es in Hf. destruct Hf as (P & -> & Eb & Ebu & Efr).
  unfold first_bytes. fold (get (buffers x) 0). unfold recv. destruct (pending x) as [|c cs] eqn:Ep.
  { destruct (client x); eexists; (split; [done|]); try by apply over_settled. cbv zeta. destruct (ngx_handle_read_event _); [|by apply over_settled].
    destruct kept; (split; [unfold ReadRequestFollows.follows; cbn; by rewrite Es, Ep|cbn; by rewrite Es]). }
  destruct (_ =? 0); [eexists; split; [done|by apply over_settled]|].
  set (bs := take _ _). rewrite Eb. cbn [b_mem b_pos app].
  set (x1 := x <| buffers := _ |> <| pending := _ |>). cbv zeta.
  assert (Hfit : fits (Header_buf (Buf bs 0) (size (get (buffers x) 0)) (address (get (buffers x) 0)))).
  { pose proof (po_fits _ _ _ _ P) as Hfs. pose proof (at_range _ _ _ _ P) as Hr. rewrite List.Forall_forall in Hfs.
    specialize (Hfs (get (buffers x) 0) ltac:(by apply nth_In)). unfold fits, b_last in *. rewrite Eb in Hfs. cbn in *.
    unfold bs. rewrite length_take. lia. }
  assert (P1 : pool_ok (buffers x1) 0 (busy x1) (free x1)) by (by apply pool_at).
  assert (Eb1 : bytes (get (buffers x1) 0) = Buf bs 0).
  { unfold x1. cbn -[get]. rewrite get_insert by (by eapply at_range). done. }
  pose proof (create_follows x1) as Hc. change (busy x1) with (busy x) in *. rewrite Ebu in *. cbn [List.hd] in Hc.
  rewrite Eb1 in Hc. specialize (Hc P1 ltac:(unfold b_last; cbn; lia)).
  destruct (ngx_http_create_request hc x1) as [y|]; [|eexists; split; [done|by apply over_settled]].
  destruct Hc as [Hf Ey]. unfold unread in Hf. cbn [b_mem b_pos] in Hf. rewrite drop_0 in Hf.
  change (pending x1) with (drop (length bs) (c :: cs)) in Hf. unfold bs in Hf. rewrite taken in Hf.
  set (z := if kept then _ else y). assert (Ez : at_stage z = at_stage y) by (unfold z; by destruct kept).
  assert (Hz : follows z (c :: cs)) by (unfold z; destruct kept; [by apply (follows_ext y)|done]).
  pose proof (reading_follows fuel z _ Hz) as H. unfold run_handler in H. rewrite Ez, Ey in H. by apply H.
Qed.

Lemma handler_follows fuel x rest : follows x rest -> (2 * length rest + 1 < fuel)%nat ->
  exists x', run_handler servers hc hc_ssl fuel x = Some x' /\ settled x' rest.
Proof using sizes.
  intros Hf Hn. destruct (at_stage x) as [kept|s|s|o] eqn:Es; [|by apply reading_follows; rewrite ?Es..].
  unfold run_handler. rewrite Es. destruct kept; by apply first_bytes_follows.
Qed.

(** ** The next request *)

Lemma rotate_ok x : buffers_ok x -> header_in x <> 0%nat ->
  match rotate servers x with
  | (NGX_OK, y) => buffers_ok y /\ header_in y = header_in x /\ busy y = [header_in x] /\ buffer y = buffer x
      /\ at_stage y = at_stage x /\ req y = req x /\ pending y = pending x
  | (rc, _) => rc = NGX_ERROR \/ exists n, rc = Code n
  end.
Proof using Type.
  intros P Hh. unfold rotate. destruct (_ && _); [by left|].
  set (x1 := match free_room x with None => _ | Some _ => _ end).
  assert (E : buffers x1 = buffers x /\ busy x1 = busy x /\ free x1 = free x /\ header_in x1 = header_in x /\ at_stage x1 = at_stage x
    /\ req x1 = req x /\ pending x1 = pending x) by (unfold x1; by destruct (free_room x)).
  destruct E as (E1 & E2 & E3 & E4 & E5 & E6 & E7). cbv zeta. rewrite E1, E2, E3, E4. destruct (_ <? _); [by right; eexists|].
  unfold buffers_ok in P. pose proof (po_last _ _ _ _ P) as El. destruct (list.last (busy x)) as [h|] eqn:Elast; cbn in El; [|done].
  apply list.last_Some in Elast as [l Elast]. rewrite Elast in *. rewrite length_app. cbn [length].
  rewrite Nat.add_sub, take_app_length. subst h.
  assert (Hn : header_in x ∉ l).
  { pose proof (po_distinct _ _ _ _ P) as Hd. apply list.NoDup_cons in Hd as [_ Hd]. apply list.NoDup_app in Hd as (Hd & _).
    apply list.NoDup_app in Hd as (_ & Hd & _). intros Hl. apply (Hd _ Hl). by apply list_elem_of_singleton. }
  set (y := x1 <| buffers := _ |> <| free := _ |> <| busy := _ |>).
  assert (Ey : header_in y = header_in x) by exact E4.
  split; [unfold buffers_ok; rewrite Ey; by apply pool_rotate with (header_in x)|].
  split; [done|]. split; [done|]. split; [|done]. unfold buffer. rewrite Ey.
  by apply (empty_bufs_ok l (buffers x)).
Qed.

Lemma take_body_ok k x : buffers_ok x -> 0 <= b_pos (bytes (buffer x)) ->
  let y := take_body k x in
  buffers_ok y /\ 0 <= b_pos (bytes (buffer y)) /\ at_stage y = at_stage x
  /\ unread (bytes (buffer y)) ++ pending y = drop k (unread (bytes (buffer x)) ++ pending x).
Proof using Type.
  intros Ho Hb. unfold take_body. set (here := Nat.min k (length (unread (bytes (buffer x))))).
  set (f := fun b => Buf (b_mem b) (b_pos b + Z.of_nat here)).
  destruct (on_buffer_ok f x Ho (fits_at _ Ho)) as [Ho' Eb].
  set (y := on_buffer f x <| pending := drop (k - here) (pending x) |>). cbv zeta.
  assert (Ey : bytes (buffer y) = f (bytes (buffer x))) by (change (bytes (buffer (on_buffer f x)) = f (bytes (buffer x))); by rewrite Eb).
  rewrite Ey. split; [exact Ho'|]. split; [unfold f; cbn; lia|]. split; [done|].
  assert (Eu : unread (f (bytes (buffer x))) = drop here (unread (bytes (buffer x)))).
  { unfold unread, f. cbn. rewrite drop_drop. f_equal. lia. }
  change (pending y) with (drop (k - here) (pending x)). rewrite Eu, drop_app. f_equal; [|f_equal; lia].
  destruct (decide (k <= length (unread (bytes (buffer x))))%nat); [by unfold here; rewrite Nat.min_l|].
  by rewrite !drop_ge by lia.
Qed.

(** The connection is kept. *)
Definition kept (x : reader) (rest : list Z) : Prop :=
  follows x rest /\ match at_stage x with Reading_line _ | Over _ => True | Idle _ => rest = pending x | _ => False end.

Lemma over_kept x rest o : match o with Ended _ => False | _ => True end -> kept (over o x) rest.
Proof using Type. intros H. split; [by apply (over_settled servers hc hc_ssl)|done]. Qed.

Lemma keepalive_kept x : buffers_ok x -> 0 <= b_pos (bytes (buffer x)) ->
  kept (ngx_http_set_keepalive servers hc x) (unread (bytes (buffer x)) ++ pending x).
Proof using Type.
  intros Ho Hb. unfold ngx_http_set_keepalive. set (more := _ <? _).
  set (rx := if more && _ then _ else _).
  assert (Hr : match rx with
    | (NGX_OK, y) => buffers_ok y /\ (more = true -> header_in y = List.hd 0%nat (busy y)) /\ buffer y = buffer x /\ pending y = pending x
    | (rc, _) => rc = NGX_ERROR \/ exists n, rc = Code n
    end).
  { unfold rx. destruct (decide (header_in x = 0%nat)) as [Eh|Eh].
    - rewrite bool_decide_eq_true_2, andb_false_r by done. split; [done|]. split; [|done]. intros _.
      unfold buffers_ok in Ho. rewrite Eh in Ho. by rewrite (pool_first _ _ _ Ho).
    - rewrite bool_decide_eq_false_2, andb_true_r by done. destruct more; [|by split].
      pose proof (rotate_ok x Ho Eh) as H. destruct (rotate servers x) as [[] y]; auto.
      destruct H as (H1 & H2 & H3 & H4 & _ & _ & H5). split; [done|]. rewrite H2, H3. by split. }
  destruct rx as [rc y]. destruct rc; try (by destruct Hr as [?|[? ?]]); try (by apply over_kept).
  destruct Hr as (Hy & Hh & Eb & Ep). cbv zeta. set (z := y <| calls := _ |>).
  destruct (negb (ngx_handle_read_event _)); [by apply over_kept|]. rewrite <- Eb, <- Ep. destruct more eqn:Em.
  - pose proof (create_follows z) as Hc. change (busy z) with (busy y) in Hc. rewrite <- Hh in Hc by done.
    specialize (Hc Hy). apply Z.ltb_lt in Em. rewrite <- Eb in Em, Hb. specialize (Hc ltac:(split; [exact Hb|apply Z.lt_le_incl; exact Em])).
    destruct (ngx_http_create_request hc z) as [u|]; [|by apply over_kept]. destruct Hc as [Hf Eu].
    split; [by apply (follows_ext u)|]. change (at_stage (u <| timer_set := false |>)) with (at_stage u). by rewrite Eu.
  - apply Z.ltb_ge in Em. rewrite <- Eb in Em, Hb. replace (unread (bytes (buffer y))) with (@nil Z)
      by (symmetry; unfold unread; apply drop_ge; unfold b_last in Em; lia).
    split; [|done]. split; [by eapply pool_idle|]. split_and!; try done. 
    change (bytes (get (empty_buf 0 (buffers y)) 0) = Buf [] 0). by rewrite get_empty_buf.
Qed.

Lemma handled_kept x rest k : settled x rest -> at_stage x = Over (Ended Handled) ->
  body_length (req x) (unread (bytes (buffer x)) ++ pending x) = Some k ->
  exists rest', kept (ngx_http_set_keepalive servers hc (take_body k x)) rest' /\ (length rest' <= length rest)%nat
    /\ forall s, served s rest -> served s rest'.
Proof using Type.
  intros [Hf _] Es Hk. unfold ReadRequestFollows.follows in Hf. rewrite Es in Hf. destruct Hf as (Ho & n & Hw & He).
  destruct (He eq_refl) as (Hn & Hb & Hd). destruct (take_body_ok k x Ho Hb) as (Ho' & Hb' & _ & Hu).
  pose proof (keepalive_kept _ Ho' Hb') as H. rewrite Hu, <- Hd in H. rewrite <- Hd in Hk.
  exists (drop k (drop (Z.to_nat n) rest)). split; [exact H|]. split; [rewrite !length_drop; lia|].
  intros s Hs. by apply (served_snoc s rest (req x) n k).
Qed.

(** What an event calls a handler for, and the stream from the request on. *)
Inductive noted (x : reader) (rest : list Z) : event -> reader -> list Z -> Prop :=
| noted_bytes bs : noted x rest (Arrived bs) (x <| pending := pending x ++ bs |>) (rest ++ bs)
| noted_closed : noted x rest Closed_by_client (x <| client := Shut |>) rest
| noted_reset : noted x rest Reset_by_client (x <| client := Reset |>) rest
| noted_next k r : at_stage x = Over (Ended Handled) -> buffers_ok x -> 0 <= b_pos (bytes (buffer x)) -> kept (ngx_http_set_keepalive servers hc (take_body k x)) r ->
    noted x rest Served (ngx_http_set_keepalive servers hc (take_body k x)) r.

(** The connection after an event: nothing has happened, the time was over, or a
    handler was called, unless there was nothing to read. *)
Inductive came (fuel : nat) (x : reader) (rest : list Z) (e : event) : reader -> list Z -> Prop :=
| came_none : arrives e = [] -> came fuel x rest e x rest
| came_timer : e = Timer -> came fuel x rest e (over Timed_out x) rest
| came_noted y r : noted x rest e y r -> follows y r -> came fuel x rest e y r
| came_run y r x' : noted x rest e y r -> follows y r -> (2 * length r + 1 < fuel)%nat ->
    run_handler servers hc hc_ssl fuel y = Some x' -> came fuel x rest e x' r.

Lemma dispatch_follows fuel e x rest : settled x rest -> (2 * (length rest + length (arrives e)) + 1 < fuel)%nat ->
  exists x' rest', dispatch servers hc hc_ssl fuel e x = Some x' /\ settled x' rest'
    /\ (forall s, served s rest -> served (s ++ arrives e) rest') /\ came fuel x rest e x' rest'.
Proof using sizes L.
  intros Hs Hn. pose proof Hs as [Hf _].
  assert (Hrun : forall y r, noted x rest e y r -> follows y r -> (length r <= length rest + length (arrives e))%nat ->
    (forall s, served s rest -> served (s ++ arrives e) r) ->
    exists x' rest', run_handler servers hc hc_ssl fuel y = Some x' /\ settled x' rest' /\ (forall s, served s rest -> served (s ++ arrives e) rest')
      /\ came fuel x rest e x' rest').
  { intros y r Hy Hfy Hl Hr. destruct (handler_follows fuel y r Hfy ltac:(lia)) as (x' & E & Hx'). exists x', r. split_and!; try done.
    apply came_run with y; by try lia. }
  assert (Hsame : arrives e = [] -> exists x' rest', Some x = Some x' /\ settled x' rest' /\ (forall s, served s rest -> served (s ++ arrives e) rest')
    /\ came fuel x rest e x' rest').
  { intros E. exists x, rest. split_and!; [done|done|intros s; by rewrite E, app_nil_r|by constructor]. }
  destruct e as [bs| | | |]; cbn [dispatch arrives] in *.
  - apply (Hrun _ (rest ++ bs)); [constructor|by apply follows_arrived|by rewrite length_app|intros s; by apply served_app].
  - apply (Hrun _ rest); [constructor|by apply (follows_ext x)|lia|intros s; by rewrite app_nil_r].
  - apply (Hrun _ rest); [constructor|by apply (follows_ext x)|lia|intros s; by rewrite app_nil_r].
  - assert (Ht : exists x' rest', Some (over Timed_out x) = Some x' /\ settled x' rest' /\ (forall s, served s rest -> served (s ++ []) rest')
      /\ came fuel x rest Timer x' rest') by (exists (over Timed_out x), rest; split_and!; [done|by apply over_settled|intros s; by rewrite app_nil_r|by constructor]).
    destruct (timer_set x); [|by apply Hsame]. destruct (at_stage x); [done..|by apply Hsame].
  - destruct (at_stage x) as [| | |[[]| | | | |]] eqn:Es; try by apply Hsame.
    destruct (body_length _ _) as [k|] eqn:Ek; [|by apply Hsame].
    destruct (handled_kept x rest k Hs Es Ek) as (r & Hk & Hl & Hr).
    assert (Hno : noted x rest Served (ngx_http_set_keepalive servers hc (take_body k x)) r).
    { unfold ReadRequestFollows.follows in Hf. rewrite Es in Hf. destruct Hf as (Ho & n & _ & He). constructor; try done. by apply He. }
    set (y := ngx_http_set_keepalive _ _ _) in *. destruct Hk as [Hy Hst].
    assert (Hyr : settled y r -> exists x' rest', Some y = Some x' /\ settled x' rest' /\ (forall s, served s rest -> served (s ++ []) rest')
      /\ came fuel x rest Served x' rest') by (intros Hsy; exists y, r; split_and!; [done|done|intros s H; rewrite app_nil_r; by apply Hr|by constructor]).
    assert (Hrr : forall s, served s rest -> served (s ++ []) r) by (intros s H; rewrite app_nil_r; by apply Hr).
    destruct (at_stage y) as [kp| | |] eqn:Ey; [|by apply (Hrun _ r); try lia|done|].
    + destruct (ready y) eqn:Er; [by apply (Hrun _ r); try lia|]. apply Hyr. split; [done|]. rewrite Ey. unfold ready in Er.
      destruct (bool_decide (pending y = [])) eqn:Eb; [by apply bool_decide_eq_true in Eb|done].
    + apply Hyr. split; [done|]. by rewrite Ey.
Qed.

Lemma accepted_settled n a : 0 <= n -> settled (accepted hc n a) [].
Proof using Type.
  intros Hn. split; [|done]. split; [|done]. constructor; cbn.
  - intros b Hb. apply list_elem_of_singleton in Hb. lia.
  - apply NoDup_singleton.
  - done.
  - intros b Hb. by apply not_elem_of_nil in Hb.
  - by repeat constructor.
Qed.

(** What the connection is at, when [rest] is left of its stream. *)
Definition at_request (x : reader) (rest : list Z) : Prop :=
  match at_stage x with
  | Idle _ => rest = []
  | Reading_line _ | Reading_headers _ => pending x = [] /\ whole_request rest = None
  | Over (Ended e) => exists n, whole_request rest = Some (e, req x, n)
  | Over _ => True
  end.

End Props.

(** ** Examples *)

Definition ex_read_core : ReadCore := {|
  NGX_MAX_ERROR_STR := 2048;
  ngx_hash k c := wrap 64 (k * 31 + c);
  ngx_create_temp_buf n _ := Some (Z.of_nat (4096 * (n + 1)));
  ngx_palloc _ := true;
  ngx_list_init := true;
  ngx_list_push _ := true;
  ngx_create_pool := true;
  ngx_handle_read_event _ := true;
  body_length q s := let n := Z.to_nat (content_length_n (headers_in q)) in if (n <=? length s)%nat then Some n else None;
|}.

#[export] Instance ex_body : @BodyLaws ex_read_core.
Proof.
  split; cbn; intros *; destruct (Nat.leb_spec (Z.to_nat (content_length_n (headers_in q))) (length s)); try done.
  - by intros [= <-].
  - intros [= <-]. rewrite length_app. by destruct (Nat.leb_spec (Z.to_nat (content_length_n (headers_in q))) (length s + length t)); [|lia].
Qed.

(** Four large buffers of 32 bytes. *)
Definition ex_servers (n : nat) : ngx_http_core_srv_conf_t := Srv_conf 4 32 false true true 0.

Abbreviation ex_run := (@run (HostNameProps.ex_core true) RequestHeadersProps.ex_core ex_read_core ex_servers RequestHeadersProps.ex_hc false).

Definition crlf (s : String.string) : list Z := bytes_of s ++ [CR; LF].
Arguments crlf _%_string.

(** The first request has a body, and the second comes with it. *)
Definition ex_events : list event :=
  [Arrived (bytes_of "POST /a"); Arrived (crlf " HTTP/1.1" ++ crlf "Host: a.example.org");
   Arrived (crlf "Content-Length: 5" ++ crlf "" ++ bytes_of "hello" ++ bytes_of "GET /b HT");
   Served; Arrived (crlf "TP/1.1" ++ crlf "Host: example.org" ++ crlf "")].

End ReadRequestProps.

(** * No write behind a buffer

    When all servers have the same large buffers, the arrays of busy and free buffers
    are never filled beyond what they were made for, and no line is copied into a
    buffer it does not fit.  With several sizes this is not so: see the examples. *)
Module ReadRequestSafe.
Import HostName RequestHeaders ReadRequest ReadRequestBuffers.

(** The sizes of the buffers, the busy and the free ones, and the room for them. *)
Definition pool (x : reader) : list Z * list nat * list nat * option Z * option Z :=
  (map size (buffers x), busy x, free x, busy_room x, free_room x).

Lemma map_size_insert l i (v : ngx_buf_t) : size v = size (nth i l null_buf) -> map size (<[i := v]> l) = map size l.
Proof. revert i. induction l as [|b l IH]; intros [|i] H; cbn in *; [done..|by rewrite H|by rewrite IH]. Qed.

Lemma pool_on_buffer f x : pool (on_buffer f x) = pool x.
Proof. unfold pool. do 4 f_equal. by apply map_size_insert. Qed.

Lemma size_at l b n : map size l !! b = Some n -> size (get l b) = n.
Proof. revert b. induction l as [|c l IH]; intros [|b]; cbn; intros H; try done; [by simplify_eq|by apply IH]. Qed.

Lemma map_size_empty_buf b l : map size (empty_buf b l) = map size l.
Proof. unfold empty_buf. revert b. induction l as [|c l IH]; intros [|b]; cbn; [done..|by f_equal]. Qed.

Lemma map_size_empty_bufs ls : forall l, map size (empty_bufs ls l) = map size l.
Proof.
  induction ls as [|b ls IH]; intros l; [done|]. change (map size (empty_bufs ls (empty_buf b l)) = map size l). by rewrite IH, map_size_empty_buf.
Qed.

Section Safe.
Context {C : HostCore} {D : HeaderCore} {R : ReadCore}.
Context (servers : nat -> ngx_http_core_srv_conf_t) (hc : http_connection) (hc_ssl : bool).
Context (num large : Z) (uniform : forall s, large_num (servers s) = num /\ large_size (servers s) = large) (positive : 0 <= num).

Definition pool_safe (p : list Z * list nat * list nat * option Z * option Z) : Prop :=
  let '(sizes, bu, fr, bu_room, fr_room) := p in
  (bu_room = None -> bu = [] /\ fr = []) /\ (bu_room = None \/ bu_room = Some num) /\ (fr_room = None \/ fr_room = Some num)
  /\ Z.of_nat (length bu + length fr) <= num /\ forall b, b ∈ bu ++ fr -> sizes !! b = Some large.

Definition stage_safe (s : stage) : Prop := match s with Over (Overrun n) => 1 <= n <= 2 | _ => True end.

Definition safe (x : reader) : Prop := pool_safe (pool x) /\ stage_safe (at_stage x).

Lemma safe_ext x y : pool y = pool x -> stage_safe (at_stage y) -> safe x -> safe y.
Proof using Type. intros E H [H1 _]. split; [by rewrite E|done]. Qed.

Lemma safe_over x y o : pool y = pool x -> stage_safe (Over o) -> safe x -> safe (over o y).
Proof using Type. intros E H. by apply safe_ext. Qed.

(** ** Parts *)

Lemma read_header_safe x : safe x -> safe (ngx_http_read_request_header x).1.
Proof using Type.
  intros H. unfold ngx_http_read_request_header. destruct (0 <? _); [done|]. destruct (recv _ x) as [| |bs].
  - cbv zeta. cbn [fst]. destruct (ngx_handle_read_event _); [|by apply safe_over with x]. by destruct H.
  - by apply safe_over with x.
  - apply safe_ext with x; [exact (pool_on_buffer _ x)|apply H|done].
Qed.

Lemma pool_safe_take sizes bu b fr br fo : pool_safe (sizes, bu, b :: fr, br, fo) ->
  pool_safe (sizes, bu, fr, br, fo) /\ pool_safe (sizes, bu ++ [b], fr, br, fo)
  /\ br = Some num /\ Z.of_nat (length bu) < num /\ sizes !! b = Some large.
Proof using Type.
  intros (P1 & P2 & P3 & P4 & P5). cbn [length] in P4.
  assert (Er : br = Some num) by (destruct P2 as [E|E]; [by destruct (P1 E)|done]). subst br.
  assert (Hin : forall c, c ∈ bu \/ c = b \/ c ∈ fr -> sizes !! c = Some large) by (intros c Hc; apply P5; rewrite elem_of_app, elem_of_cons; tauto).
  unfold pool_safe. split_and!; try done; rewrite ?length_app; cbn [length]; try lia; try by right.
  - intros c Hc. apply Hin. rewrite elem_of_app in Hc. tauto.
  - intros c Hc. apply Hin. rewrite !elem_of_app, list_elem_of_singleton in Hc. tauto.
  - apply Hin. tauto.
Qed.

Lemma pool_safe_new sizes bu br fo : pool_safe (sizes, bu, [], br, fo) -> Z.of_nat (length bu) < num ->
  pool_safe (sizes, bu, [], Some num, fo)
  /\ pool_safe (sizes ++ [large], bu, [], Some num, fo) /\ pool_safe (sizes ++ [large], bu ++ [length sizes], [], Some num, fo)
  /\ (sizes ++ [large]) !! length sizes = Some large.
Proof using Type.
  intros (P1 & P2 & P3 & P4 & P5) Hlt.
  assert (Hnew : (sizes ++ [large]) !! length sizes = Some large) by (by rewrite lookup_app_r, Nat.sub_diag by lia).
  assert (Hold : forall b, b ∈ bu ++ [] -> (sizes ++ [large]) !! b = Some large) by (intros b Hb; by apply lookup_app_l_Some, P5).
  unfold pool_safe. split_and!; try done; rewrite ?length_app; cbn [length]; try lia; try by right.
  intros b Hb. rewrite app_nil_r, elem_of_app, list_elem_of_singleton in Hb. destruct Hb as [Hb | ->]; [|done].
  apply Hold. by rewrite app_nil_r.
Qed.

Lemma take_large_safe x : safe x ->
  let '(rc, b, y) := take_large servers x in
  safe y /\ at_stage y = at_stage x /\ match rc with
  | NGX_OK => Z.of_nat (length (busy y)) < num /\ busy_room y = Some num
      /\ size (get (buffers y) b) = large /\ safe (y <| busy := busy y ++ [b] |>)
  | Code _ => False
  | _ => True
  end.
Proof using uniform.
  intros [P Hs]. unfold take_large. destruct (free x) as [|b fs] eqn:Ef; unfold pool in P; rewrite Ef in P.
  - assert (Hx : safe x) by (split; [unfold pool; by rewrite Ef|done]).
    destruct (uniform (srv (req x))) as [En _]. unfold conf. rewrite En.
    destruct (Z.ltb_spec (Z.of_nat (length (busy x))) num) as [Hlt|]; [|done]. destruct (_ && _); [done|].
    destruct (pool_safe_new _ _ _ _ P Hlt) as (Py & Pz & Pz' & Hnew).
    set (y := match busy_room x with None => _ | Some _ => _ end).
    assert (Ey : pool y = (map size (buffers x), busy x, [], Some num, free_room x) /\ at_stage y = at_stage x /\ buffers y = buffers x).
    { unfold y, pool. destruct P as (_ & P & _). destruct (busy_room x) as [r|] eqn:Er; cbn; rewrite Ef; [|done].
      destruct P as [?|[= ->]]; [done|]. by rewrite Er. }
    destruct Ey as (Ep & E1 & E2). cbv zeta.
    destruct (ngx_create_temp_buf _ _) as [a|]; [|by split; [split; [rewrite Ep|rewrite E1]|]].
    set (z := y <| buffers := _ |>). assert (Ez : at_stage z = at_stage x) by exact E1.
    assert (Epz : pool z = (map size (buffers x) ++ [large], busy x, [], Some num, free_room x)).
    { unfold pool in Ep |- *. injection Ep as _ F1 F2 F3 F4. unfold z. cbn -[large_size].
      rewrite E2, map_app, F1, F2, F3, F4. cbn. by rewrite (proj2 (uniform _)). }
    rewrite E2, <- (length_map size). split; [by split; [rewrite Epz|rewrite Ez]|]. split; [done|].
    clearbody z. injection Epz as G1 G2 G3 G4 G5. rewrite G2, G4. split; [done|]. split; [done|].
    split; [apply size_at; by rewrite G1|]. split; [|change (stage_safe (at_stage z)); by rewrite Ez].
    unfold pool. cbn -[map]. by rewrite G1, G3, G4, G5.
  - destruct (pool_safe_take _ _ _ _ _ _ P) as (P1 & P2 & E & Hlt & Hb).
    split; [done|]. split; [done|]. split; [done|]. split; [done|]. split; [by apply size_at|done].
Qed.

Lemma alloc_safe rl x : safe x ->
  let '(rc, y) := ngx_http_alloc_large_header_buffer servers rl x in safe y /\ match rc with Code _ => False | _ => True end.
Proof using uniform.
  intros Hx. unfold ngx_http_alloc_large_header_buffer.
  destruct (rl && state_0 x); [split; [by apply safe_ext with x; [apply pool_on_buffer|apply Hx|]|done]|]. cbv zeta.
  destruct (uniform (srv (req x))) as [_ El]. unfold conf. rewrite El.
  destruct (negb (state_0 x) && _) eqn:Eg; [done|].
  pose proof (take_large_safe x Hx) as Ht. destruct (take_large servers x) as [[rc b] y]. destruct Ht as (Hy & Es & Ht).
  destruct rc; try done. destruct Ht as (Hlt & Er & Eb & Hz). rewrite Er. cbn [default from_option id].
  destruct (Z.leb_spec num (Z.of_nat (length (busy y)))); [lia|]. destruct (state_0 x); cbn [negb andb] in Eg.
  { split; [|done]. by apply safe_ext with (y <| busy := busy y ++ [b] |>); [|apply Hz|]. }
  apply Z.leb_gt in Eg. set (w := y <| busy := _ |> <| header_in := b |>).
  assert (Ew : size (buffer w) = large) by exact Eb. rewrite Ew.
  destruct (Z.ltb_spec large (b_pos (bytes (buffer x)) - default 0 (line_start x))); [lia|]. split; [|done].
  apply safe_ext with (y <| busy := busy y ++ [b] |>); [exact (pool_on_buffer _ w)| |done].
  destruct Hx as [_ Hx]. cbn. by destruct (at_stage x) as [|[]|[]|].
Qed.

(** ** The loops *)

Lemma parse_header_safe x s : safe x -> safe (ReadRequest.parse_header servers hc hc_ssl x s).1.
Proof using Type.
  intros Hx. unfold ReadRequest.parse_header. destruct (HeaderLine.ngx_http_parse_header_line _ _ _ _ _) as [[rc s'] b].
  cbv zeta. set (y := on_buffer _ x <| at_stage := _ |>). assert (Ep : pool y = pool x) by exact (pool_on_buffer _ x).
  destruct (bool_decide _); [|destruct (bool_decide _); [|destruct (bool_decide _)]].
  - destruct (header_done _ _ _ _ _ _) as [[e|] q]; [by apply safe_over with x|]. destruct (_ && _); (apply safe_ext with x; [|done..]); [done|].
    rewrite <- Ep. exact (pool_on_buffer _ y).
  - destruct (headers_done _ _ _ _ _ _) as [e q]. apply safe_over with x; [|done..]. by destruct e.
  - by apply safe_ext with x.
  - by apply safe_over with x.
Qed.

Lemma header_turn_safe again x : safe x -> safe (header_turn servers hc hc_ssl again x).1.
Proof using uniform.
  intros Hx. unfold header_turn. set (parse := fun y : reader => match at_stage y with Reading_headers s => ReadRequest.parse_header servers hc hc_ssl y s | _ => (y, None) end).
  assert (Hparse : forall y, safe y -> safe (parse y).1) by (intros y Hy; unfold parse; destruct (at_stage y); try done; by apply parse_header_safe).
  destruct again; [|by apply Hparse].
  assert (Ha : let '(rc, y) := if full x then ngx_http_alloc_large_header_buffer servers false x else (NGX_OK, x) in
    safe y /\ match rc with Code _ => False | _ => True end) by (destruct (full x); [by apply alloc_safe|done]).
  destruct (if full x then _ else _) as [rc y]. destruct Ha as [Hy Hrc].
  destruct rc; try done; try by apply safe_over with y.
  - pose proof (read_header_safe y Hy) as Hr. destruct (ngx_http_read_request_header y) as [z []]; [by apply Hparse|done].
  - apply safe_over with y; [done| |done]. unfold too_long_header. destruct (line_start y); [|done]. cbv zeta.
    destruct (_ && _) eqn:E; [|done]. apply andb_true_iff in E as [E1%Z.ltb_lt E2%Z.ltb_lt]. cbn. lia.
Qed.

Lemma header_loop_safe fuel : forall again x y, safe x -> header_loop servers hc hc_ssl fuel again x = Some y -> safe y.
Proof using uniform.
  induction fuel as [|fuel IH]; intros again x y Hx E; [done|]. cbn [header_loop] in E.
  pose proof (header_turn_safe again x Hx) as Ht. destruct (header_turn _ _ _ _ _) as [z [a|]]; [by apply (IH a z)|by simplify_eq].
Qed.

Lemma line_turn_safe x : safe x -> safe (line_turn servers hc hc_ssl x).1.
Proof using uniform.
  intros Hx. unfold line_turn. pose proof (read_header_safe x Hx) as Hr.
  destruct (ngx_http_read_request_header x) as [y []]; [|done]. cbn [negb fst] in *.
  destruct (at_stage y) as [|s| |]; try done.
  destruct (RequestLine.ngx_http_parse_request_line s _) as [[rc s'] b].
  cbv zeta. set (z := on_buffer _ y <| at_stage := _ |>). assert (Ep : pool z = pool y) by exact (pool_on_buffer _ y).
  assert (Hz : safe z) by (by apply safe_ext with y).
  destruct (bool_decide _); [|destruct (negb _); [by apply safe_over with y|destruct (full z); [|done]]].
  - destruct (line_done _ _ _ _ _ _ _) as [[e|] q]; [apply safe_over with y; [by destruct e|done..]|by apply safe_ext with y].
  - pose proof (alloc_safe true z Hz) as Ha. destruct (ngx_http_alloc_large_header_buffer _ _ _) as [rc' w]. destruct Ha as [Hw Hrc].
    destruct rc'; try done; by apply safe_over with w.
Qed.

Lemma line_loop_safe fuel : forall x y, safe x -> ngx_http_process_request_line servers hc hc_ssl fuel x = Some y -> safe y.
Proof using uniform.
  induction fuel as [|fuel IH]; intros x y Hx E; [done|]. cbn [ngx_http_process_request_line] in E.
  pose proof (line_turn_safe x Hx) as Ht. destruct (line_turn _ _ _ _) as [z [[]|]]; [by apply (IH z)|by simplify_eq|by eapply header_loop_safe].
Qed.

(** ** The next request *)

Lemma rotate_safe x : safe x -> buffers_ok x -> header_in x <> 0%nat ->
  let '(rc, y) := rotate servers x in safe y /\ match rc with Code _ => False | _ => True end.
Proof using uniform.
  intros Hx Ho Hh. pose proof (po_last _ _ _ _ Ho) as El. destruct (list.last (busy x)) as [h|] eqn:E; [|done].
  cbn in El. apply list.last_Some in E as [l E]. subst h. unfold rotate. destruct (uniform (srv (req x))) as [En _]. unfold conf. rewrite En.
  destruct (_ && _); [done|]. set (y := match free_room x with None => _ | Some _ => _ end).
  destruct Hx as [P Hs]. pose proof P as (P1 & P2 & P3 & P4 & P5). rewrite E, length_app in P4. cbn [length] in P4.
  assert (Ey : pool y = (map size (buffers x), busy x, free x, busy_room x, Some num) /\ at_stage y = at_stage x /\ header_in y = header_in x).
  { unfold y, pool. destruct (free_room x) as [r|] eqn:Er; cbn; [|done]. destruct P3 as [?|[= ->]]; [done|]. by rewrite Er. }
  destruct Ey as (Ep & E1 & E2). clearbody y. cbv zeta. injection Ep as G1 G2 G3 G4 G5. rewrite G2, G3, G5, E. cbn [default from_option id].
  rewrite length_app. cbn [length]. rewrite Nat.add_sub, take_app_length.
  destruct (Z.ltb_spec num (Z.of_nat (length l + length (free x)))); [lia|]. split; [|done]. split; [|change (stage_safe (at_stage y)); by rewrite E1].
  unfold pool. cbn -[map]. rewrite E2, G4, G5.
  change (fold_left _ l (buffers y)) with (empty_bufs l (buffers y)). rewrite map_size_empty_bufs, G1.
  rewrite E in *. split_and!; [|done|by right|cbn; rewrite length_app, length_rev; lia|].
  - intros Er. destruct (P1 Er) as [E0 _]. by destruct l.
  - intros b Hb. apply P5. cbn in Hb. rewrite elem_of_cons, !elem_of_app, elem_of_rev_iff in *. rewrite list_elem_of_singleton. tauto.
Qed.

Lemma create_safe x : safe x -> match ngx_http_create_request hc x with Some y => safe y | None => True end.
Proof using Type. intros Hx. unfold ngx_http_create_request. destruct ngx_create_pool; [|done]. by apply safe_ext with x. Qed.

Lemma keepalive_safe x : safe x -> buffers_ok x -> safe (ngx_http_set_keepalive servers hc x).
Proof using uniform positive.
  intros Hx Ho. unfold ngx_http_set_keepalive. set (more := _ <? _). set (rx := if more && _ then _ else _).
  assert (Hr : let '(rc, y) := rx in safe y /\ match rc with Code _ => False | _ => True end).
  { unfold rx. destruct (more && _) eqn:E; [|done]. apply andb_true_iff in E as [_ E%negb_true_iff%bool_decide_eq_false]. by apply rotate_safe. }
  destruct rx as [rc y]. destruct Hr as [Hy Hrc]. destruct rc; try done; try by apply safe_over with y.
  cbv zeta. destruct (negb _); [by apply safe_over with y|]. destruct more.
  - set (z := y <| calls := _ |>). assert (Hz : safe z) by (by apply safe_ext with y; [|apply Hy|]).
    pose proof (create_safe z Hz) as Hc. destruct (ngx_http_create_request hc z) as [u|]; [|by apply safe_over with z].
    by apply safe_ext with u; [|apply Hc|].
  - destruct Hy as [(P1 & P2 & P3 & _) _]. split; [|done]. unfold pool. cbn -[map].
    split_and!; try done. intros b Hb. by apply not_elem_of_nil in Hb.
Qed.

Lemma first_bytes_safe fuel kept x y : safe x -> first_bytes servers hc hc_ssl fuel kept x = Some y -> safe y.
Proof using uniform.
  intros Hx. unfold first_bytes. destruct (recv _ x) as [| |bs]; intros E.
  - cbv zeta in E. injection E as <-. set (z := (if kept then x else _) <| calls := _ |>).
    assert (Hz : safe z) by (apply safe_ext with x; unfold z; destruct kept; try done; apply Hx).
    destruct (ngx_handle_read_event _); [done|by apply safe_over with z].
  - injection E as <-. by apply safe_over with x.
  - cbv zeta in E. set (z := x <| buffers := _ |> <| pending := _ |>) in E.
    assert (Hz : safe z).
    { apply safe_ext with x; [|apply Hx|done]. unfold pool, z. cbn -[map insert]. by rewrite map_size_insert. }
    pose proof (create_safe z Hz) as Hc. destruct (ngx_http_create_request hc z) as [u|]; [|injection E as <-; by apply safe_over with z].
    eapply line_loop_safe; [|exact E]. destruct kept; [|done]. by apply safe_ext with u; [|apply Hc|].
Qed.

Lemma handler_safe fuel x y : safe x -> run_handler servers hc hc_ssl fuel x = Some y -> safe y.
Proof using uniform.
  intros Hx. unfold run_handler. destruct (at_stage x) as [[]| | |]; [by apply first_bytes_safe|by apply first_bytes_safe|by apply line_loop_safe|by apply header_loop_safe|by intros [= <-]].
Qed.

Lemma dispatch_safe fuel e x y : safe x -> (at_stage x = Over (Ended Handled) -> buffers_ok x) ->
  dispatch servers hc hc_ssl fuel e x = Some y -> safe y.
Proof using uniform positive.
  intros Hx Ho. destruct e as [bs| | | |]; cbn [dispatch].
  - apply handler_safe. by apply safe_ext with x; [|apply Hx|].
  - apply handler_safe. by apply safe_ext with x; [|apply Hx|].
  - apply handler_safe. by apply safe_ext with x; [|apply Hx|].
  - intros [= <-]. destruct (timer_set x); [|done]. destruct (at_stage x); try done; by apply safe_over with x.
  - destruct (at_stage x) as [| | |[[]| | | | |]] eqn:Es; try (by intros [= <-]).
    destruct (body_length _ _) as [k|]; [|by intros [= <-]].
    assert (Hk : safe (take_body k x)) by (apply safe_ext with x; [exact (pool_on_buffer _ x)|apply Hx|done]).
    assert (Hko : buffers_ok (take_body k x)).
    { apply (on_buffer_ok (fun b => Buf (b_mem b) (b_pos b + Z.of_nat (Nat.min k (length (unread (bytes (buffer x)))))))); [by apply Ho|].
      by apply fits_at, Ho. }
    pose proof (keepalive_safe _ Hk Hko) as Hy. destruct (at_stage (ngx_http_set_keepalive _ _ _)).
    + destruct (ready _); [by apply handler_safe|by intros [= <-]].
    + by apply handler_safe.
    + by intros [= <-].
    + by intros [= <-].
Qed.

Context {L : ReadRequestProps.BodyLaws}.
Abbreviation settled := (ReadRequestFollows.settled servers hc hc_ssl).

Lemma run_safe fuel es : 0 <= large -> forall x rest s, settled x rest -> ReadRequestProps.served servers hc hc_ssl s rest ->
  (2 * (length s + length (ReadRequestProps.arrived es)) + 1 < fuel)%nat -> safe x ->
  exists x' rest', run servers hc hc_ssl fuel es x = Some x' /\ settled x' rest' /\ safe x'.
Proof using uniform positive L.
  intros Hl. assert (sizes : forall s, 0 <= large_size (servers s)) by (intros s; destruct (uniform s); lia).
  induction es as [|e es IH]; intros x rest s Hs Hr Hn Hx; cbn [run]; [by exists x, rest|].
  change (ReadRequestProps.arrived (e :: es)) with (ReadRequestProps.arrives e ++ ReadRequestProps.arrived es) in Hn.
  rewrite length_app in Hn. pose proof (ReadRequestProps.served_length _ _ _ _ _ Hr).
  destruct (ReadRequestProps.dispatch_follows servers hc hc_ssl sizes fuel e x rest Hs ltac:(lia)) as (x1 & r1 & E & Hs1 & Hr1 & _). rewrite E.
  apply (IH x1 r1 (s ++ ReadRequestProps.arrives e)); [done|by apply Hr1|rewrite length_app; lia|].
  eapply dispatch_safe; [exact Hx| |exact E]. intros Es. destruct Hs as [Hf _]. unfold ReadRequestFollows.follows in Hf.
  rewrite Es in Hf. by destruct Hf.
Qed.

(** C4: when all servers have the same [large_client_header_buffers], then whatever
    events happen on a connection the large buffers that are busy or free are never more
    than configured, each has the configured size, while a request is read or has been no
    buffer holds more bytes than its size, and nothing is written behind a buffer or an
    array of buffers, but for two bytes at most: those of the dots that are put behind
    the beginning of a header too long for the log. *)
Theorem reading_safe fuel es n a : 0 <= large -> 0 <= n -> (2 * length (ReadRequestProps.arrived es) + 1 < fuel)%nat ->
  exists x, run servers hc hc_ssl fuel es (accepted hc n a) = Some x
    /\ Z.of_nat (length (busy x) + length (free x)) <= num
    /\ (forall b, b ∈ busy x ++ free x -> map size (buffers x) !! b = Some large)
    /\ match at_stage x with
       | Over (Overrun m) => 1 <= m <= 2
       | Over (Ended _) | Idle _ | Reading_line _ | Reading_headers _ => Forall (fun b => b_last (bytes b) <= size b) (buffers x)
       | _ => True
       end.
Proof using uniform positive L.
  intros Hl Hn Hfuel. destruct (run_safe fuel es Hl (accepted hc n a) [] []) as (x & rest & E & [Hf _] & (P1 & P2 & P3 & P4 & P5) & Hs);
    [by apply ReadRequestProps.accepted_settled|constructor|done| |].
  { split; [|done]. split_and!; try done; [by left|by left|]. intros b Hb. by apply not_elem_of_nil in Hb. }
  exists x. split; [done|]. split; [done|]. split; [done|]. unfold ReadRequestFollows.follows in Hf. unfold stage_safe in Hs.
  destruct (at_stage x) as [k|s|s|[]]; try done; destruct Hf as [Ho _]; exact (po_fits _ _ _ _ Ho).
Qed.
End Safe.

(** ** Examples *)

Import ReadRequestProps.

Lemma reading_safe_witness :
  exists x, ex_run 300 ex_events (accepted RequestHeadersProps.ex_hc 24 4096) = Some x /\ Z.of_nat (length (busy x) + length (free x)) <= 4
    /\ Forall (fun b => b_last (bytes b) <= size b) (buffers x).
Proof.
  destruct (@reading_safe (HostNameProps.ex_core true) RequestHeadersProps.ex_core ex_read_core ex_servers RequestHeadersProps.ex_hc false
    4 32 ltac:(done) ltac:(done) ex_body 300 ex_events 24 4096 ltac:(done) ltac:(done) ltac:(apply Nat.ltb_lt; vm_compute; reflexivity))
    as (x & E & H1 & H2 & H3).
  exists x. split; [exact E|]. split; [exact H1|]. vm_compute in E. injection E as <-. exact H3.
Defined.

(** The default server has one large buffer, the server of the request four: the
    array of busy buffers, made for one, gets a second. *)
Definition ex_two_servers (n : nat) : ngx_http_core_srv_conf_t := Srv_conf (match n with O => 1 | _ => 4 end) 32 false true true 0.

Abbreviation ex_run_two := (@run (HostNameProps.ex_core true) RequestHeadersProps.ex_core ex_read_core ex_two_servers RequestHeadersProps.ex_hc false).

Example busy_array_overrun :
  let bs := crlf "GET / HTTP/1.1" ++ crlf "Host: example.org" ++ crlf "Accept: text/html" ++ crlf "" in
  option_map at_stage (ex_run_two 200 [Arrived bs] (accepted RequestHeadersProps.ex_hc 24 4096)) = Some (Over (Overrun 8)).
Proof. vm_compute. reflexivity. Qed.

(** A header in a buffer of 1749 bytes: the dots that mark that only 1748 are logged
    are three. *)
Example dots_overrun :
  let servers n := Srv_conf 4 1749 false true true 0 in
  let bs := crlf "GET / HTTP/1.1" ++ bytes_of "Cookie: " ++ repeat 97 1800 in
  option_map at_stage (@run (HostNameProps.ex_core true) RequestHeadersProps.ex_core ex_read_core servers RequestHeadersProps.ex_hc false
    4000 [Arrived bs] (accepted RequestHeadersProps.ex_hc 24 4096)) = Some (Over (Overrun 2)).
Proof. vm_compute. reflexivity. Qed.

End ReadRequestSafe.

(** * Why a connection ends

    Every end of a connection has its reason in what came, in the memory or in the
    sizes that are configured. *)
Module ReadRequestExact.
Import HostName RequestHeaders ReadRequest ReadRequestShift ReadHeaderShift ReadRequestSpec ReadRequestBuffers ReadRequestFollows ReadRequestProps ReadRequestSafe.

(** The client and the sizes of the buffers stay; there may be new buffers. *)
Definition keeps (x y : reader) : Prop := client y = client x /\ map size (buffers x) `prefix_of` map size (buffers y).

#[export] Instance keeps_preorder : PreOrder keeps.
Proof. split; [done|]. intros x y z [E1 H1] [E2 H2]. split; [by rewrite E2|by transitivity (map size (buffers y))]. Qed.

Lemma keeps_same x y : client y = client x -> pool y = pool x -> keeps x y.
Proof. intros E H. split; [done|]. by injection H as -> _ _ _ _. Qed.

Section Keeps.
Context {C : HostCore} {D : HeaderCore} {R : ReadCore}.
Context (servers : nat -> ngx_http_core_srv_conf_t) (hc : http_connection) (hc_ssl : bool).

Lemma read_header_keeps x : keeps x (ngx_http_read_request_header x).1.
Proof.
  unfold ngx_http_read_request_header. destruct (0 <? _); [done|]. destruct (recv _ x); [|done|by apply keeps_same; [|exact (pool_on_buffer _ x)]].
  cbv zeta. cbn [fst]. by destruct (ngx_handle_read_event _).
Qed.

Lemma take_large_keeps x : keeps x (take_large servers x).2.
Proof.
  unfold take_large. destruct (free x); [|done]. destruct (_ <? _); [|done]. destruct (_ && _); [done|].
  destruct (busy_room x); (destruct (ngx_create_temp_buf _ _); [|done]); (split; [done|]); cbn; rewrite map_app; by apply prefix_app_r.
Qed.

Lemma alloc_keeps rl x : keeps x (ngx_http_alloc_large_header_buffer servers rl x).2.
Proof.
  unfold ngx_http_alloc_large_header_buffer. destruct (_ && _); [by apply keeps_same; [|exact (pool_on_buffer _ x)]|].
  cbv zeta. destruct (_ && _); [done|]. pose proof (take_large_keeps x) as H. destruct (take_large servers x) as [[rc b] y]. cbn [snd] in H.
  destruct rc; try done. destruct (_ <=? _); [done|]. destruct (state_0 x); [done|]. destruct (_ <? _); [done|].
  transitivity y; [done|]. set (z := y <| busy := _ |> <| header_in := b |>). apply (keeps_same z); [done|].
  change (pool (on_buffer (fun _ : ngx_buf => Buf (slice (b_mem (bytes (buffer x))) (default 0 (line_start x)) (b_pos (bytes (buffer x))))
    (b_pos (bytes (buffer x)) - default 0 (line_start x))) z) = pool z). apply pool_on_buffer.
Qed.

Lemma parse_header_keeps x s : keeps x (ReadRequest.parse_header servers hc hc_ssl x s).1.
Proof.
  unfold ReadRequest.parse_header. destruct (HeaderLine.ngx_http_parse_header_line _ _ _ _ _) as [[rc s'] b].
  cbv zeta. set (y := on_buffer _ x <| at_stage := _ |>). assert (Hy : keeps x y) by (by apply keeps_same; [|exact (pool_on_buffer _ x)]).
  destruct (bool_decide _); [|destruct (bool_decide _); [|destruct (bool_decide _)]]; [| |done|done].
  - destruct (header_done _ _ _ _ _ _) as [[e|] q]; [done|]. destruct (_ && _); [done|]. transitivity y; [done|].
    by apply keeps_same; [|exact (pool_on_buffer _ y)].
  - destruct (headers_done _ _ _ _ _ _) as [e q]. by destruct e.
Qed.

Lemma header_turn_keeps again x : keeps x (header_turn servers hc hc_ssl again x).1.
Proof.
  unfold header_turn.
  set (parse := fun y : reader => match at_stage y with Reading_headers s => ReadRequest.parse_header servers hc hc_ssl y s | _ => (y, None) end).
  assert (Hparse : forall y, keeps y (parse y).1) by (intros y; unfold parse; destruct (at_stage y); try done; apply parse_header_keeps).
  destruct again; [|by apply Hparse].
  assert (Ha : keeps x (if full x then ngx_http_alloc_large_header_buffer servers false x else (NGX_OK, x)).2)
    by (destruct (full x); [by apply alloc_keeps|done]).
  destruct (if full x then _ else _) as [rc y]. cbn [snd] in Ha. destruct rc; try done.
  pose proof (read_header_keeps y) as Hr. destruct (ngx_http_read_request_header y) as [z []]; cbn [fst] in Hr.
  - transitivity y; [done|]. transitivity z; [done|apply Hparse].
  - by transitivity y.
Qed.

Lemma line_turn_keeps x : keeps x (line_turn servers hc hc_ssl x).1.
Proof.
  unfold line_turn. pose proof (read_header_keeps x) as Hr. destruct (ngx_http_read_request_header x) as [y []]; [|done]. cbn [negb fst] in *.
  destruct (at_stage y) as [|s| |]; try done. destruct (RequestLine.ngx_http_parse_request_line s _) as [[rc s'] b].
  cbv zeta. set (z := on_buffer _ y <| at_stage := _ |>).
  assert (Hz : keeps x z) by (transitivity y; [done|]; by apply keeps_same; [|exact (pool_on_buffer _ y)]).
  destruct (bool_decide _); [|destruct (negb _); [done|destruct (full z); [|done]]].
  - destruct (line_done _ _ _ _ _ _ _) as [[[]|] q]; done.
  - pose proof (alloc_keeps true z) as Ha. destruct (ngx_http_alloc_large_header_buffer _ _ _) as [rc' w]. cbn [snd] in Ha.
    assert (keeps x w) by (by transitivity z). by destruct rc'.
Qed.

Lemma rotate_keeps x : keeps x (rotate servers x).2.
Proof.
  unfold rotate. destruct (_ && _); [done|]. set (y := match free_room x with None => _ | Some _ => _ end).
  assert (E : buffers y = buffers x /\ client y = client x) by (unfold y; by destruct (free_room x)). destruct E as [E1 E2].
  clearbody y. cbv zeta. destruct (_ <? _); (split; [done|]); cbn; rewrite ?E1; [done|].
  change (map size (buffers x) `prefix_of` map size (empty_bufs (take (length (busy y) - 1) (busy y)) (buffers x))).
  by rewrite map_size_empty_bufs.
Qed.

Lemma keepalive_keeps x : keeps x (ngx_http_set_keepalive servers hc x).
Proof.
  unfold ngx_http_set_keepalive. set (more := _ <? _). pose proof (rotate_keeps x) as Hr.
  assert (H : keeps x (if more && negb (bool_decide (header_in x = 0%nat)) then rotate servers x else (NGX_OK, x)).2) by (by destruct (_ && _)).
  destruct (if more && _ then _ else _) as [rc y]. cbn [snd] in H. destruct rc; try done.
  cbv zeta. destruct (negb _); [done|]. destruct more.
  - unfold ngx_http_create_request. by destruct ngx_create_pool.
  - transitivity y; [done|]. split; [done|]. cbn. by rewrite map_size_empty_buf.
Qed.
End Keeps.

(** ** The reasons *)

Section Exact.
Context {C : HostCore} {D : HeaderCore} {R : ReadCore} {L : BodyLaws}.
Context (servers : nat -> ngx_http_core_srv_conf_t) (hc : http_connection) (hc_ssl : bool).

Abbreviation whole_request := (whole_request servers hc hc_ssl).
Abbreviation settled := (settled servers hc hc_ssl).
Abbreviation follows := (follows servers hc hc_ssl).

(** All servers have [num] large buffers of [large] bytes. *)
Definition uniform (num large : Z) : Prop := forall s, large_num (servers s) = num /\ large_size (servers s) = large.

(** Memory and events are always had. *)
Definition memory : Prop :=
  (forall n s, is_Some (ngx_create_temp_buf n s)) /\ (forall s, ngx_palloc s = true) /\ ngx_create_pool = true
  /\ forall n, ngx_handle_read_event n = true.

(** In what has come a line that is not whole has [large] bytes or more, or the
    buffer is full and all the large ones are in use.  The code is the one of the
    line when that is the request line. *)
Definition too_large (num large rc : Z) (x : reader) (rest : list Z) : Prop :=
  exists got, got `prefix_of` rest /\ whole_request got = None
    /\ (rc = NGX_HTTP_REQUEST_URI_TOO_LARGE /\ in_request_line got \/ rc = NGX_HTTP_REQUEST_HEADER_TOO_LARGE)
    /\ (large <= open_line got \/ full x = true /\ Z.of_nat (length (busy x)) = num /\ free x = []).

Definition gone (seen : list event) : Prop := Closed_by_client ∈ seen \/ Reset_by_client ∈ seen.

(** Why the connection is where it is, after the events [seen]. *)
Definition reason (num large : Z) (seen : list event) (x : reader) (rest : list Z) : Prop :=
  match at_stage x with
  | Over Lost => gone seen
  | Over Timed_out => Timer ∈ seen
  | Over Out_of_memory => ~ memory
  | Over (Too_large rc) => too_large num large rc x rest
  | Over (Overrun n) => 1 <= n <= 2 /\ too_large num large NGX_HTTP_REQUEST_HEADER_TOO_LARGE x rest
  | _ => True
  end.

Lemma too_large_app num large rc x y rest t : pool y = pool x -> full y = full x -> too_large num large rc x rest -> too_large num large rc y (rest ++ t).
Proof using Type.
  intros E F (got & H1 & H2 & H3 & H4). exists got. split; [by apply prefix_app_r|]. split; [done|]. split; [done|].
  injection E as _ E1 E2 _ _. by rewrite F, E1, E2.
Qed.

Section Uniform.
Context (num large first : Z) (same : uniform num large) (Hnum : 0 <= num) (Hlarge : 0 < large) (Hfirst : 0 < first).
Context (seen : list event).

Lemma sizes_ok : forall s, 0 <= large_size (servers s).
Proof using same Hlarge. intros s. destruct (same s). lia. Qed.

(** There is something to be read in the buffer, or room for it. *)
Definition roomy (x : reader) : Prop :=
  match at_stage x with Reading_line _ => unread (bytes (buffer x)) <> [] \/ full x = false | _ => True end.

Record explained (x : reader) (rest : list Z) : Prop := {
  ex_safe : safe num large x;
  ex_first : map size (buffers x) !! 0%nat = Some first;
  ex_client : client x <> Open -> gone seen;
  ex_roomy : roomy x;
  ex_reason : reason num large seen x rest;
}.

Lemma explained_on x y rest rest' : explained x rest -> keeps x y -> safe num large y -> roomy y -> reason num large seen y rest' ->
  explained y rest'.
Proof using Type.
  intros [H1 H2 H3 _ _] [E1 E2] Hs Hr Hy. constructor; try done.
  - by eapply prefix_lookup_Some.
  - by rewrite E1.
Qed.

Lemma explained_app x y rest t : pool y = pool x -> at_stage y = at_stage x -> client y = client x -> buffer y = buffer x ->
  explained x rest -> explained y (rest ++ t).
Proof using Type.
  intros E1 E2 E3 E4 Hx. assert (F : full y = full x) by (unfold full; by rewrite E4). eapply explained_on; [exact Hx|by apply keeps_same| | |].
  - apply safe_ext with x; [done| |apply (ex_safe _ _ Hx)]. rewrite E2. apply (ex_safe _ _ Hx).
  - pose proof (ex_roomy _ _ Hx) as H. unfold roomy in *. by rewrite E2, E4, F.
  - pose proof (ex_reason _ _ Hx) as H. unfold reason in *. rewrite E2. destruct (at_stage x) as [| | |[]]; try done.
    + by apply (too_large_app _ _ _ x).
    + split; [apply H|]. apply (too_large_app _ _ _ x); by try apply H.
Qed.

Lemma explained_ext x y rest : pool y = pool x -> at_stage y = at_stage x -> client y = client x -> buffer y = buffer x ->
  explained x rest -> explained y rest.
Proof using Type. intros. rewrite <- (app_nil_r rest). by apply (explained_app x). Qed.

Lemma explained_over x y rest o : explained x rest -> keeps x y -> safe num large y -> at_stage y = Over o ->
  match o with Ended _ => True | Out_of_memory => ~ memory | _ => False end -> explained y rest.
Proof using Type.
  intros Hx Hk Hs E Ho. apply (explained_on x y rest); try done; [unfold roomy|unfold reason]; rewrite E; by destruct o.
Qed.

(** No buffer is empty. *)
Lemma buffer_size_pos x : buffers_ok x -> safe num large x -> map size (buffers x) !! 0%nat = Some first -> 0 < size (buffer x).
Proof using Hlarge Hfirst.
  intros Ho [(_ & _ & _ & _ & H) _] H0. pose proof (po_last _ _ _ _ Ho) as El. rewrite buffer_get, El.
  destruct (list.last (busy x)) as [b|] eqn:E; cbn [default from_option id]; [|by erewrite size_at].
  erewrite size_at; [exact Hlarge|]. apply H. apply list.last_Some in E as [l ->]. rewrite !elem_of_app, elem_of_cons. tauto.
Qed.

(** ** Another buffer *)

Lemma take_large_says x : safe num large x ->
  match take_large servers x with
  | (NGX_DECLINED, _, y) => y = x /\ Z.of_nat (length (busy x)) = num /\ free x = []
  | (NGX_OK, b, y) => get (buffers y) b = get (buffers y) b
  | _ => ~ memory
  end.
Proof using same.
  intros [(_ & _ & _ & H & _) _]. unfold take_large. destruct (free x) as [|b fs] eqn:Ef; [|done].
  destruct (same (srv (req x))) as [En _]. unfold conf. rewrite En. cbn [length] in H. rewrite Nat.add_0_r in H.
  destruct (Z.ltb_spec (Z.of_nat (length (busy x))) num); [|split_and!; try done; lia].
  destruct (_ && _) eqn:E.
  - apply andb_true_iff in E as [_ E%negb_true_iff]. intros (_ & Hm & _). by rewrite Hm in E.
  - cbv zeta. destruct (ngx_create_temp_buf _ _) as [a|] eqn:Ea; [done|]. intros [Hm _].
    apply eq_None_not_Some in Ea. apply Ea, Hm.
Qed.

Lemma alloc_says rl x : safe num large x -> buffers_ok x -> 0 < size (buffer x) ->
  match ngx_http_alloc_large_header_buffer servers rl x with
  | (NGX_OK, y) => full y = false
  | (NGX_DECLINED, y) => y = x /\ (state_0 x = false /\ large <= b_pos (bytes (buffer x)) - default 0 (line_start x)
                           \/ Z.of_nat (length (busy x)) = num /\ free x = [])
  | (NGX_ERROR, y) => ~ memory
  | _ => True
  end.
Proof using same Hlarge.
  intros Hs Ho Hz. unfold ngx_http_alloc_large_header_buffer. destruct (rl && state_0 x) eqn:Erl.
  { destruct (on_buffer_ok (fun _ => Buf [] 0) x Ho) as [_ Eb]; [unfold b_last; cbn; lia|]. unfold full. rewrite Eb. cbn [bytes b_pos size]. apply Z.eqb_neq. lia. }
  cbv zeta. destruct (same (srv (req x))) as [_ El]. unfold conf. rewrite El.
  destruct (negb (state_0 x) && _) eqn:Eg.
  { apply andb_true_iff in Eg as [E1%negb_true_iff E2%Z.leb_le]. split; [done|]. by left. }
  pose proof (take_large_says x Hs) as Ht. pose proof (take_large_safe servers num large same x Hs) as Hl.
  pose proof (take_large_ok servers sizes_ok x Ho) as Hp.
  destruct (take_large servers x) as [[rc b] y]. destruct rc; try done; [|by destruct Ht as (-> & ?); auto].
  destruct Hl as (_ & _ & _ & _ & Eb & _). destruct Hp as (P & Ey & _).
  destruct (default 0 (busy_room y) <=? _); [done|]. destruct (state_0 x).
  - unfold full, buffer. cbn -[nth]. change (nth b (buffers y) null_buf) with (get (buffers y) b). rewrite Ey, Eb. cbn [b_pos]. apply Z.eqb_neq. lia.
  - cbn [negb andb] in Eg. apply Z.leb_gt in Eg.
    set (z := y <| busy := _ |> <| header_in := b |>). destruct (size (buffer z) <? _); [done|]. assert (Pz : buffers_ok z) by exact P.
    set (n := b_pos (bytes (buffer x)) - default 0 (line_start x)) in *. set (sl := slice _ _ _).
    destruct (on_buffer_ok (fun _ => Buf sl n) z Pz) as [_ Ew].
    { change (Z.of_nat (length sl) <= size (get (buffers y) b)). rewrite Eb. unfold sl, slice. rewrite length_take. lia. }
    apply Z.eqb_neq. set (w := on_buffer (fun _ => Buf sl n) z) in *. change (b_pos (bytes (buffer w)) <> size (buffer w)).
    rewrite Ew. change (n <> size (get (buffers y) b)). lia.
Qed.
(** ** The loops *)

Lemma line_declined x s' got : at_stage x = Reading_line s' -> line_follows servers hc hc_ssl x s' got ->
  unread (bytes (buffer x)) = [] -> full x = true ->
  state_0 x = false /\ large <= b_pos (bytes (buffer x)) - default 0 (line_start x) \/ Z.of_nat (length (busy x)) = num /\ free x = [] ->
  too_large num large NGX_HTTP_REQUEST_URI_TOO_LARGE x (got ++ pending x).
Proof using Type.
  intros Es (d & lo & pos & [st r] & W & E1 & Hs & Hm & Hst & _ & Hw) Hu Hf Hd. destruct s' as [st' r']. cbn in E1, Hs. subst st'.
  pose proof (at_end _ _ _ _ _ W Hu) as ->. destruct (line_state_open _ _ Hst) as [H1 H2]. exists got. split; [by apply prefix_app_r|].
  split; [rewrite <- (app_nil_r got), Hw, app_nil_r; apply line_unread_none|]. split; [by left|].
  destruct Hd as [[Hd Hl]|Hd]; [left|by right]. unfold state_0, line_start in *. rewrite Es in *. cbn [snd fst] in *.
  assert (Hne : st <> RequestLine.sw_start) by (by intros ->). specialize (H2 Hne). pose proof (ls_start _ _ _ _ Hs Hne) as Er.
  rewrite (wi_pos _ _ _ _ _ W) in Hl. apply ptr_some in H2 as (a & Ea & H2). rewrite Ea in Er. unfold sh in Er. cbn in Er. rewrite Er in Hl.
  cbn in Hl. lia.
Qed.

Lemma header_declined x s' got : at_stage x = Reading_headers s' -> headers_follow servers hc hc_ssl x s' got ->
  unread (bytes (buffer x)) = [] -> full x = true ->
  state_0 x = false /\ large <= b_pos (bytes (buffer x)) - default 0 (line_start x) \/ Z.of_nat (length (busy x)) = num /\ free x = [] ->
  too_large num large NGX_HTTP_REQUEST_HEADER_TOO_LARGE x (got ++ pending x).
Proof using Type.
  intros Es (d & lo & pos & [st h] & W & E1 & Hs & Hm & Hst & Hw) Hu Hf Hd. destruct s' as [st' h']. cbn in E1, Hs, Hm. subst st'.
  pose proof (at_end _ _ _ _ _ W Hu) as ->. exists got. split; [by apply prefix_app_r|].
  split; [rewrite <- (app_nil_r got), Hw, app_nil_r; apply headers_unread_none|]. split; [by right|].
  destruct Hd as [[Hd Hl]|Hd]; [left|by right]. unfold state_0, line_start in *. rewrite Es in *. cbn [snd fst] in *.
  assert (Hne : st <> HeaderLine.sw_start) by (by intros ->). pose proof (header_state_open _ _ Hst Hne) as H2.
  assert (Hn : name_set st = true) by (pose proof (hm_read _ _ _ _ Hm); by destruct st). pose proof (hs_name _ _ _ _ Hs Hn) as Er.
  rewrite (wi_pos _ _ _ _ _ W) in Hl. apply ptr_some in H2 as (a & Ea & H2). cbn [snd] in Ea. rewrite Ea in Er. unfold sh in Er. cbn in Er. rewrite Er in Hl.
  cbn in Hl. lia.
Qed.

Lemma read_memory x : memory -> at_stage (ngx_http_read_request_header x).1 = Over Out_of_memory -> at_stage x = Over Out_of_memory.
Proof using Type.
  intros (_ & _ & _ & Hm). unfold ngx_http_read_request_header. destruct (0 <? _); [done|]. destruct (recv _ x); try done. cbv zeta. by rewrite Hm.
Qed.

(** Nothing has been read. *)
Lemma read_none x got d lo pos rest : buffers_ok x -> window x got d lo pos -> full x = false \/ unread (bytes (buffer x)) <> [] -> explained x rest ->
  match ngx_http_read_request_header x with
  | (y, false) => explained y rest
  | (y, true) => safe num large y /\ keeps x y
  end.
Proof using Type.
  intros Ho W Hr Hx. pose proof (read_some x got d lo pos Ho W) as H. pose proof (read_header_safe num large x (ex_safe _ _ Hx)) as Hs.
  pose proof (read_header_keeps x) as Hk. pose proof (read_memory x) as Hm. destruct (ngx_http_read_request_header x) as [y []]; [done|]. cbn [fst] in *.
  destruct H as [-> H]. assert (Hf : full x = false).
  { destruct Hr as [?|Hr]; [done|]. exfalso. apply Hr. rewrite (unread_window _ _ _ _ _ W). apply drop_ge. lia. }
  destruct H as [[-> [Hc|Hc]]|(_ & _ & [-> | ->])].
  - apply (explained_on x _ rest); try done. by apply (ex_client _ _ Hx).
  - by rewrite Hf in Hc.
  - apply (explained_on x _ rest); try done; [exact (ex_roomy _ _ Hx)|]. exact (ex_reason _ _ Hx).
  - eapply explained_over; try done. intros Hy. specialize (Hm Hy eq_refl). pose proof (ex_reason _ _ Hx) as H.
    unfold reason in H. by rewrite Hm in H.
Qed.

(** The buffer is full in a request line. *)
Lemma line_full_exact x y s2 got : explained x (got ++ pending y) -> keeps x y -> safe num large y -> buffers_ok y ->
  at_stage y = Reading_line s2 -> line_follows servers hc hc_ssl y s2 got -> unread (bytes (buffer y)) = [] -> full y = true ->
  explained (let (rc, z) := ngx_http_alloc_large_header_buffer servers true y in
    match rc with
    | NGX_OK => (z, Some true)
    | NGX_DECLINED => (over (Too_large NGX_HTTP_REQUEST_URI_TOO_LARGE) z, Some false)
    | Code n => (over (Overrun n) z, Some false)
    | _ => (over Out_of_memory z, Some false)
    end).1 (got ++ pending y).
Proof using same Hlarge Hfirst.
  intros Hx Hk Hs Ho Es Hf Hu Ef.
  assert (Hz : 0 < size (buffer y)).
  { apply buffer_size_pos; [done|done|]. destruct Hk as [_ H]. eapply prefix_lookup_Some; [exact (ex_first _ _ Hx)|done]. }
  pose proof (alloc_says true y Hs Ho Hz) as Ha. pose proof (alloc_safe servers num large same true y Hs) as Has.
  pose proof (line_alloc servers hc hc_ssl sizes_ok y s2 _ Ho Es Hf Hu) as Hl. pose proof (alloc_keeps servers true y) as Hky.
  destruct (ngx_http_alloc_large_header_buffer servers true y) as [rc z]. cbn [snd] in Hky. destruct Has as [Hsz Hc].
  assert (Hkz : keeps x z) by (by transitivity y).
  destruct rc; try done; try (by destruct Hl as [?|[?|[? ?]]]); cbn [fst].
  - destruct Hl as (s4 & Es4 & _). eapply explained_on; [exact Hx|done|done| |]; [unfold roomy|unfold reason]; rewrite Es4; [by right|done].
  - eapply explained_over; [exact Hx|done|by apply safe_over with z|done|done].
  - destruct Ha as [-> Ha]. eapply explained_on; [exact Hx|done|by apply safe_over with y|done|]. by apply (line_declined y s2).
Qed.

Lemma line_turn_exact x s' got : buffers_ok x -> at_stage x = Reading_line s' -> line_follows servers hc hc_ssl x s' got ->
  explained x (got ++ pending x) -> explained (line_turn servers hc hc_ssl x).1 (got ++ pending x).
Proof using same Hlarge Hfirst.
  intros Ho Es Hf Hx. pose proof (line_turn_safe servers hc hc_ssl num large same x (ex_safe _ _ Hx)) as Hs.
  pose proof (line_turn_keeps servers hc hc_ssl x) as Hk. unfold line_turn in *.
  assert (Hrn : match ngx_http_read_request_header x with (y, false) => explained y (got ++ pending x) | (y, true) => safe num large y /\ keeps x y end).
  { destruct Hf as (d & lo & pos & s & W & _). apply (read_none x got d lo pos); try done. pose proof (ex_roomy _ _ Hx) as Hr.
    unfold roomy in Hr. rewrite Es in Hr. tauto. }
  pose proof (line_read servers hc hc_ssl x s' got Ho Es Hf) as Hr.
  destruct (ngx_http_read_request_header x) as [x1 [|]]; [|done]. cbn [negb] in *. destruct Hrn as [Hs1 Hk1].
  destruct Hr as (bs & Ho1 & Es1 & Hf1 & Epd & Hu1 & Hm1 & _). rewrite Es1, Epd, app_assoc in *.
  destruct (RequestLine.ngx_http_parse_request_line s' (bytes (buffer x1))) as [[rc s2] b] eqn:Ep.
  destruct (line_parsed servers hc hc_ssl x1 s' _ rc s2 b Ho1 Hf1 Ep) as (Ho2 & Eb2 & H).
  cbv zeta in *. set (x3 := on_buffer (fun _ => b) x1 <| at_stage := Reading_line s2 |>) in *.
  destruct (decide (rc = NGX_OK)) as [-> | Hrc].
  { rewrite bool_decide_eq_true_2 in * by done. destruct (line_done _ _ _ _ _ _ _) as [[e|] q]; apply (explained_on x _ (got ++ bs ++ pending x1)); by rewrite ?app_assoc. }
  rewrite (bool_decide_eq_false_2 (rc = NGX_OK)) in * by done. destruct (decide (rc = NGX_AGAIN)) as [-> | Hrc2];
    [|rewrite bool_decide_eq_false_2 in * by done; by apply (explained_on x _ (got ++ bs ++ pending x1)); rewrite ?app_assoc].
  rewrite bool_decide_eq_true_2 in * by done. cbn [negb] in *. destruct H as [Hf2 Hu2].
  destruct (full x3) eqn:Ef; [|apply (explained_on x _ (got ++ bs ++ pending x1)); try done; [by rewrite app_assoc|by right]].
  assert (Ep3 : pool x3 = pool x1) by exact (pool_on_buffer _ x1).
  apply (line_full_exact x x3 s2); try done.
  - transitivity x1; [done|]. by apply keeps_same.
  - by apply safe_ext with x1.
  - by apply (line_follows_ext _ _ _ (on_buffer (fun _ => b) x1)).
  - change (unread (bytes (buffer (on_buffer (fun _ => b) x1))) = []). by rewrite Eb2.
Qed.

(** The parser of headers ends with what was read, if it does. *)
Lemma parse_header_stage x s : match at_stage (ReadRequest.parse_header servers hc hc_ssl x s).1 with
  | Reading_headers _ | Over (Ended _) => True | _ => False end.
Proof using Type.
  unfold ReadRequest.parse_header. destruct (HeaderLine.ngx_http_parse_header_line _ _ _ _ _) as [[rc s'] b]. cbv zeta.
  destruct (bool_decide _); [|destruct (bool_decide _); [|by destruct (bool_decide _)]].
  - destruct (header_done _ _ _ _ _ _) as [[e|] q]; [done|]. by destruct (_ && _).
  - by destruct (headers_done _ _ _ _ _ _) as [[] q].
Qed.

Lemma parse_header_exact x y s rest : explained x rest -> keeps x y -> safe num large y ->
  explained (ReadRequest.parse_header servers hc hc_ssl y s).1 rest.
Proof using Type.
  intros Hx Hk Hs. pose proof (parse_header_stage y s) as H. eapply explained_on; [exact Hx| | | |].
  - transitivity y; [done|apply parse_header_keeps].
  - by apply parse_header_safe.
  - unfold roomy. by destruct (at_stage _) as [| | |[]].
  - unfold reason. by destruct (at_stage _) as [| | |[]].
Qed.

(** A buffer with room for the headers. *)
Lemma header_room x s' got : buffers_ok x -> at_stage x = Reading_headers s' -> headers_follow servers hc hc_ssl x s' got ->
  explained x (got ++ pending x) ->
  match (if full x then ngx_http_alloc_large_header_buffer servers false x else (NGX_OK, x)) with
  | (NGX_OK, y) => exists s2, at_stage y = Reading_headers s2 /\ buffers_ok y /\ headers_follow servers hc hc_ssl y s2 got
                     /\ full y = false /\ keeps x y /\ safe num large y /\ pending y = pending x
  | (NGX_DECLINED, y) => y = x /\ too_large num large NGX_HTTP_REQUEST_HEADER_TOO_LARGE x (got ++ pending x)
  | (Code _, _) => False
  | _ => ~ memory
  end.
Proof using same Hlarge Hfirst.
  intros Ho Es Hf Hx. destruct (full x) eqn:Ef; [|exists s'; split_and!; try done; apply (ex_safe _ _ Hx)].
  assert (Hu : unread (bytes (buffer x)) = []) by (destruct Hf as (? & ? & ? & ? & W & _); by eapply full_unread).
  assert (Hz : 0 < size (buffer x)) by (apply buffer_size_pos; [done|apply (ex_safe _ _ Hx)|apply (ex_first _ _ Hx)]).
  pose proof (alloc_says false x (ex_safe _ _ Hx) Ho Hz) as Ha. pose proof (alloc_safe servers num large same false x (ex_safe _ _ Hx)) as Has.
  pose proof (headers_alloc servers hc hc_ssl sizes_ok x s' _ Ho Es Hf Hu) as Hl. pose proof (alloc_keeps servers false x) as Hk.
  destruct (ngx_http_alloc_large_header_buffer servers false x) as [rc y]. destruct Has as [Has Hc].
  destruct rc; try done; try (by destruct Hl as [?|[?|[? ?]]]).
  - destruct Hl as (s2 & E2 & Ho2 & Hf2 & _ & Ep). by exists s2.
  - destruct Ha as [-> Ha]. split; [done|]. by apply (header_declined x s').
Qed.

Lemma header_turn_exact again x s' got : buffers_ok x -> at_stage x = Reading_headers s' -> headers_follow servers hc hc_ssl x s' got ->
  explained x (got ++ pending x) -> explained (header_turn servers hc hc_ssl again x).1 (got ++ pending x).
Proof using same Hlarge Hfirst.
  intros Ho Es Hf Hx. pose proof (header_turn_safe servers hc hc_ssl num large same again x (ex_safe _ _ Hx)) as Hs.
  pose proof (header_turn_keeps servers hc hc_ssl again x) as Hk. unfold header_turn in *.
  destruct again; [|rewrite Es; by apply (parse_header_exact x); [..|apply (ex_safe _ _ Hx)]].
  pose proof (header_room x s' got Ho Es Hf Hx) as Ha. destruct (if full x then _ else _) as [rc y]. 
  destruct rc; try done; try (by eapply explained_over).
  - destruct Ha as (s2 & Es2 & Ho2 & Hf2 & Hr2 & Hk2 & Hs2 & Ep2).
    assert (Hy : explained y (got ++ pending x)) by (eapply explained_on; [exact Hx|done|done| |]; [unfold roomy|unfold reason]; by rewrite Es2).
    pose proof (headers_read servers hc hc_ssl y s2 got Ho2 Es2 Hf2) as Hr.
    assert (Hrn : match ngx_http_read_request_header y with (z, false) => explained z (got ++ pending x) | (z, true) => safe num large z /\ keeps y z end)
      by (destruct Hf2 as (d & lo & pos & s & W & _); apply (read_none y got d lo pos); auto).
    destruct (ngx_http_read_request_header y) as [z [|]]; [|done]. destruct Hr as (bs & _ & Ez & _). rewrite Ez. destruct Hrn as [Hsz Hkz].
    by apply (parse_header_exact y).
  - destruct Ha as [-> Ha].
    eapply explained_on; [exact Hx|done|done|done|]. destruct Hs as [_ Hs]. revert Hs. unfold reason, too_long_header, over. cbn [fst at_stage].
    cbn. destruct (line_start x); [|done]. cbv zeta. by destruct (_ && _).
Qed.

Lemma header_loop_exact fuel : forall again x s' got, buffers_ok x -> at_stage x = Reading_headers s' -> headers_follow servers hc hc_ssl x s' got ->
  explained x (got ++ pending x) ->
  match header_loop servers hc hc_ssl fuel again x with Some y => explained y (got ++ pending x) | None => True end.
Proof using same Hlarge Hfirst.
  induction fuel as [|fuel IH]; intros again x s' got Ho Es Hf Hx; [done|]. cbn [header_loop].
  pose proof (header_turn_exact again x s' got Ho Es Hf Hx) as He. pose proof (header_turn_follows servers hc hc_ssl sizes_ok again x s' got Ho Es Hf) as Ht.
  destruct (header_turn servers hc hc_ssl again x) as [y [a|]]; cbn [fst] in He; [|done].
  destruct Ht as (s2 & got2 & Es2 & Ho2 & Hf2 & E & _). rewrite E in *. by apply (IH a y s2 got2).
Qed.

Lemma line_loop_exact fuel : forall x s' got, buffers_ok x -> at_stage x = Reading_line s' -> line_follows servers hc hc_ssl x s' got ->
  explained x (got ++ pending x) ->
  match ngx_http_process_request_line servers hc hc_ssl fuel x with Some y => explained y (got ++ pending x) | None => True end.
Proof using same Hlarge Hfirst.
  induction fuel as [|fuel IH]; intros x s' got Ho Es Hf Hx; [done|]. cbn [ngx_http_process_request_line].
  pose proof (line_turn_exact x s' got Ho Es Hf Hx) as He. pose proof (line_turn_follows servers hc hc_ssl sizes_ok x s' got Ho Es Hf) as Ht.
  destruct (line_turn servers hc hc_ssl x) as [y [[|]|]]; cbn [fst] in He; [|done|].
  - destruct Ht as (s2 & got2 & Es2 & Ho2 & Hf2 & E & Hm). rewrite E in *. by apply (IH y s2 got2).
  - destruct Ht as (got2 & Es2 & Ho2 & Hf2 & E & Hm). rewrite E in *.
    by apply (header_loop_exact fuel true y first_header got2).
Qed.

(** A handler that reads a request. *)
Lemma reading_exact fuel x rest : follows x rest -> explained x rest -> match at_stage x with
  | Idle _ => True
  | _ => match run_handler servers hc hc_ssl fuel x with Some y => explained y rest | None => True end
  end.
Proof using same Hlarge Hfirst.
  intros Hf Hx. unfold ReadRequestFollows.follows in Hf. unfold run_handler. destruct (at_stage x) as [kp|s|s|o] eqn:Es; [done|..|done].
  - destruct Hf as (Ho & got & -> & Hf). by apply (line_loop_exact fuel x s got).
  - destruct Hf as (Ho & got & -> & Hf). by apply (header_loop_exact fuel true x s got).
Qed.

(** ** The next request *)

Lemma create_exact x : match ngx_http_create_request hc x with
  | Some y => pool y = pool x /\ client y = client x /\ header_in y = List.hd 0%nat (busy x)
      /\ at_stage y = Reading_line (RequestLine.sw_start, fresh_request) /\ buffers y = buffers x
  | None => ~ memory
  end.
Proof using Type.
  unfold ngx_http_create_request. destruct ngx_create_pool eqn:E; [split_and!; try done; cbn; by destruct (busy x)|].
  intros (_ & _ & Hm & _). by rewrite E in Hm.
Qed.

Lemma created_exact x y rest s : explained x rest -> keeps x y -> safe num large y -> at_stage y = Reading_line s ->
  unread (bytes (buffer y)) <> [] -> explained y rest.
Proof using Type. intros Hx Hk Hs Es Hu. eapply explained_on; [exact Hx|done|done| |]; [unfold roomy|unfold reason]; rewrite Es; [by left|done]. Qed.

Lemma first_bytes_exact fuel kp x rest : at_stage x = Idle kp -> follows x rest -> explained x rest ->
  match first_bytes servers hc hc_ssl fuel kp x with Some y => explained y rest | None => True end.
Proof using same Hlarge Hfirst.
  intros Es Hf Hx. unfold ReadRequestFollows.follows in Hf. rewrite Es in Hf. destruct Hf as (P & -> & Eb & Ebu & Efr).
  unfold first_bytes. fold (get (buffers x) 0).
  assert (E0 : size (get (buffers x) 0) = first) by (apply size_at, (ex_first _ _ Hx)).
  unfold recv. destruct (pending x) as [|c cs] eqn:Ep.
  { destruct (client x) eqn:Ec; [|apply (explained_on x _ []); [done|done|by apply safe_over with x; [..|apply (ex_safe _ _ Hx)]|done|apply (ex_client _ _ Hx); by rewrite Ec]..].
    cbv zeta. set (z := (if kp then x else _) <| calls := _ |>).
    assert (Ez : at_stage z = at_stage x /\ client z = client x /\ pool z = pool x) by (unfold z; by destruct kp). destruct Ez as (E1 & E2 & E3).
    assert (Hk : keeps x z) by (by apply keeps_same). destruct (ngx_handle_read_event _) eqn:Eh.
    - eapply explained_on; [exact Hx|done| | |]; [apply safe_ext with x; [done|by rewrite E1, Es|apply (ex_safe _ _ Hx)]|unfold roomy|unfold reason]; by rewrite E1, Es.
    - eapply explained_over; [exact Hx|done| |done|]; [by apply safe_over with x; [..|apply (ex_safe _ _ Hx)]|].
      intros (_ & _ & _ & Hm). by rewrite Hm in Eh. }
  destruct (Z.eqb_spec (size (get (buffers x) 0)) 0); [lia|].
  set (bs := take _ _). rewrite Eb. cbn [b_mem b_pos app].
  set (x1 := x <| buffers := _ |> <| pending := _ |>).
  assert (Ep1 : pool x1 = pool x) by (unfold pool, x1; cbn -[map insert]; by rewrite map_size_insert).
  assert (P1 : pool_ok (buffers x1) 0 (busy x1) (free x1)).
  { apply pool_at; [done|]. pose proof (po_fits _ _ _ _ P) as Hfs. pose proof (at_range _ _ _ _ P) as Hr. rewrite List.Forall_forall in Hfs.
    specialize (Hfs (get (buffers x) 0) ltac:(by apply nth_In)). unfold fits, b_last in *. rewrite Eb in Hfs. cbn in *.
    unfold bs. rewrite length_take. lia. }
  assert (Eb1 : bytes (get (buffers x1) 0) = Buf bs 0).
  { unfold x1. cbn -[get]. rewrite get_insert by (by eapply at_range). done. }
  assert (Hne : bs <> []) by (unfold bs; destruct (Z.to_nat _) eqn:E; [lia|done]).
  pose proof (create_follows servers hc hc_ssl x1) as Hc. pose proof (create_exact x1) as He.
  change (busy x1) with (busy x) in *. rewrite Ebu in *. cbn [List.hd] in *.
  rewrite Eb1 in Hc. specialize (Hc P1 ltac:(unfold b_last; cbn; lia)).
  assert (Hk1 : keeps x x1) by (by apply keeps_same).
  assert (Hs1 : safe num large x1) by (apply safe_ext with x; [done|by cbn; rewrite Es|apply (ex_safe _ _ Hx)]).
  cbv zeta. destruct (ngx_http_create_request hc x1) as [y|].
  2: { eapply explained_over; [exact Hx|done|by apply safe_over with x1|done|done]. }
  destruct Hc as [Hf Ey]. destruct He as (E1 & E2 & E3 & _ & E5).
  unfold unread in Hf. cbn [b_mem b_pos] in Hf. rewrite drop_0 in Hf.
  assert (Hp : bs ++ pending x1 = c :: cs) by apply taken. rewrite Hp in Hf.
  assert (Hy : explained y (c :: cs)).
  { eapply created_exact; [exact Hx| | |exact Ey|].
    - by apply keeps_same; [rewrite E2|rewrite E1].
    - apply safe_ext with x1; [done|by rewrite Ey|done].
    - unfold buffer. rewrite E3, E5. fold (get (buffers x1) 0). rewrite Eb1. unfold unread. cbn [b_mem b_pos]. by rewrite drop_0. }
  set (z := if kp then _ else y). assert (Ez : at_stage z = at_stage y) by (unfold z; by destruct kp).
  assert (Hz : follows z (c :: cs) /\ explained z (c :: cs)).
  { unfold z. destruct kp; [|done]. split; [by apply (follows_ext _ _ _ y)|]. by apply (explained_ext y). }
  pose proof (reading_exact fuel z _ (proj1 Hz) (proj2 Hz)) as H. unfold run_handler in H. rewrite Ez, Ey in H. exact H.
Qed.

Lemma rotate_memory x : memory -> (rotate servers x).1 <> NGX_ERROR.
Proof using Type.
  intros (_ & Hm & _). unfold rotate. rewrite Hm, andb_false_r. cbv zeta. by destruct (_ <? _).
Qed.

Lemma rotate_exact x : buffers_ok x -> safe num large x -> header_in x <> 0%nat ->
  match rotate servers x with
  | (NGX_OK, y) => safe num large y /\ header_in y = List.hd 0%nat (busy y) /\ buffer y = buffer x
  | (Code _, _) => False
  | _ => ~ memory
  end.
Proof using same.
  intros Ho Hs Hh. pose proof (rotate_safe servers num large same x Hs Ho Hh) as H1. pose proof (rotate_ok servers x Ho Hh) as H2.
  pose proof (rotate_memory x) as H3. destruct (rotate servers x) as [rc y]. destruct H1 as [H1 H4].
  destruct rc; try done; try (by destruct H2 as [?|[? ?]]); [|by intros H%H3].
  destruct H2 as (_ & -> & -> & H2 & _). by split_and!.
Qed.

Lemma keepalive_exact x rest : buffers_ok x -> 0 <= b_pos (bytes (buffer x)) -> explained x rest -> explained (ngx_http_set_keepalive servers hc x) rest.
Proof using same Hnum Hlarge Hfirst.
  intros Ho Hb Hx. pose proof (keepalive_safe servers hc num large same Hnum x (ex_safe _ _ Hx) Ho) as Hs.
  pose proof (keepalive_keeps servers hc x) as Hk. unfold ngx_http_set_keepalive in *. set (more := _ <? _) in *.
  set (rx := if more && _ then _ else _) in *.
  assert (Hr : match rx with
    | (NGX_OK, y) => (more = true -> header_in y = List.hd 0%nat (busy y)) /\ buffer y = buffer x
    | (Code _, _) => False
    | _ => ~ memory
    end).
  { unfold rx. destruct (decide (header_in x = 0%nat)) as [Eh|Eh].
    - rewrite bool_decide_eq_true_2, andb_false_r by done. split; [|done]. intros _.
      unfold buffers_ok in Ho. rewrite Eh in Ho. by rewrite (pool_first _ _ _ Ho).
    - rewrite bool_decide_eq_false_2, andb_true_r by done. destruct more; [|by split].
      pose proof (rotate_exact x Ho (ex_safe _ _ Hx) Eh) as H. destruct (rotate servers x) as [[] y]; try done.
      destruct H as (_ & H1 & H2). by split. }
  destruct rx as [rc y]. destruct rc; try done; try (by eapply explained_over).
  destruct Hr as [Hh Eb]. cbv zeta in *. set (z := y <| calls := _ |>) in *.
  destruct (ngx_handle_read_event _) eqn:Er; cbn [negb] in *.
  2: { eapply explained_over; try done. intros (_ & _ & _ & Hm). by rewrite Hm in Er. }
  destruct more eqn:Em.
  - pose proof (create_exact z) as Hc. change (busy z) with (busy y) in Hc. rewrite <- Hh in Hc by done.
    destruct (ngx_http_create_request hc z) as [u|]; [|by eapply explained_over].
    destruct Hc as (_ & _ & E3 & E4 & E5). eapply created_exact; [exact Hx|done|done|exact E4|].
    change (unread (bytes (get (buffers u) (header_in u))) <> []). rewrite E3, E5. change (unread (bytes (buffer y)) <> []). rewrite Eb.
    apply Z.ltb_lt in Em. unfold unread, b_last in *. intros Hn%(f_equal length). rewrite length_drop in Hn. cbn in Hn. lia.
  - by eapply explained_on.
Qed.

Lemma handler_exact fuel x rest : follows x rest -> explained x rest ->
  match run_handler servers hc hc_ssl fuel x with Some y => explained y rest | None => True end.
Proof using same Hlarge Hfirst.
  intros Hf Hx. pose proof (reading_exact fuel x rest Hf Hx) as H. destruct (at_stage x) as [kp|s|s|o] eqn:Es; [|exact H..].
  unfold run_handler. rewrite Es. destruct kp; by apply first_bytes_exact.
Qed.
End Uniform.

(** ** Events *)

Lemma gone_more seen e : gone seen -> gone (seen ++ e).
Proof using Type. unfold gone. rewrite !elem_of_app. tauto. Qed.

Lemma explained_more num large first seen e x rest : explained num large first seen x rest -> explained num large first (seen ++ e) x rest.
Proof using Type.
  intros []. constructor; try done; [intros H; by apply gone_more, ex_client0|].
  unfold reason in *. destruct (at_stage x) as [| | |[]]; try done; [by apply gone_more|by apply elem_of_app; left].
Qed.

(** The client has gone. *)
Lemma explained_gone num large first seen p x rest : gone seen -> explained num large first seen x rest ->
  explained num large first seen (x <| client := p |>) rest.
Proof using Type. intros Hg []. by constructor. Qed.

Lemma noted_exact num large first seen x rest e y r : uniform num large -> 0 <= num -> 0 < large -> 0 < first -> noted servers hc hc_ssl x rest e y r ->
  explained num large first seen x rest -> explained num large first (seen ++ [e]) y r.
Proof using Type.
  intros Hu H1 H2 H3 Hn Hx. destruct Hn as [bs| | |k r Es Ho Hb _].
  - apply explained_more. by apply (explained_app num large first seen x).
  - apply explained_gone; [|by apply explained_more]. left. rewrite elem_of_app, list_elem_of_singleton. by right.
  - apply explained_gone; [|by apply explained_more]. right. rewrite elem_of_app, list_elem_of_singleton. by right.
  - apply explained_more. destruct (take_body_ok k x Ho Hb) as (Ho' & Hb' & Es' & _).
    apply (keepalive_exact num large first Hu H1 H2 H3); [done|done|]. rewrite Es in Es'.
    assert (Ep : pool (take_body k x) = pool x) by exact (pool_on_buffer _ x).
    eapply explained_on; [exact Hx|by apply keeps_same| |unfold roomy; by rewrite Es'|unfold reason; by rewrite Es'].
    apply safe_ext with x; [done|by rewrite Es'|apply (ex_safe _ _ _ _ _ _ Hx)].
Qed.

Context (sizes : forall s, 0 <= large_size (servers s)).

Lemma came_exact num large first seen fuel x rest e y r : uniform num large -> 0 <= num -> 0 < large -> 0 < first ->
  came servers hc hc_ssl fuel x rest e y r -> explained num large first seen x rest -> explained num large first (seen ++ [e]) y r.
Proof using Type.
  intros Hu H1 H2 H3 Hc Hx. destruct Hc as [_| -> |y r Hn _|y r x' Hn Hf _ E].
  - by apply explained_more.
  - pose proof (explained_more _ _ _ _ [Timer] _ _ Hx) as Hy. eapply explained_on; [exact Hy|done| |done|].
    + apply safe_over with x; [done..|apply (ex_safe _ _ _ _ _ _ Hx)].
    + change (Timer ∈ seen ++ [Timer]). rewrite elem_of_app, list_elem_of_singleton. by right.
  - by apply (noted_exact num large first seen x rest e).
  - assert (Hy : explained num large first (seen ++ [e]) y r) by (by apply (noted_exact num large first seen x rest e)).
    pose proof (handler_exact num large first Hu H2 H3 (seen ++ [e]) fuel y r Hf Hy) as H. by rewrite E in H.
Qed.

Lemma run_exact fuel es : forall x rest s seen, settled x rest -> served servers hc hc_ssl s rest ->
  (2 * (length s + length (arrived es)) + 1 < fuel)%nat ->
  exists x' rest', run servers hc hc_ssl fuel es x = Some x' /\ settled x' rest' /\ served servers hc hc_ssl (s ++ arrived es) rest'
    /\ forall num large first, uniform num large -> 0 <= num -> 0 < large -> 0 < first ->
         explained num large first seen x rest -> explained num large first (seen ++ es) x' rest'.
Proof using sizes L.
  induction es as [|e es IH]; intros x rest s seen Hs Hr Hn; cbn [run].
  - exists x, rest. rewrite !app_nil_r. done.
  - change (arrived (e :: es)) with (arrives e ++ arrived es) in *. rewrite length_app in Hn. pose proof (served_length _ _ _ _ _ Hr).
    destruct (dispatch_follows servers hc hc_ssl sizes fuel e x rest Hs ltac:(lia)) as (x1 & r1 & -> & Hs1 & Hr1 & Hc).
    destruct (IH x1 r1 (s ++ arrives e) (seen ++ [e]) Hs1 (Hr1 _ Hr) ltac:(rewrite length_app; lia)) as (x2 & r2 & E & Hs2 & Hr2 & He).
    exists x2, r2. rewrite app_assoc. split_and!; try done. intros num large first Hu H1 H2 H3 Hx.
    replace (seen ++ e :: es) with ((seen ++ [e]) ++ es) by (by rewrite <- app_assoc). apply He; try done.
    by apply (came_exact num large first seen fuel x rest e).
Qed.

(** C1: whatever events happen on a connection, every handler returns, and the connection
    is where the bytes that have arrived put it: after some requests that are whole at the
    front of the stream, and their bodies, the request that is being read is not whole and
    no byte is left in the socket; or it is whole, and has been read as what the
    specification makes of the stream and ended as that does; or nothing is left; or the
    connection is over for another reason. When all servers have the same large buffers
    that is one of these: the client has gone, or the timer has fired; some call for memory
    or for the events of the connection fails; a line that is not whole is as long as a large
    buffer or longer, or the buffer is full and all large ones are in use, with the code
    414 only while the request line is not whole. For the last reason too at most two
    bytes may have been written behind a buffer, and nothing else is. How the bytes were
    cut into pieces, copied between buffers and moved from one request to the next makes
    no difference. *)
Theorem connection_exact fuel es n a : 0 <= n -> (2 * length (arrived es) + 1 < fuel)%nat ->
  exists x rest, run servers hc hc_ssl fuel es (accepted hc n a) = Some x /\ served servers hc hc_ssl (arrived es) rest
    /\ at_request servers hc hc_ssl x rest
    /\ forall num large, uniform num large -> 0 <= num -> 0 < large -> 0 < n -> reason num large es x rest.
Proof using sizes L.
  intros Hn Hfuel. destruct (run_exact fuel es _ [] [] [] (accepted_settled servers hc hc_ssl n a Hn) (served_none _ _ _ [])) as (x & rest & E & [Hf Hs] & Hr & He); [done|].
  exists x, rest. split; [done|]. split; [done|]. split.
  - unfold at_request. unfold ReadRequestFollows.follows in Hf. destruct (at_stage x) as [k|s|s|[]]; try done.
    + by destruct Hf as (_ & -> & _).
    + destruct Hf as (_ & m & H & _). by exists m.
  - intros num large Hu H1 H2 H3. apply (ex_reason num large n es x rest). apply (He num large n Hu H1 H2 H3).
    split; try done. split; [|done]. split_and!; try done; [by left|by left|]. intros b Hb. by apply not_elem_of_nil in Hb.
Qed.
End Exact.

(** Both requests are read, through three large buffers, and a third is too long for
    them. *)
Definition ex_long : list event := ex_events ++ [Served; Arrived (bytes_of "GET /" ++ repeat "x"%c 40)].

Lemma connection_exact_witness :
  (exists x rest, ex_run 300 ex_events (accepted RequestHeadersProps.ex_hc 24 4096) = Some x
    /\ @served (HostNameProps.ex_core true) RequestHeadersProps.ex_core ex_read_core ex_servers RequestHeadersProps.ex_hc false (arrived ex_events) rest
    /\ at_stage x = Over (Ended Handled) /\ ProcessUri.f_uri (uri (req x)) = bytes_of "/b" /\ busy x = [2; 1; 3]%nat)
  /\ exists x rest, ex_run 400 ex_long (accepted RequestHeadersProps.ex_hc 24 4096) = Some x
    /\ at_stage x = Over (Too_large NGX_HTTP_REQUEST_URI_TOO_LARGE)
    /\ @too_large (HostNameProps.ex_core true) RequestHeadersProps.ex_core ex_read_core ex_servers RequestHeadersProps.ex_hc false 4 32
         NGX_HTTP_REQUEST_URI_TOO_LARGE x rest.
Proof.
  assert (Hu : uniform ex_servers 4 32) by done. assert (H0 : 0 <= 4 /\ 0 < 32 /\ 0 < 24) by lia.
  pose proof (@connection_exact (HostNameProps.ex_core true) RequestHeadersProps.ex_core ex_read_core ex_body ex_servers RequestHeadersProps.ex_hc false
    ltac:(done)) as H. split.
  - destruct (H 300%nat ex_events 24 4096 ltac:(done) ltac:(apply Nat.ltb_lt; vm_compute; reflexivity)) as (x & rest & E & H1 & H2 & _).
    exists x, rest. split; [exact E|]. split; [exact H1|]. vm_compute in E. injection E as <-. split_and!; vm_compute; reflexivity.
  - destruct (H 400%nat ex_long 24 4096 ltac:(done) ltac:(apply Nat.ltb_lt; vm_compute; reflexivity)) as (x & rest & E & _ & _ & H3).
    exists x, rest. split; [exact E|]. specialize (H3 4 32 Hu (proj1 H0) (proj1 (proj2 H0)) (proj2 (proj2 H0))). unfold reason in H3.
    assert (Ex : at_stage x = Over (Too_large NGX_HTTP_REQUEST_URI_TOO_LARGE)) by (vm_compute in E; by injection E as <-).
    rewrite Ex in H3. by split.
Defined.
End ReadRequestExact.
