(* ===== verification/WriteFilter.v ===== *)
(** * The write filter

    [ngx_http_write_filter]: the last body filter, which keeps the output of a
    request in [r->out] until it is worth sending, gives it to the socket, and
    slows it down to [limit_rate].  The chain links, the socket and the clock are
    parameters; the buffers are what is left of them. *)

From S2P Require Import Prelude.

Module WriteFilter.

Definition NGX_HTTP_WRITE_BUFFERED : Z := 16.
Definition NGX_LOWLEVEL_BUFFERED : Z := 15.

(** A buffer of the chain: the bytes in it that have not been sent, in memory or in
    a file, and its flags. *)
Record ngx_buf_t := Out_buf {
  data : list Z; in_memory : bool; in_file : bool; flush : bool; sync : bool; recycled : bool; last_buf : bool }.

Definition ngx_buf_size (b : ngx_buf_t) : Z := Z.of_nat (length (data b)).
Definition ngx_buf_special (b : ngx_buf_t) : bool :=
  (flush b || last_buf b || sync b) && negb (in_memory b) && negb (in_file b).

(** The request [r] and its connection [c]; [loose] when the last link of [r->out]
    was made without its [next]; [links] and [sends] count what was asked for so far;
    [timer] is that of [c->write], set to so many milliseconds. *)
Record writer := Writer {
  error : bool;
  out : list ngx_buf_t;
  loose : bool;
  sent : Z;
  buffered : Z;
  delayed : bool;
  ready : bool;
  timer : option Z;
  limit_rate : Z;
  limit_rate_after : Z;
  start_sec : Z;
  postponed : bool;
  links : nat;
  sends : nat;
}.

Definition eta_writer (x : writer) : writer :=
  Writer (error x) (out x) (loose x) (sent x) (buffered x) (delayed x) (ready x) (timer x) (limit_rate x)
    (limit_rate_after x) (start_sec x) (postponed x) (links x) (sends x).
#[export] Instance set_error : Setter error := ltac:(derive_setter eta_writer error).
#[export] Instance set_out : Setter out := ltac:(derive_setter eta_writer out).
#[export] Instance set_loose : Setter loose := ltac:(derive_setter eta_writer loose).
#[export] Instance set_sent : Setter sent := ltac:(derive_setter eta_writer sent).
#[export] Instance set_buffered : Setter buffered := ltac:(derive_setter eta_writer buffered).
#[export] Instance set_delayed : Setter delayed := ltac:(derive_setter eta_writer delayed).
#[export] Instance set_ready : Setter ready := ltac:(derive_setter eta_writer ready).
#[export] Instance set_timer : Setter timer := ltac:(derive_setter eta_writer timer).
#[export] Instance set_limit_rate_after : Setter limit_rate_after := ltac:(derive_setter eta_writer limit_rate_after).
#[export] Instance set_links : Setter links := ltac:(derive_setter eta_writer links).
#[export] Instance set_sends : Setter sends := ltac:(derive_setter eta_writer sends).

(** [clcf] *)
Record location := Location { postpone_output : Z; loc_limit_rate_after : Z; sendfile_max_chunk : Z }.

Class WriteCore := {
  ngx_alloc_chain_link : nat -> bool;
  (** how many bytes of a chain the socket takes, and what is left of the chain; [None] is [NGX_CHAIN_ERROR] *)
  send_chain : nat -> list ngx_buf_t -> Z -> option (Z * list ngx_buf_t);
  (** [c->write->ready] and the low bits of [c->buffered] after that *)
  ready_after : nat -> bool;
  lowlevel_after : nat -> Z;
  ngx_pagesize : Z;
}.

Section Write.
Context {W : WriteCore} (clcf : location).

(** The locals [size], [flush] and [last]. *)
Record tally := Tally { size : Z; flush_point : bool; last_seen : bool }.

(** One buffer of the chain; [None] for an empty one that is not special. *)
Definition count_buf (b : ngx_buf_t) (t : tally) : option tally :=
  if (ngx_buf_size b =? 0) && negb (ngx_buf_special b) then None
  else Some (Tally (size t + ngx_buf_size b) (flush_point t || flush b || recycled b) (last_seen t || last_buf b)).

Fixpoint count_old (l : list ngx_buf_t) (t : tally) : option tally :=
  match l with
  | [] => Some t
  | b :: l => match count_buf b t with Some t => count_old l t | None => None end
  end.

(** The new chain is appended link by link. *)
Fixpoint add_new (l : list ngx_buf_t) (t : tally) (x : writer) : option tally * writer :=
  match l with
  | [] => (Some t, x <| loose := false |>)
  | b :: l =>
      if negb (ngx_alloc_chain_link (links x)) then (None, x <| links := S (links x) |>)
      else
        let x := x <| links := S (links x) |> <| out := out x ++ [b] |> <| loose := true |> in
        match count_buf b t with
        | Some t => add_new l t x
        | None => (None, x)
        end
  end.

Definition set_buffered_bit (x : writer) : writer := x <| buffered := Z.lor (buffered x) NGX_HTTP_WRITE_BUFFERED |>.
Definition clear_buffered_bit (x : writer) : writer := x <| buffered := Z.ldiff (buffered x) NGX_HTTP_WRITE_BUFFERED |>.
Definition lowlevel (x : writer) : bool := negb (Z.land (buffered x) NGX_LOWLEVEL_BUFFERED =? 0).

(** The limit for this call, or the delay when nothing may be sent yet. *)
Definition rate_limit (now : Z) (x : writer) : writer * (Z + Z) :=
  if limit_rate x =? 0 then (x, inl (sendfile_max_chunk clcf))
  else
    let x := if limit_rate_after x =? 0 then x <| limit_rate_after := loc_limit_rate_after clcf |> else x in
    let limit := swrap 64 (limit_rate x * (now - start_sec x + 1) - (sent x - limit_rate_after x)) in
    if limit <=? 0 then (x, inr (wrap 64 (- limit * 1000) / limit_rate x + 1))
    else if negb (sendfile_max_chunk clcf =? 0) && (sendfile_max_chunk clcf <? limit) then (x, inl (sendfile_max_chunk clcf))
    else (x, inl limit).

(** The local [sent], and the delay for what was sent. *)
Definition sent_delay (before : Z) (x : writer) : Z * Z :=
  if limit_rate x =? 0 then (before, 0)
  else
    let less n := if limit_rate_after x =? 0 then n else Z.max 0 (n - limit_rate_after x) in
    (less before, wrap 64 ((less (sent x) - less before) * 1000) / limit_rate x).

(** After [send_chain]. *)
Definition slow_down (limit before : Z) (x : writer) : writer :=
  let '(before, delay) := sent_delay before x in
  let '(x, limit) := if 0 <? delay then (x <| delayed := true |> <| timer := Some delay |>, 0) else (x, limit) in
  if negb (limit =? 0) && ready x && (limit - 2 * ngx_pagesize <=? sent x - before)
  then x <| delayed := true |> <| timer := Some 1 |> else x.

Definition send (limit : Z) (x : writer) : ngx_rc * writer :=
  let before := sent x in
  let n := sends x in
  let x := x <| sends := S n |> in
  match send_chain n (out x) limit with
  | None => (NGX_ERROR, x <| error := true |>)
  | Some (k, chain) =>
      let x := x <| sent := sent x + k |> <| ready := ready_after n |>
                 <| buffered := Z.lor (Z.ldiff (buffered x) NGX_LOWLEVEL_BUFFERED) (Z.land (lowlevel_after n) NGX_LOWLEVEL_BUFFERED) |> in
      let x := (slow_down limit before x) <| out := chain |> in
      match chain with
      | _ :: _ => (NGX_AGAIN, set_buffered_bit x)
      | [] =>
          let x := clear_buffered_bit x in
          if lowlevel x && negb (postponed x) then (NGX_AGAIN, x) else (NGX_OK, x)
      end
  end.

Definition ngx_http_write_filter (now : Z) (in_ : list ngx_buf_t) (x : writer) : ngx_rc * writer :=
  if error x then (NGX_ERROR, x)
  else
    match count_old (out x) (Tally 0 false false) with
    | None => (NGX_ERROR, x)
    | Some t =>
        match add_new in_ t x with
        | (None, x) => (NGX_ERROR, x)
        | (Some t, x) =>
            if negb (last_seen t) && negb (flush_point t) && bool_decide (in_ <> []) && (size t <? postpone_output clcf)
            then (NGX_OK, x)
            else if delayed x then (NGX_AGAIN, set_buffered_bit x)
            else if (size t =? 0) && negb (lowlevel x) then
              if last_seen t || flush_point t then (NGX_OK, clear_buffered_bit (x <| out := [] |>)) else (NGX_ERROR, x)
            else
              match rate_limit now x with
              | (x, inr delay) => (NGX_AGAIN, set_buffered_bit (x <| delayed := true |> <| timer := Some delay |>))
              | (x, inl limit) => send limit x
              end
        end
    end.

(** ** Calls of the filter *)

Inductive event :=
| Output (now : Z) (in_ : list ngx_buf_t)
| Delay_over.   (** the timer: [c->write->delayed = 0] *)

(** [None] when a call has failed. *)
Fixpoint run (es : list event) (x : writer) : option writer :=
  match es with
  | [] => Some x
  | Delay_over :: es => run es (x <| delayed := false |> <| timer := None |>)
  | Output now in_ :: es =>
      match ngx_http_write_filter now in_ x with
      | (NGX_ERROR, _) => None
      | (_, x) => run es x
      end
  end.
End Write.
End WriteFilter.

(** * What the write filter promises *)

Module WriteFilterProps.
Import WriteFilter.

(** The bytes of a chain. *)
Definition stream (l : list ngx_buf_t) : list Z := concat (map data l).

(** A socket takes bytes from the front of the chain, and not more than it may. *)
Class WriteLaws {W : WriteCore} := {
  send_front : forall n l limit k rest, send_chain n l limit = Some (k, rest) ->
    0 <= k <= Z.of_nat (length (stream l)) /\ stream rest = drop (Z.to_nat k) (stream l);
  send_limited : forall n l limit k rest, send_chain n l limit = Some (k, rest) -> 0 < limit -> k <= limit;
}.

Lemma stream_app l l' : stream (l ++ l') = stream l ++ stream l'.
Proof. unfold stream. by rewrite map_app, concat_app. Qed.

Section Props.
Context {W : WriteCore} {L : WriteLaws} (clcf : location).

(** ** The chain *)

Lemma count_old_size l : forall t t', count_old l t = Some t' -> size t' = size t + Z.of_nat (length (stream l)).
Proof using Type.
  induction l as [|b l IH]; intros t t' H; cbn in H; [injection H as <-; change (stream []) with (@nil Z); cbn; lia|].
  unfold count_buf in H. destruct (_ && _); [done|]. rewrite (IH _ _ H). cbn [size]. unfold ngx_buf_size.
  change (stream (b :: l)) with (data b ++ stream l). rewrite length_app. lia.
Qed.

(** Nothing but the chain is touched. *)
Definition same_but_chain (x y : writer) : Prop :=
  error y = error x /\ sent y = sent x /\ buffered y = buffered x /\ delayed y = delayed x /\ ready y = ready x /\ timer y = timer x
  /\ limit_rate y = limit_rate x /\ limit_rate_after y = limit_rate_after x /\ start_sec y = start_sec x /\ sends y = sends x.

Lemma add_new_ok l : forall t x t' y, add_new l t x = (Some t', y) ->
  out y = out x ++ l /\ size t' = size t + Z.of_nat (length (stream l)) /\ loose y = false /\ same_but_chain x y.
Proof using Type.
  induction l as [|b l IH]; intros t x t' y H; cbn in H.
  - simplify_eq. cbn. rewrite app_nil_r. split; [done|]. split; [lia|]. by split_and!.
  - destruct (negb _); [done|]. unfold count_buf in H. destruct (_ && _); [done|]. destruct (IH _ _ _ _ H) as (E1 & E2 & E3 & E4).
    split; [rewrite E1; cbn; by rewrite <- app_assoc|]. split; [|done]. rewrite E2. cbn [size]. unfold ngx_buf_size.
    change (stream (b :: l)) with (data b ++ stream l). rewrite length_app. lia.
Qed.

(** From [x] to [y] the bytes [bs] have come and what is sent is off the front. *)
Definition in_order (x y : writer) (bs : list Z) : Prop :=
  0 <= sent y - sent x <= Z.of_nat (length (stream (out x) ++ bs))
  /\ stream (out y) = drop (Z.to_nat (sent y - sent x)) (stream (out x) ++ bs).

Lemma in_order_same x y bs : stream (out y) = stream (out x) ++ bs -> sent y = sent x -> in_order x y bs.
Proof using Type. intros E1 E2. unfold in_order. rewrite E2, Z.sub_diag. split; [lia|]. by rewrite E1. Qed.

Lemma in_order_trans x y z bs cs : in_order x y bs -> in_order y z cs -> in_order x z (bs ++ cs).
Proof using Type.
  intros [H1 E1] [H2 E2]. assert (El : length (stream (out y) ++ cs) = (length ((stream (out x) ++ bs) ++ cs) - Z.to_nat (sent y - sent x))%nat).
  { rewrite E1, !length_app, length_drop, length_app. rewrite length_app in H1. lia. }
  unfold in_order. rewrite app_assoc. split; [rewrite El in H2; rewrite !length_app in *; lia|].
  rewrite E2, E1, <- drop_app_le, drop_drop by lia. f_equal. lia.
Qed.

Lemma slow_down_same limit before x : let y := slow_down limit before x in out y = out x /\ sent y = sent x /\ buffered y = buffered x.
Proof using Type. unfold slow_down. destruct (sent_delay before x) as [a d]. destruct (0 <? d); cbn; [done|]. by destruct (_ && _). Qed.

Lemma send_in_order limit x rc y : send limit x = (rc, y) -> rc <> NGX_ERROR -> in_order x y [].
Proof using L.
  unfold send. destruct (send_chain _ _ _) as [[k chain]|] eqn:E; [|by intros [= <- <-]].
  destruct (send_front _ _ _ _ _ E) as [Hk Hs]. set (x1 := _ <| buffered := _ |>). 
  destruct (slow_down_same limit (sent x) x1) as (E1 & E2 & _). cbv zeta. set (x2 := slow_down _ _ x1) in *.
  assert (Hi : forall z, out z = chain -> sent z = sent x + k -> in_order x z []).
  { intros z Hz Hz2. unfold in_order. rewrite Hz, Hz2, app_nil_r. replace (sent x + k - sent x) with k by lia. done. }
  destruct chain as [|b l].
  - destruct (_ && _); intros [= <- <-] _; by apply Hi.
  - intros [= <- <-] _. by apply Hi.
Qed.

Lemma rate_limit_same now x y r : rate_limit clcf now x = (y, r) -> out y = out x /\ sent y = sent x.
Proof using Type.
  unfold rate_limit. destruct (limit_rate x =? 0); [by intros [= <- _]|].
  set (z := if limit_rate_after x =? 0 then _ else x). assert (E : out z = out x /\ sent z = sent x) by (unfold z; by destruct (limit_rate_after x =? 0)).
  cbv zeta. destruct (_ <=? 0); [by intros [= <- _]|]. destruct (_ && _); by intros [= <- _].
Qed.

Lemma call_in_order now in_ x rc y : ngx_http_write_filter clcf now in_ x = (rc, y) -> rc <> NGX_ERROR -> in_order x y (stream in_).
Proof using L.
  unfold ngx_http_write_filter. destruct (error x); [by intros [= <- _]|].
  destruct (count_old _ _) as [t|] eqn:Et; [|by intros [= <- _]]. pose proof (count_old_size _ _ _ Et) as Es0.
  destruct (add_new _ _ _) as [[t'|] z] eqn:Ea; [|by intros [= <- _]]. destruct (add_new_ok _ _ _ _ _ Ea) as (Eo & Es & _ & Hsame).
  assert (Hz : in_order x z (stream in_)) by (apply in_order_same; [by rewrite Eo, stream_app|apply Hsame]).
  destruct (_ && _); [by intros [= _ <-]|]. destruct (delayed z); [by intros [= _ <-]|].
  destruct (_ && _) eqn:E0.
  - destruct (_ || _); [|by intros [= <- _]]. intros [= _ <-] _. apply andb_true_iff in E0 as [E0%Z.eqb_eq _].
    apply in_order_same; [|by apply Hsame]. cbn [size] in *. cbn. symmetry. apply length_zero_iff_nil. rewrite length_app. cbn in Es0. lia.
  - destruct (rate_limit clcf now z) as [u [limit|delay]] eqn:Er; destruct (rate_limit_same _ _ _ _ Er) as [E1 E2].
    + intros Hs Hrc. rewrite <- (app_nil_r (stream in_)). eapply in_order_trans; [|by eapply send_in_order].
      destruct Hz as [H1 H2]. split; by rewrite ?E1, E2.
    + intros [= _ <-] _. destruct Hz as [H1 H2]. split; cbn; by rewrite ?E1, E2.
Qed.

Definition output (e : event) : list Z := match e with Output _ in_ => stream in_ | Delay_over => [] end.

(** C11: over any calls of the filter that do not fail, in between which delays end,
    with any postponing, limits and readiness of the socket, the bytes the socket was
    given followed by those still in [r->out] are the bytes of the chains the filter
    was given, in order, none lost or repeated: [c->sent] counts those that are off. *)
Theorem write_filter_in_order es x y : run clcf es x = Some y -> in_order x y (concat (map output es)).
Proof using L.
  revert x. induction es as [|[now in_|] es IH]; intros x H; cbn [run map concat output] in *.
  - simplify_eq. by apply in_order_same; [rewrite app_nil_r|].
  - destruct (ngx_http_write_filter _ _ _ _) as [rc z] eqn:E.
    assert (Hrc : rc <> NGX_ERROR) by (intros ->; done). apply in_order_trans with z; [by eapply call_in_order|].
    apply IH. by destruct rc.
  - by apply (IH _ H).
Qed.

(** ** The rate *)

(** The bytes that are sent at once. *)
Definition head_start (x : writer) : Z := if limit_rate_after x =? 0 then loc_limit_rate_after clcf else limit_rate_after x.

(** What may have been sent at a time. *)
Definition allowance (x : writer) (now : Z) : Z := limit_rate x * (now - start_sec x + 1) + head_start x.

Definition same_rate (x y : writer) : Prop := limit_rate y = limit_rate x /\ start_sec y = start_sec x /\ head_start y = head_start x.

Lemma slow_down_rate limit before x : let y := slow_down limit before x in same_rate x y.
Proof using Type. unfold slow_down. destruct (sent_delay before x) as [a d]. destruct (0 <? d); cbn; [done|]. by destruct (_ && _). Qed.

Lemma rate_limit_rate now x y r : rate_limit clcf now x = (y, r) -> 0 < limit_rate x -> 0 <= sendfile_max_chunk clcf ->
  - 2 ^ 63 <= allowance x now - sent x < 2 ^ 63 ->
  same_rate x y /\ sent y = sent x /\ match r with inl limit => 0 < limit /\ sent x + limit <= allowance x now | inr _ => True end.
Proof using Type.
  unfold rate_limit. intros H Hr Hc Hb. destruct (Z.eqb_spec (limit_rate x) 0); [lia|].
  set (z := if limit_rate_after x =? 0 then _ else x) in H.
  assert (Ez : same_rate x z /\ sent z = sent x /\ limit_rate_after z = head_start x).
  { unfold z, same_rate, head_start. destruct (Z.eqb_spec (limit_rate_after x) 0) as [E|E]; cbn.
    - by destruct (Z.eqb_spec (loc_limit_rate_after clcf) 0) as [->|].
    - by destruct (Z.eqb_spec (limit_rate_after x) 0). }
  destruct Ez as ((E1 & E2 & E3) & E4 & E5). cbv zeta in H. rewrite E1, E2, E4, E5 in H.
  replace (limit_rate x * (now - start_sec x + 1) - (sent x - head_start x)) with (allowance x now - sent x) in H by (unfold allowance; lia).
  rewrite swrap_small in H by (cbn; lia).
  destruct (Z.leb_spec (allowance x now - sent x) 0); [by simplify_eq|].
  destruct (negb (_ =? 0) && _) eqn:E; simplify_eq; (split; [done|]); (split; [done|]); [|lia].
  apply andb_true_iff in E as [Ea%negb_true_iff%Z.eqb_neq Eb%Z.ltb_lt]. lia.
Qed.

Lemma send_rate limit x rc y : send limit x = (rc, y) -> rc <> NGX_ERROR -> 0 < limit ->
  same_rate x y /\ sent x <= sent y <= sent x + limit.
Proof using L.
  unfold send. destruct (send_chain _ _ _) as [[k chain]|] eqn:E; [|by intros [= <- <-]].
  destruct (send_front _ _ _ _ _ E) as [Hk _]. intros H Hrc Hl. pose proof (send_limited _ _ _ _ _ E Hl) as Hkl. revert H.
  set (x1 := _ <| buffered := _ |>).
  destruct (slow_down_same limit (sent x) x1) as (_ & E2 & _). pose proof (slow_down_rate limit (sent x) x1) as E3.
  cbv zeta. set (x2 := slow_down _ _ x1) in *.
  assert (Hi : forall z, same_rate x2 z -> sent z = sent x2 -> same_rate x z /\ sent x <= sent z <= sent x + limit).
  { intros z (F1 & F2 & F3) Hz2. destruct E3 as (G1 & G2 & G3). split; [split_and!; by rewrite ?F1, ?F2, ?F3, ?G1, ?G2, ?G3|].
    rewrite Hz2, E2. cbn. lia. }
  destruct chain as [|b l].
  - destruct (_ && _); intros [= <- <-]; by apply Hi.
  - intros [= <- <-]. by apply Hi.
Qed.

Lemma call_rate now in_ x rc y : ngx_http_write_filter clcf now in_ x = (rc, y) -> rc <> NGX_ERROR ->
  0 < limit_rate x -> 0 <= sendfile_max_chunk clcf -> - 2 ^ 63 <= allowance x now - sent x < 2 ^ 63 ->
  same_rate x y /\ sent x <= sent y <= Z.max (sent x) (allowance x now).
Proof using L.
  unfold ngx_http_write_filter. intros H Hrc Hr Hc Hb. revert H. destruct (error x); [by intros [= <- _]|].
  destruct (count_old _ _) as [t|]; [|by intros [= <- _]].
  destruct (add_new _ _ _) as [[t'|] z] eqn:Ea; [|by intros [= <- _]].
  destruct (add_new_ok _ _ _ _ _ Ea) as (_ & _ & _ & _ & Es & _ & _ & _ & _ & E1 & E2 & E3 & _).
  assert (Hz : same_rate x z) by (unfold same_rate, head_start; by rewrite E1, E2, E3).
  assert (Hi : forall u, same_rate z u -> sent u = sent z -> same_rate x u /\ sent x <= sent u <= Z.max (sent x) (allowance x now)).
  { intros u (F1 & F2 & F3) F4. destruct Hz as (G1 & G2 & G3). split; [split_and!; by rewrite ?F1, ?F2, ?F3|]. rewrite F4, Es. lia. }
  destruct (_ && _); [intros [= _ <-]; by apply Hi|]. destruct (delayed z); [intros [= _ <-]; by apply Hi|].
  destruct (_ && _); [destruct (_ || _); [intros [= _ <-]; by apply Hi|by intros [= <- _]]|].
  assert (Ha : allowance z now = allowance x now) by (unfold allowance; by destruct Hz as (-> & -> & ->)).
  destruct (rate_limit clcf now z) as [u r] eqn:Er.
  destruct (rate_limit_rate now z u r Er ltac:(lia) Hc ltac:(rewrite Ha; lia)) as (Hu & E4 & Hlim).
  destruct r as [limit|delay].
  - intros Hs. destruct (send_rate _ _ _ _ Hs Hrc (proj1 Hlim)) as [(F1 & F2 & F3) F4]. destruct Hz as (G1 & G2 & G3), Hu as (K1 & K2 & K3).
    split; [split_and!; by rewrite ?F1, ?F2, ?F3, ?K1, ?K2, ?K3|]. lia.
  - intros [= _ <-]. by apply Hi.
Qed.

(** The times of the calls. *)
Definition within (start until : Z) (e : event) : Prop := match e with Output now _ => start <= now <= until | Delay_over => True end.

(** C23: with [limit_rate] set, no more than that many bytes for each second that the
    request has lasted, and for the one that has begun, has been sent at any time, but
    for what may be sent at once and what had been sent before. *)
Theorem rate_kept es until x y : run clcf es x = Some y -> 0 < limit_rate x -> 0 <= sendfile_max_chunk clcf ->
  Forall (within (start_sec x) until) es -> 0 <= head_start x -> 0 <= sent x < 2 ^ 62 -> allowance x until < 2 ^ 62 ->
  sent x <= sent y <= Z.max (sent x) (allowance x until).
Proof using L.
  intros H Hr Hc Ht Hh Hs Ha. remember (Z.max (sent x) (allowance x until)) as most eqn:Em.
  assert (Hm : most < 2 ^ 62) by lia. assert (Hx : sent x <= most /\ allowance x until <= most) by lia. clear Em Ha.
  revert x H Hr Ht Hh Hs Hx. induction es as [|[now in_|] es IH]; intros x H Hr Ht Hh Hs Hx; cbn [run] in H.
  - simplify_eq. lia.
  - destruct (ngx_http_write_filter _ _ _ _) as [rc z] eqn:E. assert (Hrc : rc <> NGX_ERROR) by (intros ->; done).
    inversion Ht as [|? ? Hw Ht']; subst. cbn in Hw.
    assert (Ha : 0 <= allowance x now <= allowance x until) by (unfold allowance; nia).
    destruct (call_rate now in_ x rc z E Hrc Hr Hc ltac:(lia)) as [(F1 & F2 & F3) F4].
    assert (Haz : allowance z until = allowance x until) by (unfold allowance; by rewrite F1, F2, F3).
    specialize (IH z ltac:(by destruct rc)). rewrite F1, F2, F3, Haz in IH. specialize (IH Hr Ht' Hh ltac:(lia) ltac:(lia)). lia.
  - inversion Ht as [|? ? _ Ht']; subst. exact (IH _ H Hr Ht' Hh Hs Hx).
Qed.

(** ** What is answered *)

Definition plain (b : ngx_buf_t) : Prop := flush b = false /\ recycled b = false /\ last_buf b = false.
Definition no_flags (t : tally) : Prop := flush_point t = false /\ last_seen t = false.

Lemma count_buf_plain b t t' : count_buf b t = Some t' -> no_flags t' -> plain b /\ no_flags t.
Proof using Type.
  unfold count_buf, no_flags, plain. destruct (_ && _); [done|]. intros [= <-]. cbn.
  by rewrite !orb_false_iff; intros [[[? ?] ?] [? ?]].
Qed.

Lemma count_old_plain l : forall t t', count_old l t = Some t' -> no_flags t' -> Forall plain l /\ no_flags t.
Proof using Type.
  induction l as [|b l IH]; intros t t' H Hf; cbn in H; [by simplify_eq|].
  destruct (count_buf b t) as [t1|] eqn:E; [|done]. destruct (IH _ _ H Hf) as [Hl H1].
  destruct (count_buf_plain _ _ _ E H1). split; [by constructor|done].
Qed.

Lemma add_new_plain l : forall t x t' y, add_new l t x = (Some t', y) -> no_flags t' -> Forall plain l /\ no_flags t.
Proof using Type.
  induction l as [|b l IH]; intros t x t' y H Hf; cbn in H; [by simplify_eq|].
  destruct (negb _); [done|]. destruct (count_buf b t) as [t1|] eqn:E; [|done]. destruct (IH _ _ _ _ H Hf) as [Hl H1].
  destruct (count_buf_plain _ _ _ E H1). split; [by constructor|done].
Qed.

Definition armed (x : writer) : Prop := delayed x = true -> timer x <> None.
Definition marked (x : writer) : Prop := Z.testbit (buffered x) 4 = true.

Lemma set_marked x : marked (set_buffered_bit x).
Proof using Type. change (Z.testbit (Z.lor (buffered x) NGX_HTTP_WRITE_BUFFERED) 4 = true). rewrite Z.lor_spec. apply orb_true_r. Qed.

Lemma lowlevel_clear x : lowlevel (clear_buffered_bit x) = lowlevel x.
Proof using Type.
  unfold lowlevel. change (buffered (clear_buffered_bit x)) with (Z.ldiff (buffered x) NGX_HTTP_WRITE_BUFFERED). do 2 f_equal.
  apply Z.bits_inj'. intros n Hn. rewrite !Z.land_spec, Z.ldiff_spec. destruct (Z.testbit (buffered x) n); [|done]. cbn [andb].
  pose proof (Z.land_spec NGX_HTTP_WRITE_BUFFERED NGX_LOWLEVEL_BUFFERED n) as H.
  change (Z.land NGX_HTTP_WRITE_BUFFERED NGX_LOWLEVEL_BUFFERED) with 0 in H. rewrite Z.bits_0 in H.
  by destruct (Z.testbit NGX_HTTP_WRITE_BUFFERED n), (Z.testbit NGX_LOWLEVEL_BUFFERED n).
Qed.

Lemma rate_limit_rest now x y r : rate_limit clcf now x = (y, r) -> sends y = sends x /\ delayed y = delayed x /\ timer y = timer x.
Proof using Type.
  unfold rate_limit. destruct (limit_rate x =? 0); [by intros [= <- _]|].
  set (z := if limit_rate_after x =? 0 then _ else x).
  assert (E : sends z = sends x /\ delayed z = delayed x /\ timer z = timer x) by (unfold z; by destruct (limit_rate_after x =? 0)).
  cbv zeta. destruct (_ <=? 0); [by intros [= <- _]|]. destruct (_ && _); by intros [= <- _].
Qed.

Lemma slow_down_armed limit before x : armed x -> armed (slow_down limit before x).
Proof using Type. intros H. unfold slow_down. destruct (sent_delay before x) as [a d]. destruct (0 <? d); cbn; [done|]. by destruct (_ && _). Qed.

Lemma slow_down_rest limit before x : let y := slow_down limit before x in sends y = sends x /\ postponed y = postponed x.
Proof using Type. unfold slow_down. destruct (sent_delay before x) as [a d]. destruct (0 <? d); cbn; [done|]. by destruct (_ && _). Qed.

(** A call that gave the chain to the socket. *)
Definition tried (rc : ngx_rc) (x y : writer) : Prop :=
  armed y /\ sends y = S (sends x) /\
  match rc with
  | NGX_OK => out y = [] /\ (lowlevel y = false \/ postponed y = true)
  | NGX_AGAIN => marked y \/ out y = [] /\ lowlevel y = true
  | _ => False
  end.

Lemma send_tried limit x rc y : send limit x = (rc, y) -> rc <> NGX_ERROR -> armed x -> tried rc x y.
Proof using Type.
  unfold send. destruct (send_chain _ _ _) as [[k chain]|]; [|by intros [= <- <-]]. intros H _ Ha. revert H.
  set (x1 := _ <| buffered := _ |>). pose proof (slow_down_armed limit (sent x) x1 Ha) as H1.
  destruct (slow_down_rest limit (sent x) x1) as [H2 _]. cbv zeta. set (x2 := slow_down _ _ x1) in *.
  destruct chain as [|b l].
  - destruct (lowlevel _ && _) eqn:E; intros [= <- <-]; (split; [exact H1|]); (split; [exact H2|]).
    + right. split; [done|]. by apply andb_true_iff in E as [E _].
    + split; [done|]. apply andb_false_iff in E as [E|E%negb_false_iff]; auto.
  - intros [= <- <-]. split; [exact H1|]. split; [exact H2|]. left. apply set_marked.
Qed.

(** A call that does not fail either gives the chain to the socket or says why not.
    [NGX_OK] means that all has been sent, or that the output is held back because it
    is small and nothing in it asks to be sent; [NGX_AGAIN] that a delay runs or the
    socket has been tried, and the connection knows that there is output.  A connection
    that is delayed always has a timer that ends it. *)
Theorem write_filter_answers now in_ x rc y :
  ngx_http_write_filter clcf now in_ x = (rc, y) -> rc <> NGX_ERROR -> armed x ->
  armed y /\
  match rc with
  | NGX_OK => out y = [] /\ (lowlevel y = false \/ postponed y = true)
      \/ sends y = sends x /\ out y = out x ++ in_ /\ in_ <> [] /\ Forall plain (out y)
         /\ Z.of_nat (length (stream (out y))) < postpone_output clcf
  | NGX_AGAIN => (delayed y = true \/ sends y = S (sends x)) /\ (marked y \/ out y = [] /\ lowlevel y = true)
  | _ => False
  end.
Proof using Type.
  unfold ngx_http_write_filter. destruct (error x); [by intros [= <- _]|].
  destruct (count_old _ _) as [t|] eqn:Et; [|by intros [= <- _]]. pose proof (count_old_size _ _ _ Et) as Es0.
  destruct (add_new _ _ _) as [[t'|] z] eqn:Ea; [|by intros [= <- _]].
  destruct (add_new_ok _ _ _ _ _ Ea) as (Eo & Es & _ & _ & E1 & _ & E3 & _ & E5 & _ & _ & _ & E9).
  destruct (negb (last_seen t') && _ && _ && _) eqn:E0.
  { intros [= <- <-] _ Ha. split; [unfold armed; by rewrite E3, E5|]. right.
    apply andb_true_iff in E0 as [E0 Ep%Z.ltb_lt]. apply andb_true_iff in E0 as [E0 En%bool_decide_eq_true].
    apply andb_true_iff in E0 as [El%negb_true_iff Ef%negb_true_iff].
    destruct (add_new_plain _ _ _ _ _ Ea (conj Ef El)) as [Hn Ht]. destruct (count_old_plain _ _ _ Et Ht) as [Hl _].
    split; [done|]. split; [done|]. split; [done|]. rewrite Eo. split; [by apply Forall_app|].
    rewrite stream_app, length_app. cbn [size] in Es0. lia. }
  destruct (delayed z) eqn:Ed.
  { intros [= <- <-] _ Ha. split; [intros _; cbn; rewrite E5; by apply Ha|]. split; [by left|]. left. apply set_marked. }
  destruct ((size t' =? 0) && negb (lowlevel z)) eqn:Ez.
  { destruct (last_seen t' || flush_point t'); [|by intros [= <- _]]. intros [= <- <-] _ Ha. split; [unfold armed; cbn; by rewrite Ed|]. left. split; [done|].
    left. apply andb_true_iff in Ez as [_ Ez%negb_true_iff]. by rewrite lowlevel_clear. }
  destruct (rate_limit clcf now z) as [u r] eqn:Er. destruct (rate_limit_rest _ _ _ _ Er) as (F1 & F2 & F3).
  destruct r as [limit|delay]; intros H Hrc Ha.
  - destruct (send_tried _ _ _ _ H Hrc) as (H1 & H2 & H3); [unfold armed; by rewrite F2, Ed|]. split; [done|].
    destruct rc; try done; [by left|]. split; [right; by rewrite H2, F1, E9|done].
  - injection H as <- <-. split; [done|]. split; [by left|]. left. apply set_marked.
Qed.
End Props.

(** ** Examples *)

(** A socket that takes [m] bytes at most; [links_left] chain links can be made. *)
Fixpoint skip (k : nat) (l : list ngx_buf_t) : list ngx_buf_t :=
  match l with
  | [] => []
  | b :: l =>
      if (length (data b) <=? k)%nat then skip (k - length (data b)) l
      else Out_buf (drop k (data b)) (in_memory b) (in_file b) (flush b) (sync b) (recycled b) (last_buf b) :: l
  end.

Definition ex_socket (m : nat) (links_left : nat) : WriteCore := {|
  ngx_alloc_chain_link n := (n <? links_left)%nat;
  send_chain _ l limit :=
    let k := Nat.min m (length (stream l)) in
    let k := if 0 <? limit then Nat.min k (Z.to_nat limit) else k in
    Some (Z.of_nat k, skip k l);
  ready_after _ := true;
  lowlevel_after _ := 0;
  ngx_pagesize := 4096;
|}.

Lemma stream_skip l : forall k, stream (skip k l) = drop k (stream l).
Proof.
  induction l as [|b l IH]; intros k; cbn [skip]; [by destruct k|]. change (stream (b :: l)) with (data b ++ stream l).
  destruct (Nat.leb_spec (length (data b)) k); [by rewrite IH, drop_app_ge by lia|].
  rewrite drop_app_le by lia. done.
Qed.

#[export] Instance ex_socket_ok m n : @WriteLaws (ex_socket m n).
Proof.
  split; cbn; intros i l limit k rest [= <- <-].
  - rewrite Nat2Z.id. split; [destruct (0 <? limit); lia|apply stream_skip].
  - intros H. destruct (Z.ltb_spec 0 limit); lia.
Qed.

Definition ex_buf (l : list Z) (last : bool) : ngx_buf_t := Out_buf l true false false false false last.
Definition ex_writer (rate : Z) : writer := Writer false [] false 0 0 false true None rate 0 100 false 0 0.
Definition ex_location : location := Location 4 0 0.

(** Two buffers in three turns of a socket that takes five bytes, the first held back
    because it is small. *)
Definition ex_calls : list event :=
  [Output 100 [ex_buf (bytes_of "abc") false]; Output 100 [ex_buf (bytes_of "defghijkl") true]; Output 101 []; Delay_over; Output 101 []].

Lemma write_filter_in_order_witness : exists y,
  @run (ex_socket 5 10) ex_location ex_calls (ex_writer 0) = Some y /\ sent y = 12 /\ in_order (ex_writer 0) y (bytes_of "abcdefghijkl").
Proof.
  eexists. split; [vm_compute; reflexivity|]. split; [reflexivity|].
  apply (@write_filter_in_order (ex_socket 5 10) (ex_socket_ok 5 10) ex_location ex_calls). vm_compute. reflexivity.
Defined.

(** With four bytes a second, four are sent in the first. *)
Lemma rate_kept_witness : exists y,
  @run (ex_socket 50 10) ex_location [Output 100 [ex_buf (bytes_of "abcdefghijkl") true]; Output 100 []] (ex_writer 4) = Some y
  /\ delayed y = true /\ sent (ex_writer 4) <= sent y <= 4.
Proof.
  eexists. split; [vm_compute; reflexivity|]. split; [reflexivity|].
  apply (@rate_kept (ex_socket 50 10) (ex_socket_ok 50 10) ex_location [Output 100 [ex_buf (bytes_of "abcdefghijkl") true]; Output 100 []] 100 (ex_writer 4));
    [vm_compute; reflexivity|reflexivity|done|by repeat constructor|done|done|reflexivity].
Defined.

Lemma write_filter_answers_witness :
  match @ngx_http_write_filter (ex_socket 5 10) ex_location 100 [ex_buf (bytes_of "abc") false] (ex_writer 0) with
  | (NGX_OK, y) => out y = [ex_buf (bytes_of "abc") false] /\ armed y
  | _ => False
  end.
Proof.
  destruct (@write_filter_answers (ex_socket 5 10) ex_location 100 [ex_buf (bytes_of "abc") false] (ex_writer 0) NGX_OK
    ((ex_writer 0) <| out := [ex_buf (bytes_of "abc") false] |> <| links := 1%nat |>)) as [H1 [[H2 _]|(_ & H2 & _)]];
    [vm_compute; reflexivity|done|done|done|]. split; [exact H2|exact H1].
Defined.

(** When there is no memory for a link, the one before is left without its [next]. *)
Example chain_left_loose :
  let '(rc, y) := @ngx_http_write_filter (ex_socket 5 1) ex_location 100 [ex_buf (bytes_of "a") false; ex_buf (bytes_of "b") true] (ex_writer 0) in
  rc = NGX_ERROR /\ error y = false /\ loose y = true.
Proof. by vm_compute. Qed.
End WriteFilterProps.
