(* ===== verification/CoreContent.v ===== *)
(** * What the core offers to handlers and filters

    From [ngx_http_core_module.c]: the type and tag of a response, the file of a URI,
    the user of a request, whether a client takes gzip, and the address of a client
    behind proxies.  Strings of the nginx core (base64, search, printing), hashes and
    memory are parameters. *)

From S2P Require Import Prelude UriUtil ParseTime.

Module CoreContent.

(** ** Types and tags *)

(** The fields of [r] and [r->headers_out] about the type: [content_type] has
    [content_type_len] bytes without its charset. *)
Record typed := Typed {
  exten : list Z;
  content_type : list Z;
  content_type_len : Z;
  content_type_lowcase : option (list Z);
  content_type_hash : Z;
}.

Class ContentCore := {
  ngx_pnalloc : Z -> bool;
  ngx_list_push : bool;
  ngx_hash : Z -> Z -> Z;
  ngx_tolower : Z -> Z;
  (** the hash of the lower-case string, and that string *)
  ngx_hash_strlow : list Z -> Z * list Z;
  ngx_hash_find : forall {A}, list (list Z * A) -> Z -> list Z -> option A;
  (** a number as [%xT] or [%xO] prints it *)
  ngx_hex : Z -> list Z;
  (** decoded bytes, or [None]; and the length that is enough for them *)
  ngx_decode_base64 : list Z -> option (list Z);
  ngx_base64_decoded_length : Z -> Z;
  (** the place of a string in another, without case: the number is its length less one *)
  ngx_strcasestrn : list Z -> list Z -> Z -> option Z;
  ngx_strncasecmp : list Z -> list Z -> Z -> Z;
  ngx_regex_exec_array : nat -> list Z -> ngx_rc;
  ngx_time : Z;
  (** the root of a location whose path has variables, as [ngx_http_script_run] and
      [ngx_get_full_name] give it *)
  root_script : option (list Z);
}.

Section Content.
Context {C : ContentCore}.

(** [ngx_http_test_content_type]: what the hash of types has for the type of the
    response, or [Any], the pointer 4, when there is no such hash. *)
Inductive tested (A : Type) := Any | Type_found (a : A) | No_type.
Arguments Any {A}.
Arguments Type_found {A} a.
Arguments No_type {A}.

Definition lowcase (n : Z) (l : list Z) : list Z := map ngx_tolower (take (Z.to_nat n) l).
Definition hash_of (l : list Z) : Z := fold_left ngx_hash l 0.

Definition ngx_http_test_content_type {A} (types_hash : list (list Z * A)) (r : typed) : tested A * typed :=
  match types_hash with
  | [] => (Any, r)
  | _ =>
      if bool_decide (content_type r = []) then (No_type, r)
      else
        let len := content_type_len r in
        let find r :=
          match ngx_hash_find types_hash (content_type_hash r) (default [] (content_type_lowcase r)) with
          | Some a => Type_found a
          | None => No_type
          end in
        match content_type_lowcase r with
        | Some _ => (find r, r)
        | None =>
            if negb (ngx_pnalloc len) then (No_type, r)
            else
              let l := lowcase len (content_type r) in
              let r := Typed (exten r) (content_type r) (content_type_len r) (Some l) (hash_of l) in
              (find r, r)
        end
  end.

(** [ngx_http_set_content_type]: the hash of an extension, which is made lower-case
    at the first capital letter. *)
Fixpoint hash_exten (l : list Z) (hash : Z) : option Z :=
  match l with
  | [] => Some hash
  | c :: l => if is_upper c then None else hash_exten l (ngx_hash hash c)
  end.

Definition ngx_http_set_content_type (types_hash : list (list Z * list Z)) (default_type : list Z) (r : typed) : ngx_rc * typed :=
  if bool_decide (content_type r <> []) then (NGX_OK, r)
  else
    let of_default r :=
      Typed (exten r) default_type (Z.of_nat (length default_type)) (content_type_lowcase r) (content_type_hash r) in
    match exten r with
    | [] => (NGX_OK, of_default r)
    | e =>
        let found hash e :=
          let r := Typed e (content_type r) (content_type_len r) (content_type_lowcase r) (content_type_hash r) in
          match ngx_hash_find types_hash hash e with
          | Some t => (NGX_OK, Typed e t (Z.of_nat (length t)) (content_type_lowcase r) (content_type_hash r))
          | None => (NGX_OK, of_default r)
          end in
        match hash_exten e 0 with
        | Some hash => found hash e
        | None =>
            if negb (ngx_pnalloc (Z.of_nat (length e))) then (NGX_ERROR, r)
            else let (hash, e) := ngx_hash_strlow e in found hash e
        end
    end.

(** [ngx_http_set_etag]: the value of a new header "ETag". *)
Definition NGX_OFF_T_LEN : Z := 20.
Definition NGX_TIME_T_LEN : Z := 20.

Definition ngx_http_set_etag (etag : bool) (last_modified_time content_length_n : Z) : ngx_rc * option (list Z) :=
  if negb etag then (NGX_OK, None)
  else if negb ngx_list_push then (NGX_ERROR, None)
  else if negb (ngx_pnalloc (NGX_OFF_T_LEN + NGX_TIME_T_LEN + 3)) then (NGX_ERROR, None)
  else (NGX_OK, Some ([34] ++ ngx_hex last_modified_time ++ bytes_of "-" ++ ngx_hex content_length_n ++ [34])).

(** ** [ngx_http_map_uri_to_path] *)

Record root_conf := Root_conf { root : list Z; alias : Z; root_has_script : bool; is_regex : bool }.

(** [ngx_cpystrn (dst, src, n)]: what is written, with its zero. *)
Fixpoint cpystrn (src : list Z) (n : nat) : list Z :=
  match n, src with
  | O, _ => []
  | S O, _ | _, [] => [NUL]
  | S n, c :: src => if c =? NUL then [NUL] else c :: cpystrn src n
  end.

(** The bytes of the path with the zero behind, how many bytes there are for them and
    the [reserved], and [*root_length]. *)
Definition ngx_http_map_uri_to_path (clcf : root_conf) (valid_location add_uri_to_alias : bool) (uri : list Z) (reserved : Z)
    : option (list Z * Z * Z) :=
  let n := Z.of_nat (length uri) in
  let rest a := cpystrn (drop (Z.to_nat a) uri) (Z.to_nat (n - a + 1)) in
  if negb (alias clcf =? 0) && negb valid_location then None
  else if negb (root_has_script clcf) then
    let len := Z.of_nat (length (root clcf)) + reserved + n - alias clcf + 1 in
    if negb (ngx_pnalloc len) then None
    else Some (root clcf ++ rest (alias clcf), len, Z.of_nat (length (root clcf)))
  else
    let captures := negb (alias clcf =? 0) && is_regex clcf in
    let more := if captures then (if add_uri_to_alias then n + 1 else 1) else n - alias clcf + 1 in
    match root_script with
    | None => None
    | Some path =>
        let len := Z.of_nat (length path) + reserved + more in
        if captures && negb add_uri_to_alias then Some (path ++ [NUL], len, Z.of_nat (length path))
        else Some (path ++ rest (if captures then 0 else alias clcf), len, Z.of_nat (length path))
    end.

(** ** [ngx_http_auth_basic_user] *)

(** [r->headers_in.user] and [passwd]: not looked for, none, or both. *)
Inductive credentials := Unknown | Nobody | User (user passwd : list Z).

Fixpoint skip_blanks (l : list Z) : list Z :=
  match l with
  | c :: l' => if c =? " "%c then skip_blanks l' else l
  | [] => []
  end.

(** The place of the first colon, or the length. *)
Fixpoint find_colon (l : list Z) : nat :=
  match l with
  | [] => 0
  | c :: l => if c =? ":"%c then 0 else S (find_colon l)
  end.

Definition ngx_http_auth_basic_user (authorization : option (list Z)) (c : credentials) : ngx_rc * credentials :=
  match c with
  | Nobody => (NGX_DECLINED, c)
  | _ =>
      match authorization with
      | None => (NGX_DECLINED, Nobody)
      | Some v =>
          if (Z.of_nat (length v) <? 6) || negb (ngx_strncasecmp v (bytes_of "Basic ") 6 =? 0) then (NGX_DECLINED, Nobody)
          else
            let encoded := skip_blanks (drop 6 v) in
            if bool_decide (encoded = []) then (NGX_DECLINED, Nobody)
            else if negb (ngx_pnalloc (ngx_base64_decoded_length (Z.of_nat (length encoded)) + 1)) then (NGX_ERROR, c)
            else
              match ngx_decode_base64 encoded with
              | None => (NGX_DECLINED, Nobody)
              | Some auth =>
                  let len := find_colon auth in
                  if (len =? 0)%nat || (len =? length auth)%nat then (NGX_DECLINED, Nobody)
                  else (NGX_OK, User (take len auth) (drop (S len) auth))
              end
      end
  end.

(** ** [ngx_http_gzip_ok] *)

(** The digits after the point: their sum and how many there are; [None] for
    another byte before the end of the word. *)
Fixpoint fraction (l : list Z) (q n : Z) : option (Z * Z) :=
  match l with
  | [] => Some (q, n)
  | c :: l =>
      if (c =? ","%c) || (c =? " "%c) then Some (q, n)
      else if ("0"%c <=? c) && (c <=? "9"%c) then fraction l (q + (c - "0"%c)) (n + 1)
      else None
  end.

(** The bytes from [p] to [last], of which there is one at least. *)
Definition ngx_http_gzip_quantity (l : list Z) : Z :=
  match l with
  | [] => 0
  | c :: l =>
      if negb (c =? "0"%c) && negb (c =? "1"%c) then 0
      else
        let q := (c - "0"%c) * 100 in
        match l with
        | [] => q
        | c :: l =>
            if (c =? ","%c) || (c =? " "%c) then q
            else if negb (c =? "."%c) then 0
            else match fraction l q 0 with
                 | None => 0
                 | Some (q, n) => if (100 <? q) || (3 <? n) then 0 else q
                 end
        end
  end.

(** The labels [equal] and [quantity] and the loop before them. *)
Definition after_q (l : list Z) : bool :=
  match l with
  | c :: ((_ :: _) as l) => (c =? "="%c) && negb (ngx_http_gzip_quantity l =? 0)
  | _ => false
  end.

Fixpoint after_semicolon (l : list Z) : bool :=
  match l with
  | [] => true
  | c :: l => if (c =? "q"%c) || (c =? "Q"%c) then after_q l else if c =? " "%c then after_semicolon l else false
  end.

Fixpoint after_gzip (l : list Z) : bool :=
  match l with
  | [] => true
  | c :: l => if c =? ","%c then true else if c =? ";"%c then after_semicolon l else if c =? " "%c then after_gzip l else false
  end.

(** The first loop: [start] goes on behind a "gzip" that does not begin a word; every
    turn passes four bytes. *)
Fixpoint find_gzip (fuel : nat) (v : list Z) (start : Z) : option Z :=
  match fuel with
  | O => None
  | S fuel =>
      match ngx_strcasestrn (drop (Z.to_nat start) v) (bytes_of "gzip") (4 - 1) with
      | None => None
      | Some o =>
          let p := start + o in
          if (o =? 0) || (rd v (p - 1) =? ","%c) || (rd v (p - 1) =? " "%c) then Some p else find_gzip fuel v (p + 4)
      end
  end.

Definition ngx_http_gzip_accept_encoding (ae : list Z) : ngx_rc :=
  match find_gzip (S (length ae)) ae 0 with
  | None => NGX_DECLINED
  | Some p => if after_gzip (drop (Z.to_nat (p + 4)) ae) then NGX_OK else NGX_DECLINED
  end.

Definition NGX_HTTP_GZIP_PROXIED_OFF : Z := 2.
Definition NGX_HTTP_GZIP_PROXIED_EXPIRED : Z := 4.
Definition NGX_HTTP_GZIP_PROXIED_NO_CACHE : Z := 8.
Definition NGX_HTTP_GZIP_PROXIED_NO_STORE : Z := 16.
Definition NGX_HTTP_GZIP_PROXIED_PRIVATE : Z := 32.
Definition NGX_HTTP_GZIP_PROXIED_NO_LM : Z := 64.
Definition NGX_HTTP_GZIP_PROXIED_NO_ETAG : Z := 128.
Definition NGX_HTTP_GZIP_PROXIED_AUTH : Z := 256.
Definition NGX_HTTP_GZIP_PROXIED_ANY : Z := 512.

(** What the test looks at: the request and its headers, the headers of the response,
    and the location. *)
Record gzip_request := Gzip_request {
  is_main : bool;
  spdy_stream : bool;
  accept_encoding : option (list Z);
  msie6 : bool;
  http_version : Z;
  via : bool;
  authorization : bool;
  user_agent : option (list Z);
  out_expires : option (list Z);
  out_date : option (list Z);
  out_cache_control : list (list Z);
  out_last_modified : bool;
  out_etag : bool;
}.
Record gzip_conf := Gzip_conf { gzip_disable_msie6 : bool; gzip_http_version : Z; gzip_proxied : Z; gzip_disable : option nat }.

Definition asked (p flag : Z) : bool := negb (Z.land p flag =? 0).
Definition parse_time (v : list Z) : Z := match ParseTime.ngx_http_parse_time v with ParseTime.Ok t => t | _ => -1 end.

(** [ngx_http_parse_multi_header_lines], header by header. *)
Definition has_directive (cc : list (list Z)) (name : list Z) : bool :=
  existsb (fun v => bool_decide (is_Some (UriUtil.ngx_http_parse_multi_header_lines v ngx_strncasecmp 0
    [UriUtil.Str 0 (Z.of_nat (length v))] name false))) cc.

(** A request that came through a proxy, up to the label [ok]. *)
Definition gzip_proxied_ok (r : gzip_request) (p : Z) : bool :=
  if asked p NGX_HTTP_GZIP_PROXIED_OFF then false
  else if asked p NGX_HTTP_GZIP_PROXIED_ANY then true
  else if authorization r && asked p NGX_HTTP_GZIP_PROXIED_AUTH then true
  else
    match out_expires r with
    | Some e =>
        if negb (asked p NGX_HTTP_GZIP_PROXIED_EXPIRED) then false
        else
          let expires := parse_time e in
          if expires =? -1 then false
          else
            match out_date r with
            | Some d => let date := parse_time d in if date =? -1 then false else expires <? date
            | None => expires <? ngx_time
            end
    | None =>
        match out_cache_control r with
        | _ :: _ as cc =>
            (asked p NGX_HTTP_GZIP_PROXIED_NO_CACHE && has_directive cc (bytes_of "no-cache"))
            || (asked p NGX_HTTP_GZIP_PROXIED_NO_STORE && has_directive cc (bytes_of "no-store"))
            || (asked p NGX_HTTP_GZIP_PROXIED_PRIVATE && has_directive cc (bytes_of "private"))
        | [] =>
            negb (asked p NGX_HTTP_GZIP_PROXIED_NO_LM && out_last_modified r)
            && negb (asked p NGX_HTTP_GZIP_PROXIED_NO_ETAG && out_etag r)
        end
    end.

(** [NGX_OK] sets [r->gzip_ok]. *)
Definition ngx_http_gzip_ok (clcf : gzip_conf) (r : gzip_request) : ngx_rc :=
  if negb (is_main r) then NGX_DECLINED
  else if spdy_stream r then NGX_OK
  else
    match accept_encoding r with
    | None => NGX_DECLINED
    | Some ae =>
        if Z.of_nat (length ae) <? 4 then NGX_DECLINED
        else if negb (bool_decide (take 5 ae = bytes_of "gzip,"))
                && match ngx_http_gzip_accept_encoding ae with NGX_OK => false | _ => true end
        then NGX_DECLINED
        else if msie6 r && gzip_disable_msie6 clcf then NGX_DECLINED
        else if http_version r <? gzip_http_version clcf then NGX_DECLINED
        else if via r && negb (gzip_proxied_ok r (gzip_proxied clcf)) then NGX_DECLINED
        else
          match gzip_disable clcf, user_agent r with
          | Some re, Some ua => match ngx_regex_exec_array re ua with NGX_DECLINED => NGX_OK | _ => NGX_DECLINED end
          | _, _ => NGX_OK
          end
    end.
End Content.

(** ** [ngx_http_get_forwarded_addr] *)

(** An address: its bytes, for IPv4 and IPv6. *)
Inductive sockaddr := Inet (a : list Z) | Inet6 (a : list Z) | Unix.

(** [ngx_cidr_t] *)
Inductive ngx_cidr_t := Cidr_in (addr mask : list Z) | Cidr_in6 (addr mask : list Z) | Cidr_unix.

(** [IN6_IS_ADDR_V4MAPPED]: then the family is that of the last four bytes. *)
Definition v4mapped (a : list Z) : bool := bool_decide (take 12 a = replicate 10 0 ++ [255; 255]).
Definition real_addr (a : sockaddr) : sockaddr :=
  match a with
  | Inet6 b => if v4mapped b then Inet (drop 12 b) else a
  | _ => a
  end.

Definition masked (a mask : list Z) : list Z := zip_with Z.land a mask.
Definition in_cidr (a : sockaddr) (c : ngx_cidr_t) : bool :=
  match real_addr a, c with
  | Inet b, Cidr_in addr mask => bool_decide (masked b mask = addr)
  | Inet6 b, Cidr_in6 addr mask => bool_decide (masked b mask = addr)
  | Unix, Cidr_unix => true
  | _, _ => false
  end.

Section Forwarded.
(** [ngx_parse_addr] *)
Context (ngx_parse_addr : list Z -> option sockaddr).
Context (proxies : list ngx_cidr_t).

Definition is_sep (c : Z) : bool := (c =? " "%c) || (c =? ","%c).

(** [p] goes back from the end over separators, but not to the first byte; then over
    the address.  The result is where the address begins, and the length up to
    its end. *)
Fixpoint back_over_seps (xff : list Z) (p : nat) : nat :=
  match p with
  | O => O
  | S q => if is_sep (rd xff (Z.of_nat p)) then back_over_seps xff q else p
  end.

Fixpoint back_over_addr (xff : list Z) (p : nat) : nat :=
  match p with
  | O => O
  | S q => if is_sep (rd xff (Z.of_nat p)) then S p else back_over_addr xff q
  end.

(** An empty header has the byte before it parsed, here [before]. *)
Definition last_addr (before : Z) (xff : list Z) : list Z * nat :=
  match xff with
  | [] => ([before], 0%nat)
  | _ =>
      let e := back_over_seps xff (length xff - 1) in
      let p := back_over_addr xff e in
      (slice xff (Z.of_nat p) (Z.of_nat e + 1), p)
  end.

Fixpoint ngx_http_get_forwarded_addr_internal (fuel : nat) (before : Z) (addr : sockaddr) (xff : list Z) (recursive : bool)
    : ngx_rc * sockaddr :=
  match fuel with
  | O => (NGX_ERROR, addr)
  | S fuel =>
      if existsb (in_cidr addr) proxies then
        let (text, p) := last_addr before xff in
        match ngx_parse_addr text with
        | None => (NGX_DECLINED, addr)
        | Some paddr =>
            if recursive && (0 <? p)%nat then
              match ngx_http_get_forwarded_addr_internal fuel before paddr (take (p - 1) xff) true with
              | (NGX_DECLINED, a) => (NGX_DONE, a)
              | r => r
              end
            else (NGX_OK, paddr)
        end
      else (NGX_DECLINED, addr)
  end.

Definition forwarded_internal (addr : sockaddr) (xff : list Z) (recursive : bool) : ngx_rc * sockaddr :=
  ngx_http_get_forwarded_addr_internal (S (length xff)) ":"%c addr xff recursive.

(** The headers from the last to the first. *)
Fixpoint forwarded_headers (headers : list (list Z)) (addr : sockaddr) (found recursive : bool) (rc : ngx_rc) : ngx_rc * sockaddr :=
  match headers with
  | [] => (rc, addr)
  | h :: headers =>
      let (rc, addr) := forwarded_internal addr h recursive in
      if negb recursive then (rc, addr)
      else
        match rc with
        | NGX_DECLINED => (if found then NGX_DONE else rc, addr)
        | NGX_OK => forwarded_headers headers addr true recursive rc
        | _ => (rc, addr)
        end
  end.

(** The headers, or one value without them. *)
Definition ngx_http_get_forwarded_addr (addr : sockaddr) (headers : list (list Z) + list Z) (recursive : bool) : ngx_rc * sockaddr :=
  match headers with
  | inr value => forwarded_internal addr value recursive
  | inl headers => forwarded_headers (rev headers) addr false recursive NGX_DECLINED
  end.
End Forwarded.
End CoreContent.

(** * What these functions promise *)

Module CoreContentProps.
Import CoreContent.

(** ** Weights of codings *)

(** A word ends at a comma or a space. *)
Fixpoint word (l : list Z) : list Z :=
  match l with
  | [] => []
  | c :: l => if (c =? ","%c) || (c =? " "%c) then [] else c :: word l
  end.

Definition digit (c : Z) : bool := ("0"%c <=? c) && (c <=? "9"%c).

Fixpoint decimals (unit : Z) (ds : list Z) : Z :=
  match ds with
  | [] => 0
  | d :: ds => (d - "0"%c) * unit + decimals (unit / 10) ds
  end.

(** A weight in thousandths: 0 or 1, with three decimals at most, up to 1. *)
Definition qvalue (t : list Z) : option Z :=
  match t with
  | [] => None
  | c :: t =>
      if negb (c =? "0"%c) && negb (c =? "1"%c) then None
      else
        match t with
        | [] => Some ((c - "0"%c) * 1000)
        | p :: ds =>
            if (p =? "."%c) && forallb digit ds && (Z.of_nat (length ds) <=? 3) then
              let v := (c - "0"%c) * 1000 + decimals 100 ds in
              if v <=? 1000 then Some v else None
            else None
        end
  end.

Definition sum (ds : list Z) : Z := fold_right (fun d s => d - "0"%c + s) 0 ds.

Lemma fraction_word l : forall q n, fraction l q n =
  if forallb digit (word l) then Some (q + sum (word l), n + Z.of_nat (length (word l))) else None.
Proof.
  induction l as [|c l IH]; intros q n; cbn [fraction word]; [cbn; by rewrite !Z.add_0_r|].
  destruct (_ || _); [cbn; by rewrite !Z.add_0_r|]. fold (digit c). cbn [forallb]. destruct (digit c); [|done]. cbn [andb].
  rewrite IH. destruct (forallb digit (word l)); [|done]. cbn [length sum fold_right]. fold (sum (word l)). do 2 f_equal; lia.
Qed.

Lemma qdigit_range c : digit c = true -> 0 <= c - "0"%c <= 9.
Proof. unfold digit. rewrite andb_true_iff, !Z.leb_le. intros H. revert H. change ("0"%c) with 48. change ("9"%c) with 57. lia. Qed.

Lemma sum_range ds : forallb digit ds = true -> 0 <= sum ds <= 9 * Z.of_nat (length ds).
Proof.
  induction ds as [|d ds IH]; cbn [forallb sum fold_right length]; [lia|].
  rewrite andb_true_iff. intros [Hd Hds]. apply qdigit_range in Hd. specialize (IH Hds). fold (sum ds). lia.
Qed.

Lemma decimals_zero ds unit : forallb digit ds = true -> Z.of_nat (length ds) <= 3 -> 10 ^ (Z.of_nat (length ds) - 1) <= unit ->
  0 < unit -> 0 <= decimals unit ds < 10 * unit /\ (decimals unit ds = 0 <-> sum ds = 0).
Proof.
  revert unit. induction ds as [|d ds IH]; intros unit Hd Hl Hu H1; [cbn; lia|].
  cbn [forallb] in Hd. apply andb_true_iff in Hd as [Hd Hds]. apply qdigit_range in Hd. pose proof (sum_range ds Hds) as Hs.
  cbn [length] in *. replace (Z.of_nat (S (length ds)) - 1) with (Z.of_nat (length ds)) in Hu by lia.
  assert (Hn : 0 <= decimals (unit / 10) ds < unit /\ (decimals (unit / 10) ds = 0 <-> sum ds = 0)).
  { destruct ds as [|e ds]; [by cbn|]. cbn [length] in *. rewrite Nat2Z.inj_succ, Z.pow_succ_r in Hu by lia.
    assert (Hp : 10 ^ Z.of_nat (length ds) <= unit / 10) by (apply Z.div_le_lower_bound; lia).
    pose proof (Z.pow_pos_nonneg 10 (Z.of_nat (length ds)) ltac:(lia) ltac:(lia)).
    destruct (IH (unit / 10) Hds ltac:(lia) ltac:(cbn [length]; replace (Z.of_nat (S (length ds)) - 1) with (Z.of_nat (length ds)) by lia; done) ltac:(lia)) as [H2 H3].
    split; [|done]. pose proof (Z.mul_div_le unit 10 ltac:(lia)). lia. }
  cbn [decimals sum fold_right]. fold (sum ds). nia.
Qed.

(** [ngx_http_gzip_quantity] is not zero exactly when the text up to the next comma
    or space is a weight above zero: 0 or 1, with up to three decimals, and not
    more than 1. (It adds the digits up, which is enough for that.) *)
Lemma quantity_exact l : ngx_http_gzip_quantity l <> 0 <-> exists v, qvalue (word l) = Some v /\ 0 < v.
Proof.
  destruct l as [|c l]; cbn [ngx_http_gzip_quantity word]; [split; [done|by intros (v & ? & _)]|].
  change ("0"%c) with 48. change ("1"%c) with 49. destruct (decide (c = 48 \/ c = 49)) as [Hc|Hc].
  - assert (E : (c =? 44) || (c =? 32) = false) by (destruct Hc as [-> | ->]; done).
    assert (E1 : negb (c =? 48) && negb (c =? 49) = false) by (destruct Hc as [-> | ->]; done).
    change (","%c) with 44. change (" "%c) with 32. change ("."%c) with 46. rewrite E, E1. unfold qvalue. change ("0"%c) with 48. change ("1"%c) with 49. rewrite E1.
    destruct l as [|d l]; cbn [word]; [split; [intros; eexists; split; [done|]; lia|intros (v & [= <-] & ?); lia]|].
    change (","%c) with 44. change (" "%c) with 32. change ("."%c) with 46.
    destruct ((d =? 44) || (d =? 32)); [split; [intros; eexists; split; [done|]; lia|intros (v & [= <-] & ?); lia]|].
    destruct (d =? 46); cbn [negb andb]; [|split; [done|by intros (v & ? & _)]].
    rewrite fraction_word. destruct (forallb digit (word l)) eqn:Ef; cbn [andb]; [|split; [done|by intros (v & ? & _)]].
    rewrite Z.add_0_l. destruct (Z.leb_spec (Z.of_nat (length (word l))) 3) as [Hl|Hl].
    + pose proof (sum_range _ Ef) as Hs.
      destruct (decimals_zero (word l) 100 Ef Hl) as [Hd1 Hd2]; [by apply (Z.pow_le_mono_r 10 _ 2); lia|lia|].
      destruct (Z.ltb_spec 3 (Z.of_nat (length (word l)))); [lia|]. rewrite orb_false_r. cbv zeta.
      destruct (Z.ltb_spec 100 ((c - 48) * 100 + sum (word l))), (Z.leb_spec ((c - 48) * 1000 + decimals 100 (word l)) 1000).
      * lia.
      * split; [done|by intros (v & ? & _)].
      * split; [intros; eexists; split; [done|]; lia|intros (v & [= <-] & ?); lia].
      * lia.
    + destruct (Z.ltb_spec 3 (Z.of_nat (length (word l)))); [|lia]. rewrite orb_true_r. split; [done|by intros (v & ? & _)].
  - assert (E : negb (c =? 48) && negb (c =? 49) = true) by (rewrite andb_true_iff, !negb_true_iff, !Z.eqb_neq; tauto).
    rewrite E. split; [done|]. intros (v & H & _). destruct (_ || _); [done|]. unfold qvalue in H.
    change ("0"%c) with 48 in H. change ("1"%c) with 49 in H. by rewrite E in H.
Qed.

(** ** Lists of codings *)

(** The first place where a text has "gzip" in any case. *)
Fixpoint first_gzip (l : list Z) : option nat :=
  if bool_decide (map tolower (take 4 l) = bytes_of "gzip") then Some 0%nat
  else match l with [] => None | _ :: l => S <$> first_gzip l end.

(** A byte that is not in "gzip". *)
Definition other (c : Z) : Prop := tolower c ∉ bytes_of "gzip".

Lemma not_gzip a b c : other c -> (length a < 4)%nat -> map tolower (take 4 (a ++ c :: b)) <> bytes_of "gzip".
Proof.
  intros Hc Hl H. apply Hc. rewrite <- H, take_app, take_ge, map_app by lia. rewrite elem_of_app. right.
  destruct (4 - length a)%nat eqn:E; [lia|]. cbn. apply elem_of_cons. by left.
Qed.

Lemma short_not_gzip a : (length a < 4)%nat -> map tolower (take 4 a) <> bytes_of "gzip".
Proof. intros Hl H. apply (f_equal length) in H. rewrite length_map, length_take in H. change (length (bytes_of "gzip")) with 4%nat in H. lia. Qed.

Lemma first_gzip_sep a c b : other c -> first_gzip (a ++ c :: b) =
  match first_gzip a with Some o => Some o | None => (fun o => length a + 1 + o)%nat <$> first_gzip b end.
Proof.
  intros Hc. induction a as [|x a IH].
  - cbn [app first_gzip]. rewrite bool_decide_eq_false_2 by (by apply (not_gzip [] b c); [|cbn; lia]).
    rewrite bool_decide_eq_false_2 by done. by destruct (first_gzip b).
  - change ((x :: a) ++ c :: b) with (x :: (a ++ c :: b)). cbn [first_gzip].
    destruct (decide (length (x :: a) < 4)%nat) as [Hl|Hl].
    + rewrite (bool_decide_eq_false_2 _ (not_gzip (x :: a) b c Hc Hl)), (bool_decide_eq_false_2 _ (short_not_gzip (x :: a) Hl)).
      rewrite IH. destruct (first_gzip a), (first_gzip b); done.
    + replace (take 4 (x :: a ++ c :: b)) with (take 4 (x :: a)) by (symmetry; apply (take_app_le (x :: a)); lia).
      destruct (bool_decide _); [done|]. rewrite IH. destruct (first_gzip a), (first_gzip b); done.
Qed.

Lemma first_gzip_skip a t b : Forall other t -> first_gzip a = None -> t <> [] ->
  first_gzip (a ++ t ++ b) = (fun o => length a + length t + o)%nat <$> first_gzip b.
Proof.
  intros Ht Ha Hne. destruct t as [|c t]; [done|]. clear Hne. revert a c Ha Ht. induction t as [|d t IH]; intros a c Ha Ht.
  - change (a ++ [c] ++ b) with (a ++ c :: b). inversion Ht; subst. rewrite first_gzip_sep, Ha by done. done.
  - inversion Ht as [|? ? Hc Ht']; subst. change (a ++ (c :: d :: t) ++ b) with (a ++ c :: ([] ++ (d :: t) ++ b)).
    rewrite first_gzip_sep, Ha, (IH [] d) by done. destruct (first_gzip b); [|done]. cbn. f_equal. lia.
Qed.

(** A coding of an "Accept-Encoding", printed: blanks, its name, and its weight after a
    semicolon and more blanks. *)
Record coding := Coding { blanks : nat; name : list Z; gap : nat; weight : option (list Z) }.

Definition spaces (n : nat) : list Z := replicate n (" "%c).
Definition print_weight (c : coding) : list Z :=
  match weight c with None => [] | Some t => bytes_of ";" ++ spaces (gap c) ++ bytes_of "q=" ++ t end.
Definition print_coding (c : coding) : list Z := spaces (blanks c) ++ name c ++ print_weight c.
Fixpoint print_codings (l : list coding) : list Z :=
  match l with
  | [] => []
  | [c] => print_coding c
  | c :: l => print_coding c ++ [","%c] ++ print_codings l
  end.

(** The name begins with "gzip" in any case; it is "gzip" itself. *)
Definition starts_gzip (c : coding) : bool := bool_decide (map tolower (take 4 (name c)) = bytes_of "gzip").
Definition is_gzip (c : coding) : bool := bool_decide (map tolower (name c) = bytes_of "gzip").
Definition weighty (c : coding) : bool :=
  match weight c with
  | None => true
  | Some t => match qvalue t with Some v => 0 <? v | None => false end
  end.

(** No "gzip" begins the text or follows another one in it. *)
Inductive inside : list Z -> Prop :=
| inside_none n : first_gzip n = None -> inside n
| inside_some n o : first_gzip n = Some (S o) -> inside (drop (S o + 4) n) -> inside n.

Definition name_byte (c : Z) : Prop := c <> " "%c /\ c <> ","%c /\ c <> ";"%c.

(** A name has no separators; it may have "gzip" in it, like "x-gzip", but not twice in
    a row; a weight is of digits and points. *)
Definition coding_ok (c : coding) : Prop :=
  Forall name_byte (name c) /\ (starts_gzip c = false -> inside (name c))
  /\ match weight c with None => True | Some t => t <> [] /\ Forall (fun d => digit d = true \/ d = "."%c) t end.

Lemma other_digit d : digit d = true \/ d = "."%c -> other d.
Proof.
  intros H. assert (46 <= d <= 57).
  { destruct H as [H | ->]; [|done]. apply qdigit_range in H. change ("0"%c) with 48 in H. lia. }
  unfold other. assert (tolower d = d) as -> by (unfold tolower, is_upper; destruct (Z.leb_spec ("A"%c) d); [change ("A"%c) with 65 in *; lia|done]).
  rewrite list_elem_of_In. change (bytes_of "gzip") with [103; 122; 105; 112]. cbn [In]. lia.
Qed.

Lemma other_weight c : coding_ok c -> Forall other (print_weight c).
Proof.
  intros (_ & _ & Hw). unfold print_weight. destruct (weight c) as [t|]; [|done]. destruct Hw as [_ Ht].
  assert (Ho : forall b, b ∈ [59; 32; 113; 61] -> other b).
  { intros b Hb. unfold other. rewrite list_elem_of_In in *. change (bytes_of "gzip") with [103; 122; 105; 112]. cbn [In] in *.
    destruct Hb as [<-|[<-|[<-|[<-|[]]]]]; vm_compute; lia. }
  repeat apply Forall_app_2.
  - repeat constructor. apply Ho. rewrite list_elem_of_In. cbn; tauto.
  - apply Forall_replicate, Ho. rewrite list_elem_of_In. cbn; tauto.
  - repeat constructor; apply Ho; rewrite list_elem_of_In; cbn; tauto.
  - exact (List.Forall_impl _ other_digit Ht).
Qed.

Lemma other_space : other (" "%c).
Proof. unfold other. rewrite list_elem_of_In. vm_compute. lia. Qed.

Lemma other_comma : other (","%c).
Proof. unfold other. rewrite list_elem_of_In. vm_compute. lia. Qed.

Lemma other_spaces n : Forall other (spaces n).
Proof. unfold spaces. by apply Forall_replicate, other_space. Qed.

(** What comes first in a list of codings, and the place of its name. *)
Lemma first_gzip_blanks n b : first_gzip (spaces n ++ b) = (fun o => n + o)%nat <$> first_gzip b.
Proof.
  destruct n as [|n]; [change (spaces 0 ++ b) with b; by destruct (first_gzip b)|].
  rewrite <- (app_nil_l (spaces (S n) ++ b)), (first_gzip_skip [] (spaces (S n)) b); [|apply other_spaces|done|done].
  unfold spaces. by rewrite length_replicate.
Qed.

Lemma first_gzip_none b : first_gzip b <> Some 0%nat -> bool_decide (map tolower (take 4 b) = bytes_of "gzip") = false.
Proof. destruct b; cbn [first_gzip]; by destruct (bool_decide _). Qed.

Lemma starts_length c : starts_gzip c = true -> (4 <= length (name c))%nat.
Proof.
  intros H%bool_decide_eq_true%(f_equal length). rewrite length_map, length_take in H. change (length (bytes_of "gzip")) with 4%nat in H. lia.
Qed.

Lemma first_gzip_name c b : starts_gzip c = true -> first_gzip (name c ++ b) = Some 0%nat.
Proof.
  intros H. pose proof (starts_length c H) as Hl. assert (E : bool_decide (map tolower (take 4 (name c ++ b)) = bytes_of "gzip") = true)
    by (rewrite take_app_le by lia; exact H).
  destruct (name c ++ b); cbn [first_gzip]; by rewrite E.
Qed.

Definition begins_word (pre : list Z) : Prop := pre = [] \/ list.last pre = Some (" "%c) \/ list.last pre = Some (","%c).

(** What follows a name, when the codings [l] are next. *)
Definition next_codings (l : list coding) : list Z := match l with [] => [] | _ => ","%c :: print_codings l end.

Lemma print_codings_cons c l : print_codings (c :: l) = spaces (blanks c) ++ name c ++ print_weight c ++ next_codings l.
Proof. destruct l as [|d l]; cbn [print_codings next_codings]; unfold print_coding; rewrite <- ?app_assoc; [by rewrite app_nil_r|done]. Qed.

(** A text without "gzip", before codings. *)
Lemma first_gzip_codings m c l : coding_ok c -> first_gzip m = None ->
  first_gzip (m ++ print_weight c ++ next_codings l) =
    match l with
    | [] => None
    | d :: l => (fun o => length (m ++ print_weight c ++ ","%c :: spaces (blanks d)) + o)%nat
                  <$> first_gzip (name d ++ print_weight d ++ next_codings l)
    end.
Proof.
  intros Hc Hm. destruct l as [|d l]; cbn [next_codings].
  - rewrite app_nil_r. destruct (print_weight c) as [|x t] eqn:Ew; [by rewrite app_nil_r|].
    rewrite <- (app_nil_r (x :: t)), <- Ew, first_gzip_skip; [done|by apply other_weight|done|by rewrite Ew].
  - rewrite print_codings_cons.
    replace (m ++ print_weight c ++ ","%c :: spaces (blanks d) ++ name d ++ print_weight d ++ next_codings l)
      with (m ++ (print_weight c ++ ","%c :: spaces (blanks d)) ++ (name d ++ print_weight d ++ next_codings l))
      by (by rewrite <- !app_assoc).
    rewrite first_gzip_skip; [|apply Forall_app_2; [by apply other_weight|constructor; [apply other_comma|apply other_spaces]]|done|by destruct (print_weight c)].
    destruct (first_gzip (name d ++ _)); [|done]. cbn. f_equal. rewrite !length_app. cbn. lia.
Qed.

(** The first "gzip" of a name stays the first in front of what follows. *)
Lemma first_gzip_in m c l o : coding_ok c -> first_gzip m = Some o -> first_gzip (m ++ print_weight c ++ next_codings l) = Some o.
Proof.
  intros Hc Hm. destruct (print_weight c ++ next_codings l) as [|x t] eqn:E; [by rewrite app_nil_r|].
  rewrite first_gzip_sep, Hm; [done|]. destruct (print_weight c) as [|y u] eqn:Ew.
  - destruct l as [|d l]; [done|]. cbn in E. injection E as <- _. apply other_comma.
  - pose proof (other_weight c Hc) as H. rewrite Ew in H. injection E as <- _. by inversion H.
Qed.

Lemma first_gzip_bound m : forall o, first_gzip m = Some o -> (o + 4 <= length m)%nat.
Proof.
  induction m as [|x m IH]; intros o H; [done|]. cbn [first_gzip] in H. destruct (bool_decide _) eqn:E.
  - injection H as <-. apply bool_decide_eq_true, (f_equal length) in E. rewrite length_map, length_take in E.
    change (length (bytes_of "gzip")) with 4%nat in E. lia.
  - destruct (first_gzip m) as [o'|]; [|done]. injection H as <-. specialize (IH _ eq_refl). cbn [length]. lia.
Qed.

Lemma after_gzip_blanks n b : after_semicolon (spaces n ++ b) = after_semicolon b.
Proof. induction n as [|n IH]; [done|]. exact IH. Qed.

Lemma word_app t b : Forall (fun d => digit d = true \/ d = "."%c) t -> (b = [] \/ exists b', b = ","%c :: b') -> word (t ++ b) = t.
Proof.
  intros Ht Hb. induction t as [|c t IH]; cbn [app word].
  - destruct Hb as [-> |[b' ->]]; done.
  - inversion Ht as [|? ? Hc Ht']; subst. rewrite IH by done.
    assert (46 <= c <= 57) by (destruct Hc as [H | ->]; [apply qdigit_range in H; change ("0"%c) with 48 in H; lia|done]).
    change (","%c) with 44. change (" "%c) with 32. destruct (Z.eqb_spec c 44), (Z.eqb_spec c 32); try lia. done.
Qed.

Lemma after_weight c b : coding_ok c -> (b = [] \/ exists b', b = ","%c :: b') -> after_gzip (print_weight c ++ b) = weighty c.
Proof.
  intros (_ & _ & Hw) Hb. unfold print_weight, weighty. destruct (weight c) as [t|]; [|by destruct Hb as [-> |[b' ->]]].
  destruct Hw as [Hne Ht]. rewrite <- !app_assoc. change (after_gzip (bytes_of ";" ++ ?l)) with (after_semicolon l).
  rewrite after_gzip_blanks. change (after_semicolon (bytes_of "q=" ++ ?l)) with (after_q ("="%c :: l)).
  destruct (t ++ b) as [|x l] eqn:E; [by destruct t|]. change (after_q ("="%c :: x :: l)) with (negb (ngx_http_gzip_quantity (x :: l) =? 0)).
  rewrite <- E. pose proof (quantity_exact (t ++ b)) as H. rewrite word_app in H by done.
  destruct (Z.eqb_spec (ngx_http_gzip_quantity (t ++ b)) 0) as [E0|E0]; cbn [negb].
  - destruct (qvalue t) as [v|]; [|done]. destruct (Z.ltb_spec 0 v); [|done]. exfalso. apply H; [by exists v|done].
  - apply H in E0 as (v & -> & Hv). symmetry. by apply Z.ltb_lt.
Qed.

Section Gzip.
Context {C : ContentCore}.

(** [ngx_strcasestrn] finds the first place. *)
Context (finds_first : forall l, ngx_strcasestrn l (bytes_of "gzip") (4 - 1) = Z.of_nat <$> first_gzip l).

Lemma find_step fuel v pre b : v = pre ++ b ->
  find_gzip (S fuel) v (Z.of_nat (length pre)) =
    match first_gzip b with
    | None => None
    | Some o =>
        let p := Z.of_nat (length pre + o) in
        if (o =? 0)%nat || (rd v (p - 1) =? ","%c) || (rd v (p - 1) =? " "%c) then Some p
        else find_gzip fuel v (Z.of_nat (length pre + o + 4))
    end.
Proof using finds_first.
  intros ->. cbn [find_gzip]. rewrite Nat2Z.id, drop_app_length, finds_first. destruct (first_gzip b) as [o|]; [|done]. cbn [fmap option_fmap option_map].
  rewrite !Nat2Z.inj_add. replace (Z.of_nat o =? 0) with (o =? 0)%nat by (destruct (Nat.eqb_spec o 0), (Z.eqb_spec (Z.of_nat o) 0); lia).
  reflexivity.
Qed.

(** The place of the first coding whose name begins with "gzip", when [p] is that of
    the codings. *)
Fixpoint place (p : nat) (l : list coding) : option Z :=
  match l with
  | [] => None
  | d :: l =>
      let p := (p + blanks d)%nat in
      if starts_gzip d then Some (Z.of_nat p) else place (p + length (name d ++ print_weight d) + 1) l
  end.

Lemma find_shift fuel pre a b : first_gzip (a ++ b) = (fun o => length a + o)%nat <$> first_gzip b -> first_gzip b <> Some 0%nat ->
  find_gzip (S fuel) (pre ++ a ++ b) (Z.of_nat (length pre)) = find_gzip (S fuel) (pre ++ a ++ b) (Z.of_nat (length (pre ++ a))).
Proof using finds_first.
  intros E Hb. rewrite (find_step fuel _ pre (a ++ b) eq_refl), (find_step fuel _ (pre ++ a) b (app_assoc _ _ _)), E.
  destruct (first_gzip b) as [[|o]|]; [done| |done]. cbn [fmap option_fmap option_map]. rewrite length_app.
  replace (length pre + (length a + S o))%nat with (length pre + length a + S o)%nat by lia.
  replace (length a + S o =? 0)%nat with false by (symmetry; apply Nat.eqb_neq; lia).
  done.
Qed.

(** A "gzip" inside of a name is passed over. *)
Lemma find_inside fuel pre m c l o : coding_ok c -> Forall name_byte m -> first_gzip m = Some (S o) ->
  find_gzip (S fuel) (pre ++ m ++ print_weight c ++ next_codings l) (Z.of_nat (length pre)) =
  find_gzip fuel (pre ++ m ++ print_weight c ++ next_codings l) (Z.of_nat (length (pre ++ take (S o + 4) m))).
Proof using finds_first.
  intros Hc Hb Hm. rewrite (find_step fuel _ pre _ eq_refl), (first_gzip_in m c l _ Hc Hm).
  pose proof (first_gzip_bound m _ Hm) as Hl. rewrite length_app, length_take, Nat.min_l by lia. cbn [Nat.eqb orb].
  replace (length pre + S o + 4)%nat with (length pre + (S o + 4))%nat by lia.
  destruct (list.lookup_lt_is_Some_2 m o ltac:(lia)) as [x Hx].
  pose proof (proj1 (list.Forall_lookup _ _) Hb _ _ Hx) as (H1 & H2 & _). apply list.take_drop_middle in Hx as Em.
  assert (Er : rd (pre ++ m ++ print_weight c ++ next_codings l) (Z.of_nat (length pre + S o) - 1) = x).
  { rewrite <- Em at 1. replace (Z.of_nat (length pre + S o) - 1) with (Z.of_nat (length (pre ++ take o m)))
      by (rewrite length_app, length_take; lia).
    replace (pre ++ (take o m ++ x :: drop (S o) m) ++ print_weight c ++ next_codings l)
      with ((pre ++ take o m) ++ x :: drop (S o) m ++ print_weight c ++ next_codings l) by (by rewrite <- !app_assoc).
    apply rd_mid. }
  cbv zeta. rewrite Er. destruct (Z.eqb_spec x (","%c)), (Z.eqb_spec x (" "%c)); done.
Qed.

Lemma not_first d l : coding_ok d -> starts_gzip d = false -> first_gzip (name d ++ print_weight d ++ next_codings l) <> Some 0%nat.
Proof using Type.
  intros Hd Hs. pose proof Hd as (_ & Hin & _). specialize (Hin Hs). inversion Hin as [? E|? o E _]; subst.
  - rewrite first_gzip_codings by done. destruct l as [|e l]; [done|].
    destruct (first_gzip (name e ++ _)) as [n|]; intros H; [|discriminate H]. cbn [fmap option_fmap option_map] in H.
    injection H as H. rewrite !length_app in H. cbn [length] in H. lia.
  - by rewrite (first_gzip_in _ d l _ Hd E).
Qed.

(** The byte before the first coding that begins with "gzip". *)
Lemma byte_before pre d rest : begins_word pre ->
  let p := Z.of_nat (length pre + blanks d) in
  (length pre + blanks d =? 0)%nat || (rd (pre ++ spaces (blanks d) ++ rest) (p - 1) =? ","%c) || (rd (pre ++ spaces (blanks d) ++ rest) (p - 1) =? " "%c) = true.
Proof using Type.
  intros Hp p. assert (Hw : begins_word (pre ++ spaces (blanks d))).
  { destruct (blanks d) as [|n]; [unfold spaces; cbn [replicate]; by rewrite app_nil_r|]. right; left.
    unfold spaces. rewrite replicate_S_end, app_assoc. apply list.last_snoc. }
  assert (El : (length pre + blanks d)%nat = length (pre ++ spaces (blanks d))) by (unfold spaces; by rewrite length_app, length_replicate).
  unfold p. rewrite El, app_assoc. destruct (pre ++ spaces (blanks d)) as [|x q0 _] using rev_ind; [done|].
  destruct Hw as [Hw|Hw]; [by destruct q0|]. rewrite list.last_snoc in Hw. rewrite length_app. cbn [length].
  replace (Z.of_nat (length q0 + 1) - 1) with (Z.of_nat (length q0)) by lia. rewrite <- app_assoc. cbn [app]. rewrite rd_mid.
  destruct Hw as [[= ->] | [= ->]]; by rewrite !orb_true_r.
Qed.

(** The search from [pre] on, in the rest [m] of the name of [c], finds the place among
    the codings [l] that are next. *)
Definition finds (l : list coding) (c : coding) (m : list Z) : Prop := forall pre fuel,
  (length (m ++ print_weight c ++ next_codings l) < fuel)%nat ->
  find_gzip fuel (pre ++ m ++ print_weight c ++ next_codings l) (Z.of_nat (length pre)) = place (length (pre ++ m ++ print_weight c) + 1) l.

Lemma finds_inside l c m : coding_ok c -> Forall name_byte m -> inside m ->
  (forall m, Forall name_byte m -> first_gzip m = None -> finds l c m) -> finds l c m.
Proof using finds_first.
  intros Hc Hb Hin H. induction Hin as [m Hm|m o Hm Hin IH]; [by apply H|]. intros pre [|fuel] Hf; [lia|].
  pose proof (first_gzip_bound m _ Hm) as Hl. rewrite (find_inside fuel pre m c l o) by done.
  rewrite <- (take_drop (S o + 4) m) in Hb. apply Forall_app in Hb as [_ Hb].
  pose proof (IH Hb (pre ++ take (S o + 4) m) fuel) as E. rewrite <- !app_assoc in E.
  rewrite !(app_assoc (take (S o + 4) m)), take_drop in E. apply E.
  rewrite length_app, length_drop. rewrite length_app in Hf. lia.
Qed.

(** From the place of the codings on, when the search has not passed more than what
    is before them. *)
Lemma finds_next d l : coding_ok d -> (starts_gzip d = false -> finds l d (name d)) -> forall fuel pre0 a,
  begins_word (pre0 ++ a) -> first_gzip (a ++ print_codings (d :: l)) = (fun o => length a + blanks d + o)%nat <$> first_gzip (name d ++ print_weight d ++ next_codings l) ->
  (length (a ++ print_codings (d :: l)) < fuel)%nat ->
  find_gzip fuel (pre0 ++ a ++ print_codings (d :: l)) (Z.of_nat (length pre0)) = place (length (pre0 ++ a)) (d :: l).
Proof using finds_first.
  intros Hd Hn [|fuel] pre0 a Hw E Hf; [lia|]. cbn [place]. destruct (starts_gzip d) eqn:Es.
  - rewrite (find_step fuel _ pre0 _ eq_refl), E, print_codings_cons, first_gzip_name by done. cbn [fmap option_fmap option_map].
    pose proof (byte_before (pre0 ++ a) d (name d ++ print_weight d ++ next_codings l) Hw) as H. cbv zeta in H. rewrite <- app_assoc in H.
    rewrite length_app in *. rewrite Nat.add_0_r, !Nat.add_assoc. cbv zeta.
    destruct (Nat.eqb_spec (length a + blanks d) 0) as [E0|E0]; [done|].
    replace (length pre0 + length a + blanks d =? 0)%nat with false in H by (symmetry; apply Nat.eqb_neq; lia). by rewrite H.
  - specialize (Hn eq_refl). rewrite print_codings_cons in *. rewrite (app_assoc a) in E |- *.
    assert (El : (length a + blanks d)%nat = length (a ++ spaces (blanks d))) by (unfold spaces; by rewrite length_app, length_replicate).
    rewrite El in E. rewrite find_shift by (done || by apply not_first). rewrite app_assoc.
    rewrite Hn by (rewrite !length_app in *; lia). f_equal. unfold spaces. rewrite !length_app, length_replicate. lia.
Qed.

Lemma find_codings l : Forall coding_ok l -> forall c m, coding_ok c -> Forall name_byte m -> inside m -> finds l c m.
Proof using finds_first.
  intros Hl. induction Hl as [|d l Hd Hl IH]; intros c m Hc Hb Hin; apply finds_inside; try done; clear m Hb Hin; intros m Hb Hm pre fuel Hf.
  - destruct fuel as [|fuel]; [lia|]. rewrite (find_step fuel _ pre _ eq_refl). by rewrite first_gzip_codings by done.
  - cbn [next_codings] in *.
    assert (Ea : m ++ print_weight c ++ ","%c :: print_codings (d :: l) = (m ++ print_weight c ++ [","%c]) ++ print_codings (d :: l))
      by (by rewrite <- !app_assoc).
    rewrite Ea in *. rewrite (finds_next d l Hd); [f_equal; rewrite !length_app; cbn; lia| | | |done].
    + intros Es. apply IH; [done|apply Hd|by apply Hd].
    + right; right. rewrite !app_assoc. apply list.last_snoc.
    + rewrite <- Ea. change (","%c :: print_codings (d :: l)) with (next_codings (d :: l)). rewrite first_gzip_codings by done.
      destruct (first_gzip (name d ++ _)); [|done]. cbn. f_equal. rewrite !length_app. cbn. unfold spaces. rewrite length_replicate. lia.
Qed.

(** What is found, and what is behind it. *)
Lemma place_find l : forall p, match find starts_gzip l with
  | None => place p l = None
  | Some d => exists q l', place p l = Some (Z.of_nat (p + q)) /\ drop q (print_codings l) = name d ++ print_weight d ++ next_codings l'
  end.
Proof using Type.
  induction l as [|d l IH]; intros p; [done|]. cbn [find place]. rewrite print_codings_cons.
  assert (Es : length (spaces (blanks d)) = blanks d) by apply length_replicate.
  destruct (starts_gzip d); [exists (blanks d), l; split; [done|by rewrite <- Es at 1; rewrite drop_app_length]|].
  specialize (IH (p + blanks d + length (name d ++ print_weight d) + 1)%nat). destruct (find starts_gzip l) as [e|] eqn:Ef; [|done].
  destruct IH as (q & l' & -> & E). exists (blanks d + length (name d ++ print_weight d) + 1 + q)%nat, l'. split; [f_equal; lia|]. rewrite <- E.
  destruct l as [|c l]; [done|]. cbn [next_codings].
  rewrite (app_assoc (name d)), (app_assoc (spaces (blanks d))), (cons_middle (","%c)), (app_assoc _ [","%c]).
  rewrite drop_app_ge by (rewrite !length_app, Es; cbn; lia). f_equal. rewrite !length_app, Es. cbn. lia.
Qed.

(** C34: for an "Accept-Encoding" that is a list of codings, [ngx_http_gzip_accept_encoding]
    looks at the first of them whose name begins with "gzip", in any case: it answers
    [NGX_OK] when that name is "gzip" and its weight, if there is one, is valid and not
    zero, and [NGX_DECLINED] when it is a longer name, or has another weight, or there is
    none.  A "gzip" inside another name, as in "x-gzip", is not taken, unless it follows
    another "gzip": such names are left out here, see [second_gzip_taken]. *)
Theorem gzip_accepted l : Forall coding_ok l ->
  ngx_http_gzip_accept_encoding (print_codings l) =
    match find starts_gzip l with
    | Some c => if is_gzip c && weighty c then NGX_OK else NGX_DECLINED
    | None => NGX_DECLINED
    end.
Proof using finds_first.
  intros Hl. unfold ngx_http_gzip_accept_encoding.
  assert (E : find_gzip (S (length (print_codings l))) (print_codings l) 0 = place 0 l).
  { destruct Hl as [|c l Hc Hl]; [exact (find_step 0 [] [] [] eq_refl)|].
    rewrite (finds_next c l Hc (fun E => find_codings l Hl c _ Hc (proj1 Hc) (proj1 (proj2 Hc) E)) _ [] []); [done|by left| |cbn; lia].
    cbn [app length]. by rewrite print_codings_cons, first_gzip_blanks. }
  rewrite E. pose proof (place_find l 0) as H. destruct (find starts_gzip l) as [d|] eqn:Ef; [|by rewrite H].
  destruct H as (q & l' & -> & Ed). apply find_some in Ef as [Hin Es]. pose proof (starts_length d Es) as Hlen.
  assert (Hd : coding_ok d) by (rewrite List.Forall_forall in Hl; by apply Hl).
  replace (drop (Z.to_nat (Z.of_nat (0 + q) + 4)) (print_codings l)) with (drop 4 (name d) ++ print_weight d ++ next_codings l')
    by (rewrite <- drop_app_le, <- Ed, drop_drop by lia; f_equal; lia).
  destruct (is_gzip d) eqn:Eg.
  - apply bool_decide_eq_true, (f_equal length) in Eg. rewrite length_map in Eg. change (length (bytes_of "gzip")) with 4%nat in Eg.
    rewrite drop_ge by lia. cbn [app andb]. rewrite after_weight; [done|done|]. destruct l'; [by left|right; by eexists].
  - destruct (drop 4 (name d)) as [|x t] eqn:Ex.
    { exfalso. apply (f_equal length) in Ex. rewrite length_drop in Ex. cbn in Ex. apply bool_decide_eq_false in Eg. apply Eg.
      apply bool_decide_eq_true in Es. by rewrite take_ge in Es by lia. }
    destruct Hd as [Hb _]. rewrite <- (take_drop 4 (name d)), Ex in Hb. apply Forall_app in Hb as [_ Hb]. inversion Hb as [|? ? (H1 & H2 & H3)]; subst.
    cbn [app after_gzip andb]. destruct (Z.eqb_spec x (","%c)), (Z.eqb_spec x (";"%c)), (Z.eqb_spec x (" "%c)); done.
Qed.
End Gzip.

(** ** Addresses of clients *)

Section Forwarded.
Context (ngx_parse_addr : list Z -> option sockaddr) (proxies : list ngx_cidr_t).

Definition trusted (a : sockaddr) : bool := existsb (in_cidr a) proxies.

(** The client behind [a], when [l] are the texts of the addresses it was forwarded for,
    the nearest first: the first that is not a proxy, or whose next text is no address,
    or the last of all. *)
Fixpoint client (a : sockaddr) (l : list (list Z)) : sockaddr :=
  match l with
  | [] => a
  | t :: l => if trusted a then match ngx_parse_addr t with Some b => client b l | None => a end else a
  end.

(** Whether an address is taken. *)
Definition taken (a : sockaddr) (l : list (list Z)) : bool :=
  match l with
  | [] => false
  | t :: _ => trusted a && match ngx_parse_addr t with Some _ => true | None => false end
  end.

Definition seps (l : list Z) : Prop := Forall (fun c => is_sep c = true) l.
Definition plain (l : list Z) : Prop := l <> [] /\ Forall (fun c => is_sep c = false) l.

Lemma rd_last pre c post i : i = length pre -> rd (pre ++ c :: post) (Z.of_nat i) = c.
Proof using Type. intros ->. apply rd_mid. Qed.

Lemma back_over_seps_app a t : seps t -> a <> [] -> (exists a' c, a = a' ++ [c] /\ is_sep c = false) ->
  back_over_seps (a ++ t) (length (a ++ t) - 1) = (length a - 1)%nat.
Proof using Type.
  intros Ht Hne (a' & c & -> & Hc).
  assert (H : forall n, (n <= length t)%nat -> back_over_seps ((a' ++ [c]) ++ t) (length a' + n) = length a').
  { induction n as [|n IH]; intros Hn.
    - rewrite Nat.add_0_r. destruct (length a') as [|m] eqn:E; [done|]. cbn [back_over_seps]. rewrite <- E.
      rewrite <- app_assoc. cbn [app]. by rewrite rd_mid, Hc.
    - rewrite Nat.add_succ_r. cbn [back_over_seps]. destruct (lookup_lt_is_Some_2 t n ltac:(lia)) as [d Hd].
      assert (Er : rd ((a' ++ [c]) ++ t) (Z.of_nat (S (length a' + n))) = d).
      { unfold rd. rewrite Nat2Z.id, app_nth2 by (rewrite length_app; cbn; lia). rewrite length_app. cbn [length].
        replace (S (length a' + n) - (length a' + 1))%nat with n by lia. by apply nth_lookup_Some. }
      rewrite Er. unfold seps in Ht. rewrite list.Forall_lookup in Ht. rewrite (Ht _ _ Hd). apply IH. lia. }
  rewrite !length_app in *. cbn [length]. replace (length a' + 1 + length t - 1)%nat with (length a' + length t)%nat by lia.
  rewrite H by lia. lia.
Qed.

Lemma back_over_addr_app pre t post : plain t -> (pre = [] \/ exists q d, pre = q ++ [d] /\ is_sep d = true /\ q <> []) ->
  back_over_addr (pre ++ t ++ post) (length pre + length t - 1) = length pre.
Proof using Type.
  intros [Hne Ht] Hp.
  assert (H : forall n, (n < length t)%nat -> back_over_addr (pre ++ t ++ post) (length pre + n) = length pre).
  { induction n as [|n IH]; intros Hn.
    - rewrite Nat.add_0_r. destruct Hp as [-> |(q & d & -> & Hd & Hq)]; [done|]. destruct t as [|x t]; [done|]. inversion Ht as [|? ? Hx Ht']; subst.
      rewrite length_app. cbn [length]. rewrite Nat.add_1_r. cbn [back_over_addr].
      assert (Er : rd ((q ++ [d]) ++ (x :: t) ++ post) (Z.of_nat (S (length q))) = x)
        by (change ((x :: t) ++ post) with (x :: (t ++ post)); apply rd_last; rewrite length_app; cbn; lia).
      rewrite Er, Hx. destruct (length q) as [|m] eqn:E; [by apply length_zero_iff_nil in E|]. cbn [back_over_addr]. rewrite <- E.
      rewrite <- app_assoc. cbn [app]. by rewrite rd_mid, Hd, E.
    - rewrite Nat.add_succ_r. cbn [back_over_addr]. destruct (lookup_lt_is_Some_2 t (S n) ltac:(lia)) as [x Hx].
      assert (Er : rd (pre ++ t ++ post) (Z.of_nat (S (length pre + n))) = x).
      { unfold rd. rewrite Nat2Z.id, app_nth2, app_nth1 by lia. replace (S (length pre + n) - length pre)%nat with (S n) by lia. by apply nth_lookup_Some. }
      rewrite Er. rewrite list.Forall_lookup in Ht. rewrite (Ht _ _ Hx). apply IH. lia. }
  destruct t as [|x t]; [done|]. cbn [length]. replace (length pre + S (length t) - 1)%nat with (length pre + length t)%nat by lia.
  apply H. cbn. lia.
Qed.

(** What is parsed: the last address of the header, without separators behind it. *)
Lemma last_addr_app before pre t post : plain t -> seps post -> (pre = [] \/ exists q d, pre = q ++ [d] /\ is_sep d = true /\ q <> []) ->
  last_addr before (pre ++ t ++ post) = (t, length pre).
Proof using Type.
  intros Ht Hpost Hpre. assert (Hend : exists a' c, pre ++ t = a' ++ [c] /\ is_sep c = false).
  { destruct Ht as [Hne Ht]. destruct (list.last t) as [c|] eqn:E; [|by apply list.last_None in E]. apply list.last_Some in E as [t' ->].
    exists (pre ++ t'), c. split; [by rewrite app_assoc|]. apply Forall_app in Ht as [_ Ht]. by inversion Ht. }
  pose proof (back_over_seps_app (pre ++ t) post Hpost ltac:(by destruct Hend as (a & c & -> & _); destruct a) Hend) as H1.
  pose proof (back_over_addr_app pre t post Ht Hpre) as H2. rewrite <- app_assoc, (length_app pre t) in H1.
  assert (E : last_addr before (pre ++ t ++ post) =
    (let e := back_over_seps (pre ++ t ++ post) (length (pre ++ t ++ post) - 1) in let p := back_over_addr (pre ++ t ++ post) e in
     (slice (pre ++ t ++ post) (Z.of_nat p) (Z.of_nat e + 1), p))).
  { unfold last_addr. destruct (pre ++ t ++ post) eqn:E; [|done]. by destruct Ht as [Hne _]; destruct pre, t. }
  rewrite E. cbv zeta. rewrite H1, H2. f_equal. unfold slice. rewrite Nat2Z.id, drop_app_length. apply take_app_length'.
  destruct t as [|x t]; [by destruct Ht|]. cbn [length]. lia.
Qed.

(** A header: the first text, then each with the separators before it, and separators
    at the end.  A text is of bytes that are no separators, an address or not. *)
Record header := Header { first : list Z; others : list (list Z * list Z); tail : list Z }.
Definition print_others (l : list (list Z * list Z)) : list Z := concat (map (fun '(s, t) => s ++ t) l).
Definition print (h : header) : list Z := first h ++ print_others (others h) ++ tail h.
Definition texts (h : header) : list (list Z) := first h :: map snd (others h).
Definition header_ok (h : header) : Prop :=
  plain (first h) /\ Forall (fun '(s, t) => seps s /\ s <> [] /\ plain t) (others h) /\ seps (tail h).

(** What is parsed of a header, and what is left before it. *)
Lemma last_addr_print before h : header_ok h ->
  match rev (others h) with
  | [] => last_addr before (print h) = (first h, 0%nat)
  | (s, t) :: l => exists s' d, s = s' ++ [d] /\
      let q := Header (first h) (rev l) s' in
      header_ok q /\ last_addr before (print h) = (t, S (length (print q))) /\ take (length (print q)) (print h) = print q
  end.
Proof using Type.
  destruct h as [a l tl]. intros (Ha & Hl & Ht). cbn [first others tail] in *. destruct l as [|[s t] l _] using rev_ind.
  - unfold print. cbn [first others tail print_others map concat app]. change (a ++ tl) with ([] ++ a ++ tl). by apply last_addr_app; [..|left].
  - rewrite rev_app_distr. cbn [rev app]. rewrite rev_involutive. apply Forall_app in Hl as [Hl Hb]. inversion Hb as [|? ? Hst _]; subst. clear Hb.
    destruct Hst as (Hs & Hne & Hpt). destruct (list.last s) as [d|] eqn:Es; [|by apply list.last_None in Es]. apply list.last_Some in Es as [s' ->].
    apply Forall_app in Hs as [Hs' Hd]. inversion Hd as [|? ? Hd' _]; subst. clear Hd. exists s', d. split; [done|].
    set (q := Header a l s'). split; [done|]. assert (E : print (Header a (l ++ [(s' ++ [d], t)]) tl) = (print q ++ [d]) ++ t ++ tl).
    { unfold q, print, print_others. cbn [first others tail]. rewrite map_app, concat_app. cbn [map concat]. by rewrite app_nil_r, <- !app_assoc. }
    rewrite E. split; [|by rewrite <- app_assoc, take_app_length]. rewrite last_addr_app; [|done|done|].
    + f_equal. rewrite length_app. cbn. lia.
    + right. exists (print q), d. split; [done|]. split; [done|]. unfold q, print. cbn [first]. destruct Ha as [Hne' _]. by destruct a.
Qed.

(** What a header does: [r.2] is the client as far as it tells; unless the code is
    [NGX_OK] it is the client. *)
Definition told (addr : sockaddr) (l : list (list Z)) (r : ngx_rc * sockaddr) : Prop :=
  r.2 = client addr l /\ (if taken addr l then r.1 = NGX_OK \/ r.1 = NGX_DONE else r.1 = NGX_DECLINED)
  /\ forall l', client addr (l ++ l') = match r.1 with NGX_OK => client r.2 l' | _ => r.2 end.

Lemma rev_texts h : rev (texts h) = map snd (rev (others h)) ++ [first h].
Proof using Type. unfold texts. cbn [rev]. by rewrite map_rev. Qed.

(** The recursion has a turn per text. *)
Lemma internal_told n : forall fuel before addr h, length (others h) = n -> header_ok h -> (n < fuel)%nat ->
  told addr (rev (texts h)) (ngx_http_get_forwarded_addr_internal ngx_parse_addr proxies fuel before addr (print h) true).
Proof using Type.
  induction n as [|n IH]; intros [|fuel] before addr h Hn Hh Hf; try lia; rewrite rev_texts;
    pose proof (last_addr_print before h Hh) as Hp; rewrite <- length_rev in Hn; destruct (rev (others h)) as [|[s t] l]; try done;
    cbn [ngx_http_get_forwarded_addr_internal]; fold (trusted addr); cbn [map snd app]; unfold told; cbn [client taken app].
  - rewrite Hp. destruct (trusted addr) eqn:Et; [|by split_and!]. destruct (ngx_parse_addr (first h)) as [b|] eqn:Eb; cbn; [|by split_and!]. split_and!; auto.
  - destruct Hp as (s' & d & -> & Hq & -> & Etk). destruct (trusted addr) eqn:Et; [|by split_and!].
    destruct (ngx_parse_addr t) as [b|] eqn:Eb; [|by split_and!]. cbn [andb Nat.ltb Nat.leb Nat.sub]. rewrite Nat.sub_0_r, Etk.
    cbn in Hn. injection Hn as Hn. rewrite <- length_rev in Hn.
    destruct (IH fuel before b (Header (first h) (rev l) s') Hn Hq ltac:(lia)) as (H1 & H2 & H3). rewrite rev_texts in H1, H2, H3. cbn [others first] in H1, H2, H3.
    rewrite rev_involutive in H1, H2, H3.
    destruct (ngx_http_get_forwarded_addr_internal _ _ fuel before b _ true) as [rc x]. cbn [fst snd] in *.
    destruct rc; cbn [fst snd]; split_and!; auto; try done;
      destruct (taken b _); try done; destruct H2 as [H2|H2]; try done; auto.
Qed.

Lemma print_length h : header_ok h -> (length (others h) < S (length (print h)))%nat.
Proof using Type.
  intros (_ & Hl & _). unfold print. rewrite !length_app. assert (length (others h) <= length (print_others (others h)))%nat; [|lia].
  unfold print_others. induction Hl as [|[s t] l H _ IH]; [done|]. destruct H as (_ & Hne & _). cbn [map concat length]. rewrite !length_app. destruct s; [done|]. cbn [length]. lia.
Qed.

Lemma forwarded_told addr h : header_ok h -> told addr (rev (texts h)) (forwarded_internal ngx_parse_addr proxies addr (print h) true).
Proof using Type. intros Hh. by apply (internal_told (length (others h))); [..|apply print_length]. Qed.

(** Without [recursive] the last text of a header is taken. *)
Lemma forwarded_last addr h : header_ok h -> forall l,
  let r := forwarded_internal ngx_parse_addr proxies addr (print h) false in
  r.2 = client addr (take 1 (rev (texts h) ++ l)) /\ r.1 = if taken addr (rev (texts h) ++ l) then NGX_OK else NGX_DECLINED.
Proof using Type.
  intros Hh l. unfold forwarded_internal. cbn [ngx_http_get_forwarded_addr_internal]. fold (trusted addr). rewrite rev_texts.
  pose proof (last_addr_print ":"%c h Hh) as Hp. destruct (rev (others h)) as [|[s t] m].
  - rewrite Hp. cbn [map app take client taken]. destruct (trusted addr); [|done]. by destruct (ngx_parse_addr (first h)).
  - destruct Hp as (s' & d & _ & _ & -> & _). cbn [map snd app take client taken]. destruct (trusted addr); [|done]. by destruct (ngx_parse_addr t).
Qed.

Lemma client_app a l l' : taken a l = false -> l <> [] -> client a (l ++ l') = a.
Proof using Type. destruct l as [|t l]; [done|]. cbn. destruct (trusted a); [|done]. by destruct (ngx_parse_addr t). Qed.

Lemma taken_app a l l' : l <> [] -> taken a (l ++ l') = taken a l.
Proof using Type. by destruct l. Qed.

Lemma texts_some h : rev (texts h) <> [].
Proof using Type. rewrite rev_texts. by destruct (map snd _). Qed.

Lemma headers_told hs : Forall header_ok hs -> forall addr found rc,
  let l := concat (map (fun h => rev (texts h)) hs) in
  let r := forwarded_headers ngx_parse_addr proxies (map print hs) addr found true rc in
  r.2 = client addr l /\ (r.1 = NGX_DECLINED <-> hs = [] /\ rc = NGX_DECLINED \/ hs <> [] /\ taken addr l = false /\ found = false).
Proof using Type.
  induction 1 as [|h hs Hh _ IH]; intros addr found rc; cbn [map forwarded_headers concat].
  - split; [done|]. cbn. split; [by intros ->; left|by intros [[_ ?]|[? _]]].
  - destruct (forwarded_told addr h Hh) as (H1 & H2 & H3). rewrite taken_app by apply texts_some.
    destruct (forwarded_internal _ _ _ _ _) as [rc1 x]. cbn [fst snd negb] in *. rewrite H3.
    destruct rc1; cbn [fst snd]; try (destruct (taken addr _); [destruct H2|]; done).
    + destruct (IH x true NGX_OK) as [H4 H5]. split; [done|]. rewrite H5.
      destruct (taken addr _); [|done]. split; [intros [[_ ?]|(_ & _ & ?)]; done|intros [[? _]|(_ & ? & _)]; done].
    + split; [done|]. destruct (taken addr _); [|done]. split; [done|]. intros [[? _]|(_ & ? & _)]; done.
    + split; [done|]. destruct (taken addr _); [destruct H2; done|]. destruct found; (split; [|try done]); [done|intros [[? _]|(_ & _ & ?)]; done|by intros _; right].
Qed.

Lemma rev_all_texts hs : concat (map (fun h => rev (texts h)) (rev hs)) = rev (concat (map texts hs)).
Proof using Type.
  induction hs as [|h hs IH]; [done|]. cbn [rev map concat]. rewrite map_app, concat_app, IH, rev_app_distr. cbn [map concat]. by rewrite app_nil_r.
Qed.

(** C27: the address that a request is taken to come from, when it came from [addr], with
    headers of texts between blanks and commas, addresses or not, each with a text at its
    beginning.  With [recursive] it is found by going back through the texts of all the
    headers from the last one, as long as the address before is that of a trusted proxy
    and the text is an address; without, only the last text of all is looked at.  The
    result is [NGX_DECLINED] exactly when nothing is taken from the headers, [addr] being
    no proxy or the last text no address.  An empty header is left out here, see
    [byte_before_header]. *)
Theorem forwarded_client addr hs recursive : Forall header_ok hs ->
  let l := rev (concat (map texts hs)) in
  let r := ngx_http_get_forwarded_addr ngx_parse_addr proxies addr (inl (map print hs)) recursive in
  r.2 = client addr (if recursive then l else take 1 l) /\ (r.1 = NGX_DECLINED <-> taken addr l = false).
Proof using Type.
  intros Hok l r. unfold r, l, ngx_http_get_forwarded_addr. rewrite <- map_rev, <- rev_all_texts. apply Forall_rev in Hok.
  destruct recursive.
  - destruct (headers_told (rev hs) Hok addr false NGX_DECLINED) as [H1 H2]. split; [done|]. rewrite H2.
    destruct (rev hs) as [|h hs']; [split; [done|by left]|]. split; [intros [[? _]|(_ & ? & _)]; done|by intros ?; right].
  - destruct Hok as [|h hs' Hh _]; [done|]. cbn [map forwarded_headers concat negb].
    destruct (forwarded_last addr h Hh (concat (map (fun h => rev (texts h)) hs'))) as [H1 H2].
    destruct (forwarded_internal _ _ _ _ _) as [rc x]. cbn [fst snd] in *. split; [done|]. rewrite H2. by destruct (taken _ _).
Qed.
End Forwarded.

(** ** Users *)

Section Users.
Context {C : ContentCore} (ngx_encode_base64 : list Z -> list Z).
Context (decodes : forall l, ngx_decode_base64 (ngx_encode_base64 l) = Some l).
Context (encoded : forall l, l <> [] -> exists c e, ngx_encode_base64 l = c :: e /\ c <> " "%c).
Context (compares : forall v w, ngx_strncasecmp (v ++ w) v (Z.of_nat (length v)) = 0).
Context (memory : forall n, ngx_pnalloc n = true).

Lemma find_colon_app u p : ":"%c ∉ u -> find_colon (u ++ ":"%c :: p) = length u.
Proof using Type.
  induction u as [|c u IH]; intros H; cbn [app find_colon length]; [done|]. rewrite not_elem_of_cons in H. destruct H as [Hc Hu].
  destruct (Z.eqb_spec c (":"%c)); [by subst|]. by rewrite IH.
Qed.

Lemma skip_blanks_spaces n c e : c <> " "%c -> skip_blanks (spaces n ++ c :: e) = c :: e.
Proof using Type.
  intros Hc. induction n as [|n IH]; [cbn [spaces replicate app skip_blanks]; by destruct (Z.eqb_spec c (" "%c))|]. exact IH.
Qed.

(** The user and password that a client puts into "Authorization: Basic" are the ones
    that [ngx_http_auth_basic_user] finds, with any number of blanks, for a user
    without a colon and any password, which may have them. *)
Theorem basic_user_roundtrip n user passwd : user <> [] -> ":"%c ∉ user ->
  ngx_http_auth_basic_user (Some (bytes_of "Basic " ++ spaces n ++ ngx_encode_base64 (user ++ ":"%c :: passwd))) Unknown
  = (NGX_OK, User user passwd).
Proof using decodes encoded compares memory.
  intros Hu Hc. unfold ngx_http_auth_basic_user. set (v := bytes_of "Basic " ++ _).
  assert (Hv : (Z.of_nat (length v) <? 6) = false) by (apply Z.ltb_ge; unfold v; rewrite length_app; change (length (bytes_of "Basic ")) with 6%nat; lia).
  rewrite Hv. unfold v. change 6 with (Z.of_nat (length (bytes_of "Basic "))) at 1. rewrite compares. cbn [Z.eqb negb orb].
  change (drop 6 (bytes_of "Basic " ++ ?l)) with l.
  destruct (encoded (user ++ ":"%c :: passwd)) as (c & e & Ee & Hs); [by destruct user|]. rewrite Ee, skip_blanks_spaces by done.
  rewrite bool_decide_eq_false_2, memory by done. cbn [negb]. rewrite <- Ee, decodes, find_colon_app by done.
  rewrite length_app. cbn [length].
  destruct (Nat.eqb_spec (length user) 0) as [E|]; [by apply length_zero_iff_nil in E|].
  destruct (Nat.eqb_spec (length user) (length user + S (length passwd))); [lia|]. cbn [orb].
  rewrite take_app_length. do 2 f_equal. rewrite drop_app_ge by lia. by replace (S (length user) - length user)%nat with 1%nat by lia.
Qed.
End Users.

(** ** Paths *)

Lemma cpystrn_all src n : NUL ∉ src -> n = S (length src) -> cpystrn src n = src ++ [NUL].
Proof.
  revert n. induction src as [|c src IH]; intros n Hn ->; [done|]. apply not_elem_of_cons in Hn as [Hc Hn].
  cbn [length cpystrn app]. destruct (Z.eqb_spec c NUL); [by subst|]. by rewrite IH.
Qed.

(** What a URI is mapped to: the root of the location, or for an alias with captures the
    alias, then the URI without the location's name. *)
Definition mapped {C : ContentCore} (clcf : root_conf) (add_uri_to_alias : bool) (uri : list Z) : option (list Z * list Z) :=
  if root_has_script clcf then
    match root_script with
    | None => None
    | Some path =>
        Some (path, if negb (alias clcf =? 0) && is_regex clcf then (if add_uri_to_alias then uri else [])
                    else drop (Z.to_nat (alias clcf)) uri)
    end
  else Some (root clcf, drop (Z.to_nat (alias clcf)) uri).

(** The path of a URI is the root and what is left of the URI, with a zero behind,
    and fills exactly what has been allocated for it, less what the caller has reserved. *)
Theorem map_uri_to_path_fits {C : ContentCore} clcf valid add_ uri reserved path len n :
  ngx_http_map_uri_to_path clcf valid add_ uri reserved = Some (path, len, n) ->
  0 <= alias clcf <= Z.of_nat (length uri) -> NUL ∉ uri ->
  Z.of_nat (length path) + reserved = len
  /\ exists root rest, mapped clcf add_ uri = Some (root, rest) /\ path = root ++ rest ++ [NUL] /\ n = Z.of_nat (length root).
Proof.
  intros H Ha Hn. unfold ngx_http_map_uri_to_path, mapped in *.
  assert (Hrest : forall a, 0 <= a <= Z.of_nat (length uri) ->
    cpystrn (drop (Z.to_nat a) uri) (Z.to_nat (Z.of_nat (length uri) - a + 1)) = drop (Z.to_nat a) uri ++ [NUL]
    /\ Z.of_nat (length (drop (Z.to_nat a) uri)) = Z.of_nat (length uri) - a).
  { intros a Hr. split; [|rewrite length_drop; lia]. apply cpystrn_all; [|rewrite length_drop; lia].
    intros Hin. apply Hn. rewrite <- (take_drop (Z.to_nat a) uri), elem_of_app. by right. }
  destruct (Hrest (alias clcf) Ha) as [E1 E2]. destruct (Hrest 0 ltac:(lia)) as [E3 E4].
  destruct (negb (alias clcf =? 0) && negb valid); [done|]. destruct (root_has_script clcf); cbn [negb] in H.
  - destruct root_script as [p|]; [|done]. destruct (negb (alias clcf =? 0) && is_regex clcf); [destruct add_|]; cbn [andb negb] in H;
      injection H as <- <- <-; rewrite ?E1, ?E3, ?length_app; cbn [length]; (split; [lia|]); by eexists _, _.
  - destruct (negb _); [done|]. injection H as <- <- <-. rewrite E1, !length_app. cbn [length]. split; [lia|]. by eexists _, _.
Qed.

(** ** Examples *)

(** Bytes are encoded as they are, behind a letter. *)
Definition ex_core : ContentCore := {|
  ngx_pnalloc _ := true;
  ngx_list_push := true;
  ngx_hash k c := wrap 64 (k * 31 + c);
  ngx_tolower := tolower;
  ngx_hash_strlow l := (fold_left (fun k c => wrap 64 (k * 31 + tolower c)) l 0, map tolower l);
  ngx_hash_find A elts _ k := option_map snd (find (fun e => bool_decide (e.1 = k)) elts);
  ngx_hex n := [n];
  ngx_decode_base64 l := match l with [] => None | _ :: l => Some l end;
  ngx_base64_decoded_length n := n;
  ngx_strcasestrn l s n := if bool_decide (s = bytes_of "gzip") then Z.of_nat <$> first_gzip l else None;
  ngx_strncasecmp a b n := if bool_decide (map tolower (take (Z.to_nat n) a) = map tolower (take (Z.to_nat n) b)) then 0 else 1;
  ngx_regex_exec_array _ _ := NGX_DECLINED;
  ngx_time := 0;
  root_script := None;
|}.

Definition ex_codings : list coding :=
  [Coding 0 (bytes_of "deflate") 0 None; Coding 0 (bytes_of "x-gzip-gzip") 0 None; Coding 1 (bytes_of "GZip") 1 (Some (bytes_of "0.01")); Coding 1 (bytes_of "br") 0 (Some (bytes_of "1"))].

Lemma gzip_accepted_witness :
  print_codings ex_codings = bytes_of "deflate,x-gzip-gzip, GZip; q=0.01, br;q=1"
  /\ @ngx_http_gzip_accept_encoding ex_core (print_codings ex_codings) = NGX_OK.
Proof.
  split; [vm_compute; reflexivity|]. rewrite (@gzip_accepted ex_core ltac:(intros; reflexivity) ex_codings); [vm_compute; reflexivity|].
  repeat (apply List.Forall_cons; [split; [repeat (apply List.Forall_cons; [repeat split; discriminate|]); apply List.Forall_nil|split]|]); try apply List.Forall_nil;
    try (intros E; first [vm_compute in E; discriminate|apply inside_none; vm_compute; reflexivity
      |apply (inside_some _ 1); [vm_compute; reflexivity|apply (inside_some _ 0); [vm_compute; reflexivity|apply inside_none; vm_compute; reflexivity]]]);
    try exact I;
    (split; [discriminate|]); repeat (apply List.Forall_cons; [first [left; reflexivity|right; reflexivity]|]); apply List.Forall_nil.
Defined.

(** "gzip" that follows another is taken though it does not begin a word. *)
Example second_gzip_taken : @ngx_http_gzip_accept_encoding ex_core (bytes_of "x-gzipgzip") = NGX_OK
  /\ @ngx_http_gzip_accept_encoding ex_core (bytes_of "x-gzip") = NGX_DECLINED.
Proof. by vm_compute. Qed.

Lemma basic_user_roundtrip_witness :
  @ngx_http_auth_basic_user ex_core (Some (bytes_of "Basic  =me:a:b")) Unknown = (NGX_OK, User (bytes_of "me") (bytes_of "a:b")).
Proof.
  apply (@basic_user_roundtrip ex_core (fun l => "="%c :: l) ltac:(done) ltac:(intros l _; by exists ("="%c), l)
    ltac:(intros v w; cbn; rewrite Nat2Z.id, take_app_length, take_ge by lia; by rewrite bool_decide_eq_true_2)
    ltac:(done) 1 (bytes_of "me") (bytes_of "a:b")); [done|].
  vm_compute. intros H. by repeat (apply elem_of_cons in H as [H|H]; [done|]); apply not_elem_of_nil in H.
Defined.

Lemma map_uri_to_path_fits_witness :
  @ngx_http_map_uri_to_path ex_core (Root_conf (bytes_of "/srv") 4 false false) true false (bytes_of "/img/a.png") 3
    = Some (bytes_of "/srv/a.png" ++ [NUL], 14, 4)
  /\ Z.of_nat (length (bytes_of "/srv/a.png" ++ [NUL])) + 3 = 14.
Proof.
  split; [vm_compute; reflexivity|].
  apply (@map_uri_to_path_fits ex_core (Root_conf (bytes_of "/srv") 4 false false) true false (bytes_of "/img/a.png") 3
    (bytes_of "/srv/a.png" ++ [NUL]) 14 4); [vm_compute; reflexivity|by vm_compute|].
  vm_compute. intros H. by repeat (apply elem_of_cons in H as [H|H]; [done|]); apply not_elem_of_nil in H.
Defined.

(** Addresses of one letter. *)
Definition ex_parse (l : list Z) : option sockaddr := match l with [c] => Some (Inet [c; 0; 0; 1]) | _ => None end.
Definition ex_proxies : list ngx_cidr_t := [Cidr_in [112; 0; 0; 0] [255; 0; 0; 0]].
Definition ex_addr (c : Z) : sockaddr := Inet [c; 0; 0; 1].
Definition ex_headers : list header :=
  [Header (bytes_of "a") [(bytes_of ", ", bytes_of "-?-"); (bytes_of ", ", bytes_of "b")] [];
   Header (bytes_of "p") [(bytes_of ",", bytes_of "p")] (bytes_of " ")].

Lemma forwarded_client_witness :
  map print ex_headers = [bytes_of "a, -?-, b"; bytes_of "p,p "]
  /\ (ngx_http_get_forwarded_addr ex_parse ex_proxies (ex_addr 112) (inl (map print ex_headers)) true).2 = ex_addr 98
  /\ (ngx_http_get_forwarded_addr ex_parse ex_proxies (ex_addr 112) (inl (map print ex_headers)) false).2 = ex_addr 112.
Proof.
  split; [vm_compute; reflexivity|].
  destruct (forwarded_client ex_parse ex_proxies (ex_addr 112) ex_headers true) as [H _]; [by repeat constructor|].
  destruct (forwarded_client ex_parse ex_proxies (ex_addr 112) ex_headers false) as [H' _]; [by repeat constructor|].
  rewrite H, H'. split; vm_compute; reflexivity.
Defined.

(** Of an empty header the byte before it is looked at. *)
Example byte_before_header : ngx_http_get_forwarded_addr (fun l => if bool_decide (l = [":"%c]) then Some (ex_addr 0) else None) ex_proxies
  (ex_addr 112) (inl [[]]) true = (NGX_OK, ex_addr 0).
Proof. reflexivity. Qed.
End CoreContentProps.
